(* ===== verification/_CoqProject ===== *)
-Q . S2P
Prelude.v
Worklist.v
PyValue.v
ModelCatalog.v
GraphData.v
GraphAccounting.v
GraphPlan.v
GraphInvariant.v
GraphBatch.v
GraphOrder.v
GraphRuns.v
GraphLedger.v
GraphSafety.v
GraphRefine.v
GraphClaims.v
GraphCosts.v
GraphWitness.v
WorkItems.v
WorkItemInvariant.v
WorkItemSync.v
WorkItemSweep.v
WorkItemClaims.v
Admission.v
AdmissionInvariant.v
AdmissionClaims.v
ModelPool.v
ModelPoolClaims.v
ModelPoolWitness.v
PolicyData.v
Policy.v
Pricing.v
PolicyFacts.v
PolicyRoundtrip.v
PolicyTypes.v
PolicyClaims.v
Controls.v
Lanes.v
LaneClaims.v
Capacity.v
CapacityClaims.v
Starts.v
StartFacts.v
StartClaims.v
StartWitness.v
Finish.v
Operator.v
Feedback.v
FundingGrants.v
Intake.v
Readmission.v
Decisions.v
QueueOrder.v
LifeFacts.v
IntakeFacts.v
LifeClaims.v
IntakeClaims.v
FundingClaims.v
FeedbackClaims.v
OperatorClaims.v
FinishClaims.v
IntakeWitness.v
Allowance.v
AllowanceFacts.v
AllowanceClaims.v
TurnStore.v
TurnDispatch.v
TurnGuest.v
TurnResult.v
TurnFacts.v
TurnOps.v
TurnLane.v
ResultReceipts.v
DirectWriters.v
TurnClaims.v
TurnEvidence.v
TurnWitness.v
ReceiptFacts.v
ReceiptClaims.v
ReviewLeases.v
ReviewClaims.v
