(* ===== verification/Prelude.v ===== *)
(** * The factory core of the homelab monolith: a verification library

    The repository is a homelab monorepo.  Its program of interest is the
    "factory" under [src/projects/monolith/factory/]: it turns GitHub issues into
    work items, lets a planner grow a plan graph for each task, runs the nodes
    of the plan as agent sessions, and decides which model each session uses.
    This library models the parts that carry that logic and proves what the
    rest of the system relies on.

    ** Parts and how they interact

    - The plan graph ([orchestration/graph.py]).  A task has a version ledger,
      nodes with dependencies, and numbered attempts.  [add_node],
      [discard_node], [apply_edits] and [renew_funded_attempt] write plan
      versions; [admit_dispatch] reserves an attempt and pins what it runs;
      [record_dispatch], [bind_node_session] and [record_outcome] record what
      happened; the accounting functions price it.
    - Work items ([orchestration/work_items.py]): the canonical backlog, its
      state machine, its edges, and the synchronisation with GitHub issues.
    - Intake ([orchestration/factory_intake.py]): receiving an issue as a queued
      receipt, and admitting the next receipt into execution.
    - Factory controls ([orchestration/factory_controls.py]): the policy an
      operator posts, the control row and the operator's actions, lanes and
      capacity, the start ledger, the allowance a task is sized at, settling a
      task and reopening one that cannot land.
    - Feedback ([orchestration/factory_feedback.py]), the funding of a refused
      dispatch ([orchestration/factory_funding.py]) and the operator's answer to
      an escalation ([orchestration/factory_decisions.py]): what moves a class
      between lanes, what raises one task's budget, and what puts work back.
    - Model pools ([orchestration/model_pool.py] with the catalogue in
      [execution/__init__.py]) and list prices ([shared/pricing.py]).
    - Execution permits ([execution/admission.py]): the capacity pool every agent
      start goes through.  Review leases ([execution/review_leases.py] and
      [reservation_reviews.py]): how long a start may cause side effects, and the
      judge's decision that renews it.
    - The turn store ([execution/store.py]): the durable lane of an agent session,
      from a queued message over one physical dispatch to a recorded turn.
      Native result receipts ([execution/result_receipts.py]): the result a guest
      commits for one dispatch, who may consume it, and the fence that keeps the
      guest until then.

    Admission writes a receipt and its start; the conductor edits the plan graph,
    asks the model pools for a model and the permits for capacity; a session's
    turns are queued, claimed under a permit and a lease, and recorded from a
    receipt.  The orchestration parts pass plain values, so they are modelled over
    separate states; the execution parts share one database ([Admission.ADB]), and
    there the composition is modelled: the turn store calls admission, the receipts
    answer the store ([ResultReceipts.adopting]), and the leases answer admission
    ([ReviewLeases.leased]).

    ** How the code is represented

    A database is a record of lists of rows ([GraphData.DB], [WorkItems.WDB],
    [Admission.ADB], [ReviewLeases.LDB], [Controls.FDB]) with the clock; a function
    that runs inside a transaction is a [tx]: it returns a value and the new
    state, or an exception and no state, since an exception closes the session
    without a commit.  A refusal that the code returns as a value is a value here.
    Row locks serialise the transactions of one task, repository, session or pool,
    so one call is one step.  Dynamically typed data (policies, JSON columns, issue
    objects, evidence) is the inductive [pyval] of [PyValue], with CPython's
    unbounded integers, its binary64 floats (the rounding of [SpecFloat], the
    compensated [sum] of CPython 3.12 and later) and its exact int/float
    comparison; a raise on a malformed value is a [Raise].  Strings are byte
    strings, case mapping and white space are ASCII.  A column that holds JSON text
    is the value it encodes, with its text where the code looks at it ([jtext]).

    Code outside the modelled files is an argument, given as a type class: the
    funding amendment in force ([FundingLedger]), the refill schema and the
    evidence-continuation fences ([DispatchHooks]), ISO time-stamp parsing
    ([IsoFormat]), a rival transaction that wins an insert ([Rivals]), the
    process environment ([Environ]), the start control and the lease of a permit
    ([AdmissionHooks]), the clock, parsers and quota feed of the pools
    ([PoolRuntime]), digests ([Hashing], [Rendering]), the row dump and ids of
    intake ([IntakeHooks]), the price catalogue ([PriceBook]), the JSON writer and
    reader ([TurnText]), what the recorder of a turn calls ([ResultHooks]), the
    runtime meter and the parser of a native result ([ReceiptHooks]), the digest
    and the routine jobs of the leases ([LeaseHooks]), what an answer does on
    GitHub ([DecisionEffects]).  The theorems hold for every
    instance; the witnesses give concrete ones.  Random identifiers are
    arguments; that they are never drawn twice is a premise of the step relations
    and of [FreshIds].

    ** Files

    - [Prelude]: results, the transaction monad, automation, lemmas on lists.
    - [Worklist]: a work-list graph search, its termination and its exactness; the
      two cycle checks of the code are instances of it.
    - [PyValue]: Python values, their numbers, text and rounding.
    - [ModelCatalog]: models, families, effort levels.
    - [GraphData], [GraphAccounting], [GraphPlan], [GraphBatch], [GraphRuns]:
      the definitions of the plan graph, in the order of graph.py's layers.
    - [GraphInvariant], [GraphLedger]: the invariants of the plan, of the version
      ledger and of the attempts, and that each operation keeps them;
      [GraphSafety]: the invariant of them all, the step relation [graph_step] over
      all operations and [reachable]; [GraphRefine]: the abstract scheduler ([Plan], [plan_step])
      and the proof that [graph_step] implements it; [GraphClaims]: the theorems
      on reachable states, pins and their replay.
    - [GraphOrder]: the order in which a batch of edits is applied, compare-and-swap
      and all-or-nothing; [GraphCosts]: accounting, add and discard;
      [GraphWitness]: instances.
    - [WorkItems] (definitions), [WorkItemInvariant], [WorkItemSync],
      [WorkItemSweep] (what each operation preserves and does), [WorkItemClaims]
      (step relation [wi_step], theorems and a worked run).
    - [Admission] (definitions), [AdmissionInvariant] (how a permit may evolve;
      adoption, counting, release), [AdmissionClaims] (relations [holding_op] and
      [pool_op], theorems, instances in [AdmissionDemo]).
    - [ModelPool] (definitions), [ModelPoolClaims] (selection, escalation,
      review, effort; the knowledge-graph gate, freshness, the fold of account
      grants), [ModelPoolWitness].
    - [PolicyData], [Policy] (definitions), [PolicyFacts] (the readers and the
      blocks), [PolicyTypes] (the types and ranges of an accepted policy, block by
      block), [PolicyRoundtrip] (each block re-reads as itself), [PolicyClaims]
      (what can escape, what is accepted, concrete policies).
    - [Controls] (rows, audit trail, funding and recovery readers), [Lanes]
      (limits, eligibility, slots, the dealing loop), [LaneClaims];
      [Capacity] (availability and releases), [CapacityClaims]; [Starts]
      (accounting, fences, the two writers of the ledger), [StartFacts] (what a
      call did, as an inductive view, and its replay), [StartClaims] (theorems, step
      relation [ledger_step]), [StartWitness].
    - [Finish] ([finish_task], [request_landing_recovery]), [Operator]
      (the operator's actions under the control lock, [request_control]), [Feedback],
      [FundingGrants], [Intake], [Readmission], [Decisions] (the operator's answers,
      and with them the whole [set_control]): definitions.  [QueueOrder]: the
      admission order as a preorder.  [LifeFacts] and [IntakeFacts]: each operation
      as elementary writes of the tables; [LifeClaims]: one step relation
      ([life_step]) over them, and with decisions and recoveries [system_step].
      [IntakeClaims],
      [FundingClaims], [FeedbackClaims], [OperatorClaims], [FinishClaims]:
      theorems; [IntakeWitness]: instances.
    - [Pricing] (definitions and theorems); [Allowance], [AllowanceFacts],
      [AllowanceClaims] (with instances for both).
    - [TurnStore] (rows, unknown outcomes, turns), [TurnDispatch] (queue, claims,
      holds), [TurnGuest] (sessions, guests, recovery), [TurnResult] (the recorder
      of a turn): definitions.  [TurnFacts] (the elementary writes [lane_write]),
      [TurnOps] (each operation as writes), [TurnLane] (the relation [turn_op] of the
      store's operations, the invariant [lane_ok]), [DirectWriters] (the modules
      that write the lane's tables directly: [resolve_not_dispatched] of
      capacity_wait.py, and [direct_op], one constructor per other writer),
      [TurnClaims], [TurnEvidence] (theorems), [TurnWitness].
    - [ResultReceipts] (definitions), [ReceiptFacts] (the relation [receipt_op], its
      table writes, [table_ok] and [evolves]), [ReceiptClaims] (the table and the
      fence, receipts and store together, instances in [ReceiptDemo]).
    - [ReviewLeases] (definitions), [ReviewClaims] (relation [lease_step], the
      invariant, the theorem and its instance).

    ** What the theorems show

    - Plan graph: the operations implement a scheduler over a map from nodes to
      dependencies and phases, and an unfinished plan always has a node that is
      active or ready; on every state reachable by any sequence of operations and
      of writes by other tasks the live plan is a DAG over live nodes, execution
      follows its dependencies, attempts and versions are gapless sequences,
      finished attempts never change, accounting is total and conservative; a
      single edit is a compare-and-swap on the version and a batch is atomic;
      the batch order respects dependencies and is stable; a replayed
      admission returns its original pin; the pins admission writes pass the
      bounds the workflow checks.
    - Work items: states, close reasons, ids and event numbers stay
      consistent, states move along the transition table only, the relations stay
      acyclic, local rows are never touched by a sync, the source-order fence is
      strict, a sync is faithful to its issue and idempotent, closing against a
      listing is exact.
    - Receipts: over any sequence of receiving, admitting, starting, settling,
      finishing, recovering, operator actions, answers and recoveries that put a
      receipt back ([system_step]) a receipt moves only along its abstract state
      machine and its state agrees with the start ledger; without the answers and
      those recoveries ([life_step]) it also keeps its task, and no two tasks run
      for the same work.
      Receiving is idempotent; admission is sound and follows the queue order;
      success needs recorded proof; settling is final; a stop is permanent;
      landing recoveries are bounded; operator requests replay.
    - Funding and feedback: an operator's grant is honoured by the continuation it
      was given for and by no other; a task's sample is final; the decision of a
      class is an exact threshold, and its stored route heals.
    - Allowances: the derived turns have a closed form, insertions of the engine
      are paid from the reserve, the recorded allowance binds every later start.
      Prices: pricing is total and prices equal reports alike.
    - Permits: the caps hold at every fresh admission, reserving is idempotent,
      permits evolve forward and are unique, capacity is freed on evidence only,
      the last fence is exclusive, the reported free slots are exact.
    - Review leases: the last fence opens only within half an hour of the start or
      of a recorded approval of this very permit; nothing the executor does
      renews it, and one review runs at a time.
    - Turn store: over any sequence of the store's operations, of admission and of
      the direct writers ([direct_op]), a lane is served in order with one message
      in flight; a message is dispatched again only on a recorded grant, on proof
      that it was never dispatched, or under a number freed by its deletion; an
      accepted message is kept unless it is deleted by name; an unknown outcome
      freezes the session until its captured result is adopted; capacity is held
      until cessation is shown; a lost response is held to its deadline; what the
      server established is recorded over what a guest reported.  That evidence the
      server has not is absent holds of reports whose keys are distinct and free of
      NUL; a key with a NUL forges it, which is a finding
      ([TurnWitness.TurnDemo.nul_key_forges_receipt]).
    - Native result receipts: a turn has one current receipt; a captured result is
      immutable; an adopted result is the one committed for the dispatch that
      runs now, and is recorded as such; a fence goes on evidence only.
    - Model pools: the first available member is chosen, only evidence moves a
      choice, escalation moves up, review and judgment keep their floors, effort is
      never lowered, the gate fails closed, the class view is the least-used
      open grant.  One of them is also a finding: a NaN in the environment
      escapes the cap on quota age ([ModelPoolClaims.kg_age_bound]).
    - Policy: an accepted policy has the documented types and bounds, resolves all
      of its repositories, and validates to itself, with one exact exception that is a
      finding (an inherited planner cap above 100 is stored and refused on
      reading); validation raises [ValueError] only, but for an amount no float
      holds, which is another.
    - Lanes: the split opens every usable free slot and no more, its float comparison
      is the exact comparison of fractions, no lane envies the other; with a single
      free slot delivery always wins (a finding); the admission query and the
      eligibility rule agree up to one stated case.  No sequence of admissions and
      releases oversubscribes the ceiling or a lane.
    - Start ledger: a start is granted only within every limit, to an admitted,
      certain task; reserving and settling are idempotent; over any sequence of
      both, keys stay unique, terminal outcomes are final, and a receipt is
      uncertain exactly while a start of its task is; the ledger excuses exactly the
      denials the plan graph excuses.

    ** Bounds and fuel

    [Worklist.search] takes fuel; its callers give [search_fuel], one more than
    the start list and all successor lists together, which bounds the pops since a
    key is expanded once ([search_total]).  [GraphBatch.drain] takes one step per
    edit, and an index is emitted once.  The theorems show that the results are
    exact, so running out of fuel is never observed.  The decimal exponent search of
    [PyValue] takes 400 steps, beyond the decimal range of a binary64.

    ** Not modelled

    The conductor (prompts, decisions and retries driven by model output), the
    durable node workflow, the transport to guests and its parser, reconciliation
    against the control plane, capacity waits, the drainer, the recoveries of tasks
    and evidence, and the stop service of factory attempts: they are
    sequences of network calls whose outcomes only the outside knows.  They also
    write modelled tables directly, and those writes are modelled as writes, not as
    the functions that make them (but for [resolve_not_dispatched], which is
    translated): [direct_op] for queue, turns and permits,
    [receipt_step] for result receipts, [put_back] and [part_step] for factory
    receipts and starts, each under the guards of its source, which it cites.  A
    theorem over [life_step] or [graph_step] alone is about the
    modelled operations; starts reserved on a settled task by review_recovery.py and
    the bootstrap plan of a classified task (router.py:367-390) are outside.  Of the turn store,
    the adoption of a lost response (it parses a body through the transport), the
    voice ledger, full-text search and edits of a turn's commit ids and prompt.  Of
    the funding and decision files, the reviews of the funding judge, routine
    pauses, durable decision requests and the effects of an answer on GitHub.  Of the leases, the guest observation,
    health and guidance views.  Evidence-continuation grants, the runtime meter,
    provider-quota fetching, the pacing of GitHub reads, read-only status views,
    and every product outside the factory (EmberVM, knowledge, chat, the web
    application, charts).  Logging is dropped. *)

From stdpp Require Import prelude list strings pretty sorting relations.

(** ** Results, exceptions and the transaction monad *)

(** A Python exception that leaves a modelled function. *)
Inductive exn :=
| ValueError (msg : string)
| WorkItemError (msg : string)
| KeyError (key : string)
| TypeError
| IndexError
| AttributeError
| RuntimeError (msg : string)
| OverflowError.

#[export] Instance exn_eq_dec : EqDecision exn.
Proof. solve_decision. Defined.

Inductive res (A : Type) :=
| Ok (a : A)
| Raise (e : exn).
Arguments Ok {A} _.
Arguments Raise {A} _.

#[export] Instance res_ret : MRet res := @Ok.
#[export] Instance res_bind : MBind res := λ A B f m,
  match m with Ok a => f a | Raise e => Raise e end.
#[export] Instance res_fmap : FMap res := λ A B f m,
  match m with Ok a => Ok (f a) | Raise e => Raise e end.

(** [tx S A]: a computation inside one database transaction.  An exception
    carries no state: the session is closed without a commit, so every write
    of the computation is lost. *)
Definition tx (S A : Type) : Type := S → res (A * S).

#[export] Instance tx_ret {S} : MRet (tx S) := λ A a s, Ok (a, s).
#[export] Instance tx_bind {S} : MBind (tx S) := λ A B f m s,
  match m s with
  | Ok (a, s') => f a s'
  | Raise e => Raise e
  end.

Definition get_state {S} : tx S S := λ s, Ok (s, s).
Definition put_state {S} (s : S) : tx S unit := λ _, Ok (tt, s).
Definition modify {S} (f : S → S) : tx S unit := λ s, Ok (tt, f s).
Definition raise {S A} (e : exn) : tx S A := λ _, Raise e.
Definition lift {S A} (r : res A) : tx S A := λ s,
  match r with Ok a => Ok (a, s) | Raise e => Raise e end.

Declare Scope py_scope.
Delimit Scope py_scope with py.

(** ** Automation *)

Create HintDb factory.

(** Split the next [match]/[if] found in a hypothesis or in the goal. *)
Ltac split_match :=
  match goal with
  | H : context [match ?x with _ => _ end] |- _ => destruct x eqn:?
  | |- context [match ?x with _ => _ end] => destruct x eqn:?
  end.

(** Run a transaction hypothesis [m s = Ok r] forward. *)
Ltac tx_inv :=
  repeat match goal with
  | H : Ok _ = Ok _ |- _ => injection H as H; simplify_eq
  | H : Raise _ = Ok _ |- _ => discriminate H
  | H : Ok _ = Raise _ |- _ => discriminate H
  | H : (match ?r with Ok _ => _ | Raise _ => Raise _ end) = Ok _ |- _ =>
      let E := fresh "E" in destruct r as [?|?] eqn:E; [|discriminate H]
  | p : (_ * _)%type |- _ => destruct p
  end.

(** Decide a closed membership. *)
Ltac decide_in := apply (bool_decide_unpack _); vm_compute; exact I.
Ltac absurd_in H :=
  exfalso; refine (bool_decide_unpack (_ ∉ _) _ H); vm_compute; exact I.

(** ** Results *)

Lemma res_bind_ok {A B} (m : res A) (f : A → res B) b :
  m ≫= f = Ok b ↔ ∃ a, m = Ok a ∧ f a = Ok b.
Proof.
  destruct m as [a|e]; simpl; split.
  - intros; exists a; auto.
  - intros (a' & [= ->] & ?); done.
  - discriminate.
  - intros (? & ? & ?); discriminate.
Qed.

Lemma tx_bind_ok {S A B} (m : tx S A) (f : A → tx S B) s b s' :
  (m ≫= f) s = Ok (b, s') ↔ ∃ a s1, m s = Ok (a, s1) ∧ f a s1 = Ok (b, s').
Proof.
  unfold mbind, tx_bind. destruct (m s) as [[a s1]|e]; split.
  - intros; eauto.
  - intros (a' & s1' & [= -> ->] & ?); done.
  - discriminate.
  - intros (? & ? & ? & ?); discriminate.
Qed.

Lemma tx_lift_ok {S A} (r : res A) (s : S) a s' :
  lift r s = Ok (a, s') ↔ r = Ok a ∧ s' = s.
Proof. unfold lift. destruct r; naive_solver. Qed.

(** Map a raising function over a list, stopping at the first exception. *)
Fixpoint res_map {A B} (f : A → res B) (l : list A) : res (list B) :=
  match l with
  | [] => Ok []
  | x :: l => y ← f x; ys ← res_map f l; Ok (y :: ys)
  end.

Lemma res_map_ok_pure {A B} (f : A → res B) (g : A → B) l :
  (∀ x, x ∈ l → f x = Ok (g x)) → res_map f l = Ok (g <$> l).
Proof.
  induction l as [|x l IH]; intros Hf; [done|]. simpl.
  rewrite Hf by constructor. simpl.
  rewrite IH by (intros; apply Hf; by constructor). done.
Qed.

Lemma res_map_ok_inv {A B} (f : A → res B) l bs y :
  res_map f l = Ok bs → y ∈ bs → ∃ x, x ∈ l ∧ f x = Ok y.
Proof.
  revert bs. induction l as [|x l IH]; intros bs; simpl; [intros [= <-] []%elem_of_nil|].
  destruct (f x) as [b|] eqn:Hx; simpl; [|done].
  destruct (res_map f l) as [bs'|]; simpl; [|done].
  intros [= <-] [->|Hy]%elem_of_cons; [exists x; split; [constructor|done]|].
  destruct (IH bs' eq_refl Hy) as (x' & ? & ?). exists x'. split; [by constructor|done].
Qed.

(** ** Lists *)

Section lists.
Context {A : Type}.
Implicit Types l : list A.

(** First match, as [next((x for x in l if p(x)), None)] and [.first()]. *)
Fixpoint find_first (p : A → bool) l : option A :=
  match l with
  | [] => None
  | x :: l => if p x then Some x else find_first p l
  end.

(** Last match: a dict built from a list of pairs keeps the last one. *)
Definition find_last (p : A → bool) l : option A := find_first p (reverse l).

(** Replace the rows satisfying [p], as assignments to ORM rows do. *)
Definition update_where (p : A → bool) (f : A → A) l : list A :=
  (λ x, if p x then f x else x) <$> l.

(** Stable insertion sort, Python's [sorted] with a total key order. *)
Fixpoint insert_sorted (le : A → A → bool) (x : A) l : list A :=
  match l with
  | [] => [x]
  | y :: l' => if le x y then x :: l else y :: insert_sorted le x l'
  end.
Fixpoint py_sorted (le : A → A → bool) l : list A :=
  match l with
  | [] => []
  | x :: l' => insert_sorted le x (py_sorted le l')
  end.

(** Largest key, 0 when empty: [max(..., default=0)] over positive keys. *)
Definition max_key (f : A → Z) l : Z := foldr (λ x m, Z.max (f x) m) 0%Z l.

Lemma find_first_Some p l x :
  find_first p l = Some x → x ∈ l ∧ p x = true.
Proof.
  induction l as [|y l IH]; simpl; [done|].
  destruct (p y) eqn:E; [intros [= <-]; split; [constructor|done]|].
  intros [??]%IH; split; [by constructor|done].
Qed.

Lemma find_first_None p l :
  find_first p l = None ↔ ∀ x, x ∈ l → p x = false.
Proof.
  induction l as [|y l IH]; simpl; [split; [intros _ x []%elem_of_nil|done]|].
  destruct (p y) eqn:E.
  - split; [done|]. intros H. rewrite H in E; [done|constructor].
  - rewrite IH. split; intros H x; [|intros Hx; apply H; by constructor].
    intros [->|?]%elem_of_cons; auto.
Qed.

Lemma find_last_Some p l x :
  find_last p l = Some x → x ∈ l ∧ p x = true.
Proof.
  unfold find_last. intros [H ?]%find_first_Some.
  by rewrite elem_of_reverse in H.
Qed.

Lemma find_last_None p l :
  find_last p l = None ↔ ∀ x, x ∈ l → p x = false.
Proof.
  unfold find_last. rewrite find_first_None.
  by setoid_rewrite elem_of_reverse.
Qed.

Lemma find_last_is_Some p l x :
  x ∈ l → p x = true → is_Some (find_last p l).
Proof.
  intros Hx Hp. destruct (find_last p l) eqn:E; [eauto|].
  rewrite find_last_None in E. rewrite E in Hp; done.
Qed.

Lemma elem_of_update_where p f l x :
  x ∈ update_where p f l ↔ ∃ y, y ∈ l ∧ x = if p y then f y else y.
Proof. unfold update_where. rewrite list_elem_of_fmap. naive_solver. Qed.

Lemma update_where_id p f l :
  (∀ x, x ∈ l → p x = false) → update_where p f l = l.
Proof.
  unfold update_where. intros H. rewrite <-(list_fmap_id l) at 2.
  apply list_fmap_ext. intros i x Hx. rewrite H; [done|].
  by eapply list_elem_of_lookup_2.
Qed.

Lemma update_where_fmap {B} (g : A → B) p f l :
  (∀ x, x ∈ l → p x = true → g (f x) = g x) →
  g <$> update_where p f l = g <$> l.
Proof.
  unfold update_where. intros H. rewrite <-list_fmap_compose.
  apply list_fmap_ext. intros i x Hx%list_elem_of_lookup_2. simpl.
  destruct (p x) eqn:E; auto.
Qed.

Lemma filter_update_where (P : A → Prop) `{∀ x, Decision (P x)} p f l :
  (∀ x, x ∈ l → p x = true → P (f x) ↔ P x) →
  filter P (update_where p f l) = update_where p f (filter P l).
Proof.
  unfold update_where. induction l as [|x l IH]; intros Hf; [done|].
  assert (filter P ((λ y, if p y then f y else y) <$> l)
          = (λ y, if p y then f y else y) <$> filter P l) as Hl.
  { apply IH. intros y Hy. apply Hf. by constructor. }
  rewrite fmap_cons, !filter_cons. destruct (p x) eqn:E.
  - pose proof (Hf x (list_elem_of_here _ _) E) as Hx.
    destruct (decide (P x)), (decide (P (f x))); try tauto;
      rewrite ?fmap_cons, ?E, Hl; done.
  - destruct (decide (P x)); rewrite ?fmap_cons, ?E, Hl; done.
Qed.

Lemma length_update_where p f l : length (update_where p f l) = length l.
Proof. apply length_fmap. Qed.

Lemma insert_sorted_perm le x l : insert_sorted le x l ≡ₚ x :: l.
Proof.
  induction l as [|y l IH]; simpl; [done|].
  destruct (le x y); [done|]. rewrite IH. constructor.
Qed.

Lemma py_sorted_perm le l : py_sorted le l ≡ₚ l.
Proof.
  induction l as [|x l IH]; simpl; [done|].
  by rewrite insert_sorted_perm, IH.
Qed.

Lemma elem_of_py_sorted le l x : x ∈ py_sorted le l ↔ x ∈ l.
Proof. by rewrite py_sorted_perm. Qed.

Lemma length_py_sorted le l : length (py_sorted le l) = length l.
Proof. by rewrite py_sorted_perm. Qed.

Lemma max_key_ge f l x : x ∈ l → (f x ≤ max_key f l)%Z.
Proof.
  induction l as [|y l IH]; [intros []%elem_of_nil|].
  intros [->|H]%elem_of_cons; simpl; [lia|]. specialize (IH H); lia.
Qed.

Lemma max_key_nonneg f l : (0 ≤ max_key f l)%Z.
Proof. induction l; simpl; lia. Qed.

Lemma max_key_app f l1 l2 :
  max_key f (l1 ++ l2) = Z.max (max_key f l1) (max_key f l2).
Proof.
  induction l1 as [|x l1 IH]; simpl; [|rewrite IH; lia].
  pose proof (max_key_nonneg f l2). lia.
Qed.

Lemma max_key_le f l b :
  (0 ≤ b)%Z → (∀ x, x ∈ l → (f x ≤ b)%Z) → (max_key f l ≤ b)%Z.
Proof.
  intros Hb. induction l as [|x l IH]; simpl; intros H; [done|].
  assert (f x ≤ b)%Z by (apply H; constructor).
  assert (max_key f l ≤ b)%Z by (apply IH; intros; apply H; by constructor).
  lia.
Qed.
End lists.

(** ** Sorting *)

Section sorted_facts.
Context {A : Type} (le : A → A → bool).
Hypothesis le_total : ∀ x y, le x y = true ∨ le y x = true.

Lemma insert_sorted_Sorted x l : Sorted le l → Sorted le (insert_sorted le x l).
Proof.
  assert (∀ a b, le a b = true → Is_true (le a b)) as Hle by (intros ? ? ->; exact I).
  induction 1 as [|y l Hl IH Hy]; simpl; [repeat constructor|].
  destruct (le x y) eqn:E; [constructor; [by constructor|constructor; auto]|].
  assert (le y x = true) by (destruct (le_total x y); congruence).
  constructor; [done|]. destruct l as [|z l]; simpl in *; [constructor; auto|].
  inversion Hy; subst. destruct (le x z); constructor; auto.
Qed.

Lemma py_sorted_Sorted l : Sorted le (py_sorted le l).
Proof. induction l; simpl; [constructor|by apply insert_sorted_Sorted]. Qed.

Lemma py_sorted_of_Sorted l : Sorted le l → py_sorted le l = l.
Proof.
  induction 1 as [|x l Hl IH Hx]; simpl; [done|]. rewrite IH.
  destruct l as [|y l]; [done|]. simpl. inversion Hx as [|? ? Hxy]; subst.
  by apply Is_true_true in Hxy as ->.
Qed.

Lemma py_sorted_idem l : py_sorted le (py_sorted le l) = py_sorted le l.
Proof. apply py_sorted_of_Sorted, py_sorted_Sorted. Qed.
End sorted_facts.

Lemma remove_dups_NoDup_id `{EqDecision A} (l : list A) : NoDup l → remove_dups l = l.
Proof.
  induction 1 as [|x l Hx _ IH]; [done|]. simpl.
  destruct (decide_rel _ x l); [done|]. by rewrite IH.
Qed.

(** [sorted(set(...))] of its own result. *)
Lemma sorted_set_idem `{EqDecision A} (le : A → A → bool) (l : list A) :
  (∀ x y, le x y = true ∨ le y x = true) →
  py_sorted le (remove_dups (py_sorted le (remove_dups l))) = py_sorted le (remove_dups l).
Proof.
  intros Ht. rewrite remove_dups_NoDup_id; [by apply py_sorted_idem|].
  rewrite py_sorted_perm. apply NoDup_remove_dups.
Qed.

Lemma find_first_update_where {A} (P Q : A → bool) (l : list A) p p' :
  find_first P l = Some p → Q p = true → P p' = true →
  find_first P (update_where Q (λ _, p') l) = Some p'.
Proof.
  intros Hf HQ HP. induction l as [|x l IH]; [done|]. simpl in *. destruct (P x) eqn:Hx.
  - injection Hf as ->. by rewrite HQ, HP.
  - destruct (Q x); [by rewrite HP|]. rewrite Hx. auto.
Qed.

Lemma NoDup_fmap_elem {A B} (f : A → B) l x y :
  NoDup (f <$> l) → x ∈ l → y ∈ l → f x = f y → x = y.
Proof.
  induction l as [|z l IH]; simpl; [intros _ []%elem_of_nil|].
  intros [Hz Hl]%NoDup_cons.
  intros [->|Hx]%elem_of_cons [->|Hy]%elem_of_cons Hf; auto.
  - destruct Hz. apply list_elem_of_fmap. eauto.
  - destruct Hz. apply list_elem_of_fmap. eauto.
Qed.

Lemma existsb_false {A} (p : A → bool) l :
  existsb p l = false ↔ ∀ x, x ∈ l → p x = false.
Proof.
  split.
  - intros H x Hx. destruct (p x) eqn:E; [|done].
    rewrite <-H. symmetry. apply existsb_exists. exists x.
    by rewrite <-list_elem_of_In.
  - intros H. destruct (existsb p l) eqn:E; [|done].
    apply existsb_exists in E as (x & Hx%list_elem_of_In & Hp). by rewrite H in Hp.
Qed.

Lemma NoDup_fmap_filter {A B} (f : A → B) (P : A → Prop)
    `{∀ x, Decision (P x)} l :
  NoDup (f <$> l) → NoDup (f <$> filter P l).
Proof.
  induction l as [|x l IH]; simpl; [done|].
  intros [Hx Hl]%NoDup_cons. rewrite filter_cons. case_decide; simpl; [|auto].
  constructor; [|auto]. intros (y & Hf & [_ Hy]%list_elem_of_filter)%list_elem_of_fmap.
  destruct Hx. apply list_elem_of_fmap. eauto.
Qed.

(** ** Numbered ledgers *)

(** The numbers 1, 2, ..., [n]. *)
Definition upto (n : nat) : list Z := (λ i, Z.of_nat i + 1)%Z <$> seq 0 n.

Lemma upto_snoc n : upto (n + 1) = upto n ++ [(Z.of_nat n + 1)%Z].
Proof. unfold upto. by rewrite Nat.add_1_r, seq_S, fmap_app. Qed.

Lemma max_upto {A} (f : A → Z) l :
  f <$> l = upto (length l) → max_key f l = Z.of_nat (length l).
Proof.
  intros H. assert (max_key f l = max_key id (f <$> l)) as ->.
  { clear H. induction l as [|x l IH]; simpl; [done|]. by rewrite IH. }
  rewrite H. generalize (length l) as n. induction n as [|n IH]; [done|].
  rewrite <-Nat.add_1_r, upto_snoc, max_key_app, IH. simpl. lia.
Qed.

(** Appending the successor of the largest number keeps a ledger numbered. *)
Lemma upto_append {A} (f : A → Z) l x :
  f <$> l = upto (length l) → f x = (max_key f l + 1)%Z →
  f <$> l ++ [x] = upto (length (l ++ [x])).
Proof.
  intros H Hx. rewrite fmap_app, length_app, H. simpl. rewrite upto_snoc.
  by rewrite Hx, max_upto.
Qed.

#[export] Hint Resolve find_first_Some find_last_Some max_key_nonneg : factory.
