(* ===== verification/Worklist.v ===== *)
(** * The dependency search shared by the plan graph and the work-item graph

    Both [graph._would_cycle] and [work_items._would_cycle] run the same loop:
    a stack of keys to visit, a set of visited keys, and an early return when
    the searched key is popped.  This file holds the loop once, with the fuel
    it needs, what its answer means, and why refusing on [true] keeps a
    relation acyclic. *)

From stdpp Require Import prelude list relations gmap.
From S2P Require Import Prelude.

Section worklist.
Context `{Countable K}.

(** [pending] is the Python list read from its end, so that [pop()] takes
    the head and [extend(xs)] pushes [reverse xs].  [None] means that the
    fuel ran out before the loop ended. *)
Fixpoint search (succ : K → res (list K)) (target : K) (fuel : nat)
    (pending : list K) (visited : gset K) : option (res bool) :=
  match fuel with
  | O => None
  | S fuel =>
      match pending with
      | [] => Some (Ok false)
      | key :: pending =>
          if decide (key = target) then Some (Ok true)
          else if decide (key ∈ visited) then
            search succ target fuel pending visited
          else
            match succ key with
            | Raise e => Some (Raise e)
            | Ok next =>
                search succ target fuel (reverse next ++ pending)
                  ({[ key ]} ∪ visited)
            end
      end
  end.

(** Successors still to be pushed: those of the keys not visited yet. *)
Definition weight (s : K → list K) (keys : list K) (visited : gset K) : nat :=
  sum_list ((λ k, if decide (k ∈ visited) then 0 else length (s k)) <$> keys).

(** Every pop either finishes, drops a visited key, or moves the successors
    of one unvisited key from [weight] to the stack. *)
Definition search_fuel (s : K → list K) (keys start : list K) : nat :=
  S (length start + weight s keys ∅).

(** ** Termination *)

Lemma weight_cons s k keys visited :
  weight s (k :: keys) visited
  = (if decide (k ∈ visited) then 0 else length (s k)) + weight s keys visited.
Proof. done. Qed.

Lemma weight_visited_notin s keys k visited :
  k ∉ keys → weight s keys ({[k]} ∪ visited) = weight s keys visited.
Proof.
  intros Hk. unfold weight. f_equal. apply list_fmap_ext.
  intros i x Hx%list_elem_of_lookup_2.
  repeat case_decide; set_solver.
Qed.

Lemma weight_visit s keys k visited :
  NoDup keys → k ∈ keys → k ∉ visited →
  weight s keys visited = length (s k) + weight s keys ({[k]} ∪ visited).
Proof.
  induction keys as [|x keys IH]; [intros _ []%elem_of_nil|].
  intros [Hx Hnd]%NoDup_cons Hk Hv.
  apply elem_of_cons in Hk as [->|Hk].
  - rewrite !weight_cons, decide_False by done.
    rewrite decide_True by set_solver. rewrite weight_visited_notin by done. lia.
  - rewrite !weight_cons, (IH Hnd Hk Hv). assert (x ≠ k) by (intros ->; done).
    destruct (decide (x ∈ visited)); [rewrite decide_True by set_solver; lia|].
    rewrite decide_False by set_solver. lia.
Qed.

(** The loop never runs out of fuel, also when [succ] raises. *)
Lemma search_total (succ : K → res (list K)) s keys target fuel pending visited :
  (∀ k l, succ k = Ok l → l = s k) → NoDup keys → (∀ k, k ∉ keys → s k = []) →
  length pending + weight s keys visited < fuel →
  ∃ r, search succ target fuel pending visited = Some r.
Proof.
  intros Hsucc Hkeys Hout. revert pending visited.
  induction fuel as [|fuel IH]; intros pending visited Hf; [lia|].
  destruct pending as [|key pending]; simpl; [eauto|].
  destruct (decide (key = target)); [eauto|].
  destruct (decide (key ∈ visited)) as [Hv|Hv]; [apply IH; simpl in Hf; lia|].
  destruct (succ key) as [next|e] eqn:E; [|eauto].
  apply Hsucc in E as ->. apply IH. rewrite length_app, length_reverse.
  simpl in Hf. destruct (decide (key ∈ keys)) as [Hk|Hk].
  - rewrite (weight_visit s keys key visited) in Hf by done. lia.
  - rewrite weight_visited_notin by done. rewrite Hout by done. simpl. lia.
Qed.

Section correct.
Variables (succ : K → res (list K)) (s : K → list K) (keys : list K).
Hypothesis Hsucc : ∀ k, succ k = Ok (s k).
Hypothesis Hkeys : NoDup keys.
Hypothesis Houtside : ∀ k, k ∉ keys → s k = [].

Definition edge (x y : K) : Prop := y ∈ s x.

Lemma search_no_raise target fuel pending visited e :
  search succ target fuel pending visited ≠ Some (Raise e).
Proof.
  revert pending visited. induction fuel as [|fuel IH]; [done|].
  intros [|key pending] visited; simpl; [done|].
  repeat case_decide; [done|auto|]. rewrite Hsucc. auto.
Qed.

Lemma search_terminates target fuel pending visited :
  length pending + weight s keys visited < fuel →
  ∃ b, search succ target fuel pending visited = Some (Ok b).
Proof.
  intros Hf. destruct (search_total succ s keys target fuel pending visited)
    as [[b|e] Hr]; [|done..|eauto|].
  - intros k l. rewrite Hsucc. congruence.
  - by apply search_no_raise in Hr.
Qed.

(** ** What the answer means *)

Lemma search_true target fuel pending visited :
  search succ target fuel pending visited = Some (Ok true) →
  ∃ k, k ∈ pending ∧ rtc edge k target.
Proof.
  revert pending visited. induction fuel as [|fuel IH]; [done|].
  intros [|key pending] visited; simpl; [done|].
  destruct (decide (key = target)) as [->|Hne].
  { intros _. exists target. split; [constructor|reflexivity]. }
  destruct (decide (key ∈ visited)).
  { intros (k & ? & ?)%IH. exists k. split; [by constructor|done]. }
  rewrite Hsucc. intros (k & Hk & Hr)%IH.
  rewrite elem_of_app, elem_of_reverse in Hk. destruct Hk as [Hk|Hk].
  - exists key. split; [constructor|]. eapply rtc_l; [exact Hk|done].
  - exists k. split; [by constructor|done].
Qed.

Lemma search_false target fuel pending visited :
  (∀ x, x ∈ visited → x ≠ target ∧ (∀ y, edge x y → y ∈ visited ∨ y ∈ pending)) →
  search succ target fuel pending visited = Some (Ok false) →
  ∃ closed : gset K, visited ⊆ closed ∧ (∀ x, x ∈ pending → x ∈ closed) ∧
    target ∉ closed ∧ (∀ x y, x ∈ closed → edge x y → y ∈ closed).
Proof.
  revert pending visited. induction fuel as [|fuel IH]; [done|].
  intros [|key pending] visited Hinv; simpl.
  { intros _. exists visited. split; [done|]. split; [set_solver|]. split.
    - intros Ht. by destruct (Hinv _ Ht).
    - intros x y Hx Hxy. destruct (Hinv x Hx) as [_ Hc].
      destruct (Hc y Hxy); set_solver. }
  destruct (decide (key = target)) as [->|Hne]; [done|].
  destruct (decide (key ∈ visited)) as [Hv|Hv].
  - intros (c & Hc1 & Hc2 & Hc3)%IH.
    + exists c. split; [done|]. split; [|done]. set_solver.
    + intros x Hx. destruct (Hinv x Hx) as [? Hn]. split; [done|].
      intros y Hy. destruct (Hn y Hy); set_solver.
  - rewrite Hsucc. intros (c & Hc1 & Hc2 & Hc3)%IH.
    + exists c. split; [set_solver|]. split; [|done].
      intros x [->|Hx]%elem_of_cons; [set_solver|].
      apply Hc2. set_solver.
    + intros x [->%elem_of_singleton|Hx]%elem_of_union.
      * split; [done|]. intros y Hy. right.
        rewrite elem_of_app, elem_of_reverse. by left.
      * destruct (Hinv x Hx) as [? Hn]. split; [done|].
        intros y Hy. destruct (Hn y Hy) as [|[->|]%elem_of_cons]; set_solver.
Qed.

(** The loop decides reachability of [target] from the start keys. *)
Theorem search_correct target start :
  ∃ b, search succ target (search_fuel s keys start) (reverse start) ∅
       = Some (Ok b) ∧
       (b = true ↔ (∃ k, k ∈ start ∧ rtc edge k target)).
Proof.
  destruct (search_terminates target (search_fuel s keys start)
    (reverse start) ∅) as [b Hb].
  { unfold search_fuel. rewrite length_reverse. lia. }
  exists b. split; [done|]. destruct b.
  - split; [intros _|done]. apply search_true in Hb as (k & Hk & ?).
    rewrite elem_of_reverse in Hk. eauto.
  - split; [done|]. intros (k & Hk & Hr).
    apply search_false in Hb as (c & _ & Hc & Ht & Hcl); [|set_solver].
    destruct Ht. assert (k ∈ c) as Hkc by (apply Hc; by rewrite elem_of_reverse).
    clear Hk. induction Hr; eauto.
Qed.
End correct.
End worklist.

(** ** Acyclicity *)

Definition acyclic {A} (R : relation A) : Prop := ∀ x, ¬ tc R x x.

Section acyclic.
Context {A : Type} (R R' : relation A) (n : A) (D : A → Prop).

(** Edges out of [n] into [D], on top of [R]. *)
Hypothesis Hext : ∀ x y, R' x y → R x y ∨ (x = n ∧ D y).

Lemma tc_extended x y :
  tc R' x y → tc R x y ∨ (rtc R x n ∧ ∃ d, D d ∧ rtc R d y).
Proof.
  induction 1 as [x y Hxy|x y z Hxy _ IH].
  - destruct (Hext x y Hxy) as [?|[-> ?]]; [left; by constructor|].
    right. split; [reflexivity|]. exists y. by split; [|reflexivity].
  - destruct (Hext x y Hxy) as [Hr|[-> Hd]], IH as [Hyz|(Hyn & d & Hd' & Hdz)].
    + left. by eapply tc_l.
    + right. split; [by eapply rtc_l|]. eauto.
    + right. split; [reflexivity|]. exists y. split; [done|]. by apply tc_rtc.
    + right. split; [reflexivity|]. eauto.
Qed.

(** Refusing when some [d ∈ D] reaches [n] is exactly what is needed. *)
Lemma acyclic_extend :
  acyclic R → (∀ d, D d → ¬ rtc R d n) → acyclic R'.
Proof.
  intros HR Hn x [Hx|(Hxn & d & Hd & Hdx)]%tc_extended; [by eapply HR|].
  apply (Hn d Hd). by etransitivity.
Qed.
End acyclic.

Lemma acyclic_subrel {A} (R R' : relation A) :
  (∀ x y, R' x y → R x y) → acyclic R → acyclic R'.
Proof.
  intros Hsub HR x Hx. apply (HR x).
  assert (∀ y z, tc R' y z → tc R y z) as Htc; [|auto].
  clear x Hx. induction 1 as [y z ?|y z w ? _ IH].
  - apply tc_once; auto.
  - eapply tc_l; eauto.
Qed.

Lemma tc_flip {A} (R : relation A) x y : tc (flip R) x y → tc R y x.
Proof. induction 1 as [x y ?|x y z ? _ IH]; [by apply tc_once|by eapply tc_r]. Qed.

Lemma acyclic_flip {A} (R : relation A) : acyclic R → acyclic (flip R).
Proof. intros HR x Hx%tc_flip. by eapply HR. Qed.

(** A finite acyclic relation is well founded. *)
Lemma acyclic_sn {A} (R : relation A) (dom : list A) :
  acyclic R → (∀ x y, R x y → y ∈ dom) → ∀ x, sn R x.
Proof.
  intros HR Hdom x. apply tc_finite_sn; [exact HR|]. exists dom.
  intros y. induction 1; eauto.
Qed.

(** So no property passes on along it forever. *)
Lemma acyclic_descent {A} (R : relation A) (dom : list A) (P : A → Prop) :
  acyclic R → (∀ x y, R x y → y ∈ dom) → (∀ x, P x → ∃ y, R x y ∧ P y) → ∀ x, ¬ P x.
Proof.
  intros HR Hdom Hnext x. induction (acyclic_sn R dom HR Hdom x) as [x _ IH].
  intros (y & Hxy & Hy)%Hnext. by apply (IH y).
Qed.

#[export] Instance acyclic_proper {A} :
  Proper (pointwise_relation A (pointwise_relation A iff) ==> iff) (@acyclic A).
Proof.
  intros R R' Heq. split; apply acyclic_subrel; intros x y; apply Heq.
Qed.

Lemma rtc_iff {A} (R R' : relation A) :
  (∀ x y, R x y ↔ R' x y) → ∀ x y, rtc R x y ↔ rtc R' x y.
Proof.
  intros H x y. split; induction 1; [done| |done|];
    (eapply rtc_l; [apply H; eassumption|done]).
Qed.
