(* ===== verification/PyValue.v ===== *)
(** * Python values, numbers and text

    The values the factory code tests dynamically ([isinstance], [type(x) is
    int], [math.isfinite], [value > 0]) as one inductive type, with CPython's
    number semantics: unbounded [int], binary64 [float] with its rounding
    ([SpecFloat]), exact comparison between the two, and the compensated
    [sum] of CPython 3.12 and later (the repository pins Python 3.13).
    Strings are byte strings; case mapping and white space are ASCII.
    Then numbers as text, and float arithmetic beyond sums. *)

From Stdlib Require Import SpecFloat Ascii.
From stdpp Require Import prelude list strings pretty.
From S2P Require Import Prelude.
Local Open Scope Z_scope.

(** ** Values *)

Inductive pyval :=
| PNone
| PBool (b : bool)
| PInt (z : Z)
| PFloat (f : spec_float)
| PStr (s : string)
| PList (l : list pyval)
| PDict (kv : list (string * pyval))
| PObj (type_name : string).   (* any other object, e.g. a datetime *)

Section pyval_ind.
Variable P : pyval → Prop.
Hypothesis Hnone : P PNone.
Hypothesis Hbool : ∀ b, P (PBool b).
Hypothesis Hint : ∀ z, P (PInt z).
Hypothesis Hfloat : ∀ f, P (PFloat f).
Hypothesis Hstr : ∀ s, P (PStr s).
Hypothesis Hlist : ∀ l, Forall P l → P (PList l).
Hypothesis Hdict : ∀ kv, Forall (λ p, P p.2) kv → P (PDict kv).
Hypothesis Hobj : ∀ t, P (PObj t).

Fixpoint pyval_nested_ind (v : pyval) : P v :=
  match v with
  | PNone => Hnone
  | PBool b => Hbool b
  | PInt z => Hint z
  | PFloat f => Hfloat f
  | PStr s => Hstr s
  | PList l =>
      Hlist l ((fix go (l : list pyval) : Forall P l :=
        match l with
        | [] => Forall_nil_2 P
        | x :: l => Forall_cons_2 P x l (pyval_nested_ind x) (go l)
        end) l)
  | PDict kv =>
      Hdict kv ((fix go (kv : list (string * pyval)) : Forall (λ p, P p.2) kv :=
        match kv with
        | [] => Forall_nil_2 _
        | p :: kv => Forall_cons_2 _ p kv (pyval_nested_ind p.2) (go kv)
        end) kv)
  | PObj t => Hobj t
  end.
End pyval_ind.

(** ** Binary64 *)

Definition prec64 : Z := 53.
Definition emax64 : Z := 1024.
Definition fadd : spec_float → spec_float → spec_float := SFadd prec64 emax64.
Definition fsub : spec_float → spec_float → spec_float := SFsub prec64 emax64.
Definition fzero : spec_float := S754_zero false.
Definition fabs (f : spec_float) : spec_float := SFabs f.

(** Nearest binary64 of an integer (ties to even), infinity on overflow. *)
Definition f_of_Z (z : Z) : spec_float := binary_normalize prec64 emax64 z 0 false.

Definition f_is_finite (f : spec_float) : bool :=
  match f with S754_zero _ | S754_finite _ _ _ => true | _ => false end.

(** [float(n)] on an int: [OverflowError] when it rounds to infinity. *)
Definition float_of_int (z : Z) : res spec_float :=
  let f := f_of_Z z in if f_is_finite f then Ok f else Raise OverflowError.

(** ** Numbers and their exact order *)

(** A number is a dyadic [m * 2^e], an infinity or a NaN. *)
Inductive xnum := XFin (m e : Z) | XInf (negative : bool) | XNaN.

Definition xnum_of_float (f : spec_float) : xnum :=
  match f with
  | S754_zero _ => XFin 0 0
  | S754_finite s m e => XFin (if s then Z.neg m else Z.pos m) e
  | S754_infinity s => XInf s
  | S754_nan => XNaN
  end.

(** [isinstance(v, (int, float))]: Python's [bool] is an [int]. *)
Definition xnum_of (v : pyval) : option xnum :=
  match v with
  | PBool b => Some (XFin (if b then 1 else 0) 0)
  | PInt z => Some (XFin z 0)
  | PFloat f => Some (xnum_of_float f)
  | _ => None
  end.

(** Python compares an int with a float exactly; a NaN compares false. *)
Definition xcompare (x y : xnum) : option comparison :=
  match x, y with
  | XNaN, _ | _, XNaN => None
  | XInf a, XInf b => Some (if Bool.eqb a b then Eq else if a then Lt else Gt)
  | XInf a, XFin _ _ => Some (if a then Lt else Gt)
  | XFin _ _, XInf b => Some (if b then Gt else Lt)
  | XFin m1 e1, XFin m2 e2 =>
      let e := Z.min e1 e2 in
      Some (Z.compare (m1 * 2 ^ (e1 - e)) (m2 * 2 ^ (e2 - e)))
  end.

Definition xlt (x y : xnum) : bool :=
  match xcompare x y with Some Lt => true | _ => false end.
Definition xle (x y : xnum) : bool :=
  match xcompare x y with Some Lt | Some Eq => true | _ => false end.
Definition xeq (x y : xnum) : bool :=
  match xcompare x y with Some Eq => true | _ => false end.

Definition flt (x y : spec_float) : bool := xlt (xnum_of_float x) (xnum_of_float y).
Definition fle (x y : spec_float) : bool := xle (xnum_of_float x) (xnum_of_float y).
Definition feq (x y : spec_float) : bool := xeq (xnum_of_float x) (xnum_of_float y).

(** [max(a, b)]: the first argument unless the second is greater. *)
Definition fmax (a b : spec_float) : spec_float := if flt a b then b else a.

(** [isinstance(v, (int, float)) and not isinstance(v, bool)]. *)
Definition is_number (v : pyval) : bool :=
  match v with PInt _ | PFloat _ => true | _ => false end.

(** [float(v)]. *)
Definition to_float (v : pyval) : res spec_float :=
  match v with
  | PFloat f => Ok f
  | PInt z => float_of_int z
  | PBool b => float_of_int (if b then 1 else 0)
  | _ => Raise TypeError
  end.

(** [math.isfinite(v)], which converts an int to float first. *)
Definition math_isfinite (v : pyval) : res bool :=
  f ← to_float v; Ok (f_is_finite f).

(** ** [sum] over floats *)

(** One step of the compensated summation in CPython's [cs_add]. *)
Definition cs_add (acc : spec_float * spec_float) (x : spec_float)
    : spec_float * spec_float :=
  let '(hi, lo) := acc in
  let t := fadd hi x in
  let c := if fle (fabs x) (fabs hi) then fadd (fsub hi t) x
           else fadd (fsub x t) hi in
  (t, fadd lo c).

(** [sum(l)] of a list of floats: the int 0 when the list is empty. *)
Definition py_sum (l : list spec_float) : spec_float :=
  let '(hi, lo) := foldl cs_add (fzero, fzero) l in
  if negb (feq lo fzero) && f_is_finite lo then fadd hi lo else hi.

(** ** The process environment *)

(** [os.environ.get(name)]. *)
Class Environ := environ : string → option string.

(** ** Truth, dictionaries and equality *)

Definition truthy (v : pyval) : bool :=
  match v with
  | PNone => false
  | PBool b => b
  | PInt z => negb (z =? 0)
  | PFloat f => match f with S754_zero _ => false | _ => true end
  | PStr s => negb (bool_decide (s = ""%string))
  | PList l => match l with [] => false | _ => true end
  | PDict kv => match kv with [] => false | _ => true end
  | PObj _ => true
  end.

Fixpoint assoc_get {A} (key : string) (kv : list (string * A)) : option A :=
  match kv with
  | [] => None
  | (k, v) :: kv => if bool_decide (k = key) then Some v else assoc_get key kv
  end.

(** [d.get(key)] on a dict value. *)
Definition dict_get (key : string) (kv : list (string * pyval)) : pyval :=
  default PNone (assoc_get key kv).

Definition has_key {A} (key : string) (kv : list (string * A)) : bool :=
  match assoc_get key kv with Some _ => true | None => false end.

(** [d[key] = value]. *)
Fixpoint dict_set {A} (key : string) (value : A) (kv : list (string * A)) : list (string * A) :=
  match kv with
  | [] => [(key, value)]
  | (k, v) :: kv => if bool_decide (k = key) then (k, value) :: kv else (k, v) :: dict_set key value kv
  end.

(** [d[key]] on a value. *)
Definition py_index (key : string) (v : pyval) : res pyval :=
  match v with
  | PDict d => match assoc_get key d with Some x => Ok x | None => Raise (KeyError key) end
  | _ => Raise TypeError
  end.

(** [{**d, **e}]. *)
Definition dict_update (d e : list (string * pyval)) : list (string * pyval) :=
  foldl (λ d p, dict_set p.1 p.2 d) d e.

Definition is_none (v : pyval) : bool :=
  match v with PNone => true | _ => false end.
Definition is_true (v : pyval) : bool :=
  match v with PBool true => true | _ => false end.
Definition is_false (v : pyval) : bool :=
  match v with PBool false => true | _ => false end.
Definition is_str (v : pyval) : bool :=
  match v with PStr _ => true | _ => false end.
Definition is_dict (v : pyval) : bool :=
  match v with PDict _ => true | _ => false end.
Definition is_list (v : pyval) : bool :=
  match v with PList _ => true | _ => false end.

(** [v == w]: numbers by value (True == 1 == 1.0), dicts by key. *)
Fixpoint py_eq (v w : pyval) {struct v} : bool :=
  match xnum_of v, xnum_of w with
  | Some x, Some y => xeq x y
  | _, _ =>
      match v, w with
      | PNone, PNone => true
      | PStr s, PStr t => bool_decide (s = t)
      | PList l, PList m =>
          (fix go (l m : list pyval) {struct l} : bool :=
             match l, m with
             | [], [] => true
             | x :: l, y :: m => py_eq x y && go l m
             | _, _ => false
             end) l m
      | PDict d, PDict e =>
          (length d =? length e)%nat &&
          (fix go (d : list (string * pyval)) {struct d} : bool :=
             match d with
             | [] => true
             | (k, x) :: d =>
                 match assoc_get k e with
                 | Some y => py_eq x y && go d
                 | None => false
                 end
             end) d
      | PObj s, PObj t => bool_decide (s = t)
      | _, _ => false
      end
  end.

(** [key in v]. *)
Fixpoint substring_of (p s : string) : bool :=
  String.prefix p s ||
  match s with EmptyString => false | String _ s => substring_of p s end.
Definition py_contains (key : string) (v : pyval) : res bool :=
  match v with
  | PDict d => Ok (has_key key d)
  | PList l => Ok (existsb (py_eq (PStr key)) l)
  | PStr s => Ok (substring_of key s)
  | _ => Raise TypeError
  end.

Definition str_in (s : string) (l : list string) : bool := bool_decide (s ∈ l).

(** [v in (s1, s2, ...)] for a tuple of strings. *)
Definition pystr_in (v : pyval) (l : list string) : bool :=
  match v with PStr s => str_in s l | _ => false end.

(** ** JSON *)

(** [json.dumps(v, allow_nan=False)] accepts [v]. *)
Fixpoint json_ok (v : pyval) : bool :=
  match v with
  | PNone | PBool _ | PInt _ | PStr _ => true
  | PFloat f => f_is_finite f
  | PList l => forallb json_ok l
  | PDict kv => forallb (λ p, json_ok p.2) kv
  | PObj _ => false
  end.

(** [core.jsonio.dumps]: a text is represented by the value it encodes; a
    non-finite float raises [ValueError], another object [TypeError]. *)
Fixpoint json_error (v : pyval) : exn :=
  match v with
  | PObj _ => TypeError
  | PList l =>
      (fix go (l : list pyval) : exn :=
         match l with
         | [] => ValueError "Out of range float values are not JSON compliant"
         | x :: l => if json_ok x then go l else json_error x
         end) l
  | PDict kv =>
      (fix go (kv : list (string * pyval)) : exn :=
         match kv with
         | [] => ValueError "Out of range float values are not JSON compliant"
         | (_, x) :: kv => if json_ok x then go kv else json_error x
         end) kv
  | _ => ValueError "Out of range float values are not JSON compliant"
  end.

Definition dumps (v : pyval) : res pyval :=
  if json_ok v then Ok v else Raise (json_error v).

(** A caller-supplied JSON text: its characters, and what [json.loads] gives
    ([None] when it raises).  Equality of texts is equality of characters. *)
Record jtext := JText { jt_text : string; jt_loads : option pyval }.

(** ** Text *)

(** A line feed. *)
Definition NL : string := String (Ascii.ascii_of_nat 10) EmptyString.

Definition ascii_lower (c : ascii) : ascii :=
  let n := nat_of_ascii c in
  if ((65 <=? n) && (n <=? 90))%nat then ascii_of_nat (n + 32) else c.

Fixpoint py_lower (s : string) : string :=
  match s with
  | EmptyString => EmptyString
  | String c s => String (ascii_lower c) (py_lower s)
  end.

Definition is_space (c : ascii) : bool :=
  let n := nat_of_ascii c in
  ((n =? 32) || ((9 <=? n) && (n <=? 13)) || ((28 <=? n) && (n <=? 31)))%nat.

Fixpoint lstrip (s : string) : string :=
  match s with
  | EmptyString => EmptyString
  | String c s' => if is_space c then lstrip s' else s
  end.
Fixpoint rev_string (acc s : string) : string :=
  match s with
  | EmptyString => acc
  | String c s => rev_string (String c acc) s
  end.
Definition py_strip (s : string) : string :=
  rev_string EmptyString (lstrip (rev_string EmptyString (lstrip s))).

Definition startswith (prefix s : string) : bool := String.prefix prefix s.
Definition endswith (suffix s : string) : bool :=
  String.prefix (rev_string EmptyString suffix) (rev_string EmptyString s).

(** [s[:n]]. *)
Definition take_str (n : nat) (s : string) : string := String.substring 0 n s.

(** [sep.join(l)]. *)
Definition py_join (sep : string) (l : list string) : string := String.concat sep l.

(** Decimal digits with single underscores between them. *)
Fixpoint digits_value (s : string) (acc : Z) (after_digit : bool) : option Z :=
  match s with
  | EmptyString => if after_digit then Some acc else None
  | String c s =>
      let n := nat_of_ascii c in
      if ((48 <=? n) && (n <=? 57))%nat then
        digits_value s (10 * acc + Z.of_nat (n - 48)) true
      else if (n =? 95)%nat && after_digit then digits_value s acc false
      else None
  end.

(** [int(s)] on an ASCII string, [None] for [ValueError]. *)
Definition int_of_string (s : string) : option Z :=
  match py_strip s with
  | String c s' =>
      if bool_decide (c = "-"%char) then Z.opp <$> digits_value s' 0 false
      else if bool_decide (c = "+"%char) then digits_value s' 0 false
      else digits_value (String c s') 0 false
  | EmptyString => None
  end.

(** [s.isdigit()] on an ASCII string. *)
Fixpoint all_digits (s : string) : bool :=
  match s with
  | EmptyString => true
  | String c s => let n := nat_of_ascii c in
      ((48 <=? n) && (n <=? 57))%nat && all_digits s
  end.
Definition isdigit (s : string) : bool :=
  negb (bool_decide (s = ""%string)) && all_digits s.

(** [s.split(sep)] for a one-character separator. *)
Fixpoint split_on (sep : ascii) (s : string) : list string :=
  match s with
  | EmptyString => [EmptyString]
  | String c s =>
      if bool_decide (c = sep) then EmptyString :: split_on sep s
      else match split_on sep s with
           | w :: ws => String c w :: ws
           | [] => [String c EmptyString]
           end
  end.

(** [s.replace(old, new)] for a one-character [old]. *)
Fixpoint replace_char (old : ascii) (new s : string) : string :=
  match s with
  | EmptyString => EmptyString
  | String c s =>
      if bool_decide (c = old) then String.append new (replace_char old new s)
      else String c (replace_char old new s)
  end.

(** ** Dictionary facts *)

Lemma assoc_get_dict_set {A} k k' (v : A) d :
  assoc_get k (dict_set k' v d) = if decide (k' = k) then Some v else assoc_get k d.
Proof.
  induction d as [|[k0 v0] d IH]; simpl; [case_decide; case_bool_decide; congruence|].
  case_bool_decide as E; simpl; [subst|rewrite IH];
    case_decide; case_bool_decide; congruence.
Qed.

Lemma assoc_get_set_eq {A} k (v : A) kv : assoc_get k (dict_set k v kv) = Some v.
Proof. by rewrite assoc_get_dict_set, decide_True. Qed.

Lemma assoc_get_set_ne {A} k k' (v : A) kv :
  k ≠ k' → assoc_get k (dict_set k' v kv) = assoc_get k kv.
Proof. intros Hne. by rewrite assoc_get_dict_set, decide_False. Qed.

Lemma dict_get_update_other k d e :
  k ∉ e.*1 → dict_get k (dict_update d e) = dict_get k d.
Proof.
  unfold dict_update. revert d. induction e as [|[k' v] e IH]; intros d Hk; [done|]. simpl in *.
  rewrite not_elem_of_cons in Hk. destruct Hk as [Hne Hk]. rewrite IH by done.
  unfold dict_get. by rewrite assoc_get_dict_set, decide_False by done.
Qed.

Lemma dict_get_update d e1 k v e2 :
  k ∉ e2.*1 → dict_get k (dict_update d (e1 ++ (k, v) :: e2)) = v.
Proof.
  intros Hk. unfold dict_update. rewrite foldl_app. simpl.
  change (dict_get k (dict_update (dict_set k v (dict_update d e1)) e2) = v).
  rewrite dict_get_update_other by done. unfold dict_get.
  by rewrite assoc_get_dict_set, decide_True.
Qed.

Lemma dict_set_keys {A} k (v : A) kv :
  (dict_set k v kv).*1 = if bool_decide (k ∈ kv.*1) then kv.*1 else kv.*1 ++ [k].
Proof.
  induction kv as [|[k1 v1] kv IH]; [done|]. cbn [dict_set]. rewrite fmap_cons.
  destruct (decide (k1 = k)) as [->|E].
  - rewrite (bool_decide_eq_true_2 (k = k)) by done.
    by rewrite bool_decide_eq_true_2 by constructor.
  - rewrite (bool_decide_eq_false_2 (k1 = k)) by done. rewrite fmap_cons, IH. simpl fst.
    assert (k ∈ kv.*1 ↔ k ∈ k1 :: kv.*1) as Hiff
      by (rewrite elem_of_cons; split; [by right|by intros [->|?]]).
    rewrite <-(bool_decide_ext _ _ Hiff). by case_bool_decide.
Qed.

Lemma dict_set_NoDup {A} k (v : A) kv : NoDup kv.*1 → NoDup (dict_set k v kv).*1.
Proof.
  intros Hnd. rewrite dict_set_keys. case_bool_decide as E; [done|].
  apply NoDup_app. split; [done|]. split; [|apply NoDup_singleton].
  by intros x Hx ->%list_elem_of_singleton.
Qed.

Lemma assoc_get_elem {A} k (v : A) kv : assoc_get k kv = Some v → (k, v) ∈ kv.
Proof.
  induction kv as [|[k1 v1] kv IH]; simpl; [done|]. case_bool_decide as E.
  - intros [= ->]. subst. constructor.
  - intros ?%IH. by constructor.
Qed.

(** ** Order facts *)

Lemma pow2_split a b : 0 ≤ a → 0 ≤ b → 2 ^ (a + b) = 2 ^ a * 2 ^ b.
Proof. intros. by apply Z.pow_add_r. Qed.

(** Scaling both sides to a smaller common exponent keeps the order. *)
Lemma dyadic_compare_scale m1 e1 m2 e2 e :
  e ≤ Z.min e1 e2 →
  Z.compare (m1 * 2 ^ (e1 - Z.min e1 e2)) (m2 * 2 ^ (e2 - Z.min e1 e2))
  = Z.compare (m1 * 2 ^ (e1 - e)) (m2 * 2 ^ (e2 - e)).
Proof.
  intros He. set (k := Z.min e1 e2) in *.
  replace (e1 - e) with ((e1 - k) + (k - e)) by lia.
  replace (e2 - e) with ((e2 - k) + (k - e)) by lia.
  rewrite !pow2_split by lia. rewrite !Z.mul_assoc.
  assert (0 < 2 ^ (k - e)) by (apply Z.pow_pos_nonneg; lia).
  destruct (Z.compare_spec (m1 * 2 ^ (e1 - k)) (m2 * 2 ^ (e2 - k))) as [E|E|E];
    symmetry.
  - apply Z.compare_eq_iff. by rewrite E.
  - apply Z.compare_lt_iff. by apply Z.mul_lt_mono_pos_r.
  - apply Z.compare_gt_iff. by apply Z.mul_lt_mono_pos_r.
Qed.

Lemma xle_fin m1 e1 m2 e2 e :
  e ≤ e1 → e ≤ e2 →
  xle (XFin m1 e1) (XFin m2 e2) = true ↔ m1 * 2 ^ (e1 - e) ≤ m2 * 2 ^ (e2 - e).
Proof.
  intros. unfold xle, xcompare. rewrite (dyadic_compare_scale _ _ _ _ e) by lia.
  destruct (Z.compare_spec (m1 * 2 ^ (e1 - e)) (m2 * 2 ^ (e2 - e)));
    split; first [done | lia].
Qed.

Lemma xle_trans x y z : xle x y = true → xle y z = true → xle x z = true.
Proof.
  destruct x as [m1 e1|a|], y as [m2 e2|b|], z as [m3 e3|c|];
    try (intros; discriminate).
  - set (e := Z.min e1 (Z.min e2 e3)).
    rewrite !(xle_fin _ _ _ _ e) by lia. lia.
  - unfold xle; simpl. destruct c; done.
  - unfold xle; simpl. destruct b; done.
  - unfold xle; simpl. destruct b, c; done.
  - unfold xle; simpl. destruct a; done.
  - unfold xle; simpl. destruct a, c; done.
  - unfold xle; simpl. destruct a, b; done.
  - unfold xle; simpl. destruct a, b, c; done.
Qed.

Lemma xle_refl x : x ≠ XNaN → xle x x = true.
Proof.
  destruct x as [m e|a|]; intros; [|by destruct a|done].
  rewrite (xle_fin _ _ _ _ e) by lia. lia.
Qed.

Lemma xlt_le x y : xlt x y = true → xle x y = true.
Proof. unfold xlt, xle. by destruct (xcompare x y) as [[]|]. Qed.

Lemma xlt_total x y : x ≠ XNaN → y ≠ XNaN → xlt x y = false → xle y x = true.
Proof.
  destruct x as [m1 e1|a|], y as [m2 e2|b|]; try done.
  - intros _ _ Hlt. rewrite (xle_fin _ _ _ _ (Z.min e1 e2)) by lia.
    unfold xlt, xcompare in Hlt.
    destruct (Z.compare_spec (m1 * 2 ^ (e1 - Z.min e1 e2))
      (m2 * 2 ^ (e2 - Z.min e1 e2))); [lia|done|lia].
  - by destruct b.
  - by destruct a.
  - by destruct a, b.
Qed.

Lemma flt_fle x y : flt x y = true → fle x y = true.
Proof. apply xlt_le. Qed.

Lemma fmax_ge_r a b : f_is_finite a = true → f_is_finite b = true → fle b (fmax a b) = true.
Proof.
  intros Ha Hb. unfold fmax. destruct (flt a b) eqn:E.
  - apply xle_refl. by destruct b.
  - apply xlt_total; [by destruct a|by destruct b|done].
Qed.

Lemma fmax_ge_l a b : f_is_finite a = true → fle a (fmax a b) = true.
Proof.
  intros Ha. unfold fmax. destruct (flt a b) eqn:E.
  - by apply flt_fle.
  - apply xle_refl. by destruct a.
Qed.

Lemma dumps_ok v : json_ok v = true → dumps v = Ok v.
Proof. unfold dumps. by intros ->. Qed.

#[export] Hint Resolve fmax_ge_l fmax_ge_r xle_trans dumps_ok : factory.

(** * Numbers as text

    [float(text)] and [format(x, "g")]: the two conversions between binary64
    and decimal text that the quota code uses.  Both are exact: the parser
    rounds the decimal it reads to the nearest binary64, ties to even, and the
    printer rounds the exact binary value to six significant digits, ties to
    even. *)

(** ** [float(text)] *)

Definition digit_of (c : ascii) : option Z :=
  let n := nat_of_ascii c in
  if ((48 <=? n) && (n <=? 57))%nat then Some (Z.of_nat (n - 48)) else None.
Definition is_digit (c : ascii) : bool := bool_decide (is_Some (digit_of c)).
Definition starts_digit (s : string) : bool :=
  match s with String c _ => is_digit c | EmptyString => false end.

(** An underscore is accepted between two digits only. *)
Fixpoint drop_underscores (after_digit : bool) (s : string) : option string :=
  match s with
  | EmptyString => Some EmptyString
  | String c s =>
      if bool_decide (c = "_"%char) then
        if after_digit && starts_digit s then drop_underscores false s else None
      else String c <$> drop_underscores (is_digit c) s
  end.

(** Leading digits: their value onto [acc], how many, and the rest. *)
Fixpoint scan_digits (s : string) (acc : Z) (n : Z) : Z * Z * string :=
  match s with
  | String c s' =>
      match digit_of c with
      | Some d => scan_digits s' (10 * acc + d) (n + 1)
      | None => (acc, n, s)
      end
  | EmptyString => (acc, n, EmptyString)
  end.

(** The nearest binary64 of [m * 10 ^ e]. *)
Definition f_of_decimal (m : positive) (e : Z) : spec_float :=
  if 0 <=? e then f_of_Z (Z.pos m * 10 ^ e)
  else SFdiv prec64 emax64 (S754_finite false m 0) (S754_finite false (Z.to_pos (10 ^ (- e))) 0).

(** The exponent part: nothing, or [e] with an optional sign and digits. *)
Definition scan_exponent (s : string) : option Z :=
  match s with
  | EmptyString => Some 0
  | String c s =>
      if str_in (String c EmptyString) ["e"; "E"] then
        let '(negative, s) := match s with
          | String "-" s => (true, s)
          | String "+" s => (false, s)
          | _ => (false, s)
          end in
        match scan_digits s 0 0 with
        | (e, n, EmptyString) => if 0 <? n then Some (if negative then - e else e) else None
        | _ => None
        end
      else None
  end.

Definition unsigned_float (s : string) : option spec_float :=
  if str_in (py_lower s) ["inf"; "infinity"] then Some (S754_infinity false)
  else if bool_decide (py_lower s = "nan"%string) then Some S754_nan
  else
    let '(m, n1, r) := scan_digits s 0 0 in
    let '(m, n2, r) := match r with
      | String "." r => scan_digits r m 0
      | _ => (m, 0, r)
      end in
    if n1 + n2 =? 0 then None else
    e ← scan_exponent r;
    Some (match m with Z.pos p => f_of_decimal p (e - n2) | _ => fzero end).

(** [float(s)] on an ASCII string, [None] for [ValueError]. *)
Definition float_of_string (s : string) : option spec_float :=
  s ← drop_underscores false (py_strip s);
  match s with
  | String "-" s => SFopp <$> unsigned_float s
  | String "+" s => unsigned_float s
  | _ => unsigned_float s
  end.

(** ** [format(x, "g")] *)

(** The decimal exponent of [num / den]: 10 ^ x <= num / den < 10 ^ (x + 1).
    A binary64 lies between 10 ^ -324 and 10 ^ 309. *)
Fixpoint exponent_up (fuel : nat) (num den x : Z) : Z :=
  match fuel with
  | O => x
  | S fuel => if den * 10 <=? num then exponent_up fuel num (den * 10) (x + 1) else x
  end.
Fixpoint exponent_down (fuel : nat) (num den x : Z) : Z :=
  match fuel with
  | O => x
  | S fuel => if num <? den then exponent_down fuel (num * 10) den (x - 1) else x
  end.
Definition decimal_exponent (num den : Z) : Z :=
  if den <=? num then exponent_up 400 num den 0 else exponent_down 400 num den 0.

Definition round_half_even (num den : Z) : Z :=
  let q := num / den in
  match Z.compare (2 * (num mod den)) den with
  | Lt => q
  | Gt => q + 1
  | Eq => if Z.even q then q else q + 1
  end.

Fixpoint zeros (n : nat) : string :=
  match n with O => EmptyString | S n => String "0" (zeros n) end.
Fixpoint lstrip_zeros (s : string) : string :=
  match s with
  | String "0" s => lstrip_zeros s
  | _ => s
  end.
Definition rstrip_zeros (s : string) : string :=
  rev_string EmptyString (lstrip_zeros (rev_string EmptyString s)).
Definition with_fraction (whole fraction : string) : string :=
  let fraction := rstrip_zeros fraction in
  if bool_decide (fraction = ""%string) then whole else whole +:+ "." +:+ fraction.

(** Six significant digits [d] of a number of decimal exponent [x]. *)
Definition layout_g (d x : Z) : string :=
  let ds := pretty d in
  if (-4 <=? x) && (x <? 6) then
    if 0 <=? x then
      let n := Z.to_nat (x + 1) in
      with_fraction (take_str n ds) (String.substring n (String.length ds - n) ds)
    else with_fraction "0" (zeros (Z.to_nat (- x - 1)) +:+ ds)
  else
    let ex := pretty (Z.abs x) in
    with_fraction (take_str 1 ds) (String.substring 1 (String.length ds - 1) ds)
      +:+ "e" +:+ (if x <? 0 then "-" else "+") +:+
      (if (String.length ex <? 2)%nat then "0" +:+ ex else ex).

Definition format_g_float (f : spec_float) : string :=
  match f with
  | S754_zero s => if s then "-0" else "0"
  | S754_infinity s => if s then "-inf" else "inf"
  | S754_nan => "nan"
  | S754_finite s m e =>
      let num := if 0 <=? e then Z.pos m * 2 ^ e else Z.pos m in
      let den := if 0 <=? e then 1 else 2 ^ (- e) in
      let x := decimal_exponent num den in
      let d := if 5 <=? x then round_half_even num (den * 10 ^ (x - 5))
               else round_half_even (num * 10 ^ (5 - x)) den in
      let '(d, x) := if d =? 1000000 then (100000, x + 1) else (d, x) in
      (if s then "-" else "") +:+ layout_g d x
  end.

(** [f"{v:g}"]: an int is converted to float first. *)
Definition format_g (v : pyval) : res string := format_g_float <$> to_float v.

(** ** Examples *)

Example float_tenth : float_of_string " 0.1 " = Some (S754_finite false 7205759403792794 (-56)).
Proof. vm_compute. reflexivity. Qed.
Example float_forms :
  (float_of_string "1_0e-1", float_of_string ".", float_of_string "1__0", float_of_string "-Inf",
   float_of_string "9e2")
  = (Some (f_of_Z 1), None, None, Some (S754_infinity true), Some (f_of_Z 900)).
Proof. vm_compute. reflexivity. Qed.
Example format_forms :
  format_g_float <$> omap float_of_string
    ["97.5"; "1234567"; "0.0001"; "0.00001"; "100"; "-2.5e-7"; "999999.5"; "1e22"; "0.1"; "12.3456789"]%string
  = ["97.5"; "1.23457e+06"; "0.0001"; "1e-05"; "100"; "-2.5e-07"; "1e+06"; "1e+22"; "0.1"; "12.3457"]%string.
Proof. vm_compute. reflexivity. Qed.

(** * Float arithmetic beyond sums

    Products, quotients, [math.ceil] and [round(x, 6)] on binary64, for prices
    and allowances. *)

Definition fmul : spec_float → spec_float → spec_float := SFmul prec64 emax64.
Definition fdiv : spec_float → spec_float → spec_float := SFdiv prec64 emax64.

(** The literal [n / d] of a decimal text: both parts are exact, so the quotient
    is the nearest float. *)
Definition dec (n d : Z) : spec_float := fdiv (f_of_Z n) (f_of_Z d).

(** [math.ceil(f)]. *)
Definition py_ceil (f : spec_float) : res Z :=
  match f with
  | S754_zero _ => Ok 0
  | S754_finite s m e =>
      let z := if s then Z.neg m else Z.pos m in
      Ok (if 0 <=? e then z * 2 ^ e else - ((- z) / 2 ^ (- e)))
  | S754_infinity _ => Raise OverflowError
  | S754_nan => Raise (ValueError "cannot convert float NaN to integer")
  end.

(** Nearest integer of [n / d], ties to even. *)
Definition nearest (n d : Z) : Z :=
  let q := n / d in
  match 2 * (n mod d) ?= d with
  | Lt => q
  | Gt => q + 1
  | Eq => if Z.even q then q else q + 1
  end.

(** The float nearest to [n / d]: enough bits of the quotient, the last one set
    when it is not exact. *)
Definition ratio (negative : bool) (n d : Z) : spec_float :=
  let scaled := Z.abs n * 2 ^ 130 in
  let m := 2 * (scaled / d) + (if scaled mod d =? 0 then 0 else 1) in
  binary_normalize prec64 emax64 (if negative then - m else m) (-131) negative.

(** [round(f, 6)]: the nearest six-digit decimal, read back as a float. *)
Definition round6 (f : spec_float) : spec_float :=
  match f with
  | S754_finite s m e =>
      if 0 <=? e then f
      else let z := if s then Z.neg m else Z.pos m in
           ratio s (nearest (z * 10 ^ 6) (2 ^ (- e))) (10 ^ 6)
  | _ => f
  end.

Example round_tenth : round6 (dec 1 10) = dec 1 10.
Proof. vm_compute. reflexivity. Qed.
Example round_third : round6 (dec 1 3) = dec 333333 1000000.
Proof. vm_compute. reflexivity. Qed.
Example round_tie : round6 (dec 1 128) = dec 7812 1000000 ∧ round6 (dec 3 128) = dec 23438 1000000.
Proof. vm_compute. done. Qed.
Example ceil_sides : py_ceil (dec 7 2) = Ok 4 ∧ py_ceil (dec (-7) 2) = Ok (-3).
Proof. vm_compute. done. Qed.
