(* ===== verification/ModelCatalog.v ===== *)
(** * Models

    [factory/execution/__init__.py]: the models a session may run on, their
    adapter families and the reasoning levels. *)

From stdpp Require Import prelude list strings.
From S2P Require Import Prelude PyValue.

Definition SUPPORTED_MODELS : list string :=
  ["luna"; "terra"; "sol"; "astra"; "opus"; "sonnet"; "fable"; "spark"; "pi-spark"].
Definition LEGACY_MODEL_ALIASES : list (string * string) := [("qwen", "spark")]%string.
Definition EFFORT_LEVELS : list string := ["low"; "medium"; "high"; "xhigh"; "max"].
Definition MODEL_ENV_VAR : string := "AGENT_MODELS".

(** The supported models narrowed by the allowlist, in their own order. *)
Definition offered_models `{Environ} (configured : option string) : list string :=
  let raw := match configured with Some c => c | None => default ""%string (environ MODEL_ENV_VAR) end in
  let allowed := filter (λ p, p ≠ ""%string) (py_strip <$> split_on (Ascii.ascii_of_nat 44) raw) in
  match allowed with
  | [] => SUPPORTED_MODELS
  | _ => filter (λ m, m ∈ allowed) SUPPORTED_MODELS
  end.

(** A model name that is not hashable raises [TypeError] in the alias lookup. *)
Definition normalize_model (model : pyval) : res pyval :=
  match model with
  | PStr s => Ok (PStr (default s (assoc_get s LEGACY_MODEL_ALIASES)))
  | PList _ | PDict _ => Raise TypeError
  | _ => Ok model
  end.

Definition model_family (model : pyval) : res string :=
  model ← normalize_model model;
  if pystr_in model ["pi-spark"] then Ok "pi"%string
  else if pystr_in model ["luna"; "terra"; "sol"; "astra"] then Ok "codex"%string
  else if pystr_in model ["spark"] then Ok "muse"%string
  else if is_none model || pystr_in model ["opus"; "sonnet"; "fable"; "haiku"] then Ok "claude"%string
  else Raise (ValueError "Unknown model").
