(* ===== verification/GraphData.v ===== *)
(** * Plan graph: rows, values and reads

    The data of [factory/orchestration/graph.py]: the rows of the [swarm]
    schema it reads and writes (factory/orchestration/models.py), the value
    checks, the version ledger with its typed changes, and the read side that
    every operation shares.  Tables are lists in primary-key order: an insert
    appends, so [order_by(id)] is the list order. *)

From Stdlib Require Import SpecFloat.
From stdpp Require Import prelude list strings pretty.
From S2P Require Import Prelude PyValue ModelCatalog Worklist.
Local Open Scope Z_scope.

(** ** Constants *)

Definition _NODE_KINDS : list string := ["work"; "gate"; "merge"; "fable_escalation"].
Definition TERMINAL_RUN_STATUSES : list string :=
  ["succeeded"; "failed"; "escalated"; "cancelled"].
Definition MAX_ATTEMPTS : Z := 10.
Definition MAX_FUNDING_RETRIES : nat := 2.
Definition MAX_PLAN_EDITS : nat := 20.
Definition MAX_TURN_TIMEOUT_SECONDS : Z := 43200.
Definition MAX_CAPACITY_DENIED_ATTEMPTS : nat := 3.

(** ** Operation results *)

Record GraphOp := mkGraphOp {
  ok : bool;
  op_version : option Z;
  refusal_code : option string;
  op_detail : option string;
  op_attempt : option Z;
  op_pin : option (list (string * pyval));
}.

Definition applied_op (version : Z) (detail : option string) : GraphOp :=
  mkGraphOp true (Some version) None detail None None.
Definition refused_op (version : Z) (code : string) (detail : option string) : GraphOp :=
  mkGraphOp false (Some version) (Some code) detail None None.

(** ** Value checks *)

(** [repr] of a float that is not finite. *)
Definition nonfinite_repr (f : spec_float) : string :=
  match f with
  | S754_infinity true => "-inf"
  | S754_infinity false => "inf"
  | _ => "nan"
  end.

Fixpoint _audit_value (value : pyval) : pyval :=
  match value with
  | PFloat f => if f_is_finite f then value else PStr (nonfinite_repr f)
  | PDict kv => PDict ((λ p, (p.1, _audit_value p.2)) <$> kv)
  | PList l => PList (_audit_value <$> l)
  | PNone | PBool _ | PInt _ | PStr _ => value
  | PObj t => PStr (("<" +:+ t) +:+ ">")
  end.

Definition _valid_cost (zero : bool) (value : pyval) : bool :=
  if negb (is_number value) then false
  else match math_isfinite value, xnum_of value with
       | Ok finite, Some x =>
           finite && (if zero then xle (XFin 0 0) x else xlt (XFin 0 0) x)
       | _, _ => false   (* OverflowError: an int too large for a float *)
       end.

Definition _valid_bound (value : pyval) (ceiling : Z) : bool :=
  match value with
  | PInt z => (0 <? z) && (z <=? ceiling)
  | _ => false
  end.

(** [_bounds_error] reads four entries of a node row or of a field dict. *)
Definition _bounds_error (effort max_cost_usd max_attempts turn_timeout_seconds : pyval)
    : option string :=
  if negb (is_none effort) && negb (pystr_in effort EFFORT_LEVELS)
  then Some "invalid_effort"
  else if negb (_valid_cost false max_cost_usd) then Some "invalid_node_budget"
  else if negb (_valid_bound max_attempts MAX_ATTEMPTS) then Some "invalid_max_attempts"
  else if negb (_valid_bound turn_timeout_seconds MAX_TURN_TIMEOUT_SECONDS)
  then Some "invalid_turn_timeout"
  else None.

(** ** Rows *)

Record SwarmTask := mkTask {
  st_id : string;
  st_conductor_model : string;
  st_budget_usd : pyval;
}.

(** The ten semantic fields of a node, as [add_node] receives them. *)
Record NodeFields := mkFields {
  nf_node_key : string;
  nf_kind : string;
  nf_prompt : string;
  nf_model : pyval;
  nf_effort : pyval;
  nf_deps : list string;
  nf_max_cost_usd : pyval;
  nf_side_effects : bool;
  nf_max_attempts : pyval;
  nf_turn_timeout_seconds : pyval;
}.

(** One [swarm_plan_node] row.  [pn_deps_json] is the decoded JSON column. *)
Record SwarmPlanNode := mkNode {
  pn_id : Z;
  pn_task_id : string;
  pn_node_key : string;
  pn_kind : string;
  pn_prompt : string;
  pn_model : pyval;
  pn_effort : pyval;
  pn_deps_json : pyval;
  pn_max_cost_usd : pyval;
  pn_side_effects : bool;
  pn_max_attempts : pyval;
  pn_turn_timeout_seconds : pyval;
  pn_created_in_version : Z;
  pn_discarded_in_version : option Z;
  pn_cancelled_in_version : option Z;
  pn_armed_at : option Z;
  pn_base_artifact_sha : option string;
}.

(** [armed_at] in a node dict: absent, a datetime (microseconds), or the ISO
    8601 text the ledger stores for it. *)
Inductive armed_stamp := NotArmed | ArmedAt (t : Z) | ArmedIso (t : Z).

(** An evidence-continuation grant of the version ledger. *)
Record Grant := mkGrant {
  g_node_key : string;
  g_review_key : string;
  g_node_versions : list (string * Z);
  g_attempt_limit : Z;
  g_source_run_id : Z;
  g_next_attempt : Z;
  g_rest : list (string * pyval);
}.

(** A node dict: what [_node_fields] returns and [load_graph] lists. *)
Record NodeView := mkView {
  nv_fields : NodeFields;
  nv_created_in_version : Z;
  nv_discarded_in_version : option Z;
  nv_cancelled_in_version : option Z;
  nv_armed_at : armed_stamp;
  nv_base_artifact_sha : option string;
  nv_evidence_continuation : option Grant;
  nv_evidence_continuation_blocked : bool;
}.
Definition nv_node_key (v : NodeView) : string := nf_node_key (nv_fields v).

(** The decoded [change_json] of a ledger row, one constructor per [op]. *)
Inductive Change :=
| ChAddNode (fields : NodeFields)
| ChDiscardNode (node_key : string) (snapshot : option NodeView)
| ChRenewNodeAttempt (node_key : string) (created_in_version : Z)
    (before after : pyval) (source_run_id : Z) (request_id : pyval)
| ChContinueEvidence (grant : Grant)
| ChBlockEvidenceContinuation
| ChOther (op : string) (payload : pyval).

Definition change_op (c : Change) : string :=
  match c with
  | ChAddNode _ => "add_node"
  | ChDiscardNode _ _ => "discard_node"
  | ChRenewNodeAttempt _ _ _ _ _ _ => "renew_node_attempt"
  | ChContinueEvidence _ => "continue_evidence"
  | ChBlockEvidenceContinuation => "block_evidence_continuation"
  | ChOther op _ => op
  end.

Record SwarmPlanVersion := mkVersion {
  pv_id : Z;
  pv_task_id : string;
  pv_version : Z;
  pv_author_kind : string;
  pv_author : string;
  pv_change : Change;
  pv_cause_kind : string;
  pv_cause_ref : option string;
  pv_stated_reason : pyval;
}.
Definition pv_op (v : SwarmPlanVersion) : string := change_op (pv_change v).

Record SwarmConductorCall := mkCall {
  cc_task_id : string;
  cc_conductor_model : string;
  cc_tool : string;
  cc_args_json : pyval;
  cc_outcome : string;
  cc_refusal_code : option string;
  cc_version_before : Z;
  cc_version_after : option Z;
}.

Record SwarmNodeRun := mkRun {
  nr_id : Z;
  nr_task_id : string;
  nr_node_key : string;
  nr_attempt : Z;
  nr_dispatch_key : option string;
  nr_pin_json : option (list (string * pyval));
  nr_model : pyval;
  nr_reserved_cost_usd : pyval;
  nr_session_id : option Z;
  nr_status : string;
  nr_cost_usd : pyval;
  nr_base_sha : option string;
  nr_head_sha : option string;
  nr_outcome_json : option jtext;
  nr_created_at : Z;
  nr_finished_at : option Z;
}.

Record FactoryStart := mkStart {
  fs_task_id : string;
  fs_start_key : string;
  fs_status : string;
}.

(** The tables one graph transaction sees, and its wall clock. *)
Record DB := mkDB {
  db_tasks : list SwarmTask;
  db_versions : list SwarmPlanVersion;
  db_nodes : list SwarmPlanNode;
  db_runs : list SwarmNodeRun;
  db_calls : list SwarmConductorCall;
  db_starts : list FactoryStart;
  db_now : Z;
}.

Definition set_versions (f : list SwarmPlanVersion → list SwarmPlanVersion) (db : DB) : DB :=
  mkDB (db_tasks db) (f (db_versions db)) (db_nodes db) (db_runs db)
       (db_calls db) (db_starts db) (db_now db).
Definition set_nodes (f : list SwarmPlanNode → list SwarmPlanNode) (db : DB) : DB :=
  mkDB (db_tasks db) (db_versions db) (f (db_nodes db)) (db_runs db)
       (db_calls db) (db_starts db) (db_now db).
Definition set_runs (f : list SwarmNodeRun → list SwarmNodeRun) (db : DB) : DB :=
  mkDB (db_tasks db) (db_versions db) (db_nodes db) (f (db_runs db))
       (db_calls db) (db_starts db) (db_now db).
Definition set_calls (f : list SwarmConductorCall → list SwarmConductorCall) (db : DB) : DB :=
  mkDB (db_tasks db) (db_versions db) (db_nodes db) (db_runs db)
       (f (db_calls db)) (db_starts db) (db_now db).

(** ** JSON forms of the records *)

Definition opt_str (o : option string) : pyval :=
  match o with Some s => PStr s | None => PNone end.
Definition opt_int (o : option Z) : pyval :=
  match o with Some z => PInt z | None => PNone end.

(** The dict [node_fields] built by [add_node]. *)
Definition fields_dict (f : NodeFields) : list (string * pyval) :=
  [ ("node_key", PStr (nf_node_key f)); ("kind", PStr (nf_kind f));
    ("prompt", PStr (nf_prompt f)); ("model", nf_model f); ("effort", nf_effort f);
    ("deps", PList (PStr <$> nf_deps f)); ("max_cost_usd", nf_max_cost_usd f);
    ("side_effects", PBool (nf_side_effects f)); ("max_attempts", nf_max_attempts f);
    ("turn_timeout_seconds", nf_turn_timeout_seconds f) ].

Definition grant_dict (g : Grant) : list (string * pyval) :=
  [ ("node_key", PStr (g_node_key g)); ("review_key", PStr (g_review_key g));
    ("node_versions", PDict ((λ p, (p.1, PInt p.2)) <$> g_node_versions g));
    ("attempt_limit", PInt (g_attempt_limit g));
    ("source_run_id", PInt (g_source_run_id g));
    ("next_attempt", PInt (g_next_attempt g)) ] ++ g_rest g.

(** A datetime is an object JSON refuses; its ISO text is a string. *)
Definition armed_value (a : armed_stamp) : pyval :=
  match a with
  | NotArmed => PNone
  | ArmedAt _ => PObj "datetime"
  | ArmedIso t => PStr (pretty t)
  end.

Definition view_dict (v : NodeView) : list (string * pyval) :=
  fields_dict (nv_fields v) ++
  [ ("created_in_version", PInt (nv_created_in_version v));
    ("discarded_in_version", opt_int (nv_discarded_in_version v));
    ("cancelled_in_version", opt_int (nv_cancelled_in_version v));
    ("armed_at", armed_value (nv_armed_at v));
    ("base_artifact_sha", opt_str (nv_base_artifact_sha v)) ] ++
  match nv_evidence_continuation v with
  | Some g => [("evidence_continuation", PDict (grant_dict g))]
  | None => []
  end ++
  (if nv_evidence_continuation_blocked v
   then [("evidence_continuation_blocked", PBool true)] else []).

(** ** Reads *)

Definition _current_version (db : DB) (task_id : string) : Z :=
  max_key pv_version
    (filter (λ v, pv_task_id v = task_id) (db_versions db)).

Definition visible_at (task_id : string) (version : Z) (n : SwarmPlanNode) : bool :=
  bool_decide (pn_task_id n = task_id) &&
  (pn_created_in_version n <=? version) &&
  match pn_discarded_in_version n with None => true | Some d => version <? d end &&
  match pn_cancelled_in_version n with None => true | Some c => version <? c end.

Definition _visible_nodes (db : DB) (task_id : string) (version : Z)
    : list SwarmPlanNode :=
  filter (λ n, visible_at task_id version n = true) (db_nodes db).

(** Decode a JSON list of strings. *)
Definition decode_deps (v : pyval) : option (list string) :=
  match v with
  | PList l => mapM (λ x, match x with PStr s => Some s | _ => None end) l
  | _ => None
  end.

Definition _node_deps (n : SwarmPlanNode) : res (list string) :=
  match decode_deps (pn_deps_json n) with
  | Some deps => Ok deps
  | None => Raise (ValueError ("Invalid deps_json for swarm node " +:+ pn_node_key n))
  end.

Definition _node_fields (n : SwarmPlanNode) : res NodeView :=
  deps ← _node_deps n;
  Ok (mkView
        (mkFields (pn_node_key n) (pn_kind n) (pn_prompt n) (pn_model n) (pn_effort n)
           deps (pn_max_cost_usd n) (pn_side_effects n) (pn_max_attempts n)
           (pn_turn_timeout_seconds n))
        (pn_created_in_version n) (pn_discarded_in_version n)
        (pn_cancelled_in_version n)
        match pn_armed_at n with Some t => ArmedAt t | None => NotArmed end
        (pn_base_artifact_sha n) None false).

(** [{node.node_key: node for node in nodes}] read at one key. *)
Definition live_get (live : list SwarmPlanNode) (key : string) : option SwarmPlanNode :=
  find_last (λ n, bool_decide (pn_node_key n = key)) live.
Definition live_mem (live : list SwarmPlanNode) (key : string) : bool :=
  match live_get live key with Some _ => true | None => false end.

Definition _lock_task (db : DB) (task_id : string) : res SwarmTask :=
  match find_first (λ t, bool_decide (st_id t = task_id)) (db_tasks db) with
  | Some t => Ok t
  | None => Raise (ValueError ("Unknown swarm task " +:+ task_id))
  end.

Definition live_succ (live : list SwarmPlanNode) (key : string) : res (list string) :=
  match live_get live key with
  | Some n => _node_deps n
  | None => Ok []
  end.

(** Dependencies of a live key, [[]] where they do not decode. *)
Definition live_deps (live : list SwarmPlanNode) (key : string) : list string :=
  match live_succ live key with Ok l => l | Raise _ => [] end.

(** The loop runs with [search_fuel], which [search_correct] shows is enough
    when the stored dependencies decode. *)
Definition _would_cycle (node_key : string) (deps : list string)
    (live : list SwarmPlanNode) : res bool :=
  match search (live_succ live) node_key
          (search_fuel (live_deps live) (remove_dups (pn_node_key <$> live)) deps)
          (reverse deps) ∅ with
  | Some r => r
  | None => Ok false
  end.

Definition _fable_ever_created (db : DB) (task_id : string) : bool :=
  existsb (λ n, bool_decide (pn_task_id n = task_id) &&
                bool_decide (pn_kind n = "fable_escalation")) (db_nodes db) ||
  existsb (λ v, bool_decide (pv_task_id v = task_id) &&
                match pv_change v with
                | ChAddNode f => bool_decide (nf_kind f = "fable_escalation")
                | _ => false
                end) (db_versions db).

(** Runs ordered by node key, then attempt. *)
Definition run_le (a b : SwarmNodeRun) : bool :=
  match String.compare (nr_node_key a) (nr_node_key b) with
  | Lt => true
  | Gt => false
  | Eq => nr_attempt a <=? nr_attempt b
  end.
Definition _runs (db : DB) (task_id : string) : list SwarmNodeRun :=
  py_sorted run_le (filter (λ r, nr_task_id r = task_id) (db_runs db)).

Definition terminal (status : string) : bool := str_in status TERMINAL_RUN_STATUSES.

(** ** Facts about the reads *)

Lemma elem_of_visible db task version n :
  n ∈ _visible_nodes db task version ↔
  n ∈ db_nodes db ∧ visible_at task version n = true.
Proof. unfold _visible_nodes. rewrite list_elem_of_filter. tauto. Qed.

Lemma elem_of_runs db task r :
  r ∈ _runs db task ↔ r ∈ db_runs db ∧ nr_task_id r = task.
Proof. unfold _runs. rewrite elem_of_py_sorted, list_elem_of_filter. tauto. Qed.

Lemma live_get_Some live key n :
  live_get live key = Some n → n ∈ live ∧ pn_node_key n = key.
Proof. intros [? ?%bool_decide_eq_true]%find_last_Some. done. Qed.

Lemma live_mem_spec live key :
  live_mem live key = true ↔ key ∈ pn_node_key <$> live.
Proof.
  unfold live_mem. rewrite list_elem_of_fmap.
  destruct (live_get live key) as [n|] eqn:E.
  - apply live_get_Some in E as [? <-]. split; [|done]. eauto.
  - split; [done|]. intros (n & -> & Hn).
    unfold live_get in E. rewrite find_last_None in E.
    specialize (E n Hn). by rewrite bool_decide_eq_false in E.
Qed.

Lemma live_get_unique live n :
  NoDup (pn_node_key <$> live) → n ∈ live → live_get live (pn_node_key n) = Some n.
Proof.
  intros Hnd Hn.
  destruct (find_last_is_Some (λ m, bool_decide (pn_node_key m = pn_node_key n)) live n)
    as [m Hm]; [done|by apply bool_decide_eq_true|].
  unfold live_get. rewrite Hm. f_equal.
  apply live_get_Some in Hm as [Hm Hk]. by eapply NoDup_fmap_elem.
Qed.

Lemma current_version_nonneg db task : 0 ≤ _current_version db task.
Proof. apply max_key_nonneg. Qed.

(** Any value can be audited: the result is JSON without non-finite floats. *)
Lemma audit_value_json_ok v : json_ok (_audit_value v) = true.
Proof.
  induction v as [| | | | |l IH|kv IH|] using pyval_nested_ind; simpl; try done.
  - destruct (f_is_finite f) eqn:E; simpl; done.
  - apply forallb_forall. intros x Hx%list_elem_of_In.
    apply list_elem_of_fmap in Hx as (y & -> & Hy).
    rewrite Forall_forall in IH. auto.
  - apply forallb_forall. intros x Hx%list_elem_of_In.
    apply list_elem_of_fmap in Hx as (y & -> & Hy). simpl.
    rewrite Forall_forall in IH. auto.
Qed.

#[export] Hint Resolve audit_value_json_ok current_version_nonneg : factory.
