(* ===== verification/GraphAccounting.v ===== *)
(** * Plan graph: run ledger accounting

    The accounting half of [factory/orchestration/graph.py]: what one attempt
    is charged, which attempts count against a node's bound, the planned cost
    of a task, and the projections that report them. *)

From Stdlib Require Import SpecFloat.
From stdpp Require Import prelude list strings pretty.
From S2P Require Import Prelude PyValue GraphData.
Local Open Scope Z_scope.

(** What the graph reads of the funding audit ledger
    ([factory_funding_limits.amendment]): the latest funding grant of a task. *)
Record Amendment := mkAmendment {
  am_task_budget_usd : pyval;
  am_next_plan : string;
}.
Class FundingLedger := amendment : DB → string → option Amendment.

Definition _node_budgets (db : DB) (task_id : string) : list (string * pyval) :=
  (λ n, (pn_node_key n, pn_max_cost_usd n)) <$>
    filter (λ n, pn_task_id n = task_id) (db_nodes db).

(** [budgets.get(key)] on the dict built from those pairs. *)
Definition budgets_get (budgets : list (string * pyval)) (key : string) : pyval :=
  match find_last (λ p, bool_decide (p.1 = key)) budgets with
  | Some p => p.2
  | None => PNone
  end.

Definition _reservation (run : SwarmNodeRun) (budgets : list (string * pyval))
    : res spec_float :=
  let value := if is_none (nr_reserved_cost_usd run)
               then budgets_get budgets (nr_node_key run)
               else nr_reserved_cost_usd run in
  if _valid_cost false value then to_float value
  else Raise (ValueError ("Missing valid reservation for swarm node run "
                          +:+ pretty (nr_id run))).

Definition NO_MODEL_POST_PHASES : list string :=
  ["never_dispatched"; "not_invoked"; "lost_before_guest"].

(** The first proof attached under the phase it proves.  The source iterates a
    frozenset; every answer is a member of it, whatever the order. *)
Fixpoint typed_proof (phases : list string) (outcome : list (string * pyval))
    : option string :=
  match phases with
  | [] => None
  | expected :: phases =>
      match dict_get expected outcome with
      | PDict proof =>
          if py_eq (dict_get "invocation_phase" proof) (PStr expected)
          then Some expected else typed_proof phases outcome
      | _ => typed_proof phases outcome
      end
  end.

Definition _outcome_phase (outcome : pyval) : option string :=
  match outcome with
  | PDict o =>
      match dict_get "invocation_phase" o with
      | PStr phase => Some phase
      | _ =>
          match dict_get "recovery" o with
          | PDict recovery =>
              match dict_get "invocation_phase" recovery with
              | PStr phase => Some phase
              | _ => typed_proof NO_MODEL_POST_PHASES o
              end
          | _ => typed_proof NO_MODEL_POST_PHASES o
          end
      end
  | _ => None
  end.

(** [if not run.outcome_json: ...; json.loads(...)], [None] on both early
    returns: an absent or empty text, and a text that does not parse. *)
Definition outcome_value (run : SwarmNodeRun) : option pyval :=
  match nr_outcome_json run with
  | Some t => if bool_decide (jt_text t = ""%string) then None else jt_loads t
  | None => None
  end.

Definition _invocation_phase (run : SwarmNodeRun) : option string :=
  match outcome_value run with
  | Some outcome => _outcome_phase outcome
  | None => None
  end.

Definition no_model_post (phase : option string) : bool :=
  match phase with Some p => str_in p NO_MODEL_POST_PHASES | None => false end.

(** [isinstance(outcome, dict) and bool(outcome.get("capacity_denied"))]. *)
Definition outcome_denied (outcome : pyval) : bool :=
  match outcome with
  | PDict o => truthy (dict_get "capacity_denied" o)
  | _ => false
  end.

Definition settled_zero_basis (outcome : pyval) : option string :=
  if negb (no_model_post (_outcome_phase outcome)) then None
  else Some (if outcome_denied outcome then "capacity_denied" else "no_model_post").

Definition _capacity_denied (run : SwarmNodeRun) : bool :=
  match outcome_value run with
  | Some outcome => outcome_denied outcome
  | None => false
  end.

Definition count_true {A} (p : A → bool) (l : list A) : nat :=
  length (filter (λ x, p x = true) l).

Definition _spent_attempts (runs : list SwarmNodeRun) : Z :=
  let denied := count_true _capacity_denied runs in
  Z.of_nat (length runs) - Z.of_nat (Nat.min denied MAX_CAPACITY_DENIED_ATTEMPTS).

Definition _reported_cost_basis (run : SwarmNodeRun) : string :=
  match outcome_value run with
  | Some (PDict o) =>
      if py_eq (dict_get "cost_basis" o) (PStr "list") then "list_priced" else "reported"
  | _ => "reported"
  end.

Definition SETTLED_ACCOUNTING_BASES : list string :=
  ["reported"; "list_priced"; "no_model_post"].

Definition _accounting_basis (run : SwarmNodeRun) : string :=
  if negb (terminal (nr_status run)) then "active_reservation"
  else if _valid_cost true (nr_cost_usd run) then _reported_cost_basis run
  else if no_model_post (_invocation_phase run) then "no_model_post"
  else "reserved_unknown_cost".

Definition _accounted_cost (run : SwarmNodeRun) (budgets : list (string * pyval))
    : res spec_float :=
  let measured := if _valid_cost true (nr_cost_usd run) then nr_cost_usd run else PNone in
  if terminal (nr_status run) && negb (is_none measured) then to_float measured
  else if terminal (nr_status run) && no_model_post (_invocation_phase run)
  then Ok fzero
  else
    reservation ← _reservation run budgets;
    spent ← (if truthy measured then to_float measured else Ok fzero);
    Ok (fmax reservation spent).

(** [accounted[key] = accounted.get(key, 0.0) + cost], in insertion order. *)
Fixpoint charge (accounted : list (string * spec_float)) (key : string)
    (cost : spec_float) : list (string * spec_float) :=
  match accounted with
  | [] => [(key, fadd fzero cost)]
  | (k, c) :: rest =>
      if bool_decide (k = key) then (k, fadd c cost) :: rest
      else (k, c) :: charge rest key cost
  end.

Fixpoint charge_runs (budgets : list (string * pyval)) (runs : list SwarmNodeRun)
    (accounted : list (string * spec_float)) : res (list (string * spec_float)) :=
  match runs with
  | [] => Ok accounted
  | run :: runs =>
      cost ← _accounted_cost run budgets;
      charge_runs budgets runs (charge accounted (nr_node_key run) cost)
  end.

Definition remaining_cost (accounted : list (string * spec_float))
    (node : SwarmPlanNode) : res spec_float :=
  ceiling ← to_float (pn_max_cost_usd node);
  Ok (fmax fzero
        (fsub ceiling (default fzero (assoc_get (pn_node_key node) accounted)))).

Definition _planned_cost (db : DB) (task_id : string) (live : list SwarmPlanNode)
    : res spec_float :=
  let runs := _runs db task_id in
  accounted ← charge_runs (_node_budgets db task_id) runs [];
  let succeeded :=
    nr_node_key <$> filter (λ r, nr_status r = "succeeded") runs in
  remaining ← res_map (remaining_cost accounted)
    (filter (λ n, pn_node_key n ∉ succeeded) live);
  Ok (fadd (py_sum (snd <$> accounted)) (py_sum remaining)).

(** [graph_budget(db, task)], called without a node key: the pending review
    branch compares that key with [None] and is never taken. *)
Definition graph_budget `{FundingLedger} (db : DB) (task : SwarmTask) : pyval :=
  match amendment db (st_id task) with
  | Some grant => am_task_budget_usd grant
  | None => st_budget_usd task
  end.

Record BudgetSnapshot := mkSnapshot {
  bs_graph_version : Z;
  bs_task_budget_usd : pyval;
  bs_accounted_cost_usd : spec_float;
  bs_settled_accounted_cost_usd : spec_float;
  bs_active_accounted_cost_usd : spec_float;
  bs_planned_cost_usd : spec_float;
  bs_unallocated_cost_usd : option spec_float;
  bs_active_attempts : nat;
  bs_uncertain_attempts : nat;
}.

Definition budget_snapshot `{FundingLedger} (db : DB) (task_id : string)
    : res BudgetSnapshot :=
  match find_first (λ t, bool_decide (st_id t = task_id)) (db_tasks db) with
  | None => Raise (ValueError "task not found")
  | Some task =>
      let version := _current_version db task_id in
      let runs := _runs db task_id in
      let budgets := _node_budgets db task_id in
      costs ← res_map (λ r, _accounted_cost r budgets) runs;
      let accounted := py_sum costs in
      let active := filter (λ r, terminal (nr_status r) = false) runs in
      active_costs ← res_map (λ r, _accounted_cost r budgets) active;
      let active_cost := py_sum active_costs in
      planned ← _planned_cost db task_id (_visible_nodes db task_id version);
      let ceiling := graph_budget db task in
      unallocated ←
        (if is_none ceiling then Ok None
         else c ← to_float ceiling; Ok (Some (fmax fzero (fsub c planned))));
      Ok (mkSnapshot version ceiling accounted (fsub accounted active_cost) active_cost
            planned unallocated (length active)
            (count_true (λ r, bool_decide (nr_status r = "uncertain")) active))
  end.

(** One entry of [node_runs]: the row and the derived accounting. *)
Record RunView := mkRunView {
  rv_row : SwarmNodeRun;
  rv_accounted_cost_usd : spec_float;
  rv_accounting_basis : string;
  rv_capacity_denied : bool;
}.

Definition node_runs (db : DB) (task_id : string) (node_key : option string)
    : res (list RunView) :=
  let budgets := _node_budgets db task_id in
  res_map (λ row, c ← _accounted_cost row budgets;
                  Ok (mkRunView row c (_accounting_basis row) (_capacity_denied row)))
    (filter (λ r, match node_key with
                  | None => true
                  | Some k => bool_decide (nr_node_key r = k)
                  end = true) (_runs db task_id)).

Definition attempts_spent (runs : list RunView) (node_key : string) : Z :=
  let attempts := filter (λ r, nr_node_key (rv_row r) = node_key) runs in
  let denied := count_true rv_capacity_denied attempts in
  Z.of_nat (length attempts) - Z.of_nat (Nat.min denied MAX_CAPACITY_DENIED_ATTEMPTS).

(** ** Facts *)

Lemma valid_cost_to_float zero v :
  _valid_cost zero v = true → ∃ f, to_float v = Ok f ∧ f_is_finite f = true.
Proof.
  unfold _valid_cost, math_isfinite. destruct (is_number v) eqn:Hn; simpl; [|done].
  destruct (to_float v) as [f|e] eqn:Hf; simpl; [|done].
  destruct (xnum_of v) as [x|]; [|done].
  intros [? _]%andb_true_iff. eauto.
Qed.

Lemma valid_cost_not_none zero v : _valid_cost zero v = true → is_none v = false.
Proof. by destruct v. Qed.

Lemma reservation_finite run budgets r :
  _reservation run budgets = Ok r → f_is_finite r = true.
Proof.
  unfold _reservation.
  destruct (_valid_cost false _) eqn:Hv; [|done].
  apply valid_cost_to_float in Hv as (f & -> & ?). by intros [= <-].
Qed.

(** Whether an attempt is still charged its whole reservation. *)
Definition reservation_held (run : SwarmNodeRun) : bool :=
  negb (str_in (_accounting_basis run) SETTLED_ACCOUNTING_BASES).

Lemma reported_basis_settled run :
  str_in (_reported_cost_basis run) SETTLED_ACCOUNTING_BASES = true.
Proof. unfold _reported_cost_basis. by repeat case_match. Qed.

(** A settled attempt's charge ignores the node ceilings; a held one's is the
    larger of its reservation and its measured spend. *)
Lemma accounted_cost_settled run budgets :
  reservation_held run = false →
  _accounted_cost run budgets =
    if _valid_cost true (nr_cost_usd run) then to_float (nr_cost_usd run) else Ok fzero.
Proof.
  unfold reservation_held, _accounting_basis, _accounted_cost.
  destruct (terminal (nr_status run)); simpl; [|done].
  destruct (_valid_cost true (nr_cost_usd run)) eqn:Hv; simpl.
  { by rewrite (valid_cost_not_none _ _ Hv). }
  by destruct (no_model_post (_invocation_phase run)).
Qed.

Lemma accounted_cost_held run budgets :
  reservation_held run = true →
  _accounted_cost run budgets =
    (reservation ← _reservation run budgets;
     spent ← (if _valid_cost true (nr_cost_usd run) && truthy (nr_cost_usd run)
              then to_float (nr_cost_usd run) else Ok fzero);
     Ok (fmax reservation spent)).
Proof.
  unfold reservation_held, _accounting_basis, _accounted_cost.
  destruct (terminal (nr_status run)); simpl.
  - destruct (_valid_cost true (nr_cost_usd run)) eqn:Hv; simpl.
    { by rewrite reported_basis_settled. }
    by destruct (no_model_post (_invocation_phase run)).
  - intros _. by destruct (_valid_cost true (nr_cost_usd run)).
Qed.

Lemma count_true_fmap {A B} (f : A → B) (p : B → bool) l :
  count_true p (f <$> l) = count_true (p ∘ f) l.
Proof.
  unfold count_true. induction l as [|x l IH]; [done|].
  rewrite fmap_cons, !filter_cons. simpl. case_decide; simpl; auto.
Qed.

Lemma count_true_le {A} (p : A → bool) l : (count_true p l ≤ length l)%nat.
Proof. apply length_filter. Qed.
