(* ===== verification/GraphPlan.v ===== *)
(** * Plan graph: history, load, add, discard and renew

    The semantic operations of [factory/orchestration/graph.py] on the plan
    itself.  Every mutation runs against a locked task row inside one
    transaction ([tx DB]); a policy refusal is a [GraphOp] value and is
    recorded like an applied operation. *)

From Stdlib Require Import SpecFloat.
From stdpp Require Import prelude list strings pretty.
From S2P Require Import Prelude PyValue Worklist GraphData GraphAccounting.
Local Open Scope Z_scope.

(** ** Evidence-continuation projection (evidence_continuation.project) *)

(** Whether one grant names this node at its current incarnation. *)
Definition grant_applies (node : NodeView) (g : Grant) : res bool :=
  if str_in (nv_node_key node) [g_node_key g; g_review_key g] then
    match assoc_get (nv_node_key node) (g_node_versions g) with
    | Some v => Ok (nv_created_in_version node =? v)
    | None => Raise (KeyError (nv_node_key node))
    end
  else Ok false.

Fixpoint last_grant (node : NodeView) (grants : list Grant) (found : option Grant)
    : res (option Grant) :=
  match grants with
  | [] => Ok found
  | g :: grants =>
      b ← grant_applies node g;
      last_grant node grants (if b : bool then Some g else found)
  end.

Definition with_grant (node : NodeView) (g : option Grant) (blocked : bool) : NodeView :=
  mkView (nv_fields node) (nv_created_in_version node) (nv_discarded_in_version node)
    (nv_cancelled_in_version node) (nv_armed_at node) (nv_base_artifact_sha node)
    (match g with Some _ => g | None => nv_evidence_continuation node end)
    (blocked || nv_evidence_continuation_blocked node).

Definition project (db : DB) (task_id : string) (nodes : list NodeView) (version : Z)
    : res (list NodeView) :=
  let rows := filter (λ v, pv_task_id v = task_id ∧ pv_version v ≤ version)
                (db_versions db) in
  let grants := omap (λ v, match pv_change v with
                           | ChContinueEvidence g => Some g | _ => None end) rows in
  let blocked := existsb (λ v, match pv_change v with
                               | ChBlockEvidenceContinuation => true
                               | _ => false end) rows in
  res_map (λ node,
    g ← last_grant node grants None;
    Ok (with_grant node g
          (blocked && existsb (λ g, str_in (nv_node_key node)
                                      [g_node_key g; g_review_key g]) grants))) nodes.

(** ** Earlier incarnations (_historical_nodes) *)

Definition incarnations := list ((string * Z) * NodeView).

Fixpoint inc_get (k : string * Z) (m : incarnations) : option NodeView :=
  match m with
  | [] => None
  | (k', v) :: m => if decide (k' = k) then Some v else inc_get k m
  end.

(** [m[k] = v]: in place when present, appended otherwise. *)
Fixpoint inc_set (k : string * Z) (v : NodeView) (m : incarnations) : incarnations :=
  match m with
  | [] => [(k, v)]
  | (k', v') :: m => if decide (k' = k) then (k', v) :: m else (k', v') :: inc_set k v m
  end.

(** [m.setdefault(k, v)]. *)
Definition inc_setdefault (k : string * Z) (v : NodeView) (m : incarnations)
    : incarnations :=
  match inc_get k m with Some _ => m | None => m ++ [(k, v)] end.

(** [if k in m: m[k][field] = ...]. *)
Definition inc_modify (k : string * Z) (f : NodeView → NodeView) (m : incarnations)
    : incarnations :=
  (λ p, if decide (p.1 = k) then (p.1, f p.2) else p) <$> m.

Definition view_set_discarded (d : option Z) (v : NodeView) : NodeView :=
  mkView (nv_fields v) (nv_created_in_version v) d (nv_cancelled_in_version v)
    (nv_armed_at v) (nv_base_artifact_sha v) (nv_evidence_continuation v)
    (nv_evidence_continuation_blocked v).

Definition fields_set_max_attempts (a : pyval) (f : NodeFields) : NodeFields :=
  mkFields (nf_node_key f) (nf_kind f) (nf_prompt f) (nf_model f) (nf_effort f)
    (nf_deps f) (nf_max_cost_usd f) (nf_side_effects f) a (nf_turn_timeout_seconds f).

Definition view_set_max_attempts (a : pyval) (v : NodeView) : NodeView :=
  mkView (fields_set_max_attempts a (nv_fields v)) (nv_created_in_version v)
    (nv_discarded_in_version v) (nv_cancelled_in_version v) (nv_armed_at v)
    (nv_base_artifact_sha v) (nv_evidence_continuation v)
    (nv_evidence_continuation_blocked v).

(** The incarnation an add of the ledger creates. *)
Definition added_view (f : NodeFields) (version : Z) : NodeView :=
  mkView f version None None NotArmed None None false.

(** First loop: the rows as they are now. *)
Fixpoint rows_incarnations (rows : list SwarmPlanNode) (m : incarnations)
    : res incarnations :=
  match rows with
  | [] => Ok m
  | n :: rows =>
      v ← _node_fields n;
      rows_incarnations rows (inc_set (pn_node_key n, pn_created_in_version n) v m)
  end.

(** Second loop: adds whose row has since been reused. *)
Definition replay_add (m : incarnations) (c : SwarmPlanVersion) : incarnations :=
  match pv_change c with
  | ChAddNode f => inc_setdefault (nf_node_key f, pv_version c)
                     (added_view f (pv_version c)) m
  | _ => m
  end.

(** [max(candidates, key=created)]: the first one with the largest version. *)
Definition latest_before (key : string) (version : Z) (m : incarnations)
    : option (string * Z) :=
  foldl (λ best p,
           if bool_decide (p.1.1 = key) && (p.1.2 <? version) then
             match best with
             | Some b => if b.2 <? p.1.2 then Some p.1 else best
             | None => Some p.1
             end
           else best) None m.

(** Third loop: discards, with their snapshot as a fallback. *)
Definition replay_discard (m : incarnations) (c : SwarmPlanVersion) : incarnations :=
  match pv_change c with
  | ChDiscardNode key snapshot =>
      let m := match snapshot with
               | Some s => inc_setdefault (key, nv_created_in_version s) s m
               | None => m
               end in
      match latest_before key (pv_version c) m with
      | Some k => inc_modify k (view_set_discarded (Some (pv_version c))) m
      | None => m
      end
  | _ => m
  end.

(** Fourth loop (newest first): undo the renewals after [version]. *)
Definition undo_renewal (version : Z) (m : incarnations) (c : SwarmPlanVersion)
    : incarnations :=
  match pv_change c with
  | ChRenewNodeAttempt key created before _ _ _ =>
      if version <? pv_version c then inc_modify (key, created) (view_set_max_attempts before) m
      else m
  | _ => m
  end.

(** Fifth loop: replay the renewals up to [version]. *)
Definition replay_renewal (version : Z) (m : incarnations) (c : SwarmPlanVersion)
    : incarnations :=
  match pv_change c with
  | ChRenewNodeAttempt key created _ after _ _ =>
      if pv_version c <=? version then inc_modify (key, created) (view_set_max_attempts after) m
      else m
  | _ => m
  end.

Definition view_visible (version : Z) (v : NodeView) : bool :=
  (nv_created_in_version v <=? version) &&
  match nv_discarded_in_version v with None => true | Some d => version <? d end &&
  match nv_cancelled_in_version v with None => true | Some c => version <? c end.

Definition task_changes (db : DB) (task_id : string) : list SwarmPlanVersion :=
  py_sorted (λ a b, pv_version a <=? pv_version b)
    (filter (λ v, pv_task_id v = task_id) (db_versions db)).

Definition _historical_nodes (db : DB) (task_id : string) (version : Z)
    : res (list NodeView) :=
  let rows := filter (λ n, pn_task_id n = task_id) (db_nodes db) in
  let changes := task_changes db task_id in
  m ← rows_incarnations rows [];
  let m := foldl replay_add m changes in
  let m := foldl replay_discard m changes in
  let m := foldl (undo_renewal version) m (reverse changes) in
  let m := foldl (replay_renewal version) m changes in
  Ok (filter (λ v, view_visible version v = true)
        (snd <$> py_sorted (λ a b, a.1.2 <=? b.1.2) m)).

Definition load_graph (db : DB) (task_id : string) (version : option Z)
    : res (list NodeView) :=
  let selected := default (_current_version db task_id) version in
  match version with
  | Some v =>
      if v <? _current_version db task_id then
        nodes ← _historical_nodes db task_id selected;
        project db task_id nodes selected
      else
        nodes ← res_map _node_fields (_visible_nodes db task_id selected);
        project db task_id nodes selected
  | None =>
      nodes ← res_map _node_fields (_visible_nodes db task_id selected);
      project db task_id nodes selected
  end.

(** ** Recording (_finish, _refuse) *)

Definition _finish (task : SwarmTask) (tool : string) (args : list (string * pyval))
    (version_before : Z) (result : GraphOp) : tx DB GraphOp := λ db,
  args_json ← dumps (_audit_value (PDict args));
  Ok (result,
      set_calls (λ calls, calls ++
        [mkCall (st_id task) (st_conductor_model task) tool args_json
           (if ok result then "applied" else "refused") (refusal_code result)
           version_before (op_version result)]) db).

Definition _refuse (task : SwarmTask) (tool : string) (args : list (string * pyval))
    (version : Z) (code : string) (detail : option string) : tx DB GraphOp :=
  _finish task tool args version (refused_op version code detail).

(** ** Rows written by the operations *)

(** Who asked for a change and why, copied to the ledger row. *)
Record Cause := mkCause {
  ca_author_kind : string;
  ca_author : string;
  ca_cause_kind : string;
  ca_cause_ref : option string;
  ca_stated_reason : pyval;
}.

Definition cause_dict (c : Cause) : list (string * pyval) :=
  [ ("author_kind", PStr (ca_author_kind c)); ("author", PStr (ca_author c));
    ("cause_kind", PStr (ca_cause_kind c)); ("cause_ref", opt_str (ca_cause_ref c));
    ("stated_reason", ca_stated_reason c) ].

Definition next_id {A} (id : A → Z) (rows : list A) : Z := max_key id rows + 1.

Definition append_version (task_id : string) (version : Z) (cause : Cause)
    (change : Change) (db : DB) : DB :=
  set_versions (λ vs, vs ++
    [mkVersion (next_id pv_id vs) task_id version (ca_author_kind cause)
       (ca_author cause) change (ca_cause_kind cause) (ca_cause_ref cause)
       (ca_stated_reason cause)]) db.

Definition is_row (task_id node_key : string) (n : SwarmPlanNode) : bool :=
  bool_decide (pn_task_id n = task_id) && bool_decide (pn_node_key n = node_key).

(** A row holding [f], alive since [version]. *)
Definition fresh_row (id : Z) (task_id : string) (f : NodeFields) (version : Z)
    : SwarmPlanNode :=
  mkNode id task_id (nf_node_key f) (nf_kind f) (nf_prompt f) (nf_model f)
    (nf_effort f) (PList (PStr <$> nf_deps f)) (nf_max_cost_usd f)
    (nf_side_effects f) (nf_max_attempts f) (nf_turn_timeout_seconds f)
    version None None None None.

(** Insert the node, or reuse its hidden row with the tombstones cleared. *)
Definition write_node (task_id : string) (f : NodeFields) (version : Z) (db : DB) : DB :=
  match find_first (is_row task_id (nf_node_key f)) (db_nodes db) with
  | None => set_nodes (λ ns, ns ++ [fresh_row (next_id pn_id ns) task_id f version]) db
  | Some existing =>
      set_nodes (update_where (is_row task_id (nf_node_key f))
                   (λ n, fresh_row (pn_id n) task_id f version)) db
  end.

Definition row_set_discarded (d : Z) (n : SwarmPlanNode) : SwarmPlanNode :=
  mkNode (pn_id n) (pn_task_id n) (pn_node_key n) (pn_kind n) (pn_prompt n)
    (pn_model n) (pn_effort n) (pn_deps_json n) (pn_max_cost_usd n)
    (pn_side_effects n) (pn_max_attempts n) (pn_turn_timeout_seconds n)
    (pn_created_in_version n) (Some d) (pn_cancelled_in_version n) (pn_armed_at n)
    (pn_base_artifact_sha n).

Definition row_set_max_attempts (a : pyval) (n : SwarmPlanNode) : SwarmPlanNode :=
  mkNode (pn_id n) (pn_task_id n) (pn_node_key n) (pn_kind n) (pn_prompt n)
    (pn_model n) (pn_effort n) (pn_deps_json n) (pn_max_cost_usd n)
    (pn_side_effects n) a (pn_turn_timeout_seconds n)
    (pn_created_in_version n) (pn_discarded_in_version n) (pn_cancelled_in_version n)
    (pn_armed_at n) (pn_base_artifact_sha n).

(** ** add_node *)

(** A run whose unknown cost is still charged at the row's current ceiling. *)
Definition legacy_reservation (node_key : string) (run : SwarmNodeRun) : bool :=
  bool_decide (nr_node_key run = node_key) &&
  is_none (nr_reserved_cost_usd run) &&
  negb (str_in (_accounting_basis run) SETTLED_ACCOUNTING_BASES).

(** The refusal of an add, in the order of the code, or [None]. *)
Definition add_refusal (db : DB) (task : SwarmTask) (task_id : string)
    (f : NodeFields) (expected_version : Z) : res (option (string * option string)) :=
  let version := _current_version db task_id in
  let live := _visible_nodes db task_id version in
  if negb (expected_version =? version) then Ok (Some ("stale_version", None)) else
  match _bounds_error (nf_effort f) (nf_max_cost_usd f) (nf_max_attempts f)
          (nf_turn_timeout_seconds f) with
  | Some error => Ok (Some (error, None))
  | None =>
  if negb (is_none (st_budget_usd task)) && negb (_valid_cost false (st_budget_usd task))
  then Ok (Some ("invalid_task_budget", None)) else
  if live_mem live (nf_node_key f) then Ok (Some ("duplicate_key", None)) else
  match find_first (λ d, negb (live_mem live d)) (nf_deps f) with
  | Some unknown => Ok (Some ("unknown_dep", Some unknown))
  | None =>
  cycle ← _would_cycle (nf_node_key f) (nf_deps f) live;
  if cycle : bool then Ok (Some ("cycle", None)) else
  if negb (str_in (nf_kind f) _NODE_KINDS) then Ok (Some ("invalid_kind", None)) else
  if bool_decide (nf_kind f = "fable_escalation") && is_none (st_budget_usd task)
  then Ok (Some ("fable_requires_budget", None)) else
  if bool_decide (nf_kind f = "fable_escalation") && _fable_ever_created db task_id
  then Ok (Some ("fable_cap", None)) else
  match find_first (is_row task_id (nf_node_key f)) (db_nodes db) with
  | Some existing =>
      if negb (py_eq (pn_max_cost_usd existing) (nf_max_cost_usd f)) &&
         existsb (legacy_reservation (nf_node_key f)) (_runs db task_id)
      then Ok (Some ("legacy_reservation_conflict", None)) else Ok None
  | None => Ok None
  end
  end
  end.

Definition add_node_args (f : NodeFields) (expected_version : Z) (cause : Cause)
    : list (string * pyval) :=
  cause_dict cause ++ [("expected_version", PInt expected_version)] ++ fields_dict f.

Definition _add_node_locked (task : SwarmTask) (task_id : string) (f : NodeFields)
    (expected_version : Z) (cause : Cause) : tx DB GraphOp := λ db,
  let args := add_node_args f expected_version cause in
  let version := _current_version db task_id in
  refusal ← add_refusal db task task_id f expected_version;
  match refusal with
  | Some (code, detail) => _refuse task "add_node" args version code detail db
  | None =>
      let new_version := version + 1 in
      _ ← dumps (PDict (fields_dict f));
      let db := append_version task_id new_version cause (ChAddNode f) db in
      let db := write_node task_id f new_version db in
      _finish task "add_node" args version
        (applied_op new_version
           (if is_none (st_budget_usd task) then Some "unbudgeted run" else None)) db
  end.

Definition add_node (task_id : string) (cause : Cause) (expected_version : Z)
    (f : NodeFields) : tx DB GraphOp := λ db,
  task ← _lock_task db task_id;
  _add_node_locked task task_id f expected_version cause db.

(** ** discard_node *)

Definition _ARMED_REPAIR : string :=
  "wait for it to settle, or add a replacement node under a new node_key "
  +:+ "and leave this one in place; do not re-propose this discard".

(** [min(active, key=attempt)]: the first one with the least attempt. *)
Definition first_min (runs : list SwarmNodeRun) : option SwarmNodeRun :=
  foldl (λ best r, match best with
                   | Some b => if nr_attempt r <? nr_attempt b then Some r else best
                   | None => Some r
                   end) None runs.

Definition dispatch_keys (runs : list SwarmNodeRun) : list string :=
  omap (λ r, match nr_dispatch_key r with
             | Some k => if bool_decide (k = ""%string) then None else Some k
             | None => None end) runs.

Definition _unsettled_reason (db : DB) (task_id : string) (node : SwarmPlanNode)
    : option string :=
  let key := pn_node_key node in
  let runs := filter (λ r, nr_task_id r = task_id ∧ nr_node_key r = key) (db_runs db) in
  match runs with
  | [] =>
      match pn_armed_at node with
      | None => None
      | Some _ => Some (key +:+ " is armed without a settled attempt; " +:+ _ARMED_REPAIR)
      end
  | _ =>
      match first_min (filter (λ r, terminal (nr_status r) = false) runs) with
      | Some run =>
          Some (key +:+ " attempt " +:+ pretty (nr_attempt run) +:+ " is "
                +:+ nr_status run +:+ "; " +:+ _ARMED_REPAIR)
      | None =>
          if existsb (λ r, bool_decide (nr_status r = "succeeded")) runs then
            Some (key +:+ " succeeded and its result stands; it is not pending "
                  +:+ "work, so add any follow-up under a new node_key instead")
          else
            let keys := dispatch_keys runs in
            match find_first (λ s, bool_decide (fs_task_id s = task_id) &&
                                   str_in (fs_start_key s) keys &&
                                   str_in (fs_status s) ["reserved"; "uncertain"])
                    (db_starts db) with
            | Some start =>
                Some (key +:+ " has an unresolved start (" +:+ fs_status start
                      +:+ "); " +:+ _ARMED_REPAIR)
            | None => None
            end
      end
  end.

Definition _ledger_snapshot (item : NodeView) : NodeView :=
  match nv_armed_at item with
  | ArmedAt t =>
      mkView (nv_fields item) (nv_created_in_version item)
        (nv_discarded_in_version item) (nv_cancelled_in_version item) (ArmedIso t)
        (nv_base_artifact_sha item) (nv_evidence_continuation item)
        (nv_evidence_continuation_blocked item)
  | _ => item
  end.

(** The live nodes that name [node_key], ordered by key. *)
Definition dependents_of (live : list SwarmPlanNode) (node_key : string)
    : res (list SwarmPlanNode) :=
  flags ← res_map (λ other, deps ← _node_deps other;
                            Ok (other, str_in node_key deps)) live;
  Ok (py_sorted (λ a b, String.leb (pn_node_key a) (pn_node_key b))
        (fst <$> filter (λ p : SwarmPlanNode * bool, p.2 = true) flags)).

Definition blocker_text (db : DB) (task_id : string) (other : SwarmPlanNode) : string :=
  take_str 128 (pn_node_key other) +:+ " ("
  +:+ match _unsettled_reason db task_id other with
      | Some protection => "protected: " +:+ take_str 160 protection
      | None => "inactive"
      end +:+ ")".

Definition dependents_detail (db : DB) (task_id : string)
    (dependents : list SwarmPlanNode) : string :=
  let blockers := blocker_text db task_id <$> take 10 dependents in
  let omitted := (length dependents - length blockers)%nat in
  "dependent nodes: " +:+ py_join ", " blockers
  +:+ (if (omitted =? 0)%nat then "" else "; " +:+ pretty omitted +:+ " more omitted")
  +:+ "; retire only eligible obsolete dependents first in one atomic plan, "
  +:+ "then this node; preserve required dependencies and uncertain work".

(** The node to retire, or the refusal that stops the discard. *)
Definition discard_refusal (db : DB) (task_id node_key : string)
    (expected_version : Z) (observed_branch_head : pyval) (activities_claim_write : bool)
    : res (SwarmPlanNode + (string * option string)) :=
  let version := _current_version db task_id in
  if negb (expected_version =? version) then Ok (inr ("stale_version", None)) else
  let live := _visible_nodes db task_id version in
  match live_get live node_key with
  | None => Ok (inr ("unknown_node", None))
  | Some node =>
  match _unsettled_reason db task_id node with
  | Some unsettled => Ok (inr ("armed", Some unsettled))
  | None =>
  if match pn_base_artifact_sha node with
     | Some sha => negb (is_none observed_branch_head) &&
                   negb (py_eq observed_branch_head (PStr sha))
     | None => false
     end
  then Ok (inr ("branch_moved", None)) else
  if activities_claim_write then Ok (inr ("write_claimed", None)) else
  dependents ← dependents_of live node_key;
  match dependents with
  | [] => Ok (inl node)
  | _ => Ok (inr ("dependents", Some (dependents_detail db task_id dependents)))
  end
  end
  end.

Definition discard_node_args (node_key : string) (expected_version : Z) (cause : Cause)
    (observed_branch_head : pyval) (activities_claim_write : bool)
    : list (string * pyval) :=
  [("node_key", PStr node_key)] ++ cause_dict cause ++
  [("expected_version", PInt expected_version);
   ("observed_branch_head", observed_branch_head);
   ("activities_claim_write", PBool activities_claim_write)].

(** [next(item for item in load_graph(...) if item["node_key"] == key)]. *)
Definition live_item (db : DB) (task_id node_key : string) : res NodeView :=
  items ← load_graph db task_id None;
  match find_first (λ v, bool_decide (nv_node_key v = node_key)) items with
  | Some item => Ok item
  | None => Raise (KeyError node_key)   (* StopIteration *)
  end.

Definition _discard_node_locked (task : SwarmTask) (task_id node_key : string)
    (expected_version : Z) (cause : Cause) (observed_branch_head : pyval)
    (activities_claim_write : bool) : tx DB GraphOp := λ db,
  let args := discard_node_args node_key expected_version cause
                observed_branch_head activities_claim_write in
  let version := _current_version db task_id in
  verdict ← discard_refusal db task_id node_key expected_version
              observed_branch_head activities_claim_write;
  match verdict with
  | inr (code, detail) => _refuse task "discard_node" args version code detail db
  | inl _ =>
      let new_version := version + 1 in
      item ← live_item db task_id node_key;
      let snapshot := _ledger_snapshot item in
      _ ← dumps (PDict [("node_key", PStr node_key); ("snapshot", PDict (view_dict snapshot))]);
      let db := append_version task_id new_version cause
                  (ChDiscardNode node_key (Some snapshot)) db in
      let db := set_nodes (update_where (is_row task_id node_key)
                             (row_set_discarded new_version)) db in
      _finish task "discard_node" args version (applied_op new_version None) db
  end.

Definition discard_node (task_id node_key : string) (cause : Cause)
    (expected_version : Z) (observed_branch_head : pyval)
    (activities_claim_write : bool) : tx DB GraphOp := λ db,
  task ← _lock_task db task_id;
  _discard_node_locked task task_id node_key expected_version cause
    observed_branch_head activities_claim_write db.

(** ** renew_funded_attempt *)

Record RenewTarget := mkRenewTarget {
  rt_node_key : string;
  rt_node : list (string * pyval);
  rt_source_run_id : Z;
}.

(** [n + 1] on the stored attempt bound. *)
Definition py_succ (v : pyval) : pyval :=
  match v with
  | PInt z => PInt (z + 1)
  | PBool b => PInt ((if b then 1 else 0) + 1)
  | PFloat f => PFloat (fadd f (f_of_Z 1))
  | v => v
  end.

(** [v >= n] for a number [v]. *)
Definition py_ge_int (v : pyval) (n : Z) : bool :=
  match xnum_of v with Some x => xle (XFin n 0) x | None => false end.

Definition is_renewal (c : SwarmPlanVersion) : bool :=
  match pv_change c with ChRenewNodeAttempt _ _ _ _ _ _ => true | _ => false end.

(** The node to renew, when every fence of the code holds. *)
Definition renewable (db : DB) (task_id : string) (target : RenewTarget)
    (expected_version : Z) : res (option SwarmPlanNode) :=
  let version := _current_version db task_id in
  let runs := _runs db task_id in
  let prior := filter (λ r, nr_node_key r = rt_node_key target) runs in
  let renewals := filter (λ v, pv_task_id v = task_id ∧ is_renewal v = true)
                    (db_versions db) in
  match find_first (λ n, bool_decide (pn_node_key n = rt_node_key target))
          (_visible_nodes db task_id version) with
  | None => Ok None
  | Some node =>
      if negb (version =? expected_version) then Ok None else
      item ← _node_fields node;
      Ok (if negb (py_eq (PDict (view_dict (_ledger_snapshot item))) (PDict (rt_node target)))
             || negb (bool_decide (pn_kind node = "work"))
             || startswith "conductor_" (pn_node_key node)
             || match prior with [] => true | _ => false end
             || existsb (λ r, negb (bool_decide (nr_status r = "failed"))) prior
             || negb (max_key nr_id prior =? rt_source_run_id target)
             || negb (py_eq (PInt (_spent_attempts prior)) (pn_max_attempts node))
             || py_ge_int (pn_max_attempts node) MAX_ATTEMPTS
             || (MAX_FUNDING_RETRIES <=? length renewals)%nat
             || existsb (λ r, negb (terminal (nr_status r))) runs
          then None else Some node)
  end.

Definition funding_cause (request_id : Z) : Cause :=
  mkCause "engine" "factory:funding" "factory_conductor"
    (Some ("funding:" +:+ pretty request_id))
    (PStr "One evidence-bound funded retry of the same failed node").

Definition renew_fields (node : SwarmPlanNode) (target : RenewTarget) (request_id : Z)
    : list (string * pyval) :=
  [ ("node_key", PStr (pn_node_key node));
    ("created_in_version", PInt (pn_created_in_version node));
    ("before", pn_max_attempts node); ("after", py_succ (pn_max_attempts node));
    ("source_run_id", PInt (rt_source_run_id target)); ("request_id", PInt request_id) ].

Definition renew_funded_attempt (task_id : string) (target : RenewTarget)
    (expected_version request_id : Z) : tx DB (list (string * pyval)) := λ db,
  task ← _lock_task db task_id;
  let version := _current_version db task_id in
  found ← renewable db task_id target expected_version;
  match found with
  | None => Raise (ValueError "funding_retry_evidence_changed")
  | Some node =>
      let fields := renew_fields node target request_id in
      let after := py_succ (pn_max_attempts node) in
      let db := set_nodes (update_where (is_row task_id (pn_node_key node))
                             (row_set_max_attempts after)) db in
      _ ← dumps (PDict fields);
      let db := append_version task_id (version + 1) (funding_cause request_id)
                  (ChRenewNodeAttempt (pn_node_key node) (pn_created_in_version node)
                     (pn_max_attempts node) after (rt_source_run_id target)
                     (PInt request_id)) db in
      '(_, db) ← _finish task "renew_node_attempt" fields version
                   (applied_op (version + 1) None) db;
      Ok (fields, db)
  end.
