(* ===== verification/GraphInvariant.v ===== *)
(** * Plan graph: the plan invariant

    What every reachable plan satisfies, stated on the slices of the tables
    that belong to one task: one row per key, decodable dependencies, version
    numbers below the current one, dependencies that are themselves live, and
    no dependency cycle.  The operations of [GraphPlan] preserve it. *)

From Stdlib Require Import SpecFloat.
From stdpp Require Import prelude list strings pretty relations gmap.
From S2P Require Import Prelude PyValue Worklist GraphData GraphAccounting GraphPlan.
Local Open Scope Z_scope.

(** ** Slices *)

Definition nodes_of (db : DB) (t : string) : list SwarmPlanNode :=
  filter (λ n, pn_task_id n = t) (db_nodes db).
Definition versions_of (db : DB) (t : string) : list SwarmPlanVersion :=
  filter (λ v, pv_task_id v = t) (db_versions db).

(** A node that no version has discarded or cancelled. *)
Definition alive (n : SwarmPlanNode) : Prop :=
  pn_discarded_in_version n = None ∧ pn_cancelled_in_version n = None.

(** [x] depends on [y] in a set of live rows. *)
Definition dep_edge (live : list SwarmPlanNode) (x y : string) : Prop :=
  ∃ n deps, n ∈ live ∧ pn_node_key n = x ∧
    decode_deps (pn_deps_json n) = Some deps ∧ y ∈ deps.

Definition version_bounds (current : Z) (n : SwarmPlanNode) : Prop :=
  pn_created_in_version n ≤ current ∧
  (∀ d, pn_discarded_in_version n = Some d → d ≤ current) ∧
  (∀ c, pn_cancelled_in_version n = Some c → c ≤ current).

Record plan_ok (db : DB) (t : string) : Prop := {
  plan_keys : NoDup (pn_node_key <$> nodes_of db t);
  plan_decodes : ∀ n, n ∈ nodes_of db t → is_Some (decode_deps (pn_deps_json n));
  plan_bounds : ∀ n, n ∈ nodes_of db t → version_bounds (_current_version db t) n;
  plan_closed : ∀ x y,
    dep_edge (_visible_nodes db t (_current_version db t)) x y →
    y ∈ pn_node_key <$> _visible_nodes db t (_current_version db t);
  plan_acyclic : acyclic (dep_edge (_visible_nodes db t (_current_version db t)));
}.

(** ** Visibility and liveness *)

Lemma elem_of_nodes_of db t n :
  n ∈ nodes_of db t ↔ n ∈ db_nodes db ∧ pn_task_id n = t.
Proof. unfold nodes_of. rewrite list_elem_of_filter. tauto. Qed.

Lemma visible_at_alive t v n :
  version_bounds v n → visible_at t v n = true ↔ pn_task_id n = t ∧ alive n.
Proof.
  intros (Hc & Hd & Hx). unfold visible_at, alive.
  rewrite !andb_true_iff, bool_decide_eq_true, Z.leb_le.
  destruct (pn_discarded_in_version n) as [d|].
  { specialize (Hd d eq_refl). rewrite Z.ltb_lt. naive_solver lia. }
  destruct (pn_cancelled_in_version n) as [c|]; [|naive_solver].
  specialize (Hx c eq_refl). rewrite Z.ltb_lt. naive_solver lia.
Qed.

Lemma version_bounds_mono v v' n : v ≤ v' → version_bounds v n → version_bounds v' n.
Proof.
  intros Hv (? & Hd & Hc). split; [lia|].
  split; intros x Hx; [apply Hd in Hx | apply Hc in Hx]; lia.
Qed.

(** A row visible at a version no row is ahead of, in terms of the row alone. *)
Lemma elem_of_live db t v n :
  (∀ m, m ∈ nodes_of db t → version_bounds v m) →
  n ∈ _visible_nodes db t v ↔ n ∈ nodes_of db t ∧ alive n.
Proof.
  intros Hb. rewrite elem_of_visible, elem_of_nodes_of. split.
  - intros [Hn Hv]. assert (pn_task_id n = t) as Ht.
    { unfold visible_at in Hv. rewrite !andb_true_iff, bool_decide_eq_true in Hv. tauto. }
    split; [done|]. apply (visible_at_alive t v); [|done].
    apply Hb. by apply elem_of_nodes_of.
  - intros [[Hn Ht] Ha]. split; [done|]. apply visible_at_alive; [|done].
    apply Hb. by apply elem_of_nodes_of.
Qed.

Lemma current_version_bound db t v :
  v ∈ db_versions db → pv_task_id v = t → pv_version v ≤ _current_version db t.
Proof.
  intros Hv Ht. apply (max_key_ge pv_version).
  apply list_elem_of_filter. done.
Qed.

Lemma visible_keys_NoDup db t v :
  NoDup (pn_node_key <$> nodes_of db t) →
  NoDup (pn_node_key <$> _visible_nodes db t v).
Proof.
  intros Hnd. unfold _visible_nodes.
  rewrite (list_filter_iff (λ n, visible_at t v n = true)
             (λ n, visible_at t v n = true ∧ pn_task_id n = t)).
  - rewrite <-list_filter_filter. by apply NoDup_fmap_filter.
  - intros n. split; [|tauto]. intros Hv. split; [done|].
    unfold visible_at in Hv. rewrite !andb_true_iff, bool_decide_eq_true in Hv. tauto.
Qed.

(** ** The cycle search on plan rows *)

Lemma live_deps_outside live k :
  k ∉ remove_dups (pn_node_key <$> live) → live_deps live k = [].
Proof.
  rewrite elem_of_remove_dups. intros Hk. unfold live_deps, live_succ.
  destruct (live_get live k) as [n|] eqn:E; [|done].
  destruct Hk. apply live_mem_spec. unfold live_mem. by rewrite E.
Qed.

Lemma live_deps_edge live x y :
  NoDup (pn_node_key <$> live) →
  y ∈ live_deps live x ↔ dep_edge live x y.
Proof.
  intros Hnd. unfold live_deps, live_succ, dep_edge, _node_deps.
  destruct (live_get live x) as [n|] eqn:E.
  - apply live_get_Some in E as [Hn <-]. split.
    + destruct (decode_deps (pn_deps_json n)) as [deps|] eqn:Ed.
      * intros Hy. exists n, deps. done.
      * intros []%elem_of_nil.
    + intros (m & deps & Hm & Hk & Hd & Hy).
      assert (m = n) as -> by by eapply NoDup_fmap_elem. by rewrite Hd.
  - split; [intros []%elem_of_nil|]. intros (m & deps & Hm & Hk & _).
    assert (live_mem live x = true) as Hx.
    { apply live_mem_spec, list_elem_of_fmap. eauto. }
    unfold live_mem in Hx. by rewrite E in Hx.
Qed.

Section would_cycle.
Context (live : list SwarmPlanNode).

(** The fuel is enough whatever the rows hold. *)
Lemma would_cycle_total node_key deps :
  ∃ r, search (live_succ live) node_key
    (search_fuel (live_deps live) (remove_dups (pn_node_key <$> live)) deps)
    (reverse deps) ∅ = Some r ∧ _would_cycle node_key deps live = r.
Proof.
  destruct (search_total (live_succ live) (live_deps live)
    (remove_dups (pn_node_key <$> live)) node_key
    (search_fuel (live_deps live) (remove_dups (pn_node_key <$> live)) deps)
    (reverse deps) ∅) as [r Hr].
  - intros k l Hk. unfold live_deps. by rewrite Hk.
  - apply NoDup_remove_dups.
  - apply live_deps_outside.
  - unfold search_fuel. rewrite length_reverse. lia.
  - exists r. split; [done|]. unfold _would_cycle. by rewrite Hr.
Qed.

Hypothesis Hkeys : NoDup (pn_node_key <$> live).
Hypothesis Hdecodes : ∀ n, n ∈ live → is_Some (decode_deps (pn_deps_json n)).

Lemma live_succ_ok k : live_succ live k = Ok (live_deps live k).
Proof.
  unfold live_deps, live_succ. destruct (live_get live k) as [n|] eqn:E; [|done].
  apply live_get_Some in E as [Hn _]. unfold _node_deps.
  by destruct (Hdecodes n Hn) as [deps ->].
Qed.

Lemma would_cycle_reaches node_key deps :
  ∃ b, _would_cycle node_key deps live = Ok b ∧
    (b = true ↔ (∃ d, d ∈ deps ∧ rtc (dep_edge live) d node_key)).
Proof.
  destruct (search_correct (live_succ live) (live_deps live)
    (remove_dups (pn_node_key <$> live)) live_succ_ok
    (NoDup_remove_dups _) (live_deps_outside live) node_key deps) as (b & Hb & Hiff).
  exists b. unfold _would_cycle. rewrite Hb. split; [done|]. rewrite Hiff.
  by setoid_rewrite (rtc_iff _ _ (λ x y, live_deps_edge live x y Hkeys)).
Qed.
End would_cycle.

(** ** Acyclic plans under an added row *)

Lemma dep_edge_snoc live n deps x y :
  decode_deps (pn_deps_json n) = Some deps →
  dep_edge (live ++ [n]) x y ↔ dep_edge live x y ∨ (x = pn_node_key n ∧ y ∈ deps).
Proof.
  intros Hd. unfold dep_edge. split.
  - intros (m & l & Hm & Hk & Hl & Hy).
    apply elem_of_app in Hm as [Hm|Hm]; [left; eauto 10|].
    apply list_elem_of_singleton in Hm as ->. right. naive_solver.
  - intros [(m & l & Hm & Hrest)|[-> Hy]].
    + exists m, l. rewrite elem_of_app. tauto.
    + exists n, deps. rewrite elem_of_app, list_elem_of_singleton. tauto.
Qed.

Lemma dep_edge_elem live live' x y :
  (∀ n, n ∈ live ↔ n ∈ live') → dep_edge live x y ↔ dep_edge live' x y.
Proof. intros H. unfold dep_edge. by setoid_rewrite H. Qed.

Lemma decode_deps_strings l : decode_deps (PList (PStr <$> l)) = Some l.
Proof.
  unfold decode_deps. by apply mapM_fmap_Some.
Qed.

Lemma fresh_row_alive id t f v : alive (fresh_row id t f v).
Proof. done. Qed.

(** ** Shape of the operations *)

Lemma finish_ok task tool args v r db :
  ∃ call, cc_task_id call = st_id task ∧ cc_tool call = tool ∧
    cc_outcome call = (if ok r then "applied" else "refused")%string ∧
    cc_refusal_code call = refusal_code r ∧
    _finish task tool args v r db = Ok (r, set_calls (λ cs, cs ++ [call]) db).
Proof.
  unfold _finish. rewrite dumps_ok by apply audit_value_json_ok.
  eexists (mkCall _ _ _ _ _ _ _ _). done.
Qed.

Lemma lock_task_id db t task : _lock_task db t = Ok task → st_id task = t.
Proof.
  unfold _lock_task. case_match eqn:E; [|done]. intros [= <-].
  by apply find_first_Some in E as [_ ?%bool_decide_eq_true].
Qed.

(** An accepted add satisfied every check of the code. *)
Record add_accepted (db : DB) (task : SwarmTask) (t : string) (f : NodeFields)
    (ev : Z) : Prop := {
  aa_version : ev = _current_version db t;
  aa_bounds : _bounds_error (nf_effort f) (nf_max_cost_usd f) (nf_max_attempts f)
                (nf_turn_timeout_seconds f) = None;
  aa_fresh : nf_node_key f ∉ pn_node_key <$> _visible_nodes db t ev;
  aa_deps : ∀ d, d ∈ nf_deps f → d ∈ pn_node_key <$> _visible_nodes db t ev;
  aa_cycle : _would_cycle (nf_node_key f) (nf_deps f) (_visible_nodes db t ev) = Ok false;
  aa_kind : nf_kind f ∈ _NODE_KINDS;
  aa_fable : nf_kind f = "fable_escalation" →
    st_budget_usd task ≠ PNone ∧ _fable_ever_created db t = false;
  aa_legacy : ∀ n, find_first (is_row t (nf_node_key f)) (db_nodes db) = Some n →
    py_eq (pn_max_cost_usd n) (nf_max_cost_usd f) = true ∨
    (∀ r, r ∈ _runs db t → legacy_reservation (nf_node_key f) r = false);
}.

Lemma add_refusal_none db task t f ev :
  add_refusal db task t f ev = Ok None → add_accepted db task t f ev.
Proof.
  unfold add_refusal. destruct (ev =? _) eqn:Hv; [|done]. simpl.
  apply Z.eqb_eq in Hv as Hv'. rewrite <-Hv'.
  destruct (_bounds_error _ _ _ _) eqn:Hb; [done|].
  destruct (_ && _) eqn:Ht; [done|]. clear Ht.
  destruct (live_mem _ (nf_node_key f)) eqn:Hlm; [done|].
  destruct (find_first _ (nf_deps f)) eqn:Hd; [done|].
  destruct (_would_cycle _ _ _) as [[]|] eqn:Hc; [done| |done]. simpl.
  destruct (str_in (nf_kind f) _NODE_KINDS) eqn:Hk; [|done]. simpl.
  destruct (_ && is_none _) eqn:Hf1; [done|].
  destruct (_ && _fable_ever_created _ _) eqn:Hf2; [done|].
  intros Hlast. split; try done.
  - rewrite <-live_mem_spec. by rewrite Hlm.
  - intros d Hin. apply live_mem_spec. rewrite find_first_None in Hd.
    specialize (Hd d Hin). by apply negb_false_iff in Hd.
  - by apply bool_decide_eq_true in Hk.
  - intros Hkind. rewrite (bool_decide_eq_true_2 _ Hkind) in Hf1, Hf2. simpl in *.
    split; [|done]. intros E. by rewrite E in Hf1.
  - intros n Hn. rewrite Hn in Hlast.
    destruct (py_eq _ _) eqn:He; [by left|]. simpl in Hlast. right.
    apply existsb_false. by destruct (existsb _ _).
Qed.

(** The two ways an add returns: refused with only the call recorded, or
    applied with one new version and one row. *)
Lemma add_node_locked_inv task t f ev cause db op db' :
  _add_node_locked task t f ev cause db = Ok (op, db') →
  (∃ code detail call, op = refused_op (_current_version db t) code detail ∧
     db' = set_calls (λ cs, cs ++ [call]) db) ∨
  (∃ detail call, op = applied_op (_current_version db t + 1) detail ∧
     add_accepted db task t f ev ∧
     db' = set_calls (λ cs, cs ++ [call])
             (write_node t f (_current_version db t + 1)
                (append_version t (_current_version db t + 1) cause (ChAddNode f) db))).
Proof.
  unfold _add_node_locked.
  destruct (add_refusal db task t f ev) as [[[code detail]|]|] eqn:Hr; simpl; [| |done].
  - unfold _refuse. edestruct finish_ok as (call & _ & _ & _ & _ & ->).
    intros [= <- <-]. left. eauto.
  - destruct (dumps _) as [?|]; simpl; [|done].
    edestruct finish_ok as (call & _ & _ & _ & _ & ->). intros [= <- <-]. right.
    eexists _, call. split; [done|]. split; [by apply add_refusal_none|done].
Qed.

(** ** Effect of the writes on the slices *)

Lemma current_version_slice db t : _current_version db t = max_key pv_version (versions_of db t).
Proof. done. Qed.

Lemma versions_of_append db t t' v cause ch :
  versions_of (append_version t v cause ch db) t' =
  versions_of db t' ++
    if decide (t' = t) then [mkVersion (next_id pv_id (db_versions db)) t v
      (ca_author_kind cause) (ca_author cause) ch (ca_cause_kind cause)
      (ca_cause_ref cause) (ca_stated_reason cause)] else [].
Proof.
  unfold versions_of, append_version, set_versions. simpl. rewrite filter_app. f_equal.
  rewrite filter_cons, filter_nil. simpl. repeat case_decide; congruence.
Qed.

Lemma current_version_append db t t' v cause ch :
  _current_version db t ≤ v →
  _current_version (append_version t v cause ch db) t' =
  if decide (t' = t) then v else _current_version db t'.
Proof.
  intros Hv. pose proof (current_version_nonneg db t).
  rewrite !current_version_slice, versions_of_append. case_decide; subst.
  - rewrite max_key_app. simpl. rewrite current_version_slice in *. lia.
  - by rewrite app_nil_r.
Qed.

Lemma is_row_spec t k n : is_row t k n = true ↔ pn_task_id n = t ∧ pn_node_key n = k.
Proof. unfold is_row. by rewrite andb_true_iff, !bool_decide_eq_true. Qed.

Lemma nodes_of_write_other db t t' f v :
  t' ≠ t → nodes_of (write_node t f v db) t' = nodes_of db t'.
Proof.
  intros Hne. unfold write_node, nodes_of.
  destruct (find_first _ (db_nodes db)) as [e|] eqn:E; simpl.
  - rewrite filter_update_where.
    + apply update_where_id. intros n [Ht _]%list_elem_of_filter.
      apply not_true_iff_false. rewrite is_row_spec. naive_solver.
    + intros n _ [? _]%is_row_spec. simpl. naive_solver.
  - rewrite filter_app, filter_cons, filter_nil. simpl.
    rewrite decide_False by done. by rewrite app_nil_r.
Qed.

(** Rows of [t] after [write_node]: all but the reused one, and the new row. *)
Lemma nodes_of_write db t f v :
  NoDup (pn_node_key <$> nodes_of db t) →
  ∃ id, let db' := write_node t f v db in
    (∀ n, n ∈ nodes_of db' t ↔
      (n ∈ nodes_of db t ∧ pn_node_key n ≠ nf_node_key f) ∨ n = fresh_row id t f v) ∧
    NoDup (pn_node_key <$> nodes_of db' t).
Proof.
  intros Hnd. unfold write_node.
  destruct (find_first _ (db_nodes db)) as [e|] eqn:E; simpl.
  - exists (pn_id e). apply find_first_Some in E as [He [Hte Hke]%is_row_spec].
    assert (nodes_of (set_nodes (update_where (is_row t (nf_node_key f))
        (λ n, fresh_row (pn_id n) t f v)) db) t
      = update_where (is_row t (nf_node_key f)) (λ n, fresh_row (pn_id n) t f v)
          (nodes_of db t)) as ->.
    { unfold nodes_of. simpl. apply filter_update_where.
      intros n _ [? _]%is_row_spec. simpl. naive_solver. }
    split.
    + intros n. rewrite elem_of_update_where. split.
      * intros (y & Hy & ->). destruct (is_row _ _ y) eqn:Ey.
        -- right. f_equal. apply is_row_spec in Ey as [Hty Hky]. f_equal.
           eapply NoDup_fmap_elem; [exact Hnd|done|by apply elem_of_nodes_of|congruence].
        -- left. split; [done|]. intros Hk. apply elem_of_nodes_of in Hy as [_ Hy].
           apply not_true_iff_false in Ey. apply Ey. by apply is_row_spec.
      * intros [[Hn Hk]| ->].
        -- exists n. split; [done|]. destruct (is_row _ _ n) eqn:En; [|done].
           by apply is_row_spec in En as [_ ?].
        -- exists e. split; [by apply elem_of_nodes_of|].
           by rewrite (proj2 (is_row_spec _ _ _) (conj Hte Hke)).
    + rewrite update_where_fmap; [done|]. by intros n _ [_ ?]%is_row_spec.
  - exists (next_id pn_id (db_nodes db)). rewrite find_first_None in E.
    assert (∀ n, n ∈ nodes_of db t → pn_node_key n ≠ nf_node_key f) as Hfresh.
    { intros n [Hn Ht]%elem_of_nodes_of Hk. specialize (E n Hn).
      apply not_true_iff_false in E. apply E. by apply is_row_spec. }
    unfold nodes_of. simpl. rewrite filter_app, filter_cons, filter_nil. simpl.
    rewrite decide_True by done. split.
    + intros n. rewrite elem_of_app, list_elem_of_singleton.
      fold (nodes_of db t). naive_solver.
    + rewrite fmap_app. apply NoDup_app. split; [done|]. split; [|apply NoDup_singleton].
      intros k (n & -> & Hn)%list_elem_of_fmap Hk%list_elem_of_singleton.
      by eapply Hfresh.
Qed.

(** ** Preservation *)

Lemma visible_nodes_of db t v :
  _visible_nodes db t v = filter (λ n, visible_at t v n = true) (nodes_of db t).
Proof.
  unfold nodes_of. rewrite list_filter_filter. apply list_filter_iff.
  intros n. split; [|tauto]. intros Hv. split; [done|].
  unfold visible_at in Hv. rewrite !andb_true_iff, bool_decide_eq_true in Hv. tauto.
Qed.

(** The plan of a task depends on its slices only. *)
Lemma plan_ok_frame db db' t :
  nodes_of db' t = nodes_of db t → versions_of db' t = versions_of db t →
  plan_ok db t → plan_ok db' t.
Proof.
  intros Hn Hv [H1 H2 H3 H4 H5].
  assert (_current_version db' t = _current_version db t) as Hc
    by by rewrite !current_version_slice, Hv.
  assert (_visible_nodes db' t (_current_version db' t)
          = _visible_nodes db t (_current_version db t)) as Hvis
    by by rewrite !visible_nodes_of, Hn, Hc.
  split; rewrite ?Hvis, ?Hn, ?Hc; done.
Qed.

Lemma plan_ok_calls db t f : plan_ok db t → plan_ok (set_calls f db) t.
Proof. by apply plan_ok_frame. Qed.

(** The rows of the plan after an accepted add: the old ones and the new one. *)
Lemma add_accepted_rows db task t f ev cause :
  plan_ok db t → add_accepted db task t f ev →
  let db' := write_node t f (ev + 1) (append_version t (ev + 1) cause (ChAddNode f) db) in
  ∃ id, let new := fresh_row id t f (ev + 1) in
    _current_version db' t = ev + 1 ∧ NoDup (pn_node_key <$> nodes_of db' t) ∧
    (∀ n, n ∈ nodes_of db' t ↔
       (n ∈ nodes_of db t ∧ pn_node_key n ≠ nf_node_key f) ∨ n = new) ∧
    (∀ n, n ∈ nodes_of db' t → version_bounds (ev + 1) n) ∧
    (∀ n, n ∈ _visible_nodes db' t (ev + 1) ↔ n ∈ _visible_nodes db t ev ++ [new]).
Proof.
  intros [Hk Hd Hb Hcl Hac] Ha db2.
  set (db1 := append_version t (ev + 1) cause (ChAddNode f) db) in *.
  pose proof (aa_version _ _ _ _ _ Ha) as Hev. rewrite <-Hev in Hb, Hcl, Hac.
  destruct (nodes_of_write db1 t f (ev + 1) Hk) as (id & Hmem & Hnd).
  exists id. intros new. cbn zeta in Hmem, Hnd.
  change (write_node t f (ev + 1) db1) with db2 in Hmem, Hnd.
  assert (∀ n, n ∈ nodes_of db2 t → version_bounds (ev + 1) n) as Hb2.
  { intros n [[Hn _]| ->]%Hmem.
    - eapply version_bounds_mono; [|apply Hb; exact Hn]. lia.
    - split; [simpl; lia|]. by split. }
  split; [|split; [done|split; [done|split; [done|]]]].
  - rewrite current_version_slice. unfold db2, write_node.
    assert (max_key pv_version (versions_of db1 t) = ev + 1) as Hm; [|by case_match].
    rewrite <-current_version_slice. unfold db1.
    rewrite current_version_append by lia. by rewrite decide_True.
  - intros n. rewrite elem_of_app, list_elem_of_singleton.
    rewrite !elem_of_live by done. rewrite Hmem. split.
    + intros [[[Hn _]| ->] ?]; [by left|by right].
    + intros [[Hn Hl]| ->]; [|split; [by right|apply fresh_row_alive]].
      split; [|done]. left. split; [done|]. intros Hkey.
      apply (aa_fresh _ _ _ _ _ Ha). rewrite <-Hkey. apply list_elem_of_fmap_2.
      by apply elem_of_live.
Qed.

Lemma add_accepted_plan_ok db task t f ev cause :
  plan_ok db t → add_accepted db task t f ev →
  plan_ok (write_node t f (ev + 1) (append_version t (ev + 1) cause (ChAddNode f) db)) t.
Proof.
  intros Hok Ha.
  destruct (add_accepted_rows db task t f ev cause Hok Ha) as (id & Hcur & Hnd & Hmem & Hb2 & Hvis).
  destruct Hok as [Hk Hd Hb Hcl Hac].
  pose proof (aa_version _ _ _ _ _ Ha) as Hev. rewrite <-Hev in Hb, Hcl, Hac.
  set (db2 := write_node _ _ _ _) in *. set (new := fresh_row id t f (ev + 1)) in *.
  assert (decode_deps (pn_deps_json new) = Some (nf_deps f)) as Hnew
    by apply decode_deps_strings.
  assert (∀ x y, dep_edge (_visible_nodes db2 t (ev + 1)) x y ↔
    dep_edge (_visible_nodes db t ev) x y ∨ (x = nf_node_key f ∧ y ∈ nf_deps f)) as Hedge.
  { intros x y. rewrite (dep_edge_elem _ _ x y Hvis). by rewrite dep_edge_snoc. }
  split; rewrite ?Hcur.
  - done.
  - intros n [[Hn _]| ->]%Hmem; [by apply Hd|]. rewrite Hnew. eauto.
  - done.
  - intros x y. rewrite Hedge, list_elem_of_fmap. setoid_rewrite Hvis.
    assert (y ∈ pn_node_key <$> _visible_nodes db t ev →
      ∃ n, y = pn_node_key n ∧ n ∈ _visible_nodes db t ev ++ [new]) as Hin.
    { intros (n & -> & Hn)%list_elem_of_fmap. exists n. rewrite elem_of_app. by auto. }
    intros [Hxy|[-> Hy]]; apply Hin; [by eapply Hcl|by eapply aa_deps].
  - eapply (acyclic_extend (dep_edge (_visible_nodes db t ev)) _ (nf_node_key f)
      (λ y, y ∈ nf_deps f)); [by intros x y ?%Hedge|done|].
    destruct (would_cycle_reaches (_visible_nodes db t ev)
      (visible_keys_NoDup db t ev Hk)
      (λ n Hn, Hd n (proj1 (proj1 (elem_of_live db t ev n Hb) Hn)))
      (nf_node_key f) (nf_deps f)) as (b & Hwc & Hiff).
    rewrite (aa_cycle _ _ _ _ _ Ha) in Hwc. injection Hwc as <-.
    intros d Hdep Hr. assert (false = true) by (apply Hiff; eauto). done.
Qed.

(** An accepted discard names a live leaf that is settled. *)
Record discard_accepted (db : DB) (t key : string) (ev : Z) (node : SwarmPlanNode)
    : Prop := {
  da_version : ev = _current_version db t;
  da_live : live_get (_visible_nodes db t ev) key = Some node;
  da_settled : _unsettled_reason db t node = None;
  da_leaf : ∀ other deps, other ∈ _visible_nodes db t ev →
    decode_deps (pn_deps_json other) = Some deps → key ∉ deps;
}.

Lemma res_map_ok_elem {A B} (f : A → res B) l bs x :
  res_map f l = Ok bs → x ∈ l → ∃ b, f x = Ok b ∧ b ∈ bs.
Proof.
  revert bs. induction l as [|y l IH]; intros bs; simpl; [intros _ []%elem_of_nil|].
  destruct (f y) as [b|] eqn:Hy; simpl; [|done].
  destruct (res_map f l) as [bs'|] eqn:Hl; simpl; [|done].
  intros [= <-] [->|Hx]%elem_of_cons; [exists b; split; [done|constructor]|].
  destruct (IH bs' eq_refl Hx) as (b' & ? & ?). exists b'. split; [done|by constructor].
Qed.

Lemma dependents_of_nil live key :
  dependents_of live key = Ok [] →
  ∀ other deps, other ∈ live → decode_deps (pn_deps_json other) = Some deps → key ∉ deps.
Proof.
  unfold dependents_of. destruct (res_map _ live) as [flags|] eqn:E; simpl; [|done].
  intros [= Hs] other deps Ho Hd Hin.
  destruct (res_map_ok_elem _ _ _ other E Ho) as (p & Hp & Hpf).
  unfold _node_deps in Hp. rewrite Hd in Hp. injection Hp as <-.
  assert (other ∈ py_sorted (λ a b, String.leb (pn_node_key a) (pn_node_key b))
    (fst <$> filter (λ p : SwarmPlanNode * bool, p.2 = true) flags)) as Hm.
  { apply elem_of_py_sorted, list_elem_of_fmap. eexists. split; [|].
    2: { apply list_elem_of_filter. split; [|exact Hpf]. by apply bool_decide_eq_true. }
    done. }
  rewrite Hs in Hm. by apply elem_of_nil in Hm.
Qed.

Lemma discard_refusal_inl db t key ev head claim node :
  discard_refusal db t key ev head claim = Ok (inl node) →
  discard_accepted db t key ev node.
Proof.
  unfold discard_refusal. destruct (ev =? _) eqn:Hv; [|done]. simpl.
  apply Z.eqb_eq in Hv. rewrite <-Hv.
  destruct (live_get _ key) as [n|] eqn:Hl; [|done].
  destruct (_unsettled_reason db t n) eqn:Hu; [done|].
  destruct (match pn_base_artifact_sha n with Some _ => _ | None => _ end); [done|].
  destruct claim; [done|].
  destruct (dependents_of _ key) as [[|? ?]|] eqn:Hd; simpl; [|done|done].
  intros [= <-]. split; [done|done|done|]. by apply dependents_of_nil.
Qed.

Lemma discard_node_locked_inv task t key ev cause head claim db op db' :
  _discard_node_locked task t key ev cause head claim db = Ok (op, db') →
  (∃ code detail call, op = refused_op (_current_version db t) code detail ∧
     db' = set_calls (λ cs, cs ++ [call]) db) ∨
  (∃ call node snap, op = applied_op (_current_version db t + 1) None ∧
     discard_accepted db t key ev node ∧
     (∃ item, live_item db t key = Ok item ∧ snap = _ledger_snapshot item) ∧
     db' = set_calls (λ cs, cs ++ [call])
             (set_nodes (update_where (is_row t key)
                           (row_set_discarded (_current_version db t + 1)))
                (append_version t (_current_version db t + 1) cause
                   (ChDiscardNode key (Some snap)) db))).
Proof.
  unfold _discard_node_locked.
  destruct (discard_refusal _ _ _ _ _ _) as [[node|[code detail]]|] eqn:Hr; simpl;
    [| |done].
  - destruct (live_item db t key) as [item|] eqn:Hi; simpl; [|done].
    destruct (dumps _) as [?|]; simpl; [|done].
    edestruct finish_ok as (call & _ & _ & _ & _ & ->). intros [= <- <-]. right.
    exists call, node, (_ledger_snapshot item). split; [done|].
    split; [by eapply discard_refusal_inl|]. split; [by eauto|done].
  - unfold _refuse. edestruct finish_ok as (call & _ & _ & _ & _ & ->).
    intros [= <- <-]. left. eauto.
Qed.

Lemma nodes_of_discard db t key v t' :
  nodes_of (set_nodes (update_where (is_row t key) (row_set_discarded v)) db) t'
  = update_where (is_row t key) (row_set_discarded v) (nodes_of db t').
Proof. unfold nodes_of. simpl. by apply filter_update_where. Qed.

(** The rows of the plan after an accepted discard: one fewer is live. *)
Lemma discard_accepted_rows db t key ev node cause ch :
  plan_ok db t → discard_accepted db t key ev node →
  let db' := set_nodes (update_where (is_row t key) (row_set_discarded (ev + 1)))
               (append_version t (ev + 1) cause ch db) in
  _current_version db' t = ev + 1 ∧
  nodes_of db' t = update_where (is_row t key) (row_set_discarded (ev + 1)) (nodes_of db t) ∧
  (∀ n, n ∈ nodes_of db' t → version_bounds (ev + 1) n) ∧
  (∀ n, n ∈ _visible_nodes db' t (ev + 1) ↔
        n ∈ _visible_nodes db t ev ∧ pn_node_key n ≠ key).
Proof.
  intros [Hk Hd Hb Hcl Hac] Ha db2. set (db1 := append_version t (ev + 1) cause ch db) in *.
  pose proof (da_version _ _ _ _ _ Ha) as Hev. rewrite <-Hev in Hb.
  assert (nodes_of db2 t = update_where (is_row t key) (row_set_discarded (ev + 1))
            (nodes_of db t)) as Hn2 by exact (nodes_of_discard db1 t key (ev + 1) t).
  assert (∀ n, n ∈ nodes_of db2 t → version_bounds (ev + 1) n) as Hb2.
  { rewrite Hn2. intros n (m & Hm & ->)%elem_of_update_where.
    assert (version_bounds (ev + 1) m) as Hbm.
    { eapply version_bounds_mono; [|by apply Hb]. lia. }
    destruct (is_row t key m); [|done]. destruct Hbm as (? & ? & ?).
    split; [done|]. split; [|done]. simpl. intros d [= <-]. lia. }
  split; [|split; [done|split; [done|]]].
  - change (_current_version db1 t = ev + 1). unfold db1.
    rewrite current_version_append by lia. by rewrite decide_True.
  - intros n. rewrite !elem_of_live by done. rewrite Hn2, elem_of_update_where. split.
    + intros [(m & Hm & ->) Hl]. destruct (is_row t key m) eqn:Em; [by destruct Hl|].
      split; [done|]. intros Hkm. apply not_true_iff_false in Em. apply Em.
      apply is_row_spec. apply elem_of_nodes_of in Hm. tauto.
    + intros [[Hn Hl] Hne]. split; [|done]. exists n. split; [done|].
      destruct (is_row t key n) eqn:En; [|done]. by apply is_row_spec in En as [_ ?].
Qed.

Lemma discard_accepted_plan_ok db t key ev node cause ch :
  plan_ok db t → discard_accepted db t key ev node →
  plan_ok (set_nodes (update_where (is_row t key) (row_set_discarded (ev + 1)))
             (append_version t (ev + 1) cause ch db)) t.
Proof.
  intros Hok Ha.
  destruct (discard_accepted_rows db t key ev node cause ch Hok Ha) as (Hcur & Hn2 & Hb2 & Hvis).
  destruct Hok as [Hk Hd Hb Hcl Hac].
  pose proof (da_version _ _ _ _ _ Ha) as Hev. rewrite <-Hev in Hb, Hcl, Hac.
  set (db2 := set_nodes _ _) in *.
  assert (∀ x y, dep_edge (_visible_nodes db2 t (ev + 1)) x y →
            dep_edge (_visible_nodes db t ev) x y ∧ y ≠ key) as Hedge.
  { intros x y (n & deps & Hn & Hx & Hdd & Hy). apply Hvis in Hn as [Hn _].
    split; [exists n, deps; done|]. intros ->. by eapply da_leaf. }
  split; rewrite ?Hcur.
  - rewrite Hn2, update_where_fmap; [done|]. done.
  - rewrite Hn2. intros n (m & Hm & ->)%elem_of_update_where.
    destruct (is_row t key m); simpl; by apply Hd.
  - done.
  - intros x y [Hxy Hne]%Hedge. apply Hcl in Hxy as (n & -> & Hn)%list_elem_of_fmap.
    apply list_elem_of_fmap. exists n. split; [done|]. by apply Hvis.
  - eapply acyclic_subrel; [|exact Hac]. by intros x y [? _]%Hedge.
Qed.

(** Rewriting row columns that are neither structure nor lifecycle. *)
Definition keeps_structure (g : SwarmPlanNode → SwarmPlanNode) : Prop :=
  ∀ n, pn_task_id (g n) = pn_task_id n ∧ pn_node_key (g n) = pn_node_key n ∧
       pn_deps_json (g n) = pn_deps_json n ∧
       pn_created_in_version (g n) = pn_created_in_version n ∧
       pn_discarded_in_version (g n) = pn_discarded_in_version n ∧
       pn_cancelled_in_version (g n) = pn_cancelled_in_version n.

Lemma live_rows db db' t g :
  keeps_structure g → nodes_of db' t = g <$> nodes_of db t →
  _current_version db t ≤ _current_version db' t → plan_ok db t →
  (∀ n, n ∈ nodes_of db' t → version_bounds (_current_version db' t) n) ∧
  (∀ n, n ∈ _visible_nodes db' t (_current_version db' t) ↔
    ∃ m, n = g m ∧ m ∈ _visible_nodes db t (_current_version db t)).
Proof.
  intros Hg Hn Hv [_ _ Hb _ _].
  assert (∀ n, n ∈ nodes_of db' t → version_bounds (_current_version db' t) n) as Hb'.
  { rewrite Hn. intros n (m & -> & Hm)%list_elem_of_fmap.
    destruct (Hg m) as (_ & _ & _ & Hc & Hdi & Hca). unfold version_bounds.
    rewrite Hc, Hdi, Hca. eapply version_bounds_mono; [exact Hv|]. by apply Hb. }
  split; [done|]. intros n. rewrite elem_of_live by done. rewrite Hn, list_elem_of_fmap.
  setoid_rewrite elem_of_live; [|done..]. unfold alive. split.
  - intros [(m & -> & Hm) Hl]. exists m. destruct (Hg m) as (_ & _ & _ & _ & Hdi & Hca).
    rewrite Hdi, Hca in Hl. done.
  - intros (m & -> & Hm & Hl). destruct (Hg m) as (_ & _ & _ & _ & Hdi & Hca).
    rewrite Hdi, Hca. eauto.
Qed.

Lemma plan_ok_rows db db' t g :
  keeps_structure g → nodes_of db' t = g <$> nodes_of db t →
  _current_version db t ≤ _current_version db' t →
  plan_ok db t → plan_ok db' t.
Proof.
  intros Hg Hn Hv Hok. destruct (live_rows db db' t g Hg Hn Hv Hok) as [Hb' Hvis].
  destruct Hok as [Hk Hd Hb Hcl Hac].
  assert (∀ x y, dep_edge (_visible_nodes db' t (_current_version db' t)) x y →
    dep_edge (_visible_nodes db t (_current_version db t)) x y) as Hedge.
  { intros x y (n & deps & (m & -> & Hm)%Hvis & Hx & Hdd & Hy).
    destruct (Hg m) as (_ & Hkm & Hdm & _). exists m, deps.
    rewrite <-Hkm, <-Hdm. done. }
  split.
  - rewrite Hn, <-list_fmap_compose.
    rewrite (list_fmap_ext (pn_node_key ∘ g) pn_node_key); [done|].
    intros ? m _. simpl. apply Hg.
  - rewrite Hn. intros n (m & -> & Hm)%list_elem_of_fmap.
    destruct (Hg m) as (_ & _ & -> & _). by apply Hd.
  - done.
  - intros x y Hxy%Hedge%Hcl. apply list_elem_of_fmap in Hxy as (m & -> & Hm).
    apply list_elem_of_fmap. exists (g m). split; [by destruct (Hg m) as (_ & -> & _)|].
    apply Hvis. eauto.
  - by eapply acyclic_subrel.
Qed.

(** Writes to the rows of one task leave the plans of the others alone. *)
Lemma nodes_of_update_where db t' (p : SwarmPlanNode → bool) g :
  (∀ n, pn_task_id (g n) = pn_task_id n) →
  nodes_of (set_nodes (update_where p g) db) t' = update_where p g (nodes_of db t').
Proof.
  intros Hg. unfold nodes_of. simpl. apply filter_update_where.
  intros n _ _. by rewrite Hg.
Qed.

Lemma update_where_other db t t' key g :
  t' ≠ t → (∀ n, pn_task_id (g n) = pn_task_id n) →
  nodes_of (set_nodes (update_where (is_row t key) g) db) t' = nodes_of db t'.
Proof.
  intros Hne Hg. rewrite nodes_of_update_where by done. apply update_where_id.
  intros n [_ Ht]%elem_of_nodes_of. apply not_true_iff_false. rewrite is_row_spec.
  naive_solver.
Qed.

Lemma versions_of_append_other db t t' v cause ch :
  t' ≠ t → versions_of (append_version t v cause ch db) t' = versions_of db t'.
Proof. intros. by rewrite versions_of_append, decide_False, app_nil_r by done. Qed.

Lemma versions_of_write_node t f v db t' :
  versions_of (write_node t f v db) t' = versions_of db t'.
Proof. unfold write_node. by case_match. Qed.

(** ** The operations preserve every task's plan *)

Lemma add_node_locked_plan_ok task t f ev cause db op db' t' :
  _add_node_locked task t f ev cause db = Ok (op, db') →
  plan_ok db t' → plan_ok db' t'.
Proof.
  intros [(? & ? & call & -> & ->)|(? & call & -> & Ha & ->)]%add_node_locked_inv Hok;
    [by apply plan_ok_calls|]. apply plan_ok_calls.
  destruct (decide (t' = t)) as [->|Hne].
  - rewrite <-(aa_version _ _ _ _ _ Ha). by eapply add_accepted_plan_ok.
  - eapply plan_ok_frame; [| |exact Hok].
    + by rewrite nodes_of_write_other.
    + by rewrite versions_of_write_node, versions_of_append_other.
Qed.

Lemma discard_node_locked_plan_ok task t key ev cause head claim db op db' t' :
  _discard_node_locked task t key ev cause head claim db = Ok (op, db') →
  plan_ok db t' → plan_ok db' t'.
Proof.
  intros [(? & ? & call & -> & ->)|(call & node & snap & -> & Ha & _ & ->)]
    %discard_node_locked_inv Hok; [by apply plan_ok_calls|]. apply plan_ok_calls.
  destruct (decide (t' = t)) as [->|Hne].
  - rewrite <-(da_version _ _ _ _ _ Ha). by eapply discard_accepted_plan_ok.
  - eapply plan_ok_frame; [| |exact Hok].
    + by apply (update_where_other (append_version _ _ _ _ _)).
    + by apply versions_of_append_other.
Qed.

Lemma row_set_max_attempts_structure a p :
  keeps_structure (λ n, if p n : bool then row_set_max_attempts a n else n).
Proof. intros n. by destruct (p n). Qed.

Lemma renew_funded_attempt_plan_ok t target ev rid db fields db' t' :
  renew_funded_attempt t target ev rid db = Ok (fields, db') →
  plan_ok db t' → plan_ok db' t'.
Proof.
  unfold renew_funded_attempt. destruct (_lock_task db t) as [task|]; simpl; [|done].
  destruct (renewable _ _ _ _) as [[node|]|]; simpl; [|done..].
  destruct (dumps _) as [?|]; simpl; [|done].
  edestruct finish_ok as (call & _ & _ & _ & _ & ->). simpl.
  intros [= <- <-] Hok. apply plan_ok_calls.
  set (g := row_set_max_attempts (py_succ (pn_max_attempts node))).
  eapply (plan_ok_rows db _ t'
    (λ n, if is_row t (pn_node_key node) n then g n else n));
    [apply row_set_max_attempts_structure| | |exact Hok].
  - by apply (nodes_of_update_where db t').
  - rewrite (current_version_append (set_nodes _ db)).
    2: { change (_current_version db t ≤ _current_version db t + 1). lia. }
    change (_current_version (set_nodes _ db) t') with (_current_version db t').
    case_decide; subst; lia.
Qed.

Definition empty_db : DB := mkDB [] [] [] [] [] [] 0.

Lemma plan_ok_no_rows db t : nodes_of db t = [] → plan_ok db t.
Proof.
  intros Hn. assert (∀ v, _visible_nodes db t v = []) as Hv
    by (intros; by rewrite visible_nodes_of, Hn).
  assert (∀ v x y, ¬ dep_edge (_visible_nodes db t v) x y) as Hno.
  { intros v x y (n & _ & Hin & _). rewrite Hv in Hin. by apply elem_of_nil in Hin. }
  split; rewrite ?Hn.
  - constructor.
  - intros n []%elem_of_nil.
  - intros n []%elem_of_nil.
  - intros x y []%Hno.
  - intros x Hx. destruct Hx as [? ? H|? ? ? H _]; by apply Hno in H.
Qed.

#[export] Hint Resolve plan_ok_calls plan_ok_no_rows add_node_locked_plan_ok
  discard_node_locked_plan_ok renew_funded_attempt_plan_ok : factory.
