(* ===== verification/GraphBatch.v ===== *)
(** * Plan graph: atomic batches of edits

    [apply_edits] of [factory/orchestration/graph.py]: validation of a raw
    batch, alias resolution, the stable topological order in which it runs,
    and its all-or-nothing application. *)

From Stdlib Require Import SpecFloat.
From stdpp Require Import prelude list strings pretty sorting relations gmap.
From S2P Require Import Prelude PyValue Worklist GraphData GraphAccounting GraphPlan GraphInvariant.
Local Open Scope Z_scope.

(** An edit is a JSON object; its keys are read the way the code reads them. *)
Notation Edit := (list (string * pyval)).

Definition as_str (v : pyval) : string := match v with PStr s => s | _ => "" end.
Definition edit_op (e : Edit) : string := as_str (dict_get "op" e).
Definition edit_key (e : Edit) : string := as_str (dict_get "node_key" e).
Definition is_add (e : Edit) : bool := bool_decide (edit_op e = "add_node").

(** The strings of [edit.get("deps") or []]. *)
Definition edit_deps (e : Edit) : list string :=
  default [] (decode_deps (dict_get "deps" e)).

(** ** Validation (_edits_error, _plan_edit_args) *)

Definition edit_error (edit : pyval) : bool :=
  match edit with
  | PDict e =>
      if negb (pystr_in (dict_get "op" e) ["add_node"; "discard_node"]) then true
      else if negb (is_str (dict_get "node_key" e)) || negb (truthy (dict_get "node_key" e))
      then true
      else if bool_decide (edit_op e = "discard_node") then false
      else if negb (is_str (dict_get "prompt" e)) || negb (is_str (dict_get "kind" e))
      then true
      else match dict_get "deps" e with
           | PList l => negb (forallb is_str l)
           | _ => true
           end
  | _ => true
  end.

Definition _edits_error (edits : pyval) : option string :=
  match edits with
  | PList l =>
      if negb ((1 <=? length l)%nat && (length l <=? MAX_PLAN_EDITS)%nat)
      then Some "invalid_edits"
      else if existsb edit_error l then Some "invalid_edits" else None
  | _ => Some "invalid_edits"
  end.

Definition _plan_edit_args (edit : pyval) : pyval :=
  match edit with
  | PDict e =>
      let recorded := filter (λ p : string * pyval, p.1 ≠ "prompt") e in
      PDict (match dict_get "prompt" e with
             | PStr prompt =>
                 dict_set "prompt_chars" (PInt (Z.of_nat (String.length prompt))) recorded
             | _ => recorded
             end)
  | v => _audit_value v
  end.

(** ** Aliases (_resolve_batch_deps) *)

Definition final_keys (edits : list Edit) : list string :=
  edit_key <$> filter (λ e, is_add e = true) edits.

(** One pass over the batch: [alias[raw] = None if raw in alias else key]. *)
Definition collect_alias (live final : list string)
    (alias : list (string * option string)) (e : Edit) : list (string * option string) :=
  match dict_get "raw_node_key" e with
  | PStr raw =>
      if is_add e && negb (bool_decide (raw = ""%string)) &&
         negb (bool_decide (raw = edit_key e)) && negb (str_in raw live) &&
         negb (str_in raw final)
      then if has_key raw alias
           then (λ p, if bool_decide (p.1 = raw) then (raw, None) else p) <$> alias
           else alias ++ [(raw, Some (edit_key e))]
      else alias
  | _ => alias
  end.

Definition resolve_dep (live final : list string) (alias : list (string * option string))
    (dep : pyval) : pyval :=
  match dep with
  | PStr d =>
      match assoc_get d alias with
      | Some (Some key) =>
          if negb (str_in d live) && negb (str_in d final) &&
             negb (bool_decide (key = ""%string))
          then PStr key else dep
      | _ => dep
      end
  | _ => dep
  end.

Definition _resolve_batch_deps (edits : list Edit) (live : list string) : list Edit :=
  let final := final_keys edits in
  match foldl (collect_alias live final) [] edits with
  | [] => edits
  | alias =>
      (λ e, match dict_get "deps" e with
            | PList deps =>
                if is_add e
                then dict_set "deps" (PList (resolve_dep live final alias <$> deps)) e
                else e
            | _ => e
            end) <$> edits
  end.

(** ** Ordering (_order_edits) *)

(** [producer.setdefault(key, index)] over the adds. *)
Fixpoint producer_from (index : nat) (edits : list Edit) (key : string) : option nat :=
  match edits with
  | [] => None
  | e :: edits =>
      if is_add e && bool_decide (edit_key e = key) then Some index
      else producer_from (S index) edits key
  end.
Definition producer (edits : list Edit) : string → option nat := producer_from 0 edits.

(** The successor sets, as the list of links in insertion order. *)
Definition link (before after : nat) (links : list (nat * nat)) : list (nat * nat) :=
  if decide (before ≠ after ∧ (before, after) ∉ links)
  then links ++ [(before, after)] else links.

Definition link_opt (source : option nat) (after : nat) (links : list (nat * nat)) :=
  match source with Some before => link before after links | None => links end.

(** [last_touch] is read before it is set, so it is the latest earlier edit of
    the same key. *)
Fixpoint link_edits (prod : string → option nat) (index : nat) (edits : list Edit)
    (last_touch : list (string * nat)) (links : list (nat * nat)) : list (nat * nat) :=
  match edits with
  | [] => links
  | e :: edits =>
      let key := edit_key e in
      let links := link_opt (assoc_get key last_touch) index links in
      let last_touch := (key, index) :: last_touch in
      let links := if is_add e
        then foldl (λ links dep, link_opt (prod dep) index links) links (edit_deps e)
        else links in
      link_edits prod (S index) edits last_touch links
  end.
Definition edit_links (edits : list Edit) : list (nat * nat) :=
  link_edits (producer edits) 0 edits [] [].

Definition indegree_of (links : list (nat * nat)) (i : nat) : nat :=
  length (filter (λ p : nat * nat, p.2 = i) links).
Definition successors (links : list (nat * nat)) (i : nat) : list nat :=
  snd <$> filter (λ p : nat * nat, p.1 = i) links.

(** The heap holds distinct indices: a list in increasing order, popped at its
    head. *)
Definition heappush (heap : list nat) (x : nat) : list nat :=
  insert_sorted Nat.leb x heap.

(** [for successor in sorted(successors[index])]. *)
Fixpoint release (succs : list nat) (indegree : list nat) (available : list nat)
    : list nat * list nat :=
  match succs with
  | [] => (indegree, available)
  | s :: succs =>
      let d := (default 0%nat (indegree !! s) - 1)%nat in
      release succs (<[s := d]> indegree)
        (if (d =? 0)%nat then heappush available s else available)
  end.

Fixpoint drain (links : list (nat * nat)) (fuel : nat) (available indegree order : list nat)
    : list nat :=
  match fuel with
  | O => order
  | S fuel =>
      match available with
      | [] => order
      | index :: available =>
          let '(indegree, available) :=
            release (py_sorted Nat.leb (successors links index)) indegree available in
          drain links fuel available indegree (order ++ [index])
      end
  end.

(** Every index enters [order] at most once, so [length edits] rounds and one
    to see the heap empty are enough. *)
Definition topological (links : list (nat * nat)) (n : nat) : list nat :=
  let indegree := indegree_of links <$> seq 0 n in
  let available := filter (λ i, indegree_of links i = 0%nat) (seq 0 n) in
  drain links (S n) (py_sorted Nat.leb available) indegree [].

Definition _order_edits (edits : list Edit) : list (nat * Edit) :=
  let n := length edits in
  let indexed := zip (seq 0 n) edits in
  let order := topological (edit_links edits) n in
  if negb (length order =? n)%nat then indexed
  else omap (λ i, e ← edits !! i; Some (i, e)) order.

(** ** Application (_apply_one_edit, apply_edits) *)

Definition with_reason (cause : Cause) (reason : pyval) : Cause :=
  mkCause (ca_author_kind cause) (ca_author cause) (ca_cause_kind cause)
    (ca_cause_ref cause) reason.

Definition edit_fields (e : Edit) : NodeFields :=
  mkFields (edit_key e) (as_str (dict_get "kind" e)) (as_str (dict_get "prompt" e))
    (dict_get "model" e) (dict_get "effort" e) (edit_deps e)
    (dict_get "max_cost_usd" e) (truthy (dict_get "side_effects" e))
    (dict_get "max_attempts" e) (dict_get "turn_timeout_seconds" e).

Definition _apply_one_edit (task : SwarmTask) (task_id : string) (e : Edit)
    (expected_version : Z) (cause : Cause) : tx DB GraphOp :=
  let cause := with_reason cause (dict_get "stated_reason" e) in
  if bool_decide (edit_op e = "discard_node") then
    _discard_node_locked task task_id (edit_key e) expected_version cause
      (dict_get "observed_branch_head" e) (truthy (dict_get "activities_claim_write" e))
  else _add_node_locked task task_id (edit_fields e) expected_version cause.

(** The loop of the batch: the last version, or the refused edit. *)
Fixpoint apply_loop (task : SwarmTask) (task_id : string) (cause : Cause)
    (edits : list (nat * Edit)) (version : Z) : tx DB (Z + nat * GraphOp) := λ db,
  match edits with
  | [] => Ok (inl version, db)
  | (index, e) :: edits =>
      '(result, db) ← _apply_one_edit task task_id e version cause db;
      if ok result
      then apply_loop task task_id cause edits (default 0 (op_version result)) db
      else Ok (inr (index, result), db)
  end.

Definition as_dict (v : pyval) : Edit := match v with PDict e => e | _ => [] end.
Definition batch_edits (edits : pyval) : list Edit :=
  match edits with PList l => as_dict <$> l | _ => [] end.

Definition apply_edits_args (cause : Cause) (expected_version : Z) (edits : pyval)
    : list (string * pyval) :=
  [ ("author_kind", PStr (ca_author_kind cause)); ("author", PStr (ca_author cause));
    ("cause_kind", PStr (ca_cause_kind cause)); ("cause_ref", opt_str (ca_cause_ref cause));
    ("expected_version", PInt expected_version);
    ("edits", match edits with
              | PList l => PList (_plan_edit_args <$> l)
              | v => _audit_value v
              end) ].

Definition rejected_detail (edits : list Edit) (index : nat) (code : string)
    (detail : option string) : string :=
  let base := "edit " +:+ pretty index +:+ " ("
    +:+ edit_key (default [] (edits !! index)) +:+ "): " +:+ code in
  match detail with
  | Some d => if bool_decide (d = ""%string) then base else base +:+ " (" +:+ d +:+ ")"
  | None => base
  end.

(** The refusal is recorded on the tables as they were before the batch. *)
Definition record_rejection (task_id : string) (args : list (string * pyval))
    (code : string) (detail : option string) : tx DB GraphOp := λ db,
  task ← _lock_task db task_id;
  _refuse task "apply_edits" args (_current_version db task_id) code detail db.

Definition apply_edits (task_id : string) (cause : Cause) (expected_version : Z)
    (edits : pyval) : tx DB GraphOp := λ db,
  let args := apply_edits_args cause expected_version edits in
  match _edits_error edits with
  | Some code =>
      record_rejection task_id args code
        (Some "plan edits are not a bounded list of graph operations") db
  | None =>
      task ← _lock_task db task_id;
      let batch := batch_edits edits in
      let live := pn_node_key <$>
        _visible_nodes db task_id (_current_version db task_id) in
      '(outcome, applied) ← apply_loop task task_id cause
        (_order_edits (_resolve_batch_deps batch live)) expected_version db;
      match outcome with
      | inl version =>
          _finish task "apply_edits" args expected_version (applied_op version None) applied
      | inr (index, op) =>
          let code := default "graph_refused" (refusal_code op) in
          record_rejection task_id args code
            (Some (rejected_detail batch index code (op_detail op))) db
      end
  end.
