(* ===== verification/GraphOrder.v ===== *)
(** * Plan graph: the order of a batch

    Correctness of the stable topological sort of [_order_edits]: it permutes
    the batch, runs every edit after the edits it is linked to, terminates
    within its fuel, and leaves an already ordered batch as written.
    Then optimistic concurrency of the single edits and atomicity of a batch. *)

From stdpp Require Import prelude list strings sorting relations.
From S2P Require Import Prelude PyValue Worklist GraphData GraphBatch GraphAccounting GraphPlan GraphInvariant.

(** ** Counting *)

Lemma length_filter_split {A} (P Q : A → Prop) `{∀ x, Decision (P x)}
    `{∀ x, Decision (Q x)} (l : list A) :
  length (filter P l) =
  length (filter (λ x, P x ∧ Q x) l) + length (filter (λ x, P x ∧ ¬ Q x) l).
Proof.
  induction l as [|x l IH]; [done|]. rewrite !filter_cons.
  repeat case_decide; simpl; naive_solver lia.
Qed.

Lemma length_filter_eq {A} `{EqDecision A} (P : A → Prop) `{∀ x, Decision (P x)}
    (l : list A) a :
  NoDup l → (∀ x, x ∈ l → P x ↔ x = a) →
  length (filter P l) = if decide (a ∈ l) then 1 else 0.
Proof.
  induction l as [|x l IH]; intros Hnd HP; [done|].
  apply NoDup_cons in Hnd as [Hx Hnd].
  specialize (IH Hnd (λ y Hy, HP y (proj2 (elem_of_cons _ _ _) (or_intror Hy)))).
  rewrite filter_cons. pose proof (HP x (list_elem_of_here _ _)) as Hxa.
  destruct (decide (P x)) as [Hp|Hp]; simpl; rewrite IH.
  - apply Hxa in Hp as ->. rewrite decide_False by done.
    by rewrite decide_True by constructor.
  - destruct (decide (a ∈ l)); [by rewrite decide_True by (by constructor)|].
    rewrite decide_False; [done|]. rewrite elem_of_cons. naive_solver.
Qed.

Lemma length_filter_zero {A} (P : A → Prop) `{∀ x, Decision (P x)} (l : list A) :
  length (filter P l) = 0 ↔ ∀ x, x ∈ l → ¬ P x.
Proof.
  rewrite length_zero_iff_nil. split.
  - intros Hf x Hx Hp. assert (x ∈ filter P l) as Hin by by apply list_elem_of_filter.
    rewrite Hf in Hin. by apply elem_of_nil in Hin.
  - intros Hall. destruct (filter P l) as [|x l'] eqn:E; [done|].
    assert (x ∈ filter P l) as [Hp Hx]%list_elem_of_filter
      by (rewrite E; constructor). by destruct (Hall x Hx).
Qed.

(** ** The heap *)

Lemma heappush_perm h x : heappush h x ≡ₚ x :: h.
Proof. apply insert_sorted_perm. Qed.

Lemma heappush_sorted h x :
  StronglySorted le h → StronglySorted le (heappush h x).
Proof.
  unfold heappush. induction 1 as [|y h Hs IH Hy]; simpl; [repeat constructor|].
  destruct (Nat.leb_spec x y).
  - constructor; [by constructor|]. constructor; [done|].
    eapply Forall_impl; [exact Hy|]. simpl. lia.
  - constructor; [done|]. rewrite insert_sorted_perm. constructor; [lia|done].
Qed.

Lemma py_sorted_sorted l : StronglySorted le (py_sorted Nat.leb l).
Proof.
  induction l as [|x l IH]; simpl; [constructor|]. by apply heappush_sorted.
Qed.

(** ** One round *)

Section release.
Context (indegree : list nat).

Lemma release_spec succs ind avail :
  NoDup succs → (∀ s, s ∈ succs → s < length ind) → StronglySorted le avail →
  let '(ind', avail') := release succs ind avail in
  length ind' = length ind ∧
  (∀ i, ind' !! i = if decide (i ∈ succs) then pred <$> ind !! i else ind !! i) ∧
  (∀ i, i ∈ avail' ↔ i ∈ avail ∨ (i ∈ succs ∧ ∃ d, ind !! i = Some d ∧ pred d = 0)) ∧
  (NoDup avail → (∀ s, s ∈ succs → s ∉ avail) → NoDup avail') ∧
  StronglySorted le avail'.
Proof.
  revert ind avail. induction succs as [|s succs IH]; intros ind avail Hnd Hlt Hs; simpl.
  { split; [done|]. split; [done|]. split; [|done].
    intros i. split; [by left|]. intros [?|[[]%elem_of_nil _]]. done. }
  apply NoDup_cons in Hnd as [Hsn Hnd].
  destruct (lookup_lt_is_Some_2 ind s) as [d Hd]; [apply Hlt; constructor|].
  rewrite Hd. simpl. replace (d - 1) with (pred d) by lia.
  set (avail1 := if pred d =? 0 then heappush avail s else avail).
  assert (StronglySorted le avail1) as Hs1.
  { unfold avail1. case_match; [by apply heappush_sorted|done]. }
  specialize (IH (<[s:=pred d]> ind) avail1 Hnd).
  destruct (release succs _ avail1) as [ind' avail'].
  destruct IH as (Hl & Hi & Ha & Hn & Hso).
  { intros x Hx. rewrite length_insert. apply Hlt. by constructor. }
  { done. }
  rewrite length_insert in Hl.
  assert (∀ i, i ∈ avail1 ↔ i ∈ avail ∨ (i = s ∧ pred d = 0)) as Hav1.
  { intros i. unfold avail1. destruct (Nat.eqb_spec (pred d) 0).
    - rewrite heappush_perm, elem_of_cons. naive_solver.
    - naive_solver. }
  split; [done|]. split; [|split; [|split; [|done]]].
  - intros i. rewrite Hi. destruct (decide (i = s)) as [->|Hne].
    + rewrite (decide_False (P := s ∈ succs)) by done.
      rewrite decide_True by constructor. rewrite Hd. simpl.
      apply list_lookup_insert_eq. eapply lookup_lt_Some, Hd.
    + rewrite list_lookup_insert_ne by done.
      destruct (decide (i ∈ succs)), (decide (i ∈ s :: succs)); set_solver.
  - intros i. rewrite Ha, Hav1, elem_of_cons.
    destruct (decide (i = s)) as [->|Hne].
    + rewrite Hd. naive_solver.
    + rewrite list_lookup_insert_ne by done. naive_solver.
  - intros Hnav Hdis. apply Hn.
    + unfold avail1. case_match; [|done]. rewrite heappush_perm. constructor; [|done].
      apply Hdis. constructor.
    + intros x Hx [Hin|[-> _]]%Hav1; [|done]. eapply Hdis; [|exact Hin]. by constructor.
Qed.
End release.

(** ** The loop *)

Section kahn.
Context (links : list (nat * nat)) (n : nat).
Hypothesis Hnodup : NoDup links.
Hypothesis Hbound : ∀ a b, (a, b) ∈ links → a < n ∧ b < n.

(** Links into [i] whose source has not been emitted. *)
Definition remaining (order : list nat) (i : nat) : nat :=
  length (filter (λ p : nat * nat, p.2 = i ∧ p.1 ∉ order) links).

Lemma remaining_zero order i :
  remaining order i = 0 ↔ ∀ j, (j, i) ∈ links → j ∈ order.
Proof.
  unfold remaining. rewrite length_filter_zero. split.
  - intros Hall j Hj. destruct (decide (j ∈ order)); [done|].
    exfalso. by apply (Hall (j, i) Hj).
  - intros Hall [j i'] Hj [Heq Hn]. simpl in *. subst. auto.
Qed.

Lemma remaining_snoc order x i :
  x ∉ order →
  remaining order i = remaining (order ++ [x]) i + (if decide ((x, i) ∈ links) then 1 else 0).
Proof.
  intros Hx. unfold remaining.
  rewrite (length_filter_split _ (λ p, p.1 ≠ x)). f_equal.
  - f_equal. apply list_filter_iff. intros [a b]. simpl.
    rewrite elem_of_app, list_elem_of_singleton. naive_solver.
  - apply length_filter_eq; [done|]. intros [a b] _. simpl. split.
    + intros [[-> _] Hn]. apply dec_stable in Hn as ->. done.
    + intros [= -> ->]. naive_solver.
Qed.

Record kahn_inv (order available indegree : list nat) : Prop := {
  ki_nodup : NoDup (order ++ available);
  ki_lt : ∀ i, i ∈ order ++ available → i < n;
  ki_len : length indegree = n;
  ki_deg : ∀ i, i < n → indegree !! i = Some (remaining order i);
  ki_zero : ∀ i, i < n → i ∈ order ++ available ↔ remaining order i = 0;
  ki_sorted : StronglySorted le available;
  ki_topo : ∀ k i j, order !! k = Some i → (j, i) ∈ links → j ∈ take k order;
}.

Lemma elem_of_successors i s : s ∈ successors links i ↔ (i, s) ∈ links.
Proof.
  unfold successors. rewrite list_elem_of_fmap. split.
  - intros ([a b] & -> & [Ha Hin]%list_elem_of_filter). simpl in *. by subst.
  - intros Hin. exists (i, s). split; [done|]. by apply list_elem_of_filter.
Qed.

Lemma successors_NoDup i : NoDup (successors links i).
Proof.
  unfold successors. apply NoDup_fmap_2_strong; [|by apply NoDup_filter].
  intros [a b] [c d] [Ha _]%list_elem_of_filter [Hc _]%list_elem_of_filter Heq.
  simpl in *. congruence.
Qed.

(** One pass of the loop, emitting [index]. *)
Section emit.
Context (order available indegree : list nat) (index : nat).
Hypothesis Hinv : kahn_inv order (index :: available) indegree.
Let succs := py_sorted Nat.leb (successors links index).

Lemma elem_of_succs s : s ∈ succs ↔ (index, s) ∈ links.
Proof. unfold succs. by rewrite elem_of_py_sorted, elem_of_successors. Qed.

Lemma emit_fresh :
  index < n ∧ index ∉ order ∧ index ∉ available ∧ NoDup order ∧ NoDup available ∧
  ∀ x, x ∈ order → x ∉ available.
Proof.
  destruct Hinv as [Hnd Hlt _ _ _ _ _]. split; [apply Hlt; set_solver|].
  apply NoDup_app in Hnd as (? & Hx & [? ?]%NoDup_cons). set_solver.
Qed.

(** A successor waits for [index], so it is neither emitted nor available. *)
Lemma emit_successor s :
  (index, s) ∈ links → s ∉ order ∧ s ≠ index ∧ s ∉ available.
Proof.
  intros Hin. destruct emit_fresh as (_ & Hio & _). pose proof (Hbound _ _ Hin) as [_ Hsn].
  assert (0 < remaining order s).
  { rewrite (remaining_snoc _ _ _ Hio), decide_True by done. lia. }
  assert (s ∉ order ++ index :: available) as Hni
    by (intros Hc; apply (ki_zero _ _ _ Hinv s Hsn) in Hc; lia).
  rewrite elem_of_app, elem_of_cons in Hni. naive_solver.
Qed.

Lemma emit_topo k i j :
  (order ++ [index]) !! k = Some i → (j, i) ∈ links → j ∈ take k (order ++ [index]).
Proof.
  intros Hk Hj. destruct (decide (k < length order)) as [Hlk|Hlk].
  - rewrite lookup_app_l in Hk by done. rewrite take_app_le by lia. by eapply (ki_topo _ _ _ Hinv).
  - assert (k = length order) as ->.
    { apply lookup_lt_Some in Hk. rewrite length_app in Hk. simpl in Hk. lia. }
    rewrite list_lookup_middle in Hk by done. injection Hk as <-.
    rewrite take_app_length. apply (proj1 (remaining_zero order index)); [|done].
    apply (ki_zero _ _ _ Hinv); [by apply emit_fresh|]. set_solver.
Qed.

Section release.
Context (ind' avail' : list nat).
Hypothesis Hi : ∀ i,
  ind' !! i = if decide (i ∈ succs) then pred <$> indegree !! i else indegree !! i.
Hypothesis Ha : ∀ i, i ∈ avail' ↔
  i ∈ available ∨ (i ∈ succs ∧ ∃ d, indegree !! i = Some d ∧ pred d = 0).

Lemma emit_degree i : i < n → ind' !! i = Some (remaining (order ++ [index]) i).
Proof.
  intros Hin. destruct emit_fresh as (_ & Hio & _).
  rewrite Hi, (ki_deg _ _ _ Hinv i Hin), (remaining_snoc _ _ _ Hio).
  destruct (decide ((index, i) ∈ links)) as [Hl1|Hl1].
  - rewrite decide_True by (by apply elem_of_succs). simpl. f_equal. lia.
  - rewrite decide_False by (by rewrite elem_of_succs). f_equal. lia.
Qed.

Lemma emit_zero i :
  i < n → i ∈ (order ++ [index]) ++ avail' ↔ remaining (order ++ [index]) i = 0.
Proof.
  intros Hin. destruct emit_fresh as (_ & Hio & _).
  rewrite !elem_of_app, list_elem_of_singleton, Ha, elem_of_succs.
  pose proof (ki_zero _ _ _ Hinv i Hin) as Hz. rewrite elem_of_app, elem_of_cons in Hz.
  rewrite (remaining_snoc _ _ _ Hio) in Hz. setoid_rewrite (ki_deg _ _ _ Hinv i Hin).
  pose proof (remaining_snoc order index i Hio) as Hr.
  destruct (decide ((index, i) ∈ links)) as [Hl1|Hl1].
  - destruct (emit_successor i Hl1) as (? & ? & ?). split.
    + intros [[?|?]|[?|[_ (d & [= <-] & Hd)]]]; [done..|]. lia.
    + intros Hr0. right. right. split; [done|]. eexists. split; [done|]. lia.
  - rewrite Nat.add_0_r in Hz. rewrite <-Hz. naive_solver.
Qed.

Lemma emit_lt i : i ∈ (order ++ [index]) ++ avail' → i < n.
Proof.
  rewrite !elem_of_app, list_elem_of_singleton, Ha, elem_of_succs.
  pose proof (ki_lt _ _ _ Hinv i) as Hlt. rewrite elem_of_app, elem_of_cons in Hlt.
  intros [[?|?]|[?|[Hin _]]]; [auto..|]. by apply Hbound in Hin as [_ ?].
Qed.

Lemma emit_NoDup : NoDup avail' → NoDup ((order ++ [index]) ++ avail').
Proof.
  clear Hi. intros Hn. destruct emit_fresh as (_ & Hio & Hia & Hndo & _ & Hdis).
  apply NoDup_app. split; [|split; [|done]].
  - apply NoDup_app. split; [done|]. split; [set_solver|apply NoDup_singleton].
  - intros x Hx Hx'. apply elem_of_app in Hx as [Hx|Hx%list_elem_of_singleton];
      apply Ha in Hx' as [Hx'|[(? & ? & ?)%elem_of_succs%emit_successor _]];
      subst; naive_solver.
Qed.
End release.

Lemma kahn_step :
  let '(indegree', available') := release succs indegree available in
  kahn_inv (order ++ [index]) available' indegree'.
Proof.
  pose proof (release_spec succs indegree available) as Hrel.
  destruct (release _ indegree available) as [ind' avail'].
  destruct emit_fresh as (_ & _ & _ & _ & Hnda & _). destruct Hrel as (Hl & Hi & Ha & Hn & Hso).
  { unfold succs. rewrite py_sorted_perm. apply successors_NoDup. }
  { intros s Hin%elem_of_succs. rewrite (ki_len _ _ _ Hinv). by apply Hbound in Hin as [_ ?]. }
  { pose proof (ki_sorted _ _ _ Hinv) as [? _]%StronglySorted_inv. done. }
  split; eauto using emit_lt, emit_degree, emit_zero, emit_topo.
  - apply (emit_NoDup avail' Ha). apply Hn; [done|]. intros s Hin%elem_of_succs.
    by apply emit_successor.
  - rewrite Hl. apply Hinv.
Qed.
End emit.

Lemma bounded_NoDup_length l : NoDup l → (∀ i, i ∈ l → i < n) → length l ≤ n.
Proof.
  intros Hnd Hlt. rewrite <-(length_seq n 0). apply submseteq_length, NoDup_submseteq; [done|].
  intros i Hi. apply elem_of_seq. apply Hlt in Hi. lia.
Qed.

Lemma drain_inv fuel order available indegree :
  kahn_inv order available indegree → n < length order + fuel →
  ∃ indegree', kahn_inv (drain links fuel available indegree order) [] indegree'.
Proof.
  revert order available indegree.
  induction fuel as [|fuel IH]; intros order available indegree Hinv Hf.
  { assert (length order ≤ n); [|lia]. destruct Hinv as [Hnd Hlt _ _ _ _ _].
    apply NoDup_app in Hnd as [Hnd _]. apply bounded_NoDup_length; [done|].
    intros i Hi. apply Hlt. set_solver. }
  simpl. destruct available as [|index available]; [eauto|].
  pose proof (kahn_step order available indegree index Hinv) as Hstep.
  destruct (release _ indegree available) as [ind' avail'].
  apply IH; [done|]. rewrite length_app. simpl. lia.
Qed.

Lemma kahn_start :
  kahn_inv [] (py_sorted Nat.leb (filter (λ i, indegree_of links i = 0) (seq 0 n)))
    (indegree_of links <$> seq 0 n).
Proof.
  assert (∀ i, indegree_of links i = remaining [] i) as Hr.
  { intros i. unfold indegree_of, remaining. f_equal. apply list_filter_iff.
    intros p. split; [|tauto]. intros ?. split; [done|]. apply not_elem_of_nil. }
  split; simpl.
  - rewrite py_sorted_perm. apply NoDup_filter, NoDup_seq.
  - intros i. rewrite elem_of_py_sorted, list_elem_of_filter, elem_of_seq. lia.
  - by rewrite length_fmap, length_seq.
  - intros i Hi. rewrite list_lookup_fmap, lookup_seq_lt by done. simpl. by rewrite Hr.
  - intros i Hi. rewrite elem_of_py_sorted, list_elem_of_filter, elem_of_seq, Hr. lia.
  - apply py_sorted_sorted.
  - done.
Qed.

(** The indices emitted are exactly those all of whose predecessors are. *)
Lemma topological_inv : ∃ indegree, kahn_inv (topological links n) [] indegree.
Proof. apply drain_inv; [apply kahn_start|simpl; lia]. Qed.

Lemma topological_NoDup : NoDup (topological links n).
Proof.
  destruct topological_inv as [? [Hnd _ _ _ _ _ _]]. by rewrite app_nil_r in Hnd.
Qed.

Lemma topological_lt i : i ∈ topological links n → i < n.
Proof.
  destruct topological_inv as [? [_ Hlt _ _ _ _ _]]. rewrite app_nil_r in Hlt. auto.
Qed.

Lemma topological_perm :
  length (topological links n) = n → topological links n ≡ₚ seq 0 n.
Proof.
  intros Hl. apply submseteq_length_Permutation; [|by rewrite length_seq, Hl].
  apply NoDup_submseteq; [apply topological_NoDup|].
  intros i Hi. apply elem_of_seq. apply topological_lt in Hi. lia.
Qed.

(** When the sort gives up, the links contain a cycle. *)
Lemma topological_complete :
  acyclic (λ a b, (a, b) ∈ links) → length (topological links n) = n.
Proof.
  intros Hac. set (order := topological links n).
  destruct topological_inv as [ind0 [Hnd Hlt _ _ Hz _ _]]. fold order in Hnd, Hlt, Hz.
  rewrite app_nil_r in Hnd, Hlt. setoid_rewrite app_nil_r in Hz.
  apply Nat.le_antisymm; [by apply bounded_NoDup_length|].
  rewrite <-(length_seq n 0) at 1. apply submseteq_length, NoDup_submseteq; [apply NoDup_seq|].
  intros i [_ Hi]%elem_of_seq. simpl in Hi. destruct (decide (i ∈ order)) as [|Hni]; [done|].
  exfalso. apply (acyclic_descent _ (seq 0 n) (λ i, i < n ∧ i ∉ order)
    (acyclic_flip _ Hac)) with i; [| |done].
  - intros a b [Hb _]%Hbound. apply elem_of_seq. lia.
  - intros x [Hx Hnx]. rewrite Hz in Hnx by done.
    unfold remaining in Hnx. destruct (filter _ links) as [|[a b] l] eqn:E; [done|].
    assert ((a, b) ∈ filter (λ p : nat * nat, p.2 = x ∧ p.1 ∉ order) links)
      as [[? ?] Hin]%list_elem_of_filter by (rewrite E; constructor).
    simpl in *. subst b. exists a. split; [done|]. split; [|done].
    by apply Hbound in Hin as [? _].
Qed.

(** Links that all go forward are already an order. *)
Lemma drain_forward fuel k available indegree :
  (∀ a b, (a, b) ∈ links → a < b) →
  k ≤ n → kahn_inv (seq 0 k) available indegree → n < k + fuel →
  drain links fuel available indegree (seq 0 k) = seq 0 n.
Proof.
  intros Hfwd. revert k available indegree.
  induction fuel as [|fuel IH]; intros k available indegree Hk Hinv Hf; [lia|].
  destruct (decide (k = n)) as [->|Hne].
  - destruct available as [|x available]; [done|]. exfalso.
    destruct Hinv as [Hnd Hlt _ _ _ _ _]. apply NoDup_app in Hnd as (_ & Hd & _).
    apply (Hd x); [|constructor]. apply elem_of_seq.
    split; [lia|]. apply Hlt. set_solver.
  - assert (k ∈ available) as Hka.
    { assert (k ∈ seq 0 k ++ available) as [Hin|?]%elem_of_app; [|apply elem_of_seq in Hin; lia|done].
      apply (ki_zero _ _ _ Hinv); [lia|]. apply remaining_zero.
      intros j Hj. apply elem_of_seq. apply Hfwd in Hj. lia. }
    destruct available as [|x available]; [by apply elem_of_nil in Hka|].
    assert (x = k) as ->.
    { assert (k ≤ x).
      { destruct (decide (k ≤ x)); [done|]. exfalso.
        pose proof (ki_nodup _ _ _ Hinv) as (_ & Hd & _)%NoDup_app.
        apply (Hd x); [apply elem_of_seq; lia|constructor]. }
      pose proof (ki_sorted _ _ _ Hinv) as [_ Hs]%StronglySorted_inv.
      apply elem_of_cons in Hka as [|Hka]; [done|].
      rewrite Forall_forall in Hs. apply Hs in Hka. lia. }
    simpl. pose proof (kahn_step _ _ _ _ Hinv) as Hstep.
    destruct (release _ indegree available) as [ind' avail'].
    change (drain links fuel avail' ind' (seq 0 k ++ [0 + k]) = seq 0 n).
    change (kahn_inv (seq 0 k ++ [0 + k]) avail' ind') in Hstep.
    rewrite <-seq_S in *. apply IH; [lia|done|lia].
Qed.

Lemma topological_forward :
  (∀ a b, (a, b) ∈ links → a < b) → topological links n = seq 0 n.
Proof.
  intros Hfwd. apply (drain_forward (S n) 0); [done|lia|apply kahn_start|lia].
Qed.
End kahn.

(** ** The links of a batch *)

(** The [last_touch] map after the edits [pre]. *)
Definition touches (pre : list (list (string * pyval))) : list (string * nat) :=
  reverse (zip (edit_key <$> pre) (seq 0 (length pre))).

Lemma touches_snoc pre e : touches (pre ++ [e]) = (edit_key e, length pre) :: touches pre.
Proof.
  unfold touches. rewrite fmap_app, length_app. simpl. rewrite Nat.add_1_r, seq_S.
  rewrite zip_with_app by (by rewrite length_fmap, length_seq).
  by rewrite reverse_app.
Qed.

(** It maps a key to the latest edit that touched it. *)
Lemma touches_get pre key a :
  assoc_get key (touches pre) = Some a →
  (∃ e, pre !! a = Some e ∧ edit_key e = key) ∧
  (∀ c e, a < c → pre !! c = Some e → edit_key e ≠ key).
Proof.
  induction pre as [|e pre IH] using rev_ind; [done|].
  rewrite touches_snoc. simpl. case_bool_decide as Hk.
  - intros [= <-]. split.
    + exists e. by rewrite list_lookup_middle.
    + intros c x Hc Hx%lookup_lt_Some. rewrite length_app in Hx. simpl in Hx. lia.
  - intros [(x & Hx & Hkx) Hafter]%IH. split.
    + exists x. split; [|done]. by apply lookup_app_l_Some.
    + intros c y Hc Hy. apply lookup_app_Some in Hy as [Hy|[Hl Hy]]; [by eapply Hafter|].
      apply list_lookup_singleton_Some in Hy as [_ <-]. done.
Qed.

Lemma touches_get_None pre key :
  assoc_get key (touches pre) = None → ∀ e, e ∈ pre → edit_key e ≠ key.
Proof.
  induction pre as [|e pre IH] using rev_ind; [intros _ e []%elem_of_nil|].
  rewrite touches_snoc. simpl. case_bool_decide; [done|].
  intros Hn x [Hx| ->%list_elem_of_singleton]%elem_of_app; auto.
Qed.

Lemma elem_of_link a b x y links :
  (x, y) ∈ link a b links ↔ (x, y) ∈ links ∨ (x = a ∧ y = b ∧ a ≠ b).
Proof.
  unfold link. case_decide as Hd.
  - rewrite elem_of_app, list_elem_of_singleton. naive_solver.
  - split; [by left|]. intros [?|(-> & -> & Hne)]; [done|].
    apply dec_stable. intros Hn. apply Hd. done.
Qed.

Lemma link_NoDup a b links : NoDup links → NoDup (link a b links).
Proof.
  intros Hnd. unfold link. case_decide as Hd; [|done].
  apply NoDup_app. split; [done|]. split; [|apply NoDup_singleton].
  intros p Hp ->%list_elem_of_singleton. by destruct Hd.
Qed.

Lemma elem_of_link_opt o b x y links :
  (x, y) ∈ link_opt o b links ↔ (x, y) ∈ links ∨ (o = Some x ∧ y = b ∧ x ≠ b).
Proof. destruct o as [a|]; simpl; [rewrite elem_of_link|]; naive_solver. Qed.

Lemma elem_of_link_deps (prod : string → option nat) deps b x y links :
  (x, y) ∈ foldl (λ links dep, link_opt (prod dep) b links) links deps ↔
  (x, y) ∈ links ∨ (y = b ∧ x ≠ b ∧ ∃ d, d ∈ deps ∧ prod d = Some x).
Proof.
  revert links. induction deps as [|d deps IH]; intros links; simpl.
  { split; [by left|]. intros [?|(_ & _ & ? & []%elem_of_nil & _)]. done. }
  rewrite IH, elem_of_link_opt. setoid_rewrite elem_of_cons. naive_solver.
Qed.

Lemma link_deps_NoDup (prod : string → option nat) deps b links :
  NoDup links → NoDup (foldl (λ links dep, link_opt (prod dep) b links) links deps).
Proof.
  revert links. induction deps as [|d deps IH]; intros links Hnd; simpl; [done|].
  apply IH. unfold link_opt. case_match; [by apply link_NoDup|done].
Qed.

(** Why the edit [e] at [b] must run after the edit at [a]. *)
Definition must_follow (prod : string → option nat) (before : list (list (string * pyval)))
    (e : list (string * pyval)) (a : nat) : Prop :=
  assoc_get (edit_key e) (touches before) = Some a ∨
  (is_add e = true ∧ ∃ d, d ∈ edit_deps e ∧ prod d = Some a).

Lemma elem_of_link_edits prod pre edits links a b :
  (a, b) ∈ link_edits prod (length pre) edits (touches pre) links ↔
  (a, b) ∈ links ∨ ∃ i e, edits !! i = Some e ∧ b = length pre + i ∧ a ≠ b ∧
    must_follow prod (pre ++ take i edits) e a.
Proof.
  revert pre links. induction edits as [|e edits IH]; intros pre links; simpl.
  { split; [by left|]. intros [?|(i & e & Hi & _)]; [done|]. by rewrite lookup_nil in Hi. }
  rewrite <-touches_snoc. replace (S (length pre)) with (length (pre ++ [e]))
    by (rewrite length_app; simpl; lia).
  rewrite IH.
  assert ((a, b) ∈ (if is_add e
      then foldl (λ links dep, link_opt (prod dep) (length pre) links)
             (link_opt (assoc_get (edit_key e) (touches pre)) (length pre) links) (edit_deps e)
      else link_opt (assoc_get (edit_key e) (touches pre)) (length pre) links) ↔
    (a, b) ∈ links ∨ (b = length pre ∧ a ≠ b ∧ must_follow prod pre e a)) as ->.
  { unfold must_follow. destruct (is_add e).
    - rewrite elem_of_link_deps, elem_of_link_opt. naive_solver.
    - rewrite elem_of_link_opt. naive_solver. }
  split.
  - intros [[?|(-> & Hne & Hm)]|(i & e' & Hi & -> & Hne & Hm)]; [by left| |]; right.
    + exists 0, e. rewrite take_0, app_nil_r, Nat.add_0_r. done.
    + exists (S i), e'. rewrite length_app in *. simpl in *. split; [done|].
      split; [lia|]. split; [lia|]. by rewrite <-app_assoc in Hm.
  - intros [?|([|i] & e' & Hi & -> & Hne & Hm)]; [by left; left| |].
    + left. right. simpl in Hi. injection Hi as <-.
      rewrite take_0, app_nil_r in Hm. rewrite Nat.add_0_r in *. done.
    + right. exists i, e'. simpl in *. rewrite length_app. simpl. split; [done|].
      split; [lia|]. split; [lia|]. by rewrite <-app_assoc.
Qed.

Lemma link_edits_NoDup prod index edits touch links :
  NoDup links → NoDup (link_edits prod index edits touch links).
Proof.
  revert index touch links. induction edits as [|e edits IH]; intros index touch links Hnd;
    simpl; [done|]. apply IH.
  assert (NoDup (link_opt (assoc_get (edit_key e) touch) index links)).
  { unfold link_opt. case_match; [by apply link_NoDup|done]. }
  destruct (is_add e); [by apply link_deps_NoDup|done].
Qed.

Lemma producer_from_Some index edits key a :
  producer_from index edits key = Some a →
  ∃ i e, edits !! i = Some e ∧ a = index + i ∧ is_add e = true ∧ edit_key e = key.
Proof.
  revert index. induction edits as [|e edits IH]; intros index; simpl; [done|].
  destruct (is_add e && _) eqn:E.
  - intros [= <-]. apply andb_true_iff in E as [? ?%bool_decide_eq_true].
    exists 0, e. rewrite Nat.add_0_r. done.
  - intros (i & e' & ? & -> & ?)%IH. exists (S i), e'. split; [done|]. split; [lia|done].
Qed.

Lemma edit_links_spec edits a b :
  (a, b) ∈ edit_links edits ↔
  ∃ e, edits !! b = Some e ∧ a ≠ b ∧ must_follow (producer edits) (take b edits) e a.
Proof.
  unfold edit_links. pose proof (elem_of_link_edits (producer edits) [] edits [] a b) as H.
  change (touches []) with (@nil (string * nat)) in H. simpl in H. rewrite H.
  split.
  - intros [[]%elem_of_nil|(i & e & Hi & -> & ?)]. eauto.
  - intros (e & He & ?). right. eauto.
Qed.

Lemma edit_links_bound edits a b :
  (a, b) ∈ edit_links edits → a < length edits ∧ b < length edits.
Proof.
  rewrite edit_links_spec. intros (e & Hb%lookup_lt_Some & _ & Hm). split; [|done].
  destruct Hm as [[(x & Hx & _) _]%touches_get|(_ & d & _ & Hp)].
  - apply lookup_lt_Some in Hx. rewrite length_take in Hx. lia.
  - apply producer_from_Some in Hp as (i & x & Hi%lookup_lt_Some & -> & _). lia.
Qed.

Lemma edit_links_NoDup edits : NoDup (edit_links edits).
Proof. apply link_edits_NoDup. constructor. Qed.

(** ** The order of a batch *)

Lemma omap_indexed (edits : list (list (string * pyval))) :
  omap (λ i, e ← edits !! i; Some (i, e)) (seq 0 (length edits))
  = zip (seq 0 (length edits)) edits.
Proof.
  induction edits as [|e edits IH] using rev_ind; [done|].
  rewrite length_app. simpl. rewrite Nat.add_1_r, seq_S, omap_app.
  rewrite zip_with_app by (by rewrite length_seq). rewrite <-IH. simpl.
  rewrite list_lookup_middle by done. simpl. f_equal.
  apply list_omap_ext, Forall_Forall2_diag, Forall_forall.
  intros i Hi%elem_of_seq. simpl. by rewrite lookup_app_l by lia.
Qed.

Lemma order_edits_complete edits :
  length (topological (edit_links edits) (length edits)) = length edits →
  fst <$> _order_edits edits = topological (edit_links edits) (length edits).
Proof.
  intros Hl. unfold _order_edits. rewrite Hl, Nat.eqb_refl. simpl.
  assert (∀ i, i ∈ topological (edit_links edits) (length edits) → is_Some (edits !! i)) as Hin.
  { intros i Hi. apply lookup_lt_is_Some. eapply topological_lt; [| |exact Hi].
    - apply edit_links_NoDup.
    - apply edit_links_bound. }
  revert Hin. generalize (topological (edit_links edits) (length edits)) as l.
  induction l as [|i l IH]; intros Hin; [done|]. simpl.
  destruct (Hin i) as [e ->]; [constructor|]. simpl. f_equal. apply IH.
  intros j Hj. apply Hin. by constructor.
Qed.

Definition precedes (l : list nat) (a b : nat) : Prop :=
  ∃ p q, l !! p = Some a ∧ l !! q = Some b ∧ p < q.

Lemma precedes_trans l a b c :
  NoDup l → precedes l a b → precedes l b c → precedes l a c.
Proof.
  intros Hnd (p & q & Hp & Hq & ?) (q' & r & Hq' & Hr & ?).
  rewrite NoDup_alt in Hnd. assert (q = q') as -> by by eapply Hnd.
  exists p, r. split; [done|]. split; [done|lia].
Qed.

Lemma link_precedes edits a b :
  length (topological (edit_links edits) (length edits)) = length edits →
  (a, b) ∈ edit_links edits →
  precedes (topological (edit_links edits) (length edits)) a b.
Proof.
  intros Hl Hab. set (order := topological _ _) in *.
  destruct (topological_inv (edit_links edits) (length edits) (edit_links_NoDup edits)
    (edit_links_bound edits)) as [ind [_ _ _ _ _ _ Htopo]]. fold order in Htopo.
  assert (b ∈ order) as [q Hq]%list_elem_of_lookup.
  { unfold order. rewrite topological_perm; [|apply edit_links_NoDup|apply edit_links_bound|done].
    apply elem_of_seq. apply edit_links_bound in Hab. lia. }
  pose proof (Htopo q b a Hq Hab) as [p Hp]%list_elem_of_lookup.
  exists p, q. apply lookup_take_Some in Hp as [? ?]. done.
Qed.

Lemma acyclic_complete edits :
  (∀ i, ¬ tc (λ a b, (a, b) ∈ edit_links edits) i i) →
  length (topological (edit_links edits) (length edits)) = length edits.
Proof. apply topological_complete; [apply edit_links_NoDup|apply edit_links_bound]. Qed.

(** Two edits of one key run in the order they were written. *)
Lemma same_key_precedes edits a b ea eb :
  length (topological (edit_links edits) (length edits)) = length edits →
  a < b → edits !! a = Some ea → edits !! b = Some eb → edit_key ea = edit_key eb →
  precedes (topological (edit_links edits) (length edits)) a b.
Proof.
  intros Hl. revert eb. induction (lt_wf b) as [b _ IH]. intros eb Hab Ha Hb Hk.
  destruct (assoc_get (edit_key eb) (touches (take b edits))) as [c|] eqn:E.
  - destruct (touches_get _ _ _ E) as [(ec & Hc & Hkc) Hafter].
    apply lookup_take_Some in Hc as [Hc Hcb].
    assert (precedes (topological (edit_links edits) (length edits)) c b) as Hcp.
    { apply link_precedes; [done|]. apply edit_links_spec. exists eb.
      split; [done|]. split; [lia|]. by left. }
    destruct (decide (a = c)) as [->|Hne]; [done|].
    assert (a < c).
    { destruct (decide (a < c)); [done|]. exfalso. apply (Hafter a ea); [lia| |done].
      apply lookup_take_Some. done. }
    eapply precedes_trans; [apply topological_NoDup; [apply edit_links_NoDup|apply edit_links_bound]| |exact Hcp].
    eapply IH; [lia|done|done|exact Hc|congruence].
  - exfalso. eapply (touches_get_None _ _ E ea); [|done].
    apply list_elem_of_lookup. exists a. by apply lookup_take_Some.
Qed.

Lemma order_edits_perm edits : _order_edits edits ≡ₚ zip (seq 0 (length edits)) edits.
Proof.
  unfold _order_edits. destruct (Nat.eqb_spec
    (length (topological (edit_links edits) (length edits))) (length edits)) as [Hl|]; [|done].
  simpl. rewrite topological_perm; [|apply edit_links_NoDup|apply edit_links_bound|done].
  by rewrite omap_indexed.
Qed.

(** Running a batch never drops, duplicates or invents an edit: the order
    [_order_edits] chooses is a permutation of the indexed batch, whatever its
    dependencies are. *)
Theorem order_edits_permutation edits :
  _order_edits edits ≡ₚ zip (seq 0 (length edits)) edits.
Proof. apply order_edits_perm. Qed.

(** When the edits of a batch do not depend on each other circularly, an
    add runs after the add in the same batch that produces each of its
    dependencies, and two edits of the same key keep their written order, so a
    discard and its re-add cannot swap. *)
Theorem order_edits_respects edits a b ea eb :
  (∀ i, ¬ tc (λ x y, (x, y) ∈ edit_links edits) i i) →
  edits !! a = Some ea → edits !! b = Some eb → a ≠ b →
  (is_add eb = true ∧ (∃ d, d ∈ edit_deps eb ∧ producer edits d = Some a)) ∨
  (a < b ∧ edit_key ea = edit_key eb) →
  precedes (fst <$> _order_edits edits) a b.
Proof.
  intros Hl%acyclic_complete Ha Hb Hne Hwhy. rewrite order_edits_complete by done.
  destruct Hwhy as [Hadd|[Hlt Hk]]; [|by eapply same_key_precedes].
  apply link_precedes; [done|]. apply edit_links_spec. exists eb.
  split; [done|]. split; [done|]. by right.
Qed.

(** A batch whose adds already follow their producers is applied exactly
    as written. *)
Theorem order_edits_stable edits :
  (∀ b e d a, edits !! b = Some e → is_add e = true → d ∈ edit_deps e →
     producer edits d = Some a → a ≤ b) →
  _order_edits edits = zip (seq 0 (length edits)) edits.
Proof.
  intros Hfwd.
  assert (topological (edit_links edits) (length edits) = seq 0 (length edits)) as Ht.
  { apply topological_forward; [apply edit_links_NoDup|apply edit_links_bound|].
    intros a b (e & He & Hne & Hm)%edit_links_spec.
    destruct Hm as [[(x & Hx & _) _]%touches_get|(Hadd & d & Hd & Hp)].
    - apply lookup_take_Some in Hx as [_ ?]. done.
    - pose proof (Hfwd b e d a He Hadd Hd Hp). lia. }
  unfold _order_edits. rewrite Ht, length_seq, Nat.eqb_refl. simpl. apply omap_indexed.
Qed.

(** * Plan graph: versions and atomicity

    Optimistic concurrency of the single edits and the all-or-nothing contract
    of a batch, with the plan invariant carried through both. *)

Local Open Scope Z_scope.

(** [db'] is [db] with one more recorded conductor call. *)
Definition only_recorded (db db' : DB) : Prop :=
  ∃ call, db' = set_calls (λ cs, cs ++ [call]) db.

(** One applied edit of task [t]: its version and its ledger row. *)
Definition advanced (t : string) (db db' : DB) (n : nat) : Prop :=
  _current_version db' t = _current_version db t + Z.of_nat n ∧
  length (versions_of db' t) = (length (versions_of db t) + n)%nat ∧
  db_runs db' = db_runs db ∧ db_tasks db' = db_tasks db ∧
  (∀ t', t' ≠ t → nodes_of db' t' = nodes_of db t' ∧ versions_of db' t' = versions_of db t').

Lemma advanced_refl t db : advanced t db db 0.
Proof. split; [lia|]. split; [lia|]. done. Qed.

Lemma advanced_trans t db1 db2 db3 n m :
  advanced t db1 db2 n → advanced t db2 db3 m → advanced t db1 db3 (n + m).
Proof.
  intros (Hv & Hl & Hr & Ht & Ho) (Hv' & Hl' & Hr' & Ht' & Ho').
  split; [lia|]. split; [lia|]. split; [congruence|]. split; [congruence|].
  intros t' Hne. destruct (Ho t' Hne), (Ho' t' Hne). split; congruence.
Qed.

Lemma advanced_append t v cause ch db :
  v = _current_version db t + 1 → advanced t db (append_version t v cause ch db) 1.
Proof.
  intros ->. split; [rewrite current_version_append by lia; rewrite decide_True by done; lia|].
  rewrite versions_of_append, decide_True, length_app by done.
  split; [done|]. split; [done|]. split; [done|].
  intros t' Hne. split; [done|]. by apply versions_of_append_other.
Qed.

(** Row and call writes after the ledger append keep the advance. *)
Lemma advanced_writes t db db' db'' n :
  advanced t db db' n → db_versions db'' = db_versions db' → db_runs db'' = db_runs db' →
  db_tasks db'' = db_tasks db' →
  (∀ t', t' ≠ t → nodes_of db'' t' = nodes_of db' t') → advanced t db db'' n.
Proof.
  intros (Hv & Hl & Hr & Ht & Ho) Hvs Hrs Hts Hns.
  assert (∀ t', versions_of db'' t' = versions_of db' t') as Hvo
    by (intros; unfold versions_of; by rewrite Hvs).
  split; [by rewrite current_version_slice, Hvo, <-current_version_slice|].
  split; [by rewrite Hvo|]. split; [congruence|]. split; [congruence|].
  intros t' Hne. rewrite Hvo, Hns by done. auto.
Qed.

Lemma write_node_versions t f v db : db_versions (write_node t f v db) = db_versions db.
Proof. unfold write_node. by case_match. Qed.
Lemma write_node_runs t f v db : db_runs (write_node t f v db) = db_runs db.
Proof. unfold write_node. by case_match. Qed.
Lemma write_node_tasks t f v db : db_tasks (write_node t f v db) = db_tasks db.
Proof. unfold write_node. by case_match. Qed.

(** A refusal records itself and nothing else; an application advances the
    plan by one version from the version the caller named. *)
Lemma add_node_locked_cases task t f ev cause db op db' :
  _add_node_locked task t f ev cause db = Ok (op, db') →
  (ok op = false ∧ is_Some (refusal_code op) ∧ only_recorded db db') ∨
  (ok op = true ∧ ev = _current_version db t ∧ op_version op = Some (ev + 1) ∧
   advanced t db db' 1).
Proof.
  intros [(? & ? & call & -> & ->)|(? & call & -> & Ha & ->)]%add_node_locked_inv.
  - left. split; [done|]. split; [eauto|]. by exists call.
  - right. pose proof (aa_version _ _ _ _ _ Ha) as Hv. rewrite <-Hv.
    split; [done|]. split; [done|]. split; [done|].
    eapply (advanced_writes t db (append_version t (ev + 1) cause (ChAddNode f) db));
      [apply advanced_append; lia|exact (write_node_versions t f (ev + 1) _)
      |exact (write_node_runs t f (ev + 1) _)|exact (write_node_tasks t f (ev + 1) _)|].
    intros t' Hne. by apply (nodes_of_write_other (append_version _ _ _ _ _)).
Qed.

Lemma discard_node_locked_cases task t key ev cause head claim db op db' :
  _discard_node_locked task t key ev cause head claim db = Ok (op, db') →
  (ok op = false ∧ is_Some (refusal_code op) ∧ only_recorded db db') ∨
  (ok op = true ∧ ev = _current_version db t ∧ op_version op = Some (ev + 1) ∧
   advanced t db db' 1).
Proof.
  intros [(? & ? & call & -> & ->)|(call & node & snap & -> & Ha & _ & ->)]
    %discard_node_locked_inv.
  - left. split; [done|]. split; [eauto|]. by exists call.
  - right. pose proof (da_version _ _ _ _ _ Ha) as Hv. rewrite <-Hv.
    split; [done|]. split; [done|]. split; [done|].
    eapply (advanced_writes t db
      (append_version t (ev + 1) cause (ChDiscardNode key (Some snap)) db));
      [apply advanced_append; lia|done..|].
    intros t' Hne. by apply (update_where_other (append_version _ _ _ _ _)).
Qed.

Lemma apply_one_edit_cases task t e ev cause db op db' :
  _apply_one_edit task t e ev cause db = Ok (op, db') →
  (ok op = false ∧ is_Some (refusal_code op) ∧ only_recorded db db') ∨
  (ok op = true ∧ ev = _current_version db t ∧ op_version op = Some (ev + 1) ∧
   advanced t db db' 1).
Proof.
  unfold _apply_one_edit. case_bool_decide.
  - apply discard_node_locked_cases.
  - apply add_node_locked_cases.
Qed.

Lemma apply_one_edit_plan_ok task t e ev cause db op db' t' :
  _apply_one_edit task t e ev cause db = Ok (op, db') → plan_ok db t' → plan_ok db' t'.
Proof. unfold _apply_one_edit. case_bool_decide; eauto with factory. Qed.

Lemma apply_loop_inl task t cause edits ev db v db' :
  apply_loop task t cause edits ev db = Ok (inl v, db') →
  v = ev + Z.of_nat (length edits) ∧ advanced t db db' (length edits) ∧
  (edits ≠ [] → ev = _current_version db t).
Proof.
  revert ev db. induction edits as [|[i e] edits IH]; intros ev db; simpl.
  { intros [= <- <-]. split; [lia|]. split; [apply advanced_refl|done]. }
  destruct (_apply_one_edit task t e ev cause db) as [[op db1]|] eqn:E; simpl; [|done].
  apply apply_one_edit_cases in E as [(-> & _)|(-> & -> & Hop & Hadv)]; [done|].
  rewrite Hop. simpl. intros (-> & Hadv' & _)%IH.
  split; [lia|]. split; [|done]. by eapply (advanced_trans t db db1 db' 1).
Qed.

Lemma apply_loop_plan_ok task t cause edits ev db r db' t' :
  apply_loop task t cause edits ev db = Ok (r, db') → plan_ok db t' → plan_ok db' t'.
Proof.
  revert ev db. induction edits as [|[i e] edits IH]; intros ev db; simpl; [by intros [= _ <-]|].
  destruct (_apply_one_edit task t e ev cause db) as [[op db1]|] eqn:E; simpl; [|done].
  intros Hr Hok. apply apply_one_edit_plan_ok with (t' := t') in E; [|done].
  destruct (ok op); [by eapply IH|]. by injection Hr as _ <-.
Qed.

Lemma record_rejection_ok t args code detail db op db' :
  record_rejection t args code detail db = Ok (op, db') →
  ok op = false ∧ refusal_code op = Some code ∧ only_recorded db db'.
Proof.
  unfold record_rejection, _refuse. destruct (_lock_task db t) as [task|]; simpl; [|done].
  edestruct finish_ok as (call & _ & _ & _ & _ & ->). intros [= <- <-].
  split; [done|]. split; [done|]. by exists call.
Qed.

Lemma only_recorded_plan_ok db db' t : only_recorded db db' → plan_ok db t → plan_ok db' t.
Proof. intros [call ->]. by apply plan_ok_calls. Qed.

Lemma resolve_length edits live : length (_resolve_batch_deps edits live) = length edits.
Proof. unfold _resolve_batch_deps. case_match; [done|]. by rewrite length_fmap. Qed.

Lemma ordered_length edits : length (_order_edits edits) = length edits.
Proof. rewrite order_edits_perm, length_zip_with, length_seq. lia. Qed.

(** The two ways a batch returns. *)
Lemma apply_edits_cases t cause ev edits db op db' :
  apply_edits t cause ev edits db = Ok (op, db') →
  (ok op = false ∧ is_Some (refusal_code op) ∧ only_recorded db db') ∨
  (ok op = true ∧ ev = _current_version db t ∧
   let n := length (batch_edits edits) in
   (1 ≤ n ≤ MAX_PLAN_EDITS)%nat ∧ op_version op = Some (ev + Z.of_nat n) ∧
   advanced t db db' n).
Proof.
  unfold apply_edits. destruct (_edits_error edits) as [code|] eqn:He.
  { intros (? & Hc & ?)%record_rejection_ok. left. rewrite Hc. eauto. }
  destruct (_lock_task db t) as [task|] eqn:Hlock; simpl; [|done].
  destruct (apply_loop _ _ _ _ _ db) as [[[v|[index bad]] db1]|] eqn:Hloop; simpl; [| |done].
  - edestruct finish_ok as (call & _ & _ & _ & _ & ->). intros [= <- <-]. right.
    apply apply_loop_inl in Hloop as (-> & Hadv & Hev).
    rewrite ordered_length, resolve_length in *.
    assert (1 ≤ length (batch_edits edits) ≤ MAX_PLAN_EDITS)%nat as Hn.
    { unfold _edits_error in He. destruct edits; try done. simpl.
      rewrite length_fmap. destruct (_ && _) eqn:Hb; [|done].
      apply andb_true_iff in Hb as [?%Nat.leb_le ?%Nat.leb_le]. lia. }
    split; [done|]. split.
    { apply Hev. intros Hnil%(f_equal length).
      rewrite ordered_length, resolve_length in Hnil. simpl in Hnil. lia. }
    split; [done|]. split; [done|]. by eapply advanced_writes.
  - intros (? & Hc & ?)%record_rejection_ok. left. rewrite Hc. eauto.
Qed.

Lemma apply_edits_plan_ok t cause ev edits db op db' t' :
  apply_edits t cause ev edits db = Ok (op, db') → plan_ok db t' → plan_ok db' t'.
Proof.
  unfold apply_edits. destruct (_edits_error edits) as [code|].
  { intros (_ & _ & ?)%record_rejection_ok. by apply only_recorded_plan_ok. }
  destruct (_lock_task db t) as [task|] eqn:Hlock; simpl; [|done].
  destruct (apply_loop _ _ _ _ _ db) as [[[v|[index bad]] db1]|] eqn:Hloop; simpl; [| |done].
  - edestruct finish_ok as (call & _ & _ & _ & _ & ->). intros [= _ <-] Hok.
    apply plan_ok_calls. by eapply apply_loop_plan_ok.
  - intros (_ & _ & ?)%record_rejection_ok. by apply only_recorded_plan_ok.
Qed.

Lemma add_node_plan_ok t cause ev f db op db' t' :
  add_node t cause ev f db = Ok (op, db') → plan_ok db t' → plan_ok db' t'.
Proof.
  unfold add_node. destruct (_lock_task db t); simpl; [|done].
  apply add_node_locked_plan_ok.
Qed.

Lemma discard_node_plan_ok t key cause ev head claim db op db' t' :
  discard_node t key cause ev head claim db = Ok (op, db') →
  plan_ok db t' → plan_ok db' t'.
Proof.
  unfold discard_node. destruct (_lock_task db t); simpl; [|done].
  apply discard_node_locked_plan_ok.
Qed.

#[export] Hint Resolve apply_edits_plan_ok add_node_plan_ok discard_node_plan_ok : factory.

(** ** Claims *)

(** [Add_node] is a compare-and-swap on the plan version.  It applies only
    when the caller named the current version, and then the task moves to
    exactly the next version with one new ledger row; otherwise it is refused
    with a code, and nothing but the record of the refused call is written.
    Runs, task rows and every other task's plan are untouched in both cases. *)
Theorem add_node_compare_and_swap t cause ev f db op db' :
  add_node t cause ev f db = Ok (op, db') →
  (ok op = false ∧ is_Some (refusal_code op) ∧ only_recorded db db') ∨
  (ok op = true ∧ ev = _current_version db t ∧ op_version op = Some (ev + 1) ∧
   advanced t db db' 1).
Proof.
  unfold add_node. destruct (_lock_task db t) as [task|]; simpl; [|done].
  apply add_node_locked_cases.
Qed.

(** C32: [apply_edits] is atomic.  An applied batch of [n] edits produces [n]
    versions from the version the caller named; a refused batch leaves every
    table as it was, apart from the one recorded refusal. *)
Theorem apply_edits_atomic t cause ev edits db op db' :
  apply_edits t cause ev edits db = Ok (op, db') →
  (ok op = false ∧ is_Some (refusal_code op) ∧ only_recorded db db') ∨
  (ok op = true ∧ ev = _current_version db t ∧
   let n := length (batch_edits edits) in
   (1 ≤ n ≤ MAX_PLAN_EDITS)%nat ∧ op_version op = Some (ev + Z.of_nat n) ∧
   advanced t db db' n).
Proof. apply apply_edits_cases. Qed.
