(* ===== verification/GraphRuns.v ===== *)
(** * Plan graph: attempts

    The run ledger operations of [factory/orchestration/graph.py]: the
    admission of one bounded attempt, its dispatch and session binding, and
    the outcome that settles it. *)

From Stdlib Require Import SpecFloat.
From stdpp Require Import prelude list strings pretty.
From S2P Require Import Prelude PyValue GraphData GraphAccounting GraphPlan GraphBatch.
Local Open Scope Z_scope.

(** What admission asks of its collaborators: the refill contract of a task,
    the evidence-continuation fence, and the prompt of a continuation. *)
Class DispatchHooks := {
  dispatch_schema : DB → string → string → res pyval;
  validate_dispatch : DB → string → NodeView → list (string * pyval) → res unit;
  continuation_prompt : Grant → res string;
}.

(** ** The execution context *)

Definition _CONTEXT_FIELDS : list string :=
  [ "repo"; "branch"; "workflow_id"; "artifact_path"; "artifact_schema";
    "hydration_branch"; "retry_context"; "task_deadline_at"; "effort";
    "closing_instruction"; "browser_evidence_review";
    "capture_evidence_ttl_seconds" ].
Definition REFILL_NODES : list string :=
  ["backlog_refill_collect_1"; "backlog_refill_review_1"].
Definition FUNDING_KEY : string := "x-factory-funding-decision".

Definition valid_dispatch_key (k : option string) : bool :=
  match k with
  | Some k => negb (bool_decide (py_strip k = ""%string)) && (String.length k <=? 256)%nat
  | None => true
  end.

(** The inspection source pins both branches of a refill context. *)
Definition refill_source_ok (context : list (string * pyval)) (source : pyval) : res bool :=
  if is_none source then Ok true else
  sha ← py_index "sha" source;
  match sha with
  | PStr sha =>
      let want := PStr ("commit:" +:+ sha) in
      Ok (py_eq (dict_get "branch" context) want &&
          py_eq (dict_get "hydration_branch" context) want)
  | _ => Raise TypeError
  end.

(** The fields a context may carry, or [None] when the read-only fence or the
    field fence refuses it. *)
Definition context_fields `{DispatchHooks} (db : DB) (task_id node_key : string)
    (context : pyval) : res (option (list string * list (string * pyval))) :=
  match context with
  | PDict c =>
      allowed ←
        (if has_key "read_only" c then
           if negb (str_in node_key REFILL_NODES) || negb (is_true (dict_get "read_only" c))
              || negb (is_dict (dict_get "artifact_schema" c))
           then Ok None else
           schema ← dispatch_schema db task_id node_key;
           if negb (py_eq (dict_get "artifact_schema" c) schema) then Ok None else
           let source := match dict_get "artifact_schema" c with
                         | PDict s => dict_get "x-factory-refill-inspection" s
                         | _ => PNone
                         end in
           pinned ← refill_source_ok c source;
           Ok (if pinned : bool then Some ("read_only" :: _CONTEXT_FIELDS) else None)
         else Ok (Some _CONTEXT_FIELDS));
      Ok match allowed with
         | Some fields =>
             if forallb (λ p : string * pyval, str_in p.1 fields) c && json_ok context
             then Some (fields, c) else None
         | None => None
         end
  | _ => Ok None
  end.

(** ** Admission *)

Record AdmitRequest := mkAdmit {
  aq_node_key : string;
  aq_dispatch_key : option string;
  aq_execution_context : pyval;
  aq_model : pyval;
  aq_escalation : option (list (string * pyval));
}.

Definition admit_context (q : AdmitRequest) : pyval :=
  if is_none (aq_execution_context q) then PDict [] else aq_execution_context q.

Definition stepped (q : AdmitRequest) : list (string * pyval) :=
  match aq_escalation q with
  | Some e => omap (λ field, let v := dict_get field e in
                             if truthy v then Some (field, v) else None)
                ["escalated_from"; "escalation_reason"]
  | None => []
  end.

Definition admit_args (q : AdmitRequest) : list (string * pyval) :=
  [ ("node_key", PStr (aq_node_key q)); ("dispatch_key", opt_str (aq_dispatch_key q));
    ("execution_context", admit_context q); ("model", aq_model q) ] ++
  match stepped q with [] => [] | s => [("escalation", PDict s)] end.

Definition admitted_op (version attempt : Z) (pin : list (string * pyval)) : GraphOp :=
  mkGraphOp true (Some version) None (Some (pretty attempt)) (Some attempt) (Some pin).

(** Replay: the pin of the run that already owns the dispatch key. *)
Definition replay_pin (node_key : string) (fields : list string)
    (context : list (string * pyval)) (existing : SwarmNodeRun)
    : option (list (string * pyval)) :=
  match nr_pin_json existing with
  | Some pin =>
      let pinned := filter (λ p : string * pyval, p.1 ∈ "read_only" :: fields) pin in
      if bool_decide (nr_node_key existing = node_key) && py_eq (PDict pinned) (PDict context)
      then Some pin else None
  | None => None
  end.

Definition as_int (v : pyval) : res Z :=
  match v with
  | PInt z => Ok z
  | PBool b => Ok (if b then 1 else 0)
  | _ => Raise TypeError
  end.

(** [evidence_continuation.attempt_limit]. *)
Definition attempt_limit (node : NodeView) : pyval :=
  match nv_evidence_continuation node with
  | Some grant =>
      if bool_decide (nv_node_key node = g_node_key grant)
      then PInt (g_attempt_limit grant) else nf_max_attempts (nv_fields node)
  | None => nf_max_attempts (nv_fields node)
  end.

(** [factory_funding_limits.dispatch_prompt]. *)
Definition dispatch_prompt `{FundingLedger} (db : DB) (task_id node_key prompt : string)
    : string :=
  match amendment db task_id with
  | Some grant =>
      if startswith "conductor_funding_" node_key then prompt
      else prompt +:+ NL +:+ "Funding judge direction for this allocation, "
        +:+ "within the original objective and review requirements:" +:+ NL
        +:+ am_next_plan grant
  | None => prompt
  end.

(** The first dependency that is not live with a succeeded attempt. *)
Definition unmet_dependency (live : list SwarmPlanNode) (runs : list SwarmNodeRun)
    (deps : list string) : option string :=
  find_first (λ d, negb (live_mem live d) ||
    negb (existsb (λ r, bool_decide (nr_node_key r = d) &&
                        bool_decide (nr_status r = "succeeded")) runs)) deps.

(** A verdict of the checks before the reservation. *)
Inductive admission :=
| Refused (code : string) (detail : option string)
| Admissible (node : SwarmPlanNode) (grant : option Grant) (limit : Z)
    (runs : list SwarmNodeRun).

(** The checks of a new attempt, in the order of the code. *)
Definition admit_check `{DispatchHooks} (db : DB) (task : SwarmTask)
    (task_id node_key : string) (context : list (string * pyval)) : res admission :=
  let version := _current_version db task_id in
  let all_runs := _runs db task_id in
  let live := _visible_nodes db task_id version in
  match live_get live node_key with
  | None => Ok (Refused "unknown_node" None)
  | Some node =>
  match _bounds_error (pn_effort node) (pn_max_cost_usd node) (pn_max_attempts node)
          (pn_turn_timeout_seconds node) with
  | Some error => Ok (Refused error None)
  | None =>
  if negb (_valid_cost false (st_budget_usd task))
  then Ok (Refused "invalid_task_budget" None) else
  let runs := filter (λ r, nr_node_key r = node_key) all_runs in
  if existsb (λ r, bool_decide (nr_status r = "succeeded")) runs
  then Ok (Refused "node_succeeded" None) else
  if existsb (λ r, negb (terminal (nr_status r))) runs
  then Ok (Refused "active_attempt" None) else
  projected ← live_item db task_id node_key;
  fence ←
    match nv_evidence_continuation projected with
    | Some grant =>
        match validate_dispatch db task_id projected context with
        | Ok _ => limit ← as_int (attempt_limit projected); Ok (inl limit)
        | Raise (ValueError msg) => Ok (inr msg)
        | Raise e => Raise e
        end
    | None => limit ← as_int (pn_max_attempts node); Ok (inl limit)
    end;
  match fence with
  | inr msg => Ok (Refused msg None)
  | inl limit =>
  if limit <=? _spent_attempts runs then Ok (Refused "attempts_exhausted" None) else
  deps ← _node_deps node;
  match unmet_dependency live all_runs deps with
  | Some dep => Ok (Refused "dependency_not_succeeded" (Some dep))
  | None => Ok (Admissible node (nv_evidence_continuation projected) limit runs)
  end
  end
  end
  end.

(** The prompt an attempt is pinned to. *)
Definition pin_prompt `{FundingLedger, DispatchHooks} (db : DB) (task_id node_key : string)
    (node : SwarmPlanNode) (grant : option Grant) : res string :=
  match grant with
  | Some g => if bool_decide (node_key = g_node_key g) then continuation_prompt g
              else Ok (dispatch_prompt db task_id node_key (pn_prompt node))
  | None => Ok (dispatch_prompt db task_id node_key (pn_prompt node))
  end.

(** The immutable pin of an attempt. *)
Definition make_pin (context : list (string * pyval)) (task_id : string)
    (node : SwarmPlanNode) (prompt : string) (attempt limit excused : Z) (model : pyval)
    (step : list (string * pyval)) : list (string * pyval) :=
  dict_update context
    ([ ("task_id", PStr task_id); ("node_key", PStr (pn_node_key node));
       ("attempt", PInt attempt); ("prompt", PStr prompt);
       ("model", if truthy model then model else pn_model node);
       ("max_cost_usd", pn_max_cost_usd node);
       ("max_attempts", PInt (limit + excused));
       ("turn_timeout_seconds", pn_turn_timeout_seconds node) ] ++ step).

Definition new_run (db : DB) (task_id node_key : string) (attempt : Z)
    (dispatch_key : option string) (pin : list (string * pyval)) (reservation : pyval)
    : SwarmNodeRun :=
  mkRun (next_id nr_id (db_runs db)) task_id node_key attempt dispatch_key (Some pin)
    (dict_get "model" pin) reservation None "admitted" PNone None None None (db_now db) None.

Definition row_set_armed (now : Z) (n : SwarmPlanNode) : SwarmPlanNode :=
  mkNode (pn_id n) (pn_task_id n) (pn_node_key n) (pn_kind n) (pn_prompt n)
    (pn_model n) (pn_effort n) (pn_deps_json n) (pn_max_cost_usd n)
    (pn_side_effects n) (pn_max_attempts n) (pn_turn_timeout_seconds n)
    (pn_created_in_version n) (pn_discarded_in_version n) (pn_cancelled_in_version n)
    (match pn_armed_at n with Some t => Some t | None => Some now end)
    (pn_base_artifact_sha n).

(** Insert the run and stamp the first arming of its node. *)
Definition write_attempt (task_id node_key : string) (run : SwarmNodeRun) (db : DB) : DB :=
  set_nodes (update_where (is_row task_id node_key) (row_set_armed (db_now db)))
    (set_runs (λ rs, rs ++ [run]) db).

(** [funding_profile.allowed] returns False while its provider route is off,
    so a context that names the funding decision is always refused. *)
Definition PROVIDER_ROUTE_AVAILABLE : bool := false.
Definition funding_schema (pin : list (string * pyval)) : pyval :=
  let s := dict_get "artifact_schema" pin in if truthy s then s else PDict [].

(** A fresh attempt: check, pin, reserve. *)
Definition admit_fresh `{FundingLedger, DispatchHooks} (task : SwarmTask)
    (task_id : string) (q : AdmitRequest) (context : list (string * pyval))
    : tx DB GraphOp := λ db,
  let args := admit_args q in
  let version := _current_version db task_id in
  let node_key := aq_node_key q in
  verdict ← admit_check db task task_id node_key context;
  match verdict with
  | Refused code detail => _refuse task "admit_dispatch" args version code detail db
  | Admissible node grant limit runs =>
      let attempt := max_key nr_attempt runs + 1 in
      let excused := Z.of_nat (length runs) - _spent_attempts runs in
      prompt ← pin_prompt db task_id node_key node grant;
      let pin := make_pin context task_id node prompt attempt limit excused
                   (aq_model q) (stepped q) in
      marked ← py_contains FUNDING_KEY (funding_schema pin);
      if (marked : bool) && negb PROVIDER_ROUTE_AVAILABLE
      then _refuse task "admit_dispatch" args version "invalid_funding_profile" None db
      else
        _ ← dumps (PDict pin);
        let run := new_run db task_id node_key attempt (aq_dispatch_key q) pin
                     (pn_max_cost_usd node) in
        _finish task "admit_dispatch" args version (admitted_op version attempt pin)
          (write_attempt task_id node_key run db)
  end.

Definition admit_dispatch `{FundingLedger, DispatchHooks} (task_id : string)
    (q : AdmitRequest) : tx DB GraphOp := λ db,
  task ← _lock_task db task_id;
  let args := admit_args q in
  let version := _current_version db task_id in
  let refuse code := _refuse task "admit_dispatch" args version code None db in
  if negb (valid_dispatch_key (aq_dispatch_key q)) then refuse "invalid_dispatch_key" else
  checked ← context_fields db task_id (aq_node_key q) (admit_context q);
  match checked with
  | None => refuse "invalid_execution_context"
  | Some (fields, context) =>
      match aq_dispatch_key q with
      | None => admit_fresh task task_id q context db
      | Some key =>
          match find_first (λ r, bool_decide (nr_dispatch_key r = Some key))
                  (_runs db task_id) with
          | None => admit_fresh task task_id q context db
          | Some existing =>
              match replay_pin (aq_node_key q) fields context existing with
              | None => refuse "dispatch_key_conflict"
              | Some pin =>
                  _finish task "admit_dispatch" args version
                    (admitted_op version (nr_attempt existing) pin) db
              end
          end
      end
  end.

(** ** Dispatch and session binding *)

Definition is_run (task_id node_key : string) (attempt : Z) (r : SwarmNodeRun) : bool :=
  bool_decide (nr_task_id r = task_id) && bool_decide (nr_node_key r = node_key) &&
  (nr_attempt r =? attempt).

Definition _get_run (db : DB) (task_id node_key : string) (attempt : Z)
    : res SwarmNodeRun :=
  match find_first (is_run task_id node_key attempt) (db_runs db) with
  | Some run => Ok run
  | None => Raise (ValueError ("Unknown swarm node run " +:+ task_id +:+ "/"
                               +:+ node_key +:+ "/" +:+ pretty attempt))
  end.

Definition run_set_dispatch (status : string) (session_id : option Z)
    (base_sha : option string) (r : SwarmNodeRun) : SwarmNodeRun :=
  mkRun (nr_id r) (nr_task_id r) (nr_node_key r) (nr_attempt r) (nr_dispatch_key r)
    (nr_pin_json r) (nr_model r) (nr_reserved_cost_usd r) session_id status
    (nr_cost_usd r) base_sha (nr_head_sha r) (nr_outcome_json r) (nr_created_at r)
    (nr_finished_at r).

Definition run_op (version attempt : Z) : GraphOp :=
  mkGraphOp true (Some version) None None (Some attempt) None.

(** The run after the dispatch evidence, or the refusal. *)
Definition dispatch_evidence (run : SwarmNodeRun) (session_id : pyval)
    (base_sha : option string) : SwarmNodeRun + string :=
  match session_id with
  | PInt sid =>
      if sid <=? 0 then inr "invalid_session_id" else
      if match nr_session_id run with Some s => negb (s =? sid) | None => false end
      then inr "dispatch_conflict" else
      if match base_sha, nr_base_sha run with
         | Some new, Some old => negb (bool_decide (old = new))
         | _, _ => false
         end
      then inr "dispatch_conflict" else
      let base := match nr_base_sha run with Some old => Some old | None => base_sha end in
      match nr_session_id run with
      | Some s => inl (run_set_dispatch (nr_status run) (Some s) base run)
      | None =>
          if negb (str_in (nr_status run) ["admitted"; "uncertain"])
          then inr "dispatch_conflict"
          else inl (run_set_dispatch
                      (if bool_decide (nr_status run = "admitted") then "dispatched"
                       else nr_status run) (Some sid) base run)
      end
  | _ => inr "invalid_session_id"
  end.

Definition record_dispatch (task_id node_key : string) (attempt : Z)
    (session_id : pyval) (base_sha : option string) : tx DB GraphOp := λ db,
  let args := [ ("node_key", PStr node_key); ("attempt", PInt attempt);
                ("session_id", session_id); ("base_sha", opt_str base_sha) ] in
  task ← _lock_task db task_id;
  let version := _current_version db task_id in
  run ← _get_run db task_id node_key attempt;
  match dispatch_evidence run session_id base_sha with
  | inr code => _refuse task "record_dispatch" args version code None db
  | inl run' =>
      _finish task "record_dispatch" args version (run_op version attempt)
        (set_runs (update_where (is_run task_id node_key attempt) (λ _, run')) db)
  end.

Definition lock_node_session_binding (db : DB) (task_id node_key : string)
    (attempt : Z) (workflow_id : string) : res (option Z) :=
  _ ← _lock_task db task_id;
  run ← _get_run db task_id node_key attempt;
  if negb (bool_decide (nr_dispatch_key run = Some workflow_id))
  then Raise (ValueError "node session binding ownership conflict") else
  match nr_session_id run with
  | Some s => Ok (Some s)
  | None =>
      if negb (str_in (nr_status run) ["admitted"; "uncertain"])
      then Raise (ValueError "node session binding conflict") else Ok None
  end.

Definition bind_node_session (task_id node_key : string) (attempt : Z)
    (session_id : pyval) (workflow_id : string) : tx DB GraphOp := λ db,
  _ ← lock_node_session_binding db task_id node_key attempt workflow_id;
  record_dispatch task_id node_key attempt session_id None db.

(** ** Outcome *)

Record Evidence := mkEvidence {
  ev_status : string;
  ev_cost_usd : pyval;
  ev_head_sha : option string;
  ev_outcome_json : option jtext;
}.

Definition run_set_outcome (e : Evidence) (now : Z) (r : SwarmNodeRun) : SwarmNodeRun :=
  mkRun (nr_id r) (nr_task_id r) (nr_node_key r) (nr_attempt r) (nr_dispatch_key r)
    (nr_pin_json r) (nr_model r) (nr_reserved_cost_usd r) (nr_session_id r)
    (ev_status e) (ev_cost_usd e) (nr_base_sha r) (ev_head_sha e) (ev_outcome_json e)
    (nr_created_at r) (if terminal (ev_status e) then Some now else None).

Definition text_of (t : option jtext) : pyval :=
  match t with Some t => PStr (jt_text t) | None => PNone end.

(** [previous == evidence] on the two tuples. *)
Definition same_evidence (run : SwarmNodeRun) (e : Evidence) : bool :=
  bool_decide (nr_status run = ev_status e) && py_eq (nr_cost_usd run) (ev_cost_usd e) &&
  bool_decide (nr_head_sha run = ev_head_sha e) &&
  py_eq (text_of (nr_outcome_json run)) (text_of (ev_outcome_json e)).

Definition priced (run : SwarmNodeRun) (e : Evidence) : bool :=
  bool_decide (nr_status run = "uncertain") && bool_decide (ev_status e = "uncertain") &&
  is_none (nr_cost_usd run) && negb (is_none (ev_cost_usd e)).

Definition outcome_conflict (run : SwarmNodeRun) (e : Evidence) : bool :=
  negb (priced run e) &&
  (terminal (nr_status run) ||
   (bool_decide (nr_status run = "uncertain") && bool_decide (ev_status e = "uncertain"))).

Definition record_outcome (task_id node_key : string) (attempt : Z) (e : Evidence)
    : tx DB GraphOp := λ db,
  let args := [ ("node_key", PStr node_key); ("attempt", PInt attempt);
                ("status", PStr (ev_status e)); ("cost_usd", ev_cost_usd e);
                ("head_sha", opt_str (ev_head_sha e));
                ("outcome_json", text_of (ev_outcome_json e)) ] in
  task ← _lock_task db task_id;
  let version := _current_version db task_id in
  if negb (str_in (ev_status e) (TERMINAL_RUN_STATUSES ++ ["uncertain"]))
  then Raise (ValueError ("Invalid swarm node run outcome status " +:+ ev_status e)) else
  if negb (is_none (ev_cost_usd e)) && negb (_valid_cost true (ev_cost_usd e))
  then _refuse task "record_outcome" args version "invalid_cost" None db else
  run ← _get_run db task_id node_key attempt;
  let finish := _finish task "record_outcome" args version (run_op version attempt) in
  if same_evidence run e then finish db else
  if outcome_conflict run e
  then _refuse task "record_outcome" args version "outcome_conflict" None db else
  if negb (str_in (nr_status run) ["admitted"; "dispatched"; "uncertain"])
  then Raise (ValueError ("Cannot finish swarm node run in status " +:+ nr_status run)) else
  finish (set_runs (update_where (is_run task_id node_key attempt)
                      (run_set_outcome e (db_now db))) db).

(** ** What the node workflow accepts (node_workflows._validate_pin) *)

Definition MAX_PIN_ATTEMPTS : Z := MAX_ATTEMPTS + Z.of_nat MAX_CAPACITY_DENIED_ATTEMPTS.
Definition MAX_PIN_TIMEOUT_SECONDS : Z := 43200.

Definition pin_error (key what : string) : exn :=
  ValueError ("pin['" +:+ key +:+ "'] " +:+ what).

(** The numeric fences of a pin, in the order of the code. *)
Definition validate_pin_bounds (pin : list (string * pyval)) : res unit :=
  attempt ← match dict_get "attempt" pin with
            | PInt a => if a <? 1 then Raise (pin_error "attempt" "must be a positive int")
                        else Ok a
            | _ => Raise (pin_error "attempt" "must be a positive int")
            end;
  let max_cost := dict_get "max_cost_usd" pin in
  let bad_cost := Raise (pin_error "max_cost_usd" "must be a finite positive number") in
  _ ← match max_cost with
      | PInt _ | PFloat _ =>
          finite ← math_isfinite max_cost;
          if (finite : bool) && match xnum_of max_cost with
                                | Some x => xlt (XFin 0 0) x
                                | None => false
                                end
          then Ok tt else bad_cost
      | _ => bad_cost
      end;
  let bad_attempts := Raise (pin_error "max_attempts" "must be an int from 1 to 13") in
  max_attempts ← match dict_get "max_attempts" pin with
                 | PInt m => if (1 <=? m) && (m <=? MAX_PIN_ATTEMPTS) then Ok m
                             else bad_attempts
                 | _ => bad_attempts
                 end;
  _ ← (if max_attempts <? attempt then Raise (pin_error "attempt" "exceeds max_attempts")
       else Ok tt);
  let bad_timeout :=
    Raise (pin_error "turn_timeout_seconds" "must be an int from 1 to 43200") in
  match dict_get "turn_timeout_seconds" pin with
  | PInt t => if (1 <=? t) && (t <=? MAX_PIN_TIMEOUT_SECONDS) then Ok tt else bad_timeout
  | _ => bad_timeout
  end.
