(* ===== verification/GraphLedger.v ===== *)
(** * Plan graph: the run ledger invariant

    The life of an attempt as a step relation on its status, the shape of the
    attempts of one node, and what an accepted admission has checked. *)

From Stdlib Require Import SpecFloat.
From stdpp Require Import prelude list strings pretty relations.
From S2P Require Import Prelude PyValue Worklist GraphData GraphAccounting GraphPlan GraphInvariant GraphBatch GraphOrder GraphRuns.
Local Open Scope Z_scope.

(** ** Slices of the ledger *)

Definition runs_of (db : DB) (t : string) : list SwarmNodeRun :=
  filter (λ r, nr_task_id r = t) (db_runs db).
Definition runs_at (db : DB) (t k : string) : list SwarmNodeRun :=
  filter (λ r, nr_task_id r = t ∧ nr_node_key r = k) (db_runs db).
Definition live_nodes (db : DB) (t : string) : list SwarmPlanNode :=
  _visible_nodes db t (_current_version db t).

Lemma elem_of_runs_at db t k r :
  r ∈ runs_at db t k ↔ r ∈ db_runs db ∧ nr_task_id r = t ∧ nr_node_key r = k.
Proof. unfold runs_at. rewrite list_elem_of_filter. tauto. Qed.

Lemma runs_at_perm db t k :
  filter (λ r, nr_node_key r = k) (_runs db t) ≡ₚ runs_at db t k.
Proof.
  unfold _runs, runs_at. rewrite py_sorted_perm, list_filter_filter.
  rewrite (list_filter_iff _ (λ r, nr_task_id r = t ∧ nr_node_key r = k)); [done|].
  intros r. tauto.
Qed.

Lemma max_key_perm {A} (f : A → Z) (l l' : list A) : l ≡ₚ l' → max_key f l = max_key f l'.
Proof. induction 1; simpl; lia. Qed.

Lemma count_true_perm {A} (p : A → bool) (l l' : list A) :
  l ≡ₚ l' → count_true p l = count_true p l'.
Proof. unfold count_true. by intros ->. Qed.

Lemma spent_attempts_perm l l' : l ≡ₚ l' → _spent_attempts l = _spent_attempts l'.
Proof.
  intros Hp. unfold _spent_attempts.
  by rewrite (count_true_perm _ _ _ Hp), (Permutation_length Hp).
Qed.

Lemma spent_attempts_bounds l :
  0 ≤ _spent_attempts l ≤ Z.of_nat (length l) ∧
  Z.of_nat (length l) - _spent_attempts l ≤ Z.of_nat MAX_CAPACITY_DENIED_ATTEMPTS.
Proof. unfold _spent_attempts. pose proof (count_true_le _capacity_denied l). lia. Qed.

(** ** The life of an attempt *)

Definition ACTIVE_STATUSES : list string := ["admitted"; "dispatched"; "uncertain"].

(** One step of a run's status: dispatch, or an outcome of an active run. *)
Inductive status_step : string → string → Prop :=
| status_same s : status_step s s
| status_dispatch : status_step "admitted" "dispatched"
| status_outcome s s' :
    s ∈ ACTIVE_STATUSES → s' ∈ TERMINAL_RUN_STATUSES ++ ["uncertain"] → status_step s s'.

Definition known_status (s : string) : Prop :=
  s ∈ ACTIVE_STATUSES ∨ s ∈ TERMINAL_RUN_STATUSES.

(** A finished attempt that did not succeed: another may follow it. *)
Definition retired (r : SwarmNodeRun) : Prop :=
  terminal (nr_status r) = true ∧ nr_status r ≠ "succeeded".

(** What a row update of the ledger may do to a run: identity, pin and
    reservation stay, and a settled outcome stays. *)
Record run_step (r r' : SwarmNodeRun) : Prop := {
  rs_id : nr_id r' = nr_id r;
  rs_task : nr_task_id r' = nr_task_id r;
  rs_node : nr_node_key r' = nr_node_key r;
  rs_attempt : nr_attempt r' = nr_attempt r;
  rs_dispatch : nr_dispatch_key r' = nr_dispatch_key r;
  rs_pin : nr_pin_json r' = nr_pin_json r;
  rs_reserved : nr_reserved_cost_usd r' = nr_reserved_cost_usd r;
  rs_session : is_Some (nr_session_id r) → nr_session_id r' = nr_session_id r;
  rs_base : is_Some (nr_base_sha r) → nr_base_sha r' = nr_base_sha r;
  rs_status : status_step (nr_status r) (nr_status r');
  rs_settled : terminal (nr_status r) = true →
    nr_cost_usd r' = nr_cost_usd r ∧ nr_head_sha r' = nr_head_sha r ∧
    nr_outcome_json r' = nr_outcome_json r ∧ nr_finished_at r' = nr_finished_at r;
}.

Lemma terminal_not_active s : s ∈ ACTIVE_STATUSES → terminal s = false.
Proof.
  unfold ACTIVE_STATUSES. rewrite !elem_of_cons, elem_of_nil.
  intros [->|[->|[->|[]]]]; reflexivity.
Qed.

Lemma status_step_terminal s s' : status_step s s' → terminal s = true → s' = s.
Proof.
  intros [| |? ? Ha _] Ht; [done|done|]. by rewrite terminal_not_active in Ht.
Qed.

Lemma status_step_known s s' : status_step s s' → known_status s → known_status s'.
Proof.
  unfold known_status. intros [| |? ? _ Ho]; [done| |].
  - intros _. left. decide_in.
  - intros _. apply elem_of_app in Ho as [?|Hu]; [by right|].
    apply list_elem_of_singleton in Hu as ->. left. decide_in.
Qed.

Lemma run_step_refl r : run_step r r.
Proof. split; try done. constructor. Qed.

Lemma run_step_terminal r r' :
  run_step r r' → terminal (nr_status r) = true → nr_status r' = nr_status r.
Proof. intros [] ?. by apply status_step_terminal. Qed.

Lemma run_step_trans r1 r2 r3 :
  terminal (nr_status r1) = true → run_step r1 r2 → run_step r2 r3 → run_step r1 r3.
Proof.
  intros Ht H12 H23. pose proof (run_step_terminal _ _ H12 Ht) as Hs2.
  assert (terminal (nr_status r2) = true) as Ht2 by by rewrite Hs2.
  pose proof (run_step_terminal _ _ H23 Ht2) as Hs3.
  destruct H12 as [a1 a2 a3 a4 a5 a6 a7 a8 a9 a10 a11],
           H23 as [b1 b2 b3 b4 b5 b6 b7 b8 b9 b10 b11].
  destruct (a11 Ht) as (?&?&?&?), (b11 Ht2) as (?&?&?&?).
  split; [congruence..| | | |].
  - intros Hi. specialize (a8 Hi). rewrite b8; [done|]. by rewrite a8.
  - intros Hi. specialize (a9 Hi). rewrite b9; [done|]. by rewrite a9.
  - rewrite Hs3, Hs2. constructor.
  - intros _. repeat split; congruence.
Qed.

(** ** The attempts of one node *)

(** Attempts are numbered from 1 without gaps; every one but the last is
    retired. *)
Inductive node_ledger : list SwarmNodeRun → Prop :=
| node_ledger_nil : node_ledger []
| node_ledger_snoc l r :
    node_ledger l → Forall retired l →
    nr_attempt r = Z.of_nat (length l) + 1 → known_status (nr_status r) →
    node_ledger (l ++ [r]).

Lemma node_ledger_attempts l :
  node_ledger l → nr_attempt <$> l = (λ i, Z.of_nat i + 1) <$> seq 0 (length l).
Proof.
  induction 1 as [|l r _ IH _ Ha _]; [done|].
  rewrite length_app, Nat.add_1_r, seq_S, !fmap_app, IH. simpl. by rewrite Ha.
Qed.

Lemma node_ledger_max l : node_ledger l → max_key nr_attempt l = Z.of_nat (length l).
Proof.
  induction 1 as [|l r _ IH _ Ha _]; [done|].
  rewrite max_key_app, IH, length_app. simpl. lia.
Qed.

Lemma node_ledger_unique l r r' :
  node_ledger l → r ∈ l → r' ∈ l → nr_attempt r = nr_attempt r' → r = r'.
Proof.
  intros Hl. apply NoDup_fmap_elem. rewrite node_ledger_attempts by done.
  apply NoDup_fmap; [intros ???; lia|]. apply NoDup_seq.
Qed.

(** At most one attempt is active or succeeded, and it is the last. *)
Lemma node_ledger_last l r :
  node_ledger l → r ∈ l → ¬ retired r → last l = Some r.
Proof.
  destruct 1 as [|l x _ Hret _ _]; [intros []%elem_of_nil|].
  intros [Hr| ->%list_elem_of_singleton]%elem_of_app Hn.
  - rewrite Forall_forall in Hret. by destruct Hn; apply Hret.
  - by rewrite last_snoc.
Qed.

Lemma run_step_retired r r' : run_step r r' → retired r → retired r'.
Proof. intros Hs [Ht Hn]. unfold retired. by rewrite (run_step_terminal _ _ Hs Ht). Qed.

Lemma run_step_unretired r r' : run_step r r' → ¬ retired r' → ¬ retired r.
Proof. intros Hs Hn Hr. by apply Hn, (run_step_retired r). Qed.

Lemma node_ledger_update l g :
  (∀ r, r ∈ l → run_step r (g r)) → node_ledger l → node_ledger (g <$> l).
Proof.
  intros Hg Hl. induction Hl as [|l r Hl IH Hret Ha Hk]; [constructor|].
  rewrite fmap_app. assert (run_step r (g r)) as Hr.
  { apply Hg. apply elem_of_app. right. constructor. }
  constructor.
  - apply IH. intros x Hx. apply Hg. apply elem_of_app. by left.
  - rewrite Forall_fmap. rewrite Forall_forall in *. intros x Hx.
    apply (run_step_retired x); [|by apply Hret]. apply Hg. apply elem_of_app. by left.
  - rewrite length_fmap. by destruct Hr as [_ _ _ -> _ _ _ _ _ _ _].
  - eapply status_step_known; [apply Hr|done].
Qed.

Lemma known_not_retired s :
  known_status s → terminal s = false → s ∈ ACTIVE_STATUSES.
Proof.
  intros [?|Ht] Hf; [done|]. unfold terminal, str_in in Hf.
  by rewrite bool_decide_eq_true_2 in Hf.
Qed.

Lemma node_ledger_known l r : node_ledger l → r ∈ l → known_status (nr_status r).
Proof.
  induction 1 as [|l x _ IH _ _ Hk]; [intros []%elem_of_nil|].
  intros [?| ->%list_elem_of_singleton]%elem_of_app; auto.
Qed.

(** ** Admission *)

(** What admission has checked of a new attempt. *)
Record admissible (db : DB) (task : SwarmTask) (t k : string)
    (node : SwarmPlanNode) (grant : option Grant) (limit : Z) : Prop := {
  ad_live : live_get (live_nodes db t) k = Some node;
  ad_bounds : _bounds_error (pn_effort node) (pn_max_cost_usd node)
                (pn_max_attempts node) (pn_turn_timeout_seconds node) = None;
  ad_budget : _valid_cost false (st_budget_usd task) = true;
  ad_retired : Forall retired (runs_at db t k);
  ad_limit : _spent_attempts (runs_at db t k) < limit;
  ad_bound : grant = None → pn_max_attempts node = PInt limit;
  ad_grant : ∃ item, live_item db t k = Ok item ∧ grant = nv_evidence_continuation item;
  ad_deps : ∃ deps, decode_deps (pn_deps_json node) = Some deps ∧
    ∀ d, d ∈ deps → d ∈ pn_node_key <$> live_nodes db t ∧
      ∃ r, r ∈ runs_at db t d ∧ nr_status r = "succeeded";
}.

Lemma unmet_dependency_none db t deps :
  unmet_dependency (live_nodes db t) (_runs db t) deps = None →
  ∀ d, d ∈ deps → d ∈ pn_node_key <$> live_nodes db t ∧
    ∃ r, r ∈ runs_at db t d ∧ nr_status r = "succeeded".
Proof.
  unfold unmet_dependency. rewrite find_first_None. intros H d Hd.
  specialize (H d Hd). apply orb_false_iff in H as [Hl Hr].
  apply negb_false_iff in Hl, Hr. split; [by apply live_mem_spec|].
  apply existsb_exists in Hr as (r & Hr%list_elem_of_In & [Hk Hs]%andb_true_iff).
  apply bool_decide_eq_true in Hk, Hs. apply elem_of_runs in Hr as [Hr Ht].
  exists r. by rewrite elem_of_runs_at.
Qed.

Lemma bounds_attempts_int effort cost attempts timeout :
  _bounds_error effort cost attempts timeout = None →
  _valid_cost false cost = true ∧
  (∃ a, attempts = PInt a ∧ 1 ≤ a ≤ MAX_ATTEMPTS) ∧
  (∃ s, timeout = PInt s ∧ 1 ≤ s ≤ MAX_TURN_TIMEOUT_SECONDS).
Proof.
  unfold _bounds_error. destruct (_ && _); [done|].
  destruct (_valid_cost false cost); [|done]. simpl.
  destruct (_valid_bound attempts _) eqn:Ha; [|done]. simpl.
  destruct (_valid_bound timeout _) eqn:Ht; [|done]. intros _.
  unfold _valid_bound in *. split; [done|].
  destruct attempts as [| |a| | | | |]; try done. destruct timeout as [| |s| | | | |]; try done.
  rewrite andb_true_iff, Z.ltb_lt, Z.leb_le in Ha, Ht.
  split; [exists a|exists s]; (split; [done|lia]).
Qed.

Lemma existsb_perm_false {A} (p : A → bool) (l l' : list A) :
  l ≡ₚ l' → existsb p l = false → ∀ x, x ∈ l' → p x = false.
Proof. intros Hp H x Hx. rewrite existsb_false in H. apply H. by rewrite Hp. Qed.

Lemma admit_check_admissible `{DispatchHooks} db task t k ctx node grant limit runs :
  admit_check db task t k ctx = Ok (Admissible node grant limit runs) →
  admissible db task t k node grant limit ∧ runs ≡ₚ runs_at db t k.
Proof.
  unfold admit_check. fold (live_nodes db t).
  destruct (live_get (live_nodes db t) k) as [n|] eqn:Hl; [|done].
  destruct (_bounds_error _ _ _ _) eqn:Hb; [done|].
  destruct (_valid_cost false (st_budget_usd task)) eqn:Hv; [|done]. simpl.
  set (rs := filter _ (_runs db t)). assert (rs ≡ₚ runs_at db t k) as Hp by apply runs_at_perm.
  destruct (existsb _ rs) eqn:Hs; [done|].
  destruct (existsb (λ r, negb _) rs) eqn:Ha; [done|].
  destruct (live_item db t k) as [item|] eqn:Hi; simpl; [|done].
  intros ([lim|msg] & Hf & Hr)%res_bind_ok; [|done]. revert Hr.
  destruct (lim <=? _spent_attempts rs) eqn:Hlim; [done|].
  unfold _node_deps. destruct (decode_deps (pn_deps_json n)) as [deps|] eqn:Hd; simpl; [|done].
  destruct (unmet_dependency _ _ _) eqn:Hu; [done|]. intros [= -> <- <- <-].
  split; [|done]. split; try done.
  - rewrite Forall_forall. intros r Hr. split.
    + eapply existsb_perm_false in Ha; [|exact Hp|exact Hr]. by apply negb_false_iff in Ha.
    + eapply existsb_perm_false in Hs; [|exact Hp|exact Hr]. by apply bool_decide_eq_false in Hs.
  - rewrite <-(spent_attempts_perm _ _ Hp). apply Z.leb_gt in Hlim. lia.
  - intros Hg. rewrite Hg in Hf. apply bounds_attempts_int in Hb as (_ & (a & Ha' & _) & _).
    rewrite Ha' in Hf |- *. simpl in Hf. by injection Hf as ->.
  - by exists item.
  - exists deps. split; [done|]. by apply unmet_dependency_none.
Qed.

(** The three ways an admission returns. *)
Inductive admit_result `{FundingLedger, DispatchHooks} (t : string) (q : AdmitRequest)
    (db : DB) : GraphOp → DB → Prop :=
| admit_refused op db' :
    ok op = false → is_Some (refusal_code op) → only_recorded db db' →
    admit_result t q db op db'
| admit_replayed r key fields ctx pin db' :
    valid_dispatch_key (Some key) = true →
    context_fields db t (aq_node_key q) (admit_context q) = Ok (Some (fields, ctx)) →
    aq_dispatch_key q = Some key → r ∈ runs_of db t → nr_dispatch_key r = Some key →
    replay_pin (aq_node_key q) fields ctx r = Some pin → only_recorded db db' →
    admit_result t q db (admitted_op (_current_version db t) (nr_attempt r) pin) db'
| admit_reserved task node grant limit prompt fields ctx call :
    let k := aq_node_key q in
    let attempt := max_key nr_attempt (runs_at db t k) + 1 in
    let excused := Z.of_nat (length (runs_at db t k)) - _spent_attempts (runs_at db t k) in
    let pin := make_pin ctx t node prompt attempt limit excused (aq_model q) (stepped q) in
    valid_dispatch_key (aq_dispatch_key q) = true →
    context_fields db t k (admit_context q) = Ok (Some (fields, ctx)) →
    admissible db task t k node grant limit →
    (∀ key, aq_dispatch_key q = Some key → ∀ r, r ∈ runs_of db t → nr_dispatch_key r ≠ Some key) →
    pin_prompt db t k node grant = Ok prompt →
    admit_result t q db (admitted_op (_current_version db t) attempt pin)
      (set_calls (λ cs, cs ++ [call])
         (write_attempt t k (new_run db t k attempt (aq_dispatch_key q) pin
                               (pn_max_cost_usd node)) db)).

Lemma refuse_result `{FundingLedger, DispatchHooks} task t q code detail db op db' :
  _refuse task "admit_dispatch" (admit_args q) (_current_version db t) code detail db
    = Ok (op, db') → admit_result t q db op db'.
Proof.
  unfold _refuse. edestruct finish_ok as (call & _ & _ & _ & _ & ->).
  intros [= <- <-]. apply admit_refused; [done|by eexists|by exists call].
Qed.

Lemma admit_fresh_result `{FundingLedger, DispatchHooks} task t q fields ctx db op db' :
  admit_fresh task t q ctx db = Ok (op, db') →
  valid_dispatch_key (aq_dispatch_key q) = true →
  context_fields db t (aq_node_key q) (admit_context q) = Ok (Some (fields, ctx)) →
  (∀ key, aq_dispatch_key q = Some key → ∀ r, r ∈ runs_of db t → nr_dispatch_key r ≠ Some key) →
  admit_result t q db op db'.
Proof.
  intros Hf Hval Hctx Hkey. unfold admit_fresh in Hf.
  destruct (admit_check _ _ _ _ _) as [[code detail|node grant limit runs]|] eqn:Hc;
    simpl in Hf; [by eapply refuse_result| |done].
  apply admit_check_admissible in Hc as [Had Hp].
  destruct (pin_prompt _ _ _ _ _) as [prompt|] eqn:Hpr; simpl in Hf; [|done].
  rewrite (max_key_perm _ _ _ Hp), (spent_attempts_perm _ _ Hp), (Permutation_length Hp) in Hf.
  destruct (py_contains _ _) as [marked|]; simpl in Hf; [|done].
  destruct (marked && _); [by eapply refuse_result|].
  destruct (dumps _) as [?|]; simpl in Hf; [|done].
  edestruct finish_ok as (call & _ & _ & _ & _ & Hr). rewrite Hr in Hf.
  injection Hf as <- <-. by eapply admit_reserved.
Qed.

Lemma admit_dispatch_result `{FundingLedger, DispatchHooks} t q db op db' :
  admit_dispatch t q db = Ok (op, db') → admit_result t q db op db'.
Proof.
  unfold admit_dispatch. destruct (_lock_task db t) as [task|]; simpl; [|done].
  destruct (valid_dispatch_key _) eqn:Hval; simpl; [|apply refuse_result].
  destruct (context_fields _ _ _ _) as [[[fields ctx]|]|] eqn:Hctx; simpl;
    [|apply refuse_result|done].
  destruct (aq_dispatch_key q) as [key|] eqn:Hq.
  2: { intros Hf. eapply admit_fresh_result; rewrite ?Hq; done. }
  destruct (find_first _ _) as [r|] eqn:Hr.
  2: { intros Hf. eapply admit_fresh_result; rewrite ?Hq; [done..|].
       intros key' [= <-] r Hin. rewrite find_first_None in Hr.
       apply list_elem_of_filter in Hin as [??]. specialize (Hr r).
       rewrite elem_of_runs, bool_decide_eq_false in Hr. auto. }
  apply find_first_Some in Hr as [Hr Hk%bool_decide_eq_true].
  destruct (replay_pin _ _ _ r) as [pin|] eqn:Hp; [|apply refuse_result].
  edestruct finish_ok as (call & _ & _ & _ & _ & ->). intros [= <- <-].
  eapply admit_replayed; [done..| |done|done|by exists call].
  apply list_elem_of_filter. by apply elem_of_runs in Hr as [??].
Qed.

(** ** Dispatch and outcome *)

(** A write to the ledger that steps runs and changes nothing else of the plan. *)
Definition run_update (db db' : DB) : Prop :=
  db_versions db' = db_versions db ∧ db_nodes db' = db_nodes db ∧
  ∃ g, (∀ r, r ∈ db_runs db → run_step r (g r)) ∧ db_runs db' = g <$> db_runs db.

Lemma run_update_recorded db db' : only_recorded db db' → run_update db db'.
Proof.
  intros [call ->]. split; [done|]. split; [done|]. exists id.
  split; [intros; apply run_step_refl|]. by rewrite list_fmap_id.
Qed.

Lemma is_run_spec t k a r :
  is_run t k a r = true ↔ nr_task_id r = t ∧ nr_node_key r = k ∧ nr_attempt r = a.
Proof. unfold is_run. rewrite !andb_true_iff, !bool_decide_eq_true, Z.eqb_eq. tauto. Qed.

Lemma get_run_elem db t k a r :
  _get_run db t k a = Ok r → r ∈ runs_at db t k ∧ nr_attempt r = a.
Proof.
  unfold _get_run. case_match eqn:E; [|done]. intros [= <-].
  apply find_first_Some in E as [Hr (?&?&?)%is_run_spec]. by rewrite elem_of_runs_at.
Qed.

(** What the dispatch and outcome operations do: record the call, and step at
    most the run they name. *)
Inductive run_written (t k : string) (a : Z) (db : DB) : DB → Prop :=
| written_none db' : only_recorded db db' → run_written t k a db db'
| written_run r f call :
    _get_run db t k a = Ok r → run_step r (f r) →
    run_written t k a db
      (set_calls (λ cs, cs ++ [call]) (set_runs (update_where (is_run t k a) f) db)).

Lemma run_update_one db t k a r f :
  node_ledger (runs_at db t k) → _get_run db t k a = Ok r → run_step r (f r) →
  ∀ x, x ∈ db_runs db → run_step x (if is_run t k a x then f x else x).
Proof.
  intros Hl Hr Hs x Hx. destruct (is_run t k a x) eqn:E; [|apply run_step_refl].
  apply get_run_elem in Hr as [Hr Ha]. apply is_run_spec in E as (?&?&?).
  assert (x = r) as ->; [|done].
  apply (node_ledger_unique (runs_at db t k)); [done|by apply elem_of_runs_at|done|congruence].
Qed.

Lemma run_written_update t k a db db' :
  node_ledger (runs_at db t k) → run_written t k a db db' → run_update db db'.
Proof.
  intros Hl [? Hrec|r f call Hr Hs]; [by apply run_update_recorded|].
  split; [done|]. split; [done|]. eexists. split; [by eapply run_update_one|done].
Qed.

Lemma dispatch_evidence_step r sid base r' :
  dispatch_evidence r sid base = inl r' → run_step r r'.
Proof.
  unfold dispatch_evidence. destruct sid as [| |s| | | | |]; try done.
  destruct (s <=? 0); [done|].
  destruct (match nr_session_id r with Some _ => _ | None => _ end); [done|].
  destruct (match base with Some _ => _ | None => _ end); [done|].
  destruct (nr_session_id r) as [s'|] eqn:Hs.
  - intros [= <-]. split; simpl; try done; [|constructor].
    by intros [? ->].
  - destruct (str_in _ _) eqn:Hst; [|done]. simpl. intros [= <-].
    apply bool_decide_eq_true in Hst. split; simpl; try done.
    + rewrite Hs. by intros [].
    + by intros [? ->].
    + case_bool_decide as Ha; [rewrite Ha; constructor|constructor].
Qed.

Lemma record_dispatch_written t k a sid base db op db' :
  record_dispatch t k a sid base db = Ok (op, db') → run_written t k a db db'.
Proof.
  unfold record_dispatch. destruct (_lock_task db t) as [task|]; simpl; [|done].
  destruct (_get_run db t k a) as [r|] eqn:Hr; simpl; [|done].
  destruct (dispatch_evidence r sid base) as [r'|code] eqn:He.
  - edestruct finish_ok as (call & _ & _ & _ & _ & ->). intros [= <- <-].
    apply (written_run t k a db r (λ _, r')); [done|]. by eapply dispatch_evidence_step.
  - unfold _refuse. edestruct finish_ok as (call & _ & _ & _ & _ & ->).
    intros [= <- <-]. apply written_none. by exists call.
Qed.

Lemma bind_node_session_written t k a sid wid db op db' :
  bind_node_session t k a sid wid db = Ok (op, db') → run_written t k a db db'.
Proof.
  unfold bind_node_session. destruct (lock_node_session_binding _ _ _ _ _); simpl; [|done].
  apply record_dispatch_written.
Qed.

Lemma run_set_outcome_step r e now :
  str_in (ev_status e) (TERMINAL_RUN_STATUSES ++ ["uncertain"]) = true →
  str_in (nr_status r) ACTIVE_STATUSES = true → run_step r (run_set_outcome e now r).
Proof.
  intros He%bool_decide_eq_true Hr%bool_decide_eq_true.
  split; simpl; try done; [by constructor|].
  by rewrite terminal_not_active.
Qed.

Lemma record_outcome_written t k a e db op db' :
  record_outcome t k a e db = Ok (op, db') → run_written t k a db db'.
Proof.
  unfold record_outcome. destruct (_lock_task db t) as [task|]; simpl; [|done].
  destruct (str_in (ev_status e) _) eqn:He; [|done]. simpl. intros Hd.
  assert (∀ args r db', _finish task "record_outcome" args (_current_version db t) r db
    = Ok (op, db') → run_written t k a db db') as Hrec.
  { intros args r d. edestruct finish_ok as (call & _ & _ & _ & _ & ->).
    intros [= <- <-]. apply written_none. by exists call. }
  destruct (_ && _); [by eapply Hrec|].
  destruct (_get_run db t k a) as [r|] eqn:Hr; simpl in Hd; [|done].
  destruct (same_evidence r e); [by eapply Hrec|].
  destruct (outcome_conflict r e); [by eapply Hrec|].
  destruct (str_in (nr_status r) _) eqn:Hs; [|done]. simpl in Hd.
  edestruct finish_ok as (call & _ & _ & _ & _ & Hf). rewrite Hf in Hd.
  injection Hd as <- <-. eapply written_run; [done|]. by apply run_set_outcome_step.
Qed.
