(* ===== verification/GraphSafety.v ===== *)
(** * Plan graph: reachable states

    One invariant ties the plan, its version ledger and its run ledger
    together.  Every public operation preserves it, so it holds of every state
    that the operations and their environment can reach.
    Then the step relation of the component and the safety of the states it
    reaches. *)

From Stdlib Require Import SpecFloat.
From stdpp Require Import prelude list strings pretty relations.
From S2P Require Import Prelude PyValue Worklist GraphData GraphAccounting GraphPlan GraphInvariant GraphBatch GraphOrder GraphRuns GraphLedger.
Local Open Scope Z_scope.

#[export] Instance retired_dec r : Decision (retired r).
Proof. unfold retired. apply _. Defined.

Definition live_keys (db : DB) (t : string) : list string := pn_node_key <$> live_nodes db t.

Definition row_bounds (n : SwarmPlanNode) : Prop :=
  _bounds_error (pn_effort n) (pn_max_cost_usd n) (pn_max_attempts n)
    (pn_turn_timeout_seconds n) = None.

Record graph_ok (db : DB) (t : string) : Prop := {
  go_plan : plan_ok db t;
  go_versions : pv_version <$> versions_of db t = upto (length (versions_of db t));
  go_bounds : ∀ n, n ∈ nodes_of db t → row_bounds n;
  go_ledger : ∀ k, node_ledger (runs_at db t k);
  go_dispatch : NoDup (omap nr_dispatch_key (runs_of db t));
  go_reserved : ∀ r, r ∈ runs_of db t → _valid_cost false (nr_reserved_cost_usd r) = true;
  go_live : ∀ r, r ∈ runs_of db t → ¬ retired r → nr_node_key r ∈ live_keys db t;
  go_deps : ∀ n deps d, n ∈ live_nodes db t → ¬ Forall retired (runs_at db t (pn_node_key n)) →
    decode_deps (pn_deps_json n) = Some deps → d ∈ deps →
    ∃ r, r ∈ runs_at db t d ∧ nr_status r = "succeeded";
}.

(** ** Slices under the writes *)

Lemma runs_at_of db t k : runs_at db t k = filter (λ r, nr_node_key r = k) (runs_of db t).
Proof.
  unfold runs_at, runs_of. rewrite list_filter_filter. apply list_filter_iff. tauto.
Qed.

Lemma runs_at_eq db db' t : runs_of db' t = runs_of db t → ∀ k, runs_at db' t k = runs_at db t k.
Proof. intros H k. by rewrite !runs_at_of, H. Qed.

Lemma current_version_length db t :
  pv_version <$> versions_of db t = upto (length (versions_of db t)) →
  _current_version db t = Z.of_nat (length (versions_of db t)).
Proof. rewrite current_version_slice. apply max_upto. Qed.

Lemma versions_append_ok db t t' v cause ch :
  v = _current_version db t + 1 →
  pv_version <$> versions_of db t' = upto (length (versions_of db t')) →
  let vs := versions_of (append_version t v cause ch db) t' in
  pv_version <$> vs = upto (length vs).
Proof.
  intros -> H. simpl. rewrite versions_of_append. case_decide as Ht; [subst|by rewrite app_nil_r].
  by apply upto_append.
Qed.

(** ** Generic preservation *)

Lemma graph_ok_frame db db' t :
  nodes_of db' t = nodes_of db t → versions_of db' t = versions_of db t →
  runs_of db' t = runs_of db t → graph_ok db t → graph_ok db' t.
Proof.
  intros Hn Hv Hr [H1 H2 H3 H4 H5 H6 H7 H8]. pose proof (runs_at_eq _ _ _ Hr) as Hra.
  assert (live_nodes db' t = live_nodes db t) as Hl.
  { unfold live_nodes. by rewrite !visible_nodes_of, Hn, !current_version_slice, Hv. }
  split; unfold live_keys in *; rewrite ?Hn, ?Hv, ?Hr, ?Hl; try done.
  - by eapply plan_ok_frame.
  - intros k. by rewrite Hra.
  - intros n deps d. rewrite !Hra. by apply H8.
Qed.

Lemma graph_ok_recorded db db' t : only_recorded db db' → graph_ok db t → graph_ok db' t.
Proof. intros [call ->]. by apply graph_ok_frame. Qed.

(** A plan edit keeps the runs: the keys it hides, and the keys it reuses,
    must only have retired ones. *)
Lemma graph_ok_edit db db' t :
  graph_ok db t → plan_ok db' t → runs_of db' t = runs_of db t →
  pv_version <$> versions_of db' t = upto (length (versions_of db' t)) →
  (∀ n, n ∈ nodes_of db' t → row_bounds n) →
  (∀ k, k ∈ live_keys db t → k ∈ live_keys db' t ∨ Forall retired (runs_at db t k)) →
  (∀ n, n ∈ live_nodes db' t →
     (∃ m, m ∈ live_nodes db t ∧ pn_node_key m = pn_node_key n ∧
           pn_deps_json m = pn_deps_json n) ∨
     Forall retired (runs_at db t (pn_node_key n))) →
  graph_ok db' t.
Proof.
  intros [H1 H2 H3 H4 H5 H6 H7 H8] Hp Hr Hv Hb Hkeys Hnodes.
  pose proof (runs_at_eq _ _ _ Hr) as Hra. split; rewrite ?Hr; try done.
  - intros k. by rewrite Hra.
  - intros r Hin Hn. destruct (Hkeys _ (H7 r Hin Hn)) as [?|Hret]; [done|].
    destruct Hn. rewrite Forall_forall in Hret. apply Hret.
    rewrite runs_at_of. by apply list_elem_of_filter.
  - intros n deps d Hn. rewrite !Hra. intros Hret Hd Hin.
    destruct (Hnodes n Hn) as [(m & Hm & Hk & Hj)|?]; [|done].
    eapply H8; [exact Hm|by rewrite Hk|by rewrite Hj|done].
Qed.

Lemma not_live_retired db t k :
  graph_ok db t → k ∉ live_keys db t → Forall retired (runs_at db t k).
Proof.
  intros Hg Hk. rewrite Forall_forall, runs_at_of. intros r [<- Hr]%list_elem_of_filter.
  destruct (decide (retired r)); [done|]. destruct Hk. by eapply go_live.
Qed.

(** ** Add *)

Lemma write_node_runs_of t f v db t' : runs_of (write_node t f v db) t' = runs_of db t'.
Proof. unfold runs_of. by rewrite write_node_runs. Qed.

Lemma add_accepted_graph_ok db task t f ev cause :
  graph_ok db t → add_accepted db task t f ev →
  graph_ok (write_node t f (ev + 1) (append_version t (ev + 1) cause (ChAddNode f) db)) t.
Proof.
  intros Hg Ha. pose proof (go_plan _ _ Hg) as Hok.
  destruct (add_accepted_rows db task t f ev cause Hok Ha) as (id & Hcur & _ & Hmem & _ & Hvis).
  pose proof (aa_version _ _ _ _ _ Ha) as Hev.
  pose proof (add_accepted_plan_ok db task t f ev cause Hok Ha) as Hok'.
  pose proof (versions_append_ok db t t (ev + 1) cause (ChAddNode f)
    ltac:(lia) (go_versions _ _ Hg)) as Hvs.
  assert (live_nodes db t = _visible_nodes db t ev) as Hl by (unfold live_nodes; by rewrite <-Hev).
  set (db' := write_node _ _ _ _) in *.
  assert (live_nodes db' t = _visible_nodes db' t (ev + 1)) as Hl'
    by (unfold live_nodes; by rewrite Hcur).
  apply (graph_ok_edit db); [done|done| | | | |].
  - exact (write_node_runs_of t f (ev + 1) _ t).
  - unfold db'. by rewrite versions_of_write_node.
  - intros n [[Hn _]| ->]%Hmem; [by eapply go_bounds|]. apply (aa_bounds _ _ _ _ _ Ha).
  - unfold live_keys. rewrite Hl, Hl'. intros k (n & -> & Hn)%list_elem_of_fmap. left.
    apply list_elem_of_fmap. exists n. split; [done|]. apply Hvis, elem_of_app. by left.
  - rewrite Hl, Hl'. intros n [Hn|Hn]%Hvis%elem_of_app; [left; eauto|].
    apply list_elem_of_singleton in Hn as ->. right. apply not_live_retired; [done|].
    unfold live_keys. rewrite Hl. by apply (aa_fresh _ _ _ _ _ Ha).
Qed.

Lemma add_node_locked_graph_ok task t f ev cause db op db' t' :
  _add_node_locked task t f ev cause db = Ok (op, db') → graph_ok db t' → graph_ok db' t'.
Proof.
  intros [(? & ? & call & _ & ->)|(? & call & _ & Ha & ->)]%add_node_locked_inv Hg;
    [by eapply graph_ok_recorded; [by exists call|]|].
  eapply graph_ok_recorded; [by exists call|]. rewrite <-(aa_version _ _ _ _ _ Ha).
  destruct (decide (t' = t)) as [->|Hne]; [by eapply add_accepted_graph_ok|].
  eapply graph_ok_frame; [| | |exact Hg].
  - by rewrite nodes_of_write_other.
  - by rewrite versions_of_write_node, versions_of_append_other.
  - by rewrite write_node_runs_of.
Qed.

(** ** Discard *)

Lemma first_min_nil l : first_min l = None → l = [].
Proof.
  unfold first_min. destruct l as [|r l]; [done|]. simpl.
  assert (∀ l b, is_Some (foldl (λ best r, match best with
    | Some b => if nr_attempt r <? nr_attempt b then Some r else best
    | None => Some r end) (Some b) l)) as H.
  { clear. induction l as [|r l IH]; intros b; simpl; [eauto|]. by case_match. }
  intros E. destruct (H l r) as [? Hx]. by rewrite E in Hx.
Qed.

(** A node can only be discarded when no attempt is active and none succeeded. *)
Lemma unsettled_none_retired db t node :
  _unsettled_reason db t node = None → Forall retired (runs_at db t (pn_node_key node)).
Proof.
  unfold _unsettled_reason. fold (runs_at db t (pn_node_key node)).
  destruct (runs_at db t (pn_node_key node)) as [|r0 rs] eqn:E; [done|].
  rewrite <-E. clear E r0 rs. set (rs := runs_at _ _ _).
  destruct (first_min _) eqn:Hm; [done|]. apply first_min_nil in Hm.
  destruct (existsb _ rs) eqn:Hs; [done|]. intros _. rewrite existsb_false in Hs.
  rewrite Forall_forall. intros r Hr. split.
  - destruct (terminal (nr_status r)) eqn:Ht; [done|].
    assert (r ∈ filter (λ r, terminal (nr_status r) = false) rs) as Hin
      by by apply list_elem_of_filter.
    rewrite Hm in Hin. by apply elem_of_nil in Hin.
  - by specialize (Hs r Hr); apply bool_decide_eq_false in Hs.
Qed.

Lemma discard_accepted_graph_ok db t key ev node cause ch :
  graph_ok db t → discard_accepted db t key ev node →
  graph_ok (set_nodes (update_where (is_row t key) (row_set_discarded (ev + 1)))
             (append_version t (ev + 1) cause ch db)) t.
Proof.
  intros Hg Ha. pose proof (go_plan _ _ Hg) as Hok.
  destruct (discard_accepted_rows db t key ev node cause ch Hok Ha) as (Hcur & Hn & _ & Hvis).
  pose proof (da_version _ _ _ _ _ Ha) as Hev.
  pose proof (discard_accepted_plan_ok db t key ev node cause ch Hok Ha) as Hok'.
  pose proof (versions_append_ok db t t (ev + 1) cause ch ltac:(lia) (go_versions _ _ Hg)) as Hvs.
  assert (live_nodes db t = _visible_nodes db t ev) as Hl by (unfold live_nodes; by rewrite <-Hev).
  set (db' := set_nodes _ _) in *.
  assert (live_nodes db' t = _visible_nodes db' t (ev + 1)) as Hl'
    by (unfold live_nodes; by rewrite Hcur).
  apply (graph_ok_edit db); [done|done|done|done| | |].
  - rewrite Hn. intros n (m & Hm & ->)%elem_of_update_where.
    assert (row_bounds m) by by eapply go_bounds. by destruct (is_row t key m).
  - unfold live_keys. rewrite Hl, Hl'. intros k (n & -> & Hin)%list_elem_of_fmap.
    destruct (decide (pn_node_key n = key)) as [->|Hne].
    + right. pose proof (da_live _ _ _ _ _ Ha) as [_ Hk]%live_get_Some.
      rewrite <-Hk. apply unsettled_none_retired. by apply (da_settled _ _ _ _ _ Ha).
    + left. apply list_elem_of_fmap. exists n. split; [done|]. by apply Hvis.
  - rewrite Hl, Hl'. intros n [Hin _]%Hvis. left. eauto.
Qed.

Lemma discard_node_locked_graph_ok task t key ev cause head claim db op db' t' :
  _discard_node_locked task t key ev cause head claim db = Ok (op, db') →
  graph_ok db t' → graph_ok db' t'.
Proof.
  intros [(? & ? & call & _ & ->)|(call & node & snap & _ & Ha & _ & ->)]
    %discard_node_locked_inv Hg; [by eapply graph_ok_recorded; [by exists call|]|].
  eapply graph_ok_recorded; [by exists call|]. rewrite <-(da_version _ _ _ _ _ Ha).
  destruct (decide (t' = t)) as [->|Hne]; [by eapply discard_accepted_graph_ok|].
  eapply graph_ok_frame; [| | |exact Hg]; [|by apply versions_of_append_other|done].
  by apply (update_where_other (append_version _ _ _ _ _)).
Qed.

(** ** Batches *)

Lemma apply_loop_graph_ok task t cause edits ev db r db' t' :
  apply_loop task t cause edits ev db = Ok (r, db') → graph_ok db t' → graph_ok db' t'.
Proof.
  revert ev db. induction edits as [|[i e] edits IH]; intros ev db; simpl; [by intros [= _ <-]|].
  destruct (_apply_one_edit task t e ev cause db) as [[op db1]|] eqn:E; simpl; [|done].
  intros Hr Hok. assert (graph_ok db1 t') as Hok1.
  { revert E. unfold _apply_one_edit. case_bool_decide; intros E;
      [by eapply discard_node_locked_graph_ok|by eapply add_node_locked_graph_ok]. }
  destruct (ok op); [by eapply IH|]. by injection Hr as _ <-.
Qed.

Lemma apply_edits_graph_ok t cause ev edits db op db' t' :
  apply_edits t cause ev edits db = Ok (op, db') → graph_ok db t' → graph_ok db' t'.
Proof.
  unfold apply_edits. destruct (_edits_error edits) as [code|].
  { intros (_ & _ & ?)%record_rejection_ok. by apply graph_ok_recorded. }
  destruct (_lock_task db t) as [task|]; simpl; [|done].
  destruct (apply_loop _ _ _ _ _ db) as [[[v|[index bad]] db1]|] eqn:Hloop; simpl; [| |done].
  - edestruct finish_ok as (call & _ & _ & _ & _ & ->). intros [= _ <-] Hok.
    eapply graph_ok_recorded; [by exists call|]. by eapply apply_loop_graph_ok.
  - intros (_ & _ & ?)%record_rejection_ok. by apply graph_ok_recorded.
Qed.

(** ** Renewal *)

Lemma renewable_node db t target ev node :
  renewable db t target ev = Ok (Some node) →
  node ∈ live_nodes db t ∧ py_ge_int (pn_max_attempts node) MAX_ATTEMPTS = false.
Proof.
  unfold renewable. fold (live_nodes db t).
  destruct (find_first _ (live_nodes db t)) as [n|] eqn:Hf; [|done].
  destruct (negb _); [done|]. destruct (_node_fields n) as [item|]; simpl; [|done].
  destruct (_ || _) eqn:Hb; [done|]. intros [= <-].
  apply find_first_Some in Hf as [Hf _]. split; [done|].
  rewrite !orb_false_iff in Hb. tauto.
Qed.

(** One more attempt of a bound below the ceiling stays within it. *)
Lemma renewed_bounds n :
  row_bounds n → py_ge_int (pn_max_attempts n) MAX_ATTEMPTS = false →
  row_bounds (row_set_max_attempts (py_succ (pn_max_attempts n)) n).
Proof.
  unfold row_bounds. simpl. intros Hb Hlt.
  pose proof (bounds_attempts_int _ _ _ _ Hb) as (_ & (a & Ha & Hr) & _).
  rewrite Ha in *. change (xle (XFin MAX_ATTEMPTS 0) (XFin a 0) = false) in Hlt.
  apply not_true_iff_false in Hlt. rewrite (xle_fin MAX_ATTEMPTS 0 a 0 0) in Hlt by done.
  simpl (_ - _) in Hlt. rewrite !Z.mul_1_r in Hlt.
  unfold _bounds_error in *. destruct (_ && _); [done|].
  destruct (negb (_valid_cost _ _)); [done|].
  change (py_succ (PInt a)) with (PInt (a + 1)). unfold _valid_bound in *.
  assert ((0 <? a + 1) && (a + 1 <=? MAX_ATTEMPTS) = true) as ->.
  { apply andb_true_iff. rewrite Z.ltb_lt, Z.leb_le. lia. }
  simpl. by destruct (negb ((0 <? a) && _)).
Qed.

Lemma renew_funded_attempt_graph_ok t target ev rid db fields db' t' :
  renew_funded_attempt t target ev rid db = Ok (fields, db') →
  graph_ok db t' → graph_ok db' t'.
Proof.
  intros Hr Hg. pose proof (renew_funded_attempt_plan_ok _ _ _ _ _ _ _ t' Hr (go_plan _ _ Hg)) as Hp.
  revert Hr Hp. unfold renew_funded_attempt.
  destruct (_lock_task db t) as [task|]; simpl; [|done].
  destruct (renewable _ _ _ _) as [[node|]|] eqn:Hn; simpl; [|done..].
  destruct (dumps _) as [?|]; simpl; [|done].
  edestruct finish_ok as (call & _ & _ & _ & _ & ->). simpl. intros [= <- <-] Hp.
  apply renewable_node in Hn as [Hlive Hge].
  set (g := row_set_max_attempts (py_succ (pn_max_attempts node))) in *.
  set (db1 := set_nodes (update_where (is_row t (pn_node_key node)) g) db) in *.
  assert (nodes_of db1 t' = update_where (is_row t (pn_node_key node)) g (nodes_of db t')) as Hno
    by by apply nodes_of_update_where.
  assert (_current_version db1 t = _current_version db t) as Hcv by done.
  destruct (live_rows db (append_version t (_current_version db t + 1) (funding_cause rid)
    (ChRenewNodeAttempt (pn_node_key node) (pn_created_in_version node) (pn_max_attempts node)
       (py_succ (pn_max_attempts node)) (rt_source_run_id target) (PInt rid)) db1) t' _
    (row_set_max_attempts_structure _ _) Hno) as [_ Hvis]; [|by apply go_plan|].
  { rewrite current_version_append by (rewrite Hcv; lia). case_decide; subst; [lia|].
    by change (_current_version db1 t') with (_current_version db t'). }
  eapply graph_ok_recorded; [by exists call|].
  apply (graph_ok_edit db); [done|by eapply plan_ok_frame; [| |exact Hp]|done| | | |].
  - apply (versions_append_ok db1); [by rewrite Hcv|]. apply (go_versions _ _ Hg).
  - change (∀ n, n ∈ nodes_of db1 t' → row_bounds n). rewrite Hno.
    intros n (m & Hm & ->)%elem_of_update_where. pose proof (go_bounds _ _ Hg m Hm) as Hb.
    destruct (is_row t _ m) eqn:Em; [|done]. apply is_row_spec in Em as [Ht Hk].
    assert (m = node) as ->; [|by apply renewed_bounds].
    pose proof Hm as [_ Hmt]%elem_of_nodes_of. assert (t' = t) as -> by congruence.
    eapply (NoDup_fmap_elem pn_node_key (nodes_of db t));
      [apply (go_plan _ _ Hg)|done| |done].
    apply elem_of_visible in Hlive as [? Hv]. apply elem_of_nodes_of. split; [done|].
    unfold visible_at in Hv. rewrite !andb_true_iff, bool_decide_eq_true in Hv. tauto.
  - intros k (n & -> & Hin)%list_elem_of_fmap. left. apply list_elem_of_fmap.
    exists (if is_row t (pn_node_key node) n then g n else n).
    split; [by case_match|]. apply Hvis. eauto.
  - intros n (m & -> & Hm)%Hvis. left. exists m. split; [done|]. by case_match.
Qed.

(** * Plan graph: safety of every reachable state

    The step relation of the component (one rule per public operation, and
    the moves of its environment), and the properties of the states it can
    reach from empty tables. *)

(** ** Run updates *)

Lemma runs_of_fmap db db' t g :
  (∀ r, r ∈ db_runs db → run_step r (g r)) → db_runs db' = g <$> db_runs db →
  runs_of db' t = g <$> runs_of db t.
Proof.
  intros Hg Hr. unfold runs_of. rewrite Hr. clear Hr.
  induction (db_runs db) as [|r l IH]; [done|]. rewrite fmap_cons, !filter_cons.
  rewrite IH by (intros; apply Hg; by constructor).
  assert (nr_task_id (g r) = nr_task_id r) as -> by (apply Hg; constructor).
  by case_decide.
Qed.

Lemma runs_at_fmap db db' t g k :
  (∀ r, r ∈ db_runs db → run_step r (g r)) → db_runs db' = g <$> db_runs db →
  runs_at db' t k = g <$> runs_at db t k.
Proof.
  intros Hg Hr. unfold runs_at. rewrite Hr. clear Hr.
  induction (db_runs db) as [|r l IH]; [done|]. rewrite fmap_cons, !filter_cons.
  rewrite IH by (intros; apply Hg; by constructor).
  destruct (Hg r) as [_ Ht Hn _ _ _ _ _ _ _ _]; [constructor|].
  repeat case_decide; naive_solver congruence.
Qed.

Lemma omap_fmap_ext {A B} (f : A → option B) (g : A → A) (l : list A) :
  (∀ x, x ∈ l → f (g x) = f x) → omap f (g <$> l) = omap f l.
Proof.
  induction l as [|x l IH]; intros H; [done|]. rewrite fmap_cons. simpl.
  rewrite H by constructor. assert (omap f (g <$> l) = omap f l) as Hl
    by (apply IH; intros; apply H; by constructor).
  unfold omap in Hl. by rewrite Hl.
Qed.

Lemma run_update_graph_ok db db' t : run_update db db' → graph_ok db t → graph_ok db' t.
Proof.
  intros (Hv & Hn & g & Hg & Hr) [H1 H2 H3 H4 H5 H6 H7 H8].
  assert (nodes_of db' t = nodes_of db t) as Hno by (unfold nodes_of; by rewrite Hn).
  assert (versions_of db' t = versions_of db t) as Hvo by (unfold versions_of; by rewrite Hv).
  assert (live_nodes db' t = live_nodes db t) as Hl.
  { unfold live_nodes. by rewrite !visible_nodes_of, Hno, !current_version_slice, Hvo. }
  assert (∀ r, r ∈ runs_of db t → run_step r (g r)) as Hgo.
  { intros r [_ ?]%list_elem_of_filter. by apply Hg. }
  assert (∀ k r, r ∈ runs_at db t k → run_step r (g r)) as Hga.
  { intros k r [? _]%elem_of_runs_at. by apply Hg. }
  split; unfold live_keys in *; rewrite ?Hno, ?Hvo, ?Hl, ?(runs_of_fmap db db' t g Hg Hr); try done.
  - by eapply plan_ok_frame.
  - intros k. rewrite (runs_at_fmap db db' t g k) by done. apply node_ledger_update; eauto.
  - rewrite omap_fmap_ext; [done|]. intros r Hin. apply Hgo, Hin.
  - intros r (r0 & -> & Hin)%list_elem_of_fmap.
    rewrite (rs_reserved _ _ (Hgo r0 Hin)). by apply H6.
  - intros r (r0 & -> & Hin)%list_elem_of_fmap Hret.
    rewrite (rs_node _ _ (Hgo r0 Hin)). apply H7; [done|]. by eapply run_step_unretired; eauto.
  - intros n deps d Hin. rewrite !(runs_at_fmap db db' t g) by done. intros Hret Hd Hdin.
    destruct (H8 n deps d) as (r & Hr0 & Hs); [done| |done..|].
    { intros Hall. apply Hret. rewrite Forall_fmap. rewrite Forall_forall in *.
      intros r Hr0. eapply run_step_retired; eauto. }
    exists (g r). split; [by apply list_elem_of_fmap_2|].
    rewrite <-Hs. eapply run_step_terminal; [eauto|]. by rewrite Hs.
Qed.

(** ** Admission *)

Lemma write_attempt_runs_of t k run db t' :
  runs_of (write_attempt t k run db) t' =
  runs_of db t' ++ if decide (nr_task_id run = t') then [run] else [].
Proof.
  unfold runs_of, write_attempt. simpl. rewrite filter_app, filter_cons, filter_nil. done.
Qed.

Lemma write_attempt_runs_at t k run db t' k' :
  runs_at (write_attempt t k run db) t' k' =
  runs_at db t' k' ++
    if decide (nr_task_id run = t' ∧ nr_node_key run = k') then [run] else [].
Proof.
  unfold runs_at, write_attempt. simpl. rewrite filter_app, filter_cons, filter_nil. done.
Qed.

Lemma row_set_armed_structure now p :
  keeps_structure (λ n, if p n : bool then row_set_armed now n else n).
Proof. intros n. by destruct (p n). Qed.

Section admit_step.
Context (db : DB) (task : SwarmTask) (t k : string) (node : SwarmPlanNode)
  (grant : option Grant) (limit : Z) (run : SwarmNodeRun).
Hypothesis Hg : graph_ok db t.
Hypothesis Had : admissible db task t k node grant limit.
Hypothesis Hrun_task : nr_task_id run = t.
Hypothesis Hrun_node : nr_node_key run = k.
Hypothesis Hrun_attempt : nr_attempt run = max_key nr_attempt (runs_at db t k) + 1.
Hypothesis Hrun_status : nr_status run = "admitted".
Hypothesis Hrun_reserved : nr_reserved_cost_usd run = pn_max_cost_usd node.
Hypothesis Hrun_key : ∀ key, nr_dispatch_key run = Some key →
  ∀ r, r ∈ runs_of db t → nr_dispatch_key r ≠ Some key.

Let db' := write_attempt t k run db.

Lemma admit_rows :
  nodes_of db' t =
  (λ n, if is_row t k n then row_set_armed (db_now db) n else n) <$> nodes_of db t.
Proof.
  exact (nodes_of_update_where db t (is_row t k) (row_set_armed (db_now db)) (λ _, eq_refl)).
Qed.

Lemma admit_live n :
  n ∈ live_nodes db' t ↔ ∃ m,
    n = (if is_row t k m then row_set_armed (db_now db) m else m) ∧ m ∈ live_nodes db t.
Proof.
  apply (live_rows db db' t _ (row_set_armed_structure _ _));
    [apply admit_rows|done|apply Hg].
Qed.

Lemma admit_key_live : k ∈ live_keys db t.
Proof.
  destruct (live_get_Some _ _ _ (ad_live _ _ _ _ _ _ _ Had)) as [Hn Hk].
  rewrite <-Hk. by apply list_elem_of_fmap_2.
Qed.

Lemma admit_keys_grow x : x ∈ live_keys db t → x ∈ live_keys db' t.
Proof.
  intros (m & -> & Hm)%list_elem_of_fmap. apply list_elem_of_fmap.
  exists (if is_row t k m then row_set_armed (db_now db) m else m).
  split; [by case_match|]. apply admit_live. eauto.
Qed.

Lemma write_attempt_graph_ok : graph_ok db' t.
Proof.
  assert (∀ x, runs_at db t x ⊆ runs_at db' t x) as Hgrow.
  { intros x r Hr. unfold db'. rewrite write_attempt_runs_at, elem_of_app. by left. }
  destruct Hg as [H1 H2 H3 H4 H5 H6 H7 H8]. split.
  - eapply (plan_ok_rows db db' t _ (row_set_armed_structure _ _));
      [apply admit_rows|done|done].
  - exact H2.
  - rewrite admit_rows. intros n (m & -> & Hm)%list_elem_of_fmap.
    pose proof (H3 m Hm). by case_match.
  - intros x. unfold db'. rewrite write_attempt_runs_at. case_decide as Hx.
    + destruct Hx as [_ <-]. rewrite Hrun_node. constructor; [done|apply Had| |].
      * by rewrite Hrun_attempt, node_ledger_max.
      * rewrite Hrun_status. left. decide_in.
    + by rewrite app_nil_r.
  - unfold db'. rewrite write_attempt_runs_of, decide_True, omap_app by done.
    apply NoDup_app. split; [done|]. simpl.
    destruct (nr_dispatch_key run) as [key|]; [|split; [|constructor]]; simpl.
    + split; [|apply NoDup_singleton].
      intros x (r & Hr & Hx)%list_elem_of_omap Hk%list_elem_of_singleton. subst.
      by eapply Hrun_key.
    + intros x _ []%elem_of_nil.
  - unfold db'. intros r. rewrite write_attempt_runs_of, decide_True by done.
    intros [Hr|Hr]%elem_of_app; [by apply H6|]. apply list_elem_of_singleton in Hr as ->.
    rewrite Hrun_reserved. by eapply bounds_attempts_int, (ad_bounds _ _ _ _ _ _ _ Had).
  - unfold db' at 1. intros r. rewrite write_attempt_runs_of, decide_True by done.
    intros [Hr|Hr]%elem_of_app Hret; apply admit_keys_grow; [by apply H7|].
    apply list_elem_of_singleton in Hr as ->. rewrite Hrun_node. apply admit_key_live.
  - intros n deps d (m & -> & Hm)%admit_live Hret Hd Hin.
    assert (∃ r, r ∈ runs_at db t d ∧ nr_status r = "succeeded") as (r & Hr & Hs);
      [|exists r; split; [by apply Hgrow|done]].
    destruct (decide (pn_node_key m = k)) as [Hk|Hk].
    + destruct (ad_deps _ _ _ _ _ _ _ Had) as (deps' & Hd' & Hall). apply Hall.
      assert (m = node) as ->.
      { pose proof (ad_live _ _ _ _ _ _ _ Had) as Hl. rewrite <-Hk in Hl.
        rewrite live_get_unique in Hl; [by injection Hl| |done].
        apply visible_keys_NoDup, H1. }
      destruct (is_row t k node); simpl in Hd; congruence.
    + eapply H8; [exact Hm| | |exact Hin].
      * intros Hall. apply Hret. unfold db'. rewrite write_attempt_runs_at.
        assert (pn_node_key (if is_row t k m then row_set_armed (db_now db) m else m)
                = pn_node_key m) as -> by by case_match.
        rewrite decide_False, app_nil_r by naive_solver. done.
      * by destruct (is_row t k m).
Qed.
End admit_step.

Lemma admit_dispatch_graph_ok `{FundingLedger, DispatchHooks} t q db op db' t' :
  admit_dispatch t q db = Ok (op, db') → (∀ t, graph_ok db t) → graph_ok db' t'.
Proof.
  intros Ha Hg. apply admit_dispatch_result in Ha.
  destruct Ha as [op db' _ _ Hrec|r key fields ctx pin db' _ _ _ _ _ _ Hrec|
    task node grant limit prompt fields ctx call k attempt excused pin _ _ Had Hkey _].
  - by eapply graph_ok_recorded.
  - by eapply graph_ok_recorded.
  - eapply graph_ok_recorded; [by exists call|]. destruct (decide (t' = t)) as [->|Hne].
    + by eapply write_attempt_graph_ok.
    + eapply graph_ok_frame; [| | |by apply Hg].
      * by apply (update_where_other (set_runs _ _)).
      * done.
      * rewrite write_attempt_runs_of, decide_False by done. by rewrite app_nil_r.
Qed.

(** ** The step relation *)

(** What other components may append to the version ledger. *)
Definition foreign_change (c : Change) : Prop :=
  match c with
  | ChContinueEvidence _ | ChBlockEvidenceContinuation | ChOther _ _ => True
  | _ => False
  end.

(** Every operation of graph.py.  The bootstrap of a classified task
    (router.py:367-390), which appends version 1 and at most one node of a task
    that has neither, is not among them. *)
Inductive graph_step `{FundingLedger, DispatchHooks} : DB → DB → Prop :=
| step_add t cause ev f db op db' :
    add_node t cause ev f db = Ok (op, db') → graph_step db db'
| step_discard t key cause ev head claim db op db' :
    discard_node t key cause ev head claim db = Ok (op, db') → graph_step db db'
| step_apply t cause ev edits db op db' :
    apply_edits t cause ev edits db = Ok (op, db') → graph_step db db'
| step_renew t target ev rid db fields db' :
    renew_funded_attempt t target ev rid db = Ok (fields, db') → graph_step db db'
| step_admit t q db op db' :
    admit_dispatch t q db = Ok (op, db') → graph_step db db'
| step_dispatch t k a sid base db op db' :
    record_dispatch t k a sid base db = Ok (op, db') → graph_step db db'
| step_bind t k a sid wid db op db' :
    bind_node_session t k a sid wid db = Ok (op, db') → graph_step db db'
| step_outcome t k a e db op db' :
    record_outcome t k a e db = Ok (op, db') → graph_step db db'
| step_foreign t cause ch db :
    foreign_change ch →
    graph_step db (append_version t (_current_version db t + 1) cause ch db)
| step_environment tasks calls starts now db :
    graph_step db (mkDB tasks (db_versions db) (db_nodes db) (db_runs db) calls starts now).

Definition reachable `{FundingLedger, DispatchHooks} (db : DB) : Prop := rtc graph_step empty_db db.

Section reachable_states.
Context `{FundingLedger, DispatchHooks}.

Lemma foreign_graph_ok t cause ch db t' :
  graph_ok db t' →
  graph_ok (append_version t (_current_version db t + 1) cause ch db) t'.
Proof.
  intros Hg. set (db' := append_version _ _ _ _ _).
  assert (_current_version db t' ≤ _current_version db' t') as Hv.
  { unfold db'. rewrite current_version_append by lia. case_decide; subst; lia. }
  assert (keeps_structure (id : SwarmPlanNode → _)) as Hid by done.
  assert (nodes_of db' t' = id <$> nodes_of db t') as Hn by by rewrite list_fmap_id.
  destruct (live_rows db db' t' id Hid Hn Hv (go_plan _ _ Hg)) as [_ Hvis].
  apply (graph_ok_edit db); [done|by eapply plan_ok_rows, (go_plan _ _ Hg)|done| | | |].
  - apply versions_append_ok; [done|]. apply Hg.
  - apply Hg.
  - intros x (n & -> & Hin)%list_elem_of_fmap. left. apply list_elem_of_fmap.
    exists n. split; [done|]. apply Hvis. eauto.
  - intros n (m & -> & Hm)%Hvis. left. eauto.
Qed.

Lemma graph_step_ok db db' :
  graph_step db db' → (∀ t, graph_ok db t) → ∀ t, graph_ok db' t.
Proof.
  intros Hs Hg t'. destruct Hs as [t cause ev f db op db' Hop|t key cause ev head claim db op db' Hop
    |t cause ev edits db op db' Hop|t target ev rid db fields db' Hop|t q db op db' Hop
    |t k a sid base db op db' Hop|t k a sid wid db op db' Hop|t k a e db op db' Hop
    |t cause ch db _|tasks calls starts now db].
  - revert Hop. unfold add_node. destruct (_lock_task db t); simpl; [|done].
    intros Hop. by eapply add_node_locked_graph_ok.
  - revert Hop. unfold discard_node. destruct (_lock_task db t); simpl; [|done].
    intros Hop. by eapply discard_node_locked_graph_ok.
  - by eapply apply_edits_graph_ok.
  - by eapply renew_funded_attempt_graph_ok.
  - by eapply admit_dispatch_graph_ok.
  - eapply run_update_graph_ok; [eapply run_written_update; [apply Hg|by eapply record_dispatch_written]|done].
  - eapply run_update_graph_ok; [eapply run_written_update; [apply Hg|by eapply bind_node_session_written]|done].
  - eapply run_update_graph_ok; [eapply run_written_update; [apply Hg|by eapply record_outcome_written]|done].
  - by apply foreign_graph_ok.
  - by eapply graph_ok_frame; [| | |apply (Hg t')].
Qed.

Lemma graph_ok_empty t : graph_ok empty_db t.
Proof.
  split; try done; try (intros ? []%elem_of_nil).
  - by apply plan_ok_no_rows.
  - constructor.
  - constructor.
  - by intros ? ? ? []%elem_of_nil.
Qed.

Lemma reachable_ok db : reachable db → ∀ t, graph_ok db t.
Proof.
  unfold reachable. intros Hr. assert (∀ t, graph_ok empty_db t) as Hinit
    by apply graph_ok_empty. revert Hinit.
  induction Hr as [|? ? ? Hs _ IH]; [done|]. intros Hg. by apply IH, (graph_step_ok x).
Qed.
End reachable_states.
