(* ===== verification/GraphRefine.v ===== *)
(** * Plan graph: the scheduler it implements

    An abstract scheduler holds, for every node of a plan, its dependencies
    and whether it is idle, running or done.  It knows no tables, versions of
    rows, attempts, prices or texts.  Every public operation of the graph, on
    every branch, is a sequence of its moves on the task it names and leaves
    the plans of all other tasks alone. *)

From Stdlib Require Import SpecFloat.
From stdpp Require Import prelude list strings pretty relations gmap.
From S2P Require Import Prelude PyValue Worklist GraphData GraphAccounting GraphPlan GraphInvariant GraphBatch GraphOrder GraphRuns GraphLedger GraphSafety.
Local Open Scope Z_scope.

(** ** The abstract scheduler *)

Inductive phase := Idle | Running | Done.
#[export] Instance phase_eq_dec : EqDecision phase.
Proof. solve_decision. Defined.

Record Plan := mkPlan {
  p_version : Z;
  p_nodes : gmap string (list string * phase);
}.
Definition empty_plan : Plan := mkPlan 0 ∅.

(** Every dependency in [ds] is a node whose phase satisfies [P]. *)
Definition deps_in (m : gmap string (list string * phase)) (P : phase → Prop)
    (ds : list string) : Prop :=
  ∀ d, d ∈ ds → ∃ e ph, m !! d = Some (e, ph) ∧ P ph.

Inductive plan_step : Plan → Plan → Prop :=
| plan_add v m k ds :
    m !! k = None → deps_in m (λ _, True) ds →
    plan_step (mkPlan v m) (mkPlan (v + 1) (<[k := (ds, Idle)]> m))
| plan_discard v m k ds :
    m !! k = Some (ds, Idle) → (∀ x e ph, m !! x = Some (e, ph) → k ∉ e) →
    plan_step (mkPlan v m) (mkPlan (v + 1) (delete k m))
| plan_note v m :
    plan_step (mkPlan v m) (mkPlan (v + 1) m)
| plan_start v m k ds :
    m !! k = Some (ds, Idle) → deps_in m (λ ph, ph = Done) ds →
    plan_step (mkPlan v m) (mkPlan v (<[k := (ds, Running)]> m))
| plan_finish v m k ds ph :
    m !! k = Some (ds, Running) → ph ≠ Running →
    plan_step (mkPlan v m) (mkPlan v (<[k := (ds, ph)]> m)).

(** What the scheduler promises by itself: dependencies are nodes of the plan,
    and a node that is running or done has all of them done. *)
Definition plan_sound (p : Plan) : Prop :=
  ∀ k ds ph, p_nodes p !! k = Some (ds, ph) →
    deps_in (p_nodes p) (λ ph', ph = Idle ∨ ph' = Done) ds.

Lemma plan_step_sound p p' : plan_step p p' → plan_sound p → plan_sound p'.
Proof.
  unfold plan_sound, deps_in. intros [v m k ds Hk Hds|v m k ds Hk Hleaf|v m
    |v m k ds Hk Hds|v m k ds ph Hk Hph] Hp x e px; simpl in *.
  - intros [[-> [= <- <-]]|[Hne Hx]]%lookup_insert_Some d Hd.
    + destruct (Hds d Hd) as (e' & h' & ? & _). exists e', h'.
      rewrite lookup_insert_ne by congruence. auto.
    + destruct (Hp _ _ _ Hx d Hd) as (e' & h' & ? & ?). exists e', h'.
      rewrite lookup_insert_ne by congruence. auto.
  - intros [Hne Hx]%lookup_delete_Some d Hd.
    destruct (Hp _ _ _ Hx d Hd) as (e' & h' & ? & ?). exists e', h'.
    rewrite lookup_delete_ne; [done|]. intros ->. exact (Hleaf _ _ _ Hx Hd).
  - apply Hp.
  - intros [[-> [= <- <-]]|[Hne Hx]]%lookup_insert_Some d Hd.
    + destruct (Hds d Hd) as (e' & h' & ? & ->). exists e', Done.
      rewrite lookup_insert_ne by congruence. auto.
    + destruct (Hp _ _ _ Hx d Hd) as (e' & h' & Hd' & Ho). destruct (decide (k = d)) as [->|].
      * exists ds, Running. rewrite lookup_insert_eq. naive_solver.
      * exists e', h'. by rewrite lookup_insert_ne.
  - intros [[-> [= <- <-]]|[Hne Hx]]%lookup_insert_Some d Hd.
    + destruct (Hp _ _ _ Hk d Hd) as (e' & h' & Hd' & [?| ->]); [done|]. exists e', Done.
      rewrite lookup_insert_ne by congruence. auto.
    + destruct (Hp _ _ _ Hx d Hd) as (e' & h' & Hd' & Ho). destruct (decide (k = d)) as [->|].
      * exists ds, ph. rewrite lookup_insert_eq. naive_solver.
      * exists e', h'. by rewrite lookup_insert_ne.
Qed.

(** ** The abstraction *)

Definition run_phase (r : SwarmNodeRun) : phase :=
  if bool_decide (nr_status r = "succeeded") then Done
  else if terminal (nr_status r) then Idle else Running.
Definition runs_phase (rs : list SwarmNodeRun) : phase :=
  match last rs with Some r => run_phase r | None => Idle end.

Definition plan_entry (db : DB) (t : string) (n : SwarmPlanNode)
    : string * (list string * phase) :=
  (pn_node_key n,
   (default [] (decode_deps (pn_deps_json n)), runs_phase (runs_at db t (pn_node_key n)))).

Definition plan_of (db : DB) (t : string) : Plan :=
  mkPlan (_current_version db t) (list_to_map (plan_entry db t <$> live_nodes db t)).

(** A live node and its dependencies. *)
Definition live_entry (db : DB) (t k : string) (ds : list string) : Prop :=
  ∃ n, n ∈ live_nodes db t ∧ pn_node_key n = k ∧ decode_deps (pn_deps_json n) = Some ds.

Lemma plan_of_lookup db t k ds ph :
  plan_ok db t →
  p_nodes (plan_of db t) !! k = Some (ds, ph) ↔
  live_entry db t k ds ∧ ph = runs_phase (runs_at db t k).
Proof.
  intros [Hk Hd Hb _ _]. simpl. rewrite <-elem_of_list_to_map.
  2: { rewrite <-list_fmap_compose. by apply visible_keys_NoDup. }
  rewrite list_elem_of_fmap. unfold live_entry, plan_entry. split.
  - intros (n & [= -> -> ->] & Hn). split; [|done]. exists n. split; [done|]. split; [done|].
    destruct (Hd n) as [e He]; [by apply elem_of_live in Hn as [? _]|]. by rewrite He.
  - intros [(n & Hn & <- & He) ->]. exists n. by rewrite He.
Qed.

(** A node that is live has an entry. *)
Lemma live_key_entry db t k :
  plan_ok db t → k ∈ live_keys db t → ∃ ds, live_entry db t k ds.
Proof.
  intros [_ Hd Hb _ _] (n & -> & Hn)%list_elem_of_fmap.
  destruct (Hd n) as [ds Hds]; [by apply elem_of_live in Hn as [? _]|]. by exists ds, n.
Qed.

Lemma plan_of_None db t k :
  plan_ok db t → k ∉ live_keys db t → p_nodes (plan_of db t) !! k = None.
Proof.
  intros Hok Hk. destruct (_ !! k) as [[ds ph]|] eqn:E; [|done].
  apply plan_of_lookup in E as [(n & Hn & <- & _) _]; [|done].
  destruct Hk. by apply list_elem_of_fmap_2.
Qed.

Lemma live_entry_unique db t k ds ds' :
  plan_ok db t → live_entry db t k ds → live_entry db t k ds' → ds = ds'.
Proof.
  intros Hok H1 H2. set (ph := runs_phase (runs_at db t k)).
  assert (Some (ds, ph) = Some (ds', ph)) as [= ?]; [|done].
  trans (p_nodes (plan_of db t) !! k); [symmetry|]; by apply plan_of_lookup.
Qed.

(** The plan of a task from a description of its entries. *)
Lemma plan_of_is db t v m :
  plan_ok db t → _current_version db t = v →
  (∀ k ds ph, live_entry db t k ds ∧ ph = runs_phase (runs_at db t k) ↔ m !! k = Some (ds, ph)) →
  plan_of db t = mkPlan v m.
Proof.
  intros Hok <- H. unfold plan_of. f_equal. apply map_eq. intros k. apply option_eq.
  intros [ds ph]. rewrite <-H. by apply plan_of_lookup.
Qed.

(** The plan of a task depends on its slices only. *)
Lemma plan_of_frame db db' t :
  nodes_of db' t = nodes_of db t → versions_of db' t = versions_of db t →
  runs_of db' t = runs_of db t → plan_of db' t = plan_of db t.
Proof.
  intros Hn Hv Hr. unfold plan_of, live_nodes.
  rewrite !visible_nodes_of, Hn, !current_version_slice, Hv. f_equal. f_equal.
  apply list_fmap_ext. intros _ n _. unfold plan_entry. by rewrite (runs_at_eq db db').
Qed.

Lemma plan_of_recorded db db' t : only_recorded db db' → plan_of db' t = plan_of db t.
Proof. intros [call ->]. by apply plan_of_frame. Qed.

(** ** Phases *)

Lemma retired_phase rs : Forall retired rs → runs_phase rs = Idle.
Proof.
  intros Hr. unfold runs_phase. destruct (last rs) as [r|] eqn:E; [|done].
  rewrite Forall_forall in Hr. apply last_Some_elem_of in E. destruct (Hr r E) as [Ht Hs].
  unfold run_phase. by rewrite bool_decide_eq_false_2, Ht.
Qed.

Lemma succeeded_phase rs :
  node_ledger rs → (∃ r, r ∈ rs ∧ nr_status r = "succeeded") → runs_phase rs = Done.
Proof.
  intros Hl (r & Hr & Hs). unfold runs_phase. rewrite (node_ledger_last rs r); [|done..|].
  - unfold run_phase. by rewrite bool_decide_eq_true_2.
  - by intros [_ ?].
Qed.

Lemma run_step_phase r r' :
  run_step r r' →
  run_phase r' = run_phase r ∨ (run_phase r = Running ∧ run_phase r' ≠ Running).
Proof.
  intros Hs. pose proof (run_step_terminal _ _ Hs) as Ht. unfold run_phase.
  destruct (terminal (nr_status r)) eqn:E; [left; by rewrite Ht, E|].
  rewrite (bool_decide_eq_false_2 (nr_status r = _)) by (intros Hx; by rewrite Hx in E).
  case_bool_decide; [by right|]. destruct (terminal (nr_status r')); [by right|by left].
Qed.

(** A key whose last attempt is running is live. *)
Lemma running_live db t k :
  graph_ok db t → runs_phase (runs_at db t k) = Running → k ∈ live_keys db t.
Proof.
  intros Hg. unfold runs_phase. destruct (last _) as [r|] eqn:E; [|done].
  apply last_Some_elem_of in E. rewrite runs_at_of in E.
  apply list_elem_of_filter in E as [<- Hr]. intros Hp. apply (go_live _ _ Hg); [done|].
  intros [Ht Hs]. unfold run_phase in Hp. by rewrite bool_decide_eq_false_2, Ht in Hp.
Qed.

(** ** Plan edits *)

Lemma add_accepted_entries db task t f ev cause k ds :
  plan_ok db t → add_accepted db task t f ev →
  live_entry (write_node t f (ev + 1) (append_version t (ev + 1) cause (ChAddNode f) db)) t k ds ↔
  (nf_node_key f = k ∧ nf_deps f = ds) ∨ live_entry db t k ds.
Proof.
  intros Hok Ha.
  destruct (add_accepted_rows db task t f ev cause Hok Ha) as (id & Hcur & _ & _ & _ & Hvis).
  unfold live_entry, live_nodes. rewrite Hcur, <-(aa_version _ _ _ _ _ Ha).
  setoid_rewrite Hvis. setoid_rewrite elem_of_app. setoid_rewrite list_elem_of_singleton. split.
  - intros (n & [Hn| ->] & Hk & Hd); [right; by exists n|left].
    change (decode_deps (PList (PStr <$> nf_deps f)) = Some ds) in Hd.
    rewrite decode_deps_strings in Hd. by injection Hd.
  - intros [[<- <-]|(n & Hn & ?)]; [|exists n; auto].
    eexists. split; [by right|]. split; [done|]. apply decode_deps_strings.
Qed.

Lemma add_accepted_step db task t f ev cause :
  graph_ok db t → add_accepted db task t f ev →
  plan_step (plan_of db t)
    (plan_of (write_node t f (ev + 1) (append_version t (ev + 1) cause (ChAddNode f) db)) t).
Proof.
  intros Hg Ha. pose proof (go_plan _ _ Hg) as Hok.
  pose proof (aa_version _ _ _ _ _ Ha) as Hev.
  assert (live_keys db t = pn_node_key <$> _visible_nodes db t ev) as Hl
    by (unfold live_keys, live_nodes; by rewrite <-Hev).
  assert (nf_node_key f ∉ live_keys db t) as Hfresh
    by (rewrite Hl; apply (aa_fresh _ _ _ _ _ Ha)).
  rewrite (plan_of_is (write_node _ _ _ _) t (_current_version db t + 1)
    (<[nf_node_key f := (nf_deps f, Idle)]> (p_nodes (plan_of db t)))).
  - apply plan_add; [by apply plan_of_None|]. intros d Hd.
    destruct (live_key_entry db t d Hok) as [e He]; [rewrite Hl; by apply (aa_deps _ _ _ _ _ Ha)|].
    eexists e, _. split; [|done]. by apply plan_of_lookup.
  - by apply (add_accepted_plan_ok db task).
  - destruct (add_accepted_rows db task t f ev cause Hok Ha) as (_ & -> & _). by rewrite Hev.
  - intros k ds ph. rewrite lookup_insert_Some, plan_of_lookup by done.
    rewrite (runs_at_eq db) by exact (write_node_runs_of t f (ev + 1) _ t).
    rewrite (add_accepted_entries db task) by done.
    pose proof (retired_phase _ (not_live_retired db t _ Hg Hfresh)) as Hidle. split.
    + intros [[[<- <-]|He] ->]; [left; by rewrite Hidle|]. right. split; [|done].
      destruct He as (n & Hn & <- & _). intros Heq. apply Hfresh. rewrite Heq.
      by apply list_elem_of_fmap_2.
    + intros [[<- [= <- <-]]|(_ & He & ->)]; [|by split; [right|]].
      split; [by left|]. by rewrite Hidle.
Qed.

Lemma discard_accepted_step db t key ev node cause ch :
  graph_ok db t → discard_accepted db t key ev node →
  plan_step (plan_of db t)
    (plan_of (set_nodes (update_where (is_row t key) (row_set_discarded (ev + 1)))
                (append_version t (ev + 1) cause ch db)) t).
Proof.
  intros Hg Ha. pose proof (go_plan _ _ Hg) as Hok.
  destruct (discard_accepted_rows db t key ev node cause ch Hok Ha) as (Hcur & _ & _ & Hvis).
  pose proof (da_version _ _ _ _ _ Ha) as Hev. set (db' := set_nodes _ _) in *.
  assert (live_nodes db t = _visible_nodes db t ev) as Hl by (unfold live_nodes; by rewrite <-Hev).
  rewrite (plan_of_is db' t (_current_version db t + 1) (delete key (p_nodes (plan_of db t)))).
  - pose proof (da_live _ _ _ _ _ Ha) as [Hn Hk]%live_get_Some.
    destruct (live_key_entry db t key Hok) as [ds Hds].
    { rewrite <-Hk. unfold live_keys. rewrite Hl. by apply list_elem_of_fmap_2. }
    apply (plan_discard _ _ key ds).
    + apply plan_of_lookup; [done|]. split; [done|]. symmetry. apply retired_phase.
      rewrite <-Hk. apply unsettled_none_retired, (da_settled _ _ _ _ _ Ha).
    + intros x e ph [(n & Hx & _ & He) _]%plan_of_lookup; [|done].
      rewrite Hl in Hx. by eapply (da_leaf _ _ _ _ _ Ha).
  - by eapply discard_accepted_plan_ok.
  - by rewrite Hcur, Hev.
  - intros k ds ph. rewrite lookup_delete_Some, plan_of_lookup by done.
    change (runs_at db' t k) with (runs_at db t k).
    unfold live_entry, live_nodes at 1. rewrite Hcur. setoid_rewrite Hvis. rewrite <-Hl.
    naive_solver.
Qed.

(** Row updates that keep the structure keep the entries. *)
Lemma structure_entries db db' t g k ds :
  plan_ok db t → keeps_structure g → nodes_of db' t = g <$> nodes_of db t →
  _current_version db t ≤ _current_version db' t →
  live_entry db' t k ds ↔ live_entry db t k ds.
Proof.
  intros Hok Hgs Hn Hv. destruct (live_rows db db' t g Hgs Hn Hv Hok) as [_ Hvis].
  unfold live_entry, live_nodes. setoid_rewrite Hvis. split.
  - intros (n & (m & -> & Hm) & Hk & Hd). destruct (Hgs m) as (_ & Hkm & Hdm & _).
    exists m. by rewrite <-Hkm, <-Hdm.
  - intros (m & Hm & Hk & Hd). destruct (Hgs m) as (_ & Hkm & Hdm & _).
    exists (g m). rewrite Hkm, Hdm. eauto.
Qed.

(** A ledger entry that leaves the live structure alone. *)
Lemma note_step db db' t g :
  plan_ok db t → plan_ok db' t → keeps_structure g → nodes_of db' t = g <$> nodes_of db t →
  _current_version db' t = _current_version db t + 1 → runs_of db' t = runs_of db t →
  plan_step (plan_of db t) (plan_of db' t).
Proof.
  intros Hok Hok' Hgs Hn Hv Hr.
  rewrite (plan_of_is db' t _ (p_nodes (plan_of db t)) Hok' Hv); [apply plan_note|].
  intros k ds ph. rewrite plan_of_lookup, (runs_at_eq db db') by done.
  by rewrite (structure_entries db db' t g) by (done || lia).
Qed.

(** ** Attempts *)

(** Only the phase of [k] may differ. *)
Lemma plan_of_phase db db' t g k ds :
  plan_ok db t → plan_ok db' t → keeps_structure g → nodes_of db' t = g <$> nodes_of db t →
  _current_version db' t = _current_version db t → live_entry db t k ds →
  (∀ x, x ≠ k → runs_at db' t x = runs_at db t x) →
  plan_of db' t = mkPlan (_current_version db t)
    (<[k := (ds, runs_phase (runs_at db' t k))]> (p_nodes (plan_of db t))).
Proof.
  intros Hok Hok' Hgs Hn Hv He Hr. apply plan_of_is; [done..|]. intros x e ph.
  rewrite lookup_insert_Some, plan_of_lookup by done.
  rewrite (structure_entries db db' t g) by (done || lia). split.
  - intros [Hx ->]. destruct (decide (k = x)) as [->|Hne]; [left|right].
    + split; [done|]. f_equal. by apply (live_entry_unique db t x).
    + by rewrite Hr.
  - intros [[<- [= <- <-]]|(Hne & Hx & ->)]; [done|]. by rewrite Hr.
Qed.

Lemma write_attempt_step db task t k node grant limit run :
  graph_ok db t → admissible db task t k node grant limit →
  nr_task_id run = t → nr_node_key run = k → nr_status run = "admitted" →
  plan_step (plan_of db t) (plan_of (write_attempt t k run db) t).
Proof.
  intros Hg Had Ht Hk Hs. pose proof (go_plan _ _ Hg) as Hok.
  assert (plan_ok (write_attempt t k run db) t) as Hok'.
  { eapply plan_ok_rows; [apply (row_set_armed_structure (db_now db) (is_row t k))
      |apply admit_rows|done|done]. }
  destruct (ad_deps _ _ _ _ _ _ _ Had) as (ds & Hds & Hdone).
  destruct (live_get_Some _ _ _ (ad_live _ _ _ _ _ _ _ Had)) as [Hn Hnk].
  rewrite (plan_of_phase db (write_attempt t k run db) t _ k ds Hok Hok'
    (row_set_armed_structure (db_now db) (is_row t k))).
  - rewrite write_attempt_runs_at, decide_True by done.
    unfold runs_phase at 1. rewrite last_snoc. unfold run_phase. rewrite Hs.
    apply plan_start.
    + apply plan_of_lookup; [done|]. split; [by exists node|].
      symmetry. apply retired_phase, Had.
    + intros d Hd. destruct (Hdone d Hd) as [Hl Hr].
      destruct (live_key_entry db t d Hok Hl) as [e He]. exists e, Done. split; [|done].
      apply plan_of_lookup; [done|]. split; [done|]. symmetry.
      by apply succeeded_phase; [apply Hg|].
  - apply admit_rows.
  - done.
  - by exists node.
  - intros x Hx. rewrite write_attempt_runs_at, decide_False by naive_solver.
    by rewrite app_nil_r.
Qed.

(** ** Operations as moves *)

(** The plan of [t] takes scheduler moves; every other plan stays. *)
Definition moves (t : string) (db db' : DB) : Prop :=
  (∀ t', t' ≠ t → plan_of db' t' = plan_of db t') ∧
  rtc plan_step (plan_of db t) (plan_of db' t).

Lemma moves_recorded t db db' : only_recorded db db' → moves t db db'.
Proof.
  intros Hr. split; [intros; by apply plan_of_recorded|].
  by rewrite (plan_of_recorded _ _ _ Hr).
Qed.

#[export] Instance moves_preorder t : PreOrder (moves t).
Proof.
  split; [by split|]. intros x y z [H1 H2] [H3 H4]. split; [|by etrans].
  intros t' Ht. by rewrite H3, H1.
Qed.

(** One scheduler move, then the record of the call. *)
Lemma moves_once t db db1 call :
  plan_step (plan_of db t) (plan_of db1 t) →
  (∀ t', t' ≠ t → nodes_of db1 t' = nodes_of db t' ∧ versions_of db1 t' = versions_of db t' ∧
                  runs_of db1 t' = runs_of db t') →
  moves t db (set_calls (λ cs, cs ++ [call]) db1).
Proof.
  intros Hs Hf. trans db1; [|apply moves_recorded; by exists call]. split; [|by apply rtc_once].
  intros t' Ht. destruct (Hf t' Ht) as (?&?&?). by apply plan_of_frame.
Qed.

Lemma add_node_locked_moves task t f ev cause db op db' :
  graph_ok db t → _add_node_locked task t f ev cause db = Ok (op, db') → moves t db db'.
Proof.
  intros Hg [(? & ? & call & _ & ->)|(? & call & _ & Ha & ->)]%add_node_locked_inv;
    [apply moves_recorded; by exists call|].
  rewrite <-(aa_version _ _ _ _ _ Ha). apply moves_once; [by eapply add_accepted_step|].
  intros t' Ht. rewrite nodes_of_write_other, versions_of_write_node, write_node_runs_of by done.
  by rewrite versions_of_append_other.
Qed.

Lemma discard_node_locked_moves task t key ev cause head claim db op db' :
  graph_ok db t → _discard_node_locked task t key ev cause head claim db = Ok (op, db') →
  moves t db db'.
Proof.
  intros Hg [(? & ? & call & _ & ->)|(call & node & snap & _ & Ha & _ & ->)]
    %discard_node_locked_inv; [apply moves_recorded; by exists call|].
  rewrite <-(da_version _ _ _ _ _ Ha). apply moves_once; [by eapply discard_accepted_step|].
  intros t' Ht. split; [by apply (update_where_other (append_version _ _ _ _ _))|].
  split; [by apply versions_of_append_other|done].
Qed.

Lemma apply_loop_moves task t cause edits ev db r db' :
  graph_ok db t → apply_loop task t cause edits ev db = Ok (r, db') → moves t db db'.
Proof.
  revert ev db. induction edits as [|[i e] edits IH]; intros ev db Hg; simpl; [by intros [= _ <-]|].
  destruct (_apply_one_edit task t e ev cause db) as [[op db1]|] eqn:E; simpl; [|done].
  assert (graph_ok db1 t ∧ moves t db db1) as [Hg1 Hm].
  { revert E. unfold _apply_one_edit. case_bool_decide; intros E;
      (split; [|by eauto using discard_node_locked_moves, add_node_locked_moves]);
      [by eapply discard_node_locked_graph_ok|by eapply add_node_locked_graph_ok]. }
  destruct (ok op); intros Hr; [trans db1; [done|by eapply IH]|]. by injection Hr as _ <-.
Qed.

Lemma apply_edits_moves t cause ev edits db op db' :
  graph_ok db t → apply_edits t cause ev edits db = Ok (op, db') → moves t db db'.
Proof.
  intros Hg. unfold apply_edits. destruct (_edits_error edits) as [code|].
  { intros (_ & _ & ?)%record_rejection_ok. by apply moves_recorded. }
  destruct (_lock_task db t) as [task|]; simpl; [|done].
  destruct (apply_loop _ _ _ _ _ db) as [[[v|[index bad]] db1]|] eqn:Hloop; simpl; [| |done].
  - edestruct finish_ok as (call & _ & _ & _ & _ & ->). intros [= _ <-].
    trans db1; [by eapply apply_loop_moves|]. apply moves_recorded. by exists call.
  - intros (_ & _ & ?)%record_rejection_ok. by apply moves_recorded.
Qed.

Lemma foreign_moves t cause ch db :
  (∀ t', graph_ok db t') → moves t db (append_version t (_current_version db t + 1) cause ch db).
Proof.
  intros Hg. split.
  - intros t' Ht. apply plan_of_frame; [done|by apply versions_of_append_other|done].
  - apply rtc_once, (note_step db _ t id); try done.
    + apply Hg.
    + apply go_plan. by apply foreign_graph_ok.
    + by rewrite list_fmap_id.
    + rewrite current_version_append by lia. by rewrite decide_True.
Qed.

Lemma renew_funded_attempt_moves t target ev rid db fields db' :
  graph_ok db t → renew_funded_attempt t target ev rid db = Ok (fields, db') → moves t db db'.
Proof.
  intros Hg Hr. pose proof (renew_funded_attempt_graph_ok _ _ _ _ _ _ _ t Hr Hg) as Hg'.
  revert Hr Hg'. unfold renew_funded_attempt.
  destruct (_lock_task db t) as [task|]; simpl; [|done].
  destruct (renewable _ _ _ _) as [[node|]|]; simpl; [|done..].
  destruct (dumps _) as [?|]; simpl; [|done].
  edestruct finish_ok as (call & _ & _ & _ & _ & ->). simpl. intros [= <- <-] Hg'.
  set (k := pn_node_key node) in *.
  set (g := row_set_max_attempts (py_succ (pn_max_attempts node))) in *.
  set (db1 := set_nodes (update_where (is_row t k) g) db) in *. apply moves_once.
  - apply (note_step db _ t (λ n, if is_row t k n then g n else n) (go_plan _ _ Hg));
      [|apply row_set_max_attempts_structure|by apply (nodes_of_update_where db)| |done].
    { by eapply plan_ok_frame, (go_plan _ _ Hg'). }
    rewrite current_version_append by (change (_current_version db1 t) with (_current_version db t); lia).
    by rewrite decide_True.
  - intros t' Ht. split; [by apply (update_where_other db)|].
    split; [by apply (versions_of_append_other db1)|done].
Qed.

Lemma admit_dispatch_moves `{FundingLedger, DispatchHooks} t q db op db' :
  graph_ok db t → admit_dispatch t q db = Ok (op, db') → moves t db db'.
Proof.
  intros Hg Ha. apply admit_dispatch_result in Ha.
  destruct Ha as [op db' _ _ Hrec|r key fields ctx pin db' _ _ _ _ _ _ Hrec|
    task node grant limit prompt fields ctx call k attempt excused pin _ _ Had _ _];
    [by apply moves_recorded..|].
  apply moves_once; [by eapply write_attempt_step|]. intros t' Ht.
  split; [by apply (update_where_other (set_runs _ _))|]. split; [done|].
  rewrite write_attempt_runs_of, decide_False by done. by rewrite app_nil_r.
Qed.

(** The step of a named run: its node may finish, nothing else changes. *)
Lemma run_written_step db t k a r f :
  graph_ok db t → _get_run db t k a = Ok r → run_step r (f r) →
  let db1 := set_runs (update_where (is_run t k a) f) db in
  graph_ok db1 t → rtc plan_step (plan_of db t) (plan_of db1 t).
Proof.
  intros Hg Hr Hs db1 Hg1. set (g := λ x, if is_run t k a x then f x else x).
  pose proof (run_update_one db t k a r f (go_ledger _ _ Hg k) Hr Hs) as Hstep.
  assert (∀ x, x ≠ k → runs_at db1 t x = runs_at db t x) as Hother.
  { intros x Hx. rewrite (runs_at_fmap db db1 t g) by done. apply update_where_id.
    intros y (_ & _ & Hy)%elem_of_runs_at. apply not_true_iff_false.
    rewrite is_run_spec. naive_solver. }
  assert (runs_phase (runs_at db1 t k) = runs_phase (runs_at db t k) ∨
    (runs_phase (runs_at db t k) = Running ∧ runs_phase (runs_at db1 t k) ≠ Running)) as Hph.
  { rewrite (runs_at_fmap db db1 t g) by done. unfold runs_phase. rewrite fmap_last.
    destruct (last (runs_at db t k)) as [x|] eqn:E; [|by left]. apply run_step_phase, Hstep.
    apply last_Some_elem_of, elem_of_runs_at in E. tauto. }
  destruct Hph as [Hsame|[Hrun Hend]].
  - unfold plan_of. simpl.
    assert (∀ n, plan_entry db1 t n = plan_entry db t n) as He.
    { intros n. unfold plan_entry. do 2 f_equal.
      destruct (decide (pn_node_key n = k)) as [->|?]; [done|by rewrite Hother]. }
    rewrite (list_fmap_ext _ _ _ (λ _ n _, He n)). done.
  - destruct (live_key_entry db t k (go_plan _ _ Hg)) as [ds Hds]; [by apply running_live|].
    apply rtc_once. rewrite (plan_of_phase db db1 t id k ds (go_plan _ _ Hg) (go_plan _ _ Hg1));
      [|done|by rewrite list_fmap_id|done..].
    apply plan_finish; [|done]. by apply plan_of_lookup; [apply Hg|].
Qed.

Lemma run_written_moves t k a db db' :
  graph_ok db t → run_written t k a db db' → moves t db db'.
Proof.
  intros Hg [? Hrec|r f call Hr Hs]; [by apply moves_recorded|].
  set (db1 := set_runs _ db). set (g := λ x, if is_run t k a x then f x else x).
  pose proof (run_update_one db t k a r f (go_ledger _ _ Hg k) Hr Hs) as Hg1.
  assert (run_update db db1) as Hu by (split; [done|]; split; [done|]; by exists g).
  trans db1; [|apply moves_recorded; by exists call]. split.
  - intros t' Ht. apply plan_of_frame; [done..|].
    rewrite (runs_of_fmap db db1 t' g) by done.
    apply update_where_id. intros y [Hy _]%list_elem_of_filter.
    apply not_true_iff_false. rewrite is_run_spec. naive_solver.
  - eapply run_written_step; [done..|]. by eapply run_update_graph_ok.
Qed.

Section refinement.
Context `{FundingLedger, DispatchHooks}.

Lemma graph_step_moves db db' :
  (∀ t, graph_ok db t) → graph_step db db' → ∃ t, moves t db db'.
Proof.
  intros Hg Hs. destruct Hs as [t cause ev f db op db' Hop|t key cause ev head claim db op db' Hop
    |t cause ev edits db op db' Hop|t target ev rid db fields db' Hop|t q db op db' Hop
    |t k a sid base db op db' Hop|t k a sid wid db op db' Hop|t k a e db op db' Hop
    |t cause ch db _|tasks calls starts now db]; [exists t..|exists ""%string].
  - revert Hop. unfold add_node. destruct (_lock_task db t); simpl; [|done].
    by apply add_node_locked_moves.
  - revert Hop. unfold discard_node. destruct (_lock_task db t); simpl; [|done].
    by apply discard_node_locked_moves.
  - by eapply apply_edits_moves.
  - by eapply renew_funded_attempt_moves.
  - by eapply admit_dispatch_moves.
  - by eapply run_written_moves, record_dispatch_written.
  - by eapply run_written_moves, bind_node_session_written.
  - by eapply run_written_moves, record_outcome_written.
  - by apply foreign_moves.
  - split; [|done]. intros t' _. by apply plan_of_frame.
Qed.

Lemma reachable_moves db t : reachable db → rtc plan_step empty_plan (plan_of db t).
Proof.
  intros Hr. revert db Hr. refine (rtc_ind_r _ _ _ _); [done|]. intros db db' Hr Hs IH.
  destruct (graph_step_moves db db' (reachable_ok db Hr) Hs) as (t' & Hother & Hsame).
  destruct (decide (t = t')) as [->|Hne]; [by etrans|]. by rewrite Hother.
Qed.

(** C2: the graph implements a scheduler.  Read every task's plan as a map from
    node keys to dependencies and a phase (idle, running, done).  Then every
    reachable plan is one the scheduler reaches from the empty plan, every step
    of the graph moves the plan of at most one task, by scheduler moves only
    (add a fresh node over existing ones, discard an idle leaf, note a ledger
    entry, start an idle node whose dependencies are done, finish a running
    node), and in what is reached a node that is running or done has all its
    dependencies done. *)
Theorem graph_refines_scheduler db :
  reachable db →
  (∀ t, rtc plan_step empty_plan (plan_of db t) ∧ plan_sound (plan_of db t)) ∧
  (∀ db', graph_step db db' → ∃ t,
     (∀ t', t' ≠ t → plan_of db' t' = plan_of db t') ∧
     rtc plan_step (plan_of db t) (plan_of db' t)).
Proof.
  intros Hr. split; [|intros db'; apply graph_step_moves; by apply reachable_ok].
  intros t. pose proof (reachable_moves db t Hr) as Hm. split; [done|].
  assert (plan_sound empty_plan) as Hsound by done. revert Hsound.
  induction Hm; eauto using plan_step_sound.
Qed.
End refinement.
