(* ===== verification/GraphClaims.v ===== *)
(** * Plan graph: properties of reachable states

    What the invariant of [GraphSafety] gives to the callers of the graph:
    the plan is a dependency DAG, execution follows it, the attempts of a node
    form one bounded sequence, settled outcomes are permanent, and a pin the
    graph hands out is one the node workflow accepts.
    Then the pins: what they carry, and their replay. *)

From Stdlib Require Import SpecFloat.
From stdpp Require Import prelude list strings pretty relations.
From S2P Require Import Prelude PyValue Worklist GraphData GraphAccounting GraphPlan GraphInvariant GraphBatch GraphOrder GraphRuns GraphLedger GraphSafety.
Local Open Scope Z_scope.

(** ** The ledger only grows *)

Lemma runs_kept (l l' : list SwarmNodeRun) (g : SwarmNodeRun → SwarmNodeRun) extra :
  (∀ r, r ∈ l → run_step r (g r)) → l' = (g <$> l) ++ extra →
  ∀ i r, l !! i = Some r → ∃ r', l' !! i = Some r' ∧ run_step r r'.
Proof.
  intros Hg -> i r Hi. exists (g r). split.
  - rewrite lookup_app_l by (rewrite length_fmap; by eapply lookup_lt_Some).
    by rewrite list_lookup_fmap, Hi.
  - apply Hg. by eapply list_elem_of_lookup_2.
Qed.

Lemma runs_same (l l' : list SwarmNodeRun) :
  l' = l → ∀ i r, l !! i = Some r → ∃ r', l' !! i = Some r' ∧ run_step r r'.
Proof. intros -> i r Hi. exists r. split; [done|apply run_step_refl]. Qed.

Lemma run_update_kept db db' :
  run_update db db' →
  ∀ i r, db_runs db !! i = Some r → ∃ r', db_runs db' !! i = Some r' ∧ run_step r r'.
Proof.
  intros (_ & _ & g & Hg & Hr). eapply (runs_kept _ _ g []); [done|].
  by rewrite app_nil_r.
Qed.

Section claims.
Context `{FundingLedger, DispatchHooks}.

Lemma graph_step_runs db db' :
  graph_step db db' → (∀ t, graph_ok db t) →
  ∀ i r, db_runs db !! i = Some r → ∃ r', db_runs db' !! i = Some r' ∧ run_step r r'.
Proof.
  intros Hs Hg. destruct Hs as [t cause ev f db op db' Hop|t key cause ev head claim db op db' Hop
    |t cause ev edits db op db' Hop|t target ev rid db fields db' Hop|t q db op db' Hop
    |t k a sid base db op db' Hop|t k a sid wid db op db' Hop|t k a e db op db' Hop
    |t cause ch db _|tasks calls starts now db].
  - apply runs_same. revert Hop. unfold add_node. destruct (_lock_task db t); simpl; [|done].
    intros [(_ & _ & call & ->)|(_ & _ & _ & _ & _ & Hr & _)]%add_node_locked_cases; done.
  - apply runs_same. revert Hop. unfold discard_node. destruct (_lock_task db t); simpl; [|done].
    intros [(_ & _ & call & ->)|(_ & _ & _ & _ & _ & Hr & _)]%discard_node_locked_cases; done.
  - apply runs_same.
    apply apply_edits_cases in Hop as [(_ & _ & call & ->)|(_ & _ & _ & _ & _ & _ & Hr & _)]; done.
  - apply runs_same. revert Hop. unfold renew_funded_attempt.
    destruct (_lock_task db t); simpl; [|done].
    destruct (renewable _ _ _ _) as [[node|]|]; simpl; [|done..].
    destruct (dumps _); simpl; [|done].
    edestruct finish_ok as (call & _ & _ & _ & _ & ->). by intros [= _ <-].
  - apply admit_dispatch_result in Hop.
    destruct Hop as [op db' _ _ [call ->]|r key fields ctx pin db' _ _ _ _ _ _ [call ->]|].
    + by apply runs_same.
    + by apply runs_same.
    + eapply (runs_kept _ _ id); [intros; apply run_step_refl|].
      by rewrite list_fmap_id.
  - apply run_update_kept. eapply run_written_update; [apply Hg|by eapply record_dispatch_written].
  - apply run_update_kept. eapply run_written_update; [apply Hg|by eapply bind_node_session_written].
  - apply run_update_kept. eapply run_written_update; [apply Hg|by eapply record_outcome_written].
  - by apply runs_same.
  - by apply runs_same.
Qed.

(** ** Progress *)

Definition node_succeeded (db : DB) (t k : string) : Prop :=
  ∃ r, r ∈ runs_at db t k ∧ nr_status r = "succeeded".

(** A live node without success is active, ready, or waits for a live node
    without success. *)
Lemma ready_or_waiting db t n :
  graph_ok db t → n ∈ live_nodes db t → ¬ node_succeeded db t (pn_node_key n) →
  ∃ deps, _node_deps n = Ok deps ∧
    (((∃ r, r ∈ runs_at db t (pn_node_key n) ∧ nr_status r ∈ ACTIVE_STATUSES) ∨
      (Forall retired (runs_at db t (pn_node_key n)) ∧
       unmet_dependency (live_nodes db t) (_runs db t) deps = None)) ∨
     ∃ d m, d ∈ deps ∧ m ∈ live_nodes db t ∧ pn_node_key m = d ∧ ¬ node_succeeded db t d).
Proof.
  intros Hg Hn Hs. pose proof (go_plan _ _ Hg) as [_ Hd Hb Hcl _].
  destruct (Hd n) as [deps Hdeps]; [by apply elem_of_live in Hn as [? _]|].
  exists deps. split; [unfold _node_deps; by rewrite Hdeps|].
  destruct (decide (Forall retired (runs_at db t (pn_node_key n)))) as [Hret|Hret].
  - destruct (unmet_dependency _ _ deps) as [d|] eqn:Hu; [right|by left; right].
    apply find_first_Some in Hu as [Hin Hu].
    assert (dep_edge (live_nodes db t) (pn_node_key n) d) as He by by exists n, deps.
    apply Hcl, list_elem_of_fmap in He as (m & -> & Hm).
    exists (pn_node_key m), m. split; [done|]. split; [done|]. split; [done|].
    intros (r & Hr & Hok).
    rewrite (proj2 (live_mem_spec _ _)) in Hu by (by apply list_elem_of_fmap_2).
    apply elem_of_runs_at in Hr as (Hr & Ht & Hkr). simpl in Hu. apply negb_true_iff in Hu.
    rewrite existsb_false in Hu. specialize (Hu r (proj2 (elem_of_runs _ _ _) (conj Hr Ht))).
    by rewrite !bool_decide_eq_true_2 in Hu.
  - left. left. apply not_Forall_Exists in Hret; [|intros; apply _].
    apply Exists_exists in Hret as (r & Hr & Hnr). exists r. split; [done|].
    apply known_not_retired; [eapply node_ledger_known, Hr; apply Hg|].
    destruct (terminal (nr_status r)) eqn:E; [|done]. destruct Hnr. split; [done|].
    intros Hx. apply Hs. by exists r.
Qed.

(** ** Claims *)

(** C13: in every reachable state the live plan of a task is a DAG over its own
    nodes: one row per node key, every stored dependency list decodes, every
    dependency of a live node is a live node, and no node reaches itself. *)
Theorem reachable_plan_dag db t :
  reachable db →
  let live := live_nodes db t in
  NoDup (pn_node_key <$> nodes_of db t) ∧
  (∀ n, n ∈ live → ∃ deps, _node_deps n = Ok deps ∧
     ∀ d, d ∈ deps → d ∈ pn_node_key <$> live) ∧
  acyclic (dep_edge live).
Proof.
  intros Hr live. pose proof (go_plan _ _ (reachable_ok db Hr t)) as [Hk Hd Hb Hcl Hac].
  split; [done|]. split; [|done]. intros n Hn.
  destruct (Hd n) as [deps Hdeps]; [by apply elem_of_live in Hn as [? _]|].
  exists deps. unfold _node_deps. rewrite Hdeps. split; [done|].
  intros d Hin. apply (Hcl (pn_node_key n)). by exists n, deps.
Qed.

(** C14: execution follows the plan.  In every reachable state an attempt that
    is active or has succeeded belongs to a live node, and every dependency of
    that node is live and has a succeeded attempt. *)
Theorem reachable_execution_order db t r :
  reachable db → r ∈ runs_of db t → ¬ retired r →
  ∃ n deps, n ∈ live_nodes db t ∧ pn_node_key n = nr_node_key r ∧
    _node_deps n = Ok deps ∧
    ∀ d, d ∈ deps → d ∈ live_keys db t ∧
      ∃ r', r' ∈ runs_at db t d ∧ nr_status r' = "succeeded".
Proof.
  intros Hreach Hr Hret. pose proof (reachable_ok db Hreach t) as Hg.
  pose proof (go_live _ _ Hg r Hr Hret) as (n & Hk & Hn)%list_elem_of_fmap.
  pose proof (go_plan _ _ Hg) as [_ Hd Hb Hcl _].
  destruct (Hd n) as [deps Hdeps]; [by apply elem_of_live in Hn as [? _]|].
  exists n, deps. unfold _node_deps. rewrite Hdeps. split; [done|]. split; [done|].
  split; [done|]. intros d Hin. split; [apply (Hcl (pn_node_key n)); by exists n, deps|].
  eapply go_deps; [exact Hg|exact Hn| |done|done]. rewrite <-Hk.
  intros Hall. apply Hret. rewrite Forall_forall in Hall. apply Hall.
  rewrite runs_at_of. by apply list_elem_of_filter.
Qed.

(** Every node that is not done waits for one that runs or could run. *)
Lemma progress_node db t n :
  reachable db → n ∈ live_nodes db t → ¬ node_succeeded db t (pn_node_key n) →
  ∃ m deps, m ∈ live_nodes db t ∧
    rtc (dep_edge (live_nodes db t)) (pn_node_key n) (pn_node_key m) ∧
    _node_deps m = Ok deps ∧
    ((∃ r, r ∈ runs_at db t (pn_node_key m) ∧ nr_status r ∈ ACTIVE_STATUSES) ∨
     (Forall retired (runs_at db t (pn_node_key m)) ∧
      unmet_dependency (live_nodes db t) (_runs db t) deps = None)).
Proof.
  intros Hreach Hn Hs. pose proof (reachable_ok db Hreach t) as Hg.
  pose proof (go_plan _ _ Hg) as [_ _ _ Hcl Hac].
  assert (sn (dep_edge (live_nodes db t)) (pn_node_key n)) as Hsn
    by (eapply acyclic_sn; [exact Hac|exact Hcl]).
  remember (pn_node_key n) as k eqn:Hk. revert n Hn Hk Hs.
  induction Hsn as [k _ IH]. intros n Hn -> Hs.
  destruct (ready_or_waiting db t n Hg Hn Hs) as (deps & Hd & [Hready|(d & m & Hin & Hm & <- & Hms)]).
  - exists n, deps. done.
  - assert (dep_edge (live_nodes db t) (pn_node_key n) (pn_node_key m)) as He.
    { exists n, deps. split; [done|]. split; [done|]. split; [|done].
      revert Hd. unfold _node_deps. case_match; [by intros [= ->]|done]. }
    destruct (IH _ He m Hm eq_refl Hms) as (m' & deps' & Hm' & Hr & Hrest).
    exists m', deps'. split; [done|]. split; [by eapply rtc_l|done].
Qed.

(** The attempts of a node are one sequence.  In every reachable state they
    are numbered 1, 2, ... without gaps or repeats in the order they were
    admitted, every attempt but the last is finished and did not succeed (so at
    most one is ever active), and no dispatch key owns two attempts. *)
Theorem reachable_attempt_sequence db t k :
  reachable db →
  nr_attempt <$> runs_at db t k = upto (length (runs_at db t k)) ∧
  (∀ r, r ∈ runs_at db t k → ¬ retired r → last (runs_at db t k) = Some r) ∧
  NoDup (omap nr_dispatch_key (runs_of db t)).
Proof.
  intros Hr. pose proof (reachable_ok db Hr t) as Hg. split; [|split].
  - by apply node_ledger_attempts, go_ledger.
  - intros r Hin Hn. apply node_ledger_last; [by apply go_ledger|done|done].
  - by apply go_dispatch.
Qed.

(** The version ledger of a task has no gaps and no repeats: in every
    reachable state its versions are 1, 2, ..., and the current version is
    their number. *)
Theorem reachable_version_ledger db t :
  reachable db →
  pv_version <$> versions_of db t = upto (length (versions_of db t)) ∧
  _current_version db t = Z.of_nat (length (versions_of db t)).
Proof.
  intros Hr. pose proof (go_versions _ _ (reachable_ok db Hr t)) as Hv.
  split; [done|]. by apply current_version_length.
Qed.

(** C17: terminal execution is never reopened.  Whatever operations follow, a
    finished attempt keeps its row, its status, cost, head, outcome and finish
    time, its pin and its reservation. *)
Theorem settled_outcome_permanent db db' i r :
  reachable db → rtc graph_step db db' → db_runs db !! i = Some r →
  terminal (nr_status r) = true →
  ∃ r', db_runs db' !! i = Some r' ∧ run_step r r' ∧ nr_status r' = nr_status r.
Proof.
  intros Hreach Hs. pose proof (reachable_ok db Hreach) as Hg. clear Hreach.
  revert r. induction Hs as [db|db db1 db2 Hs _ IH]; intros r Hi Ht.
  { exists r. split; [done|]. split; [apply run_step_refl|done]. }
  destruct (graph_step_runs _ _ Hs Hg i r Hi) as (r1 & Hi1 & Hs1).
  pose proof (run_step_terminal _ _ Hs1 Ht) as Hst.
  destruct (IH (graph_step_ok _ _ Hs Hg) r1 Hi1) as (r2 & Hi2 & Hs2 & Hst2); [by rewrite Hst|].
  exists r2. split; [done|]. split; [by eapply run_step_trans|congruence].
Qed.

(** C39: the cycle check is exact.  On the live plan of a reachable state it
    always terminates with an answer, and it answers yes exactly when some
    proposed dependency already reaches the new key. *)
Theorem would_cycle_exact db t key deps :
  reachable db →
  ∃ b, _would_cycle key deps (live_nodes db t) = Ok b ∧
    (b = true ↔ ∃ d, d ∈ deps ∧ rtc (dep_edge (live_nodes db t)) d key).
Proof.
  intros Hr. pose proof (go_plan _ _ (reachable_ok db Hr t)) as [Hk Hd Hb _ _].
  apply would_cycle_reaches; [by apply visible_keys_NoDup|].
  intros n Hn. apply Hd. by apply elem_of_live in Hn as [? _].
Qed.

End claims.

(** * Plan graph: pins

    The immutable pin of an attempt: what it carries, that the node workflow
    accepts it, and that asking again for the same dispatch returns it. *)

(** ** Dicts *)

Lemma filter_dict_set (P : string * pyval → Prop) `{∀ p, Decision (P p)} k v d :
  (∀ w, ¬ P (k, w)) → filter P (dict_set k v d) = filter P d.
Proof.
  intros Hk. induction d as [|[k' v'] d IH]; simpl.
  - rewrite filter_cons. by rewrite decide_False.
  - case_bool_decide as E; rewrite !filter_cons; [subst; by rewrite !decide_False|].
    by rewrite IH.
Qed.

Lemma filter_dict_update (P : string * pyval → Prop) `{∀ p, Decision (P p)} d e :
  (∀ k w, k ∈ e.*1 → ¬ P (k, w)) → filter P (dict_update d e) = filter P d.
Proof.
  unfold dict_update. revert d. induction e as [|[k v] e IH]; intros d He; [done|]. simpl.
  rewrite IH by (intros; apply He; by constructor).
  apply filter_dict_set. intros w. apply He. constructor.
Qed.

Lemma filter_all {A} (P : A → Prop) `{∀ x, Decision (P x)} l : Forall P l → filter P l = l.
Proof. induction 1 as [|x l Hx _ IH]; [done|]. by rewrite filter_cons, decide_True, IH. Qed.

(** A value whose dicts have distinct keys, as Python's do. *)
Fixpoint py_wf (v : pyval) : bool :=
  match v with
  | PList l => forallb py_wf l
  | PDict kv => bool_decide (NoDup kv.*1) && forallb (λ p, py_wf p.2) kv
  | _ => true
  end.

Lemma xeq_refl x : x ≠ XNaN → xeq x x = true.
Proof.
  intros Hx. unfold xeq, xcompare. destruct x as [m e|s|]; [|by destruct s|done].
  by rewrite Z.compare_refl.
Qed.

Lemma assoc_get_NoDup {A} k (v : A) d : NoDup d.*1 → (k, v) ∈ d → assoc_get k d = Some v.
Proof.
  induction d as [|[k' v'] d IH]; [intros _ []%elem_of_nil|]. simpl.
  intros [Hk Hd]%NoDup_cons [[= -> ->]|Hin]%elem_of_cons.
  - by rewrite bool_decide_eq_true_2.
  - case_bool_decide as E; [|by apply IH]. subst. destruct Hk.
    apply list_elem_of_fmap. by exists (k, v).
Qed.

(** Serialisable values equal themselves. *)
Lemma py_eq_refl v : json_ok v = true → py_wf v = true → py_eq v v = true.
Proof.
  induction v as [|b|z|f|s|l IH|kv IH|s] using pyval_nested_ind; simpl; intros Hj Hw;
    try done; try (by apply xeq_refl); try (by apply bool_decide_eq_true).
  - apply xeq_refl. by destruct f.
  - revert Hj Hw. induction IH as [|x l Hx _ IHl]; simpl; [done|].
    intros [??]%andb_true_iff [??]%andb_true_iff. by rewrite Hx, IHl.
  - apply andb_true_iff in Hw as [Hnd%bool_decide_eq_true Hw].
    rewrite Nat.eqb_refl. simpl.
    match goal with |- ?go kv = true =>
      enough (∀ d, Forall (λ p, json_ok p.2 = true → py_wf p.2 = true → py_eq p.2 p.2 = true) d →
        forallb (λ p, json_ok p.2) d = true → forallb (λ p, py_wf p.2) d = true →
        d ⊆ kv → go d = true) as Hgo by by apply Hgo end.
    clear IH Hj Hw. intros d IH. induction IH as [|[k x] d Hx _ IHd]; simpl; [done|].
    intros [Hjx Hj]%andb_true_iff [Hwx Hw]%andb_true_iff Hsub. simpl in *.
    rewrite (assoc_get_NoDup k x) by (done || apply Hsub; constructor).
    rewrite Hx by done. simpl. apply IHd; [done|done|].
    intros p Hp. apply Hsub. by constructor.
Qed.

(** ** What a pin carries *)

Definition pin_entries (task_id : string) (node : SwarmPlanNode) (prompt : string)
    (attempt limit excused : Z) (model : pyval) : list (string * pyval) :=
  [ ("task_id", PStr task_id); ("node_key", PStr (pn_node_key node));
    ("attempt", PInt attempt); ("prompt", PStr prompt);
    ("model", if truthy model then model else pn_model node);
    ("max_cost_usd", pn_max_cost_usd node);
    ("max_attempts", PInt (limit + excused));
    ("turn_timeout_seconds", pn_turn_timeout_seconds node) ].

Lemma stepped_keys q k : k ∈ (stepped q).*1 → k = "escalated_from"%string ∨ k = "escalation_reason"%string.
Proof.
  unfold stepped. destruct (aq_escalation q) as [e|]; [|intros []%elem_of_nil].
  simpl. destruct (truthy _), (truthy _); simpl;
    rewrite ?elem_of_cons, ?elem_of_nil; naive_solver.
Qed.

Lemma pin_entry ctx t node prompt a limit excused model q pre k v post :
  pin_entries t node prompt a limit excused model = pre ++ (k, v) :: post →
  k ∉ post.*1 → k ≠ "escalated_from"%string → k ≠ "escalation_reason"%string →
  dict_get k (make_pin ctx t node prompt a limit excused model (stepped q)) = v.
Proof.
  intros He Hp H1 H2. unfold make_pin.
  change (dict_get k (dict_update ctx
    (pin_entries t node prompt a limit excused model ++ stepped q)) = v).
  rewrite He, <-app_assoc. simpl. apply dict_get_update.
  rewrite fmap_app, elem_of_app. intros [?|[?|?]%stepped_keys]; done.
Qed.

(** The context of a pin, read back from it. *)
Lemma pin_context ctx t node prompt a limit excused model q fields :
  fields ⊆ "read_only" :: _CONTEXT_FIELDS → Forall (λ p : string * pyval, p.1 ∈ fields) ctx →
  filter (λ p : string * pyval, p.1 ∈ "read_only" :: fields)
    (make_pin ctx t node prompt a limit excused model (stepped q)) = ctx.
Proof.
  intros Hsub Hctx. unfold make_pin.
  rewrite filter_dict_update.
  - apply filter_all. eapply Forall_impl; [exact Hctx|]. intros p ?. by right.
  - intros k w Hk Hin. simpl in Hin. assert (k ∈ "read_only" :: _CONTEXT_FIELDS) as Hf.
    { apply elem_of_cons in Hin as [->|Hin]; [constructor|]. by apply Hsub. }
    rewrite fmap_app, elem_of_app in Hk. destruct Hk as [Hk|Hk%stepped_keys].
    + simpl in Hk. rewrite !elem_of_cons, elem_of_nil in Hk.
      repeat destruct Hk as [->|Hk]; [absurd_in Hf..|done].
    + destruct Hk as [-> | ->]; absurd_in Hf.
Qed.

(** Without a read-only marker the context check reads no table. *)
Lemma context_fields_plain `{DispatchHooks} db t k c fields ctx :
  has_key "read_only" c = false →
  context_fields db t k (PDict c) = Ok (Some (fields, ctx)) ↔
  fields = _CONTEXT_FIELDS ∧ ctx = c ∧ json_ok (PDict c) = true ∧
  Forall (λ p : string * pyval, p.1 ∈ _CONTEXT_FIELDS) c.
Proof.
  intros Hro. unfold context_fields. rewrite Hro. simpl (_ ≫= _).
  rewrite Forall_forall.
  assert (forallb (λ p, str_in p.1 _CONTEXT_FIELDS) c = true ↔
    ∀ x, x ∈ c → x.1 ∈ _CONTEXT_FIELDS) as Hall.
  { rewrite forallb_forall. split; intros Hc x Hx.
    - apply list_elem_of_In, Hc, bool_decide_eq_true in Hx. done.
    - apply bool_decide_eq_true, Hc, list_elem_of_In, Hx. }
  rewrite <-Hall. simpl.
  destruct (forallb (λ p, str_in p.1 _) c), (forallb (λ p, json_ok p.2) c); simpl;
    (split; [intros [=]; by subst|intros (-> & -> & ? & ?); done]).
Qed.

(** ** Attempts keep their identity *)

Definition same_attempt (r r' : SwarmNodeRun) : Prop :=
  nr_task_id r' = nr_task_id r ∧ nr_node_key r' = nr_node_key r ∧
  nr_attempt r' = nr_attempt r ∧ nr_dispatch_key r' = nr_dispatch_key r ∧
  nr_pin_json r' = nr_pin_json r.

Lemma same_attempt_later `{FundingLedger, DispatchHooks} db db' i r :
  (∀ t, graph_ok db t) → rtc graph_step db db' → db_runs db !! i = Some r →
  (∀ t, graph_ok db' t) ∧ ∃ r', db_runs db' !! i = Some r' ∧ same_attempt r r'.
Proof.
  intros Hg Hs. revert r. induction Hs as [db|db db1 db2 Hs _ IH]; intros r Hi.
  { split; [done|]. by exists r. }
  destruct (graph_step_runs _ _ Hs Hg i r Hi) as (r1 & Hi1 & [_ ? ? ? ? ? _ _ _ _ _]).
  destruct (IH (graph_step_ok _ _ Hs Hg) r1 Hi1) as (Hg2 & r2 & Hi2 & (?&?&?&?&?)).
  split; [done|]. exists r2. split; [done|]. repeat split; congruence.
Qed.

(** A dispatch key finds the one run that owns it. *)
Lemma find_dispatch db t r key :
  graph_ok db t → r ∈ runs_of db t → nr_dispatch_key r = Some key →
  find_first (λ r, bool_decide (nr_dispatch_key r = Some key)) (_runs db t) = Some r.
Proof.
  intros Hg Hr Hk. pose proof (go_dispatch _ _ Hg) as Hnd.
  apply list_elem_of_filter in Hr as [Ht Hr].
  destruct (find_first _ _) as [r'|] eqn:E.
  - apply find_first_Some in E as [[Hr' Ht']%elem_of_runs Hk'%bool_decide_eq_true]. f_equal.
    assert (r ∈ runs_of db t) as Hin by by apply list_elem_of_filter.
    assert (r' ∈ runs_of db t) as Hin' by by apply list_elem_of_filter.
    revert Hnd Hin Hin'. generalize (runs_of db t) as l. clear - Hk Hk'.
    induction l as [|x l IH]; [intros _ []%elem_of_nil|]. simpl.
    intros Hnd [->|Hin]%elem_of_cons [->|Hin']%elem_of_cons; try done.
    + rewrite Hk in Hnd. apply NoDup_cons in Hnd as [[] _].
      apply list_elem_of_omap. eauto.
    + rewrite Hk' in Hnd. apply NoDup_cons in Hnd as [[] _].
      apply list_elem_of_omap. eauto.
    + apply IH; [|done..]. destruct (nr_dispatch_key x); [by apply NoDup_cons in Hnd as [_ ?]|done].
  - rewrite find_first_None in E. specialize (E r).
    rewrite elem_of_runs, bool_decide_eq_false in E. by destruct E.
Qed.

(** What an accepted context is, and that only a read-only one reads a table. *)
Lemma context_fields_inv `{DispatchHooks} db t k c fields ctx :
  context_fields db t k (PDict c) = Ok (Some (fields, ctx)) →
  ctx = c ∧ json_ok (PDict c) = true ∧ Forall (λ p : string * pyval, p.1 ∈ fields) c ∧
  fields ⊆ "read_only"%string :: _CONTEXT_FIELDS.
Proof.
  unfold context_fields. intros (allowed & Ha & Hq)%res_bind_ok. destruct allowed as [fs|]; [|done].
  destruct (forallb _ c && json_ok _) eqn:E; [|done]. apply andb_true_iff in E as [Hall Hj]. injection Hq as <- <-.
  split; [done|]. split; [done|]. split.
  - apply Forall_forall. intros p Hp. rewrite forallb_forall in Hall. apply list_elem_of_In, Hall, bool_decide_eq_true in Hp. done.
  - destruct (has_key "read_only" c); [|injection Ha as <-; by intros x ?; right].
    destruct (_ || _); [done|]. apply res_bind_ok in Ha as (schema & _ & Ha). destruct (negb _); [done|].
    apply res_bind_ok in Ha as ([] & _ & Ha); [|done]. by injection Ha as <-.
Qed.
Lemma context_fields_later `{DispatchHooks} db db' t k c :
  (has_key "read_only" c = true → dispatch_schema db' t k = dispatch_schema db t k) →
  context_fields db' t k (PDict c) = context_fields db t k (PDict c).
Proof. intros Hs. unfold context_fields. destruct (has_key "read_only" c); [by rewrite Hs|done]. Qed.

(** An admission that returned a pin left the run that owns it. *)
Lemma admitted_run `{FundingLedger, DispatchHooks} t q db op db' c key :
  admit_dispatch t q db = Ok (op, db') → ok op = true →
  aq_dispatch_key q = Some key → admit_context q = PDict c → py_wf (PDict c) = true →
  valid_dispatch_key (Some key) = true ∧ ∃ fields,
  context_fields db t (aq_node_key q) (PDict c) = Ok (Some (fields, c)) ∧
  ∃ i r pin, db_runs db' !! i = Some r ∧ nr_task_id r = t ∧ nr_dispatch_key r = Some key ∧
    op = admitted_op (_current_version db t) (nr_attempt r) pin ∧
    replay_pin (aq_node_key q) fields c r = Some pin.
Proof.
  intros Ha Hok Hq Hc Hwf. apply admit_dispatch_result in Ha.
  destruct Ha as [op db' Hf _ _|r key' fields ctx pin db' Hval Hctx Hq' Hr Hk Hp [call ->]|
    task node grant limit prompt fields ctx call k attempt excused pin Hval Hctx Had Hkey _].
  - by rewrite Hf in Hok.
  - rewrite Hq in Hq'. injection Hq' as <-. rewrite Hc in Hctx.
    destruct (context_fields_inv _ _ _ _ _ _ Hctx) as (-> & _). split; [done|]. exists fields. split; [done|].
    apply list_elem_of_filter in Hr as [Ht [i Hi]%list_elem_of_lookup_1].
    by exists i, r, pin.
  - rewrite Hc in Hctx. destruct (context_fields_inv _ _ _ _ _ _ Hctx) as (-> & Hj & Hall & Hsub).
    rewrite Hq in Hval. split; [done|]. exists fields. split; [done|].
    exists (length (db_runs db)), (new_run db t k attempt (aq_dispatch_key q) pin
      (pn_max_cost_usd node)), pin. simpl.
    rewrite lookup_app_r, Nat.sub_diag by done. repeat (split; [done|]).
    unfold replay_pin. cbn [new_run nr_pin_json nr_node_key]. unfold pin at 1.
    rewrite pin_context by done.
    rewrite bool_decide_eq_true_2 by done. by rewrite py_eq_refl.
Qed.

(** ** Without continuation grants *)

Definition no_grants (db : DB) (t : string) : Prop :=
  ∀ v g, v ∈ versions_of db t → pv_change v ≠ ChContinueEvidence g.

Lemma live_item_no_grant db t k item :
  no_grants db t → live_item db t k = Ok item → nv_evidence_continuation item = None.
Proof.
  intros Hno. unfold live_item, load_graph, project. simpl.
  destruct (res_map _node_fields _) as [nodes|] eqn:Hn; simpl; [|done].
  assert (omap (λ v, match pv_change v with ChContinueEvidence g => Some g | _ => None end)
    (filter (λ v, pv_task_id v = t ∧ pv_version v ≤ _current_version db t) (db_versions db))
    = []) as ->.
  { destruct (omap _ _) as [|g l] eqn:E; [done|].
    assert (g ∈ g :: l) as Hg by constructor. rewrite <-E in Hg.
    apply list_elem_of_omap in Hg as (v & [[? _] ?]%list_elem_of_filter & Hv).
    destruct (pv_change v) eqn:Hch; try done. exfalso. eapply Hno; [|exact Hch].
    by apply list_elem_of_filter. }
  simpl. destruct (res_map _ nodes) as [views|] eqn:Hv; simpl; [|done].
  destruct (find_first _ views) as [v|] eqn:Hf; [|done]. intros [= <-].
  apply find_first_Some in Hf as [Hin _].
  destruct (res_map_ok_inv _ _ _ _ Hv Hin) as (x & Hx & [= <-]). simpl.
  destruct (res_map_ok_inv _ _ _ _ Hn Hx) as (n & _ & Hnf). revert Hnf.
  unfold _node_fields. destruct (_node_deps n); simpl; [|done]. by intros [= <-].
Qed.

Lemma valid_cost_positive v :
  _valid_cost false v = true →
  (∃ z, v = PInt z) ∨ (∃ f, v = PFloat f) → math_isfinite v = Ok true ∧
  ∃ x, xnum_of v = Some x ∧ xlt (XFin 0 0) x = true.
Proof.
  unfold _valid_cost. intros Hv Hn. destruct (is_number v) eqn:Hnum; [|done]. simpl in Hv.
  destruct (math_isfinite v) as [b|]; [|done]. destruct (xnum_of v) as [x|]; [|done].
  apply andb_true_iff in Hv as [-> ?]. eauto.
Qed.

(** The numeric fences hold of a pin built from checked bounds. *)
Lemma pin_bounds_ok ctx t node prompt a limit excused model q :
  row_bounds node → pn_max_attempts node = PInt limit →
  1 ≤ a ≤ limit + excused → 0 ≤ excused ≤ Z.of_nat MAX_CAPACITY_DENIED_ATTEMPTS →
  validate_pin_bounds (make_pin ctx t node prompt a limit excused model (stepped q)) = Ok tt.
Proof.
  intros Hb Hl Ha He. destruct (bounds_attempts_int _ _ _ _ Hb) as (Hc & (m & Hm & Hmr) & (s & Hs & Hsr)).
  rewrite Hl in Hm. injection Hm as <-.
  unfold validate_pin_bounds. set (pin := make_pin _ _ _ _ _ _ _ _ _).
  assert (dict_get "attempt" pin = PInt a) as -> by by eapply (pin_entry _ _ _ _ _ _ _ _ _ [_; _]); [done|decide_in|done..].
  assert (dict_get "max_cost_usd" pin = pn_max_cost_usd node) as ->
    by by eapply (pin_entry _ _ _ _ _ _ _ _ _ [_; _; _; _; _]); [done|decide_in|done..].
  assert (dict_get "max_attempts" pin = PInt (limit + excused)) as ->
    by by eapply (pin_entry _ _ _ _ _ _ _ _ _ [_; _; _; _; _; _]); [done|decide_in|done..].
  assert (dict_get "turn_timeout_seconds" pin = PInt s) as ->
    by (rewrite <-Hs; by eapply (pin_entry _ _ _ _ _ _ _ _ _ [_; _; _; _; _; _; _]); [done|decide_in|done..]).
  rewrite (proj2 (Z.ltb_ge a 1)) by lia. simpl (_ ≫= _).
  assert ((∃ z, pn_max_cost_usd node = PInt z) ∨ (∃ f, pn_max_cost_usd node = PFloat f)) as Hn.
  { destruct (pn_max_cost_usd node); eauto; by unfold _valid_cost in Hc. }
  destruct (valid_cost_positive _ Hc Hn) as (Hfin & x & Hx & Hpos).
  assert (∀ (y z : res unit), match pn_max_cost_usd node with PInt _ | PFloat _ => y | _ => z end = y)
    as -> by (intros; by destruct Hn as [[? ->]|[? ->]]).
  rewrite Hfin. simpl (_ ≫= _). rewrite Hx, Hpos.
  unfold MAX_PIN_ATTEMPTS, MAX_PIN_TIMEOUT_SECONDS, MAX_TURN_TIMEOUT_SECONDS, MAX_ATTEMPTS in *.
  assert ((1 <=? limit + excused) && (limit + excused <=? 10 + Z.of_nat MAX_CAPACITY_DENIED_ATTEMPTS)
    = true) as -> by (apply andb_true_iff; rewrite !Z.leb_le; lia).
  simpl (_ ≫= _). rewrite (proj2 (Z.ltb_ge (limit + excused) a)) by lia.
  assert ((1 <=? s) && (s <=? 43200) = true) as -> by (apply andb_true_iff; rewrite !Z.leb_le; lia).
  done.
Qed.

(** ** Claims *)

Section claims.
Context `{FundingLedger, DispatchHooks}.

(** C35: an admitted attempt can be replayed for good.  Once an admission under
    a dispatch key has returned a pin, asking again for the same node, key and
    execution context returns the same attempt and the same pin, whatever
    operations ran in between and whatever model or escalation the dispatcher
    would choose now, and writes nothing but the record of the call.  A
    read-only context (a backlog-refill node) is checked again against the
    schema the refill contract gives for the task, so for such a context the
    contract must still give the schema it gave. *)
Theorem admit_dispatch_replay t q q' db op db1 db2 c key task :
  reachable db → admit_dispatch t q db = Ok (op, db1) → ok op = true →
  rtc graph_step db1 db2 → _lock_task db2 t = Ok task →
  aq_dispatch_key q = Some key → admit_context q = PDict c →
  py_wf (PDict c) = true →
  (has_key "read_only" c = true → dispatch_schema db2 t (aq_node_key q) = dispatch_schema db t (aq_node_key q)) →
  aq_node_key q' = aq_node_key q → aq_dispatch_key q' = Some key →
  admit_context q' = PDict c →
  ∃ op' db3, admit_dispatch t q' db2 = Ok (op', db3) ∧ ok op' = true ∧
    op_attempt op' = op_attempt op ∧ op_pin op' = op_pin op ∧ only_recorded db2 db3.
Proof.
  intros Hreach Ha Hok Hs Hlock Hq Hc Hwf Hro Hn' Hq' Hc'.
  assert (∀ t, graph_ok db1 t) as Hg1.
  { intros t'. by eapply admit_dispatch_graph_ok; [|apply reachable_ok]. }
  destruct (admitted_run t q db op db1 c key Ha Hok Hq Hc Hwf)
    as (Hval & fields & Hctx & i & r & pin & Hi & Ht & Hk & -> & Hp).
  destruct (same_attempt_later db1 db2 i r Hg1 Hs Hi) as (Hg2 & r2 & Hi2 & Ht2 & Hn2 & Ha2 & Hk2 & Hp2).
  assert (find_first (λ r, bool_decide (nr_dispatch_key r = Some key)) (_runs db2 t) = Some r2) as Hf.
  { apply find_dispatch; [done| |congruence]. apply list_elem_of_filter.
    split; [congruence|]. by eapply list_elem_of_lookup_2. }
  unfold admit_dispatch. rewrite Hlock. simpl. rewrite Hq', Hval, Hc'. simpl negb. cbv iota.
  rewrite Hn', (context_fields_later db db2 _ _ _ Hro), Hctx.
  simpl. rewrite Hf. assert (replay_pin (aq_node_key q) fields c r2 = Some pin) as ->.
  { rewrite <-Hp. unfold replay_pin. by rewrite Hp2, Hn2. }
  edestruct finish_ok as (call & _ & _ & _ & _ & ->).
  eexists _, _. split; [done|]. split; [done|]. simpl. rewrite Ha2. repeat (split; [done|]).
  by exists call.
Qed.

(** The graph and the node workflow agree on bounds.  When a task has no
    evidence-continuation grant, every pin that admission newly reserves passes
    the numeric fences of the workflow that runs it: its attempt number is
    within the bound it carries even when earlier attempts were excused as
    capacity denials. *)
Theorem admitted_pin_accepted t q db op db' :
  reachable db → no_grants db t → admit_dispatch t q db = Ok (op, db') → ok op = true →
  length (db_runs db') ≠ length (db_runs db) →
  ∃ pin, op_pin op = Some pin ∧ validate_pin_bounds pin = Ok tt.
Proof.
  intros Hreach Hno Ha Hok Hlen. pose proof (reachable_ok db Hreach t) as Hg.
  apply admit_dispatch_result in Ha.
  destruct Ha as [op db' Hf _ _|r key' fields ctx pin db' _ _ _ _ _ _ [call ->]|
    task node grant limit prompt fields ctx call k attempt excused pin _ _ Had _ _];
    [by rewrite Hf in Hok|done|].
  exists pin. split; [done|]. destruct (ad_grant _ _ _ _ _ _ _ Had) as (item & Hi & Hgr).
  rewrite (live_item_no_grant _ _ _ _ Hno Hi) in Hgr.
  pose proof (spent_attempts_bounds (runs_at db t k)). pose proof (ad_limit _ _ _ _ _ _ _ Had).
  apply pin_bounds_ok.
  - apply (ad_bounds _ _ _ _ _ _ _ Had).
  - by apply (ad_bound _ _ _ _ _ _ _ Had).
  - unfold attempt, excused. rewrite node_ledger_max by apply (go_ledger _ _ Hg). lia.
  - unfold excused. lia.
Qed.

(** A request for a fresh attempt of a node with nothing out of the ordinary: a
    valid dispatch key that no attempt owns, a context of allowed fields that is
    not read-only and names no funding decision, and values that JSON can hold. *)
Record plain_request (db : DB) (t : string) (m : SwarmPlanNode) (q : AdmitRequest) (c : list (string * pyval)) : Prop := mkPlainRequest
  { pr_node : aq_node_key q = pn_node_key m;
    pr_key : valid_dispatch_key (aq_dispatch_key q) = true;
    pr_fresh : ∀ key r, aq_dispatch_key q = Some key → r ∈ runs_of db t → nr_dispatch_key r ≠ Some key;
    pr_context : admit_context q = PDict c ∧ json_ok (PDict c) = true ∧ Forall (λ p : string * pyval, p.1 ∈ _CONTEXT_FIELDS) c;
    pr_writes : has_key "read_only" c = false;
    pr_funding : py_contains FUNDING_KEY (funding_schema c) = Ok false;
    pr_model : json_ok (if truthy (aq_model q) then aq_model q else pn_model m) = true;
    pr_escalation : json_ok (PDict (stepped q)) = true }.

Lemma live_item_total db t m :
  plan_ok db t → no_grants db t → m ∈ live_nodes db t → ∃ item, live_item db t (pn_node_key m) = Ok item.
Proof.
  intros Hp Hno Hm. unfold live_item, load_graph, project. simpl. fold (live_nodes db t).
  set (view := λ n, default (mkView (mkFields "" "" "" PNone PNone [] PNone false PNone PNone) 0 None None NotArmed None None false)
                     (match _node_fields n with Ok v => Some v | Raise _ => None end)).
  assert (∀ n, n ∈ live_nodes db t → _node_fields n = Ok (view n) ∧ nv_node_key (view n) = pn_node_key n) as Hview.
  { intros n Hn. pose proof Hp as [_ Hdec Hb _ _]. apply elem_of_live in Hn as [Hn _]; [|done].
    destruct (Hdec n Hn) as [deps Hd]. unfold view, _node_fields, _node_deps. rewrite Hd. done. }
  rewrite (res_map_ok_pure _ view) by (intros n Hn; by apply Hview). simpl.
  assert (omap (λ v, match pv_change v with ChContinueEvidence g => Some g | _ => None end)
    (filter (λ v, pv_task_id v = t ∧ pv_version v ≤ _current_version db t) (db_versions db)) = []) as ->.
  { destruct (omap _ _) as [|g l] eqn:E; [done|]. assert (g ∈ g :: l) as Hg by constructor. rewrite <-E in Hg.
    apply list_elem_of_omap in Hg as (v & [[? _] ?]%list_elem_of_filter & Hv).
    destruct (pv_change v) eqn:Hch; try done. exfalso. eapply Hno; [|exact Hch]. by apply list_elem_of_filter. }
  simpl. erewrite res_map_ok_pure; [|intros v _; reflexivity]. simpl.
  destruct (find_first _ _) as [v|] eqn:E; [by exists v|]. rewrite find_first_None in E.
  destruct (Hview m Hm) as [_ Hk].
  match type of E with ∀ x, x ∈ ?f <$> _ → _ => specialize (E (f (view m)) (list_elem_of_fmap_2 f _ _ (list_elem_of_fmap_2 view _ _ Hm))) end.
  apply bool_decide_eq_false in E. unfold nv_node_key in *. simpl in E. congruence.
Qed.

(** A ready node with attempts left passes every check of admission. *)
Lemma ready_admissible db t task m deps limit ctx :
  graph_ok db t → no_grants db t → m ∈ live_nodes db t → _node_deps m = Ok deps →
  Forall retired (runs_at db t (pn_node_key m)) → unmet_dependency (live_nodes db t) (_runs db t) deps = None →
  _valid_cost false (st_budget_usd task) = true →
  pn_max_attempts m = PInt limit → _spent_attempts (runs_at db t (pn_node_key m)) < limit →
  ∃ runs, admit_check db task t (pn_node_key m) ctx = Ok (Admissible m None limit runs).
Proof.
  intros Hg Hno Hm Hd Hret Hun Hbud Hmax Hlim. unfold admit_check. fold (live_nodes db t).
  pose proof (go_plan _ _ Hg) as Hp. assert (m ∈ nodes_of db t) as Hmn by (destruct Hp as [_ _ Hb _ _]; by apply elem_of_live in Hm as [? _]).
  rewrite live_get_unique by (try done; apply visible_keys_NoDup, Hp). rewrite (go_bounds _ _ Hg m Hmn), Hbud. cbn [negb].
  set (rs := filter _ (_runs db t)). assert (rs ≡ₚ runs_at db t (pn_node_key m)) as Hperm by apply runs_at_perm.
  assert (∀ r, r ∈ rs → retired r) as Hr by (intros r; rewrite Hperm; by apply Forall_forall).
  rewrite (proj2 (existsb_false _ _)); [|intros r [? ?]%Hr; by apply bool_decide_eq_false].
  rewrite (proj2 (existsb_false _ _)); [|intros r [-> ?]%Hr; done].
  destruct (live_item_total db t m Hp Hno Hm) as [item Hi]. rewrite Hi. cbn [mbind res_bind].
  rewrite (live_item_no_grant _ _ _ _ Hno Hi), Hmax. cbn [mbind res_bind as_int].
  assert (_spent_attempts rs = _spent_attempts (runs_at db t (pn_node_key m))) as -> by (by apply spent_attempts_perm).
  rewrite (proj2 (Z.leb_gt _ _)) by done. rewrite Hd. cbn [mbind res_bind]. rewrite Hun. by eexists.
Qed.

Lemma update_json_ok (d e : list (string * pyval)) :
  forallb (λ p, json_ok p.2) d = true → forallb (λ p, json_ok p.2) e = true →
  forallb (λ p, json_ok p.2) (dict_update d e) = true.
Proof using.
  revert d. induction e as [|[k v] e IH]; intros d Hd He; [done|]. simpl in He. apply andb_true_iff in He as [Hv He].
  apply (IH (dict_set k v d)); [|done]. clear -Hd Hv. induction d as [|[k' w] d IHd]; simpl in *; [by rewrite Hv|].
  apply andb_true_iff in Hd as [Hw Hd]. case_match; simpl; [by rewrite Hv, Hd|]. by rewrite Hw, IHd.
Qed.

Lemma valid_cost_json v : _valid_cost false v = true → json_ok v = true.
Proof using.
  destruct v; try done. simpl. unfold _valid_cost. simpl. intros Hq. by repeat (apply andb_prop in Hq as [Hq ?]).
Qed.

Lemma pin_schema q t node prompt a limit excused model c :
  funding_schema (make_pin c t node prompt a limit excused model (stepped q)) = funding_schema c.
Proof using.
  unfold funding_schema, make_pin. rewrite dict_get_update_other; [done|].
  rewrite fmap_app, elem_of_app. intros [Hk|[?|?]%stepped_keys]; [|done|done]. revert Hk. by apply (bool_decide_unpack _).
Qed.

(** The admission of a ready node: the request is answered by a new attempt. *)
Lemma ready_admitted db t task m deps limit q c :
  graph_ok db t → no_grants db t → m ∈ live_nodes db t → _node_deps m = Ok deps →
  Forall retired (runs_at db t (pn_node_key m)) → unmet_dependency (live_nodes db t) (_runs db t) deps = None →
  _lock_task db t = Ok task → _valid_cost false (st_budget_usd task) = true →
  pn_max_attempts m = PInt limit → _spent_attempts (runs_at db t (pn_node_key m)) < limit →
  plain_request db t m q c →
  ∃ op db' r, admit_dispatch t q db = Ok (op, db') ∧ ok op = true ∧ db_runs db' = db_runs db ++ [r] ∧
    nr_task_id r = t ∧ nr_node_key r = pn_node_key m ∧ nr_status r = "admitted"%string.
Proof.
  intros Hg Hno Hm Hd Hret Hun Hlock Hbud Hmax Hlim [Hk Hval Hfresh (Hc & Hj & Hall) Hro Hfund Hmod Hesc].
  destruct (ready_admissible db t task m deps limit c Hg Hno Hm Hd Hret Hun Hbud Hmax Hlim) as [runs Hadm].
  assert (∃ op db' r, admit_fresh task t q c db = Ok (op, db') ∧ ok op = true ∧ db_runs db' = db_runs db ++ [r] ∧
            nr_task_id r = t ∧ nr_node_key r = pn_node_key m ∧ nr_status r = "admitted"%string) as Hans.
  { unfold admit_fresh. rewrite Hk, Hadm. cbn [mbind res_bind pin_prompt].
    rewrite pin_schema, Hfund. cbn [mbind res_bind andb].
    rewrite dumps_ok.
    - cbn [mbind res_bind]. edestruct finish_ok as (call & _ & _ & _ & _ & ->). eexists _, _, _. split; [reflexivity|]. done.
    - simpl. unfold make_pin. apply update_json_ok; [done|]. rewrite forallb_app. apply andb_true_iff. split; [|done].
      assert (m ∈ nodes_of db t) as Hmn by (pose proof (go_plan _ _ Hg) as [_ _ Hb _ _]; by apply elem_of_live in Hm as [? _]).
      destruct (bounds_attempts_int _ _ _ _ (go_bounds _ _ Hg m Hmn)) as (Hcost & _ & (sec & Hs & _)).
      rewrite Hs. cbn [forallb snd json_ok]. by rewrite (valid_cost_json _ Hcost), Hmod. }
  unfold admit_dispatch. rewrite Hlock. cbn [mbind res_bind]. rewrite Hval, Hc. cbn [negb].
  rewrite (proj2 (context_fields_plain db t (aq_node_key q) c _CONTEXT_FIELDS c Hro)) by done. cbn [mbind res_bind].
  destruct (aq_dispatch_key q) as [key|] eqn:Hkey; [|done].
  destruct (find_first _ _) as [r|] eqn:Hf; [|done].
  apply find_first_Some in Hf as [[Hr Ht]%elem_of_runs Hrk%bool_decide_eq_true]. exfalso.
  apply (Hfresh key r eq_refl); [by apply list_elem_of_filter|done].
Qed.

(** C38: an unfinished plan can always move while attempts last.  In every
    reachable state a live node without a succeeded attempt depends, directly or
    through other nodes, on a live node (perhaps itself) that either has an active
    attempt, or whose attempts are all over and whose dependencies are all met;
    and if that node has attempts left under its limit, its task exists with a
    valid budget and has no evidence-continuation grant, then every plain request
    for it is really admitted: [admit_dispatch] answers with a pin and the attempt
    is in the ledger.  A node whose attempts are spent is where a plan can stop. *)
Theorem reachable_progress db t n :
  reachable db → n ∈ live_nodes db t → ¬ node_succeeded db t (pn_node_key n) →
  ∃ m deps limit, m ∈ live_nodes db t ∧
    rtc (dep_edge (live_nodes db t)) (pn_node_key n) (pn_node_key m) ∧
    _node_deps m = Ok deps ∧ pn_max_attempts m = PInt limit ∧ 1 ≤ limit ∧
    ((∃ r, r ∈ runs_at db t (pn_node_key m) ∧ nr_status r ∈ ACTIVE_STATUSES) ∨
     (Forall retired (runs_at db t (pn_node_key m)) ∧
      unmet_dependency (live_nodes db t) (_runs db t) deps = None ∧
      ∀ task q c, no_grants db t → _lock_task db t = Ok task → _valid_cost false (st_budget_usd task) = true →
        _spent_attempts (runs_at db t (pn_node_key m)) < limit → plain_request db t m q c →
        ∃ op db' r, admit_dispatch t q db = Ok (op, db') ∧ ok op = true ∧ db_runs db' = db_runs db ++ [r] ∧
          nr_task_id r = t ∧ nr_node_key r = pn_node_key m ∧ nr_status r = "admitted"%string)).
Proof.
  intros Hreach Hn Hs. pose proof (reachable_ok db Hreach t) as Hg.
  destruct (progress_node db t n Hreach Hn Hs) as (m & deps & Hm & Hrtc & Hd & Hcase).
  assert (m ∈ nodes_of db t) as Hmn by (pose proof (go_plan _ _ Hg) as [_ _ Hb _ _]; by apply elem_of_live in Hm as [? _]).
  destruct (bounds_attempts_int _ _ _ _ (go_bounds _ _ Hg m Hmn)) as (_ & (limit & Hmax & Hlim) & _).
  exists m, deps, limit. do 4 (split; [done|]). split; [lia|]. destruct Hcase as [Hact|[Hret Hun]]; [by left|right].
  do 2 (split; [done|]). intros task q c Hno Hlock Hbud Hleft Hreq. by eapply ready_admitted.
Qed.

End claims.
