(* ===== verification/GraphCosts.v ===== *)
(** * Plan graph: charges and lookups

    What an attempt is charged while its cost is unknown, that the accounting
    reads are total on reachable states, that re-adding a node never re-prices
    what was already charged, and what the edits do to the live plan. *)

From Stdlib Require Import SpecFloat.
From stdpp Require Import prelude list strings pretty relations.
From S2P Require Import Prelude PyValue Worklist GraphData GraphAccounting GraphPlan GraphInvariant GraphBatch GraphOrder GraphRuns GraphLedger GraphSafety.
Local Open Scope Z_scope.

(** ** Charges *)

Lemma falsy_cost_zero v f :
  truthy v = false → is_number v = true → to_float v = Ok f → xle (xnum_of_float f) (XFin 0 0) = true.
Proof.
  destruct v as [| |z|g| | | |]; try done; simpl.
  - intros Hz _. assert (z = 0) as -> by (destruct z; done). vm_compute. by intros [= <-].
  - intros Hz _ [= <-]. destruct g as [s|s| |s m e]; try done.
Qed.

Lemma accounted_total run budgets :
  _valid_cost false (nr_reserved_cost_usd run) = true →
  ∃ c, _accounted_cost run budgets = Ok c.
Proof.
  intros Hv. destruct (reservation_held run) eqn:Hh.
  - rewrite accounted_cost_held by done. unfold _reservation.
    rewrite (valid_cost_not_none _ _ Hv), Hv.
    destruct (valid_cost_to_float _ _ Hv) as (f & -> & _). simpl.
    destruct (_valid_cost true (nr_cost_usd run)) eqn:Hc; simpl; [|eauto].
    destruct (truthy _); simpl; [|eauto].
    destruct (valid_cost_to_float _ _ Hc) as (g & -> & _). simpl. eauto.
  - rewrite accounted_cost_settled by done.
    destruct (_valid_cost true (nr_cost_usd run)) eqn:Hc; [|eauto].
    destruct (valid_cost_to_float _ _ Hc) as (g & -> & _). eauto.
Qed.

Lemma accounted_reserved run budgets budgets' :
  (reservation_held run = true → is_none (nr_reserved_cost_usd run) = false) →
  _accounted_cost run budgets = _accounted_cost run budgets'.
Proof.
  intros H. destruct (reservation_held run) eqn:Hh.
  - rewrite !accounted_cost_held by done. unfold _reservation. by rewrite H.
  - by rewrite !accounted_cost_settled.
Qed.

Lemma res_map_total {A B} (f : A → res B) l :
  (∀ x, x ∈ l → ∃ y, f x = Ok y) → ∃ ys, res_map f l = Ok ys.
Proof.
  induction l as [|x l IH]; intros H; [by eexists|]. simpl.
  destruct (H x) as [y ->]; [constructor|].
  destruct IH as [ys ->]; [intros; apply H; by constructor|]. simpl. eauto.
Qed.

Lemma charge_runs_total budgets runs acc :
  (∀ r, r ∈ runs → ∃ c, _accounted_cost r budgets = Ok c) →
  ∃ acc', charge_runs budgets runs acc = Ok acc'.
Proof.
  revert acc. induction runs as [|r runs IH]; intros acc H; simpl; [eauto|].
  destruct (H r) as [c ->]; [constructor|]. simpl. apply IH. intros. apply H. by constructor.
Qed.

(** ** Budgets of the rows *)

Lemma node_budgets_of db t :
  _node_budgets db t = (λ n, (pn_node_key n, pn_max_cost_usd n)) <$> nodes_of db t.
Proof. done. Qed.

Lemma budgets_get_row db t n :
  NoDup (pn_node_key <$> nodes_of db t) → n ∈ nodes_of db t →
  budgets_get (_node_budgets db t) (pn_node_key n) = pn_max_cost_usd n.
Proof.
  intros Hnd Hn. unfold budgets_get. rewrite node_budgets_of.
  set (bs := _ <$> nodes_of db t).
  assert ((pn_node_key n, pn_max_cost_usd n) ∈ bs) as Hin
    by (apply list_elem_of_fmap; eauto).
  destruct (find_last_is_Some (λ p : string * pyval, bool_decide (p.1 = pn_node_key n)) bs
    (pn_node_key n, pn_max_cost_usd n)) as [p Hp]; [done|by apply bool_decide_eq_true|].
  rewrite Hp. apply find_last_Some in Hp as [Hp Hk%bool_decide_eq_true].
  apply list_elem_of_fmap in Hp as (m & -> & Hm). simpl in *.
  by rewrite (NoDup_fmap_elem pn_node_key _ m n Hnd Hm Hn Hk).
Qed.

(** ** The edits and the live plan *)

Lemma add_node_applied t cause ev f db op db' :
  add_node t cause ev f db = Ok (op, db') → ok op = true →
  ∃ task call, add_accepted db task t f ev ∧
    db' = set_calls (λ cs, cs ++ [call])
      (write_node t f (ev + 1) (append_version t (ev + 1) cause (ChAddNode f) db)).
Proof.
  unfold add_node. destruct (_lock_task db t) as [task|]; simpl; [|done].
  intros [(? & ? & call & -> & ->)|(? & call & -> & Ha & ->)]%add_node_locked_inv Hok; [done|].
  exists task, call. rewrite <-(aa_version _ _ _ _ _ Ha). done.
Qed.

(** ** Claims *)

(** An attempt whose cost is not settled is charged conservatively: while
    it is active, or finished with unknown spend, its charge is at least its
    reservation and at least whatever spend was measured. *)
Theorem accounted_cost_conservative run budgets c :
  reservation_held run = true → _accounted_cost run budgets = Ok c →
  (∃ r, _reservation run budgets = Ok r ∧ fle r c = true) ∧
  (_valid_cost true (nr_cost_usd run) = true →
   ∃ m, to_float (nr_cost_usd run) = Ok m ∧ fle m c = true).
Proof.
  intros Hh Hc. rewrite accounted_cost_held in Hc by done.
  destruct (_reservation run budgets) as [r|] eqn:Hr; simpl in Hc; [|done].
  pose proof (reservation_finite _ _ _ Hr) as Hfin.
  destruct (_valid_cost true (nr_cost_usd run)) eqn:Hv; simpl in Hc.
  - destruct (valid_cost_to_float _ _ Hv) as (m & Hm & Hmf). rewrite Hm in Hc.
    destruct (truthy (nr_cost_usd run)) eqn:Ht; simpl in Hc; injection Hc as <-.
    + split; [exists r; split; [done|by apply fmax_ge_l]|]. intros _. exists m.
      split; [done|by apply fmax_ge_r].
    + split; [exists r; split; [done|by apply fmax_ge_l]|]. intros _. exists m.
      split; [done|]. apply (xle_trans _ (XFin 0 0)).
      * apply (falsy_cost_zero (nr_cost_usd run)); [done| |done].
        unfold _valid_cost in Hv. by destruct (is_number _).
      * by apply (fmax_ge_r r fzero).
  - injection Hc as <-. split; [|done]. exists r. split; [done|by apply fmax_ge_l].
Qed.

(** On reachable states the accounting never fails: every attempt has a
    finite charge whatever its outcome text says, so the run listing and the
    planned cost of a task are always defined. *)
Theorem reachable_accounting_total `{FundingLedger, DispatchHooks} db t k :
  reachable db →
  (∃ views, node_runs db t k = Ok views) ∧
  (∃ planned, _planned_cost db t (live_nodes db t) = Ok planned).
Proof.
  intros Hr. pose proof (reachable_ok db Hr t) as Hg.
  assert (∀ r b, r ∈ _runs db t → ∃ c, _accounted_cost r b = Ok c) as Htot.
  { intros r b [Hin Ht]%elem_of_runs. apply accounted_total, (go_reserved _ _ Hg).
    by apply list_elem_of_filter. }
  split.
  - apply res_map_total. intros r [_ Hin]%list_elem_of_filter.
    destruct (Htot r (_node_budgets db t) Hin) as [c ->]. simpl. eauto.
  - unfold _planned_cost.
    destruct (charge_runs_total (_node_budgets db t) (_runs db t) []) as [acc ->]; [eauto|].
    simpl. edestruct (res_map_total (remaining_cost acc)) as [ys ->]; [|simpl; eauto].
    intros n [_ Hn]%list_elem_of_filter. unfold remaining_cost.
    apply elem_of_live in Hn as [Hn _]; [|apply (go_plan _ _ Hg)].
    destruct (bounds_attempts_int _ _ _ _ (go_bounds _ _ Hg n Hn)) as (Hv & _).
    destruct (valid_cost_to_float _ _ Hv) as (f & -> & _). simpl. eauto.
Qed.

(** The spent attempts that the run listing reports for a node are exactly
    those admission counts against the node's bound, and at most three denied
    attempts are excused. *)
Theorem attempts_spent_agrees db t views k :
  node_runs db t None = Ok views →
  attempts_spent views k = _spent_attempts (runs_at db t k) ∧
  Z.of_nat (length (runs_at db t k)) - attempts_spent views k ≤ 3.
Proof.
  intros Hv. assert (attempts_spent views k = _spent_attempts (runs_at db t k)) as He.
  { rewrite <-(spent_attempts_perm _ _ (runs_at_perm db t k)).
    unfold node_runs in Hv. rewrite (list_filter_iff _ (λ _, True)) in Hv by done.
    assert (∀ l : list SwarmNodeRun, filter (λ _, True) l = l) as Hid.
    { clear. induction l as [|x l IH]; [done|]. by rewrite filter_cons, decide_True, IH. }
    rewrite Hid in Hv. revert views Hv. generalize (_runs db t) as rs.
    unfold attempts_spent, _spent_attempts.
    assert (∀ rs views, res_map (λ row, c ← _accounted_cost row (_node_budgets db t);
        Ok (mkRunView row c (_accounting_basis row) (_capacity_denied row))) rs = Ok views →
      let vs := filter (λ v, nr_node_key (rv_row v) = k) views in
      let ls := filter (λ r, nr_node_key r = k) rs in
      length vs = length ls ∧ count_true rv_capacity_denied vs = count_true _capacity_denied ls)
      as Hgen.
    { unfold count_true. induction rs as [|r rs IH]; intros views; simpl; [by intros [= <-]|].
      destruct (_accounted_cost r _); simpl; [|done].
      destruct (res_map _ rs) as [vs|]; simpl; [|done]. intros [= <-].
      destruct (IH vs eq_refl) as [Hl Hd]. rewrite !filter_cons. simpl.
      case_decide; simpl; [|done]. rewrite !filter_cons. simpl.
      case_decide; simpl; split; lia. }
    intros rs views Hv. destruct (Hgen rs views Hv) as [-> ->]. done. }
  split; [done|]. rewrite He. apply spent_attempts_bounds.
Qed.

(** Adding a node never re-prices earlier attempts.  After an applied add,
    an attempt with its own reservation or a settled cost is charged exactly
    what it was; a legacy attempt charged at its row's ceiling finds an equal
    ceiling there. *)
Theorem add_node_keeps_charges t cause ev f db op db' r :
  add_node t cause ev f db = Ok (op, db') → ok op = true → plan_ok db t →
  r ∈ runs_of db t → nr_node_key r ∈ pn_node_key <$> nodes_of db t →
  let before := _node_budgets db t in let after := _node_budgets db' t in
  _accounted_cost r after = _accounted_cost r before ∨
  py_eq (budgets_get before (nr_node_key r)) (budgets_get after (nr_node_key r)) = true.
Proof.
  intros Hop Hok Hp Hr Hrow before after.
  destruct (add_node_applied _ _ _ _ _ _ _ Hop Hok) as (task & call & Ha & ->).
  destruct (legacy_reservation (nr_node_key r) r) eqn:Hleg.
  2: { left. apply accounted_reserved. intros Hh. unfold legacy_reservation, reservation_held in *.
       rewrite bool_decide_eq_true_2 in Hleg by done. rewrite Hh in Hleg.
       by destruct (is_none _). }
  destruct (add_accepted_rows db task t f ev cause Hp Ha) as (id & _ & Hnd & Hmem & _ & _).
  apply list_elem_of_fmap in Hrow as (n & Hk & Hn). rewrite Hk.
  destruct (decide (pn_node_key n = nf_node_key f)) as [Hkey|Hkey].
  - right. unfold before, after.
    assert (budgets_get (_node_budgets db t) (pn_node_key n) = pn_max_cost_usd n) as ->
      by (apply budgets_get_row; [apply Hp|done]).
    rewrite Hkey. etrans; [|destruct (aa_legacy _ _ _ _ _ Ha n) as [He|Hno]; [|exact He|]].
    + f_equal. change (nf_node_key f) with (pn_node_key (fresh_row id t f (ev + 1))).
      apply (budgets_get_row (set_calls _ _)); [done|]. apply Hmem. by right.
    + pose proof Hn as [Hdb Ht]%elem_of_nodes_of.
      destruct (find_first (is_row t (nf_node_key f)) (db_nodes db)) as [m|] eqn:E.
      * f_equal. apply find_first_Some in E as [Hm [Hmt Hmk]%is_row_spec].
        eapply (NoDup_fmap_elem pn_node_key (nodes_of db t)); [apply Hp| | |congruence];
          by apply elem_of_nodes_of.
      * rewrite find_first_None in E. specialize (E n Hdb).
        by rewrite (proj2 (is_row_spec t (nf_node_key f) n)) in E.
    + exfalso. assert (legacy_reservation (nf_node_key f) r = false) as Hf.
      { apply Hno. apply elem_of_runs. apply list_elem_of_filter in Hr. tauto. }
      by rewrite <-Hkey, <-Hk, Hleg in Hf.
  - left. unfold _accounted_cost, _reservation. f_equal.
    assert (budgets_get after (nr_node_key r) = budgets_get before (nr_node_key r)) as ->; [|done].
    unfold before, after. rewrite Hk.
    rewrite (budgets_get_row (set_calls _ _)), budgets_get_row; try done; [apply Hp|].
    apply Hmem. by left.
Qed.

(** An applied add is what the plan then shows: the live nodes are the
    earlier ones, untouched, and one new node that reads back as exactly the
    fields that were asked for, created in the new version. *)
Theorem add_node_lookup t cause ev f db op db' :
  add_node t cause ev f db = Ok (op, db') → ok op = true → plan_ok db t →
  ∃ new, (∀ n, n ∈ live_nodes db' t ↔ n ∈ live_nodes db t ∨ n = new) ∧
    nf_node_key f ∉ live_keys db t ∧
    _node_fields new = Ok (mkView f (ev + 1) None None NotArmed None None false).
Proof.
  intros Hop Hok Hp.
  destruct (add_node_applied _ _ _ _ _ _ _ Hop Hok) as (task & call & Ha & ->).
  destruct (add_accepted_rows db task t f ev cause Hp Ha) as (id & Hcur & _ & _ & _ & Hvis).
  pose proof (aa_version _ _ _ _ _ Ha) as Hev.
  exists (fresh_row id t f (ev + 1)). split; [|split].
  - intros n. set (db2 := write_node _ _ _ _) in *.
    change (live_nodes (set_calls _ db2) t) with (live_nodes db2 t).
    unfold live_nodes. rewrite Hcur, Hvis, elem_of_app, list_elem_of_singleton. by rewrite Hev.
  - unfold live_keys, live_nodes. rewrite <-Hev. by apply (aa_fresh _ _ _ _ _ Ha).
  - unfold _node_fields, _node_deps. simpl pn_deps_json. rewrite decode_deps_strings. simpl.
    by destruct f.
Qed.

(** A discard is only ever applied to a live leaf whose work is over: no
    attempt of it is active or succeeded and no live node depends on it; the
    live plan afterwards is the earlier one without that node. *)
Theorem discard_node_safe t key cause ev head claim db op db' :
  discard_node t key cause ev head claim db = Ok (op, db') → ok op = true → plan_ok db t →
  key ∈ live_keys db t ∧ Forall retired (runs_at db t key) ∧
  (∀ x, ¬ dep_edge (live_nodes db t) x key) ∧
  (∀ n, n ∈ live_nodes db' t ↔ n ∈ live_nodes db t ∧ pn_node_key n ≠ key).
Proof.
  unfold discard_node. destruct (_lock_task db t) as [task|]; simpl; [|done].
  intros [(? & ? & call & -> & ->)|(call & node & snap & -> & Ha & _ & ->)]
    %discard_node_locked_inv Hok Hp; [done|].
  rewrite <-(da_version _ _ _ _ _ Ha).
  destruct (discard_accepted_rows db t key ev node cause (ChDiscardNode key (Some snap)) Hp Ha)
    as (Hcur & _ & _ & Hvis).
  destruct (live_get_Some _ _ _ (da_live _ _ _ _ _ Ha)) as [Hn Hk].
  pose proof (da_version _ _ _ _ _ Ha) as Hev.
  assert (live_nodes db t = _visible_nodes db t ev) as Hl by (unfold live_nodes; by rewrite <-Hev).
  unfold live_keys. rewrite Hl. split; [|split; [|split]].
  - rewrite <-Hk. by apply list_elem_of_fmap_2.
  - rewrite <-Hk. by apply unsettled_none_retired, (da_settled _ _ _ _ _ Ha).
  - intros x (n & deps & Hin & _ & Hd & Hy). by eapply (da_leaf _ _ _ _ _ Ha).
  - intros n. set (db2 := set_nodes _ _) in *.
    change (live_nodes (set_calls _ db2) t) with (live_nodes db2 t).
    unfold live_nodes. by rewrite Hcur, Hvis.
Qed.
