(* ===== verification/GraphWitness.v ===== *)
(** * Plan graph: a worked run

    One task taken through the public operations, with every step evaluated:
    two nodes, an attempt of the first that succeeds, and the admission of the
    second.  It instantiates the hypotheses of the graph properties. *)

From Stdlib Require Import SpecFloat.
From stdpp Require Import prelude list strings pretty relations gmap.
From S2P Require Import Prelude PyValue Worklist GraphData GraphAccounting GraphPlan GraphInvariant GraphBatch GraphOrder GraphRuns GraphLedger GraphSafety GraphRefine GraphClaims GraphCosts.
Local Open Scope Z_scope.

(** No funding grant, no refill contract, no continuation. *)
Definition demo_funding : FundingLedger := λ _ _, None.
Definition demo_hooks : DispatchHooks :=
  {| dispatch_schema := λ _ _ _, Ok PNone;
     validate_dispatch := λ _ _ _ _, Ok tt;
     continuation_prompt := λ _, Ok "continue"%string |}.
#[local] Existing Instance demo_funding.
#[local] Existing Instance demo_hooks.

(** The state a transaction leaves, unchanged when it raises. *)
Definition exec {A} (m : tx DB A) (db : DB) : DB :=
  match m db with Ok (_, db') => db' | Raise _ => db end.
Definition runs_ok {A} (m : tx DB A) (db : DB) : bool :=
  match m db with Ok _ => true | Raise _ => false end.

Definition demo_cause : Cause :=
  mkCause "conductor" "demo" "task_start" None (PStr "demo").
Definition demo_fields (key : string) (deps : list string) : NodeFields :=
  mkFields key "work" "do it" (PStr "sonnet") PNone deps (PInt 2) false (PInt 3) (PInt 600).
Definition demo_request (key dispatch : string) : AdmitRequest :=
  mkAdmit key (Some dispatch) (PDict [("repo", PStr "r"); ("branch", PStr "b")]) PNone None.
Definition demo_evidence (status : string) : Evidence :=
  mkEvidence status (PInt 1) (Some "abc"%string) None.

Definition demo0 : DB := mkDB [mkTask "t" "sonnet" (PInt 10)] [] [] [] [] [] 5.
Definition demo1 : DB := exec (add_node "t" demo_cause 0 (demo_fields "impl" [])) demo0.
Definition demo2 : DB := exec (add_node "t" demo_cause 1 (demo_fields "review" ["impl"])) demo1.
Definition demo3 : DB := exec (admit_dispatch "t" (demo_request "impl" "w1")) demo2.
Definition demo4 : DB := exec (bind_node_session "t" "impl" 1 (PInt 7) "w1") demo3.
Definition demo5 : DB := exec (record_outcome "t" "impl" 1 (demo_evidence "succeeded")) demo4.
Definition demo6 : DB := exec (admit_dispatch "t" (demo_request "review" "w2")) demo5.

(** The operation a demo transaction returns. *)
Definition demo_op (m : tx DB GraphOp) (db : DB) : GraphOp :=
  match m db with Ok (op, _) => op | Raise _ => mkGraphOp false None None None None None end.
Lemma demo_op_ok m db : runs_ok m db = true → m db = Ok (demo_op m db, exec m db).
Proof. unfold runs_ok, demo_op, exec. destruct (m db) as [[op db']|]; done. Qed.

(** Peel the last transaction of a run, an instance of the given rule. *)
Tactic Notation "demo_step" constr(db) uconstr(rule) :=
  unfold reachable; apply (rtc_r _ db); [|eapply rule, demo_op_ok; vm_compute; reflexivity].

Lemma demo0_reachable : reachable demo0.
Proof. apply rtc_once. exact (step_environment [mkTask "t" "sonnet" (PInt 10)] [] [] 5 empty_db). Qed.
Lemma demo2_reachable : reachable demo2.
Proof. demo_step demo1 step_add. demo_step demo0 step_add. exact demo0_reachable. Qed.
Lemma demo5_after_admit : rtc graph_step demo3 demo5.
Proof. demo_step demo4 step_outcome. demo_step demo3 step_bind. done. Qed.
Lemma demo5_reachable : reachable demo5.
Proof.
  unfold reachable. etrans; [|exact demo5_after_admit].
  demo_step demo2 step_admit. exact demo2_reachable.
Qed.
Lemma demo6_step : rtc graph_step demo5 demo6.
Proof. demo_step demo5 step_admit. done. Qed.
Lemma demo6_reachable : reachable demo6.
Proof. unfold reachable. etrans; [exact demo5_reachable|exact demo6_step]. Qed.

(** The run that a demo state holds at an index. *)
Definition demo_run (db : DB) (i : nat) : SwarmNodeRun :=
  default (mkRun 0 "" "" 0 None None PNone PNone None "" PNone None None None 0 None)
    (db_runs db !! i).

Lemma reachable_plan_dag_witness :
  reachable demo6 ∧ acyclic (dep_edge (live_nodes demo6 "t")) ∧
  live_keys demo6 "t" = ["impl"; "review"]%string.
Proof.
  split; [exact demo6_reachable|]. split; [|vm_compute; reflexivity].
  apply (reachable_plan_dag demo6 "t" demo6_reachable).
Defined.

Lemma reachable_execution_order_witness :
  nr_status (demo_run demo6 1) = "admitted"%string ∧
  ∃ n deps, n ∈ live_nodes demo6 "t" ∧ pn_node_key n = "review"%string ∧
    _node_deps n = Ok deps ∧
    ∀ d, d ∈ deps → d ∈ live_keys demo6 "t" ∧
      ∃ r', r' ∈ runs_at demo6 "t" d ∧ nr_status r' = "succeeded"%string.
Proof.
  split; [vm_compute; reflexivity|].
  apply (reachable_execution_order demo6 "t" (demo_run demo6 1) demo6_reachable).
  - apply list_elem_of_filter. split; [vm_compute; reflexivity|].
    apply list_elem_of_lookup. exists 1%nat. vm_compute. reflexivity.
  - intros [Ht _]. vm_compute in Ht. discriminate.
Defined.

(** Before any attempt, [review] waits for [impl], which is ready. *)
(** The demonstration's requests are plain ones. *)
Example demo_plain_request :
  (∀ m, live_nodes demo2 "t" !! 0%nat = Some m →
     plain_request demo2 "t" m (demo_request "impl" "w1") [("repo", PStr "r"); ("branch", PStr "b")]%string) ∧
  no_grants demo2 "t".
Proof.
  split.
  - intros m Hm. vm_compute in Hm. injection Hm as <-. split; try by vm_compute.
    + intros key r _ Hr. vm_compute in Hr. inversion Hr.
    + split; [by vm_compute|]. split; [by vm_compute|]. by apply (bool_decide_unpack _).
  - intros v g Hv. vm_compute in Hv. repeat (apply elem_of_cons in Hv as [->|Hv]; [done|]). by apply elem_of_nil in Hv.
Qed.

Lemma reachable_progress_witness :
  live_keys demo2 "t" = ["impl"; "review"]%string ∧
  ∃ n, n ∈ live_nodes demo2 "t" ∧ pn_node_key n = "review"%string ∧
  ∃ m deps limit, m ∈ live_nodes demo2 "t" ∧
    rtc (dep_edge (live_nodes demo2 "t")) (pn_node_key n) (pn_node_key m) ∧
    _node_deps m = Ok deps ∧ pn_max_attempts m = PInt limit ∧ 1 ≤ limit ∧
    ((∃ r, r ∈ runs_at demo2 "t" (pn_node_key m) ∧ nr_status r ∈ ACTIVE_STATUSES) ∨
     (Forall retired (runs_at demo2 "t" (pn_node_key m)) ∧
      unmet_dependency (live_nodes demo2 "t") (_runs demo2 "t") deps = None ∧
      ∀ task q c, no_grants demo2 "t" → _lock_task demo2 "t" = Ok task → _valid_cost false (st_budget_usd task) = true →
        _spent_attempts (runs_at demo2 "t" (pn_node_key m)) < limit → plain_request demo2 "t" m q c →
        ∃ op db' r, admit_dispatch "t" q demo2 = Ok (op, db') ∧ ok op = true ∧ db_runs db' = db_runs demo2 ++ [r] ∧
          nr_task_id r = "t"%string ∧ nr_node_key r = pn_node_key m ∧ nr_status r = "admitted"%string)).
Proof.
  split; [vm_compute; reflexivity|].
  assert (∃ n, live_nodes demo2 "t" !! 1%nat = Some n ∧ pn_node_key n = "review"%string)
    as (n & Hn & Hk) by (eexists; split; vm_compute; reflexivity).
  exists n. split; [by eapply list_elem_of_lookup_2|]. split; [done|].
  apply (reachable_progress demo2 "t" n demo2_reachable); [by eapply list_elem_of_lookup_2|].
  rewrite Hk. intros (r & Hr & _). vm_compute in Hr. inversion Hr.
Defined.

(** Two nodes planned, the first done, the second running. *)
Lemma graph_refines_scheduler_witness :
  plan_of demo6 "t" = mkPlan 2 (list_to_map
    [("impl"%string, ([], Done)); ("review"%string, (["impl"%string], Running))]) ∧
  rtc plan_step empty_plan (plan_of demo6 "t") ∧ plan_sound (plan_of demo6 "t").
Proof.
  split; [vm_compute; reflexivity|].
  apply (graph_refines_scheduler demo6 demo6_reachable).
Defined.

Lemma reachable_attempt_sequence_witness :
  length (runs_at demo6 "t" "impl") = 1%nat ∧
  nr_attempt <$> runs_at demo6 "t" "impl" = upto (length (runs_at demo6 "t" "impl")).
Proof.
  split; [vm_compute; reflexivity|].
  apply (reachable_attempt_sequence demo6 "t" "impl" demo6_reachable).
Defined.

Lemma reachable_version_ledger_witness :
  length (versions_of demo6 "t") = 2%nat ∧
  _current_version demo6 "t" = Z.of_nat (length (versions_of demo6 "t")).
Proof.
  split; [vm_compute; reflexivity|].
  apply (reachable_version_ledger demo6 "t" demo6_reachable).
Defined.

Lemma settled_outcome_permanent_witness :
  nr_status (demo_run demo5 0) = "succeeded"%string ∧
  ∃ r', db_runs demo6 !! 0%nat = Some r' ∧ run_step (demo_run demo5 0) r' ∧
    nr_status r' = nr_status (demo_run demo5 0).
Proof.
  split; [vm_compute; reflexivity|].
  apply (settled_outcome_permanent demo5 demo6 0 (demo_run demo5 0) demo5_reachable demo6_step);
    vm_compute; reflexivity.
Defined.

Lemma would_cycle_exact_witness :
  _would_cycle "impl" ["review"%string] (live_nodes demo2 "t") = Ok true ∧
  ∃ b, _would_cycle "impl" ["review"%string] (live_nodes demo2 "t") = Ok b ∧
    (b = true ↔ ∃ d, d ∈ ["review"%string] ∧
       rtc (dep_edge (live_nodes demo2 "t")) d "impl"%string).
Proof.
  split; [vm_compute; reflexivity|].
  apply (would_cycle_exact demo2 "t" "impl" ["review"%string] demo2_reachable).
Defined.

Lemma admit_dispatch_replay_witness :
  let q := demo_request "impl" "w1" in
  let q' := mkAdmit "impl" (Some "w1"%string) (aq_execution_context q) (PStr "opus") None in
  ∃ op' db', admit_dispatch "t" q' demo5 = Ok (op', db') ∧ ok op' = true ∧
    op_attempt op' = op_attempt (demo_op (admit_dispatch "t" q) demo2) ∧
    op_pin op' = op_pin (demo_op (admit_dispatch "t" q) demo2) ∧ only_recorded demo5 db'.
Proof.
  intros q q'.
  apply (admit_dispatch_replay "t" q q' demo2 (demo_op (admit_dispatch "t" q) demo2) demo3 demo5
    [("repo", PStr "r"); ("branch", PStr "b")]%string "w1" (mkTask "t" "sonnet" (PInt 10))
    demo2_reachable); try (vm_compute; reflexivity).
  exact demo5_after_admit.
Defined.

Lemma admitted_pin_accepted_witness :
  ∃ pin, op_pin (demo_op (admit_dispatch "t" (demo_request "impl" "w1")) demo2) = Some pin ∧
    validate_pin_bounds pin = Ok tt.
Proof.
  apply (admitted_pin_accepted "t" (demo_request "impl" "w1") demo2 _ demo3 demo2_reachable).
  - intros v g Hv. vm_compute in Hv. repeat (apply elem_of_cons in Hv as [->|Hv]; [done|]).
    by apply elem_of_nil in Hv.
  - apply demo_op_ok. vm_compute. reflexivity.
  - vm_compute. reflexivity.
  - vm_compute. discriminate.
Defined.

Lemma accounted_cost_conservative_witness :
  reservation_held (demo_run demo3 0) = true ∧
  ∃ c, _accounted_cost (demo_run demo3 0) [] = Ok c ∧
    ∃ r, _reservation (demo_run demo3 0) [] = Ok r ∧ fle r c = true.
Proof.
  split; [vm_compute; reflexivity|]. eexists. split; [vm_compute; reflexivity|].
  apply (accounted_cost_conservative (demo_run demo3 0) []); vm_compute; reflexivity.
Defined.

Lemma reachable_accounting_total_witness :
  (∃ views, node_runs demo6 "t" None = Ok views) ∧
  (∃ planned, _planned_cost demo6 "t" (live_nodes demo6 "t") = Ok planned).
Proof. apply (reachable_accounting_total demo6 "t" None demo6_reachable). Defined.

Lemma attempts_spent_agrees_witness :
  ∃ views, node_runs demo6 "t" None = Ok views ∧
    attempts_spent views "impl" = _spent_attempts (runs_at demo6 "t" "impl") ∧
    attempts_spent views "impl" = 1.
Proof.
  eexists. split; [vm_compute; reflexivity|]. split; [|vm_compute; reflexivity].
  apply (attempts_spent_agrees demo6 "t" _ "impl"). vm_compute. reflexivity.
Defined.

Lemma add_node_compare_and_swap_witness :
  let m := add_node "t" demo_cause 0 (demo_fields "impl" []) in
  ok (demo_op m demo0) = true ∧
  ((ok (demo_op m demo0) = false ∧ is_Some (refusal_code (demo_op m demo0)) ∧
    only_recorded demo0 demo1) ∨
   (ok (demo_op m demo0) = true ∧ 0 = _current_version demo0 "t" ∧
    op_version (demo_op m demo0) = Some (0 + 1) ∧ advanced "t" demo0 demo1 1)).
Proof.
  intros m. split; [vm_compute; reflexivity|].
  apply (add_node_compare_and_swap "t" demo_cause 0 (demo_fields "impl" [])).
  apply demo_op_ok. vm_compute. reflexivity.
Defined.

Lemma add_node_lookup_witness :
  ∃ new, (∀ n, n ∈ live_nodes demo2 "t" ↔ n ∈ live_nodes demo1 "t" ∨ n = new) ∧
    "review"%string ∉ live_keys demo1 "t" ∧
    _node_fields new = Ok (mkView (demo_fields "review" ["impl"%string]) (1 + 1)
      None None NotArmed None None false).
Proof.
  apply (add_node_lookup "t" demo_cause 1 (demo_fields "review" ["impl"%string]) demo1
    (demo_op (add_node "t" demo_cause 1 (demo_fields "review" ["impl"%string])) demo1) demo2).
  - apply demo_op_ok. vm_compute. reflexivity.
  - vm_compute. reflexivity.
  - apply (go_plan _ _ (graph_step_ok demo0 demo1 ltac:(eapply step_add, demo_op_ok;
      vm_compute; reflexivity) (reachable_ok demo0 demo0_reachable) "t")).
Defined.

Lemma add_node_keeps_charges_witness :
  let before := _node_budgets demo5 "t" in
  let after := _node_budgets (exec (add_node "t" demo_cause 2 (demo_fields "extra" [])) demo5) "t" in
  let r := demo_run demo5 0 in
  _accounted_cost r after = _accounted_cost r before ∨
  py_eq (budgets_get before (nr_node_key r)) (budgets_get after (nr_node_key r)) = true.
Proof.
  apply (add_node_keeps_charges "t" demo_cause 2 (demo_fields "extra" []) demo5
    (demo_op (add_node "t" demo_cause 2 (demo_fields "extra" [])) demo5)).
  - apply demo_op_ok. vm_compute. reflexivity.
  - vm_compute. reflexivity.
  - apply (go_plan _ _ (reachable_ok demo5 demo5_reachable "t")).
  - apply list_elem_of_filter. split; [vm_compute; reflexivity|].
    apply list_elem_of_lookup. exists 0%nat. vm_compute. reflexivity.
  - decide_in.
Defined.

Lemma discard_node_safe_witness :
  let m := discard_node "t" "review" demo_cause 2 PNone false in
  "review"%string ∈ live_keys demo2 "t" ∧ Forall retired (runs_at demo2 "t" "review") ∧
  (∀ x, ¬ dep_edge (live_nodes demo2 "t") x "review"%string) ∧
  (∀ n, n ∈ live_nodes (exec m demo2) "t" ↔
        n ∈ live_nodes demo2 "t" ∧ pn_node_key n ≠ "review"%string).
Proof.
  intros m. apply (discard_node_safe "t" "review" demo_cause 2 PNone false demo2 (demo_op m demo2)).
  - apply demo_op_ok. vm_compute. reflexivity.
  - vm_compute. reflexivity.
  - apply (go_plan _ _ (reachable_ok demo2 demo2_reachable "t")).
Defined.

(** A batch whose edits are written in the wrong order. *)
Definition demo_edit (key : string) (deps : list string) : pyval :=
  PDict [("op", PStr "add_node"); ("node_key", PStr key); ("kind", PStr "work");
         ("prompt", PStr "p"); ("deps", PList (PStr <$> deps)); ("max_cost_usd", PInt 1);
         ("max_attempts", PInt 1); ("turn_timeout_seconds", PInt 60)]%string.
Definition demo_batch : pyval := PList [demo_edit "b" ["a"%string]; demo_edit "a" []].

Lemma apply_edits_atomic_witness :
  let m := apply_edits "t" demo_cause 0 demo_batch in
  ok (demo_op m demo0) = true ∧ length (batch_edits demo_batch) = 2%nat ∧
  ((ok (demo_op m demo0) = false ∧ is_Some (refusal_code (demo_op m demo0)) ∧
    only_recorded demo0 (exec m demo0)) ∨
   (ok (demo_op m demo0) = true ∧ 0 = _current_version demo0 "t" ∧
    (let n := length (batch_edits demo_batch) in
     (1 ≤ n ≤ MAX_PLAN_EDITS)%nat ∧ op_version (demo_op m demo0) = Some (0 + Z.of_nat n) ∧
     advanced "t" demo0 (exec m demo0) n))).
Proof.
  intros m. split; [vm_compute; reflexivity|]. split; [vm_compute; reflexivity|].
  apply (apply_edits_atomic "t" demo_cause 0 demo_batch). apply demo_op_ok. vm_compute. reflexivity.
Defined.

(** The links of the demo batch only go from its second edit to its first. *)
Lemma demo_links_acyclic i :
  ¬ tc (λ x y, (x, y) ∈ edit_links (batch_edits demo_batch)) i i.
Proof.
  assert (∀ x y, (x, y) ∈ edit_links (batch_edits demo_batch) → (y < x)%nat) as Hlt.
  { intros x y Hxy. change (edit_links (batch_edits demo_batch)) with [(1%nat, 0%nat)] in Hxy.
    apply list_elem_of_singleton in Hxy as [= -> ->]. lia. }
  assert (∀ x y, tc (λ x y, (x, y) ∈ edit_links (batch_edits demo_batch)) x y → (y < x)%nat) as Htc.
  { intros x y. induction 1 as [x y H|x y z H _ IH]; [by apply Hlt|]. apply Hlt in H. lia. }
  intros Hi%Htc. lia.
Qed.

Lemma order_edits_respects_witness :
  precedes (fst <$> _order_edits (batch_edits demo_batch)) 1 0.
Proof.
  apply (order_edits_respects (batch_edits demo_batch) 1 0
    (as_dict (demo_edit "a" [])) (as_dict (demo_edit "b" ["a"%string])) demo_links_acyclic);
    [reflexivity|reflexivity|discriminate|].
  left. split; [reflexivity|]. exists "a"%string. split; [decide_in|reflexivity].
Defined.

Lemma order_edits_stable_witness :
  let edits := batch_edits (PList [demo_edit "a" []; demo_edit "b" ["a"%string]]) in
  _order_edits edits = zip (seq 0 (length edits)) edits.
Proof.
  intros edits. apply (order_edits_stable edits). intros b e d a Hb _ Hd Hp.
  destruct b as [|[|b]]; [..|done].
  - injection Hb as <-. vm_compute in Hd. by apply elem_of_nil in Hd.
  - injection Hb as <-. change (edit_deps (as_dict (demo_edit "b" ["a"%string]))) with ["a"%string] in Hd.
    apply list_elem_of_singleton in Hd as ->. vm_compute in Hp. injection Hp as <-. lia.
Defined.
