(* ===== verification/WorkItems.v ===== *)
(** * Work items: rows and operations

    [factory/orchestration/work_items.py]: the durable work item, its state
    machine, its relationships, and the synchronisation from GitHub with the
    source-order watermark.  Every operation runs inside one transaction
    ([tx WDB]); a violated rule raises [WorkItemError] and writes nothing. *)

From Stdlib Require Import SpecFloat.
From stdpp Require Import prelude list strings pretty gmap.
From S2P Require Import Prelude PyValue Worklist.
Local Open Scope Z_scope.

(** ** Timestamps *)

(** A [datetime]: wall-clock microseconds and the UTC offset, if aware. *)
Record datetime := mkDatetime { dt_wall : Z; dt_offset : option Z }.
#[export] Instance datetime_eq_dec : EqDecision datetime.
Proof. solve_decision. Defined.

(** The instant it names; a naive value is read as UTC. *)
Definition instant (d : datetime) : Z := dt_wall d - default 0 (dt_offset d).
(** [value.replace(tzinfo=timezone.utc) if value.tzinfo is None else value]. *)
Definition assume_utc (d : datetime) : datetime :=
  match dt_offset d with None => mkDatetime (dt_wall d) (Some 0) | Some _ => d end.
(** [value.astimezone(timezone.utc)] of an aware value. *)
Definition as_utc (d : datetime) : datetime := mkDatetime (instant d) (Some 0).

(** The standard library's ISO 8601 reader ([None] for [ValueError]) and
    writer. *)
Class IsoFormat := {
  fromisoformat : string → option datetime;
  isoformat : datetime → string;
}.

(** ** Vocabulary *)

Definition _STATES : list string :=
  ["open"; "ready"; "deferred"; "needs_human"; "active"; "done"; "closed"].
Definition _CLOSE_REASONS : list string :=
  ["completed"; "not_planned"; "superseded"; "stale"; "github_closed"].
Definition _EDGE_KINDS : list string := ["blocks"; "parent"; "supersedes"].
Definition _TRANSITIONS : list (string * list string) :=
  [ ("open", ["ready"; "deferred"; "needs_human"; "closed"]);
    ("ready", ["open"; "deferred"; "needs_human"; "active"; "closed"]);
    ("deferred", ["open"; "ready"; "needs_human"; "closed"]);
    ("needs_human", ["open"; "ready"; "deferred"; "closed"]);
    ("active", ["done"; "ready"; "needs_human"; "closed"]);
    ("done", ["closed"; "open"]);
    ("closed", ["open"]) ].

(** [_TRANSITIONS[state]]. *)
Definition transitions_of (state : string) : res (list string) :=
  match assoc_get state _TRANSITIONS with
  | Some l => Ok l
  | None => Raise (KeyError state)
  end.

(** ** Rows *)

Record WorkItem := mkItem {
  wi_id : Z;
  wi_title : string;
  wi_body : string;
  wi_state : string;
  wi_close_reason : option string;
  wi_task_class : option string;
  wi_labels : list string;
  wi_source_kind : string;
  wi_source_ref : option string;
  wi_trust : string;
  wi_authority : string;
  wi_github_repo : option string;
  wi_github_issue_number : option Z;
  wi_github_created_at : option datetime;
  wi_created_at : Z;
  wi_updated_at : Z;
  wi_closed_at : option Z;
}.
#[export] Instance WorkItem_eq_dec : EqDecision WorkItem.
Proof. solve_decision. Defined.

Record WorkItemEdge := mkEdge {
  we_id : Z;
  we_from_id : Z;
  we_to_id : Z;
  we_kind : string;
  we_source : string;
}.

Record WorkItemEvent := mkEvent {
  wv_id : Z;
  wv_work_item_id : Z;
  wv_version : Z;
  wv_op : string;
  wv_author_kind : string;
  wv_author : string;
  wv_change : list (string * pyval);
  wv_cause_kind : string;
  wv_cause_ref : option string;
  wv_stated_reason : option string;
}.

Record FactoryGithubIssueState := mkIssueState {
  gs_repo : string;
  gs_issue_number : Z;
  gs_source_updated_at : datetime;
  gs_source_state : string;
  gs_source_ref : string;
  gs_updated_at : Z;
}.

(** The columns of a receipt that work items read and write. *)
Record FactoryReceipt := mkReceipt {
  fr_id : Z;
  fr_repo : string;
  fr_issue_number : Z;
  fr_work_item_id : option Z;
}.

Record WDB := mkWDB {
  w_items : list WorkItem;
  w_edges : list WorkItemEdge;
  w_events : list WorkItemEvent;
  w_issues : list FactoryGithubIssueState;
  w_receipts : list FactoryReceipt;
  w_now : Z;
}.
Definition set_items (f : list WorkItem → list WorkItem) (db : WDB) : WDB :=
  mkWDB (f (w_items db)) (w_edges db) (w_events db) (w_issues db) (w_receipts db) (w_now db).
Definition set_edges (f : list WorkItemEdge → list WorkItemEdge) (db : WDB) : WDB :=
  mkWDB (w_items db) (f (w_edges db)) (w_events db) (w_issues db) (w_receipts db) (w_now db).
Definition set_events (f : list WorkItemEvent → list WorkItemEvent) (db : WDB) : WDB :=
  mkWDB (w_items db) (w_edges db) (f (w_events db)) (w_issues db) (w_receipts db) (w_now db).
Definition set_issues (f : list FactoryGithubIssueState → list FactoryGithubIssueState)
    (db : WDB) : WDB :=
  mkWDB (w_items db) (w_edges db) (w_events db) (f (w_issues db)) (w_receipts db) (w_now db).
Definition set_receipts (f : list FactoryReceipt → list FactoryReceipt) (db : WDB) : WDB :=
  mkWDB (w_items db) (w_edges db) (w_events db) (w_issues db) (f (w_receipts db)) (w_now db).

(** A GitHub issue object, as decoded JSON. *)
Notation Issue := (list (string * pyval)).

(** ** Reading an issue *)

Definition lower_in (v : pyval) (l : list string) : bool :=
  match v with PStr s => str_in (py_lower s) l | _ => false end.

Definition trust_for_github_author (author : pyval) (trusted_authors : list string) : string :=
  match author with
  | PDict a =>
      let login := dict_get "login" a in
      let configured := match trusted_authors with [] => ["jomcgi"%string] | l => l end in
      if lower_in login configured then "trusted"
      else if py_eq (dict_get "type" a) (PStr "Bot") ||
              match login with
              | PStr s => bool_decide (py_lower s = "dependabot"%string) ||
                          endswith "[bot]" (py_lower s)
              | _ => false
              end
      then "semi_trusted" else "untrusted"
  | _ => "untrusted"
  end.

Definition state_from_github_labels (labels : list string) : string :=
  let normalized := py_lower <$> labels in
  if str_in "needs-human" normalized then "needs_human"
  else if str_in "needs-thought" normalized then "deferred"
  else if str_in "agent-ready" normalized then "ready"
  else "open".

Definition _issue_number (issue : Issue) : res Z :=
  match dict_get "number" issue with
  | PInt n => if n <=? 0 then Raise (WorkItemError "GitHub issue number must be a positive integer")
              else Ok n
  | _ => Raise (WorkItemError "GitHub issue number must be a positive integer")
  end.

(** The name of one label: an object with a name, or the name itself. *)
Definition label_name (label : pyval) : res string :=
  match match label with PDict d => dict_get "name" d | v => v end with
  | PStr name => Ok (py_lower name)
  | _ => Raise (WorkItemError "GitHub issue label names must be strings")
  end.

(** The set of labels, without repeats. *)
Definition _issue_labels (issue : Issue) : res (list string) :=
  let raw := dict_get "labels" issue in
  match if truthy raw then raw else PList [] with
  | PList l => names ← res_map label_name l; Ok (remove_dups names)
  | _ => Raise (WorkItemError "GitHub issue labels must be a list")
  end.

(** [datetime.fromisoformat(raw.replace("Z", "+00:00"))]. *)
Definition parse_iso `{IsoFormat} (raw : string) : option datetime :=
  fromisoformat (replace_char (Ascii.ascii_of_nat 90) "+00:00" raw).

Definition _github_created_at `{IsoFormat} (issue : Issue) : res (option datetime) :=
  match dict_get "created_at" issue with
  | PNone => Ok None
  | PStr raw =>
      match parse_iso raw with
      | Some d => Ok (Some (assume_utc d))
      | None => Raise (WorkItemError "GitHub issue created_at must be an ISO timestamp")
      end
  | _ => Raise (WorkItemError "GitHub issue created_at must be an ISO timestamp")
  end.

(** [_same_value] on two timestamps: the same instant. *)
Definition same_datetime (left right : option datetime) : bool :=
  match left, right with
  | Some l, Some r => instant l =? instant r
  | None, None => true
  | _, _ => false
  end.

Definition github_issue_updated_at `{IsoFormat} (issue : Issue) : res (option datetime) :=
  match dict_get "updated_at" issue with
  | PNone => Ok None
  | PStr raw =>
      match parse_iso raw with
      | Some d => Ok (Some (as_utc (assume_utc d)))
      | None => Raise (WorkItemError "GitHub issue updated_at must be an ISO timestamp")
      end
  | _ => Raise (WorkItemError "GitHub issue updated_at must be an ISO timestamp")
  end.

(** ** The source-order watermark *)

(** The row a concurrent first delivery of the same issue commits between the
    read and the insert of this one, if any: the insert then fails on the
    primary key and the other row is read back. *)
Class Rivals := rival : WDB → string → Z → option (datetime * string * string).

Definition is_issue (repo : string) (number : Z) (row : FactoryGithubIssueState) : bool :=
  bool_decide (gs_repo row = repo) && (gs_issue_number row =? number).

Inductive ordering := Advanced | StaleIgnored | MissingTimestampIgnored.

Definition order_github_issue_snapshot `{IsoFormat, Rivals} (repo : string) (issue : Issue)
    (source_ref : string) : tx WDB ordering := λ db,
  number ← _issue_number issue;
  updated ← github_issue_updated_at issue;
  match updated with
  | None => Ok (MissingTimestampIgnored, db)
  | Some source_updated_at =>
      match dict_get "state" issue with
      | PStr source_state =>
          if negb (str_in source_state ["open"; "closed"])
          then Raise (WorkItemError "GitHub issue state must be open or closed") else
          let advance row db :=
            if instant source_updated_at <=? instant (gs_source_updated_at row)
            then Ok (StaleIgnored, db)
            else Ok (Advanced, set_issues (update_where (is_issue repo number)
              (λ _, mkIssueState repo number source_updated_at source_state source_ref
                      (w_now db))) db) in
          match find_first (is_issue repo number) (w_issues db) with
          | Some row => advance row db
          | None =>
              match rival db repo number with
              | None =>
                  Ok (Advanced, set_issues (λ rows, rows ++
                    [mkIssueState repo number source_updated_at source_state source_ref
                       (w_now db)]) db)
              | Some (at_, state, ref) =>
                  let row := mkIssueState repo number at_ state ref (w_now db) in
                  advance row (set_issues (λ rows, rows ++ [row]) db)
              end
          end
      | _ => Raise (WorkItemError "GitHub issue state must be open or closed")
      end
  end.

(** ** The values of an issue *)

Record GithubValues := mkValues {
  gv_title : string;
  gv_body : string;
  gv_state : string;
  gv_task_class : string;
  gv_labels : list string;
  gv_source_ref : string;
  gv_trust : string;
  gv_github_created_at : option datetime;
}.

(** [factory_intake_loop.derive_task_class(labels, refine=False)]. *)
Definition CLASS_LABELS : list (string * string) :=
  [ ("security-finding", "judgment-analysis"); ("needs-thought", "judgment-analysis");
    ("bug", "bug-fix"); ("documentation", "docs"); ("todo", "mechanical-refactor") ].
Definition derive_task_class (labels : list string) : string :=
  match find_first (λ p : string * string, str_in p.1 labels) CLASS_LABELS with
  | Some p => p.2
  | None => "bug-fix"
  end.

Definition py_or (v w : pyval) : pyval := if truthy v then v else w.

Definition _github_values `{IsoFormat} (repo : string) (issue : Issue)
    (trusted_authors : list string) : res GithubValues :=
  number ← _issue_number issue;
  title ← match dict_get "title" issue with
          | PStr s => if bool_decide (s = ""%string)
                      then Raise (WorkItemError "GitHub issue title must be non-empty") else Ok s
          | _ => Raise (WorkItemError "GitHub issue title must be non-empty")
          end;
  body ← match py_or (dict_get "body" issue) (PStr "") with
         | PStr s => Ok s
         | _ => Raise (WorkItemError "GitHub issue body must be text")
         end;
  labels ← _issue_labels issue;
  source_ref ← match py_or (dict_get "html_url" issue)
                       (PStr ("https://github.com/" +:+ repo +:+ "/issues/" +:+ pretty number)) with
               | PStr s => Ok s
               | _ => Raise (WorkItemError "GitHub issue URL must be text")
               end;
  created ← _github_created_at issue;
  Ok (mkValues title body (state_from_github_labels labels) (derive_task_class labels)
        (py_sorted String.leb labels) source_ref
        (trust_for_github_author (py_or (dict_get "user" issue) (dict_get "author" issue))
           trusted_authors)
        created).

(** [factory_controls.normalize_repo], its [ValueError] already translated. *)
Definition repo_char (c : Ascii.ascii) : bool :=
  let n := Ascii.nat_of_ascii c in
  (((48 <=? n) && (n <=? 57)) || ((65 <=? n) && (n <=? 90)) || ((97 <=? n) && (n <=? 122)) ||
   (n =? 95) || (n =? 46) || (n =? 45))%nat.
Fixpoint repo_chars (s : string) : bool :=
  match s with EmptyString => true | String c s => repo_char c && repo_chars s end.
Definition normalize_repo (repo : string) : res string :=
  match split_on (Ascii.ascii_of_nat 47) repo with
  | [owner; name] =>
      if repo_chars owner && repo_chars name &&
         negb (bool_decide (owner = ""%string)) && negb (bool_decide (name = ""%string)) &&
         (String.length repo <=? 256)%nat &&
         negb (str_in owner ["."; ".."]) && negb (str_in name ["."; ".."])
      then Ok (py_lower repo) else Raise (WorkItemError "invalid GitHub repository")
  | _ => Raise (WorkItemError "invalid GitHub repository")
  end.

(** ** Locks and events *)

Definition item_not_found (id : Z) : exn :=
  WorkItemError ("work item " +:+ pretty id +:+ " not found").
Definition get_item (db : WDB) (id : Z) : option WorkItem :=
  find_first (λ i, wi_id i =? id) (w_items db).
Definition _lock_item (db : WDB) (id : Z) : res WorkItem :=
  match get_item db id with Some i => Ok i | None => Raise (item_not_found id) end.

(** The items of a set of ids: the first missing one in id order raises. *)
Definition _lock_items (db : WDB) (ids : list Z) : res unit :=
  match find_first (λ id, match get_item db id with None => true | Some _ => false end)
          (py_sorted Z.leb (remove_dups ids)) with
  | Some id => Raise (item_not_found id)
  | None => Ok tt
  end.

(** The GitHub items of a repository by issue number.  The rows stay attached
    to the session, so the map holds their ids and reads see later writes. *)
Definition _lock_github_repo_items (db : WDB) (repo : string) : list (Z * Z) :=
  omap (λ i, n ← wi_github_issue_number i;
             if bool_decide (wi_github_repo i = Some repo) then Some (n, wi_id i) else None)
    (w_items db).
Definition locked_get (locked : list (Z * Z)) (number : Z) : option Z :=
  snd <$> find_last (λ p : Z * Z, p.1 =? number) locked.

Record Attribution := mkBy {
  by_actor : string;
  by_author_kind : string;
  by_cause_kind : string;
  by_cause_ref : option string;
  by_stated_reason : option string;
}.

Definition events_of (db : WDB) (id : Z) : list WorkItemEvent :=
  filter (λ e, wv_work_item_id e = id) (w_events db).

Definition _event (id : Z) (op : string) (change : list (string * pyval)) (by_ : Attribution)
    (db : WDB) : WDB :=
  set_events (λ es, es ++
    [mkEvent (max_key wv_id es + 1) id (max_key wv_version (events_of db id) + 1) op
       (by_author_kind by_) (by_actor by_) change (by_cause_kind by_) (by_cause_ref by_)
       (by_stated_reason by_)]) db.

(** Write one item row. *)
Definition put_item (item : WorkItem) (db : WDB) : WDB :=
  set_items (update_where (λ i, wi_id i =? wi_id item) (λ _, item)) db.

(** ** The state machine *)

Definition with_state (item : WorkItem) (state : string) (close_reason : option string)
    (now : Z) : WorkItem :=
  let closing := bool_decide (state = "closed"%string) in
  mkItem (wi_id item) (wi_title item) (wi_body item) state
    (if closing then close_reason else None) (wi_task_class item) (wi_labels item)
    (wi_source_kind item) (wi_source_ref item) (wi_trust item) (wi_authority item)
    (wi_github_repo item) (wi_github_issue_number item) (wi_github_created_at item)
    (wi_created_at item) now (if closing then Some now else None).

Definition transition_change (item : WorkItem) (to_state : string)
    (close_reason : option string) : list (string * pyval) :=
  ("state"%string, PStr to_state) ::
  if bool_decide (to_state = "closed"%string)
  then [("close_reason"%string, match close_reason with Some r => PStr r | None => PNone end)]
  else if bool_decide (wi_state item = "closed"%string)
       then [("close_reason"%string, PNone)] else [].

Definition valid_close_reason (close_reason : option string) : bool :=
  match close_reason with Some r => str_in r _CLOSE_REASONS | None => false end.

Definition transition (id : Z) (to_state : string) (by_ : Attribution)
    (close_reason : option string) : tx WDB WorkItem := λ db,
  if negb (str_in to_state _STATES)
  then Raise (WorkItemError ("unknown work item state " +:+ to_state)) else
  item ← _lock_item db id;
  allowed ← transitions_of (wi_state item);
  if negb (str_in to_state allowed)
  then Raise (WorkItemError ("illegal work item transition " +:+ wi_state item
                             +:+ " -> " +:+ to_state)) else
  if bool_decide (to_state = "closed"%string) && negb (valid_close_reason close_reason)
  then Raise (WorkItemError "closing a work item requires a valid close reason") else
  if negb (bool_decide (to_state = "closed"%string)) &&
     match close_reason with Some _ => true | None => false end
  then Raise (WorkItemError "close reason is only valid when closing a work item") else
  let item' := with_state item to_state close_reason (w_now db) in
  Ok (item', _event id "transition" (transition_change item to_state close_reason) by_
               (put_item item' db)).

(** ** Synchronisation from GitHub *)

Inductive sync_outcome :=
| Minted | Synced | Unchanged | LocalUntouched | Skipped | Ordered (o : ordering).

Definition minted_item (id : Z) (repo : string) (number : Z) (v : GithubValues) (now : Z)
    : WorkItem :=
  mkItem id (gv_title v) (gv_body v) (gv_state v) None (Some (gv_task_class v)) (gv_labels v)
    "github" (Some (gv_source_ref v)) (gv_trust v) "github" (Some repo) (Some number)
    (gv_github_created_at v) now now None.

(** The receipts of the issue that name no work item yet. *)
Definition adopts (repo : string) (number : Z) (r : FactoryReceipt) : bool :=
  bool_decide (fr_repo r = repo) && (fr_issue_number r =? number) &&
  match fr_work_item_id r with None => true | Some _ => false end.

Definition mint (repo : string) (number : Z) (v : GithubValues) (actor : string) (db : WDB)
    : WorkItem * WDB :=
  let item := minted_item (max_key wi_id (w_items db) + 1) repo number v (w_now db) in
  let db := set_items (λ items, items ++ [item]) db in
  let db := _event (wi_id item) "mint"
    [("github_issue_number"%string, PInt number); ("github_repo"%string, PStr repo);
     ("state"%string, PStr (gv_state v))]
    (mkBy actor "github" "github_sync" (Some (gv_source_ref v))
       (Some "minted from GitHub issue"%string)) db in
  (item, set_receipts (update_where (adopts repo number)
           (λ r, mkReceipt (fr_id r) (fr_repo r) (fr_issue_number r) (Some (wi_id item)))) db).

(** The seven fields a sync refreshes; an equal instant keeps the stored one. *)
Definition synced_item (item : WorkItem) (v : GithubValues) : WorkItem :=
  mkItem (wi_id item) (gv_title v) (gv_body v) (wi_state item) (wi_close_reason item)
    (Some (gv_task_class v)) (gv_labels v) (wi_source_kind item) (Some (gv_source_ref v))
    (gv_trust v) (wi_authority item) (wi_github_repo item) (wi_github_issue_number item)
    (if same_datetime (wi_github_created_at item) (gv_github_created_at v)
     then wi_github_created_at item else gv_github_created_at v)
    (wi_created_at item) (wi_updated_at item) (wi_closed_at item).

Definition changed (same : bool) (field : string) (value : pyval) : list (string * pyval) :=
  if same then [] else [(field, value)].

Definition field_changes `{IsoFormat} (item : WorkItem) (v : GithubValues)
    : list (string * pyval) :=
  changed (bool_decide (wi_title item = gv_title v)) "title" (PStr (gv_title v)) ++
  changed (bool_decide (wi_body item = gv_body v)) "body" (PStr (gv_body v)) ++
  changed (bool_decide (wi_task_class item = Some (gv_task_class v))) "task_class"
    (PStr (gv_task_class v)) ++
  changed (bool_decide (wi_labels item = gv_labels v)) "labels" (PList (PStr <$> gv_labels v)) ++
  changed (bool_decide (wi_source_ref item = Some (gv_source_ref v))) "source_ref"
    (PStr (gv_source_ref v)) ++
  changed (bool_decide (wi_trust item = gv_trust v)) "trust" (PStr (gv_trust v)) ++
  changed (same_datetime (wi_github_created_at item) (gv_github_created_at v)) "github_created_at"
    (match gv_github_created_at v with Some d => PStr (isoformat d) | None => PNone end).

(** The shortest legal path to the label state, of at most two steps. *)
Definition label_path (current target : string) : res (option (list string)) :=
  direct ← transitions_of current;
  if str_in target direct then Ok (Some [target])
  else if bool_decide (current = "closed"%string) && str_in "open" direct then
    from_open ← transitions_of "open";
    Ok (if str_in target from_open then Some ["open"%string; target] else None)
  else Ok None.

Fixpoint transition_all (id : Z) (path : list string) (by_ : Attribution) : tx WDB unit := λ db,
  match path with
  | [] => Ok (tt, db)
  | s :: path => '(_, db) ← transition id s by_ None db; transition_all id path by_ db
  end.

Definition label_attribution (v : GithubValues) : Attribution :=
  mkBy "system" "system" "github_sync" (Some (gv_source_ref v))
    (Some ("GitHub labels: " +:+ py_join ", " (py_sorted String.leb (gv_labels v)))).

(** Follow the labels: whether a transition ran, and the label state to record
    when it did not apply. *)
Definition follow_labels (item : WorkItem) (labels_changed : bool) (v : GithubValues)
    : tx WDB (bool * list (string * pyval)) := λ db,
  let unreached := [("label_state"%string, PStr (gv_state v))] in
  if str_in (wi_state item) ["active"; "done"] then
    Ok ((false, if labels_changed && negb (bool_decide (gv_state v = wi_state item))
                then unreached else []), db)
  else if bool_decide (wi_state item = gv_state v) then Ok ((false, []), db)
  else
    path ← label_path (wi_state item) (gv_state v);
    match path with
    | Some steps =>
        '(_, db) ← transition_all (wi_id item) steps (label_attribution v) db;
        Ok ((true, []), db)
    | None => Ok ((false, unreached), db)
    end.

Definition touch (item : WorkItem) (now : Z) : WorkItem :=
  mkItem (wi_id item) (wi_title item) (wi_body item) (wi_state item) (wi_close_reason item)
    (wi_task_class item) (wi_labels item) (wi_source_kind item) (wi_source_ref item)
    (wi_trust item) (wi_authority item) (wi_github_repo item) (wi_github_issue_number item)
    (wi_github_created_at item) (wi_created_at item) now (wi_closed_at item).

Definition _mint_or_sync_from_github_locked `{IsoFormat} (repo : string) (issue : Issue)
    (item : option WorkItem) (actor : string) (trusted_authors : list string)
    : tx WDB (WorkItem * sync_outcome) := λ db,
  number ← _issue_number issue;
  match item with
  | Some item =>
      if bool_decide (wi_authority item = "local"%string) then Ok ((item, LocalUntouched), db) else
      v ← _github_values repo issue trusted_authors;
      let changes := field_changes item v in
      let labels_changed := negb (bool_decide (wi_labels item = gv_labels v)) in
      let item' := synced_item item v in
      '(followed, db) ← follow_labels item' labels_changed v (put_item item' db);
      let '(transitioned, more) := followed in
      current ← _lock_item db (wi_id item);
      match changes ++ more with
      | [] => Ok ((current, if transitioned : bool then Synced else Unchanged), db)
      | changes =>
          let current := touch current (w_now db) in
          Ok ((current, Synced),
              _event (wi_id item) "sync" changes
                (mkBy actor "github" "github_sync" (wi_source_ref current)
                   (Some "synced from GitHub issue"%string)) (put_item current db))
      end
  | None =>
      v ← _github_values repo issue trusted_authors;
      let '(item, db) := mint repo number v actor db in
      Ok ((item, Minted), db)
  end.

Definition find_github_item (db : WDB) (repo : string) (number : Z) : option WorkItem :=
  find_first (λ i, bool_decide (wi_github_repo i = Some repo) &&
                   bool_decide (wi_github_issue_number i = Some number)) (w_items db).

Record SyncOptions := mkSync {
  so_actor : string;
  so_trusted_authors : list string;
  so_source_ordered : bool;
  so_source_ref : option string;
  so_allow_pull_request : bool;
}.

Definition mint_or_sync_from_github `{IsoFormat, Rivals} (repo : string) (issue : Issue)
    (o : SyncOptions) : tx WDB (option WorkItem * sync_outcome) := λ db,
  if negb (is_none (dict_get "pull_request" issue)) && negb (so_allow_pull_request o)
  then Ok ((None, Skipped), db) else
  repo ← normalize_repo repo;
  number ← _issue_number issue;
  let ref := match so_source_ref o with
             | Some r => if bool_decide (r = ""%string) then so_actor o else r
             | None => so_actor o
             end in
  '(fence, db) ← (if so_source_ordered o
                  then order_github_issue_snapshot repo issue ref db
                  else Ok (Advanced, db));
  let item := if so_source_ordered o
              then id ← locked_get (_lock_github_repo_items db repo) number; get_item db id
              else find_github_item db repo number in
  let local := match item with
               | Some i => bool_decide (wi_authority i = "local"%string)
               | None => false
               end in
  if local then Ok ((item, LocalUntouched), db) else
  match fence with
  | Advanced =>
      '((i, outcome), db) ← _mint_or_sync_from_github_locked repo issue item
                              (so_actor o) (so_trusted_authors o) db;
      Ok ((Some i, outcome), db)
  | ignored => Ok ((item, Ordered ignored), db)
  end.

(** ** Relationships *)

Definition edges_from (db : WDB) (kind : string) (id : Z) : list Z :=
  we_to_id <$> filter (λ e, we_from_id e = id ∧ we_kind e = kind) (w_edges db).

(** The loop runs with [search_fuel], which [would_cycle_decides] shows is
    enough. *)
Definition _would_cycle (db : WDB) (from_id to_id : Z) (kind : string) : bool :=
  match search (λ id, Ok (edges_from db kind id)) from_id
          (search_fuel (edges_from db kind) (remove_dups (we_from_id <$> w_edges db)) [to_id])
          [to_id] ∅ with
  | Some (Ok b) => b
  | _ => false
  end.

Definition is_edge (from_id to_id : Z) (kind : string) (e : WorkItemEdge) : bool :=
  (we_from_id e =? from_id) && (we_to_id e =? to_id) && bool_decide (we_kind e = kind).

Definition edge_change (from_id to_id : Z) (kind : string) : list (string * pyval) :=
  [("edge"%string, PDict [("from_id"%string, PInt from_id); ("kind"%string, PStr kind);
                          ("to_id"%string, PInt to_id)])].

Definition add_edge (from_id to_id : Z) (kind : string) (by_ : Attribution) (source : string)
    : tx WDB unit := λ db,
  if negb (str_in kind _EDGE_KINDS)
  then Raise (WorkItemError ("unknown work item edge kind " +:+ kind)) else
  if from_id =? to_id then Raise (WorkItemError "work item edge cannot reference itself") else
  _ ← _lock_items db [from_id; to_id];
  match find_first (is_edge from_id to_id kind) (w_edges db) with
  | Some _ => Ok (tt, db)
  | None =>
      if negb (bool_decide (kind = "supersedes"%string)) && _would_cycle db from_id to_id kind
      then Raise (WorkItemError ("would create " +:+ kind +:+ " cycle")) else
      Ok (tt, _event from_id "add_edge" (edge_change from_id to_id kind) by_
                (set_edges (λ es, es ++ [mkEdge (max_key we_id es + 1) from_id to_id kind source])
                   db))
  end.

Definition remove_edge (from_id to_id : Z) (kind : string) (by_ : Attribution)
    : tx WDB unit := λ db,
  if negb (str_in kind _EDGE_KINDS)
  then Raise (WorkItemError ("unknown work item edge kind " +:+ kind)) else
  _ ← _lock_items db [from_id; to_id];
  match find_first (is_edge from_id to_id kind) (w_edges db) with
  | None => Ok (tt, db)
  | Some _ =>
      Ok (tt, _event from_id "remove_edge" (edge_change from_id to_id kind) by_
                (set_edges (filter (λ e, is_edge from_id to_id kind e = false)) db))
  end.

(** ** Authority and readiness *)

Definition with_local_authority (item : WorkItem) (now : Z) : WorkItem :=
  mkItem (wi_id item) (wi_title item) (wi_body item) (wi_state item) (wi_close_reason item)
    (wi_task_class item) (wi_labels item) (wi_source_kind item) (wi_source_ref item)
    (wi_trust item) "local" (wi_github_repo item) (wi_github_issue_number item)
    (wi_github_created_at item) (wi_created_at item) now (wi_closed_at item).

Definition set_authority_local (id : Z) (by_ : Attribution) : tx WDB WorkItem := λ db,
  item ← _lock_item db id;
  if bool_decide (wi_authority item = "local"%string) then Ok (item, db) else
  let item' := with_local_authority item (w_now db) in
  Ok (item', _event id "set_authority_local" [("authority"%string, PStr "local")] by_
               (put_item item' db)).

(** The join of items and edges: one row per blocking edge, in id order. *)
Definition open_blockers (db : WDB) (id : Z) : list WorkItem :=
  py_sorted (λ a b, wi_id a <=? wi_id b)
    (i ← w_items db;
     (λ _, i) <$> filter (λ e, we_from_id e = wi_id i ∧ we_to_id e = id ∧ we_kind e = "blocks"%string
                       ∧ wi_state i ≠ "closed"%string) (w_edges db)).

Definition is_admissible (db : WDB) (id : Z) : bool :=
  match get_item db id with
  | None => false
  | Some item => bool_decide (wi_state item = "ready"%string) &&
                 match open_blockers db id with [] => true | _ => false end
  end.

(** ** Reads *)

Definition newest_first (a b : WorkItem) : bool :=
  match Z.compare (wi_created_at b) (wi_created_at a) with
  | Lt => true
  | Gt => false
  | Eq => wi_id b <=? wi_id a
  end.

(** An optional equality filter. *)
Definition wanted (value : option string) (column : string) : bool :=
  match value with Some v => bool_decide (column = v) | None => true end.

Definition list_work_items (db : WDB) (state authority : option string) (limit : Z)
    : list WorkItem :=
  let rows := filter (λ i, wanted state (wi_state i) && wanted authority (wi_authority i) = true)
                (w_items db) in
  take (Z.to_nat (Z.max 1 (Z.min limit 200))) (py_sorted newest_first rows).

(** ** The sweep *)

Definition missing (repo : string) (open_numbers : list Z) (i : WorkItem) : bool :=
  bool_decide (wi_github_repo i = Some repo) && bool_decide (wi_authority i = "github"%string) &&
  negb (bool_decide (wi_state i = "closed"%string)) &&
  match wi_github_issue_number i with Some n => negb (bool_decide (n ∈ open_numbers)) | None => false end.

Definition missing_attribution (repo actor : string) : Attribution :=
  mkBy actor "factory" "github_sync" (Some ("github:" +:+ repo))
    (Some "issue absent from complete GitHub open listing"%string).

Fixpoint close_all (ids : list Z) (by_ : Attribution) : tx WDB unit := λ db,
  match ids with
  | [] => Ok (tt, db)
  | id :: ids =>
      '(_, db) ← transition id "closed" by_ (Some "github_closed"%string) db;
      close_all ids by_ db
  end.

Definition close_missing_from_github (repo : string) (open_numbers : list Z) (actor : string)
    : tx WDB nat := λ db,
  match open_numbers with
  | [] => Ok (0%nat, db)
  | _ =>
      repo ← normalize_repo repo;
      let rows := py_sorted Z.leb
        (wi_id <$> filter (λ i, missing repo open_numbers i = true) (w_items db)) in
      '(_, db) ← close_all rows (missing_attribution repo actor) db;
      Ok (length rows, db)
  end.

Record Counts := mkCounts {
  ct_minted : nat; ct_synced : nat; ct_unchanged : nat; ct_local_untouched : nat;
  ct_stale_ignored : nat; ct_missing_timestamp_ignored : nat; ct_skipped : nat;
  ct_closed : nat; ct_close_skipped : option string;
}.
Definition no_counts : Counts := mkCounts 0 0 0 0 0 0 0 0 None.

(** [counts[outcome] += 1]. *)
Definition bump (o : sync_outcome) (c : Counts) : Counts :=
  let '(mkCounts m s u l st mi sk cl cs) := c in
  match o with
  | Minted => mkCounts (S m) s u l st mi sk cl cs
  | Synced => mkCounts m (S s) u l st mi sk cl cs
  | Unchanged => mkCounts m s (S u) l st mi sk cl cs
  | LocalUntouched => mkCounts m s u (S l) st mi sk cl cs
  | Ordered StaleIgnored => mkCounts m s u l (S st) mi sk cl cs
  | Ordered MissingTimestampIgnored => mkCounts m s u l st (S mi) sk cl cs
  | Skipped => mkCounts m s u l st mi (S sk) cl cs
  | Ordered Advanced => c
  end.
Definition set_closed (closed : nat) (skipped : option string) (c : Counts) : Counts :=
  mkCounts (ct_minted c) (ct_synced c) (ct_unchanged c) (ct_local_untouched c)
    (ct_stale_ignored c) (ct_missing_timestamp_ignored c) (ct_skipped c) closed skipped.

(** First pass: the issues to sync, the pull-request numbers, and the count of
    skipped entries. *)
Fixpoint index_issues (index : nat) (issues : list pyval)
    : res (list (nat * Issue) * list Z * nat) :=
  match issues with
  | [] => Ok ([], [], 0%nat)
  | PDict issue :: issues =>
      number ← _issue_number issue;
      '(indexed, numbers, skipped) ← index_issues (S index) issues;
      Ok (if is_none (dict_get "pull_request" issue)
          then ((index, issue) :: indexed, numbers, skipped)
          else (indexed, number :: numbers, S skipped))
  | _ => Raise (WorkItemError "GitHub issue entries must be objects")
  end.

Definition number_of (issue : Issue) : Z :=
  match dict_get "number" issue with PInt n => n | _ => 0 end.

(** Second pass, when the source is ordered: every fence in number order. *)
Fixpoint order_all `{IsoFormat, Rivals} (repo : string) (indexed : list (nat * Issue))
    (outcomes : list (nat * ordering)) : tx WDB (list (nat * ordering)) := λ db,
  match indexed with
  | [] => Ok (outcomes, db)
  | (index, issue) :: indexed =>
      '(o, db) ← order_github_issue_snapshot repo issue "github:sweep" db;
      order_all repo indexed ((index, o) :: outcomes) db
  end.

(** Third pass: apply each snapshot, threading the locked rows. *)
Fixpoint sync_all `{IsoFormat} (repo actor : string) (outcomes : list (nat * ordering))
    (indexed : list (nat * Issue)) (locked : list (Z * Z)) (open_numbers : list Z)
    (counts : Counts) : tx WDB (list Z * Counts) := λ db,
  match indexed with
  | [] => Ok ((open_numbers, counts), db)
  | (index, issue) :: indexed =>
      number ← _issue_number issue;
      let item := id ← locked_get locked number; get_item db id in
      let fence := snd <$> find_first (λ p : nat * ordering, (p.1 =? index)%nat) outcomes in
      '((item, outcome), db) ←
        match item, fence with
        | Some i, _ =>
            if bool_decide (wi_authority i = "local"%string) then Ok ((item, LocalUntouched), db)
            else match fence with
                 | Some ((StaleIgnored | MissingTimestampIgnored) as o) => Ok ((item, Ordered o), db)
                 | _ => '((i, o), db) ← _mint_or_sync_from_github_locked repo issue item actor [] db;
                        Ok ((Some i, o), db)
                 end
        | None, Some ((StaleIgnored | MissingTimestampIgnored) as o) => Ok ((None, Ordered o), db)
        | None, _ => '((i, o), db) ← _mint_or_sync_from_github_locked repo issue None actor [] db;
                     Ok ((Some i, o), db)
        end;
      let locked := match item with Some i => locked ++ [(number, wi_id i)] | None => locked end in
      let open_numbers := match item with Some _ => number :: open_numbers | None => open_numbers end in
      sync_all repo actor outcomes indexed locked open_numbers (bump outcome counts) db
  end.

Definition sync_github_work_items `{IsoFormat, Rivals} (repo : string) (issues : list pyval)
    (truncated : bool) (actor : string) (source_ordered : bool) : tx WDB Counts := λ db,
  repo ← normalize_repo repo;
  '(indexed, numbers, skipped) ← index_issues 0 issues;
  '(outcomes, db) ←
    (if source_ordered
     then order_all repo (py_sorted (λ a b, number_of a.2 <=? number_of b.2) indexed) [] db
     else Ok ([], db));
  '((open_numbers, counts), db) ←
    sync_all repo actor outcomes indexed (_lock_github_repo_items db repo) numbers
      (Nat.iter skipped (bump Skipped) no_counts) db;
  if negb truncated && negb source_ordered then
    '(closed, db) ← close_missing_from_github repo open_numbers actor db;
    Ok (set_closed closed (match open_numbers with
                           | [] => Some "empty_listing"%string | _ => None end) counts, db)
  else Ok (set_closed 0 (if source_ordered then Some "source_ordered"%string else None) counts, db).
