(* ===== verification/WorkItemInvariant.v ===== *)
(** * Work items: the table invariant

    One row per id and per GitHub issue, a consistent close reason on every
    row, numbered events, and acyclic blocking and parent relations; and how
    the rows may evolve.  Both are proved once per primitive write and
    composed for the operations.  Then every operation of [work_items.py]. *)

From stdpp Require Import prelude list strings pretty relations gmap.
From S2P Require Import Prelude PyValue Worklist WorkItems.
Local Open Scope Z_scope.

(** ** Evolution of a row *)

(** One legal edge of the state machine. *)
Definition legal (s s' : string) : Prop :=
  ∃ allowed, assoc_get s _TRANSITIONS = Some allowed ∧ s' ∈ allowed.

Record evolves (i i' : WorkItem) : Prop := {
  ie_id : wi_id i' = wi_id i;
  ie_repo : wi_github_repo i' = wi_github_repo i;
  ie_number : wi_github_issue_number i' = wi_github_issue_number i;
  ie_state : rtc legal (wi_state i) (wi_state i');
  ie_local : wi_authority i = "local" → wi_authority i' = "local";
}.

(** What synchronisation may do to a row: never touch a local one. *)
Record sync_evolves (i i' : WorkItem) : Prop := {
  se_evolves : evolves i i';
  se_authority : wi_authority i' = wi_authority i;
  se_local : wi_authority i = "local" → i' = i;
}.

#[export] Instance evolves_preorder : PreOrder evolves.
Proof.
  split.
  - intros i. split; done.
  - intros i1 i2 i3 [] []. split; [congruence..| |auto]. by etrans.
Qed.

#[export] Instance sync_evolves_preorder : PreOrder sync_evolves.
Proof.
  split.
  - intros i. split; done.
  - intros i1 i2 i3 [H1 H2 H3] [H4 H5 H6]. split; [by etrans|congruence|].
    intros Hl. rewrite H6 by congruence. by apply H3.
Qed.

(** ** Consistency of a row *)

Record item_ok (i : WorkItem) : Prop := {
  io_state : wi_state i ∈ _STATES;
  io_closed : wi_state i = "closed" ↔ is_Some (wi_close_reason i);
  io_reason : ∀ r, wi_close_reason i = Some r → r ∈ _CLOSE_REASONS;
  io_closed_at : wi_state i = "closed" ↔ is_Some (wi_closed_at i);
}.

Definition item_edge (db : WDB) (kind : string) (x y : Z) : Prop :=
  ∃ e, e ∈ w_edges db ∧ we_from_id e = x ∧ we_to_id e = y ∧ we_kind e = kind.

Definition github_key (i : WorkItem) : option (string * Z) :=
  repo ← wi_github_repo i; number ← wi_github_issue_number i; Some (repo, number).

Record wdb_ok (db : WDB) : Prop := {
  wo_ids : NoDup (wi_id <$> w_items db);
  wo_items : ∀ i, i ∈ w_items db → item_ok i;
  wo_github : NoDup (omap github_key (w_items db));
  wo_events : ∀ id, wv_version <$> events_of db id = upto (length (events_of db id));
  wo_ends : ∀ e, e ∈ w_edges db → we_from_id e ∈ wi_id <$> w_items db ∧
                                  we_to_id e ∈ wi_id <$> w_items db;
  wo_edges : NoDup ((λ e, (we_from_id e, we_to_id e, we_kind e)) <$> w_edges db);
  wo_acyclic : ∀ kind, kind ≠ "supersedes"%string → acyclic (item_edge db kind);
}.

(** Every row of [db] is still there, related by [R]; new rows may follow. *)
Definition item_rel (R : relation WorkItem) (db db' : WDB) : Prop :=
  ∃ g extra, w_items db' = (g <$> w_items db) ++ extra ∧
    ∀ i, i ∈ w_items db → R i (g i).

Definition step_ok (R : relation WorkItem) (db db' : WDB) : Prop :=
  wdb_ok db → wdb_ok db' ∧ item_rel R db db'.

Section steps.
Context (R : relation WorkItem) `{!PreOrder R}.

Lemma item_rel_same db db' : w_items db' = w_items db → item_rel R db db'.
Proof.
  intros H. exists id, []. rewrite list_fmap_id, app_nil_r. split; [done|].
  by intros i _.
Qed.

Lemma item_rel_trans db1 db2 db3 :
  item_rel R db1 db2 → item_rel R db2 db3 → item_rel R db1 db3.
Proof.
  intros (g1 & x1 & H1 & Hg1) (g2 & x2 & H2 & Hg2).
  exists (g2 ∘ g1), ((g2 <$> x1) ++ x2). split.
  - by rewrite H2, H1, fmap_app, list_fmap_compose, <-app_assoc.
  - intros i Hi. etrans; [by apply Hg1|]. apply Hg2. rewrite H1. apply elem_of_app. left.
    by apply list_elem_of_fmap_2.
Qed.

Lemma step_ok_refl db : step_ok R db db.
Proof. intros Hok. split; [done|]. by apply item_rel_same. Qed.

Lemma step_ok_trans db1 db2 db3 : step_ok R db1 db2 → step_ok R db2 db3 → step_ok R db1 db3.
Proof.
  intros H12 H23 Hok. destruct (H12 Hok) as [Hok2 ?]. destruct (H23 Hok2).
  split; [done|]. by eapply item_rel_trans.
Qed.
End steps.

Lemma item_rel_get R db db' id i :
  PreOrder R → (∀ i i', R i i' → evolves i i') → wdb_ok db' → item_rel R db db' →
  i ∈ w_items db → wi_id i = id → ∃ i', get_item db' id = Some i' ∧ R i i'.
Proof.
  intros _ HR Hok (g & extra & Hi & Hg) Hin Hid.
  assert (g i ∈ w_items db') as Hgi.
  { rewrite Hi. apply elem_of_app. left. by apply list_elem_of_fmap_2. }
  assert (wi_id (g i) = id) as Hgid by (rewrite <-Hid; apply (HR i), Hg, Hin).
  unfold get_item. destruct (find_first _ _) as [j|] eqn:E.
  - apply find_first_Some in E as [Hj Hjd%Z.eqb_eq]. exists j. split; [done|].
    assert (j = g i) as -> by (eapply NoDup_fmap_elem; [apply (wo_ids _ Hok)|..]; congruence).
    by apply Hg.
  - rewrite find_first_None in E. specialize (E (g i) Hgi). apply Z.eqb_neq in E. done.
Qed.

(** ** Primitive writes *)

Lemma get_item_elem db id i : get_item db id = Some i → i ∈ w_items db ∧ wi_id i = id.
Proof. unfold get_item. by intros [? ?%Z.eqb_eq]%find_first_Some. Qed.

Lemma get_item_of db i : wdb_ok db → i ∈ w_items db → get_item db (wi_id i) = Some i.
Proof.
  intros Hok Hi. unfold get_item. destruct (find_first _ _) as [j|] eqn:E.
  - apply find_first_Some in E as [Hj Hjd%Z.eqb_eq]. f_equal.
    by eapply NoDup_fmap_elem; [apply (wo_ids _ Hok)|..].
  - rewrite find_first_None in E. specialize (E i Hi). by apply Z.eqb_neq in E.
Qed.

Lemma get_item_put db i : wdb_ok db → is_Some (get_item db (wi_id i)) →
  get_item (put_item i db) (wi_id i) = Some i.
Proof.
  intros Hok [j Hj]. unfold get_item in *. unfold put_item, set_items. simpl.
  apply find_first_Some in Hj as [Hj Hjd]. revert Hj. generalize (w_items db) as l.
  induction l as [|x l IH]; [intros []%elem_of_nil|]. intros [->|Hx]%elem_of_cons; simpl.
  - rewrite Hjd. simpl. by rewrite Z.eqb_refl.
  - destruct (wi_id x =? wi_id i) eqn:E; simpl; [by rewrite Z.eqb_refl|].
    rewrite E. by apply IH.
Qed.

Lemma events_of_event id op change by_ db id' :
  events_of (_event id op change by_ db) id' =
  events_of db id' ++ if decide (id = id') then
    [mkEvent (max_key wv_id (w_events db) + 1) id (max_key wv_version (events_of db id) + 1) op
       (by_author_kind by_) (by_actor by_) change (by_cause_kind by_) (by_cause_ref by_)
       (by_stated_reason by_)] else [].
Proof. unfold events_of, _event. simpl. by rewrite filter_app, filter_cons, filter_nil. Qed.

Lemma event_ok R `{!PreOrder R} id op change by_ db : step_ok R db (_event id op change by_ db).
Proof.
  intros [H1 H2 H3 H4 H5 H6 H7]. split; [|by apply item_rel_same]. split; try done.
  intros id'. rewrite events_of_event. case_decide as E; [subst|by rewrite app_nil_r].
  by apply upto_append.
Qed.

(** Tables other than the items, the events and the edges are free. *)
Lemma frame_ok R `{!PreOrder R} db db' :
  w_items db' = w_items db → w_events db' = w_events db → w_edges db' = w_edges db →
  step_ok R db db'.
Proof.
  intros Hi He Hd [H1 H2 H3 H4 H5 H6 H7]. split; [|by apply item_rel_same].
  split; rewrite ?Hi, ?He, ?Hd; try done.
  - intros id. unfold events_of. rewrite He. apply H4.
  - intros kind Hk. unfold item_edge. rewrite Hd. by apply H7.
Qed.

Lemma put_ok (R : relation WorkItem) `{!PreOrder R} i i' db :
  get_item db (wi_id i') = Some i → item_ok i' → R i i' → (R i i' → evolves i i') →
  step_ok R db (put_item i' db).
Proof.
  intros Hget Hi' HR Hev Hok. destruct (get_item_elem _ _ _ Hget) as [Hin Hid].
  destruct (Hev HR) as [_ Hrepo Hnum _ _].
  assert (∀ x, x ∈ w_items db → (wi_id x =? wi_id i') = true → x = i) as Huniq.
  { intros x Hx E%Z.eqb_eq. eapply NoDup_fmap_elem; [apply (wo_ids _ Hok)|done|done|congruence]. }
  destruct Hok as [H1 H2 H3 H4 H5 H6 H7].
  assert (wi_id <$> w_items (put_item i' db) = wi_id <$> w_items db) as Hids.
  { apply update_where_fmap. intros x _ E%Z.eqb_eq. done. }
  split.
  - split; try done.
    + by rewrite Hids.
    + intros x (y & Hy & ->)%elem_of_update_where. case_match; auto.
    + simpl. assert (github_key i' = github_key i) as Hkey
        by (unfold github_key; by rewrite Hrepo, Hnum).
      revert H3 Huniq. generalize (w_items db) as l. clear -Hkey.
      intros l Hnd Huniq. unfold update_where.
      assert (omap github_key ((λ x, if wi_id x =? wi_id i' then i' else x) <$> l)
              = omap github_key l) as ->; [|done]. clear Hnd.
      induction l as [|x l IH]; [done|]. rewrite fmap_cons. simpl.
      assert (github_key (if wi_id x =? wi_id i' then i' else x) = github_key x) as ->.
      { destruct (wi_id x =? wi_id i') eqn:E; [|done].
        by rewrite Hkey, (Huniq x) by (done || constructor). }
      assert (omap github_key ((λ x, if wi_id x =? wi_id i' then i' else x) <$> l)
        = omap github_key l) as Hl by (apply IH; intros; apply Huniq; [by constructor|done]).
      unfold omap in Hl. by rewrite Hl.
    + intros e He. rewrite Hids. by apply H5.
  - exists (λ x, if wi_id x =? wi_id i' then i' else x), []. rewrite app_nil_r.
    split; [done|]. intros x Hx. destruct (wi_id x =? wi_id i') eqn:E; [|done].
    by rewrite (Huniq x Hx E).
Qed.

(** Adding a row under a fresh id and issue. *)
Lemma append_item_ok R `{!PreOrder R} i db :
  wi_id i ∉ wi_id <$> w_items db → item_ok i →
  (∀ key, github_key i = Some key → key ∉ omap github_key (w_items db)) →
  step_ok R db (set_items (λ l, l ++ [i]) db).
Proof.
  intros Hid Hi Hkey [H1 H2 H3 H4 H5 H6 H7]. split.
  - split; try done; simpl.
    + rewrite fmap_app. apply NoDup_app. split; [done|]. split; [|apply NoDup_singleton].
      by intros x Hx ->%list_elem_of_singleton.
    + intros x [Hx|Hx]%elem_of_app; [auto|]. by apply list_elem_of_singleton in Hx as ->.
    + rewrite omap_app. apply NoDup_app. split; [done|]. simpl.
      destruct (github_key i) as [key|]; [|split; [by intros ? _ []%elem_of_nil|constructor]].
      split; [|apply NoDup_singleton]. intros x Hx ->%list_elem_of_singleton.
      by eapply Hkey.
    + intros e He. rewrite !fmap_app, !elem_of_app. destruct (H5 e He). auto.
  - exists id, [i]. rewrite list_fmap_id. split; [done|]. by intros.
Qed.

(** ** The state machine *)

Lemma with_state_ok item s cr now :
  s ∈ _STATES → (s = "closed" → valid_close_reason cr = true) → item_ok (with_state item s cr now).
Proof.
  intros Hs Hc. unfold with_state, valid_close_reason in *. split; simpl; [done|..];
    case_bool_decide as E; rewrite ?E.
  - split; [|done]. intros _. specialize (Hc E). destruct cr; [by eexists|done].
  - split; [done|]. by intros [].
  - intros r ->. specialize (Hc E). by apply bool_decide_eq_true in Hc.
  - done.
  - split; [by eexists|done].
  - split; [done|]. by intros [].
Qed.

Lemma transition_inv id s by_ cr db i' db' :
  transition id s by_ cr db = Ok (i', db') →
  ∃ i change, get_item db id = Some i ∧ legal (wi_state i) s ∧ s ∈ _STATES ∧
    (s = "closed" → valid_close_reason cr = true) ∧
    i' = with_state i s cr (w_now db) ∧
    db' = _event id "transition" change by_ (put_item i' db).
Proof.
  unfold transition. destruct (str_in s _STATES) eqn:Hs; [|done]. simpl.
  unfold _lock_item. destruct (get_item db id) as [i|] eqn:Hi; simpl; [|done].
  unfold transitions_of. destruct (assoc_get (wi_state i) _TRANSITIONS) as [l|] eqn:Hl; simpl; [|done].
  destruct (str_in s l) eqn:Hin; [|done]. simpl.
  destruct (bool_decide (s = "closed") && _) eqn:Hc; [done|].
  destruct (negb _ && _) eqn:Hn; [done|]. intros [= <- <-].
  apply bool_decide_eq_true in Hs, Hin. eexists i, _.
  split; [done|]. split; [by exists l|]. split; [done|]. split; [|done].
  intros ->. by destruct (valid_close_reason cr).
Qed.

Lemma with_state_evolves i s cr now : legal (wi_state i) s → evolves i (with_state i s cr now).
Proof. intros Hl. split; simpl; try done. by apply rtc_once. Qed.

Lemma transition_ok R `{!PreOrder R} id s by_ cr db i' db' :
  transition id s by_ cr db = Ok (i', db') →
  (∀ i, get_item db id = Some i → i' = with_state i s cr (w_now db) → evolves i i' → R i i') →
  step_ok R db db' ∧ (wdb_ok db → get_item db' id = Some i').
Proof.
  intros (i & change & Hget & Hl & Hs & Hc & Hi' & ->)%transition_inv HR.
  assert (evolves i i') as Hev by (subst; by apply with_state_evolves).
  assert (wi_id i' = id) as Hid by (rewrite (ie_id _ _ Hev); by apply get_item_elem in Hget as [_ ?]).
  split.
  - eapply step_ok_trans; [done| |by apply event_ok].
    eapply (put_ok R i); [by rewrite Hid|subst; by apply with_state_ok|by apply HR|done].
  - intros Hok. change (get_item (put_item i' db) id = Some i'). rewrite <-Hid.
    apply get_item_put; [done|]. rewrite Hid, Hget. eauto.
Qed.

(** * Work items: every operation preserves the invariant

    The cycle check on relationships, and the row evolution of each public
    operation of [work_items.py]. *)

(** ** Relationships *)

Lemma edges_from_edge db kind x y : y ∈ edges_from db kind x ↔ item_edge db kind x y.
Proof.
  unfold edges_from, item_edge. rewrite list_elem_of_fmap.
  setoid_rewrite list_elem_of_filter. naive_solver.
Qed.

Lemma edges_from_outside db kind k :
  k ∉ remove_dups (we_from_id <$> w_edges db) → edges_from db kind k = [].
Proof.
  rewrite elem_of_remove_dups. intros Hk.
  destruct (edges_from db kind k) as [|y l] eqn:E; [done|].
  assert (item_edge db kind k y) as (e & He & Hf & _).
  { apply edges_from_edge. rewrite E. constructor. }
  destruct Hk. apply list_elem_of_fmap. by exists e.
Qed.

Lemma would_cycle_decides db from_id to_id kind :
  _would_cycle db from_id to_id kind = true ↔ rtc (item_edge db kind) to_id from_id.
Proof.
  destruct (search_correct (λ id, Ok (edges_from db kind id)) (edges_from db kind)
    (remove_dups (we_from_id <$> w_edges db)) (λ _, eq_refl) (NoDup_remove_dups _)
    (edges_from_outside db kind) from_id [to_id]) as (b & Hb & Hiff).
  unfold _would_cycle. change (reverse [to_id]) with [to_id] in Hb. rewrite Hb, Hiff.
  rewrite <-(rtc_iff _ _ (edges_from_edge db kind)).
  split; [by intros (d & ->%list_elem_of_singleton & ?)|].
  intros ?. exists to_id. split; [constructor|done].
Qed.

Lemma is_edge_spec f t k e :
  is_edge f t k e = true ↔ we_from_id e = f ∧ we_to_id e = t ∧ we_kind e = k.
Proof. unfold is_edge. rewrite !andb_true_iff, !Z.eqb_eq, bool_decide_eq_true. tauto. Qed.

Lemma lock_items_ok db ids :
  _lock_items db ids = Ok tt → ∀ id, id ∈ ids → id ∈ wi_id <$> w_items db.
Proof.
  unfold _lock_items. destruct (find_first _ _) as [?|] eqn:E; [done|]. intros _ id Hid.
  rewrite find_first_None in E. specialize (E id).
  rewrite elem_of_py_sorted, elem_of_remove_dups in E. specialize (E Hid).
  destruct (get_item db id) as [i|] eqn:Hi; [|done].
  apply get_item_elem in Hi as [Hi <-]. by apply list_elem_of_fmap_2.
Qed.

Lemma add_edge_ok f t k by_ src db u db' :
  add_edge f t k by_ src db = Ok (u, db') → step_ok evolves db db'.
Proof.
  unfold add_edge. destruct (str_in k _EDGE_KINDS); [|done]. simpl.
  destruct (f =? t) eqn:Hft; [done|]. apply Z.eqb_neq in Hft.
  destruct (_lock_items db [f; t]) as [[]|] eqn:Hl; simpl; [|done].
  destruct (find_first _ _) eqn:Hf; [intros [= _ <-]; by apply (step_ok_refl evolves)|].
  destruct (negb _ && _) eqn:Hc; [done|]. intros [= _ <-].
  eapply (step_ok_trans evolves); [|apply event_ok, _].
  intros [H1 H2 H3 H4 H5 H6 H7]. pose proof (lock_items_ok _ _ Hl) as Hin.
  split; [|by apply (item_rel_same evolves)]. split; try done; simpl.
  - intros e [He|He]%elem_of_app; [by apply H5|]. apply list_elem_of_singleton in He as ->.
    simpl. split; apply Hin; decide_in || (rewrite !elem_of_cons; auto).
  - rewrite fmap_app. apply NoDup_app. split; [done|]. split; [|apply NoDup_singleton].
    intros x (e & -> & He)%list_elem_of_fmap Hx%list_elem_of_singleton. simpl in Hx.
    rewrite find_first_None in Hf. specialize (Hf e He).
    apply not_true_iff_false in Hf. apply Hf, is_edge_spec. naive_solver.
  - intros kind Hk. destruct (decide (kind = k)) as [->|Hne].
    + apply (acyclic_extend (item_edge db k) _ f (λ y, y = t)); [|by apply H7|].
      * intros x y (e & [He|He]%elem_of_app & Hx & Hy & Hkk); [left; by exists e|].
        apply list_elem_of_singleton in He as ->. simpl in *. naive_solver.
      * intros d -> Hr. apply would_cycle_decides in Hr. rewrite Hr in Hc.
        rewrite bool_decide_eq_false_2 in Hc by done. done.
    + eapply acyclic_subrel; [|by apply (H7 kind)].
      intros x y (e & [He|He]%elem_of_app & Hx & Hy & Hkk); [by exists e|].
      apply list_elem_of_singleton in He as ->. simpl in *. congruence.
Qed.

Lemma remove_edge_ok f t k by_ db u db' :
  remove_edge f t k by_ db = Ok (u, db') → step_ok evolves db db'.
Proof.
  unfold remove_edge. destruct (str_in k _EDGE_KINDS); [|done]. simpl.
  destruct (_lock_items db [f; t]) as [[]|]; simpl; [|done].
  destruct (find_first _ _); [|intros [= _ <-]; by apply (step_ok_refl evolves)].
  intros [= _ <-].
  eapply (step_ok_trans evolves); [|apply event_ok, _].
  intros [H1 H2 H3 H4 H5 H6 H7]. split; [|by apply (item_rel_same evolves)].
  split; try done; simpl.
  - intros e [_ He]%list_elem_of_filter. by apply H5.
  - by apply NoDup_fmap_filter.
  - intros kind Hk. eapply acyclic_subrel; [|by apply (H7 kind)].
    intros x y (e & [_ He]%list_elem_of_filter & ?). by exists e.
Qed.

(** ** Authority *)

Lemma set_authority_local_ok id by_ db i db' :
  set_authority_local id by_ db = Ok (i, db') →
  step_ok evolves db db' ∧ wi_authority i = "local"%string ∧
  (wdb_ok db → get_item db' id = Some i).
Proof.
  unfold set_authority_local, _lock_item.
  destruct (get_item db id) as [item|] eqn:Hi; simpl; [|done].
  destruct (get_item_elem _ _ _ Hi) as [Hin Hid].
  case_bool_decide as Hl; intros [= <- <-].
  { split; [by apply (step_ok_refl evolves)|done]. }
  split; [|split; [done|]].
  - intros Hok. revert Hok. eapply (step_ok_trans evolves); [|apply event_ok, _].
    intros Hok. eapply (put_ok evolves item); [by rewrite <-Hid in Hi| |by split|done|done].
    by destruct (wo_items _ Hok item Hin).
  - intros Hok. change (get_item (put_item (with_local_authority item (w_now db)) db) id
      = Some (with_local_authority item (w_now db))).
    rewrite <-Hid. apply (get_item_put db (with_local_authority item (w_now db))); [done|].
    simpl. rewrite Hid, Hi. eauto.
Qed.
