(* ===== verification/WorkItemSync.v ===== *)
(** * Work items: synchronisation

    One snapshot applied to its item: what the row then holds, that a second
    application changes nothing, and that rows under local authority are never
    touched.  Then the watermark and the sweep. *)

From stdpp Require Import prelude list strings pretty relations gmap.
From S2P Require Import Prelude PyValue Worklist WorkItems WorkItemInvariant.
Local Open Scope Z_scope.
#[local] Arguments assoc_get : simpl never.

(** ** The label states *)

Definition LABEL_STATES : list string := ["open"; "ready"; "deferred"; "needs_human"].

Lemma label_state labels : state_from_github_labels labels ∈ LABEL_STATES.
Proof. unfold state_from_github_labels. repeat case_match; decide_in. Qed.

Lemma label_states_known s : s ∈ LABEL_STATES → s ∈ _STATES ∧ s ≠ "closed"%string.
Proof.
  unfold LABEL_STATES. rewrite !elem_of_cons, elem_of_nil.
  intros [->|[->|[->|[->|[]]]]]; (split; [decide_in|done]).
Qed.

(** From every state that follows its labels, the path exists, is legal, and
    ends in the label state. *)
Definition path_ok (current target : string) : bool :=
  match label_path current target with
  | Ok (Some path) =>
      bool_decide (last path = Some target) && forallb (λ s, str_in s LABEL_STATES) path &&
      (fix legal_path (s : string) (path : list string) : bool :=
         match path with
         | [] => true
         | s' :: path =>
             match assoc_get s _TRANSITIONS with
             | Some l => str_in s' l
             | None => false
             end && legal_path s' path
         end) current path
  | _ => false
  end.

Lemma label_path_ok current target :
  current ∈ _STATES → current ∉ ["active"; "done"]%string → target ∈ LABEL_STATES →
  current ≠ target → path_ok current target = true.
Proof.
  intros Hc Hn Ht Hne.
  assert (forallb (λ c, forallb (λ t, str_in c ["active"; "done"]%string || bool_decide (c = t)
    || path_ok c t) LABEL_STATES) _STATES = true) as Hall by (vm_compute; reflexivity).
  rewrite forallb_forall in Hall. specialize (Hall current). rewrite <-list_elem_of_In in Hall.
  specialize (Hall Hc). rewrite forallb_forall in Hall. specialize (Hall target).
  rewrite <-list_elem_of_In in Hall. specialize (Hall Ht). unfold str_in in Hall.
  rewrite !bool_decide_eq_false_2 in Hall by done. done.
Qed.

(** ** Transitions along a path *)

(** Rows that differ in their state only. *)
Record same_content (i i' : WorkItem) : Prop := {
  sc_evolves : sync_evolves i i' ∨ wi_authority i = "local"%string;
  sc_id : wi_id i' = wi_id i;
  sc_title : wi_title i' = wi_title i;
  sc_body : wi_body i' = wi_body i;
  sc_class : wi_task_class i' = wi_task_class i;
  sc_labels : wi_labels i' = wi_labels i;
  sc_ref : wi_source_ref i' = wi_source_ref i;
  sc_trust : wi_trust i' = wi_trust i;
  sc_created : wi_github_created_at i' = wi_github_created_at i;
  sc_repo : wi_github_repo i' = wi_github_repo i;
  sc_number : wi_github_issue_number i' = wi_github_issue_number i;
  sc_authority : wi_authority i' = wi_authority i;
}.

Lemma same_content_refl i : same_content i i.
Proof. split; try done. left. reflexivity. Qed.

Lemma same_content_trans i1 i2 i3 : same_content i1 i2 → same_content i2 i3 → same_content i1 i3.
Proof.
  intros [a1 a2 a3 a4 a5 a6 a7 a8 a9 a10 a11 a12] [b1 b2 b3 b4 b5 b6 b7 b8 b9 b10 b11 b12].
  split; try congruence. destruct a1 as [?|?]; [|by right].
  destruct b1 as [?|Hl]; [left; by etrans|]. right. congruence.
Qed.

Lemma with_state_sync i s cr now :
  legal (wi_state i) s → wi_authority i ≠ "local"%string → sync_evolves i (with_state i s cr now).
Proof. intros Hl Ha. split; [by apply with_state_evolves|done|done]. Qed.

Lemma transition_total id s by_ db i :
  get_item db id = Some i → legal (wi_state i) s → s ∈ LABEL_STATES →
  ∃ change, transition id s by_ None db
    = Ok (with_state i s None (w_now db),
          _event id "transition" change by_ (put_item (with_state i s None (w_now db)) db)).
Proof.
  intros Hi (l & Hl & Hin) Hs. destruct (label_states_known s Hs) as [Hk Hne].
  unfold transition, str_in, _lock_item, transitions_of.
  rewrite bool_decide_eq_true_2, Hi by done. simpl. rewrite Hl. simpl.
  rewrite bool_decide_eq_true_2 by done. rewrite bool_decide_eq_false_2 by done. simpl. eauto.
Qed.

Lemma transition_all_total id path by_ db i :
  wdb_ok db → get_item db id = Some i → wi_authority i ≠ "local"%string →
  forallb (λ s, str_in s LABEL_STATES) path = true →
  (fix legal_path (s : string) (path : list string) : bool :=
     match path with
     | [] => true
     | s' :: path =>
         match assoc_get s _TRANSITIONS with Some l => str_in s' l | None => false end
         && legal_path s' path
     end) (wi_state i) path = true →
  ∃ i' db', transition_all id path by_ db = Ok (tt, db') ∧ step_ok sync_evolves db db' ∧
    get_item db' id = Some i' ∧ same_content i i' ∧ w_now db' = w_now db ∧
    wi_state i' = default (wi_state i) (last path).
Proof.
  revert db i. induction path as [|s path IH]; intros db i Hok Hi Ha Hs Hl; simpl.
  { exists i, db. split; [done|]. split; [by apply step_ok_refl, _|]. split; [done|].
    split; [apply same_content_refl|done]. }
  simpl in Hs. apply andb_true_iff in Hs as [Hs%bool_decide_eq_true Hs'].
  apply andb_true_iff in Hl as [Hleg Hl].
  assert (legal (wi_state i) s) as Hls.
  { unfold legal. destruct (assoc_get _ _) as [l|]; [|done].
    apply bool_decide_eq_true in Hleg. eauto. }
  destruct (transition_total id s by_ db i Hi Hls Hs) as [change Ht]. rewrite Ht. simpl.
  set (i1 := with_state i s None (w_now db)) in *.
  destruct (transition_ok sync_evolves _ _ _ _ _ _ _ Ht) as [Hstep Hget].
  { intros j Hj -> _. rewrite Hi in Hj. injection Hj as <-. by apply with_state_sync. }
  destruct (Hstep Hok) as [Hok1 _].
  destruct (IH _ i1 Hok1 (Hget Hok) Ha Hs' Hl)
    as (i' & db' & Hrun & Hst & Hg & Hsc & Hnow & Hlast).
  exists i', db'. split; [exact Hrun|]. split; [by eapply (step_ok_trans sync_evolves); [exact Hstep|]|].
  split; [done|]. split; [|split; [done|]].
  - eapply same_content_trans; [|exact Hsc]. split; try done. left. by apply with_state_sync.
  - rewrite Hlast. destruct path as [|x path]; [done|]. rewrite last_cons_cons.
    destruct (last (x :: path)) eqn:E; [done|]. by apply last_None in E.
Qed.

(** ** What a synced row holds *)

Record reflects (r : WorkItem) (v : GithubValues) : Prop := {
  rf_title : wi_title r = gv_title v;
  rf_body : wi_body r = gv_body v;
  rf_class : wi_task_class r = Some (gv_task_class v);
  rf_labels : wi_labels r = gv_labels v;
  rf_ref : wi_source_ref r = Some (gv_source_ref v);
  rf_trust : wi_trust r = gv_trust v;
  rf_created : same_datetime (wi_github_created_at r) (gv_github_created_at v) = true;
}.

Lemma same_datetime_refl d : same_datetime d d = true.
Proof. destruct d; simpl; [by rewrite Z.eqb_refl|done]. Qed.

Lemma synced_item_reflects i v : reflects (synced_item i v) v.
Proof.
  split; simpl; try done. 
  destruct (same_datetime (wi_github_created_at i) _) eqn:E; [done|apply same_datetime_refl].
Qed.

Lemma same_content_reflects i i' v : same_content i i' → reflects i v → reflects i' v.
Proof. intros [] []. split; congruence. Qed.

Lemma touch_reflects i v now : reflects i v → reflects (touch i now) v.
Proof. by intros []. Qed.

Lemma synced_item_sync i v :
  wi_authority i ≠ "local"%string → sync_evolves i (synced_item i v).
Proof. intros Ha. split; [by split|done|done]. Qed.

Lemma touch_sync i now : wi_authority i ≠ "local"%string → sync_evolves i (touch i now).
Proof. intros Ha. split; [by split|done|done]. Qed.

Lemma github_values_state `{IsoFormat} repo issue tr v :
  _github_values repo issue tr = Ok v → gv_state v ∈ LABEL_STATES.
Proof.
  unfold _github_values. intros Hv.
  do 6 (apply res_bind_ok in Hv as (? & _ & Hv)). injection Hv as <-. apply label_state.
Qed.

(** States that do not follow the labels. *)
Definition holds_state (s : string) : bool := str_in s ["active"; "done"]%string.

Lemma follow_labels_ok item lc v db :
  wdb_ok db → get_item db (wi_id item) = Some item → wi_authority item ≠ "local"%string →
  gv_state v ∈ LABEL_STATES →
  ∃ tr more i' db', follow_labels item lc v db = Ok ((tr, more), db') ∧
    step_ok sync_evolves db db' ∧ get_item db' (wi_id item) = Some i' ∧ same_content item i' ∧
    w_now db' = w_now db ∧
    wi_state i' = (if holds_state (wi_state item) then wi_state item else gv_state v) ∧
    (lc = false → more = []) ∧
    (wi_state item = gv_state v ∨ holds_state (wi_state item) = true → tr = false ∧ db' = db).
Proof.
  intros Hok Hi Ha Hv. unfold follow_labels, holds_state.
  destruct (str_in (wi_state item) _) eqn:Hh.
  { eexists _, _, item, db. split; [done|]. split; [by apply step_ok_refl, _|]. split; [done|].
    split; [apply same_content_refl|]. split; [done|]. split; [done|].
    split; [by intros ->|done]. }
  case_bool_decide as Hs.
  { eexists _, _, item, db. split; [done|]. split; [by apply step_ok_refl, _|]. split; [done|].
    split; [apply same_content_refl|]. done. }
  destruct (get_item_elem _ _ _ Hi) as [Hin _].
  pose proof (label_path_ok (wi_state item) (gv_state v) (io_state _ (wo_items _ Hok _ Hin))
    ltac:(by apply bool_decide_eq_false in Hh) Hv Hs) as Hp. unfold path_ok in Hp.
  destruct (label_path _ _) as [[path|]|]; simpl; [|done..].
  rewrite !andb_true_iff, bool_decide_eq_true in Hp. destruct Hp as [[Hlast Hall] Hleg].
  destruct (transition_all_total (wi_id item) path (label_attribution v) db item)
    as (i' & db' & Hrun & Hst & Hg & Hsc & Hnow & Hl); [done..|].
  rewrite Hrun. simpl. eexists _, _, i', db'. split; [done|]. split; [done|]. split; [done|].
  split; [done|]. split; [done|]. split; [by rewrite Hl, Hlast|]. split; [done|].
  intros [?|?]; done.
Qed.

(** ** One snapshot *)

(** The item a snapshot is applied to: the row of its issue, or none. *)
Definition target_ok (db : WDB) (repo : string) (number : Z) (item : option WorkItem) : Prop :=
  match item with
  | Some i => get_item db (wi_id i) = Some i ∧ github_key i = Some (repo, number)
  | None => (repo, number) ∉ omap github_key (w_items db)
  end.

Lemma mint_ok repo number v actor db item db' :
  mint repo number v actor db = (item, db') → gv_state v ∈ LABEL_STATES →
  (repo, number) ∉ omap github_key (w_items db) →
  step_ok sync_evolves db db' ∧ (wdb_ok db → get_item db' (wi_id item) = Some item) ∧
  github_key item = Some (repo, number) ∧ reflects item v ∧ wi_state item = gv_state v ∧
  wi_authority item = "github"%string.
Proof.
  unfold mint. intros [= <- <-] Hv Hkey. set (item := minted_item _ _ _ _ _).
  set (db1 := set_items (λ items, items ++ [item]) db).
  assert (wi_id item ∉ wi_id <$> w_items db) as Hid.
  { intros (i & Hi & Hin)%list_elem_of_fmap. apply (max_key_ge wi_id) in Hin. simpl in Hi. lia. }
  destruct (label_states_known _ Hv) as [Hk Hne].
  assert (step_ok sync_evolves db db1) as Hstep.
  { apply append_item_ok; [apply _|done| |].
    - split; simpl; try done; (split; [done|by intros []]).
    - intros key [= <-]. done. }
  split; [|split; [|split; [done|split; [|done]]]].
  - eapply (step_ok_trans sync_evolves); [exact Hstep|].
    eapply (step_ok_trans sync_evolves); [apply event_ok, _|by apply frame_ok; [apply _|..]].
  - intros Hok. destruct (Hstep Hok) as [Hok1 _].
    change (get_item db1 (wi_id item) = Some item). apply get_item_of; [done|].
    simpl. apply elem_of_app. right. constructor.
  - split; simpl; try done. apply same_datetime_refl.
Qed.

(** Applying a snapshot: the rows evolve, local ones untouched, and the row of
    the issue holds what the issue says. *)
Lemma sync_locked_result `{IsoFormat} repo issue item actor tr db r out db' number :
  _mint_or_sync_from_github_locked repo issue item actor tr db = Ok ((r, out), db') →
  wdb_ok db → _issue_number issue = Ok number → target_ok db repo number item →
  step_ok sync_evolves db db' ∧ get_item db' (wi_id r) = Some r ∧
  github_key r = Some (repo, number) ∧
  ((wi_authority r = "local"%string ∧ out = LocalUntouched ∧ db' = db) ∨
   (wi_authority r ≠ "local"%string ∧ ∃ v, _github_values repo issue tr = Ok v ∧ reflects r v ∧
      (holds_state (wi_state r) = true ∨ wi_state r = gv_state v))).
Proof.
  intros Hs Hok Hnum Ht. unfold _mint_or_sync_from_github_locked in Hs. rewrite Hnum in Hs.
  cbn [mbind res_bind] in Hs. destruct item as [i|]; simpl in Ht.
  2: { destruct (_github_values repo issue tr) as [v|] eqn:Hv; cbn [mbind res_bind] in Hs; [|done].
       destruct (mint repo number v actor db) as [i db1] eqn:Hm. injection Hs as <- <- <-.
       destruct (mint_ok _ _ _ _ _ _ _ Hm (github_values_state _ _ _ _ Hv) Ht)
         as (Hst & Hget & Hkey & Hrf & Hstate & Ha).
       split; [done|]. split; [auto|]. split; [done|]. right. rewrite Ha. split; [done|]. eauto. }
  destruct Ht as [Hi Hkey]. case_bool_decide as Hl.
  { injection Hs as <- <- <-. split; [by apply step_ok_refl, _|]. split; [done|]. split; [done|].
    by left. }
  destruct (_github_values repo issue tr) as [v|] eqn:Hv; simpl in Hs; [|done].
  destruct (get_item_elem _ _ _ Hi) as [Hin _]. set (i1 := synced_item i v) in *.
  assert (step_ok sync_evolves db (put_item i1 db)) as Hstep.
  { eapply (put_ok sync_evolves i); [done| |by apply synced_item_sync|by intros []].
    by destruct (wo_items _ Hok i Hin). }
  destruct (Hstep Hok) as [Hok1 _].
  destruct (follow_labels_ok i1 (negb (bool_decide (wi_labels i = gv_labels v))) v (put_item i1 db))
    as (t & more & i2 & db2 & Hf & Hst2 & Hg2 & Hsc & Hnow & Hstate & _);
    [done|by apply get_item_put; [|eauto]|done|by eapply github_values_state|].
  rewrite Hf in Hs. simpl in Hs. destruct (Hst2 Hok1) as [Hok2 _].
  change (wi_id i) with (wi_id i1) in Hs. unfold _lock_item in Hs. rewrite Hg2 in Hs. simpl in Hs.
  assert (step_ok sync_evolves db db2) as Hst by by eapply (step_ok_trans sync_evolves).
  assert (reflects i2 v) as Hrf by (eapply same_content_reflects, synced_item_reflects; exact Hsc).
  assert (holds_state (wi_state i2) = true ∨ wi_state i2 = gv_state v) as Hs2.
  { rewrite Hstate. destruct (holds_state (wi_state i1)) eqn:E; [by left|by right]. }
  assert (wi_authority i2 ≠ "local"%string) as Ha2 by by rewrite (sc_authority _ _ Hsc).
  assert (wi_id i2 = wi_id i1) as Hid2 by apply (sc_id _ _ Hsc).
  assert (github_key i2 = Some (repo, number)) as Hk2.
  { rewrite <-Hkey. unfold github_key. by rewrite (sc_repo _ _ Hsc), (sc_number _ _ Hsc). }
  destruct (field_changes i v ++ more).
  - injection Hs as <- <- <-. rewrite Hid2. split; [done|]. split; [done|]. split; [done|]. right. eauto.
  - injection Hs as <- <- <-.
    assert (step_ok sync_evolves db2 (put_item (touch i2 (w_now db2)) db2)) as Htouch.
    { eapply (put_ok sync_evolves i2); [simpl; by rewrite Hid2| |by apply touch_sync|by intros []].
      destruct (get_item_elem _ _ _ Hg2) as [Hin2 _]. by destruct (wo_items _ Hok2 i2 Hin2). }
    split.
    { eapply (step_ok_trans sync_evolves); [exact Hst|].
      eapply (step_ok_trans sync_evolves); [exact Htouch|apply event_ok, _]. }
    split; [apply (get_item_put db2 (touch i2 (w_now db2))); [done|simpl; rewrite Hid2; eauto]|].
    split; [done|]. right. split; [done|]. exists v. split; [done|]. split; [by apply touch_reflects|done].
Qed.
