(* ===== verification/WorkItemSweep.v ===== *)
(** * Work items: the watermark and the sweep

    The source-order fence of one issue, the sync of one snapshot found by its
    issue, and the whole listing with the closing of absent issues. *)

From stdpp Require Import prelude list strings pretty relations gmap.
From S2P Require Import Prelude PyValue Worklist WorkItems WorkItemInvariant WorkItemSync.
Local Open Scope Z_scope.

(** ** Looking an issue up *)

Lemma elem_of_keys db key :
  key ∈ omap github_key (w_items db) ↔ ∃ i, i ∈ w_items db ∧ github_key i = Some key.
Proof. apply list_elem_of_omap. Qed.

Lemma github_key_spec i repo number :
  github_key i = Some (repo, number) ↔
  wi_github_repo i = Some repo ∧ wi_github_issue_number i = Some number.
Proof.
  unfold github_key. destruct (wi_github_repo i), (wi_github_issue_number i); simpl; naive_solver.
Qed.

Lemma find_github_item_target db repo number :
  wdb_ok db → target_ok db repo number (find_github_item db repo number).
Proof.
  intros Hok. unfold find_github_item. destruct (find_first _ _) as [i|] eqn:E; simpl.
  - apply find_first_Some in E as [Hi [Hr Hn]%andb_true_iff].
    apply bool_decide_eq_true in Hr, Hn.
    split; [by apply get_item_of|by apply github_key_spec].
  - intros (i & Hi & [Hr Hn]%github_key_spec)%elem_of_keys. rewrite find_first_None in E.
    specialize (E i Hi). by rewrite !bool_decide_eq_true_2 in E.
Qed.

Lemma elem_of_locked db repo number id :
  (number, id) ∈ _lock_github_repo_items db repo ↔
  ∃ i, i ∈ w_items db ∧ github_key i = Some (repo, number) ∧ wi_id i = id.
Proof.
  unfold _lock_github_repo_items. rewrite list_elem_of_omap.
  setoid_rewrite github_key_spec. split.
  - intros (i & Hi & Hx). destruct (wi_github_issue_number i) as [n|] eqn:En; simpl in Hx; [|done].
    case_bool_decide; [|done]. injection Hx as <- <-. eauto 10.
  - intros (i & Hi & [Hr Hn] & <-). exists i. split; [done|]. rewrite Hn. simpl.
    by rewrite bool_decide_eq_true_2.
Qed.

Definition locked_item (db : WDB) (locked : list (Z * Z)) (number : Z) : option WorkItem :=
  id ← locked_get locked number; get_item db id.

Lemma locked_target db repo number :
  wdb_ok db → target_ok db repo number (locked_item db (_lock_github_repo_items db repo) number).
Proof.
  intros Hok. unfold locked_item, locked_get. destruct (find_last _ _) as [[n id]|] eqn:E; simpl.
  - apply find_last_Some in E as [Hin Hn%Z.eqb_eq]. simpl in Hn. subst.
    apply elem_of_locked in Hin as (i & Hi & Hk & <-). rewrite get_item_of by done. simpl.
    split; [by apply get_item_of|done].
  - intros (i & Hi & Hk)%elem_of_keys. rewrite find_last_None in E.
    specialize (E (number, wi_id i)). rewrite elem_of_locked, Z.eqb_neq in E.
    apply E; [eauto|done].
Qed.

(** ** The fence *)

Definition watermark (db : WDB) (repo : string) (number : Z) : option Z :=
  instant ∘ gs_source_updated_at <$> find_first (is_issue repo number) (w_issues db).

Lemma is_issue_spec repo number row :
  is_issue repo number row = true ↔ gs_repo row = repo ∧ gs_issue_number row = number.
Proof. unfold is_issue. by rewrite andb_true_iff, bool_decide_eq_true, Z.eqb_eq. Qed.

Lemma find_first_snoc {A} (p : A → bool) l x :
  find_first p l = None → find_first p (l ++ [x]) = if p x then Some x else None.
Proof.
  induction l as [|y l IH]; simpl; [done|]. destruct (p y); [done|]. apply IH.
Qed.

Lemma find_first_replace {A} (p : A → bool) (x : A) l :
  p x = true → is_Some (find_first p l) → find_first p (update_where p (λ _, x) l) = Some x.
Proof.
  intros Hp [y Hy]. apply (find_first_update_where _ _ _ y); [done| |done].
  by apply find_first_Some in Hy as [_ ?].
Qed.

Lemma order_frame `{IsoFormat, Rivals} repo issue ref db o db' :
  order_github_issue_snapshot repo issue ref db = Ok (o, db') →
  w_items db' = w_items db ∧ w_events db' = w_events db ∧ w_edges db' = w_edges db ∧
  w_receipts db' = w_receipts db.
Proof.
  unfold order_github_issue_snapshot.
  intros (number & _ & Hs)%res_bind_ok. apply res_bind_ok in Hs as ([d|] & _ & Hs);
    [|by injection Hs as <- <-].
  destruct (dict_get "state" issue); try done.
  destruct (negb _); [done|].
  repeat case_match; simplify_eq; try done; by injection Hs as <- <-.
Qed.

(** ** One snapshot, found by its issue *)

Lemma mint_or_sync_ok `{IsoFormat, Rivals} repo issue o db r out db' :
  mint_or_sync_from_github repo issue o db = Ok ((r, out), db') → step_ok sync_evolves db db'.
Proof.
  unfold mint_or_sync_from_github. destruct (negb _ && _).
  { intros [= <- <- <-]. apply step_ok_refl, _. }
  intros (repo' & Hrepo & Hs)%res_bind_ok. apply res_bind_ok in Hs as (number & Hnum & Hs).
  apply res_bind_ok in Hs as ([fence db1] & Hf & Hs).
  assert (step_ok sync_evolves db db1) as Hst1.
  { destruct (so_source_ordered o); [|injection Hf as <- <-; apply step_ok_refl, _].
    apply order_frame in Hf as (? & ? & ? & _). by apply frame_ok; [apply _|..]. }
  intros Hok. destruct (Hst1 Hok) as [Hok1 Hrel1]. set (item := if so_source_ordered o then _ else _) in Hs.
  assert (target_ok db1 repo' number item) as Ht.
  { unfold item. destruct (so_source_ordered o); [by apply locked_target|by apply find_github_item_target]. }
  destruct (match item with Some _ => _ | None => _ end); [by injection Hs as <- <- <-|].
  destruct fence; try (by injection Hs as <- <- <-).
  apply res_bind_ok in Hs as ([[i out'] db2] & Hm & Hs). injection Hs as <- <- <-.
  destruct (sync_locked_result _ _ _ _ _ _ _ _ _ _ Hm Hok1 Hnum Ht) as [Hst2 _].
  destruct (Hst2 Hok1). split; [done|]. by eapply (item_rel_trans sync_evolves).
Qed.

(** ** Lengths: only a mint adds a row *)

Lemma put_item_length i db : length (w_items (put_item i db)) = length (w_items db).
Proof. apply length_update_where. Qed.

Lemma transition_all_length id path by_ db u db' :
  transition_all id path by_ db = Ok (u, db') → length (w_items db') = length (w_items db).
Proof.
  revert db. induction path as [|s path IH]; intros db; simpl; [by intros [= _ <-]|].
  destruct (transition id s by_ None db) as [[i db1]|] eqn:E; simpl; [|done].
  intros ->%IH. apply transition_inv in E as (? & ? & _ & _ & _ & _ & _ & ->).
  apply put_item_length.
Qed.

Lemma follow_labels_length item lc v db r db' :
  follow_labels item lc v db = Ok (r, db') → length (w_items db') = length (w_items db).
Proof.
  unfold follow_labels. destruct (str_in _ _); [by intros [= _ <-]|].
  case_bool_decide; [by intros [= _ <-]|].
  intros ([path|] & _ & Hs)%res_bind_ok; [|by injection Hs as _ <-].
  destruct (transition_all _ path _ db) as [[u db1]|] eqn:E; simpl in Hs; [|done].
  injection Hs as _ <-. by eapply transition_all_length.
Qed.

Lemma sync_locked_length `{IsoFormat} repo issue item actor tr db r db' :
  _mint_or_sync_from_github_locked repo issue item actor tr db = Ok (r, db') →
  length (w_items db') = (length (w_items db) + if item then 0 else 1)%nat.
Proof.
  unfold _mint_or_sync_from_github_locked. intros (n & _ & Hs)%res_bind_ok.
  destruct item as [i|].
  2: { apply res_bind_ok in Hs as (v & _ & Hs). injection Hs as _ <-. simpl. by rewrite length_app. }
  case_bool_decide; [injection Hs as _ <-; lia|].
  apply res_bind_ok in Hs as (v & _ & Hs). apply res_bind_ok in Hs as ([[t more] db1] & Hf & Hs).
  apply follow_labels_length in Hf. rewrite put_item_length in Hf.
  apply res_bind_ok in Hs as (cur & _ & Hs).
  destruct (field_changes i v ++ more); injection Hs as _ <-; simpl; rewrite ?length_update_where; lia.
Qed.

(** The only issue a sync can add to the table is its own. *)
Lemma sync_locked_keys `{IsoFormat} repo issue item actor tr db r out db' number :
  _mint_or_sync_from_github_locked repo issue item actor tr db = Ok ((r, out), db') →
  wdb_ok db → _issue_number issue = Ok number → target_ok db repo number item →
  ∀ key, key ∈ omap github_key (w_items db') →
    key ∈ omap github_key (w_items db) ∨ key = (repo, number).
Proof.
  intros Hs Hok Hnum Ht key Hkey.
  destruct (sync_locked_result _ _ _ _ _ _ _ _ _ _ Hs Hok Hnum Ht) as (Hst & Hget & Hk & _).
  apply sync_locked_length in Hs as Hlen. destruct (Hst Hok) as [Hok' (g & extra & Hi & Hg)].
  assert (∀ i, i ∈ w_items db → github_key (g i) = github_key i) as Hgk.
  { intros i Hin. unfold github_key. destruct (Hg i Hin) as [[_ -> -> _ _] _ _]. done. }
  rewrite Hi, length_app, length_fmap in Hlen.
  apply elem_of_keys in Hkey as (x & Hx & Hxk). rewrite Hi in Hx.
  apply elem_of_app in Hx as [(i & -> & Hin)%list_elem_of_fmap|Hx].
  { left. apply elem_of_keys. exists i. by rewrite <-Hgk. }
  destruct item as [i|]; [destruct extra; [by apply elem_of_nil in Hx|simpl in Hlen; lia]|].
  right. destruct extra as [|y [|]]; simpl in Hlen; try lia.
  apply list_elem_of_singleton in Hx as ->.
  apply get_item_elem in Hget as [Hr _]. rewrite Hi in Hr.
  apply elem_of_app in Hr as [(i & -> & Hin)%list_elem_of_fmap|Hr].
  - destruct Ht. apply elem_of_keys. exists i. by rewrite <-Hgk.
  - apply list_elem_of_singleton in Hr as <-. congruence.
Qed.

(** ** The listing *)

(** The locked map names rows of the table and finds the one of every issue
    of the repository. *)
Record locked_ok (db : WDB) (repo : string) (locked : list (Z * Z)) : Prop := {
  lo_rows : ∀ p, p ∈ locked → is_Some (get_item db p.2);
  lo_target : ∀ number, target_ok db repo number (locked_item db locked number);
}.

Lemma locked_get_snoc locked number id number' :
  locked_get (locked ++ [(number, id)]) number' =
  if number =? number' then Some id else locked_get locked number'.
Proof.
  unfold locked_get, find_last. rewrite reverse_app. simpl.
  by destruct (number =? number').
Qed.

Lemma locked_get_row db repo locked number id :
  locked_ok db repo locked → locked_get locked number = Some id → is_Some (get_item db id).
Proof.
  intros Hl. unfold locked_get. destruct (find_last _ _) as [p|] eqn:E; simpl; [|done].
  intros [= <-]. apply find_last_Some in E as [Hp _]. by eapply lo_rows.
Qed.

Lemma sync_row_kept db db' id :
  step_ok sync_evolves db db' → wdb_ok db → is_Some (get_item db id) →
  ∃ i i', get_item db id = Some i ∧ get_item db' id = Some i' ∧ sync_evolves i i'.
Proof.
  intros Hst Hok [i Hi]. destruct (Hst Hok) as [Hok' Hrel].
  destruct (get_item_elem _ _ _ Hi) as [Hin Hid].
  destruct (item_rel_get sync_evolves db db' id i) as (i' & Hi' & Hev);
    [apply _|by intros ?? []|done..|]. eauto.
Qed.

(** A step that keeps the rows and adds no other issue keeps the map right,
    with the row of its own issue added to it. *)
Lemma locked_ok_step db db' repo locked number r :
  step_ok sync_evolves db db' → wdb_ok db → locked_ok db repo locked →
  (∀ key, key ∈ omap github_key (w_items db') →
     key ∈ omap github_key (w_items db) ∨ key = (repo, number)) →
  get_item db' (wi_id r) = Some r → github_key r = Some (repo, number) →
  locked_ok db' repo (locked ++ [(number, wi_id r)]).
Proof.
  intros Hst Hok Hl Hkeys Hr Hkr. split.
  - intros p [Hp| ->%list_elem_of_singleton]%elem_of_app; [|simpl; by rewrite Hr].
    destruct (sync_row_kept db db' p.2 Hst Hok) as (i & i' & _ & -> & _); [by eapply lo_rows|eauto].
  - intros number'. unfold locked_item. rewrite locked_get_snoc.
    destruct (number =? number') eqn:E; simpl; [apply Z.eqb_eq in E as <-; by rewrite Hr|].
    apply Z.eqb_neq in E. pose proof (lo_target _ _ _ Hl number') as Ht. unfold locked_item in Ht.
    destruct (locked_get locked number') as [id|] eqn:Hg; simpl in *.
    + destruct (sync_row_kept db db' id Hst Hok) as (i & i' & Hi & Hi' & [[Hid Hre Hnu _ _] _ _]);
        [by eapply locked_get_row|].
      rewrite Hi in Ht. rewrite Hi'. simpl in *. destruct Ht as [Hgi Hk].
      split; [by destruct (get_item_elem _ _ _ Hi') as [? ->]|].
      unfold github_key in *. by rewrite Hre, Hnu.
    + intros [?|[= ?]]%Hkeys; done.
Qed.

Lemma locked_ok_same db repo locked number r :
  locked_ok db repo locked → locked_item db locked number = Some r →
  locked_ok db repo (locked ++ [(number, wi_id r)]).
Proof.
  intros Hl Hr. assert (get_item db (wi_id r) = Some r) as Hget.
  { pose proof (lo_target _ _ _ Hl number) as Ht. rewrite Hr in Ht. by destruct Ht. }
  split.
  - intros p [Hp| ->%list_elem_of_singleton]%elem_of_app; [by eapply lo_rows|simpl; eauto].
  - intros number'. unfold locked_item. rewrite locked_get_snoc.
    destruct (number =? number') eqn:E; [|apply (lo_target _ _ _ Hl)].
    apply Z.eqb_eq in E as <-. simpl. rewrite Hget, <-Hr. apply (lo_target _ _ _ Hl).
Qed.

Lemma locked_ok_init db repo :
  wdb_ok db → locked_ok db repo (_lock_github_repo_items db repo).
Proof.
  intros Hok. split; [|intros number; by apply locked_target].
  intros [n id] (i & Hi & _ & <-)%elem_of_locked. simpl.
  rewrite get_item_of by done. eauto.
Qed.

Lemma sync_all_ok `{IsoFormat} repo actor outcomes indexed locked nums counts db r db' :
  sync_all repo actor outcomes indexed locked nums counts db = Ok (r, db') →
  wdb_ok db → locked_ok db repo locked → wdb_ok db' ∧ item_rel sync_evolves db db'.
Proof.
  revert locked nums counts db. induction indexed as [|[ix issue] indexed IH];
    intros locked nums counts db Hs Hok Hl; simpl in Hs.
  { injection Hs as _ <-. split; [done|]. by apply (item_rel_same sync_evolves). }
  apply res_bind_ok in Hs as (number & Hnum & Hs).
  apply res_bind_ok in Hs as ([[item out] db1] & Hone & Hs).
  fold (locked_item db locked number) in Hone.
  assert (∃ locked', (wdb_ok db1 ∧ item_rel sync_evolves db db1) ∧ locked_ok db1 repo locked' ∧
    locked' = match item with Some i => locked ++ [(number, wi_id i)] | None => locked end)
    as (locked' & [Hok1 Hrel1] & Hl1 & ->).
  2: { destruct (IH _ _ _ _ Hs Hok1 Hl1) as [? ?]. split; [done|].
       by eapply (item_rel_trans sync_evolves). }
  clear IH Hs. pose proof (lo_target _ _ _ Hl number) as Ht.
  assert (∀ it, locked_item db locked number = it → item = it → db1 = db →
    (wdb_ok db1 ∧ item_rel sync_evolves db db1) ∧
    locked_ok db1 repo match item with Some i => locked ++ [(number, wi_id i)] | None => locked end)
    as Hsame.
  { intros it Hit -> ->. split; [split; [done|by apply (item_rel_same sync_evolves)]|].
    destruct it; [by apply locked_ok_same|done]. }
  assert (∀ it, locked_item db locked number = it →
    ('((i, o), d) ← _mint_or_sync_from_github_locked repo issue it actor [] db;
     Ok ((Some i, o), d)) = Ok ((item, out), db1) →
    (wdb_ok db1 ∧ item_rel sync_evolves db db1) ∧
    locked_ok db1 repo match item with Some i => locked ++ [(number, wi_id i)] | None => locked end)
    as Hsync.
  { intros it <- ([[i o] d] & Hm & Hd)%res_bind_ok. injection Hd as <- <- <-.
    destruct (sync_locked_result _ _ _ _ _ _ _ _ _ _ Hm Hok Hnum Ht) as (Hst & Hget & Hk & _).
    split; [by apply Hst|]. eapply locked_ok_step; [exact Hst|done|done| |done|done].
    by eapply sync_locked_keys. }
  eexists. split; [|split; [|reflexivity]]; revert Hone;
    destruct (locked_item db locked number) as [i|] eqn:Hit;
    (destruct (snd <$> _) as [[]|]; try case_bool_decide; intros Hone;
     first [by apply (Hsync _ eq_refl) | injection Hone as <- <- <-; by apply (Hsame _ eq_refl)]).
Qed.

Lemma order_all_frame `{IsoFormat, Rivals} repo indexed outcomes db r db' :
  order_all repo indexed outcomes db = Ok (r, db') → step_ok sync_evolves db db'.
Proof.
  revert outcomes db. induction indexed as [|[ix issue] indexed IH]; intros outcomes db; simpl.
  { intros [= _ <-]. apply step_ok_refl, _. }
  intros ([o db1] & Ho & Hs)%res_bind_ok. apply IH in Hs.
  apply order_frame in Ho as (? & ? & ? & _).
  eapply (step_ok_trans sync_evolves); [|exact Hs]. by apply frame_ok; [apply _|..].
Qed.

(** ** Closing *)

Definition closed_item (now : Z) (i : WorkItem) : WorkItem :=
  with_state i "closed" (Some "github_closed"%string) now.

Lemma closable i : item_ok i → wi_state i ≠ "closed"%string → legal (wi_state i) "closed".
Proof.
  intros [Hs _ _ _] Hne. unfold legal.
  assert (forallb (λ s, bool_decide (s = "closed"%string) ||
    match assoc_get s _TRANSITIONS with Some l => str_in "closed" l | None => false end) _STATES
    = true) as Hall by (vm_compute; reflexivity).
  rewrite forallb_forall in Hall. specialize (Hall (wi_state i)).
  rewrite <-list_elem_of_In in Hall. specialize (Hall Hs).
  rewrite bool_decide_eq_false_2 in Hall by done. cbn [orb] in Hall.
  destruct (assoc_get (wi_state i) _TRANSITIONS) as [l|]; [|done].
  apply bool_decide_eq_true in Hall. eauto.
Qed.

(** Closing a list of open, GitHub-owned rows always succeeds and closes
    exactly them. *)
Lemma close_all_total ids by_ db :
  wdb_ok db → NoDup ids →
  (∀ id, id ∈ ids → ∃ i, get_item db id = Some i ∧ wi_state i ≠ "closed"%string ∧
                         wi_authority i = "github"%string) →
  ∃ db', close_all ids by_ db = Ok (tt, db') ∧ step_ok sync_evolves db db' ∧
    w_items db' = (λ i, if bool_decide (wi_id i ∈ ids) then closed_item (w_now db) i else i)
                    <$> w_items db.
Proof.
  revert db. induction ids as [|id ids IH]; intros db Hok Hnd Hall; simpl.
  { exists db. split; [done|]. split; [apply step_ok_refl, _|].
    rewrite <-(list_fmap_id (w_items db)) at 1. apply list_fmap_ext. done. }
  apply NoDup_cons in Hnd as [Hid Hnd].
  destruct (Hall id) as (i & Hi & Hne & Ha); [constructor|].
  destruct (get_item_elem _ _ _ Hi) as [Hin Hii].
  destruct (closable i (wo_items _ Hok i Hin) Hne) as (l & Hl & Hcl).
  assert (transition id "closed" by_ (Some "github_closed"%string) db
    = Ok (closed_item (w_now db) i, _event id "transition"
        (transition_change i "closed" (Some "github_closed"%string)) by_
        (put_item (closed_item (w_now db) i) db))) as Ht.
  { unfold transition, _lock_item, transitions_of. rewrite Hi.
    change (str_in "closed" _STATES) with true. simpl (negb _). cbn [mbind res_bind].
    rewrite Hl. cbn [mbind res_bind]. unfold str_in at 1. by rewrite bool_decide_eq_true_2. }
  rewrite Ht. cbn [mbind res_bind]. set (db1 := _event _ _ _ _ _).
  destruct (transition_ok sync_evolves _ _ _ _ _ _ _ Ht) as [Hst _].
  { intros j Hj -> Hev. rewrite Hi in Hj. injection Hj as <-. split; [done|done|].
    rewrite Ha. done. }
  destruct (Hst Hok) as [Hok1 Hrel1].
  destruct (IH db1 Hok1 Hnd) as (db' & Hc & Hst' & Hitems).
  { intros id' Hid'. destruct (Hall id') as (j & Hj & Hjn & Hja); [by constructor|].
    exists j. split; [|done]. destruct (get_item_elem _ _ _ Hj) as [Hjin Hjid].
    rewrite <-Hjid. apply get_item_of; [done|]. simpl. apply elem_of_update_where.
    exists j. split; [done|]. rewrite (proj2 (Z.eqb_neq _ _)); [done|].
    rewrite Hii, Hjid. by intros ->. }
  exists db'. split; [exact Hc|]. split; [by eapply (step_ok_trans sync_evolves)|].
  rewrite Hitems. simpl. unfold update_where. rewrite <-list_fmap_compose.
  apply list_fmap_ext. intros ? x Hx%list_elem_of_lookup_2. simpl.
  destruct (wi_id x =? wi_id i) eqn:E; simpl.
  - apply Z.eqb_eq in E. assert (x = i) as ->
      by (eapply NoDup_fmap_elem; [apply (wo_ids _ Hok)|done..]).
    rewrite Hii, (bool_decide_eq_false_2 _ Hid). by rewrite bool_decide_eq_true_2 by constructor.
  - apply Z.eqb_neq in E. rewrite (bool_decide_ext (wi_id x ∈ id :: ids) (wi_id x ∈ ids)); [done|].
    rewrite elem_of_cons. rewrite Hii in E. naive_solver.
Qed.

Lemma close_missing_total repo repo' nums actor db :
  wdb_ok db → normalize_repo repo = Ok repo' → nums ≠ [] →
  ∃ db', close_missing_from_github repo nums actor db
    = Ok (length (filter (λ i, missing repo' nums i = true) (w_items db)), db') ∧
    step_ok sync_evolves db db' ∧
    w_items db' = (λ i, if missing repo' nums i then closed_item (w_now db) i else i) <$> w_items db.
Proof.
  intros Hok Hrepo Hnums. unfold close_missing_from_github.
  destruct nums as [|n nums]; [done|]. rewrite Hrepo. cbn [mbind res_bind].
  set (open := n :: nums) in *. set (rows := wi_id <$> filter _ _).
  destruct (close_all_total (py_sorted Z.leb rows) (missing_attribution repo' actor) db)
    as (db' & -> & Hst & Hitems); [done| | |].
  - rewrite py_sorted_perm. apply NoDup_fmap_filter, (wo_ids _ Hok).
  - intros id. rewrite elem_of_py_sorted. intros (i & -> & [Hm Hi]%list_elem_of_filter)%list_elem_of_fmap.
    exists i. split; [by apply get_item_of|]. unfold missing in Hm.
    rewrite !andb_true_iff, !bool_decide_eq_true, negb_true_iff, bool_decide_eq_false in Hm. tauto.
  - exists db'. cbn [mbind res_bind]. rewrite length_py_sorted. unfold rows. rewrite length_fmap.
    split; [done|]. split; [done|]. rewrite Hitems. apply list_fmap_ext.
    intros ? i Hi%list_elem_of_lookup_2.
    destruct (missing repo' open i) eqn:Hm.
    + rewrite bool_decide_eq_true_2; [done|]. apply elem_of_py_sorted, list_elem_of_fmap.
      exists i. split; [done|]. by apply list_elem_of_filter.
    + rewrite bool_decide_eq_false_2; [done|]. rewrite elem_of_py_sorted.
      intros (j & Hij & [Hj Hjin]%list_elem_of_filter)%list_elem_of_fmap.
      assert (i = j) as -> by (eapply NoDup_fmap_elem; [apply (wo_ids _ Hok)|done..]). congruence.
Qed.

Lemma close_missing_ok repo nums actor db n db' :
  close_missing_from_github repo nums actor db = Ok (n, db') → step_ok sync_evolves db db'.
Proof.
  intros Hc Hok. destruct nums as [|x nums].
  { injection Hc as _ <-. by apply (step_ok_refl sync_evolves). }
  destruct (normalize_repo repo) as [repo'|] eqn:Hr.
  - destruct (close_missing_total repo repo' (x :: nums) actor db) as (d & Hd & Hst & _); [done..|].
    rewrite Hc in Hd. injection Hd as _ <-. by apply Hst.
  - unfold close_missing_from_github in Hc. by rewrite Hr in Hc.
Qed.

Lemma sync_github_ok `{IsoFormat, Rivals} repo issues truncated actor ordered db c db' :
  sync_github_work_items repo issues truncated actor ordered db = Ok (c, db') →
  step_ok sync_evolves db db'.
Proof.
  unfold sync_github_work_items.
  intros (repo' & _ & Hs)%res_bind_ok. apply res_bind_ok in Hs as ([[indexed nums] skipped] & _ & Hs).
  apply res_bind_ok in Hs as ([outcomes db1] & Ho & Hs).
  apply res_bind_ok in Hs as ([[open counts] db2] & Ha & Hs).
  assert (step_ok sync_evolves db db1) as Hst1.
  { destruct ordered; [by eapply order_all_frame|]. injection Ho as _ <-. apply step_ok_refl, _. }
  assert (step_ok sync_evolves db1 db2) as Hst2.
  { intros Hok. eapply sync_all_ok; [exact Ha|done|by apply locked_ok_init]. }
  assert (step_ok sync_evolves db2 db') as Hst3.
  { destruct (_ && _); [|injection Hs as _ <-; apply step_ok_refl, _].
    apply res_bind_ok in Hs as ([closed db3] & Hc & Hs). injection Hs as _ <-.
    by eapply close_missing_ok. }
  eapply (step_ok_trans sync_evolves); [exact Hst1|].
  by eapply (step_ok_trans sync_evolves).
Qed.
