(* ===== verification/WorkItemClaims.v ===== *)
(** * Work items: properties

    The step relation of the component and what holds of every state it can
    reach, then the contracts of the single operations.
    A worked run ends the file. *)

From stdpp Require Import prelude list strings pretty relations gmap.
From S2P Require Import Prelude PyValue Worklist WorkItems WorkItemInvariant WorkItemSync WorkItemSweep.
Local Open Scope Z_scope.

(** ** The step relation *)

Inductive wi_step `{IsoFormat, Rivals} : WDB → WDB → Prop :=
| ws_transition id s by_ cr db i db' :
    transition id s by_ cr db = Ok (i, db') → wi_step db db'
| ws_add_edge f t k by_ src db u db' :
    add_edge f t k by_ src db = Ok (u, db') → wi_step db db'
| ws_remove_edge f t k by_ db u db' :
    remove_edge f t k by_ db = Ok (u, db') → wi_step db db'
| ws_set_local id by_ db i db' :
    set_authority_local id by_ db = Ok (i, db') → wi_step db db'
| ws_sync repo issue o db r db' :
    mint_or_sync_from_github repo issue o db = Ok (r, db') → wi_step db db'
| ws_sweep repo issues truncated actor ordered db c db' :
    sync_github_work_items repo issues truncated actor ordered db = Ok (c, db') → wi_step db db'
| ws_close_missing repo nums actor db n db' :
    close_missing_from_github repo nums actor db = Ok (n, db') → wi_step db db'
| ws_create i db :
    (* another intake path adds a consistent row *)
    wi_id i ∉ wi_id <$> w_items db → item_ok i →
    (∀ key, github_key i = Some key → key ∉ omap github_key (w_items db)) →
    wi_step db (set_items (λ l, l ++ [i]) db)
| ws_environment issues receipts now db :
    wi_step db (mkWDB (w_items db) (w_edges db) (w_events db) issues receipts now).

Definition empty_wdb : WDB := mkWDB [] [] [] [] [] 0.

Lemma sync_to_evolves db db' : step_ok sync_evolves db db' → step_ok evolves db db'.
Proof.
  intros Hst Hok. destruct (Hst Hok) as [? (g & extra & Hi & Hg)]. split; [done|].
  exists g, extra. split; [done|]. intros i Hin. by apply Hg.
Qed.

Lemma wi_step_ok `{IsoFormat, Rivals} db db' : wi_step db db' → step_ok evolves db db'.
Proof.
  destruct 1 as [id s by_ cr db i db' Hs|f t k by_ src db u db' Hs|f t k by_ db u db' Hs
    |id by_ db i db' Hs|repo issue o db [r out] db' Hs|repo issues tr actor ord db c db' Hs
    |repo nums actor db n db' Hs|i db Hid Hi Hkey|issues receipts now db].
  - by eapply transition_ok; [apply _|exact Hs|].
  - by eapply add_edge_ok.
  - by eapply remove_edge_ok.
  - by eapply set_authority_local_ok.
  - by eapply sync_to_evolves, mint_or_sync_ok.
  - by eapply sync_to_evolves, sync_github_ok.
  - by eapply sync_to_evolves, close_missing_ok.
  - by apply append_item_ok; [apply _|..].
  - by apply frame_ok; [apply _|..].
Qed.

Lemma wi_steps_ok `{IsoFormat, Rivals} db db' : rtc wi_step db db' → step_ok evolves db db'.
Proof.
  induction 1 as [|db1 db2 db3 Hs _ IH]; [apply step_ok_refl, _|].
  eapply (step_ok_trans evolves); [by apply wi_step_ok|done].
Qed.

Lemma empty_wdb_ok : wdb_ok empty_wdb.
Proof.
  split; try done; try (by intros ? []%elem_of_nil); try constructor.
  intros kind _ x Hx. assert (∀ y z, ¬ item_edge empty_wdb kind y z) as Hno
    by (intros y z (e & []%elem_of_nil & _)).
  destruct Hx as [? ? Hx|? ? ? Hx _]; by apply Hno in Hx.
Qed.

Lemma wi_reachable_ok `{IsoFormat, Rivals} db : rtc wi_step empty_wdb db → wdb_ok db.
Proof. intros Hr. by apply (wi_steps_ok _ _ Hr), empty_wdb_ok. Qed.

(** ** Admissibility *)

Lemma elem_of_blockers db id b :
  b ∈ open_blockers db id ↔
  b ∈ w_items db ∧ wi_state b ≠ "closed"%string ∧ item_edge db "blocks" (wi_id b) id.
Proof.
  unfold open_blockers. rewrite elem_of_py_sorted, list_elem_of_bind. unfold item_edge. split.
  - intros (i & (e & -> & [(? & ? & ? & ?) He]%list_elem_of_filter)%list_elem_of_fmap & Hi).
    split; [done|]. split; [done|]. by exists e.
  - intros (Hb & Hc & e & He & ? & ? & ?). exists b. split; [|done].
    apply list_elem_of_fmap. exists e. split; [done|]. by apply list_elem_of_filter.
Qed.

(** ** A second sync *)

Lemma put_item_same db i : wdb_ok db → get_item db (wi_id i) = Some i → put_item i db = db.
Proof.
  intros Hok Hi. destruct (get_item_elem _ _ _ Hi) as [Hin _].
  unfold put_item, set_items, update_where.
  assert ((λ x, if wi_id x =? wi_id i then i else x) <$> w_items db = w_items db) as ->;
    [|by destruct db].
  rewrite <-(list_fmap_id (w_items db)) at 2. apply list_fmap_ext.
  intros ? x Hx%list_elem_of_lookup_2. simpl. destruct (wi_id x =? wi_id i) eqn:E; [|done].
  apply Z.eqb_eq in E. by eapply NoDup_fmap_elem; [apply (wo_ids _ Hok)|..].
Qed.

Lemma reflects_settled `{IsoFormat} r v :
  reflects r v → field_changes r v = [] ∧ synced_item r v = r.
Proof.
  intros [H1 H2 H3 H4 H5 H6 H7]. unfold field_changes, synced_item. rewrite H7.
  rewrite !bool_decide_eq_true_2 by done. split; [done|].
  destruct r. simpl in *. congruence.
Qed.

(** A row that reflects its issue and its labels is left as it is. *)
Lemma sync_locked_again `{IsoFormat} repo issue actor tr db r number v :
  wdb_ok db → _issue_number issue = Ok number → get_item db (wi_id r) = Some r →
  wi_authority r ≠ "local"%string → _github_values repo issue tr = Ok v → reflects r v →
  (holds_state (wi_state r) = true ∨ wi_state r = gv_state v) →
  _mint_or_sync_from_github_locked repo issue (Some r) actor tr db = Ok ((r, Unchanged), db).
Proof.
  intros Hok Hnum Hr Ha Hv Hrf Hs. unfold _mint_or_sync_from_github_locked.
  rewrite Hnum, Hv. cbn [mbind res_bind]. rewrite bool_decide_eq_false_2 by done.
  destruct (reflects_settled r v Hrf) as [-> ->]. rewrite put_item_same by done.
  rewrite (rf_labels _ _ Hrf), bool_decide_eq_true_2 by done. simpl (negb _).
  destruct (follow_labels_ok r false v db) as (t & more & i & db' & Hf & _ & _ & _ & _ & _ & Hm & Hd);
    [done|done|done|by eapply github_values_state|].
  destruct Hd as [-> ->]; [tauto|]. rewrite (Hm eq_refl) in Hf. rewrite Hf. cbn [mbind res_bind].
  unfold _lock_item. by rewrite Hr.
Qed.

(** ** Claims *)

Section claims.
Context `{IsoFormat, Rivals}.

(** C33: in every reachable state each work item is consistent: its state is
    known, it carries a close reason (a known one) and a close time exactly
    when it is closed, no two items share an id or a GitHub issue, and the
    events of an item are numbered 1, 2, ... without gaps. *)
Theorem reachable_work_items_consistent db :
  rtc wi_step empty_wdb db →
  (∀ i, i ∈ w_items db → item_ok i) ∧
  NoDup (wi_id <$> w_items db) ∧ NoDup (omap github_key (w_items db)) ∧
  (∀ id, wv_version <$> events_of db id = upto (length (events_of db id))).
Proof. intros Hr. by destruct (wi_reachable_ok db Hr). Qed.

(** The state machine is the only way a state changes.  Whatever operations
    run, an item keeps its id and its GitHub issue, its state moves along legal
    transitions only, and once its authority is local it stays local. *)
Theorem work_item_evolution db db' i :
  rtc wi_step empty_wdb db → rtc wi_step db db' → i ∈ w_items db →
  ∃ i', get_item db' (wi_id i) = Some i' ∧ evolves i i'.
Proof.
  intros Hr Hs Hi. destruct (wi_steps_ok _ _ Hs (wi_reachable_ok db Hr)) as [Hok' Hrel].
  by apply (item_rel_get evolves db db'); [apply _|..].
Qed.

(** In every reachable state the blocking and the parent relations between
    work items are acyclic, edges are unique, and both their ends exist. *)
Theorem reachable_relations_acyclic db :
  rtc wi_step empty_wdb db →
  acyclic (item_edge db "blocks") ∧ acyclic (item_edge db "parent") ∧
  NoDup ((λ e, (we_from_id e, we_to_id e, we_kind e)) <$> w_edges db) ∧
  (∀ e, e ∈ w_edges db → we_from_id e ∈ wi_id <$> w_items db ∧ we_to_id e ∈ wi_id <$> w_items db).
Proof.
  intros Hr. destruct (wi_reachable_ok db Hr) as [_ _ _ _ He Hn Ha].
  split; [by apply Ha|]. split; [by apply Ha|]. done.
Qed.

(** GitHub never touches a row under local authority: a single sync, a
    whole listing and the closing of absent issues all leave such a row exactly
    as it is. *)
Theorem sync_respects_local db db' i :
  rtc wi_step empty_wdb db → i ∈ w_items db → wi_authority i = "local"%string →
  ((∃ repo issue o r, mint_or_sync_from_github repo issue o db = Ok (r, db')) ∨
   (∃ repo issues truncated actor ordered c,
      sync_github_work_items repo issues truncated actor ordered db = Ok (c, db')) ∨
   (∃ repo nums actor n, close_missing_from_github repo nums actor db = Ok (n, db'))) →
  i ∈ w_items db'.
Proof.
  intros Hr Hi Ha Hs. pose proof (wi_reachable_ok db Hr) as Hok.
  assert (step_ok sync_evolves db db') as Hst.
  { destruct Hs as [(? & ? & ? & [? ?] & Hs)|[(? & ? & ? & ? & ? & ? & Hs)|(? & ? & ? & ? & Hs)]].
    - by eapply mint_or_sync_ok.
    - by eapply sync_github_ok.
    - by eapply close_missing_ok. }
  destruct (Hst Hok) as [_ (g & extra & -> & Hg)]. apply elem_of_app. left.
  apply list_elem_of_fmap. exists i. split; [|done]. symmetry. by apply (Hg i Hi).
Qed.

(** The source-order fence is strict.  A snapshot advances the watermark of
    its issue only when it is newer than what was recorded, the watermark then
    is the snapshot's own time, and a snapshot that is ignored as stale is not
    newer than the recorded one, also when another first delivery wins the
    insert.  The watermark never moves back. *)
Theorem order_snapshot_strict repo issue ref db o db' number d :
  order_github_issue_snapshot repo issue ref db = Ok (o, db') →
  _issue_number issue = Ok number → github_issue_updated_at issue = Ok (Some d) →
  (o = Advanced ∧ watermark db' repo number = Some (instant d) ∧
   ∀ w, watermark db repo number = Some w → w < instant d) ∨
  (o = StaleIgnored ∧ ∃ w, watermark db' repo number = Some w ∧ instant d ≤ w ∧
   ∀ w', watermark db repo number = Some w' → w = w').
Proof.
  intros Hs Hnum Hd. unfold order_github_issue_snapshot in Hs. rewrite Hnum, Hd in Hs.
  cbn [mbind res_bind] in Hs. destruct (dict_get "state" issue) as [| | | |st| | |]; try done.
  destruct (negb _); [done|]. unfold watermark.
  assert (∀ at_ s rf now, is_issue repo number (mkIssueState repo number at_ s rf now) = true) as Hself
    by (intros; by apply is_issue_spec).
  destruct (find_first (is_issue repo number) (w_issues db)) as [row|] eqn:Hrow.
  - destruct (_ <=? _) eqn:Hle; injection Hs as <- <-.
    + right. split; [done|]. rewrite Hrow. exists (instant (gs_source_updated_at row)).
      apply Z.leb_le in Hle. split; [done|]. split; [done|]. by intros ? [= <-].
    + left. apply Z.leb_gt in Hle. split; [done|]. simpl.
      rewrite find_first_replace by (done || by rewrite Hrow). split; [done|].
      simpl. by intros ? [= <-].
  - destruct (rival db repo number) as [[[at_ s] rf]|].
    + destruct (_ <=? _) eqn:Hle; injection Hs as <- <-; simpl.
      * right. apply Z.leb_le in Hle. split; [done|]. rewrite find_first_snoc, Hself by done.
        exists (instant at_). done.
      * left. split; [done|]. rewrite find_first_replace; [done|done|].
        rewrite find_first_snoc, Hself by done. eauto.
    + injection Hs as <- <-. left. split; [done|]. simpl.
      by rewrite find_first_snoc, Hself by done.
Qed.

(** A synced item is what its issue says.  After a sync, unless the item is
    under local authority, its row holds the title, body, labels, class,
    reference and trust derived from the issue, and its state is the one the
    labels name unless work on it is active or done. *)
Theorem sync_reflects_issue repo repo' issue o db r out db' number :
  mint_or_sync_from_github repo issue o db = Ok ((Some r, out), db') → wdb_ok db →
  so_source_ordered o = false → normalize_repo repo = Ok repo' → _issue_number issue = Ok number →
  get_item db' (wi_id r) = Some r ∧ github_key r = Some (repo', number) ∧
  (wi_authority r = "local"%string ∨
   ∃ v, _github_values repo' issue (so_trusted_authors o) = Ok v ∧ reflects r v ∧
     (holds_state (wi_state r) = true ∨ wi_state r = gv_state v)).
Proof.
  intros Hs Hok Ho Hrepo Hnum. unfold mint_or_sync_from_github in Hs.
  destruct (negb _ && _); [done|]. rewrite Hrepo, Hnum, Ho in Hs. cbn [mbind res_bind] in Hs.
  pose proof (find_github_item_target db repo' number Hok) as Ht.
  destruct (match find_github_item db repo' number with Some _ => _ | None => _ end) eqn:Hl.
  - injection Hs as Hf <- <-. rewrite Hf in Hl, Ht. apply bool_decide_eq_true in Hl.
    destruct Ht as [Hg Hk]. split; [done|]. split; [done|]. by left.
  - apply res_bind_ok in Hs as ([[i out'] db2] & Hm & Hs). injection Hs as <- <- <-.
    destruct (sync_locked_result _ _ _ _ _ _ _ _ _ _ Hm Hok Hnum Ht) as (_ & Hg & Hk & Hcase).
    split; [done|]. split; [done|]. destruct Hcase as [(? & _)|(_ & ?)]; [by left|by right].
Qed.

(** Synchronisation is idempotent: applying the same issue again writes
    nothing at all. *)
Theorem sync_idempotent repo issue o db r out db' :
  mint_or_sync_from_github repo issue o db = Ok ((Some r, out), db') → wdb_ok db →
  so_source_ordered o = false →
  ∃ out', mint_or_sync_from_github repo issue o db' = Ok ((Some r, out'), db') ∧
    (out' = Unchanged ∨ out' = LocalUntouched).
Proof.
  intros Hs Hok Ho. pose proof (mint_or_sync_ok _ _ _ _ _ _ _ Hs Hok) as [Hok' _].
  unfold mint_or_sync_from_github in Hs |- *.
  destruct (negb _ && _); [done|]. destruct (normalize_repo repo) as [repo'|]; [|done].
  destruct (_issue_number issue) as [number|] eqn:Hnum; [|done].
  cbn [mbind res_bind] in Hs |- *. rewrite Ho in Hs |- *. cbn [mbind res_bind] in Hs |- *.
  pose proof (find_github_item_target db repo' number Hok) as Ht.
  pose proof (find_github_item_target db' repo' number Hok') as Ht'.
  assert (∀ x, get_item db' (wi_id x) = Some x → github_key x = Some (repo', number) →
    find_github_item db' repo' number = Some x) as Hfind.
  { intros x Hx Hkx. destruct (get_item_elem _ _ _ Hx) as [Hxin _].
    destruct (find_github_item db' repo' number) as [y|].
    - destruct Ht' as [Hy Hky]. destruct (get_item_elem _ _ _ Hy) as [Hyin _]. f_equal.
      pose proof (wo_github _ Hok') as Hnd. revert Hnd Hxin Hyin. clear -Hkx Hky.
      generalize (w_items db') as l. induction l as [|z l IH]; [by intros _ []%elem_of_nil|].
      simpl. intros Hnd [->|Hx]%elem_of_cons [->|Hy]%elem_of_cons; [done|..].
      + rewrite Hkx in Hnd. apply NoDup_cons in Hnd as [[] _]. apply list_elem_of_omap. eauto.
      + rewrite Hky in Hnd. apply NoDup_cons in Hnd as [[] _]. apply list_elem_of_omap. eauto.
      + apply IH; [|done..]. destruct (github_key z); [by apply NoDup_cons in Hnd as [_ ?]|done].
    - destruct Ht'. apply elem_of_keys. eauto. }
  destruct (match find_github_item db repo' number with Some _ => _ | None => _ end) eqn:Hl.
  - injection Hs as Hf <- <-. rewrite Hf in *. rewrite Hl. eauto.
  - apply res_bind_ok in Hs as ([[i out'] db2] & Hm & Hs). injection Hs as <- <- <-.
    destruct (sync_locked_result _ _ _ _ _ _ _ _ _ _ Hm Hok Hnum Ht) as (_ & Hg & Hk & Hcase).
    rewrite (Hfind i Hg Hk). destruct Hcase as [(-> & _)|(Ha & v & Hv & Hrf & Hst)].
    + rewrite bool_decide_eq_true_2 by done. eauto.
    + rewrite bool_decide_eq_false_2 by done.
      rewrite (sync_locked_again repo' issue _ _ db2 i number v) by done. eauto.
Qed.

(** An item is admissible exactly when it exists, is ready, and every item
    that blocks it is closed. *)
Theorem is_admissible_exact db id :
  is_admissible db id = true ↔
  ∃ i, get_item db id = Some i ∧ wi_state i = "ready"%string ∧
    ∀ b, b ∈ w_items db → item_edge db "blocks" (wi_id b) id → wi_state b = "closed"%string.
Proof.
  unfold is_admissible. destruct (get_item db id) as [i|]; [|split; [done|by intros (? & ? & _)]].
  rewrite andb_true_iff, bool_decide_eq_true.
  assert (match open_blockers db id with [] => true | _ => false end = true ↔
    ∀ b, b ∈ w_items db → item_edge db "blocks" (wi_id b) id → wi_state b = "closed"%string) as ->.
  { split.
    - intros Hb b Hin He. destruct (decide (wi_state b = "closed"%string)); [done|].
      assert (b ∈ open_blockers db id) as Hmem by by apply elem_of_blockers.
      destruct (open_blockers db id); [by apply elem_of_nil in Hmem|done].
    - intros Hall. destruct (open_blockers db id) as [|b l] eqn:E; [done|].
      assert (b ∈ open_blockers db id) as (Hin & Hne & He)%elem_of_blockers
        by (rewrite E; constructor).
      by rewrite (Hall b) in Hne. }
  split; [intros [? ?]; eauto|]. by intros (? & [= <-] & ? & ?).
Qed.

(** Closing against a complete listing is exact and cannot fail: with at
    least one open issue listed, it closes every open GitHub-owned item of the
    repository whose issue is not listed, with reason [github_closed], leaves
    every other row as it is, and reports how many it closed; an empty listing
    closes nothing. *)
Theorem close_missing_exact repo repo' nums actor db :
  wdb_ok db → normalize_repo repo = Ok repo' →
  ∃ n db', close_missing_from_github repo nums actor db = Ok (n, db') ∧
    (nums = [] → n = 0%nat ∧ db' = db) ∧
    (nums ≠ [] →
     n = length (filter (λ i, missing repo' nums i = true) (w_items db)) ∧
     w_items db' = (λ i, if missing repo' nums i
                         then with_state i "closed" (Some "github_closed"%string) (w_now db)
                         else i) <$> w_items db).
Proof.
  intros Hok Hrepo. destruct nums as [|x nums].
  { exists 0%nat, db. split; [done|]. done. }
  destruct (close_missing_total repo repo' (x :: nums) actor db) as (db' & Hc & _ & Hi); [done..|].
  eexists _, db'. split; [exact Hc|]. split; [done|]. done.
Qed.

(** An edge is refused as a cycle exactly when its target already reaches
    its source along edges of the same kind. *)
Theorem item_cycle_check_exact db from_id to_id kind :
  _would_cycle db from_id to_id kind = true ↔ rtc (item_edge db kind) to_id from_id.
Proof. apply would_cycle_decides. Qed.

End claims.

(** * Work items: a worked run

    Two issues minted from a listing, a blocking edge between them and a
    hand-off to local authority, evaluated step by step. *)

(** A reader of two fixed timestamps. *)
Definition demo_iso : IsoFormat :=
  {| fromisoformat := λ s,
       if bool_decide (s = "2024-01-01T00:00:00+00:00"%string) then Some (mkDatetime 1000 (Some 0))
       else if bool_decide (s = "2024-01-02T00:00:00"%string) then Some (mkDatetime 2000 None)
       else None;
     isoformat := λ d, pretty (dt_wall d) |}.
Definition demo_rivals : Rivals := λ _ _ _, None.
#[local] Existing Instance demo_iso.
#[local] Existing Instance demo_rivals.

Definition wexec {A} (m : tx WDB A) (db : WDB) : WDB :=
  match m db with Ok (_, db') => db' | Raise _ => db end.
Definition wret {A} (m : tx WDB A) (db : WDB) (d : A) : A :=
  match m db with Ok (a, _) => a | Raise _ => d end.
Definition wruns {A} (m : tx WDB A) (db : WDB) : bool :=
  match m db with Ok _ => true | Raise _ => false end.
Lemma wexec_ok {A} (m : tx WDB A) db d : wruns m db = true → m db = Ok (wret m db d, wexec m db).
Proof. unfold wruns, wret, wexec. by destruct (m db) as [[a db']|]. Qed.

Definition demo_issue (number : Z) (labels : list string) : list (string * pyval) :=
  [("number", PInt number); ("title", PStr "t"); ("state", PStr "open");
   ("labels", PList (PStr <$> labels)); ("updated_at", PStr "2024-01-01T00:00:00Z");
   ("created_at", PStr "2024-01-02T00:00:00")]%string.
Definition demo_listing : list pyval :=
  [PDict (demo_issue 1 ["agent-ready"%string]); PDict (demo_issue 2 [])].
Definition demo_by : Attribution := mkBy "a" "human" "manual" None None.
Definition demo_sync : SyncOptions := mkSync "a" [] false None false.

Definition wdemo1 : WDB := wexec (sync_github_work_items "O/r" demo_listing true "a" false) empty_wdb.
Definition wdemo2 : WDB := wexec (add_edge 2 1 "blocks" demo_by "manual") wdemo1.
Definition wdemo3 : WDB := wexec (set_authority_local 2 demo_by) wdemo2.
Definition wdemo_item (db : WDB) (i : nat) : WorkItem :=
  default (mkItem 0 "" "" "" None None [] "" None "" "" None None None 0 0 None) (w_items db !! i).

Lemma wdemo1_reachable : rtc wi_step empty_wdb wdemo1.
Proof.
  apply rtc_once. eapply ws_sweep, (wexec_ok _ _ no_counts). vm_compute. reflexivity.
Qed.
Lemma wdemo3_later : rtc wi_step wdemo1 wdemo3.
Proof.
  eapply (rtc_l _ _ wdemo2); [eapply ws_add_edge, (wexec_ok _ _ tt); vm_compute; reflexivity|].
  apply rtc_once. eapply ws_set_local, (wexec_ok _ _ (wdemo_item empty_wdb 0)).
  vm_compute. reflexivity.
Qed.
Lemma wdemo3_reachable : rtc wi_step empty_wdb wdemo3.
Proof. etrans; [exact wdemo1_reachable|exact wdemo3_later]. Qed.

Lemma wdemo_item_elem db n : bool_decide (is_Some (w_items db !! n)) = true →
  wdemo_item db n ∈ w_items db.
Proof.
  intros [i Hi]%bool_decide_eq_true. unfold wdemo_item. rewrite Hi.
  by eapply list_elem_of_lookup_2.
Qed.

Lemma reachable_work_items_consistent_witness :
  length (w_items wdemo3) = 2%nat ∧
  (∀ i, i ∈ w_items wdemo3 → item_ok i) ∧
  NoDup (wi_id <$> w_items wdemo3) ∧ NoDup (omap github_key (w_items wdemo3)) ∧
  (∀ id, wv_version <$> events_of wdemo3 id = upto (length (events_of wdemo3 id))).
Proof.
  split; [vm_compute; reflexivity|].
  apply (reachable_work_items_consistent wdemo3 wdemo3_reachable).
Defined.

Lemma work_item_evolution_witness :
  ∃ i', get_item wdemo3 (wi_id (wdemo_item wdemo1 1)) = Some i' ∧ evolves (wdemo_item wdemo1 1) i'.
Proof.
  apply (work_item_evolution wdemo1 wdemo3 (wdemo_item wdemo1 1) wdemo1_reachable wdemo3_later).
  apply wdemo_item_elem. vm_compute. reflexivity.
Defined.

Lemma reachable_relations_acyclic_witness :
  length (w_edges wdemo3) = 1%nat ∧ acyclic (item_edge wdemo3 "blocks").
Proof.
  split; [vm_compute; reflexivity|].
  apply (reachable_relations_acyclic wdemo3 wdemo3_reachable).
Defined.

Lemma sync_respects_local_witness :
  wi_authority (wdemo_item wdemo3 1) = "local"%string ∧
  wdemo_item wdemo3 1 ∈
    w_items (wexec (sync_github_work_items "O/r" [PDict (demo_issue 1 [])] false "a" false) wdemo3).
Proof.
  split; [vm_compute; reflexivity|].
  apply (sync_respects_local wdemo3 _ (wdemo_item wdemo3 1) wdemo3_reachable).
  - apply wdemo_item_elem. vm_compute. reflexivity.
  - vm_compute. reflexivity.
  - right. left. eexists _, _, _, _, _, _.
    apply (wexec_ok (sync_github_work_items "O/r" [PDict (demo_issue 1 [])] false "a" false) wdemo3
      no_counts). vm_compute. reflexivity.
Defined.

Lemma order_snapshot_strict_witness :
  let m := order_github_issue_snapshot "o/r" (demo_issue 1 []) "ref" in
  wret m empty_wdb StaleIgnored = Advanced ∧
  ((wret m empty_wdb StaleIgnored = Advanced ∧
    watermark (wexec m empty_wdb) "o/r" 1 = Some (instant (mkDatetime 1000 (Some 0))) ∧
    ∀ w, watermark empty_wdb "o/r" 1 = Some w → w < instant (mkDatetime 1000 (Some 0))) ∨
   (wret m empty_wdb StaleIgnored = StaleIgnored ∧
    ∃ w, watermark (wexec m empty_wdb) "o/r" 1 = Some w ∧
      instant (mkDatetime 1000 (Some 0)) ≤ w ∧
      ∀ w', watermark empty_wdb "o/r" 1 = Some w' → w = w')).
Proof.
  intros m. split; [vm_compute; reflexivity|].
  apply (order_snapshot_strict "o/r" (demo_issue 1 []) "ref" empty_wdb).
  - apply wexec_ok. vm_compute. reflexivity.
  - reflexivity.
  - vm_compute. reflexivity.
Defined.

#[local] Notation demo_resync :=
  (mint_or_sync_from_github "O/r" (demo_issue 1 ["needs-human"%string]) demo_sync).
Definition demo_resynced : WorkItem :=
  default (wdemo_item empty_wdb 0) (fst (wret demo_resync wdemo1 (None, Skipped))).
Lemma demo_resync_ok :
  demo_resync wdemo1 = Ok ((Some demo_resynced, Synced), wexec demo_resync wdemo1).
Proof. vm_compute. reflexivity. Qed.

Lemma sync_reflects_issue_witness :
  wi_state demo_resynced = "needs_human"%string ∧
  get_item (wexec demo_resync wdemo1) (wi_id demo_resynced) = Some demo_resynced ∧
  github_key demo_resynced = Some ("o/r"%string, 1) ∧
  (wi_authority demo_resynced = "local"%string ∨
   ∃ v, _github_values "o/r" (demo_issue 1 ["needs-human"%string]) [] = Ok v ∧
     reflects demo_resynced v ∧
     (holds_state (wi_state demo_resynced) = true ∨ wi_state demo_resynced = gv_state v)).
Proof.
  split; [vm_compute; reflexivity|].
  apply (sync_reflects_issue "O/r" "o/r" (demo_issue 1 ["needs-human"%string]) demo_sync wdemo1
    demo_resynced Synced (wexec demo_resync wdemo1) 1 demo_resync_ok
    (wi_reachable_ok wdemo1 wdemo1_reachable)); vm_compute; reflexivity.
Defined.

Lemma sync_idempotent_witness :
  ∃ out', demo_resync (wexec demo_resync wdemo1)
    = Ok ((Some demo_resynced, out'), wexec demo_resync wdemo1) ∧
    (out' = Unchanged ∨ out' = LocalUntouched).
Proof.
  apply (sync_idempotent "O/r" (demo_issue 1 ["needs-human"%string]) demo_sync wdemo1
    demo_resynced Synced (wexec demo_resync wdemo1) demo_resync_ok
    (wi_reachable_ok wdemo1 wdemo1_reachable)). reflexivity.
Defined.

Lemma close_missing_exact_witness :
  let m := close_missing_from_github "O/r" [1] "a" in
  ∃ n db', m wdemo1 = Ok (n, db') ∧
    ([1] = [] → n = 0%nat ∧ db' = wdemo1) ∧
    ([1] ≠ [] →
     n = length (filter (λ i, missing "o/r" [1] i = true) (w_items wdemo1)) ∧
     w_items db' = (λ i, if missing "o/r" [1] i
                         then with_state i "closed" (Some "github_closed"%string) (w_now wdemo1)
                         else i) <$> w_items wdemo1).
Proof.
  intros m. apply (close_missing_exact "O/r" "o/r" [1] "a" wdemo1);
    [exact (wi_reachable_ok wdemo1 wdemo1_reachable)|vm_compute; reflexivity].
Defined.
