(* ===== verification/Admission.v ===== *)
(** * Execution permits: rows and operations

    [factory/execution/admission.py]: the capacity pool that serialises every
    agent start.  Its helpers run under the pool lock, so one call is one
    transaction step ([tx ADB]). *)

From Stdlib Require Import SpecFloat.
From stdpp Require Import prelude list strings pretty.
From S2P Require Import Prelude PyValue.
Local Open Scope Z_scope.

(** ** Limits *)

Definition DEFAULT_TOTAL_LIMIT : Z := 4.
Definition DEFAULT_BACKGROUND_LIMIT : Z := 3.
Definition DEFAULT_KG_LIMIT : Z := 2.
Definition TIERS : list string := ["interactive"; "project"; "kg"; "probe"].
Definition PRIORITY : list (string * Z) :=
  [("interactive", 0); ("project", 1); ("kg", 2); ("probe", 3)].
Definition UNKNOWN_INVOCATION : string := "invocation_outcome_unknown".
Definition DRAINER_NODE_KEY : string := "qwen-drain".
Definition KG_NODE_KEY : string := "kg-drain".
Definition GRIMOIRE_KG_NODE_KEY : string := "grimoire-kg-drain".

Definition _limit `{Environ} (name : string) (dflt : Z) : Z :=
  match environ name with
  | None => dflt
  | Some raw =>
      if bool_decide (py_strip raw = ""%string) then dflt else
      match int_of_string raw with
      | Some value => if value <? 1 then dflt else value
      | None => dflt
      end
  end.

Definition total_limit `{Environ} : Z := _limit "AGENT_ADMISSION_TOTAL" DEFAULT_TOTAL_LIMIT.
Definition background_limit `{Environ} : Z :=
  Z.min (_limit "AGENT_ADMISSION_BACKGROUND" DEFAULT_BACKGROUND_LIMIT) total_limit.
Definition kg_limit `{Environ} : Z :=
  Z.min (_limit "AGENT_ADMISSION_KG" DEFAULT_KG_LIMIT) background_limit.

(** ** Rows *)

(** The live guest of a session, and the last one to restore from. *)
Record Binding := mkBinding {
  bd_token : option string;
  bd_expires_at : option Z;
  bd_lineage_id : option string;
  bd_cli_session_id : option string;
  bd_prior_lineage_id : option string;
  bd_prior_cli_session_id : option string;
}.
(** The rest of a claim to clean a guest up. *)
Record CleanupClaim := mkCleanup {
  cc_workflow_id : option string;
  cc_dispatches : option jtext;
  cc_started_at : option Z;
}.
Record SessionDetail := mkDetail {
  sd_repo : option string;
  sd_node_attempt : option Z;
  sd_capture_evidence_ttl_seconds : option Z;
  sd_progress_token : option string;
  sd_recall_pending : bool;
  sd_voice_summary : option string;
  sd_last_turn_at : Z;
  sd_recovery_workspace_loss : option bool;
  sd_recovery_completed_at : option Z;
}.

Record AgentSession := mkSession {
  as_id : Z;
  as_local_session_id : string;
  as_workflow_id : option string;
  as_node_key : option string;
  as_admission_tier : string;
  as_model : option string;
  as_status : string;
  as_result_receipt_fence_id : option string;
  as_guest_cleanup_id : option string;
  as_guest_cleanup_guest_id : option string;
  as_ember_session_id : option string;
  as_binding : Binding;
  as_cleanup : CleanupClaim;
  as_detail : SessionDetail;
}.

(** What a turn records besides its outcome. *)
Record TurnDetail := mkTurnDetail {
  td_prompt : string;
  td_model : option string;
  td_voice_summary : option string;
  td_permission_denials : pyval;
  td_commit_sha : option string;
  td_cost_usd : option spec_float;
  td_list_cost_usd : option spec_float;
  td_diff_blob : option string;
  td_diff_truncated : pyval;
  td_diff_base_sha : pyval;
  td_artifact_path : pyval;
  td_artifact_blob : option string;
  td_artifact_outcome : pyval;
}.

Record AgentTurn := mkTurn {
  tu_session_id : Z;
  tu_seq : Z;
  tu_stop_reason : option string;
  tu_terminal_reason : option string;
  tu_result_text : string;
  tu_usage_json : option jtext;
  tu_detail : TurnDetail;
}.

Record PendingMessage := mkPending {
  pm_session_id : Z;
  pm_seq : Z;
  pm_model : option string;
  pm_claimed_by_replica : option string;
  pm_dispatch_count : Z;
  pm_last_dispatch_at : option Z;
  pm_partial_text : option string;
  pm_partial_activities : option string;
  pm_message_text : string;
  pm_claimed_at : option Z;
  pm_created_at : Z;
  pm_capacity_started_at : option Z;
  pm_capacity_state : option string;
  pm_capacity_intent_json : option jtext;
}.

Record AgentCapacityReservation := mkPermit {
  cr_id : Z;
  cr_local_session_id : string;
  cr_pending_seq : Z;
  cr_session_id : option Z;
  cr_tier : string;
  cr_model : option string;
  cr_workload : option string;
  cr_owner : option string;
  cr_state : string;
  cr_daily_key : option string;
  cr_routine_job_name : option string;
  cr_created_at : Z;
  cr_settled_at : option Z;
  cr_outcome : option string;
}.
Notation Permit := AgentCapacityReservation.

(** Native result evidence of one dispatch. *)
Record AgentResultReceipt := mkResultReceipt {
  rr_id : string;
  rr_token_sha256 : string;
  rr_session_id : Z;
  rr_local_session_id : string;
  rr_seq : Z;
  rr_dispatch_count : Z;
  rr_claim_owner : string;
  rr_guest_id : string;
  rr_request_sha256 : string;
  rr_created_at : Z;
  rr_accept_until : Z;
  rr_retain_until : Z;
  rr_superseded_at : option Z;
  rr_attempt_phase : option string;
  rr_received_at : option Z;
  rr_response_observed_at : option Z;
  rr_observer_released_at : option Z;
  rr_result_sha256 : option string;
  rr_result_body : option string;
}.

Record ADB := mkADB {
  a_permits : list Permit;
  a_sessions : list AgentSession;
  a_pending : list PendingMessage;
  a_turns : list AgentTurn;
  a_receipts : list AgentResultReceipt;
  a_now : Z;
}.
Definition set_permits (f : list Permit → list Permit) (db : ADB) : ADB :=
  mkADB (f (a_permits db)) (a_sessions db) (a_pending db) (a_turns db) (a_receipts db) (a_now db).
Definition set_sessions (f : list AgentSession → list AgentSession) (db : ADB) : ADB :=
  mkADB (a_permits db) (f (a_sessions db)) (a_pending db) (a_turns db) (a_receipts db) (a_now db).

(** What admission asks of its collaborators: the factory's start control for a
    task ([Raise] when it cannot tell) and the review lease of a permit. *)
Class AdmissionHooks := {
  can_start : ADB → string → string → res bool;
  may_dispatch : ADB → Permit → bool;
}.

(** ** Cleanup fences *)

Definition is_set {A} (o : option A) : bool := match o with Some _ => true | None => false end.

Definition guest_has_cleanup_claim (db : ADB) (guest_id : option string) : bool :=
  match guest_id with
  | None => false
  | Some g => existsb (λ s, is_set (as_guest_cleanup_id s) &&
                            bool_decide (as_guest_cleanup_guest_id s = Some g)) (a_sessions db)
  end.

Definition cleanup_pending (db : ADB) (agent : AgentSession) : bool :=
  match find_first (λ s, as_id s =? as_id agent) (a_sessions db) with
  | Some row => is_set (as_guest_cleanup_id row) ||
                guest_has_cleanup_claim db (as_ember_session_id row)
  | None => false
  end.

(** ** Permits *)

Definition is_permit (local_session_id : string) (seq : Z) (p : Permit) : bool :=
  bool_decide (cr_local_session_id p = local_session_id) && (cr_pending_seq p =? seq).

Definition reservation (db : ADB) (local_session_id : string) (seq : Z) : option Permit :=
  find_first (is_permit local_session_id seq) (a_permits db).

(** Write back the row that [reservation] returned. *)
Definition put_permit (p : Permit) (db : ADB) : ADB :=
  set_permits (update_where (is_permit (cr_local_session_id p) (cr_pending_seq p)) (λ _, p)) db.

(** [a or b] on optional text: the empty text is false. *)
Definition or_text (a b : option string) : option string :=
  match a with
  | Some s => if bool_decide (s = ""%string) then b else a
  | None => b
  end.

(** [s[len(prefix):]]. *)
Definition drop_str (n : nat) (s : string) : string := String.substring n (String.length s - n) s.

(** The routine a drain session serves, read back from its name. *)
Definition drained_routine (agent : AgentSession) : option string :=
  match as_workflow_id agent, as_node_key agent with
  | Some w, Some n =>
      if negb (bool_decide (w = ""%string)) &&
         str_in n [KG_NODE_KEY; GRIMOIRE_KG_NODE_KEY; DRAINER_NODE_KEY] then
        let prefix := w +:+ ":" +:+ n +:+ ":" in
        if startswith prefix (as_local_session_id agent) then
          let rest := drop_str (String.length prefix) (as_local_session_id agent) in
          if bool_decide (rest = ""%string) then None else Some rest
        else None
      else None
  | _, _ => None
  end.

Definition _adopt (agent : AgentSession) (seq : Z) (state : string) (owner model : option string)
    (db : ADB) : Permit * ADB :=
  let key := as_local_session_id agent in
  match reservation db key seq with
  | Some row => (row, db)
  | None =>
      let inherited := initial ← reservation db key 1; cr_routine_job_name initial in
      let routine := match inherited with Some r => Some r | None => drained_routine agent end in
      let row := mkPermit (max_key cr_id (a_permits db) + 1) key seq (Some (as_id agent))
        (as_admission_tier agent) (or_text model (as_model agent)) None owner state None routine
        (a_now db) None None in
      (row, set_permits (λ ps, ps ++ [row]) db)
  end.

(** The pairs of the two scans: dispatched messages, and unconfirmed turns. *)
Definition attempted (m : PendingMessage) : bool :=
  (0 <? pm_dispatch_count m) || is_set (pm_claimed_by_replica m) || is_set (pm_last_dispatch_at m).
Definition attempted_pairs (db : ADB) : list (AgentSession * PendingMessage) :=
  s ← a_sessions db;
  (λ m, (s, m)) <$> filter (λ m, pm_session_id m = as_id s ∧ attempted m = true) (a_pending db).
Definition unconfirmed (db : ADB) (s : AgentSession) (t : AgentTurn) : bool :=
  bool_decide (tu_stop_reason t = Some UNKNOWN_INVOCATION) ||
  (bool_decide (tu_terminal_reason t = Some "error"%string) && is_set (as_ember_session_id s) &&
   negb (existsb (λ l, (tu_session_id l =? tu_session_id t) && (tu_seq t <? tu_seq l)) (a_turns db))).
Definition unconfirmed_pairs (db : ADB) : list (AgentSession * AgentTurn) :=
  s ← a_sessions db;
  (λ t, (s, t)) <$> filter (λ t, tu_session_id t = as_id s ∧ unconfirmed db s t = true) (a_turns db).

Definition adopt_existing (db : ADB) : ADB :=
  let db := foldl (λ db p, (_adopt p.1 (pm_seq p.2) "running" (pm_claimed_by_replica p.2)
                              (pm_model p.2) db).2) db (attempted_pairs db) in
  foldl (λ db p, (_adopt p.1 (tu_seq p.2) "uncertain" None None db).2) db (unconfirmed_pairs db).

(** ** Priority *)

Definition priority_of (tier : string) : Z := default 0 (assoc_get tier PRIORITY).

(** The waiting messages of higher tiers, by session and sequence. *)
Definition waiting_le (a b : AgentSession * PendingMessage) : bool :=
  match Z.compare (pm_session_id a.2) (pm_session_id b.2) with
  | Lt => true
  | Gt => false
  | Eq => pm_seq a.2 <=? pm_seq b.2
  end.
Definition outranks (tier : string) (s : AgentSession) : bool :=
  str_in (as_admission_tier s) TIERS && (priority_of (as_admission_tier s) <? priority_of tier) &&
  negb (str_in (as_status s) ["failed"; "awaiting_login"; "recovering"]) &&
  negb (is_set (as_result_receipt_fence_id s)) && negb (is_set (as_guest_cleanup_id s)).
Definition waiting (db : ADB) (tier : string) : list (AgentSession * PendingMessage) :=
  py_sorted waiting_le
    (s ← filter (λ s, outranks tier s = true) (a_sessions db);
     (λ m, (s, m)) <$> filter (λ m, pm_session_id m = as_id s) (a_pending db)).

Definition has_unknown_turn (db : ADB) (session_id : Z) : bool :=
  existsb (λ t, (tu_session_id t =? session_id) &&
                bool_decide (tu_stop_reason t = Some UNKNOWN_INVOCATION)) (a_turns db).

(** Whether the factory lets a session start; [None] skips the candidate. *)
Definition factory_start `{AdmissionHooks} (db : ADB) (agent : AgentSession) : option (res bool) :=
  if startswith "factory:" (as_local_session_id agent) then
    match split_on (Ascii.ascii_of_nat 58) (as_local_session_id agent) with
    | [_; f1; f2; f3] =>
        if isdigit f3
        then Some (can_start db f1 ("factory-node:" +:+ py_join ":" [f1; f2; f3]))
        else None
    | _ => None
    end
  else Some (Ok true).

Fixpoint scan_waiting `{AdmissionHooks} (db : ADB)
    (candidates : list (AgentSession * PendingMessage)) (seen : list Z) : bool :=
  match candidates with
  | [] => false
  | (agent, pending) :: rest =>
      if cleanup_pending db agent then scan_waiting db rest seen
      else if bool_decide (as_id agent ∈ seen) then scan_waiting db rest seen
      else
        let seen := as_id agent :: seen in
        if (pm_dispatch_count pending =? 0) && negb (is_set (pm_claimed_by_replica pending)) then
          match factory_start db agent with
          | None | Some (Ok false) => scan_waiting db rest seen
          | Some (Raise _) => true
          | Some (Ok true) =>
              if has_unknown_turn db (as_id agent) then scan_waiting db rest seen else true
          end
        else scan_waiting db rest seen
  end.

Definition _higher_priority_waiting `{AdmissionHooks} (db : ADB) (tier : string) : bool :=
  scan_waiting db (waiting db tier) [].

(** ** Reserving a start *)

Definition _operator_recomputation (p : Permit) : bool :=
  bool_decide (cr_routine_job_name p = Some "kg-fact-review"%string) &&
  bool_decide (cr_tier p = "kg"%string) && bool_decide (cr_state p = "uncertain"%string) &&
  bool_decide (cr_outcome p = Some "operator_recompute_unknown"%string).

(** The permits that hold capacity. *)
Definition active (db : ADB) : list Permit :=
  filter (λ p, cr_state p ≠ "settled"%string) (a_permits db).
Definition background (ps : list Permit) : list Permit :=
  filter (λ p, cr_tier p ≠ "interactive"%string) ps.
Definition kg (ps : list Permit) : list Permit := filter (λ p, cr_tier p = "kg"%string) ps.
Definition count {A} (l : list A) : Z := Z.of_nat (length l).

Record StartRequest := mkStartRequest {
  sr_local_session_id : string;
  sr_tier : string;
  sr_model : option string;
  sr_pending_seq : Z;
  sr_daily_key : option string;
  sr_daily_limit : option Z;
  sr_daily_used : Z;
  sr_routine_job_name : option string;
}.

Definition DAY : Z := 86400 * 1000000.

(** The unbound permits of a daily allowance, in its rolling window. *)
Definition unbound_today (db : ADB) (key : string) : list Permit :=
  filter (λ p, cr_daily_key p = Some key ∧ cr_session_id p = None ∧
               cr_state p ≠ "settled"%string ∧ a_now db - DAY ≤ cr_created_at p) (a_permits db).

(** The refusal of a new permit after adoption, in the order of the code. *)
Definition capacity_refusal `{Environ, AdmissionHooks} (db : ADB) (q : StartRequest)
    : res (option string) :=
  let tier := sr_tier q in
  let act := active db in
  if is_set (sr_routine_job_name q) &&
     existsb (λ p, bool_decide (cr_routine_job_name p = sr_routine_job_name q) &&
                   negb (_operator_recomputation p)) act
  then Ok (Some "routine_job_already_reserved"%string) else
  let background_full := negb (bool_decide (tier = "interactive"%string)) &&
    (background_limit <=? count (background act)) in
  let kg_full := bool_decide (tier = "kg"%string) && (kg_limit <=? count (kg act)) in
  if total_limit <=? count act
  then Ok (Some ("total_full (" +:+ pretty (count act) +:+ "/" +:+ pretty total_limit +:+ ")")) else
  if negb (bool_decide (tier = "interactive"%string)) && background_full
  then Ok (Some ("background_full (limit " +:+ pretty background_limit +:+ ")")) else
  if negb (bool_decide (tier = "interactive"%string)) && _higher_priority_waiting db tier
  then Ok (Some "higher_priority_waiting"%string) else
  if kg_full then Ok (Some ("kg_full (limit " +:+ pretty kg_limit +:+ ")")) else
  match sr_daily_key q with
  | None => Ok None
  | Some key =>
      match sr_daily_limit q with
      | Some limit =>
          if (limit <? 0) || (sr_daily_used q <? 0)
          then Raise (ValueError "Daily allowance requires an authoritative nonnegative count") else
          let unbound := count (unbound_today db key) in
          if limit <=? sr_daily_used q + unbound
          then Ok (Some ("daily_allowance_exhausted (" +:+ key +:+ ": used=" +:+ pretty (sr_daily_used q)
                         +:+ " unbound=" +:+ pretty unbound +:+ " limit=" +:+ pretty limit +:+ ")"))
          else Ok None
      | None => Raise (ValueError "Daily allowance requires an authoritative nonnegative count")
      end
  end.

Definition new_permit (db : ADB) (q : StartRequest) : Permit :=
  mkPermit (max_key cr_id (a_permits db) + 1) (sr_local_session_id q) (sr_pending_seq q) None
    (sr_tier q) (sr_model q) None None "reserved" (sr_daily_key q) (sr_routine_job_name q)
    (a_now db) None None.

(** A permit that already grants this very start. *)
Definition same_start (q : StartRequest) (p : Permit) : bool :=
  bool_decide (cr_tier p = sr_tier q) && bool_decide (cr_model p = sr_model q) &&
  bool_decide (cr_routine_job_name p = sr_routine_job_name q) &&
  str_in (cr_state p) ["reserved"; "running"].

Definition reserve_start_verdict `{Environ, AdmissionHooks} (q : StartRequest)
    : tx ADB (option string) := λ db,
  if negb (str_in (sr_tier q) TIERS) || (sr_pending_seq q <? 1)
  then Raise (ValueError "Invalid server admission identity") else
  let blocked := match find_first (λ s, bool_decide (as_local_session_id s = sr_local_session_id q))
                         (a_sessions db) with
                 | Some agent => cleanup_pending db agent
                 | None => false
                 end in
  if blocked then Ok (Some "cleanup_pending"%string, db) else
  let db := adopt_existing db in
  match reservation db (sr_local_session_id q) (sr_pending_seq q) with
  | Some existing =>
      Ok (if same_start q existing then None
          else Some ("existing_reservation_" +:+ cr_state existing), db)
  | None =>
      refusal ← capacity_refusal db q;
      match refusal with
      | Some reason => Ok (Some reason, db)
      | None => Ok (None, set_permits (λ ps, ps ++ [new_permit db q]) db)
      end
  end.

Definition reserve_start `{Environ, AdmissionHooks} (q : StartRequest) : tx ADB bool := λ db,
  '(verdict, db) ← reserve_start_verdict q db;
  Ok (negb (is_set verdict), db).

Definition free_background_slots `{Environ} (db : ADB) : Z :=
  let act := active db in
  Z.max 0 (Z.min (background_limit - count (background act)) (total_limit - count act)).

(** ** Binding and claiming *)

Definition permit_bind (session_id : Z) (p : Permit) : Permit :=
  mkPermit (cr_id p) (cr_local_session_id p) (cr_pending_seq p) (Some session_id) (cr_tier p)
    (cr_model p) (cr_workload p) (cr_owner p) (cr_state p) (cr_daily_key p)
    (cr_routine_job_name p) (cr_created_at p) (cr_settled_at p) (cr_outcome p).
Definition permit_claim (session_id : Z) (owner : string) (p : Permit) : Permit :=
  mkPermit (cr_id p) (cr_local_session_id p) (cr_pending_seq p) (Some session_id) (cr_tier p)
    (cr_model p) (cr_workload p) (Some owner) (cr_state p) (cr_daily_key p)
    (cr_routine_job_name p) (cr_created_at p) (cr_settled_at p) (cr_outcome p).
Definition permit_run (workload : option string) (p : Permit) : Permit :=
  mkPermit (cr_id p) (cr_local_session_id p) (cr_pending_seq p) (cr_session_id p) (cr_tier p)
    (cr_model p) (match workload with Some w => Some w | None => cr_workload p end) (cr_owner p)
    "running" (cr_daily_key p) (cr_routine_job_name p) (cr_created_at p) (cr_settled_at p)
    (cr_outcome p).
Definition permit_close (state : string) (outcome : option string) (settled_at : option Z) (p : Permit) : Permit :=
  mkPermit (cr_id p) (cr_local_session_id p) (cr_pending_seq p) (cr_session_id p) (cr_tier p)
    (cr_model p) (cr_workload p) (cr_owner p) state (cr_daily_key p) (cr_routine_job_name p)
    (cr_created_at p) settled_at outcome.
Definition session_set_tier (tier : string) (s : AgentSession) : AgentSession :=
  mkSession (as_id s) (as_local_session_id s) (as_workflow_id s) (as_node_key s) tier (as_model s)
    (as_status s) (as_result_receipt_fence_id s) (as_guest_cleanup_id s)
    (as_guest_cleanup_guest_id s) (as_ember_session_id s) (as_binding s) (as_cleanup s) (as_detail s).

Definition bind_session (agent : AgentSession) : tx ADB unit := λ db,
  match reservation db (as_local_session_id agent) 1 with
  | None => Ok (tt, db)
  | Some row =>
      if negb (bool_decide (cr_state row = "reserved"%string)) ||
         match cr_session_id row with Some s => negb (s =? as_id agent) | None => false end
      then Raise (ValueError "Start reservation cannot be rebound")
      else Ok (tt, set_sessions (update_where (λ s, as_id s =? as_id agent)
                                   (session_set_tier (cr_tier row)))
                     (put_permit (permit_bind (as_id agent) row) db))
  end.

Definition claim_request (agent : AgentSession) (pending : PendingMessage) (db : ADB) : StartRequest :=
  let existing := reservation db (as_local_session_id agent) (pm_seq pending) in
  let initial := match existing with
                 | Some p => Some p
                 | None => reservation db (as_local_session_id agent) 1
                 end in
  mkStartRequest (as_local_session_id agent) (as_admission_tier agent)
    (or_text (pm_model pending) (as_model agent)) (pm_seq pending) None None 0
    (p ← initial; cr_routine_job_name p).

Definition claim_pending `{Environ, AdmissionHooks} (agent : AgentSession)
    (pending : PendingMessage) (owner : string) : tx ADB bool := λ db,
  if is_set (as_result_receipt_fence_id agent) || cleanup_pending db agent
  then Ok (false, db) else
  '(granted, db) ← reserve_start (claim_request agent pending db) db;
  if negb granted then Ok (false, db) else
  match reservation db (as_local_session_id agent) (pm_seq pending) with
  | Some row => Ok (true, put_permit (permit_claim (as_id agent) owner row) db)
  | None => Raise TypeError
  end.

(** ** The fence before a side effect *)

Definition may_run `{AdmissionHooks} (db : ADB) (row : Permit) (pending : option PendingMessage)
    (agent : option AgentSession) (session_id : Z) (owner : string) (workload : option string)
    : bool :=
  str_in (cr_state row) ["reserved"; "running"] && bool_decide (cr_owner row = Some owner) &&
  match pending with
  | Some m => bool_decide (pm_claimed_by_replica m = Some owner)
  | None => false
  end &&
  match agent with
  | Some s => negb (str_in (as_status s) ["failed"; "awaiting_login"]) &&
              negb (is_set (as_result_receipt_fence_id s)) && negb (cleanup_pending db s)
  | None => false
  end &&
  negb (has_unknown_turn db session_id) &&
  match workload with
  | Some w => match cr_workload row with Some w' => bool_decide (w' = w) | None => true end
  | None => true
  end &&
  may_dispatch db row.

Definition recheck `{AdmissionHooks} (session_id seq : Z) (owner : string)
    (workload : option string) : tx ADB bool := λ db,
  let row := find_first (λ p, bool_decide (cr_session_id p = Some session_id) &&
                              (cr_pending_seq p =? seq)) (a_permits db) in
  let pending := find_first (λ m, (pm_session_id m =? session_id) && (pm_seq m =? seq))
                   (a_pending db) in
  let agent := find_first (λ s, as_id s =? session_id) (a_sessions db) in
  match row with
  | Some row =>
      if may_run db row pending agent session_id owner workload
      then Ok (true, put_permit (permit_run workload row) db) else Ok (false, db)
  | None => Ok (false, db)
  end.

Definition recheck_prewarm `{AdmissionHooks} (session_id : Z) : tx ADB bool := λ db,
  match find_first (λ p, bool_decide (cr_session_id p = Some session_id) &&
                         str_in (cr_state p) ["reserved"; "running"] && is_set (cr_owner p))
          (a_permits db) with
  | Some row =>
      match cr_owner row with
      | Some owner => recheck session_id (cr_pending_seq row) owner None db
      | None => Ok (false, db)
      end
  | None => Ok (false, db)
  end.

(** ** Settling *)

Definition settle (agent : AgentSession) (seq : Z) (outcome : option string) (cessation_confirmed : bool)
    (db : ADB) : ADB :=
  let '(row, db) := _adopt agent seq "uncertain" None None db in
  if bool_decide (cr_state row = "settled"%string) then db
  else put_permit (permit_close (if cessation_confirmed then "settled" else "uncertain") outcome
                     (if cessation_confirmed then Some (a_now db) else None) row) db.

Definition cancel_unbound (local_session_id : string) (seq : Z) (outcome : string)
    : tx ADB bool := λ db,
  match reservation db local_session_id seq with
  | Some row =>
      if negb (bool_decide (cr_state row = "reserved"%string)) || is_set (cr_session_id row) ||
         existsb (λ s, bool_decide (as_local_session_id s = local_session_id)) (a_sessions db)
      then Ok (false, db)
      else Ok (true, put_permit (permit_close "settled" (Some outcome) (Some (a_now db)) row) db)
  | None => Ok (false, db)
  end.

Definition reserved_routine_jobs (db : ADB) : list string :=
  remove_dups (omap cr_routine_job_name
    (filter (λ p, _operator_recomputation p = false) (active db))).

Definition confirm_guest_cessation (agent : AgentSession) (db : ADB) : ADB :=
  let unknown := filter (λ t, tu_session_id t = as_id agent ∧
                              tu_stop_reason t = Some UNKNOWN_INVOCATION) (a_turns db) in
  let db := foldl (λ db t, (_adopt agent (tu_seq t) "uncertain" None None db).2) db unknown in
  let rows := filter (λ p, cr_session_id p = Some (as_id agent) ∧ cr_state p = "uncertain"%string)
                (a_permits db) in
  foldl (λ db p, settle agent (cr_pending_seq p) (Some "guest_cessation_confirmed"%string) true db) db rows.

Definition text_set (o : option string) : bool :=
  match o with Some s => negb (bool_decide (s = ""%string)) | None => false end.

Definition cancel_unattempted (agent : AgentSession) (pending : PendingMessage)
    : tx ADB bool := λ db,
  if negb (pm_session_id pending =? as_id agent) || negb (pm_dispatch_count pending =? 0) ||
     is_set (pm_claimed_by_replica pending) || is_set (pm_last_dispatch_at pending) ||
     text_set (pm_partial_text pending) || text_set (pm_partial_activities pending)
  then Ok (false, db) else
  match reservation db (as_local_session_id agent) (pm_seq pending) with
  | None => Ok (true, db)
  | Some row =>
      if negb (bool_decide (cr_state row = "reserved"%string)) || is_set (cr_owner row)
      then Ok (false, db)
      else Ok (true, settle agent (pm_seq pending) (Some "cancelled_before_dispatch"%string) true db)
  end.
