(* ===== verification/AdmissionInvariant.v ===== *)
(** * Execution permits: the pool invariant

    One permit per start, and how a permit may evolve: its identity is fixed,
    its state only moves forward, and a settled permit never changes.  A start
    that is not settled holds capacity; the stronger relation says that an
    operation keeps every held permit held.  Then adoption, counting and release. *)

From stdpp Require Import prelude list strings pretty relations.
From S2P Require Import Prelude PyValue Admission.
Local Open Scope Z_scope.

Definition permit_key (p : Permit) : string * Z := (cr_local_session_id p, cr_pending_seq p).

(** reserved, running, uncertain, settled. *)
Definition STATES : list string := ["reserved"; "running"; "uncertain"; "settled"].
Definition rank (s : string) : Z :=
  if bool_decide (s = "reserved"%string) then 0
  else if bool_decide (s = "running"%string) then 1
  else if bool_decide (s = "uncertain"%string) then 2 else 3.

Record permit_step (p p' : Permit) : Prop := {
  ps_id : cr_id p' = cr_id p;
  ps_key : permit_key p' = permit_key p;
  ps_tier : cr_tier p' = cr_tier p;
  ps_daily : cr_daily_key p' = cr_daily_key p;
  ps_routine : cr_routine_job_name p' = cr_routine_job_name p;
  ps_created : cr_created_at p' = cr_created_at p;
  ps_rank : rank (cr_state p) ≤ rank (cr_state p');
  ps_settled : cr_state p = "settled"%string → p' = p;
}.

(** A step that does not free the capacity the permit holds. *)
Record held_step (p p' : Permit) : Prop := {
  hs_step : permit_step p p';
  hs_held : cr_state p ≠ "settled"%string → cr_state p' ≠ "settled"%string;
}.

#[export] Instance permit_step_preorder : PreOrder permit_step.
Proof.
  split; [by intros p; split|]. intros p1 p2 p3 [] []. split; try congruence; try lia.
  intros Hs. specialize (ps_settled0 Hs) as ->. auto.
Qed.

#[export] Instance held_step_preorder : PreOrder held_step.
Proof.
  split; [by intros p; split|]. intros p1 p2 p3 [? ?] [? ?]. split; [by etrans|auto].
Qed.

Record pool_ok (db : ADB) : Prop := {
  po_keys : NoDup (permit_key <$> a_permits db);
  po_states : ∀ p, p ∈ a_permits db → cr_state p ∈ STATES;
  po_settled_at : ∀ p, p ∈ a_permits db → cr_state p = "settled"%string ↔ is_Some (cr_settled_at p);
}.

(** Every permit is still there, related by [R]; new ones may follow. *)
Definition permit_rel (R : relation Permit) (db db' : ADB) : Prop :=
  ∃ g extra, a_permits db' = (g <$> a_permits db) ++ extra ∧ ∀ p, p ∈ a_permits db → R p (g p).

Definition pool_step_ok (R : relation Permit) (db db' : ADB) : Prop :=
  pool_ok db → pool_ok db' ∧ permit_rel R db db'.

Section steps.
Context (R : relation Permit) `{!PreOrder R}.

Lemma permit_rel_same db db' : a_permits db' = a_permits db → permit_rel R db db'.
Proof.
  intros H. exists id, []. rewrite list_fmap_id, app_nil_r. split; [done|]. by intros p _.
Qed.

Lemma pool_step_refl db : pool_step_ok R db db.
Proof. intros Hok. split; [done|]. by apply permit_rel_same. Qed.

Lemma pool_step_trans db1 db2 db3 :
  pool_step_ok R db1 db2 → pool_step_ok R db2 db3 → pool_step_ok R db1 db3.
Proof.
  intros H12 H23 Hok. destruct (H12 Hok) as [Hok2 (g1 & x1 & H1 & Hg1)].
  destruct (H23 Hok2) as [Hok3 (g2 & x2 & H2 & Hg2)]. split; [done|].
  exists (g2 ∘ g1), ((g2 <$> x1) ++ x2). split.
  - by rewrite H2, H1, fmap_app, list_fmap_compose, <-app_assoc.
  - intros p Hp. etrans; [by apply Hg1|]. apply Hg2. rewrite H1. apply elem_of_app. left.
    by apply list_elem_of_fmap_2.
Qed.

Lemma pool_frame_ok db db' : a_permits db' = a_permits db → pool_step_ok R db db'.
Proof.
  intros H [H1 H2 H3]. split; [|by apply permit_rel_same]. by split; rewrite ?H.
Qed.

Lemma pool_fold_ok {A} (f : ADB → A → ADB) l db :
  (∀ db x, x ∈ l → pool_step_ok R db (f db x)) → pool_step_ok R db (foldl f db l).
Proof.
  revert db. induction l as [|x l IH]; intros db Hf; [apply pool_step_refl|]. simpl.
  eapply pool_step_trans; [apply Hf; constructor|]. apply IH. intros. apply Hf. by constructor.
Qed.
End steps.

(** ** Primitive writes *)

Lemma is_permit_spec k s p : is_permit k s p = true ↔ permit_key p = (k, s).
Proof.
  unfold is_permit, permit_key. rewrite andb_true_iff, bool_decide_eq_true, Z.eqb_eq. naive_solver.
Qed.

Lemma reservation_Some db k s p :
  reservation db k s = Some p → p ∈ a_permits db ∧ permit_key p = (k, s).
Proof. unfold reservation. by intros [? ?%is_permit_spec]%find_first_Some. Qed.

Lemma reservation_None db k s :
  reservation db k s = None ↔ (k, s) ∉ permit_key <$> a_permits db.
Proof.
  unfold reservation. rewrite find_first_None, list_elem_of_fmap. split.
  - intros H (p & Hk & Hp). specialize (H p Hp).
    by rewrite (proj2 (is_permit_spec k s p)) in H.
  - intros H p Hp. apply not_true_iff_false. rewrite is_permit_spec. intros Hk. apply H. eauto.
Qed.

Lemma put_permit_ok (R : relation Permit) `{!PreOrder R} p p' db :
  reservation db (cr_local_session_id p') (cr_pending_seq p') = Some p → R p p' →
  cr_state p' ∈ STATES → (cr_state p' = "settled"%string ↔ is_Some (cr_settled_at p')) →
  pool_step_ok R db (put_permit p' db).
Proof.
  intros Hres HR Hst Hat [H1 H2 H3]. destruct (reservation_Some _ _ _ _ Hres) as [Hp Hk].
  assert (∀ x, x ∈ a_permits db →
    is_permit (cr_local_session_id p') (cr_pending_seq p') x = true → x = p) as Huniq.
  { intros x Hx E%is_permit_spec. eapply NoDup_fmap_elem; [exact H1|done|done|congruence]. }
  split.
  - split; simpl.
    + rewrite update_where_fmap; [done|]. intros x _ E%is_permit_spec. by rewrite E.
    + intros x (y & Hy & ->)%elem_of_update_where. case_match; auto.
    + intros x (y & Hy & ->)%elem_of_update_where. case_match; auto.
  - exists (λ x, if is_permit (cr_local_session_id p') (cr_pending_seq p') x then p' else x), [].
    rewrite app_nil_r. split; [done|]. intros x Hx. destruct (is_permit _ _ x) eqn:E; [|done].
    by rewrite (Huniq x Hx E).
Qed.

Lemma append_permit_ok (R : relation Permit) `{!PreOrder R} p db :
  reservation db (cr_local_session_id p) (cr_pending_seq p) = None →
  cr_state p ∈ STATES → cr_state p ≠ "settled"%string → cr_settled_at p = None →
  pool_step_ok R db (set_permits (λ ps, ps ++ [p]) db).
Proof.
  intros Hres Hst Hne Hat [H1 H2 H3]. apply reservation_None in Hres. split.
  - split; simpl.
    + rewrite fmap_app. apply NoDup_app. split; [done|]. split; [|apply NoDup_singleton].
      by intros x Hx ->%list_elem_of_singleton.
    + intros x [Hx|Hx]%elem_of_app; [auto|]. by apply list_elem_of_singleton in Hx as ->.
    + intros x [Hx|Hx]%elem_of_app; [auto|]. apply list_elem_of_singleton in Hx as ->.
      rewrite Hat. split; [done|by intros []].
  - exists id, [p]. rewrite list_fmap_id. split; [done|]. by intros.
Qed.

Lemma reservation_append db k s p :
  reservation (set_permits (λ ps, ps ++ [p]) db) k s =
  match reservation db k s with
  | Some q => Some q
  | None => if is_permit k s p then Some p else None
  end.
Proof.
  unfold reservation. simpl. induction (a_permits db) as [|x l IH]; simpl; [done|].
  by destruct (is_permit k s x).
Qed.

(** ** Operations *)

Section operations.
Context (R : relation Permit) `{!PreOrder R}.

Lemma adopt_ok agent seq state owner model db row db' :
  _adopt agent seq state owner model db = (row, db') → state ∈ STATES → state ≠ "settled"%string →
  pool_step_ok R db db' ∧ reservation db' (as_local_session_id agent) seq = Some row ∧
  permit_key row = (as_local_session_id agent, seq) ∧ a_now db' = a_now db ∧
  a_sessions db' = a_sessions db ∧ a_pending db' = a_pending db ∧ a_turns db' = a_turns db.
Proof.
  unfold _adopt. intros Ha Hst Hne.
  destruct (reservation db (as_local_session_id agent) seq) as [p|] eqn:E.
  - injection Ha as <- <-. split; [by apply pool_step_refl|].
    destruct (reservation_Some _ _ _ _ E). done.
  - injection Ha as <- <-. split; [by apply append_permit_ok|].
    rewrite reservation_append, E. split; [|done].
    by rewrite (proj2 (is_permit_spec _ _ _)).
Qed.

Lemma adopt_step_ok agent seq state owner model db :
  state ∈ STATES → state ≠ "settled"%string →
  pool_step_ok R db (_adopt agent seq state owner model db).2.
Proof.
  intros Hst Hne. destruct (_adopt agent seq state owner model db) as [row d'] eqn:E.
  exact (proj1 (adopt_ok _ _ _ _ _ _ _ _ E Hst Hne)).
Qed.

Lemma adopt_existing_ok db : pool_step_ok R db (adopt_existing db).
Proof.
  refine (pool_step_trans R _ _ _ (pool_fold_ok R _ _ _ _) (pool_fold_ok R _ _ _ _));
    intros d [] _; (apply adopt_step_ok; [decide_in|done]).
Qed.

Lemma reserve_start_verdict_ok `{Environ, AdmissionHooks} q db v db' :
  reserve_start_verdict q db = Ok (v, db') → pool_step_ok R db db'.
Proof.
  unfold reserve_start_verdict. destruct (_ || _); [done|].
  destruct (match find_first _ _ with Some _ => _ | None => _ end).
  { intros [= _ <-]. by apply pool_step_refl. }
  set (db1 := adopt_existing db). assert (pool_step_ok R db db1) as Hst by apply adopt_existing_ok.
  destruct (reservation db1 _ _) as [p|] eqn:E; [by intros [= _ <-]|].
  intros (refusal & _ & Hs)%res_bind_ok.
  destruct refusal; injection Hs as _ <-; [done|].
  eapply (pool_step_trans R); [exact Hst|].
  apply (append_permit_ok R); [exact E|decide_in|done|done].
Qed.
End operations.

(** Rewriting the row of a permit whose state and settlement stay. *)
Lemma put_same_state p p' db :
  reservation db (cr_local_session_id p') (cr_pending_seq p') = Some p → permit_step p p' →
  cr_state p' = cr_state p → cr_settled_at p' = cr_settled_at p →
  pool_step_ok held_step db (put_permit p' db).
Proof.
  intros Hres Hs Hst Hat Hok. destruct (reservation_Some _ _ _ _ Hres) as [Hp _].
  eapply put_permit_ok; [apply _|exact Hres| | | |done].
  - split; [done|]. by rewrite Hst.
  - rewrite Hst. by apply Hok.
  - rewrite Hst, Hat. by apply Hok.
Qed.

Lemma bind_session_ok agent db u db' :
  bind_session agent db = Ok (u, db') → pool_step_ok held_step db db'.
Proof.
  unfold bind_session. destruct (reservation db _ 1) as [p|] eqn:E.
  2: { intros [= _ <-]. apply pool_step_refl, _. }
  destruct (_ || _) eqn:Hc; [done|]. intros [= _ <-]. apply orb_false_iff in Hc as [Hs _].
  apply negb_false_iff, bool_decide_eq_true in Hs.
  destruct (reservation_Some _ _ _ _ E) as [_ Hk]. injection Hk as Hk1 Hk2.
  apply (pool_step_trans held_step _ (put_permit (permit_bind (as_id agent) p) db));
    [|by apply (pool_frame_ok held_step)].
  apply (put_same_state p); simpl; [by rewrite Hk1, Hk2| |done|done].
  split; simpl; try done. by rewrite Hs.
Qed.

Section claims_of_capacity.
Context `{Environ, AdmissionHooks}.

(** What a granted start leaves behind: its permit, reserved or running. *)
Lemma granted_permit q db db' :
  reserve_start_verdict q db = Ok (None, db') →
  ∃ p, reservation db' (sr_local_session_id q) (sr_pending_seq q) = Some p ∧ same_start q p = true.
Proof.
  unfold reserve_start_verdict. destruct (_ || _); [done|].
  destruct (match find_first _ _ with Some _ => _ | None => _ end); [done|].
  destruct (reservation (adopt_existing db) _ _) as [p|] eqn:E.
  - destruct (same_start q p) eqn:Hs; intros [= <-]. eauto.
  - intros (refusal & _ & Hs)%res_bind_ok. destruct refusal; [discriminate|]. injection Hs as <-.
    exists (new_permit (adopt_existing db) q). rewrite reservation_append, E.
    rewrite (proj2 (is_permit_spec _ _ _)) by done. split; [done|].
    unfold same_start. simpl. rewrite !bool_decide_eq_true_2 by done. done.
Qed.

Lemma same_start_state q p :
  same_start q p = true → cr_state p = "reserved"%string ∨ cr_state p = "running"%string.
Proof.
  unfold same_start. rewrite !andb_true_iff. intros [_ Hs%bool_decide_eq_true].
  rewrite !elem_of_cons, elem_of_nil in Hs. naive_solver.
Qed.

Lemma claim_pending_ok agent m owner db b db' :
  claim_pending agent m owner db = Ok (b, db') → pool_step_ok held_step db db'.
Proof.
  unfold claim_pending, reserve_start. destruct (_ || _).
  { intros [= _ <-]. apply pool_step_refl, _. }
  set (q := claim_request agent m db).
  destruct (reserve_start_verdict q db) as [[v db1]|] eqn:Hv; cbn [mbind res_bind]; [|done].
  pose proof (reserve_start_verdict_ok held_step q db v db1 Hv) as Hst.
  destruct v as [reason|]; simpl; [by intros [= _ <-]|].
  destruct (granted_permit q db db1 Hv) as (p & Hp & Hsame). simpl in Hp. rewrite Hp.
  intros [= _ <-]. eapply (pool_step_trans held_step); [exact Hst|].
  destruct (reservation_Some _ _ _ _ Hp) as [_ Hk]. injection Hk as Hk1 Hk2.
  apply (put_same_state p); simpl; [by rewrite Hk1, Hk2| |done|done].
  split; simpl; try done. by destruct (same_start_state q p Hsame) as [-> | ->].
Qed.

Lemma recheck_ok sid seq owner w db b db' :
  recheck sid seq owner w db = Ok (b, db') → pool_step_ok held_step db db'.
Proof.
  unfold recheck. destruct (find_first _ (a_permits db)) as [p|] eqn:E.
  2: { intros [= _ <-]. apply pool_step_refl, _. }
  destruct (may_run db p _ _ _ _ _) eqn:Hm.
  2: { intros [= _ <-]. apply pool_step_refl, _. }
  intros [= _ <-] Hok. apply find_first_Some in E as [Hp _].
  unfold may_run in Hm. rewrite !andb_true_iff in Hm. destruct Hm as [[[[[[Hs _] _] _] _] _] _].
  apply bool_decide_eq_true in Hs. rewrite !elem_of_cons, elem_of_nil in Hs.
  assert (reservation db (cr_local_session_id p) (cr_pending_seq p) = Some p) as Hres.
  { destruct (reservation db _ _) as [x|] eqn:Hx.
    - destruct (reservation_Some _ _ _ _ Hx) as [Hin Hk]. f_equal.
      by eapply NoDup_fmap_elem; [apply (po_keys _ Hok)|..].
    - apply reservation_None in Hx. destruct Hx. by apply (list_elem_of_fmap_2 permit_key _ p). }
  assert (cr_state p ≠ "settled"%string) as Hns
    by (destruct Hs as [Hs|[Hs|[]]]; by rewrite Hs).
  assert (cr_settled_at p = None) as Hat.
  { destruct (cr_settled_at p) eqn:Ha; [|done]. destruct Hns. apply (po_settled_at _ Hok p Hp).
    rewrite Ha. eauto. }
  eapply (put_permit_ok held_step p); simpl; [done| |decide_in|rewrite Hat; split; [done|by intros []]|done].
  split; [split|]; simpl; try done. by destruct Hs as [-> |[-> |[]]].
Qed.

Lemma recheck_prewarm_ok sid db b db' :
  recheck_prewarm sid db = Ok (b, db') → pool_step_ok held_step db db'.
Proof.
  unfold recheck_prewarm. destruct (find_first _ _) as [p|].
  2: { intros [= _ <-]. apply pool_step_refl, _. }
  destruct (cr_owner p); [apply recheck_ok|]. intros [= _ <-]. apply pool_step_refl, _.
Qed.
End claims_of_capacity.

(** ** Settling *)

Lemma settle_ok (R : relation Permit) `{!PreOrder R} agent seq outcome (confirmed : bool) db :
  (∀ p p' : Permit, cr_state p ≠ "settled"%string → permit_step p p' →
     cr_state p' = (if confirmed then "settled" else "uncertain" : string) → R p p') →
  pool_step_ok R db (settle agent seq outcome confirmed db).
Proof.
  intros HR. unfold settle. destruct (_adopt agent seq _ _ _ db) as [row db1] eqn:E.
  destruct (adopt_ok R _ _ _ _ _ _ _ _ E) as (Hst & Hres & Hk & _); [decide_in|done|].
  case_bool_decide as Hs; [done|]. eapply (pool_step_trans R); [exact Hst|]. intros Hok.
  pose proof (reservation_Some _ _ _ _ Hres) as [Hp _]. pose proof (po_states _ Hok row Hp) as Hin.
  injection Hk as Hk1 Hk2.
  eapply (put_permit_ok R row); simpl; [by rewrite Hk1, Hk2| | | |done].
  - apply HR; [done| |done]. split; simpl; try done. unfold STATES in Hin.
    rewrite !elem_of_cons, elem_of_nil in Hin.
    destruct Hin as [E1|[E1|[E1|[E1|[]]]]]; try done; rewrite E1; by destruct confirmed.
  - destruct confirmed; decide_in.
  - destruct confirmed; (split; [by eauto|]); [done|by intros []].
Qed.

Lemma settle_permit_ok agent seq outcome confirmed db :
  pool_step_ok permit_step db (settle agent seq outcome confirmed db).
Proof. by apply settle_ok; [apply _|]. Qed.

(** Without confirmed cessation nothing is freed. *)
Lemma settle_held_ok agent seq outcome db :
  pool_step_ok held_step db (settle agent seq outcome false db).
Proof. apply settle_ok; [apply _|]. intros p p' Hn Hs Hst. split; [done|]. by rewrite Hst. Qed.

Lemma cancel_unbound_ok k seq outcome db b db' :
  cancel_unbound k seq outcome db = Ok (b, db') → pool_step_ok permit_step db db'.
Proof.
  unfold cancel_unbound. destruct (reservation db k seq) as [p|] eqn:E.
  2: { intros [= _ <-]. apply pool_step_refl, _. }
  destruct (_ || _) eqn:Hc; intros [= _ <-]; [apply pool_step_refl, _|].
  rewrite !orb_false_iff in Hc. destruct Hc as [[Hs _] _].
  apply negb_false_iff, bool_decide_eq_true in Hs.
  destruct (reservation_Some _ _ _ _ E) as [_ Hk]. injection Hk as Hk1 Hk2.
  eapply (put_permit_ok permit_step p); simpl; [by rewrite Hk1, Hk2| |decide_in|by split; eauto].
  split; simpl; try done; by rewrite Hs.
Qed.

Lemma confirm_guest_cessation_ok agent db :
  pool_step_ok permit_step db (confirm_guest_cessation agent db).
Proof.
  refine (pool_step_trans permit_step _ _ _ (pool_fold_ok permit_step _ _ _ _)
            (pool_fold_ok permit_step _ _ _ _)); intros d x _.
  - apply (adopt_step_ok permit_step); [decide_in|done].
  - apply settle_permit_ok.
Qed.

Lemma cancel_unattempted_ok agent m db b db' :
  cancel_unattempted agent m db = Ok (b, db') → pool_step_ok permit_step db db'.
Proof.
  unfold cancel_unattempted. destruct (_ || _); [intros [= _ <-]; apply pool_step_refl, _|].
  destruct (reservation db _ _) as [p|]; [|intros [= _ <-]; apply pool_step_refl, _].
  destruct (_ || _); intros [= _ <-]; [apply pool_step_refl, _|apply settle_permit_ok].
Qed.

(** * Execution permits: adoption, counting and release

    Lemmas behind the admission theorems: adoption is idempotent, the counts of
    held capacity after an append, and the pass that settles the uncertain
    permits of a dead guest. *)

(** ** Limits *)

Lemma limit_pos `{Environ} name d : 1 ≤ d → 1 ≤ _limit name d.
Proof. intros Hd. unfold _limit. repeat case_match; lia. Qed.

(** ** Adoption is idempotent *)

(** Everything but the permits, which adoption and reservation never write. *)
Definition same_world (db db' : ADB) : Prop :=
  a_sessions db' = a_sessions db ∧ a_pending db' = a_pending db ∧
  a_turns db' = a_turns db ∧ a_now db' = a_now db.

#[export] Instance same_world_preorder : PreOrder same_world.
Proof.
  split; [done|]. unfold same_world. intros d1 d2 d3 (?&?&?&?) (?&?&?&?).
  repeat split; by etrans.
Qed.

Lemma adopt_world agent seq st o m db : same_world db (_adopt agent seq st o m db).2.
Proof. unfold _adopt. by destruct (reservation _ _ _). Qed.

Lemma adopt_present agent seq st o m db :
  is_Some (reservation db (as_local_session_id agent) seq) → (_adopt agent seq st o m db).2 = db.
Proof. intros [p Hp]. unfold _adopt. by rewrite Hp. Qed.

Lemma adopt_grows agent seq st o m db k s :
  is_Some (reservation db k s) → is_Some (reservation (_adopt agent seq st o m db).2 k s).
Proof.
  intros [p Hp]. unfold _adopt. destruct (reservation db (as_local_session_id agent) seq); [eauto|].
  simpl. rewrite reservation_append, Hp. eauto.
Qed.

Lemma adopt_covers agent seq st o m db :
  is_Some (reservation (_adopt agent seq st o m db).2 (as_local_session_id agent) seq).
Proof.
  unfold _adopt. destruct (reservation db _ seq) as [p|] eqn:E; simpl; [rewrite E; eauto|].
  rewrite reservation_append, E, (proj2 (is_permit_spec _ _ _)) by done. eauto.
Qed.

Section adopt_fold.
Context {A : Type} (ag : A → AgentSession) (sq : A → Z) (f : ADB → A → ADB).
Hypothesis f_adopts : ∀ db x, ∃ st o m, f db x = (_adopt (ag x) (sq x) st o m db).2.

Lemma adopt_fold_world l db : same_world db (foldl f db l).
Proof.
  revert db. induction l as [|x l IH]; intros db; [done|]. simpl. etrans; [|apply IH].
  destruct (f_adopts db x) as (st & o & m & ->). apply adopt_world.
Qed.

Lemma adopt_fold_grows l db k s :
  is_Some (reservation db k s) → is_Some (reservation (foldl f db l) k s).
Proof.
  revert db. induction l as [|x l IH]; intros db Hs; [done|]. apply IH.
  destruct (f_adopts db x) as (st & o & m & ->). by apply adopt_grows.
Qed.

Lemma adopt_fold_covers l db x :
  x ∈ l → is_Some (reservation (foldl f db l) (as_local_session_id (ag x)) (sq x)).
Proof.
  revert db. induction l as [|y l IH]; intros db; [by intros ?%elem_of_nil|].
  intros [->|Hx]%elem_of_cons; [|by apply IH]. simpl. apply adopt_fold_grows.
  destruct (f_adopts db y) as (st & o & m & ->). apply adopt_covers.
Qed.

Lemma adopt_fold_id l db :
  (∀ x, x ∈ l → is_Some (reservation db (as_local_session_id (ag x)) (sq x))) → foldl f db l = db.
Proof.
  induction l as [|x l IH]; intros Hl; [done|]. simpl.
  destruct (f_adopts db x) as (st & o & m & ->).
  rewrite adopt_present by (apply Hl; constructor). apply IH. intros. apply Hl. by constructor.
Qed.
End adopt_fold.

(** Every attempted message and every unconfirmed turn has its permit. *)
Definition adopted (db : ADB) : Prop :=
  (∀ x, x ∈ attempted_pairs db → is_Some (reservation db (as_local_session_id x.1) (pm_seq x.2))) ∧
  (∀ x, x ∈ unconfirmed_pairs db → is_Some (reservation db (as_local_session_id x.1) (tu_seq x.2))).

Lemma unconfirmed_pairs_world db db' :
  same_world db db' → unconfirmed_pairs db' = unconfirmed_pairs db.
Proof.
  intros (Hs & _ & Ht & _). destruct db, db'. simpl in *. subst. done.
Qed.

Lemma attempted_pairs_world db db' : same_world db db' → attempted_pairs db' = attempted_pairs db.
Proof. intros (Hs & Hp & _). unfold attempted_pairs. by rewrite Hs, Hp. Qed.

Lemma adopt_existing_world db : same_world db (adopt_existing db).
Proof.
  unfold adopt_existing.
  etrans; [apply (adopt_fold_world fst (λ x, pm_seq x.2))|apply (adopt_fold_world fst (λ x, tu_seq x.2))];
    intros; do 3 eexists; reflexivity.
Qed.

Lemma adopt_existing_adopted db : adopted (adopt_existing db).
Proof.
  set (f1 := λ db (p : AgentSession * PendingMessage),
    (_adopt p.1 (pm_seq p.2) "running" (pm_claimed_by_replica p.2) (pm_model p.2) db).2).
  set (f2 := λ db (p : AgentSession * AgentTurn),
    (_adopt p.1 (tu_seq p.2) "uncertain" None None db).2).
  assert (∀ db x, ∃ st o m, f1 db x = (_adopt x.1 (pm_seq x.2) st o m db).2) as H1
    by (intros; do 3 eexists; reflexivity).
  assert (∀ db x, ∃ st o m, f2 db x = (_adopt x.1 (tu_seq x.2) st o m db).2) as H2
    by (intros; do 3 eexists; reflexivity).
  pose proof (adopt_existing_world db) as Hw. split; intros x Hx.
  - rewrite (attempted_pairs_world db) in Hx by done. unfold adopt_existing.
    apply (adopt_fold_grows _ _ _ H2). by apply (adopt_fold_covers _ _ _ H1).
  - rewrite (unconfirmed_pairs_world db) in Hx by done. unfold adopt_existing.
    apply (adopt_fold_covers _ _ _ H2).
    by rewrite (unconfirmed_pairs_world db) by (apply (adopt_fold_world _ _ _ H1)).
Qed.

Lemma adopted_fixpoint db : adopted db → adopt_existing db = db.
Proof.
  intros [H1 H2]. unfold adopt_existing.
  rewrite (adopt_fold_id fst (λ x, pm_seq x.2)); [|intros; do 3 eexists; reflexivity|exact H1].
  apply (adopt_fold_id fst (λ x, tu_seq x.2)); [intros; do 3 eexists; reflexivity|exact H2].
Qed.

Lemma adopted_append db p : adopted db → adopted (set_permits (λ ps, ps ++ [p]) db).
Proof.
  assert (same_world db (set_permits (λ ps, ps ++ [p]) db)) as Hw by done.
  intros [H1 H2]. split; intros x Hx.
  - rewrite (attempted_pairs_world db) in Hx by done. rewrite reservation_append.
    destruct (H1 x Hx) as [q ->]. eauto.
  - rewrite (unconfirmed_pairs_world db) in Hx by done. rewrite reservation_append.
    destruct (H2 x Hx) as [q ->]. eauto.
Qed.

(** ** Cleanup fences read the sessions only *)

Lemma cleanup_pending_world db db' agent :
  a_sessions db' = a_sessions db → cleanup_pending db' agent = cleanup_pending db agent.
Proof. intros H. unfold cleanup_pending, guest_has_cleanup_claim. by rewrite H. Qed.

(** The fence in front of a start. *)
Definition start_blocked (db : ADB) (k : string) : bool :=
  match find_first (λ s, bool_decide (as_local_session_id s = k)) (a_sessions db) with
  | Some agent => cleanup_pending db agent
  | None => false
  end.

Lemma start_blocked_world db db' k :
  a_sessions db' = a_sessions db → start_blocked db' k = start_blocked db k.
Proof.
  intros H. unfold start_blocked. rewrite H. case_match; [|done]. by apply cleanup_pending_world.
Qed.

(** ** Held capacity *)

Lemma count_app {A} (l1 l2 : list A) : count (l1 ++ l2) = count l1 + count l2.
Proof. unfold count. rewrite length_app. lia. Qed.

Lemma active_append db p :
  cr_state p ≠ "settled"%string →
  active (set_permits (λ ps, ps ++ [p]) db) = active db ++ [p].
Proof.
  intros Hp. unfold active. simpl. rewrite filter_app. f_equal. by rewrite filter_cons_True.
Qed.

Lemma background_app l1 l2 : background (l1 ++ l2) = background l1 ++ background l2.
Proof. apply filter_app. Qed.

Lemma kg_app l1 l2 : kg (l1 ++ l2) = kg l1 ++ kg l2.
Proof. apply filter_app. Qed.

Lemma held_count (g : Permit → Permit) l extra :
  (∀ p, p ∈ l → held_step p (g p)) →
  (length (filter (λ p, cr_state p ≠ "settled"%string) l) ≤
   length (filter (λ p, cr_state p ≠ "settled"%string) ((g <$> l) ++ extra)))%nat.
Proof.
  induction l as [|p l IH]; intros Hg; [simpl; lia|].
  rewrite fmap_cons, <-app_comm_cons. assert (held_step p (g p)) as [_ Hp] by (apply Hg; constructor).
  assert (∀ x, x ∈ l → held_step x (g x)) as Hl by (intros; apply Hg; by constructor).
  specialize (IH Hl). rewrite !filter_cons. repeat case_decide; rewrite ?length_cons; try tauto; lia.
Qed.

(** ** Settling the uncertain permits of a session *)

(** What a confirmed settlement leaves of a permit. *)
Definition close_permit (db : ADB) (p : Permit) : Permit :=
  permit_close "settled" (Some "guest_cessation_confirmed"%string) (Some (a_now db)) p.

Definition settle_all (agent : AgentSession) (rows : list Permit) (db : ADB) : ADB :=
  foldl (λ db p, settle agent (cr_pending_seq p) (Some "guest_cessation_confirmed"%string) true db) db rows.

Lemma reservation_elem db p :
  NoDup (permit_key <$> a_permits db) → p ∈ a_permits db →
  reservation db (cr_local_session_id p) (cr_pending_seq p) = Some p.
Proof.
  intros Hnd Hp. destruct (reservation db _ _) as [x|] eqn:Hx.
  - destruct (reservation_Some _ _ _ _ Hx) as [Hin Hk]. f_equal.
    by eapply NoDup_fmap_elem; [exact Hnd|..].
  - apply reservation_None in Hx. destruct Hx. by apply (list_elem_of_fmap_2 permit_key _ p).
Qed.

Lemma settle_uncertain agent p db :
  NoDup (permit_key <$> a_permits db) → p ∈ a_permits db → cr_state p = "uncertain"%string →
  cr_local_session_id p = as_local_session_id agent →
  settle agent (cr_pending_seq p) (Some "guest_cessation_confirmed"%string) true db =
  set_permits (fmap (λ x, if bool_decide (permit_key x = permit_key p)
                          then close_permit db x else x)) db.
Proof.
  intros Hnd Hp Hst Hk. unfold settle, _adopt.
  rewrite <-Hk, (reservation_elem db p Hnd Hp), bool_decide_eq_false_2 by (by rewrite Hst).
  unfold put_permit, set_permits. f_equal. unfold update_where. apply list_fmap_ext.
  intros i x Hx%list_elem_of_lookup_2. simpl. case_bool_decide as Hc.
  - rewrite (proj2 (is_permit_spec _ _ _)) by done. unfold close_permit.
    by rewrite (NoDup_fmap_elem permit_key _ x p Hnd Hx Hp Hc).
  - by rewrite (not_true_is_false _ (λ E, Hc (proj1 (is_permit_spec _ _ _) E))).
Qed.

Lemma settle_all_spec agent rows db :
  NoDup (permit_key <$> a_permits db) → NoDup (permit_key <$> rows) →
  (∀ p, p ∈ rows → p ∈ a_permits db ∧ cr_state p = "uncertain"%string ∧
        cr_local_session_id p = as_local_session_id agent) →
  settle_all agent rows db =
  set_permits (fmap (λ x, if bool_decide (permit_key x ∈ permit_key <$> rows)
                          then close_permit db x else x)) db.
Proof.
  revert db. induction rows as [|p rows IH]; intros db Hnd Hrows Hall.
  { unfold set_permits. destruct db as [ps ss ms ts now]. simpl. f_equal.
    rewrite <-(list_fmap_id ps) at 1. apply list_fmap_ext. done. }
  destruct (Hall p) as (Hp & Hst & Hk); [constructor|]. apply NoDup_cons in Hrows as [Hnp Hrows].
  unfold settle_all in *. cbn [foldl]. rewrite settle_uncertain by done. set (h := λ x, if bool_decide _ then _ else x).
  assert (permit_key <$> (h <$> a_permits db) = permit_key <$> a_permits db) as Hkeys.
  { rewrite <-list_fmap_compose. apply list_fmap_ext. intros i x _. unfold h. simpl. by case_match. }
  rewrite IH; [|simpl; by rewrite Hkeys|done|].
  - unfold set_permits. simpl. f_equal. rewrite <-list_fmap_compose. apply list_fmap_ext.
    intros i x _. unfold h. simpl. destruct (decide (permit_key x = permit_key p)) as [E|E].
    + rewrite !(bool_decide_eq_true_2 (permit_key x = permit_key p)) by done.
      rewrite bool_decide_eq_false_2 by (change (permit_key x ∉ permit_key <$> rows); by rewrite E).
      by rewrite bool_decide_eq_true_2 by (rewrite E; constructor).
    + rewrite !(bool_decide_eq_false_2 (permit_key x = permit_key p)) by done.
      assert (permit_key x ∈ permit_key <$> rows ↔ permit_key x ∈ permit_key p :: (permit_key <$> rows))
        as Hiff by (rewrite elem_of_cons; tauto).
      by rewrite (bool_decide_ext _ _ Hiff).
  - intros r Hr. destruct (Hall r) as (Hr1 & Hr2 & Hr3); [by constructor|]. split; [|done].
    simpl. apply list_elem_of_fmap. exists r. split; [|done]. unfold h.
    rewrite bool_decide_eq_false_2; [done|]. intros E. destruct Hnp. rewrite <-E.
    by apply list_elem_of_fmap_2.
Qed.
