(* ===== verification/AdmissionClaims.v ===== *)
(** * Execution permits: theorems

    The admission pool as a transition system ([holding_op], [pool_op]) and the
    promises its callers rely on: the caps hold at every fresh admission, a
    start is granted once, permits evolve forward only, and capacity is freed
    only on evidence that the guest ceased or never started.
    Concrete instances end the file ([AdmissionDemo]). *)

From stdpp Require Import prelude list strings pretty relations.
From S2P Require Import Prelude PyValue Admission AdmissionInvariant.
Local Open Scope Z_scope.

(** ** The pool as a transition system *)

(** Operations that carry no evidence that an execution ended.  The limits and
    the collaborators may differ from one call to the next; the sessions, the
    queue, the turns and the clock are written by others ([hold_world]). *)
Inductive holding_op : relation ADB :=
| hold_adopt db : holding_op db (adopt_existing db)
| hold_reserve (En : Environ) (Hk : AdmissionHooks) q v db db' :
    reserve_start_verdict q db = Ok (v, db') → holding_op db db'
| hold_bind agent u db db' : bind_session agent db = Ok (u, db') → holding_op db db'
| hold_claim (En : Environ) (Hk : AdmissionHooks) agent m owner b db db' :
    claim_pending agent m owner db = Ok (b, db') → holding_op db db'
| hold_recheck (Hk : AdmissionHooks) sid seq owner w b db db' :
    recheck sid seq owner w db = Ok (b, db') → holding_op db db'
| hold_prewarm (Hk : AdmissionHooks) sid b db db' :
    recheck_prewarm sid db = Ok (b, db') → holding_op db db'
| hold_settle agent seq outcome db : holding_op db (settle agent seq outcome false db)
| hold_world db db' : a_permits db' = a_permits db → holding_op db db'.

Inductive pool_op : relation ADB :=
| op_hold db db' : holding_op db db' → pool_op db db'
| op_settle agent seq outcome db : pool_op db (settle agent seq outcome true db)
| op_cancel_unbound k seq outcome b db db' :
    cancel_unbound k seq outcome db = Ok (b, db') → pool_op db db'
| op_confirm agent db : pool_op db (confirm_guest_cessation agent db)
| op_cancel_unattempted agent m b db db' :
    cancel_unattempted agent m db = Ok (b, db') → pool_op db db'.

Lemma holding_op_ok db db' : holding_op db db' → pool_step_ok held_step db db'.
Proof.
  destruct 1.
  - by apply (adopt_existing_ok held_step).
  - by eapply (reserve_start_verdict_ok held_step).
  - by eapply bind_session_ok.
  - by eapply claim_pending_ok.
  - by eapply recheck_ok.
  - by eapply recheck_prewarm_ok.
  - apply settle_held_ok.
  - by apply (pool_frame_ok held_step).
Qed.

Lemma pool_op_ok db db' : pool_op db db' → pool_step_ok permit_step db db'.
Proof.
  destruct 1.
  - intros Hok. destruct (holding_op_ok _ _ H Hok) as [Hok' (g & x & Hg & Hs)]. split; [done|].
    exists g, x. split; [done|]. intros p Hp. apply Hs, Hp.
  - apply settle_permit_ok.
  - by eapply cancel_unbound_ok.
  - apply confirm_guest_cessation_ok.
  - by eapply cancel_unattempted_ok.
Qed.

Lemma rtc_step_ok (R : relation Permit) `{!PreOrder R} (S : relation ADB) db db' :
  (∀ x y, S x y → pool_step_ok R x y) → rtc S db db' → pool_step_ok R db db'.
Proof.
  intros HS. induction 1 as [|x y z Hxy _ IH]; [apply pool_step_refl, _|].
  eapply (pool_step_trans R); [by apply HS|done].
Qed.

(** From an empty pool, whatever the sequence of admission operations and
    of writes by the rest of the system, a start (session name and sequence
    number) has at most one permit, its state is one of the four, it is
    settled exactly when it has a settlement time, and every permit present at
    some moment is present ever after: its identity, tier, daily key and routine
    never change, its state only moves forward (reserved, running, uncertain,
    settled), and once settled it is frozen. *)
Theorem pool_evolution db0 db db' :
  a_permits db0 = [] → rtc pool_op db0 db → rtc pool_op db db' →
  pool_ok db' ∧ ∀ p, p ∈ a_permits db → ∃ p', p' ∈ a_permits db' ∧ permit_step p p'.
Proof.
  intros H0 H1 H2. assert (pool_ok db0) as Hok0.
  { split; rewrite H0; [constructor|by intros p ?%elem_of_nil..]. }
  destruct (rtc_step_ok permit_step pool_op db0 db pool_op_ok H1 Hok0) as [Hok _].
  destruct (rtc_step_ok permit_step pool_op db db' pool_op_ok H2 Hok) as [Hok' (g & x & Hg & Hs)].
  split; [done|]. intros p Hp. exists (g p). split; [|auto]. rewrite Hg. apply elem_of_app. left.
  by apply list_elem_of_fmap_2.
Qed.

(** Expired observers and unknown outcomes never free capacity: no sequence
    of adoptions, reservations, bindings, claims, fences and unconfirmed
    settlements releases a permit or lowers the number of permits held. *)
Theorem capacity_held db db' :
  pool_ok db → rtc holding_op db db' →
  count (active db) ≤ count (active db') ∧
  ∀ p, p ∈ active db → ∃ p', p' ∈ active db' ∧ permit_key p' = permit_key p.
Proof.
  intros Hok H. destruct (rtc_step_ok held_step _ db db' holding_op_ok H Hok) as [_ (g & x & Hg & Hs)].
  split.
  - unfold count, active. rewrite Hg. apply inj_le. by apply held_count.
  - intros p [Hst Hp]%list_elem_of_filter. destruct (Hs p Hp) as [Hstep Hheld].
    exists (g p). split; [|apply Hstep]. apply list_elem_of_filter. split; [auto|]. rewrite Hg.
    apply elem_of_app. left. by apply list_elem_of_fmap_2.
Qed.

(** ** Reserving *)

Lemma reserve_unfold `{Environ, AdmissionHooks} q db :
  reserve_start_verdict q db =
  if negb (str_in (sr_tier q) TIERS) || (sr_pending_seq q <? 1)
  then Raise (ValueError "Invalid server admission identity") else
  if start_blocked db (sr_local_session_id q) then Ok (Some "cleanup_pending"%string, db) else
  let db := adopt_existing db in
  match reservation db (sr_local_session_id q) (sr_pending_seq q) with
  | Some existing =>
      Ok (if same_start q existing then None
          else Some ("existing_reservation_" +:+ cr_state existing), db)
  | None =>
      refusal ← capacity_refusal db q;
      match refusal with
      | Some reason => Ok (Some reason, db)
      | None => Ok (None, set_permits (λ ps, ps ++ [new_permit db q]) db)
      end
  end.
Proof. done. Qed.

(** What a start that is not refused has passed. *)
Lemma capacity_refusal_None `{Environ, AdmissionHooks} db q :
  capacity_refusal db q = Ok None →
  (∀ j, sr_routine_job_name q = Some j → ∀ p, p ∈ active db → cr_routine_job_name p = Some j →
        _operator_recomputation p = true) ∧
  count (active db) < total_limit ∧
  (sr_tier q ≠ "interactive"%string → count (background (active db)) < background_limit ∧
     _higher_priority_waiting db (sr_tier q) = false) ∧
  (sr_tier q = "kg"%string → count (kg (active db)) < kg_limit) ∧
  (∀ key, sr_daily_key q = Some key → ∃ limit, sr_daily_limit q = Some limit ∧
     0 ≤ sr_daily_used q ∧ sr_daily_used q + count (unbound_today db key) < limit).
Proof.
  unfold capacity_refusal. destruct (_ && existsb _ _) eqn:Hj; [done|].
  destruct (total_limit <=? _) eqn:Ht; [done|]. apply Z.leb_gt in Ht.
  destruct (negb _ && (negb _ && _)) eqn:Hb; [done|].
  destruct (negb _ && _higher_priority_waiting _ _) eqn:Hw; [done|].
  destruct (bool_decide (sr_tier q = _) && _) eqn:Hk; [done|]. intros Hd.
  refine (conj _ (conj Ht (conj _ (conj _ _)))).
  - intros j Ej p Hp Hpj. apply not_false_is_true. intros Hop. rewrite Ej in Hj. simpl in Hj.
    apply (proj1 (existsb_false _ _) Hj) in Hp. rewrite Hpj, Hop in Hp.
    by rewrite bool_decide_eq_true_2 in Hp.
  - intros Hi. rewrite bool_decide_eq_false_2 in Hb, Hw by done. simpl in Hb, Hw.
    apply Z.leb_gt in Hb. done.
  - intros Hi. rewrite bool_decide_eq_true_2 in Hk by done. by apply Z.leb_gt in Hk.
  - intros key Ekey. rewrite Ekey in Hd. destruct (sr_daily_limit q) as [limit|]; [|done].
    exists limit. destruct (_ || _) eqn:Hn; [done|]. destruct (limit <=? _) eqn:Hl; [done|].
    apply orb_false_iff in Hn as [_ Hn%Z.ltb_ge]. by apply Z.leb_gt in Hl.
Qed.

(** C19: a fresh start, one that adoption has not already charged, is granted
    only within every cap: afterwards the pool holds at most [total_limit]
    permits, at most [background_limit] background ones when the start is not
    interactive, at most [kg_limit] knowledge-graph ones when it is one of
    them; no eligible start of a higher tier waits; no other held permit
    works on the same routine job, an audited recomputation apart; and the
    daily allowance covers the bound uses and the unbound permits of the
    window, the new one included. *)
Theorem fresh_admission_within_limits `{Environ, AdmissionHooks} q db db' :
  reserve_start_verdict q db = Ok (None, db') →
  reservation (adopt_existing db) (sr_local_session_id q) (sr_pending_seq q) = None →
  count (active db') ≤ total_limit ∧
  (sr_tier q ≠ "interactive"%string → count (background (active db')) ≤ background_limit ∧
     _higher_priority_waiting (adopt_existing db) (sr_tier q) = false) ∧
  (sr_tier q = "kg"%string → count (kg (active db')) ≤ kg_limit) ∧
  (∀ j p, sr_routine_job_name q = Some j → p ∈ active db' → cr_routine_job_name p = Some j →
     permit_key p = (sr_local_session_id q, sr_pending_seq q) ∨ _operator_recomputation p = true) ∧
  (∀ key, sr_daily_key q = Some key → ∃ limit, sr_daily_limit q = Some limit ∧
     sr_daily_used q + count (unbound_today db' key) ≤ limit).
Proof.
  rewrite reserve_unfold. destruct (_ || _); [done|]. destruct (start_blocked _ _); [done|].
  set (db1 := adopt_existing db). simpl. intros Hv Hnew. rewrite Hnew in Hv.
  apply res_bind_ok in Hv as (refusal & Hr & Hv). destruct refusal; [done|]. injection Hv as <-.
  apply capacity_refusal_None in Hr as (Hjob & Htot & Hbg & Hkg & Hday).
  rewrite active_append by done. rewrite background_app, kg_app, !count_app.
  refine (conj _ (conj _ (conj _ (conj _ _)))).
  - unfold count in *. simpl. lia.
  - intros Hi. destruct (Hbg Hi) as [Hlt Hw]. split; [|done].
    unfold background at 2. rewrite filter_cons_True by done. unfold count in *. simpl. lia.
  - intros Ht. specialize (Hkg Ht). unfold kg at 2. rewrite filter_cons_True by done.
    unfold count in *. simpl. lia.
  - intros j p Hj [Hp|Hp]%elem_of_app Hpj; [right; by eapply Hjob|left].
    by apply list_elem_of_singleton in Hp as ->.
  - intros key Hkey. destruct (Hday key Hkey) as (limit & Hl & _ & Hlt). exists limit.
    split; [done|]. unfold unbound_today. simpl. rewrite filter_app, count_app.
    fold (unbound_today db1 key).
    assert (∀ p : Permit, count (filter (λ p, cr_daily_key p = Some key ∧ cr_session_id p = None ∧
      cr_state p ≠ "settled"%string ∧ a_now db1 - DAY ≤ cr_created_at p) [p]) ≤ 1) as Hone.
    { intros p. rewrite filter_cons. unfold count. case_decide; simpl; lia. }
    specialize (Hone (new_permit db1 q)). lia.
Qed.

Lemma reserve_grant_adopted `{Environ, AdmissionHooks} q db db' :
  reserve_start_verdict q db = Ok (None, db') → adopted db' ∧ a_sessions db' = a_sessions db.
Proof.
  rewrite reserve_unfold. destruct (_ || _); [done|]. destruct (start_blocked _ _); [done|].
  pose proof (adopt_existing_adopted db) as Ha. destruct (adopt_existing_world db) as [Hs _].
  simpl. destruct (reservation _ _ _) as [p|].
  - destruct (same_start q p); intros [= <-]. done.
  - intros (refusal & _ & Hv)%res_bind_ok. destruct refusal; [done|]. injection Hv as <-.
    split; [by apply adopted_append|done].
Qed.

(** Reserving is idempotent: repeating a granted request grants it again
    and charges nothing, whatever the caps and the waiting work then are. *)
Theorem reserve_start_replay (E1 E2 : Environ) (H1 H2 : AdmissionHooks) q db db' :
  @reserve_start_verdict E1 H1 q db = Ok (None, db') →
  @reserve_start_verdict E2 H2 q db' = Ok (None, db').
Proof.
  intros Hv. destruct (reserve_grant_adopted q db db' Hv) as [Ha Hs].
  destruct (granted_permit q db db' Hv) as (p & Hp & Hsame). revert Hv.
  rewrite !reserve_unfold. destruct (_ || _); [done|]. rewrite (start_blocked_world db db') by done.
  destruct (start_blocked _ _); [done|]. intros _. simpl.
  by rewrite (adopted_fixpoint db' Ha), Hp, Hsame.
Qed.

(** [Free_background_slots] is exact: over an adopted pool, a fresh
    background start outside the knowledge graph, with no routine and no daily
    allowance, is granted if and only if a slot is reported free and no
    eligible start of a higher tier waits. *)
Theorem free_background_slots_exact `{Environ, AdmissionHooks} db k tier model seq :
  (tier = "project" ∨ tier = "probe")%string → 1 ≤ seq →
  adopted db → start_blocked db k = false → reservation db k seq = None →
  (∃ db', reserve_start (mkStartRequest k tier model seq None None 0 None) db = Ok (true, db')) ↔
  0 < free_background_slots db ∧ _higher_priority_waiting db tier = false.
Proof.
  intros Ht Hs Ha Hb Hr. unfold reserve_start.
  rewrite reserve_unfold, (adopted_fixpoint db Ha). cbn [sr_local_session_id sr_tier sr_pending_seq].
  rewrite Hb, Hr, (proj2 (Z.ltb_ge _ _) Hs).
  assert (str_in tier TIERS = true ∧ tier ≠ "interactive"%string ∧ tier ≠ "kg"%string) as (-> & Hi & Hk)
    by (destruct Ht as [-> | ->]; done).
  unfold capacity_refusal, free_background_slots. cbn [sr_routine_job_name sr_tier sr_daily_key].
  rewrite (bool_decide_eq_false_2 _ Hi), (bool_decide_eq_false_2 _ Hk). simpl.
  destruct (total_limit <=? _) eqn:E1; [apply Z.leb_le in E1|apply Z.leb_gt in E1].
  { split; [intros [d [=]]|intros [? _]; exfalso; lia]. }
  destruct (background_limit <=? _) eqn:E2; [apply Z.leb_le in E2|apply Z.leb_gt in E2].
  { split; [intros [d [=]]|intros [? _]; exfalso; lia]. }
  destruct (_higher_priority_waiting db tier); simpl.
  { split; [intros [d [=]]|by intros [_ ?]]. }
  split; [intros _; split; [lia|done]|eauto].
Qed.

(** ** The fence before a side effect *)

(** The last fence is exclusive: once [recheck] has let an owner start the
    side effect of a turn, a later [recheck] of that turn, with no claim
    in between, passes only for the same owner and, when both name a workload,
    only for the same workload. *)
Theorem recheck_exclusive (K1 K2 : AdmissionHooks) sid seq o1 o2 w1 w2 db db1 db2 :
  @recheck K1 sid seq o1 w1 db = Ok (true, db1) → @recheck K2 sid seq o2 w2 db1 = Ok (true, db2) →
  o1 = o2 ∧ (is_Some w1 → is_Some w2 → w1 = w2).
Proof.
  unfold recheck. set (P := λ p, bool_decide (cr_session_id p = Some sid) && (cr_pending_seq p =? seq)).
  destruct (find_first P (a_permits db)) as [p|] eqn:E; [|done].
  destruct (@may_run _ db p _ _ _ _ _) eqn:Hm; [|done]. intros [= <-].
  destruct (find_first_Some _ _ _ E) as [_ HP].
  assert (find_first P (a_permits (put_permit (permit_run w1 p) db)) = Some (permit_run w1 p)) as ->.
  { apply (find_first_update_where _ _ _ p); [done| |exact HP]. by apply is_permit_spec. }
  destruct (@may_run _ _ (permit_run w1 p) _ _ _ _ _) eqn:Hm2; [|done]. intros _.
  unfold may_run in Hm, Hm2. rewrite !andb_true_iff in Hm, Hm2.
  destruct Hm as [[[[[[_ Ho1%bool_decide_eq_true] _] _] _] Hw1] _].
  destruct Hm2 as [[[[[[_ Ho2%bool_decide_eq_true] _] _] _] Hw2] _].
  simpl in Ho2. split; [congruence|]. intros [x ->] [y ->]. simpl in Hw2.
  by apply bool_decide_eq_true in Hw2 as ->.
Qed.

(** ** Releasing *)

(** The permits bound to a session carry its name. *)
Definition bound_by_name (agent : AgentSession) (db : ADB) : Prop :=
  ∀ p, p ∈ a_permits db → cr_session_id p = Some (as_id agent) →
       cr_local_session_id p = as_local_session_id agent.

Lemma adopt_bound agent seq st o m db :
  bound_by_name agent db → bound_by_name agent (_adopt agent seq st o m db).2.
Proof.
  intros Hb. unfold _adopt. destruct (reservation _ _ _); [done|]. intros p.
  intros [Hp|Hp]%elem_of_app; [by apply Hb|]. by apply list_elem_of_singleton in Hp as ->.
Qed.

(** The permits of the turns whose outcome is unknown. *)
Definition charge_unknown (agent : AgentSession) (db : ADB) : ADB :=
  foldl (λ db t, (_adopt agent (tu_seq t) "uncertain" None None db).2) db
    (filter (λ t, tu_session_id t = as_id agent ∧ tu_stop_reason t = Some UNKNOWN_INVOCATION)
       (a_turns db)).

Lemma charge_unknown_facts agent db :
  pool_ok db → bound_by_name agent db →
  pool_ok (charge_unknown agent db) ∧ bound_by_name agent (charge_unknown agent db) ∧
  same_world db (charge_unknown agent db) ∧
  (∀ p, p ∈ a_permits db → p ∈ a_permits (charge_unknown agent db)) ∧
  (∀ t, t ∈ a_turns db → tu_session_id t = as_id agent → tu_stop_reason t = Some UNKNOWN_INVOCATION →
     is_Some (reservation (charge_unknown agent db) (as_local_session_id agent) (tu_seq t))).
Proof.
  intros Hok Hb. unfold charge_unknown. set (f := λ db t, _). set (l := filter _ _).
  assert (∀ db (t : AgentTurn), ∃ st o m, f db t = (_adopt agent (tu_seq t) st o m db).2) as Hf
    by (intros; do 3 eexists; reflexivity).
  assert (pool_step_ok eq db (foldl f db l)) as Hstep.
  { apply (pool_fold_ok eq). intros d t _. apply (adopt_step_ok eq); [decide_in|done]. }
  destruct (Hstep Hok) as [Hok' (g & x & Hg & Hid)]. split; [done|]. split.
  { clearbody l. clear -Hb Hf. revert db Hb. induction l as [|t l IH]; intros db Hb; [done|]. apply IH.
    destruct (Hf db t) as (st & o & m & ->). by apply adopt_bound. }
  split; [by apply (adopt_fold_world (λ _, agent) tu_seq)|]. split.
  - intros p Hp. rewrite Hg. apply elem_of_app. left. rewrite (Hid p Hp).
    by apply list_elem_of_fmap_2.
  - intros t Ht H1 H2. apply (adopt_fold_covers (λ _, agent) tu_seq _ Hf).
    by apply list_elem_of_filter.
Qed.

Lemma confirm_permits agent db :
  pool_ok db → bound_by_name agent db →
  a_permits (confirm_guest_cessation agent db) =
  (λ p, if bool_decide (cr_session_id p = Some (as_id agent) ∧ cr_state p = "uncertain"%string)
        then close_permit db p else p) <$> a_permits (charge_unknown agent db).
Proof.
  intros Hok Hb. destruct (charge_unknown_facts agent db Hok Hb) as (Hok1 & Hb1 & (_&_&_&Hnow) & _ & _).
  change (confirm_guest_cessation agent db) with
    (settle_all agent (filter (λ p, cr_session_id p = Some (as_id agent) ∧ cr_state p = "uncertain"%string)
                         (a_permits (charge_unknown agent db))) (charge_unknown agent db)).
  rewrite settle_all_spec.
  - simpl. apply list_fmap_ext. intros i p Hp%list_elem_of_lookup_2. unfold close_permit.
    rewrite Hnow. erewrite bool_decide_ext; [reflexivity|]. rewrite list_elem_of_fmap. split.
    + intros (r & Hk & [Hc Hr]%list_elem_of_filter).
      by rewrite (NoDup_fmap_elem permit_key _ p r (po_keys _ Hok1)).
    + intros Hc. exists p. split; [done|]. by apply list_elem_of_filter.
  - apply Hok1.
  - apply NoDup_fmap_filter, Hok1.
  - intros p [[Hs Hst] Hp]%list_elem_of_filter. auto.
Qed.

(** Evidence that a guest ceased releases exactly its uncertain capacity:
    every uncertain permit of the session is settled with that outcome at that
    time and none is left uncertain, every turn with an unknown outcome has
    its permit, and every other permit (a claimed, running turn included) is
    untouched. *)
Theorem guest_cessation_releases agent db :
  pool_ok db → bound_by_name agent db →
  let db' := confirm_guest_cessation agent db in
  (∀ p, p ∈ a_permits db → cr_session_id p = Some (as_id agent) → cr_state p = "uncertain"%string →
        close_permit db p ∈ a_permits db') ∧
  (∀ p, p ∈ a_permits db → cr_session_id p ≠ Some (as_id agent) ∨ cr_state p ≠ "uncertain"%string →
        p ∈ a_permits db') ∧
  (∀ p, p ∈ a_permits db' → cr_session_id p = Some (as_id agent) → cr_state p ≠ "uncertain"%string) ∧
  (∀ t, t ∈ a_turns db → tu_session_id t = as_id agent → tu_stop_reason t = Some UNKNOWN_INVOCATION →
        ∃ p, p ∈ a_permits db' ∧ permit_key p = (as_local_session_id agent, tu_seq t)).
Proof.
  intros Hok Hb db'. pose proof (confirm_permits agent db Hok Hb) as Hp'. fold db' in Hp'.
  set (h := λ p, if bool_decide _ then _ else p) in Hp'.
  destruct (charge_unknown_facts agent db Hok Hb) as (Hok1 & _ & _ & Hkeep & Hcov).
  assert (∀ p, p ∈ a_permits (charge_unknown agent db) → h p ∈ a_permits db') as Hin
    by (intros p Hp; rewrite Hp'; by apply list_elem_of_fmap_2).
  refine (conj _ (conj _ (conj _ _))).
  - intros p Hp Hs Hst. specialize (Hin p (Hkeep p Hp)). unfold h in Hin.
    by rewrite bool_decide_eq_true_2 in Hin by done.
  - intros p Hp Hn. specialize (Hin p (Hkeep p Hp)). unfold h in Hin.
    by rewrite bool_decide_eq_false_2 in Hin by tauto.
  - intros p Hp Hs. rewrite Hp' in Hp. apply list_elem_of_fmap in Hp as (r & -> & Hr).
    unfold h in *. case_bool_decide; [done|]. tauto.
  - intros t Ht H1 H2. destruct (Hcov t Ht H1 H2) as [p Hp].
    apply reservation_Some in Hp as [Hp Hk]. exists (h p). split; [auto|]. rewrite <-Hk.
    unfold h. by case_bool_decide.
Qed.

(** Whatever the environment holds (unset, malformed, non-positive or
    inconsistent values included), the three caps are positive and nested:
    the knowledge-graph cap within the background cap within the total. *)
Theorem limits_ordered `{Environ} :
  1 ≤ kg_limit ∧ kg_limit ≤ background_limit ∧ background_limit ≤ total_limit.
Proof.
  unfold kg_limit, background_limit, total_limit.
  pose proof (limit_pos "AGENT_ADMISSION_TOTAL" DEFAULT_TOTAL_LIMIT ltac:(done)).
  pose proof (limit_pos "AGENT_ADMISSION_BACKGROUND" DEFAULT_BACKGROUND_LIMIT ltac:(done)).
  pose proof (limit_pos "AGENT_ADMISSION_KG" DEFAULT_KG_LIMIT ltac:(done)). lia.
Qed.

(** * Execution permits: concrete instances of the theorems *)

Module AdmissionDemo.

(** An environment that sets the total and mistypes the background cap. *)
#[export] Instance env : Environ := λ name,
  if bool_decide (name = "AGENT_ADMISSION_TOTAL"%string) then Some "6"%string
  else if bool_decide (name = "AGENT_ADMISSION_BACKGROUND"%string) then Some "many"%string else None.
#[export] Instance hooks : AdmissionHooks :=
  {| can_start := λ _ _ _, Ok true; may_dispatch := λ _ _, true |}.

Definition detail : SessionDetail := mkDetail None None None None false None 0 None None.
Definition agent : AgentSession :=
  mkSession 7 "wf:node:7" (Some "wf"%string) (Some "node"%string) "project" (Some "opus"%string)
    "active" None None None (Some "guest-7"%string) (mkBinding None None None None None None)
    (mkCleanup None None None) detail.
Definition message : PendingMessage :=
  mkPending 7 2 None (Some "pod-a"%string) 1 (Some 90) None None "go on" (Some 90) 80 None None None.
Definition lost_turn : AgentTurn :=
  mkTurn 7 1 (Some UNKNOWN_INVOCATION) None "" None
    (mkTurnDetail "" None None (PList []) None None None None (PBool false) PNone PNone None PNone).
(** One message in flight and one turn whose outcome is unknown. *)
Definition db0 : ADB := mkADB [] [agent] [message] [lost_turn] [] 100.
Definition quiet0 : ADB := mkADB [] [agent] [message] [] [] 100.

Definition request : StartRequest :=
  mkStartRequest "wf:node:8" "kg" (Some "qwen"%string) 1 (Some "kg-day"%string) (Some 5) 2
    (Some "kg-fact-review"%string).

Notation adopted_db := (adopt_existing db0).
Notation quiet := (adopt_existing quiet0).
Notation after r := (match r with Ok (_, db) => db | Raise _ => db0 end).
Notation granted := (after (reserve_start_verdict request db0)).

Lemma pool_ok_empty db : a_permits db = [] → pool_ok db.
Proof. intros H. split; rewrite H; [constructor|by intros p ?%elem_of_nil..]. Qed.

Lemma adopted_pool_ok db : a_permits db = [] → pool_ok (adopt_existing db).
Proof. intros H. by apply (adopt_existing_ok permit_step), pool_ok_empty. Qed.

(** Reserve, then settle the unknown turn on evidence. *)
Lemma pool_evolution_witness :
  pool_ok (settle agent 1 (Some "done"%string) true granted) ∧
  ∀ p, p ∈ a_permits granted →
    ∃ p', p' ∈ a_permits (settle agent 1 (Some "done"%string) true granted) ∧ permit_step p p'.
Proof.
  apply (pool_evolution db0 granted (settle agent 1 (Some "done"%string) true granted)); [reflexivity| |].
  - apply rtc_once, op_hold. apply (hold_reserve env hooks request None). vm_compute. reflexivity.
  - apply rtc_once. apply op_settle.
Defined.

Lemma capacity_held_witness :
  count (active adopted_db) ≤ count (active (settle agent 2 (Some "timed out"%string) false adopted_db)) ∧
  ∀ p, p ∈ active adopted_db →
    ∃ p', p' ∈ active (settle agent 2 (Some "timed out"%string) false adopted_db) ∧ permit_key p' = permit_key p.
Proof.
  apply (capacity_held adopted_db); [by apply adopted_pool_ok|]. apply rtc_once, hold_settle.
Defined.

Lemma fresh_admission_witness :
  count (active granted) ≤ total_limit ∧
  (sr_tier request ≠ "interactive"%string → count (background (active granted)) ≤ background_limit ∧
     _higher_priority_waiting adopted_db (sr_tier request) = false) ∧
  (sr_tier request = "kg"%string → count (kg (active granted)) ≤ kg_limit) ∧
  (∀ j p, sr_routine_job_name request = Some j → p ∈ active granted →
     cr_routine_job_name p = Some j →
     permit_key p = (sr_local_session_id request, sr_pending_seq request) ∨
     _operator_recomputation p = true) ∧
  (∀ key, sr_daily_key request = Some key → ∃ limit, sr_daily_limit request = Some limit ∧
     sr_daily_used request + count (unbound_today granted key) ≤ limit).
Proof. apply (fresh_admission_within_limits request db0 granted); vm_compute; reflexivity. Defined.

Lemma reserve_start_replay_witness :
  reserve_start_verdict request granted = Ok (None, granted).
Proof. apply (reserve_start_replay env env hooks hooks request db0). vm_compute. reflexivity. Defined.

Lemma quiet_adopted : adopted quiet.
Proof. apply adopt_existing_adopted. Qed.

Lemma free_background_slots_witness :
  (∃ db', reserve_start (mkStartRequest "wf:node:9" "project" None 1 None None 0 None) quiet =
          Ok (true, db')) ↔
  0 < free_background_slots quiet ∧ _higher_priority_waiting quiet "project" = false.
Proof.
  apply free_background_slots_exact; [by left|lia|apply quiet_adopted|reflexivity|].
  vm_compute. reflexivity.
Defined.

Lemma recheck_exclusive_witness :
  "pod-a"%string = "pod-a"%string ∧
  (is_Some (Some "review"%string) → is_Some (Some "review"%string) →
   Some "review"%string = Some "review"%string).
Proof.
  apply (recheck_exclusive hooks hooks 7 2 _ _ _ _ quiet
           (after (recheck 7 2 "pod-a" (Some "review"%string) quiet))
           (after (recheck 7 2 "pod-a" (Some "review"%string)
              (after (recheck 7 2 "pod-a" (Some "review"%string) quiet)))));
    vm_compute; reflexivity.
Defined.

Lemma adopted_bound : bound_by_name agent adopted_db.
Proof. intros p Hp Hs. vm_compute in Hp. repeat (apply elem_of_cons in Hp as [->|Hp]; [done|]).
  by apply elem_of_nil in Hp. Qed.

Lemma guest_cessation_witness :
  let db' := confirm_guest_cessation agent adopted_db in
  (∀ p, p ∈ a_permits adopted_db → cr_session_id p = Some (as_id agent) →
        cr_state p = "uncertain"%string → close_permit adopted_db p ∈ a_permits db') ∧
  (∀ p, p ∈ a_permits adopted_db →
        cr_session_id p ≠ Some (as_id agent) ∨ cr_state p ≠ "uncertain"%string →
        p ∈ a_permits db') ∧
  (∀ p, p ∈ a_permits db' → cr_session_id p = Some (as_id agent) → cr_state p ≠ "uncertain"%string) ∧
  (∀ t, t ∈ a_turns adopted_db → tu_session_id t = as_id agent →
        tu_stop_reason t = Some UNKNOWN_INVOCATION →
        ∃ p, p ∈ a_permits db' ∧ permit_key p = (as_local_session_id agent, tu_seq t)).
Proof. apply guest_cessation_releases; [by apply adopted_pool_ok|apply adopted_bound]. Defined.

(** The values themselves: the typo keeps the default cap, the unknown turn is
    charged, its release settles it and leaves the running message held. *)
Example limits_read : (total_limit, background_limit, kg_limit) = (6, 3, 2).
Proof. vm_compute. reflexivity. Qed.
Example states_before : cr_state <$> a_permits granted = ["running"; "uncertain"; "reserved"]%string.
Proof. vm_compute. reflexivity. Qed.
Example states_after :
  cr_state <$> a_permits (confirm_guest_cessation agent granted)
  = ["running"; "settled"; "reserved"]%string.
Proof. vm_compute. reflexivity. Qed.

End AdmissionDemo.
