(* ===== verification/ModelPool.v ===== *)
(** * Model pools: quota-aware model selection

    [factory/orchestration/model_pool.py]: which model a factory role runs on.
    Policies, quota summaries and grant views are the dynamic dictionaries the
    code reads ([pyval]); every raise of a malformed one is a [Raise]. *)

From Stdlib Require Import SpecFloat Ascii.
From stdpp Require Import prelude list strings pretty.
From S2P Require Import Prelude PyValue ModelCatalog.
Local Open Scope Z_scope.

Notation dict := (list (string * pyval)).

(** ** Constants *)

Definition ROLES : list string := ["conductor"; "worker"; "implement"; "refine"; "reviewer"; "judge"].
Definition _ROLE_KEY : list (string * string) :=
  [("conductor", "conductor_model"); ("worker", "worker_model"); ("reviewer", "reviewer_model")]%string.
Definition DEFAULT_REFINE_POOL : list string := ["spark"; "sol"].
Definition DEFAULT_REVIEWER_POOL : list string := ["opus"; "astra"].
Definition DEFAULT_JUDGE_MODEL : string := "opus".
Definition QUOTA_PROVIDERS : list (string * string) :=
  [("codex", "codex"); ("claude", "claude")]%string.
Definition JUDGMENT_MODELS : list string := ["opus"; "fable"].
Definition ROLE_EFFORT : list (string * string) :=
  [("planner", "xhigh"); ("reviewer", "xhigh"); ("funding", "high"); ("implement", "high");
   ("integrate", "high"); ("correct", "high"); ("investigate", "medium"); ("refine", "medium")]%string.
Definition DEFAULT_ROLE_EFFORT : string := "high".
Definition _EFFORT_ROLE_PREFIXES : list (string * string) :=
  [("conductor_funding_", "funding"); ("conductor_", "planner"); ("review_", "reviewer");
   ("implement_", "implement"); ("integrate_", "integrate"); ("correct_", "correct");
   ("investigate_", "investigate"); ("refine_", "refine")]%string.
Definition f97 : spec_float := f_of_Z 97.
Definition f100 : spec_float := f_of_Z 100.
Definition SIDECAR_GRANT_STALE_AFTER_SECONDS : spec_float := f_of_Z 900.

(** What the code reads from its runtime: the clock (microseconds since the
    epoch), the parsers of time stamps and of JSON text ([None] when they
    raise), [str] of a value that is not a string, and the broker's quota summary
    ([quota_summary], which turns every failure into an empty one). *)
Class PoolRuntime := {
  utc_now : Z;
  fromtimestamp : spec_float → option Z;
  fromisoformat : string → option Z;
  json_loads : string → option pyval;
  str_other : pyval → string;
  quota_summary : dict;
}.

Definition py_str `{PoolRuntime} (v : pyval) : string :=
  match v with PStr s => s | _ => str_other v end.

(** ** Limits read from the environment *)

Definition _env_float `{Environ} (name : string) (dflt : spec_float) : spec_float :=
  match environ name with
  | None => dflt
  | Some raw => match float_of_string raw with Some f => f | None => dflt end
  end.
Definition exhausted_percent `{Environ} : spec_float :=
  _env_float "SWARM_MODEL_POOL_EXHAUSTED_PERCENT" f97.
Definition max_quota_age_seconds `{Environ} : spec_float :=
  _env_float "SWARM_MODEL_POOL_QUOTA_MAX_AGE_SECONDS" (f_of_Z 900).

(** [min(a, b)]: the first argument unless the second is smaller. *)
Definition fmin (a b : spec_float) : spec_float := if flt b a then b else a.
Definition kg_quota_max_age_seconds `{Environ} : spec_float :=
  fmin max_quota_age_seconds SIDECAR_GRANT_STALE_AFTER_SECONDS.

(** [{role: float(value) ... if isinstance(value, (int, float)) and not bool}]. *)
Definition role_floors (roles : dict) : res (list (string * spec_float)) :=
  res_map (λ p, f ← to_float p.2; Ok (p.1, f)) (filter (λ p, is_number p.2 = true) roles).

Fixpoint provider_floors (parsed : dict) : res (list (string * list (string * spec_float))) :=
  match parsed with
  | [] => Ok []
  | (provider, PDict roles) :: rest =>
      fs ← role_floors roles; more ← provider_floors rest; Ok ((provider, fs) :: more)
  | _ :: rest => provider_floors rest
  end.

Definition quota_floors `{Environ, PoolRuntime} : res (list (string * list (string * spec_float))) :=
  let raw := default ""%string (environ "SWARM_QUOTA_FLOORS") in
  if bool_decide (py_strip raw = ""%string) then Ok [] else
  match json_loads raw with
  | Some (PDict parsed) => provider_floors parsed
  | _ => Ok []
  end.

Definition floor_for `{Environ, PoolRuntime} (provider : string) (role : option string)
    : res spec_float :=
  match role with
  | None => Ok fzero
  | Some role =>
      floors ← quota_floors;
      Ok (default fzero (assoc_get role (default [] (assoc_get provider floors))))
  end.

(** ** Reasoning effort *)

Definition effort_role (node_key : string) : option string :=
  snd <$> find_first (λ p, startswith p.1 node_key) _EFFORT_ROLE_PREFIXES.

(** [policy.get(key) or {}] on an optional policy. *)
Definition policy_get (policy : option dict) (key : string) : pyval :=
  dict_get key (default [] policy).

Definition effort_for_role `{PoolRuntime} (role : option string) (policy : option dict) : string :=
  let overrides := match policy_get policy "role_effort" with PDict kv => kv | _ => [] end in
  match role with
  | Some r =>
      match assoc_get r overrides with
      | Some v => py_str v
      | None => default DEFAULT_ROLE_EFFORT (assoc_get r ROLE_EFFORT)
      end
  | None => DEFAULT_ROLE_EFFORT
  end.

Fixpoint index_of (x : string) (l : list string) : option nat :=
  match l with
  | [] => None
  | y :: l => if bool_decide (y = x) then Some O else S <$> index_of x l
  end.

(** [EFFORT_LEVELS.index(level)]. *)
Definition effort_index (level : string) : res nat :=
  match index_of level EFFORT_LEVELS with
  | Some i => Ok i
  | None => Raise (ValueError "tuple.index(x): x not in tuple")
  end.

Definition effort_for `{PoolRuntime} (node_key : string) (policy : option dict)
    (requested : option string) : res string :=
  let dflt := effort_for_role (effort_role node_key) policy in
  match requested with
  | None => Ok dflt
  | Some requested =>
      if negb (str_in requested EFFORT_LEVELS) then Raise (ValueError "invalid node effort") else
      i ← effort_index dflt;
      j ← effort_index requested;
      Ok (if (i <? j)%nat then requested else dflt)
  end.

(** ** Pools *)

(** [policy.get("allowed_models") or []]. *)
Definition allowed_models (policy : dict) : pyval :=
  let v := dict_get "allowed_models" policy in if truthy v then v else PList [].

Fixpoint allowed_of (models : list string) (allowed : pyval) : res (list string) :=
  match models with
  | [] => Ok []
  | m :: models =>
      b ← py_contains m allowed; rest ← allowed_of models allowed; Ok (if b : bool then m :: rest else rest)
  end.

(** [policy["model_pools"][role]] when it is a non-empty list. *)
Definition configured_pool `{PoolRuntime} (role : string) (policy : dict) : option (list pyval) :=
  match dict_get "model_pools" policy with
  | PDict pools =>
      match dict_get role pools with
      | PList (m :: ms) => Some ((λ v, PStr (py_str v)) <$> (m :: ms))
      | _ => None
      end
  | _ => None
  end.

(** [policy[key]]. *)
Definition policy_index (key : string) (policy : dict) : res pyval :=
  match assoc_get key policy with Some v => Ok v | None => Raise (KeyError key) end.

(** The pool of a role that names a policy field. *)
Definition direct_pool `{PoolRuntime} (role : string) (policy : dict) : res (list pyval) :=
  match configured_pool role policy with
  | Some pool => Ok pool
  | None =>
      match assoc_get role _ROLE_KEY with
      | Some key => v ← policy_index key policy; Ok [v]
      | None => Raise (KeyError role)
      end
  end.

Definition reviewer_pool `{PoolRuntime} (policy : dict) : res (list pyval) :=
  match configured_pool "reviewer" policy with
  | Some pool => Ok pool
  | None =>
      dflt ← allowed_of DEFAULT_REVIEWER_POOL (allowed_models policy);
      let reviewer := dict_get "reviewer_model" policy in
      let configured := if truthy reviewer then reviewer else dict_get "conductor_model" policy in
      let dflt := PStr <$> dflt in
      if truthy configured && negb (existsb (py_eq configured) dflt) then Ok (configured :: dflt)
      else match dflt with
           | [] => Ok (if truthy configured then [configured] else [])
           | _ => Ok dflt
           end
  end.

Definition pool_for `{PoolRuntime} (role : string) (policy : dict) : res (list pyval) :=
  if negb (str_in role ROLES) then Raise (ValueError ("unknown factory role '" +:+ role +:+ "'")) else
  match configured_pool role policy with
  | Some pool => Ok pool
  | None =>
      if bool_decide (role = "implement"%string) then direct_pool "worker" policy
      else if bool_decide (role = "refine"%string) then
        dflt ← allowed_of DEFAULT_REFINE_POOL (allowed_models policy);
        match dflt with
        | [] => direct_pool "conductor" policy
        | _ => Ok (PStr <$> dflt)
        end
      else if bool_decide (role = "reviewer"%string) then reviewer_pool policy
      else if bool_decide (role = "judge"%string) then
        b ← py_contains DEFAULT_JUDGE_MODEL (allowed_models policy);
        if b : bool then Ok [PStr DEFAULT_JUDGE_MODEL] else reviewer_pool policy
      else direct_pool role policy
  end.

(** ** The judgment floor *)

Record Choice := mkChoice {
  ch_model : pyval;
  ch_preferred : pyval;
  ch_fallback_from : pyval;
  ch_skipped : list (pyval * string);
  ch_reason : string;
}.

Definition choice (model preferred : pyval) (skipped : list (pyval * string)) (reason : string)
    : Choice :=
  mkChoice model preferred (if py_eq model preferred then PNone else preferred) skipped reason.

(** [pool[0]]. *)
Definition first_member (pool : list pyval) : res pyval :=
  match pool with m :: _ => Ok m | [] => Raise IndexError end.

(** The first member at the floor, or everything skipped. *)
Fixpoint floor_scan (pool : list pyval) (skipped : list (pyval * string))
    : (pyval * list (pyval * string)) + list (pyval * string) :=
  match pool with
  | [] => inr skipped
  | m :: pool =>
      if pystr_in m JUDGMENT_MODELS then inl (m, skipped)
      else floor_scan pool (skipped ++ [(m, "below_judgment_floor"%string)])
  end.

Definition judgment_floor `{PoolRuntime} (policy : dict) : res Choice :=
  worker_pool ← pool_for "implement" policy;
  preferred ← first_member worker_pool;
  match floor_scan worker_pool [] with
  | inl (m, skipped) => Ok (choice m preferred skipped "judgment_floor_worker_pool")
  | inr skipped =>
      conductor_pool ← pool_for "conductor" policy;
      match floor_scan conductor_pool skipped with
      | inl (m, skipped) => Ok (choice m preferred skipped "judgment_floor_conductor_pool")
      | inr skipped =>
          m ← policy_index "conductor_model" policy;
          Ok (choice m preferred skipped "judgment_floor_conductor_model")
      end
  end.

(** [None] for a name no adapter serves. *)
Definition family_for (model : pyval) : res (option string) :=
  match model_family model with
  | Ok family => Ok (Some family)
  | Raise (ValueError _) => Ok None
  | Raise e => Raise e
  end.

(** ** Resets *)

(** [v in (None, "")]. *)
Definition no_reset (v : pyval) : bool :=
  match v with PNone => true | PStr s => bool_decide (s = ""%string) | _ => false end.

Definition reset_passed `{PoolRuntime} (resets_at : pyval) (now : option Z) : res (option bool) :=
  let compare (reset : option Z) : option bool := (λ r, r <=? default utc_now now) <$> reset in
  match resets_at with
  | PBool _ => Ok None
  | PInt _ | PFloat _ =>
      f ← to_float resets_at;
      Ok (if f_is_finite f then compare (fromtimestamp f) else None)
  | PStr s =>
      if no_reset resets_at then Ok None
      else Ok (compare (fromisoformat (replace_char "Z"%char "+00:00" s)))
  | _ => Ok None
  end.

(** ** Availability of a provider *)

(** [v >= f] and [100.0 - v]. *)
Definition ge_float (v : pyval) (f : spec_float) : res bool :=
  match xnum_of v with
  | Some x => Ok (xle (xnum_of_float f) x)
  | None => Raise TypeError
  end.
Definition remaining (used : pyval) : res spec_float := u ← to_float used; Ok (fsub f100 u).

(** [v > f] for a number [v]. *)
Definition gt_float (v : pyval) (f : spec_float) : bool :=
  match xnum_of v with Some x => xlt (xnum_of_float f) x | None => false end.

Definition below_floor (has_used : bool) (used : pyval) (floor : spec_float) : res bool :=
  if has_used && flt fzero floor then left ← remaining used; Ok (flt left floor) else Ok false.

(** Why a walled provider is walled. *)
Definition wall_reason `{Environ} (exhausted : bool) (spent : bool) (used : pyval)
    (floor : spec_float) : res string :=
  if exhausted then Ok "exhausted"%string
  else if spent then g ← format_g used; Ok ("used_percent " +:+ g)
  else left ← remaining used;
       Ok ("below_floor " +:+ format_g_float floor +:+ " remaining " +:+ format_g_float left).

Definition availability `{Environ, PoolRuntime} (model : pyval) (quota : dict)
    (role : option string) : res (bool * string) :=
  family ← family_for model;
  match family with
  | None => Ok (false, "unsupported_model"%string)
  | Some family =>
  match assoc_get family QUOTA_PROVIDERS with
  | None => Ok (true, "no_quota_feed"%string)
  | Some provider =>
  match dict_get provider quota with
  | PDict summary =>
      if is_false (dict_get "observed" summary) then Ok (true, "unobserved"%string) else
      let used := dict_get "headline_used_percent" summary in
      let age := dict_get "age_seconds" summary in
      floor ← floor_for provider role;
      let has_used := is_number used in
      below ← below_floor has_used used floor;
      let exhausted := truthy (dict_get "exhausted" summary) in
      let spent := has_used && match ge_float used exhausted_percent with Ok b => b | _ => false end in
      if negb (exhausted || spent || below) then Ok (true, "available"%string) else
      reason ← wall_reason exhausted spent used floor;
      passed ← reset_passed (dict_get "resets_at" summary) None;
      match passed with
      | Some true => Ok (true, "reset_passed"%string)
      | Some false => Ok (false, reason)
      | None =>
          if gt_float age max_quota_age_seconds
          then g ← format_g age; Ok (true, "stale_observation age " +:+ g)
          else Ok (false, reason)
      end
  | _ => Ok (true, "unobserved"%string)
  end end end.

(** ** Confirmed availability *)

(** A readable, finite, non-negative age. *)
Definition readable_age (age : pyval) : res bool :=
  if is_number age then f ← to_float age; Ok (f_is_finite f && negb (flt f fzero)) else Ok false.

Definition over_age `{Environ} (age : pyval) : res bool :=
  f ← to_float age; Ok (flt kg_quota_max_age_seconds f).

(** One pass over the windows: a verdict, or how many still apply. *)
Fixpoint scan_windows `{Environ, PoolRuntime} (windows : list pyval) (floor : spec_float)
    (now : option Z) (applicable : Z) : res ((bool * string) + Z) :=
  match windows with
  | [] => Ok (inr applicable)
  | PDict window :: rest =>
      if negb (is_true (dict_get "usable" window)) then Ok (inl (false, "window_unusable"%string)) else
      name ← policy_index "name" window;
      used ← policy_index "used_percent" window;
      let resets_at := dict_get "resets_at" window in
      passed ← reset_passed resets_at now;
      match passed with
      | Some true => scan_windows rest floor now applicable
      | _ =>
          if negb (no_reset resets_at) && match passed with None => true | _ => false end
          then Ok (inl (false, "window " +:+ py_str name +:+ " reset_unusable")) else
          spent ← ge_float used exhausted_percent;
          if spent : bool then
            g ← format_g used;
            Ok (inl (false, "window " +:+ py_str name +:+ " used_percent " +:+ g)) else
          below ← below_floor true used floor;
          if below : bool then
            left ← remaining used;
            Ok (inl (false, "window " +:+ py_str name +:+ " below_floor " +:+ format_g_float floor
                            +:+ " remaining " +:+ format_g_float left))
          else scan_windows rest floor now (applicable + 1)
      end
  | _ :: _ => Ok (inl (false, "window_unusable"%string))
  end.

Definition _confirmed_view_availability `{Environ, PoolRuntime} (summary : dict) (provider : string)
    (role : option string) (now : option Z) : res (bool * string) :=
  let age := dict_get "age_seconds" summary in
  readable ← readable_age age;
  if negb readable then Ok (false, "observation_age_unknown"%string) else
  over ← over_age age;
  if over : bool then g ← format_g age; Ok (false, "stale_observation age " +:+ g) else
  match dict_get "windows" summary with
  | PList [] =>
      if is_true (dict_get "windows_observed" summary) then Ok (true, "all_windows_expired"%string)
      else Ok (false, "windows_unobserved"%string)
  | PList windows =>
      floor ← floor_for provider role;
      verdict ← scan_windows windows floor now 0;
      match verdict with
      | inl v => Ok v
      | inr applicable =>
          if applicable =? 0 then Ok (true, "all_windows_reset"%string)
          else if is_true (dict_get "exhausted" summary) then Ok (false, "exhausted"%string)
          else Ok (true, "confirmed_available"%string)
      end
  | _ => Ok (false, "windows_unobserved"%string)
  end.

Definition grant_observation_state `{Environ} (view : dict) : res string :=
  let age := dict_get "age_seconds" view in
  readable ← readable_age age;
  if negb readable then Ok "unknown"%string else
  over ← over_age age;
  Ok (if over : bool then "stale"%string else "fresh"%string).

Definition _grant_stale_note `{Environ} (view : dict) : res (option string) :=
  state ← grant_observation_state view;
  if bool_decide (state = "stale"%string) then
    g ← format_g (dict_get "age_seconds" view); Ok (Some ("stale_observation age " +:+ g))
  else Ok None.

Fixpoint sidecar_windows `{PoolRuntime} (view_exhausted : bool) (windows : list pyval)
    (now : option Z) (exhausted : bool) : res bool :=
  match windows with
  | [] => Ok exhausted
  | PDict window :: rest =>
      if negb (is_true (dict_get "usable" window)) then Ok false else
      let reset := dict_get "resets_at" window in
      passed ← reset_passed reset now;
      if negb (no_reset reset) && match passed with None => true | _ => false end then Ok false else
      match passed with
      | Some true => sidecar_windows view_exhausted rest now exhausted
      | _ =>
          used ← policy_index "used_percent" window;
          spent ← ge_float used f97;
          sidecar_windows view_exhausted rest now (if spent || view_exhausted then true else exhausted)
      end
  | _ :: _ => Ok false
  end.

Definition _sidecar_exhausted `{Environ, PoolRuntime} (view : dict) (now : option Z) : res bool :=
  state ← grant_observation_state view;
  if negb (bool_decide (state = "fresh"%string)) then Ok false else
  match dict_get "windows" view with
  | PList windows =>
      let view_exhausted := is_true (dict_get "exhausted" view) in
      sidecar_windows view_exhausted windows now
        (view_exhausted && match windows with [] => true | _ => false end)
  | _ => Ok false
  end.

(** What the pass over the grants accumulates. *)
Record GrantTally := mkTally {
  gt_reasons : list string;
  gt_skipped : list string;
  gt_evaluated : Z;
  gt_exhausted : list string;
}.
Definition add_reason (r : string) (t : GrantTally) : GrantTally :=
  mkTally (gt_reasons t ++ [r]) (gt_skipped t) (gt_evaluated t) (gt_exhausted t).
Definition add_skipped (r : string) (t : GrantTally) : GrantTally :=
  mkTally (gt_reasons t) (gt_skipped t ++ [r]) (gt_evaluated t) (gt_exhausted t).
Definition add_exhausted (r : string) (t : GrantTally) : GrantTally :=
  mkTally (gt_reasons t) (gt_skipped t) (gt_evaluated t) (gt_exhausted t ++ [r]).
Definition add_evaluated (t : GrantTally) : GrantTally :=
  mkTally (gt_reasons t) (gt_skipped t) (gt_evaluated t + 1) (gt_exhausted t).

(** [f"grant {grant} {text}" if grant else text]. *)
Definition grant_note `{PoolRuntime} (grant : pyval) (text : string) : string :=
  if truthy grant then "grant " +:+ py_str grant +:+ " " +:+ text else text.

(** A preferred grant must show new usage after every reported reset. *)
Fixpoint all_windows_current `{PoolRuntime} (windows : list pyval) (now : option Z) : res bool :=
  match windows with
  | [] => Ok true
  | PDict w :: rest =>
      if negb (is_true (dict_get "usable" w)) then Ok false else
      passed ← reset_passed (dict_get "resets_at" w) now;
      match passed with
      | Some false => all_windows_current rest now
      | _ => Ok false
      end
  | _ :: _ => Ok false
  end.
Definition current_windows `{PoolRuntime} (view : dict) (now : option Z) : res bool :=
  if truthy (dict_get "windows_expired" view) then Ok false else
  match dict_get "windows" view with
  | PList [] => Ok false
  | PList windows => all_windows_current windows now
  | _ => Ok false
  end.

(** One grant view. *)
Definition tally_view `{Environ, PoolRuntime} (provider : string) (role : option string)
    (now : option Z) (preferred : string) (t : GrantTally) (v : pyval) : res GrantTally :=
  match v with
  | PDict view =>
      let grant := dict_get "grant" view in
      if negb (is_true (dict_get "observed" view)) then
        Ok (add_reason (if truthy grant then "grant " +:+ py_str grant +:+ " unobserved"
                        else "grant unobserved") t) else
      note ← _grant_stale_note view;
      match note with
      | Some note =>
          Ok ((if negb (bool_decide (preferred = ""%string)) && py_eq grant (PStr preferred)
               then add_reason else add_skipped) (grant_note grant note) t)
      | None =>
      exhausted ← (if bool_decide (provider = "codex"%string) then _sidecar_exhausted view now
                   else Ok false);
      if exhausted : bool then
        verdict ← _confirmed_view_availability view provider role now;
        Ok (add_exhausted (grant_note grant verdict.2) t) else
      current ← (if bool_decide (preferred = ""%string) then Ok true else current_windows view now);
      if negb current then
        Ok (add_reason ("grant " +:+ py_str grant +:+ " current_windows_unconfirmed") t) else
      verdict ← _confirmed_view_availability view provider role now;
      let t := add_evaluated t in
      Ok (if verdict.1 : bool then t else add_reason (grant_note grant verdict.2) t)
      end
  | _ => Ok (add_reason "grant_inventory_unusable" t)
  end.

Fixpoint tally_views `{Environ, PoolRuntime} (provider : string) (role : option string)
    (now : option Z) (preferred : string) (t : GrantTally) (views : list pyval) : res GrantTally :=
  match views with
  | [] => Ok t
  | v :: views => t ← tally_view provider role now preferred t v;
                  tally_views provider role now preferred t views
  end.

(** The verdict of a tally. *)
Definition tally_verdict (t : GrantTally) : bool * string :=
  match gt_reasons t with
  | _ :: _ => (false, py_join "; " (gt_reasons t))
  | [] =>
      if gt_evaluated t =? 0 then
        (false, py_join "; " (match gt_exhausted t with [] => gt_skipped t | l => l end))
      else match gt_skipped t, gt_exhausted t with
           | [], [] => (true, "all_grants_confirmed_available"%string)
           | _, _ => (true, "confirmed_available"%string)
           end
  end.

(** [isinstance(views, list) and any(isinstance(v, dict) and v.get("grant") == preferred ...)]. *)
Definition names_grant (views : pyval) (preferred : string) : bool :=
  match views with
  | PList l => existsb (λ v, match v with
                             | PDict view => py_eq (dict_get "grant" view) (PStr preferred)
                             | _ => false
                             end) l
  | _ => false
  end.
Definition view_list (views : pyval) : list pyval := match views with PList l => l | _ => [] end.

Definition preferred_grant `{Environ} (provider : string) : string :=
  if bool_decide (provider = "codex"%string)
  then py_strip (default ""%string (environ "SWARM_CODEX_PREFERRED_GRANT")) else "".

Definition confirmed_availability `{Environ, PoolRuntime} (model quota : pyval)
    (role : option string) (now : option Z) : res (bool * string) :=
  family ← family_for model;
  match family with
  | None => Ok (false, "unsupported_model"%string)
  | Some family =>
  match assoc_get family QUOTA_PROVIDERS with
  | None => Ok (true, "no_quota_feed"%string)
  | Some provider =>
  match quota with
  | PDict quota =>
  match dict_get provider quota with
  | PDict summary =>
      let grant_views := dict_get "grant_views" summary in
      let preferred := preferred_grant provider in
      if negb (bool_decide (preferred = ""%string)) && negb (names_grant grant_views preferred)
      then Ok (false, "preferred_grant_unobserved"%string) else
      let observed := is_true (dict_get "observed" summary) in
      match view_list grant_views with
      | [] =>
          if negb observed then Ok (false, "unobserved"%string) else
          if negb (is_true (dict_get "grant_inventory_complete" summary))
          then Ok (false, "grant_inventory_incomplete"%string) else
          if negb (is_true (dict_get "grant_inventory_valid" summary))
          then Ok (false, "grant_inventory_unusable"%string) else
          _confirmed_view_availability summary provider role now
      | views =>
          if negb (is_true (dict_get "grant_inventory_complete" summary))
          then Ok (false, "grant_inventory_incomplete"%string) else
          if negb (is_true (dict_get "grant_inventory_valid" summary))
          then Ok (false, "grant_inventory_unusable"%string) else
          t ← tally_views provider role now preferred (mkTally [] [] 0 []) views;
          Ok (tally_verdict t)
      end
  | _ => Ok (false, "unobserved"%string)
  end
  | _ => Ok (false, "unobserved"%string)
  end end end.

(** ** Folding grants into the class view *)

(** [a < b] on the numbers, strings and lists the keys may be. *)
Fixpoint py_lt (a b : pyval) {struct a} : res bool :=
  match xnum_of a, xnum_of b with
  | Some x, Some y => Ok (xlt x y)
  | _, _ =>
      match a, b with
      | PStr s, PStr t => Ok (String.ltb s t)
      | PList l, PList m =>
          (fix go (l m : list pyval) {struct l} : res bool :=
             match l, m with
             | [], [] => Ok false
             | [], _ :: _ => Ok true
             | _ :: _, [] => Ok false
             | x :: l, y :: m => if py_eq x y then go l m else py_lt x y
             end) l m
      | _, _ => Raise TypeError
      end
  end.

(** [min(views, key=...)]: the first of the smallest. *)
Fixpoint min_by (key : dict → pyval) (best : dict) (views : list dict) : res dict :=
  match views with
  | [] => Ok best
  | v :: views => b ← py_lt (key v) (key best); min_by key (if b : bool then v else best) views
  end.

Definition age_key (v : dict) : pyval :=
  let age := dict_get "age_seconds" v in if truthy age then age else PFloat fzero.
Definition used_key (v : dict) : pyval :=
  let used := dict_get "headline_used_percent" v in
  if is_number used then used else PFloat (S754_infinity false).

(** [by_provider.setdefault(provider, []).append(view)]. *)
Definition group_view (groups : list (string * list dict)) (view : dict) : list (string * list dict) :=
  match dict_get "provider" view with
  | PStr p => dict_set p (default [] (assoc_get p groups) ++ [view]) groups
  | _ => groups
  end.

Definition inventory (complete valid : bool) (views : option (list dict)) (view : dict) : dict :=
  let view := match views with
              | Some vs => dict_set "grant_views" (PList (PDict <$> vs)) view
              | None => view
              end in
  dict_set "grant_inventory_valid" (PBool valid)
    (dict_set "grant_inventory_complete" (PBool complete) view).

(** The class view of one provider from its grants. *)
Definition fold_provider (complete : bool) (validity : list (string * bool))
    (merged : list (string * dict)) (group : string * list dict) : res (list (string * dict)) :=
  let '(provider, views) := group in
  let valid := default true (assoc_get provider validity) in
  let observed := filter (λ v, is_true (dict_get "observed" v) = true) views in
  let open := filter (λ v, truthy (dict_get "exhausted" v) = false) observed in
  match observed with
  | [] =>
      if negb (has_key provider merged) && negb complete then Ok merged else
      Ok (dict_set provider (inventory complete valid (Some views)
            (default [("observed", PBool false)]%string (assoc_get provider merged))) merged)
  | o :: os =>
      match open with
      | [] =>
          best ← min_by age_key o os;
          Ok (dict_set provider (inventory complete valid (Some views)
                (dict_set "exhausted" (PBool true) best)) merged)
      | v :: vs =>
          best ← min_by used_key v vs;
          Ok (dict_set provider (inventory complete valid (Some views)
                (dict_set "exhausted" (PBool false) best)) merged)
      end
  end.

Fixpoint fold_providers (complete : bool) (validity : list (string * bool))
    (merged : list (string * dict)) (groups : list (string * list dict)) : res (list (string * dict)) :=
  match groups with
  | [] => Ok merged
  | g :: groups => merged ← fold_provider complete validity merged g;
                   fold_providers complete validity merged groups
  end.

Definition rollup_grants (summary : list (string * dict)) (grants : list (string * dict))
    (grants_complete : bool) (grant_inventory_validity : option (list (string * bool)))
    : res (list (string * dict)) :=
  let validity := default [] grant_inventory_validity in
  let merged := (λ p, (p.1, inventory grants_complete (default true (assoc_get p.1 validity)) None p.2))
                <$> summary in
  fold_providers grants_complete validity merged (foldl group_view [] (snd <$> grants)).

(** ** Selecting a model *)

(** The first member with quota and its reason, or every refusal. *)
Fixpoint first_available `{Environ, PoolRuntime} (quota : dict) (role : option string)
    (pool : list pyval) (skipped : list (pyval * string))
    : res ((pyval * string * list (pyval * string)) + list (pyval * string)) :=
  match pool with
  | [] => Ok (inr skipped)
  | m :: pool =>
      v ← availability m quota role;
      if v.1 : bool then Ok (inl (m, v.2, skipped))
      else first_available quota role pool (skipped ++ [(m, v.2)])
  end.

Definition select_model `{Environ, PoolRuntime} (role : string) (policy : dict)
    (quota : option dict) : res Choice :=
  pool ← pool_for role policy;
  preferred ← first_member pool;
  match pool with
  | [_] => Ok (mkChoice preferred preferred PNone [] "single_member_pool")
  | _ =>
      found ← first_available (default quota_summary quota) (Some role) pool [];
      match found with
      | inl (m, reason, skipped) => Ok (choice m preferred skipped reason)
      | inr skipped => Ok (mkChoice preferred preferred PNone skipped "pool_exhausted")
      end
  end.

Record Escalation := mkEscalation {
  es_model : pyval;
  es_escalated_from : string;
  es_skipped : list (pyval * string);
  es_reason : string;
}.

(** The members after the first occurrence of [model]; [None] when absent. *)
Fixpoint after_model (model : string) (pool : list pyval) : option (list pyval) :=
  match pool with
  | [] => None
  | m :: pool => if py_eq m (PStr model) then Some pool else after_model model pool
  end.

Definition escalation_candidates (failed_model : string) (pool later : list pyval) : list pyval :=
  match pool with
  | m :: _ => if py_eq m (PStr "astra")
              then if bool_decide (failed_model = "astra"%string) then [] else [PStr "astra"]
              else later
  | [] => later
  end.

Definition escalate `{Environ, PoolRuntime} (role : string) (policy : dict)
    (failed_model : option string) (quota : option dict) : res (option Escalation) :=
  pool ← pool_for role policy;
  match failed_model with
  | None => Ok None
  | Some failed =>
      if bool_decide (failed = ""%string) then Ok None else
      match after_model failed pool with
      | None => Ok None
      | Some later =>
          match escalation_candidates failed pool later with
          | [] => Ok None
          | candidates =>
              found ← first_available (default quota_summary quota) (Some role) candidates [];
              match found with
              | inl (m, reason, skipped) => Ok (Some (mkEscalation m failed skipped reason))
              | inr _ => Ok None
              end
          end
      end
  end.

(** The reviewer loop: the judgment floor and the Claude window come first. *)
Definition reviewer_wall (judgment window_high : bool) (m : pyval) : res (option string) :=
  if judgment && negb (pystr_in m JUDGMENT_MODELS) then Ok (Some "below_judgment_floor"%string)
  else if window_high then
    family ← family_for m;
    Ok (if bool_decide (family = Some "claude"%string) then Some "claude_window_spent"%string else None)
  else Ok None.

Fixpoint scan_reviewers `{Environ, PoolRuntime} (judgment window_high : bool) (quota : dict)
    (pool : list pyval) (skipped : list (pyval * string))
    : res ((pyval * string * list (pyval * string)) + list (pyval * string)) :=
  match pool with
  | [] => Ok (inr skipped)
  | m :: pool =>
      wall ← reviewer_wall judgment window_high m;
      match wall with
      | Some reason => scan_reviewers judgment window_high quota pool (skipped ++ [(m, reason)])
      | None =>
          v ← availability m quota (Some "reviewer"%string);
          if v.1 : bool then Ok (inl (m, v.2, skipped))
          else scan_reviewers judgment window_high quota pool (skipped ++ [(m, v.2)])
      end
  end.

Record ReviewerChoice := mkReviewer {
  rv_choice : Choice;
  rv_pool : list pyval;
}.

Definition select_reviewer `{Environ, PoolRuntime} (policy : dict) (window_high judgment : bool)
    (quota : option dict) : res ReviewerChoice :=
  pool ← pool_for "reviewer" policy;
  found ← scan_reviewers judgment window_high (default quota_summary quota) pool [];
  match found with
  | inl (m, reason, skipped) =>
      preferred ← first_member pool;
      Ok (mkReviewer (choice m preferred skipped reason) pool)
  | inr skipped =>
      let preferred := match pool with p :: _ => p | [] => PNone end in
      Ok (mkReviewer (mkChoice PNone preferred PNone skipped "no_reviewer_available") pool)
  end.

(** The fallback evidence appended to a stated reason, cut to [limit]. *)
Definition selection_reason `{PoolRuntime} (reason : string) (c : Choice) (limit : nat) : string :=
  match ch_fallback_from c with
  | PNone => reason
  | from =>
      let skipped := py_join ", " ((λ s, py_str s.1 +:+ " " +:+ s.2) <$> ch_skipped c) in
      take_str limit (reason +:+ " (model fallback " +:+ py_str from +:+ " -> " +:+
                      py_str (ch_model c) +:+ ": " +:+ skipped +:+ ")")
  end.
