(* ===== verification/ModelPoolClaims.v ===== *)
(** * Model pools: theorems

    What the conductor and the knowledge-graph gate rely on: selection takes
    the first pool member with quota and only evidence of exhaustion moves it,
    escalation never moves down, judgment never runs below its floor, effort is
    never lowered, and confirmed admission needs a fresh permitting grant.
    Then the quota evidence behind the gate. *)

From Stdlib Require Import SpecFloat.
From stdpp Require Import prelude list strings pretty.
From S2P Require Import Prelude PyValue ModelCatalog ModelPool.
Local Open Scope Z_scope.

(** ** Selection *)

Section selection.
Context `{Environ, PoolRuntime}.

(** A member the quota walls, with the reason recorded for it. *)
Definition refused (quota : dict) (role : option string) (m : pyval) (s : pyval * string) : Prop :=
  s.1 = m ∧ availability m quota role = Ok (false, s.2).

(** What the scan of a pool returns. *)
Definition scan_spec (avail refuse : pyval → string → Prop) (pool : list pyval)
    (skipped : list (pyval * string))
    (found : (pyval * string * list (pyval * string)) + list (pyval * string)) : Prop :=
  match found with
  | inl (m, reason, skipped') =>
      ∃ pre post rej, pool = pre ++ m :: post ∧ avail m reason ∧ skipped' = skipped ++ rej ∧
        Forall2 (λ x s, s.1 = x ∧ refuse x s.2) pre rej
  | inr skipped' =>
      ∃ rej, skipped' = skipped ++ rej ∧ Forall2 (λ x s, s.1 = x ∧ refuse x s.2) pool rej
  end.

Lemma scan_spec_here (avail refuse : pyval → string → Prop) m r pool skipped :
  avail m r → scan_spec avail refuse (m :: pool) skipped (inl (m, r, skipped)).
Proof. intros Ha. exists [], pool, []. by rewrite app_nil_r. Qed.

Lemma scan_spec_later (avail refuse : pyval → string → Prop) m r pool skipped found :
  refuse m r → scan_spec avail refuse pool (skipped ++ [(m, r)]) found →
  scan_spec avail refuse (m :: pool) skipped found.
Proof.
  intros Hr. destruct found as [[[x reason] sk]|sk]; simpl.
  - intros (pre & post & rej & -> & Ha & -> & Hf). exists (m :: pre), post, ((m, r) :: rej).
    rewrite <-app_assoc. repeat split; [done|]. by constructor.
  - intros (rej & -> & Hf). exists ((m, r) :: rej). rewrite <-app_assoc. split; [done|].
    by constructor.
Qed.

Lemma first_available_spec quota role pool skipped found :
  first_available quota role pool skipped = Ok found →
  scan_spec (λ m r, availability m quota role = Ok (true, r))
            (λ m r, availability m quota role = Ok (false, r)) pool skipped found.
Proof.
  revert skipped. induction pool as [|m pool IH]; intros skipped; simpl.
  { intros [= <-]. exists []. by rewrite app_nil_r. }
  destruct (availability m quota role) as [[b r]|] eqn:Ha; simpl; [|done]. destruct b.
  - intros [= <-]. by apply scan_spec_here.
  - intros Hf%IH. by eapply scan_spec_later.
Qed.

(** Selection takes the first pool member whose provider has quota, and
    records each earlier member with the reason it was refused; only when
    every member is refused does it keep the preferred one. *)
Theorem select_model_first_available role policy quota pool c :
  pool_for role policy = Ok pool → (2 ≤ length pool)%nat →
  select_model role policy (Some quota) = Ok c →
  head pool = Some (ch_preferred c) ∧
  ((∃ pre post, pool = pre ++ ch_model c :: post ∧
      availability (ch_model c) quota (Some role) = Ok (true, ch_reason c) ∧
      Forall2 (refused quota (Some role)) pre (ch_skipped c)) ∨
   (ch_model c = ch_preferred c ∧ ch_reason c = "pool_exhausted"%string ∧
      Forall2 (refused quota (Some role)) pool (ch_skipped c))).
Proof.
  intros Hp Hlen. unfold select_model. rewrite Hp. destruct pool as [|m1 [|m2 pool]]; simpl in Hlen; [lia..|].
  cbn [mbind res_bind first_member]. intros (found & Hf%first_available_spec & Hc)%res_bind_ok.
  destruct found as [[[m reason] sk]|sk].
  - destruct Hf as (pre & post & rej & Hpool & Ha & -> & Hrej). injection Hc as <-. simpl.
    split; [done|]. left. exists pre, post. auto.
  - destruct Hf as (rej & -> & Hrej). injection Hc as <-. simpl. split; [done|]. right. auto.
Qed.

(** Only positive evidence moves selection off a supported model: a
    refusal means the provider was observed exhausted, above the exhaustion
    threshold or below the role's floor, that no known reset has passed, and, when no
    reset is known, that the observation is not stale. *)
Theorem refusal_needs_evidence m quota role reason :
  availability m quota role = Ok (false, reason) →
  family_for m = Ok None ∨
  ∃ family provider summary floor,
    family_for m = Ok (Some family) ∧ assoc_get family QUOTA_PROVIDERS = Some provider ∧
    dict_get provider quota = PDict summary ∧ is_false (dict_get "observed" summary) = false ∧
    floor_for provider role = Ok floor ∧
    (truthy (dict_get "exhausted" summary) = true ∨
     ge_float (dict_get "headline_used_percent" summary) exhausted_percent = Ok true ∨
     below_floor true (dict_get "headline_used_percent" summary) floor = Ok true) ∧
    (reset_passed (dict_get "resets_at" summary) None = Ok (Some false) ∨
     reset_passed (dict_get "resets_at" summary) None = Ok None ∧
     gt_float (dict_get "age_seconds" summary) max_quota_age_seconds = false).
Proof.
  unfold availability. destruct (family_for m) as [[family|]|]; cbn [mbind res_bind]; [|by left|done].
  destruct (assoc_get family QUOTA_PROVIDERS) as [provider|] eqn:Hprov; [|done].
  destruct (dict_get provider quota) as [| | | | | |summary|] eqn:Hs; try done.
  destruct (is_false _) eqn:Hobs; [done|].
  destruct (floor_for provider role) as [floor|] eqn:Hfl; cbn [mbind res_bind]; [|done].
  set (used := dict_get "headline_used_percent" summary).
  destruct (below_floor (is_number used) used floor) as [below|] eqn:Hbelow; cbn [mbind res_bind]; [|done].
  set (spent := is_number used && _).
  destruct (truthy _ || spent || below) eqn:Hwall; simpl; [|done].
  destruct (wall_reason _ _ _ _) as [why|]; cbn [mbind res_bind]; [|done].
  destruct (reset_passed _ None) as [passed|] eqn:Hpass; cbn [mbind res_bind]; [|done].
  intros Hres. right. exists family, provider, summary, floor. fold used. repeat split; try done.
  - rewrite !orb_true_iff in Hwall. destruct Hwall as [[Hw|Hw]|Hw]; [by left|right; left|right; right].
    + unfold spent in Hw. apply andb_true_iff in Hw as [_ Hw].
      destruct (ge_float used exhausted_percent) as [[]|]; done.
    + unfold below_floor in *. destruct (is_number used); [by subst|]. by subst.
  - destruct passed as [[]|]; [done|by left|right; split; [done|]].
    destruct (gt_float _ _); [|done]. destruct (format_g _); done.
Qed.

(** ** Escalation *)

Lemma after_model_split failed pool later :
  after_model failed pool = Some later →
  ∃ pre x, pool = pre ++ x :: later ∧ py_eq x (PStr failed) = true ∧
    ∀ y, y ∈ pre → py_eq y (PStr failed) = false.
Proof.
  induction pool as [|m pool IH]; simpl; [done|]. destruct (py_eq m (PStr failed)) eqn:E.
  - intros [= <-]. exists [], m. split; [done|]. split; [done|]. by intros y ?%elem_of_nil.
  - intros (pre & x & -> & Hx & Hpre)%IH. exists (m :: pre), x. split; [done|]. split; [done|].
    intros y [->|Hy]%elem_of_cons; auto.
Qed.

(** Escalation never moves work down the pool: the model it names has
    quota, stands after the first occurrence of the failed model, and every
    member in between is walled; a pool led by Astra orders fallbacks, and
    from it a failed fallback can only return to Astra. *)
Theorem escalate_moves_up role policy failed quota pool e :
  pool_for role policy = Ok pool → escalate role policy (Some failed) (Some quota) = Ok (Some e) →
  availability (es_model e) quota (Some role) = Ok (true, es_reason e) ∧ es_escalated_from e = failed ∧
  ∃ pre x later, pool = pre ++ x :: later ∧ py_eq x (PStr failed) = true ∧
    (∀ y, y ∈ pre → py_eq y (PStr failed) = false) ∧
    (if match pool with m :: _ => py_eq m (PStr "astra") | [] => false end
     then es_model e = PStr "astra" ∧ failed ≠ "astra"%string
     else ∃ between rest, later = between ++ es_model e :: rest ∧
            Forall2 (refused quota (Some role)) between (es_skipped e)).
Proof.
  intros Hp. unfold escalate. rewrite Hp. cbn [mbind res_bind].
  destruct (bool_decide _); [done|]. destruct (after_model failed pool) as [later|] eqn:Hl; [|done].
  set (cands := escalation_candidates failed pool later). intros Hrun.
  assert (∃ found, first_available quota (Some role) cands [] = Ok found ∧
    match found with
    | inl (m, reason, sk) => Some e = Some (mkEscalation m failed sk reason)
    | inr _ => False
    end) as (found & Hf%first_available_spec & He).
  { destruct cands; [done|]. apply res_bind_ok in Hrun as (found & Hf & Hr). exists found.
    split; [done|]. destruct found as [[[m r] sk]|]; [congruence|done]. }
  destruct found as [[[m reason] sk]|]; [|done]. injection He as ->. simpl.
  destruct Hf as (between & rest & rej & Hc & Ha & -> & Hrej).
  split; [done|]. split; [done|]. destruct (after_model_split _ _ _ Hl) as (pre & x & Hpool & Hx & Hpre).
  exists pre, x, later. split; [done|]. split; [done|]. split; [done|].
  unfold cands, escalation_candidates in Hc. destruct pool as [|h pool]; [by destruct pre|].
  destruct (py_eq h (PStr "astra")); [|eauto].
  case_bool_decide; [by destruct between|]. split; [|done].
  destruct between as [|? [|]]; simplify_eq/=; done.
Qed.

(** ** Review *)

(** Why a reviewer is passed over: the floor, the window or its quota. *)
Definition reviewer_refused (judgment window_high : bool) (quota : dict) (m : pyval) (r : string)
    : Prop :=
  reviewer_wall judgment window_high m = Ok (Some r) ∨
  reviewer_wall judgment window_high m = Ok None ∧
  availability m quota (Some "reviewer"%string) = Ok (false, r).

Lemma scan_reviewers_spec judgment window_high quota pool skipped found :
  scan_reviewers judgment window_high quota pool skipped = Ok found →
  scan_spec (λ m r, reviewer_wall judgment window_high m = Ok None ∧
                    availability m quota (Some "reviewer"%string) = Ok (true, r))
            (reviewer_refused judgment window_high quota) pool skipped found.
Proof.
  revert skipped. induction pool as [|m pool IH]; intros skipped; cbn [scan_reviewers].
  { intros [= <-]. exists []. by rewrite app_nil_r. }
  destruct (reviewer_wall judgment window_high m) as [[r|]|] eqn:Hw; cbn [mbind res_bind]; [| |done].
  - intros Hf%IH. eapply scan_spec_later; [|done]. by left.
  - destruct (availability m quota _) as [[b r]|] eqn:Ha; cbn [mbind res_bind fst snd]; [|done].
    destruct b; [intros [= <-]; by apply scan_spec_here|].
    intros Hf%IH. eapply scan_spec_later; [|done]. by right.
Qed.

Lemma reviewer_wall_None judgment window_high m :
  reviewer_wall judgment window_high m = Ok None →
  (judgment = true → pystr_in m JUDGMENT_MODELS = true) ∧
  (window_high = true → family_for m ≠ Ok (Some "claude"%string)).
Proof.
  unfold reviewer_wall. destruct (judgment && _) eqn:Hj; [done|]. intros Hw. split.
  - intros ->. destruct (pystr_in m JUDGMENT_MODELS); done.
  - intros ->. intros Hf. rewrite Hf in Hw. done.
Qed.

(** The review gate cannot be skipped or downgraded: a chosen reviewer is
    the first pool member that passes every constraint (a judgment review runs
    only on a model at the judgment floor, and no Claude model reviews while
    the window is nearly spent), the members before it are recorded with their
    reasons, and no reviewer is chosen exactly when every member is refused. *)
Theorem select_reviewer_gate policy window_high judgment quota c :
  select_reviewer policy window_high judgment (Some quota) = Ok c →
  pool_for "reviewer" policy = Ok (rv_pool c) ∧
  ((∃ pre post, rv_pool c = pre ++ ch_model (rv_choice c) :: post ∧
      (judgment = true → pystr_in (ch_model (rv_choice c)) JUDGMENT_MODELS = true) ∧
      (window_high = true → family_for (ch_model (rv_choice c)) ≠ Ok (Some "claude"%string)) ∧
      availability (ch_model (rv_choice c)) quota (Some "reviewer"%string) =
        Ok (true, ch_reason (rv_choice c)) ∧
      Forall2 (λ x s, s.1 = x ∧ reviewer_refused judgment window_high quota x s.2) pre
        (ch_skipped (rv_choice c))) ∨
   (ch_model (rv_choice c) = PNone ∧ ch_reason (rv_choice c) = "no_reviewer_available"%string ∧
      Forall2 (λ x s, s.1 = x ∧ reviewer_refused judgment window_high quota x s.2) (rv_pool c)
        (ch_skipped (rv_choice c)))).
Proof.
  unfold select_reviewer. intros (pool & Hp & (found & Hf%scan_reviewers_spec & Hc)%res_bind_ok)%res_bind_ok.
  destruct found as [[[m reason] sk]|sk].
  - destruct Hf as (pre & post & rej & -> & [Hw Ha] & -> & Hrej).
    apply res_bind_ok in Hc as (preferred & _ & Hc). injection Hc as <-. simpl. split; [done|].
    left. apply reviewer_wall_None in Hw as [Hj Hwin]. exists pre, post. auto.
  - destruct Hf as (rej & -> & Hrej). injection Hc as <-. simpl. split; [done|]. right. auto.
Qed.
End selection.

(** ** Effort and the judgment floor *)

Lemma index_of_elem x l : is_Some (index_of x l) ↔ x ∈ l.
Proof.
  induction l as [|y l IH]; simpl; [rewrite elem_of_nil; split; [by intros []|done]|].
  rewrite elem_of_cons. case_bool_decide as E.
  - split; [by left|eauto].
  - rewrite fmap_is_Some, IH. split; [by right|]. intros [->|?]; done.
Qed.

(** A node may raise its role's effort and never lower it: with a valid
    request and a valid role default the result is the higher of the two, and
    a request outside the levels is an error. *)
Theorem effort_never_lowered `{PoolRuntime} node_key policy requested :
  let dflt := effort_for_role (effort_role node_key) policy in
  match index_of dflt EFFORT_LEVELS, index_of requested EFFORT_LEVELS with
  | Some i, Some j =>
      ∃ e, effort_for node_key policy (Some requested) = Ok e ∧
           index_of e EFFORT_LEVELS = Some (Nat.max i j)
  | _, None => effort_for node_key policy (Some requested) = Raise (ValueError "invalid node effort")
  | None, Some _ => effort_for node_key policy (Some requested) =
      Raise (ValueError "tuple.index(x): x not in tuple")
  end ∧ effort_for node_key policy None = Ok dflt.
Proof.
  intros dflt. split; [|done]. unfold effort_for, effort_index. fold dflt.
  assert (str_in requested EFFORT_LEVELS = bool_decide (is_Some (index_of requested EFFORT_LEVELS))) as Hin.
  { apply bool_decide_ext. symmetry. apply index_of_elem. }
  rewrite Hin. destruct (index_of requested EFFORT_LEVELS) as [j|] eqn:Hj.
  - rewrite bool_decide_eq_true_2 by eauto. cbn [negb mbind res_bind].
    destruct (index_of dflt EFFORT_LEVELS) as [i|] eqn:Hi; cbn [mbind res_bind]; [|done].
    eexists. split; [reflexivity|].
    destruct (Nat.ltb_spec i j); [rewrite Hj|rewrite Hi]; f_equal; lia.
  - rewrite bool_decide_eq_false_2 by (by intros []). by destruct (index_of dflt EFFORT_LEVELS).
Qed.

Lemma floor_scan_inl pool sk m sk' :
  floor_scan pool sk = inl (m, sk') → m ∈ pool ∧ pystr_in m JUDGMENT_MODELS = true.
Proof.
  revert sk. induction pool as [|x pool IH]; intros sk; simpl; [done|].
  destruct (pystr_in x JUDGMENT_MODELS) eqn:E.
  - intros [= <- _]. split; [constructor|done].
  - intros [Hin ?]%IH. split; [by constructor|done].
Qed.

Lemma floor_scan_inr pool sk sk' :
  floor_scan pool sk = inr sk' → ∀ m, m ∈ pool → pystr_in m JUDGMENT_MODELS = false.
Proof.
  revert sk. induction pool as [|x pool IH]; intros sk; simpl; [by intros _ m ?%elem_of_nil|].
  destruct (pystr_in x JUDGMENT_MODELS) eqn:E; [done|].
  intros Hs m [->|Hm]%elem_of_cons; [done|]. by eapply IH.
Qed.

(** Judgment never runs on a cheap lane by accident: the model chosen
    for it is at the judgment floor whenever the implement or the conductor
    pool names one, taken from the implement pool first; otherwise it is the
    configured conductor model. *)
Theorem judgment_floor_held `{PoolRuntime} policy c wp cp :
  pool_for "implement" policy = Ok wp → pool_for "conductor" policy = Ok cp →
  judgment_floor policy = Ok c →
  (pystr_in (ch_model c) JUDGMENT_MODELS = true ∧ ch_model c ∈ wp) ∨
  ((∀ m, m ∈ wp → pystr_in m JUDGMENT_MODELS = false) ∧
   ((pystr_in (ch_model c) JUDGMENT_MODELS = true ∧ ch_model c ∈ cp) ∨
    ((∀ m, m ∈ cp → pystr_in m JUDGMENT_MODELS = false) ∧
     assoc_get "conductor_model" policy = Some (ch_model c)))).
Proof.
  intros Hw Hcp. unfold judgment_floor. rewrite Hw, Hcp. cbn [mbind res_bind].
  intros (preferred & _ & Hc)%res_bind_ok. destruct (floor_scan wp []) as [[m sk]|sk] eqn:E1.
  { injection Hc as <-. left. by apply floor_scan_inl in E1 as [? ?]. }
  right. split; [by eapply floor_scan_inr|]. destruct (floor_scan cp sk) as [[m sk']|sk'] eqn:E2.
  { injection Hc as <-. left. by apply floor_scan_inl in E2 as [? ?]. }
  right. split; [by eapply floor_scan_inr|]. apply res_bind_ok in Hc as (m & Hm & Hc).
  injection Hc as <-. simpl. unfold policy_index in Hm. destruct (assoc_get _ policy); [|done]. congruence.
Qed.

(** * Model pools: quota evidence

    The knowledge-graph gate ([confirmed_availability]), its freshness bound,
    and the fold of several account grants into one class view. *)

(** ** Freshness *)

Lemma kg_age_bound_or_nan `{Environ} :
  fle kg_quota_max_age_seconds SIDECAR_GRANT_STALE_AFTER_SECONDS = true ∨
  kg_quota_max_age_seconds = S754_nan.
Proof.
  unfold kg_quota_max_age_seconds, fmin. destruct (flt _ max_quota_age_seconds) eqn:E.
  - left. by apply xle_refl.
  - destruct max_quota_age_seconds eqn:Hm; try (left; by apply xlt_total). by right.
Qed.

(** The gate's freshness bound never exceeds the sidecar's fixed 900
    seconds, whatever the environment sets, with one exception: the text of a
    NaN is accepted, the bound is then that NaN, and no observation, however
    old, is ever stale. *)
Theorem kg_age_bound `{Environ} :
  fle kg_quota_max_age_seconds SIDECAR_GRANT_STALE_AFTER_SECONDS = true ∨
  (kg_quota_max_age_seconds = S754_nan ∧
   ∀ view, grant_observation_state view ≠ Ok "stale"%string).
Proof.
  destruct kg_age_bound_or_nan as [Hle|Hnan]; [by left|right]. split; [done|]. intros view.
  unfold grant_observation_state, over_age. rewrite Hnan.
  destruct (readable_age _) as [[]|]; cbn [mbind res_bind negb]; [|done..].
  by destruct (to_float _).
Qed.

Section gate.
Context `{Environ, PoolRuntime}.

(** A view the gate accepts is readable and within the bound. *)
Lemma confirmed_view_fresh view provider role now r :
  _confirmed_view_availability view provider role now = Ok (true, r) →
  grant_observation_state view = Ok "fresh"%string.
Proof.
  unfold _confirmed_view_availability, grant_observation_state.
  destruct (readable_age _) as [[]|]; cbn [mbind res_bind negb]; [|done..].
  destruct (over_age _) as [[]|]; cbn [mbind res_bind]; [|done..].
  destruct (format_g _); done.
Qed.

(** What one grant that raises no objection is: stale, spent for the sidecar
    too, or confirmed. *)
Definition grant_permits (provider : string) (role : option string) (now : option Z) (view : dict)
    : Prop :=
  ∃ r, _confirmed_view_availability view provider role now = Ok (true, r).
Definition grant_harmless (provider : string) (role : option string) (now : option Z) (view : dict)
    : Prop :=
  grant_observation_state view = Ok "stale"%string ∨
  (provider = "codex"%string ∧ _sidecar_exhausted view now = Ok true).

Lemma stale_note_Some view note :
  _grant_stale_note view = Ok (Some note) → grant_observation_state view = Ok "stale"%string.
Proof.
  unfold _grant_stale_note. destruct (grant_observation_state view) as [s|]; cbn [mbind res_bind]; [|done].
  by case_bool_decide as E; [rewrite E|].
Qed.

Lemma tally_view_quiet provider role now preferred t v t' :
  tally_view provider role now preferred t v = Ok t' → gt_reasons t' = [] →
  gt_reasons t = [] ∧ ∃ view, v = PDict view ∧ is_true (dict_get "observed" view) = true ∧
    ((gt_evaluated t' = gt_evaluated t ∧ grant_harmless provider role now view) ∨
     (gt_evaluated t' = gt_evaluated t + 1 ∧ grant_permits provider role now view)).
Proof.
  assert (∀ r u, gt_reasons (add_reason r u) ≠ []) as Hne.
  { intros r u. simpl. intros [_ ?]%app_eq_nil. done. }
  unfold tally_view. destruct v as [| | | | | |view|]; try (intros [= <-] Hr; by apply Hne in Hr).
  destruct (is_true _) eqn:Hobs; cbn [negb]; [|intros [= <-] Hr; by apply Hne in Hr].
  destruct (_grant_stale_note view) as [[note|]|] eqn:Hnote; cbn [mbind res_bind]; [| |done].
  { intros [= <-]. destruct (negb _ && _); [intros Hr; by apply Hne in Hr|]. simpl. intros ->.
    split; [done|]. exists view. repeat split; [done|]. left. split; [done|]. left.
    by eapply stale_note_Some. }
  destruct (if bool_decide (provider = _) then _ else Ok false) as [[]|] eqn:Hex;
    cbn [mbind res_bind]; [| |done].
  { intros (verdict & _ & Hs)%res_bind_ok. injection Hs as <-. simpl. intros ->. split; [done|].
    exists view. repeat split; [done|]. left. split; [done|]. right. by case_bool_decide. }
  destruct (if bool_decide (preferred = _) then _ else _) as [[]|]; cbn [mbind res_bind negb];
    [|intros [= <-] Hr; by apply Hne in Hr|done].
  intros (verdict & Hv & Hs)%res_bind_ok. injection Hs as <-. destruct verdict as [[] r]; simpl.
  - intros ->. split; [done|]. exists view. repeat split; [done|]. right. split; [done|]. by exists r.
  - intros Hr. by apply app_eq_nil in Hr as [_ ?].
Qed.

Lemma tally_views_quiet provider role now preferred t views t' :
  tally_views provider role now preferred t views = Ok t' → gt_reasons t' = [] →
  gt_reasons t = [] ∧
  (∀ v, v ∈ views → ∃ view, v = PDict view ∧ is_true (dict_get "observed" view) = true ∧
     (grant_harmless provider role now view ∨ grant_permits provider role now view)) ∧
  (gt_evaluated t' = gt_evaluated t ∨
   ∃ view, PDict view ∈ views ∧ grant_permits provider role now view).
Proof.
  revert t. induction views as [|v views IH]; intros t; cbn [tally_views].
  { intros [= ->] Hr. split; [done|]. split; [by intros v ?%elem_of_nil|by left]. }
  intros (t1 & H1 & H2)%res_bind_ok Hr. destruct (IH t1 H2 Hr) as (Hr1 & Hall & Hev).
  destruct (tally_view_quiet _ _ _ _ _ _ _ H1 Hr1) as (Hr0 & view & -> & Hobs & Hcase).
  split; [done|]. split.
  - intros x [->|Hx]%elem_of_cons; [|auto]. exists view. split; [done|]. split; [done|]. tauto.
  - destruct Hcase as [[He _]|[_ Hp]]; [|right; exists view; split; [constructor|done]].
    destruct Hev as [Hev|(w & Hw & Hpw)]; [left; congruence|right; exists w; split; [by constructor|done]].
Qed.

(** C40: the knowledge-graph gate fails closed: when several grants are
    reported and it admits, the inventory is complete and valid, at least one
    observed grant is fresh and permitting on its own, and every other grant is
    observed and is stale, excluded by the sidecar as exhausted, or itself
    permitting; an unobserved or malformed one vetoes. *)
Theorem confirmed_admission_sound m quota role now r family provider summary :
  family_for m = Ok (Some family) → assoc_get family QUOTA_PROVIDERS = Some provider →
  dict_get provider quota = PDict summary → view_list (dict_get "grant_views" summary) ≠ [] →
  confirmed_availability m (PDict quota) role now = Ok (true, r) →
  is_true (dict_get "grant_inventory_complete" summary) = true ∧
  is_true (dict_get "grant_inventory_valid" summary) = true ∧
  (∃ view, PDict view ∈ view_list (dict_get "grant_views" summary) ∧
     grant_observation_state view = Ok "fresh"%string ∧ grant_permits provider role now view) ∧
  (∀ v, v ∈ view_list (dict_get "grant_views" summary) →
     ∃ view, v = PDict view ∧ is_true (dict_get "observed" view) = true ∧
       (grant_harmless provider role now view ∨ grant_permits provider role now view)).
Proof.
  intros Hf Hprov Hs Hne. unfold confirmed_availability. rewrite Hf. cbn [mbind res_bind].
  rewrite Hprov, Hs. destruct (negb _ && negb _); [done|].
  destruct (view_list (dict_get "grant_views" summary)) as [|v0 vs] eqn:Hvs; [done|].
  destruct (is_true (dict_get "grant_inventory_complete" summary)); cbn [negb]; [|done].
  destruct (is_true (dict_get "grant_inventory_valid" summary)); cbn [negb]; [|done].
  intros (t & Ht & Hv)%res_bind_ok. injection Hv as Hv.
  assert (gt_reasons t = [] ∧ gt_evaluated t ≠ 0) as [Hr Hev].
  { unfold tally_verdict in Hv. destruct (gt_reasons t); [|done]. split; [done|].
    destruct (Z.eqb_spec (gt_evaluated t) 0); [done|]. done. }
  destruct (tally_views_quiet _ _ _ _ _ _ _ Ht Hr) as (_ & Hall & [He|(view & Hin & Hp)]); [by destruct Hev|].
  split; [done|]. split; [done|]. split; [|done]. exists view. split; [done|]. split; [|done].
  destruct Hp as [r' Hp]. by eapply confirmed_view_fresh.
Qed.
End gate.

(** ** The least used *)

Lemma xlt_trans x y z : xlt x y = true → xlt y z = true → xlt x z = true.
Proof.
  assert (∀ m1 e1 m2 e2 e, e ≤ e1 → e ≤ e2 →
    xlt (XFin m1 e1) (XFin m2 e2) = true ↔ m1 * 2 ^ (e1 - e) < m2 * 2 ^ (e2 - e)) as Hfin.
  { intros. unfold xlt, xcompare. rewrite (dyadic_compare_scale _ _ _ _ e) by lia.
    destruct (Z.compare_spec (m1 * 2 ^ (e1 - e)) (m2 * 2 ^ (e2 - e))); split; first [done | lia]. }
  destruct x as [m1 e1|a|], y as [m2 e2|b|], z as [m3 e3|c|]; try (intros; discriminate).
  - set (e := Z.min e1 (Z.min e2 e3)). rewrite !(Hfin _ _ _ _ e) by lia. lia.
  - unfold xlt; simpl; by destruct c.
  - unfold xlt; simpl; by destruct b.
  - unfold xlt; simpl; by destruct b, c.
  - unfold xlt; simpl; by destruct a.
  - unfold xlt; simpl; by destruct a, c.
  - unfold xlt; simpl; by destruct a, b.
  - unfold xlt; simpl; by destruct a, b, c.
Qed.

Lemma used_key_number v : ∃ x, xnum_of (used_key v) = Some x.
Proof. unfold used_key. destruct (dict_get _ v); simpl; eauto. Qed.

Definition used_lt (v w : dict) : bool :=
  match xnum_of (used_key v), xnum_of (used_key w) with
  | Some x, Some y => xlt x y
  | _, _ => false
  end.

Lemma py_lt_used v w : py_lt (used_key v) (used_key w) = Ok (used_lt v w).
Proof.
  unfold used_lt. destruct (used_key_number v) as [x Hx], (used_key_number w) as [y Hy].
  assert (∀ a b x y, xnum_of a = Some x → xnum_of b = Some y → py_lt a b = Ok (xlt x y)) as Hlt.
  { intros a b x' y' Ha Hb. destruct a; try done; simpl in *; by rewrite Hb; simplify_eq. }
  by rewrite (Hlt _ _ x y), Hx, Hy.
Qed.

Lemma used_lt_trans u v w : used_lt u v = true → used_lt v w = true → used_lt u w = true.
Proof.
  unfold used_lt. destruct (used_key_number u) as [x ->], (used_key_number v) as [y ->],
    (used_key_number w) as [z ->]. apply xlt_trans.
Qed.

Lemma used_lt_irrefl v : used_lt v v = false.
Proof.
  unfold used_lt. destruct (used_key_number v) as [x ->]. unfold xlt.
  destruct x as [mx ex|[]|]; simpl; [by rewrite Z.compare_refl|done..].
Qed.

(** [min] is total here, returns a member, and nothing is below it. *)
Lemma min_by_used best vs :
  ∃ b, min_by used_key best vs = Ok b ∧ b ∈ best :: vs ∧ ∀ o, o ∈ best :: vs → used_lt o b = false.
Proof.
  assert (∀ seen best, best ∈ seen → (∀ o, o ∈ seen → used_lt o best = false) →
    ∃ b, min_by used_key best vs = Ok b ∧ b ∈ seen ++ vs ∧
      ∀ o, o ∈ seen ++ vs → used_lt o b = false) as Hgen.
  { induction vs as [|v vs IH]; intros seen b0 Hb Hmin; simpl.
    { exists b0. rewrite app_nil_r. auto. }
    rewrite py_lt_used. cbn [mbind res_bind].
    destruct (IH (seen ++ [v]) (if used_lt v b0 then v else b0)) as (b & H1 & H2 & H3).
    - apply elem_of_app. destruct (used_lt v b0); [right; constructor|by left].
    - intros o [Ho|Ho]%elem_of_app.
      + destruct (used_lt v b0) eqn:E; [|auto]. apply not_true_is_false. intros Hlt.
        specialize (Hmin o Ho). by rewrite (used_lt_trans o v b0) in Hmin.
      + apply list_elem_of_singleton in Ho as ->.
        destruct (used_lt v b0) eqn:E; [apply used_lt_irrefl|done].
    - exists b. rewrite <-app_assoc in H2, H3. auto. }
  destruct (Hgen [best] best) as (b & ? & ? & ?); [constructor| |eauto].
  intros o ->%list_elem_of_singleton. apply used_lt_irrefl.
Qed.

(** ** The class view *)

Definition provider_is (p : string) (v : dict) : bool :=
  match dict_get "provider" v with PStr s => bool_decide (s = p) | _ => false end.
Definition grants_of (p : string) (views : list dict) : list dict :=
  filter (λ v, provider_is p v = true) views.

Lemma group_views_get p views acc :
  default [] (assoc_get p (foldl group_view acc views)) =
  default [] (assoc_get p acc) ++ grants_of p views.
Proof.
  revert acc. induction views as [|v views IH]; intros acc; simpl; [by rewrite app_nil_r|].
  rewrite IH. unfold grants_of. rewrite filter_cons. unfold group_view, provider_is.
  destruct (dict_get "provider" v) as [| | | |s| | |]; try (rewrite decide_False by done; done).
  destruct (decide (s = p)) as [->|Hne].
  - rewrite assoc_get_set_eq. simpl. rewrite decide_True by (by apply bool_decide_eq_true_2).
    by rewrite <-app_assoc.
  - rewrite assoc_get_set_ne by done.
    rewrite decide_False by (rewrite bool_decide_eq_true; done). done.
Qed.

Lemma group_views_NoDup views acc : NoDup acc.*1 → NoDup (foldl group_view acc views).*1.
Proof.
  revert acc. induction views as [|v views IH]; intros acc Hnd; simpl; [done|]. apply IH.
  unfold group_view. destruct (dict_get "provider" v); try done. by apply dict_set_NoDup.
Qed.

Lemma fold_provider_other complete validity merged g merged' p :
  fold_provider complete validity merged g = Ok merged' → g.1 ≠ p →
  assoc_get p merged' = assoc_get p merged.
Proof.
  destruct g as [provider views]. simpl. intros Hf Hne. destruct (filter _ views) as [|o os] eqn:Ho.
  { destruct (negb _ && negb _); injection Hf as <-; [done|]. by rewrite assoc_get_set_ne. }
  destruct (filter _ (o :: os)) as [|v vs];
    apply res_bind_ok in Hf as (best & _ & Hf); injection Hf as <-; by rewrite assoc_get_set_ne.
Qed.

Lemma fold_providers_skip complete validity groups merged merged' p :
  fold_providers complete validity merged groups = Ok merged' → p ∉ groups.*1 →
  assoc_get p merged' = assoc_get p merged.
Proof.
  revert merged. induction groups as [|g groups IH]; intros merged; simpl; [by intros [= ->]|].
  intros (m1 & H1 & H2)%res_bind_ok [Hne Hin]%not_elem_of_cons.
  rewrite (IH m1 H2 Hin). by eapply fold_provider_other.
Qed.

(** The step of a provider is the last one to write its entry. *)
Lemma fold_providers_at complete validity groups merged merged' p views :
  fold_providers complete validity merged groups = Ok merged' → NoDup groups.*1 →
  (p, views) ∈ groups →
  ∃ m1 m2, fold_provider complete validity m1 (p, views) = Ok m2 ∧ assoc_get p merged' = assoc_get p m2.
Proof.
  revert merged. induction groups as [|g groups IH]; intros merged; simpl; [by intros _ _ ?%elem_of_nil|].
  intros (m1 & H1 & H2)%res_bind_ok [Hg Hnd]%NoDup_cons [<-|Hin]%elem_of_cons.
  - exists merged, m1. split; [done|]. by eapply fold_providers_skip.
  - by eapply IH.
Qed.

(** The keys the fold writes itself. *)
Definition FOLD_KEYS : list string :=
  ["exhausted"; "grant_views"; "grant_inventory_complete"; "grant_inventory_valid"].

Lemma inventory_get complete valid vs view k :
  dict_get k (inventory complete valid (Some vs) (dict_set "exhausted" view.1 view.2)) =
  if bool_decide (k = "grant_inventory_valid"%string) then PBool valid
  else if bool_decide (k = "grant_inventory_complete"%string) then PBool complete
  else if bool_decide (k = "grant_views"%string) then PList (PDict <$> vs)
  else if bool_decide (k = "exhausted"%string) then view.1
  else dict_get k view.2.
Proof.
  unfold dict_get, inventory. repeat case_bool_decide; subst;
    by rewrite ?assoc_get_set_eq, ?assoc_get_set_ne, ?assoc_get_set_eq, ?assoc_get_set_ne,
      ?assoc_get_set_eq, ?assoc_get_set_ne, ?assoc_get_set_eq, ?assoc_get_set_ne by done.
Qed.

Definition observed_of (views : list dict) : list dict :=
  filter (λ v, is_true (dict_get "observed" v) = true) views.
Definition is_spent (v : dict) : bool := truthy (dict_get "exhausted" v).

(** What one class entry says about the observed grants of its provider. *)
Definition class_view (views : list dict) (view : dict) : Prop :=
  dict_get "exhausted" view = PBool (forallb is_spent (observed_of views)) ∧
  dict_get "grant_views" view = PList (PDict <$> views) ∧
  (forallb is_spent (observed_of views) = false →
   ∃ best, best ∈ observed_of views ∧ is_spent best = false ∧
     (∀ k, k ∉ FOLD_KEYS → dict_get k view = dict_get k best) ∧
     ∀ o, o ∈ observed_of views → is_spent o = false → used_lt o best = false).

Lemma fold_provider_view complete validity merged p views merged' :
  fold_provider complete validity merged (p, views) = Ok merged' → observed_of views ≠ [] →
  ∃ view, assoc_get p merged' = Some view ∧ class_view views view.
Proof.
  intros Hf Hne. simpl in Hf. fold (observed_of views) in Hf. unfold class_view.
  set (open := filter _ (observed_of views)) in Hf.
  assert (∀ o, o ∈ open ↔ is_spent o = false ∧ o ∈ observed_of views) as Hopen
    by (intros o; unfold open, is_spent; by rewrite list_elem_of_filter).
  clearbody open.
  assert (forallb is_spent (observed_of views) = match open with [] => true | _ => false end) as Hall.
  { destruct open as [|x open'] eqn:E.
    - apply forallb_forall. intros o Ho%list_elem_of_In. apply not_false_is_true. intros Hs.
      assert (o ∈ []) as ?%elem_of_nil by (by apply Hopen). done.
    - apply not_true_is_false. intros Hfa. destruct (proj1 (Hopen x)) as [Hs Ho]; [constructor|].
      rewrite forallb_forall in Hfa. apply list_elem_of_In in Ho. rewrite Hfa in Hs; done. }
  set (obs := observed_of views) in Hf at 1. assert (obs ≠ []) as Hobs by done. clearbody obs.
  destruct obs as [|o os]; [done|]. destruct open as [|v vs] eqn:Eopen.
  - apply res_bind_ok in Hf as (best & _ & Hf). injection Hf as <-. rewrite assoc_get_set_eq.
    eexists. split; [done|]. rewrite Hall.
    pose proof (inventory_get complete (default true (assoc_get p validity)) views (PBool true, best)) as Hg.
    simpl in Hg. split; [by rewrite Hg|]. split; [by rewrite Hg|done].
  - destruct (min_by_used v vs) as (best & Hb & Hin & Hmin). rewrite Hb in Hf. injection Hf as <-.
    rewrite assoc_get_set_eq. eexists. split; [done|]. rewrite Hall.
    pose proof (inventory_get complete (default true (assoc_get p validity)) views (PBool false, best)) as Hg.
    simpl in Hg. split; [by rewrite Hg|]. split; [by rewrite Hg|]. intros _. exists best.
    apply Hopen in Hin as [Hs Ho]. split; [done|]. split; [done|]. split.
    + intros k Hk. rewrite Hg. unfold FOLD_KEYS in Hk. rewrite !not_elem_of_cons in Hk.
      rewrite !bool_decide_eq_false_2 by tauto. done.
    + intros x Hx Hsx. apply Hmin, Hopen. done.
Qed.

(** With several accounts on a class, the class view is exhausted exactly
    when every reporting grant is; while one is open, the view is that of an
    open grant that no open grant is less used than; and the views of all
    the provider's grants are attached. *)
Theorem rollup_class_view summary grants complete validity merged p :
  rollup_grants summary grants complete validity = Ok merged →
  let views := grants_of p (snd <$> grants) in
  observed_of views ≠ [] → ∃ view, assoc_get p merged = Some view ∧ class_view views view.
Proof.
  intros Hr views Hne. unfold rollup_grants in Hr. set (groups := foldl group_view [] _) in Hr.
  pose proof (group_views_get p (snd <$> grants) []) as Hg. simpl in Hg. fold groups in Hg.
  destruct (assoc_get p groups) as [vs|] eqn:E; simpl in Hg; [|by destruct Hne; unfold views; rewrite <-Hg].
  assert (vs = views) as -> by done. apply assoc_get_elem in E.
  destruct (fold_providers_at _ _ _ _ _ _ _ Hr (group_views_NoDup _ [] ltac:(constructor)) E)
    as (m1 & m2 & Hf & ->). by eapply fold_provider_view.
Qed.
