(* ===== verification/ModelPoolWitness.v ===== *)
(** * Model pools: concrete instances of the theorems *)

From Stdlib Require Import SpecFloat.
From stdpp Require Import prelude list strings pretty.
From S2P Require Import Prelude PyValue ModelCatalog ModelPool ModelPoolClaims.
Local Open Scope Z_scope.

Module PoolDemo.

#[export] Instance env : Environ := λ name,
  if bool_decide (name = "SWARM_QUOTA_FLOORS"%string) then Some "floors"%string
  else if bool_decide (name = "SWARM_MODEL_POOL_QUOTA_MAX_AGE_SECONDS"%string) then Some "1200"%string
  else None.
#[export] Instance runtime : PoolRuntime := {|
  utc_now := 1000;
  fromtimestamp := λ f, if f_is_finite f then Some 500 else None;
  fromisoformat := λ s, if startswith "2099" s then Some 2000 else None;
  json_loads := λ s, if bool_decide (s = "floors"%string)
    then Some (PDict [("claude", PDict [("reviewer", PInt 10)])]%string) else None;
  str_other := λ _, "None";
  quota_summary := [];
|}.

Definition policy : dict := [
  ("conductor_model", PStr "fable"); ("worker_model", PStr "luna");
  ("allowed_models", PList [PStr "opus"; PStr "astra"]);
  ("model_pools", PDict [("worker", PList [PStr "luna"; PStr "opus"; PStr "spark"])])]%string.

(** Codex is exhausted until a known reset, Claude is nearly spent. *)
Definition quota : dict := [
  ("codex", PDict [("observed", PBool true); ("exhausted", PBool true);
                   ("resets_at", PStr "2099-01-01T00:00:00Z"); ("age_seconds", PInt 10)]);
  ("claude", PDict [("observed", PBool true); ("headline_used_percent", PInt 93);
                    ("age_seconds", PInt 10)])]%string.

Notation the r d := (match r with Ok x => x | Raise _ => d end).
Notation no_choice := (mkChoice PNone PNone PNone [] "").
Notation selected := (the (select_model "worker" policy (Some quota)) no_choice).
Notation worker_pool := [PStr "luna"; PStr "opus"; PStr "spark"].

Example worker_falls_back :
  selected = mkChoice (PStr "opus") (PStr "luna") (PStr "luna") [(PStr "luna", "exhausted"%string)] "available".
Proof. vm_compute. reflexivity. Qed.

Lemma select_model_witness :
  head worker_pool = Some (ch_preferred selected) ∧
  ((∃ pre post, worker_pool = pre ++ ch_model selected :: post ∧
      availability (ch_model selected) quota (Some "worker"%string) = Ok (true, ch_reason selected) ∧
      Forall2 (refused quota (Some "worker"%string)) pre (ch_skipped selected)) ∨
   (ch_model selected = ch_preferred selected ∧ ch_reason selected = "pool_exhausted"%string ∧
      Forall2 (refused quota (Some "worker"%string)) worker_pool (ch_skipped selected))).
Proof.
  apply (select_model_first_available "worker" policy quota); [reflexivity|simpl; lia|].
  vm_compute. reflexivity.
Defined.

Lemma refusal_witness :
  family_for (PStr "luna") = Ok None ∨
  ∃ family provider summary floor,
    family_for (PStr "luna") = Ok (Some family) ∧ assoc_get family QUOTA_PROVIDERS = Some provider ∧
    dict_get provider quota = PDict summary ∧ is_false (dict_get "observed" summary) = false ∧
    floor_for provider (Some "worker"%string) = Ok floor ∧
    (truthy (dict_get "exhausted" summary) = true ∨
     ge_float (dict_get "headline_used_percent" summary) exhausted_percent = Ok true ∨
     below_floor true (dict_get "headline_used_percent" summary) floor = Ok true) ∧
    (reset_passed (dict_get "resets_at" summary) None = Ok (Some false) ∨
     reset_passed (dict_get "resets_at" summary) None = Ok None ∧
     gt_float (dict_get "age_seconds" summary) max_quota_age_seconds = false).
Proof. apply (refusal_needs_evidence _ _ _ "exhausted"). vm_compute. reflexivity. Defined.

Notation escalated := (the (escalate "worker" policy (Some "luna"%string) (Some quota)) None).
Notation escalation := (match escalated with Some e => e | None => mkEscalation PNone "" [] "" end).

Lemma escalate_witness :
  availability (es_model escalation) quota (Some "worker"%string) = Ok (true, es_reason escalation) ∧
  es_escalated_from escalation = "luna"%string ∧
  ∃ pre x later, worker_pool = pre ++ x :: later ∧ py_eq x (PStr "luna") = true ∧
    (∀ y, y ∈ pre → py_eq y (PStr "luna") = false) ∧
    (if match worker_pool with m :: _ => py_eq m (PStr "astra") | [] => false end
     then es_model escalation = PStr "astra" ∧ "luna"%string ≠ "astra"%string
     else ∃ between rest, later = between ++ es_model escalation :: rest ∧
            Forall2 (refused quota (Some "worker"%string)) between (es_skipped escalation)).
Proof. apply (escalate_moves_up "worker" policy "luna" quota); vm_compute; reflexivity. Defined.

(** Seven per cent left is under the reviewer's floor of ten, so Opus holds. *)
Notation reviewed := (the (select_reviewer policy false true (Some quota)) (mkReviewer no_choice [])).

Example judgment_review_waits :
  ch_skipped (rv_choice reviewed) =
    [(PStr "fable", "below_floor 10 remaining 7"%string); (PStr "opus", "below_floor 10 remaining 7"%string);
     (PStr "astra", "below_judgment_floor"%string)].
Proof. vm_compute. reflexivity. Qed.

Lemma select_reviewer_witness :
  pool_for "reviewer" policy = Ok (rv_pool reviewed) ∧
  ((∃ pre post, rv_pool reviewed = pre ++ ch_model (rv_choice reviewed) :: post ∧
      (true = true → pystr_in (ch_model (rv_choice reviewed)) JUDGMENT_MODELS = true) ∧
      (false = true → family_for (ch_model (rv_choice reviewed)) ≠ Ok (Some "claude"%string)) ∧
      availability (ch_model (rv_choice reviewed)) quota (Some "reviewer"%string) =
        Ok (true, ch_reason (rv_choice reviewed)) ∧
      Forall2 (λ x s, s.1 = x ∧ reviewer_refused true false quota x s.2) pre
        (ch_skipped (rv_choice reviewed))) ∨
   (ch_model (rv_choice reviewed) = PNone ∧
      ch_reason (rv_choice reviewed) = "no_reviewer_available"%string ∧
      Forall2 (λ x s, s.1 = x ∧ reviewer_refused true false quota x s.2) (rv_pool reviewed)
        (ch_skipped (rv_choice reviewed)))).
Proof. apply (select_reviewer_gate policy false true quota). vm_compute. reflexivity. Defined.

Notation judged := (the (judgment_floor policy) no_choice).

Lemma judgment_floor_witness :
  (pystr_in (ch_model judged) JUDGMENT_MODELS = true ∧ ch_model judged ∈ worker_pool) ∨
  ((∀ m, m ∈ worker_pool → pystr_in m JUDGMENT_MODELS = false) ∧
   ((pystr_in (ch_model judged) JUDGMENT_MODELS = true ∧ ch_model judged ∈ [PStr "fable"]) ∨
    ((∀ m, m ∈ [PStr "fable"] → pystr_in m JUDGMENT_MODELS = false) ∧
     assoc_get "conductor_model" policy = Some (ch_model judged)))).
Proof. apply judgment_floor_held; reflexivity. Defined.

(** ** Grants *)

Definition window (used : Z) : pyval :=
  PDict [("usable", PBool true); ("name", PStr "5h"); ("used_percent", PInt used);
         ("resets_at", PStr "2099-01-01T00:00:00Z")]%string.
Definition grant (name : string) (used age : Z) : dict :=
  [("provider", PStr "codex"); ("grant", PStr name); ("observed", PBool true);
   ("headline_used_percent", PInt used); ("exhausted", PBool (97 <=? used)%Z);
   ("age_seconds", PInt age); ("windows", PList [window used])]%string.

(** A fresh open account, a spent one and a stale one. *)
Definition grants : list (string * dict) :=
  [("a", grant "a" 98 5); ("b", grant "b" 40 5); ("c", grant "c" 10 5000)]%string.
Notation rolled := (the (rollup_grants [] grants true None) []).
Definition rolled_quota : dict := [("codex", PDict (default [] (assoc_get "codex" rolled)))]%string.
Notation rolled_summary := (default [] (assoc_get "codex"%string rolled)).

Lemma rollup_witness :
  ∃ view, assoc_get "codex"%string rolled = Some view ∧
    class_view (grants_of "codex" (snd <$> grants)) view.
Proof.
  apply (rollup_class_view [] grants true None); [vm_compute; reflexivity|]. vm_compute. done.
Defined.

Lemma confirmed_witness :
  is_true (dict_get "grant_inventory_complete" rolled_summary) = true ∧
  is_true (dict_get "grant_inventory_valid" rolled_summary) = true ∧
  (∃ view, PDict view ∈ view_list (dict_get "grant_views" rolled_summary) ∧
     grant_observation_state view = Ok "fresh"%string ∧ grant_permits "codex" (Some "kg"%string) None view) ∧
  (∀ v, v ∈ view_list (dict_get "grant_views" rolled_summary) →
     ∃ view, v = PDict view ∧ is_true (dict_get "observed" view) = true ∧
       (grant_harmless "codex" (Some "kg"%string) None view ∨
        grant_permits "codex" (Some "kg"%string) None view)).
Proof.
  apply (confirmed_admission_sound (PStr "luna") rolled_quota (Some "kg"%string) None
           "confirmed_available" "codex" "codex"); [reflexivity|reflexivity|reflexivity| |].
  - vm_compute. done.
  - vm_compute. reflexivity.
Defined.

(** The cap on the age holds against the larger setting of this environment,
    and the text of a NaN escapes it: an observation of any age is then fresh. *)
Example age_capped : feq kg_quota_max_age_seconds (f_of_Z 900) = true.
Proof. vm_compute. reflexivity. Qed.
Definition nan_env : Environ := λ _, Some "nan"%string.
Example nan_never_stale :
  @grant_observation_state nan_env (grant "a" 10 1000000000) = Ok "fresh"%string.
Proof. vm_compute. reflexivity. Qed.

End PoolDemo.
