(* ===== verification/PolicyData.v ===== *)
(** * Factory controls: scalar checks, branch names, escalation options

    The leaves of [factory/orchestration/factory_controls.py]: the checked
    readers of text, integers and money, repository and branch names, and the
    option vocabulary of an escalation. *)

From Stdlib Require Import SpecFloat Ascii.
From stdpp Require Import prelude list strings pretty.
From S2P Require Import Prelude PyValue.
Local Open Scope Z_scope.

Notation dict := (list (string * pyval)).

(** [raise ValueError(msg)] unless the condition holds. *)
Definition require (b : bool) (msg : string) : res unit :=
  if b then Ok tt else Raise (ValueError msg).

(** [set(d) <= keys] on the keys of a dict. *)
Definition keys_within (d : dict) (keys : list string) : bool :=
  forallb (λ p, str_in p.1 keys) d.

(** [sorted({...})]. *)
Definition sorted_ints (l : list Z) : list Z := py_sorted Z.leb (remove_dups l).
Definition sorted_strs (l : list string) : list string := py_sorted String.leb (remove_dups l).

(** ** Scalars *)

Definition _text (value : pyval) (name : string) (limit : nat) : res string :=
  match value with
  | PStr s =>
      if negb (bool_decide (py_strip s = ""%string)) && (String.length s <=? limit)%nat
      then Ok s else Raise (ValueError ("invalid " +:+ name))
  | _ => Raise (ValueError ("invalid " +:+ name))
  end.

Definition _integer (value : pyval) (name : string) (low high : Z) : res Z :=
  match value with
  | PInt z => if (low <=? z) && (z <=? high) then Ok z
              else Raise (ValueError ("invalid " +:+ name))
  | _ => Raise (ValueError ("invalid " +:+ name))
  end.

(** [math.isfinite] of an int outside the binary64 range raises
    [OverflowError], not [ValueError]. *)
Definition _money (value : pyval) (name : string) (zero : bool) : res spec_float :=
  let bad := Raise (ValueError ("invalid " +:+ name)) in
  if negb (is_number value) then bad else
  finite ← math_isfinite value;
  if negb finite then bad else
  match xnum_of value with
  | Some x => if xlt x (XFin 0 0) || (negb zero && xeq x (XFin 0 0)) then bad
              else to_float value
  | None => bad
  end.

(** [dict.get(key, default)]. *)
Definition get_or (key : string) (dflt : pyval) (d : dict) : pyval :=
  default dflt (assoc_get key d).

(** ** Names *)

Definition in_range (low high : nat) (c : ascii) : bool :=
  let n := nat_of_ascii c in ((low <=? n) && (n <=? high))%nat.
Definition is_lower (c : ascii) : bool := in_range 97 122 c.
Definition is_alnum (c : ascii) : bool := in_range 48 57 c || in_range 65 90 c || is_lower c.
Definition is_char (n : nat) (c : ascii) : bool := (nat_of_ascii c =? n)%nat.

Fixpoint all_chars (p : ascii → bool) (s : string) : bool :=
  match s with EmptyString => true | String c s => p c && all_chars p s end.
Definition first_char (p : ascii → bool) (s : string) : bool :=
  match s with String c _ => p c | EmptyString => false end.
Fixpoint last_char (p : ascii → bool) (s : string) : bool :=
  match s with
  | EmptyString => false
  | String c EmptyString => p c
  | String _ s => last_char p s
  end.

(** [A-Za-z0-9_.-] *)
Definition repo_char (c : ascii) : bool :=
  is_alnum c || is_char 95 c || is_char 46 c || is_char 45 c.
(** [A-Za-z0-9._/-] *)
Definition branch_char (c : ascii) : bool := repo_char c || is_char 47 c.

Definition normalize_repo (repo : pyval) : res string :=
  match repo with
  | PStr s =>
      let bad := Raise (ValueError "invalid repo") in
      match split_on (ascii_of_nat 47) s with
      | [owner; name] =>
          if all_chars repo_char owner && all_chars repo_char name &&
             negb (bool_decide (owner = ""%string)) && negb (bool_decide (name = ""%string))
          then if (String.length s <=? 256)%nat &&
                  negb (str_in owner ["."; ".."]) && negb (str_in name ["."; ".."])
               then Ok (py_lower s) else bad
          else bad
      | _ => bad
      end
  | _ => Raise (ValueError "invalid repo")
  end.

(** The part after [factory/] of [_DELIVERY_BRANCH]. *)
Definition delivery_rest (s : string) : bool :=
  first_char is_alnum s && all_chars branch_char s && (String.length s <=? 255)%nat &&
  last_char (λ c, is_alnum c || is_char 95 c || is_char 45 c) s.

Definition drop_str (n : nat) (s : string) : string :=
  String.substring n (String.length s - n) s.

Definition validate_delivery_branch (branch : pyval) : res string :=
  match branch with
  | PStr s =>
      if bool_decide (s = "main"%string)
      then Raise (ValueError "delivery branch main is forbidden") else
      if negb (startswith "factory/" s && delivery_rest (drop_str 8 s))
      then Raise (ValueError "delivery branch must be in the factory/ namespace") else
      if substring_of ".." s || substring_of "//" s || substring_of "/." s || endswith ".lock" s
      then Raise (ValueError "delivery branch must be a valid factory/ branch") else Ok s
  | _ => Raise (ValueError "delivery branch must be in the factory/ namespace")
  end.

Definition unsafe_part (part : string) : bool :=
  str_in part [""; "."; ".."] || startswith "." part || endswith ".lock" part.

Definition validate_pr_branch (branch : pyval) : res string :=
  match branch with
  | PStr s =>
      if negb (first_char is_alnum s && all_chars branch_char s && (String.length s <=? 255)%nat)
      then Raise (ValueError "invalid adopted PR branch") else
      if str_in s ["main"; "master"] || existsb unsafe_part (split_on (ascii_of_nat 47) s) ||
         substring_of ".." s || endswith "." s
      then Raise (ValueError "unsafe adopted PR branch") else Ok s
  | _ => Raise (ValueError "invalid adopted PR branch")
  end.

Definition granted_delivery_surface (direction : pyval) : res (option string * option Z) :=
  match direction with
  | PDict d =>
      match get_or "delivery_pr_number" (dict_get "prior_pr_number" d) d with
      | PNone => Ok (None, None)
      | PInt number =>
          if number <=? 0 then Raise (ValueError "the prior pull request number is invalid") else
          let branch := get_or "delivery_branch" (dict_get "prior_branch" d) d in
          b ← (if truthy (dict_get "delivery_adoption" d) then validate_pr_branch branch
               else validate_delivery_branch branch);
          Ok (Some b, Some number)
      | _ => Raise (ValueError "the prior pull request number is invalid")
      end
  | _ => Ok (None, None)
  end.

(** ** Escalation options *)

Definition OPTION_EFFECTS : list string :=
  ["agent-ready"; "close"; "supersede"; "split"; "defer"; "hold"].
Definition CONTINUE_EFFECT : string := "agent-ready".
Definition MIN_OPTIONS : nat := 2.
Definition MAX_OPTIONS : nat := 4.
Definition MAX_SPLIT_CHILDREN : nat := 5.
Definition CLOSE_REASONS : list string := ["not_planned"; "completed"].

Definition option_key_char (c : ascii) : bool := is_lower c || in_range 48 57 c.
Definition OPTION_KEY (s : string) : bool :=
  first_char option_key_char s &&
  all_chars (λ c, option_key_char c || is_char 95 c || is_char 45 c) s &&
  (String.length s <=? 32)%nat.

Definition blank (s : string) : bool := bool_decide (py_strip s = ""%string).

(** [str(v or "").strip()] is not empty: only a string can be blank. *)
Definition said (v : pyval) : bool :=
  match v with PStr s => negb (blank s) | _ => truthy v end.

Definition is_int_from (low : Z) (v : pyval) : bool :=
  match v with PInt z => low <=? z | _ => false end.
Definition count_within (low high : nat) {A} (l : list A) : bool :=
  ((low <=? length l) && (length l <=? high))%nat.

Definition verify_supersede (where_ : string) (detail : dict) : option string :=
  match dict_get "closes" detail with
  | PList closes =>
      if negb (count_within 1 10 closes)
      then Some (where_ +:+ " supersedes with no issues to close") else
      if existsb (λ n, negb (is_int_from 1 n)) closes
      then Some (where_ +:+ " supersedes with an invalid issue number") else
      let favour := dict_get "in_favour_of" detail in
      if negb (is_int_from 1 favour)
      then Some (where_ +:+ " supersedes with no issue in favour") else
      if existsb (py_eq favour) closes
      then Some (where_ +:+ " supersedes the issue it favours") else None
  | _ => Some (where_ +:+ " supersedes with no issues to close")
  end.

Definition child_error (where_ : string) (child : pyval) : option string :=
  match child with
  | PDict c =>
      match dict_get "title" c with
      | PStr t =>
          if blank t then Some (where_ +:+ " has a child with no title") else
          if negb (is_str (get_or "body" (PStr "") c))
          then Some (where_ +:+ " has a child with a non-text body") else None
      | _ => Some (where_ +:+ " has a child with no title")
      end
  | _ => Some (where_ +:+ " has a child that is not an object")
  end.

(** The first refusal of a list of checks. *)
Definition first_error {A} (f : A → option string) (l : list A) : option string :=
  match omap f l with e :: _ => Some e | [] => None end.

Definition verify_split (where_ : string) (detail : dict) : option string :=
  match dict_get "children" detail with
  | PList children =>
      if negb (count_within 1 MAX_SPLIT_CHILDREN children)
      then Some (where_ +:+ " splits into no children")
      else first_error (child_error where_) children
  | _ => Some (where_ +:+ " splits into no children")
  end.

(** Each effect is checked on the fields it will use. *)
Definition verify_detail (where_ effect : string) (detail : dict) : option string :=
  if bool_decide (effect = "close"%string) then
    if pystr_in (dict_get "reason" detail) CLOSE_REASONS then None
    else Some (where_ +:+ " closes with no reason")
  else if bool_decide (effect = "defer"%string) then
    if said (dict_get "comment" detail) then None
    else Some (where_ +:+ " defers with no wait condition")
  else if bool_decide (effect = "supersede"%string) then verify_supersede where_ detail
  else if bool_decide (effect = "split"%string) then verify_split where_ detail
  else None.

Definition verify_option (option_ : pyval) (index : nat) : option string :=
  let where_ := "option " +:+ pretty (S index) in
  match option_ with
  | PDict o =>
      if negb (keys_within o ["key"; "label"; "effect"; "detail"])
      then Some (where_ +:+ " carries unsupported fields") else
      if negb match dict_get "key" o with PStr k => OPTION_KEY k | _ => false end
      then Some (where_ +:+ " has no usable key") else
      if negb match dict_get "label" o with
              | PStr l => negb (blank l) && (String.length l <=? 120)%nat
              | _ => false
              end
      then Some (where_ +:+ " has no usable label") else
      match dict_get "effect" o with
      | PStr effect =>
          if negb (str_in effect OPTION_EFFECTS)
          then Some (where_ +:+ " names no known effect") else
          match dict_get "detail" o with
          | PNone => verify_detail where_ effect []
          | PDict detail => verify_detail where_ effect detail
          | _ => Some (where_ +:+ " detail is not an object")
          end
      | _ => Some (where_ +:+ " names no known effect")
      end
  | _ => Some (where_ +:+ " is not an object")
  end.

Definition option_key (o : pyval) : option string :=
  match o with PDict o => match dict_get "key" o with PStr k => Some k | _ => None end | _ => None end.

Definition verify_option_list (options : pyval) (subject : string) : option string :=
  match options with
  | PList l =>
      if negb (count_within MIN_OPTIONS MAX_OPTIONS l)
      then Some (subject +:+ " carries " +:+ pretty (length l) +:+ " options, not two to four") else
      match first_error (λ p, verify_option p.2 p.1) (imap pair l) with
      | Some e => Some e
      | None =>
          if bool_decide (NoDup (omap option_key l)) then None
          else Some (subject +:+ " repeats an option key")
      end
  | _ => Some (subject +:+ " carries no options")
  end.
