(* ===== verification/Policy.v ===== *)
(** * Factory controls: the operator policy

    [factory_controls.validate_policy] and the blocks it checks, the sparse
    map of repositories with its effective entries, and the readers that give a
    stored policy its defaults.  A policy is the dictionary the code handles. *)

From Stdlib Require Import SpecFloat Ascii.
From stdpp Require Import prelude list strings pretty.
From S2P Require Import Prelude PyValue ModelCatalog ModelPool PolicyData.
Local Open Scope Z_scope.

(** ** Constants *)

Definition _POLICY_KEYS : list string :=
  [ "repo"; "issue_numbers"; "generation"; "max_tasks"; "max_turns_per_task";
    "max_task_turns_hard"; "max_parallel_nodes"; "max_planner_turns"; "task_budget_usd";
    "turn_budget_usd"; "allowed_models"; "conductor_model"; "reviewer_model"; "base_branch";
    "turn_timeout_seconds"; "max_attempts"; "worker_model"; "task_timeout_seconds";
    "model_pools"; "role_effort"; "max_review_rounds"; "max_review_recovery_rounds";
    "intake"; "problem_issues"; "quota_guard"; "progress_watchdog"; "auto_merge"; "repos";
    "backlog_refill"; "task_budget_binding" ].
Definition _OPTIONAL_POLICY_KEYS : list string :=
  [ "reviewer_model"; "model_pools"; "role_effort"; "max_planner_turns"; "max_review_rounds";
    "max_review_recovery_rounds"; "max_task_turns_hard"; "max_turns_per_task";
    "max_parallel_nodes"; "intake"; "problem_issues"; "quota_guard"; "progress_watchdog";
    "auto_merge"; "repos"; "backlog_refill"; "task_budget_binding" ].
Definition required_keys : list string :=
  filter (λ k, k ∉ _OPTIONAL_POLICY_KEYS) _POLICY_KEYS.
Definition DEFAULT_MAX_REVIEW_ROUNDS : Z := 2.
Definition DEFAULT_MAX_REVIEW_RECOVERY_ROUNDS : Z := 0.
Definition DEFAULT_MAX_PARALLEL_NODES : Z := 1.
Definition DEFAULT_AUTO_MERGE : bool := false.
Definition MAX_INT32 : Z := 2 ^ 31 - 1.

Definition strs (l : list string) : pyval := PList (PStr <$> l).
Definition ints (l : list Z) : pyval := PList (PInt <$> l).

Definition DEFAULT_INTAKE : dict :=
  [ ("enabled", PBool false); ("labels", strs ["agent-ready"]);
    ("exclude_labels", strs ["needs-human"; "wontfix"]); ("max_per_day", PInt 5);
    ("cooldown_hours", PInt 24); ("refine_enabled", PBool false);
    ("refinement_batch", PList []); ("refine_brief_only", PBool false);
    ("dependency_pr_authors", PList []); ("owner_pr_author", PNone);
    ("dependency_pr_author_ids", PList []); ("close_enabled", PBool false);
    ("max_closes_per_day", PInt 3) ].
Definition PROBLEM_ISSUE_SOURCES : list string :=
  [ "quota_improvement"; "node_stalled"; "workflow_stranded"; "landing_recovery_exhausted";
    "recurring_blocker" ].
Definition default_sources : dict :=
  (λ s, (s, PBool (bool_decide (s = "recurring_blocker"%string)))) <$> PROBLEM_ISSUE_SOURCES.
Definition RETRY_MINUTES : pyval := ints [2; 4; 8; 16; 32; 60].
Definition DEFAULT_IMPROVEMENT_LIMITS : dict :=
  [ ("max_findings", PInt 20); ("cooldown_seconds", PInt 86400);
    ("max_unproven_attempts", PInt 3) ].
Definition DEFAULT_PROBLEM_ISSUES : dict :=
  [ ("enabled", PBool false); ("sources", PDict default_sources);
    ("source_audit_limit", PInt 50); ("issue_pages", PInt 2); ("issues_per_page", PInt 100);
    ("max_per_tick", PInt 1); ("max_per_24_hours", PInt 3);
    ("improvement_limits", PDict DEFAULT_IMPROVEMENT_LIMITS);
    ("improvement_review", PDict [("through_audit_id", PInt 0); ("reason", PStr "")]);
    ("improvement_scout", PDict [("enabled", PBool false); ("issue_number", PInt 0);
                                 ("subscription_caps", PDict [])]);
    ("labels", strs ["bug"]); ("retry_minutes", RETRY_MINUTES) ].
Definition DEFAULT_QUOTA_GUARD : dict :=
  [ ("claude_7d_pause_percent", PInt 85); ("claude_7d_resume_percent", PInt 75);
    ("claude_7d_imminent_reset_minutes", PInt 120) ].
Definition DEFAULT_PROGRESS_WATCHDOG : dict :=
  [("enabled", PBool true); ("threshold_turns", PInt 8)].
Definition MAX_PROGRESS_WATCHDOG_TURNS : Z := 100.
Definition LANES : list string := ["delivery"; "advisory"].
Definition DEFAULT_LANE_DELIVERY : Z := 1.
Definition DEFAULT_LANE_ADVISORY : Z := 0.
Definition _POOL_ROLES : list (string * string) :=
  [("conductor", "conductor_model"); ("worker", "worker_model")]%string.
Definition _CLASS_POOL_ROLES : list string := ["implement"; "refine"; "reviewer"; "judge"].
Definition LANDING_MODES : list string := ["merge_queue"; "none"].
Definition MAX_REPOS : nat := 16.
Definition REPO_ENTRY_KEYS : list string :=
  [ "enabled"; "paused"; "labels"; "exclude_labels"; "max_per_day"; "max_tasks";
    "task_budget_usd"; "turn_budget_usd"; "landing"; "auto_merge"; "charter" ].

(** ** Readers *)

Definition as_dict (v : pyval) (msg : string) : res dict :=
  match v with PDict d => Ok d | _ => Raise (ValueError msg) end.

(** A setting that must be exactly a bool. *)
Definition _bool (v : pyval) (msg : string) : res bool :=
  match v with PBool b => Ok b | _ => Raise (ValueError msg) end.

(** [_integer(value.get(key, default), key, low, high)]. *)
Definition int_setting (d : dict) (key : string) (dflt low high : Z) : res Z :=
  _integer (get_or key (PInt dflt) d) key low high.

(** [value or {}]. *)
Definition or_empty (v : pyval) : pyval := if truthy v then v else PDict [].

(** ** Lanes *)

Record LaneCounts := mkLanes { ln_delivery : Z; ln_advisory : Z }.
Definition lanes_dict (l : LaneCounts) : pyval :=
  PDict [("delivery", PInt (ln_delivery l)); ("advisory", PInt (ln_advisory l))].
Definition lane_get (lane : string) (l : LaneCounts) : Z :=
  if bool_decide (lane = "delivery"%string) then ln_delivery l else ln_advisory l.

Definition _validate_max_tasks (value : pyval) : res LaneCounts :=
  match value with
  | PDict d =>
      _ ← require (truthy value && keys_within d LANES) "invalid max_tasks";
      delivery ← _integer (get_or "delivery" (PInt DEFAULT_LANE_DELIVERY) d)
                   "max_tasks.delivery" 1 100;
      advisory ← _integer (get_or "advisory" (PInt DEFAULT_LANE_ADVISORY) d)
                   "max_tasks.advisory" 0 100;
      Ok (mkLanes delivery advisory)
  | _ =>
      delivery ← _integer value "max_tasks" 1 100;
      Ok (mkLanes delivery DEFAULT_LANE_ADVISORY)
  end.

Definition lane_max_tasks (policy : dict) : res LaneCounts :=
  _validate_max_tasks (get_or "max_tasks" (PInt DEFAULT_LANE_DELIVERY) policy).

(** ** Blocks *)

Definition _validate_role_effort (value : pyval) : res dict :=
  d ← as_dict value "invalid role_effort";
  _ ← require (keys_within d (ROLE_EFFORT.*1)) "invalid role_effort";
  _ ← res_map (λ p, require (pystr_in p.2 EFFORT_LEVELS)
                      ("invalid role_effort for " +:+ p.1)) d;
  Ok ((λ role, (role, dict_get role d)) <$> py_sorted String.leb d.*1).

Definition batch_number (v : pyval) : option Z :=
  match v with PInt z => if (1 <=? z) && (z <=? MAX_INT32) then Some z else None | _ => None end.

Definition validate_refinement_batch (value : pyval) (allow_empty : bool) : res (list Z) :=
  let bad := Raise (ValueError "invalid refinement_batch") in
  match value with
  | PList l =>
      if (10 <? length l)%nat || (negb (truthy value) && negb allow_empty) then bad else
      match mapM batch_number l with
      | Some ns => if bool_decide (NoDup ns) then Ok (py_sorted Z.leb ns) else bad
      | None => bad
      end
  | _ => bad
  end.

(** [A-Za-z0-9][A-Za-z0-9-]*, as GitHub logins are. *)
Definition login_ok (s : string) : bool :=
  first_char is_alnum s && all_chars (λ c, is_alnum c || is_char 45 c) s.
(** The same with an optional [[bot]] suffix. *)
Definition author_ok (s : string) : bool :=
  login_ok s ||
  (endswith "[bot]" s && login_ok (take_str (String.length s - 5) s)).

Definition owner_pr_author (owner : pyval) : res pyval :=
  match owner with
  | PNone => Ok PNone
  | PDict d =>
      match dict_get "login" d, dict_get "id" d with
      | PStr login, PInt id =>
          _ ← require (keys_within d ["login"; "id"] && login_ok login && (0 <? id))
                "invalid owner_pr_author";
          Ok (PDict [("login", PStr (py_lower login)); ("id", PInt id)])
      | _, _ => Raise (ValueError "invalid owner_pr_author")
      end
  | _ => Raise (ValueError "invalid owner_pr_author")
  end.

Definition author_of (v : pyval) : option string :=
  match v with PStr s => if author_ok s then Some s else None | _ => None end.
Definition dependency_pr_authors (authors : pyval) : res (list string) :=
  match authors with
  | PList l =>
      match mapM author_of l with
      | Some names =>
          _ ← require (length l <=? 32)%nat "invalid dependency_pr_authors";
          Ok (sorted_strs (py_lower <$> names))
      | None => Raise (ValueError "invalid dependency_pr_authors")
      end
  | _ => Raise (ValueError "invalid dependency_pr_authors")
  end.

Definition author_id (v : pyval) : option Z :=
  match v with PInt z => if 0 <? z then Some z else None | _ => None end.
Definition dependency_pr_author_ids (ids : pyval) : res (list Z) :=
  match ids with
  | PList l =>
      match mapM author_id l with
      | Some ns =>
          _ ← require (length l <=? 32)%nat "invalid dependency_pr_author_ids";
          Ok (sorted_ints ns)
      | None => Raise (ValueError "invalid dependency_pr_author_ids")
      end
  | _ => Raise (ValueError "invalid dependency_pr_author_ids")
  end.

(** A label list: at most 32 texts, stored as a sorted set. *)
Definition label_list (value : pyval) (msg : string) : res (list string) :=
  match value with
  | PList l =>
      _ ← require (length l <=? 32)%nat msg;
      labels ← res_map (λ v, _text v "label" 128) l;
      Ok (sorted_strs labels)
  | _ => Raise (ValueError msg)
  end.

(** [{l.lower() ...} & {e.lower() ...}] is not empty. *)
Definition overlap (labels exclude : list string) : bool :=
  existsb (λ l, str_in (py_lower l) (py_lower <$> exclude)) labels.

Definition intake_flag (d : dict) (key : string) : res bool :=
  _bool (get_or key (PBool false) d) ("invalid " +:+ key).

Definition _validate_intake (value : pyval) : res dict :=
  d ← as_dict value "invalid intake";
  _ ← require (keys_within d DEFAULT_INTAKE.*1) "invalid intake";
  owner ← owner_pr_author (dict_get "owner_pr_author" d);
  authors ← dependency_pr_authors (get_or "dependency_pr_authors" (PList []) d);
  ids ← dependency_pr_author_ids (get_or "dependency_pr_author_ids" (PList []) d);
  batch ← validate_refinement_batch (get_or "refinement_batch" (PList []) d) true;
  enabled ← intake_flag d "enabled";
  refine_enabled ← intake_flag d "refine_enabled";
  close_enabled ← intake_flag d "close_enabled";
  brief_only ← intake_flag d "refine_brief_only";
  labels ← label_list (get_or "labels" (strs ["agent-ready"]) d) "invalid labels";
  exclude ← label_list (get_or "exclude_labels" (strs ["needs-human"; "wontfix"]) d)
              "invalid exclude_labels";
  per_day ← int_setting d "max_per_day" 5 1 10000;
  cooldown ← int_setting d "cooldown_hours" 24 1 168;
  closes ← int_setting d "max_closes_per_day" 3 1 50;
  _ ← require (negb (overlap labels exclude)) "intake labels overlap exclude_labels";
  Ok [ ("owner_pr_author", owner); ("dependency_pr_authors", strs authors);
       ("dependency_pr_author_ids", ints ids); ("refinement_batch", ints batch);
       ("enabled", PBool enabled); ("refine_enabled", PBool refine_enabled);
       ("close_enabled", PBool close_enabled); ("refine_brief_only", PBool brief_only);
       ("labels", strs labels); ("exclude_labels", strs exclude);
       ("max_per_day", PInt per_day); ("cooldown_hours", PInt cooldown);
       ("max_closes_per_day", PInt closes) ].

(** *** Problem issues *)

Definition issue_sources (value : pyval) : res dict :=
  d ← as_dict value "invalid problem_issues sources";
  _ ← require (keys_within d PROBLEM_ISSUE_SOURCES) "invalid problem_issues sources";
  _ ← res_map (λ p, _bool p.2 ("invalid problem_issues source " +:+ p.1)) d;
  Ok (dict_update default_sources d).

Definition improvement_limits (value : pyval) : res dict :=
  d ← as_dict value "invalid improvement_limits";
  _ ← require (keys_within d DEFAULT_IMPROVEMENT_LIMITS.*1) "invalid improvement_limits";
  findings ← int_setting d "max_findings" 20 1 20;
  cooldown ← int_setting d "cooldown_seconds" 86400 3600 604800;
  attempts ← int_setting d "max_unproven_attempts" 3 1 3;
  Ok [ ("max_findings", PInt findings); ("cooldown_seconds", PInt cooldown);
       ("max_unproven_attempts", PInt attempts) ].

Definition improvement_review (value : pyval) : res dict :=
  d ← as_dict value "invalid improvement_review";
  match assoc_get "through_audit_id" d, assoc_get "reason" d with
  | Some audit, Some reason =>
      _ ← require (keys_within d ["through_audit_id"; "reason"]) "invalid improvement_review";
      reviewed ← _integer audit "through_audit_id" 0 (2 ^ 63 - 1);
      match reason with
      | PStr r =>
          _ ← require ((String.length r <=? 1000)%nat && ((reviewed =? 0) || negb (blank r)))
                "improvement review requires a reason";
          Ok [("through_audit_id", PInt reviewed); ("reason", PStr r)]
      | _ => Raise (ValueError "improvement review requires a reason")
      end
  | _, _ => Raise (ValueError "invalid improvement_review")
  end.

Definition grant_name (s : string) : bool :=
  all_chars (λ c, is_alnum c || is_char 95 c || is_char 45 c) s &&
  negb (bool_decide (s = ""%string)) && (String.length s <=? 100)%nat.
Definition cap_attested (p : string * pyval) : bool :=
  grant_name p.1 &&
  match p.2 with
  | PDict cap =>
      keys_within cap ["subscription_only"; "overage_disabled"; "evidence"] &&
      is_true (dict_get "subscription_only" cap) && is_true (dict_get "overage_disabled" cap) &&
      match dict_get "evidence" cap with
      | PStr e => negb (blank e) && (String.length e <=? 2000)%nat
      | _ => false
      end
  | _ => false
  end.

Definition improvement_scout (value : pyval) (enabled quota_improvement : bool) : res dict :=
  d ← as_dict value "invalid improvement_scout";
  _ ← require (keys_within d ["enabled"; "issue_number"; "subscription_caps"])
        "invalid improvement_scout";
  scout_enabled ← _bool (get_or "enabled" (PBool false) d) "invalid improvement_scout enabled";
  issue_number ← _integer (get_or "issue_number" (PInt 0) d) "scout issue_number" 0 MAX_INT32;
  caps ← as_dict (get_or "subscription_caps" (PDict []) d) "invalid scout subscription_caps";
  _ ← require (length caps <=? 16)%nat "invalid scout subscription_caps";
  _ ← require (forallb cap_attested caps) "invalid scout subscription cap attestation";
  _ ← require (negb scout_enabled ||
               (negb (issue_number =? 0) && truthy (PDict caps) && enabled && quota_improvement))
        "scout requires charter, verified caps and enabled improvement source";
  Ok [ ("enabled", PBool scout_enabled); ("issue_number", PInt issue_number);
       ("subscription_caps", PDict caps) ].

Definition _validate_problem_issues (value : pyval) : res dict :=
  d ← as_dict value "invalid problem_issues";
  _ ← require (keys_within d DEFAULT_PROBLEM_ISSUES.*1) "invalid problem_issues";
  enabled ← _bool (get_or "enabled" (PBool false) d) "invalid problem_issues enabled";
  sources ← issue_sources (get_or "sources" (PDict default_sources) d);
  audit_limit ← int_setting d "source_audit_limit" 50 1 50;
  pages ← int_setting d "issue_pages" 2 1 2;
  per_page ← int_setting d "issues_per_page" 100 1 100;
  per_day ← int_setting d "max_per_24_hours" 3 1 100;
  limits ← improvement_limits (get_or "improvement_limits" (PDict []) d);
  review ← improvement_review
    (get_or "improvement_review" (PDict [("through_audit_id", PInt 0); ("reason", PStr "")]) d);
  scout ← improvement_scout
    (get_or "improvement_scout" (PDict [("enabled", PBool false); ("issue_number", PInt 0);
                                        ("subscription_caps", PDict [])]) d)
    enabled (truthy (dict_get "quota_improvement" sources));
  per_tick ← int_setting d "max_per_tick" 1 1 1;
  _ ← require (py_eq (get_or "labels" (strs ["bug"]) d) (strs ["bug"]))
        "problem_issues labels must be exactly bug";
  _ ← require (py_eq (get_or "retry_minutes" RETRY_MINUTES d) RETRY_MINUTES)
        "invalid problem_issues retry_minutes";
  Ok [ ("enabled", PBool enabled); ("sources", PDict sources);
       ("source_audit_limit", PInt audit_limit); ("issue_pages", PInt pages);
       ("issues_per_page", PInt per_page); ("max_per_tick", PInt per_tick);
       ("max_per_24_hours", PInt per_day); ("improvement_limits", PDict limits);
       ("improvement_review", PDict review); ("improvement_scout", PDict scout);
       ("labels", strs ["bug"]); ("retry_minutes", RETRY_MINUTES) ].

(** *** Guards *)

Definition _validate_quota_guard (value : pyval) : res dict :=
  d ← as_dict value "invalid quota_guard";
  _ ← require (keys_within d DEFAULT_QUOTA_GUARD.*1) "invalid quota_guard";
  pause ← int_setting d "claude_7d_pause_percent" 85 1 100;
  resume ← int_setting d "claude_7d_resume_percent" 75 1 100;
  reset ← int_setting d "claude_7d_imminent_reset_minutes" 120 0 10080;
  _ ← require (resume <? pause) "quota_guard resume percent must be below pause percent";
  Ok [ ("claude_7d_pause_percent", PInt pause); ("claude_7d_resume_percent", PInt resume);
       ("claude_7d_imminent_reset_minutes", PInt reset) ].

Definition _validate_progress_watchdog (value : pyval) : res dict :=
  d ← as_dict value "invalid progress_watchdog";
  _ ← require (keys_within d ["enabled"; "threshold_turns"; "threshold_usd"])
        "invalid progress_watchdog";
  enabled ← _bool (get_or "enabled" (PBool true) d) "invalid progress_watchdog enabled";
  match get_or "threshold_turns" (PInt 8) d with
  | PInt threshold =>
      _ ← require ((1 <=? threshold) && (threshold <=? MAX_PROGRESS_WATCHDOG_TURNS))
            "invalid progress_watchdog threshold_turns";
      Ok [("enabled", PBool enabled); ("threshold_turns", PInt threshold)]
  | _ => Raise (ValueError "invalid progress_watchdog threshold_turns")
  end.

(** The readers of a stored policy. *)
Definition intake_policy (policy : dict) : res dict :=
  _validate_intake (or_empty (dict_get "intake" policy)).
Definition problem_issues_policy (policy : dict) : res dict :=
  _validate_problem_issues (or_empty (dict_get "problem_issues" policy)).
Definition quota_guard_policy (policy : dict) : res dict :=
  _validate_quota_guard (or_empty (dict_get "quota_guard" policy)).
Definition progress_watchdog_policy (policy : dict) : res dict :=
  _validate_progress_watchdog (or_empty (dict_get "progress_watchdog" policy)).

(** *** Model pools *)

Definition pool_role (role : string) : bool :=
  str_in role (_POOL_ROLES.*1 ++ _CLASS_POOL_ROLES).

(** One pool, against the models the policy names. *)
Definition validate_pool (policy : dict) (p : string * pyval) : res (string * pyval) :=
  let '(role, pool) := p in
  match pool with
  | PList l =>
      _ ← require (count_within 1 8 l) ("invalid model_pools." +:+ role);
      models ← res_map (λ m, _text m "model" 128) l;
      _ ← require (bool_decide (NoDup models)) ("duplicate model in model_pools." +:+ role);
      _ ← (match assoc_get role _POOL_ROLES with
           | Some field =>
               head ← policy_index field policy;
               require (match models with m :: _ => py_eq (PStr m) head | [] => false end)
                 ("model_pools." +:+ role +:+ " must start with the " +:+ role +:+ " model")
           | None => Ok tt
           end);
      allowed ← policy_index "allowed_models" policy;
      outside ← res_map (λ m, py_contains m allowed) models;
      _ ← require (forallb id outside)
            ("model_pools." +:+ role +:+ " names a model that is not allowed");
      Ok (role, strs models)
  | _ => Raise (ValueError ("invalid model_pools." +:+ role))
  end.

Definition _validate_model_pools (pools : pyval) (policy : dict) : res dict :=
  d ← as_dict pools "invalid model_pools";
  _ ← require (truthy pools && forallb (λ p, pool_role p.1) d) "invalid model_pools";
  res_map (validate_pool policy) d.

(** *** Backlog refill ([backlog_refill_policy.normalize]) *)

Definition REFILL_DEFAULTS : dict :=
  [ ("enabled", PBool false); ("max_findings", PInt 100); ("min_eligible", PInt 25);
    ("cooldown_minutes", PInt 15); ("min_new_issues", PInt 3);
    ("breaker_consecutive_low_yield", PInt 3); ("max_per_24_hours", PInt 24);
    ("model", PStr "astra"); ("effort", PStr "high") ].
Definition REFILL_BOUNDS : list (string * (Z * Z)) :=
  [ ("min_eligible", (1, 1000)); ("max_findings", (1, 100)); ("cooldown_minutes", (1, 1440));
    ("min_new_issues", (0, 100)); ("breaker_consecutive_low_yield", (1, 10));
    ("max_per_24_hours", (1, 24)) ]%string.
Definition int_between (low high : Z) (v : pyval) : bool :=
  match v with PInt z => (low <=? z) && (z <=? high) | _ => false end.

Definition refill_normalize (policy : dict) : res dict :=
  value ← as_dict (get_or "backlog_refill" (PDict []) policy) "invalid backlog_refill";
  _ ← require (keys_within value REFILL_DEFAULTS.*1) "invalid backlog_refill";
  let result := dict_update REFILL_DEFAULTS value in
  enabled ← _bool (dict_get "enabled" result) "invalid backlog_refill enabled";
  _ ← res_map (λ b : string * (Z * Z),
        require (int_between b.2.1 b.2.2 (dict_get b.1 result))
          ("invalid backlog_refill " +:+ b.1)) REFILL_BOUNDS;
  _ ← match dict_get "model" result with
      | PStr model =>
          if enabled || has_key "model" value then
            allowed ← py_contains model (get_or "allowed_models" (PList []) policy);
            require allowed "backlog_refill model is not allowed"
          else Ok tt
      | _ => Raise (ValueError "backlog_refill model is not allowed")
      end;
  _ ← require (pystr_in (dict_get "effort" result) EFFORT_LEVELS) "invalid backlog_refill effort";
  Ok result.

(** *** Repositories *)

(** Keep a key only when the operator set it. *)
Definition kept (key : string) (d : dict) (f : pyval → res pyval) : res dict :=
  match assoc_get key d with
  | Some v => w ← f v; Ok [(key, w)]
  | None => Ok []
  end.

Definition _validate_repo_entry (slug : string) (value : pyval) : res dict :=
  d ← as_dict value ("invalid repos entry for " +:+ slug);
  _ ← require (keys_within d REPO_ENTRY_KEYS) ("invalid repos entry for " +:+ slug);
  let bad key := "invalid repos " +:+ key +:+ " for " +:+ slug in
  let flag key := kept key d (λ v, b ← _bool v (bad key); Ok (PBool b)) in
  let labels key := kept key d (λ v, l ← label_list v (bad key); Ok (strs l)) in
  let money key := kept key d (λ v, f ← _money v key false; Ok (PFloat f)) in
  enabled ← flag "enabled"%string;
  paused ← flag "paused"%string;
  auto_merge ← flag "auto_merge"%string;
  labels_ ← labels "labels"%string;
  exclude ← labels "exclude_labels"%string;
  per_day ← kept "max_per_day" d (λ v, z ← _integer v "max_per_day" 1 10000; Ok (PInt z));
  max_tasks ← kept "max_tasks" d (λ v, l ← _validate_max_tasks v; Ok (lanes_dict l));
  task_budget ← money "task_budget_usd"%string;
  turn_budget ← money "turn_budget_usd"%string;
  landing ← kept "landing" d (λ v, _ ← require (pystr_in v LANDING_MODES) (bad "landing"%string); Ok v);
  charter ← kept "charter" d (λ v,
    match v with
    | PStr s => _ ← require (String.length s <=? 2000)%nat (bad "charter"%string); Ok v
    | _ => Raise (ValueError (bad "charter"%string))
    end);
  Ok (enabled ++ paused ++ auto_merge ++ labels_ ++ exclude ++ per_day ++ max_tasks ++
      task_budget ++ turn_budget ++ landing ++ charter).

(** [a > b] on numbers and on texts. *)
Definition py_gt (a b : pyval) : res bool :=
  match xnum_of a, xnum_of b with
  | Some x, Some y => Ok (xlt y x)
  | _, _ =>
      match a, b with
      | PStr s, PStr t => Ok (String.ltb t s)
      | _, _ => Raise TypeError
      end
  end.

(** [{label.lower() for label in v}] on a list. *)
Definition lower_all (v : pyval) : res (list string) :=
  match v with
  | PList l => res_map (λ x, match x with PStr s => Ok (py_lower s) | _ => Raise AttributeError end) l
  | _ => Raise TypeError
  end.

Definition _resolve_repo_entry (slug : string) (stored : pyval) (is_primary : bool)
    (policy : dict) : res dict :=
  intake ← intake_policy policy;
  match stored with
  | PDict stored =>
      lanes ← lane_max_tasks policy;
      task_budget ← policy_index "task_budget_usd" policy;
      turn_budget ← policy_index "turn_budget_usd" policy;
      let entry :=
        [ ("enabled", get_or "enabled" (PBool is_primary) stored);
          ("paused", get_or "paused" (PBool false) stored);
          ("labels", get_or "labels" (dict_get "labels" intake) stored);
          ("exclude_labels", get_or "exclude_labels" (dict_get "exclude_labels" intake) stored);
          ("max_per_day", get_or "max_per_day" (dict_get "max_per_day" intake) stored);
          ("max_tasks", get_or "max_tasks" (lanes_dict lanes) stored);
          ("task_budget_usd", get_or "task_budget_usd" task_budget stored);
          ("turn_budget_usd", get_or "turn_budget_usd" turn_budget stored);
          ("charter", get_or "charter" (PStr "") stored) ] in
      labels ← lower_all (dict_get "labels" entry);
      exclude ← lower_all (dict_get "exclude_labels" entry);
      _ ← require (negb (existsb (λ l, str_in l exclude) labels))
            ("repos labels overlap exclude_labels for " +:+ slug);
      over ← py_gt (dict_get "turn_budget_usd" entry) (dict_get "task_budget_usd" entry);
      _ ← require (negb over) ("turn budget exceeds task budget for " +:+ slug);
      let auto_merge :=
        is_true match assoc_get "auto_merge" stored with
                | Some v => v
                | None => if is_primary then get_or "auto_merge" (PBool DEFAULT_AUTO_MERGE) policy
                          else PBool DEFAULT_AUTO_MERGE
                end in
      let landing := get_or "landing" (PStr (if auto_merge then "merge_queue" else "none")) stored in
      _ ← require (negb auto_merge || py_eq landing (PStr "merge_queue"))
            ("repos auto_merge needs merge_queue landing for " +:+ slug);
      Ok (entry ++ [("auto_merge", PBool auto_merge); ("landing", landing)])
  | _ => Raise AttributeError
  end.

(** The loop of [_validate_repos]. *)
Fixpoint validate_entries (primary : pyval) (policy : dict) (entries result : dict) : res dict :=
  match entries with
  | [] => Ok result
  | (raw_slug, raw_entry) :: entries =>
      slug ← normalize_repo (PStr raw_slug);
      _ ← require (negb (has_key slug result)) "duplicate repos entry";
      entry ← _validate_repo_entry slug raw_entry;
      _ ← _resolve_repo_entry slug (PDict entry) (py_eq (PStr slug) primary) policy;
      validate_entries primary policy entries (result ++ [(slug, PDict entry)])
  end.

Definition _validate_repos (value : pyval) (policy : dict) : res dict :=
  d ← as_dict value "invalid repos";
  _ ← require (count_within 1 MAX_REPOS d) "invalid repos";
  primary ← policy_index "repo" policy;
  validate_entries primary policy d [].

Definition dict_del {A} (key : string) (d : list (string * A)) : list (string * A) :=
  filter (λ p, p.1 ≠ key) d.

Definition _stored_repos (policy : dict) : res dict :=
  let stored := match dict_get "repos" policy with PDict d => d | _ => [] end in
  let primary := dict_get "repo" policy in
  if negb (truthy primary) then Ok stored else
  primary ← normalize_repo primary;
  Ok ((primary, get_or primary (PDict []) stored) :: dict_del primary stored).

Definition primary_slug (policy : dict) : res (option string) :=
  let primary := dict_get "repo" policy in
  if truthy primary then Some <$> normalize_repo primary else Ok None.

Definition repos_map (policy : dict) : res (list (string * dict)) :=
  primary ← primary_slug policy;
  stored ← _stored_repos policy;
  res_map (λ p : string * pyval,
    entry ← _resolve_repo_entry p.1 p.2 (bool_decide (Some p.1 = primary)) policy;
    Ok (p.1, entry)) stored.

Definition enabled_repos (policy : dict) : res (list string) :=
  repos ← repos_map policy;
  Ok (py_sorted String.leb (filter (λ p : string * dict,
        is_true (dict_get "enabled" p.2) = true ∧ is_true (dict_get "paused" p.2) = false)
      repos).*1).

Definition repo_entry (policy : dict) (repo : pyval) : res dict :=
  repos ← repos_map policy;
  slug ← normalize_repo repo;
  match assoc_get slug repos with
  | Some entry => Ok entry
  | None => Raise (ValueError "unknown repo")
  end.

Definition repo_lane_max_tasks (policy : dict) (repo : pyval) : res LaneCounts :=
  stored ← _stored_repos policy;
  slug ← normalize_repo repo;
  match assoc_get slug stored with
  | Some (PDict entry) =>
      lanes ← lane_max_tasks policy;
      _validate_max_tasks (get_or "max_tasks" (lanes_dict lanes) entry)
  | Some PNone | None => Raise (ValueError "unknown repo")
  | Some _ => Raise AttributeError
  end.

Definition repo_effective_policy (policy : dict) (repo : pyval) : res dict :=
  slug ← normalize_repo repo;
  entry ← repo_entry policy (PStr slug);
  Ok (dict_update policy
        [ ("repo", PStr slug); ("task_budget_usd", dict_get "task_budget_usd" entry);
          ("turn_budget_usd", dict_get "turn_budget_usd" entry);
          ("max_tasks", dict_get "max_tasks" entry); ("auto_merge", dict_get "auto_merge" entry) ]).

(** ** The policy *)

(** The sizes of a task: every integer bound of the policy. *)
Definition policy_sizes (policy : dict) : res dict :=
  let optional key low high := kept key policy (λ v, z ← _integer v key low high; Ok (PInt z)) in
  let required key low high :=
    v ← policy_index key policy; z ← _integer v key low high; Ok [(key, PInt z)] in
  generation ← required "generation"%string 0 MAX_INT32;
  turn_timeout ← required "turn_timeout_seconds"%string 1 43200;
  attempts ← required "max_attempts"%string 1 10;
  task_timeout ← required "task_timeout_seconds"%string 1 86400;
  soft ← optional "max_turns_per_task"%string 1 100;
  hard ← (match assoc_get "max_task_turns_hard" policy, soft with
          | Some v, _ => z ← _integer v "max_task_turns_hard" 1 500; Ok (PInt z)
          | None, [(_, v)] => Ok v
          | None, _ => Raise (ValueError "policy needs max_task_turns_hard or max_turns_per_task")
          end);
  parallel ← int_setting policy "max_parallel_nodes" DEFAULT_MAX_PARALLEL_NODES 1 8;
  planner ← (match assoc_get "max_planner_turns" policy with
             | Some v => z ← _integer v "max_planner_turns" 1 100; Ok (PInt z)
             | None => Ok hard
             end);
  rounds ← int_setting policy "max_review_rounds" DEFAULT_MAX_REVIEW_ROUNDS 0 10;
  recovery ← int_setting policy "max_review_recovery_rounds" DEFAULT_MAX_REVIEW_RECOVERY_ROUNDS 0 2;
  Ok (generation ++ turn_timeout ++ attempts ++ task_timeout ++ soft ++
      [ ("max_task_turns_hard", hard); ("max_parallel_nodes", PInt parallel);
        ("max_planner_turns", planner); ("max_review_rounds", PInt rounds);
        ("max_review_recovery_rounds", PInt recovery) ]).

Definition policy_issues (policy : dict) : res (list Z) :=
  issues ← policy_index "issue_numbers" policy;
  match issues with
  | PList l =>
      _ ← require (length l <=? 100)%nat "invalid issue_numbers";
      _ ← (match l with
           | [] => intake ← intake_policy policy;
                   require (truthy (dict_get "enabled" intake)) "invalid issue_numbers"
           | _ => Ok tt
           end);
      numbers ← res_map (λ i, _integer i "issue_number" 1 MAX_INT32) l;
      Ok (sorted_ints numbers)
  | _ => Raise (ValueError "invalid issue_numbers")
  end.

Definition policy_budgets (policy : dict) : res (spec_float * spec_float) :=
  task ← policy_index "task_budget_usd" policy;
  task ← _money task "task_budget_usd" false;
  turn ← policy_index "turn_budget_usd" policy;
  turn ← _money turn "turn_budget_usd" false;
  _ ← require (negb (flt task turn)) "turn budget exceeds task budget";
  Ok (task, turn).

Definition policy_models (policy : dict) : res (list string) :=
  models ← policy_index "allowed_models" policy;
  match models with
  | PList l =>
      _ ← require (count_within 1 16 l) "invalid allowed_models";
      names ← res_map (λ m, _text m "model" 128) l;
      Ok (sorted_strs names)
  | _ => Raise (ValueError "invalid allowed_models")
  end.

(** The stored refill block keeps the keys the operator set. *)
Definition policy_refill (policy result : dict) : res dict :=
  refill ← refill_normalize result;
  match assoc_get "backlog_refill" policy with
  | Some (PDict d) => Ok [("backlog_refill", PDict ((λ p, (p.1, dict_get p.1 refill)) <$> d))]
  | _ => Ok []
  end.

Definition policy_roles (policy result : dict) (allowed : list string) : res unit :=
  conductor ← policy_index "conductor_model" policy;
  _ ← require (pystr_in conductor allowed) "conductor model is not allowed";
  _ ← require (pystr_in (dict_get "reviewer_model" result) allowed) "reviewer model is not allowed";
  worker ← policy_index "worker_model" policy;
  require (pystr_in worker allowed) "worker model is not allowed".

(** The optional blocks, each kept or defaulted as the code stores it. *)
Definition policy_blocks (policy result : dict) : res dict :=
  pools ← kept "model_pools" policy (λ v, PDict <$> _validate_model_pools v result);
  effort ← kept "role_effort" policy (λ v, PDict <$> _validate_role_effort v);
  intake ← _validate_intake (get_or "intake" (PDict []) policy);
  problems ← _validate_problem_issues (get_or "problem_issues" (PDict []) policy);
  quota ← _validate_quota_guard (get_or "quota_guard" (PDict []) policy);
  watchdog ← _validate_progress_watchdog (get_or "progress_watchdog" (PDict []) policy);
  auto_merge ← _bool (get_or "auto_merge" (PBool DEFAULT_AUTO_MERGE) policy) "invalid auto_merge";
  binding ← kept "task_budget_binding" policy
              (λ v, PBool <$> _bool v "invalid task_budget_binding");
  Ok (pools ++ effort ++
      [ ("intake", PDict intake); ("problem_issues", PDict problems);
        ("quota_guard", PDict quota); ("progress_watchdog", PDict watchdog);
        ("auto_merge", PBool auto_merge) ] ++ binding).

Definition validate_policy (value : pyval) : res dict :=
  let msg := "policy must contain exactly the supported operator fields"%string in
  policy ← as_dict value msg;
  _ ← require (forallb (λ k, has_key k policy) required_keys && keys_within policy _POLICY_KEYS) msg;
  conductor ← policy_index "conductor_model" policy;
  let result := if has_key "reviewer_model" policy then policy
                else dict_set "reviewer_model" conductor policy in
  repo ← policy_index "repo" policy;
  repo ← normalize_repo repo;
  issues ← policy_issues policy;
  max_tasks ← policy_index "max_tasks" policy;
  max_tasks ← _validate_max_tasks max_tasks;
  sizes ← policy_sizes policy;
  '(task, turn) ← policy_budgets policy;
  allowed ← policy_models policy;
  let result := dict_update result
    ([ ("repo", PStr repo); ("issue_numbers", ints issues); ("max_tasks", lanes_dict max_tasks) ] ++
     sizes ++
     [ ("task_budget_usd", PFloat task); ("turn_budget_usd", PFloat turn);
       ("allowed_models", strs allowed) ]) in
  refill ← policy_refill policy result;
  let result := dict_update result refill in
  _ ← policy_roles policy result allowed;
  blocks ← policy_blocks policy result;
  let result := dict_update result blocks in
  repos ← kept "repos" policy (λ v, PDict <$> _validate_repos v result);
  let result := dict_update result repos in
  over ← py_gt (dict_get "turn_timeout_seconds" result) (dict_get "task_timeout_seconds" result);
  _ ← require (negb over) "turn timeout exceeds task timeout";
  base ← policy_index "base_branch" policy;
  base ← _text base "base_branch" 256;
  Ok (dict_set "base_branch" (PStr base) result).

Definition LOOM_REPO_SLUG : string := "weave-hand/loom".
Definition LOOM_STAGED_MAX_PER_DAY : Z := 2.
Definition LOOM_CHARTER : string :=
  "Repository weave-hand/loom. CI is the repository's GitHub Actions " +:+
  "workflow: run its checks with buck2 the way that workflow does, and " +:+
  "deliver only on a green workflow run for the exact pushed head. " +:+
  "auto_merge stays off, so every change lands through a pull request " +:+
  "that a person merges after its own green run. Deliver repository " +:+
  "changes through a pull request with required Linux CI from that " +:+
  "workflow. An independent second session examines the exact pushed head " +:+
  "and records its SHA and verdict before delivery completes. ".

Definition repo_charter (repo : pyval) : string :=
  match normalize_repo repo with
  | Ok slug => if bool_decide (slug = LOOM_REPO_SLUG) then LOOM_CHARTER else ""%string
  | Raise _ => ""%string
  end.

Definition staged_loom_repo_entry : dict :=
  [ ("enabled", PBool false); ("paused", PBool false); ("max_per_day", PInt LOOM_STAGED_MAX_PER_DAY);
    ("landing", PStr "none"); ("auto_merge", PBool false); ("charter", PStr LOOM_CHARTER) ].

Definition migration_policy_with_loom (policy : dict) : res dict :=
  validated ← validate_policy (PDict policy);
  let stored := match or_empty (dict_get "repos" validated) with PDict d => d | _ => [] end in
  _ ← require (negb (has_key LOOM_REPO_SLUG stored)) "loom entry already present";
  validate_policy (PDict (dict_update validated
    [("repos", PDict (dict_set LOOM_REPO_SLUG (PDict staged_loom_repo_entry) stored))])).

Definition _policy_for_generation_comparison (policy : dict) : res dict :=
  refill ← refill_normalize policy;
  let comparable := dict_set "backlog_refill" (PDict refill) policy in
  problems ← problem_issues_policy comparable;
  let comparable := dict_set "problem_issues" (PDict problems) comparable in
  let comparable := if has_key "task_budget_binding" comparable then comparable
                    else dict_set "task_budget_binding" (PBool false) comparable in
  watchdog ← progress_watchdog_policy comparable;
  let comparable := dict_set "progress_watchdog" (PDict watchdog) comparable in
  intake ← intake_policy comparable;
  let comparable := dict_set "intake" (PDict intake) comparable in
  repos ← _stored_repos comparable;
  Ok (dict_set "repos" (PDict repos) comparable).

Definition auto_merge_enabled (policy : dict) : bool :=
  is_true (get_or "auto_merge" (PBool DEFAULT_AUTO_MERGE) policy).

(** The [except (TypeError, ValueError)] reads every refusal as off. *)
Definition repo_auto_merge_enabled (policy : dict) (repo : pyval) : bool :=
  if negb (auto_merge_enabled policy) then false else
  match (slug ← normalize_repo repo;
         primary ← normalize_repo (dict_get "repo" policy);
         if negb (bool_decide (slug = primary)) then Ok false else
         stored ← _stored_repos policy;
         Ok match assoc_get slug stored with
            | Some (PDict d) => is_true (get_or "auto_merge" (PBool true) d)
            | _ => false
            end) with
  | Ok b => b
  | Raise _ => false
  end.
