(* ===== verification/Pricing.v ===== *)
(** * List prices of agent token usage

    [shared/pricing.py]: the model's price reference, the normal form of a usage
    report in the shapes the guests send, and the cost.  The catalogue of the
    third-party price library is an argument.  Theorems on them end the file. *)

From Stdlib Require Import SpecFloat Ascii.
From stdpp Require Import prelude list strings.
From S2P Require Import Prelude PyValue PolicyData.
Local Open Scope Z_scope.

(** ** The tables *)

Record FixedPrice := mkFixed
  { fp_input : spec_float; fp_cache_read : option spec_float; fp_cache_write : option spec_float;
    fp_output : spec_float }.

Definition _MODEL_ALIASES : list (string * (string * string)) :=
  [("luna", ("gpt-6-luna", "fixed")); ("terra", ("gpt-5.6-terra", "openai")); ("sol", ("gpt-6.1-sol", "fixed"));
   ("astra", ("gpt-6-astra", "fixed")); ("opus", ("claude-opus-5-5", "fixed")); ("sonnet", ("claude-sonnet-5-5", "fixed"));
   ("fable", ("claude-fable-5-1", "anthropic")); ("spark", ("muse-spark-1.3-contributor", "muse"));
   ("pi-spark", ("muse-spark-1.3-contributor", "muse")); ("qwen", ("muse-spark-1.3-contributor", "muse"))]%string.

Definition FIXED_PRICES : list (string * FixedPrice) :=
  [("muse-spark-1.3-contributor"%string, mkFixed (dec 10 100) None None (dec 20 100));
   ("gpt-6-luna"%string, mkFixed (dec 10 100) (Some (dec 1 100)) None (dec 50 100));
   ("gpt-6-sol"%string, mkFixed (dec 200 100) (Some (dec 20 100)) None (dec 1000 100));
   ("gpt-6.1-sol"%string, mkFixed (dec 200 100) (Some (dec 10 100)) None (dec 1000 100));
   ("claude-opus-5-5"%string, mkFixed (dec 400 100) (Some (dec 20 100)) (Some (dec 500 100)) (dec 2000 100));
   ("claude-sonnet-5-5"%string, mkFixed (dec 200 100) (Some (dec 20 100)) (Some (dec 250 100)) (dec 1000 100));
   ("gpt-6-astra"%string, mkFixed (dec 1000 100) (Some (dec 100 100)) None (dec 5000 100));
   ("codex-auto-review"%string, mkFixed (dec 250 100) (Some (dec 25 100)) None (dec 1500 100))].

Definition _CLAUDE_CACHE_KEYS : list string := ["cache_read_input_tokens"; "cache_creation_input_tokens"].
Definition _CODEX_KEYS : list string := ["cached_input_tokens"; "cache_write_input_tokens"; "reasoning_output_tokens"].
Definition _TOKEN_KEYS : list string :=
  ["input_tokens"; "output_tokens"; "cache_read_tokens"; "cache_write_tokens"; "cache_read_input_tokens";
   "cache_creation_input_tokens"; "cached_input_tokens"; "cache_write_input_tokens"].

(** ** Usage *)

(** The int of an integral float. *)
Definition float_integer (f : spec_float) : option Z :=
  match f with
  | S754_zero _ => Some 0
  | S754_finite s m e =>
      let z := if s then Z.neg m else Z.pos m in
      if 0 <=? e then Some (z * 2 ^ e)
      else if z mod 2 ^ (- e) =? 0 then Some (z / 2 ^ (- e)) else None
  | _ => None
  end.

Definition _token_count (usage : dict) (key : string) : res Z :=
  let invalid := Raise (ValueError ("invalid token count for " +:+ key)) in
  match get_or key (PInt 0) usage with
  | PNone => Ok 0
  | PInt z => finite ← math_isfinite (PInt z); if negb finite || (z <? 0) then invalid else Ok z
  | PFloat f => if negb (f_is_finite f) || flt f fzero then invalid
                else match float_integer f with Some z => Ok z | None => invalid end
  | _ => invalid
  end.

Definition _model_ref (model : string) : string * option string :=
  match assoc_get model _MODEL_ALIASES with
  | Some (ref, provider) => (ref, Some provider)
  | None =>
      if has_key model FIXED_PRICES
      then (model, Some (if startswith "muse-" model then "muse" else "fixed")%string)
      else if startswith "claude-" model then (model, Some "anthropic"%string)
      else if startswith "gpt-" model then (model, Some "openai"%string)
      else (model, None)
  end.

(** Input (cache included), output, cache read and cache write tokens. *)
Record Counts := mkCounts { uc_input : Z; uc_output : Z; uc_read : Z; uc_write : Z }.

Definition COLLECTOR_SHAPES : list string := ["claude"; "codex"; "muse"].

(** A usage without a [shape] is read by the keys it carries. *)
Definition _normalized_usage (usage : dict) (provider_id : option string) : res Counts :=
  input ← _token_count usage "input_tokens";
  output ← _token_count usage "output_tokens";
  let with_keys (read_key write_key : string) (claude_shape : bool) :=
    read ← _token_count usage read_key; write ← _token_count usage write_key;
    Ok (mkCounts (if claude_shape then input + (read + write) else input) output read write) in
  match dict_get "shape" usage with
  | PNone =>
      if existsb (λ k, has_key k usage) _CLAUDE_CACHE_KEYS
      then with_keys "cache_read_input_tokens"%string "cache_creation_input_tokens"%string true else
      if existsb (λ k, has_key k usage) _CODEX_KEYS
      then with_keys (if has_key "cached_input_tokens" usage then "cached_input_tokens" else "cache_read_tokens")%string
             (if has_key "cache_write_input_tokens" usage then "cache_write_input_tokens" else "cache_write_tokens")%string
             false
      else with_keys "cache_read_tokens"%string "cache_write_tokens"%string
             (bool_decide (provider_id = Some "anthropic"%string))
  | PStr shape =>
      if negb (str_in shape COLLECTOR_SHAPES) then Raise (ValueError "invalid collector usage shape") else
      with_keys "cache_read_tokens"%string "cache_write_tokens"%string (bool_decide (shape = "claude"%string))
  | PList _ | PDict _ => Raise TypeError
  | _ => Raise (ValueError "invalid collector usage shape")
  end.

(** ** Prices *)

(** What the price library answers: a total and the model it priced, an unknown
    model ([LookupError]), or another exception. *)
Inductive CalcResult := Priced (total : spec_float) (model_id : string) | UnknownModel | CalcFailed (e : exn).
Class PriceBook := calc_price : Counts → string → option string → CalcResult.

(** [re.sub(r"-\d{8}$", "", s)]; [$] also matches before a final line feed. *)
Definition drop_date (s : string) : string :=
  let n := (String.length s - 9)%nat in
  let tail := String.substring n 9 s in
  match tail with
  | String c digits =>
      if bool_decide (String.length s < 9)%nat then s
      else if bool_decide (c = "-"%char) && isdigit digits then String.substring 0 n s else s
  | EmptyString => s
  end.
Definition without_date (s : string) : string :=
  let n := (String.length s - 1)%nat in
  if bool_decide (String.substring n 1 s = NL) then drop_date (String.substring 0 n s) +:+ NL else drop_date s.

Record PricedUsage := mkPriced { pu_cost_usd : spec_float; pu_source : string; pu_model_ref : string }.

(** [count * price] of an int and a float. *)
Definition times (count : Z) (price : spec_float) : res spec_float := f ← float_of_int count; Ok (fmul f price).
Definition per_million (total : spec_float) : spec_float := fdiv total (f_of_Z 1000000).

Definition muse_cost (prices : FixedPrice) (c : Counts) : res spec_float :=
  if (uc_input c <? uc_read c) || (uc_input c <? uc_write c)
  then Raise (ValueError "Muse cache tokens exceed inclusive input tokens") else
  input ← times (uc_input c) (fp_input prices); output ← times (uc_output c) (fp_output prices);
  Ok (per_million (fadd input output)).

Definition fixed_cost (prices : FixedPrice) (c : Counts) : res spec_float :=
  let write := match fp_cache_write prices with Some _ => uc_write c | None => 0 end in
  if uc_input c <? uc_read c + write then Raise (ValueError "cache tokens exceed input tokens") else
  plain ← times (uc_input c - uc_read c - write) (fp_input prices);
  read_price ← (match fp_cache_read prices with
                | Some p => Ok p
                | None => Raise (KeyError "cache_read_per_million")
                end);
  read ← times (uc_read c) read_price;
  written ← (match fp_cache_write prices with Some p => times write p | None => Ok fzero end);
  output ← times (uc_output c) (fp_output prices);
  Ok (per_million (fadd (fadd (fadd plain read) written) output)).

(** [LookupError] and its subclasses. *)
Definition lookup_failed (r : CalcResult) : bool :=
  match r with UnknownModel | CalcFailed (KeyError _) | CalcFailed IndexError => true | _ => false end.

Definition catalogue_cost `{PriceBook} (c : Counts) (ref : string) (provider_id : option string)
    : res (option PricedUsage) :=
  let answer (r : CalcResult) : res (option PricedUsage) :=
    match r with
    | Priced total id => Ok (Some (mkPriced total "list" id))
    | UnknownModel => Ok None
    | CalcFailed e => Raise e
    end in
  let first := calc_price c ref provider_id in
  if lookup_failed first && negb (bool_decide (without_date ref = ref))
  then answer (calc_price c (without_date ref) provider_id)
  else answer first.

(** The body of the [try], before its handlers. *)
Definition price_body `{PriceBook} (model : string) (usage : dict) : res (option PricedUsage) :=
  let '(ref, provider_id) := _model_ref model in
  let usage_provider := if startswith "claude-" ref then Some "anthropic"%string else provider_id in
  counts ← _normalized_usage usage usage_provider;
  if (uc_input counts =? 0) && (uc_output counts =? 0) && (uc_read counts =? 0) && (uc_write counts =? 0) then Ok None else
  let fixed (cost : FixedPrice → Counts → res spec_float) :=
    match assoc_get ref FIXED_PRICES with
    | Some prices => total ← cost prices counts; Ok (Some (mkPriced total "list" ref))
    | None => Raise (KeyError ref)
    end in
  match provider_id with
  | Some "muse"%string => fixed muse_cost
  | Some "fixed"%string => fixed fixed_cost
  | _ => catalogue_cost counts ref provider_id
  end.

(** The exceptions [price_usage] turns into [None]. *)
Definition swallowed (e : exn) : bool :=
  match e with ValueError _ | KeyError _ | TypeError | OverflowError | IndexError | WorkItemError _ => true | _ => false end.

Definition price_usage `{PriceBook} (model : option string) (usage : option dict) : res (option PricedUsage) :=
  match model, usage with
  | Some model, Some usage =>
      if bool_decide (model = ""%string) || negb (truthy (PDict usage)) then Ok None else
      match price_body model usage with
      | Raise e => if swallowed e then Ok None else Raise e
      | r => r
      end
  | _, _ => Ok None
  end.

Definition positive_number (v : pyval) : bool :=
  match v with PInt z => 0 <? z | PFloat f => flt fzero f | _ => false end.
Definition usage_has_tokens (usage : pyval) : bool :=
  match usage with
  | PDict d => existsb (λ p, str_in p.1 _TOKEN_KEYS && positive_number p.2) d
  | _ => false
  end.

(** The reported cost a Claude Code model is taken at. *)
Definition reported_price (model : option string) (reported : option spec_float) : option spec_float :=
  match reported, model with
  | Some f, Some m =>
      if negb (bool_decide (m = ""%string)) &&
         (str_in m ["opus"; "sonnet"; "fable"; "haiku"]%string || startswith "claude-" m) &&
         f_is_finite f && flt fzero f
      then Some f else None
  | _, _ => None
  end.
Definition list_price_usd `{PriceBook} (model : option string) (usage : option dict) (reported : option spec_float)
    : res (option spec_float) :=
  match reported_price model reported with
  | Some f => Ok (Some f)
  | None =>
      priced ← price_usage model usage;
      Ok (match priced with Some p => Some (pu_cost_usd p) | None => None end)
  end.

(** * List prices: theorems *)

(** ** Which exceptions escape *)

(** The result, or an exception [price_usage] handles. *)
Definition quiet {A} (m : res A) : Prop := match m with Ok _ => True | Raise e => swallowed e = true end.

Lemma quiet_ok {A} (x : A) : quiet (Ok x).
Proof. done. Qed.
Lemma quiet_bind {A B} (m : res A) (f : A → res B) : quiet m → (∀ x, quiet (f x)) → quiet (x ← m; f x).
Proof. destruct m; simpl; auto. Qed.
Create HintDb quiet.
#[export] Hint Resolve quiet_ok quiet_bind : quiet.

(** [auto] on the shape of a routine: a bind, or a test of its data. *)
Ltac quiet := repeat first [apply quiet_bind; [|intros ?] | progress auto with quiet | reflexivity | case_match].

Lemma quiet_float z : quiet (float_of_int z).
Proof. unfold float_of_int. quiet. Qed.
#[export] Hint Resolve quiet_float : quiet.

Lemma quiet_token_count usage key : quiet (_token_count usage key).
Proof. unfold _token_count, math_isfinite, to_float. quiet. Qed.
#[export] Hint Resolve quiet_token_count : quiet.

Lemma quiet_times n f : quiet (times n f).
Proof. unfold times. quiet. Qed.
#[export] Hint Resolve quiet_times : quiet.

Lemma quiet_usage usage provider : quiet (_normalized_usage usage provider).
Proof. unfold _normalized_usage. quiet. Qed.
Lemma quiet_muse prices c : quiet (muse_cost prices c).
Proof. unfold muse_cost. quiet. Qed.
Lemma quiet_fixed prices c : quiet (fixed_cost prices c).
Proof. unfold fixed_cost. quiet. Qed.
#[export] Hint Resolve quiet_usage quiet_muse quiet_fixed : quiet.

Lemma price_body_quiet `{PriceBook} model usage :
  (∀ c m p e, calc_price c m p = CalcFailed e → swallowed e = true) → quiet (price_body model usage).
Proof.
  intros Hbook. unfold price_body, catalogue_cost. quiet; simpl; eauto.
Qed.

(** Pricing never raises: whatever the model and the usage report, counts
    that are negative, fractional, boolean or too large included, [price_usage]
    answers a price or that there is none, as long as the price library fails
    only with the exceptions the code handles. *)
Theorem price_usage_total `{PriceBook} model usage reported :
  (∀ c m p e, calc_price c m p = CalcFailed e → swallowed e = true) →
  (∃ r, price_usage model usage = Ok r) ∧ ∃ r, list_price_usd model usage reported = Ok r.
Proof.
  intros Hbook. assert (∃ r, price_usage model usage = Ok r) as [r Hr].
  { unfold price_usage. destruct model as [m|], usage as [u|]; eauto. case_match; eauto.
    pose proof (price_body_quiet m u Hbook) as Hq. destruct (price_body m u); simpl in *; [eauto|]. rewrite Hq. eauto. }
  split; [eauto|]. unfold list_price_usd. destruct (reported_price _ _); [eauto|]. rewrite Hr. simpl. eauto.
Qed.

(** ** The shapes of a report *)

(** A count every guest may report. *)
Definition countable (z : Z) : Prop := 0 ≤ z ∧ math_isfinite (PInt z) = Ok true.

Lemma token_count_ok usage key z : get_or key (PInt 0) usage = PInt z → countable z → _token_count usage key = Ok z.
Proof.
  unfold _token_count. intros -> [Hz ->]. cbn [mbind res_bind negb orb]. by rewrite (proj2 (Z.ltb_ge z 0)).
Qed.

Lemma count_zero : countable 0.
Proof. done. Qed.

(** One turn as each guest reports it. Anthropic counts input without the cache. *)
Inductive report (i o r w : Z) : bool → dict → Prop :=
| RepClaude : report i o r w false
    [("shape", PStr "claude"); ("input_tokens", PInt i); ("output_tokens", PInt o);
     ("cache_read_tokens", PInt r); ("cache_write_tokens", PInt w)]%string
| RepClaudeNative : report i o r w false
    [("input_tokens", PInt i); ("output_tokens", PInt o);
     ("cache_read_input_tokens", PInt r); ("cache_creation_input_tokens", PInt w)]%string
| RepInclusive shape : shape = "codex"%string ∨ shape = "muse"%string → report i o r w true
    [("shape", PStr shape); ("input_tokens", PInt i); ("output_tokens", PInt o);
     ("cache_read_tokens", PInt r); ("cache_write_tokens", PInt w)]%string
| RepCodexNative : report i o r w true
    [("input_tokens", PInt i); ("output_tokens", PInt o);
     ("cached_input_tokens", PInt r); ("cache_write_input_tokens", PInt w)]%string
| RepCodexShim n : report i o r w true
    [("input_tokens", PInt i); ("output_tokens", PInt o); ("reasoning_output_tokens", n);
     ("cache_read_tokens", PInt r); ("cache_write_tokens", PInt w)]%string.

Lemma report_counts i o r w inclusive usage provider :
  report i o r w inclusive usage → countable i → countable o → countable r → countable w →
  _normalized_usage usage provider = Ok (mkCounts (if inclusive then i else i + (r + w)) o r w).
Proof.
  intros Hrep Hi Ho Hr Hw. unfold _normalized_usage.
  destruct Hrep as [| |shape [-> | ->]| |n];
    lazy -[_token_count Z.add]; repeat (erewrite token_count_ok by (reflexivity || assumption); lazy -[_token_count Z.add]);
    done.
Qed.

(** The price of a turn does not depend on the guest that reported it: the
    shapes that count input without the cache (Claude's, with its own keys or
    the collector's) and those that include it (Codex's native keys, its
    reasoning reports under the shim's keys, Codex and Muse through the
    collector) get the same answer for the same tokens, for every model. *)
Theorem reports_priced_alike `{PriceBook} model i o r w (inclusive inclusive' : bool) usage usage' :
  countable i → countable o → countable r → countable w → countable (i + r + w) →
  report (if inclusive then i + r + w else i) o r w inclusive usage →
  report (if inclusive' then i + r + w else i) o r w inclusive' usage' →
  price_usage model (Some usage) = price_usage model (Some usage').
Proof.
  intros Hi Ho Hr Hw Hs Hu Hu'.
  assert (∀ (inc : bool) u, report (if inc then i + r + w else i) o r w inc u →
            truthy (PDict u) = true ∧ ∀ provider, _normalized_usage u provider = Ok (mkCounts (i + r + w) o r w)) as Hall.
  { intros inc u Hrep. split; [by destruct Hrep|]. intros provider.
    erewrite report_counts by (try done; by destruct inc). do 2 f_equal. destruct inc; lia. }
  destruct (Hall _ _ Hu) as [Ht Hn], (Hall _ _ Hu') as [Ht' Hn']. unfold price_usage, price_body.
  destruct model as [m|]; [|done]. rewrite Ht, Ht'. destruct (_model_ref m) as [ref provider]. by rewrite Hn, Hn'.
Qed.
