(* ===== verification/PolicyFacts.v ===== *)
(** * Factory controls: the checked readers

    What an accepted text, integer, amount, name or list says, and that a
    reader accepts its own result.
    Then the blocks of a policy, which are stable under validation. *)

From Stdlib Require Import SpecFloat Ascii.
From stdpp Require Import prelude list strings pretty.
From S2P Require Import Prelude PyValue ModelCatalog ModelPool PolicyData Policy.
Local Open Scope Z_scope.

(** ** The sign of a converted integer *)

Lemma digits2_lower p : 2 ^ (Z.pos (digits2_pos p) - 1) ≤ Z.pos p.
Proof.
  induction p as [p IH|p IH|]; simpl digits2_pos; [| |done].
  - rewrite Pos2Z.inj_succ. replace (Z.succ _ - 1) with (Z.succ (Z.pos (digits2_pos p) - 1)) by lia.
    rewrite Z.pow_succ_r by lia. lia.
  - rewrite Pos2Z.inj_succ. replace (Z.succ _ - 1) with (Z.succ (Z.pos (digits2_pos p) - 1)) by lia.
    rewrite Z.pow_succ_r by lia. lia.
Qed.

Lemma shr_1_half mrs : 0 ≤ shr_m mrs → shr_m (shr_1 mrs) = shr_m mrs / 2.
Proof.
  destruct mrs as [m r s]. simpl. intros Hm.
  destruct m as [|[p|p|]|p]; simpl; try done; try lia.
  - rewrite Pos2Z.inj_xI. apply (Z.div_unique _ _ _ 1); lia.
  - rewrite Pos2Z.inj_xO. symmetry. rewrite Z.mul_comm. by apply Z.div_mul.
Qed.

Lemma iter_shr_div p mrs :
  0 ≤ shr_m mrs → shr_m (SpecFloat.iter_pos shr_1 p mrs) = shr_m mrs / 2 ^ Z.pos p.
Proof.
  revert mrs. induction p as [p IH|p IH|]; intros mrs Hm; simpl.
  - assert (0 ≤ shr_m (shr_1 mrs)) by (rewrite shr_1_half by done; apply Z.div_pos; lia).
    assert (0 ≤ shr_m (SpecFloat.iter_pos shr_1 p (shr_1 mrs))).
    { rewrite IH by done. apply Z.div_pos; [done|]. apply Z.pow_pos_nonneg; lia. }
    rewrite !IH, shr_1_half, !Z.div_div by (done || lia || (apply Z.pow_pos_nonneg; lia)).
    f_equal. rewrite (Pos2Z.inj_xI p), Z.pow_add_r, Z.mul_comm, <-Z.pow_add_r by lia.
    f_equal. f_equal. lia.
  - assert (0 ≤ shr_m (SpecFloat.iter_pos shr_1 p mrs)).
    { rewrite IH by done. apply Z.div_pos; [done|]. apply Z.pow_pos_nonneg; lia. }
    rewrite !IH, Z.div_div by (done || (apply Z.pow_nonzero; lia) || (apply Z.pow_pos_nonneg; lia)).
    f_equal. rewrite <-Z.pow_add_r by lia. f_equal. lia.
  - rewrite shr_1_half by done. done.
Qed.

Lemma shr_fexp_positive p e l :
  emin prec64 emax64 ≤ e →
  let r := shr_fexp prec64 emax64 (Z.pos p) e l in
  0 < shr_m r.1 ∧ emin prec64 emax64 ≤ r.2.
Proof.
  intros He. simpl. unfold shr_fexp, shr.
  assert (shr_m (shr_record_of_loc (Z.pos p) l) = Z.pos p) as Hm by by destruct l as [|[]].
  pose proof (digits2_lower p) as Hd. simpl Zdigits2.
  destruct (_ - e) as [|n|n] eqn:Hn; cbn [fst snd]; rewrite ?Hm; [lia| |lia].
  rewrite iter_shr_div, Hm by lia. split; [|lia].
  apply Z.div_str_pos. split; [apply Z.pow_pos_nonneg; lia|].
  etrans; [|exact Hd]. apply Z.pow_le_mono_r; [lia|].
  unfold fexp, prec64 in *. lia.
Qed.

Lemma round_nearest_up m l : m ≤ round_nearest_even m l.
Proof. destruct l as [|[]]; simpl; try lia. case_match; lia. Qed.

Lemma binary_round_positive p e :
  emin prec64 emax64 ≤ e →
  match binary_round_aux prec64 emax64 false (Z.pos p) e loc_Exact with
  | S754_finite false _ _ | S754_infinity false => True
  | _ => False
  end.
Proof.
  intros He. unfold binary_round_aux. pose proof (shr_fexp_positive p e loc_Exact He) as H1.
  destruct (shr_fexp _ _ _ e _) as [mrs e1]. simpl in H1. destruct H1 as [H1 He1].
  pose proof (round_nearest_up (shr_m mrs) (loc_of_shr_record mrs)) as Hup.
  destruct (round_nearest_even _ _) as [|q|q] eqn:E; [lia| |lia].
  pose proof (shr_fexp_positive q e1 loc_Exact He1) as H2.
  destruct (shr_fexp _ _ _ e1 _) as [mrs2 e2]. simpl in H2. destruct H2 as [H2 _].
  destruct (shr_m mrs2); [lia| |lia]. by destruct (e2 <=? _).
Qed.

(** A positive int converts to a positive float or to infinity. *)
Lemma f_of_Z_positive z :
  0 < z → f_is_finite (f_of_Z z) = true → ∃ m e, f_of_Z z = S754_finite false m e.
Proof.
  intros Hz Hf. destruct z as [|p|p]; [lia| |lia].
  unfold f_of_Z, binary_normalize, binary_round, shl_align in *.
  assert (∃ q e, emin prec64 emax64 ≤ e ∧
    (match fexp prec64 emax64 (Z.pos (digits2_pos p) + 0) - 0 with
     | Z.neg d => (Pos.iter xO p d, fexp prec64 emax64 (Z.pos (digits2_pos p) + 0))
     | _ => (p, 0)
     end) = (q, e)) as (q & e & He & Hqe).
  { destruct (_ - 0) eqn:E; do 2 eexists; (split; [|reflexivity]).
    - by unfold emin, prec64, emax64.
    - by unfold emin, prec64, emax64.
    - unfold fexp. lia. }
  rewrite Hqe in *. pose proof (binary_round_positive q e He) as H.
  destruct (binary_round_aux _ _ _ _ _ _) as [| | |[] m' e']; try done. eauto.
Qed.

(** ** Inversion *)

Lemma require_ok b msg u : require b msg = Ok u ↔ b = true.
Proof. unfold require. destruct u, b; split; done. Qed.

Lemma as_dict_ok v msg d : as_dict v msg = Ok d ↔ v = PDict d.
Proof. destruct v; simpl; split; naive_solver. Qed.

Lemma bool_ok v msg b : _bool v msg = Ok b ↔ v = PBool b.
Proof. destruct v; simpl; split; naive_solver. Qed.

Lemma integer_ok v name low high z :
  _integer v name low high = Ok z ↔ v = PInt z ∧ low ≤ z ≤ high.
Proof.
  unfold _integer. destruct v as [| |y| | | | |]; try (split; [done|by intros [? _]]).
  destruct (_ && _) eqn:E.
  - rewrite andb_true_iff, !Z.leb_le in E. split; [by intros [= ->]|by intros [[= ->] _]].
  - split; [done|]. intros [[= ->] H]. rewrite andb_false_iff, !Z.leb_gt in E. lia.
Qed.

Definition text_ok (limit : nat) (s : string) : Prop :=
  py_strip s ≠ ""%string ∧ (String.length s ≤ limit)%nat.

Lemma text_ok_iff v name limit s : _text v name limit = Ok s ↔ v = PStr s ∧ text_ok limit s.
Proof.
  unfold _text, text_ok. destruct v as [| | | |t| | |]; try (split; [done|by intros [? _]]).
  destruct (_ && _) eqn:E.
  - rewrite andb_true_iff, negb_true_iff, bool_decide_eq_false, Nat.leb_le in E.
    split; [by intros [= ->]|by intros [[= ->] _]].
  - split; [done|]. intros [[= ->] [H1 H2]].
    rewrite bool_decide_eq_false_2 in E by done. apply Nat.leb_le in H2. by rewrite H2 in E.
Qed.

(** Split a successful chain of checks into its parts. *)
Ltac res_inv :=
  repeat match goal with
  | H : (_ ≫= _) = Ok _ |- _ => apply res_bind_ok in H as (? & ? & H)
  | H : require _ _ = Ok _ |- _ => apply require_ok in H
  | H : as_dict _ _ = Ok _ |- _ => apply as_dict_ok in H
  | H : _bool _ _ = Ok _ |- _ => apply bool_ok in H
  | H : Ok _ = Ok _ |- _ => injection H as H
  | H : Raise _ = Ok _ |- _ => discriminate H
  | u : unit |- _ => destruct u
  end.

(** ** Amounts *)

Lemma sign_compare m e k :
  0 ≤ k → Z.compare (m * 2 ^ k) 0 = Z.compare m 0 ∧ Z.compare 0 (e * 2 ^ k) = Z.compare 0 e.
Proof.
  intros Hk. assert (0 < 2 ^ k) as Hp by (apply Z.pow_pos_nonneg; lia).
  split; [destruct (Z.compare_spec m 0)|destruct (Z.compare_spec 0 e)];
    first [apply Z.compare_eq_iff|apply Z.compare_lt_iff|apply Z.compare_gt_iff]; nia.
Qed.

(** Comparison with zero is comparison of the mantissa. *)
Lemma xcompare_zero m e :
  xcompare (XFin m e) (XFin 0 0) = Some (Z.compare m 0) ∧
  xcompare (XFin 0 0) (XFin m e) = Some (Z.compare 0 m).
Proof.
  unfold xcompare. rewrite !Z.mul_0_l.
  destruct (sign_compare m m (e - Z.min e 0)) as [-> _]; [lia|].
  by destruct (sign_compare m m (e - Z.min 0 e)) as [_ ->]; [lia|].
Qed.

Lemma money_float f name :
  _money (PFloat f) name false = Ok f ↔ f_is_finite f = true ∧ flt fzero f = true.
Proof.
  unfold _money, flt, math_isfinite. simpl. destruct (f_is_finite f) eqn:Hf; [|by split; [|intros [? _]]].
  simpl. destruct f as [s| | |s m e]; try done; simpl xnum_of_float.
  - unfold xlt, xeq. simpl. by split; [|intros [_ ?]].
  - unfold xlt, xeq. destruct (xcompare_zero (if s then Z.neg m else Z.pos m) e) as [-> ->].
    destruct s; simpl; [by split; [|intros [_ ?]]|done].
Qed.

Lemma money_ok v name f :
  _money v name false = Ok f → f_is_finite f = true ∧ flt fzero f = true.
Proof.
  destruct v as [| |z|g| | | |]; try done.
  - unfold _money, math_isfinite. simpl. unfold float_of_int.
    destruct (f_is_finite (f_of_Z z)) eqn:Hf; simpl; [|done]. rewrite Hf. simpl.
    unfold xlt, xeq. destruct (xcompare_zero z 0) as [-> _].
    destruct (Z.compare_spec z 0) as [|?|Hz]; simpl; [done|done|]. intros [= <-].
    split; [done|]. destruct (f_of_Z_positive z Hz Hf) as (m & e & ->).
    unfold flt, xlt. simpl xnum_of_float. by destruct (xcompare_zero (Z.pos m) e) as [_ ->].
  - intros H. assert (g = f) as ->.
    { revert H. unfold _money, math_isfinite. simpl. destruct (f_is_finite g); simpl; [|done].
      destruct (_ || _); [done|]. by intros [= ->]. }
    by apply (money_float f name).
Qed.

(** ** Lists of texts and of integers *)

Lemma res_map_text l name limit ss :
  res_map (λ v, _text v name limit) l = Ok ss ↔ l = PStr <$> ss ∧ Forall (text_ok limit) ss.
Proof.
  revert ss. induction l as [|v l IH]; intros ss; simpl.
  - split; [intros [= <-]; by repeat constructor|]. by intros [?%symmetry%fmap_nil_inv _]; subst.
  - rewrite res_bind_ok. setoid_rewrite res_bind_ok. setoid_rewrite text_ok_iff. setoid_rewrite IH.
    split.
    + intros (s & [-> Hs] & ss' & [-> Hss] & [= <-]). by split; [|constructor].
    + intros [Hl Hss]. destruct ss as [|s ss]; [done|]. injection Hl as -> ->.
      apply Forall_cons in Hss as [Hs Hss]. exists s. split; [done|]. by exists ss.
Qed.

Lemma elem_of_sorted_strs l s : s ∈ sorted_strs l ↔ s ∈ l.
Proof. unfold sorted_strs. by rewrite elem_of_py_sorted, elem_of_remove_dups. Qed.
Lemma elem_of_sorted_ints l s : s ∈ sorted_ints l ↔ s ∈ l.
Proof. unfold sorted_ints. by rewrite elem_of_py_sorted, elem_of_remove_dups. Qed.

Lemma length_remove_dups `{EqDecision A} (l : list A) : (length (remove_dups l) ≤ length l)%nat.
Proof. induction l as [|x l IH]; simpl; [lia|]. case_match; simpl; lia. Qed.
Lemma length_sorted_strs l : (length (sorted_strs l) ≤ length l)%nat.
Proof. unfold sorted_strs. rewrite length_py_sorted. apply length_remove_dups. Qed.
Lemma length_sorted_ints l : (length (sorted_ints l) ≤ length l)%nat.
Proof. unfold sorted_ints. rewrite length_py_sorted. apply length_remove_dups. Qed.

Lemma sorted_strs_idem l : sorted_strs (sorted_strs l) = sorted_strs l.
Proof. apply sorted_set_idem, String.leb_total. Qed.
Lemma zleb_total x y : (x <=? y) = true ∨ (y <=? x) = true.
Proof. rewrite !Z.leb_le. lia. Qed.
Lemma sorted_ints_idem l : sorted_ints (sorted_ints l) = sorted_ints l.
Proof. apply sorted_set_idem, zleb_total. Qed.

Lemma Forall_sorted_strs P l : Forall P l → Forall P (sorted_strs l).
Proof. rewrite !Forall_forall. intros H s. rewrite elem_of_sorted_strs. apply H. Qed.
Lemma Forall_sorted_ints P l : Forall P l → Forall P (sorted_ints l).
Proof. rewrite !Forall_forall. intros H s. rewrite elem_of_sorted_ints. apply H. Qed.

Lemma label_list_ok v msg l :
  label_list v msg = Ok l →
  (length l ≤ 32)%nat ∧ Forall (text_ok 128) l ∧ ∀ msg', label_list (strs l) msg' = Ok l.
Proof.
  unfold label_list. destruct v as [| | | | |vs| |]; try done. intros H. res_inv. subst.
  match goal with H : res_map _ _ = _ |- _ => apply res_map_text in H as [-> Hss] end.
  match goal with H : (_ <=? _)%nat = true |- _ => apply Nat.leb_le in H end.
  rewrite length_fmap in *. pose proof (length_sorted_strs x0) as Hlen.
  apply Forall_sorted_strs in Hss. split; [lia|]. split; [done|]. intros msg'. simpl.
  rewrite length_fmap. assert ((length (sorted_strs x0) <=? 32)%nat = true) as -> by (apply Nat.leb_le; lia).
  simpl. rewrite (proj2 (res_map_text _ _ _ _) (conj eq_refl Hss)). simpl. by rewrite sorted_strs_idem.
Qed.

(** ** Case folding *)

Lemma ascii_lower_idem c : ascii_lower (ascii_lower c) = ascii_lower c.
Proof. by destruct c as [[] [] [] [] [] [] [] []]. Qed.
Lemma py_lower_idem s : py_lower (py_lower s) = py_lower s.
Proof. induction s as [|c s IH]; simpl; [done|]. by rewrite ascii_lower_idem, IH. Qed.

Lemma length_py_lower s : String.length (py_lower s) = String.length s.
Proof. induction s; simpl; auto. Qed.

(** A class of characters closed under folding. *)
Definition folds (p : ascii → bool) : Prop := ∀ c, p c = true → p (ascii_lower c) = true.

Ltac by_chars := intros c; by destruct c as [[] [] [] [] [] [] [] []].
Lemma folds_alnum : folds is_alnum. Proof. by_chars. Qed.
Lemma folds_login : folds (λ c, is_alnum c || is_char 45 c). Proof. by_chars. Qed.
Lemma folds_repo : folds repo_char. Proof. by_chars. Qed.

Lemma all_chars_lower p s : folds p → all_chars p s = true → all_chars p (py_lower s) = true.
Proof.
  intros Hp. induction s as [|c s IH]; simpl; [done|].
  rewrite !andb_true_iff. intros [Hc Hs]. auto.
Qed.
Lemma first_char_lower p s : folds p → first_char p s = true → first_char p (py_lower s) = true.
Proof. intros Hp. destruct s; simpl; auto. Qed.

Lemma login_ok_lower s : login_ok s = true → login_ok (py_lower s) = true.
Proof.
  unfold login_ok. rewrite !andb_true_iff. intros [H1 H2].
  split; [apply first_char_lower|apply all_chars_lower];
    [apply folds_alnum|done|apply folds_login|done].
Qed.

Lemma rev_string_lower acc s :
  py_lower (rev_string acc s) = rev_string (py_lower acc) (py_lower s).
Proof. revert acc. induction s as [|c s IH]; intros acc; simpl; [done|]. by rewrite IH. Qed.

Lemma prefix_lower p s : String.prefix p s = true → String.prefix (py_lower p) (py_lower s) = true.
Proof.
  revert s. induction p as [|c p IH]; intros [|d s]; simpl; try done.
  destruct (Ascii.ascii_dec c d) as [->|]; [|done]. intros ?%IH.
  by destruct (Ascii.ascii_dec _ _).
Qed.

Lemma take_str_lower n s : take_str n (py_lower s) = py_lower (take_str n s).
Proof.
  unfold take_str. revert n. induction s as [|c s IH]; intros [|n]; simpl; try done.
  by rewrite IH.
Qed.

Lemma author_ok_lower s : author_ok s = true → author_ok (py_lower s) = true.
Proof.
  unfold author_ok. rewrite !orb_true_iff, !andb_true_iff.
  intros [H|[He Hl]]; [left; by apply login_ok_lower|right].
  rewrite take_str_lower, length_py_lower. split; [|by apply login_ok_lower].
  unfold endswith in *. apply prefix_lower in He. by rewrite !rev_string_lower in He.
Qed.

Lemma split_on_lower sep s :
  (∀ c, ascii_lower c = sep ↔ c = sep) →
  split_on sep (py_lower s) = py_lower <$> split_on sep s.
Proof.
  intros Hsep. induction s as [|c s IH]; simpl; [done|]. rewrite IH.
  case_bool_decide as E; case_bool_decide as E'; rewrite ?Hsep in *; try done.
  by destruct (split_on sep s).
Qed.

Lemma slash_folds c : ascii_lower c = ascii_of_nat 47 ↔ c = ascii_of_nat 47.
Proof. by destruct c as [[] [] [] [] [] [] [] []]. Qed.

Lemma dots_lower s : str_in (py_lower s) ["."; ".."] = str_in s ["."; ".."].
Proof.
  apply bool_decide_ext. rewrite !elem_of_cons, !elem_of_nil.
  assert (∀ c, ascii_lower c = "."%char ↔ c = "."%char) as Hdot
    by by_chars.
  destruct s as [|a [|b [|c s]]]; simpl; try (split; intros [|[|[]]]; done).
  - split; (intros [[= H]|[|[]]]; [left|done]); f_equal; by apply Hdot.
  - split; (intros [|[[= H1 H2]|[]]]; [done|right; left]); f_equal;
      [by apply Hdot|f_equal; by apply Hdot|by apply Hdot|f_equal; by apply Hdot].
Qed.

(** A normalized repository name is its own normal form. *)
Lemma normalize_repo_stable v s : normalize_repo v = Ok s → normalize_repo (PStr s) = Ok s.
Proof.
  destruct v as [| | | |t| | |]; try done. simpl.
  destruct (split_on (ascii_of_nat 47) t) as [|owner [|name [|]]] eqn:Hs; try done.
  destruct (_ && _) eqn:H1; [|done]. destruct (_ && _) eqn:H2 at 1; [|done].
  intros [= <-]. rewrite split_on_lower, Hs by apply slash_folds. simpl.
  rewrite !andb_true_iff, !negb_true_iff in H1, H2. rewrite !bool_decide_eq_false in H1.
  destruct H1 as [[[Ho Hn]%andb_true_iff Ho0] Hn0], H2 as [[Hlen Hod] Hnd].
  rewrite !(all_chars_lower repo_char) by (done || apply folds_repo).
  rewrite !bool_decide_eq_false_2 by (intros E; by destruct owner, name).
  rewrite length_py_lower, Hlen, !dots_lower, Hod, Hnd. simpl. by rewrite py_lower_idem.
Qed.

(** * Factory controls: the policy blocks are stable

    Each block of a policy, once validated, validates again to itself, and a
    block that reads the policy around it reads only the keys named here. *)

#[local] Arguments _integer : simpl never.
#[local] Arguments _text : simpl never.
#[local] Arguments _money : simpl never.

(** ** Dictionaries *)

Lemma assoc_get_app {A} k (d e : list (string * A)) :
  assoc_get k (d ++ e) = match assoc_get k d with Some v => Some v | None => assoc_get k e end.
Proof.
  induction d as [|[k' v] d IH]; simpl; [done|]. by case_bool_decide.
Qed.

Lemma assoc_get_None {A} k (d : list (string * A)) : assoc_get k d = None ↔ k ∉ d.*1.
Proof.
  induction d as [|[k' v] d IH]; simpl.
  - split; [intros _; apply not_elem_of_nil|done].
  - rewrite not_elem_of_cons, <-IH. case_bool_decide; naive_solver.
Qed.

Lemma has_key_elem {A} k (d : list (string * A)) : has_key k d = true ↔ k ∈ d.*1.
Proof.
  unfold has_key. pose proof (assoc_get_None k d) as H. destruct (assoc_get k d); [|naive_solver].
  split; [|done]. intros _. destruct (decide (k ∈ d.*1)); naive_solver.
Qed.

Lemma assoc_get_update k d e :
  NoDup e.*1 →
  assoc_get k (dict_update d e) =
    match assoc_get k e with Some v => Some v | None => assoc_get k d end.
Proof.
  unfold dict_update. revert d. induction e as [|[k' v] e IH]; intros d; simpl; [done|].
  rewrite NoDup_cons. intros [Hk' Hnd]. rewrite IH, assoc_get_dict_set by done.
  case_bool_decide as E; [subst k'|]; destruct (assoc_get k e) eqn:He;
    rewrite ?decide_True, ?decide_False by done; try done.
  by rewrite (proj2 (assoc_get_None k e)) in He.
Qed.

Lemma dict_set_same {A} k (v : A) d : assoc_get k d = Some v → dict_set k v d = d.
Proof.
  induction d as [|[k' v'] d IH]; simpl; [done|].
  case_bool_decide as E; [by intros [= ->]|]. intros H. by rewrite IH.
Qed.

(** Writing what is already there changes nothing. *)
Lemma dict_update_same d e :
  Forall (λ q, assoc_get q.1 d = Some q.2) e → dict_update d e = d.
Proof.
  unfold dict_update. induction 1 as [|[k v] e Hq He IH]; [done|]. simpl in *.
  by rewrite dict_set_same.
Qed.

Lemma dict_update_app d e1 e2 : dict_update d (e1 ++ e2) = dict_update (dict_update d e1) e2.
Proof. unfold dict_update. apply foldl_app. Qed.

Lemma NoDup_entries d e :
  NoDup e.*1 → Forall (λ q, assoc_get q.1 (dict_update d e) = Some q.2) e.
Proof.
  intros Hnd. rewrite Forall_forall. intros [k v] Hq. rewrite assoc_get_update by done.
  revert Hnd Hq. induction e as [|[k' v'] e IH]; [by intros _ ?%elem_of_nil|].
  simpl. rewrite NoDup_cons, elem_of_cons. intros [Hk' Hnd] [[= <- <-]|Hq].
  - by rewrite bool_decide_eq_true_2.
  - case_bool_decide as E; [|by apply IH]. subst. destruct Hk'. by apply (list_elem_of_fmap_2 fst) in Hq.
Qed.

Lemma dict_update_keys d e k :
  k ∈ (dict_update d e).*1 ↔ k ∈ d.*1 ∨ k ∈ e.*1.
Proof.
  unfold dict_update. revert d. induction e as [|[k' v] e IH]; intros d; simpl.
  - rewrite elem_of_nil. naive_solver.
  - rewrite IH, dict_set_keys, elem_of_cons. case_bool_decide; rewrite ?elem_of_app, ?list_elem_of_singleton;
      naive_solver.
Qed.

Lemma keys_within_spec d keys : keys_within d keys = true ↔ d.*1 ⊆ keys.
Proof.
  unfold keys_within. rewrite forallb_forall. split.
  - intros H k (q & -> & Hq)%list_elem_of_fmap. apply list_elem_of_In, H in Hq.
    by apply bool_decide_eq_true in Hq.
  - intros H q Hq%list_elem_of_In. apply bool_decide_eq_true, H. by apply list_elem_of_fmap_2.
Qed.

Lemma dict_update_keys_same d e : e.*1 ⊆ d.*1 → (dict_update d e).*1 = d.*1.
Proof.
  unfold dict_update. revert d. induction e as [|[k v] e IH]; intros d Hk; simpl; [done|].
  assert ((dict_set k v d).*1 = d.*1) as Hd.
  { rewrite dict_set_keys, bool_decide_eq_true_2; [done|]. apply Hk. left. }
  rewrite IH; rewrite Hd; [done|]. intros x Hx. apply Hk. by right.
Qed.

(** Two dicts with the same keys in the same order and the same values. *)
Lemma dict_ext {A} (d e : list (string * A)) :
  NoDup d.*1 → d.*1 = e.*1 → (∀ k, assoc_get k d = assoc_get k e) → d = e.
Proof.
  revert e. induction d as [|[k v] d IH]; intros [|[k' v'] e]; try done.
  rewrite !fmap_cons, NoDup_cons. intros [Hk Hnd] [= Hkk He] Hget. simpl in Hk. subst k'.
  pose proof (Hget k) as Hv. simpl in Hv. rewrite !bool_decide_eq_true_2 in Hv by done.
  f_equal; [congruence|]. apply IH; [done..|]. intros k'.
  destruct (decide (k = k')) as [<-|Hne].
  - rewrite !(proj2 (assoc_get_None _ _)); [done| |done]. change (k ∉ e.*1). by rewrite <-He.
  - specialize (Hget k'). simpl in Hget. by rewrite !bool_decide_eq_false_2 in Hget by done.
Qed.

(** Updating with entries taken from a dict [r]. *)
Lemma assoc_get_update_from k r d e :
  Forall (λ q, assoc_get q.1 r = Some q.2) e →
  assoc_get k (dict_update d e) = if decide (k ∈ e.*1) then assoc_get k r else assoc_get k d.
Proof.
  unfold dict_update. intros H. revert d. induction H as [|[k' v] e Hq He IH]; intros d; [done|].
  simpl in *. rewrite IH, assoc_get_dict_set.
  repeat case_decide; set_solver.
Qed.

Lemma dict_update_Forall (P : string * pyval → Prop) d e :
  Forall P d → Forall P e → Forall P (dict_update d e).
Proof.
  unfold dict_update. intros Hd He. revert d Hd.
  induction He as [|[k v] e Hq He IH]; intros d Hd; simpl; [done|]. apply IH.
  clear IH. induction Hd as [|[k' v'] d Hk Hd IH]; simpl; [by constructor|].
  case_bool_decide; [subst|]; by constructor.
Qed.

(** Overriding some keys of [base] twice is overriding them once. *)
Lemma dict_update_idem base d e :
  NoDup base.*1 → d.*1 ⊆ base.*1 → e.*1 ⊆ base.*1 → d.*1 ⊆ e.*1 →
  Forall (λ q, assoc_get q.1 (dict_update base d) = Some q.2) e →
  dict_update base e = dict_update base d.
Proof.
  intros Hnd Hd Heb Hde He. apply dict_ext; rewrite ?dict_update_keys_same by done; [done..|].
  intros k. rewrite (assoc_get_update_from k _ base e He). case_decide as Hk; [done|].
  revert Hk Hde. clear. intros Hk Hde. assert (k ∉ d.*1) as Hkd by set_solver. clear Hk Hde.
  unfold dict_update. revert base. induction d as [|[k' v] d IH]; intros base; simpl; [done|].
  simpl in Hkd. rewrite not_elem_of_cons in Hkd. destruct Hkd. rewrite <-IH by done.
  by rewrite assoc_get_set_ne.
Qed.

Lemma NoDup_assoc_get {A} (d : list (string * A)) :
  NoDup d.*1 → Forall (λ q, assoc_get q.1 d = Some q.2) d.
Proof.
  induction d as [|[k v] d IH]; simpl; [constructor|]. rewrite NoDup_cons. intros [Hk Hnd].
  constructor; simpl; [by rewrite bool_decide_eq_true_2|].
  specialize (IH Hnd). rewrite Forall_forall in *. intros q Hq.
  rewrite bool_decide_eq_false_2; [by apply IH|]. intros ->. apply Hk. by apply list_elem_of_fmap_2.
Qed.

Lemma res_map_Forall2 {A B} (f : A → res B) l bs :
  res_map f l = Ok bs ↔ Forall2 (λ x y, f x = Ok y) l bs.
Proof.
  revert bs. induction l as [|x l IH]; intros bs; simpl.
  - split; [by intros [= <-]|]. by intros ->%Forall2_nil_inv_l.
  - rewrite res_bind_ok. setoid_rewrite res_bind_ok. setoid_rewrite IH. split.
    + intros (y & Hy & ys & Hys & [= <-]). by constructor.
    + intros (y & ys & Hy & Hys & ->)%Forall2_cons_inv_l. eauto.
Qed.

(** ** Settings *)

Lemma integer_refl z name low high : low ≤ z ≤ high → _integer (PInt z) name low high = Ok z.
Proof. intros H. by apply integer_ok. Qed.

Lemma int_setting_ok d key dflt low high z :
  int_setting d key dflt low high = Ok z → low ≤ z ≤ high.
Proof. unfold int_setting. by intros [_ H]%integer_ok. Qed.

(** Collect the bounds of every accepted integer. *)
Ltac int_facts :=
  repeat match goal with
  | H : int_setting _ _ _ _ _ = Ok _ |- _ => apply int_setting_ok in H
  | H : _integer _ _ _ _ = Ok _ |- _ => apply integer_ok in H as [? H]
  end.

(** Step through the checks of a block on its own result. *)
Ltac restep :=
  repeat first
    [ progress cbn [res_bind mbind require as_dict _bool]
    | match goal with
      | |- context [_integer (PInt ?z) ?n ?l ?h] => rewrite (integer_refl z n l h) by done
      | H : ?b = true |- context [require ?b _] => rewrite H
      end ].

Lemma validate_max_tasks_ok v l :
  _validate_max_tasks v = Ok l →
  1 ≤ ln_delivery l ≤ 100 ∧ 0 ≤ ln_advisory l ≤ 100 ∧ _validate_max_tasks (lanes_dict l) = Ok l.
Proof.
  intros H.
  assert (1 ≤ ln_delivery l ≤ 100 ∧ 0 ≤ ln_advisory l ≤ 100) as [Hd Ha].
  { unfold _validate_max_tasks in H. destruct v; res_inv; int_facts; subst; simpl; try done;
      unfold DEFAULT_LANE_ADVISORY; lia. }
  split; [done|]. split; [done|]. unfold _validate_max_tasks, lanes_dict. destruct l as [dl ad]. simpl in *.
  unfold get_or. simpl. by rewrite !integer_refl.
Qed.

(** ** Blocks *)

Lemma integer_stable v name low high z name' :
  _integer v name low high = Ok z → _integer (PInt z) name' low high = Ok z.
Proof. rewrite !integer_ok. naive_solver. Qed.
Lemma money_stable v name f name' :
  _money v name false = Ok f → _money (PFloat f) name' false = Ok f.
Proof. rewrite money_float. apply money_ok. Qed.

Lemma mapM_author_lower l names :
  mapM author_of l = Some names →
  mapM author_of (PStr <$> sorted_strs (py_lower <$> names)) = Some (sorted_strs (py_lower <$> names)).
Proof.
  intros H. assert (Forall (λ s, author_ok s = true) (sorted_strs (py_lower <$> names))) as Hok.
  { apply Forall_sorted_strs, Forall_fmap. apply mapM_Some in H.
    clear -H. induction H as [|v s l names Hv Hl IH]; constructor; [|done].
    apply author_ok_lower. destruct v; try done. simpl in Hv. by case_match; simplify_eq. }
  apply mapM_Some_2, Forall2_fmap_l, Forall_Forall2_diag.
  apply (Forall_impl _ _ _ Hok). intros s Hs. simpl. by rewrite Hs.
Qed.

Lemma sorted_strs_lower l : py_lower <$> sorted_strs (py_lower <$> l) = sorted_strs (py_lower <$> l).
Proof.
  assert (Forall (λ s, py_lower s = s) (sorted_strs (py_lower <$> l))) as H.
  { apply Forall_sorted_strs, Forall_fmap, Forall_true. intros s. apply py_lower_idem. }
  induction H as [|s ss Hs Hss IH]; [done|]. by rewrite fmap_cons, Hs, IH.
Qed.

Lemma dependency_pr_authors_stable v l :
  dependency_pr_authors v = Ok l → dependency_pr_authors (strs l) = Ok l.
Proof.
  unfold dependency_pr_authors, strs. destruct v as [| | | | |vs| |]; try done.
  destruct (mapM author_of vs) as [names|] eqn:Hm; [|done]. intros H. res_inv. subst.
  rewrite (mapM_author_lower vs) by done. rewrite length_fmap.
  apply length_mapM in Hm. pose proof (length_sorted_strs (py_lower <$> names)) as Hl.
  rewrite length_fmap in Hl. match goal with H : (_ <=? 32)%nat = true |- _ => apply Nat.leb_le in H end.
  rewrite (proj2 (Nat.leb_le _ 32)) by lia. simpl. by rewrite sorted_strs_lower, sorted_strs_idem.
Qed.

Lemma mapM_ints (f : pyval → option Z) ns :
  Forall (λ z, f (PInt z) = Some z) ns → mapM f (PInt <$> ns) = Some ns.
Proof. intros H. by apply mapM_Some_2, Forall2_fmap_l, Forall_Forall2_diag. Qed.

Lemma mapM_ints_inv (f : pyval → option Z) l ns :
  (∀ v z, f v = Some z → v = PInt z) → mapM f l = Some ns → Forall (λ z, f (PInt z) = Some z) ns.
Proof.
  intros Hf H. apply mapM_Some in H. induction H as [|v z l ns Hv Hl IH]; constructor; [|done].
  pose proof (Hf v z Hv). by subst.
Qed.

Lemma author_id_int v z : author_id v = Some z → v = PInt z.
Proof. destruct v; try done. simpl. case_match; [|done]. by intros [= ->]. Qed.
Lemma batch_number_int v z : batch_number v = Some z → v = PInt z.
Proof. destruct v; try done. simpl. case_match; [|done]. by intros [= ->]. Qed.

Lemma dependency_pr_author_ids_stable v l :
  dependency_pr_author_ids v = Ok l → dependency_pr_author_ids (ints l) = Ok l.
Proof.
  unfold dependency_pr_author_ids, ints. destruct v as [| | | | |vs| |]; try done.
  destruct (mapM author_id vs) as [ns|] eqn:Hm; [|done]. intros H. res_inv. subst.
  rewrite mapM_ints by (apply Forall_sorted_ints, (mapM_ints_inv _ vs); [apply author_id_int|done]).
  apply length_mapM in Hm. pose proof (length_sorted_ints ns) as Hl.
  match goal with H : (_ <=? 32)%nat = true |- _ => apply Nat.leb_le in H end.
  rewrite length_fmap, (proj2 (Nat.leb_le _ 32)) by lia. simpl. by rewrite sorted_ints_idem.
Qed.

Lemma refinement_batch_stable v b l :
  validate_refinement_batch v b = Ok l → validate_refinement_batch (ints l) true = Ok l.
Proof.
  unfold validate_refinement_batch, ints. destruct v as [| | | | |vs| |]; try done.
  destruct (_ || _) eqn:E; [done|]. destruct (mapM batch_number vs) as [ns|] eqn:Hm; [|done].
  case_bool_decide as Hnd; [|done]. intros [= <-]. apply orb_false_iff in E as [E _].
  apply length_mapM in Hm as Hl.
  rewrite length_fmap, length_py_sorted, <-Hl, E, andb_false_r. simpl.
  rewrite mapM_ints by (apply Forall_forall; intros z; rewrite elem_of_py_sorted;
    revert z; apply Forall_forall, (mapM_ints_inv _ vs); [apply batch_number_int|done]).
  rewrite bool_decide_eq_true_2 by (by rewrite py_sorted_perm).
  by rewrite py_sorted_idem by apply zleb_total.
Qed.

Lemma owner_pr_author_stable v w : owner_pr_author v = Ok w → owner_pr_author w = Ok w.
Proof.
  destruct v as [| | | | | |d|]; try done; [by intros [= <-]|]. unfold owner_pr_author.
  destruct (dict_get "login" d) as [| | | |login| | |]; try done.
  destruct (dict_get "id" d) as [| |id| | | | |]; try done. intros H. res_inv. subst.
  rewrite !andb_true_iff in *. destruct_and!. unfold dict_get. simpl.
  rewrite login_ok_lower by done. unfold require. simpl.
  match goal with H : (0 <? _) = true |- _ => rewrite H end. simpl. by rewrite py_lower_idem.
Qed.

Lemma label_list_stable v msg l msg' : label_list v msg = Ok l → label_list (strs l) msg' = Ok l.
Proof. intros (_ & _ & H)%label_list_ok. apply H. Qed.

Lemma bind_step {A B} (m : res A) (f : A → res B) a b : m = Ok a → f a = Ok b → (m ≫= f) = Ok b.
Proof. by intros ->. Qed.
Lemma int_setting_again d key dflt low high z d' key' dflt' :
  get_or key (PInt dflt) d = PInt z → int_setting d' key' dflt' low high = Ok z →
  int_setting d key dflt low high = Ok z.
Proof. unfold int_setting. intros ->. apply integer_stable. Qed.

Create HintDb stable.
#[export] Hint Extern 1 (owner_pr_author _ = Ok _) => eapply owner_pr_author_stable; eassumption : stable.
#[export] Hint Extern 1 (dependency_pr_authors _ = Ok _) =>
  eapply dependency_pr_authors_stable; eassumption : stable.
#[export] Hint Extern 1 (dependency_pr_author_ids _ = Ok _) =>
  eapply dependency_pr_author_ids_stable; eassumption : stable.
#[export] Hint Extern 1 (validate_refinement_batch _ _ = Ok _) =>
  eapply refinement_batch_stable; eassumption : stable.
#[export] Hint Extern 1 (label_list _ _ = Ok _) => eapply label_list_stable; eassumption : stable.
#[export] Hint Extern 1 (require ?b _ = Ok _) => apply (require_ok _ _ tt); first [assumption|reflexivity] : stable.
#[export] Hint Extern 1 (int_setting _ _ _ _ _ = Ok _) =>
  eapply int_setting_again; [reflexivity|eassumption] : stable.
#[export] Hint Extern 1 (_integer _ _ _ _ = Ok _) => eapply integer_stable; eassumption : stable.
#[export] Hint Extern 2 (_bool _ _ = Ok _) => apply bool_ok; eassumption : stable.
#[export] Hint Extern 5 (_ = Ok _) => reflexivity : stable.

(** Replay, on a block's own result, the checks that produced it. *)
Ltac replay :=
  repeat (eapply bind_step; [solve [eauto with stable]|cbv beta]); try reflexivity.

Lemma intake_stable v d : _validate_intake v = Ok d → _validate_intake (PDict d) = Ok d.
Proof. unfold _validate_intake. intros H. res_inv. subst. replay. Qed.

Lemma quota_guard_stable v d : _validate_quota_guard v = Ok d → _validate_quota_guard (PDict d) = Ok d.
Proof. unfold _validate_quota_guard. intros H. res_inv. subst. replay. Qed.

Lemma progress_watchdog_stable v d :
  _validate_progress_watchdog v = Ok d → _validate_progress_watchdog (PDict d) = Ok d.
Proof.
  unfold _validate_progress_watchdog. intros H. res_inv. subst.
  destruct (get_or "threshold_turns" (PInt 8) x) as [| |t| | | | |] eqn:Et; try done.
  res_inv. subst. replay.
Qed.

(** *** Problem issues *)

Lemma issue_sources_stable v d : issue_sources v = Ok d → issue_sources (PDict d) = Ok d.
Proof.
  unfold issue_sources. intros H. res_inv. subst.
  match goal with H : res_map _ _ = Ok _ |- _ => apply res_map_Forall2 in H; rename H into Hb end.
  rename x into d. assert (d.*1 ⊆ default_sources.*1) as Hd by by apply keys_within_spec.
  assert ((dict_update default_sources d).*1 = default_sources.*1) as Hk
    by by apply dict_update_keys_same.
  assert (NoDup default_sources.*1) as Hnd by by apply (bool_decide_unpack _).
  assert (Forall (λ q, ∃ b, q.2 = PBool b) (dict_update default_sources d)) as Hall.
  { apply dict_update_Forall; [vm_compute; repeat constructor; eauto|].
    apply Forall_forall. intros q [i Hi]%list_elem_of_lookup.
    destruct (Forall2_lookup_l _ _ _ _ _ Hb Hi) as (b & _ & Hq%bool_ok). eauto. }
  eapply bind_step; [done|]. cbv beta. eapply bind_step.
  { apply (require_ok _ _ tt), keys_within_spec. by rewrite Hk. }
  apply res_bind_ok.
  assert (∃ bs, Forall2 (λ q b, _bool q.2 ("invalid problem_issues source " +:+ q.1) = Ok b)
            (dict_update default_sources d) bs) as (bs & Hbs).
  { clear -Hall. induction Hall as [|q l [b Hq] Hl [bs IH]]; [by exists []|].
    exists (b :: bs). constructor; [by apply bool_ok|done]. }
  exists bs. split; [by apply res_map_Forall2|]. f_equal.
  apply dict_update_idem; rewrite ?Hk; try done.
  apply NoDup_assoc_get. by rewrite Hk.
Qed.

Lemma improvement_limits_stable v d : improvement_limits v = Ok d → improvement_limits (PDict d) = Ok d.
Proof. unfold improvement_limits. intros H. res_inv. subst. replay. Qed.

Lemma improvement_review_stable v d : improvement_review v = Ok d → improvement_review (PDict d) = Ok d.
Proof.
  unfold improvement_review. intros H. res_inv. subst.
  destruct (assoc_get "through_audit_id" x) as [audit|]; [|done].
  destruct (assoc_get "reason" x) as [reason|]; [|done]. res_inv.
  destruct reason as [| | | |r| | |]; try done. res_inv. subst.
  eapply bind_step; [done|]. cbv beta. change (assoc_get "through_audit_id" _) with (Some (PInt x1)).
  change (assoc_get "reason" _) with (Some (PStr r)). cbv beta iota.
  do 2 (eapply bind_step; [by eauto with stable|]; cbv beta). replay.
Qed.

Lemma improvement_scout_stable v e q d :
  improvement_scout v e q = Ok d → improvement_scout (PDict d) e q = Ok d.
Proof.
  unfold improvement_scout. intros H. res_inv. subst. replay.
Qed.

#[export] Hint Extern 1 (issue_sources _ = Ok _) => eapply issue_sources_stable; eassumption : stable.
#[export] Hint Extern 1 (improvement_limits _ = Ok _) =>
  eapply improvement_limits_stable; eassumption : stable.
#[export] Hint Extern 1 (improvement_review _ = Ok _) =>
  eapply improvement_review_stable; eassumption : stable.
#[export] Hint Extern 1 (improvement_scout _ _ _ = Ok _) =>
  eapply improvement_scout_stable; eassumption : stable.

Lemma problem_issues_stable v d :
  _validate_problem_issues v = Ok d → _validate_problem_issues (PDict d) = Ok d.
Proof. unfold _validate_problem_issues. intros H. res_inv. subst. replay. Qed.

(** *** Roles, pools and refill *)

Lemma dict_get_select k ks d :
  k ∈ ks → dict_get k ((λ role, (role, dict_get role d)) <$> ks) = dict_get k d.
Proof.
  unfold dict_get at 1. induction ks as [|k' ks IH]; [by intros ?%elem_of_nil|].
  rewrite fmap_cons. simpl. case_bool_decide as E; [by subst|]. intros Hk. apply IH. set_solver.
Qed.

Lemma dict_get_elem k d : k ∈ d.*1 → ∃ v, (k, v) ∈ d ∧ dict_get k d = v.
Proof.
  intros Hk. unfold dict_get. destruct (assoc_get k d) as [v|] eqn:E.
  - exists v. split; [by apply assoc_get_elem|done].
  - by apply assoc_get_None in E.
Qed.

Lemma role_effort_stable v d : _validate_role_effort v = Ok d → _validate_role_effort (PDict d) = Ok d.
Proof.
  unfold _validate_role_effort. intros H. res_inv. subst. rename x into d.
  match goal with H : res_map _ _ = Ok _ |- _ => apply res_map_Forall2 in H; rename H into Hb end.
  match goal with H : keys_within _ _ = true |- _ => apply keys_within_spec in H; rename H into Hd end.
  set (e := (λ role, (role, dict_get role d)) <$> py_sorted String.leb d.*1).
  assert (e.*1 = py_sorted String.leb d.*1) as He
    by (unfold e; rewrite <-list_fmap_compose; apply list_fmap_id).
  eapply bind_step; [done|]. cbv beta. eapply bind_step.
  { apply (require_ok _ _ tt), keys_within_spec. rewrite He. intros k.
    rewrite elem_of_py_sorted. apply Hd. }
  assert (res_map (λ p, require (pystr_in p.2 EFFORT_LEVELS) ("invalid role_effort for " +:+ p.1)) e
          = Ok ((λ _, ()) <$> e)) as ->.
  { apply res_map_ok_pure. intros [k w] (role & [= -> ->] & Hr)%list_elem_of_fmap. simpl.
    rewrite elem_of_py_sorted in Hr. destruct (dict_get_elem role d Hr) as (w & Hw & ->).
    apply list_elem_of_lookup in Hw as [i Hi].
    destruct (Forall2_lookup_l _ _ _ _ _ Hb Hi) as (u & _ & Hq). by destruct u. }
  simpl. rewrite He, py_sorted_idem by apply String.leb_total. f_equal.
  apply list_fmap_ext. intros i role Hi. f_equal. apply dict_get_select.
  by eapply list_elem_of_lookup_2.
Qed.

(** [d] and [e] read the same at every key of [keys]. *)
Definition agree_on (keys : list string) (d e : dict) : Prop :=
  ∀ k, k ∈ keys → assoc_get k d = assoc_get k e.

Lemma agree_get keys d e k : agree_on keys d e → k ∈ keys → dict_get k d = dict_get k e.
Proof. intros H Hk. unfold dict_get. by rewrite H. Qed.
Lemma agree_or keys d e k v : agree_on keys d e → k ∈ keys → get_or k v d = get_or k v e.
Proof. intros H Hk. unfold get_or. by rewrite H. Qed.
Lemma agree_index keys d e k : agree_on keys d e → k ∈ keys → policy_index k d = policy_index k e.
Proof. intros H Hk. unfold policy_index. by rewrite H. Qed.

Definition pool_reads : list string := ["conductor_model"; "worker_model"; "allowed_models"].

Lemma validate_pool_agree d e q : agree_on pool_reads d e → validate_pool d q = validate_pool e q.
Proof.
  intros H. unfold validate_pool. destruct q as [role [| | | | |l| |]]; try done.
  rewrite (agree_index _ d e "allowed_models" H) by set_solver.
  destruct (assoc_get role _POOL_ROLES) as [field|] eqn:Hf; [|done].
  rewrite (agree_index _ d e field H); [done|].
  unfold _POOL_ROLES in Hf. simpl in Hf. repeat case_bool_decide; simplify_eq; set_solver.
Qed.

Lemma validate_pool_stable d q r : validate_pool d q = Ok r → validate_pool d r = Ok r ∧ r.1 = q.1.
Proof.
  unfold validate_pool. destruct q as [role [| | | | |l| |]]; try done. intros H. res_inv. subst.
  match goal with H : res_map (λ m, _text m _ _) _ = Ok _ |- _ =>
    apply res_map_text in H as [-> Ht] end.
  split; [|done]. unfold strs.
  eapply bind_step; [eauto with stable|]; cbv beta. eapply bind_step.
  { by apply res_map_text. } cbv beta.
  do 4 (eapply bind_step; [first [eassumption|eauto with stable]|]; cbv beta). replay.
Qed.

Lemma model_pools_stable v d e r :
  agree_on pool_reads d e → _validate_model_pools v d = Ok r → _validate_model_pools (PDict r) e = Ok r.
Proof.
  unfold _validate_model_pools. intros Ha H. res_inv. subst. rename x into l.
  apply res_map_Forall2 in H.
  match goal with H : _ && _ = true |- _ => apply andb_true_iff in H as [Ht Hr] end.
  eapply bind_step; [done|]. cbv beta. eapply bind_step.
  { apply (require_ok _ _ tt), andb_true_iff. clear Ha. split.
    - destruct H; done.
    - induction H as [|q r' l rs Hq H IH]; simpl in *; [done|].
      apply andb_true_iff in Hr as [Hr1 Hr2]. apply validate_pool_stable in Hq as [_ Hq].
      rewrite Hq, Hr1. simpl. destruct l; [by apply Forall2_nil_inv_l in H as ->|by apply IH]. }
  apply res_map_Forall2. clear Ht Hr. induction H as [|q r' l rs Hq H IH]; constructor; [|done].
  rewrite <-(validate_pool_agree d e) by done. by apply validate_pool_stable in Hq as [Hq _].
Qed.

Definition refill_reads : list string := ["backlog_refill"; "allowed_models"].
Lemma refill_agree d e : agree_on refill_reads d e → refill_normalize d = refill_normalize e.
Proof.
  intros H. unfold refill_normalize.
  by rewrite !(agree_or _ d e "backlog_refill" _ H), !(agree_or _ d e "allowed_models" _ H) by set_solver.
Qed.

(** The keys the operator set, at their normalized values. *)
Definition refill_kept (d refill : dict) : dict := (λ p, (p.1, dict_get p.1 refill)) <$> d.

Lemma refill_kept_keys d refill : (refill_kept d refill).*1 = d.*1.
Proof. unfold refill_kept. rewrite <-list_fmap_compose. by apply list_fmap_ext. Qed.

Lemma refill_kept_idem d refill :
  refill_kept (refill_kept d refill) refill = refill_kept d refill.
Proof. unfold refill_kept. rewrite <-list_fmap_compose. by apply list_fmap_ext. Qed.

Lemma refill_defaults_NoDup : NoDup REFILL_DEFAULTS.*1.
Proof. by apply (bool_decide_unpack _). Qed.

Lemma refill_kept_update d :
  d.*1 ⊆ REFILL_DEFAULTS.*1 →
  dict_update REFILL_DEFAULTS (refill_kept d (dict_update REFILL_DEFAULTS d)) =
  dict_update REFILL_DEFAULTS d.
Proof.
  intros Hd. apply dict_update_idem; rewrite ?refill_kept_keys; try done; [apply refill_defaults_NoDup|].
  apply Forall_forall. intros q (x & -> & Hx)%list_elem_of_fmap. simpl. unfold dict_get.
  destruct (assoc_get x.1 _) eqn:E; [done|]. exfalso. apply assoc_get_None in E. apply E.
  rewrite dict_update_keys_same by done. apply Hd. by apply list_elem_of_fmap_2.
Qed.

Lemma has_key_keys {A B} k (d : list (string * A)) (e : list (string * B)) :
  d.*1 = e.*1 → has_key k d = has_key k e.
Proof. intros H. apply eq_bool_prop_intro. rewrite !Is_true_true, !has_key_elem. by rewrite H. Qed.

Lemma get_or_Some k dflt d v : assoc_get k d = Some v → get_or k dflt d = v.
Proof. unfold get_or. by intros ->. Qed.

Lemma refill_stable d e v refill :
  refill_normalize d = Ok refill → assoc_get "backlog_refill" d = Some v →
  ∃ l, v = PDict l ∧
    (assoc_get "backlog_refill" e = Some (PDict (refill_kept l refill)) →
     agree_on ["allowed_models"%string] d e → refill_normalize e = Ok refill).
Proof.
  unfold refill_normalize. intros H Hv. rewrite (get_or_Some "backlog_refill" _ d v) in H by done. res_inv. subst.
  rename x into l. exists l. split; [done|]. intros He Ha. rewrite (get_or_Some _ _ e _ He).
  match goal with H : keys_within _ _ = true |- _ => apply keys_within_spec in H; rename H into Hk end.
  eapply bind_step; [done|]. cbv beta zeta. eapply bind_step.
  { apply (require_ok _ _ tt), keys_within_spec. by rewrite refill_kept_keys. }
  rewrite refill_kept_update by done. rewrite <-(agree_or _ d e "allowed_models" _ Ha) by set_solver.
  rewrite (has_key_keys _ (refill_kept _ _) l) by apply refill_kept_keys.
  repeat (eapply bind_step; [first [eassumption|by eauto with stable]|]; cbv beta). done.
Qed.
