(* ===== verification/PolicyRoundtrip.v ===== *)
(** * Factory controls: a stored policy validates again

    The repository entries and the whole of [validate_policy]: what a stored
    policy holds, and what validating it a second time gives. *)

From Stdlib Require Import SpecFloat Ascii.
From stdpp Require Import prelude list strings pretty.
From S2P Require Import Prelude PyValue ModelCatalog ModelPool PolicyData Policy PolicyFacts.
Local Open Scope Z_scope.

#[local] Arguments _integer : simpl never.
#[local] Arguments _text : simpl never.
#[local] Arguments _money : simpl never.
#[local] Arguments normalize_repo : simpl never.

Lemma res_fmap_ok {A B} (f : A → B) (m : res A) w : f <$> m = Ok w → ∃ r, m = Ok r ∧ w = f r.
Proof. destruct m as [r|]; [|done]. intros [= <-]. eauto. Qed.

(** ** Kept keys *)

Lemma kept_other key k d f l : kept key d f = Ok l → k ≠ key → assoc_get k l = None.
Proof.
  unfold kept. destruct (assoc_get key d); intros H; res_inv; subst; [|done].
  intros Hk. simpl. rewrite bool_decide_eq_false_2; [done|]. by intros ->.
Qed.

Lemma kept_keys key d f l : kept key d f = Ok l → l.*1 `sublist_of` [key].
Proof.
  unfold kept. destruct (assoc_get key d); intros H; res_inv; subst; [done|]. by constructor.
Qed.

(** A kept key validates again when its check accepts its own result. *)
Lemma kept_again key d e f g l :
  kept key d f = Ok l →
  (∀ v w, assoc_get key d = Some v → f v = Ok w → g w = Ok w) →
  assoc_get key e = assoc_get key l → kept key e g = Ok l.
Proof.
  unfold kept. intros H Hfg He. rewrite He. destruct (assoc_get key d) as [v|] eqn:Hd.
  - res_inv. subst. simpl. rewrite bool_decide_eq_true_2 by done.
    match goal with H : f v = Ok _ |- _ => rewrite (Hfg v _ eq_refl H) end. done.
  - by injection H as <-.
Qed.

(** Chunks with one key each: each key reads its own chunk. *)
Definition chunks (ks : list string) (ls : list dict) : Prop :=
  Forall2 (λ key l, l.*1 `sublist_of` [key]) ks ls.

Lemma chunks_keys ks ls : chunks ks ls → (concat ls).*1 `sublist_of` ks.
Proof.
  induction 1 as [|key l ks ls Hl Hls IH]; simpl; [constructor|]. rewrite fmap_app.
  change (key :: ks) with ([key] ++ ks). by apply sublist_app.
Qed.

Lemma chunks_get_from pre ks ls :
  NoDup ks → chunks ks ls → (∀ k, k ∈ ks → assoc_get k pre = None) →
  Forall2 (λ key l, assoc_get key (pre ++ concat ls) = assoc_get key l) ks ls.
Proof.
  intros Hnd H. revert pre. induction H as [|key l ks ls Hl Hls IH]; intros pre Hpre; constructor;
    apply NoDup_cons in Hnd as [Hk Hnd]; simpl.
  - rewrite !assoc_get_app, Hpre by left. destruct (assoc_get key l); [done|]. apply assoc_get_None.
    intros Hin. apply Hk. eapply sublist_subseteq; [by apply chunks_keys|done].
  - rewrite app_assoc. apply IH; [done|]. intros k Hin.
    rewrite assoc_get_app, Hpre by by right. apply assoc_get_None. intros Hkl.
    apply (sublist_subseteq _ _ Hl), list_elem_of_singleton in Hkl. by subst.
Qed.

Lemma chunks_get ks ls :
  bool_decide (NoDup ks) = true → chunks ks ls →
  Forall2 (λ key l, assoc_get key (concat ls) = assoc_get key l) ks ls.
Proof. intros Hnd%bool_decide_eq_true H. by apply (chunks_get_from []). Qed.

(** The chunks of a concatenation, as a list. *)
Ltac chunk_list t :=
  match t with
  | ?a ++ ?b => let r := chunk_list b in constr:(a :: r)
  | ?a => constr:([a])
  end.

Ltac chunk_proof :=
  unfold chunks; repeat (apply Forall2_cons; split; [first [eapply kept_keys; eassumption|done]|]);
  by apply Forall2_nil.

(** The check of a kept key, on its own result. *)
Ltac kept_step :=
  let H := fresh in intros ? ? _ H; cbv beta in H; res_inv; subst; first [solve [replay]|idtac].

(** ** Repository entries *)

#[export] Hint Extern 1 (_money _ _ _ = Ok _) => eapply money_stable; eassumption : stable.
Lemma max_tasks_stable v l : _validate_max_tasks v = Ok l → _validate_max_tasks (lanes_dict l) = Ok l.
Proof. by intros (_ & _ & ?)%validate_max_tasks_ok. Qed.
#[export] Hint Extern 1 (_validate_max_tasks _ = Ok _) => eapply max_tasks_stable; eassumption : stable.

Definition entry_keys : list string :=
  [ "enabled"; "paused"; "auto_merge"; "labels"; "exclude_labels"; "max_per_day"; "max_tasks";
    "task_budget_usd"; "turn_budget_usd"; "landing"; "charter" ].

Lemma repo_entry_stable slug v d :
  _validate_repo_entry slug v = Ok d → _validate_repo_entry slug (PDict d) = Ok d.
Proof.
  unfold _validate_repo_entry. intros H. res_inv. subst.
  match goal with |- context [PDict ?t] =>
    let ls := chunk_list t in
    assert (t = concat ls) as -> by (simpl; by rewrite app_nil_r);
    assert (chunks entry_keys ls) as Hc by chunk_proof
  end.
  pose proof (chunks_get entry_keys _ eq_refl Hc) as Hg. unfold entry_keys in Hg.
  rewrite !Forall2_cons in Hg. destruct_and! Hg.
  eapply bind_step; [done|]. cbv beta. eapply bind_step.
  { apply (require_ok _ _ tt), keys_within_spec.
    etrans; [eapply sublist_subseteq, chunks_keys, Hc|]. by apply (bool_decide_unpack _). }
  cbv beta zeta.
  repeat (eapply bind_step; [eapply kept_again; [eassumption|kept_step|assumption]|]; cbv beta).
  - match goal with H : match ?v with _ => _ end = Ok _ |- _ => destruct v; try done end.
    res_inv. subst. replay.
  - simpl. by rewrite app_nil_r.
Qed.

(** What the effective entry reads of the policy. *)
Definition entry_reads : list string :=
  ["intake"; "max_tasks"; "task_budget_usd"; "turn_budget_usd"; "auto_merge"].

Lemma resolve_agree slug v prim d e :
  agree_on entry_reads d e → _resolve_repo_entry slug v prim d = _resolve_repo_entry slug v prim e.
Proof.
  intros H. unfold _resolve_repo_entry, intake_policy, lane_max_tasks.
  rewrite (agree_get _ d e "intake" H) by set_solver.
  rewrite !(agree_index _ d e _ H) by set_solver.
  by rewrite !(agree_or _ d e _ _ H) by set_solver.
Qed.

Lemma validate_entries_stable prim d e entries acc r :
  agree_on entry_reads d e → validate_entries prim d entries acc = Ok r →
  ∃ new, r = acc ++ new ∧ length new = length entries ∧ validate_entries prim e new acc = Ok r.
Proof.
  intros Ha. revert acc. induction entries as [|[raw raw_entry] entries IH]; intros acc; simpl.
  - intros [= <-]. exists []. by rewrite app_nil_r.
  - intros H. res_inv. destruct (IH _ H) as (new & -> & Hl & Hnew).
    exists ((x, PDict x1) :: new). rewrite <-app_assoc. split; [done|]. simpl. split; [by f_equal|].
    eapply bind_step; [eapply normalize_repo_stable; eassumption|]. cbv beta.
    eapply bind_step; [eauto with stable|]. cbv beta.
    eapply bind_step; [eapply repo_entry_stable; eassumption|]. cbv beta.
    eapply bind_step; [rewrite <-(resolve_agree _ _ _ d e) by done; eassumption|]. cbv beta.
    by rewrite <-app_assoc in Hnew.
Qed.

Lemma repos_stable v d e r :
  agree_on ("repo"%string :: entry_reads) d e → _validate_repos v d = Ok r →
  _validate_repos (PDict r) e = Ok r.
Proof.
  unfold _validate_repos. intros Ha H. res_inv. subst.
  destruct (validate_entries_stable _ d e _ [] _ (λ k Hk, Ha k (list_elem_of_further _ _ _ Hk)) H)
    as (new & -> & Hl & Hnew).
  eapply bind_step; [done|]. cbv beta. eapply bind_step.
  { apply (require_ok _ _ tt). unfold count_within in *. simpl. by rewrite Hl. }
  cbv beta. rewrite <-(agree_index _ d e "repo" Ha) by set_solver.
  eapply bind_step; [eassumption|]. done.
Qed.

(** ** The sizes *)

Definition size_keys : list string :=
  [ "generation"; "turn_timeout_seconds"; "max_attempts"; "task_timeout_seconds";
    "max_turns_per_task"; "max_task_turns_hard"; "max_parallel_nodes"; "max_planner_turns";
    "max_review_rounds"; "max_review_recovery_rounds" ].

(** The sizes of an accepted policy, one chunk per key. *)
Record Sizes := mkSizes
  { sz_generation : Z; sz_turn_timeout : Z; sz_attempts : Z; sz_task_timeout : Z;
    sz_soft : option Z; sz_hard : Z; sz_parallel : Z; sz_planner : Z; sz_rounds : Z;
    sz_recovery : Z }.
Definition sizes_chunks (z : Sizes) : list dict :=
  [ [("generation", PInt (sz_generation z))]; [("turn_timeout_seconds", PInt (sz_turn_timeout z))];
    [("max_attempts", PInt (sz_attempts z))]; [("task_timeout_seconds", PInt (sz_task_timeout z))];
    match sz_soft z with Some s => [("max_turns_per_task", PInt s)] | None => [] end;
    [("max_task_turns_hard", PInt (sz_hard z))]; [("max_parallel_nodes", PInt (sz_parallel z))];
    [("max_planner_turns", PInt (sz_planner z))]; [("max_review_rounds", PInt (sz_rounds z))];
    [("max_review_recovery_rounds", PInt (sz_recovery z))] ].
Definition sizes_ok (z : Sizes) : Prop :=
  0 ≤ sz_generation z ≤ MAX_INT32 ∧ 1 ≤ sz_turn_timeout z ≤ 43200 ∧ 1 ≤ sz_attempts z ≤ 10 ∧
  1 ≤ sz_task_timeout z ≤ 86400 ∧ from_option (λ s, 1 ≤ s ≤ 100) True (sz_soft z) ∧
  1 ≤ sz_hard z ≤ 500 ∧ 1 ≤ sz_parallel z ≤ 8 ∧ 1 ≤ sz_planner z ≤ 500 ∧
  0 ≤ sz_rounds z ≤ 10 ∧ 0 ≤ sz_recovery z ≤ 2.

Lemma sizes_chunks_ok z : chunks size_keys (sizes_chunks z).
Proof.
  unfold chunks, size_keys, sizes_chunks.
  repeat (apply Forall2_cons; split); try done.
  destruct (sz_soft z); [done|]. by constructor.
Qed.

Lemma policy_sizes_inv d sizes :
  policy_sizes d = Ok sizes → ∃ z, sizes = concat (sizes_chunks z) ∧ sizes_ok z ∧
    (sz_soft z = None → assoc_get "max_turns_per_task" d = None) ∧
    match assoc_get "max_planner_turns" d with
    | Some _ => sz_planner z ≤ 100
    | None => sz_planner z = sz_hard z
    end.
Proof.
  unfold policy_sizes. intros H. res_inv. int_facts. subst.
  assert (∃ soft, x3 = match soft with Some s => [("max_turns_per_task", PInt s)] | None => [] end ∧
            from_option (λ s, 1 ≤ s ≤ 100) True soft ∧
            (soft = None → assoc_get "max_turns_per_task" d = None)) as (soft & -> & Hs & Hn).
  { unfold kept in *. destruct (assoc_get "max_turns_per_task" d).
    - res_inv. int_facts. subst. by eexists (Some _).
    - res_inv. subst. by exists None. }
  assert (∃ h, x4 = PInt h ∧ 1 ≤ h ≤ 500) as (h & -> & Hh).
  { destruct (assoc_get "max_task_turns_hard" d); [res_inv; int_facts; subst; eauto|].
    destruct soft as [s|]; [|done]. res_inv. subst. simpl in Hs. exists s. split; [done|lia]. }
  assert (∃ t, x6 = PInt t ∧ 1 ≤ t ≤ 500 ∧
            match assoc_get "max_planner_turns" d with Some _ => t ≤ 100 | None => t = h end)
    as (t & -> & Ht & Hp).
  { destruct (assoc_get "max_planner_turns" d); res_inv; int_facts; subst; eexists; split_and!; try done; lia. }
  exists (mkSizes x16 x14 x12 x10 soft h x5 t x7 x8). by unfold sizes_ok.
Qed.

(** Reading the sizes back from a policy that stores them. *)
Lemma policy_sizes_again e z :
  sizes_ok z → Forall2 (λ k l, assoc_get k e = assoc_get k l) size_keys (sizes_chunks z) →
  policy_sizes e = if sz_planner z <=? 100 then Ok (concat (sizes_chunks z))
                   else Raise (ValueError "invalid max_planner_turns").
Proof.
  intros (?&?&?&?&Hs&?&?&?&?&?) Hg. unfold size_keys, sizes_chunks in Hg.
  rewrite !Forall2_cons in Hg. destruct Hg as (Hgen&Htt&Hat&Htk&Hsoft&Hhard&Hpar&Hpl&Hro&Hre&_).
  unfold policy_sizes, policy_index, int_setting, get_or, kept.
  rewrite Hgen, Htt, Hat, Htk, Hsoft, Hhard, Hpar, Hpl, Hro, Hre. simpl.
  assert (_integer (PInt (sz_planner z)) "max_planner_turns" 1 100 =
          if sz_planner z <=? 100 then Ok (sz_planner z)
          else Raise (ValueError "invalid max_planner_turns")) as Hplan.
  { unfold _integer. by rewrite (proj2 (Z.leb_le 1 _)) by lia. }
  destruct (sz_soft z) as [s|] eqn:Es; simpl in *;
    rewrite Hplan, !integer_refl by done; by destruct (_ <=? 100).
Qed.

(** ** The whole policy *)

Lemma refill_chunk d r l :
  policy_refill d r = Ok l → assoc_get "backlog_refill" r = assoc_get "backlog_refill" d →
  l.*1 `sublist_of` ["backlog_refill"%string] ∧ (l = [] → assoc_get "backlog_refill" d = None) ∧
  ∀ e, (∀ k, k = "backlog_refill"%string → assoc_get k e = assoc_get k l) →
       agree_on ["allowed_models"%string] r e → policy_refill e e = Ok l.
Proof.
  unfold policy_refill. intros H Hr. res_inv. rename x into refill.
  destruct (assoc_get "backlog_refill" d) as [v|] eqn:Hd.
  - destruct (refill_stable r [] v refill) as (b & -> & _); [done..|]. injection H as <-.
    split; [done|]. split; [done|]. intros e He Ha. specialize (He _ eq_refl). simpl in He.
    destruct (refill_stable r e (PDict b) refill) as (b' & [= <-] & Hst); [done..|].
    rewrite He, Hst by done.
    change (Ok [("backlog_refill"%string, PDict (refill_kept (refill_kept b refill) refill))] =
            Ok [("backlog_refill"%string, PDict (refill_kept b refill))]).
    by rewrite refill_kept_idem.
  - injection H as <-. split; [by constructor|]. split; [done|]. intros e He Ha.
    rewrite He by done. simpl. rewrite <-(refill_agree r e).
    + by match goal with H : refill_normalize r = _ |- _ => rewrite H end.
    + intros k [->|[->|[]%elem_of_nil]%elem_of_cons]%elem_of_cons; [by rewrite He|apply Ha; set_solver].
Qed.

(** What [validate_policy] stores, beside what the operator wrote. *)
Record Stored := mkStored
  { st_repo : string; st_issues : list Z; st_lanes : LaneCounts; st_sizes : Sizes;
    st_task : spec_float; st_turn : spec_float; st_allowed : list string;
    st_refill : dict; st_pools : dict; st_effort : dict; st_intake : dict; st_problems : dict;
    st_quota : dict; st_watchdog : dict; st_auto_merge : bool; st_binding : dict;
    st_repos : dict; st_base : string }.

Definition early_keys : list string :=
  ["repo"; "issue_numbers"; "max_tasks"] ++ size_keys ++
  ["task_budget_usd"; "turn_budget_usd"; "allowed_models"].
Definition block_keys : list string :=
  [ "model_pools"; "role_effort"; "intake"; "problem_issues"; "quota_guard";
    "progress_watchdog"; "auto_merge"; "task_budget_binding" ].
Definition stored_keys : list string :=
  early_keys ++ ["backlog_refill"] ++ block_keys ++ ["repos"; "base_branch"].

Definition early_chunks (s : Stored) : list dict :=
  [ [("repo", PStr (st_repo s))]; [("issue_numbers", ints (st_issues s))];
    [("max_tasks", lanes_dict (st_lanes s))] ] ++ sizes_chunks (st_sizes s) ++
  [ [("task_budget_usd", PFloat (st_task s))]; [("turn_budget_usd", PFloat (st_turn s))];
    [("allowed_models", strs (st_allowed s))] ].
Definition block_chunks (s : Stored) : list dict :=
  [ st_pools s; st_effort s; [("intake", PDict (st_intake s))];
    [("problem_issues", PDict (st_problems s))]; [("quota_guard", PDict (st_quota s))];
    [("progress_watchdog", PDict (st_watchdog s))]; [("auto_merge", PBool (st_auto_merge s))];
    st_binding s ].
Definition stored_chunks (s : Stored) : list dict :=
  early_chunks s ++ [st_refill s] ++ block_chunks s ++
  [st_repos s; [("base_branch", PStr (st_base s))]].

(** The policy with its reviewer, before anything is normalized. *)
Definition with_reviewer (policy : dict) : dict :=
  if has_key "reviewer_model" policy then policy
  else dict_set "reviewer_model" (dict_get "conductor_model" policy) policy.

Definition blocks_ok (d r : dict) (s : Stored) : Prop :=
  kept "model_pools" d (λ v, PDict <$> _validate_model_pools v r) = Ok (st_pools s) ∧
  kept "role_effort" d (λ v, PDict <$> _validate_role_effort v) = Ok (st_effort s) ∧
  _validate_intake (get_or "intake" (PDict []) d) = Ok (st_intake s) ∧
  _validate_problem_issues (get_or "problem_issues" (PDict []) d) = Ok (st_problems s) ∧
  _validate_quota_guard (get_or "quota_guard" (PDict []) d) = Ok (st_quota s) ∧
  _validate_progress_watchdog (get_or "progress_watchdog" (PDict []) d) = Ok (st_watchdog s) ∧
  kept "task_budget_binding" d (λ v, PBool <$> _bool v "invalid task_budget_binding") =
    Ok (st_binding s).

(** Every check [validate_policy] made on the way to [p]. *)
Record accepted (policy : dict) (s : Stored) (p : dict) : Prop := mkAccepted
  { acc_keys : forallb (λ k, has_key k policy) required_keys && keys_within policy _POLICY_KEYS = true;
    acc_result : p = dict_update (with_reviewer policy) (concat (stored_chunks s));
    acc_repo : normalize_repo (dict_get "repo" policy) = Ok (st_repo s);
    acc_issues : policy_issues policy = Ok (st_issues s);
    acc_lanes : _validate_max_tasks (dict_get "max_tasks" policy) = Ok (st_lanes s);
    acc_sizes : policy_sizes policy = Ok (concat (sizes_chunks (st_sizes s)));
    acc_sizes_ok : sizes_ok (st_sizes s);
    acc_soft : sz_soft (st_sizes s) = None → assoc_get "max_turns_per_task" policy = None;
    acc_planner : match assoc_get "max_planner_turns" policy with
                  | Some _ => sz_planner (st_sizes s) ≤ 100
                  | None => sz_planner (st_sizes s) = sz_hard (st_sizes s)
                  end;
    acc_budgets : policy_budgets policy = Ok (st_task s, st_turn s);
    acc_models : policy_models policy = Ok (st_allowed s);
    acc_refill :
      policy_refill policy (dict_update (with_reviewer policy) (concat (early_chunks s))) = Ok (st_refill s);
    acc_roles :
      policy_roles policy (dict_update (with_reviewer policy) (concat (early_chunks s) ++ st_refill s))
        (st_allowed s) = Ok tt;
    acc_blocks :
      blocks_ok policy (dict_update (with_reviewer policy) (concat (early_chunks s) ++ st_refill s)) s;
    acc_repos :
      kept "repos" policy (λ v, PDict <$> _validate_repos v
        (dict_update (with_reviewer policy)
           (concat (early_chunks s) ++ st_refill s ++ concat (block_chunks s)))) = Ok (st_repos s);
    acc_timeout : sz_turn_timeout (st_sizes s) ≤ sz_task_timeout (st_sizes s);
    acc_base : _text (dict_get "base_branch" policy) "base_branch" 256 = Ok (st_base s) }.

Lemma policy_index_get k d v : policy_index k d = Ok v → dict_get k d = v ∧ assoc_get k d = Some v.
Proof. unfold policy_index, dict_get. destruct (assoc_get k d); [|done]. by intros [= ->]. Qed.

Lemma policy_blocks_inv d r l :
  policy_blocks d r = Ok l → ∃ pools effort intake problems quota watchdog auto binding,
    ∀ repo issues lanes z task turn allowed refill repos base,
    let s := mkStored repo issues lanes z task turn allowed refill pools effort intake problems quota
               watchdog auto binding repos base in
    l = concat (block_chunks s) ∧ blocks_ok d r s.
Proof.
  unfold policy_blocks. intros H.
  apply res_bind_ok in H as (pools & Hp & H). apply res_bind_ok in H as (effort & He & H).
  apply res_bind_ok in H as (intake & Hi & H). apply res_bind_ok in H as (problems & Hpr & H).
  apply res_bind_ok in H as (quota & Hq & H). apply res_bind_ok in H as (watchdog & Hw & H).
  apply res_bind_ok in H as (auto & Ha & H). apply res_bind_ok in H as (binding & Hb & H).
  injection H as <-. exists pools, effort, intake, problems, quota, watchdog, auto, binding.
  intros. split; [|done]. simpl. by rewrite app_nil_r.
Qed.

Lemma stored_chunks_ok s :
  chunks ["backlog_refill"%string] [st_refill s] → chunks ["model_pools"; "role_effort"]%string [st_pools s; st_effort s] →
  chunks ["task_budget_binding"]%string [st_binding s] → chunks ["repos"]%string [st_repos s] →
  chunks stored_keys (stored_chunks s).
Proof.
  unfold chunks. rewrite !Forall2_cons. intros [Hr _] (Hp & He & _) [Hb _] [Hrepos _].
  unfold stored_keys, stored_chunks, early_keys, early_chunks, block_keys, block_chunks.
  repeat apply Forall2_app; try apply sizes_chunks_ok;
    repeat (apply Forall2_cons; split); done.
Qed.

Lemma py_gt_ints a b : py_gt (PInt a) (PInt b) = Ok (b <? a).
Proof.
  unfold py_gt, xlt, xcompare. simpl. rewrite !Z.mul_1_r. unfold Z.ltb. by destruct (b ?= a).
Qed.

Lemma accepted_chunks d r l1 l2 l3 l4 s :
  policy_refill d r = Ok (st_refill s) → assoc_get "backlog_refill" r = assoc_get "backlog_refill" d →
  kept "model_pools" d l1 = Ok (st_pools s) → kept "role_effort" d l2 = Ok (st_effort s) →
  kept "task_budget_binding" d l3 = Ok (st_binding s) → kept "repos" d l4 = Ok (st_repos s) →
  chunks stored_keys (stored_chunks s).
Proof.
  intros Hr Hrd Hp He Hb Hrepos. apply stored_chunks_ok; unfold chunks; rewrite !Forall2_cons.
  - split; [|done]. by apply (refill_chunk d r).
  - split; [by eapply kept_keys|]. split; [by eapply kept_keys|done].
  - split; [by eapply kept_keys|done].
  - split; [by eapply kept_keys|done].
Qed.

Lemma stored_NoDup : bool_decide (NoDup stored_keys) = true.
Proof. done. Qed.

Lemma with_reviewer_get k policy :
  k ≠ "reviewer_model"%string → assoc_get k (with_reviewer policy) = assoc_get k policy.
Proof. intros Hk. unfold with_reviewer. case_match; [done|]. by rewrite assoc_get_set_ne. Qed.

(** Reading a key of a stored policy. *)
Lemma stored_get s d :
  chunks stored_keys (stored_chunks s) →
  Forall2 (λ k l, assoc_get k (dict_update d (concat (stored_chunks s))) =
                  match assoc_get k l with Some v => Some v | None => assoc_get k d end)
    stored_keys (stored_chunks s).
Proof.
  intros Hc. pose proof (chunks_get stored_keys _ stored_NoDup Hc) as Hg.
  eapply Forall2_impl; [exact Hg|]. intros k l Hk. cbv beta in *.
  rewrite assoc_get_update; [by rewrite Hk|].
  eapply sublist_NoDup; [|by apply chunks_keys]. by apply (bool_decide_unpack _).
Qed.

Lemma ok_inj {A} (a b : A) : Ok a = Ok b → a = b.
Proof. by intros [= ->]. Qed.

Lemma early_concat s :
  concat (early_chunks s) =
    [("repo", PStr (st_repo s)); ("issue_numbers", ints (st_issues s));
     ("max_tasks", lanes_dict (st_lanes s))] ++ concat (sizes_chunks (st_sizes s)) ++
    [("task_budget_usd", PFloat (st_task s)); ("turn_budget_usd", PFloat (st_turn s));
     ("allowed_models", strs (st_allowed s))].
Proof. unfold early_chunks. by rewrite !concat_app. Qed.

Lemma stored_concat s :
  concat (stored_chunks s) =
    (concat (early_chunks s) ++ st_refill s ++ concat (block_chunks s) ++ st_repos s) ++
    [("base_branch", PStr (st_base s))].
Proof. unfold stored_chunks. rewrite !concat_app. simpl. by rewrite app_nil_r, <-!app_assoc. Qed.

Lemma early_chunks_ok s : chunks early_keys (early_chunks s).
Proof.
  unfold chunks, early_keys, early_chunks.
  repeat apply Forall2_app; try apply sizes_chunks_ok; repeat (apply Forall2_cons; split); done.
Qed.

Lemma update_other k d e : k ∉ e.*1 → assoc_get k (dict_update d e) = assoc_get k d.
Proof.
  unfold dict_update. revert d. induction e as [|[k' v] e IH]; intros d Hk; [done|]. simpl in *.
  rewrite not_elem_of_cons in Hk. destruct Hk. rewrite IH by done. by apply assoc_get_set_ne.
Qed.

Lemma early_refill policy s :
  assoc_get "backlog_refill" (dict_update (with_reviewer policy) (concat (early_chunks s))) =
  assoc_get "backlog_refill" policy.
Proof.
  rewrite update_other, with_reviewer_get; [done..|].
  intros Hin. apply (sublist_subseteq _ _ (chunks_keys _ _ (early_chunks_ok s))) in Hin.
  revert Hin. by apply (bool_decide_unpack _).
Qed.

(** The checks behind an accepted policy. *)
Lemma validate_policy_inv v p :
  validate_policy v = Ok p → ∃ policy s,
    v = PDict policy ∧ chunks stored_keys (stored_chunks s) ∧ accepted policy s p.
Proof.
  unfold validate_policy. intros H.
  apply res_bind_ok in H as (policy & ->%as_dict_ok & H).
  apply res_bind_ok in H as (? & Hkeys%require_ok & H).
  apply res_bind_ok in H as (conductor & [Hc _]%policy_index_get & H).
  apply res_bind_ok in H as (repo_ & [<- _]%policy_index_get & H).
  apply res_bind_ok in H as (repo & Hrepo & H).
  apply res_bind_ok in H as (issues & Hissues & H).
  apply res_bind_ok in H as (mt & [<- _]%policy_index_get & H).
  apply res_bind_ok in H as (lanes & Hlanes & H).
  apply res_bind_ok in H as (sizes & Hsizes & H).
  destruct (policy_sizes_inv _ _ Hsizes) as (z & -> & Hz & Hsoft & Hplan).
  apply res_bind_ok in H as ([task turn] & Hbudgets & H).
  apply res_bind_ok in H as (allowed & Hmodels & H).
  apply res_bind_ok in H as (refill & Hrefill & H).
  apply res_bind_ok in H as ([] & Hroles & H).
  apply res_bind_ok in H as (blocks & Hblocks & H).
  apply res_bind_ok in H as (repos & Hrepos & H).
  apply res_bind_ok in H as (over & Hover & H).
  apply res_bind_ok in H as (? & Htime%require_ok & H).
  apply res_bind_ok in H as (base_ & [<- _]%policy_index_get & H).
  apply res_bind_ok in H as (base & Hbase & H). apply ok_inj in H.
  subst conductor. fold (with_reviewer policy) in *.
  destruct (policy_blocks_inv _ _ _ Hblocks)
    as (pools & effort & intake & problems & quota & watchdog & auto & binding & Hbl).
  specialize (Hbl repo issues lanes z task turn allowed refill repos base). cbv zeta in Hbl.
  set (s := mkStored repo issues lanes z task turn allowed refill pools effort intake problems quota
              watchdog auto binding repos base).
  fold s in Hbl. destruct Hbl as [-> Hbl]. pose proof Hbl as (Hp & He & _ & _ & _ & _ & Hb).
  pose proof (early_concat s) as Hec. set (ec := concat (early_chunks s)) in *.
  cbn [st_repo st_issues st_lanes st_sizes st_task st_turn st_allowed s] in Hec.
  rewrite <-Hec in Hrefill, Hroles, Hbl, Hrepos, Hover, H. clear Hec. subst ec.
  pose proof (early_refill policy s) as Hrd.
  assert (chunks stored_keys (stored_chunks s)) as Hch by by eapply accepted_chunks.
  assert (p = dict_update (with_reviewer policy) (concat (stored_chunks s))) as Hres.
  { by rewrite <-H, stored_concat, !dict_update_app. }
  assert (sz_turn_timeout z ≤ sz_task_timeout z) as Hle.
  { pose proof (stored_get s (with_reviewer policy) Hch) as Hg. rewrite <-Hres in Hg.
    pose proof (Forall2_lookup_lr _ _ _ 4 _ _ Hg eq_refl eq_refl) as Ht.
    pose proof (Forall2_lookup_lr _ _ _ 6 _ _ Hg eq_refl eq_refl) as Hk.
    match type of H with dict_set _ _ ?r = _ =>
      assert (∀ k, k ≠ "base_branch"%string → dict_get k r = dict_get k p) as Hr
        by (intros k Hk'; rewrite <-H; unfold dict_get; by rewrite assoc_get_set_ne)
    end.
    rewrite !Hr in Hover by done. unfold dict_get in Hover. rewrite Ht, Hk in Hover.
    cbn [assoc_get bool_decide] in Hover. rewrite !bool_decide_eq_true_2 in Hover by done. simpl in Hover.
    rewrite py_gt_ints in Hover. apply ok_inj in Hover. subst over.
    apply negb_true_iff, Z.ltb_ge in Htime. done. }
  exists policy, s. split; [done|]. split; [done|].
  constructor; rewrite ?dict_update_app; try done.
Qed.

Lemma kept_empty key d f : kept key d f = Ok [] → assoc_get key d = None.
Proof. unfold kept. destruct (assoc_get key d); [|done]. intros H. by res_inv. Qed.

Lemma kept_reads key d f l r :
  kept key d f = Ok l → assoc_get key r = assoc_get key d →
  match assoc_get key l with Some v => Some v | None => assoc_get key r end = assoc_get key l.
Proof.
  intros H Hr. pose proof (kept_keys _ _ _ _ H) as Hk. destruct l as [|[k v] l].
  - simpl. rewrite Hr. by eapply kept_empty.
  - apply sublist_subseteq in Hk. assert (k = key) as -> by (specialize (Hk k); set_solver).
    simpl. by rewrite bool_decide_eq_true_2.
Qed.

(** A stored policy holds exactly what was stored under each of its keys. *)
Lemma stored_reads policy s p :
  chunks stored_keys (stored_chunks s) → accepted policy s p →
  Forall2 (λ k l, assoc_get k p = assoc_get k l) stored_keys (stored_chunks s).
Proof.
  intros Hch H. pose proof (stored_get s (with_reviewer policy) Hch) as Hg.
  rewrite <-(acc_result _ _ _ H) in Hg.
  destruct (acc_blocks _ _ _ H) as (Hp & He & _ & _ & _ & _ & Hb).
  unfold stored_keys, stored_chunks, early_keys, early_chunks, size_keys, sizes_chunks, block_keys,
    block_chunks in *.
  cbn [app] in *. rewrite !Forall2_cons in *. destruct_and! Hg.
  split_and!; try done; match goal with H : assoc_get ?k p = _ |- assoc_get ?k p = _ => rewrite H end.
  - destruct (sz_soft (st_sizes s)) eqn:Es; [done|]. simpl. rewrite with_reviewer_get by done.
    by apply (acc_soft _ _ _ H).
  - destruct (refill_chunk _ _ _ (acc_refill _ _ _ H) (early_refill policy s)) as (Hk & Hn & _).
    destruct (st_refill s) as [|[k v] l]; [by rewrite with_reviewer_get by done; apply Hn|].
    apply sublist_subseteq in Hk. assert (k = "backlog_refill"%string) as -> by (specialize (Hk k); set_solver).
    done.
  - eapply kept_reads; [exact Hp|by rewrite with_reviewer_get].
  - eapply kept_reads; [exact He|by rewrite with_reviewer_get].
  - eapply kept_reads; [exact Hb|by rewrite with_reviewer_get].
  - eapply kept_reads; [exact (acc_repos _ _ _ H)|by rewrite with_reviewer_get].
Qed.

(** Keys the later stages leave alone. *)
Lemma agree_update keys d e : (∀ k, k ∈ keys → k ∉ e.*1) → agree_on keys d (dict_update d e).
Proof. intros H k Hk. by rewrite update_other by by apply H. Qed.

Lemma stored_agree keys s d rest :
  bool_decide (Forall (λ k, k ∉ rest) keys) = true →
  ∀ pre suf, concat (stored_chunks s) = pre ++ suf → suf.*1 ⊆ rest →
  agree_on keys (dict_update d pre) (dict_update d (concat (stored_chunks s))).
Proof.
  intros Hk%bool_decide_eq_true pre suf -> Hs. rewrite dict_update_app. apply agree_update.
  intros k Hin Hin'. rewrite Forall_forall in Hk. apply (Hk k Hin). by apply Hs.
Qed.

Lemma accepted_reviewer policy s p :
  chunks stored_keys (stored_chunks s) → accepted policy s p →
  agree_on ["conductor_model"; "worker_model"; "reviewer_model"]%string (with_reviewer policy) p.
Proof.
  intros Hch H. rewrite (acc_result _ _ _ H). apply agree_update. intros k Hk Hin.
  apply (sublist_subseteq _ _ (chunks_keys _ _ Hch)) in Hin.
  assert (Forall (λ k, k ∉ stored_keys) ["conductor_model"; "worker_model"; "reviewer_model"]%string)
    as Hd by by apply (bool_decide_unpack _).
  rewrite Forall_forall in Hd. by apply (Hd k).
Qed.

(** ** Validating a stored policy *)

Lemma res_map_integers l name low high ns :
  res_map (λ v, _integer v name low high) l = Ok ns ↔
  l = PInt <$> ns ∧ Forall (λ z, low ≤ z ≤ high) ns.
Proof.
  rewrite res_map_Forall2. split.
  - induction 1 as [|v z l ns [-> Hz]%integer_ok Hl [-> IH]]; [done|]. by split; [|constructor].
  - intros [-> Hns]. apply Forall2_fmap_l, Forall_Forall2_diag.
    apply (Forall_impl _ _ _ Hns). intros z Hz. by apply integer_ok.
Qed.

(** The reader of the stored intake block and the validator of the posted one. *)
Lemma intake_policy_posted d i :
  _validate_intake (get_or "intake" (PDict []) d) = Ok i → intake_policy d = Ok i.
Proof.
  unfold intake_policy, get_or, dict_get. destruct (assoc_get "intake" d) as [v|]; simpl; [|done].
  intros Hi. destruct v as [| | | | | |[|]|]; done.
Qed.

Lemma intake_not_empty v i : _validate_intake v = Ok i → truthy (PDict i) = true.
Proof. unfold _validate_intake. intros Hi. res_inv. by subst. Qed.

Lemma bind_eq {A B} (m : res A) (f : A → res B) a r : m = Ok a → f a = r → (m ≫= f) = r.
Proof. by intros -> <-. Qed.

Section within.
Context (s : Stored).
Ltac within := apply Forall_forall; intros q Hq; rewrite stored_concat, !elem_of_app; tauto.
Lemma early_within : Forall (λ q, q ∈ concat (stored_chunks s)) (concat (early_chunks s)).
Proof. within. Qed.
Lemma refill_within : Forall (λ q, q ∈ concat (stored_chunks s)) (st_refill s).
Proof. within. Qed.
Lemma block_within : Forall (λ q, q ∈ concat (stored_chunks s)) (concat (block_chunks s)).
Proof. within. Qed.
Lemma repos_within : Forall (λ q, q ∈ concat (stored_chunks s)) (st_repos s).
Proof. within. Qed.
End within.

Section again.
Context (policy p : dict) (s : Stored).
Hypothesis Hch : chunks stored_keys (stored_chunks s).
Hypothesis H : accepted policy s p.

Lemma again_get (i : nat) k l :
  stored_keys !! i = Some k → stored_chunks s !! i = Some l → assoc_get k p = assoc_get k l.
Proof. intros H1 H2. exact (Forall2_lookup_lr _ _ _ _ _ _ (stored_reads _ _ _ Hch H) H1 H2). Qed.

Lemma again_intake : intake_policy p = Ok (st_intake s).
Proof.
  destruct (acc_blocks _ _ _ H) as (_ & _ & Hin & _). apply intake_policy_posted.
  unfold get_or. rewrite (again_get 19 _ _ eq_refl eq_refl). by eapply intake_stable.
Qed.

Lemma again_issues : policy_issues p = Ok (st_issues s).
Proof.
  pose proof (acc_issues _ _ _ H) as Hi. destruct (acc_blocks _ _ _ H) as (_ & _ & Hin & _).
  unfold policy_issues in *. unfold policy_index at 1. rewrite (again_get 1 _ _ eq_refl eq_refl). simpl.
  apply res_bind_ok in Hi as (v & [_ Hv]%policy_index_get & Hi).
  destruct v as [| | | | |l| |]; try done.
  apply res_bind_ok in Hi as (? & Hlen%require_ok%Nat.leb_le & Hi).
  apply res_bind_ok in Hi as (? & Hempty & Hi).
  apply res_bind_ok in Hi as (ns & [-> Hns]%res_map_integers & Hi). apply ok_inj in Hi.
  rewrite length_fmap in Hlen. pose proof (length_sorted_ints ns) as Hl. rewrite Hi in Hl.
  apply (Forall_sorted_ints (λ z, 1 ≤ z ≤ MAX_INT32)) in Hns. rewrite Hi in Hns.
  eapply bind_step. { apply (require_ok _ _ tt), Nat.leb_le. rewrite length_fmap. lia. }
  cbv beta. eapply (bind_step _ _ tt).
  { rewrite again_intake. destruct (st_issues s) as [|z zs] eqn:E; [|done]. cbn -[dict_get].
    destruct ns as [|n ns]; [|by pose proof (proj2 (elem_of_sorted_ints (n :: ns) n) (list_elem_of_here _ _)) as Hn;
      rewrite Hi in Hn; apply elem_of_nil in Hn].
    rewrite (intake_policy_posted _ _ Hin) in Hempty. cbn -[dict_get] in Hempty.
    by destruct x0. }
  cbv beta. eapply bind_step; [by apply res_map_integers|]. cbv beta.
  by rewrite <-Hi, sorted_ints_idem.
Qed.

Lemma again_budgets : policy_budgets p = Ok (st_task s, st_turn s).
Proof.
  pose proof (acc_budgets _ _ _ H) as Hb. unfold policy_budgets in *. res_inv. simplify_eq.
  unfold policy_index. rewrite (again_get 13 _ _ eq_refl eq_refl), (again_get 14 _ _ eq_refl eq_refl).
  cbn [assoc_get]. rewrite !bool_decide_eq_true_2 by done.
  eapply bind_step; [done|]. cbv beta. eapply bind_step; [eapply money_stable; eassumption|]. cbv beta.
  eapply bind_step; [done|]. cbv beta. eapply bind_step; [eapply money_stable; eassumption|]. cbv beta.
  eapply bind_step; [eauto with stable|]. done.
Qed.

Lemma again_models : policy_models p = Ok (st_allowed s).
Proof.
  pose proof (acc_models _ _ _ H) as Hm. unfold policy_models in *.
  unfold policy_index at 1. rewrite (again_get 15 _ _ eq_refl eq_refl).
  apply res_bind_ok in Hm as (v & [_ Hv]%policy_index_get & Hm).
  destruct v as [| | | | |l| |]; try done.
  apply res_bind_ok in Hm as (? & Hlen%require_ok & Hm).
  apply res_bind_ok in Hm as (ns & [-> Hns]%res_map_text & Hm). apply ok_inj in Hm.
  unfold count_within in *. rewrite length_fmap, andb_true_iff, !Nat.leb_le in Hlen.
  pose proof (length_sorted_strs ns) as Hl. rewrite Hm in Hl.
  assert (1 ≤ length (st_allowed s))%nat as Hpos.
  { destruct ns as [|n ns]; [simpl in *; lia|].
    pose proof (proj2 (elem_of_sorted_strs (n :: ns) n) (list_elem_of_here _ _)) as Hn.
    rewrite Hm in Hn. destruct (st_allowed s); [by apply elem_of_nil in Hn|]. simpl. lia. }
  apply Forall_sorted_strs in Hns. rewrite Hm in Hns.
  cbn [assoc_get]. rewrite bool_decide_eq_true_2 by done. eapply bind_step; [done|]. unfold strs. cbv beta iota.
  eapply bind_step.
  { apply (require_ok _ _ tt). rewrite length_fmap, andb_true_iff, !Nat.leb_le. lia. }
  cbv beta. eapply bind_step; [by apply res_map_text|]. cbv beta. by rewrite <-Hm, sorted_strs_idem.
Qed.
Lemma again_prefix pre suf keys rest :
  concat (stored_chunks s) = pre ++ suf → suf.*1 ⊆ rest →
  bool_decide (Forall (λ k, k ∉ rest) keys) = true →
  agree_on keys (dict_update (with_reviewer policy) pre) p.
Proof. intros Hc Hs Hk. rewrite (acc_result _ _ _ H). by eapply stored_agree. Qed.

(** What follows the early keys. *)
Definition late_keys : list string := ["backlog_refill"%string] ++ block_keys ++ ["repos"; "base_branch"]%string.

Lemma late_within : (concat ([st_refill s] ++ block_chunks s ++
  [st_repos s; [("base_branch"%string, PStr (st_base s))]])).*1 ⊆ late_keys.
Proof.
  apply sublist_subseteq, chunks_keys. unfold chunks in *.
  unfold stored_keys, stored_chunks in Hch. apply Forall2_app_inv in Hch as [_ Hl]; [done|].
  apply (Forall2_length _ _ _ (early_chunks_ok s)).
Qed.
Lemma concat_late : concat (stored_chunks s) = concat (early_chunks s) ++
  concat ([st_refill s] ++ block_chunks s ++ [st_repos s; [("base_branch"%string, PStr (st_base s))]]).
Proof. unfold stored_chunks. by rewrite concat_app. Qed.

Lemma again_early keys :
  bool_decide (Forall (λ k, k ∉ late_keys) keys) = true →
  agree_on keys (dict_update (with_reviewer policy) (concat (early_chunks s))) p.
Proof. intros Hk. eapply again_prefix; [apply concat_late|apply late_within|done]. Qed.

Lemma again_refilled keys :
  bool_decide (Forall (λ k, k ∉ late_keys) keys) = true →
  agree_on keys (dict_update (with_reviewer policy) (concat (early_chunks s) ++ st_refill s)) p.
Proof.
  intros Hk. apply (again_prefix _ (concat (block_chunks s ++
    [st_repos s; [("base_branch"%string, PStr (st_base s))]])) _ late_keys); [| |done].
  - rewrite concat_late, <-app_assoc. done.
  - intros k Hin. apply late_within. rewrite concat_app, fmap_app. apply elem_of_app. by right.
Qed.

Lemma again_blocked keys :
  bool_decide (Forall (λ k, k ∉ ["repos"; "base_branch"]%string) keys) = true →
  agree_on keys (dict_update (with_reviewer policy)
    (concat (early_chunks s) ++ st_refill s ++ concat (block_chunks s))) p.
Proof.
  intros Hk. eapply (again_prefix _ (st_repos s ++ [("base_branch"%string, PStr (st_base s))])); [| |done].
  - by rewrite stored_concat, <-!app_assoc.
  - rewrite fmap_app. pose proof (kept_keys _ _ _ _ (acc_repos _ _ _ H)) as Hr%sublist_subseteq. set_solver.
Qed.

Lemma again_roles : policy_roles p p (st_allowed s) = Ok tt.
Proof.
  pose proof (acc_roles _ _ _ H) as Hr. unfold policy_roles in *.
  pose proof (accepted_reviewer _ _ _ Hch H) as Ha.
  assert (∀ k, k = "conductor_model" ∨ k = "worker_model" → assoc_get k policy = assoc_get k p)%string as Hcw.
  { intros k Hk. rewrite <-Ha by set_solver. rewrite with_reviewer_get; [done|]. by destruct Hk as [->| ->]. }
  unfold policy_index in *. rewrite <-!Hcw by auto.
  by rewrite <-(agree_get _ _ p "reviewer_model" (again_refilled ["reviewer_model"%string] eq_refl)) by set_solver.
Qed.

Lemma again_refill : policy_refill p p = Ok (st_refill s).
Proof.
  destruct (refill_chunk _ _ _ (acc_refill _ _ _ H) (early_refill policy s)) as (_ & _ & Hst).
  apply Hst; [|by apply again_early]. intros k ->. by apply (again_get 16).
Qed.

Lemma again_blocks : policy_blocks p p = Ok (concat (block_chunks s)).
Proof.
  destruct (acc_blocks _ _ _ H) as (Hp & He & Hi & Hpr & Hq & Hw & Hb). unfold policy_blocks, get_or.
  eapply bind_step; [eapply kept_again; [exact Hp| |exact (again_get 17 _ _ eq_refl eq_refl)]|].
  { intros v w _ (r & E & ->)%res_fmap_ok.
    by rewrite (model_pools_stable _ _ p _ (again_refilled pool_reads eq_refl) E). }
  eapply bind_step; [eapply kept_again; [exact He| |exact (again_get 18 _ _ eq_refl eq_refl)]|].
  { intros v w _ (r & E & ->)%res_fmap_ok.
    by rewrite (role_effort_stable _ _ E). }
  rewrite (again_get 19 _ _ eq_refl eq_refl), (again_get 20 _ _ eq_refl eq_refl),
    (again_get 21 _ _ eq_refl eq_refl), (again_get 22 _ _ eq_refl eq_refl), (again_get 23 _ _ eq_refl eq_refl).
  eapply bind_step; [exact (intake_stable _ _ Hi)|]. eapply bind_step; [exact (problem_issues_stable _ _ Hpr)|].
  eapply bind_step; [exact (quota_guard_stable _ _ Hq)|].
  eapply bind_step; [exact (progress_watchdog_stable _ _ Hw)|]. eapply bind_step; [done|].
  eapply bind_step; [eapply kept_again; [exact Hb| |exact (again_get 24 _ _ eq_refl eq_refl)]|].
  { by intros v w _ (r & _ & ->)%res_fmap_ok. }
  simpl. by rewrite app_nil_r.
Qed.

Lemma again_repos : kept "repos" p (λ v, PDict <$> _validate_repos v p) = Ok (st_repos s).
Proof.
  eapply kept_again; [exact (acc_repos _ _ _ H)| |exact (again_get 25 _ _ eq_refl eq_refl)].
  intros v w _ (r & E & ->)%res_fmap_ok.
  by rewrite (repos_stable _ _ p _ (again_blocked ("repo"%string :: entry_reads) eq_refl) E).
Qed.

(** Writing back any of the stored chunks changes nothing. *)
Lemma again_same e : Forall (λ q, q ∈ concat (stored_chunks s)) e → dict_update p e = p.
Proof.
  intros He. apply dict_update_same. rewrite (acc_result _ _ _ H).
  pose proof (NoDup_entries (with_reviewer policy) (concat (stored_chunks s))) as Hn.
  rewrite Forall_forall in Hn. apply (Forall_impl _ _ _ He). intros q. apply Hn.
  eapply sublist_NoDup; [|by apply chunks_keys]. by apply (bool_decide_unpack _).
Qed.
Lemma again_keys :
  forallb (λ k, has_key k p) required_keys && keys_within p _POLICY_KEYS = true.
Proof.
  pose proof (acc_keys _ _ _ H) as [Hr Hw]%andb_true_iff. apply andb_true_iff.
  assert (∀ k, k ∈ policy.*1 → k ∈ (with_reviewer policy).*1) as Hin.
  { intros k Hk. unfold with_reviewer. case_match; [done|]. rewrite dict_set_keys. case_bool_decide; set_solver. }
  split.
  - rewrite forallb_forall in Hr |- *. intros k Hk%Hr. apply has_key_elem in Hk. apply has_key_elem.
    rewrite (acc_result _ _ _ H), dict_update_keys. auto.
  - apply keys_within_spec in Hw. apply keys_within_spec. intros k.
    rewrite (acc_result _ _ _ H), dict_update_keys. intros [Hk|Hk].
    + unfold with_reviewer in Hk. case_match; [by apply Hw|]. rewrite dict_set_keys in Hk.
      case_bool_decide; [by apply Hw|].
      apply elem_of_app in Hk as [Hk|[->|[]%elem_of_nil]%elem_of_cons]; [by apply Hw|].
      by apply (bool_decide_unpack _).
    + apply (sublist_subseteq _ _ (chunks_keys _ _ Hch)) in Hk. revert k Hk. apply Forall_forall.
      by apply (bool_decide_unpack _).
Qed.

Lemma again_sizes :
  policy_sizes p = if sz_planner (st_sizes s) <=? 100 then Ok (concat (sizes_chunks (st_sizes s)))
                   else Raise (ValueError "invalid max_planner_turns").
Proof.
  apply policy_sizes_again; [apply (acc_sizes_ok _ _ _ H)|].
  pose proof (stored_reads _ _ _ Hch H) as Hr. unfold stored_keys, stored_chunks, early_keys, early_chunks in Hr.
  apply Forall2_app_inv in Hr as [Hr _]; [|by destruct (st_sizes s)].
  apply Forall2_app_inv in Hr as [_ Hr]; [|done]. by apply Forall2_app_inv in Hr as [Hr _].
Qed.

(** A stored policy validates to itself, unless the planner cap it inherited
    is above the cap an operator may write. *)
Lemma validate_again :
  validate_policy (PDict p) =
    if sz_planner (st_sizes s) <=? 100 then Ok p
    else Raise (ValueError "invalid max_planner_turns").
Proof.
  unfold validate_policy. cbn [as_dict mbind res_bind]. rewrite again_keys. cbn [require].
  assert (∃ c, assoc_get "conductor_model" p = Some c) as [c Hcond].
  { pose proof again_keys as [Hr _]%andb_true_iff. rewrite forallb_forall in Hr.
    specialize (Hr "conductor_model"%string). unfold has_key in Hr.
    destruct (assoc_get "conductor_model" p); [eauto|]. discriminate Hr. by apply list_elem_of_In, (bool_decide_unpack _). }
  assert (has_key "reviewer_model" p = true) as Hrev.
  { apply has_key_elem. rewrite (acc_result _ _ _ H), dict_update_keys. left. unfold with_reviewer.
    destruct (has_key "reviewer_model" policy) eqn:E; [by apply has_key_elem|].
    rewrite dict_set_keys. case_bool_decide; set_solver. }
  assert (∀ k i l v, stored_keys !! i = Some k → stored_chunks s !! i = Some l → assoc_get k l = Some v →
            policy_index k p = Ok v) as Hix.
  { intros k i l v Hk Hl Hv. unfold policy_index. by rewrite (again_get i k l Hk Hl), Hv. }
  eapply bind_eq; [done|]. eapply bind_eq; [unfold policy_index; by rewrite Hcond|]. cbv beta zeta.
  eapply bind_eq; [by eapply (Hix _ 0%nat)|]. cbv beta.
  eapply bind_eq; [by eapply normalize_repo_stable, (acc_repo _ _ _ H)|]. cbv beta.
  eapply bind_eq; [exact again_issues|]. cbv beta.
  eapply bind_eq; [by eapply (Hix _ 2%nat)|]. cbv beta.
  eapply bind_eq; [eapply max_tasks_stable, (acc_lanes _ _ _ H)|]. cbv beta.
  rewrite again_sizes, Hrev. destruct (_ <=? 100); [|done]. cbn [mbind res_bind].
  eapply bind_eq; [exact again_budgets|]. cbv beta iota. eapply bind_eq; [exact again_models|]. cbv beta.
  rewrite <-(early_concat s), again_same by apply early_within.
  eapply bind_eq; [exact again_refill|]. cbv beta. rewrite again_same by apply refill_within.
  eapply bind_eq; [exact again_roles|]. eapply bind_eq; [exact again_blocks|]. cbv beta.
  rewrite again_same by apply block_within.
  eapply bind_eq; [exact again_repos|]. cbv beta. rewrite again_same by apply repos_within.
  unfold dict_get. rewrite (again_get 4 _ _ eq_refl eq_refl), (again_get 6 _ _ eq_refl eq_refl).
  cbn [assoc_get]. rewrite !bool_decide_eq_true_2 by done. cbn [default].
  eapply bind_eq; [apply py_gt_ints|]. cbv beta. eapply bind_eq.
  { apply (require_ok _ _ tt), negb_true_iff, Z.ltb_ge, (acc_timeout _ _ _ H). }
  eapply bind_eq; [by eapply (Hix _ 26%nat)|]. eapply bind_eq; [apply (text_ok_iff _ _ _ (st_base s)); split; [done|]|].
  { by pose proof (acc_base _ _ _ H) as [_ Hb]%text_ok_iff. }
  cbv beta. by rewrite dict_set_same by (rewrite (again_get 26 _ _ eq_refl eq_refl); done).
Qed.
End again.
