(* ===== verification/PolicyTypes.v ===== *)
(** * Factory controls: the type of a stored policy

    What each block of an accepted policy holds, key by key, stated without the
    validators, and that what a validator stores has that type. *)

From Stdlib Require Import SpecFloat Ascii.
From stdpp Require Import prelude list strings pretty.
From S2P Require Import Prelude PyValue ModelCatalog ModelPool PolicyData Policy PolicyFacts PolicyRoundtrip.
Local Open Scope Z_scope.

#[local] Arguments _integer : simpl never.
#[local] Arguments _text : simpl never.
#[local] Arguments _money : simpl never.
#[local] Arguments normalize_repo : simpl never.

(** ** Fields *)

Definition int_between_at (p : dict) (k : string) (low high : Z) : Prop :=
  ∃ z, assoc_get k p = Some (PInt z) ∧ low ≤ z ≤ high.
Definition flag_at (p : dict) (k : string) : Prop := ∃ b, assoc_get k p = Some (PBool b).
Definition block_at (p : dict) (k : string) (P : dict → Prop) : Prop :=
  ∃ d, assoc_get k p = Some (PDict d) ∧ P d.
(** A key that may be left out. *)
Definition optional_at (p : dict) (k : string) (P : pyval → Prop) : Prop :=
  ∀ v, assoc_get k p = Some v → P v.
Definition is_flag (v : pyval) : Prop := ∃ b, v = PBool b.
Definition is_int (low high : Z) (v : pyval) : Prop := ∃ z, v = PInt z ∧ low ≤ z ≤ high.
Definition is_amount (v : pyval) : Prop := ∃ f, v = PFloat f ∧ f_is_finite f = true ∧ flt fzero f = true.
Definition is_labels (v : pyval) : Prop := ∃ l, v = strs l ∧ (length l ≤ 32)%nat ∧ Forall (text_ok 128) l.
Definition is_lanes (v : pyval) : Prop :=
  ∃ l, v = lanes_dict l ∧ 1 ≤ ln_delivery l ≤ 100 ∧ 0 ≤ ln_advisory l ≤ 100.

(** ** Blocks *)

Definition owner_typed (v : pyval) : Prop :=
  v = PNone ∨ ∃ login id, v = PDict [("login", PStr login); ("id", PInt id)]%string ∧ login_ok login = true ∧ 0 < id.

Record intake_typed (d : dict) : Prop := mkIntakeTyped
  { it_flags : ∀ k, k ∈ ["enabled"; "refine_enabled"; "close_enabled"; "refine_brief_only"]%string → flag_at d k;
    it_labels : ∃ labels exclude, assoc_get "labels" d = Some (strs labels) ∧ assoc_get "exclude_labels" d = Some (strs exclude) ∧
      is_labels (strs labels) ∧ is_labels (strs exclude) ∧ overlap labels exclude = false;
    it_per_day : int_between_at d "max_per_day" 1 10000;
    it_cooldown : int_between_at d "cooldown_hours" 1 168;
    it_closes : int_between_at d "max_closes_per_day" 1 50;
    it_owner : ∃ v, assoc_get "owner_pr_author" d = Some v ∧ owner_typed v;
    it_authors : ∃ l, assoc_get "dependency_pr_authors" d = Some (strs l) ∧ (length l ≤ 32)%nat ∧ Forall (λ s, author_ok s = true) l;
    it_author_ids : ∃ l, assoc_get "dependency_pr_author_ids" d = Some (ints l) ∧ (length l ≤ 32)%nat ∧ Forall (λ z, 0 < z) l;
    it_batch : ∃ l, assoc_get "refinement_batch" d = Some (ints l) ∧ (length l ≤ 10)%nat ∧ NoDup l ∧ Forall (λ z, 1 ≤ z ≤ MAX_INT32) l }.

Record quota_typed (d : dict) : Prop := mkQuotaTyped
  { qt_percents : ∃ pause resume, assoc_get "claude_7d_pause_percent" d = Some (PInt pause) ∧
      assoc_get "claude_7d_resume_percent" d = Some (PInt resume) ∧ 1 ≤ resume ∧ resume < pause ∧ pause ≤ 100;
    qt_reset : int_between_at d "claude_7d_imminent_reset_minutes" 0 10080 }.

Record watchdog_typed (d : dict) : Prop := mkWatchdogTyped
  { wt_enabled : flag_at d "enabled"; wt_turns : int_between_at d "threshold_turns" 1 100 }.

Record limits_typed (d : dict) : Prop := mkLimitsTyped
  { lt_findings : int_between_at d "max_findings" 1 20; lt_cooldown : int_between_at d "cooldown_seconds" 3600 604800;
    lt_attempts : int_between_at d "max_unproven_attempts" 1 3 }.
Definition review_typed (d : dict) : Prop :=
  ∃ id reason, assoc_get "through_audit_id" d = Some (PInt id) ∧ assoc_get "reason" d = Some (PStr reason) ∧
    0 ≤ id ≤ 2 ^ 63 - 1 ∧ (String.length reason ≤ 1000)%nat ∧ (id ≠ 0 → blank reason = false).
(** An enabled scout names its charter issue and attested caps, of a source that is on. *)
Definition scout_typed (on quota : bool) (d : dict) : Prop :=
  ∃ enabled number caps, assoc_get "enabled" d = Some (PBool enabled) ∧ assoc_get "issue_number" d = Some (PInt number) ∧
    assoc_get "subscription_caps" d = Some (PDict caps) ∧ 0 ≤ number ≤ MAX_INT32 ∧ (length caps ≤ 16)%nat ∧
    Forall (λ p, cap_attested p = true) caps ∧ (enabled = true → number ≠ 0 ∧ caps ≠ [] ∧ on = true ∧ quota = true).
Record problems_typed (d : dict) : Prop := mkProblemsTyped
  { pb_scout : ∃ on sources, assoc_get "enabled" d = Some (PBool on) ∧ assoc_get "sources" d = Some (PDict sources) ∧
      (∀ k, k ∈ PROBLEM_ISSUE_SOURCES → flag_at sources k) ∧
      block_at d "improvement_scout" (scout_typed on (truthy (dict_get "quota_improvement" sources)));
    pb_audits : int_between_at d "source_audit_limit" 1 50; pb_pages : int_between_at d "issue_pages" 1 2;
    pb_per_page : int_between_at d "issues_per_page" 1 100; pb_per_tick : int_between_at d "max_per_tick" 1 1;
    pb_per_day : int_between_at d "max_per_24_hours" 1 100;
    pb_limits : block_at d "improvement_limits" limits_typed; pb_review : block_at d "improvement_review" review_typed;
    pb_fixed : assoc_get "labels" d = Some (strs ["bug"%string]) ∧ assoc_get "retry_minutes" d = Some RETRY_MINUTES }.

(** A pool: distinct allowed models, for conductor and worker from their own. *)
Definition pool_typed (p : dict) (allowed : list string) (q : string * pyval) : Prop :=
  pool_role q.1 = true ∧ ∃ models, q.2 = strs models ∧ (1 ≤ length models ≤ 8)%nat ∧ NoDup models ∧
    Forall (text_ok 128) models ∧ Forall (λ m, m ∈ allowed) models ∧
    ∀ field, assoc_get q.1 _POOL_ROLES = Some field → ∃ m, head models = Some m ∧ assoc_get field p = Some (PStr m).
Definition pools_typed (p : dict) (allowed : list string) (v : pyval) : Prop :=
  ∃ d, v = PDict d ∧ d ≠ [] ∧ Forall (pool_typed p allowed) d.
Definition effort_typed (v : pyval) : Prop :=
  ∃ d, v = PDict d ∧ Forall (λ q, q.1 ∈ ROLE_EFFORT.*1 ∧ ∃ e, q.2 = PStr e ∧ e ∈ EFFORT_LEVELS) d.

Record refill_typed (allowed : list string) (d : dict) : Prop := mkRefillTyped
  { rt_keys : d.*1 ⊆ REFILL_DEFAULTS.*1; rt_enabled : optional_at d "enabled" is_flag;
    rt_bounds : ∀ k low high, (k, (low, high)) ∈ REFILL_BOUNDS → optional_at d k (is_int low high);
    rt_model : optional_at d "model" (λ v, ∃ m, v = PStr m ∧ m ∈ allowed);
    rt_effort : optional_at d "effort" (λ v, ∃ e, v = PStr e ∧ e ∈ EFFORT_LEVELS) }.

Record repo_typed (d : dict) : Prop := mkRepoTyped
  { re_keys : d.*1 ⊆ REPO_ENTRY_KEYS;
    re_flags : ∀ k, k ∈ ["enabled"; "paused"; "auto_merge"]%string → optional_at d k is_flag;
    re_labels : ∀ k, k ∈ ["labels"; "exclude_labels"]%string → optional_at d k is_labels;
    re_per_day : optional_at d "max_per_day" (is_int 1 10000); re_lanes : optional_at d "max_tasks" is_lanes;
    re_budgets : ∀ k, k ∈ ["task_budget_usd"; "turn_budget_usd"]%string → optional_at d k is_amount;
    re_landing : optional_at d "landing" (λ v, ∃ m, v = PStr m ∧ m ∈ LANDING_MODES);
    re_charter : optional_at d "charter" (λ v, ∃ c, v = PStr c ∧ (String.length c ≤ 2000)%nat) }.
Definition repos_typed (v : pyval) : Prop :=
  ∃ d, v = PDict d ∧ (1 ≤ length d ≤ MAX_REPOS)%nat ∧ NoDup d.*1 ∧
    Forall (λ q : string * pyval, normalize_repo (PStr q.1) = Ok q.1 ∧ ∃ e, q.2 = PDict e ∧ repo_typed e) d.

(** ** What the validators store *)

Lemma owner_ok v w : owner_pr_author v = Ok w → owner_typed w.
Proof.
  destruct v as [| | | | | |d|]; try done; [intros [= <-]; by left|]. unfold owner_pr_author.
  destruct (dict_get "login" d) as [| | | |login| | |]; try done.
  destruct (dict_get "id" d) as [| |id| | | | |]; try done. intros H. res_inv. subst. right.
  rewrite !andb_true_iff in *. destruct_and!. do 2 eexists. split; [done|].
  split; [by apply login_ok_lower|]. by apply Z.ltb_lt.
Qed.

Lemma authors_ok v l :
  dependency_pr_authors v = Ok l → (length l ≤ 32)%nat ∧ Forall (λ s, author_ok s = true) l.
Proof.
  unfold dependency_pr_authors. destruct v as [| | | | |vs| |]; try done.
  destruct (mapM author_of vs) as [names|] eqn:Hm; [|done]. intros H. res_inv. subst.
  match goal with H : (_ <=? 32)%nat = true |- _ => apply Nat.leb_le in H end.
  pose proof (length_sorted_strs (py_lower <$> names)) as Hl. rewrite length_fmap in Hl.
  pose proof (length_mapM _ _ _ Hm). split; [lia|].
  apply mapM_author_lower in Hm. apply mapM_Some, Forall2_fmap_l in Hm.
  apply Forall_forall. intros s [i Hi]%list_elem_of_lookup.
  pose proof (Forall2_lookup_lr _ _ _ _ _ _ Hm Hi Hi) as Hs. simpl in Hs. by destruct (author_ok s).
Qed.

Lemma author_ids_ok v l :
  dependency_pr_author_ids v = Ok l → (length l ≤ 32)%nat ∧ Forall (λ z, 0 < z) l.
Proof.
  unfold dependency_pr_author_ids. destruct v as [| | | | |vs| |]; try done.
  destruct (mapM author_id vs) as [ns|] eqn:Hm; [|done]. intros H. res_inv. subst.
  match goal with H : (_ <=? 32)%nat = true |- _ => apply Nat.leb_le in H end.
  pose proof (length_sorted_ints ns). pose proof (length_mapM _ _ _ Hm). split; [lia|].
  apply Forall_sorted_ints. eapply Forall_impl; [apply (mapM_ints_inv author_id vs); [apply author_id_int|done]|].
  intros z. simpl. destruct (0 <? z) eqn:E; [|done]. intros _. by apply Z.ltb_lt.
Qed.

Lemma batch_ok v b l :
  validate_refinement_batch v b = Ok l →
  (length l ≤ 10)%nat ∧ NoDup l ∧ Forall (λ z, 1 ≤ z ≤ MAX_INT32) l.
Proof.
  unfold validate_refinement_batch. destruct v as [| | | | |vs| |]; try done.
  destruct (_ || _) eqn:E; [done|]. destruct (mapM batch_number vs) as [ns|] eqn:Hm; [|done].
  case_bool_decide as Hnd; [|done]. intros [= <-]. apply orb_false_iff in E as [E%Nat.ltb_ge _].
  pose proof (length_mapM _ _ _ Hm). rewrite length_py_sorted. split; [lia|]. split; [by rewrite py_sorted_perm|].
  apply Forall_forall. intros z. rewrite elem_of_py_sorted. revert z. apply Forall_forall.
  eapply Forall_impl; [apply (mapM_ints_inv batch_number vs); [apply batch_number_int|done]|].
  intros z. cbv beta. unfold batch_number. destruct ((1 <=? z) && _) eqn:E'; [|done].
  intros _. apply andb_true_iff in E' as [?%Z.leb_le ?%Z.leb_le]. done.
Qed.

Lemma labels_typed v msg l : label_list v msg = Ok l → is_labels (strs l).
Proof. intros (? & ? & _)%label_list_ok. by exists l. Qed.

(** Each field of a block in turn. *)
Ltac fields := constructor; unfold int_between_at, flag_at, block_at; try (by eexists).

Lemma intake_ok v d : _validate_intake v = Ok d → intake_typed d.
Proof.
  unfold _validate_intake, intake_flag. intros H. res_inv. int_facts. subst. fields.
  - intros k. rewrite !elem_of_cons. intros [->|[->|[->|[->|[]%elem_of_nil]]]]; by eexists.
  - do 2 eexists. split; [done|]. split; [done|]. split; [by eapply labels_typed|].
    split; [by eapply labels_typed|]. by apply negb_true_iff.
  - eexists. split; [done|]. by eapply owner_ok.
  - eexists. split; [done|]. by eapply authors_ok.
  - eexists. split; [done|]. by eapply author_ids_ok.
  - eexists. split; [done|]. by eapply batch_ok.
Qed.

Lemma quota_ok v d : _validate_quota_guard v = Ok d → quota_typed d.
Proof.
  unfold _validate_quota_guard. intros H. res_inv. int_facts. subst. fields.
  match goal with H : (_ <? _) = true |- _ => apply Z.ltb_lt in H end.
  do 2 eexists. split; [done|]. split; [done|]. lia.
Qed.

Lemma watchdog_ok v d : _validate_progress_watchdog v = Ok d → watchdog_typed d.
Proof.
  unfold _validate_progress_watchdog. intros H. res_inv.
  destruct (get_or "threshold_turns" _ _) as [| |t| | | | |]; try done. res_inv. subst. fields.
  match goal with H : _ && _ = true |- _ => apply andb_true_iff in H as [?%Z.leb_le ?%Z.leb_le] end.
  by eexists.
Qed.

Lemma limits_ok v d : improvement_limits v = Ok d → limits_typed d.
Proof. unfold improvement_limits. intros H. res_inv. int_facts. subst. fields. Qed.

Lemma review_ok v d : improvement_review v = Ok d → review_typed d.
Proof.
  unfold improvement_review. intros H. res_inv. subst.
  destruct (assoc_get "through_audit_id" x) as [audit|]; [|done].
  destruct (assoc_get "reason" x) as [reason|]; [|done]. res_inv.
  destruct reason as [| | | |r| | |]; try done. res_inv. int_facts. subst.
  match goal with H : _ && _ = true |- _ => apply andb_true_iff in H as [?%Nat.leb_le Hr] end.
  do 2 eexists. split; [done|]. split; [done|]. split; [done|]. split; [done|].
  intros Hz. apply orb_true_iff in Hr as [?%Z.eqb_eq|?%negb_true_iff]; done.
Qed.

Lemma scout_ok v e q d : improvement_scout v e q = Ok d → scout_typed e q d.
Proof.
  unfold improvement_scout. intros H. res_inv. int_facts. subst.
  do 3 eexists. split; [done|]. split; [done|]. split; [done|]. split; [done|].
  split; [by apply Nat.leb_le|]. split.
  - match goal with H : forallb _ _ = true |- _ => rename H into Hf end. rewrite forallb_forall in Hf.
    apply Forall_forall. intros c Hc%list_elem_of_In. by apply Hf.
  - match goal with H : negb _ || _ = true |- _ => rename H into Hor end. intros ->. simpl in Hor.
    rewrite !andb_true_iff, negb_true_iff, Z.eqb_neq in Hor. destruct Hor as (((? & Hc) & ?) & ?).
    split; [done|]. split; [|done]. by intros ->.
Qed.

Lemma sources_ok v d : issue_sources v = Ok d → ∀ k, k ∈ PROBLEM_ISSUE_SOURCES → flag_at d k.
Proof.
  unfold issue_sources. intros H k Hin. res_inv. subst.
  match goal with H : res_map _ _ = Ok _ |- _ => apply res_map_Forall2 in H; rename H into Hb end.
  rename x into d. assert (d.*1 ⊆ default_sources.*1) as Hd by by apply keys_within_spec.
  assert (Forall (λ q, ∃ b, q.2 = PBool b) (dict_update default_sources d)) as Hall.
  { apply dict_update_Forall; [vm_compute; repeat constructor; eauto|].
    apply Forall_forall. intros q [i Hi]%list_elem_of_lookup.
    destruct (Forall2_lookup_l _ _ _ _ _ Hb Hi) as (b & _ & Hq%bool_ok). eauto. }
  unfold flag_at. destruct (assoc_get k _) as [w|] eqn:E.
  - apply assoc_get_elem in E. rewrite Forall_forall in Hall. destruct (Hall _ E) as [b Hb']. simpl in Hb'.
    exists b. by rewrite Hb'.
  - apply assoc_get_None in E. exfalso. apply E. by rewrite dict_update_keys_same.
Qed.

Lemma problems_ok v d : _validate_problem_issues v = Ok d → problems_typed d.
Proof.
  unfold _validate_problem_issues. intros H. res_inv. int_facts. subst. fields.
  - do 2 eexists. split; [done|]. split; [done|]. split; [by eapply sources_ok|].
    eexists. split; [done|]. by eapply scout_ok.
  - eexists. split; [done|]. by eapply limits_ok.
  - eexists. split; [done|]. by eapply review_ok.
Qed.

Lemma effort_ok v d : _validate_role_effort v = Ok d → effort_typed (PDict d).
Proof.
  unfold _validate_role_effort. intros H. res_inv. subst. rename x into d.
  match goal with H : res_map _ _ = Ok _ |- _ => apply res_map_Forall2 in H; rename H into Hb end.
  match goal with H : keys_within _ _ = true |- _ => apply keys_within_spec in H; rename H into Hd end.
  eexists. split; [done|]. apply Forall_forall. intros q (role & -> & Hr)%list_elem_of_fmap.
  rewrite elem_of_py_sorted in Hr. split; [by apply Hd|]. simpl.
  destruct (dict_get_elem role d Hr) as (w & [i Hi]%list_elem_of_lookup & ->).
  destruct (Forall2_lookup_l _ _ _ _ _ Hb Hi) as (u & _ & Hq%require_ok). simpl in Hq.
  destruct w; try done. apply bool_decide_eq_true in Hq. eauto.
Qed.

Lemma py_eq_str m v : py_eq (PStr m) v = true → v = PStr m.
Proof. destruct v; try done. simpl. intros ->%bool_decide_eq_true. done. Qed.
Lemma contains_strs m l : py_contains m (strs l) = Ok true → m ∈ l.
Proof.
  simpl. intros [= H]. apply existsb_exists in H as (v & Hv%list_elem_of_In & ->%py_eq_str).
  by apply list_elem_of_fmap in Hv as (? & [= ->] & ?).
Qed.

Lemma pool_ok p allowed q r :
  assoc_get "allowed_models" p = Some (strs allowed) → pool_role q.1 = true →
  validate_pool p q = Ok r → pool_typed p allowed r.
Proof.
  intros Ha Hrole. unfold validate_pool. destruct q as [role [| | | | |l| |]]; try done. intros H. res_inv. subst.
  match goal with H : res_map (λ m, _text m _ _) _ = Ok _ |- _ => apply res_map_text in H as [-> Ht] end.
  match goal with H : policy_index "allowed_models" _ = Ok _ |- _ => apply policy_index_get in H as [_ Hi] end.
  rewrite Ha in Hi. injection Hi as <-. split; [done|]. eexists. split; [done|].
  match goal with H : count_within _ _ _ = true |- _ =>
    unfold count_within in H; rewrite length_fmap, andb_true_iff, !Nat.leb_le in H end.
  split; [done|]. split; [by eapply bool_decide_eq_true|]. split; [done|]. split.
  - match goal with H : res_map (λ m, py_contains _ _) _ = Ok _ |- _ => apply res_map_Forall2 in H; rename H into Hc end.
    match goal with H : forallb id _ = true |- _ => rename H into Hf end.
    clear -Hc Hf. induction Hc as [|m b ms bs Hm Hc IH]; [done|]. simpl in Hf. apply andb_true_iff in Hf as [Hb Hf].
    constructor; [|by apply IH]. apply (contains_strs m allowed). by rewrite Hm, Hb.
  - intros field Hfield. cbn [fst] in Hfield.
    match goal with H : match assoc_get _ _POOL_ROLES with _ => _ end = Ok _ |- _ => rename H into Hh end.
    rewrite Hfield in Hh. res_inv.
    match goal with H : policy_index field _ = Ok _ |- _ => apply policy_index_get in H as [_ H] end.
    destruct x0 as [|m ms]; [done|]. exists m. split; [done|].
    match goal with H : py_eq _ _ = true |- _ => apply py_eq_str in H end. by subst.
Qed.

Lemma pools_ok p allowed v d :
  assoc_get "allowed_models" p = Some (strs allowed) → _validate_model_pools v p = Ok d →
  pools_typed p allowed (PDict d).
Proof.
  intros Ha. unfold _validate_model_pools. intros H. res_inv. subst. apply res_map_Forall2 in H.
  match goal with H : _ && _ = true |- _ => apply andb_true_iff in H as [Ht Hr] end.
  eexists. split; [done|]. split; [intros ->; by apply Forall2_nil_inv_r in H as ->|].
  rewrite forallb_forall in Hr. apply Forall_forall. intros r [i Hi]%list_elem_of_lookup.
  destruct (Forall2_lookup_r _ _ _ _ _ H Hi) as (q & Hq & Hv).
  eapply pool_ok; [done| |exact Hv]. by apply Hr, list_elem_of_In, list_elem_of_lookup_2 with i.
Qed.

Lemma refill_get k b refill v :
  assoc_get k (refill_kept b refill) = Some v → v = dict_get k refill ∧ has_key k b = true.
Proof.
  intros H. apply assoc_get_elem in H. apply list_elem_of_fmap in H as (q & [= -> ->] & Hq).
  split; [done|]. apply has_key_elem. by apply list_elem_of_fmap_2.
Qed.

Lemma refill_ok r refill b allowed :
  refill_normalize r = Ok refill → assoc_get "backlog_refill" r = Some (PDict b) →
  assoc_get "allowed_models" r = Some (strs allowed) → refill_typed allowed (refill_kept b refill).
Proof.
  unfold refill_normalize. intros H Hb Ha. rewrite (get_or_Some _ _ r _ Hb), (get_or_Some _ _ r _ Ha) in H.
  res_inv. match goal with H : PDict _ = PDict _ |- _ => injection H as <- end.
  match goal with H : dict_update _ _ = refill |- _ => rewrite H in * end.
  constructor.
  - rewrite refill_kept_keys. by apply keys_within_spec.
  - intros v [-> _]%refill_get. by eexists.
  - intros k low high Hin v [-> _]%refill_get.
    match goal with H : res_map _ _ = Ok _ |- _ => apply res_map_Forall2 in H; rename H into Hbs end.
    apply list_elem_of_lookup in Hin as [i Hi].
    destruct (Forall2_lookup_l _ _ _ _ _ Hbs Hi) as (u & _ & Hq%require_ok). simpl in Hq.
    destruct (dict_get k refill); try done. simpl in Hq. apply andb_true_iff in Hq as [?%Z.leb_le ?%Z.leb_le].
    by eexists.
  - intros v [-> Hm]%refill_get.
    match goal with H : match dict_get "model" refill with _ => _ end = Ok _ |- _ => rename H into Hmm end.
    destruct (dict_get "model" refill) as [| | | |m| | |]; try done. rewrite Hm, orb_true_r in Hmm. res_inv.
    exists m. split; [done|]. apply contains_strs. by subst.
  - intros v [-> _]%refill_get.
    match goal with H : pystr_in _ EFFORT_LEVELS = true |- _ => rename H into He end.
    destruct (dict_get "effort" refill); try done. apply bool_decide_eq_true in He. eauto.
Qed.

Lemma kept_at (P : string * pyval → Prop) key d f l :
  kept key d f = Ok l → (∀ v w, f v = Ok w → P (key, w)) → Forall P l.
Proof.
  unfold kept. destruct (assoc_get key d); intros H Hf; res_inv; subst; [|by constructor].
  repeat constructor. by eapply Hf.
Qed.

(** What one entry of a repository holds under its key. *)
Definition setting_typed (q : string * pyval) : Prop :=
  (q.1 ∈ ["enabled"; "paused"; "auto_merge"]%string → is_flag q.2) ∧
  (q.1 ∈ ["labels"; "exclude_labels"]%string → is_labels q.2) ∧
  (q.1 = "max_per_day"%string → is_int 1 10000 q.2) ∧ (q.1 = "max_tasks"%string → is_lanes q.2) ∧
  (q.1 ∈ ["task_budget_usd"; "turn_budget_usd"]%string → is_amount q.2) ∧
  (q.1 = "landing"%string → ∃ m, q.2 = PStr m ∧ m ∈ LANDING_MODES) ∧
  (q.1 = "charter"%string → ∃ c, q.2 = PStr c ∧ (String.length c ≤ 2000)%nat).

Ltac other_key := first [intros Hk; exfalso; revert Hk; by apply (bool_decide_unpack _)|by intros ?].
Ltac setting := unfold setting_typed; split_and!; cbn [fst snd]; try other_key; intros _.

Lemma settings_ok slug v d : _validate_repo_entry slug v = Ok d → Forall setting_typed d ∧ d.*1 ⊆ REPO_ENTRY_KEYS.
Proof.
  unfold _validate_repo_entry. intros H. res_inv. subst. split.
  - repeat (apply Forall_app; split); (eapply kept_at; [eassumption|]);
      (let Hw := fresh "Hw" in intros ? ? Hw; cbv beta in Hw; try res_inv; int_facts; subst; setting); try by eexists.
    + by eapply labels_typed.
    + by eapply labels_typed.
    + eexists. split; [done|]. by match goal with H : _validate_max_tasks _ = Ok _ |- _ =>
        apply validate_max_tasks_ok in H as (? & ? & _) end.
    + eexists. split; [done|]. by eapply money_ok.
    + eexists. split; [done|]. by eapply money_ok.
    + match goal with H : pystr_in ?w _ = true |- _ => destruct w; try done; apply bool_decide_eq_true in H end. eauto.
    + match goal with H : match ?w with _ => _ end = Ok _ |- _ => destruct w; try done end. res_inv. subst.
      eexists. split; [done|]. by apply Nat.leb_le.
  - repeat match goal with H : kept _ _ _ = Ok _ |- _ => apply kept_keys, sublist_subseteq in H end.
    rewrite !fmap_app. unfold REPO_ENTRY_KEYS. set_solver.
Qed.

Lemma entry_ok slug v d : _validate_repo_entry slug v = Ok d → repo_typed d.
Proof.
  intros [Hs Hk]%settings_ok. rewrite Forall_forall in Hs.
  assert (∀ k w, assoc_get k d = Some w → setting_typed (k, w)) as Hat by (intros ?? ?%assoc_get_elem; by apply Hs).
  constructor; [done|..]; intros; intros w (? & ? & ? & ? & ? & ? & ?)%Hat; auto.
Qed.

Lemma entries_ok prim p entries acc r :
  validate_entries prim p entries acc = Ok r → NoDup acc.*1 →
  Forall (λ q : string * pyval, normalize_repo (PStr q.1) = Ok q.1 ∧ ∃ e, q.2 = PDict e ∧ repo_typed e) acc →
  length r = (length acc + length entries)%nat ∧ NoDup r.*1 ∧
  Forall (λ q : string * pyval, normalize_repo (PStr q.1) = Ok q.1 ∧ ∃ e, q.2 = PDict e ∧ repo_typed e) r.
Proof.
  revert acc. induction entries as [|[raw e] entries IH]; intros acc; simpl.
  - intros [= <-] ??. by rewrite Nat.add_0_r.
  - intros H Hnd Hall. res_inv. destruct (IH _ H) as (Hl & ? & ?).
    + rewrite fmap_app. apply NoDup_app. split; [done|]. split; [|simpl; apply NoDup_singleton].
      intros k Hk ->%list_elem_of_singleton. simpl in *.
      match goal with H : negb (has_key _ _) = true |- _ => apply negb_true_iff in H end.
      apply has_key_elem in Hk. congruence.
    + apply Forall_app. split; [done|]. apply Forall_singleton. simpl.
      split; [by eapply normalize_repo_stable|]. eexists. split; [done|]. by eapply entry_ok.
    + rewrite length_app in Hl. simpl in Hl. split; [lia|done].
Qed.

Lemma repos_ok v p d : _validate_repos v p = Ok d → repos_typed (PDict d).
Proof.
  unfold _validate_repos. intros H. res_inv. subst.
  destruct (entries_ok _ _ _ _ _ H) as (Hl & ? & ?); [constructor..|]. eexists. split; [done|]. split; [|done].
  match goal with H : count_within _ _ _ = true |- _ =>
    unfold count_within in H; rewrite andb_true_iff, !Nat.leb_le in H end. simpl in Hl. lia.
Qed.

(** A kept key of a policy that stores it. *)
Lemma kept_typed (P : pyval → Prop) key d f l p :
  kept key d f = Ok l → assoc_get key p = assoc_get key l → (∀ v w, f v = Ok w → P w) → optional_at p key P.
Proof.
  intros Hl Hp HP v Hv. rewrite Hp in Hv. apply assoc_get_elem in Hv.
  pose proof (kept_at (λ q, P q.2) _ _ _ _ Hl HP) as Hf. rewrite Forall_forall in Hf. exact (Hf _ Hv).
Qed.
