(* ===== verification/PolicyClaims.v ===== *)
(** * Factory controls: what a refused policy raises

    Which exceptions leave [validate_policy], for every value posted to it.
    Then the properties of accepted policies, and concrete ones
    ([PolicyDemo]). *)

From Stdlib Require Import SpecFloat Ascii Sorting.Sorted.
From stdpp Require Import prelude list strings pretty.
From S2P Require Import Prelude PyValue ModelCatalog ModelPool PolicyData Policy PolicyFacts PolicyRoundtrip PolicyTypes.
Local Open Scope Z_scope.

#[local] Arguments _integer : simpl never.
#[local] Arguments _text : simpl never.
#[local] Arguments _money : simpl never.
#[local] Arguments normalize_repo : simpl never.

(** The two exceptions of the validators. *)
Definition refusal (e : exn) : Prop := (∃ msg, e = ValueError msg) ∨ e = OverflowError.
Definition refuses {A} (m : res A) : Prop := ∀ e, m = Raise e → refusal e.

Lemma refuses_ok {A} (a : A) : refuses (Ok a).
Proof. done. Qed.
Lemma refuses_value {A} msg : refuses (A := A) (Raise (ValueError msg)).
Proof. intros e [= <-]. left. eauto. Qed.
Lemma refuses_bind {A B} (m : res A) (f : A → res B) :
  refuses m → (∀ a, m = Ok a → refuses (f a)) → refuses (m ≫= f).
Proof.
  intros Hm Hf e He. destruct m as [a|e']; [by apply (Hf a)|].
  apply Hm. simpl in He. by injection He as ->.
Qed.
Lemma refuses_fmap {A B} (f : A → B) (m : res A) : refuses m → refuses (f <$> m).
Proof. intros Hm e He. destruct m as [a|e']; [done|]. apply Hm. simpl in He. by injection He as ->. Qed.
Lemma refuses_map {A B} (f : A → res B) l : (∀ x, x ∈ l → refuses (f x)) → refuses (res_map f l).
Proof.
  induction l as [|x l IH]; intros Hf; simpl; [apply refuses_ok|].
  apply refuses_bind; [apply Hf; left|]. intros y _. apply refuses_bind; [|done].
  apply IH. intros z Hz. apply Hf. by right.
Qed.
Lemma refuses_kept key d f : (∀ v, refuses (f v)) → refuses (kept key d f).
Proof. intros Hf. unfold kept. case_match; [|done]. by apply refuses_bind. Qed.

Create HintDb refuses.
#[export] Hint Resolve refuses_ok refuses_value : refuses.

(** Follow the control flow of a validator. *)
Ltac refuse_step :=
  match goal with
  | |- refuses (_ ≫= _) => apply refuses_bind; [|intros ? ?]
  | |- refuses (_ <$> _) => apply refuses_fmap
  | |- refuses (res_map _ _) => apply refuses_map; intros ? ?
  | |- refuses (kept _ _ _) => apply refuses_kept; intros ?
  | |- refuses (match ?x with _ => _ end) => destruct x eqn:?
  | |- refuses (if ?x then _ else _) => destruct x eqn:?
  | |- refuses _ => solve [eauto with refuses]
  end.
Ltac refuse := repeat (cbv beta zeta; refuse_step).

Lemma refuses_require b msg : refuses (require b msg).
Proof. unfold require. refuse. Qed.
Lemma refuses_as_dict v msg : refuses (as_dict v msg).
Proof. unfold as_dict. refuse. Qed.
Lemma refuses_bool v msg : refuses (_bool v msg).
Proof. unfold _bool. refuse. Qed.
Lemma refuses_integer v name low high : refuses (_integer v name low high).
Proof. unfold _integer. refuse. Qed.
Lemma refuses_text v name limit : refuses (_text v name limit).
Proof. unfold _text. refuse. Qed.
Lemma refuses_money v name zero : refuses (_money v name zero).
Proof.
  unfold _money. destruct v as [| |z|f| | | |]; simpl; try apply refuses_value.
  - unfold float_of_int, math_isfinite, to_float, float_of_int.
    destruct (f_is_finite (f_of_Z z)) eqn:E; simpl; rewrite ?E; simpl.
    + refuse.
    + intros e He. simpl in He. injection He as <-. by right.
  - unfold math_isfinite, to_float. refuse.
Qed.
Lemma refuses_normalize_repo v : refuses (normalize_repo v).
Proof. unfold normalize_repo. refuse. Qed.
#[export] Hint Resolve refuses_require refuses_as_dict refuses_bool refuses_integer refuses_text
  refuses_money refuses_normalize_repo : refuses.

Lemma refuses_max_tasks v : refuses (_validate_max_tasks v).
Proof. unfold _validate_max_tasks. refuse. Qed.
Lemma refuses_int_setting d k x l h : refuses (int_setting d k x l h).
Proof. unfold int_setting. refuse. Qed.
Lemma refuses_label_list v msg : refuses (label_list v msg).
Proof. unfold label_list. refuse. Qed.
Lemma refuses_role_effort v : refuses (_validate_role_effort v).
Proof. unfold _validate_role_effort. refuse. Qed.
Lemma refuses_batch v b : refuses (validate_refinement_batch v b).
Proof. unfold validate_refinement_batch. refuse. Qed.
Lemma refuses_owner v : refuses (owner_pr_author v).
Proof. unfold owner_pr_author. refuse. Qed.
Lemma refuses_authors v : refuses (dependency_pr_authors v).
Proof. unfold dependency_pr_authors. refuse. Qed.
Lemma refuses_ids v : refuses (dependency_pr_author_ids v).
Proof. unfold dependency_pr_author_ids. refuse. Qed.
#[export] Hint Resolve refuses_max_tasks refuses_int_setting refuses_label_list refuses_role_effort refuses_batch refuses_owner
  refuses_authors refuses_ids : refuses.
Lemma refuses_intake v : refuses (_validate_intake v).
Proof. unfold _validate_intake, intake_flag. refuse. Qed.
Lemma refuses_sources v : refuses (issue_sources v).
Proof. unfold issue_sources. refuse. Qed.
Lemma refuses_limits v : refuses (improvement_limits v).
Proof. unfold improvement_limits. refuse. Qed.
Lemma refuses_review v : refuses (improvement_review v).
Proof. unfold improvement_review. refuse. Qed.
Lemma refuses_scout v e q : refuses (improvement_scout v e q).
Proof. unfold improvement_scout. refuse. Qed.
#[export] Hint Resolve refuses_intake refuses_sources refuses_limits refuses_review refuses_scout : refuses.
Lemma refuses_problems v : refuses (_validate_problem_issues v).
Proof. unfold _validate_problem_issues. refuse. Qed.
Lemma refuses_quota v : refuses (_validate_quota_guard v).
Proof. unfold _validate_quota_guard. refuse. Qed.
Lemma refuses_watchdog v : refuses (_validate_progress_watchdog v).
Proof. unfold _validate_progress_watchdog. refuse. Qed.
Lemma refuses_entry slug v : refuses (_validate_repo_entry slug v).
Proof. unfold _validate_repo_entry. refuse. Qed.
#[export] Hint Resolve refuses_problems refuses_quota refuses_watchdog refuses_entry : refuses.

(** ** Blocks that read the policy around them *)

Lemma refuses_index k d : has_key k d = true → refuses (policy_index k d).
Proof. unfold has_key, policy_index. by destruct (assoc_get k d). Qed.

Lemma refuses_contains m l : refuses (py_contains m (strs l)).
Proof. done. Qed.

Lemma refuses_refill d l : assoc_get "allowed_models" d = Some (strs l) → refuses (refill_normalize d).
Proof.
  intros Ha. unfold refill_normalize. rewrite (get_or_Some "allowed_models" _ d _ Ha).
  refuse; apply refuses_contains.
Qed.

Lemma refuses_pools v d l :
  has_key "conductor_model" d = true → has_key "worker_model" d = true →
  assoc_get "allowed_models" d = Some (strs l) → refuses (_validate_model_pools v d).
Proof.
  intros Hc Hw Ha. unfold _validate_model_pools, validate_pool.
  assert (policy_index "allowed_models" d = Ok (strs l)) as Hi by (unfold policy_index; by rewrite Ha).
  refuse.
  - apply refuses_index.
    match goal with H : assoc_get _ _POOL_ROLES = Some _ |- _ => revert H end.
    unfold _POOL_ROLES. simpl. repeat case_bool_decide; by intros; simplify_eq.
  - by rewrite Hi.
  - match goal with H : policy_index "allowed_models" d = Ok _ |- _ => rewrite Hi in H; injection H as <- end.
    apply refuses_contains.
Qed.

(** The values a validated entry can hold under the keys that are compared. *)
Definition entry_typed (q : string * pyval) : Prop :=
  (q.1 ∈ ["labels"; "exclude_labels"]%string → ∃ l, q.2 = strs l) ∧
  (q.1 ∈ ["task_budget_usd"; "turn_budget_usd"]%string → ∃ f, q.2 = PFloat f).

Lemma entry_typed_ok slug v d : _validate_repo_entry slug v = Ok d → Forall entry_typed d.
Proof.
  unfold _validate_repo_entry. intros H. res_inv. subst.
  repeat (apply Forall_app; split); (eapply kept_at; [eassumption|]);
    (let Hw := fresh in intros ? ? Hw; cbv beta in Hw; split; simpl; intros Hk;
     try (exfalso; revert Hk; by apply (bool_decide_unpack _)); res_inv; subst; by eauto).
Qed.

Lemma entry_get k dflt d (P : pyval → Prop) :
  Forall entry_typed d → P dflt → (∀ w, entry_typed (k, w) → P w) → P (get_or k dflt d).
Proof.
  intros Hd Hp Hw. unfold get_or. destruct (assoc_get k d) as [w|] eqn:E; [|done].
  apply assoc_get_elem in E. rewrite Forall_forall in Hd. by apply Hw, Hd.
Qed.

Lemma refuses_lower_all l : refuses (lower_all (strs l)).
Proof. simpl. apply refuses_map. by intros x (s & -> & _)%list_elem_of_fmap. Qed.

Lemma intake_labels v i :
  _validate_intake v = Ok i → ∃ a b, dict_get "labels" i = strs a ∧ dict_get "exclude_labels" i = strs b.
Proof. unfold _validate_intake. intros H. res_inv. subst. by do 2 eexists. Qed.

Lemma refuses_resolve slug d prim r a b :
  Forall entry_typed d →
  assoc_get "task_budget_usd" r = Some (PFloat a) → assoc_get "turn_budget_usd" r = Some (PFloat b) →
  refuses (_resolve_repo_entry slug (PDict d) prim r).
Proof.
  intros Hd Ha Hb. unfold _resolve_repo_entry, intake_policy, lane_max_tasks, policy_index.
  rewrite Ha, Hb. apply refuses_bind; [apply refuses_intake|].
  intros i (la & lb & Hla & Hlb)%intake_labels.
  apply refuses_bind; [eauto with refuses|]. intros lanes _. do 2 (apply refuses_bind; [done|]; intros ? [= <-]).
  cbv zeta. rewrite Hla, Hlb. unfold dict_get at 1 2 3 4. cbn [assoc_get default bool_decide].
  repeat match goal with |- context [bool_decide (?k = ?k')] =>
    let b := eval vm_compute in (bool_decide (k = k')) in change (bool_decide (k = k')) with b end.
  cbv iota. cbn [default].
  apply refuses_bind.
  { apply (entry_get "labels" _ d (λ w, refuses (lower_all w)) Hd); [apply refuses_lower_all|].
    intros w [Hw _]. destruct Hw as [l Hw]; [set_solver|]. simpl in Hw. subst. apply refuses_lower_all. }
  intros ? _. apply refuses_bind.
  { apply (entry_get "exclude_labels" _ d (λ w, refuses (lower_all w)) Hd); [apply refuses_lower_all|].
    intros w [Hw _]. destruct Hw as [l Hw]; [set_solver|]. simpl in Hw. subst. apply refuses_lower_all. }
  intros ? _. apply refuses_bind; [eauto with refuses|]. intros ? _.
  apply refuses_bind; [|intros ? _; do 2 (apply refuses_bind; [apply refuses_require|]; intros ? _; cbv zeta);
    apply refuses_ok].
  apply (entry_get "turn_budget_usd" _ d (λ w, refuses (py_gt w _)) Hd);
    [|intros w [_ Hw]; destruct Hw as [f Hw]; [set_solver|]; simpl in Hw; subst];
    (apply (entry_get "task_budget_usd" _ d (λ w, refuses (py_gt _ w)) Hd); [done|];
     intros w [_ Hw]; destruct Hw as [g Hw]; [set_solver|]; simpl in Hw; by subst).
Qed.

Lemma refuses_repos v r a b :
  has_key "repo" r = true →
  assoc_get "task_budget_usd" r = Some (PFloat a) → assoc_get "turn_budget_usd" r = Some (PFloat b) →
  refuses (_validate_repos v r).
Proof.
  intros Hr Ha Hb. unfold _validate_repos.
  apply refuses_bind; [eauto with refuses|]. intros d _.
  apply refuses_bind; [eauto with refuses|]. intros _ _.
  apply refuses_bind; [by apply refuses_index|]. intros prim _.
  generalize (@nil (string * pyval)). induction d as [|[raw e] d IH]; intros acc; simpl; [done|].
  apply refuses_bind; [eauto with refuses|]. intros slug _.
  apply refuses_bind; [eauto with refuses|]. intros _ _.
  apply refuses_bind; [eauto with refuses|]. intros entry He.
  apply refuses_bind; [|auto]. eapply refuses_resolve; [by eapply entry_typed_ok|done..].
Qed.

(** ** The whole policy *)

Lemma refuses_sizes d :
  (∀ k, k ∈ required_keys → has_key k d = true) → refuses (policy_sizes d).
Proof.
  intros Hk. unfold policy_sizes. refuse; try (apply refuses_index, Hk; by apply (bool_decide_unpack _));
    eauto with refuses.
Qed.

Lemma refill_keys d r l : policy_refill d r = Ok l → l.*1 ⊆ ["backlog_refill"%string].
Proof.
  unfold policy_refill. intros H. res_inv. destruct (assoc_get _ d) as [[]|]; simplify_eq; set_solver.
Qed.

Lemma blocks_keys d r l : policy_blocks d r = Ok l → l.*1 ⊆ block_keys.
Proof.
  unfold policy_blocks. intros H. res_inv. subst.
  repeat match goal with H : kept _ _ _ = Ok _ |- _ => apply kept_keys, sublist_subseteq in H end.
  rewrite !fmap_app. unfold block_keys. set_solver.
Qed.

(** The stage values the later blocks read. *)
Lemma stage_reads s r later i k l v :
  later.*1 ⊆ late_keys → early_keys !! i = Some k → early_chunks s !! i = Some l →
  assoc_get k l = Some v →
  assoc_get k (dict_update (dict_update r (concat (early_chunks s))) later) = Some v.
Proof.
  intros Hl Hk Hi Hv. rewrite (update_other _ _ later).
  - rewrite assoc_get_update.
    + assert (bool_decide (NoDup early_keys) = true) as Hnd by done.
      pose proof (chunks_get _ _ Hnd (early_chunks_ok s)) as Hg.
      rewrite (Forall2_lookup_lr _ _ _ _ _ _ Hg Hk Hi). by rewrite Hv.
    + eapply sublist_NoDup; [|apply chunks_keys, early_chunks_ok]. by apply (bool_decide_unpack _).
  - intros Hin%Hl. assert (Forall (λ k, k ∉ late_keys) early_keys) as Hd by by apply (bool_decide_unpack _).
    rewrite Forall_forall in Hd. apply (Hd k); [|done]. by eapply list_elem_of_lookup_2.
Qed.

Lemma late_app (a b : dict) : a.*1 ⊆ late_keys → b.*1 ⊆ late_keys → (a ++ b).*1 ⊆ late_keys.
Proof. intros Ha Hb k. rewrite fmap_app, elem_of_app. intros [?%Ha|?%Hb]; done. Qed.

Lemma has_key_update k d e : has_key k d = true → has_key k (dict_update d e) = true.
Proof. rewrite !has_key_elem, dict_update_keys. auto. Qed.

Lemma refuses_policy v : refuses (validate_policy v).
Proof.
  unfold validate_policy. apply refuses_bind; [eauto with refuses|]. intros policy _.
  apply refuses_bind; [eauto with refuses|]. intros _ [Hk _]%require_ok%andb_true_iff.
  assert (∀ k, k ∈ required_keys → has_key k policy = true) as Hreq.
  { rewrite forallb_forall in Hk. intros k Hin%list_elem_of_In. by apply Hk. }
  assert (∀ k, bool_decide (k ∈ required_keys) = true → refuses (policy_index k policy)) as Hix.
  { intros k Hin%bool_decide_eq_true. by apply refuses_index, Hreq. }
  apply refuses_bind; [by apply Hix|]. intros conductor _. cbv zeta.
  set (r0 := if has_key "reviewer_model" policy then _ else _).
  assert (∀ k, has_key k policy = true → has_key k r0 = true) as Hr0.
  { intros k Hkp. subst r0. destruct (has_key "reviewer_model" policy); [done|].
    by apply (has_key_update _ _ [("reviewer_model"%string, conductor)]). }
  apply refuses_bind; [by apply Hix|]. intros ? _. apply refuses_bind; [eauto with refuses|]. intros repo _.
  apply refuses_bind; [unfold policy_issues, intake_policy; refuse; by apply Hix|]. intros issues _.
  apply refuses_bind; [by apply Hix|]. intros ? _. apply refuses_bind; [eauto with refuses|]. intros lanes _.
  apply refuses_bind; [by apply refuses_sizes|]. intros sizes (z & -> & _)%policy_sizes_inv.
  apply refuses_bind; [unfold policy_budgets; refuse; by apply Hix|]. intros [task turn] _.
  apply refuses_bind; [unfold policy_models; refuse; by apply Hix|]. intros allowed _.
  set (s := mkStored repo issues lanes z task turn allowed [] [] [] [] [] [] [] false [] [] "").
  change allowed with (st_allowed s). change task with (st_task s). change turn with (st_turn s).
  change repo with (st_repo s). change issues with (st_issues s). change lanes with (st_lanes s).
  change z with (st_sizes s). rewrite <-(early_concat s). clearbody s.
  apply refuses_bind.
  { unfold policy_refill. apply refuses_bind; [|intros ? _; refuse].
    eapply refuses_refill, (stage_reads s r0 [] 15%nat); [by intros ? ?%elem_of_nil|done..]. }
  intros refill Hrefill%refill_keys. cbv beta.
  assert (refill.*1 ⊆ late_keys) as Hl1
    by (intros k ->%Hrefill%list_elem_of_singleton; by apply (bool_decide_unpack _)).
  apply refuses_bind; [unfold policy_roles; refuse; by apply Hix|]. intros _ _.
  apply refuses_bind.
  { unfold policy_blocks. refuse. eapply refuses_pools; [apply has_key_update, has_key_update, Hr0, Hreq..|].
    - by apply (bool_decide_unpack _).
    - by apply (bool_decide_unpack _).
    - by eapply (stage_reads s r0 refill 15%nat). }
  intros blocks Hblocks%blocks_keys. cbv beta.
  assert ((refill ++ blocks).*1 ⊆ late_keys) as Hl2
    by (apply late_app; [done|]; intros k Hk'%Hblocks; unfold late_keys; rewrite !elem_of_app; auto).
  apply refuses_bind.
  { refuse. rewrite <-dict_update_app. eapply refuses_repos.
    - apply has_key_update, has_key_update, Hr0, Hreq. by apply (bool_decide_unpack _).
    - by eapply (stage_reads s r0 _ 13%nat).
    - by eapply (stage_reads s r0 _ 14%nat). }
  intros repos Hrepos%kept_keys%sublist_subseteq. cbv beta.
  assert (((refill ++ blocks) ++ repos).*1 ⊆ late_keys) as Hl3.
  { apply late_app; [done|]. intros k ->%Hrepos%list_elem_of_singleton. by apply (bool_decide_unpack _). }
  apply refuses_bind; [|intros ? _; refuse; by apply Hix].
  rewrite <-(dict_update_app _ refill), <-(dict_update_app _ (refill ++ blocks)). unfold dict_get.
  erewrite (stage_reads s r0 _ 4%nat), (stage_reads s r0 _ 6%nat) by done.
  simpl. by rewrite py_gt_ints.
Qed.

(** * Factory controls: properties of accepted policies *)

#[local] Arguments _integer : simpl never.
#[local] Arguments _text : simpl never.
#[local] Arguments _money : simpl never.
#[local] Arguments normalize_repo : simpl never.

(** ** Stored policies *)

(** C31: An accepted policy is its own normal form: posting the stored policy
    again gives the same dictionary, as long as the operator set the planner cap
    or the turn envelope it is inherited from is at most 100. *)
Theorem validate_policy_roundtrip d p :
  validate_policy (PDict d) = Ok p →
  (has_key "max_planner_turns" d = true ∨
   ∃ h, assoc_get "max_task_turns_hard" p = Some (PInt h) ∧ h ≤ 100) →
  validate_policy (PDict p) = Ok p.
Proof.
  intros (d' & s & [= <-] & Hch & H)%validate_policy_inv Hor. rewrite (validate_again d p s Hch H).
  pose proof (acc_planner _ _ _ H) as Hp. rewrite (proj2 (Z.leb_le _ _)); [done|].
  unfold has_key in Hor. destruct (assoc_get "max_planner_turns" d); [done|]. rewrite Hp.
  destruct Hor as [?|(h & Hh & Hle)]; [done|].
  rewrite (again_get d p s Hch H 8 _ _ eq_refl eq_refl) in Hh. injection Hh as <-. lia.
Qed.

(** A policy that leaves the planner cap out inherits the turn envelope, up
    to 500, while a written cap may be at most 100.  Such a policy is accepted and
    stored, and every later validation of the stored policy raises. *)
Theorem inherited_planner_cap_refused d p h :
  validate_policy (PDict d) = Ok p → assoc_get "max_planner_turns" d = None →
  assoc_get "max_task_turns_hard" p = Some (PInt h) → 100 < h →
  assoc_get "max_planner_turns" p = Some (PInt h) ∧
  validate_policy (PDict p) = Raise (ValueError "invalid max_planner_turns").
Proof.
  intros (d' & s & [= <-] & Hch & H)%validate_policy_inv Hn Hh Hlt.
  pose proof (acc_planner _ _ _ H) as Hp. rewrite Hn in Hp.
  rewrite (again_get d p s Hch H 8 _ _ eq_refl eq_refl) in Hh. injection Hh as <-.
  split; [rewrite (again_get d p s Hch H 10 _ _ eq_refl eq_refl); cbn; by rewrite Hp|].
  rewrite (validate_again d p s Hch H), Hp. by rewrite (proj2 (Z.leb_gt _ _)).
Qed.

(** C37: Whatever value is posted, [validate_policy] raises nothing but
    [ValueError] or, for an amount outside the range of a float,
    [OverflowError]: no key, type or attribute error escapes it. *)
Theorem validate_policy_raises v e :
  validate_policy v = Raise e → (∃ msg, e = ValueError msg) ∨ e = OverflowError.
Proof. apply refuses_policy. Qed.

(** ** The type of a stored policy *)

(** Every field of a stored policy, with its type and range. *)
Record policy_typed (p : dict) : Prop := mkTyped
  { pt_keys : p.*1 ⊆ _POLICY_KEYS;
    pt_repo : ∃ r, assoc_get "repo" p = Some (PStr r) ∧ normalize_repo (PStr r) = Ok r;
    pt_issues : ∃ l, assoc_get "issue_numbers" p = Some (ints l) ∧ (length l ≤ 100)%nat ∧
                  Forall (λ z, 1 ≤ z ≤ MAX_INT32) l ∧ sorted_ints l = l;
    pt_lanes : ∃ l, assoc_get "max_tasks" p = Some (lanes_dict l) ∧
                 1 ≤ ln_delivery l ≤ 100 ∧ 0 ≤ ln_advisory l ≤ 100;
    pt_generation : int_between_at p "generation" 0 MAX_INT32;
    pt_soft : optional_at p "max_turns_per_task" (is_int 1 100);
    pt_attempts : int_between_at p "max_attempts" 1 10;
    pt_turns : int_between_at p "max_task_turns_hard" 1 500;
    pt_parallel : int_between_at p "max_parallel_nodes" 1 8;
    pt_planner : int_between_at p "max_planner_turns" 1 500;
    pt_rounds : int_between_at p "max_review_rounds" 0 10;
    pt_recovery : int_between_at p "max_review_recovery_rounds" 0 2;
    pt_timeouts : ∃ turn task, assoc_get "turn_timeout_seconds" p = Some (PInt turn) ∧
                    assoc_get "task_timeout_seconds" p = Some (PInt task) ∧
                    1 ≤ turn ≤ 43200 ∧ turn ≤ task ∧ task ≤ 86400;
    pt_budgets : ∃ task turn, assoc_get "task_budget_usd" p = Some (PFloat task) ∧
                   assoc_get "turn_budget_usd" p = Some (PFloat turn) ∧
                   f_is_finite task = true ∧ f_is_finite turn = true ∧
                   flt fzero turn = true ∧ flt task turn = false;
    pt_models : ∃ l, assoc_get "allowed_models" p = Some (strs l) ∧ (1 ≤ length l ≤ 16)%nat ∧
                  Forall (text_ok 128) l ∧ sorted_strs l = l ∧
                  (∀ role, role ∈ ["conductor_model"; "reviewer_model"; "worker_model"]%string →
                    ∃ m, assoc_get role p = Some (PStr m) ∧ m ∈ l) ∧
                  optional_at p "model_pools" (pools_typed p l) ∧
                  optional_at p "backlog_refill" (λ v, ∃ d, v = PDict d ∧ refill_typed l d);
    pt_effort : optional_at p "role_effort" effort_typed;
    pt_intake : block_at p "intake" intake_typed;
    pt_problems : block_at p "problem_issues" problems_typed;
    pt_quota : block_at p "quota_guard" quota_typed;
    pt_watchdog : block_at p "progress_watchdog" watchdog_typed;
    pt_binding : optional_at p "task_budget_binding" is_flag;
    pt_repos : optional_at p "repos" repos_typed;
    pt_auto_merge : ∃ b, assoc_get "auto_merge" p = Some (PBool b);
    pt_base : ∃ b, assoc_get "base_branch" p = Some (PStr b) ∧ text_ok 256 b }.

Lemma pystr_in_Some v l : pystr_in v l = true → ∃ m, v = PStr m ∧ m ∈ l.
Proof. destruct v; try done. simpl. intros H%bool_decide_eq_true. eauto. Qed.

Lemma dict_get_Some k d s : dict_get k d = PStr s → assoc_get k d = Some (PStr s).
Proof. unfold dict_get. destruct (assoc_get k d); simpl; [by intros ->|done]. Qed.

Lemma roles_allowed p l :
  policy_roles p p l = Ok tt → ∀ role, role ∈ ["conductor_model"; "reviewer_model"; "worker_model"]%string →
  ∃ m, assoc_get role p = Some (PStr m) ∧ m ∈ l.
Proof.
  unfold policy_roles. intros H. res_inv.
  repeat match goal with
  | H : policy_index _ _ = Ok _ |- _ => apply policy_index_get in H as [_ H]
  | H : pystr_in _ _ = true |- _ => apply pystr_in_Some in H as (? & ? & ?)
  end. subst.
  match goal with H : dict_get _ _ = _ |- _ => apply dict_get_Some in H end.
  intros role. rewrite !elem_of_cons. intros [->|[->|[->|[]%elem_of_nil]]]; eauto.
Qed.

Lemma issues_ok d l :
  policy_issues d = Ok l → (length l ≤ 100)%nat ∧ Forall (λ z, 1 ≤ z ≤ MAX_INT32) l ∧ sorted_ints l = l.
Proof.
  unfold policy_issues. intros H. apply res_bind_ok in H as (v & _ & H).
  destruct v as [| | | | |vs| |]; try done. res_inv.
  match goal with H : res_map _ _ = Ok _ |- _ => apply res_map_integers in H as [-> Hz] end.
  match goal with H : (_ <=? _)%nat = true |- _ => apply Nat.leb_le in H; rewrite length_fmap in H end.
  subst. split_and!; [|by apply Forall_sorted_ints|by rewrite sorted_ints_idem].
  etrans; [apply length_sorted_ints|done].
Qed.

Lemma models_ok d l :
  policy_models d = Ok l → (1 ≤ length l ≤ 16)%nat ∧ Forall (text_ok 128) l ∧ sorted_strs l = l.
Proof.
  unfold policy_models. intros H. apply res_bind_ok in H as (v & _ & H).
  destruct v as [| | | | |vs| |]; try done. res_inv.
  match goal with H : res_map _ _ = Ok _ |- _ => apply res_map_text in H as [-> Ht] end.
  match goal with H : count_within _ _ _ = true |- _ =>
    unfold count_within in H; rewrite length_fmap, andb_true_iff, !Nat.leb_le in H end.
  subst. split; [|split; [by apply Forall_sorted_strs|apply sorted_strs_idem]].
  split; [|etrans; [apply length_sorted_strs|lia]].
  destruct x0 as [|n ns]; [simpl in *; lia|].
  pose proof (proj2 (elem_of_sorted_strs (n :: ns) n) (list_elem_of_here _ _)) as Hn.
  destruct (sorted_strs _); [by apply elem_of_nil in Hn|]. simpl. lia.
Qed.

Section typed.
Context (policy p : dict) (s : Stored).
Hypothesis Hch : chunks stored_keys (stored_chunks s).
Hypothesis H : accepted policy s p.
Let Hg i k l := again_get policy p s Hch H i k l.

Lemma refill_stored : optional_at p "backlog_refill" (λ v, ∃ d, v = PDict d ∧ refill_typed (st_allowed s) d).
Proof using Hch H.
  intros v Hv. pose proof (again_refill policy p s Hch H) as Hr. unfold policy_refill in Hr.
  rewrite Hv in Hr. pose proof Hv as Hv'. rewrite (Hg 16%nat _ _ eq_refl eq_refl) in Hv. res_inv.
  destruct v as [| | | | | |d|]; res_inv; try by (rewrite <-Hr in Hv).
  rewrite <-Hr in Hv. simpl in Hv. injection Hv as Hv. exists d. split; [done|]. rewrite <-Hv.
  eapply refill_ok; [eassumption|done|]. by rewrite (Hg 15%nat _ _ eq_refl eq_refl).
Qed.

Lemma pools_stored : optional_at p "model_pools" (pools_typed p (st_allowed s)).
Proof using Hch H.
  destruct (acc_blocks _ _ _ H) as (Hp & _).
  eapply kept_typed; [exact Hp|exact (Hg 17%nat _ _ eq_refl eq_refl)|].
  intros v w (r & E & ->)%res_fmap_ok. eapply pools_ok.
  - by rewrite (Hg 15%nat _ _ eq_refl eq_refl).
  - exact (model_pools_stable _ _ p _ (again_refilled _ _ _ Hch H pool_reads eq_refl) E).
Qed.

Lemma blocks_stored :
  optional_at p "role_effort" effort_typed ∧ block_at p "intake" intake_typed ∧
  block_at p "problem_issues" problems_typed ∧ block_at p "quota_guard" quota_typed ∧
  block_at p "progress_watchdog" watchdog_typed ∧ optional_at p "task_budget_binding" is_flag ∧
  optional_at p "repos" repos_typed.
Proof using Hch H.
  destruct (acc_blocks _ _ _ H) as (_ & He & Hi & Hpr & Hq & Hw & Hb).
  unfold block_at. rewrite (Hg 19%nat _ _ eq_refl eq_refl), (Hg 20%nat _ _ eq_refl eq_refl),
    (Hg 21%nat _ _ eq_refl eq_refl), (Hg 22%nat _ _ eq_refl eq_refl).
  split_and!; [|eexists; split; [done|]..| |].
  - eapply kept_typed; [exact He|exact (Hg 18%nat _ _ eq_refl eq_refl)|].
    intros v w (r & E & ->)%res_fmap_ok. by eapply effort_ok.
  - by eapply intake_ok.
  - by eapply problems_ok.
  - by eapply quota_ok.
  - by eapply watchdog_ok.
  - eapply kept_typed; [exact Hb|exact (Hg 24%nat _ _ eq_refl eq_refl)|].
    intros v w (r & _ & ->)%res_fmap_ok. by eexists.
  - eapply kept_typed; [exact (acc_repos _ _ _ H)|exact (Hg 25%nat _ _ eq_refl eq_refl)|].
    intros v w (r & E & ->)%res_fmap_ok. by eapply repos_ok.
Qed.
End typed.

(** C36: Every field of an accepted policy has its type and is in its range:
    the repository, issue numbers, lane counts, turn, attempt, round and time
    limits, budgets and models, and key by key the intake, problem issues,
    quota guard, progress watchdog, model pools, role effort, refill and
    repository blocks.  The fields that bound one another agree: the turn budget
    and timeout are at most the task's, the conductor, reviewer and worker models
    and every pooled model are allowed models, a pool starts with its role's
    model, the quota guard resumes below where it pauses, and an enabled scout
    has its charter issue and caps. *)
Theorem validate_policy_typed v p : validate_policy v = Ok p → policy_typed p.
Proof.
  intros (d & s & -> & Hch & H)%validate_policy_inv.
  pose proof (λ i k l, again_get d p s Hch H i k l) as Hg.
  destruct (acc_sizes_ok _ _ _ H) as (?&?&?&?&Hsoft&?&?&?&?&?). pose proof (acc_timeout _ _ _ H).
  pose proof (acc_budgets _ _ _ H) as Hb. unfold policy_budgets in Hb. res_inv. simplify_eq.
  repeat match goal with H : _money _ _ _ = Ok _ |- _ => apply money_ok in H as [? ?] end.
  destruct (blocks_stored d p s Hch H) as (?&?&?&?&?&?&?).
  constructor; unfold int_between_at; try assumption.
  - pose proof (again_keys d p s Hch H) as [_ Hk]%andb_true_iff. by apply keys_within_spec.
  - rewrite (Hg 0%nat _ _ eq_refl eq_refl). eexists. split; [done|]. by eapply normalize_repo_stable, (acc_repo _ _ _ H).
  - rewrite (Hg 1%nat _ _ eq_refl eq_refl). eexists. split; [done|]. eapply issues_ok, (acc_issues _ _ _ H).
  - rewrite (Hg 2%nat _ _ eq_refl eq_refl). eexists. split; [done|].
    destruct (validate_max_tasks_ok _ _ (acc_lanes _ _ _ H)) as (? & ? & _). done.
  - rewrite (Hg 3%nat _ _ eq_refl eq_refl). by eexists.
  - intros w. rewrite (Hg 7%nat _ _ eq_refl eq_refl). destruct (sz_soft (st_sizes s)); [|done].
    intros [= <-]. by eexists.
  - rewrite (Hg 5%nat _ _ eq_refl eq_refl). by eexists.
  - rewrite (Hg 8%nat _ _ eq_refl eq_refl). by eexists.
  - rewrite (Hg 9%nat _ _ eq_refl eq_refl). by eexists.
  - rewrite (Hg 10%nat _ _ eq_refl eq_refl). by eexists.
  - rewrite (Hg 11%nat _ _ eq_refl eq_refl). by eexists.
  - rewrite (Hg 12%nat _ _ eq_refl eq_refl). by eexists.
  - rewrite (Hg 4%nat _ _ eq_refl eq_refl), (Hg 6%nat _ _ eq_refl eq_refl).
    do 2 eexists. split; [done|]. split; [done|]. lia.
  - rewrite (Hg 13%nat _ _ eq_refl eq_refl), (Hg 14%nat _ _ eq_refl eq_refl).
    do 2 eexists. split; [done|]. split; [done|]. split_and!; try done.
    by apply negb_true_iff.
  - rewrite (Hg 15%nat _ _ eq_refl eq_refl). eexists. split; [done|].
    destruct (models_ok _ _ (acc_models _ _ _ H)) as (? & ? & ?). split_and!; try done; try lia.
    + apply roles_allowed, (again_roles d p s Hch H).
    + apply (pools_stored d p s Hch H).
    + apply (refill_stored d p s Hch H).
  - rewrite (Hg 23%nat _ _ eq_refl eq_refl). by eexists.
  - rewrite (Hg 26%nat _ _ eq_refl eq_refl). eexists. split; [done|].
    by pose proof (acc_base _ _ _ H) as [_ ?]%text_ok_iff.
Qed.

(** ** Repositories *)

Lemma lower_all_strs l : lower_all (strs l) = Ok (py_lower <$> l).
Proof.
  unfold lower_all, strs. induction l as [|s l IH]; [done|]. rewrite !fmap_cons. simpl in *. by rewrite IH.
Qed.

Lemma existsb_lower a b :
  existsb (λ l, str_in l (py_lower <$> b)) (py_lower <$> a) = overlap a b.
Proof. unfold overlap. induction a as [|s a IH]; [done|]. rewrite fmap_cons. simpl. by rewrite IH. Qed.

(** The entry a repository gets when it overrides nothing. *)
Lemma resolve_default slug prim p i lanes task turn la ex :
  intake_policy p = Ok i → dict_get "labels" i = strs la → dict_get "exclude_labels" i = strs ex →
  overlap la ex = false → lane_max_tasks p = Ok lanes →
  assoc_get "task_budget_usd" p = Some (PFloat task) → assoc_get "turn_budget_usd" p = Some (PFloat turn) →
  flt task turn = false → ∃ e, _resolve_repo_entry slug (PDict []) prim p = Ok e.
Proof.
  intros Hi Hla Hex Hov Hl Htask Hturn Hle. unfold _resolve_repo_entry, policy_index.
  rewrite Htask, Hturn. eexists.
  eapply bind_step; [exact Hi|]. cbv beta. eapply bind_step; [exact Hl|]. cbv beta.
  do 2 (eapply bind_step; [done|]; cbv beta zeta). rewrite Hla, Hex.
  eapply bind_step; [apply lower_all_strs|]. cbv beta. eapply bind_step; [apply lower_all_strs|]. cbv beta.
  eapply bind_step; [apply (require_ok _ _ tt); by rewrite existsb_lower, Hov|]. cbv beta.
  eapply (bind_step _ _ false); [exact (f_equal Ok Hle)|]. cbv beta.
  eapply bind_step; [done|]. cbv beta.
  eapply bind_step; [|done]. apply (require_ok _ _ tt). by destruct (is_true _).
Qed.

(** What every effective entry satisfies. *)
Definition entry_safe (e : dict) : Prop :=
  py_gt (dict_get "turn_budget_usd" e) (dict_get "task_budget_usd" e) = Ok false ∧
  (∃ la ex, lower_all (dict_get "labels" e) = Ok la ∧ lower_all (dict_get "exclude_labels" e) = Ok ex ∧
     ∀ l, l ∈ la → l ∉ ex) ∧
  (dict_get "auto_merge" e = PBool true → py_eq (dict_get "landing" e) (PStr "merge_queue") = true).

Lemma resolve_safe slug v prim p e : _resolve_repo_entry slug v prim p = Ok e → entry_safe e.
Proof.
  unfold _resolve_repo_entry. intros H. apply res_bind_ok in H as (i & _ & H).
  destruct v as [| | | | | |d|]; try done. res_inv. subst.
  match goal with H : negb ?b = true |- _ => destruct b eqn:?; [done|] end.
  match goal with H : negb (existsb _ _) = true |- _ => apply negb_true_iff in H; rename H into Hov end.
  split; [|split].
  - done.
  - do 2 eexists. split; [eassumption|]. split; [eassumption|]. intros l Hl Hx.
    apply not_true_iff_false in Hov. apply Hov, existsb_exists. exists l.
    split; [by apply list_elem_of_In|]. by apply bool_decide_eq_true.
  - intros Ha. change (PBool (is_true
        match assoc_get "auto_merge" d with
        | Some v => v
        | None => if prim then get_or "auto_merge" (PBool DEFAULT_AUTO_MERGE) p else PBool DEFAULT_AUTO_MERGE
        end) = PBool true) in Ha.
    injection Ha as Ha.
    match goal with H : negb _ || _ = true |- _ =>
      rewrite Ha in H; rewrite !Ha; exact H end.
Qed.

(** Every entry kept by the loop resolves against the policy. *)
Definition resolves (primary : pyval) (p : dict) (q : string * pyval) : Prop :=
  ∃ e, _resolve_repo_entry q.1 q.2 (py_eq (PStr q.1) primary) p = Ok e.

Lemma validate_entries_resolve primary d entries acc r :
  Forall (resolves primary d) acc → NoDup acc.*1 →
  validate_entries primary d entries acc = Ok r → Forall (resolves primary d) r ∧ NoDup r.*1.
Proof.
  revert acc. induction entries as [|[raw e] entries IH]; intros acc Hacc Hnd; simpl; [by intros [= <-]|].
  intros H. res_inv. eapply IH; [| |exact H].
  - apply Forall_app. split; [done|]. constructor; [|done]. by eexists.
  - rewrite fmap_app. apply NoDup_app. split; [done|]. split; [|apply NoDup_singleton].
    intros k Hk ->%list_elem_of_singleton. simpl in Hk. apply has_key_elem in Hk. by rewrite Hk in *.
Qed.

Lemma normalized_not_empty v s : normalize_repo v = Ok s → s ≠ ""%string.
Proof. intros H%normalize_repo_stable ->. done. Qed.

Lemma dict_del_keys {A} k (d : list (string * A)) :
  NoDup d.*1 → k ∉ (dict_del k d).*1 ∧ NoDup (dict_del k d).*1.
Proof.
  intros Hnd. unfold dict_del. split.
  - intros (q & Hq & [Hne _]%list_elem_of_filter)%list_elem_of_fmap. by subst.
  - eapply sublist_NoDup; [exact Hnd|]. by apply fmap_sublist, sublist_filter.
Qed.

Lemma stored_repos_ok policy p s :
  chunks stored_keys (stored_chunks s) → accepted policy s p → ∃ stored,
    match dict_get "repos" p with PDict d => d | _ => [] end = stored ∧
    Forall (resolves (PStr (st_repo s)) p) stored ∧ NoDup stored.*1.
Proof.
  intros Hch H. unfold dict_get. rewrite (again_get _ _ _ Hch H 25%nat _ _ eq_refl eq_refl).
  pose proof (again_repos _ _ _ Hch H) as Hr. pose proof (again_get _ _ _ Hch H 25%nat _ _ eq_refl eq_refl) as Hg.
  cbn [stored_chunks] in Hg. unfold kept in Hr. rewrite Hg in Hr.
  destruct (assoc_get "repos" (st_repos s)) as [v|] eqn:Es; [|exists []; split; [done|]; by repeat constructor].
  res_inv. match goal with H : PDict <$> _ = Ok _ |- _ => apply res_fmap_ok in H as (r & Hv & ->) end.
  unfold _validate_repos in Hv. res_inv. subst.
  match goal with H : [_] = st_repos s |- _ => rewrite <-H in Es; injection Es as -> end.
  match goal with H : policy_index "repo" p = Ok _ |- _ =>
    unfold policy_index in H; rewrite (again_get _ _ _ Hch (ltac:(eassumption)) 0%nat _ _ eq_refl eq_refl) in H;
    injection H as <- end.
  eexists. split; [done|]. eapply validate_entries_resolve; [| |exact Hv]; by constructor.
Qed.

Lemma intake_disjoint v i :
  _validate_intake v = Ok i → ∃ la ex, dict_get "labels" i = strs la ∧
    dict_get "exclude_labels" i = strs ex ∧ overlap la ex = false.
Proof.
  unfold _validate_intake. intros H. res_inv. subst. do 2 eexists. split; [done|]. split; [done|].
  by apply negb_true_iff.
Qed.

Lemma primary_resolves policy p s slug prim :
  chunks stored_keys (stored_chunks s) → accepted policy s p →
  ∃ e, _resolve_repo_entry slug (PDict []) prim p = Ok e.
Proof.
  intros Hch H. destruct (acc_blocks _ _ _ H) as (_ & _ & Hi & _).
  destruct (intake_disjoint _ _ Hi) as (la & ex & Hla & Hex & Hov).
  pose proof (again_budgets _ _ _ Hch H) as Hb. unfold policy_budgets in Hb. res_inv.
  eapply resolve_default; [exact (again_intake _ _ _ Hch H)|exact Hla|exact Hex|exact Hov| | | |].
  - unfold lane_max_tasks, get_or. rewrite (again_get _ _ _ Hch H 2%nat _ _ eq_refl eq_refl).
    eapply max_tasks_stable, (acc_lanes _ _ _ H).
  - by rewrite (again_get _ _ _ Hch H 13%nat _ _ eq_refl eq_refl).
  - by rewrite (again_get _ _ _ Hch H 14%nat _ _ eq_refl eq_refl).
  - simplify_eq. by apply negb_true_iff.
Qed.

Lemma resolves_map primary p (stored : dict) :
  Forall (resolves (PStr primary) p) stored → ∃ m,
    res_map (λ q : string * pyval,
      entry ← _resolve_repo_entry q.1 q.2 (bool_decide (Some q.1 = Some primary)) p;
      Ok (q.1, entry)) stored = Ok m ∧ m.*1 = stored.*1 ∧ Forall (λ q, entry_safe q.2) m.
Proof.
  induction 1 as [|[k v] stored [e He] Hs (m & Hm & Hk & Hsafe)]; [by exists []|].
  exists ((k, e) :: m). simpl in *.
  assert (bool_decide (Some k = Some primary) = bool_decide (k = primary)) as ->
    by (apply bool_decide_ext; naive_solver).
  rewrite He. simpl. rewrite Hm. simpl. split; [done|]. split; [exact (f_equal (cons k) Hk)|].
  constructor; [|done]. by eapply resolve_safe.
Qed.

(** An accepted policy always resolves its repositories: the map exists, lists
    the primary first and each repository once, and in every effective entry
    the turn budget is within the task budget, no label is both wanted and
    excluded, and automatic merging goes through the merge queue. *)
Theorem repos_map_total v p :
  validate_policy v = Ok p → ∃ m primary,
    repos_map p = Ok m ∧ assoc_get "repo" p = Some (PStr primary) ∧ head m.*1 = Some primary ∧
    NoDup m.*1 ∧ Forall (λ q, entry_safe q.2) m.
Proof.
  intros (policy & s & -> & Hch & H)%validate_policy_inv.
  pose proof (again_get _ _ _ Hch H 0%nat _ _ eq_refl eq_refl) as Hrepo.
  destruct (stored_repos_ok _ _ _ Hch H) as (stored & Hst & Hres & Hnd).
  assert (normalize_repo (PStr (st_repo s)) = Ok (st_repo s)) as Hn
    by (eapply normalize_repo_stable, (acc_repo _ _ _ H)).
  assert (truthy (PStr (st_repo s)) = true) as Ht.
  { apply negb_true_iff, bool_decide_eq_false, (normalized_not_empty _ _ Hn). }
  unfold repos_map, primary_slug, _stored_repos. rewrite Hst. unfold dict_get. rewrite Hrepo.
  change (default PNone (assoc_get "repo" [("repo"%string, PStr (st_repo s))])) with (PStr (st_repo s)).
  rewrite Ht. cbn [negb]. rewrite Hn. cbn [mbind res_bind fmap res_fmap].
  destruct (resolves_map (st_repo s) p
    ((st_repo s, get_or (st_repo s) (PDict []) stored) :: dict_del (st_repo s) stored)) as (m & Hm & Hk & Hsafe).
  { constructor; [|apply Forall_forall; intros q [_ Hq]%list_elem_of_filter; rewrite Forall_forall in Hres; auto].
    unfold get_or. destruct (assoc_get (st_repo s) stored) as [w|] eqn:E.
    - apply assoc_get_elem in E. rewrite Forall_forall in Hres. by apply Hres in E.
    - eapply primary_resolves; done. }
  exists m, (st_repo s). split; [exact Hm|]. split; [done|]. rewrite Hk.
  destruct (dict_del_keys (st_repo s) stored Hnd) as [Hni Hnd'].
  split; [done|]. split; [|done]. by constructor.
Qed.

(** * Factory controls: concrete policies *)

Module PolicyDemo.

(** A policy as an operator posts it: the planner cap is left out. *)
Definition posted (hard : Z) (task_budget : pyval) : dict := [
  ("repo", PStr "Jomcgi-Org/Homelab"); ("issue_numbers", PList [PInt 12; PInt 7; PInt 12]);
  ("generation", PInt 3); ("max_tasks", PInt 2); ("max_task_turns_hard", PInt hard);
  ("task_budget_usd", task_budget); ("turn_budget_usd", PInt 2);
  ("allowed_models", PList [PStr "opus"; PStr "luna"; PStr "opus"]);
  ("conductor_model", PStr "opus"); ("worker_model", PStr "luna"); ("base_branch", PStr "main");
  ("turn_timeout_seconds", PInt 600); ("max_attempts", PInt 3); ("task_timeout_seconds", PInt 7200);
  ("backlog_refill", PDict [("min_eligible", PInt 9)]);
  ("auto_merge", PBool true);
  ("repos", PDict [("Weave-Hand/Loom", PDict [("enabled", PBool true); ("labels", PList [PStr "loom"])])]) ]%string.

Definition accepted_policy (d : dict) : dict :=
  match validate_policy (PDict d) with Ok p => p | Raise _ => [] end.
Notation small := (posted 40 (PInt 25)).
Notation large := (posted 300 (PInt 25)).

Example posted_normalized :
  dict_get "repo" (accepted_policy small) = PStr "jomcgi-org/homelab" ∧
  dict_get "issue_numbers" (accepted_policy small) = ints [7; 12] ∧
  dict_get "max_planner_turns" (accepted_policy small) = PInt 40 ∧
  (fst <$> match dict_get "repos" (accepted_policy small) with PDict d => d | _ => [] end) = ["weave-hand/loom"%string] ∧
  enabled_repos (accepted_policy small) = Ok ["jomcgi-org/homelab"; "weave-hand/loom"]%string.
Proof. vm_compute. done. Qed.

Lemma roundtrip_witness :
  validate_policy (PDict small) = Ok (accepted_policy small) ∧
  validate_policy (PDict (accepted_policy small)) = Ok (accepted_policy small).
Proof.
  split; [vm_compute; reflexivity|].
  apply (validate_policy_roundtrip small); [vm_compute; reflexivity|].
  right. exists 40. split; [vm_compute; reflexivity|lia].
Defined.

Lemma planner_cap_witness :
  validate_policy (PDict (accepted_policy large)) = Raise (ValueError "invalid max_planner_turns").
Proof.
  apply (inherited_planner_cap_refused large (accepted_policy large) 300);
    [vm_compute; reflexivity|vm_compute; reflexivity|vm_compute; reflexivity|lia].
Defined.

(** A budget no float can hold. *)
Lemma raises_witness : (∃ msg, OverflowError = ValueError msg) ∨ OverflowError = OverflowError.
Proof.
  apply (validate_policy_raises (PDict (posted 40 (PInt (10 ^ 400))))). vm_compute. reflexivity.
Defined.

Lemma typed_witness : policy_typed (accepted_policy small).
Proof. apply (validate_policy_typed (PDict small)). vm_compute. reflexivity. Defined.

Lemma repos_witness : ∃ m primary,
  repos_map (accepted_policy small) = Ok m ∧
  assoc_get "repo" (accepted_policy small) = Some (PStr primary) ∧ head m.*1 = Some primary ∧
  NoDup m.*1 ∧ Forall (λ q, entry_safe q.2) m.
Proof. apply (repos_map_total (PDict small)). vm_compute. reflexivity. Defined.

End PolicyDemo.
