(* ===== verification/Controls.v ===== *)
(** * Factory controls: rows and durable readers

    The tables [factory/orchestration/factory_controls.py] works on (control,
    receipts, start ledger, audit trail) and the readers of the audit trail that
    gate a start: funding requests and amendments ([factory_funding_limits.py]),
    operator and evidence recovery grants and their deadlines.  A JSON column is
    the value its text encodes. *)

From Stdlib Require Import SpecFloat Ascii.
From stdpp Require Import prelude list strings pretty.
From S2P Require Import Prelude PyValue GraphData GraphPlan WorkItems ModelPool PolicyData Policy.
Local Open Scope Z_scope.

(** ** Rows *)

Definition DEFAULT_TASK_CLASS : string := "bug-fix".
Definition _ACTIVE : list string := ["admitted"; "uncertain"].
Definition _UNRESOLVED_STARTS : list string := ["reserved"; "uncertain"].
Definition _TERMINAL : list string := ["succeeded"; "failed"; "cancelled"].
Definition ESCALATED : string := "escalated".

Record FactoryControl := mkControl
  { ct_state : string; ct_policy_json : dict; ct_admitted_count : Z; ct_version : Z;
    ct_updated_at : Z; ct_actor : string; ct_stopped_at : option Z }.

Record FactoryReceipt := mkReceipt
  { rc_id : Z; rc_repo : string; rc_issue_number : Z; rc_generation : Z; rc_title : string;
    rc_body : string; rc_url : string; rc_actor : string; rc_task_class : option string;
    rc_recurrence_key : string; rc_routing_tier : option string; rc_state : string;
    rc_task_id : option string; rc_policy_json : option dict; rc_allowance_json : option dict;
    rc_direction_json : option dict; rc_work_item_id : option Z; rc_task_paused : bool;
    rc_cancellation_requested : bool; rc_updated_at : Z; rc_escalation_json : option dict;
    rc_created_at : Z }.

Record FactoryStart := mkStart
  { ft_id : Z; ft_task_id : string; ft_start_key : string; ft_actor : string; ft_model : string;
    ft_max_cost_usd : spec_float; ft_status : string; ft_cost_usd : option spec_float;
    ft_accounting_basis : option string; ft_session_id : option Z; ft_created_at : Z;
    ft_updated_at : Z }.

Record FactoryAudit := mkAudit
  { au_id : Z; au_actor : string; au_action : string; au_task_id : option string;
    au_detail_json : dict; au_created_at : Z }.

(** The columns of a task that the factory writes. *)
Record FTask := mkFTask
  { tk_id : string; tk_created_at : Z; tk_task_text : string; tk_repo : string; tk_base_branch : pyval;
    tk_conductor_model : pyval; tk_budget_usd : pyval; tk_start_state : string;
    tk_start_triggered_by : string; tk_start_updated_at : Z; tk_settled_at : option Z }.

(** One first-pass quality sample of a task. *)
Record FactoryReviewVerdict := mkVerdict
  { vd_id : Z; vd_task_id : string; vd_review_run_id : Z; vd_recipe_run_id : option Z; vd_task_class : string;
    vd_sample_kind : string; vd_verdict : string; vd_summary : string; vd_head_sha : option string;
    vd_reviewed_at : Z }.

(** The stored route of a task class and the start of its evaluation epoch. *)
Record FactoryClassTier := mkTier
  { ti_task_class : string; ti_routing_tier : string; ti_transitioned_at : Z; ti_updated_at : Z }.

(** One transaction's view. *)
Record FDB := mkFDB
  { f_control : FactoryControl; f_receipts : list FactoryReceipt; f_starts : list FactoryStart;
    f_audits : list FactoryAudit; f_tasks : list FTask; f_items : list WorkItem;
    f_edges : list WorkItemEdge; f_versions : list SwarmPlanVersion; f_runs : list SwarmNodeRun;
    f_events : list WorkItemEvent; f_issues : list FactoryGithubIssueState;
    f_verdicts : list FactoryReviewVerdict; f_tiers : list FactoryClassTier; f_now : Z }.

Definition put_control (c : FactoryControl) (db : FDB) : FDB :=
  mkFDB c (f_receipts db) (f_starts db) (f_audits db) (f_tasks db) (f_items db) (f_edges db)
    (f_versions db) (f_runs db) (f_events db) (f_issues db) (f_verdicts db) (f_tiers db) (f_now db).
Definition set_receipts (f : list FactoryReceipt → list FactoryReceipt) (db : FDB) : FDB :=
  mkFDB (f_control db) (f (f_receipts db)) (f_starts db) (f_audits db) (f_tasks db) (f_items db)
    (f_edges db) (f_versions db) (f_runs db) (f_events db) (f_issues db) (f_verdicts db) (f_tiers db) (f_now db).
Definition set_starts (f : list FactoryStart → list FactoryStart) (db : FDB) : FDB :=
  mkFDB (f_control db) (f_receipts db) (f (f_starts db)) (f_audits db) (f_tasks db) (f_items db)
    (f_edges db) (f_versions db) (f_runs db) (f_events db) (f_issues db) (f_verdicts db) (f_tiers db) (f_now db).
Definition set_audits (f : list FactoryAudit → list FactoryAudit) (db : FDB) : FDB :=
  mkFDB (f_control db) (f_receipts db) (f_starts db) (f (f_audits db)) (f_tasks db) (f_items db)
    (f_edges db) (f_versions db) (f_runs db) (f_events db) (f_issues db) (f_verdicts db) (f_tiers db) (f_now db).

Definition set_tasks (f : list FTask → list FTask) (db : FDB) : FDB :=
  mkFDB (f_control db) (f_receipts db) (f_starts db) (f_audits db) (f (f_tasks db)) (f_items db)
    (f_edges db) (f_versions db) (f_runs db) (f_events db) (f_issues db) (f_verdicts db) (f_tiers db) (f_now db).

Definition set_verdicts (f : list FactoryReviewVerdict → list FactoryReviewVerdict) (db : FDB) : FDB :=
  mkFDB (f_control db) (f_receipts db) (f_starts db) (f_audits db) (f_tasks db) (f_items db)
    (f_edges db) (f_versions db) (f_runs db) (f_events db) (f_issues db) (f (f_verdicts db)) (f_tiers db) (f_now db).
Definition set_tiers (f : list FactoryClassTier → list FactoryClassTier) (db : FDB) : FDB :=
  mkFDB (f_control db) (f_receipts db) (f_starts db) (f_audits db) (f_tasks db) (f_items db)
    (f_edges db) (f_versions db) (f_runs db) (f_events db) (f_issues db) (f_verdicts db) (f (f_tiers db)) (f_now db).

(** [db.get(SwarmTask, t)]. *)
Definition find_task (db : FDB) (t : string) : option FTask :=
  find_first (λ k, bool_decide (tk_id k = t)) (f_tasks db).
Definition is_some {A} (o : option A) : bool := match o with Some _ => true | None => false end.

(** The row with the primary key of [row] becomes [row]. *)
Definition put_receipt (row : FactoryReceipt) : FDB → FDB :=
  set_receipts (fmap (λ r, if rc_id r =? rc_id row then row else r)).
Definition put_start (row : FactoryStart) : FDB → FDB :=
  set_starts (fmap (λ s, if ft_id s =? ft_id row then row else s)).

Definition _receipt (db : FDB) (task_id : string) : option FactoryReceipt :=
  find_first (λ r, bool_decide (rc_task_id r = Some task_id)) (f_receipts db).

(** Rows are kept in id order, so the filter is ordered by id. *)
Definition _starts (db : FDB) (task_id : string) : list FactoryStart :=
  filter (λ s, ft_task_id s = task_id) (f_starts db).

(** A task the audit's foreign key cannot name goes into the detail instead. *)
Definition _audit (actor action : string) (task_id : option string) (detail : dict) (db : FDB) : FDB :=
  let '(task_id, detail) :=
    match task_id with
    | Some t => if is_some (find_task db t) then (Some t, detail)
                else (None, dict_set "requested_task_id" (PStr t) detail)
    | None => (None, detail)
    end in
  set_audits (λ l, l ++ [mkAudit (next_id au_id l) actor action task_id detail (f_now db)]) db.

(** [json.loads(row.direction_json or "{}")]. *)
Definition direction_of (row : FactoryReceipt) : dict := default [] (rc_direction_json row).

(** ** Classes and lanes of a receipt *)

Definition MACHINE_VERIFIED_CLASSES : list string := ["bug-fix"; "mechanical-refactor"; "docs"].
Definition ADVISORY_CLASSES : list string := ["advisory-diagnosis"; "advisory-triage"; "refine"].
Definition JUDGMENT_CLASSES : list string := ["judgment-analysis"].
Definition TASK_CLASSES : list string :=
  MACHINE_VERIFIED_CLASSES ++ ADVISORY_CLASSES ++ JUDGMENT_CLASSES.
Definition INTAKE_ACTOR : string := "factory:intake".

Definition validate_task_class (value : pyval) : res string :=
  match value with
  | PStr s => if str_in s TASK_CLASSES then Ok s else Raise (ValueError "invalid task_class")
  | _ => Raise (ValueError "invalid task_class")
  end.

(** [a or b] on texts. *)
Definition str_or (a : option string) (b : string) : string :=
  match a with Some s => if bool_decide (s = ""%string) then b else s | None => b end.

Definition receipt_task_class (row : FactoryReceipt) : string :=
  str_or (rc_task_class row) DEFAULT_TASK_CLASS.
Definition is_advisory (task_class : string) : bool := str_in task_class ADVISORY_CLASSES.
Definition lane_for (task_class : string) : string :=
  if is_advisory task_class then "advisory" else "delivery".
Definition lane_of (row : FactoryReceipt) : string :=
  str_or (rc_routing_tier row) (lane_for (receipt_task_class row)).

Definition flag `{Environ} (name : string) : bool :=
  bool_decide (py_lower (default ""%string (environ name)) = "true"%string).

(** Only the exact recorded refusal of a planner's gate lifts its hold.  The
    refusals are stored as a list. *)
Definition planner_refused (direction : dict) : bool :=
  match dict_get "landing_hold_provenance" direction, dict_get "landing_hold" direction with
  | PDict source, PDict hold =>
      py_eq (dict_get "origin" source) (PStr "planner") &&
      is_str (dict_get "cause" source) && truthy (dict_get "cause" source) &&
      is_str (dict_get "gate_id" source) && truthy (dict_get "gate_id" source) &&
      py_eq (dict_get "actor" hold) (PStr "factory:conductor") &&
      py_eq (dict_get "cause" hold) (dict_get "cause" source) &&
      py_eq (dict_get "hold" source) (PDict hold) &&
      match get_or "landing_hold_refusals" (PList []) direction with
      | PList l => existsb (py_eq (PDict [("cause", dict_get "cause" source);
                                          ("gate_id", dict_get "gate_id" source)])) l
      | _ => false
      end
  | _, _ => false
  end.

Definition landing_held `{Environ} (row : FactoryReceipt) : bool :=
  let direction := direction_of row in
  has_key "landing_hold" direction &&
  negb (flag "FACTORY_PLANNER_HOLD_REFUSAL_ENABLED" && planner_refused direction).

Definition natural_history_exclusion `{Environ} (rows : list FactoryReceipt) : option string :=
  if existsb (λ r, bool_decide (rc_state r = "cancelled"%string)) rows then Some "cancelled_issue"%string
  else if existsb landing_held rows then Some "landing_held"%string
  else if existsb (λ r, bool_decide (rc_state r = "failed"%string) &&
                        bool_decide (receipt_task_class r = "refine"%string)) rows
  then Some "refinement_failed"%string else None.

Definition nonrenewable_recovery (row : option FactoryReceipt) : bool :=
  match row with Some r => has_key "nonrenewable_recovery" (direction_of r) | None => false end.

(** ** The audit trail *)

Definition FUNDING_AUDIT_ALIASES : list (string * string) :=
  [ ("merit_funding_declined", "funding_merit_declined");
    ("allocation_recovery_required", "funding_allocation_recovery_required");
    ("progress_continuation_authorized", "funding_continuation_authorized");
    ("progress_continuation_lease", "funding_continuation_lease");
    ("progress_continuation_renewed", "funding_continuation_renewed");
    ("progress_continuation_renewal_refused", "funding_continuation_renewal_refused");
    ("runtime_meter_bound", "funding_meter_bound"); ("runtime_meter_usage", "funding_meter_usage");
    ("runtime_meter_tripped", "funding_meter_tripped") ]%string.

Definition funding_audit_actions (action : string) : list string :=
  remove_dups [action; default action (assoc_get action FUNDING_AUDIT_ALIASES)].

Definition PROJECTION : string := "funding_compatibility_projection".
(** The quoted marker occurs in the JSON text of a string: the string is the
    marker, or ends with a quote and the marker. *)
Definition marks (s : string) : bool :=
  bool_decide (s = PROJECTION) || endswith (String (ascii_of_nat 34) PROJECTION) s.
Fixpoint marked (v : pyval) : bool :=
  match v with
  | PStr s => marks s
  | PList l => (fix go (l : list pyval) : bool :=
                  match l with [] => false | x :: l => marked x || go l end) l
  | PDict d => (fix go (d : list (string * pyval)) : bool :=
                  match d with [] => false | (k, x) :: d => marks k || marked x || go d end) d
  | _ => false
  end.

Definition funding_audit_filter (action : string) (row : FactoryAudit) : bool :=
  str_in (au_action row) (funding_audit_actions action) && negb (marked (PDict (au_detail_json row))).

(** The newest audit of a task that passes a filter. *)
Definition newest (db : FDB) (task_id : option string) (p : FactoryAudit → bool) : option FactoryAudit :=
  find_last (λ a, bool_decide (au_task_id a = task_id) && p a) (f_audits db).
Definition is_action (action : string) (a : FactoryAudit) : bool := bool_decide (au_action a = action).

Definition latest (db : FDB) (task_id : option string) (action : string) : option dict :=
  match newest db task_id (funding_audit_filter action) with
  | Some row => Some (dict_set "audit_id" (PInt (au_id row)) (au_detail_json row))
  | None => None
  end.

(** [d[key]] on a decoded object. *)
Definition item (key : string) (d : dict) : res pyval := policy_index key d.
Definition as_object (v : pyval) : res dict :=
  match v with PDict d => Ok d | _ => Raise TypeError end.

(** ** Time *)

(** A parsed time that can be compared with the clock: comparing a naive
    [datetime] with an aware one raises [TypeError]. *)
Definition aware (d : datetime) : res Z :=
  match dt_offset d with Some _ => Ok (instant d) | None => Raise TypeError end.
Definition parse_time `{IsoFormat} (v : pyval) : res datetime :=
  match v with
  | PStr s => match WorkItems.fromisoformat s with
              | Some d => Ok d
              | None => Raise (ValueError "Invalid isoformat string")
              end
  | _ => Raise TypeError
  end.
Definition parse_aware `{IsoFormat} (v : pyval) : res Z := d ← parse_time v; aware d.

(** ** Funding ([factory_funding_limits.py]) *)

Definition REVIEW_COST_USD : spec_float := f_of_Z 1.
Definition LEGACY_REVIEW_MODEL : string := "astra".

Definition pending (db : FDB) (task_id : string) : res (option dict) :=
  match latest db (Some task_id) "funding_review_requested" with
  | None => Ok None
  | Some request =>
      match latest db (Some task_id) "funding_review_settled" with
      | None => Ok (Some request)
      | Some settled =>
          id ← item "request_id" settled;
          Ok (if negb (py_eq id (dict_get "audit_id" request)) then Some request else None)
      end
  end.

Definition review_authority `{IsoFormat} (db : FDB) (task_id : string) (start_key : option string)
    : res (option dict) :=
  request ← pending db task_id;
  match request with
  | None => Ok None
  | Some request =>
      key ← item "start_key" request;
      if negb (py_eq key (match start_key with Some k => PStr k | None => PNone end)) then Ok None else
      deadline ← item "deadline_at" request;
      due ← parse_aware deadline;
      Ok (if f_now db <? due then Some request else None)
  end.

Definition review_model (request : dict) : pyval :=
  let m := dict_get "model" request in if truthy m then m else PStr LEGACY_REVIEW_MODEL.

Definition amendment (db : FDB) (task_id : option string) : option dict := latest db task_id "funding_granted".

(** The models of a list that are not removed. *)
Definition keep_models (v : pyval) (removed : pyval) : res pyval :=
  match v with
  | PList l =>
      flags ← res_map (λ m, match m with
                            | PStr s => py_contains s removed
                            | _ => match removed with PList r => Ok (existsb (py_eq m) r) | _ => Raise TypeError end
                            end) l;
      Ok (PList (omap (λ p : pyval * bool, if p.2 then None else Some p.1) (zip l flags)))
  | _ => Raise TypeError
  end.

Definition restrict_models (policy : dict) (removed : pyval) : res dict :=
  allowed ← item "allowed_models" policy;
  kept_models ← keep_models allowed removed;
  let result := dict_set "allowed_models" kept_models policy in
  match assoc_get "model_pools" policy with
  | None => Ok result
  | Some (PDict pools) =>
      pools ← res_map (λ p : string * pyval, l ← keep_models p.2 removed; Ok (p.1, l)) pools;
      Ok (dict_set "model_pools" (PDict pools) result)
  | Some _ => Raise AttributeError
  end.

Definition effective_policy (db : FDB) (row : FactoryReceipt) : res dict :=
  match rc_policy_json row with
  | None => Raise TypeError
  | Some policy =>
      policy ← (match amendment db (rc_task_id row) with
                | Some grant => overlay ← item "policy_overlay" grant; o ← as_object overlay;
                                Ok (dict_update policy o)
                | None => Ok policy
                end);
      let restriction := dict_get "model_restriction" (direction_of row) in
      if truthy restriction then
        r ← as_object restriction; removed ← item "removed_models" r; restrict_models policy removed
      else Ok policy
  end.

Definition judge_pin_ok (db : FDB) (task_id : string) (request : dict) (model : string) : res bool :=
  if negb (py_eq (PStr model) (review_model request)) then Ok false else
  match _receipt db task_id with
  | None => Ok false
  | Some row => policy ← effective_policy db row; allowed ← item "allowed_models" policy;
                py_contains model allowed
  end.

(** ** Start keys *)

(** [factory-node:<task>:<node key>:<attempt>], matched up to a final newline. *)
Fixpoint until_colon (s : string) : option (string * string) :=
  match s with
  | EmptyString => None
  | String c s =>
      if is_char 58 c then Some (""%string, s)
      else match until_colon s with Some (a, b) => Some (String c a, b) | None => None end
  end.
Fixpoint rest_key (s : string) : option (string * string) :=
  match s with
  | EmptyString => None
  | String c t =>
      match rest_key t with
      | Some (a, b) => Some (String c a, b)
      | None => if is_char 58 c then Some (""%string, t) else None
      end
  end.
Definition drop_newline (s : string) : string :=
  if last_char (is_char 10) s then take_str (String.length s - 1) s else s.
Definition no_newline (s : string) : bool := all_chars (λ c, negb (is_char 10 c)) s.

Definition _START_KEY (key : string) : option string :=
  let key := drop_newline key in
  if startswith "factory-node:" key then
    match until_colon (drop_str 13 key) with
    | Some (task, rest) =>
        match rest_key rest with
        | Some (node_key, attempt) =>
            if negb (bool_decide (task = ""%string)) && negb (bool_decide (node_key = ""%string)) &&
               no_newline node_key && negb (bool_decide (attempt = ""%string)) &&
               all_chars (in_range 48 57) attempt
            then Some node_key else None
        | None => None
        end
    | None => None
    end
  else None.

Definition node_start_key (task_id node_key : string) (attempt : string) : string :=
  "factory-node:" +:+ task_id +:+ ":" +:+ node_key +:+ ":" +:+ attempt.

Definition _planner_key (start_key : option string) : bool :=
  match _START_KEY (default ""%string start_key) with
  | Some node_key => startswith "conductor_" node_key
  | None => false
  end.

(** ** Recovery grants

    The fields of a recorded proposal have the types its writer gives them:
    any other value is read as a [TypeError]. *)

Definition TASK_RECOVERY_ACTION : string := "operator_task_recovery".
Definition RECOVERY : string := "operator_evidence_continuation".

Definition _landing_recovery_deadline `{IsoFormat} (db : FDB) (task_id : string) : res (option datetime) :=
  match newest db (Some task_id) (is_action "landing_recovery_requested") with
  | None => Ok None
  | Some event =>
      let value := dict_get "deadline_at" (au_detail_json event) in
      value ← (if truthy value then Ok value else
               match newest db (Some task_id) (λ a, is_action "landing_recovery_started" a &&
                                                    (au_id event <? au_id a)) with
               | Some started =>
                   if py_eq (dict_get "request_id" (au_detail_json started)) (PInt (au_id event))
                   then item "deadline_at" (au_detail_json started) else Ok value
               | None => Ok value
               end);
      if truthy value then d ← parse_time value; Ok (Some d) else Ok None
  end.

Definition lease_keys : list string := ["deadline_at"; "work_turn_ceiling"; "planner_turn_ceiling"].

Definition _task_recovery_proposal (db : FDB) (task_id : string) (event : option FactoryAudit)
    : res (option dict) :=
  match event with
  | None => Ok None
  | Some event =>
      original ← item "proposal" (au_detail_json event);
      original ← as_object original;
      match latest db (Some task_id) "progress_continuation_authorized",
            latest db (Some task_id) "progress_continuation_lease" with
      | Some authorization, Some lease =>
          recovered ← item "original_recovery_audit_id" lease;
          if negb (py_eq recovered (PInt (au_id event))) then Ok (Some original) else
          proposal ← item "proposal" authorization; proposal ← as_object proposal;
          source ← item "original_recovery" proposal; source ← as_object source;
          audit ← item "audit_id" source;
          if negb (py_eq audit (PInt (au_id event))) then Ok (Some original) else
          leased ← res_map (λ k, v ← item k lease; Ok (k, v)) lease_keys;
          Ok (Some (dict_update original leased))
      | _, _ => Ok (Some original)
      end
  end.

Definition task_recovery_grant (db : FDB) (task_id : string) : res (option dict) :=
  _task_recovery_proposal db task_id (newest db (Some task_id) (is_action TASK_RECOVERY_ACTION)).

Definition recovery_grant (db : FDB) (task_id : string) : res (option dict) :=
  match latest db (Some task_id) RECOVERY with
  | None => Ok None
  | Some row => proposal ← item "proposal" row; p ← as_object proposal; Ok (Some p)
  end.

Definition as_text (v : pyval) : res string :=
  match v with PStr s => Ok s | _ => Raise TypeError end.
Definition as_int (v : pyval) : res Z := match v with PInt z => Ok z | _ => Raise TypeError end.

Definition _recovery_plan_accepted (db : FDB) (task_id : string) (recovery : dict) : res bool :=
  planner ← item "planner_node_key" recovery; planner ← as_text planner;
  revision ← item "expected_revision" recovery; revision ← as_int revision;
  Ok (existsb (λ v, bool_decide (pv_task_id v = task_id) &&
                    bool_decide (pv_cause_ref v = Some ("factory-decision:" +:+ planner +:+ ":1")%string) &&
                    (revision <? pv_version v)) (f_versions db)).

(** The parsed deadline of every recovery in force, before they are compared. *)
Definition _recovery_deadline `{IsoFormat} (db : FDB) (task_id : string) : res (option Z) :=
  let grant_deadline p := v ← item "deadline_at" p; parse_time v in
  task ← task_recovery_grant db task_id;
  task ← (match task with Some g => d ← grant_deadline g; Ok [d] | None => Ok [] end);
  evidence ← (match newest db (Some task_id) (is_action RECOVERY) with
              | Some event => p ← item "proposal" (au_detail_json event); p ← as_object p;
                              d ← grant_deadline p; Ok [d]
              | None => Ok []
              end);
  landing ← _landing_recovery_deadline db task_id;
  times ← res_map aware (task ++ evidence ++ option_list landing);
  Ok (match times with [] => None | t :: ts => Some (foldl Z.min t ts) end).

Definition review_recovery_held (db : FDB) (task_id : string) : bool :=
  match newest db (Some task_id) (is_action "review_recovery_authorized") with
  | Some _ => true
  | None => false
  end.

Definition continuation_grant (db : FDB) (task_id : string) : option dict :=
  match amendment db (Some task_id) with
  | Some _ => None
  | None =>
      match find_first (λ a, bool_decide (au_task_id a = Some task_id) &&
                             is_action "continuation_granted" a) (f_audits db) with
      | Some row => Some (au_detail_json row)
      | None => None
      end
  end.
