(* ===== verification/Lanes.v ===== *)
(** * Factory lanes: limits, eligibility, capacity

    Which receipts hold execution slots, how the chart ceiling is divided
    between the delivery and advisory lanes, which queued receipts may be
    admitted ([factory_controls.py] and [factory_intake.py]). *)

From Stdlib Require Import SpecFloat.
From stdpp Require Import prelude list strings pretty.
From S2P Require Import Prelude PyValue GraphData GraphPlan WorkItems ModelPool PolicyData Policy Controls.
Local Open Scope Z_scope.

(** ** Limits *)

Definition env_int `{Environ} (name dflt : string) : res Z :=
  match int_of_string (default dflt (environ name)) with
  | Some z => Ok z
  | None => Raise (ValueError "invalid literal for int() with base 10")
  end.
Definition factory_max_concurrent_tasks `{Environ} : res Z :=
  z ← env_int "FACTORY_MAX_CONCURRENT_TASKS" "1"; Ok (Z.max 1 z).
Definition factory_background_reserve `{Environ} : res Z :=
  z ← env_int "FACTORY_BACKGROUND_RESERVE" "2"; Ok (Z.max 0 z).

Definition lane_limits `{Environ} (policy : dict) : res LaneCounts :=
  ceiling ← factory_max_concurrent_tasks;
  wanted ← lane_max_tasks policy;
  let delivery := Z.max 1 (Z.min (ln_delivery wanted) ceiling) in
  Ok (mkLanes delivery (Z.max 0 (Z.min (ln_advisory wanted) (ceiling - delivery)))).

Definition repo_lane_limits `{Environ} (policy : dict) (repo : string) : res LaneCounts :=
  ceiling ← factory_max_concurrent_tasks;
  wanted ← repo_lane_max_tasks policy (PStr repo);
  Ok (mkLanes (Z.max 1 (Z.min (ln_delivery wanted) ceiling))
              (Z.max 0 (Z.min (ln_advisory wanted) ceiling))).

Definition lane_sum (l : LaneCounts) : Z := ln_delivery l + ln_advisory l.
Definition concurrency_limit `{Environ} (policy : dict) : res Z :=
  limits ← lane_limits policy; Ok (lane_sum limits).

Record CeilingShort := mkShort { cs_ceiling : Z; cs_wanted : LaneCounts; cs_sum : Z }.
Definition ceiling_below_lanes `{Environ} (policy : dict) : res (option CeilingShort) :=
  wanted ← lane_max_tasks policy;
  ceiling ← factory_max_concurrent_tasks;
  let total := lane_sum wanted in
  Ok (if total <=? ceiling then None else Some (mkShort ceiling wanted total)).

(** ** Eligibility *)

Definition BACKLOG_REFILL_ACTOR : string := "factory:backlog-refill".
Definition SCOUT_ACTOR : string := "factory:improvement-scout".

(** [n in set(policy.get("issue_numbers") or ())]. *)
Definition allowlisted (policy : dict) (number : Z) : res bool :=
  let v := dict_get "issue_numbers" policy in
  if negb (truthy v) then Ok false else
  match v with
  | PList l => if existsb (λ v, is_list v || is_dict v) l then Raise TypeError
               else Ok (existsb (py_eq (PInt number)) l)
  | PStr _ | PDict _ => Ok false
  | _ => Raise TypeError
  end.

Definition sub (d : dict) (key : string) : dict :=
  match dict_get key d with PDict e => e | _ => [] end.
Definition list_at (d : dict) (key : string) : list pyval :=
  match dict_get key d with PList l => l | _ => [] end.

(** The backlog producer's own rule. *)
Definition refill_eligible (policy : dict) (number : Z) (task_class repo : option string) : res bool :=
  refill ← refill_normalize policy;
  if negb (truthy (dict_get "enabled" refill)) then Ok false else
  intake ← intake_policy policy;
  if truthy (dict_get "refinement_batch" intake) ||
     negb ((number =? 7366) && bool_decide (task_class = Some "advisory-diagnosis"%string))
  then Ok false else
  match repo with
  | None => Ok true
  | Some r => primary ← policy_index "repo" policy; Ok (py_eq (PStr r) primary)
  end.

Definition scout_enabled (block : dict) : bool :=
  truthy (dict_get "enabled" block) && truthy (dict_get "quota_improvement" (sub block "sources")) &&
  truthy (dict_get "enabled" (sub block "improvement_scout")).
Definition scout_issue (block : dict) : pyval := dict_get "issue_number" (sub block "improvement_scout").

Definition intake_eligible (policy intake : dict) (number : Z) (actor : string)
    (task_class repo : option string) : bool :=
  let batch := list_at intake "refinement_batch" in
  bool_decide (actor = INTAKE_ACTOR) && truthy (dict_get "enabled" intake) &&
  (negb (truthy (PList batch)) ||
   (truthy (dict_get "refine_enabled" intake) && existsb (py_eq (PInt number)) batch &&
    bool_decide (task_class = Some "refine"%string) &&
    py_eq (match repo with Some r => PStr r | None => dict_get "repo" policy end)
          (dict_get "repo" policy))).

Definition admission_eligible (policy : dict) (number : Z) (actor : string)
    (task_class repo : option string) : res bool :=
  if bool_decide (actor = BACKLOG_REFILL_ACTOR) then refill_eligible policy number task_class repo else
  listed ← allowlisted policy number;
  if (listed : bool) then Ok true else
  if bool_decide (actor = SCOUT_ACTOR)
  then (block ← problem_issues_policy policy;
        Ok (scout_enabled block && py_eq (scout_issue block) (PInt number)))
  else (intake ← intake_policy policy;
        Ok (intake_eligible policy intake number actor task_class repo)).

(** The clause of the admission query, on one receipt. *)
Definition _eligible_clause (policy : dict) (row : FactoryReceipt) : res bool :=
  numbers ← policy_index "issue_numbers" policy;
  let numbers := match numbers with PList l => l | _ => [] end in
  let eligible := existsb (py_eq (PInt (rc_issue_number row))) numbers &&
                  negb (bool_decide (rc_actor row = BACKLOG_REFILL_ACTOR)) in
  intake ← intake_policy policy;
  let batch := list_at intake "refinement_batch" in
  eligible ←
    (if truthy (dict_get "enabled" intake) then
       let automatic := bool_decide (rc_actor row = INTAKE_ACTOR) in
       automatic ←
         (if truthy (PList batch) then
            primary ← policy_index "repo" policy;
            Ok (automatic && existsb (py_eq (PInt (rc_issue_number row))) batch &&
                bool_decide (rc_task_class row = Some "refine"%string) &&
                py_eq (PStr (rc_repo row)) primary && truthy (dict_get "refine_enabled" intake))
          else Ok automatic);
       Ok (eligible || automatic)
     else Ok eligible);
  block ← problem_issues_policy policy;
  refill ← refill_normalize policy;
  eligible ←
    (if truthy (dict_get "enabled" refill) && negb (truthy (PList batch)) then
       primary ← policy_index "repo" policy;
       Ok (eligible ||
           (bool_decide (rc_actor row = BACKLOG_REFILL_ACTOR) && (rc_issue_number row =? 7366) &&
            bool_decide (rc_task_class row = Some "advisory-diagnosis"%string) &&
            negb (bool_decide (rc_recurrence_key row = ""%string)) &&
            py_eq (PStr (rc_repo row)) primary))
     else Ok eligible);
  Ok (if scout_enabled block
      then eligible || (bool_decide (rc_actor row = SCOUT_ACTOR) &&
                        py_eq (PInt (rc_issue_number row)) (scout_issue block))
      else eligible).

(** ** Slots *)

Definition unresolved_start_task_ids (db : FDB) : list string :=
  remove_dups (ft_task_id <$> filter (λ s, ft_status s ∈ _UNRESOLVED_STARTS) (f_starts db)).

Definition is_current_generation_queue (policy : dict) (row : FactoryReceipt) : bool :=
  bool_decide (rc_state row = "queued"%string) &&
  py_eq (PInt (rc_generation row)) (get_or "generation" (PInt 0) policy).

Definition is_active (row : FactoryReceipt) : bool := str_in (rc_state row) _ACTIVE.

(** The closure [holds]. *)
Definition holds_slot `{Environ} (policy : dict) (include_queued : bool)
    (unresolved : option (list string)) (row : FactoryReceipt) : res bool :=
  if is_active row then
    Ok (negb (rc_task_paused row || landing_held row) ||
        match unresolved with
        | None => true
        | Some ids =>
            match rc_task_id row with
            | None => true
            | Some t => bool_decide (t = ""%string) || str_in t ids
            end
        end)
  else if include_queued && is_current_generation_queue policy row then
    admission_eligible policy (rc_issue_number row) (rc_actor row) (rc_task_class row)
      (Some (rc_repo row))
  else Ok false.

(** [[x for x in rows if p(x)]] with a raising predicate. *)
Fixpoint res_filter {A} (p : A → res bool) (l : list A) : res (list A) :=
  match l with
  | [] => Ok []
  | x :: l => b ← p x; rest ← res_filter p l; Ok (if (b : bool) then x :: rest else rest)
  end.

Definition execution_slot_holders `{Environ} (policy : dict) (rows : list FactoryReceipt)
    (include_queued : bool) (unresolved : option (list string)) : res (list FactoryReceipt) :=
  res_filter (holds_slot policy include_queued unresolved) rows.

Record Usage := mkUsage { us_limit : Z; us_active : Z; us_queued : Z }.
Definition in_lane (lane : string) (row : FactoryReceipt) : bool := bool_decide (lane_of row = lane).
Definition count_of {A} (p : A → bool) (l : list A) : Z := Z.of_nat (length (filter (λ x, p x = true) l)).

Definition lane_usage `{Environ} (policy : dict) (rows : list FactoryReceipt)
    (unresolved : option (list string)) : res (Usage * Usage) :=
  limits ← lane_limits policy;
  holders ← execution_slot_holders policy rows true unresolved;
  let usage lane limit :=
    mkUsage limit (count_of (λ r, in_lane lane r && is_active r) holders)
      (count_of (λ r, in_lane lane r && negb (is_active r) && is_current_generation_queue policy r) holders) in
  Ok (usage "delivery"%string (ln_delivery limits), usage "advisory"%string (ln_advisory limits)).

(** ** The split of the ceiling *)

(** [a / b] on ints: the correctly rounded quotient. *)
Definition fquot (a b : Z) : spec_float := SFdiv prec64 emax64 (f_of_Z a) (f_of_Z b).

Definition lane_add (lane : string) (l : LaneCounts) : LaneCounts :=
  if bool_decide (lane = "delivery"%string) then mkLanes (ln_delivery l + 1) (ln_advisory l)
  else mkLanes (ln_delivery l) (ln_advisory l + 1).

(** [min] by fraction held, delivery first on a tie. *)
Definition emptiest (wanted held room : LaneCounts) : string :=
  if flt (fquot (ln_advisory held + ln_advisory room) (ln_advisory wanted))
         (fquot (ln_delivery held + ln_delivery room) (ln_delivery wanted))
  then "advisory" else "delivery".

Definition pick_lane (first : bool) (wanted held headroom room : LaneCounts) : option string :=
  let d := ln_delivery room <? ln_delivery headroom in
  let a := ln_advisory room <? ln_advisory headroom in
  if d && a then Some (if first then "delivery"%string else emptiest wanted held room)
  else if d then Some "delivery"%string else if a then Some "advisory"%string else None.

(** The dealing loop, [n] slots left. *)
Fixpoint deal (n : nat) (first : bool) (wanted held headroom room : LaneCounts) : LaneCounts :=
  match n with
  | O => room
  | S n => match pick_lane first wanted held headroom room with
           | Some lane => deal n false wanted held headroom (lane_add lane room)
           | None => room
           end
  end.

Definition no_lanes : LaneCounts := mkLanes 0 0.

(** Every lane of a receipt is one of the two: the table's check constraint
    admits no other [routing_tier]. *)
Definition held_by (rows : list FactoryReceipt) : LaneCounts :=
  mkLanes (count_of (in_lane "delivery") rows) (count_of (in_lane "advisory") rows).
Definition headroom_of (wanted held : LaneCounts) (lanes : list string) : LaneCounts :=
  mkLanes (if str_in "delivery" lanes then Z.max 0 (ln_delivery wanted - ln_delivery held) else 0)
          (if str_in "advisory" lanes then Z.max 0 (ln_advisory wanted - ln_advisory held) else 0).

Definition open_lanes `{Environ} (policy : dict) (rows : list FactoryReceipt) (lanes : list string)
    (unresolved : option (list string)) : res LaneCounts :=
  rows ← execution_slot_holders policy rows true unresolved;
  wanted ← lane_max_tasks policy;
  let held := held_by rows in
  let headroom := headroom_of wanted held lanes in
  ceiling ← factory_max_concurrent_tasks;
  let free := Z.max 0 (ceiling - lane_sum held) in
  Ok (if lane_sum headroom <=? free then headroom
      else deal (Z.to_nat free) true wanted held headroom no_lanes).
