(* ===== verification/LaneClaims.v ===== *)
(** * Factory lanes: lemmas

    The quotients [open_lanes] compares are exact enough to order fractions of
    lane maxima, and the dealing loop is work conserving and envy free.
    Then the theorems on lanes. *)

From Stdlib Require Import SpecFloat Btauto.
From stdpp Require Import prelude list strings.
From S2P Require Import Prelude PyValue GraphData GraphPlan WorkItems ModelPool PolicyData Policy PolicyFacts Controls Lanes PolicyRoundtrip.
Local Open Scope Z_scope.

(** ** Quotients of small integers *)

(** The value of a finite float in units of [2^-80]. *)
Definition scaled (f : spec_float) : option Z :=
  match xnum_of_float f with
  | XFin m e => if -80 <=? e then Some (m * 2 ^ (e + 80)) else None
  | _ => None
  end.

Lemma scaled_flt f g x y : scaled f = Some x → scaled g = Some y → flt f g = (x <? y).
Proof.
  unfold scaled, flt, xlt. destruct (xnum_of_float f) as [m e| |]; [|done..].
  destruct (xnum_of_float g) as [m' e'| |]; [|by destruct (-80 <=? e)..].
  destruct (Z.leb_spec (-80) e) as [He|]; [|done].
  destruct (Z.leb_spec (-80) e') as [He'|]; [|done].
  intros [= <-] [= <-]. simpl. set (k := Z.min e e').
  replace (m * 2 ^ (e + 80)) with (m * 2 ^ (e - k) * 2 ^ (k + 80))
    by (rewrite <-Z.mul_assoc, <-Z.pow_add_r by lia; do 2 f_equal; lia).
  replace (m' * 2 ^ (e' + 80)) with (m' * 2 ^ (e' - k) * 2 ^ (k + 80))
    by (rewrite <-Z.mul_assoc, <-Z.pow_add_r by lia; do 2 f_equal; lia).
  assert (0 < 2 ^ (k + 80)) by (apply Z.pow_pos_nonneg; lia).
  destruct (Z.compare_spec (m * 2 ^ (e - k)) (m' * 2 ^ (e' - k))), (Z.ltb_spec (m * 2 ^ (e - k) * 2 ^ (k + 80))
    (m' * 2 ^ (e' - k) * 2 ^ (k + 80))); try done; nia.
Qed.

(** Within [2^-20] of the fraction, and a function of its lowest terms. *)
Definition quot_ok (a b : Z) : bool :=
  match scaled (fquot a b), scaled (fquot (a / Z.gcd a b) (b / Z.gcd a b)) with
  | Some x, Some y => (x =? y) && (Z.abs (x * b - a * 2 ^ 80) <=? 2 ^ 60 * b)
  | _, _ => false
  end.

Lemma quot_checked :
  forallb (λ b, forallb (λ a, quot_ok a b) (seqZ 0 100)) (seqZ 1 100) = true.
Proof. vm_compute. reflexivity. Qed.

Lemma quot_spec a b :
  0 ≤ a < 100 → 1 ≤ b ≤ 100 →
  ∃ x, scaled (fquot a b) = Some x ∧ scaled (fquot (a / Z.gcd a b) (b / Z.gcd a b)) = Some x ∧
    Z.abs (x * b - a * 2 ^ 80) ≤ 2 ^ 60 * b.
Proof.
  intros Ha Hb.
  assert (quot_ok a b = true) as H.
  { pose proof quot_checked as H. rewrite forallb_forall in H.
    specialize (H b). rewrite <-list_elem_of_In, elem_of_seqZ, forallb_forall in H.
    apply H; [lia|]. rewrite <-list_elem_of_In, elem_of_seqZ. lia. }
  unfold quot_ok in H. destruct (scaled (fquot a b)) as [x|]; [|done].
  destruct (scaled (fquot _ _)) as [y|]; [|done].
  apply andb_prop in H as [<-%Z.eqb_eq H%Z.leb_le]. eauto.
Qed.

(** Equal fractions have the same lowest terms. *)
Lemma lowest_terms a b c d :
  0 < b → 0 < d → a * d = c * b →
  a / Z.gcd a b = c / Z.gcd c d ∧ b / Z.gcd a b = d / Z.gcd c d.
Proof.
  intros Hb Hd E.
  assert (Z.gcd a b * d = Z.gcd c d * b) as G.
  { transitivity (Z.gcd (a * d) (b * d)); [rewrite Z.gcd_mul_mono_r; f_equal; lia|].
    rewrite E, (Z.mul_comm b d), Z.gcd_mul_mono_r. f_equal. lia. }
  assert (0 < Z.gcd a b) as Hg by (pose proof (Z.gcd_nonneg a b); pose proof (Z.gcd_eq_0_r a b); lia).
  assert (0 < Z.gcd c d) as Hh by (pose proof (Z.gcd_nonneg c d); pose proof (Z.gcd_eq_0_r c d); lia).
  destruct (Z.gcd_divide_l a b) as [a' Ea], (Z.gcd_divide_r a b) as [b' Eb],
    (Z.gcd_divide_l c d) as [c' Ec], (Z.gcd_divide_r c d) as [d' Ed].
  generalize dependent (Z.gcd a b). intros g G Hg Ea Eb.
  generalize dependent (Z.gcd c d). intros h G Hh Ec Ed. subst a b c d.
  assert (b' = d') as -> by (apply (Z.mul_reg_r _ _ (g * h)); nia).
  assert (0 < d') by nia.
  assert (a' = c') as -> by (apply (Z.mul_reg_r _ _ (g * (d' * h))); nia).
  by rewrite !Z.div_mul by lia.
Qed.

(** Distinct fractions are further apart than the rounding errors. *)
Lemma quot_gap a b c d x y :
  1 ≤ b ≤ 100 → 1 ≤ d ≤ 100 → a * d < c * b →
  Z.abs (x * b - a * 2 ^ 80) ≤ 2 ^ 60 * b → Z.abs (y * d - c * 2 ^ 80) ≤ 2 ^ 60 * d → x < y.
Proof.
  intros Hb Hd L Bx By. assert (1 ≤ b * d ≤ 10000) by nia.
  assert (x * (b * d) < y * (b * d)); [|nia].
  assert (x * b * d ≤ (a * 2 ^ 80 + 2 ^ 60 * b) * d) by (apply Z.mul_le_mono_nonneg_r; lia).
  assert ((c * 2 ^ 80 - 2 ^ 60 * d) * b ≤ y * d * b) by (apply Z.mul_le_mono_nonneg_r; lia).
  change (2 ^ 80) with (1048576 * 2 ^ 60) in *.
  set (u := 2 ^ 60) in *. assert (0 < u) by (unfold u; lia). clearbody u. nia.
Qed.

(** The float comparison of two fractions is the comparison of the fractions. *)
Lemma fquot_lt a b c d :
  0 ≤ a < 100 → 1 ≤ b ≤ 100 → 0 ≤ c < 100 → 1 ≤ d ≤ 100 →
  flt (fquot a b) (fquot c d) = (a * d <? c * b).
Proof.
  intros Ha Hb Hc Hd.
  destruct (quot_spec a b Ha Hb) as (x & Hx & Hx' & Bx), (quot_spec c d Hc Hd) as (y & Hy & Hy' & By).
  rewrite (scaled_flt _ _ _ _ Hx Hy).
  destruct (Z.lt_trichotomy (a * d) (c * b)) as [L|[E|L]].
  - rewrite (proj2 (Z.ltb_lt (a * d) _) L). apply Z.ltb_lt. eauto using quot_gap.
  - destruct (lowest_terms a b c d) as [E1 E2]; [lia..|]. rewrite E1, E2, Hy' in Hx'.
    rewrite E, Z.ltb_irrefl. apply Z.ltb_ge. by simplify_eq.
  - rewrite (proj2 (Z.ltb_ge (a * d) _)) by lia. apply Z.ltb_ge, Z.lt_le_incl. eauto using quot_gap.
Qed.

(** ** The dealing loop *)

Definition lanes_le (a b : LaneCounts) : Prop :=
  ln_delivery a ≤ ln_delivery b ∧ ln_advisory a ≤ ln_advisory b.

#[export] Instance lanes_le_preorder : PreOrder lanes_le.
Proof. split; [by split|]. intros a b c [??] [??]. split; lia. Qed.

(** A lane with headroom holds less than its maximum by exactly that much. *)
Definition lane_fits (wanted held headroom : Z) : Prop :=
  0 ≤ held ∧ 0 ≤ headroom ∧ (0 < headroom → held + headroom = wanted) ∧ wanted ≤ 100.
Definition lanes_fit (wanted held headroom : LaneCounts) : Prop :=
  lane_fits (ln_delivery wanted) (ln_delivery held) (ln_delivery headroom) ∧
  lane_fits (ln_advisory wanted) (ln_advisory held) (ln_advisory headroom).

(** The last slot a lane got found it no fuller, as a fraction of its maximum,
    than the other lane ends, unless the other lane is at its maximum.  The
    first slot is delivery's. *)
Record envy_free (wanted held headroom room : LaneCounts) : Prop := mkEnvyFree
  { ef_advisory : 1 ≤ ln_advisory room → ln_delivery room < ln_delivery headroom →
      (ln_advisory held + ln_advisory room - 1) * ln_delivery wanted
      < (ln_delivery held + ln_delivery room) * ln_advisory wanted;
    ef_delivery : 2 ≤ ln_delivery room → ln_advisory room < ln_advisory headroom →
      (ln_delivery held + ln_delivery room - 1) * ln_advisory wanted
      ≤ (ln_advisory held + ln_advisory room) * ln_delivery wanted }.

Section Dealing.
Context (wanted held headroom : LaneCounts) (Hfit : lanes_fit wanted held headroom).

Lemma emptiest_spec room :
  lanes_le no_lanes room → ln_delivery room < ln_delivery headroom → ln_advisory room < ln_advisory headroom →
  emptiest wanted held room =
  if (ln_advisory held + ln_advisory room) * ln_delivery wanted <?
     (ln_delivery held + ln_delivery room) * ln_advisory wanted then "advisory" else "delivery".
Proof using Hfit.
  destruct Hfit as [(? & ? & ? & ?) (? & ? & ? & ?)]. intros [??] ??. simpl in *.
  unfold emptiest. rewrite fquot_lt by lia. done.
Qed.

(** What a turn of the loop does. *)
Inductive dealt (first : bool) (room : LaneCounts) : LaneCounts → Prop :=
| DealDelivery :
    ln_delivery room < ln_delivery headroom →
    (first = false → ln_advisory room < ln_advisory headroom →
     (ln_delivery held + ln_delivery room) * ln_advisory wanted
     ≤ (ln_advisory held + ln_advisory room) * ln_delivery wanted) →
    dealt first room (mkLanes (ln_delivery room + 1) (ln_advisory room))
| DealAdvisory :
    ln_advisory room < ln_advisory headroom →
    (ln_delivery room < ln_delivery headroom → first = false ∧
     (ln_advisory held + ln_advisory room) * ln_delivery wanted
     < (ln_delivery held + ln_delivery room) * ln_advisory wanted) →
    dealt first room (mkLanes (ln_delivery room) (ln_advisory room + 1)).

Lemma pick_lane_spec first room :
  lanes_le no_lanes room →
  match pick_lane first wanted held headroom room with
  | Some lane => dealt first room (lane_add lane room)
  | None => lanes_le headroom room
  end.
Proof using Hfit.
  intros Hroom. unfold pick_lane.
  destruct (Z.ltb_spec (ln_delivery room) (ln_delivery headroom)),
    (Z.ltb_spec (ln_advisory room) (ln_advisory headroom)); simpl.
  - destruct first; [by apply DealDelivery|]. rewrite emptiest_spec by done.
    case Z.ltb_spec; intros; [apply DealAdvisory|apply DealDelivery]; auto with lia.
  - apply DealDelivery; [done|lia].
  - apply DealAdvisory; [done|lia].
  - done.
Qed.

Lemma dealt_grows first room room' :
  lanes_le no_lanes room → lanes_le room headroom → dealt first room room' →
  lanes_le room room' ∧ lanes_le room' headroom ∧ lane_sum room' = lane_sum room + 1.
Proof using. intros [??] [??] []; unfold lanes_le, lane_sum; simpl in *; lia. Qed.

Lemma deal_bounds n first room :
  lanes_le no_lanes room → lanes_le room headroom →
  let out := deal n first wanted held headroom room in
  lanes_le room out ∧ lanes_le out headroom ∧
  lane_sum out = Z.min (lane_sum room + Z.of_nat n) (lane_sum headroom).
Proof using Hfit.
  revert first room. induction n as [|n IH]; intros first room H0 H1; simpl.
  { destruct H0, H1. unfold lanes_le, lane_sum in *. lia. }
  pose proof (pick_lane_spec first room H0) as Hp.
  destruct (pick_lane _ _ _ _ _) as [lane|].
  - apply dealt_grows in Hp as (Hg & Hg' & Hs); [|done..].
    destruct (IH false (lane_add lane room)) as ([??] & [??] & Hsum);
      [by etrans|done|].
    destruct Hg. rewrite Hsum, Hs. unfold lanes_le in *. lia.
  - destruct Hp, H1. unfold lanes_le, lane_sum in *. lia.
Qed.

Lemma deal_envy n first room :
  lanes_le no_lanes room → lanes_le room headroom → (first = true → room = no_lanes) →
  envy_free wanted held headroom room →
  envy_free wanted held headroom (deal n first wanted held headroom room).
Proof using Hfit.
  revert first room. induction n as [|n IH]; intros first room H0 H1 Hfirst He; simpl; [done|].
  pose proof (pick_lane_spec first room H0) as Hp.
  destruct (pick_lane _ _ _ _ _) as [lane|]; [|done].
  destruct (dealt_grows _ _ _ H0 H1 Hp) as (? & ? & _).
  apply IH; [by etrans|done..|].
  pose proof Hfit as [(? & ? & ? & ?) (? & ? & ? & ?)]. destruct H0, He as [Ha Hd].
  inversion Hp as [Hlt Hle E|Hlt Hle E]; rewrite <-E in *; split; simpl in *; intros.
  - assert (ln_delivery room < ln_delivery headroom) by lia. nia.
  - destruct first; [rewrite Hfirst in * by done; simpl in *; lia|].
    replace (ln_delivery held + (ln_delivery room + 1) - 1) with (ln_delivery held + ln_delivery room) by lia.
    auto.
  - replace (ln_advisory held + (ln_advisory room + 1) - 1) with (ln_advisory held + ln_advisory room) by lia.
    by apply Hle.
  - specialize (Hd ltac:(lia) ltac:(lia)). nia.
Qed.

Lemma deal_first n :
  (0 < n)%nat → 0 < ln_delivery headroom →
  1 ≤ ln_delivery (deal n true wanted held headroom no_lanes).
Proof using Hfit.
  intros Hn Hd. destruct n as [|n]; [lia|]. simpl.
  assert (∃ lane, pick_lane true wanted held headroom no_lanes = Some lane ∧
            lane_add lane no_lanes = mkLanes 1 0) as (lane & -> & ->).
  { unfold pick_lane. simpl. rewrite (proj2 (Z.ltb_lt _ _) Hd).
    destruct (0 <? ln_advisory headroom); by eexists. }
  destruct (deal_bounds n false (mkLanes 1 0)) as ([??] & _); [by split| |done].
  destruct Hfit as [_ (? & ? & _)]. split; simpl; lia.
Qed.
End Dealing.

(** ** Opening lanes *)

Definition of_bool (b : bool) : Z := if b then 1 else 0.

Lemma count_of_cons {A} (p : A → bool) x l : count_of p (x :: l) = of_bool (p x) + count_of p l.
Proof.
  unfold count_of. rewrite filter_cons. destruct (p x); simpl; lia.
Qed.

Lemma count_of_filter {A} (p q : A → bool) l :
  count_of p (filter (λ x, q x = true) l) = count_of (λ x, q x && p x) l.
Proof.
  induction l as [|x l IH]; [done|]. rewrite filter_cons, count_of_cons.
  destruct (q x) eqn:E; simpl; rewrite ?count_of_cons; lia.
Qed.

Lemma count_of_nonneg {A} (p : A → bool) l : 0 ≤ count_of p l.
Proof. unfold count_of. lia. Qed.

Lemma headroom_fits wanted rows lanes :
  1 ≤ ln_delivery wanted ≤ 100 → 0 ≤ ln_advisory wanted ≤ 100 →
  lanes_fit wanted (held_by rows) (headroom_of wanted (held_by rows) lanes).
Proof.
  intros. pose proof (count_of_nonneg (in_lane "delivery") rows).
  pose proof (count_of_nonneg (in_lane "advisory") rows).
  unfold lanes_fit, lane_fits, headroom_of, held_by; simpl; repeat case_match; lia.
Qed.

Lemma lane_max_tasks_bounds policy wanted :
  lane_max_tasks policy = Ok wanted → 1 ≤ ln_delivery wanted ≤ 100 ∧ 0 ≤ ln_advisory wanted ≤ 100.
Proof. unfold lane_max_tasks. intros (? & ? & _)%validate_max_tasks_ok. done. Qed.

Lemma ceiling_pos `{Environ} ceiling : factory_max_concurrent_tasks = Ok ceiling → 1 ≤ ceiling.
Proof. unfold factory_max_concurrent_tasks. intros. res_inv. lia. Qed.

(** The slots not held, under a ceiling. *)
Definition free_slots (ceiling : Z) (holders : list FactoryReceipt) : Z :=
  Z.max 0 (ceiling - lane_sum (held_by holders)).

(** What [open_lanes] opens, for the receipts that hold slots. *)
Record opened (wanted : LaneCounts) (ceiling : Z) (holders : list FactoryReceipt) (lanes : list string)
    (room : LaneCounts) : Prop := mkOpened
  { op_nonneg : lanes_le no_lanes room;
    op_headroom : lanes_le room (headroom_of wanted (held_by holders) lanes);
    op_conserving : lane_sum room =
      Z.min (free_slots ceiling holders) (lane_sum (headroom_of wanted (held_by holders) lanes));
    op_fair : free_slots ceiling holders < lane_sum (headroom_of wanted (held_by holders) lanes) →
      envy_free wanted (held_by holders) (headroom_of wanted (held_by holders) lanes) room;
    op_delivery : 0 < free_slots ceiling holders →
      0 < ln_delivery (headroom_of wanted (held_by holders) lanes) → 1 ≤ ln_delivery room }.

Lemma open_lanes_opened `{Environ} policy rows lanes unresolved holders wanted ceiling :
  execution_slot_holders policy rows true unresolved = Ok holders →
  lane_max_tasks policy = Ok wanted → factory_max_concurrent_tasks = Ok ceiling →
  ∃ room, open_lanes policy rows lanes unresolved = Ok room ∧ opened wanted ceiling holders lanes room.
Proof.
  intros Hr Hw Hc. unfold open_lanes. rewrite Hr. simpl. rewrite Hw. simpl. rewrite Hc. simpl.
  eexists. split; [done|].
  destruct (lane_max_tasks_bounds _ _ Hw) as [Bd Ba].
  pose proof (headroom_fits wanted holders lanes Bd Ba) as Hfit.
  fold (free_slots ceiling holders).
  set (headroom := headroom_of _ _ _) in *. set (free := free_slots _ _).
  assert (0 ≤ free) by (unfold free, free_slots; lia).
  assert (lanes_le no_lanes headroom) as Hnn.
  { destruct Hfit as [(?&?&?) (?&?&?)]. by split. }
  destruct (Z.leb_spec (lane_sum headroom) free).
  { split; try fold headroom; try fold free; [done..|lia|lia|lia]. }
  destruct (deal_bounds _ _ _ Hfit (Z.to_nat free) true no_lanes) as (Hl & Hh & Hs); [done..|].
  split; try fold headroom; try fold free; [done..| | |].
  - rewrite Hs. unfold lane_sum at 1. simpl. lia.
  - intros _. apply deal_envy; [done..|split; simpl; lia].
  - intros Hf Hd. apply (deal_first _ _ _ Hfit); [lia|done].
Qed.

(** * Factory lanes: theorems

    The split of the chart ceiling between the lanes, the agreement of the
    admission query with the eligibility rule, and the limits of a lane. *)

(** ** The split *)

(** For any receipts, [open_lanes] opens in each requested lane at most the
    lane's maximum less what it holds, opens every free slot of the chart
    ceiling that a lane can use and not one more, gives delivery the first, and
    below the sum of the maxima deals the rest to the lane furthest from its
    own maximum: the last slot a lane got found it no fuller, as an exact
    fraction of its maximum, than the other lane ends. *)
Theorem open_lanes_split `{Environ} policy rows lanes unresolved holders wanted ceiling :
  execution_slot_holders policy rows true unresolved = Ok holders →
  lane_max_tasks policy = Ok wanted → factory_max_concurrent_tasks = Ok ceiling →
  ∃ room, open_lanes policy rows lanes unresolved = Ok room ∧ opened wanted ceiling holders lanes room.
Proof. apply open_lanes_opened. Qed.

(** With exactly one free slot and room in both lanes, delivery gets it
    however much delivery holds and however little advisory holds; with two or
    more, an advisory lane that holds nothing gets one. *)
Theorem advisory_needs_two_slots `{Environ} policy rows unresolved holders wanted ceiling :
  execution_slot_holders policy rows true unresolved = Ok holders →
  lane_max_tasks policy = Ok wanted → factory_max_concurrent_tasks = Ok ceiling →
  ln_delivery (held_by holders) < ln_delivery wanted →
  ln_advisory (held_by holders) < ln_advisory wanted →
  ∃ room, open_lanes policy rows LANES unresolved = Ok room ∧
    (free_slots ceiling holders = 1 → room = mkLanes 1 0) ∧
    (2 ≤ free_slots ceiling holders → ln_advisory (held_by holders) = 0 → 1 ≤ ln_advisory room).
Proof.
  intros Hr Hw Hc Hd Ha.
  destruct (open_lanes_opened policy rows LANES unresolved _ _ _ Hr Hw Hc) as (room & E & [Hnn Hh Hs He Hdel]).
  exists room. split; [done|].
  destruct (lane_max_tasks_bounds _ _ Hw) as [Bd Ba].
  pose proof (count_of_nonneg (in_lane "delivery") holders) as Nd.
  pose proof (count_of_nonneg (in_lane "advisory") holders) as Na.
  set (headroom := headroom_of wanted (held_by holders) LANES) in *.
  assert (ln_delivery headroom = ln_delivery wanted - ln_delivery (held_by holders) ∧
          ln_advisory headroom = ln_advisory wanted - ln_advisory (held_by holders)) as [Ed Ea].
  { clear - Hd Ha. unfold headroom, headroom_of, held_by in *. cbn [ln_delivery ln_advisory] in *.
    change (str_in "delivery" LANES) with true. change (str_in "advisory" LANES) with true. cbv iota. lia. }
  clearbody headroom. destruct Hnn as [Hnd Hna], Hh as [Hhd Hha]. simpl in Hnd, Hna, Nd, Na.
  destruct room as [d a]. unfold lane_sum in *. simpl in *. split.
  - intros Ef. rewrite Ef in *. f_equal; lia.
  - intros Hf Hz. destruct (Z_lt_le_dec 0 a) as [|Hle]; [lia|]. exfalso.
    assert (a = 0) by lia. subst a. assert (2 ≤ d) by lia.
    destruct He as [_ He]; [lia|]. simpl in He. specialize (He ltac:(lia) ltac:(lia)).
    rewrite Hz in He. simpl in He. nia.
Qed.

(** The lane limits reported to an operator: delivery always keeps at least
    one slot, the two never exceed the chart ceiling together, and they are the
    posted maxima exactly when no shortfall is reported. *)
Theorem lane_limits_within `{Environ} policy wanted ceiling :
  lane_max_tasks policy = Ok wanted → factory_max_concurrent_tasks = Ok ceiling →
  ∃ limits, lane_limits policy = Ok limits ∧ 1 ≤ ln_delivery limits ≤ ln_delivery wanted ∧
    0 ≤ ln_advisory limits ≤ ln_advisory wanted ∧ concurrency_limit policy = Ok (lane_sum limits) ∧
    lane_sum limits ≤ ceiling ∧
    (ceiling_below_lanes policy = Ok None ↔ limits = wanted).
Proof.
  intros Hw Hc. destruct (lane_max_tasks_bounds _ _ Hw) as [Bd Ba]. pose proof (ceiling_pos _ Hc).
  assert (lane_limits policy = Ok (mkLanes (Z.max 1 (Z.min (ln_delivery wanted) ceiling))
    (Z.max 0 (Z.min (ln_advisory wanted) (ceiling - Z.max 1 (Z.min (ln_delivery wanted) ceiling)))))) as El.
  { unfold lane_limits. rewrite Hc. simpl. by rewrite Hw. }
  eexists. split; [exact El|]. unfold concurrency_limit. rewrite El. simpl.
  split; [lia|]. split; [lia|]. split; [done|]. unfold lane_sum. simpl. split; [lia|].
  unfold ceiling_below_lanes, lane_sum. rewrite Hw. simpl. rewrite Hc. simpl.
  destruct wanted as [d a]. simpl in *. case_match eqn:E; [apply Z.leb_le in E|apply Z.leb_gt in E]; split; intros Hq.
  - f_equal; lia.
  - done.
  - done.
  - exfalso. injection Hq. lia.
Qed.

(** ** Eligibility *)

(** What the eligibility rules read of an accepted policy. *)
Record readable (p : dict) (r : string) (l : list Z) (intake block refill : dict) : Prop := mkReadable
  { rd_repo : assoc_get "repo" p = Some (PStr r);
    rd_issues : assoc_get "issue_numbers" p = Some (ints l);
    rd_intake : intake_policy p = Ok intake;
    rd_problems : problem_issues_policy p = Ok block;
    rd_refill : refill_normalize p = Ok refill }.

Lemma validated_readable v p :
  validate_policy v = Ok p → ∃ r l intake block refill, readable p r l intake block refill.
Proof.
  intros (policy & s & -> & Hch & H)%validate_policy_inv.
  pose proof (again_refill _ _ _ Hch H) as Hr. unfold policy_refill in Hr.
  apply res_bind_ok in Hr as (refill & Hr & _).
  destruct (acc_blocks _ _ _ H) as (_ & _ & _ & Hpr & _).
  exists (st_repo s), (st_issues s), (st_intake s), (st_problems s), refill. split; [| | | |done].
  - exact (again_get _ _ _ Hch H 0%nat _ _ eq_refl eq_refl).
  - exact (again_get _ _ _ Hch H 1%nat _ _ eq_refl eq_refl).
  - exact (again_intake _ _ _ Hch H).
  - unfold problem_issues_policy, dict_get. rewrite (again_get _ _ _ Hch H 20%nat _ _ eq_refl eq_refl).
    apply problem_issues_stable in Hpr. unfold or_empty. simpl. by destruct (st_problems s).
Qed.

Lemma xeq_sym x y : xeq x y = xeq y x.
Proof.
  unfold xeq. destruct x as [m e|[]|], y as [m' e'|[]|]; try done.
  unfold xcompare. rewrite (Z.min_comm e' e), Z.compare_antisym. cbv zeta. by destruct (_ ?= _).
Qed.

Lemma py_eq_int_sym v z : py_eq v (PInt z) = py_eq (PInt z) v.
Proof. destruct v; try done; unfold py_eq; cbn [xnum_of]; apply xeq_sym. Qed.

Lemma in_ints z l : existsb (py_eq (PInt z)) (PInt <$> l) = bool_decide (z ∈ l).
Proof.
  apply eq_true_iff_eq. rewrite existsb_exists, bool_decide_eq_true. setoid_rewrite <-list_elem_of_In. split.
  - intros (v & (w & -> & Hw)%list_elem_of_fmap & E). simpl in E.
    unfold xeq, xcompare in E. simpl in E. rewrite !Z.mul_1_r in E.
    destruct (Z.compare_spec z w); [by subst|done..].
  - intros Hz. exists (PInt z). split; [by apply list_elem_of_fmap_2|].
    simpl. unfold xeq, xcompare. simpl. by rewrite Z.compare_refl.
Qed.

Lemma allowlisted_ints p z l :
  assoc_get "issue_numbers" p = Some (ints l) → allowlisted p z = Ok (bool_decide (z ∈ l)).
Proof.
  intros Hl. unfold allowlisted, dict_get. rewrite Hl. unfold ints. simpl default.
  destruct l as [|x l]; [done|]. change (truthy (PList (PInt <$> x :: l))) with true. cbn [negb].
  replace (existsb (λ v, is_list v || is_dict v) (PInt <$> x :: l)) with false.
  2: { clear Hl. induction (x :: l) as [|y l' IH]; [done|]. simpl. exact IH. }
  by rewrite in_ints.
Qed.

Lemma intake_batch p intake :
  intake_policy p = Ok intake → ∃ ns, dict_get "refinement_batch" intake = ints ns.
Proof. unfold intake_policy, _validate_intake. intros H. res_inv. subst. by eexists. Qed.

Section agree.
Context (p : dict) (r : string) (l : list Z) (intake block refill : dict).
Hypothesis Hp : readable p r l intake block refill.
Let batch := list_at intake "refinement_batch".

(** The clause of the query on a receipt, read off an accepted policy. *)
Lemma eligible_clause_eq row :
  _eligible_clause p row = Ok (
    ((bool_decide (rc_issue_number row ∈ l) && negb (bool_decide (rc_actor row = BACKLOG_REFILL_ACTOR))) ||
     intake_eligible p intake (rc_issue_number row) (rc_actor row) (rc_task_class row) (Some (rc_repo row)) ||
     (truthy (dict_get "enabled" refill) && negb (truthy (PList batch)) &&
      (bool_decide (rc_actor row = BACKLOG_REFILL_ACTOR) && (rc_issue_number row =? 7366) &&
       bool_decide (rc_task_class row = Some "advisory-diagnosis"%string) &&
       negb (bool_decide (rc_recurrence_key row = ""%string)) && bool_decide (rc_repo row = r))) ||
     (scout_enabled block && (bool_decide (rc_actor row = SCOUT_ACTOR) &&
                              py_eq (PInt (rc_issue_number row)) (scout_issue block))))).
Proof using Hp.
  destruct Hp as [Hrepo Hl Hi Hb Hf]. unfold _eligible_clause, policy_index. rewrite Hl, Hrepo. cbn [mbind res_bind].
  rewrite Hi. cbn [mbind res_bind]. unfold ints. rewrite in_ints.
  unfold intake_eligible. replace (dict_get "repo" p) with (PStr r) by (unfold dict_get; by rewrite Hrepo).
  fold batch. rewrite Hb, Hf.
  change (py_eq (PStr (rc_repo row)) (PStr r)) with (bool_decide (rc_repo row = r)).
  destruct (truthy (dict_get "enabled" intake)), (truthy (PList batch)); cbn [mbind res_bind negb andb orb];
    rewrite ?andb_false_r, ?andb_true_r;
    destruct (truthy (dict_get "enabled" refill)); cbn [mbind res_bind negb andb orb];
    destruct (scout_enabled block); apply (f_equal Ok); btauto.
Qed.

Lemma admission_eligible_eq row :
  ∃ b, admission_eligible p (rc_issue_number row) (rc_actor row) (rc_task_class row) (Some (rc_repo row)) = Ok b ∧
    _eligible_clause p row =
      Ok (b && negb (bool_decide (rc_actor row = BACKLOG_REFILL_ACTOR) &&
                     bool_decide (rc_recurrence_key row = ""%string))).
Proof using Hp.
  rewrite eligible_clause_eq. destruct Hp as [Hrepo Hl Hi Hb Hf]. unfold admission_eligible, refill_eligible.
  rewrite (allowlisted_ints p _ l Hl), Hi, Hb, Hf. unfold policy_index. rewrite Hrepo. cbn [mbind res_bind].
  change (py_eq (PStr (rc_repo row)) (PStr r)) with (bool_decide (rc_repo row = r)).
  replace (dict_get "refinement_batch" intake) with (PList batch)
    by (destruct (intake_batch _ _ Hi) as [ns E]; unfold batch, list_at; by rewrite E).
  unfold intake_eligible. fold batch.
  destruct (decide (rc_actor row = BACKLOG_REFILL_ACTOR)) as [->|Hnr].
  - change (bool_decide (BACKLOG_REFILL_ACTOR = INTAKE_ACTOR)) with false.
    change (bool_decide (BACKLOG_REFILL_ACTOR = SCOUT_ACTOR)) with false.
    rewrite bool_decide_eq_true_2 by done. cbn [negb andb]. rewrite !andb_false_r. cbn [orb andb].
    rewrite orb_false_r.
    destruct (truthy (dict_get "enabled" refill)), (truthy (PList batch)); cbn [negb andb orb];
      [by eexists| |by eexists..].
    destruct (rc_issue_number row =? 7366), (bool_decide (rc_task_class row = _)); cbn [negb andb orb];
      [|by eexists..].
    eexists. split; [done|]. apply (f_equal Ok). btauto.
  - rewrite (bool_decide_eq_false_2 (rc_actor row = BACKLOG_REFILL_ACTOR)) by done. cbn [negb andb].
    rewrite !andb_false_r, !andb_true_r, orb_false_r.
    destruct (bool_decide (rc_issue_number row ∈ l)); [by eexists|].
    destruct (decide (rc_actor row = SCOUT_ACTOR)) as [->|Hns].
    + rewrite bool_decide_eq_true_2 by done. change (bool_decide (SCOUT_ACTOR = INTAKE_ACTOR)) with false.
      cbn [negb andb orb]. eexists. split; [done|]. by rewrite andb_true_r, py_eq_int_sym.
    + rewrite (bool_decide_eq_false_2 (rc_actor row = SCOUT_ACTOR)) by done. cbn [negb andb orb].
      eexists. split; [done|]. by rewrite !andb_false_r, orb_false_r, andb_true_r.
Qed.
End agree.

(** For every policy [validate_policy] accepts and every receipt, the
    admission query's clause and the eligibility rule the slot count and the
    submit path use both return, and they agree, but for a backlog-refill receipt with an
    empty recurrence key, which the query never picks. *)
Theorem eligible_clause_agrees v p row :
  validate_policy v = Ok p →
  ∃ b, admission_eligible p (rc_issue_number row) (rc_actor row) (rc_task_class row) (Some (rc_repo row)) = Ok b ∧
    _eligible_clause p row =
      Ok (b && negb (bool_decide (rc_actor row = BACKLOG_REFILL_ACTOR) &&
                     bool_decide (rc_recurrence_key row = ""%string))).
Proof.
  intros (r & l & intake & block & refill & Hp)%validated_readable.
  exact (admission_eligible_eq p r l intake block refill Hp row).
Qed.
