(* ===== verification/Capacity.v ===== *)
(** * Factory lanes: holding, releasing and reacquiring capacity

    [execution_capacity_available] and the durable release intents of
    [factory_controls.py]: an operator's resume or hold release is recorded on
    the receipt, tried at once and retried by the reconciler until the lane has
    room. *)

From Stdlib Require Import SpecFloat.
From stdpp Require Import prelude list strings pretty.
From S2P Require Import Prelude PyValue GraphData GraphPlan WorkItems ModelPool PolicyData Policy Controls Lanes.
Local Open Scope Z_scope.

Definition active_receipts (db : FDB) : list FactoryReceipt :=
  filter (λ r, is_active r = true) (f_receipts db).

Definition execution_capacity_available `{Environ} (db : FDB) (row : FactoryReceipt) : res bool :=
  let policy := ct_policy_json (f_control db) in
  let unresolved := Some (unresolved_start_task_ids db) in
  self ← execution_slot_holders policy [row] false unresolved;
  if truthy (PList ((λ _, PNone) <$> self)) then Ok true else
  let lane := lane_of row in
  occupying ← execution_slot_holders policy (active_receipts db) false unresolved;
  slug ← normalize_repo (PStr (rc_repo row));
  stored ← _stored_repos policy;
  if negb (has_key slug stored) then Ok false else
  let held := count_of (λ o, bool_decide (rc_repo o = rc_repo row) && in_lane lane o) occupying in
  limits ← repo_lane_limits policy (rc_repo row);
  if negb (held <? lane_get lane limits) then Ok false else
  room ← open_lanes policy occupying [lane] unresolved;
  Ok (0 <? lane_get lane room).

Definition human_owned (db : FDB) (row : FactoryReceipt) : bool :=
  match rc_work_item_id row with
  | Some id =>
      negb (id =? 0) &&
      match find_first (λ i, wi_id i =? id) (f_items db) with
      | Some item => str_in "human" (py_lower <$> wi_labels item)
      | None => false
      end
  | None => false
  end.

Definition _capacity_release_refusal (db : FDB) (row : FactoryReceipt) : option string :=
  if rc_cancellation_requested row then Some "cancellation_pending"%string else
  if negb (is_active row) then Some "task_not_active"%string else
  if negb (str_in (ct_state (f_control db)) ["enabled"; "paused"]) then Some (ct_state (f_control db)) else
  if human_owned db row then Some "human_owned"%string else None.

Definition with_direction (direction : dict) (row : FactoryReceipt) : FactoryReceipt :=
  mkReceipt (rc_id row) (rc_repo row) (rc_issue_number row) (rc_generation row) (rc_title row)
    (rc_body row) (rc_url row) (rc_actor row) (rc_task_class row) (rc_recurrence_key row)
    (rc_routing_tier row) (rc_state row) (rc_task_id row) (rc_policy_json row) (rc_allowance_json row)
    (Some direction) (rc_work_item_id row) (rc_task_paused row) (rc_cancellation_requested row)
    (rc_updated_at row) (rc_escalation_json row) (rc_created_at row).
Definition with_paused (paused : bool) (now : Z) (row : FactoryReceipt) : FactoryReceipt :=
  mkReceipt (rc_id row) (rc_repo row) (rc_issue_number row) (rc_generation row) (rc_title row)
    (rc_body row) (rc_url row) (rc_actor row) (rc_task_class row) (rc_recurrence_key row)
    (rc_routing_tier row) (rc_state row) (rc_task_id row) (rc_policy_json row) (rc_allowance_json row)
    (rc_direction_json row) (rc_work_item_id row) paused (rc_cancellation_requested row) now
    (rc_escalation_json row) (rc_created_at row).

Definition PENDING_RELEASE : string := "pending_capacity_release".
Definition of_option (o : option string) : pyval := match o with Some s => PStr s | None => PNone end.

Definition revoke_capacity_release (row : FactoryReceipt) (actor reason : string) (db : FDB) : FDB :=
  let direction := direction_of row in
  match assoc_get PENDING_RELEASE direction with
  | None | Some PNone => db
  | Some intent =>
      _audit actor "execution_capacity_release_revoked" (rc_task_id row)
        [("reason", PStr reason); ("intent", intent)]%string
        (put_receipt (with_direction (dict_del PENDING_RELEASE direction) row) db)
  end.

(** The intent no longer matches the receipt it was recorded on. *)
Definition release_stale (db : FDB) (row : FactoryReceipt) (intent direction : dict)
    : res (option string) :=
  task ← policy_index "task_id" intent;
  if negb (py_eq task (of_option (rc_task_id row))) then Ok (Some "task_changed"%string) else
  match _capacity_release_refusal db row with
  | Some refusal => Ok (Some refusal)
  | None =>
      Ok match assoc_get "landing_hold" intent with
         | Some hold =>
             match assoc_get "landing_hold" direction with
             | Some current => if py_eq current hold then None else Some "landing_hold_changed"%string
             | None => Some "landing_hold_changed"%string
             end
         | None => None
         end
  end.

(** The direction after a release. *)
Definition released_direction (settling : bool) (intent direction : dict) : dict :=
  let direction :=
    if has_key "landing_hold" intent
    then dict_del "landing_hold_provenance" (dict_del "landing_hold" direction) else direction in
  if settling && truthy (dict_get "resume" intent)
  then dict_set PENDING_RELEASE (PDict (dict_del "landing_hold" intent)) direction
  else dict_del PENDING_RELEASE direction.

Definition _apply_capacity_release `{Environ} (row : FactoryReceipt) (settling : bool) : tx FDB bool := λ db,
  let direction := direction_of row in
  let intent := dict_get PENDING_RELEASE direction in
  if negb (truthy intent) then Ok (false, db) else
  match intent with
  | PDict intent =>
      stale ← release_stale db row intent direction;
      match stale with
      | Some reason =>
          actor ← policy_index "actor" intent;
          match actor with
          | PStr actor => Ok (false, revoke_capacity_release row actor reason db)
          | _ => Raise TypeError
          end
      | None =>
          if settling && negb (has_key "landing_hold" intent) then Ok (false, db) else
          let resume := truthy (dict_get "resume" intent) in
          let remains_paused := rc_task_paused row && negb resume in
          available ← (if settling || remains_paused then Ok true
                       else execution_capacity_available db row);
          if negb available then Ok (false, db) else
          actor ← policy_index "actor" intent;
          match actor with
          | PStr actor =>
              let direction' := released_direction settling intent direction in
              let row' := with_direction direction'
                (with_paused (if resume && negb settling then false else rc_task_paused row)
                   (f_now db) row) in
              Ok (true,
                  _audit actor
                    (if settling then "settled_landing_hold_released" else "execution_capacity_reacquired")
                    (rc_task_id row)
                    (("intent"%string, PDict intent) ::
                     (if has_key "landing_hold" intent
                      then [("landing_authorization"%string, dict_get "landing_authorization" direction')]
                      else []))
                    (put_receipt row' db))
          | _ => Raise TypeError
          end
      end
  | _ => Raise TypeError
  end.

Inductive ReleaseResult :=
| ReleaseRefused (reason : string)
| ReleaseRecorded (pending : bool).

Definition request_capacity_release `{Environ, IsoFormat} (row : FactoryReceipt) (actor : string)
    (resume release_hold : bool) : tx FDB ReleaseResult := λ db,
  match _capacity_release_refusal db row with
  | Some refusal => Ok (ReleaseRefused refusal, db)
  | None =>
      let direction := direction_of row in
      let stored := dict_get PENDING_RELEASE direction in
      intent ← (if truthy stored then as_object stored
                else Ok [("task_id", of_option (rc_task_id row)); ("actor", PStr actor);
                         ("requested_at", PStr (isoformat (mkDatetime (f_now db) (Some 0))))]%string);
      let intent := if resume then dict_set "resume" (PBool true) intent else intent in
      let intent :=
        match assoc_get "landing_hold" direction with
        | Some hold => if release_hold then dict_set "landing_hold" hold intent else intent
        | None => intent
        end in
      let row := with_direction (dict_set PENDING_RELEASE (PDict intent) direction) row in
      '(applied, db) ← _apply_capacity_release row false (put_receipt row db);
      Ok (ReleaseRecorded (negb applied), db)
  end.

(** The rows are the session's own objects, so each turn of the loop sees the
    writes of the ones before it. *)
Fixpoint retry_loop `{Environ} (ids : list Z) (resumed : Z) (db : FDB) : res (Z * FDB) :=
  match ids with
  | [] => Ok (resumed, db)
  | id :: ids =>
      match find_first (λ r, rc_id r =? id) (f_receipts db) with
      | None => retry_loop ids resumed db
      | Some row =>
          '(applied, db) ← _apply_capacity_release row false db;
          let c := f_control db in
          if (applied : bool)
          then retry_loop ids (resumed + 1)
                 (put_control (mkControl (ct_state c) (ct_policy_json c) (ct_admitted_count c)
                                 (ct_version c + 1) (f_now db) (ct_actor c) (ct_stopped_at c)) db)
          else retry_loop ids resumed db
      end
  end.

Definition retry_capacity_releases `{Environ} : tx FDB Z := λ db,
  if negb (str_in (ct_state (f_control db)) ["enabled"; "paused"]) then Ok (0, db)
  else retry_loop (rc_id <$> active_receipts db) 0 db.
