(* ===== verification/CapacityClaims.v ===== *)
(** * Factory lanes: capacity is never oversubscribed

    Resuming held tasks, at once or from the reconciler's retries, never takes
    the receipts that hold slots past the chart ceiling or a lane past its
    maximum. *)

From Stdlib Require Import SpecFloat.
From stdpp Require Import prelude list strings.
From S2P Require Import Prelude PyValue GraphData GraphPlan WorkItems ModelPool PolicyData Policy PolicyFacts Controls Lanes LaneClaims Capacity.
Local Open Scope Z_scope.

(** ** The receipts that hold slots *)

(** The closure [holds] without queued receipts: it reads no policy. *)
Definition occupies `{Environ} (ids : list string) (r : FactoryReceipt) : bool :=
  is_active r &&
  (negb (rc_task_paused r || landing_held r) ||
   match rc_task_id r with
   | None => true
   | Some t => bool_decide (t = ""%string) || str_in t ids
   end).
Definition occupying `{Environ} (db : FDB) : list FactoryReceipt :=
  filter (λ r, occupies (unresolved_start_task_ids db) r = true) (f_receipts db).

(** The table's constraints: primary keys are unique and a route is a lane. *)
Record receipts_wf (db : FDB) : Prop := mkReceiptsWf
  { rw_ids : NoDup (rc_id <$> f_receipts db);
    rw_lanes : Forall (λ r, rc_routing_tier r ∈ [None; Some "delivery"; Some "advisory"]%string)
                 (f_receipts db) }.

Lemma holds_slot_occupies `{Environ} policy ids r :
  holds_slot policy false (Some ids) r = Ok (occupies ids r).
Proof. unfold holds_slot, occupies. by destruct (is_active r). Qed.

Lemma slot_holders_filter `{Environ} policy ids rows :
  execution_slot_holders policy rows false (Some ids) = Ok (filter (λ r, occupies ids r = true) rows).
Proof.
  unfold execution_slot_holders. induction rows as [|r rows IH]; [done|]. simpl.
  rewrite holds_slot_occupies. simpl. rewrite IH, filter_cons. simpl.
  by destruct (occupies ids r).
Qed.

(** Receipts that hold a slot hold one with queued receipts counted too. *)
Lemma slot_holders_again `{Environ} policy ids rows :
  Forall (λ r, occupies ids r = true) rows →
  execution_slot_holders policy rows true (Some ids) = Ok rows.
Proof.
  unfold execution_slot_holders. induction 1 as [|r rows Hr _ IH]; [done|]. simpl.
  assert (holds_slot policy true (Some ids) r = Ok true) as ->; [|simpl; by rewrite IH].
  unfold occupies in Hr. unfold holds_slot. apply andb_prop in Hr as [-> ->]. done.
Qed.

Lemma occupying_active `{Environ} db ids :
  filter (λ r, occupies ids r = true) (active_receipts db) =
  filter (λ r, occupies ids r = true) (f_receipts db).
Proof.
  unfold active_receipts. rewrite list_filter_filter. apply list_filter_iff. intros r. split; [by intros []|].
  intros Hr. split; [done|]. unfold occupies in Hr. by apply andb_prop in Hr as [].
Qed.

Lemma lane_known `{Environ} db row :
  receipts_wf db → row ∈ f_receipts db → lane_of row ∈ LANES.
Proof.
  intros [_ Hl]. rewrite Forall_forall in Hl. intros Ht%Hl. unfold lane_of, lane_for, LANES.
  repeat (apply elem_of_cons in Ht as [->|Ht]); [destruct (is_advisory _); simpl; set_solver..|].
  by apply elem_of_nil in Ht.
Qed.

Lemma held_get lane rows :
  lane ∈ LANES → lane_get lane (held_by rows) = count_of (in_lane lane) rows.
Proof. intros [->|[->|[]%elem_of_nil]%elem_of_cons]%elem_of_cons; done. Qed.

(** A lane with room is below its maximum, and the factory below its ceiling. *)
Lemma open_lanes_room `{Environ} policy db lanes room lane :
  lane ∈ LANES → open_lanes policy (occupying db) lanes (Some (unresolved_start_task_ids db)) = Ok room →
  0 < lane_get lane room →
  ∃ wanted ceiling, lane_max_tasks policy = Ok wanted ∧ factory_max_concurrent_tasks = Ok ceiling ∧
    lane_get lane (held_by (occupying db)) < lane_get lane wanted ∧ lane_sum (held_by (occupying db)) < ceiling.
Proof.
  intros Hlane Hroom Hpos.
  assert (execution_slot_holders policy (occupying db) true (Some (unresolved_start_task_ids db)) = Ok (occupying db)) as Hh.
  { apply slot_holders_again, Forall_forall. by intros r [Hr _]%list_elem_of_filter. }
  destruct (lane_max_tasks policy) as [wanted|e] eqn:Hw; cycle 1.
  { unfold open_lanes in Hroom. rewrite Hh in Hroom. simpl in Hroom. by rewrite Hw in Hroom. }
  destruct factory_max_concurrent_tasks as [ceiling|e] eqn:Hc; cycle 1.
  { unfold open_lanes in Hroom. rewrite Hh in Hroom. simpl in Hroom. rewrite Hw in Hroom. simpl in Hroom.
    by rewrite Hc in Hroom. }
  destruct (open_lanes_opened _ _ lanes _ _ _ _ Hh Hw Hc) as (room' & E & [Hnn Hle Hs _ _]).
  rewrite Hroom in E. injection E as <-. exists wanted, ceiling. split; [done|]. split; [done|].
  assert (0 < free_slots ceiling (occupying db)) as Hf.
  { destruct Hnn as [Hd Ha]. change (0 ≤ ln_delivery room) in Hd. change (0 ≤ ln_advisory room) in Ha.
    unfold lane_sum in Hs. unfold lane_get in Hpos. case_bool_decide; lia. }
  split; [|unfold free_slots in Hf; lia].
  destruct Hle as [Hld Hla]. clear Hs Hf Hroom. unfold headroom_of in Hld, Hla.
  cbn [ln_delivery ln_advisory] in Hld, Hla. unfold lane_get in *. case_bool_decide.
  - destruct (str_in "delivery" _); lia.
  - destruct (str_in "advisory" _); lia.
Qed.

(** Capacity is available to a receipt that holds a slot already, or when its
    lane, its repository and the ceiling each have one more. *)
Lemma capacity_available `{Environ} db row :
  lane_of row ∈ LANES → execution_capacity_available db row = Ok true →
  occupies (unresolved_start_task_ids db) row = true ∨
  ∃ wanted ceiling, lane_max_tasks (ct_policy_json (f_control db)) = Ok wanted ∧
    factory_max_concurrent_tasks = Ok ceiling ∧
    lane_get (lane_of row) (held_by (occupying db)) < lane_get (lane_of row) wanted ∧
    lane_sum (held_by (occupying db)) < ceiling.
Proof.
  intros Hlane. unfold execution_capacity_available. rewrite !slot_holders_filter. cbn [mbind res_bind].
  rewrite filter_cons. destruct (decide (occupies _ row = true)) as [Ho|Ho]; [by left|].
  simpl truthy. rewrite occupying_active. fold (occupying db). intros Hav. right.
  cbn [mbind res_bind] in Hav.
  apply res_bind_ok in Hav as (slug & _ & Hav). apply res_bind_ok in Hav as (stored & _ & Hav).
  destruct (negb (has_key slug stored)); [done|].
  apply res_bind_ok in Hav as (limits & _ & Hav). case_match; [done|].
  apply res_bind_ok in Hav as (room & Hroom & Hav). injection Hav as Hpos%Z.ltb_lt.
  by apply (open_lanes_room _ _ _ _ _ Hlane Hroom).
Qed.

(** ** Replacing one receipt *)

(** The receipt keeps its key, its task and its lane. *)
Definition same_lane (row row' : FactoryReceipt) : Prop :=
  rc_id row' = rc_id row ∧ rc_routing_tier row' = rc_routing_tier row ∧ lane_of row' = lane_of row.

Lemma count_replaced (p : FactoryReceipt → bool) row row' (l : list FactoryReceipt) :
  NoDup (rc_id <$> l) → row ∈ l →
  count_of p ((λ r, if rc_id r =? rc_id row then row' else r) <$> l) =
  count_of p l - of_bool (p row) + of_bool (p row').
Proof.
  induction l as [|x l IH]; [by intros _ ?%elem_of_nil|]. intros Hnd Hin.
  csimpl in *. apply NoDup_cons in Hnd as [Hx Hnd].
  rewrite !count_of_cons. apply elem_of_cons in Hin as [<-|Hin].
  - rewrite Z.eqb_refl. replace ((λ r, if rc_id r =? rc_id row then row' else r) <$> l) with l; [lia|].
    rewrite <-(list_fmap_id l) at 1. apply list_fmap_ext. intros i r Hr%list_elem_of_lookup_2. simpl.
    case_match eqn:E; [|done]. apply Z.eqb_eq in E. destruct Hx. rewrite <-E. by apply list_elem_of_fmap_2.
  - destruct (Z.eqb_spec (rc_id x) (rc_id row)) as [E|_]; [|rewrite IH by done; lia].
    destruct Hx. rewrite E. by apply list_elem_of_fmap_2.
Qed.

Lemma fmap_replaced_ids row row' (l : list FactoryReceipt) :
  rc_id row' = rc_id row →
  rc_id <$> ((λ r, if rc_id r =? rc_id row then row' else r) <$> l) = rc_id <$> l.
Proof.
  intros E. rewrite <-list_fmap_compose. apply list_fmap_ext. intros i r _. simpl.
  by destruct (Z.eqb_spec (rc_id r) (rc_id row)) as [->|].
Qed.

(** Occupancy after a write: within the ceiling and the lane maxima, or no
    higher than it was. *)
Definition bounded `{Environ} (wanted : LaneCounts) (ceiling : Z) (db db' : FDB) : Prop :=
  lane_sum (held_by (occupying db')) ≤ Z.max ceiling (lane_sum (held_by (occupying db))) ∧
  ∀ lane, lane ∈ LANES → lane_get lane (held_by (occupying db')) ≤
    Z.max (lane_get lane wanted) (lane_get lane (held_by (occupying db))).

Section bounded.
Context `{Environ} (wanted : LaneCounts) (ceiling : Z).
#[export] Instance bounded_preorder : PreOrder (bounded wanted ceiling).
Proof.
  split; [split; [lia|intros; lia]|]. intros a b c [H1 H2] [H3 H4]. split; [lia|].
  intros lane Hl. specialize (H2 lane Hl). specialize (H4 lane Hl). lia.
Qed.

Lemma put_receipt_bounded db db' row row' :
  receipts_wf db → row ∈ f_receipts db → same_lane row row' →
  lane_max_tasks (ct_policy_json (f_control db)) = Ok wanted → factory_max_concurrent_tasks = Ok ceiling →
  (occupies (unresolved_start_task_ids db) row' = true →
   occupies (unresolved_start_task_ids db) row = true ∨ execution_capacity_available db row = Ok true) →
  f_receipts db' = (λ r, if rc_id r =? rc_id row then row' else r) <$> f_receipts db →
  f_starts db' = f_starts db →
  receipts_wf db' ∧ bounded wanted ceiling db db'.
Proof using.
  intros Hwf Hrow (Hid & Htier & Hlane) Hw Hc Hocc Er Es.
  assert (unresolved_start_task_ids db' = unresolved_start_task_ids db) as Eu
    by (unfold unresolved_start_task_ids; by rewrite Es).
  pose proof (lane_known _ _ Hwf Hrow) as Hknown. destruct Hwf as [Hnd Hl].
  split.
  { split; rewrite Er; [by rewrite fmap_replaced_ids|]. apply Forall_fmap.
    rewrite Forall_forall in Hl |- *. intros r Hr. simpl. case_match; [|by apply Hl].
    rewrite Htier. by apply Hl. }
  set (u := unresolved_start_task_ids db) in *.
  assert (∀ lane, count_of (in_lane lane) (occupying db') = count_of (in_lane lane) (occupying db) -
            of_bool (occupies u row && in_lane lane row) + of_bool (occupies u row' && in_lane lane row)) as Hcount.
  { intros lane. unfold occupying. rewrite Eu, Er, !count_of_filter, (count_replaced _ row row') by done.
    fold u. assert (in_lane lane row' = in_lane lane row) as -> by (unfold in_lane; by rewrite Hlane). done. }
  destruct (occupies u row) eqn:Ho, (occupies u row') eqn:Ho'; simpl in Hcount;
    try (split; [unfold lane_sum; simpl|intros lane Hin; rewrite !held_get by done];
         rewrite !Hcount; unfold of_bool; repeat case_match; lia).
  destruct (Hocc eq_refl) as [|Hav]; [done|].
  destruct (capacity_available _ _ Hknown Hav) as [|(w & c & Hw' & Hc' & Hlt & Hsum)]; [unfold u in Ho; congruence|].
  rewrite Hw in Hw'. rewrite Hc in Hc'. simplify_eq.
  split.
  - unfold lane_sum in *. simpl in *. rewrite !Hcount.
    assert (of_bool (in_lane "delivery" row) + of_bool (in_lane "advisory" row) ≤ 1); [|lia].
    unfold in_lane. do 2 case_bool_decide; simpl; [congruence|lia..].
  - intros lane Hin. rewrite !held_get in * by done. rewrite Hcount.
    assert (in_lane lane row = true → lane_of row = lane) as Hl' by (by intros ?%bool_decide_eq_true).
    destruct (in_lane lane row); simpl; [rewrite <-Hl' by done|]; lia.
Qed.
End bounded.

(** ** Releases *)

Lemma assoc_get_del_ne {A} k k' (d : list (string * A)) :
  k ≠ k' → assoc_get k (dict_del k' d) = assoc_get k d.
Proof.
  intros Hk. unfold dict_del. induction d as [|[a v] d IH]; [done|]. rewrite filter_cons. simpl.
  case_decide as Ha; simpl; [by rewrite IH|]. rewrite IH. by rewrite bool_decide_eq_false_2 by congruence.
Qed.

(** The two directions hold a landing alike. *)
Definition same_hold (d d' : dict) : Prop :=
  ∀ k, k ∈ ["landing_hold"; "landing_hold_provenance"; "landing_hold_refusals"]%string →
  assoc_get k d = assoc_get k d'.

Lemma same_hold_del d : same_hold (dict_del PENDING_RELEASE d) d.
Proof. intros k Hk. apply assoc_get_del_ne. intros ->. revert Hk. by apply (bool_decide_unpack _). Qed.
Lemma same_hold_set v d : same_hold (dict_set PENDING_RELEASE v d) d.
Proof. intros k Hk. apply assoc_get_set_ne. intros ->. revert Hk. by apply (bool_decide_unpack _). Qed.

Section release.
Context `{Environ}.

Lemma landing_held_same d row :
  same_hold d (direction_of row) → landing_held (with_direction d row) = landing_held row.
Proof using.
  intros Hs. unfold landing_held, planner_refused. cbn [direction_of rc_direction_json with_direction default].
  unfold has_key, dict_get, get_or. by rewrite !Hs by set_solver.
Qed.

Lemma occupies_direction ids d row :
  same_hold d (direction_of row) → occupies ids (with_direction d row) = occupies ids row.
Proof using. intros Hs. unfold occupies. by rewrite landing_held_same. Qed.

Lemma same_lane_direction d row : same_lane row (with_direction d row).
Proof using. done. Qed.
Lemma same_lane_paused b now row : same_lane row (with_paused b now row).
Proof using. done. Qed.

(** A write of one receipt that may occupy only what it held or was free. *)
Record released (row row' : FactoryReceipt) (db db' : FDB) : Prop := mkReleased
  { re_same : same_lane row row';
    re_receipts : f_receipts db' = (λ r, if rc_id r =? rc_id row then row' else r) <$> f_receipts db;
    re_starts : f_starts db' = f_starts db;
    re_control : f_control db' = f_control db;
    re_slot : occupies (unresolved_start_task_ids db) row' = true →
      occupies (unresolved_start_task_ids db) row = true ∨ execution_capacity_available db row = Ok true }.

Lemma audit_tables actor action task detail db :
  let db' := _audit actor action task detail db in
  f_receipts db' = f_receipts db ∧ f_starts db' = f_starts db ∧ f_control db' = f_control db.
Proof using. unfold _audit. by repeat case_match. Qed.

Lemma released_audited row row' actor action task detail db :
  same_lane row row' →
  (occupies (unresolved_start_task_ids db) row' = true →
   occupies (unresolved_start_task_ids db) row = true ∨ execution_capacity_available db row = Ok true) →
  released row row' db (_audit actor action task detail (put_receipt row' db)).
Proof using.
  intros Hs Ho. destruct (audit_tables actor action task detail (put_receipt row' db)) as (Hr & ? & ?).
  split; [done| |done..]. rewrite Hr. simpl. by destruct Hs as [-> _].
Qed.

Lemma revoke_released row actor reason db :
  revoke_capacity_release row actor reason db = db ∨
  ∃ row', released row row' db (revoke_capacity_release row actor reason db).
Proof using.
  unfold revoke_capacity_release. destruct (assoc_get _ _) as [[]|] eqn:E; try (by left); right; eexists.
  all: apply released_audited; [apply same_lane_direction|].
  all: rewrite occupies_direction by apply same_hold_del; auto.
Qed.

Lemma apply_released row db applied db' :
  _apply_capacity_release row false db = Ok (applied, db') →
  db' = db ∨ ∃ row', released row row' db db'.
Proof using.
  unfold _apply_capacity_release. intros Ha. case_match eqn:Ht; [simplify_eq; by left|].
  destruct (dict_get PENDING_RELEASE (direction_of row)) as [| | | | | |intent|]; try done.
  apply res_bind_ok in Ha as (stale & _ & Ha). destruct stale as [reason|].
  { apply res_bind_ok in Ha as ([] & _ & Ha); simplify_eq. apply revoke_released. }
  cbn [andb] in Ha. apply res_bind_ok in Ha as (available & Hav & Ha).
  destruct available; cbn [negb] in Ha; [|simplify_eq; by left].
  apply res_bind_ok in Ha as ([] & _ & Ha); simplify_eq. right. eexists.
  apply released_audited; [done|].
  intros Hocc. destruct (rc_task_paused row) eqn:Ep; cbn [andb orb negb] in Hav; [|by right].
  destruct (truthy (dict_get "resume" intent)); cbn [andb orb negb] in Hav; [by right|]. left.
  unfold occupies in *. simpl in Hocc. rewrite ?Ep in *. done.
Qed.
End release.

Section steps.
Context `{Environ, IsoFormat} (wanted : LaneCounts) (ceiling : Z).
Hypothesis Hc : factory_max_concurrent_tasks = Ok ceiling.

(** A state whose receipts are well formed under the posted lane maxima. *)
Definition posted (db : FDB) : Prop :=
  receipts_wf db ∧ lane_max_tasks (ct_policy_json (f_control db)) = Ok wanted.
Definition safe_step (db db' : FDB) : Prop := posted db → posted db' ∧ bounded wanted ceiling db db'.

#[local] Instance safe_preorder : PreOrder safe_step.
Proof using.
  split; [by intros db Hp|]. intros a b c Hab Hbc Ha. destruct (Hab Ha) as [Hb ?], (Hbc Hb) as [??].
  split; [done|]. by etrans.
Qed.

Lemma released_safe row row' db db' :
  row ∈ f_receipts db → released row row' db db' → safe_step db db'.
Proof using Hc.
  intros Hrow [Hs Hr Hst Hct Hslot] [Hwf Hw].
  destruct (put_receipt_bounded wanted ceiling db db' row row') as [Hwf' Hb]; [done..|].
  split; [|done]. split; [done|]. by rewrite Hct.
Qed.

Lemma apply_safe row db applied db' :
  row ∈ f_receipts db → _apply_capacity_release row false db = Ok (applied, db') → safe_step db db'.
Proof using Hc.
  intros Hrow [->|(row' & Hr)]%apply_released; [done|]. by eapply released_safe.
Qed.

(** The lock's version moves; the policy and the tables do not. *)
Lemma bump_safe db c :
  ct_policy_json c = ct_policy_json (f_control db) → safe_step db (put_control c db).
Proof using.
  intros E [[Hnd Hl] Hw]. split; [split; [by split|simpl; by rewrite E]|].
  change (bounded wanted ceiling db db). done.
Qed.

Lemma retry_safe ids n m db db' : retry_loop ids n db = Ok (m, db') → safe_step db db'.
Proof using Hc.
  revert n db. induction ids as [|id ids IH]; intros n db Hl; simpl in Hl; [by simplify_eq|].
  destruct (find_first _ _) as [row|] eqn:Hf; [|by eapply IH].
  apply find_first_Some in Hf as [Hrow _].
  apply res_bind_ok in Hl as ([applied db1] & Ha%apply_safe & Hl); [|done]. cbn beta iota in Hl.
  etrans; [exact Ha|]. destruct applied; [|by eapply IH].
  etrans; [|by eapply IH]. by apply bump_safe.
Qed.

Lemma request_safe row actor resume hold r db db' :
  row ∈ f_receipts db → request_capacity_release row actor resume hold db = Ok (r, db') → safe_step db db'.
Proof using Hc.
  intros Hrow. unfold request_capacity_release. destruct (_capacity_release_refusal db row) as [reason|].
  { intros [= _ <-]. done. }
  intros Hq. apply res_bind_ok in Hq as (intent & _ & Hq).
  match type of Hq with context [put_receipt ?row1 db] => set (row' := row1) in Hq end.
  apply res_bind_ok in Hq as ([applied db1] & Ha%apply_safe & Hq).
  - cbn beta iota in Hq. simplify_eq. etrans; [|exact Ha]. apply (released_safe row row'); [done|].
    split; [done..|]. unfold row'. rewrite occupies_direction by apply same_hold_set. auto.
  - simpl. apply list_elem_of_fmap. exists row. split; [|done]. change (rc_id row') with (rc_id row).
    by rewrite Z.eqb_refl.
Qed.
End steps.

(** An operator's request on a receipt, or the reconciler's retry. *)
Inductive release_step `{Environ, IsoFormat} (db : FDB) : FDB → Prop :=
| ReleaseRequest row actor resume hold r db' :
    row ∈ f_receipts db → request_capacity_release row actor resume hold db = Ok (r, db') → release_step db db'
| ReleaseRetry n db' : retry_capacity_releases db = Ok (n, db') → release_step db db'.

(** Whatever sequence of resume and hold-release requests and reconciler
    retries runs, the receipts holding execution slots end no more than the
    chart ceiling, and each lane no more than its posted maximum, unless they
    were over it to begin with, and then they do not grow. *)
Theorem releases_within_capacity `{Environ, IsoFormat} db db' wanted ceiling :
  receipts_wf db → lane_max_tasks (ct_policy_json (f_control db)) = Ok wanted →
  factory_max_concurrent_tasks = Ok ceiling → rtc release_step db db' →
  receipts_wf db' ∧ bounded wanted ceiling db db'.
Proof.
  intros Hwf Hw Hc Hsteps. assert (safe_step wanted ceiling db db') as Hsafe.
  { induction Hsteps as [|db db1 db2 Hstep _ IH]; [by intros Hp|].
    assert (safe_step wanted ceiling db db1) as H1.
    { destruct Hstep as [row actor resume hold r db1 Hrow Hq|n db1 Hq]; [by eapply request_safe|].
      unfold retry_capacity_releases in Hq. case_match; [by simplify_eq|]. by eapply retry_safe. }
    intros Hp. destruct (H1 Hp) as [Hp1 Hb1], Hp1 as [Hwf1 Hw1] eqn:E1.
    destruct (IH Hwf1 Hw1 Hp1) as [??]. split; [done|]. by etrans. }
  destruct (Hsafe (conj Hwf Hw)) as [[??] ?]. done.
Qed.
