(* ===== verification/Starts.v ===== *)
(** * Factory controls: the start ledger

    Accounting over start tickets, the fences of [_can_start], and the two
    writers of the ledger, [authorize_start] and [record_start_outcome]
    ([factory_controls.py]), with the scope check of an evidence recovery
    ([evidence_continuation]).  Both writers hold the control row's lock, so one
    call is one step ([tx FDB]). *)

From Stdlib Require Import SpecFloat Ascii.
From stdpp Require Import prelude list strings pretty.
From S2P Require Import Prelude PyValue GraphData GraphPlan WorkItems ModelPool PolicyData Policy Controls Lanes Capacity.
Local Open Scope Z_scope.

(** ** Limits of a task *)

Definition task_turn_ceiling (policy : dict) : res pyval :=
  match dict_get "max_task_turns_hard" policy with
  | PNone => policy_index "max_turns_per_task" policy
  | v => Ok v
  end.
Definition parallel_limit (policy : dict) : pyval :=
  match dict_get "max_parallel_nodes" policy with PNone => PInt DEFAULT_MAX_PARALLEL_NODES | v => v end.
Definition planner_turn_cap (policy : dict) : res pyval :=
  match dict_get "max_planner_turns" policy with
  | PNone => task_turn_ceiling policy
  | v => Ok v
  end.

Definition _stored_allowance (row : FactoryReceipt) (policy : dict) : res dict :=
  match rc_allowance_json row with
  | Some stored =>
      match dict_get "turns" stored with
      | PInt _ => Ok stored
      | _ => turns ← task_turn_ceiling policy; usd ← policy_index "task_budget_usd" policy;
             Ok [("turns", turns); ("usd", usd); ("graph_revision", PNone);
                 ("review_rounds_reserved", PInt 0); ("fan_ins_reserved", PInt 0);
                 ("derived", PBool false)]%string
      end
  | None => turns ← task_turn_ceiling policy; usd ← policy_index "task_budget_usd" policy;
            Ok [("turns", turns); ("usd", usd); ("graph_revision", PNone);
                ("review_rounds_reserved", PInt 0); ("fan_ins_reserved", PInt 0);
                ("derived", PBool false)]%string
  end.

(** ** Accounting *)

Definition FREE_START_BASES : list string := ["no_model_post"; "capacity_denied"; "no_session_created"].

Definition _start_node_key (row : FactoryStart) : option string := _START_KEY (ft_start_key row).
Definition _planner_start (row : FactoryStart) : bool := _planner_key (Some (ft_start_key row)).

Definition _committed_cost (row : FactoryStart) : spec_float :=
  if match ft_accounting_basis row with Some b => str_in b FREE_START_BASES | None => false end
  then fzero else
  if str_in (ft_status row) ["reserved"; "uncertain"]
  then fmax (ft_max_cost_usd row)
         (match ft_cost_usd row with
          | Some c => if truthy (PFloat c) then c else fzero
          | None => fzero
          end)
  else default (ft_max_cost_usd row) (ft_cost_usd row).

Record Accounting := mkAccounting
  { ac_turns_used : Z; ac_planner_turns_used : Z; ac_committed_cost_usd : spec_float;
    ac_unresolved_starts : Z }.

Definition denied_basis (row : FactoryStart) : bool :=
  bool_decide (ft_accounting_basis row = Some "capacity_denied"%string).
Definition unresolved (row : FactoryStart) : bool := str_in (ft_status row) _UNRESOLVED_STARTS.

(** One turn of the loop; [denied] holds the node of every denial seen. *)
Definition account_one (acc : Accounting * list (option string)) (row : FactoryStart)
    : Accounting * list (option string) :=
  let '(a, denied) := acc in
  let committed := fadd (ac_committed_cost_usd a) (_committed_cost row) in
  let open := ac_unresolved_starts a + (if unresolved row then 1 else 0) in
  let node_key := _start_node_key row in
  let seen := length (filter (λ k, k = node_key) denied) in
  let denied' := if denied_basis row then denied ++ [node_key] else denied in
  if denied_basis row && (seen <? MAX_CAPACITY_DENIED_ATTEMPTS)%nat
  then (mkAccounting (ac_turns_used a) (ac_planner_turns_used a) committed open, denied')
  else if _planner_start row
  then (mkAccounting (ac_turns_used a) (ac_planner_turns_used a + 1) committed open, denied')
  else (mkAccounting (ac_turns_used a + 1) (ac_planner_turns_used a) committed open, denied').

(** The rows come in id order. *)
Definition _accounting (starts : list FactoryStart) : Accounting :=
  (foldl account_one (mkAccounting 0 0 fzero 0, []) starts).1.

(** ** Evidence recovery *)

(** [_hash]: the digest of a JSON value and of a direction's text. *)
Class Hashing := { hash_value : pyval → string; hash_direction : option dict → string }.

(** [_aware]: a naive time is read as UTC, an unreadable one is refused. *)
Definition _aware `{IsoFormat} (v : pyval) : res Z :=
  match v with
  | PStr s => match parse_iso s with
              | Some d => Ok (instant d)
              | None => Raise (ValueError "evidence_continuation_invalid_timestamp")
              end
  | _ => Raise (ValueError "evidence_continuation_invalid_timestamp")
  end.

(** [(json.loads(run.outcome_json or "{}").get("value") or {}).get("verdict")]. *)
Definition run_verdict (r : SwarmNodeRun) : res pyval :=
  outcome ← (match nr_outcome_json r with
             | Some t => match jt_loads t with Some v => Ok v | None => Raise (ValueError "json") end
             | None => Ok (PDict [])
             end);
  match outcome with
  | PDict d => match or_empty (dict_get "value" d) with
               | PDict v => Ok (dict_get "verdict" v)
               | _ => Raise AttributeError
               end
  | _ => Raise AttributeError
  end.

(** The acceptance planner waits for the corrected node and its review: one
    successful attempt of each at the granted head, the review an approval. *)
Definition member_ready (db : FDB) (task_id key : string) (attempt : Z) (head : pyval) (is_review : bool)
    : res bool :=
  match filter (λ r, nr_task_id r = task_id ∧ nr_node_key r = key ∧ nr_attempt r = attempt) (f_runs db) with
  | [r] =>
      if negb (bool_decide (nr_status r = "succeeded"%string) && py_eq (of_option (nr_head_sha r)) head)
      then Ok false else
      if is_review then verdict ← run_verdict r; Ok (py_eq verdict (PStr "approve")) else Ok true
  | _ => Ok false
  end.

Definition pair_ready (db : FDB) (task_id : string) (pair : dict) : res bool :=
  node ← policy_index "node_key" pair; node ← as_text node;
  next ← policy_index "next_attempt" pair; next ← as_int next;
  review ← policy_index "review_key" pair; review ← as_text review;
  head ← policy_index "head_sha" pair;
  first ← member_ready db task_id node next head (bool_decide (node = review));
  if negb first then Ok false else member_ready db task_id review 1 head true.

Definition allowed_starts (task_id : string) (grant : dict) : res (list string) :=
  starts ← policy_index "allowed_starts" grant;
  match starts with
  | PDict d => res_map (λ p : string * pyval, a ← as_int p.2; Ok (node_start_key task_id p.1 (pretty a))) d
  | _ => Raise AttributeError
  end.

Definition recovery_start_refusal `{IsoFormat, Hashing} (db : FDB) (task_id : string)
    (start_key : option string) : res (option string) :=
  grant ← recovery_grant db task_id;
  match grant with
  | None => Ok None
  | Some grant =>
      deadline ← policy_index "deadline_at" grant;
      due ← _aware deadline;
      if due <=? f_now db then Ok (Some "task_deadline"%string) else
      pair ← policy_index "grant" grant; pair ← as_object pair;
      match _receipt db task_id with
      | None => Raise AttributeError
      | Some row =>
          let changed := Ok (Some "evidence_continuation_authority_changed"%string) in
          policy ← effective_policy db row;
          policy_sha ← policy_index "policy_sha256" pair;
          if negb (py_eq (PStr (hash_value (PDict policy))) policy_sha) then changed else
          direction_sha ← policy_index "direction_sha256" pair;
          if negb (py_eq (PStr (hash_direction (rc_direction_json row))) direction_sha) then changed else
          funding ← policy_index "funding_audit_id" pair;
          let current := match amendment db (Some task_id) with
                         | Some g => dict_get "audit_id" g | None => PNone end in
          if negb (py_eq current funding) then changed else
          match start_key with
          | None => Ok None
          | Some key =>
              allowed ← allowed_starts task_id grant;
              if negb (str_in key allowed) then Ok (Some "evidence_continuation_scope_exhausted"%string) else
              planner ← policy_index "planner_key" grant; planner ← as_text planner;
              if endswith (":" +:+ planner +:+ ":1") key then
                ready ← pair_ready db task_id pair;
                Ok (if (ready : bool) then None else Some "evidence_continuation_acceptance_not_ready"%string)
              else Ok None
          end
      end
  end.

(** ** The fences of a start *)

(** The fences of a task that is active and certain, in the code's order. *)
Definition lease_fence `{IsoFormat, Hashing} (db : FDB) (row : FactoryReceipt) (task_id : string)
    (start_key : option string) : res (option string) :=
  match find_task db task_id with
  | None => Raise AttributeError
  | Some task =>
      let admitted := tk_created_at task in
      request ← pending db task_id;
      oversight ← review_authority db task_id start_key;
      policy ← effective_policy db row;
      timeout ← policy_index "task_timeout_seconds" policy; timeout ← as_int timeout;
      let matched := _START_KEY (default ""%string start_key) in
      let funding_key := match matched with Some k => startswith "conductor_funding_" k | None => false end in
      let grant := amendment db (Some task_id) in
      evidence ← recovery_grant db task_id;
      let already_reserved :=
        existsb (λ s, bool_decide (Some (ft_start_key s) = start_key) &&
                      bool_decide (ft_status s = "reserved"%string)) (_starts db task_id) in
      recovery ← task_recovery_grant db task_id;
      recovery_deadline ← _recovery_deadline db task_id;
      let now := f_now db in
      let overseen := match oversight with Some _ => true | None => false end in
      if match recovery_deadline with Some d => d <=? now | None => false end
      then Ok (Some match recovery, evidence with
                    | None, None => "landing_recovery_deadline"%string
                    | _, _ => "task_deadline"%string
                    end) else
      match evidence with
      | Some (_ :: _) => recovery_start_refusal db task_id start_key
      | _ =>
      needs_plan ← (match recovery, matched with
                    | Some (_ :: _ as recovery), Some _ =>
                        accepted ← _recovery_plan_accepted db task_id recovery;
                        if (accepted : bool) then Ok false else
                        planner ← policy_index "planner_node_key" recovery; planner ← as_text planner;
                        Ok (negb (bool_decide (start_key = Some (node_start_key task_id planner "1"))))
                    | _, _ => Ok false
                    end);
      if (needs_plan : bool) then Ok (Some "operator_recovery_requires_plan"%string) else
      if funding_key && negb overseen then Ok (Some "funding_review_expired"%string) else
      if match request with Some _ => true | None => false end && negb overseen
      then Ok (Some "funding_review_pending"%string) else
      lease_due ← (match grant with
                   | Some grant =>
                       if overseen || already_reserved then Ok false else
                       v ← policy_index "review_due_at" grant; due ← parse_aware v; Ok (due <=? now)
                   | None => Ok false
                   end);
      if (lease_due : bool) then Ok (Some "funding_lease_due"%string) else
      Ok (if negb overseen && (default (admitted + timeout * 1000000) recovery_deadline <=? now)
          then Some "task_deadline"%string else None)
      end
  end.

(** [_can_start]: the reason a start is refused, if any. *)
Definition _can_start `{Environ, IsoFormat, Hashing} (db : FDB) (task_id : string)
    (start_key : option string) : res (option string) :=
  if review_recovery_held db task_id then Ok (Some "review_only_recovery"%string) else
  let state := ct_state (f_control db) in
  if bool_decide (state = "stopped"%string) then Ok (Some "stopped"%string) else
  if negb (str_in state ["enabled"; "paused"]) then Ok (Some "disabled"%string) else
  match _receipt db task_id with
  | None => Ok (Some "task_not_active"%string)
  | Some row =>
      if negb (is_active row) then Ok (Some "task_not_active"%string) else
      if rc_cancellation_requested row then Ok (Some "cancellation_pending"%string) else
      if rc_task_paused row then Ok (Some "task_paused"%string) else
      if bool_decide (rc_state row = "uncertain"%string) ||
         existsb (λ s, bool_decide (ft_status s = "uncertain"%string)) (_starts db task_id)
      then Ok (Some "uncertain_outcome"%string) else
      reason ← lease_fence db row task_id start_key;
      match reason, start_key with
      | None, Some _ =>
          if landing_held row then
            available ← execution_capacity_available db row;
            Ok (if (available : bool) then None else Some "capacity_waiting"%string)
          else Ok None
      | _, _ => Ok reason
      end
  end.

(** ** Reserving a start *)

(** The first guard that holds, and its reason; a later guard is not evaluated. *)
Fixpoint first_reason (guards : list (res bool * string)) : res (option string) :=
  match guards with
  | [] => Ok None
  | (guard, reason) :: guards => b ← guard; if (b : bool) then Ok (Some reason) else first_reason guards
  end.

(** [n >= v]. *)
Definition at_least (n : Z) (v : pyval) : res bool :=
  match xnum_of v with Some x => Ok (xle x (XFin n 0)) | None => Raise TypeError end.
Definition at_least_key (n : Z) (key : string) (d : dict) : res bool :=
  v ← policy_index key d; at_least n v.

(** [node_key in v] where the node key may be [None]. *)
Definition key_in (node_key : option string) (v : pyval) : res bool :=
  match node_key, v with
  | Some k, _ => py_contains k v
  | None, PList l => Ok (existsb (py_eq PNone) l)
  | None, PDict _ => Ok false
  | None, _ => Raise TypeError
  end.

Definition reserved (s : FactoryStart) : bool := bool_decide (ft_status s = "reserved"%string).

(** A granted lease that is present and not empty. *)
Definition leased (grant : option dict) (guard : dict → res bool) : res bool :=
  match grant with Some (_ :: _ as g) => guard g | _ => Ok false end.

Definition start_guards (row : FactoryReceipt) (policy : dict) (starts : list FactoryStart)
    (start_key model : string) (oversight evidence recovery grant : option dict)
    : list (res bool * string) :=
  let budget := _accounting starts in
  let planner := _planner_key (Some start_key) in
  let node_key := _START_KEY start_key in
  let used := if planner then ac_planner_turns_used budget else ac_turns_used budget in
  let ceiling := if planner then "planner_turn_ceiling"%string else "work_turn_ceiling"%string in
  [ (at_least (count_of reserved starts) (parallel_limit policy), "start_pending");
    (leased evidence (at_least_key used ceiling), "evidence_continuation_turn_limit");
    (leased recovery (at_least_key used ceiling), "operator_recovery_turn_limit");
    (leased grant (λ g,
       if planner then Ok false else
       keys ← policy_index "node_keys" g;
       inside ← key_in node_key keys;
       if negb inside then Ok true else
       if (1 <=? ac_turns_used (_accounting (filter (λ s, _start_node_key s = node_key) starts)))%Z
       then Ok true else at_least_key (ac_turns_used budget) "work_turn_ceiling" g),
     "continuation_scope_exhausted");
    (allowed ← policy_index "allowed_models" policy; inside ← py_contains model allowed;
     Ok (negb inside), "model_not_allowed");
    ((if planner && negb (match oversight with Some _ => true | None => false end)
      then cap ← planner_turn_cap policy; at_least (ac_planner_turns_used budget) cap else Ok false),
     "planner_turn_limit");
    ((if planner then Ok false
      else a ← _stored_allowance row policy; at_least_key (ac_turns_used budget) "turns" a),
     "turn_limit") ]%string.

Inductive StartResult :=
| StartRefused (reason : string)
| StartGranted (replayed : bool) (start : FactoryStart).

Definition find_start (start_key : string) (starts : list FactoryStart) : option FactoryStart :=
  find_first (λ s, bool_decide (ft_start_key s = start_key)) starts.

(** [db.add] of a fresh ticket: the database numbers it. *)
Definition new_start (db : FDB) (task_id start_key actor model : string) (cost : spec_float) : FactoryStart :=
  mkStart (next_id ft_id (f_starts db)) task_id start_key actor model cost "reserved" None None None
    (f_now db) (f_now db).

Definition authorize_start `{Environ, IsoFormat, Hashing} (task_id : string) (start_key actor model : pyval)
    (max_cost_usd : pyval) : tx FDB StartResult := λ db,
  actor ← _text actor "actor" 256;
  start_key ← _text start_key "start_key" 256;
  model ← _text model "model" 128;
  cost ← _money max_cost_usd "max_cost_usd" false;
  check ← _can_start db task_id (Some start_key);
  match check with
  | Some reason => Ok (StartRefused reason, db)
  | None =>
  match _receipt db task_id with
  | None => Raise AttributeError
  | Some row =>
  policy ← effective_policy db row;
  let starts := _starts db task_id in
  match find_start start_key starts with
  | Some existing =>
      if negb (bool_decide (ft_model existing = model) && feq (ft_max_cost_usd existing) cost)
      then Ok (StartRefused "conflicting_start_pin", db)
      else Ok (StartGranted true existing, db)
  | None =>
  oversight ← review_authority db task_id (Some start_key);
  mismatch ← (match oversight with
              | Some request => ok ← judge_pin_ok db task_id request model;
                                Ok (negb ok || negb (feq cost REVIEW_COST_USD))
              | None => Ok false
              end);
  if (mismatch : bool) then Ok (StartRefused "funding_review_pin_mismatch", db) else
  recovery ← task_recovery_grant db task_id;
  evidence ← recovery_grant db task_id;
  reason ← first_reason (start_guards row policy starts start_key model oversight evidence recovery
                           (continuation_grant db task_id));
  match reason with
  | Some reason =>
      Ok (StartRefused reason,
          _audit actor "authorize_start" (Some task_id)
            [("ok", PBool false); ("reason", PStr reason); ("start_key", PStr start_key)]%string db)
  | None =>
      let start := new_start db task_id start_key actor model cost in
      Ok (StartGranted false start,
          _audit actor "authorize_start" (Some task_id)
            [("ok", PBool true); ("start_key", PStr start_key)]%string
            (set_starts (λ l, l ++ [start]) db))
  end end end end.

(** ** Settling a start *)

Definition opt_feq (a b : option spec_float) : bool :=
  match a, b with Some x, Some y => feq x y | None, None => true | _, _ => false end.

Definition with_basis (basis : string) (now : Z) (s : FactoryStart) : FactoryStart :=
  mkStart (ft_id s) (ft_task_id s) (ft_start_key s) (ft_actor s) (ft_model s) (ft_max_cost_usd s)
    (ft_status s) (ft_cost_usd s) (Some basis) (ft_session_id s) (ft_created_at s) now.
Definition settled_start (status : string) (cost : option spec_float) (basis : option string)
    (session_id : option Z) (now : Z) (s : FactoryStart) : FactoryStart :=
  mkStart (ft_id s) (ft_task_id s) (ft_start_key s) (ft_actor s) (ft_model s) (ft_max_cost_usd s)
    status cost basis session_id (ft_created_at s) now.
Definition with_state (state : string) (now : Z) (row : FactoryReceipt) : FactoryReceipt :=
  mkReceipt (rc_id row) (rc_repo row) (rc_issue_number row) (rc_generation row) (rc_title row)
    (rc_body row) (rc_url row) (rc_actor row) (rc_task_class row) (rc_recurrence_key row)
    (rc_routing_tier row) state (rc_task_id row) (rc_policy_json row) (rc_allowance_json row)
    (rc_direction_json row) (rc_work_item_id row) (rc_task_paused row)
    (rc_cancellation_requested row) now (rc_escalation_json row) (rc_created_at row).

(** The receipt's state after [start] settles in [db]. *)
Definition settled_state (effective : string) (start : FactoryStart) (row : FactoryReceipt) (db : FDB) : string :=
  if bool_decide (effective = "uncertain"%string) then "uncertain" else
  if bool_decide (rc_state row = "uncertain"%string) &&
     negb (existsb (λ s, bool_decide (ft_status s = "uncertain"%string) && negb (ft_id s =? ft_id start))
             (_starts db (ft_task_id start)))
  then "admitted" else rc_state row.

Definition record_start_outcome (task_id start_key status : string) (actor cost_usd : pyval)
    (accounting_basis : option string) (session_id reconciled : pyval) : tx FDB StartResult := λ db,
  actor ← _text actor "actor" 256;
  reconciled ← (match reconciled with
                | PBool b => Ok b
                | _ => Raise (ValueError "invalid reconciled flag")
                end);
  _ ← require (str_in status (_TERMINAL ++ ["uncertain"; "escalated"])) "invalid start outcome";
  _ ← require (match accounting_basis with Some b => str_in b FREE_START_BASES | None => true end)
        "invalid accounting basis";
  cost ← (match cost_usd with
          | PNone => Ok None
          | v => c ← _money v "cost_usd" true; Ok (Some c)
          end);
  session_id ← (match session_id with
                | PNone => Ok None
                | v => n ← _integer v "session_id" 1 (2 ^ 31 - 1); Ok (Some n)
                end);
  let effective := if bool_decide (status = ESCALATED) then "failed"%string else status in
  match find_start start_key (_starts db task_id) with
  | None => Ok (StartRefused "unknown_start", db)
  | Some start =>
      if bool_decide (ft_status start = effective) && opt_feq (ft_cost_usd start) cost &&
         bool_decide (ft_session_id start = session_id)
      then
        match accounting_basis, ft_accounting_basis start with
        | Some basis, None =>
            let start := with_basis basis (f_now db) start in
            Ok (StartGranted true start, put_start start db)
        | _, _ => Ok (StartGranted true start, db)
        end
      else
      if str_in (ft_status start) _TERMINAL then Ok (StartRefused "conflicting_outcome", db) else
      if bool_decide (ft_status start = "uncertain"%string) && negb reconciled
      then Ok (StartRefused "reconciliation_required", db) else
      if match ft_session_id start with Some n => negb (bool_decide (session_id = Some n)) | None => false end
      then Ok (StartRefused "conflicting_session", db) else
      let start := settled_start effective cost accounting_basis session_id (f_now db) start in
      let db := put_start start db in
      match _receipt db task_id with
      | None => Raise AttributeError
      | Some row =>
          let db := put_receipt (with_state (settled_state effective start row db) (f_now db) row) db in
          let db := _audit actor "record_start_outcome" (Some task_id)
                      [("start_key", PStr start_key); ("status", PStr effective);
                       ("reconciled", PBool reconciled)]%string db in
          let db :=
            match cost with
            | Some c =>
                if str_in effective _TERMINAL && flt (ft_max_cost_usd start) c
                then _audit actor "cost_over_reservation" (Some task_id)
                       [("start_key", PStr start_key); ("workflow_id", PStr start_key);
                        ("status", PStr status); ("cost_usd", PFloat c);
                        ("reserved_cost_usd", PFloat (ft_max_cost_usd start));
                        ("overage_usd", PFloat (fsub c (ft_max_cost_usd start)))]%string db
                else db
            | None => db
            end in
          Ok (StartGranted false start, db)
      end
  end.
