(* ===== verification/StartFacts.v ===== *)
(** * Factory controls: lemmas on the start ledger, and replaying a reservation *)

From Stdlib Require Import SpecFloat.
From stdpp Require Import prelude list strings relations.
From S2P Require Import Prelude PyValue GraphData GraphPlan WorkItems ModelPool PolicyData Policy PolicyFacts Controls Lanes LaneClaims Capacity Starts CapacityClaims.
Local Open Scope Z_scope.

(** ** Accounting *)

Definition denials (l : list FactoryStart) (k : option string) : nat :=
  length (filter (λ s, denied_basis s = true ∧ _start_node_key s = k) l).
Definition seen (d : list (option string)) (k : option string) : nat := length (filter (λ k', k' = k) d).

(** Denials of a node that cost no turn, after [c] earlier ones. *)
Definition excused (c n : nat) : Z :=
  Z.of_nat (Nat.min MAX_CAPACITY_DENIED_ATTEMPTS (c + n)) - Z.of_nat (Nat.min MAX_CAPACITY_DENIED_ATTEMPTS c).

Definition zsum {A} (f : A → Z) (l : list A) : Z := foldr (λ x z, f x + z) 0 l.

Lemma zsum_ext {A} (f g : A → Z) l : (∀ x, x ∈ l → f x = g x) → zsum f l = zsum g l.
Proof. induction l as [|x l IH]; intros Hfg; [done|]. simpl. rewrite Hfg, IH; set_solver. Qed.

(** Changing a sum at one index. *)
Lemma zsum_at {A} `{EqDecision A} (f g : A → Z) (l : list A) k :
  NoDup l → k ∈ l → (∀ x, x ≠ k → f x = g x) → zsum f l = zsum g l + (f k - g k).
Proof.
  induction 1 as [|x l Hx Hnd IH]; [by intros ?%elem_of_nil|]. intros [->|Hk]%elem_of_cons Hfg; simpl.
  - rewrite (zsum_ext f g l); [lia|]. intros y Hy. apply Hfg. congruence.
  - rewrite IH by done. rewrite (Hfg x) by congruence. lia.
Qed.

(** Turns of either kind. *)
Definition spent (a : Accounting) : Z := ac_turns_used a + ac_planner_turns_used a.

Lemma denials_cons s l k :
  denials (s :: l) k = ((if denied_basis s && bool_decide (_start_node_key s = k) then 1 else 0) + denials l k)%nat.
Proof.
  unfold denials. rewrite filter_cons. case_decide as Hd.
  - destruct Hd as [-> ->]. by rewrite bool_decide_eq_true_2.
  - destruct (denied_basis s); [|done]. by rewrite bool_decide_eq_false_2 by naive_solver.
Qed.

Lemma seen_app d k k' : seen (d ++ [k']) k = (seen d k + (if decide (k' = k) then 1 else 0))%nat.
Proof. unfold seen. rewrite filter_app, length_app, filter_cons. by case_decide. Qed.

Lemma account_spent ks l a d :
  NoDup ks → (∀ s, s ∈ l → _start_node_key s ∈ ks) →
  spent (foldl account_one (a, d) l).1 =
  spent a + Z.of_nat (length l) - zsum (λ k, excused (seen d k) (denials l k)) ks.
Proof.
  intros Hnd. revert a d. induction l as [|s l IH]; intros a d Hks.
  { simpl. rewrite (zsum_ext _ (λ _, 0)).
    - assert (∀ ks : list (option string), zsum (λ _, 0) ks = 0) as -> by (induction ks0; simpl; lia). lia.
    - intros k _. unfold excused, denials. simpl. rewrite Nat.add_0_r. lia. }
  assert (_start_node_key s ∈ ks) as Hk by set_solver.
  assert (∀ s', s' ∈ l → _start_node_key s' ∈ ks) as Hks' by set_solver.
  cbn [foldl]. unfold account_one at 2. fold (seen d (_start_node_key s)).
  set (k := _start_node_key s) in *.
  destruct (denied_basis s) eqn:E; simpl.
  - rewrite (zsum_at (λ k, excused (seen d k) (denials (s :: l) k))
               (λ k', excused (seen (d ++ [k]) k') (denials l k')) ks k Hnd Hk).
    2: { intros k' Hne. rewrite seen_app, denials_cons, E, decide_False by congruence. fold k.
         rewrite bool_decide_eq_false_2 by congruence. simpl. by rewrite Nat.add_0_r. }
    rewrite seen_app, denials_cons, E, decide_True by done. fold k. rewrite bool_decide_eq_true_2 by done. simpl.
    assert (∀ a', spent (foldl account_one (a', d ++ [k]) l).1 = _) as IH' by (intros; by apply IH).
    assert (excused (seen d k) (1 + denials l k) - excused (seen d k + 1) (denials l k) =
            of_bool (seen d k <? MAX_CAPACITY_DENIED_ATTEMPTS)%nat) as Ex.
    { unfold excused, MAX_CAPACITY_DENIED_ATTEMPTS. destruct (Nat.ltb_spec (seen d k) 3); simpl of_bool; lia. }
    simpl in Ex. rewrite Ex.
    destruct (seen d k <? _)%nat; [|destruct (_planner_start s)]; rewrite IH'; unfold spent; simpl; lia.
  - rewrite (zsum_ext (λ k, excused (seen d k) (denials (s :: l) k)) (λ k, excused (seen d k) (denials l k)))
      by (intros k' _; by rewrite denials_cons, E).
    destruct (_planner_start s); rewrite IH by done; unfold spent; simpl; lia.
Qed.

Definition starts_at (l : list FactoryStart) (k : option string) : list FactoryStart :=
  filter (λ s, _start_node_key s = k) l.

Lemma accounting_spent l ks :
  NoDup ks → (∀ s, s ∈ l → _start_node_key s ∈ ks) →
  spent (_accounting l) = Z.of_nat (length l) - zsum (λ k, excused 0 (denials l k)) ks.
Proof. intros Hnd Hks. unfold _accounting. by rewrite (account_spent ks l _ _ Hnd Hks). Qed.

Lemma denials_at l k : denials (starts_at l k) k = denials l k.
Proof.
  unfold denials, starts_at. rewrite list_filter_filter. f_equal. apply list_filter_iff. naive_solver.
Qed.

Lemma accounting_spent_at l k :
  spent (_accounting (starts_at l k)) = Z.of_nat (length (starts_at l k)) - excused 0 (denials l k).
Proof.
  rewrite (accounting_spent _ [k]); [|apply NoDup_singleton|].
  - simpl. rewrite denials_at. lia.
  - intros s [Hs _]%list_elem_of_filter. set_solver.
Qed.

Lemma zsum_length_at l ks :
  NoDup ks → (∀ s, s ∈ l → _start_node_key s ∈ ks) →
  zsum (λ k, Z.of_nat (length (starts_at l k))) ks = Z.of_nat (length l).
Proof.
  intros Hnd. induction l as [|s l IH]; intros Hks.
  { unfold starts_at. simpl. clear. induction ks; simpl; lia. }
  rewrite (zsum_at _ (λ k, Z.of_nat (length (starts_at l k))) ks (_start_node_key s)); [|done|set_solver|].
  - rewrite IH by set_solver. unfold starts_at. rewrite filter_cons, decide_True by done. simpl. lia.
  - intros k Hk. unfold starts_at. by rewrite filter_cons, decide_False.
Qed.

Lemma zsum_minus {A} (f g : A → Z) l : zsum (λ x, f x - g x) l = zsum f l - zsum g l.
Proof. induction l; simpl; lia. Qed.

Lemma unresolved_count l a d :
  ac_unresolved_starts (foldl account_one (a, d) l).1 = ac_unresolved_starts a + count_of unresolved l.
Proof.
  revert a d. induction l as [|s l IH]; intros a d; [unfold count_of; simpl; lia|].
  rewrite count_of_cons. cbn [foldl]. unfold account_one at 2.
  destruct (_ && _); [|destruct (_planner_start s)]; rewrite IH; simpl; unfold of_bool; lia.
Qed.

Lemma count_of_pos {A} (p : A → bool) l : 0 < count_of p l ↔ ∃ x, x ∈ l ∧ p x = true.
Proof.
  unfold count_of. split.
  - destruct (filter _ l) as [|x l'] eqn:E; simpl; [lia|]. intros _. exists x.
    assert (x ∈ filter (λ x, p x = true) l) as [? ?]%list_elem_of_filter by (rewrite E; set_solver). done.
  - intros (x & Hx & Hp). assert (x ∈ filter (λ x, p x = true) l) as Hin by (by apply list_elem_of_filter).
    destruct (filter _ l); [by apply elem_of_nil in Hin|simpl; lia].
Qed.

Lemma unresolved_spec db t :
  t ∈ unresolved_start_task_ids db ↔ 0 < ac_unresolved_starts (_accounting (_starts db t)).
Proof.
  unfold _accounting. rewrite unresolved_count. cbn [ac_unresolved_starts]. rewrite Z.add_0_l, count_of_pos.
  unfold unresolved_start_task_ids, _starts, unresolved, str_in.
  rewrite elem_of_remove_dups, list_elem_of_fmap. setoid_rewrite list_elem_of_filter.
  setoid_rewrite bool_decide_eq_true. naive_solver.
Qed.

(** ** What a reservation does *)

(** An entry one of the ledger's writers adds to the audit trail. *)
Definition LEDGER_AUDITS : list string := ["authorize_start"; "record_start_outcome"; "cost_over_reservation"].
Inductive audited (db : FDB) : FDB → Prop :=
| Audited actor action task detail : action ∈ LEDGER_AUDITS → audited db (_audit actor action task detail db).
Lemma audited_intro actor action task detail db :
  str_in action LEDGER_AUDITS = true → audited db (_audit actor action task detail db).
Proof. intros ?%bool_decide_eq_true. by constructor. Qed.

(** Everything checked on the way to a fresh ticket. *)
Record granted `{Environ, IsoFormat, Hashing} (db : FDB) (t k a m : string) (c : spec_float)
    (row : FactoryReceipt) (policy : dict) (oversight evidence recovery : option dict) : Prop := mkGranted
  { gr_fence : _can_start db t (Some k) = Ok None;
    gr_receipt : _receipt db t = Some row;
    gr_policy : effective_policy db row = Ok policy;
    gr_new : find_start k (_starts db t) = None;
    gr_oversight : review_authority db t (Some k) = Ok oversight;
    gr_recovery : task_recovery_grant db t = Ok recovery;
    gr_evidence : recovery_grant db t = Ok evidence;
    gr_guards : first_reason (start_guards row policy (_starts db t) k m oversight evidence recovery
                                (continuation_grant db t)) = Ok None }.

Inductive authorized `{Environ, IsoFormat, Hashing} (db : FDB) (t k a m : string) (c : spec_float)
    : StartResult → FDB → Prop :=
| AuthRefused why db' : db' = db ∨ audited db db' → authorized db t k a m c (StartRefused why) db'
| AuthReplayed s :
    _can_start db t (Some k) = Ok None → find_start k (_starts db t) = Some s → ft_model s = m →
    feq (ft_max_cost_usd s) c = true → authorized db t k a m c (StartGranted true s) db
| AuthFresh row policy oversight evidence recovery detail :
    granted db t k a m c row policy oversight evidence recovery →
    let s := new_start db t k a m c in
    authorized db t k a m c (StartGranted false s)
      (_audit a "authorize_start" (Some t) detail (set_starts (λ l, l ++ [s]) db)).

Lemma authorize_inv `{Environ, IsoFormat, Hashing} t key actor model cost db r db' :
  authorize_start t key actor model cost db = Ok (r, db') → ∃ k a m c,
    key = PStr k ∧ actor = PStr a ∧ model = PStr m ∧ _money cost "max_cost_usd" false = Ok c ∧
    authorized db t k a m c r db'.
Proof.
  unfold authorize_start. intros Hq.
  apply res_bind_ok in Hq as (a & [-> _]%text_ok_iff & Hq).
  apply res_bind_ok in Hq as (k & [-> _]%text_ok_iff & Hq).
  apply res_bind_ok in Hq as (m & [-> _]%text_ok_iff & Hq).
  apply res_bind_ok in Hq as (c & Hc & Hq). exists k, a, m, c. do 4 (split; [done|]).
  apply res_bind_ok in Hq as ([why|] & Hcan & Hq); [simplify_eq; constructor; by left|].
  destruct (_receipt db t) as [row|] eqn:Hrow; [|done].
  apply res_bind_ok in Hq as (policy & Hp & Hq).
  destruct (find_start k _) as [s|] eqn:Hf.
  { case_match eqn:Hpin; simplify_eq; [constructor; by left|].
    apply negb_false_iff, andb_prop in Hpin as [?%bool_decide_eq_true ?]. by constructor. }
  apply res_bind_ok in Hq as (oversight & Ho & Hq). apply res_bind_ok in Hq as ([] & _ & Hq).
  { simplify_eq. constructor. by left. }
  apply res_bind_ok in Hq as (recovery & Hr & Hq). apply res_bind_ok in Hq as (evidence & He & Hq).
  apply res_bind_ok in Hq as ([why|] & Hg & Hq); simplify_eq.
  - constructor. right. by apply audited_intro.
  - econstructor. by split.
Qed.

(** ** What a settlement does *)

(** The recorded outcome: [escalated] settles as [failed]. *)
Definition effective (status : string) : string :=
  if bool_decide (status = ESCALATED) then "failed" else status.
Definition outcome_statuses : list string := _TERMINAL ++ ["uncertain"].

Inductive settled (db : FDB) (t k status : string) (c : option spec_float) (basis : option string)
    (n : option Z) (reconciled : bool) : StartResult → FDB → Prop :=
| OutRefused why : settled db t k status c basis n reconciled (StartRefused why) db
| OutReplayed s s' db' :
    find_start k (_starts db t) = Some s → ft_status s = effective status → opt_feq (ft_cost_usd s) c = true →
    ft_session_id s = n →
    (s' = s ∧ db' = db ∧ (ft_accounting_basis s = None → basis = None) ∨
     ∃ b, basis = Some b ∧ ft_accounting_basis s = None ∧ s' = with_basis b (f_now db) s ∧ db' = put_start s' db) →
    settled db t k status c basis n reconciled (StartGranted true s') db'
| OutSettled s row db' :
    find_start k (_starts db t) = Some s → ft_status s ∉ _TERMINAL →
    (ft_status s = "uncertain"%string → reconciled = true) → ft_session_id s = None ∨ ft_session_id s = n →
    let s' := settled_start (effective status) c basis n (f_now db) s in
    let db1 := put_start s' db in
    _receipt db1 t = Some row →
    let row' := with_state (settled_state (effective status) s' row db1) (f_now db) row in
    rtc audited (put_receipt row' db1) db' →
    settled db t k status c basis n reconciled (StartGranted false s') db'.

Lemma record_inv t k status actor cost basis session reconciled db r db' :
  record_start_outcome t k status actor cost basis session reconciled db = Ok (r, db') → ∃ c n rec,
    status ∈ _TERMINAL ++ ["uncertain"; "escalated"]%string ∧
    (match basis with Some b => b ∈ FREE_START_BASES | None => True end) ∧
    (c = None ∧ cost = PNone ∨ ∃ f, c = Some f ∧ _money cost "cost_usd" true = Ok f) ∧
    (n = None ∧ session = PNone ∨ ∃ z, n = Some z ∧ session = PInt z ∧ 1 ≤ z ≤ 2 ^ 31 - 1) ∧
    reconciled = PBool rec ∧ settled db t k status c basis n rec r db'.
Proof.
  unfold record_start_outcome. intros Hq.
  apply res_bind_ok in Hq as (a & _ & Hq).
  apply res_bind_ok in Hq as (rec & Hrec & Hq). destruct reconciled; simplify_eq.
  apply res_bind_ok in Hq as ([] & Hst%require_ok%bool_decide_eq_true & Hq).
  apply res_bind_ok in Hq as ([] & Hb%require_ok & Hq).
  apply res_bind_ok in Hq as (c & Hc & Hq). apply res_bind_ok in Hq as (n & Hn & Hq).
  exists c, n, rec. split; [done|]. split.
  { destruct basis; [|done]. by apply bool_decide_eq_true in Hb. }
  split.
  { destruct cost; first [simplify_eq; by left|
      apply res_bind_ok in Hc as (c0 & Hm & Hc); simplify_eq; right; by exists c0]. }
  split.
  { destruct session; first [simplify_eq; by left|
      apply res_bind_ok in Hn as (z0 & Hm & Hn); simplify_eq; right; exists z0; split; [done|];
      apply integer_ok in Hm as [??]; simplify_eq; done]. }
  split; [done|]. clear Hc Hn Hst. fold (effective status) in Hq.
  destruct (find_start k _) as [s|] eqn:Hf; [|simplify_eq; by constructor].
  destruct (bool_decide (ft_status s = effective status) && _ && _) eqn:Hrep.
  { apply andb_prop in Hrep as [[?%bool_decide_eq_true ?]%andb_prop ?%bool_decide_eq_true].
    destruct basis as [b|], (ft_accounting_basis s) eqn:Eb; simplify_eq;
      (eapply OutReplayed; [done..|]); first [left; naive_solver|right; by exists b]. }
  clear Hrep.
  destruct (str_in (ft_status s) _TERMINAL) eqn:Ht; [simplify_eq; by constructor|].
  destruct (bool_decide (ft_status s = "uncertain"%string) && negb rec) eqn:Hu; [simplify_eq; by constructor|].
  case_match eqn:Hs; [simplify_eq; by constructor|].
  destruct (_receipt _ t) as [row|] eqn:Hrow; [|done]. simplify_eq.
  eapply OutSettled; [done|by apply bool_decide_eq_false in Ht| | |done|].
  - intros E. rewrite E in Hu. by destruct rec.
  - destruct (ft_session_id s); [right|by left]. apply negb_false_iff, bool_decide_eq_true in Hs. done.
  - eapply rtc_l; [by apply (audited_intro a "record_start_outcome")|].
    destruct c as [c0|]; [|done]. destruct (str_in _ _ && flt _ _); [|done].
    apply rtc_once. by apply audited_intro.
Qed.

(** ** Fences *)

Lemma first_reason_None guards : first_reason guards = Ok None → Forall (λ g, g.1 = Ok false) guards.
Proof.
  induction guards as [|[g why] guards IH]; [by constructor|]. simpl. intros Hq.
  apply res_bind_ok in Hq as ([] & Hg & Hq); [done|]. constructor; [done|]. by apply IH.
Qed.

(** The task state a start is granted in. *)
Record startable `{Environ} (db : FDB) (t : string) (row : FactoryReceipt) : Prop := mkStartable
  { st_control : ct_state (f_control db) ∈ ["enabled"; "paused"]%string;
    st_admitted : rc_state row = "admitted"%string;
    st_wanted : rc_cancellation_requested row = false;
    st_running : rc_task_paused row = false;
    st_certain : Forall (λ s, ft_status s ≠ "uncertain"%string) (_starts db t);
    st_capacity : landing_held row = true → execution_capacity_available db row = Ok true }.

Lemma can_start_ok `{Environ, IsoFormat, Hashing} db t k row :
  _can_start db t (Some k) = Ok None → _receipt db t = Some row →
  startable db t row ∧ review_recovery_held db t = false ∧ lease_fence db row t (Some k) = Ok None.
Proof.
  unfold _can_start. intros Hq Hrow. rewrite Hrow in Hq.
  destruct (review_recovery_held db t); [done|].
  destruct (bool_decide (ct_state (f_control db) = _)); [done|].
  destruct (str_in (ct_state (f_control db)) _) eqn:Hc; [|done]. cbn [negb] in Hq.
  destruct (is_active row) eqn:Ha; [|done]. cbn [negb] in Hq.
  destruct (rc_cancellation_requested row) eqn:Hcr; [done|]. destruct (rc_task_paused row) eqn:Hp; [done|].
  destruct (_ || _) eqn:Hu; [done|]. apply orb_false_elim in Hu as [Hu%bool_decide_eq_false He].
  apply res_bind_ok in Hq as ([why|] & Hl & Hq); [done|].
  split; [|done]. split; try done.
  - by apply bool_decide_eq_true in Hc.
  - apply bool_decide_eq_true in Ha. unfold _ACTIVE in Ha.
    apply elem_of_cons in Ha as [?|[?|[]%elem_of_nil]%elem_of_cons]; done.
  - apply Forall_forall. intros s Hs E. apply not_true_iff_false in He. apply He, existsb_exists.
    exists s. split; [by apply list_elem_of_In|]. by apply bool_decide_eq_true.
  - intros Hl'. rewrite Hl' in Hq. apply res_bind_ok in Hq as ([] & ? & Hq); done.
Qed.

Lemma at_least_int n m : at_least n (PInt m) = Ok false → n < m.
Proof.
  unfold at_least. simpl. intros [= E]. unfold xle, xcompare in E. simpl in E. rewrite !Z.mul_1_r in E.
  destruct (Z.compare_spec m n); done || lia.
Qed.

(** ** Frames *)

Lemma starts_added s db : _starts (set_starts (λ l, l ++ [s]) db) (ft_task_id s) = _starts db (ft_task_id s) ++ [s].
Proof. unfold _starts. simpl. by rewrite filter_app, filter_cons_True. Qed.

Lemma audit_frame actor action task detail db :
  ∃ a, _audit actor action task detail db = set_audits (λ l, l ++ [a]) db ∧ au_action a = action.
Proof. unfold _audit. repeat case_match; by eexists. Qed.

Lemma find_start_None k l : find_start k l = None ↔ Forall (λ s, ft_start_key s ≠ k) l.
Proof.
  unfold find_start. rewrite find_first_None, Forall_forall. by setoid_rewrite bool_decide_eq_false.
Qed.

(** A fresh ticket has no basis, so it costs its turn. *)
Lemma accounting_snoc l s :
  ft_accounting_basis s = None →
  let a := _accounting l in let a' := _accounting (l ++ [s]) in
  (ac_turns_used a', ac_planner_turns_used a') =
  (ac_turns_used a + of_bool (negb (_planner_start s)), ac_planner_turns_used a + of_bool (_planner_start s)).
Proof.
  intros Hb. unfold _accounting. rewrite foldl_snoc. destruct (foldl account_one _ l) as [a d]. simpl.
  unfold account_one. assert (denied_basis s = false) as -> by (unfold denied_basis; by rewrite Hb). simpl.
  destruct (_planner_start s); simpl; f_equal; lia.
Qed.

(** * Factory controls: replaying a reservation

    A retry of [authorize_start] after a granted reservation finds its own
    ticket.  The reservation's audit row is read by none of the fences, and the
    ticket it adds keeps the task's slot. *)

Section Replay.
Context `{Environ, IsoFormat, Hashing} (db : FDB) (s : FactoryStart) (au : FactoryAudit).
Hypothesis Hau : au_action au = "authorize_start"%string.
Hypothesis Hs : ft_status s = "reserved"%string.
Let db' := set_audits (λ l, l ++ [au]) (set_starts (λ l, l ++ [s]) db).

Lemma newest_quiet t p : p au = false → newest db' t p = newest db t p.
Proof using.
  intros Hp. unfold newest, find_last. simpl. rewrite reverse_snoc. simpl. by rewrite Hp, andb_false_r.
Qed.

Ltac quiet := repeat (rewrite newest_quiet; [|unfold is_action, funding_audit_filter; rewrite Hau; reflexivity]).

Lemma review_recovery_held_quiet t : review_recovery_held db' t = review_recovery_held db t.
Proof using Hau. unfold review_recovery_held. by quiet. Qed.
Lemma pending_quiet t : pending db' t = pending db t.
Proof using Hau. unfold pending, latest. by quiet. Qed.
Lemma review_authority_quiet t k : review_authority db' t k = review_authority db t k.
Proof using Hau. unfold review_authority. by rewrite pending_quiet. Qed.
Lemma amendment_quiet t : amendment db' t = amendment db t.
Proof using Hau. unfold amendment, latest. by quiet. Qed.
Lemma effective_policy_quiet row : effective_policy db' row = effective_policy db row.
Proof using Hau. unfold effective_policy. by rewrite amendment_quiet. Qed.
Lemma recovery_grant_quiet t : recovery_grant db' t = recovery_grant db t.
Proof using Hau. unfold recovery_grant, latest. by quiet. Qed.
Lemma task_recovery_quiet t : task_recovery_grant db' t = task_recovery_grant db t.
Proof using Hau. unfold task_recovery_grant, _task_recovery_proposal, latest. by quiet. Qed.
Lemma landing_deadline_quiet t : _landing_recovery_deadline db' t = _landing_recovery_deadline db t.
Proof using Hau.
  unfold _landing_recovery_deadline. quiet. destruct (newest db (Some t) _) as [event|]; [|done].
  by rewrite newest_quiet by (unfold is_action; by rewrite Hau).
Qed.
Lemma recovery_deadline_quiet t : _recovery_deadline db' t = _recovery_deadline db t.
Proof using Hau.
  unfold _recovery_deadline. rewrite task_recovery_quiet, landing_deadline_quiet. by quiet.
Qed.
Lemma start_refusal_quiet t k : recovery_start_refusal db' t k = recovery_start_refusal db t k.
Proof using Hau.
  unfold recovery_start_refusal. rewrite recovery_grant_quiet, amendment_quiet.
  change (_receipt db' t) with (_receipt db t). change (f_now db') with (f_now db).
  destruct (_receipt db t) as [row|]; [|done]. by rewrite effective_policy_quiet.
Qed.

(** The two sides of a bind, walked together. *)
Tactic Notation "walk" ident(Hq) ident(v) := let E := fresh "E" in
  apply res_bind_ok in Hq as (v & E & Hq); rewrite E; cbn [mbind res_bind]; clear E.

Lemma reserved_now :
  existsb (λ s', bool_decide (Some (ft_start_key s') = Some (ft_start_key s)) &&
                 bool_decide (ft_status s' = "reserved"%string)) (_starts db' (ft_task_id s)) = true.
Proof using Hau Hs.
  apply existsb_exists. exists s. split.
  - apply list_elem_of_In. change (_starts db' (ft_task_id s)) with
      (_starts (set_starts (λ l, l ++ [s]) db) (ft_task_id s)). rewrite starts_added. set_solver.
  - by rewrite !bool_decide_eq_true_2.
Qed.

Lemma lease_fence_replay row :
  lease_fence db row (ft_task_id s) (Some (ft_start_key s)) = Ok None →
  lease_fence db' row (ft_task_id s) (Some (ft_start_key s)) = Ok None.
Proof using Hau Hs.
  unfold lease_fence. change (find_task db') with (find_task db). change (f_now db') with (f_now db).
  destruct (find_task db _) as [task|]; [|done].
  rewrite pending_quiet, review_authority_quiet, effective_policy_quiet, amendment_quiet, recovery_grant_quiet,
    task_recovery_quiet, recovery_deadline_quiet, start_refusal_quiet, reserved_now.
  change (_recovery_plan_accepted db') with (_recovery_plan_accepted db).
  intros Hq. walk Hq request. walk Hq oversight. walk Hq policy. walk Hq tv. walk Hq timeout.
  walk Hq evidence. walk Hq recovery. walk Hq deadline.
  destruct (match deadline with Some d => _ | None => _ end); [done|].
  destruct evidence as [[|]|]; [|done|]; walk Hq needs; (destruct needs; [done|]);
    (destruct (match _START_KEY _ with Some k => _ | None => _ end && _); [done|]);
    (destruct (match request with Some _ => true | None => false end && _); [done|]);
    apply res_bind_ok in Hq as ([] & _ & Hq); try done.
  all: destruct (amendment _ _); cbn [mbind res_bind]; rewrite ?orb_true_r; exact Hq.
Qed.

Lemma can_start_replay row :
  _receipt db (ft_task_id s) = Some row →
  _can_start db (ft_task_id s) (Some (ft_start_key s)) = Ok None →
  _can_start db' (ft_task_id s) (Some (ft_start_key s)) = Ok None.
Proof using Hau Hs.
  intros Hrow Hq. destruct (can_start_ok _ _ _ _ Hq Hrow) as ([Hc Ha Hw Hp Hcert _] & Hheld & Hl).
  unfold _can_start. rewrite review_recovery_held_quiet, Hheld.
  change (_receipt db') with (_receipt db). rewrite Hrow. change (f_control db') with (f_control db).
  rewrite (bool_decide_eq_false_2 (ct_state _ = _)) by (intros E; rewrite E in Hc; set_solver).
  assert (str_in (ct_state (f_control db)) ["enabled"; "paused"] = true) as -> by (by apply bool_decide_eq_true).
  cbn [negb].
  assert (is_active row = true) as -> by (unfold is_active; by rewrite Ha). rewrite Hw, Hp. cbn [negb].
  rewrite (bool_decide_eq_false_2 (rc_state row = _)) by (by rewrite Ha). cbn [orb].
  assert (existsb (λ s', bool_decide (ft_status s' = "uncertain"%string)) (_starts db' (ft_task_id s)) = false) as ->.
  { apply not_true_iff_false. rewrite existsb_exists. intros (s' & Hin & E%bool_decide_eq_true).
    apply list_elem_of_In in Hin. change (_starts db' (ft_task_id s)) with
      (_starts (set_starts (λ l, l ++ [s]) db) (ft_task_id s)) in Hin. rewrite starts_added in Hin.
    apply elem_of_app in Hin as [Hin|Hin]; [|apply list_elem_of_singleton in Hin; congruence].
    rewrite Forall_forall in Hcert. by apply (Hcert s'). }
  rewrite (lease_fence_replay _ Hl). cbn [mbind res_bind].
  destruct (landing_held row); [|done].
  assert (execution_capacity_available db' row = Ok true) as ->; [|done].
  unfold execution_capacity_available. rewrite !slot_holders_filter. cbn [mbind res_bind].
  rewrite filter_cons_True; [done|]. unfold occupies.
  unfold is_active. rewrite Ha. apply find_first_Some in Hrow as [_ ->%bool_decide_eq_true].
  change (str_in "admitted" _ACTIVE) with true. cbn [andb]. apply orb_true_intro. right.
  apply orb_true_intro. right. apply bool_decide_eq_true. unfold unresolved_start_task_ids.
  apply elem_of_remove_dups, list_elem_of_fmap. exists s. split; [done|]. apply list_elem_of_filter.
  rewrite Hs. split; [by apply (bool_decide_unpack _)|]. simpl. set_solver.
Qed.
End Replay.
