(* ===== verification/StartClaims.v ===== *)
(** * Factory controls: theorems on the start ledger

    What a single call grants and settles, then the ledger as a state machine. *)

From Stdlib Require Import SpecFloat.
From stdpp Require Import prelude list strings relations.
From S2P Require Import Prelude PyValue GraphData GraphPlan GraphAccounting WorkItems ModelPool PolicyData Policy PolicyFacts Controls Lanes LaneClaims Capacity CapacityClaims Starts StartFacts.
Local Open Scope Z_scope.

(** ** Accounting *)

(** The turns a task has spent are the sum over its nodes of the attempts
    each node has spent, and a node's starts spend exactly the attempts the
    plan graph counts for its runs when every denied start is a denied run:
    the turn gate and the attempt gate excuse the same capacity denials. *)
Theorem accounting_agrees l :
  spent (_accounting l) =
    zsum (λ k, spent (_accounting (starts_at l k))) (remove_dups (_start_node_key <$> l)) ∧
  ∀ k runs, Forall2 (λ s r, denied_basis s = _capacity_denied r) (starts_at l k) runs →
    spent (_accounting (starts_at l k)) = _spent_attempts runs.
Proof.
  set (ks := remove_dups (_start_node_key <$> l)).
  assert (NoDup ks) as Hnd by apply NoDup_remove_dups.
  assert (∀ s, s ∈ l → _start_node_key s ∈ ks) as Hks.
  { intros s Hs. apply elem_of_remove_dups. by apply list_elem_of_fmap_2. }
  split.
  - rewrite (accounting_spent l ks), <-(zsum_length_at l ks), <-zsum_minus by done.
    apply zsum_ext. intros k _. by rewrite accounting_spent_at.
  - intros k runs Hr. rewrite accounting_spent_at. unfold _spent_attempts.
    rewrite (Forall2_length _ _ _ Hr). f_equal.
    assert (denials l k = count_true _capacity_denied runs) as ->; [|unfold excused, MAX_CAPACITY_DENIED_ATTEMPTS; lia].
    rewrite <-denials_at. unfold denials, count_true.
    assert (Forall (λ s, _start_node_key s = k) (starts_at l k)) as Hk
      by (apply Forall_forall; by intros s [? _]%list_elem_of_filter).
    induction Hr as [|s r ss rs Hsr _ IH]; [done|]. apply Forall_cons in Hk as [Hk Hks'].
    specialize (IH Hks'). destruct (_capacity_denied r) eqn:E.
    + rewrite !filter_cons_True by first [exact E|split; congruence]. simpl. by rewrite IH.
    + rewrite !filter_cons_False by first [congruence|intros []; congruence]. done.
Qed.

(** The tasks listed as having unresolved starts are exactly those whose
    accounting reports one. *)
Theorem unresolved_ids_exact db t :
  t ∈ unresolved_start_task_ids db ↔ 0 < ac_unresolved_starts (_accounting (_starts db t)).
Proof. apply unresolved_spec. Qed.

(** ** Reserving a start *)

(** The bounds that hold once [s] is in the ledger. *)
Record start_bounds (row : FactoryReceipt) (policy : dict) (oversight : option dict) (s : FactoryStart)
    (starts : list FactoryStart) : Prop := mkStartBounds
  { sb_parallel : ∀ n, parallel_limit policy = PInt n → count_of reserved starts ≤ n;
    sb_model : ∃ allowed, policy_index "allowed_models" policy = Ok allowed ∧
      py_contains (ft_model s) allowed = Ok true;
    sb_planner : ∀ n, _planner_start s = true → oversight = None → planner_turn_cap policy = Ok (PInt n) →
      ac_planner_turns_used (_accounting starts) ≤ n;
    sb_turns : ∀ n allowance, _planner_start s = false → _stored_allowance row policy = Ok allowance →
      policy_index "turns" allowance = Ok (PInt n) → ac_turns_used (_accounting starts) ≤ n }.

Lemma guards_bounds `{Environ, IsoFormat, Hashing} db t k a m c row policy oversight evidence recovery :
  granted db t k a m c row policy oversight evidence recovery →
  start_bounds row policy oversight (new_start db t k a m c)
    (_starts (set_starts (λ l, l ++ [new_start db t k a m c]) db) t).
Proof.
  intros [_ _ _ _ _ _ _ Hg%first_reason_None]. unfold start_guards in Hg.
  repeat setoid_rewrite Forall_cons in Hg. destruct Hg as (Hpar & _ & _ & _ & Hmod & Hplan & Hturn & _).
  cbn [fst] in *. set (s := new_start db t k a m c).
  pose proof (starts_added s db) as Eadd. change (ft_task_id s) with t in Eadd. rewrite Eadd.
  pose proof (accounting_snoc (_starts db t) s eq_refl) as Hacc. cbv zeta in Hacc.
  injection Hacc as Et Ep.
  change (_planner_key (Some k)) with (_planner_start s) in *. split.
  - intros n E. rewrite E in Hpar. apply at_least_int in Hpar.
    assert (count_of reserved (_starts db t ++ [s]) = count_of reserved (_starts db t) + 1) as ->; [|lia].
    unfold count_of. rewrite filter_app, length_app. simpl. lia.
  - apply res_bind_ok in Hmod as (allowed & Ha & Hm). apply res_bind_ok in Hm as ([] & Hm & E); [|done]. eauto.
  - intros n Hp Ho Hc. rewrite Ep. rewrite Hp, Ho in Hplan. cbn [andb negb] in Hplan. rewrite Hc in Hplan.
    apply at_least_int in Hplan. rewrite Hp. simpl. lia.
  - intros n al Hp Hs Hn. rewrite Et. rewrite Hp in Hturn. rewrite Hs in Hturn. cbn [mbind res_bind] in Hturn.
    unfold at_least_key in Hturn. rewrite Hn in Hturn. cbn [mbind res_bind] in Hturn.
    apply at_least_int in Hturn. rewrite Hp. simpl. lia.
Qed.

(** C21: A fresh start is granted only to an admitted, running, certain task of an
    enabled or paused factory, on an allowed model, under a key the task never
    used; after it the task has at most the policy's parallel reservations, work turns within its
    allowance and planner turns within their cap (a funding review excepted);
    a task that held its landing has a slot. The ticket is appended and no receipt, control or other ticket changes. *)
Theorem authorize_start_fenced `{Environ, IsoFormat, Hashing} t key actor model cost db s db' :
  authorize_start t key actor model cost db = Ok (StartGranted false s, db') →
  ∃ row policy oversight,
    _receipt db t = Some row ∧ effective_policy db row = Ok policy ∧
    review_authority db t (Some (ft_start_key s)) = Ok oversight ∧ startable db t row ∧
    start_bounds row policy oversight s (_starts db' t) ∧
    Forall (λ s', ft_start_key s' ≠ ft_start_key s) (_starts db t) ∧
    (key, model, ft_task_id s, ft_status s) = (PStr (ft_start_key s), PStr (ft_model s), t, "reserved"%string) ∧
    f_starts db' = f_starts db ++ [s] ∧ f_receipts db' = f_receipts db ∧ f_control db' = f_control db.
Proof.
  intros (k & a & m & c & -> & -> & -> & _ & Hauth)%authorize_inv.
  inversion Hauth as [| |row policy oversight evidence recovery detail Hg s0 E1 E2].
  exists row, policy, oversight. pose proof (guards_bounds _ _ _ _ _ _ _ _ _ _ _ Hg) as Hb.
  destruct Hg as [Hf Hrow Hp Hn Ho _ _ _]. simpl.
  destruct (can_start_ok _ _ _ _ Hf Hrow) as [Hst _].
  destruct (audit_frame a "authorize_start" (Some t) detail (set_starts (λ l, l ++ [s0]) db)) as (au & Eau & _).
  rewrite Eau. do 4 (split; [done|]). split; [exact Hb|].
  split; [by apply find_start_None|]. done.
Qed.

Lemma feq_refl f : f_is_finite f = true → feq f f = true.
Proof.
  destruct f; try done; intros _; unfold feq, xeq, xcompare; simpl; by rewrite ?Z.compare_refl.
Qed.

Lemma find_start_snoc k l s : find_start k l = None → ft_start_key s = k → find_start k (l ++ [s]) = Some s.
Proof.
  unfold find_start. intros Hn Hk. induction l as [|x l IH]; simpl in *.
  - by rewrite bool_decide_eq_true_2.
  - by destruct (bool_decide (ft_start_key x = k)); [|apply IH].
Qed.

(** Reserving is idempotent: once a start is granted, the same call at the
    same moment is granted as a replay of the same ticket, even when the lease
    or the lane would now refuse a new one, and writes nothing. *)
Theorem authorize_start_replays `{Environ, IsoFormat, Hashing} t key actor model cost db replayed s db' :
  authorize_start t key actor model cost db = Ok (StartGranted replayed s, db') →
  authorize_start t key actor model cost db' = Ok (StartGranted true s, db').
Proof.
  intros Hcall. pose proof Hcall as Hinv. apply authorize_inv in Hinv as (k & a & m & c & -> & -> & -> & Hc & Hauth).
  inversion Hauth as [|s' ? ? ? ? E1 E2|row policy oversight evidence recovery detail Hg s0 E1 E2]; [by subst|].
  destruct (money_ok _ _ _ Hc) as [Hfin _]. destruct Hg as [Hf Hrow Hp Hn _ _ _ _].
  destruct (audit_frame a "authorize_start" (Some t) detail (set_starts (λ l, l ++ [s0]) db)) as (au & Eau & Ha).
  rewrite Eau. unfold authorize_start in Hcall |- *.
  apply res_bind_ok in Hcall as (a' & Ea & Hcall). apply res_bind_ok in Hcall as (k' & Ek & Hcall).
  apply res_bind_ok in Hcall as (m' & Em & Hcall).
  rewrite Ea. cbn [mbind res_bind]. rewrite Ek. cbn [mbind res_bind]. rewrite Em. cbn [mbind res_bind].
  apply text_ok_iff in Ek as [[= <-] _], Em as [[= <-] _]. rewrite Hc. cbn [mbind res_bind].
  pose proof (can_start_replay db s0 au Ha eq_refl row Hrow Hf) as Hcan.
  change (ft_task_id s0) with t in Hcan. change (ft_start_key s0) with k in Hcan.
  rewrite Hcan. cbn [mbind res_bind].
  change (_receipt (set_audits _ _) t) with (_receipt db t). rewrite Hrow.
  rewrite (effective_policy_quiet db s0 au Ha), Hp. cbn [mbind res_bind].
  change (_starts (set_audits (λ l, l ++ [au]) (set_starts (λ l, l ++ [s0]) db)) t) with
    (_starts (set_starts (λ l, l ++ [s0]) db) (ft_task_id s0)).
  rewrite starts_added. change (ft_task_id s0) with t. rewrite (find_start_snoc k _ s0 Hn eq_refl).
  by rewrite bool_decide_eq_true_2, (feq_refl c Hfin : feq (ft_max_cost_usd s0) c = true).
Qed.

(** ** Settling a start *)

Lemma money_finite v name zero f : _money v name zero = Ok f → f_is_finite f = true.
Proof.
  unfold _money. destruct (is_number v); [|done]. simpl. unfold math_isfinite. intros Hq.
  apply res_bind_ok in Hq as (b & Hb & Hq). apply res_bind_ok in Hb as (g & Hg & [= <-]).
  destruct (f_is_finite g) eqn:Hf; cbn [negb] in Hq; [|done]. destruct (xnum_of v); [|done].
  destruct (_ || _); [done|]. rewrite Hg in Hq. by simplify_eq.
Qed.

Lemma find_start_put k t s s' db :
  find_start k (_starts db t) = Some s → ft_id s' = ft_id s → ft_task_id s' = t → ft_start_key s' = k →
  find_start k (_starts (put_start s' db) t) = Some s'.
Proof.
  unfold _starts, find_start. simpl. intros Hf Hid Ht Hk. induction (f_starts db) as [|x l IH]; [done|].
  csimpl. destruct (Z.eqb_spec (ft_id x) (ft_id s')) as [E|E].
  - rewrite filter_cons_True by done. simpl. by rewrite bool_decide_eq_true_2.
  - rewrite filter_cons in Hf |- *. case_decide; [|by apply IH]. simpl in *.
    case_bool_decide; [congruence|by apply IH].
Qed.

Lemma audited_starts db db' : rtc audited db db' → f_starts db' = f_starts db ∧ f_receipts db' = f_receipts db.
Proof.
  induction 1 as [|x y z [a b c d _] _ [IH1 IH2]]; [done|].
  destruct (audit_frame a b c d x) as (au & E & _). by rewrite IH1, IH2, E.
Qed.

(** Settling is idempotent: once an outcome is recorded, the same call
    again is acknowledged as a replay of the same ticket and writes nothing,
    whatever status, cost, basis or session it carries. *)
Theorem record_start_outcome_replays t k status actor cost basis session reconciled db replayed s db' :
  record_start_outcome t k status actor cost basis session reconciled db = Ok (StartGranted replayed s, db') →
  record_start_outcome t k status actor cost basis session reconciled db' = Ok (StartGranted true s, db').
Proof.
  intros Hcall. destruct (record_inv _ _ _ _ _ _ _ _ _ _ _ Hcall) as (c & n & rec & Hst & Hb & Hc & Hn & -> & Hset).
  assert (find_start k (_starts db' t) = Some s ∧ ft_status s = effective status ∧
          opt_feq (ft_cost_usd s) c = true ∧ ft_session_id s = n ∧
          (ft_accounting_basis s = None → basis = None)) as (Hf & Es & Ec & En & Eb).
  { inversion Hset as [|s0 s' db0 Hf Es Ec En Hcase E1 E2|s0 row db0 Hf Ht Hr Hs s' db1 Hrow row' Haud E1 E2]; subst.
    - destruct Hcase as [(-> & -> & ?)|(b & -> & ? & -> & ->)]; [done|]. simpl. split_and!; [|done..].
      pose proof (find_first_Some _ _ _ Hf) as [[Ht _]%list_elem_of_filter Hk%bool_decide_eq_true].
      by eapply find_start_put.
    - destruct (audited_starts _ _ Haud) as [Est _]. split_and!; [|done| |done|done].
      + unfold _starts. rewrite Est.
        pose proof (find_first_Some _ _ _ Hf) as [[Ht' _]%list_elem_of_filter Hk%bool_decide_eq_true].
        by apply (find_start_put k t s0 s' db).
      + simpl. destruct Hc as [[-> _]|(f & -> & Hm)]; [done|]. simpl. by eapply feq_refl, money_finite. }
  unfold record_start_outcome in *.
  apply res_bind_ok in Hcall as (a & -> & Hcall). cbn [mbind res_bind] in *.
  apply res_bind_ok in Hcall as ([] & -> & Hcall). cbn [mbind res_bind] in *.
  apply res_bind_ok in Hcall as ([] & -> & Hcall). cbn [mbind res_bind] in *.
  apply res_bind_ok in Hcall as (c' & E & Hcall). assert (c' = c) as ->.
  { destruct Hc as [[-> ->]|(f & -> & Hm)]; [by simplify_eq|].
    destruct cost; [by unfold _money in Hm|..]; rewrite Hm in E; cbn [mbind res_bind] in E; by simplify_eq. }
  rewrite E. cbn [mbind res_bind] in *. clear E.
  apply res_bind_ok in Hcall as (n' & E & Hcall). assert (n' = n) as ->.
  { destruct Hn as [[-> ->]|(z & -> & -> & Hz)]; [by simplify_eq|].
    rewrite (proj2 (integer_ok _ _ _ _ _) (conj eq_refl Hz)) in E. cbn [mbind res_bind] in E. by simplify_eq. }
  rewrite E. cbn [mbind res_bind] in *. clear E Hcall. fold (effective status).
  rewrite Hf, bool_decide_eq_true_2, Ec, bool_decide_eq_true_2 by done. cbn [andb].
  destruct basis as [b|], (ft_accounting_basis s) eqn:Ebs; try done. by specialize (Eb eq_refl).
Qed.

(** * Factory controls: the start ledger as a state machine

    The two writers of the ledger and the clock as a step relation, its
    invariant, and what no sequence of steps undoes. *)

(** ** Steps and invariant *)

Definition set_now (now : Z) (db : FDB) : FDB :=
  mkFDB (f_control db) (f_receipts db) (f_starts db) (f_audits db) (f_tasks db) (f_items db) (f_edges db)
    (f_versions db) (f_runs db) (f_events db) (f_issues db) (f_verdicts db) (f_tiers db) now.

Inductive ledger_step `{Environ, IsoFormat, Hashing} (db : FDB) : FDB → Prop :=
| LedgerAuthorize t key actor model cost r db' :
    authorize_start t key actor model cost db = Ok (r, db') → ledger_step db db'
| LedgerOutcome t k status actor cost basis session reconciled r db' :
    record_start_outcome t k status actor cost basis session reconciled db = Ok (r, db') → ledger_step db db'
| LedgerClock now : ledger_step db (set_now now db).

Definition START_STATUSES : list string := ["reserved"; "succeeded"; "failed"; "uncertain"; "cancelled"].

Definition is_uncertain (db : FDB) (t : string) : Prop :=
  ∃ s, s ∈ f_starts db ∧ ft_task_id s = t ∧ ft_status s = "uncertain"%string.

Record tickets_wf (l : list FactoryStart) : Prop := mkTicketsWf
  { lw_ids : NoDup (ft_id <$> l);
    lw_keys : NoDup ((λ s, (ft_task_id s, ft_start_key s)) <$> l);
    lw_status : Forall (λ s, ft_status s ∈ START_STATUSES) l;
    lw_cost : Forall (λ s, flt fzero (ft_max_cost_usd s) = true) l;
    lw_basis : Forall (λ s, match ft_accounting_basis s with Some b => b ∈ FREE_START_BASES | None => True end) l }.

(** A task has one receipt, and the receipt is uncertain exactly when one of the
    task's starts is. *)
Record ledger_wf (db : FDB) : Prop := mkLedgerWf
  { lw_tickets : tickets_wf (f_starts db);
    lw_receipts : NoDup (rc_id <$> f_receipts db);
    lw_tasks : ∀ r r' t, r ∈ f_receipts db → r' ∈ f_receipts db → rc_task_id r = Some t → rc_task_id r' = Some t →
      rc_id r = rc_id r';
    lw_sync : ∀ r t, r ∈ f_receipts db → rc_task_id r = Some t →
      (rc_state r = "uncertain"%string ↔ is_uncertain db t) }.

(** What happens to a ticket: its pins never change, a terminal outcome is
    final and so is its proof of a free start once it has one, and nothing is
    reserved twice. *)
Record start_le (s s' : FactoryStart) : Prop := mkStartLe
  { sl_pins : (ft_id s', ft_task_id s', ft_start_key s', ft_actor s', ft_model s', ft_max_cost_usd s', ft_created_at s') =
              (ft_id s, ft_task_id s, ft_start_key s, ft_actor s, ft_model s, ft_max_cost_usd s, ft_created_at s);
    sl_terminal : ft_status s ∈ _TERMINAL →
      (ft_status s', ft_cost_usd s', ft_session_id s') = (ft_status s, ft_cost_usd s, ft_session_id s) ∧
      (ft_accounting_basis s ≠ None → ft_accounting_basis s' = ft_accounting_basis s);
    sl_progress : ft_status s' = "reserved"%string → ft_status s = "reserved"%string }.

#[export] Instance start_le_preorder : PreOrder start_le.
Proof.
  split; [by intros s; split|]. intros a b c [Hp Ht Hr] [Hp' Ht' Hr']. split; [congruence| |auto].
  intros Ha. destruct (Ht Ha) as [E Eb]. injection E as Es Ec En.
  destruct Ht' as [E' Eb']; [by rewrite Es|]. split; [congruence|].
  intros Hn. rewrite Eb'; [by apply Eb|]. by rewrite Eb.
Qed.

(** Every ticket lives on, moved forward. *)
Definition ledger_le (db db' : FDB) : Prop :=
  ∀ s, s ∈ f_starts db → ∃ s', s' ∈ f_starts db' ∧ start_le s s'.

#[export] Instance ledger_le_preorder : PreOrder ledger_le.
Proof.
  split; [intros db s Hs; by exists s|]. intros a b c Hab Hbc s Hs.
  destruct (Hab s Hs) as (s1 & H1 & L1), (Hbc s1 H1) as (s2 & H2 & L2). exists s2. split; [done|]. by etrans.
Qed.

(** ** Frames *)

(** The tables the invariant reads. *)
Definition same_ledger (db db' : FDB) : Prop := f_starts db' = f_starts db ∧ f_receipts db' = f_receipts db.

Lemma same_ledger_wf db db' : same_ledger db db' → ledger_wf db → ledger_wf db'.
Proof.
  intros [Es Er] [? ? Ht Hsync]. split; rewrite ?Es, ?Er; try done.
  intros r t Hr Htask. rewrite (Hsync r t Hr Htask). unfold is_uncertain. by rewrite Es.
Qed.
Lemma same_ledger_le db db' : same_ledger db db' → ledger_le db db'.
Proof. intros [Es _] s Hs. rewrite Es. by exists s. Qed.

Lemma audited_same db db' : rtc audited db db' → same_ledger db db'.
Proof.
  induction 1 as [|x y z [a b c d _] _ [IH1 IH2]]; [done|].
  destruct (audit_frame a b c d x) as (au & E & _). split; [by rewrite IH1, E|by rewrite IH2, E].
Qed.

Section Replace.
Context {A B : Type} (key : A → Z) (x x' : A).
Let replace := (λ y, if key y =? key x' then x' else y).
Hypothesis Hkey : key x' = key x.

Lemma replaced_at y : replace y = if decide (key y = key x) then x' else y.
Proof using Hkey.
  unfold replace. rewrite Hkey. case_decide; [by rewrite (proj2 (Z.eqb_eq _ _))|].
  by rewrite (proj2 (Z.eqb_neq _ _)).
Qed.

Lemma key_unique (l : list A) y : NoDup (key <$> l) → x ∈ l → y ∈ l → key y = key x → y = x.
Proof using.
  clear Hkey replace. induction l as [|z l IH]; [by intros _ ?%elem_of_nil|]. csimpl. intros [Hz Hnd]%NoDup_cons.
  intros [<-|Hx]%elem_of_cons [<-|Hy]%elem_of_cons E; [done| | |by apply IH].
  - destruct Hz. rewrite <-E. by apply list_elem_of_fmap_2.
  - destruct Hz. rewrite E. by apply list_elem_of_fmap_2.
Qed.

Lemma replace_fmap (f : A → B) (l : list A) :
  NoDup (key <$> l) → x ∈ l → f x' = f x → f <$> (replace <$> l) = f <$> l.
Proof using Hkey.
  intros Hnd Hx Hf. rewrite <-list_fmap_compose. apply list_fmap_ext. intros i y Hy%list_elem_of_lookup_2. simpl.
  rewrite replaced_at. case_decide as E; [|done]. by rewrite (key_unique l y Hnd Hx Hy E).
Qed.

Lemma elem_replaced (l : list A) y :
  x ∈ l → y ∈ replace <$> l ↔ y = x' ∨ y ∈ l ∧ key y ≠ key x.
Proof using Hkey.
  intros Hx. rewrite list_elem_of_fmap. setoid_rewrite replaced_at. split.
  - intros (z & -> & Hz). case_decide; auto.
  - intros [->|[Hy Hne]]; [exists x; by rewrite decide_True|exists y; by rewrite decide_False].
Qed.

Lemma Forall_replaced (P : A → Prop) (l : list A) : P x' → Forall P l → Forall P (replace <$> l).
Proof using.
  intros Hp Hl. apply Forall_fmap. apply (Forall_impl _ _ _ Hl). intros y Hy. unfold compose, replace. by case_match.
Qed.
End Replace.

(** ** Steps *)

Lemma fresh_id {A} (key : A → Z) (l : list A) : next_id key l ∉ key <$> l.
Proof.
  unfold next_id. intros (x & E & Hx)%list_elem_of_fmap. pose proof (max_key_ge key l x Hx). lia.
Qed.

Lemma is_uncertain_snoc s db t :
  ft_status s ≠ "uncertain"%string → is_uncertain (set_starts (λ l, l ++ [s]) db) t ↔ is_uncertain db t.
Proof.
  intros Hs. unfold is_uncertain. simpl. setoid_rewrite elem_of_app. setoid_rewrite list_elem_of_singleton.
  naive_solver.
Qed.

Lemma tickets_append s db :
  tickets_wf (f_starts db) → ft_id s ∉ ft_id <$> f_starts db →
  Forall (λ s', ft_start_key s' ≠ ft_start_key s) (_starts db (ft_task_id s)) →
  ft_status s = "reserved"%string → ft_accounting_basis s = None → flt fzero (ft_max_cost_usd s) = true →
  tickets_wf (f_starts db ++ [s]).
Proof.
  intros [Hids Hkeys Hst Hcost Hb] Hid Hk Hs Hbasis Hc. split.
  - rewrite fmap_app. apply NoDup_app. split_and!; [done| |apply NoDup_singleton].
    intros z Hz E; apply list_elem_of_singleton in E as ->. done.
  - rewrite fmap_app. apply NoDup_app. split_and!; [done| |apply NoDup_singleton].
    intros z Hz E; apply list_elem_of_singleton in E as ->. apply list_elem_of_fmap in Hz as (s' & [= Et Ek] & Hs').
    rewrite Forall_forall in Hk. apply (Hk s'); [by apply list_elem_of_filter|done].
  - apply Forall_app. split; [done|]. rewrite Forall_singleton, Hs. by apply (bool_decide_unpack _).
  - apply Forall_app. split; [done|]. by rewrite Forall_singleton.
  - apply Forall_app. split; [done|]. by rewrite Forall_singleton, Hbasis.
Qed.

Lemma tickets_replace s s' db :
  tickets_wf (f_starts db) → s ∈ f_starts db → start_le s s' → ft_status s' ∈ START_STATUSES →
  match ft_accounting_basis s' with Some b => b ∈ FREE_START_BASES | None => True end →
  tickets_wf (f_starts (put_start s' db)).
Proof.
  intros [Hids Hkeys Hst Hcost Hb] Hs [[= Hid Ht Hk Ha Hm Hc Hcr] _ _] Hst' Hb'. simpl. split.
  - by rewrite (replace_fmap ft_id s s') by done.
  - rewrite (replace_fmap ft_id s s'); [done..|]. by rewrite Ht, Hk.
  - by apply Forall_replaced.
  - apply Forall_replaced; [|done]. rewrite Hc. rewrite Forall_forall in Hcost. by apply Hcost.
  - by apply Forall_replaced.
Qed.

Lemma replace_le s s' db :
  tickets_wf (f_starts db) → s ∈ f_starts db → start_le s s' → ledger_le db (put_start s' db).
Proof.
  intros [Hids _ _ _ _] Hs Hle x Hx. pose proof Hle as [[= Hid _ _ _ _ _ _] _ _]. simpl.
  destruct (decide (ft_id x = ft_id s)) as [E|E].
  - rewrite (key_unique ft_id s _ x Hids Hs Hx E). exists s'. split; [|done].
    apply (elem_replaced ft_id s s' Hid); auto.
  - exists x. split; [|done]. apply (elem_replaced ft_id s s' Hid); auto.
Qed.

(** The uncertain starts of a task once one ticket is replaced. *)
Lemma is_uncertain_put s s' db t :
  s ∈ f_starts db → ft_id s' = ft_id s → ft_task_id s' = ft_task_id s →
  is_uncertain (put_start s' db) t ↔
  (ft_task_id s = t ∧ ft_status s' = "uncertain"%string) ∨
  ∃ x, x ∈ f_starts db ∧ ft_id x ≠ ft_id s ∧ ft_task_id x = t ∧ ft_status x = "uncertain"%string.
Proof.
  intros Hs Hid Ht. unfold is_uncertain. simpl.
  setoid_rewrite (elem_replaced ft_id s s' Hid (f_starts db) _ Hs). rewrite <-Ht. naive_solver.
Qed.

Definition safe (db db' : FDB) : Prop := ledger_wf db → ledger_wf db' ∧ ledger_le db db'.

Lemma same_safe db db' : same_ledger db db' → safe db db'.
Proof. intros Hs Hwf. split; [by eapply same_ledger_wf|by apply same_ledger_le]. Qed.

Lemma safe_trans a b c : safe a b → safe b c → safe a c.
Proof. intros Hab Hbc Ha. destruct (Hab Ha) as [Hb ?], (Hbc Hb). split; [done|]. by etrans. Qed.

Lemma authorize_safe `{Environ, IsoFormat, Hashing} t key actor model cost db r db' :
  authorize_start t key actor model cost db = Ok (r, db') → safe db db'.
Proof.
  intros (k & a & m & c & -> & -> & -> & Hc & Hauth)%authorize_inv.
  destruct Hauth as [why db' [->|Hau]| |row policy oversight evidence recovery detail Hg s].
  - by apply same_safe.
  - by apply same_safe, audited_same, rtc_once.
  - by apply same_safe.
  - eapply safe_trans; [|apply same_safe, audited_same, rtc_once; by apply audited_intro].
    destruct (money_ok _ _ _ Hc) as [_ Hpos]. destruct Hg as [_ _ _ Hn%find_start_None _ _ _ _].
    intros [Ht Hr Hu Hsync]. split.
    + split; simpl; [|done..|].
      * by apply tickets_append; [|apply fresh_id|..].
      * intros r' t' Hin Htask. rewrite is_uncertain_snoc by done. by apply Hsync.
    + intros x Hx. exists x. simpl. split; [|done]. apply elem_of_app. by left.
Qed.

Lemma effective_status status :
  status ∈ _TERMINAL ++ ["uncertain"; "escalated"]%string → effective status ∈ _TERMINAL ++ ["uncertain"]%string.
Proof.
  unfold effective, ESCALATED. case_bool_decide as E; [set_solver|]. rewrite !elem_of_app. intros [|Hs]; [by left|].
  apply elem_of_cons in Hs as [->|Hs]; [right; set_solver|]. apply list_elem_of_singleton in Hs. done.
Qed.

Lemma settled_le status c basis n now s :
  ft_status s ∉ _TERMINAL → status ∈ _TERMINAL ++ ["uncertain"]%string →
  start_le s (settled_start status c basis n now s).
Proof.
  intros Hs Hst. split; [done|done|]. simpl. intros ->. exfalso. revert Hst. by apply (bool_decide_unpack _).
Qed.

(** The receipt keeps step with the ledger. *)
Lemma settled_sync db s s' row now :
  ledger_wf db → s ∈ f_starts db → ft_id s' = ft_id s → ft_task_id s' = ft_task_id s →
  row ∈ f_receipts db → rc_task_id row = Some (ft_task_id s) →
  let db1 := put_start s' db in
  let row' := with_state (settled_state (ft_status s') s' row db1) now row in
  ∀ r t, r ∈ f_receipts (put_receipt row' db1) → rc_task_id r = Some t →
    (rc_state r = "uncertain"%string ↔ is_uncertain db1 t).
Proof.
  intros [[Hids _ _ _ _] Hrids Htasks Hsync] Hs Hid Ht Hrow Hrt db1 row' r t Hr Hrtask.
  unfold db1. rewrite (is_uncertain_put s s' db t Hs Hid Ht).
  apply (elem_replaced rc_id row row' eq_refl) in Hr as [->|[Hr Hne]]; [| |done].
  - simpl in Hrtask |- *. assert (t = ft_task_id s) as -> by congruence.
    pose proof (Hsync row _ Hrow Hrt) as Hrs. unfold settled_state.
    assert ((existsb (λ x, bool_decide (ft_status x = "uncertain"%string) && negb (ft_id x =? ft_id s'))
              (_starts db1 (ft_task_id s'))) = true ↔
            ∃ x, x ∈ f_starts db ∧ ft_id x ≠ ft_id s ∧ ft_task_id x = ft_task_id s ∧ ft_status x = "uncertain"%string)
      as Hex.
    { rewrite existsb_exists. setoid_rewrite <-list_elem_of_In. unfold _starts. setoid_rewrite list_elem_of_filter.
      unfold db1. simpl. setoid_rewrite (elem_replaced ft_id s s' Hid (f_starts db) _ Hs).
      setoid_rewrite andb_true_iff. setoid_rewrite bool_decide_eq_true. setoid_rewrite negb_true_iff.
      setoid_rewrite Z.eqb_neq. rewrite Ht, Hid. naive_solver. }
    destruct (existsb _ _).
    + destruct (decide (ft_status s' = "uncertain"%string)) as [->|Hn]; [simpl; naive_solver|].
      rewrite bool_decide_eq_false_2 by done. cbn [negb]. rewrite andb_false_r, Hrs.
      split; [intros _; right; by apply Hex|]. intros _. destruct (proj1 Hex eq_refl) as (x & ? & ? & ? & ?). by exists x.
    + destruct (decide (ft_status s' = "uncertain"%string)) as [->|Hn]; [simpl; naive_solver|].
      rewrite bool_decide_eq_false_2 by done. cbn [negb]. rewrite andb_true_r.
      case_bool_decide as Hru; [split; [done|]|rewrite Hrs; split; [intros Hu; by apply Hrs in Hu|]];
        intros [[_ ?]|Hx]; try done; by apply Hex in Hx.
  - rewrite (Hsync r t Hr Hrtask).
    assert (ft_task_id s ≠ t) as Hts by (intros <-; apply Hne; by eapply Htasks).
    unfold is_uncertain. split.
    + intros (x & Hx & Hxt & Hxs). right. exists x. split_and!; try done. intros E.
      rewrite (key_unique ft_id s _ x Hids Hs Hx E) in Hxt. done.
    + intros [[? _]|(x & ? & ? & ? & ?)]; [done|]. by exists x.
Qed.

Lemma find_start_elem k t db s :
  find_start k (_starts db t) = Some s → s ∈ f_starts db ∧ ft_task_id s = t ∧ ft_start_key s = k.
Proof. by intros [[? ?]%list_elem_of_filter ?%bool_decide_eq_true]%find_first_Some. Qed.

Lemma record_safe t k status actor cost basis session reconciled db r db' :
  record_start_outcome t k status actor cost basis session reconciled db = Ok (r, db') → safe db db'.
Proof.
  intros (c & n & rec & Hst%effective_status & Hb & _ & _ & _ & Hset)%record_inv.
  destruct Hset as [why|s s' db' Hf Es Ec En Hcase|s row db' Hf Hs _ _ s' db1 Hrow row' Haud].
  - by apply same_safe.
  - destruct (find_start_elem _ _ _ _ Hf) as (Hin & _ & _).
    destruct Hcase as [(-> & -> & _)|(b & -> & Hbn & -> & ->)]; [by apply same_safe|].
    assert (start_le s (with_basis b (f_now db) s)) as Hle by (split; [done| |done]; intros _; by rewrite Hbn).
    intros [Ht Hr Htasks Hsync]. split; [|by apply (replace_le s)]. split; [|done..|].
    + apply (tickets_replace s); [done..| |done]. pose proof (lw_status _ Ht) as Hall.
      rewrite Forall_forall in Hall. exact (Hall s Hin).
    + intros r t' Hr' Htask. rewrite (Hsync r t' Hr' Htask), (is_uncertain_put s) by done.
      unfold is_uncertain. simpl. split.
      * intros (x & Hx & ? & ?). destruct (decide (ft_id x = ft_id s)) as [E|]; [|right; by exists x].
        rewrite (key_unique ft_id s _ x (lw_ids _ Ht) Hin Hx E) in *. by left.
      * intros [[? ?]|(x & ? & ? & ? & ?)]; [by exists s|by exists x].
  - destruct (find_start_elem _ _ _ _ Hf) as (Hin & <- & _).
    eapply safe_trans; [|by apply same_safe, audited_same].
    pose proof (settled_le (effective status) c basis n (f_now db) s Hs Hst) as Hle. fold s' in Hle.
    intros Hwf. pose proof Hwf as [Ht Hr Htasks Hsync].
    apply find_first_Some in Hrow as [Hrow Hrt%bool_decide_eq_true].
    split; [|by apply (replace_le s s')]. split.
    + apply (tickets_replace s s' db); try done. simpl. clear -Hst. rewrite elem_of_app in Hst.
      destruct Hst as [Hst|Hst]; [|apply list_elem_of_singleton in Hst as ->; by apply (bool_decide_unpack _)].
      unfold _TERMINAL, START_STATUSES in *. set_solver.
    + simpl. by rewrite (replace_fmap rc_id row row').
    + intros r1 r2 t H1 H2 E1 E2.
      assert (∀ r, r ∈ f_receipts (put_receipt row' db1) → ∃ r0, r0 ∈ f_receipts db ∧ rc_id r0 = rc_id r ∧
                rc_task_id r0 = rc_task_id r) as Hback.
      { intros r0 [->|[? ?]]%(elem_replaced rc_id row row' eq_refl); [by exists row|by exists r0|done]. }
      destruct (Hback r1 H1) as (x1 & ? & <- & ?), (Hback r2 H2) as (x2 & ? & <- & ?).
      apply (Htasks x1 x2 t); congruence.
    + exact (settled_sync db s s' row (f_now db) Hwf Hin eq_refl eq_refl Hrow Hrt).
Qed.

(** C20: From a well-formed ledger, whatever starts are authorized and settled and
    however time passes: a task's start keys stay unique, every ticket keeps a
    legal status and a positive ceiling, a receipt is uncertain exactly while
    one of its task's starts is, no ticket is lost or re-pinned, a terminal
    outcome with its cost and session is final and the evidence of a free start
    on a terminal ticket is never replaced (a ticket that is still uncertain may
    have its evidence replaced when it is reconciled), and a settled ticket is
    never reserved again. *)
Theorem ledger_reachable `{Environ, IsoFormat, Hashing} db db' :
  ledger_wf db → rtc ledger_step db db' → ledger_wf db' ∧ ledger_le db db'.
Proof.
  intros Hwf Hsteps. revert Hwf. change (safe db db').
  induction Hsteps as [|db db1 db2 Hstep _ IH]; [by apply same_safe|].
  eapply safe_trans; [|exact IH]. destruct Hstep as [t key actor model cost r db1 Hq| |now].
  - by eapply authorize_safe.
  - by eapply record_safe.
  - by apply same_safe.
Qed.
