(* ===== verification/StartWitness.v ===== *)
(** * Factory controls: a concrete factory

    A factory of ceiling four with one running and one paused delivery task. *)

From Stdlib Require Import SpecFloat.
From stdpp Require Import prelude list strings relations.
From S2P Require Import Prelude PyValue GraphData GraphPlan GraphAccounting WorkItems ModelPool PolicyData Policy PolicyFacts PolicyClaims Controls Lanes LaneClaims Capacity CapacityClaims Starts StartFacts StartClaims.
Local Open Scope Z_scope.

Module StartDemo.

#[local] Instance env : Environ := λ name,
  if bool_decide (name = "FACTORY_MAX_CONCURRENT_TASKS"%string) then Some "4"%string else None.
#[local] Instance iso : IsoFormat :=
  { fromisoformat := λ _, Some (mkDatetime 1000000000 (Some 0)); isoformat := λ _, "1970-01-01T00:16:40+00:00"%string }.
#[local] Instance hashing : Hashing :=
  { hash_value := λ _, "sha256"%string; hash_direction := λ _, "sha256"%string }.

Definition policy : dict := Eval vm_compute in PolicyDemo.accepted_policy (PolicyDemo.posted 40 (PInt 25)).
Definition receipt (id : Z) (class task : string) (paused : bool) : FactoryReceipt :=
  mkReceipt id "jomcgi-org/homelab" (100 + id) 3 "title" "body" "url" "operator" (Some class) "" None "admitted"
    (Some task) (Some policy) None None None paused false 0 None 0.
Definition task (id : string) : FTask :=
  mkFTask id 0 "GitHub issue" "jomcgi-org/homelab" (PStr "main") (PStr "opus") (PInt 25) "factory"
    "factory:reconciler" 0 None.
Definition control : FactoryControl := mkControl "enabled" policy 2 1 0 "operator" None.
Definition demo : FDB :=
  mkFDB control [receipt 1 "bug-fix" "t1" false; receipt 2 "docs" "t2" true] [] []
    [task "t1"; task "t2"] [] [] [] [] [] [] [] [] 1000.

(** ** Lanes *)

Definition lanes_4_8 : dict := [("max_tasks", PDict [("delivery", PInt 4); ("advisory", PInt 8)])]%string.
Definition three_deliveries : list FactoryReceipt :=
  [receipt 1 "bug-fix" "t1" false; receipt 2 "docs" "t2" false; receipt 3 "bug-fix" "t3" false].

Lemma open_lanes_split_witness :
  ∃ room, open_lanes lanes_4_8 (take 1 three_deliveries) LANES None = Ok room ∧
    opened (mkLanes 4 8) 4 (take 1 three_deliveries) LANES room.
Proof. apply open_lanes_split; vm_compute; reflexivity. Defined.

(** Delivery holds three of its four slots, advisory none of its eight: the one
    free slot goes to delivery. *)
Lemma two_slots_witness :
  ∃ room, open_lanes lanes_4_8 three_deliveries LANES None = Ok room ∧
    (free_slots 4 three_deliveries = 1 → room = mkLanes 1 0) ∧
    (2 ≤ free_slots 4 three_deliveries → ln_advisory (held_by three_deliveries) = 0 → 1 ≤ ln_advisory room).
Proof.
  apply (advisory_needs_two_slots lanes_4_8 three_deliveries None three_deliveries (mkLanes 4 8) 4);
    vm_compute; reflexivity.
Defined.

Example delivery_takes_the_last_slot :
  open_lanes lanes_4_8 three_deliveries LANES None = Ok (mkLanes 1 0) ∧
  open_lanes lanes_4_8 (take 2 three_deliveries) LANES None = Ok (mkLanes 1 1) ∧
  open_lanes lanes_4_8 [] LANES None = Ok (mkLanes 2 2).
Proof. vm_compute. done. Qed.

Lemma lane_limits_witness :
  ∃ limits, lane_limits lanes_4_8 = Ok limits ∧ 1 ≤ ln_delivery limits ≤ 4 ∧
    0 ≤ ln_advisory limits ≤ 8 ∧ concurrency_limit lanes_4_8 = Ok (lane_sum limits) ∧ lane_sum limits ≤ 4 ∧
    (ceiling_below_lanes lanes_4_8 = Ok None ↔ limits = mkLanes 4 8).
Proof. apply (lane_limits_within lanes_4_8 (mkLanes 4 8) 4); vm_compute; reflexivity. Defined.

Lemma eligible_witness :
  ∃ b, admission_eligible policy 101 "operator" (Some "bug-fix"%string) (Some "jomcgi-org/homelab"%string) = Ok b ∧
    _eligible_clause policy (receipt 1 "bug-fix" "t1" false) = Ok (b && true).
Proof.
  apply (eligible_clause_agrees (PDict (PolicyDemo.posted 40 (PInt 25))) policy (receipt 1 "bug-fix" "t1" false)).
  vm_compute. reflexivity.
Defined.

(** ** Releases *)

Definition after {A} (r : res (A * FDB)) : FDB := match r with Ok (_, db) => db | Raise _ => demo end.
Definition resumed : FDB :=
  Eval vm_compute in after (request_capacity_release (receipt 2 "docs" "t2" true) "operator" true false demo).

Lemma demo_receipts : receipts_wf demo.
Proof. split; [by apply (bool_decide_unpack _)|]. repeat constructor. Qed.

Lemma releases_witness :
  receipts_wf resumed ∧ bounded (mkLanes 2 0) 4 demo resumed ∧ length (occupying resumed) = 2%nat.
Proof.
  assert (receipts_wf resumed ∧ bounded (mkLanes 2 0) 4 demo resumed) as [? ?].
  { apply (releases_within_capacity demo resumed (mkLanes 2 0) 4);
      [exact demo_receipts|vm_compute; reflexivity|vm_compute; reflexivity|].
    apply rtc_once. eapply (ReleaseRequest _ (receipt 2 "docs" "t2" true) "operator" true false (ReleaseRecorded false)).
    - right. left.
    - vm_compute. reflexivity. }
  split; [done|]. split; [done|]. vm_compute. reflexivity.
Defined.

(** ** Starts *)

Definition key : string := "factory-node:t1:impl:1".
Definition authorize (db : FDB) : res (StartResult * FDB) :=
  authorize_start "t1" (PStr key) (PStr "factory:conductor") (PStr "luna") (PInt 2) db.
Definition settle (status : string) (reconciled : bool) (db : FDB) : res (StartResult * FDB) :=
  record_start_outcome "t1" key status (PStr "factory:conductor") (PFloat (f_of_Z 1)) None (PInt 9)
    (PBool reconciled) db.
Definition ticket : FactoryStart := new_start demo "t1" key "factory:conductor" "luna" (f_of_Z 2).
Definition reserved_db : FDB := Eval vm_compute in after (authorize demo).
Definition uncertain_db : FDB := Eval vm_compute in after (settle "uncertain" false reserved_db).
Definition settled_db : FDB := Eval vm_compute in after (settle "succeeded" true uncertain_db).

(** An uncertain outcome blocks the next start until it is reconciled. *)
Example uncertain_blocks :
  _can_start uncertain_db "t1" (Some "factory-node:t1:review:1"%string) = Ok (Some "uncertain_outcome"%string) ∧
  settle "failed" false uncertain_db = Ok (StartRefused "reconciliation_required", uncertain_db) ∧
  _can_start settled_db "t1" (Some "factory-node:t1:review:1"%string) = Ok None ∧
  settle "failed" true settled_db = Ok (StartRefused "conflicting_outcome", settled_db).
Proof. vm_compute. done. Qed.

Lemma fenced_witness : ∃ row policy oversight,
  _receipt demo "t1" = Some row ∧ effective_policy demo row = Ok policy ∧
  review_authority demo "t1" (Some key) = Ok oversight ∧ startable demo "t1" row ∧
  start_bounds row policy oversight ticket (_starts reserved_db "t1") ∧
  Forall (λ s', ft_start_key s' ≠ key) (_starts demo "t1") ∧
  (PStr key, PStr "luna", "t1"%string, ft_status ticket) = (PStr key, PStr "luna", "t1"%string, "reserved"%string) ∧
  f_starts reserved_db = f_starts demo ++ [ticket] ∧ f_receipts reserved_db = f_receipts demo ∧
  f_control reserved_db = f_control demo.
Proof.
  apply (authorize_start_fenced "t1" (PStr key) (PStr "factory:conductor") (PStr "luna") (PInt 2) demo ticket
           reserved_db). vm_compute. reflexivity.
Defined.

Lemma authorize_replays_witness : authorize reserved_db = Ok (StartGranted true ticket, reserved_db).
Proof.
  apply (authorize_start_replays "t1" (PStr key) (PStr "factory:conductor") (PStr "luna") (PInt 2) demo false
           ticket reserved_db). vm_compute. reflexivity.
Defined.

Lemma outcome_replays_witness : ∃ s, settle "uncertain" false uncertain_db = Ok (StartGranted true s, uncertain_db).
Proof.
  eexists. eapply (record_start_outcome_replays "t1" key "uncertain" _ _ _ _ _ reserved_db false).
  vm_compute. reflexivity.
Defined.

(** A node denied a slot once, then run. *)
Definition attempts : list Controls.FactoryStart :=
  [settled_start "failed" (Some fzero) (Some "capacity_denied"%string) None 5 ticket;
   new_start reserved_db "t1" "factory-node:t1:impl:2" "factory:conductor" "luna" (f_of_Z 2)].
Definition run (attempt : Z) (outcome : option pyval) : SwarmNodeRun :=
  mkRun attempt "t1" "impl" attempt None None PNone PNone None "failed" PNone None None
    ((λ v, JText "{}" (Some v)) <$> outcome) 0 None.
Definition runs : list SwarmNodeRun :=
  [run 1 (Some (PDict [("capacity_denied"%string, PBool true)])); run 2 None].

Lemma accounting_witness :
  spent (_accounting (starts_at attempts (Some "impl"%string))) = _spent_attempts runs ∧ _spent_attempts runs = 1.
Proof.
  split; [|vm_compute; reflexivity].
  apply (accounting_agrees attempts). vm_compute. repeat constructor.
Defined.

Lemma demo_ledger : ledger_wf demo.
Proof.
  split; [split; by constructor|by apply (bool_decide_unpack _)| |].
  - intros r r' t [->|[->|[]%elem_of_nil]%elem_of_cons]%elem_of_cons
      [->|[->|[]%elem_of_nil]%elem_of_cons]%elem_of_cons; simpl; congruence.
  - intros r t [->|[->|[]%elem_of_nil]%elem_of_cons]%elem_of_cons _; (split; [done|]);
      by intros (s & Hs%elem_of_nil & _).
Qed.

Lemma ledger_witness : ledger_wf settled_db ∧ ledger_le demo settled_db.
Proof.
  apply (ledger_reachable demo settled_db); [exact demo_ledger|].
  eapply rtc_l; [eapply (LedgerAuthorize demo "t1" (PStr key) (PStr "factory:conductor") (PStr "luna") (PInt 2));
                 vm_compute; reflexivity|].
  eapply rtc_l; [eapply (LedgerOutcome _ "t1" key "uncertain" (PStr "factory:conductor") (PFloat (f_of_Z 1)) None
                           (PInt 9) (PBool false)); vm_compute; reflexivity|].
  eapply rtc_l; [eapply (LedgerOutcome _ "t1" key "succeeded" (PStr "factory:conductor") (PFloat (f_of_Z 1)) None
                           (PInt 9) (PBool true)); vm_compute; reflexivity|].
  vm_compute. apply rtc_refl.
Defined.
End StartDemo.
