(* ===== verification/Finish.v ===== *)
(** * Factory controls: settling a task

    [finish_task] of [factory_controls.py] with what it reads: the validated
    evidence, the authority of a cancellation, the two execution ledgers, the
    rollout proof of a landing delivery and the barrier of a landing recovery.
    Every guard runs before the first write, so the guards are a list of checks
    ([finish_checks]) evaluated in order.
    Then [request_landing_recovery], which reopens a delivery. *)

From Stdlib Require Import SpecFloat Ascii.
From stdpp Require Import prelude list strings pretty.
From S2P Require Import Prelude PyValue GraphData GraphAccounting GraphPlan WorkItems ModelPool PolicyData Policy Controls Lanes Capacity Starts.
Local Open Scope Z_scope.

Definition _SETTLED : list string := _TERMINAL ++ [ESCALATED].
Definition MAX_TASK_EVIDENCE_LENGTH : nat := 4096.

(** What the texts of other values are: the digest of a compact JSON encoding,
    and [str] of a float or a container. *)
Class Rendering := { sha256_compact : pyval → string; str_nonscalar : pyval → string }.

(** [f"{v}"]. *)
Definition py_format `{Rendering} (v : pyval) : string :=
  match v with
  | PStr s => s
  | PInt z => pretty z
  | PBool b => if b then "True" else "False"
  | PNone => "None"
  | _ => str_nonscalar v
  end.

(** [v.get(key)]: only an object has it. *)
Definition obj_get (key : string) (v : pyval) : res pyval :=
  match v with PDict d => Ok (dict_get key d) | _ => Raise AttributeError end.

(** ** Evidence *)

(** Length of a character in the JSON text [json.dumps] writes: a short escape,
    itself, or [\uXXXX]. *)
Definition escaped_length (c : ascii) : nat :=
  let n := nat_of_ascii c in
  if bool_decide (n ∈ [34; 92; 10; 13; 9; 8; 12]%nat) then 2
  else if (32 <=? n)%nat && (n <=? 126)%nat then 1 else 6.
Fixpoint escaped_text (s : string) : nat :=
  match s with EmptyString => 0 | String c s => (escaped_length c + escaped_text s)%nat end.
(** Evidence holds texts and integers only. *)
Definition scalar_length (v : pyval) : nat :=
  match v with
  | PStr s => (2 + escaped_text s)%nat
  | PInt z => String.length (pretty z)
  | _ => 0
  end.
(** [len(dumps(evidence))]: braces, quoted keys, colons and the commas between. *)
Definition evidence_length (evidence : dict) : nat :=
  (2 + sum_list_with (λ p : string * pyval, 2 + escaped_text p.1 + 1 + scalar_length p.2) evidence
   + (length evidence - 1))%nat.

Definition EVIDENCE_KEYS : list string :=
  ["pr_url"; "head_sha"; "review_session_id"; "reviewer_model"; "state"; "reason"].

Definition check_evidence_item (p : string * pyval) : res unit :=
  if bool_decide (p.1 = "review_session_id"%string)
  then _ ← _integer p.2 p.1 1 (2 ^ 31 - 1); Ok tt
  else _ ← _text p.2 p.1 1024; Ok tt.

Definition check_evidence (evidence : pyval) : res (option dict) :=
  match evidence with
  | PNone => Ok None
  | PDict d =>
      _ ← require (keys_within d EVIDENCE_KEYS) "unsupported task evidence";
      _ ← res_map check_evidence_item d;
      _ ← require (evidence_length d <=? MAX_TASK_EVIDENCE_LENGTH)%nat "task evidence too large";
      Ok (Some d)
  | _ => Raise (ValueError "unsupported task evidence")
  end.

(** [(evidence or {}).get(key)] and the value itself. *)
Definition ev_get (key : string) (evidence : option dict) : pyval := dict_get key (default [] evidence).
Definition ev_value (evidence : option dict) : pyval :=
  match evidence with Some d => PDict d | None => PNone end.

Definition pull_url `{Rendering} (repo : string) (pr_number : pyval) : pyval :=
  PStr ("https://github.com/" +:+ repo +:+ "/pull/" +:+ py_format pr_number).

(** ** Human ownership and cancellation *)

Definition with_cancellation (now : Z) (row : FactoryReceipt) : FactoryReceipt :=
  mkReceipt (rc_id row) (rc_repo row) (rc_issue_number row) (rc_generation row) (rc_title row)
    (rc_body row) (rc_url row) (rc_actor row) (rc_task_class row) (rc_recurrence_key row)
    (rc_routing_tier row) (rc_state row) (rc_task_id row) (rc_policy_json row) (rc_allowance_json row)
    (rc_direction_json row) (rc_work_item_id row) (rc_task_paused row) true now
    (rc_escalation_json row) (rc_created_at row).

(** An audit of the task with this action. *)
Definition audit_exists (db : FDB) (task_id action : string) : bool :=
  existsb (λ a, bool_decide (au_task_id a = Some task_id) && is_action action a) (f_audits db).

Definition human_handoff (task_id actor : string) (observed : bool) : tx FDB bool := λ db,
  match _receipt db task_id with
  | None => Ok (false, db)
  | Some row =>
      if negb (str_in (rc_state row) ["admitted"; "uncertain"; "landing"]) then Ok (false, db) else
      if audit_exists db task_id "human_handoff" then Ok (true, db) else
      if negb observed && negb (human_owned db row) then Ok (false, db) else
      Ok (true, _audit actor "human_handoff" (Some task_id)
                  [("issue_number", PInt (rc_issue_number row)); ("label", PStr "human")]%string
                  (put_receipt (with_cancellation (f_now db) row) db))
  end.

Definition HUMAN_HANDOFF_EVIDENCE : dict :=
  [("state", PStr "human_handoff");
   ("reason", PStr "Issue labelled human; ownership handed to a person, factory delivery not claimed.")]%string.

(** [factory_pause.is_card] and [_identity]. *)
Definition is_card (document : dict) : bool := py_eq (dict_get "kind" document) (PStr "automatic_pause").

Definition decision_identity `{Rendering} (id : Z) (repo : string) (generation : Z) (escalation : dict)
    : option string :=
  match escalation with
  | [] => None
  | _ =>
      Some ("decision:" +:+ sha256_compact (PDict
        [("receipt_id", PInt id); ("repo", PStr repo); ("generation", PInt generation);
         ("brief", PDict (filter (λ p, ¬ p.1 ∈ ["resolved"; "conversation"]%string) escalation))]%string))%string
  end.
Definition _identity `{Rendering} (row : FactoryReceipt) (document : dict) : pyval :=
  of_option (decision_identity (rc_id row) (rc_repo row) (rc_generation row) document).

Definition operator_cancelled (reason : pyval) : dict :=
  [("state", PStr "operator_cancelled"); ("reason", reason)]%string.

(** [effects.cancellation_requested is True] of a recorded decision. *)
Definition cancels (d : dict) : res bool :=
  v ← obj_get "cancellation_requested" (get_or "effects" (PDict []) d); Ok (is_true v).

(** The resolution of an automatic-pause card that chose STOP, if the card is
    exactly the one the receipt's task raised. *)
Definition stop_resolution `{Rendering} (row : FactoryReceipt) : res (option dict) :=
  let card := default [] (rc_escalation_json row) in
  if negb (is_card card && py_eq (dict_get "task_id" card) (of_option (rc_task_id row))) then Ok None else
  match or_empty (dict_get "resolved" card) with
  | PDict resolved =>
      if py_eq (dict_get "decision_id" resolved) (_identity row card) &&
         py_eq (dict_get "option_key" resolved) (PStr "stop") &&
         py_eq (dict_get "effect" resolved) (PStr "hold")
      then b ← cancels resolved; Ok (if (b : bool) then Some resolved else None)
      else Ok None
  | _ => Raise AttributeError
  end.

(** The audit that committed that resolution. *)
Definition stop_committed (row : FactoryReceipt) (resolved : dict) (event : FactoryAudit) : res bool :=
  let detail := au_detail_json event in
  if is_action "decision_applied" event && py_eq (PStr (au_actor event)) (dict_get "actor" resolved) &&
     py_eq (dict_get "receipt_id" detail) (PInt (rc_id row)) &&
     py_eq (dict_get "issue_number" detail) (PInt (rc_issue_number row)) &&
     py_eq (dict_get "decision_id" detail) (dict_get "decision_id" resolved) &&
     is_str (dict_get "decision_id" detail) &&
     py_eq (dict_get "option_key" detail) (PStr "stop") && py_eq (dict_get "effect" detail) (PStr "hold")
  then cancels detail else Ok false.

(** [any(p(x) for x in l)] where the test may raise. *)
Fixpoint res_any {A} (p : A → res bool) (l : list A) : res bool :=
  match l with [] => Ok false | x :: l => b ← p x; if (b : bool) then Ok true else res_any p l end.

Definition cancellation_events (db : FDB) (row : FactoryReceipt) : list FactoryAudit :=
  filter (λ a, au_task_id a = rc_task_id row ∧
               au_action a ∈ ["human_handoff"; "cancel_task"; "decision_applied"]%string) (f_audits db).

Definition _cancellation_evidence `{Rendering} (db : FDB) (row : FactoryReceipt) : res (option dict) :=
  if negb (rc_cancellation_requested row) then Ok None else
  let events := cancellation_events db row in
  if existsb (is_action "human_handoff") events then Ok (Some HUMAN_HANDOFF_EVIDENCE) else
  match find_first (λ e, is_action "cancel_task" e && is_true (dict_get "ok" (au_detail_json e))) events with
  | Some event => reason ← item "cancellation_reason" (au_detail_json event);
                  Ok (Some (operator_cancelled reason))
  | None =>
      resolution ← stop_resolution row;
      match resolution with
      | None => Ok None
      | Some resolved =>
          committed ← res_any (stop_committed row resolved) events;
          Ok (if (committed : bool)
              then Some (operator_cancelled (PStr
                "Operator selected STOP on the exact automatic-pause decision. Issue remains open."))
              else None)
      end
  end.

(** ** Both execution ledgers *)

Definition live_run (task_id : string) (r : SwarmNodeRun) : bool :=
  bool_decide (nr_task_id r = task_id) && negb (terminal (nr_status r)).

Definition has_unresolved (db : FDB) (task_id : string) : bool :=
  negb (ac_unresolved_starts (_accounting (_starts db task_id)) =? 0).

Definition _quiescence_refusal (db : FDB) (task_id : string) : option string :=
  if has_unresolved db task_id then Some "unresolved_starts"%string else
  if existsb (live_run task_id) (f_runs db) then Some "live_runs"%string else None.

(** [limits.deadline_expired] of the task's snapshot. *)
Definition deadline_expired `{IsoFormat} (db : FDB) (row : FactoryReceipt) (task_id : string) : res bool :=
  match find_task db task_id with
  | None => Raise AttributeError
  | Some task =>
      policy ← effective_policy db row;
      timeout ← item "task_timeout_seconds" policy; timeout ← as_int timeout;
      recovery ← _recovery_deadline db task_id;
      Ok (default (tk_created_at task + timeout * 1000000) recovery <=? f_now db)
  end.

(** A refusal, or whether the deadline of the snapshot it returns has expired
    (the only part of the snapshot a caller reads). *)
Definition paused_settlement_snapshot `{IsoFormat} (db : FDB) (task_id : string) : res (string + bool) :=
  match _receipt db task_id with
  | None => Ok (inl "not_paused"%string)
  | Some row =>
      if negb (rc_task_paused row) then Ok (inl "not_paused"%string) else
      if negb (is_active row) || negb (str_in (ct_state (f_control db)) ["enabled"; "paused"]) ||
         rc_cancellation_requested row || review_recovery_held db task_id
      then Ok (inl "settlement_held"%string) else
      match _quiescence_refusal db task_id with
      | Some refusal => Ok (inl refusal)
      | None => expired ← deadline_expired db row task_id; Ok (inr expired)
      end
  end.

(** ** The barrier of a landing recovery *)

Record Barrier := mkBarrier
  { br_request_id : Z; br_run_id_floor : Z; br_pr_number : pyval; br_head_sha : pyval;
    br_round_recorded : bool }.

Definition landing_recovery_barrier (db : FDB) (task_id : string) : res (option Barrier) :=
  match newest db (Some task_id) (is_action "landing_recovery_requested") with
  | None => Ok None
  | Some event =>
      let detail := au_detail_json event in
      floor ← (match dict_get "run_id_floor" detail with
               | PNone =>
                   Ok match find_last (λ r, bool_decide (nr_task_id r = task_id) &&
                                            (nr_created_at r <=? au_created_at event)) (f_runs db) with
                      | Some r => nr_id r
                      | None => 0
                      end
               | v => as_int v
               end);
      Ok (Some (mkBarrier (au_id event) floor (dict_get "pr_number" detail) (dict_get "head_sha" detail)
        (existsb (λ a, bool_decide (au_task_id a = Some task_id) && is_action "landing_recovery_round" a &&
                       py_eq (dict_get "request_id" (au_detail_json a)) (PInt (au_id event)))
           (f_audits db))))
  end.

(** [column LIKE 'review_%']: the underscore stands for any character. *)
Definition like_review (node_key : string) : bool :=
  startswith "review" node_key && (7 <=? String.length node_key)%nat.

Definition IMPLEMENTER_PREFIXES : list string := ["implement_"; "integrate_"; "correct_"].

(** [body.get("value") or body.get("artifact") or {}] of a stored outcome; a text
    that does not parse is an empty outcome here. *)
Definition artifact_of (body : pyval) : pyval :=
  match body with
  | PDict d => let v := dict_get "value" d in if truthy v then v else or_empty (dict_get "artifact" d)
  | _ => PDict []
  end.

(** [json.loads(run.outcome_json or "{}")], [None] when it raises. *)
Definition outcome_body (r : SwarmNodeRun) : option pyval :=
  match nr_outcome_json r with
  | Some t => if bool_decide (jt_text t = ""%string) then Some (PDict []) else jt_loads t
  | None => Some (PDict [])
  end.

Definition recovery_review (db : FDB) (task_id : string) (floor : Z) (session : pyval) : option SwarmNodeRun :=
  if truthy session then
    find_first (λ r, bool_decide (nr_task_id r = task_id) && (floor <? nr_id r) && like_review (nr_node_key r) &&
                     bool_decide (nr_status r = "succeeded"%string) &&
                     match nr_session_id r with Some n => py_eq (PInt n) session | None => false end)
      (f_runs db)
  else None.

Definition approval_matches (barrier : Barrier) (exact_head : pyval) (review : SwarmNodeRun) : res bool :=
  let artifact := artifact_of (default (PDict []) (outcome_body review)) in
  verdict ← obj_get "verdict" artifact;
  pr ← obj_get "pr_number" artifact;
  head ← obj_get "head_sha" artifact;
  Ok (py_eq verdict (PStr "approve") && py_eq pr (br_pr_number barrier) && py_eq head exact_head &&
      py_eq (of_option (nr_head_sha review)) exact_head).

(** The session of a run that implemented the exact head after the barrier and
    before the review. *)
Definition implementer_session (barrier : Barrier) (exact_head : pyval) (review candidate : SwarmNodeRun)
    : res (option Z) :=
  if negb (existsb (λ p, startswith p (nr_node_key candidate)) IMPLEMENTER_PREFIXES) then Ok None else
  match outcome_body candidate with
  | None => Ok None
  | Some body =>
      let value := artifact_of body in
      pr ← obj_get "pr_number" value;
      head ← obj_get "head_sha" value;
      Ok (if py_eq pr (br_pr_number barrier) && py_eq head exact_head &&
             py_eq (of_option (nr_head_sha candidate)) exact_head &&
             (br_run_id_floor barrier <? nr_id candidate) && (nr_id candidate <? nr_id review)
          then nr_session_id candidate else None)
  end.

Definition implementer_sessions (db : FDB) (task_id : string) (barrier : Barrier) (exact_head : pyval)
    (review : SwarmNodeRun) : res (list Z) :=
  found ← res_map (implementer_session barrier exact_head review)
            (filter (λ r, nr_task_id r = task_id ∧ nr_status r = "succeeded"%string) (f_runs db));
  Ok (omap (M := list) (λ n : option Z, n) found).

(** The recovered head was implemented, then approved by another session. *)
Definition independently_reviewed (db : FDB) (task_id : string) (barrier : Barrier) (evidence : option dict)
    : res bool :=
  match recovery_review db task_id (br_run_id_floor barrier) (ev_get "review_session_id" evidence) with
  | None => Ok false
  | Some review =>
      let exact_head := ev_get "head_sha" evidence in
      approved ← approval_matches barrier exact_head review;
      if negb approved then Ok false else
      sessions ← implementer_sessions db task_id barrier exact_head review;
      Ok match nr_session_id review, sessions with
         | Some n, _ :: _ => negb (bool_decide (n ∈ sessions))
         | _, _ => false
         end
  end.

(** ** [finish_task] *)

Inductive FinishResult :=
| FinishRefused (reason : string)
| FinishReplayed
| FinishState (state : string).

Definition MERGED_STATES : list string :=
  ["merged_reviewed"; "merged_review_missing"; "merged_review_not_approved"].
Definition PAUSED_TRIGGERS : list string := ["objective_closed"; "deadline"; "reconciler_pause_expired"].

(** The first check that answers; a later one is not evaluated. *)
Fixpoint first_answer {A} (checks : list (res (option A))) : res (option A) :=
  match checks with
  | [] => Ok None
  | check :: checks => a ← check; match a with Some x => Ok (Some x) | None => first_answer checks end
  end.
Definition refuse_if (b : bool) (reason : string) : res (option FinishResult) :=
  Ok (if b then Some (FinishRefused reason) else None).
Definition refuse_for (reason : option string) : res (option FinishResult) :=
  Ok (FinishRefused <$> reason).

Section finish.
Context `{Environ, IsoFormat, Rendering} (db : FDB) (row : FactoryReceipt) (task_id outcome : string)
  (evidence : option dict).

Definition succeeding : bool := bool_decide (outcome = "succeeded"%string).
Definition cancelling : bool := bool_decide (outcome = "cancelled"%string).
Definition ev_state (state : string) : bool := py_eq (ev_get "state" evidence) (PStr state).
Definition ev_merged : bool := existsb ev_state MERGED_STATES.
Definition control_in (states : list string) : bool := str_in (ct_state (f_control db)) states.

Definition paused_check (paused_trigger : option string) : res (option FinishResult) :=
  match paused_trigger with
  | None => Ok None
  | Some trigger =>
      paused ← paused_settlement_snapshot db task_id;
      Ok match paused with
         | inl reason => Some (FinishRefused reason)
         | inr expired =>
             if bool_decide (trigger = "objective_closed"%string) && landing_held row
             then Some (FinishRefused "held_objective_closed")
             else if bool_decide (trigger = "deadline"%string) && negb expired
             then Some (FinishRefused "deadline_not_expired") else None
         end
  end.

Definition merged_check : res (option FinishResult) :=
  if negb ev_merged then Ok None else
  if landing_held row || rc_cancellation_requested row || negb (control_in ["enabled"; "paused"]) ||
     review_recovery_held db task_id
  then Ok (Some (FinishRefused "held_delivery_already_merged"))
  else refuse_for (_quiescence_refusal db task_id).

(** The merge of a paused task is the one observed on its own pull request. *)
Definition merge_verified : bool :=
  let proof := match find_first (λ a, bool_decide (au_task_id a = Some task_id) &&
                                      is_action "owned_pr_merged" a) (f_audits db) with
               | Some a => au_detail_json a
               | None => []
               end in
  py_eq (dict_get "head_sha" proof) (ev_get "head_sha" evidence) && truthy (dict_get "head_sha" proof) &&
  py_eq (ev_get "pr_url" evidence) (pull_url (rc_repo row) (dict_get "pr_number" proof)) &&
  truthy (ev_get "review_session_id" evidence).

Definition settled_check : res (option FinishResult) :=
  if negb (str_in (rc_state row) _SETTLED) then Ok None else
  let same := bool_decide (rc_state row = outcome) &&
              match newest db (Some task_id) (is_action "finish_task") with
              | Some last => py_eq (dict_get "evidence" (au_detail_json last)) (ev_value evidence)
              | None => false
              end in
  Ok (Some (if same then FinishReplayed else FinishRefused "conflicting_outcome")).

Definition cancellation_check : res (option FinishResult) :=
  cancellation ← _cancellation_evidence db row;
  let matches := match cancellation with
                 | Some c => py_eq (ev_value evidence) (PDict c)
                 | None => is_none (ev_value evidence)
                 end in
  let stopped := control_in ["stopped"] in
  if ev_state "operator_cancelled" && (negb cancelling || negb matches || stopped)
  then Ok (Some (FinishRefused "unverified_operator_cancellation")) else
  let global_cancellation := stopped && cancelling && is_none (ev_value evidence) in
  Ok (if is_some cancellation && negb (bool_decide (outcome = "uncertain"%string)) &&
         (negb cancelling || negb matches) && negb global_cancellation
      then Some (FinishRefused "cancellation_pending") else None).

Definition handed_off : bool :=
  cancelling && py_eq (ev_value evidence) (PDict HUMAN_HANDOFF_EVIDENCE) && rc_cancellation_requested row &&
  audit_exists db task_id "human_handoff".

(** A rollout of the approved head of this pull request, verified after the
    delivery was approved. *)
Definition rollout_proof (after : Z) (a : FactoryAudit) : bool :=
  let proof := au_detail_json a in
  bool_decide (au_task_id a = Some task_id) && is_action "rollout_verified" a &&
  bool_decide (au_actor a = "factory:landing"%string) && (after <? au_id a) &&
  is_true (dict_get "verified" proof) &&
  py_eq (dict_get "approved_head_sha" proof) (ev_get "head_sha" evidence) &&
  py_eq (get_or "pr_url" (PStr "") (default [] evidence)) (pull_url (rc_repo row) (dict_get "pr_number" proof)).

Definition landing_check : res (option FinishResult) :=
  if negb (bool_decide (rc_state row = "landing"%string) && negb handed_off) then Ok None else
  match newest db (Some task_id) (is_action "delivery_ready") with
  | None => Ok (Some (FinishRefused "conflicting_outcome"))
  | Some ready =>
      if negb succeeding || negb (py_eq (ev_value evidence) (dict_get "evidence" (au_detail_json ready)))
      then Ok (Some (FinishRefused "conflicting_outcome"))
      else Ok (if existsb (rollout_proof (au_id ready)) (f_audits db) then None else Some (FinishState "landing"))
  end.

Definition recovery_check : res (option FinishResult) :=
  if negb succeeding then Ok None else
  barrier ← landing_recovery_barrier db task_id;
  match barrier with
  | None => Ok None
  | Some barrier =>
      deadline ← _landing_recovery_deadline db task_id;
      match deadline with
      | None => Ok None
      | Some _ =>
          reviewed ← independently_reviewed db task_id barrier evidence;
          refuse_if (negb (br_round_recorded barrier) || negb reviewed) "landing_recovery_pending"
      end
  end.

Definition finish_checks (paused_trigger : option string) : list (res (option FinishResult)) :=
  [ paused_check paused_trigger;
    refuse_if (succeeding && review_recovery_held db task_id) "review_only_recovery";
    refuse_if (succeeding && rc_task_paused row && negb (ev_state "merged_reviewed")) "task_paused";
    merged_check;
    refuse_if (rc_task_paused row && succeeding && negb merge_verified) "merged_delivery_unverified";
    settled_check;
    cancellation_check;
    (if cancelling then refuse_for (_quiescence_refusal db task_id) else Ok None);
    landing_check;
    recovery_check;
    refuse_if (negb (bool_decide (outcome = "uncertain"%string)) && has_unresolved db task_id)
      "unresolved_starts" ].

(** An approved delivery goes to the landing loop. *)
Definition delivers : bool :=
  succeeding && negb (landing_held row) && negb (bool_decide (rc_state row = "landing"%string)) &&
  (ev_state "ready_for_review" || ev_state "merged_reviewed") && truthy (ev_get "pr_url" evidence) &&
  (ev_state "merged_reviewed" ||
   repo_auto_merge_enabled (ct_policy_json (f_control db)) (PStr (rc_repo row))).
End finish.

(** The session's object for this row. *)
Definition refreshed (row : FactoryReceipt) (db : FDB) : FactoryReceipt :=
  default row (find_first (λ r, rc_id r =? rc_id row) (f_receipts db)).

Definition land_task (now : Z) (k : FTask) : FTask :=
  mkFTask (tk_id k) (tk_created_at k) (tk_task_text k) (tk_repo k) (tk_base_branch k) (tk_conductor_model k)
    (tk_budget_usd k) "landing" (tk_start_triggered_by k) now None.
Definition settle_task (state : string) (now : Z) (k : FTask) : FTask :=
  mkFTask (tk_id k) (tk_created_at k) (tk_task_text k) (tk_repo k) (tk_base_branch k) (tk_conductor_model k)
    (tk_budget_usd k) state (tk_start_triggered_by k) (tk_start_updated_at k) (Some now).

(** [task = db.get(SwarmTask, t)], changed in place. *)
Definition edit_task (task_id : string) (f : FTask → FTask) (db : FDB) : res FDB :=
  match find_task db task_id with
  | None => Raise AttributeError
  | Some _ => Ok (set_tasks (update_where (λ k, bool_decide (tk_id k = task_id)) f) db)
  end.

(** The writes of an accepted outcome. *)
Definition finish_write `{Environ} (row : FactoryReceipt) (task_id outcome action actor : string)
    (evidence : option dict) : tx FDB FinishResult := λ db,
  let left := negb (str_in outcome _ACTIVE) in
  db ← (if is_active row && left && negb (bool_decide (outcome = "cancelled"%string))
        then '(_, db) ← _apply_capacity_release row true db; Ok db else Ok db);
  let row := with_state outcome (f_now db) (refreshed row db) in
  let db := put_receipt row db in
  let db := if left then revoke_capacity_release row actor "task_settled" db else db in
  db ← (if bool_decide (outcome = "landing"%string) then edit_task task_id (land_task (f_now db)) db else Ok db);
  db ← (if str_in outcome _SETTLED then edit_task task_id (settle_task outcome (f_now db)) db else Ok db);
  Ok (FinishState outcome,
      _audit actor action (Some task_id) [("outcome", PStr outcome); ("evidence", ev_value evidence)]%string db).

Definition finish_task `{Environ, IsoFormat, Rendering} (task_id outcome : string) (actor evidence : pyval)
    (paused_trigger : option string) : tx FDB FinishResult := λ db,
  actor ← _text actor "actor" 256;
  _ ← require (str_in outcome (_SETTLED ++ ["uncertain"])) "invalid task outcome";
  _ ← require (match paused_trigger with Some t => str_in t PAUSED_TRIGGERS | None => true end)
        "invalid paused settlement trigger";
  evidence ← check_evidence evidence;
  match _receipt db task_id with
  | None => Ok (FinishRefused "unknown_task", db)
  | Some row =>
      answer ← first_answer (finish_checks db row task_id outcome evidence paused_trigger);
      match answer with
      | Some result => Ok (result, db)
      | None =>
          if delivers db row outcome evidence
          then finish_write row task_id "landing" "delivery_ready" actor evidence db
          else finish_write row task_id outcome "finish_task" actor evidence db
      end
  end.

(** * Factory controls: reopening a delivery that cannot land

    [request_landing_recovery] of [factory_controls.py]: one durable request per
    settlement, at most [MAX_LANDING_RECOVERIES] per task, whose fixed deadline
    starts when execution capacity is acquired. *)

Definition MAX_LANDING_RECOVERIES : nat := 2.
Definition LANDING_RECOVERY_TIMEOUT_SECONDS : Z := 3600.
Definition OPERATOR_DOCS_HANDOFF_TARGET : Z * string * string * Z :=
  (1045, "t-a4702857-5c95-41cd-aa21-415e10bc9355", "jomcgi-org/homelab", 7492)%string.
Definition operator_landing_target (task_id : string) : bool :=
  bool_decide (task_id = OPERATOR_DOCS_HANDOFF_TARGET.1.1.2).

(** [same_work] on two receipts. *)
Definition same_work (a b : FactoryReceipt) : bool :=
  match rc_work_item_id a, rc_work_item_id b with
  | Some i, Some j => i =? j
  | _, _ => false
  end || (bool_decide (rc_repo a = rc_repo b) && (rc_issue_number a =? rc_issue_number b)).

Definition is_sha (s : string) : bool :=
  (String.length s =? 40)%nat && all_chars (λ c, in_range 48 57 c || in_range 97 102 c) s.

Definition _landing_recovery_expired `{IsoFormat} (db : FDB) (task_id : string) : res bool :=
  deadline ← _landing_recovery_deadline db task_id;
  match deadline with
  | None => Ok false
  | Some d => due ← aware d; Ok (due <=? f_now db)
  end.

(** Correcting a conflict needs the enabled primary lane only. *)
Definition conflict_repair (policy : dict) (repo : string) : res bool :=
  match (slug ← normalize_repo (PStr repo);
         stored ← _stored_repos policy;
         primary ← normalize_repo (dict_get "repo" policy);
         Ok (bool_decide (slug = primary) &&
             match assoc_get slug stored with
             | Some (PDict entry) =>
                 is_true (get_or "enabled" (PBool true) entry) && is_false (get_or "paused" (PBool false) entry)
             | _ => false
             end)) with
  | Raise (ValueError _) | Raise TypeError => Ok false
  | r => r
  end.

Inductive RecoveryResult :=
| RecoveryRefused (reason : string) (pending : bool)
| RecoveryAccepted (replayed : bool) (state : string).

Definition audits_of (db : FDB) (task_id : string) (actions : list string) : list FactoryAudit :=
  filter (λ a, au_task_id a = Some task_id ∧ au_action a ∈ actions) (f_audits db).
Definition recovery_requests (db : FDB) (task_id : string) : list FactoryAudit :=
  audits_of db task_id ["landing_recovery_requested"%string].
Definition latest_finish (db : FDB) (task_id : string) : Z :=
  max_key au_id (audits_of db task_id ["finish_task"; "delivery_ready"]%string).

(** The latest request still waits for its recovery. *)
Definition recovery_replaying (db : FDB) (task_id : string) : res bool :=
  match last (recovery_requests db task_id) with
  | None => Ok false
  | Some previous =>
      barrier ← landing_recovery_barrier db task_id;
      match barrier with
      | None => Raise TypeError
      | Some barrier => Ok ((latest_finish db task_id <? au_id previous) || negb (br_round_recorded barrier))
      end
  end.

Definition delivered (row : FactoryReceipt) : bool := str_in (rc_state row) ["succeeded"; "landing"].

(** A settled delivery is corrected only where the factory may still land it. *)
Definition reopen_check (db : FDB) (row : FactoryReceipt) (task_id reason : string)
    : res (option RecoveryResult) :=
  if negb (delivered row) then Ok None else
  let policy := ct_policy_json (f_control db) in
  repair ← (if bool_decide (reason = "merge_conflict"%string) then conflict_repair policy (rc_repo row)
            else Ok false);
  if negb (bool_decide (ct_state (f_control db) = "enabled"%string)) ||
     negb (repair || repo_auto_merge_enabled policy (PStr (rc_repo row)))
  then Ok (Some (RecoveryRefused "factory_disabled" false)) else
  Ok (if existsb (λ r, same_work r row && negb (bool_decide (rc_task_id r = Some task_id))) (active_receipts db)
      then Some (RecoveryRefused "issue_already_active" false) else None).

Definition recovery_checks `{Environ, IsoFormat} (db : FDB) (row : FactoryReceipt) (task_id reason : string)
    (replaying : bool) : list (res (option RecoveryResult)) :=
  let refuse (b : bool) (why : string) : res (option RecoveryResult) :=
    Ok (if b then Some (RecoveryRefused why false) else None) in
  [ Ok (if replaying && bool_decide (rc_state row = "admitted"%string)
        then Some (RecoveryAccepted true (rc_state row)) else None);
    refuse (negb replaying && (MAX_LANDING_RECOVERIES <=? length (recovery_requests db task_id))%nat)
      "recovery_limit"%string;
    refuse (negb (str_in (rc_state row) ["admitted"; "landing"; "succeeded"])) "task_not_correctable"%string;
    refuse (rc_task_paused row || rc_cancellation_requested row) "task_paused"%string;
    (expired ← (if replaying then _landing_recovery_expired db task_id else Ok false);
     refuse expired "landing_recovery_deadline"%string);
    refuse (existsb unresolved (_starts db task_id)) "unresolved_execution"%string;
    reopen_check db row task_id reason ].

Definition recovery_deadline_text `{IsoFormat} (db : FDB) : pyval :=
  PStr (isoformat (mkDatetime (f_now db + LANDING_RECOVERY_TIMEOUT_SECONDS * 1000000) (Some 0))).

Definition run_floor (db : FDB) (task_id : string) : Z :=
  match find_last (λ r, bool_decide (nr_task_id r = task_id)) (f_runs db) with
  | Some r => nr_id r
  | None => 0
  end.

Definition record_recovery `{IsoFormat} (task_id actor source reason head_sha : string) (pr_number : Z)
    (capacity_available : bool) (db : FDB) : FDB :=
  _audit actor "landing_recovery_requested" (Some task_id)
    [("run_id_floor", PInt (run_floor db task_id)); ("pr_number", PInt pr_number);
     ("head_sha", PStr head_sha); ("source", PStr source); ("reason", PStr reason);
     ("deadline_at", if capacity_available then recovery_deadline_text db else PNone)]%string db.

Definition reopen_task (now : Z) (k : FTask) : FTask :=
  mkFTask (tk_id k) (tk_created_at k) (tk_task_text k) (tk_repo k) (tk_base_branch k) (tk_conductor_model k)
    (tk_budget_usd k) "factory" (tk_start_triggered_by k) now None.

(** The delivery goes back to execution; a request that waited starts its clock. *)
Definition reopen `{IsoFormat} (row : FactoryReceipt) (task_id actor : string) (replaying : bool) (db : FDB)
    : res FDB :=
  deadline ← (if replaying then _landing_recovery_deadline db task_id else Ok None);
  let db :=
    match replaying, deadline, last (recovery_requests db task_id) with
    | true, None, Some previous =>
        _audit actor "landing_recovery_started" (Some task_id)
          [("request_id", PInt (au_id previous)); ("deadline_at", recovery_deadline_text db)]%string db
    | _, _, _ => db
    end in
  edit_task task_id (reopen_task (f_now db)) (put_receipt (with_state "admitted" (f_now db) row) db).

Definition request_landing_recovery `{Environ, IsoFormat} (task_id : string) (pr_number head_sha : pyval)
    (source : string) (actor : pyval) (reason : string) : tx FDB RecoveryResult := λ db,
  actor ← _text actor "actor" 256;
  pr_number ← (match pr_number with
               | PInt n => if 0 <? n then Ok n else Raise (ValueError "invalid pr_number")
               | _ => Raise (ValueError "invalid pr_number")
               end);
  head_sha ← (match head_sha with
              | PStr s => if is_sha s then Ok s else Raise (ValueError "invalid head_sha")
              | _ => Raise (ValueError "invalid head_sha")
              end);
  _ ← require (str_in source ["delivered_pr"; "merge_queue"]) "invalid landing recovery source";
  _ ← require (str_in reason ["merge_conflict"; "queue_ejection"]) "invalid landing recovery reason";
  if operator_landing_target task_id then Ok (RecoveryRefused "operator_landing_ownership" false, db) else
  if review_recovery_held db task_id then Ok (RecoveryRefused "review_only_recovery" false, db) else
  match _receipt db task_id with
  | None => Ok (RecoveryRefused "unknown_task" false, db)
  | Some row =>
      if landing_held row then Ok (RecoveryRefused "receipt_landing_held" false, db) else
      replaying ← recovery_replaying db task_id;
      answer ← first_answer (recovery_checks db row task_id reason replaying);
      match answer with
      | Some result => Ok (result, db)
      | None =>
          capacity_available ← (if bool_decide (rc_state row = "admitted"%string) then Ok true
                                else execution_capacity_available db row);
          let db := if (replaying : bool) then db
                    else record_recovery task_id actor source reason head_sha pr_number capacity_available db in
          if negb (delivered row) then Ok (RecoveryAccepted replaying (rc_state row), db) else
          if negb capacity_available then Ok (RecoveryRefused "delivery_capacity" true, db) else
          db ← reopen row task_id actor replaying db;
          Ok (RecoveryAccepted replaying "admitted", db)
      end
  end.
