(* ===== verification/Operator.v ===== *)
(** * Factory controls: operator authority

    What [set_control] does under the control lock ([control_or_delegate]; the
    whole of it is [Decisions.set_control]) and the version-bound, idempotent
    [request_control] of [factory_controls.py]: the factory switch, per-repository switches, pausing,
    resuming and cancelling a task, posting a policy and the retirement of old
    policy generations that goes with it. *)

From Stdlib Require Import SpecFloat Ascii.
From stdpp Require Import prelude list strings pretty.
From S2P Require Import Prelude PyValue GraphData GraphAccounting GraphPlan WorkItems ModelPool PolicyData Policy Controls Lanes Capacity Starts Finish.
Local Open Scope Z_scope.

Definition REPO_ACTIONS : list string := ["pause_repo"; "resume_repo"; "enable_repo"; "disable_repo"].
Definition TASK_ACTIONS : list string := ["pause_task"; "resume_task"; "cancel_task"].
Definition CONTROL_ACTIONS : list string :=
  ["configure"; "restore_active_intake"; "prepare_refinement_batch"; "prepare_broad_refinement"; "enable";
   "pause_admissions"; "pause_task"; "resume_task"; "cancel_task"; "stop"] ++ REPO_ACTIONS.
Definition REQUEST_ACTIONS : list string :=
  ["enable"; "enable_auto_merge"; "disable_auto_merge"; "pause_admissions"; "pause_task"; "resume_task"; "stop";
   "cancel_receipt"; "cancel_task"].
Definition GENERATION_RECONCILIATION_LIMIT : Z := 50.
Definition GENERATION_RETIREMENT_ACTOR : string := "factory:generation-retirement".
Definition is_act (action name : string) : bool := bool_decide (action = name).

Definition _validate_cancellation_reason (value : pyval) : res string :=
  reason ← _text value "cancellation_reason" 1024;
  _ ← require (evidence_length (operator_cancelled (PStr reason)) <=? MAX_TASK_EVIDENCE_LENGTH)%nat
        "cancellation_reason produces task evidence too large";
  Ok reason.

(** ** Decisions in flight

    The option keys and request keys are the texts their writers record. *)

(** The entry of a dict with this key gets the new value, in place. *)
Fixpoint keyed_put {K V} `{EqDecision K} (k : K) (v : V) (l : list (K * V)) : list (K * V) :=
  match l with
  | [] => [(k, v)]
  | (k', v') :: l => if bool_decide (k' = k) then (k, v) :: l else (k', v') :: keyed_put k v l
  end.

Fixpoint request_records_of (rows : list FactoryAudit) (acc : list (string * string * dict))
    : res (list (string * string * dict)) :=
  match rows with
  | [] => Ok acc
  | row :: rows =>
      let detail := au_detail_json row in
      if negb (truthy (dict_get "request" detail)) then request_records_of rows acc else
      request ← as_object (dict_get "request" detail);
      key ← item "request_key" request; key ← as_text key;
      request_records_of rows (keyed_put (au_actor row, key) detail acc)
  end.
Definition _request_records (db : FDB) : res (list (string * string * dict)) :=
  request_records_of (filter (λ a, au_action a = "decision_request"%string) (f_audits db)) [].

Definition _pending_request (db : FDB) (receipt_id : Z) (ignore : option (string * string)) : res bool :=
  records ← _request_records db;
  res_any (λ r : string * string * dict,
    if bool_decide (Some r.1 = ignore) then Ok false else
    request ← as_object (dict_get "request" r.2);
    id ← item "receipt_id" request;
    if negb (py_eq id (PInt receipt_id)) then Ok false else
    result ← item "result" r.2; result ← as_object result;
    state ← item "state" result;
    Ok (pystr_in state ["accepted"; "outcome_unknown"])) records.

Fixpoint live_claims (receipt_id : Z) (rows : list FactoryAudit) (held : list string) : res (list string) :=
  match rows with
  | [] => Ok held
  | row :: rows =>
      let detail := au_detail_json row in
      if negb (py_eq (dict_get "receipt_id" detail) (PInt receipt_id)) then live_claims receipt_id rows held else
      key ← as_text (dict_get "option_key" detail);
      live_claims receipt_id rows
        (if is_action "decision_claimed" row then key :: held else filter (λ k, k ≠ key) held)
  end.
Definition CLAIM_ACTIONS : list string := ["decision_claimed"; "decision_failed"; "decision_applied"].
(** [_live_claim(db, receipt_id, "") is not None]. *)
Definition _live_claim (db : FDB) (receipt_id : Z) : res bool :=
  held ← live_claims receipt_id (filter (λ a, au_action a ∈ CLAIM_ACTIONS) (f_audits db)) [];
  Ok (existsb (λ k, negb (bool_decide (k = ""%string))) held).

Definition decision_in_flight (db : FDB) (receipt_id : Z) : res bool :=
  requested ← _pending_request db receipt_id None;
  if (requested : bool) then Ok true else _live_claim db receipt_id.

(** ** Retiring old generations *)

Definition card_open (row : FactoryReceipt) : bool :=
  match rc_escalation_json row with Some d => is_none (dict_get "resolved" d) | None => false end.
Definition retirable (row : FactoryReceipt) : bool := str_in (rc_state row) ["queued"; ESCALATED].

Definition _generation_retirement_candidates (db : FDB) (current_generation : Z) : list FactoryReceipt :=
  filter (λ r, (rc_generation r <? current_generation) && negb (str_in (rc_state r) (_ACTIVE ++ ["landing"])) &&
               (retirable r || card_open r) = true) (f_receipts db).

Definition with_retirement (state : string) (escalation : option dict) (now : Z) (row : FactoryReceipt)
    : FactoryReceipt :=
  mkReceipt (rc_id row) (rc_repo row) (rc_issue_number row) (rc_generation row) (rc_title row)
    (rc_body row) (rc_url row) (rc_actor row) (rc_task_class row) (rc_recurrence_key row)
    (rc_routing_tier row) state (rc_task_id row) (rc_policy_json row) (rc_allowance_json row)
    (rc_direction_json row) (rc_work_item_id row) (rc_task_paused row) (rc_cancellation_requested row) now
    escalation (rc_created_at row).

Definition retirement_note (generation current : Z) : string :=
  "Policy generation advanced past this receipt from " +:+ pretty generation +:+ " to " +:+ pretty current +:+
  "; the old-generation work was retired without being re-stamped or resumed under the new policy.".

Definition retired_card `{IsoFormat, Rendering} (row : FactoryReceipt) (note : string) (now : Z) (escalation : dict)
    : dict :=
  dict_set "resolved" (PDict
    [("option_key", PStr "escape:dismiss"); ("label", PStr "Dismiss the escalation");
     ("effect", PStr "escape-dismiss"); ("actor", PStr GENERATION_RETIREMENT_ACTOR); ("note", PStr note);
     ("effects", PDict [("dismissed", PBool true); ("receipt_retired", PBool (retirable row))]);
     ("decided_at", PStr (isoformat (mkDatetime now (Some 0)))); ("decision_id", _identity row escalation)]%string)
    escalation.

Definition _retire_generation_candidate `{IsoFormat, Rendering} (row : FactoryReceipt) (current_generation : Z)
    (actor : string) (db : FDB) : FDB :=
  let note := retirement_note (rc_generation row) current_generation in
  let escalation := if card_open row then retired_card row note (f_now db) <$> rc_escalation_json row
                    else rc_escalation_json row in
  let state := if retirable row then "cancelled"%string else rc_state row in
  _audit GENERATION_RETIREMENT_ACTOR "generation_stale_receipt_retired" (rc_task_id row)
    [("receipt_id", PInt (rc_id row)); ("issue_number", PInt (rc_issue_number row));
     ("receipt_generation", PInt (rc_generation row)); ("policy_generation", PInt current_generation);
     ("previous_state", PStr (rc_state row)); ("state", PStr state); ("receipt_retired", PBool (retirable row));
     ("escalation_resolved", PBool (card_open row)); ("configured_by", PStr actor); ("reason", PStr note)]%string
    (put_receipt (with_retirement state escalation (f_now db) row) db).

Record RetirementCounts := mkRetirement
  { rt_candidates : Z; rt_retired : Z; rt_cards_resolved : Z; rt_blocked : Z }.

Definition count_retired (row : FactoryReceipt) (c : RetirementCounts) : RetirementCounts :=
  mkRetirement (rt_candidates c + 1) (rt_retired c + (if retirable row then 1 else 0))
    (rt_cards_resolved c + (if card_open row then 1 else 0)) (rt_blocked c).

Fixpoint reconcile_loop `{IsoFormat, Rendering} (rows : list FactoryReceipt) (generation : Z) (actor : string)
    (limit reconciled : Z) (counts : RetirementCounts) (db : FDB) : res (RetirementCounts * FDB) :=
  match rows with
  | [] => Ok (counts, db)
  | row :: rows =>
      if limit <=? reconciled then Ok (counts, db) else
      blocked ← decision_in_flight db (rc_id row);
      if (blocked : bool)
      then reconcile_loop rows generation actor limit reconciled
             (mkRetirement (rt_candidates counts + 1) (rt_retired counts) (rt_cards_resolved counts)
                (rt_blocked counts + 1)) db
      else reconcile_loop rows generation actor limit (reconciled + 1) (count_retired row counts)
             (_retire_generation_candidate row generation actor db)
  end.

Definition reconcile_generation_stale_receipts `{IsoFormat, Rendering} (actor : string) (limit : Z)
    : tx FDB RetirementCounts := λ db,
  _ ← require ((1 <=? limit) && (limit <=? GENERATION_RECONCILIATION_LIMIT))
        "invalid generation reconciliation limit";
  let counts := mkRetirement 0 0 0 0 in
  match dict_get "generation" (ct_policy_json (f_control db)) with
  | PInt current =>
      reconcile_loop (_generation_retirement_candidates db current) current actor limit 0 counts db
  | _ => Ok (counts, db)
  end.

(** ** Narrow admission changes *)

Definition _active_admission_policy (db : FDB) : res dict :=
  let refuse (b : bool) (why : string) := require (negb b) why in
  _ ← refuse (negb (bool_decide (ct_state (f_control db) = "paused"%string))) "validation_requires_paused_admissions";
  _ ← refuse (existsb (λ r, str_in (rc_state r) ["uncertain"; "landing"]) (f_receipts db))
        "validation_other_work_present";
  _ ← refuse (existsb (λ s, bool_decide (ft_status s = "uncertain"%string)) (f_starts db))
        "validation_unresolved_execution";
  let admitted := rc_task_id <$> filter (λ r, rc_state r = "admitted"%string) (f_receipts db) in
  _ ← refuse (existsb (λ s, reserved s && negb (bool_decide (Some (ft_task_id s) ∈ admitted))) (f_starts db))
        "validation_unresolved_execution";
  policy ← validate_policy (PDict (ct_policy_json (f_control db)));
  intake ← intake_policy policy;
  repo ← item "repo" policy;
  primary ← repo_entry policy repo;
  unsafe ← (if auto_merge_enabled policy then Ok true else
            close ← item "close_enabled" intake;
            if truthy close then Ok true else
            problems ← problem_issues_policy policy; problems ← item "enabled" problems;
            if truthy problems then Ok true else
            enabled ← enabled_repos policy;
            if negb (py_eq (PList (PStr <$> enabled)) (PList [repo])) then Ok true else
            labels ← item "labels" primary;
            if negb (py_eq labels (PList [PStr "agent-ready"])) then Ok true else
            excluded ← item "exclude_labels" primary;
            human ← py_contains "needs-human" excluded; wontfix ← py_contains "wontfix" excluded;
            Ok (negb (human && wontfix)));
  _ ← refuse unsafe "backlog_active_requires_safe_posture";
  Ok policy.

(** [policy["intake"].update(...)], then validated. *)
Definition with_intake (policy : dict) (changes : dict) : res dict :=
  intake ← item "intake" policy; intake ← as_object intake;
  validate_policy (PDict (dict_set "intake" (PDict (dict_update intake changes)) policy)).

Definition active_intake_restoration_policy (db : FDB) : res dict :=
  policy ← _active_admission_policy db;
  intake ← intake_policy policy;
  refine ← item "refine_enabled" intake; batch ← item "refinement_batch" intake;
  _ ← require (negb (truthy refine || truthy batch)) "backlog_active_requires_safe_posture";
  with_intake policy [("enabled", PBool true)]%string.

Definition broad_refinement_policy (db : FDB) : res dict :=
  policy ← _active_admission_policy db;
  _ ← require (negb (existsb (λ r, bool_decide (rc_state r = "queued"%string)) (f_receipts db)))
        "broad_refinement_queued_work_present";
  with_intake policy
    [("enabled", PBool true); ("refine_enabled", PBool true); ("refine_brief_only", PBool true);
     ("refinement_batch", PList [])]%string.

Definition number_in (v : pyval) (l : pyval) : bool :=
  match l with PList l => existsb (py_eq v) l | _ => false end.

Definition refinement_batch_policy (db : FDB) (issue_numbers : pyval) : res dict :=
  numbers ← validate_refinement_batch issue_numbers false;
  before ← _active_admission_policy db;
  intake ← intake_policy before;
  previous_batch ← item "refinement_batch" intake;
  enabled ← item "enabled" intake; refine ← item "refine_enabled" intake;
  selected ← item "issue_numbers" before;
  repo ← item "repo" before;
  let batched := truthy previous_batch in
  let selected_only := negb (truthy enabled) && negb (truthy refine) && negb batched in
  let bounded_batch := truthy enabled && truthy refine && batched in
  let of_repo (r : FactoryReceipt) := py_eq (PStr (rc_repo r)) repo in
  _ ← require ((selected_only || bounded_batch) && negb (existsb (λ n, number_in (PInt n) selected) numbers))
        "refinement_batch_requires_selected_only";
  _ ← require (negb (batched && existsb (λ r, of_repo r && number_in (PInt (rc_issue_number r)) previous_batch &&
                       bool_decide (rc_task_class r = Some "refine"%string) && is_active r) (f_receipts db)))
        "refinement_batch_still_active";
  _ ← require (negb (existsb (λ r, bool_decide (rc_state r = "queued"%string)) (f_receipts db)))
        "refinement_batch_queued_work_present";
  _ ← require (negb (existsb (λ r, of_repo r && bool_decide (rc_issue_number r ∈ numbers)) (f_receipts db)))
        "refinement_batch_existing_history";
  with_intake before
    [("enabled", PBool true); ("refine_enabled", PBool true); ("refinement_batch", ints numbers)]%string.

(** ** [set_control] *)

Definition with_switch (state : string) (c : FactoryControl) : FactoryControl :=
  mkControl state (ct_policy_json c) (ct_admitted_count c) (ct_version c) (ct_updated_at c) (ct_actor c)
    (ct_stopped_at c).
Definition with_policy (policy : dict) (c : FactoryControl) : FactoryControl :=
  mkControl (ct_state c) policy (ct_admitted_count c) (ct_version c) (ct_updated_at c) (ct_actor c)
    (ct_stopped_at c).
Definition with_stop (now : Z) (c : FactoryControl) : FactoryControl :=
  mkControl "stopped" (ct_policy_json c) (ct_admitted_count c) (ct_version c) (ct_updated_at c) (ct_actor c)
    (Some (default now (ct_stopped_at c))).
Definition bumped (actor : string) (now : Z) (c : FactoryControl) : FactoryControl :=
  mkControl (ct_state c) (ct_policy_json c) (ct_admitted_count c) (ct_version c + 1) now actor (ct_stopped_at c).
Definition edit_control (f : FactoryControl → FactoryControl) (db : FDB) : FDB := put_control (f (f_control db)) db.

(** What an action leaves for the audit and the answer. *)
Record Effect := mkEffect
  { ef_reason : option string; ef_policy : pyval; ef_detail : dict; ef_release : dict }.
Definition effect (reason : option string) : Effect := mkEffect reason PNone [] [].

Definition _policy_for_generation_comparison (policy : dict) : res dict :=
  refill ← refill_normalize policy;
  let p := dict_set "backlog_refill" (PDict refill) policy in
  problems ← problem_issues_policy p;
  let p := dict_set "problem_issues" (PDict problems) p in
  let p := if has_key "task_budget_binding" p then p else dict_set "task_budget_binding" (PBool false) p in
  watchdog ← progress_watchdog_policy p;
  let p := dict_set "progress_watchdog" (PDict watchdog) p in
  intake ← intake_policy p;
  let p := dict_set "intake" (PDict intake) p in
  repos ← _stored_repos p;
  Ok (dict_set "repos" (PDict repos) p).

(** [backlog_refill.reset]. *)
Definition reset_refill (policy : dict) (db : FDB) : res FDB :=
  if negb (has_key "backlog_refill" policy) then Ok db else
  repo ← item "repo" policy;
  normal ← refill_normalize policy;
  Ok (_audit "factory:backlog-refill" "backlog_refill_policy_observed" None
        [("repo", repo); ("policy", PDict normal)]%string db).

Definition retire_all `{IsoFormat, Rendering} (rows : list FactoryReceipt) (generation : Z) (actor : string)
    (db : FDB) : FDB :=
  foldl (λ db row, _retire_generation_candidate row generation actor db) db rows.

Definition previous_generation (previous : dict) : res Z := as_int (get_or "generation" (PInt (-1)) previous).

(** A changed policy needs a newer generation while work is running. *)
Definition generation_refused (active : list FactoryReceipt) (configured previous : dict) (generation : Z)
    : res bool :=
  match active with
  | [] => Ok false
  | _ =>
      new ← _policy_for_generation_comparison configured;
      old ← _policy_for_generation_comparison previous;
      if py_eq (PDict new) (PDict old) then Ok false else
      before ← previous_generation previous; Ok (generation <=? before)
  end.

Definition configure `{IsoFormat, Rendering} (configured : dict) (actor : string) : tx FDB Effect := λ db,
  let active := active_receipts db in
  let previous := ct_policy_json (f_control db) in
  let detail := [("active_tasks_on_previous_policy"%string, PInt (Z.of_nat (length active)))] in
  generation ← item "generation" configured; generation ← as_int generation;
  refused ← generation_refused active configured previous generation;
  if (refused : bool)
  then Ok (mkEffect (Some "generation_not_advanced"%string) (PDict configured) detail [], db) else
  before ← previous_generation previous;
  let candidates := if before <? generation then _generation_retirement_candidates db generation else [] in
  blocked ← res_filter (λ r, decision_in_flight db (rc_id r)) candidates;
  match blocked with
  | _ :: _ =>
      Ok (mkEffect (Some "generation_retirement_decision_in_flight"%string) (PDict configured)
            (detail ++ [("blocked_receipt_ids"%string, ints (rc_id <$> blocked))]) [], db)
  | [] =>
      let detail := detail ++
        [("generation_receipts_retired", PInt (count_of retirable candidates));
         ("generation_escalations_resolved", PInt (count_of card_open candidates))]%string in
      db ← reset_refill configured
             (edit_control (with_policy configured) (retire_all candidates generation actor db));
      Ok (mkEffect None (PDict configured) detail [], db)
  end.

(** A narrow change of the admission policy. *)
Definition repost (policy : dict) (db : FDB) : Effect * FDB :=
  (mkEffect None (PDict policy) [] [], edit_control (with_policy policy) db).

Definition REPO_SWITCHES : list (string * (string * bool)) :=
  [("pause_repo", ("paused", true)); ("resume_repo", ("paused", false)); ("enable_repo", ("enabled", true));
   ("disable_repo", ("enabled", false))]%string.

Definition switch_repo (action : string) (repo : pyval) : tx FDB Effect := λ db,
  slug ← normalize_repo repo;
  let stored := ct_policy_json (f_control db) in
  match stored with
  | [] => Ok (effect (Some "not_configured"%string), db)
  | _ =>
      validated ← validate_policy (PDict stored);
      repos ← _stored_repos validated;
      match assoc_get slug repos with
      | None => Ok (effect (Some "unknown_repo"%string), db)
      | Some entry =>
          entry ← as_object entry;
          let '(key, value) := default ("enabled"%string, false) (assoc_get action REPO_SWITCHES) in
          let repos := dict_set slug (PDict (dict_set key (PBool value) entry)) repos in
          policy ← validate_policy (PDict (dict_set "repos" (PDict repos) validated));
          Ok (mkEffect None PNone [("repo"%string, PStr slug)] [], edit_control (with_policy policy) db)
      end
  end.

Definition cancel_task (task_id : string) (reason : pyval) : tx FDB Effect := λ db,
  let detail := [("cancellation_reason"%string, reason)] in
  let answer why := Ok (mkEffect (Some why) PNone detail [], db) in
  match _receipt db task_id with
  | None => answer "unknown_task"%string
  | Some row =>
      if bool_decide (rc_state row = "queued"%string) then answer "task_queued_use_cancel_receipt"%string else
      if negb (is_active row) then answer "task_not_active"%string else
      if rc_cancellation_requested row then answer "cancellation_pending"%string else
      Ok (mkEffect None PNone detail [], put_receipt (with_cancellation (f_now db) row) db)
  end.

Definition touch (now : Z) (row : FactoryReceipt) : FactoryReceipt := with_paused (rc_task_paused row) now row.

Definition release_answer (r : ReleaseResult) : dict :=
  match r with
  | ReleaseRefused reason => [("ok", PBool false); ("reason", PStr reason)]%string
  | ReleaseRecorded pending =>
      [("ok", PBool true); ("pending", PBool pending);
       ("reason", if pending then PStr "capacity_waiting" else PNone)]%string
  end.

Definition pause_or_resume `{Environ, IsoFormat} (task_id actor : string) (pausing : bool) : tx FDB Effect := λ db,
  match _receipt db task_id with
  | None => Ok (effect (Some "task_not_active"%string), db)
  | Some row =>
      if negb (is_active row) then Ok (effect (Some "task_not_active"%string), db) else
      if rc_cancellation_requested row then Ok (effect (Some "cancellation_pending"%string), db) else
      if pausing then
        let row := with_paused true (f_now db) row in
        Ok (effect None, revoke_capacity_release row actor "pause_task" (put_receipt row db))
      else
        '(release, db) ← request_capacity_release row actor true false db;
        Ok (mkEffect (match release with ReleaseRefused why => Some why | _ => None end) PNone []
              (release_answer release),
            put_receipt (touch (f_now db) (refreshed row db)) db)
  end.

(** Stopping asks every active task to cancel and settles the escalated ones. *)
Definition stop_receipt (now : Z) (row : FactoryReceipt) : FactoryReceipt :=
  if is_active row then with_cancellation now row else
  if bool_decide (rc_state row = ESCALATED) then with_cancellation now (with_state "cancelled" now row) else row.
Definition stop (db : FDB) : FDB :=
  set_receipts (fmap (stop_receipt (f_now db))) (edit_control (with_stop (f_now db)) db).

(** [factory_funding.rearm_progress]. *)
Definition watchdog_turns (db : FDB) (task_id : string) : Z :=
  let a := _accounting (filter (λ s, reserved s = false) (_starts db task_id)) in
  ac_turns_used a + ac_planner_turns_used a.
Definition rearm_progress (task_id actor reason : string) (db : FDB) : res FDB :=
  match latest db (Some task_id) "funding_review_settled" with
  | None => Ok db
  | Some settled =>
      if negb (truthy (dict_get "escalated" settled) || truthy (dict_get "budget_approval_required" settled))
      then Ok db else
      match _receipt db task_id with
      | None => Raise AttributeError
      | Some row =>
          policy ← effective_policy db row;
          watchdog ← progress_watchdog_policy policy;
          threshold ← item "threshold_turns" watchdog; threshold ← as_int threshold;
          Ok (_audit actor "funding_progress_rearmed" (Some task_id)
                [("settlement_id", dict_get "audit_id" settled); ("reason", PStr reason);
                 ("next_threshold_turns", PInt (watchdog_turns db task_id + threshold));
                 ("run_watermark",
                  PInt (max_key nr_id (filter (λ r, nr_task_id r = task_id) (f_runs db))))]%string db)
      end
  end.

(** The improvement review of a posted policy names an attempt that was audited. *)
Definition check_review_audit (db : FDB) (configured : dict) : res unit :=
  problems ← item "problem_issues" configured; problems ← as_object problems;
  review ← item "improvement_review" problems; review ← as_object review;
  id ← item "through_audit_id" review;
  if negb (truthy id) then Ok tt else
  require (match find_first (λ a, py_eq (PInt (au_id a)) id) (f_audits db) with
           | Some a => is_action "improvement_attempt" a
           | None => false
           end) "improvement_review_requires_exact_attempt_audit".

Definition apply_action `{Environ, IsoFormat, Rendering} (action actor : string) (configured : option dict)
    (task_id : option string) (reason repo numbers : pyval) : tx FDB Effect := λ db,
  let task := default ""%string task_id in
  if bool_decide (ct_state (f_control db) = "stopped"%string) && negb (is_act action "stop")
  then Ok (mkEffect (Some "stopped"%string) (ev_value configured) [] [], db) else
  if is_act action "configure" then
    match configured with Some policy => configure policy actor db | None => Raise TypeError end else
  if is_act action "restore_active_intake" then p ← active_intake_restoration_policy db; Ok (repost p db) else
  if is_act action "prepare_refinement_batch" then p ← refinement_batch_policy db numbers; Ok (repost p db) else
  if is_act action "prepare_broad_refinement" then p ← broad_refinement_policy db; Ok (repost p db) else
  if is_act action "enable" then
    Ok (match ct_policy_json (f_control db) with
        | [] => (effect (Some "not_configured"%string), db)
        | _ => (effect None, edit_control (with_switch "enabled") db)
        end) else
  if is_act action "pause_admissions" then Ok (effect None, edit_control (with_switch "paused") db) else
  if str_in action REPO_ACTIONS then switch_repo action repo db else
  if is_act action "cancel_task" then cancel_task task reason db else
  if str_in action ["pause_task"; "resume_task"] then pause_or_resume task actor (is_act action "pause_task") db else
  if is_act action "stop" then Ok (effect None, stop db) else Ok (effect None, db).

(** Resuming an escalation outside a transaction is answering it: the call goes on
    in [resume_escalated], before anything is written ([ControlDelegated]). *)
Inductive ControlResult :=
| ControlDelegated
| ControlAnswer (answer : dict).

Definition control_or_delegate `{Environ, IsoFormat, Rendering} (action : string) (actor policy : pyval)
    (task_id : option string) (cancellation_reason repo numbers : pyval) (own_session : bool)
    : tx FDB ControlResult := λ db,
  actor ← _text actor "actor" 256;
  _ ← require (str_in action CONTROL_ACTIONS) "invalid control action";
  configured ← (if is_act action "configure" then p ← validate_policy policy; Ok (Some p) else Ok None);
  _ ← require (is_act action "prepare_refinement_batch" || is_none numbers)
        "refinement_issue_numbers requires prepare_refinement_batch";
  _ ← require (is_act action "configure" || is_none policy) "policy requires configure action";
  _ ← require (eqb (str_in action TASK_ACTIONS) (is_some task_id))
        "task_id is required only for task pause/resume/cancel";
  reason ← (if is_act action "cancel_task"
            then r ← _validate_cancellation_reason cancellation_reason; Ok (PStr r)
            else _ ← require (is_none cancellation_reason) "cancellation_reason is required only for cancel_task";
                 Ok PNone);
  _ ← require (eqb (str_in action REPO_ACTIONS) (negb (is_none repo)))
        "repo is required only for per-repo pause/enable";
  let escalated := match _receipt db (default ""%string task_id) with
                   | Some row => bool_decide (rc_state row = ESCALATED)
                   | None => false
                   end in
  if is_act action "resume_task" && own_session && escalated then Ok (ControlDelegated, db) else
  _ ← (match configured with Some p => check_review_audit db p | None => Ok tt end);
  '(e, db) ← apply_action action actor configured task_id reason repo numbers db;
  let ok := negb (is_some (ef_reason e)) in
  let db := if ok then edit_control (bumped actor (f_now db)) db else db in
  let db := _audit actor action task_id
    ([("ok", PBool ok); ("reason", of_option (ef_reason e)); ("policy", ef_policy e);
      ("pending", get_or "pending" (PBool false) (ef_release e))]%string ++ ef_detail e) db in
  db ← (if is_act action "resume_task" && ok
        then rearm_progress (default ""%string task_id) actor action db else Ok db);
  Ok (ControlAnswer (dict_update
        [("ok", PBool ok); ("reason", of_option (ef_reason e)); ("state", PStr (ct_state (f_control db)));
         ("version", PInt (ct_version (f_control db)))]%string (ef_release e)), db).

(** ** [request_control] *)

Definition _cancel_queued_receipt (receipt_id : Z) (actor : string) (db : FDB) : dict * FDB :=
  match find_first (λ r, rc_id r =? receipt_id) (f_receipts db) with
  | None => ([("ok", PBool false); ("reason", PStr "unknown_receipt"); ("receipt_id", PInt receipt_id)]%string, db)
  | Some row =>
      if negb (bool_decide (rc_state row = "queued"%string))
      then ([("ok", PBool false);
             ("reason", PStr ("receipt is " +:+ rc_state row +:+ ", only queued receipts can be cancelled"));
             ("receipt_id", PInt receipt_id); ("state", PStr (rc_state row))]%string, db)
      else ([("ok", PBool true); ("state", PStr "cancelled"); ("receipt_id", PInt (rc_id row))]%string,
            _audit actor "cancel_receipt" None
              [("receipt_id", PInt (rc_id row)); ("repo", PStr (rc_repo row));
               ("issue_number", PInt (rc_issue_number row)); ("generation", PInt (rc_generation row))]%string
              (put_receipt (with_state "cancelled" (f_now db) row) db))
  end.

Definition set_auto_merge (desired : bool) (actor : string) : tx FDB dict := λ db,
  let control := f_control db in
  let policy := ct_policy_json control in
  let reason := if bool_decide (ct_state control = "stopped"%string) then Some "stopped"%string else
                if negb (truthy (dict_get "repo" policy)) then Some "not_configured"%string else None in
  let previous := auto_merge_enabled policy in
  let policy' := dict_set "auto_merge" (PBool desired) policy in
  reason ← (match reason with
            | Some why => Ok (Some why)
            | None => match repos_map policy' with
                      | Ok _ => Ok None
                      | Raise (ValueError _) => Ok (Some "incompatible_repo_landing_policy"%string)
                      | Raise e => Raise e
                      end
            end);
  let ok := negb (is_some reason) in
  let changed := ok && negb (eqb previous desired) in
  let db := if changed then edit_control (λ c, bumped actor (f_now db) (with_policy policy' c)) db else db in
  let result :=
    [("ok", PBool ok); ("reason", of_option reason); ("state", PStr (ct_state (f_control db)));
     ("version", PInt (ct_version (f_control db)));
     ("auto_merge", PBool (if ok then desired else previous)); ("changed", PBool changed)]%string in
  Ok (result, _audit actor "set_auto_merge" None
                ([("previous", PBool previous); ("requested", PBool desired)]%string ++ result) db).

(** The recorded answer to this actor's request key, if there is one. *)
Fixpoint recorded_request (request_key : string) (rows : list FactoryAudit) : res (option (pyval * pyval)) :=
  match rows with
  | [] => Ok None
  | row :: rows =>
      request ← item "request" (au_detail_json row); request ← as_object request;
      key ← item "request_key" request;
      if py_eq key (PStr request_key)
      then result ← item "result" (au_detail_json row); Ok (Some (PDict request, result))
      else recorded_request request_key rows
  end.

Definition control_requests (db : FDB) (actor : string) : list FactoryAudit :=
  filter (λ a, au_action a = "control_request"%string ∧ au_actor a = actor) (f_audits db).

(** The validated request, as it is recorded. *)
Definition check_request (action : string) (actor request_key expected_version task_id receipt_id
    cancellation_reason : pyval) : res dict :=
  _ ← require (str_in action REQUEST_ACTIONS) "unsupported requested control";
  actor ← _text actor "actor" 256;
  request_key ← _text request_key "request_key" 256;
  version ← _integer expected_version "expected_version" 0 (2 ^ 63 - 1);
  _ ← (match task_id with PNone => Ok tt | v => _ ← _text v "task_id" 256; Ok tt end);
  receipt ← (match receipt_id with
             | PNone => Ok []
             | v => n ← _integer v "receipt_id" 1 (2 ^ 63 - 1); Ok [("receipt_id"%string, PInt n)]
             end);
  _ ← require (eqb (str_in action TASK_ACTIONS) (negb (is_none task_id)))
        "task_id is required only for task pause/resume/cancel";
  reason ← (if is_act action "cancel_task"
            then r ← _validate_cancellation_reason cancellation_reason; Ok [("cancellation_reason"%string, PStr r)]
            else _ ← require (is_none cancellation_reason) "cancellation_reason is required only for cancel_task";
                 Ok []);
  _ ← (if is_act action "cancel_receipt"
       then _ ← require (is_none task_id) "task_id is not used by cancel_receipt";
            require (negb (is_none receipt_id)) "receipt_id is required for cancel_receipt"
       else require (is_none receipt_id) "receipt_id is required only for cancel_receipt");
  Ok ([("action", PStr action); ("actor", PStr actor); ("request_key", PStr request_key);
       ("expected_version", PInt version); ("task_id", task_id)]%string ++ receipt ++ reason).

Definition as_task (v : pyval) : option string := match v with PStr s => Some s | _ => None end.

(** The mutation of a request whose version is current. *)
Definition perform_request `{Environ, IsoFormat, Rendering} (action actor : string) (task_id : pyval) (receipt_id : Z)
    (cancellation_reason : pyval) : tx FDB dict := λ db,
  if is_act action "enable_auto_merge" || is_act action "disable_auto_merge"
  then set_auto_merge (is_act action "enable_auto_merge") actor db else
  if is_act action "cancel_receipt" then Ok (_cancel_queued_receipt receipt_id actor db) else
  '(result, db) ← control_or_delegate action (PStr actor) PNone (as_task task_id) cancellation_reason PNone PNone false db;
  match result with
  | ControlAnswer answer => Ok (answer, db)
  | ControlDelegated => Raise TypeError
  end.

Definition request_control `{Environ, IsoFormat, Rendering} (action : string) (actor request_key expected_version
    task_id receipt_id cancellation_reason : pyval) : tx FDB pyval := λ db,
  request ← check_request action actor request_key expected_version task_id receipt_id cancellation_reason;
  actor ← as_text actor; key ← as_text request_key; version ← as_int expected_version;
  previous ← recorded_request key (control_requests db actor);
  match previous with
  | Some (recorded, result) =>
      Ok (if py_eq recorded (PDict request) then result
          else PDict [("ok", PBool false); ("reason", PStr "conflicting_control_request")]%string, db)
  | None =>
      '(result, db) ←
        (if negb (ct_version (f_control db) =? version)
         then Ok ([("ok", PBool false); ("reason", PStr "control_version_changed");
                   ("state", PStr (ct_state (f_control db))); ("version", PInt (ct_version (f_control db)))]%string, db)
         else perform_request action actor task_id (match receipt_id with PInt n => n | _ => 0 end)
                cancellation_reason db);
      let result := PDict (dict_update result
        [("request_key", PStr key); ("task_id", task_id);
         ("acknowledged_at", PStr (isoformat (mkDatetime (f_now db) (Some 0))))]%string) in
      Ok (result, _audit actor "control_request" (as_task task_id)
                    [("request", PDict request); ("result", result)]%string db)
  end.
