(* ===== verification/Feedback.v ===== *)
(** * Factory feedback: first-pass verdicts and class routes

    [factory_feedback.py]: one quality sample per task, taken from its earliest
    completed review; the window of samples of a class; the route it implies and
    the stored route admission heals. *)

From Stdlib Require Import SpecFloat.
From stdpp Require Import prelude list strings pretty.
From S2P Require Import Prelude PyValue GraphData GraphPlan WorkItems PolicyData Policy Controls Starts Finish.
Local Open Scope Z_scope.

Definition DELIVERY_TIER : string := "delivery".
Definition ADVISORY_TIER : string := "advisory".
Definition ROUTING_TIERS : list string := [DELIVERY_TIER; ADVISORY_TIER].
Definition WINDOW_SIZE : nat := 20.
(** The binary64 nearest to 0.60. *)
Definition APPROVAL_FLOOR : spec_float := S754_finite false 5404319552844595 (-53).
Definition RECENT_REJECTION_LIMIT : nat := 5.
Definition SUMMARY_CHARS : nat := 2000.
Definition EPOCH : Z := 0.
Definition FEEDBACK_ACTOR : string := "factory:feedback".

(** ** The first review of a task *)

(** A run as the conductor passes it: a dict whose members are tested. *)
Record RunDict := mkRunDict
  { rd_node_key : pyval; rd_status : pyval; rd_id : pyval; rd_session_id : pyval; rd_capacity_denied : pyval;
    rd_outcome_json : option jtext; rd_finished_at : option Z; rd_created_at : option Z }.

(** [isinstance(v, int)], and its value. *)
Definition int_of (v : pyval) : option Z :=
  match v with PInt z => Some z | PBool b => Some (if b then 1 else 0) | _ => None end.
(** [str(v or "").startswith(prefix)]: no other value's text starts so. *)
Definition key_starts (prefix : string) (v : pyval) : bool :=
  match v with PStr s => startswith prefix s | _ => false end.

Definition REVIEW_OUTCOMES : list string := ["succeeded"; "failed"; "escalated"; "cancelled"].
Definition completed_review (run : RunDict) : bool :=
  key_starts "review_" (rd_node_key run) && pystr_in (rd_status run) REVIEW_OUTCOMES &&
  is_some (int_of (rd_session_id run)) && negb (truthy (rd_capacity_denied run)).

(** The first of the least, as [min(key=...)]; the last argument is the best so far. *)
Fixpoint least_by {A} (key : A → Z) (l : list A) (best : A) : A :=
  match l with
  | [] => best
  | x :: l => least_by key l (if key x <? key best then x else best)
  end.
Fixpoint greatest_by {A} (key : A → Z) (l : list A) (best : A) : A :=
  match l with
  | [] => best
  | x :: l => greatest_by key l (if key best <? key x then x else best)
  end.
Definition run_id (run : RunDict) : Z := default 0 (int_of (rd_id run)).

Definition _first_review (runs : list RunDict) : option RunDict :=
  match filter (λ r, completed_review r && is_some (int_of (rd_id r)) = true) runs with
  | [] => None
  | r :: rs => Some (least_by run_id rs r)
  end.

Definition _recipe_run (runs : list RunDict) (review : RunDict) : option RunDict :=
  match filter (λ r, key_starts "conductor_" (rd_node_key r) && py_eq (rd_status r) (PStr "succeeded") &&
                     is_some (int_of (rd_id r)) && (run_id r <? run_id review) = true) runs with
  | [] => None
  | r :: rs => Some (greatest_by run_id rs r)
  end.

Definition run_artifact (run : RunDict) : dict :=
  let loaded := match rd_outcome_json run with
                | Some t => if bool_decide (jt_text t = ""%string) then Some (PDict []) else jt_loads t
                | None => Some (PDict [])
                end in
  match loaded with
  | Some (PDict outcome) =>
      let value := if truthy (dict_get "value" outcome) then dict_get "value" outcome
                   else dict_get "artifact" outcome in
      match value with PDict d => d | _ => [] end
  | _ => []
  end.

Definition _classified_verdict `{Rendering} (run : RunDict) : string * string * option string :=
  let artifact := run_artifact run in
  let verdict :=
    if py_eq (rd_status run) (PStr "succeeded") then
      match dict_get "verdict" artifact with
      | PStr v => if str_in v ["approve"; "changes_requested"] then v else "unparseable"%string
      | _ => "unparseable"%string
      end
    else "blocked"%string in
  let summary := dict_get "summary" artifact in
  (verdict, take_str SUMMARY_CHARS (if truthy summary then py_format summary else ""%string),
   match dict_get "head_sha" artifact with PStr s => Some s | _ => None end).

(** ** One sample per task *)

Definition verdict_of (db : FDB) (task_id : string) : option FactoryReviewVerdict :=
  find_first (λ v, bool_decide (vd_task_id v = task_id)) (f_verdicts db).

(** A second task's sample of one run breaks a unique constraint. *)
Definition record_first_pass `{Rendering} (task_id : string) (runs : list RunDict)
    : tx FDB (option FactoryReviewVerdict) := λ db,
  if negb (existsb completed_review runs) then Ok (None, db) else
  match verdict_of db task_id with
  | Some existing => Ok (Some existing, db)
  | None =>
      match _receipt db task_id with
      | None => Ok (None, db)
      | Some receipt =>
          let task_class := receipt_task_class receipt in
          if is_advisory task_class then Ok (None, db) else
          match _first_review runs with
          | None => Ok (None, db)
          | Some review =>
              if existsb (λ v, vd_review_run_id v =? run_id review) (f_verdicts db)
              then Raise (RuntimeError "IntegrityError") else
              let recipe := run_id <$> _recipe_run runs review in
              let '(verdict, summary, head) := _classified_verdict review in
              let reviewed_at := match rd_finished_at review with
                                 | Some t => t
                                 | None => default (f_now db) (rd_created_at review)
                                 end in
              let row := mkVerdict (next_id vd_id (f_verdicts db)) task_id (run_id review) recipe task_class DELIVERY_TIER
                           verdict summary head reviewed_at in
              Ok (Some row,
                  _audit FEEDBACK_ACTOR "first_pass_verdict_recorded" (Some task_id)
                    [("verdict_id", PInt (vd_id row)); ("review_run_id", PInt (run_id review));
                     ("recipe_run_id", match recipe with Some i => PInt i | None => PNone end);
                     ("task_class", PStr task_class); ("sample_kind", PStr DELIVERY_TIER);
                     ("verdict", PStr verdict)]%string
                    (set_verdicts (λ l, l ++ [row]) db))
          end
      end
  end.

(** ** The window of a class *)

Definition _tier (db : FDB) (task_class : string) : option FactoryClassTier :=
  find_first (λ t, bool_decide (ti_task_class t = task_class)) (f_tiers db).

(** Newest first, the higher key first among equals. *)
Definition newer (a b : FactoryReviewVerdict) : bool :=
  match vd_reviewed_at b ?= vd_reviewed_at a with
  | Lt => true
  | Eq => vd_id b <=? vd_id a
  | Gt => false
  end.
Definition _window (db : FDB) (task_class sample_kind : string) (since : option Z) : list FactoryReviewVerdict :=
  take WINDOW_SIZE (py_sorted newer (filter (λ v,
    vd_task_class v = task_class ∧ vd_sample_kind v = sample_kind ∧
    match since with Some s => s <=? vd_reviewed_at v | None => true end = true) (f_verdicts db))).

Definition count_verdict (verdict : string) (verdicts : list string) : Z :=
  Z.of_nat (length (filter (λ v, v = verdict) verdicts)).
(** [a / b if b else None]. *)
Definition rate (a b : Z) : option spec_float :=
  if b =? 0 then None else Some (SFdiv prec64 emax64 (f_of_Z a) (f_of_Z b)).

Record Scorecard := mkScorecard
  { sc_approval_count : Z; sc_changes_requested_count : Z; sc_blocked_count : Z; sc_unknown_count : Z;
    sc_operational_denominator : Z; sc_quality_denominator : Z;
    sc_operational_approval_rate : option spec_float; sc_quality_approval_rate : option spec_float }.
Definition review_scorecard (verdicts : list string) : Scorecard :=
  let approvals := count_verdict "approve" verdicts in
  let changes := count_verdict "changes_requested" verdicts in
  let blocked := count_verdict "blocked" verdicts in
  let total := Z.of_nat (length verdicts) in
  let valid := approvals + changes in
  mkScorecard approvals changes blocked (total - valid - blocked) total valid (rate approvals total)
    (rate approvals valid).

Record RateView := mkRateView
  { ra_sample_count : Z; ra_approval_count : Z; ra_rejection_count : Z; ra_approval_rate : option spec_float;
    ra_rejection_rate : option spec_float }.
Definition _rate_view (rows : list FactoryReviewVerdict) : RateView :=
  let approvals := count_verdict "approve" (vd_verdict <$> rows) in
  let count := Z.of_nat (length rows) in
  mkRateView count approvals (count - approvals) (rate approvals count) (rate (count - approvals) count).

(** ** The route *)

Record Feedback := mkFeedback
  { fb_task_class : string; fb_tier : string; fb_previous_tier : string; fb_decision : string;
    fb_sample_kind : string; fb_window : RateView; fb_scorecard : Scorecard;
    fb_recent_rejections : list FactoryReviewVerdict; fb_delivery_window : RateView;
    fb_recovery_window : RateView; fb_delivery_rejections : list FactoryReviewVerdict }.

Definition rejections (rows : list FactoryReviewVerdict) : list FactoryReviewVerdict :=
  take RECENT_REJECTION_LIMIT (filter (λ v, vd_verdict v ≠ "approve"%string) rows).

Definition empty_feedback (task_class : string) : Feedback :=
  let tier := if is_advisory task_class then ADVISORY_TIER else DELIVERY_TIER in
  mkFeedback task_class tier tier (if is_advisory task_class then "class_floor" else "insufficient_samples") tier
    (_rate_view []) (review_scorecard []) [] (_rate_view []) (_rate_view []) [].

Definition route_decision (previous : string) (active : RateView) : string * string :=
  if bool_decide (previous = ADVISORY_TIER) then (DELIVERY_TIER, "advisory_retired"%string)
  else if ra_sample_count active <? Z.of_nat WINDOW_SIZE then (DELIVERY_TIER, "insufficient_samples"%string)
  else if match ra_approval_rate active with Some r => flt r APPROVAL_FLOOR | None => false end
  then (DELIVERY_TIER, "below_floor"%string)
  else if match ra_approval_rate active with Some r => feq r APPROVAL_FLOOR | None => false end
  then (DELIVERY_TIER, "at_floor_hold"%string)
  else (DELIVERY_TIER, "quality_holds"%string).

Definition feedback_for_class (db : FDB) (task_class : string) : Feedback :=
  if is_advisory task_class then empty_feedback task_class else
  let state := _tier db task_class in
  let previous := match state with Some t => ti_routing_tier t | None => DELIVERY_TIER end in
  let rows := _window db task_class previous (ti_transitioned_at <$> state) in
  let active := _rate_view rows in
  let delivery_rows := _window db task_class DELIVERY_TIER None in
  let advisory := bool_decide (previous = ADVISORY_TIER) in
  let '(tier, decision) := route_decision previous active in
  mkFeedback task_class tier previous decision previous active (review_scorecard (vd_verdict <$> rows))
    (rejections rows) (_rate_view delivery_rows) (_rate_view (if advisory then rows else []))
    (if advisory then rejections delivery_rows else []).

Definition route_for_class : FDB → string → Feedback := feedback_for_class.

Definition put_tier (row : FactoryClassTier) (db : FDB) : FDB :=
  set_tiers (λ l, if is_some (_tier db (ti_task_class row))
                  then (λ t, if bool_decide (ti_task_class t = ti_task_class row) then row else t) <$> l
                  else l ++ [row]) db.

Definition store_class_route (task_class : string) (feedback : Feedback) (db : FDB) : res FDB :=
  if is_advisory task_class then Ok db else
  let route := fb_tier feedback in
  if negb (str_in route ROUTING_TIERS) then Raise (ValueError "invalid factory class routing tier") else
  let now := f_now db in
  Ok (put_tier
        (match _tier db task_class with
         | None => mkTier task_class route (if bool_decide (route = ADVISORY_TIER) then now else EPOCH) now
         | Some row => if bool_decide (ti_routing_tier row = route)
                       then mkTier (ti_task_class row) (ti_routing_tier row) (ti_transitioned_at row) now
                       else mkTier (ti_task_class row) route now now
         end) db).
