(* ===== verification/FundingGrants.v ===== *)
(** * Factory funding: the grant of a refused dispatch

    The part of [factory_funding.py] that lets an operator's answer to a refused
    dispatch raise one task's budget: the recorded refusal is the authority, the
    grant is an audit of the stopped task, and the continuation of the same
    objective inherits it only when the audit still says the same.  With the
    objective ledger of [factory_funding_limits.py]. *)

From Stdlib Require Import SpecFloat.
From stdpp Require Import prelude list strings pretty.
From S2P Require Import Prelude PyValue GraphData GraphPlan WorkItems ModelPool PolicyData Policy Controls Lanes Capacity Starts Finish.
Local Open Scope Z_scope.

Definition FUNDING_ACTOR : string := "factory:funding".
Definition DISPATCH_GRANT_KIND : string := "dispatch_refusal".
Definition OBJECTIVE_CEILING_USD : spec_float := f_of_Z 200.

(** ** The objective's ledger *)

(** The receipts of one objective: the same issue, or the same work item. *)
Definition of_objective (receipt r : FactoryReceipt) : bool :=
  (bool_decide (rc_repo r = rc_repo receipt) && (rc_issue_number r =? rc_issue_number receipt)) ||
  match rc_work_item_id receipt with
  | Some i => bool_decide (rc_work_item_id r = Some i)
  | None => false
  end.

(** The task ids the admission audits add to a set of receipts. *)
Fixpoint admitted_ids (receipt_ids : list Z) (audits : list FactoryAudit) : res (list string) :=
  match audits with
  | [] => Ok []
  | a :: audits =>
      named ← (match dict_get "receipt_id" (au_detail_json a) with
               | PList _ | PDict _ => Raise TypeError
               | v => Ok (existsb (λ id, py_eq v (PInt id)) receipt_ids)
               end);
      if (named : bool) then
        match au_task_id a with
        | Some t => if bool_decide (t = ""%string) then Raise (ValueError "funding history missing task identity")
                    else ids ← admitted_ids receipt_ids audits; Ok (t :: ids)
        | None => Raise (ValueError "funding history missing task identity")
        end
      else admitted_ids receipt_ids audits
  end.

Definition named_task (r : FactoryReceipt) : option string :=
  match rc_task_id r with Some t => if bool_decide (t = ""%string) then None else Some t | None => None end.

Definition objective_task_ids (db : FDB) (receipt : FactoryReceipt) : res (list string) :=
  let receipts := filter (λ r, of_objective receipt r = true) (f_receipts db) in
  ids ← admitted_ids (rc_id <$> receipts) (filter (λ a, au_action a = "admit_next"%string) (f_audits db));
  Ok (py_sorted String.leb (remove_dups (omap named_task receipts ++ ids))).

Definition objective_for_receipt (db : FDB) (receipt : FactoryReceipt) : res dict :=
  ids ← objective_task_ids db receipt;
  let budget := _accounting (filter (λ s, ft_task_id s ∈ ids) (f_starts db)) in
  Ok [("repo", PStr (rc_repo receipt)); ("issue_number", PInt (rc_issue_number receipt));
      ("task_ids", PList (PStr <$> ids)); ("committed_cost_usd", PFloat (ac_committed_cost_usd budget));
      ("ceiling_usd", PFloat OBJECTIVE_CEILING_USD)]%string.

Definition objective (db : FDB) (task_id : string) : res dict :=
  match _receipt db task_id with
  | Some receipt => objective_for_receipt db receipt
  | None => Raise (ValueError "unknown funding objective")
  end.

(** ** The authority of a refusal *)

(** [float(value)] of a finite number that passes a test. *)
Definition checked_float (value : pyval) (ok : spec_float → bool) (message : string) : res spec_float :=
  if negb (is_number value) then Raise (ValueError message) else
  f ← to_float value;
  if f_is_finite f && ok f then Ok f else Raise (ValueError message).

Definition _dispatch_target (option_ : dict) : res (option spec_float) :=
  if negb (py_eq (dict_get "key" option_) (PStr "raise_envelope") &&
           py_eq (dict_get "effect" option_) (PStr "agent-ready")) then Ok None else
  target ← obj_get "target" (or_empty (dict_get "detail" option_));
  match target with
  | PDict target =>
      if negb (py_eq (dict_get "limit" target) (PStr "task_budget")) then Ok None else
      v ← checked_float (dict_get "value" target) (flt fzero) "dispatch refusal has an invalid task budget target";
      Ok (Some v)
  | _ => Ok None
  end.

Definition REFUSAL_KEYS : list string := ["limit"; "used"; "requested"; "allowed"; "allowance"].

Record Authority := mkAuthority
  { da_used : spec_float; da_requested : spec_float; da_allowed : spec_float; da_allowance : spec_float;
    da_target : spec_float }.
Definition authority_json (a : Authority) : dict :=
  [("limit", PStr "task_budget"); ("used", PFloat (da_used a)); ("requested", PFloat (da_requested a));
   ("allowed", PFloat (da_allowed a)); ("allowance", PFloat (da_allowance a)); ("target", PFloat (da_target a))]%string.

Definition _dispatch_authority (escalation option_ : dict) : res (option Authority) :=
  target ← _dispatch_target option_;
  match target with
  | None => Ok None
  | Some target =>
      match dict_get "dispatch_refusal" escalation with
      | PDict refusal =>
          if negb (keys_within refusal REFUSAL_KEYS && forallb (λ k, has_key k refusal) REFUSAL_KEYS)
          then Raise (ValueError "dispatch refusal funding authority is missing") else
          if negb (py_eq (dict_get "limit" refusal) (PStr "task_budget"))
          then Raise (ValueError "dispatch refusal funding authority changed limit") else
          let bad := "dispatch refusal funding authority is invalid"%string in
          let read name := checked_float (dict_get name refusal) (fle fzero) bad in
          used ← read "used"%string; requested ← read "requested"%string;
          allowed ← read "allowed"%string; allowance ← read "allowance"%string;
          if fle requested fzero || fle allowed fzero then Raise (ValueError bad) else
          if negb (feq target (fadd used requested))
          then Raise (ValueError "dispatch refusal funding target changed") else
          if fle target allowed
          then Raise (ValueError "dispatch refusal target does not exceed its ceiling") else
          Ok (Some (mkAuthority used requested allowed allowance target))
      | _ => Raise (ValueError "dispatch refusal funding authority is missing")
      end
  end.

(** [target <= v] of a budget. *)
Definition within (target : spec_float) (v : pyval) : res bool :=
  match xnum_of v with Some x => Ok (xle (xnum_of_float target) x) | None => Raise TypeError end.

Definition _grant_deadline (task : FTask) (policy : dict) : res Z :=
  timeout ← item "task_timeout_seconds" policy; timeout ← as_int timeout;
  Ok (tk_created_at task + timeout * 1000000).

(** ** The grant *)

Record Validated := mkValidated
  { va_authority : Authority; va_policy : dict; va_task : FTask; va_total : dict }.

Definition validate_dispatch_refusal (db : FDB) (row : FactoryReceipt) (escalation option_ : dict)
    : res (option Validated) :=
  authority ← _dispatch_authority escalation option_;
  match authority with
  | None => Ok None
  | Some authority =>
      match named_task row with
      | Some t =>
          if negb (py_eq (dict_get "kind" escalation) (PStr "delivery") &&
                   py_eq (dict_get "task_id" escalation) (PStr t))
          then Raise (ValueError "dispatch refusal funding authority is not bound to the task") else
          match find_task db t with
          | None => Raise (ValueError "Unknown swarm task")
          | Some task =>
              policy ← effective_policy db row;
              budget ← item "task_budget_usd" policy;
              current ← to_float budget;
              if negb (feq (da_allowed authority) current)
              then Raise (ValueError "dispatch refusal ceiling changed since the card was issued") else
              low ← within (da_target authority) budget;
              if (low : bool) then Raise (ValueError "dispatch refusal target does not raise the task budget") else
              total ← objective_for_receipt db row;
              Ok (Some (mkValidated authority policy task total))
          end
      | None => Raise (ValueError "dispatch refusal funding authority is not bound to the task")
      end
  end.

Definition overlay_of (target : spec_float) : dict := [("task_budget_usd"%string, PFloat target)].

Definition deadline_text `{IsoFormat} (deadline : Z) : pyval := PStr (isoformat (mkDatetime deadline (Some 0))).

Definition grant_dispatch_refusal `{IsoFormat} (row : FactoryReceipt) (escalation option_ : dict)
    : tx FDB (option dict) := λ db,
  validated ← validate_dispatch_refusal db row escalation option_;
  match validated with
  | None => Ok (None, db)
  | Some v =>
      deadline ← _grant_deadline (va_task v) (va_policy v);
      let overlay := overlay_of (da_target (va_authority v)) in
      let db := _audit FUNDING_ACTOR "funding_granted" (rc_task_id row)
        [("grant_kind", PStr DISPATCH_GRANT_KIND); ("source_receipt_id", PInt (rc_id row));
         ("dispatch_refusal", PDict (authority_json (va_authority v))); ("policy_overlay", PDict overlay);
         ("reason", PStr "An operator authorized the dispatch-refusal envelope target.");
         ("next_plan", PStr "Continue the same issue and delivery branch under the authorized task budget.");
         ("deadline_at", deadline_text deadline); ("review_due_at", deadline_text deadline);
         ("objective", PDict (va_total v))]%string db in
      match amendment db (rc_task_id row) with
      | Some grant =>
          id ← item "audit_id" grant;
          Ok (Some [("source_task_id", of_option (rc_task_id row)); ("source_audit_id", id);
                    ("policy_overlay", PDict overlay)]%string, db)
      | None => Raise TypeError
      end
  end.

(** ** The continuation *)

Definition GRANT_KEYS : list string := ["source_task_id"; "source_audit_id"; "policy_overlay"].

Definition continued_option (direction : dict) : dict :=
  [("key", dict_get "option_key" direction); ("effect", dict_get "effect" direction);
   ("detail", or_empty (dict_get "detail" direction))]%string.

(** The recorded grant a continuation names says exactly what it carries. *)
Definition source_matches (source : FactoryAudit) (source_task_id : string) (row : FactoryReceipt)
    (authority : Authority) (overlay : pyval) : bool :=
  let detail := au_detail_json source in
  bool_decide (au_task_id source = Some source_task_id) &&
  bool_decide (au_action source = "funding_granted"%string) &&
  py_eq (dict_get "grant_kind" detail) (PStr DISPATCH_GRANT_KIND) &&
  py_eq (dict_get "source_receipt_id" detail) (PInt (rc_id row)) &&
  py_eq (dict_get "dispatch_refusal" detail) (PDict (authority_json authority)) &&
  py_eq (dict_get "policy_overlay" detail) overlay.

Definition dispatch_continuation_grant (db : FDB) (row : FactoryReceipt) (policy : dict) : res (option dict) :=
  let direction := direction_of row in
  let carried := dict_get "funding_overlay" direction in
  authority ← _dispatch_authority (default [] (rc_escalation_json row)) (continued_option direction);
  match authority with
  | None => if is_none carried then Ok None
            else Raise (ValueError "non-dollar continuation carries a funding overlay")
  | Some authority =>
      match carried with
      | PDict grant =>
          if negb (keys_within grant GRANT_KEYS && forallb (λ k, has_key k grant) GRANT_KEYS)
          then Raise (ValueError "dispatch continuation is missing its funding grant") else
          let overlay := dict_get "policy_overlay" grant in
          if negb (py_eq overlay (PDict (overlay_of (da_target authority))))
          then Raise (ValueError "dispatch continuation funding target changed") else
          match dict_get "source_task_id" grant, dict_get "source_audit_id" grant with
          | PStr source_task_id, PInt source_audit_id =>
              previous ← py_contains source_task_id (get_or "previous_task_ids" (PList []) direction);
              if negb previous then Raise (ValueError "dispatch continuation funding source changed") else
              match find_first (λ a, au_id a =? source_audit_id) (f_audits db) with
              | Some source =>
                  if negb (source_matches source source_task_id row authority overlay)
                  then Raise (ValueError "dispatch continuation funding source is invalid") else
                  budget ← item "task_budget_usd" policy;
                  low ← within (da_target authority) budget;
                  if (low : bool)
                  then Raise (ValueError "dispatch continuation target does not raise the task budget") else
                  total ← objective_for_receipt db row;
                  Ok (Some (dict_set "objective" (PDict total) grant))
              | None => Raise (ValueError "dispatch continuation funding source is invalid")
              end
          | _, _ => Raise (ValueError "dispatch continuation funding source changed")
          end
      | _ => Raise (ValueError "dispatch continuation is missing its funding grant")
      end
  end.

Definition inherit_dispatch_grant `{IsoFormat} (row : FactoryReceipt) (task : FTask) (carried policy : dict) (db : FDB)
    : res FDB :=
  overlay ← item "policy_overlay" carried; o ← as_object overlay;
  deadline ← _grant_deadline task (dict_update policy o);
  source ← item "source_task_id" carried; audit ← item "source_audit_id" carried;
  objective ← item "objective" carried;
  Ok (_audit FUNDING_ACTOR "funding_granted" (Some (tk_id task))
        [("grant_kind", PStr DISPATCH_GRANT_KIND); ("inherited_from_task_id", source);
         ("inherited_from_audit_id", audit); ("source_receipt_id", PInt (rc_id row)); ("policy_overlay", overlay);
         ("reason", PStr "The admitted continuation inherited its authorized dispatch-refusal target.");
         ("next_plan", PStr "Continue the same issue and delivery branch under the authorized task budget.");
         ("deadline_at", deadline_text deadline); ("review_due_at", deadline_text deadline);
         ("objective", objective)]%string db).
