(* ===== verification/Intake.v ===== *)
(** * Factory intake: receiving issues and admitting tasks

    [receive_issue] and [admit_next] of [factory_intake.py] with the order of the
    admission queue, the blockers of a work item, history that protects an issue
    and the branch a delivery owns.  One call holds the control row's lock. *)

From Stdlib Require Import SpecFloat Ascii.
From stdpp Require Import prelude list strings pretty.
From S2P Require Import Prelude PyValue GraphData GraphAccounting GraphPlan WorkItems ModelPool PolicyData Policy Controls Lanes Capacity Starts Finish Operator Feedback FundingGrants.
Local Open Scope Z_scope.

Definition ADMISSION_CANDIDATE_SCAN_LIMIT : nat := 100.
Definition IDLE_AUDIT_SECONDS : Z := 3600.

(** What admission takes from outside the repository: the ORM's dump of a row and
    the minting of random task ids. *)
Class IntakeHooks := {
  model_dump : FactoryReceipt → dict;
  mint_task_id : FDB → string;
}.

(** ** History of a piece of work *)

Definition issue_items (db : FDB) (repo : string) (issue_number : Z) : list WorkItem :=
  filter (λ i, wi_github_repo i = Some repo ∧ wi_github_issue_number i = Some issue_number) (f_items db).

(** Newest first. *)
Definition protected_work_history (db : FDB) (repo : string) (issue_number : Z) (work_item_id : option Z)
    : list FactoryReceipt :=
  let mapped := wi_id <$> issue_items db repo issue_number in
  reverse (filter (λ r,
    (bool_decide (rc_repo r = repo) && (rc_issue_number r =? issue_number)) ||
    match rc_work_item_id r with
    | Some i => bool_decide (i ∈ mapped) || bool_decide (work_item_id = Some i)
    | None => false
    end = true) (f_receipts db)).

Definition operator_readmission_queued (db : FDB) (receipt_id : Z) : bool :=
  match find_last (λ a, str_in (au_action a) ["operator_readmission_queued"; "admit_next"] &&
                        py_eq (dict_get "receipt_id" (au_detail_json a)) (PInt receipt_id)) (f_audits db) with
  | Some event => is_action "operator_readmission_queued" event
  | None => false
  end.

Definition automatic_actor (actor : string) : bool := str_in actor [INTAKE_ACTOR; "factory:reconciler"].

Definition automatic_history_exclusion `{Environ} (db : FDB) (repo : string) (issue_number : Z) (actor : string)
    (generation : Z) (work_item_id : option Z) : option string :=
  if negb (automatic_actor actor) then None else
  let history := protected_work_history db repo issue_number work_item_id in
  natural_history_exclusion
    (if bool_decide (actor = "factory:reconciler"%string)
     then filter (λ r, generation ≤ rc_generation r) history else history).

(** ** Delivery branches *)

Fixpoint branch_owner_in (rows : list FactoryReceipt) (branch : string) (exclude : option Z) : res (option string) :=
  match rows with
  | [] => Ok None
  | row :: rows =>
      match rc_task_id row with
      | Some t =>
          if bool_decide (Some (rc_id row) = exclude) || bool_decide (t = ""%string)
          then branch_owner_in rows branch exclude else
          '(granted, _) ← granted_delivery_surface (PDict (direction_of row));
          let owned := str_or granted ("factory/" +:+ t) in
          if bool_decide (owned = branch) || startswith ("factory/" +:+ t +:+ "-") branch
          then Ok (Some t) else branch_owner_in rows branch exclude
      | None => branch_owner_in rows branch exclude
      end
  end.

Definition OWNING_STATES : list string := _ACTIVE ++ ["landing"].

Definition delivery_branch_owner (db : FDB) (repo branch : string) (exclude : option Z) : res (option string) :=
  _ ← validate_pr_branch (PStr branch);
  branch_owner_in (filter (λ r, rc_repo r = repo ∧ rc_state r ∈ OWNING_STATES) (f_receipts db)) branch exclude.

(** ** Receiving an issue *)

Definition DELIVERY_TARGET_KEYS : list string := ["delivery_branch"; "delivery_pr_number"; "delivery_adoption"].

(** The branch of a validated delivery target. *)
Definition check_delivery_target (target : pyval) : res (option string) :=
  let bad := Raise (ValueError "invalid delivery target") in
  match target with
  | PNone => Ok None
  | PDict d =>
      if negb (keys_within d DELIVERY_TARGET_KEYS && forallb (λ k, has_key k d) DELIVERY_TARGET_KEYS) then bad else
      '(branch, number) ← granted_delivery_surface target;
      match branch, number with
      | Some branch, Some _ =>
          if truthy (dict_get "delivery_adoption" d) && startswith "factory/" branch then Ok (Some branch) else bad
      | _, _ => bad
      end
  | _ => bad
  end.

Definition issue_url (repo : string) (issue_number : Z) : string :=
  "https://github.com/" +:+ repo +:+ "/issues/" +:+ pretty issue_number.

Definition received_before (repo : string) (issue_number generation : Z) (task_class : string) (r : FactoryReceipt)
    : bool :=
  bool_decide (rc_repo r = repo) && (rc_issue_number r =? issue_number) && (rc_generation r =? generation) &&
  bool_decide (rc_task_class r = Some task_class) && bool_decide (rc_recurrence_key r = ""%string).

(** The tables the work items read and write, as their own view and back. *)
Definition work_receipt (r : FactoryReceipt) : WorkItems.FactoryReceipt :=
  WorkItems.mkReceipt (rc_id r) (rc_repo r) (rc_issue_number r) (rc_work_item_id r).
Definition work_view (db : FDB) : WDB :=
  mkWDB (f_items db) (f_edges db) (f_events db) (f_issues db) (work_receipt <$> f_receipts db) (f_now db).
Definition with_work_item (work_item_id : option Z) (row : FactoryReceipt) : FactoryReceipt :=
  mkReceipt (rc_id row) (rc_repo row) (rc_issue_number row) (rc_generation row) (rc_title row)
    (rc_body row) (rc_url row) (rc_actor row) (rc_task_class row) (rc_recurrence_key row)
    (rc_routing_tier row) (rc_state row) (rc_task_id row) (rc_policy_json row) (rc_allowance_json row)
    (rc_direction_json row) work_item_id (rc_task_paused row) (rc_cancellation_requested row)
    (rc_updated_at row) (rc_escalation_json row) (rc_created_at row).
Definition adopted (w : WDB) (r : FactoryReceipt) : FactoryReceipt :=
  match find_first (λ x, fr_id x =? rc_id r) (w_receipts w) with
  | Some x => with_work_item (fr_work_item_id x) r
  | None => r
  end.
Definition set_work (w : WDB) (db : FDB) : FDB :=
  mkFDB (f_control db) (adopted w <$> f_receipts db) (f_starts db) (f_audits db) (f_tasks db) (w_items w) (w_edges w)
    (f_versions db) (f_runs db) (w_events w) (w_issues w) (f_verdicts db) (f_tiers db) (f_now db).

(** Minting inside a savepoint: a failure costs nothing but the link. *)
Definition mint_item `{IsoFormat, Rivals} (repo : string) (issue : dict) (actor : string) (db : FDB)
    : option Z * FDB :=
  match mint_or_sync_from_github repo issue (mkSync actor [] false None false) (work_view db) with
  | Ok ((i, _), w) => (wi_id <$> i, set_work w db)
  | Raise _ => (None, db)
  end.

(** The work item a new receipt links to; at most one item has the issue. *)
Definition link_item `{IsoFormat, Rivals} (repo : string) (issue_number : Z) (actor : string) (issue : option dict)
    (work_item_id : option Z) (db : FDB) : res (option Z * FDB) :=
  found ← (match work_item_id with
           | Some id => Ok (find_first (λ i, wi_id i =? id) (f_items db))
           | None => match issue_items db repo issue_number with
                     | [] => Ok None
                     | [i] => Ok (Some i)
                     | _ => Raise (RuntimeError "MultipleResultsFound")
                     end
           end);
  Ok (match found, issue with
      | Some i, _ => (Some (wi_id i), db)
      | None, Some issue => mint_item repo issue actor db
      | None, None => (None, db)
      end).

Definition new_receipt (db : FDB) (repo title body url actor task_class : string) (issue_number generation : Z)
    (work_item_id : option Z) (direction : option dict) : FactoryReceipt :=
  mkReceipt (next_id rc_id (f_receipts db)) repo issue_number generation title body url actor (Some task_class) ""
    None "queued" None None None direction work_item_id false false (f_now db) None (f_now db).

Inductive ReceiveResult :=
| Received (created : bool) (receipt : FactoryReceipt).

Definition receive_issue `{Environ, IsoFormat, Rivals} (repo issue_number title body url actor generation task_class : pyval)
    (issue : option dict) (work_item_id : option Z) (delivery_target : pyval) : tx FDB ReceiveResult := λ db,
  repo ← normalize_repo repo;
  issue_number ← _integer issue_number "issue_number" 1 (2 ^ 31 - 1);
  generation ← _integer generation "generation" 0 (2 ^ 31 - 1);
  actor ← _text actor "actor" 256;
  task_class ← validate_task_class task_class;
  title ← _text title "title" 512;
  body ← (match body with
          | PStr s => if (String.length s <=? Z.to_nat 65536)%nat then Ok s else Raise (ValueError "invalid body")
          | _ => Raise (ValueError "invalid body")
          end);
  url ← (match url with
         | PStr s => if bool_decide (py_lower s = issue_url repo issue_number) then Ok s
                     else Raise (ValueError "url must identify the received GitHub issue")
         | _ => Raise (ValueError "url must identify the received GitHub issue")
         end);
  branch ← check_delivery_target delivery_target;
  match find_first (received_before repo issue_number generation task_class) (f_receipts db) with
  | Some existing => Ok (Received false existing, db)
  | None =>
      match automatic_history_exclusion db repo issue_number actor generation work_item_id with
      | Some protected => Raise (ValueError ("natural_intake_" +:+ protected))
      | None =>
          owner ← (match branch with Some b => delivery_branch_owner db repo b None | None => Ok None end);
          match owner with
          | Some owner => Raise (ValueError "delivery branch is owned by running task")
          | None =>
              '(item, db) ← link_item repo issue_number actor issue work_item_id db;
              let direction := match delivery_target with PDict d => Some d | _ => None end in
              let row := new_receipt db repo title body url actor task_class issue_number generation item direction in
              Ok (Received true row,
                  _audit actor "receive_issue" None
                    [("receipt_id", PInt (rc_id row)); ("repo", PStr repo); ("issue_number", PInt issue_number);
                     ("generation", PInt generation); ("task_class", PStr task_class);
                     ("delivery_pr_number",
                      match direction with Some d => dict_get "delivery_pr_number" d | None => PNone end)]%string
                    (set_receipts (λ l, l ++ [row]) db))
          end
      end
  end.

(** ** The admission queue *)

Definition busy_receipts (db : FDB) : list FactoryReceipt :=
  filter (λ r, rc_state r ∈ OWNING_STATES) (f_receipts db).

(** The queued receipts that may be admitted, before blockers: eligible, in an
    enabled repository and an open lane, of the policy's generation, and not on
    work another task owns. *)
Definition base_query (db : FDB) (policy : dict) (enabled : list string) (tier_of : string → string)
    (available : list string) (r : FactoryReceipt) : res bool :=
  if negb (bool_decide (rc_state r = "queued"%string) && str_in (rc_repo r) enabled) then Ok false else
  eligible ← _eligible_clause policy r;
  if negb eligible then Ok false else
  generation ← item "generation" policy;
  let in_lane := match rc_task_class r with
                 | Some c => str_in c TASK_CLASSES && str_in (tier_of c) available
                 | None => str_in (tier_of DEFAULT_TASK_CLASS) available
                 end in
  Ok (in_lane && py_eq (PInt (rc_generation r)) generation &&
      negb (existsb (λ b, bool_decide (rc_repo b = rc_repo r) && (rc_issue_number b =? rc_issue_number r))
              (busy_receipts db)) &&
      match rc_work_item_id r with
      | None => true
      | Some i => negb (bool_decide (Some i ∈ (rc_work_item_id <$> busy_receipts db)))
      end).

(** The open work items that block an item. *)
Definition open_blockers (db : FDB) (work_item_id : Z) : list Z :=
  wi_id <$> filter (λ i, wi_state i ≠ "closed"%string ∧
                         Exists (λ e, we_from_id e = wi_id i ∧ we_to_id e = work_item_id ∧ we_kind e = "blocks"%string)
                           (f_edges db)) (f_items db).
Definition blocked (db : FDB) (r : FactoryReceipt) : bool :=
  match rc_work_item_id r with
  | Some i => negb (bool_decide (open_blockers db i = []))
  | None => false
  end.

(** [cast(labels, String) LIKE '%"word"%']: a label that is the word, or ends
    with a quote and the word. *)
Definition label_like (word : string) (labels : list string) : bool :=
  existsb (λ l, bool_decide (l = word) || endswith (String (ascii_of_nat 34) word) l) labels.

Definition receipt_item (db : FDB) (r : FactoryReceipt) : option WorkItem :=
  match rc_work_item_id r with
  | Some i => find_first (λ w, wi_id w =? i) (f_items db)
  | None => None
  end.
Definition issue_rank (db : FDB) (r : FactoryReceipt) : Z :=
  match receipt_item db r with
  | Some i => if label_like "critical" (wi_labels i) then 0 else if label_like "bug" (wi_labels i) then 1 else 2
  | None => 2
  end.
Definition natural (r : FactoryReceipt) : bool := bool_decide (rc_actor r = INTAKE_ACTOR).
Definition queue_age (db : FDB) (r : FactoryReceipt) : option Z :=
  if natural r then
    match receipt_item db r with
    | Some i => match wi_github_created_at i with
                | Some d => Some (instant d)
                | None => if bool_decide (wi_authority i = "local"%string) then Some (wi_created_at i) else None
                end
    | None => None
    end
  else Some (rc_created_at r).
Definition lane_rank (r : FactoryReceipt) : Z :=
  match rc_task_class r with Some c => if str_in c ADVISORY_CLASSES then 1 else 0 | None => 0 end.

(** The window of the queue position: autonomous work of one repository, lane
    and rank shares one, every other receipt has its own. *)
Definition window (db : FDB) (r : FactoryReceipt) : Z * string * Z * Z :=
  (if natural r then 0 else rc_id r, rc_repo r, lane_rank r, issue_rank db r).
Definition queue_position (db : FDB) (rows : list FactoryReceipt) (r : FactoryReceipt) : Z :=
  foldr Z.min (rc_created_at r)
    (rc_created_at <$> filter (λ x, window db x = window db r) rows).

(** [ORDER BY] of the queue, over the rows the query keeps.  Repositories that tie
    in position and age are compared by bytes, where the database uses its
    collation, which may order punctuation differently. *)
Definition queue_compare (db : FDB) (rows : list FactoryReceipt) (a b : FactoryReceipt) : comparison :=
  let lex (c d : comparison) := match c with Eq => d | _ => c end in
  lex (queue_position db rows a ?= queue_position db rows b)
  (lex (match queue_age db a, queue_age db b with
        | Some x, Some y => x ?= y
        | Some _, None => Lt
        | None, Some _ => Gt
        | None, None => Eq
        end)
  (lex (String.compare (rc_repo a) (rc_repo b))
  (lex (rc_issue_number a ?= rc_issue_number b) (rc_id a ?= rc_id b)))).
Definition queue_le (db : FDB) (rows : list FactoryReceipt) (a b : FactoryReceipt) : bool :=
  match queue_compare db rows a b with Gt => false | _ => true end.
Definition ordered (db : FDB) (rows : list FactoryReceipt) : list FactoryReceipt :=
  py_sorted (queue_le db rows) rows.

(** ** [_audit_throttled] *)

Definition _audit_throttled (actor action : string) (receipt_id : Z) (work_item_id : option Z)
    (blocked_by : list Z) (db : FDB) : FDB :=
  let recent := take 50 (reverse (filter (λ a, au_action a = action) (f_audits db))) in
  let last := find_first (λ a, py_eq (dict_get "receipt_id" (au_detail_json a)) (PInt receipt_id)) recent in
  if match last with
     | Some a => IDLE_AUDIT_SECONDS * 1000000 <=? f_now db - au_created_at a
     | None => true
     end
  then _audit actor action None
         (("receipt_id"%string, PInt receipt_id) ::
          match work_item_id with Some i => [("work_item_id"%string, PInt i)] | None => [] end ++
          match blocked_by with [] => [] | l => [("blocked_by"%string, ints l)] end) db
  else db.

(** ** [admit_next] *)

Inductive AdmitResult :=
| AdmitRefused (reason : string)
| TaskAdmitted (task_id : string) (receipt_id : Z) (lane : string) (policy : dict).

(** A blocked receipt at the head of the queue is reported. *)
Definition report_blocked (actor : string) (all unblocked blocked_rows : list FactoryReceipt) (db : FDB) : FDB :=
  match head (ordered db blocked_rows), head (ordered db all) with
  | Some b, Some h =>
      let differs := match head (ordered db unblocked) with Some f => negb (rc_id b =? rc_id f) | None => true end in
      if differs && (rc_id h =? rc_id b)
      then _audit_throttled actor "admission_blocked" (rc_id b) (rc_work_item_id b)
             (match rc_work_item_id b with Some i => open_blockers db i | None => [] end) db
      else db
  | _, _ => db
  end.

(** The candidate is settled as cancelled and the reason audited. *)
Definition fence (candidate : FactoryReceipt) (actor action : string) (why : dict) (db : FDB) : FDB :=
  _audit actor action None
    ([("receipt_id", PInt (rc_id candidate)); ("issue_number", PInt (rc_issue_number candidate))]%string ++ why)
    (_cancel_queued_receipt (rc_id candidate) actor db).2.

(** Why a queued candidate is fenced off instead of admitted. *)
Definition fenced `{Environ} (db : FDB) (candidate : FactoryReceipt) : option (string * dict) :=
  let protected :=
    if automatic_actor (rc_actor candidate) && negb (operator_readmission_queued db (rc_id candidate))
    then automatic_history_exclusion db (rc_repo candidate) (rc_issue_number candidate) (rc_actor candidate)
           (rc_generation candidate) (rc_work_item_id candidate)
    else None in
  match protected with
  | Some reason => Some ("natural_intake_history_fenced", [("reason", PStr reason)])%string
  | None => if human_owned db candidate then Some ("human_handoff", [("label", PStr "human")])%string else None
  end.

(** The first candidate whose lane and repository have room, and the fences
    written on the way. *)
Fixpoint pick_candidate `{Environ} (candidates : list FactoryReceipt) (actor : string) (policy : dict)
    (tier_of : string → string) (available : list string) (occupying : list FactoryReceipt) (db : FDB)
    : res (option FactoryReceipt * FDB) :=
  match candidates with
  | [] => Ok (None, db)
  | c :: candidates =>
      match fenced db c with
      | Some (action, why) =>
          pick_candidate candidates actor policy tier_of available occupying (fence c actor action why db)
      | None =>
          let tier := tier_of (receipt_task_class c) in
          if negb (str_in tier available)
          then pick_candidate candidates actor policy tier_of available occupying db else
          limits ← repo_lane_limits policy (rc_repo c);
          if lane_get tier limits <=?
             count_of (λ o, bool_decide (rc_repo o = rc_repo c) && in_lane tier o) occupying
          then pick_candidate candidates actor policy tier_of available occupying db
          else Ok (Some c, db)
      end
  end.

(** [d.setdefault(key, v)]. *)
Definition set_default (key : string) (v : pyval) (d : dict) : dict :=
  if has_key key d then d else dict_set key v d.

(** ** Refined deliveries *)

Definition REFINEMENT_ACTION : string := "refinement_delivery_prepared".
Definition REFINEMENT_MARKER : string := "refinement_delivery".

Definition _records (db : FDB) : list dict :=
  au_detail_json <$> filter (λ a, au_action a = REFINEMENT_ACTION) (f_audits db).

(** [getattr(row, key)] of the columns a record names. *)
Definition row_attr (row : FactoryReceipt) (key : string) : res pyval :=
  if bool_decide (key = "repo"%string) then Ok (PStr (rc_repo row)) else
  if bool_decide (key = "issue_number"%string) then Ok (PInt (rc_issue_number row)) else
  if bool_decide (key = "generation"%string) then Ok (PInt (rc_generation row)) else
  if bool_decide (key = "task_class"%string) then Ok (of_option (rc_task_class row)) else
  if bool_decide (key = "work_item_id"%string)
  then Ok (match rc_work_item_id row with Some i => PInt i | None => PNone end)
  else Raise AttributeError.

Fixpoint identity_changed (row : FactoryReceipt) (identity : dict) : res bool :=
  match identity with
  | [] => Ok false
  | (key, value) :: identity =>
      v ← row_attr row key; if negb (py_eq v value) then Ok true else identity_changed row identity
  end.

Definition made_for (row : FactoryReceipt) (detail : dict) : res bool :=
  result ← item "result" detail; result ← as_object result; id ← item "receipt_id" result;
  Ok (py_eq id (PInt (rc_id row))).

(** Whether a prepared delivery is still what was prepared. *)
Definition evidence_changed `{IntakeHooks} (db : FDB) (row : FactoryReceipt) (policy detail : dict) : res bool :=
  source ← item "source_receipt" detail; recorded ← as_object source; id ← item "id" recorded;
  match find_first (λ r, py_eq (PInt (rc_id r)) id) (f_receipts db) with
  | None => Ok true
  | Some r =>
      if negb (py_eq (PDict (model_dump r)) source) then Ok true else
      inherited ← item "inherited_direction" detail;
      if negb (py_eq (PDict (direction_of row)) inherited) then Ok true else
      identity ← item "destination_identity" detail; identity ← as_object identity;
      changed ← identity_changed row identity;
      if (changed : bool) then Ok true else
      validated ← validate_policy (PDict policy); after ← item "policy_after" detail;
      Ok (negb (py_eq (PDict validated) after))
  end.

Definition admission_refusal `{IntakeHooks} (db : FDB) (row : FactoryReceipt) (policy : dict) : res (option string) :=
  records ← res_filter (made_for row) (_records db);
  match records with
  | [] => Ok (if has_key REFINEMENT_MARKER (direction_of row)
              then Some "refinement_delivery_provenance_missing"%string else None)
  | [detail] =>
      changed ← evidence_changed db row policy detail;
      Ok (if (changed : bool) then Some "refinement_delivery_evidence_changed"%string else None)
  | _ => Ok (Some "refinement_delivery_provenance_missing"%string)
  end.

(** ** Admitting a candidate *)

(** The direction a delivery inherits from its history: a landing hold and the
    gates of a successful refinement. *)
Definition inherit_direction `{Environ} (history : list FactoryReceipt) (direction : dict) : dict * bool :=
  let '(direction, changed) :=
    match find_first landing_held history with
    | Some prior => (set_default "landing_hold" (dict_get "landing_hold" (direction_of prior)) direction, true)
    | None => (direction, false)
    end in
  match find_first (λ r, bool_decide (rc_task_class r = Some "refine"%string) &&
                         bool_decide (rc_state r = "succeeded"%string)) history with
  | Some refined =>
      match rc_direction_json refined with
      | Some d =>
          let gates := get_or "conductor_gates" (PList []) d in
          let direction := if truthy gates && negb (truthy (dict_get "conductor_gates" direction))
                           then dict_set "conductor_gates" gates direction else direction in
          let direction := if landing_held refined
                           then set_default "landing_hold" (dict_get "landing_hold" d) direction else direction in
          (direction, changed || match direction with [] => false | _ => true end)
      | None => (direction, changed)
      end
  | None => (direction, changed)
  end.

Definition task_text (row : FactoryReceipt) (direction : dict) : string :=
  (if truthy (dict_get "dependency_review" direction) then "GitHub dependency pull request "
   else if truthy (dict_get "owner_pr" direction) then "GitHub pull request "
   else "GitHub issue ") +:+ rc_url row +:+ NL +:+ NL +:+ rc_title row +:+ NL +:+ NL +:+ rc_body row.

Definition with_admission (task_id tier : string) (policy : dict) (now : Z) (row : FactoryReceipt) : FactoryReceipt :=
  mkReceipt (rc_id row) (rc_repo row) (rc_issue_number row) (rc_generation row) (rc_title row)
    (rc_body row) (rc_url row) (rc_actor row) (rc_task_class row) (rc_recurrence_key row)
    (Some tier) "admitted" (Some task_id) (Some policy) (rc_allowance_json row)
    (rc_direction_json row) (rc_work_item_id row) (rc_task_paused row) (rc_cancellation_requested row) now
    (rc_escalation_json row) (rc_created_at row).

Definition brief_only_refinement (row : FactoryReceipt) : bool :=
  let intake := match or_empty (dict_get "intake" (default [] (rc_policy_json row))) with PDict d => d | _ => [] end in
  bool_decide (receipt_task_class row = "refine"%string) &&
  (truthy (dict_get "refinement_batch" intake) || truthy (dict_get "refine_brief_only" intake)).

Definition counted (now : Z) (c : FactoryControl) : FactoryControl :=
  mkControl (ct_state c) (ct_policy_json c) (ct_admitted_count c + 1) (ct_version c) now (ct_actor c)
    (ct_stopped_at c).

(** The policy the task runs under: the repository's envelope, a carried grant
    and the receipt's model restriction. *)
Definition task_policy (pinned : dict) (grant : option dict) (direction : dict) : res (string + dict) :=
  effective ← (match grant with
               | Some g => overlay ← item "policy_overlay" g; overlay ← as_object overlay; Ok (dict_update pinned overlay)
               | None => Ok pinned
               end);
  let restriction := dict_get "model_restriction" direction in
  if negb (truthy restriction) then Ok (inr effective) else
  r ← as_object restriction; removed ← item "removed_models" r;
  restricted ← restrict_models effective removed;
  match validate_policy (PDict restricted) with
  | Ok _ => Ok (inr restricted)
  | Raise (ValueError _) => Ok (inl "model_restriction_invalid"%string)
  | Raise e => Raise e
  end.

(** The writes of an admission; the recall of earlier knowledge it also prepares
    is stored elsewhere. *)
Definition admit_write `{IsoFormat, IntakeHooks} (row : FactoryReceipt) (actor : string) (route : Feedback) (grant : option dict)
    (direction policy pinned effective : dict) : tx FDB AdmitResult := λ db,
  let task_id := mint_task_id db in
  base ← item "base_branch" policy; model ← item "conductor_model" policy;
  budget ← item "task_budget_usd" effective;
  let now := f_now db in
  let task := mkFTask task_id now (task_text row direction) (rc_repo row) base model budget "factory" actor now None in
  let row := with_admission task_id (fb_tier route) pinned now row in
  let class := receipt_task_class row in
  db ← store_class_route class route (put_receipt row (set_tasks (λ l, l ++ [task]) db));
  let db := edit_control (counted now) db in
  db ← (match grant with Some g => inherit_dispatch_grant row task g policy db | None => Ok db end);
  let db := if brief_only_refinement row
            then _audit actor "brief_only_refinement_admitted" (Some task_id) [("receipt_id"%string, PInt (rc_id row))] db
            else db in
  let rate := match ra_approval_rate (fb_window route) with Some f => PFloat f | None => PNone end in
  let samples := PInt (ra_sample_count (fb_window route)) in
  let db := _audit actor "admit_next" (Some task_id)
    [("receipt_id", PInt (rc_id row)); ("lane", PStr (lane_of row)); ("task_class", PStr class);
     ("feedback_decision", PStr (fb_decision route)); ("feedback_samples", samples);
     ("first_pass_approval_rate", rate); ("policy_version", PInt (ct_version (f_control db)))]%string db in
  let db :=
    if bool_decide (fb_tier route = fb_previous_tier route) then db
    else _audit FEEDBACK_ACTOR
           (if bool_decide (fb_tier route = ADVISORY_TIER) then "class_tier_demoted" else "class_tier_restored")
           (Some task_id)
           [("task_class", PStr class); ("previous_tier", PStr (fb_previous_tier route));
            ("routing_tier", PStr (fb_tier route)); ("sample_kind", PStr (fb_sample_kind route));
            ("sample_count", samples); ("approval_rate", rate);
            ("approval_floor", PFloat APPROVAL_FLOOR)]%string db in
  Ok (TaskAdmitted task_id (rc_id row) (lane_of row) effective, db).

(** Admitting the picked candidate, or the reason it must wait; an inherited
    direction is kept on the receipt either way. *)
Definition admit_row `{Environ, IsoFormat, IntakeHooks} (row : FactoryReceipt) (actor : string) (policy : dict) (route : Feedback)
    : tx FDB AdmitResult := λ db,
  refusal ← admission_refusal db row policy;
  match refusal with
  | Some reason => Ok (AdmitRefused reason, db)
  | None =>
      let '(direction, changed) :=
        if bool_decide (fb_tier route = "delivery"%string)
        then inherit_direction
               (protected_work_history db (rc_repo row) (rc_issue_number row) (rc_work_item_id row)) (direction_of row)
        else (direction_of row, false) in
      let row' := if (changed : bool) then with_direction direction row else row in
      let db := if (changed : bool) then put_receipt row' db else db in
      let row := row' in
      match granted_delivery_surface (PDict direction) with
      | Raise (ValueError _) => Ok (AdmitRefused "delivery_surface_invalid", db)
      | Raise e => Raise e
      | Ok (branch, _) =>
          owner ← (match branch with
                   | Some b => delivery_branch_owner db (rc_repo row) b (Some (rc_id row))
                   | None => Ok None
                   end);
          match owner with
          | Some _ => Ok (AdmitRefused "delivery_branch_owned", db)
          | None =>
              match dispatch_continuation_grant db row policy with
              | Raise (ValueError _) => Ok (AdmitRefused "funding_overlay_invalid", db)
              | Raise e => Raise e
              | Ok grant =>
                  pinned ← repo_effective_policy policy (PStr (rc_repo row));
                  effective ← task_policy pinned grant direction;
                  match effective with
                  | inl reason => Ok (AdmitRefused reason, db)
                  | inr effective => admit_write row actor route grant direction policy pinned effective db
                  end
              end
          end
      end
  end.

Definition admit_next `{Environ, IsoFormat, IntakeHooks} (actor : pyval) (lanes : list string) : tx FDB AdmitResult := λ db,
  actor ← _text actor "actor" 256;
  let lanes := filter (λ l, l ∈ lanes) LANES in
  if negb (bool_decide (ct_state (f_control db) = "enabled"%string))
  then Ok (AdmitRefused (ct_state (f_control db)), db) else
  '(_, db) ← retry_capacity_releases db;
  policy ← validate_policy (PDict (ct_policy_json (f_control db)));
  _ ← lane_limits policy;
  let unresolved := Some (unresolved_start_task_ids db) in
  occupying ← execution_slot_holders policy (active_receipts db) false unresolved;
  room ← open_lanes policy occupying lanes unresolved;
  let available := filter (λ l, 0 < lane_get l room) lanes in
  match available with
  | [] => Ok (AdmitRefused "wip_limit", db)
  | _ =>
      let routes := route_for_class db in
      let tier_of c := fb_tier (routes c) in
      enabled ← enabled_repos policy;
      match enabled with
      | [] => Ok (AdmitRefused "no_eligible_issue", db)
      | _ =>
          rows ← res_filter (base_query db policy enabled tier_of available) (f_receipts db);
          let blocked_rows := filter (λ r, blocked db r = true) rows in
          let unblocked := filter (λ r, blocked db r = false) rows in
          let candidates := take ADMISSION_CANDIDATE_SCAN_LIMIT (ordered db unblocked) in
          let db := report_blocked actor rows unblocked blocked_rows db in
          '(row, db) ← pick_candidate candidates actor policy tier_of available occupying db;
          match row with
          | Some row => admit_row row actor policy (routes (receipt_task_class row)) db
          | None =>
              Ok (AdmitRefused
                    (if existsb (λ c, bool_decide (rc_state (refreshed c db) = "queued"%string)) candidates
                     then "wip_limit"
                     else match blocked_rows with [] => "no_eligible_issue" | _ => "blocked" end), db)
          end
      end
  end.
