(* ===== verification/Readmission.v ===== *)
(** * Factory decisions: putting an answered delivery back in the lane

    The part of [factory_decisions.py] that returns an escalated receipt to the
    queue with the operator's answer as its direction ([_readmit]). *)

From Stdlib Require Import SpecFloat.
From stdpp Require Import prelude list strings pretty.
From S2P Require Import Prelude PyValue GraphData GraphPlan WorkItems ModelPool PolicyData Policy Controls Lanes Capacity Starts Finish Operator Feedback FundingGrants Intake.
Local Open Scope Z_scope.

Definition MAX_NOTE : nat := 4000.
Definition REFINE_CLASS : string := "refine".
Definition DECISION_RUNNING_STATES : list string := ["admitted"; "uncertain"; "landing"].
Definition DECISION_SETTLED_STATES : list string := ["succeeded"; "failed"].
Definition _PRIOR_KEYS : list string := ["prior_task_id"; "prior_branch"; "prior_pr_url"; "prior_pr_number"].

(** Why the receipt cannot go back to the lane. *)
Definition _requeue_blocker `{Environ, Rendering} (db : FDB) (row : FactoryReceipt) (ignore : option (string * string))
    : res (option string) :=
  if match named_task row with Some t => review_recovery_held db t | None => false end
  then Ok (Some "review_only_recovery"%string) else
  requested ← _pending_request db (rc_id row) ignore;
  if (requested : bool) then Ok (Some "a durable decision request has an unresolved outcome"%string) else
  if str_in (rc_state row) DECISION_RUNNING_STATES then Ok (Some "work is already running on this issue"%string) else
  if bool_decide (rc_state row = "queued"%string)
  then Ok (Some "this issue is already queued for another round"%string) else
  let refine := bool_decide (rc_task_class row = Some REFINE_CLASS) in
  if refine && negb (str_in (rc_state row) DECISION_SETTLED_STATES)
  then Ok (Some ("the receipt is " +:+ rc_state row +:+ ", so the lane will not admit it again")%string) else
  if negb refine && negb (bool_decide (rc_state row = ESCALATED))
  then Ok (Some ("the receipt is " +:+ rc_state row +:+
                 " rather than escalated, so there is nothing waiting to be re-admitted")%string) else
  let policy := ct_policy_json (f_control db) in
  if negb (py_eq (PInt (rc_generation row)) (dict_get "generation" policy))
  then Ok (Some ("the receipt is generation " +:+ pretty (rc_generation row) +:+ " and the policy is on " +:+
                 py_format (dict_get "generation" policy) +:+ ", so admission will not select it")%string) else
  eligible ← admission_eligible policy (rc_issue_number row) (rc_actor row) (rc_task_class row) (Some (rc_repo row));
  Ok (if (eligible : bool) then None
      else Some "this issue is neither in the policy allowlist nor discoverable with intake on, so admission will not select it"%string).

(** The receipt waits for admission under no task. *)
Definition _requeue (row : FactoryReceipt) : FactoryReceipt :=
  mkReceipt (rc_id row) (rc_repo row) (rc_issue_number row) (rc_generation row) (rc_title row)
    (rc_body row) (rc_url row) (rc_actor row) (rc_task_class row) (rc_recurrence_key row)
    None "queued" None None None (rc_direction_json row) (rc_work_item_id row) false false
    (rc_updated_at row) (rc_escalation_json row) (rc_created_at row).

Definition _settle_escalated (row : FactoryReceipt) (state : string) : FactoryReceipt :=
  with_state state (rc_updated_at row) row.

Definition KEPT_DIRECTION : list string :=
  ["conductor_gates"; "delivery_adoption"; "landing_hold"; "landing_hold_provenance"; "landing_hold_refusals";
   "nonrenewable_recovery"; "model_restriction"].

(** The last [n] of a list, [l[-n:]]. *)
Definition last_n {A} (n : nat) (l : list A) : list A := drop (length l - n) l.

(** [(note or "").strip()[:MAX_NOTE] or None]. *)
Definition clipped_note (note : option string) : pyval :=
  let s := take_str MAX_NOTE (py_strip (default ""%string note)) in
  if bool_decide (s = ""%string) then PNone else PStr s.

(** The task and pull request of the attempt before. *)
Definition prior_attempt (row : FactoryReceipt) (escalation stored : dict) : dict :=
  match named_task row with
  | Some t => [("prior_task_id", PStr t); ("prior_branch", dict_get "branch" escalation);
               ("prior_pr_url", dict_get "pr_url" escalation); ("prior_pr_number", dict_get "pr_number" escalation)]%string
  | None => (λ k, (k, dict_get k stored)) <$> _PRIOR_KEYS
  end.

(** The operator's answer, as the next planner reads it.  Earlier task ids are
    stored as a list. *)
Definition _direction `{IsoFormat} (now : Z) (row : FactoryReceipt) (escalation option_ : dict) (actor : string)
    (note : option string) : res dict :=
  let stored := direction_of row in
  let prior := prior_attempt row escalation stored in
  previous ← (match dict_get "previous_task_ids" stored with
              | PList l => Ok l
              | v => if truthy v then Raise TypeError else Ok []
              end);
  let id := dict_get "prior_task_id" prior in
  let previous := if truthy id && negb (existsb (py_eq id) previous) then previous ++ [id] else previous in
  key ← item "key" option_; label ← item "label" option_; effect ← item "effect" option_;
  Ok ([("option_key", key); ("label", label); ("effect", effect);
       ("detail", or_empty (dict_get "detail" option_)); ("note", clipped_note note); ("actor", PStr actor);
       ("decided_at", PStr (isoformat (mkDatetime now (Some 0)))); ("question", dict_get "question" escalation);
       ("previous_task_ids", PList (last_n 8 previous))]%string ++
      omap (λ k, (λ v, (k, v)) <$> assoc_get k stored) KEPT_DIRECTION ++ prior).

(** The operator-authorized pull request of the attempt before joins the
    direction, or a refusal. *)
Definition _grant_delivery_surface (db : FDB) (row : FactoryReceipt) (direction : dict) : res (string + dict) :=
  match granted_delivery_surface (PDict direction) with
  | Raise (ValueError why) => Ok (inl why)
  | Raise e => Raise e
  | Ok (Some branch, Some number) =>
      owner ← delivery_branch_owner db (rc_repo row) branch (Some (rc_id row));
      Ok (match owner with
          | Some t => inl ("delivery branch " +:+ branch +:+ " is owned by running task " +:+ t)%string
          | None => inr (dict_set "delivery_pr_number" (PInt number) (dict_set "delivery_branch" (PStr branch) direction))
          end)
  | Ok _ => Ok (inr direction)
  end.

Inductive ReadmitResult := Readmitted | NotReadmitted (blocked_by : string).

Definition _readmit `{Environ, IsoFormat, Rendering} (row : FactoryReceipt) (escalation option_ : dict) (actor : string)
    (note : option string) (ignore : option (string * string)) : tx FDB ReadmitResult := λ db,
  let queued := bool_decide (rc_state row = "queued"%string) in
  direction ← _direction (f_now db) row escalation option_ actor note;
  surface ← _grant_delivery_surface db row direction;
  blocker ← (match surface with
             | inl why => Ok (inl why)
             | inr direction =>
                 if queued then Ok (inr direction) else
                 blocker ← _requeue_blocker db row ignore;
                 Ok (match blocker with Some why => inl why | None => inr direction end)
             end);
  match blocker with
  | inl why => Ok (NotReadmitted why, put_receipt (_settle_escalated row "cancelled") db)
  | inr direction =>
      '(overlay, db) ← grant_dispatch_refusal row escalation option_ db;
      let direction := match overlay with
                       | Some g => dict_set "funding_overlay" (PDict g) direction
                       | None => direction
                       end in
      let row := with_direction direction row in
      Ok (Readmitted,
          if queued then put_receipt row db
          else _audit actor "operator_readmission_queued" None [("receipt_id"%string, PInt (rc_id row))]
                 (put_receipt (_requeue row) db))
  end.
