(* ===== verification/Decisions.v ===== *)
(** * Factory decisions: an operator's answer to an escalation

    The part of [factory_decisions.py] that answers an escalation: the claim of
    one option ([_claim]), the effects on GitHub (a collaborator,
    [DecisionEffects]), the resolution that puts the work back in the lane or ends
    it ([_resolve]), and the operator's resume of an escalated task, which is
    choosing its recommendation ([resume_escalated], [set_control]).  A request
    recorded by [request_decision] is not modelled: [_resolve] is translated for
    an answer without one. *)

From Stdlib Require Import SpecFloat.
From stdpp Require Import prelude list strings pretty.
From S2P Require Import Prelude PyValue GraphData GraphPlan WorkItems ModelPool PolicyData Policy Controls Lanes Capacity Starts Finish Operator Feedback FundingGrants Intake Readmission.
Local Open Scope Z_scope.

(** A decision that cannot be applied, with its status and the reason. *)
Record DecisionError := mkDecisionError { de_status : Z; de_reason : string }.
Definition refused {A} (status : Z) (reason : string) : res (DecisionError + A) := Ok (inl (mkDecisionError status reason)).

Definition ESCAPE_OPTIONS : list dict :=
  [[("key", PStr "escape:close"); ("label", PStr "Close the issue"); ("effect", PStr "escape-close");
    ("detail", PDict [("reason", PStr "not_planned")])];
   [("key", PStr "escape:defer"); ("label", PStr "Defer it"); ("effect", PStr "escape-defer"); ("detail", PDict [])];
   [("key", PStr "escape:dismiss"); ("label", PStr "Dismiss the escalation"); ("effect", PStr "escape-dismiss"); ("detail", PDict [])]]%string.
Definition NON_TERMINAL_EFFECTS : list string := ["escape-dismiss"].
Definition READMITTING_EFFECTS : list string := ["agent-ready"].
Definition CHAT_PREFIX : string := "Operator asks:".
(** [factory_pause.STOP]. *)
Definition STOP : dict :=
  [("key", PStr "stop"); ("label", PStr "Stop this task, leave the issue open"); ("effect", PStr "hold"); ("detail", PDict [])]%string.

Definition terminal_effect (effect : pyval) : bool := negb (pystr_in effect NON_TERMINAL_EFFECTS).
Definition terminal_resolution (resolved : pyval) : res bool :=
  if is_none resolved then Ok false else effect ← obj_get "effect" resolved; Ok (terminal_effect effect).

Definition receipt_by_id (db : FDB) (receipt_id : Z) : option FactoryReceipt :=
  find_first (λ r, rc_id r =? receipt_id) (f_receipts db).

Section cards.
Context `{Environ, Rendering}.

Definition _pinned_and_active (row : FactoryReceipt) : bool :=
  flag "FACTORY_ACTIVE_RECEIPT_DECISIONS_ENABLED" && str_in (rc_state row) DECISION_RUNNING_STATES.

(** [_require_current_generation]: why a stale card is refused. *)
Definition stale_card (db : FDB) (row : FactoryReceipt) : option string :=
  match dict_get "generation" (ct_policy_json (f_control db)) with
  | PInt current =>
      if rc_generation row =? current then None
      else Some ("this escalation belongs to receipt generation " +:+ pretty (rc_generation row) +:+
                 ", but the policy is on generation " +:+ pretty current +:+
                 "; refresh the escalations page because no issue changes were made")%string
  | _ => None
  end.

(** [factory_pause.eligible], [factory_pause.decidable], [factory_progress_watchdog.decidable]. *)
Definition pause_eligible (db : FDB) (row : FactoryReceipt) : bool :=
  is_active row &&
  match named_task row with
  | Some t => negb (rc_cancellation_requested row) && negb (review_recovery_held db t)
  | None => false
  end &&
  match rc_work_item_id row with
  | Some i => match find_first (λ w, wi_id w =? i) (f_items db) with
              | Some item => negb (str_in "human" (py_lower <$> wi_labels item))
              | None => true
              end
  | None => true
  end.
Definition card_task (row : FactoryReceipt) (document : dict) : bool :=
  py_eq (dict_get "task_id" document) (of_option (rc_task_id row)).
Definition pause_decidable (row : FactoryReceipt) (document : dict) : bool :=
  is_card document && card_task row document && is_active row && rc_task_paused row && negb (rc_cancellation_requested row).
Definition watchdog_decidable (row : FactoryReceipt) (document : dict) : bool :=
  py_eq (dict_get "kind" document) (PStr "watchdog") && card_task row document && is_active row && rc_task_paused row.

Fixpoint find_option (option_key : string) (options : list pyval) : res (option dict) :=
  match options with
  | [] => Ok None
  | PDict o :: options => if py_eq (dict_get "key" o) (PStr option_key) then Ok (Some o) else find_option option_key options
  | _ :: _ => Raise AttributeError
  end.
Definition options_of (escalation : dict) : res (list pyval) :=
  match dict_get "options" escalation with
  | PList l => Ok l
  | v => if truthy v then Raise TypeError else Ok []
  end.
Definition _option (escalation : dict) (option_key : string) : res (DecisionError + dict) :=
  options ← options_of escalation;
  stored ← find_option option_key options;
  match stored with
  | Some o => Ok (inr o)
  | None =>
      match find_first (λ o, py_eq (dict_get "key" o) (PStr option_key)) ESCAPE_OPTIONS with
      | Some o => Ok (inr o)
      | None => refused 422 "the escalation offers no such option"
      end
  end.

(** The decision the receipt's card asks. *)
Definition decision_id_of (row : FactoryReceipt) : pyval :=
  match rc_escalation_json row with Some d => _identity row d | None => PNone end.
Definition _fields (row : FactoryReceipt) : dict :=
  [("id", PInt (rc_id row)); ("repo", PStr (rc_repo row)); ("issue_number", PInt (rc_issue_number row));
   ("generation", PInt (rc_generation row)); ("title", PStr (rc_title row)); ("url", PStr (rc_url row));
   ("task_id", of_option (rc_task_id row));
   ("work_item_id", match rc_work_item_id row with Some i => PInt i | None => PNone end);
   ("task_class", of_option (rc_task_class row)); ("decision_id", decision_id_of row)]%string.

(** [_live_claim(db, receipt_id, option_key, identity)]: another option of this
    decision that is claimed and neither failed nor applied. *)
Fixpoint claims_held (receipt_id : Z) (identity : pyval) (rows : list FactoryAudit) (held : list string) : res (list string) :=
  match rows with
  | [] => Ok held
  | row :: rows =>
      let detail := au_detail_json row in
      let decision := dict_get "decision_id" detail in
      if negb (py_eq (dict_get "receipt_id" detail) (PInt receipt_id)) ||
         negb (is_none identity) && negb (is_none decision) && negb (py_eq decision identity)
      then claims_held receipt_id identity rows held else
      key ← as_text (dict_get "option_key" detail);
      claims_held receipt_id identity rows (if is_action "decision_claimed" row then key :: held else filter (λ k, k ≠ key) held)
  end.
Definition claim_holder (db : FDB) (receipt_id : Z) (option_key : string) (identity : pyval) : res (option string) :=
  held ← claims_held receipt_id identity (filter (λ a, au_action a ∈ CLAIM_ACTIONS) (f_audits db)) [];
  Ok (head (filter (λ k, k ≠ option_key) (py_sorted String.leb held))).
End cards.

(** ** The claim *)

(** What a claim answers: the fields the effects need, the card, and the
    resolution already recorded, if any. *)
Record Claim := mkClaim { cm_fields : dict; cm_escalation : dict; cm_resolved : option pyval }.

Section decisions.
Context `{Environ, IsoFormat, Rendering}.

Definition resolved_as (key : string) (value : pyval) (resolved : pyval) : res bool :=
  if is_none resolved then Ok false else v ← obj_get key resolved; Ok (py_eq v value).
(** Why a card that pauses a task, or a receipt that runs, cannot be answered. *)
Definition unanswerable (db : FDB) (row : FactoryReceipt) (escalation option_ : dict) : option string :=
  if is_card escalation && negb (pause_eligible db row && pause_decidable row escalation)
  then Some "this automatic pause no longer owns the task"%string else
  if is_card escalation && negb (py_eq (PDict option_) (PDict STOP))
  then Some "this pause only offers stopping; continuation needs separate authorization"%string else
  if str_in (rc_state row) DECISION_RUNNING_STATES && negb (watchdog_decidable row escalation || pause_decidable row escalation)
  then Some "a brief is running on this issue; decide when it settles"%string else None.

Definition _claim (receipt_id : Z) (option_key actor : string) (expected : option string) : tx FDB (DecisionError + Claim) := λ db,
  let refuse status reason := Ok (inl (mkDecisionError status reason), db) in
  match receipt_by_id db receipt_id with
  | None => refuse 404 "no such receipt"%string
  | Some row =>
      if match named_task row with Some t => review_recovery_held db t | None => false end
      then refuse 409 "review_only_recovery"%string else
      match (if _pinned_and_active row then None else stale_card db row) with
      | Some why => refuse 409 why
      | None =>
          pending ← _pending_request db receipt_id None;
          if (pending : bool) then refuse 409 "a durable decision request has an unresolved outcome"%string else
          match rc_escalation_json row with
          | None => refuse 409 "this receipt raised no escalation"%string
          | Some escalation =>
              let resolved := dict_get "resolved" escalation in
              same_id ← (match expected with Some id => resolved_as "decision_id" (PStr id) resolved | None => Ok false end);
              same_key ← resolved_as "option_key" (PStr option_key) resolved;
              if same_id && same_key then Ok (inr (mkClaim (_fields row) escalation (Some resolved)), db) else
              if match expected with Some id => negb (py_eq (decision_id_of row) (PStr id)) | None => false end
              then refuse 409 "the decision brief changed; read it again"%string else
              chosen ← _option escalation option_key;
              match chosen with
              | inl e => Ok (inl e, db)
              | inr option_ =>
                  if (same_key : bool) then Ok (inr (mkClaim (_fields row) escalation (Some resolved)), db) else
                  terminal ← terminal_resolution resolved;
                  if (terminal : bool)
                  then decided ← obj_get "option_key" resolved;
                       refuse 409 ("this escalation was already decided as " +:+ py_format decided)%string
                  else
                  match unanswerable db row escalation option_ with
                  | Some why => refuse 409 why
                  | None =>
                      match validate_dispatch_refusal db row escalation option_ with
                      | Raise (ValueError why) => refuse 409 why
                      | Raise e => Raise e
                      | Ok _ =>
                          holder ← claim_holder db receipt_id option_key (decision_id_of row);
                          match holder with
                          | Some k => refuse 409 ("a decision for " +:+ k +:+ " is already in flight")%string
                          | None =>
                              Ok (inr (mkClaim (_fields row) escalation None),
                                  _audit actor "decision_claimed" (rc_task_id row)
                                    [("receipt_id", PInt receipt_id); ("issue_number", PInt (rc_issue_number row));
                                     ("option_key", PStr option_key); ("effect", dict_get "effect" option_);
                                     ("decision_id", decision_id_of row)]%string db)
                          end
                      end
                  end
              end
          end
      end
  end.

(** ** The resolution *)

Definition list_or_empty (v : pyval) : res (list pyval) :=
  match v with PList l => Ok l | v => if truthy v then Raise TypeError else Ok [] end.
(** One operator reply joins the conversation once. *)
Definition _append_operator_exchange (escalation : dict) (message_id actor timestamp : string) (task_id decision_id : pyval)
    (status text summary : string) : res dict :=
  conversation ← list_or_empty (dict_get "conversation" escalation);
  known ← res_any (λ v, id ← obj_get "message_id" v; Ok (py_eq id (PStr message_id))) conversation;
  if (known : bool) then Ok escalation else
  Ok (dict_set "conversation" (PList (last_n 20 (conversation ++ [PDict
        [("message_id", PStr message_id); ("role", PStr "operator"); ("actor", PStr actor); ("source", PStr "factory_decision");
         ("timestamp", PStr timestamp); ("task_id", task_id); ("decision_id", decision_id); ("request_key", PNone);
         ("epistemic_status", PStr status); ("text", PStr (take_str 4000 text)); ("summary", PStr (take_str 1200 summary))]%string])))
      escalation).

Definition stamp (now : Z) : string := isoformat (mkDatetime now (Some 0)).
(** [row.escalation_json] and [row.updated_at] together. *)
Definition with_card (escalation : dict) (now : Z) (row : FactoryReceipt) : FactoryReceipt :=
  with_retirement (rc_state row) (Some escalation) now row.

(** The receipt goes back to the queue with the operator's note, or the reason
    it cannot; the question is recorded either way. *)
Definition _requeue_refine (row : FactoryReceipt) (note actor : string) : tx FDB (option string) := λ db,
  let escalation := default [] (rc_escalation_json row) in
  chat ← list_or_empty (dict_get "chat" escalation);
  blocker ← _requeue_blocker db row None;
  let asked := stamp (f_now db) in
  let chat := chat ++ [PDict [("note", PStr note); ("actor", PStr actor); ("asked_at", PStr asked);
                              ("requeued", PBool (negb (is_some blocker))); ("blocked_by", of_option blocker)]%string] in
  escalation ← _append_operator_exchange (dict_set "chat" (PList chat) escalation)
    ("factory-chat:" +:+ pretty (rc_id row) +:+ ":" +:+ pretty (Z.of_nat (length chat))) actor asked
    (of_option (rc_task_id row)) (decision_id_of row) "operator_input" note note;
  let row := with_card escalation (f_now db) row in
  match blocker with
  | Some why => Ok (Some why, put_receipt row db)
  | None =>
      row ← (if bool_decide (rc_task_class row = Some REFINE_CLASS) then Ok row else
             direction ← _direction (f_now db) row escalation
               [("key", PStr "chat"); ("label", PStr (take_str 120 (CHAT_PREFIX +:+ " " +:+ note)));
                ("effect", PStr "chat"); ("detail", PDict [])]%string actor (Some note);
             Ok (with_direction direction row));
      Ok (None, _audit actor "operator_readmission_queued" None [("receipt_id"%string, PInt (rc_id row))]
                  (put_receipt (_requeue row) db))
  end.

Definition readmit_json (r : ReadmitResult) : dict :=
  match r with
  | Readmitted => [("readmitted", PBool true); ("blocked_by", PNone)]%string
  | NotReadmitted why => [("readmitted", PBool false); ("blocked_by", PStr why)]%string
  end.
Definition advisory (row : FactoryReceipt) : bool := match rc_task_class row with Some c => is_advisory c | None => false end.
(** What the answer does to the receipt's place in the lane. *)
Definition settle_answer (row : FactoryReceipt) (escalation option_ : dict) (effect : pyval) (actor : string) (note : option string)
    : tx FDB dict := λ db,
  if negb (advisory row) && str_in (rc_state row) [ESCALATED; "queued"]%string then
    if pystr_in effect READMITTING_EFFECTS
    then '(r, db) ← _readmit row escalation option_ actor note None db; Ok (readmit_json r, db)
    else Ok ([], if terminal_effect effect then put_receipt (_settle_escalated row "cancelled") db else db)
  else Ok ([], if bool_decide (rc_state row = "queued"%string)
               then put_receipt (with_state "succeeded" (rc_updated_at row) row) db else db).

Definition resolution_json (key label effect : pyval) (actor : string) (note : option string) (effects : dict) (now : Z)
    (decision_id : pyval) : dict :=
  [("option_key", key); ("label", label); ("effect", effect); ("actor", PStr actor); ("note", clipped_note note);
   ("effects", PDict effects); ("decided_at", PStr (stamp now)); ("decision_id", decision_id)]%string.

(** The resolution on the card, once nothing terminal stands there. *)
Definition resolve_open (row : FactoryReceipt) (escalation option_ : dict) (key label effect : pyval) (actor : string)
    (note : option string) (effects : dict) (requeue_note decision_id : pyval) : tx FDB dict := λ db,
  '(answer, db1) ← settle_answer row escalation option_ effect actor note db;
  let effects := dict_update effects answer in
  let row1 := refreshed row db1 in
  '(effects, row2, escalation, db2) ←
    (match requeue_note with
     | PNone => Ok (effects, row1, escalation, db1)
     | PStr text =>
         '(blocker, db2) ← _requeue_refine row1 text actor db1;
         let row2 := refreshed row1 db2 in
         Ok (dict_update effects [("requeued", PBool (negb (is_some blocker))); ("blocked_by", of_option blocker)]%string, row2,
             match rc_escalation_json row2 with Some (_ :: _ as d) => d | _ => escalation end, db2)
     | _ => Raise TypeError
     end);
  let resolution := resolution_json key label effect actor note effects (f_now db) decision_id in
  let noted := clipped_note note in
  escalation ← _append_operator_exchange escalation
    ("factory-decision:" +:+ py_format decision_id +:+ ":" +:+ actor +:+ ":" +:+ py_format key) actor (stamp (f_now db))
    (of_option (rc_task_id row)) decision_id "approved"
    ("Selected " +:+ py_format label +:+ "." +:+ (match noted with PStr n => String (Ascii.ascii_of_nat 10) (String (Ascii.ascii_of_nat 10) n) | _ => ""%string end))
    (match noted with PStr n => n | _ => py_format label end);
  Ok (resolution, put_receipt (with_card (dict_set "resolved" (PDict resolution) escalation) (f_now db) row2) db2).

Definition _resolve (receipt_id : Z) (option_ : dict) (actor : string) (note : option string) (effects : dict) (expected : pyval)
    : tx FDB (DecisionError + dict) := λ db,
  let refuse reason := Ok (inl (mkDecisionError 409 reason), db) in
  let requeue_note := dict_get "_requeue_refine_note" effects in
  let effects := filter (λ p, p.1 ≠ "_requeue_refine_note"%string) effects in
  key ← item "key" option_; label ← item "label" option_; effect ← item "effect" option_;
  match receipt_by_id db receipt_id with
  | None => Ok (inl (mkDecisionError 404 "no such receipt"), db)
  | Some row =>
      let escalation := default [] (rc_escalation_json row) in
      if negb (py_eq (decision_id_of row) expected)
      then refuse "the decision brief changed while applying the answer; GitHub effects may have occurred, inspect the issue before retrying"%string else
      if is_card escalation && negb (pause_eligible db row && pause_decidable row escalation && py_eq (PDict option_) (PDict STOP))
      then refuse "this automatic pause no longer owns the task"%string else
      let '(row1, effects) := if is_card escalation
        then (with_cancellation (rc_updated_at row) row, dict_set "cancellation_requested" (PBool true) effects) else (row, effects) in
      let db1 := put_receipt row1 db in
      let resolved := dict_get "resolved" escalation in
      terminal ← terminal_resolution resolved;
      '(resolution, db2) ←
        (if (terminal : bool) then r ← as_object resolved; Ok (r, db1)
         else resolve_open row1 escalation option_ key label effect actor note effects requeue_note expected db1);
      key ← item "option_key" resolution; effect ← item "effect" resolution; done ← item "effects" resolution;
      Ok (inr resolution,
          _audit actor "decision_applied" (rc_task_id row)
            [("receipt_id", PInt receipt_id); ("issue_number", PInt (rc_issue_number row)); ("option_key", key);
             ("effect", effect); ("effects", done); ("decision_id", expected)]%string db2)
  end.
End decisions.

(** ** The answer *)

(** What an effect on GitHub fails with: a decision error, or another error with
    its name and status. *)
Record EffectError := mkEffectError { ee_decision : option DecisionError; ee_name : string; ee_status : pyval }.
(** [_apply]: labels, comments and closes issues on GitHub, and records the
    children of a split. *)
Class DecisionEffects := { _apply : dict → dict → option string → tx FDB (EffectError + dict) }.

Section answers.
Context `{Environ, IsoFormat, Rendering, DecisionEffects}.

Definition decision_failed (receipt_id : Z) (task_id : pyval) (option_key actor : string) (e : EffectError) (db : FDB) : FDB :=
  _audit actor "decision_failed" (match task_id with PStr t => Some t | _ => None end)
    [("receipt_id", PInt receipt_id); ("option_key", PStr option_key); ("error", PStr (ee_name e)); ("status", ee_status e)]%string db.

Definition applied_json (applied : bool) (resolution : pyval) : dict :=
  [("ok", PBool true); ("applied", PBool applied); ("resolution", resolution)]%string.
(** A refusal inside a transaction rolls it back; one after the claim leaves the
    claim.  An exception that is no refusal (an option without its label) carries
    no state here, although the claim before it is committed.  The report to the
    conductor that follows an answer writes nothing modelled. *)
Definition apply_decision (receipt_id : Z) (option_key actor : string) (note expected : option string)
    : tx FDB (DecisionError + dict) := λ db,
  '(claimed, db1) ← _claim receipt_id option_key actor expected db;
  match claimed with
  | inl e => Ok (inl e, db)
  | inr (mkClaim fields escalation (Some resolved)) => Ok (inr (applied_json false resolved), db1)
  | inr (mkClaim fields escalation None) =>
      let decision_id := dict_get "decision_id" fields in
      if is_card escalation then
        '(r, db2) ← _resolve receipt_id STOP actor note [("held"%string, PBool true)] decision_id db1;
        Ok (match r with
            | inl e => (inl e, db)
            | inr resolution => (inr (applied_json true (PDict resolution)), db2)
            end)
      else
      chosen ← _option escalation option_key;
      match chosen with
      | inl e => Ok (inl e, db1)
      | inr option_ =>
          '(done, db2) ← _apply fields option_ note db1;
          match done with
          | inl e =>
              Ok (inl (default (mkDecisionError 502 "the decision could not be applied on GitHub") (ee_decision e)),
                  decision_failed receipt_id (dict_get "task_id" fields) option_key actor e db2)
          | inr effects =>
              '(r, db3) ← _resolve receipt_id option_ actor note effects decision_id db2;
              Ok (match r with
                  | inl e => (inl e, db2)
                  | inr resolution => (inr (applied_json true (PDict resolution)), db3)
                  end)
          end
      end
  end.

(** The recommendation is the option ordered first. *)
Definition resume_escalated (task_id actor : string) : tx FDB dict := λ db,
  let row := _receipt db task_id in
  let escalation := match row with Some r => default [] (rc_escalation_json r) | None => [] end in
  options ← options_of escalation;
  let shape := [("state", PStr (ct_state (f_control db))); ("version", PInt (ct_version (f_control db)))]%string in
  match row, options with
  | Some row, first :: _ =>
      first ← as_object first; key ← item "key" first; key ← as_text key;
      '(r, db) ← apply_decision (rc_id row) key actor None None db;
      match r with
      | inl e => Ok ([("ok", PBool false); ("reason", PStr (de_reason e))]%string ++ shape, db)
      | inr result =>
          resolution ← item "resolution" result;
          Ok ([("ok", PBool true); ("reason", PNone)]%string ++ shape ++ [("resolution"%string, resolution)], db)
      end
  | _, _ => Ok ([("ok", PBool false); ("reason", PStr "no_escalation_options")]%string ++ shape, db)
  end.

(** The whole control: resuming an escalation is answering it, everything else
    is done under the control lock. *)
Definition set_control (action : string) (actor policy : pyval) (task_id : option string)
    (cancellation_reason repo numbers : pyval) (own_session : bool) : tx FDB dict := λ db,
  '(r, db) ← control_or_delegate action actor policy task_id cancellation_reason repo numbers own_session db;
  match r with
  | ControlAnswer answer => Ok (answer, db)
  | ControlDelegated => actor ← _text actor "actor" 256; resume_escalated (default ""%string task_id) actor db
  end.
End answers.
