(* ===== verification/QueueOrder.v ===== *)
(** * Factory intake: the order of the admission queue

    The [ORDER BY] of the queue is a total preorder, and the scan takes the
    first candidate in that order that a lane and its repository have room for:
    what it passes over was fenced off or had no room. *)

From Stdlib Require Import SpecFloat Ascii Sorted.
From stdpp Require Import prelude list strings relations.
From S2P Require Import Prelude PyValue GraphData GraphPlan WorkItems ModelPool PolicyData Policy PolicyFacts Controls Lanes LaneClaims Capacity CapacityClaims Starts StartFacts StartClaims Finish Operator Feedback FundingGrants Intake.
Local Open Scope Z_scope.

(** ** Comparisons *)

(** A three-way comparison by a total preorder. *)
Class Comparing {A} (c : A → A → comparison) : Prop := {
  comparing_sym : ∀ x y, c y x = CompOpp (c x y);
  comparing_eq : ∀ x y z, c x y = Eq → c x z = c y z;
  comparing_lt : ∀ x y z, c x y = Lt → c y z = Lt → c x z = Lt;
}.

Definition lex {A} (c d : A → A → comparison) : A → A → comparison :=
  λ x y, match c x y with Eq => d x y | _ => c x y end.

Lemma comparing_eq_r {A} (c : A → A → comparison) `{!Comparing c} x y z : c x y = Eq → c z x = c z y.
Proof. intros E. rewrite (comparing_sym x z), (comparing_sym y z). by rewrite (comparing_eq x y z). Qed.

#[export] Instance lex_comparing {A} (c d : A → A → comparison) `{!Comparing c, !Comparing d} : Comparing (lex c d).
Proof.
  unfold lex. split.
  - intros x y. rewrite (comparing_sym (c := c) x y). destruct (c x y); simpl; [apply comparing_sym|done..].
  - intros x y z E. destruct (c x y) eqn:Exy; [|done..]. rewrite (comparing_eq x y z Exy).
    destruct (c y z); [by apply comparing_eq|done..].
  - intros x y z Hxy Hyz. destruct (c x y) eqn:Exy; [|destruct (c y z) eqn:Eyz|done].
    + rewrite (comparing_eq x y z Exy). destruct (c y z); [by eapply comparing_lt|done..].
    + by rewrite <-(comparing_eq_r c y z x Eyz), Exy.
    + by rewrite (comparing_lt x y z Exy Eyz).
    + done.
Qed.

#[export] Instance key_comparing {A} (f : A → Z) : Comparing (λ x y, f x ?= f y).
Proof.
  split.
  - intros x y. by rewrite Z.compare_antisym.
  - intros x y z ->%Z.compare_eq. done.
  - intros x y z. rewrite !Z.compare_lt_iff. lia.
Qed.

Lemma string_compare_lt a b c : String.compare a b = Lt → String.compare b c = Lt → String.compare a c = Lt.
Proof.
  revert b c. induction a as [|x a IH]; intros [|y b] [|z c]; simpl; try done.
  unfold Ascii.compare.
  destruct (N.compare_spec (N_of_ascii x) (N_of_ascii y)) as [E|L|G]; [| |done];
    destruct (N.compare_spec (N_of_ascii y) (N_of_ascii z)) as [E'|L'|G']; try done; intros Ha Hb.
  - rewrite E, E', N.compare_refl. by eapply IH.
  - rewrite E. by rewrite (proj2 (N.compare_lt_iff _ _) L').
  - rewrite <-E'. by rewrite (proj2 (N.compare_lt_iff _ _) L).
  - by rewrite (proj2 (N.compare_lt_iff _ _) (N.lt_trans _ _ _ L L')).
Qed.

#[export] Instance text_comparing {A} (f : A → string) : Comparing (λ x y, String.compare (f x) (f y)).
Proof.
  split.
  - intros x y. apply String.compare_antisym.
  - intros x y z ->%String.compare_eq_iff. done.
  - intros x y z. apply string_compare_lt.
Qed.

(** An absent key comes last. *)
Definition compare_last {A} (f : A → option Z) (a b : A) : comparison :=
  match f a, f b with
  | Some x, Some y => x ?= y
  | Some _, None => Lt
  | None, Some _ => Gt
  | None, None => Eq
  end.
#[export] Instance last_comparing {A} (f : A → option Z) : Comparing (compare_last f).
Proof.
  unfold compare_last. split.
  - intros x y. destruct (f x), (f y); simpl; [apply Z.compare_antisym|done..].
  - intros x y z. destruct (f x), (f y), (f z); try done. by intros ->%Z.compare_eq.
  - intros x y z. destruct (f x), (f y), (f z); try done. rewrite !Z.compare_lt_iff. lia.
Qed.

Lemma queue_compare_lex db rows :
  queue_compare db rows =
  lex (λ a b, queue_position db rows a ?= queue_position db rows b)
    (lex (compare_last (queue_age db))
      (lex (λ a b, String.compare (rc_repo a) (rc_repo b))
        (lex (λ a b, rc_issue_number a ?= rc_issue_number b) (λ a b, rc_id a ?= rc_id b)))).
Proof. reflexivity. Qed.
#[export] Instance queue_comparing db rows : Comparing (queue_compare db rows).
Proof. rewrite queue_compare_lex. apply _. Qed.

Lemma queue_le_total db rows a b : queue_le db rows a b = true ∨ queue_le db rows b a = true.
Proof. unfold queue_le. rewrite (comparing_sym a b). destruct (queue_compare db rows a b); auto. Qed.
#[export] Instance queue_le_trans db rows : Transitive (λ a b, Is_true (queue_le db rows a b)).
Proof.
  intros a b c. unfold queue_le. destruct (queue_compare db rows a b) eqn:Eab; [| |done]; intros _.
  - by rewrite (comparing_eq a b c Eab).
  - destruct (queue_compare db rows b c) eqn:Ebc; [| |done]; intros _.
    + by rewrite <-(comparing_eq_r _ b c a Ebc), Eab.
    + by rewrite (comparing_lt a b c Eab Ebc).
Qed.

Lemma ordered_sorted db rows : StronglySorted (λ a b, Is_true (queue_le db rows a b)) (ordered db rows).
Proof.
  apply Sorted_StronglySorted; [apply queue_le_trans|]. apply (py_sorted_Sorted (queue_le db rows)). apply queue_le_total.
Qed.

Lemma sorted_after {A} (R : A → A → Prop) pre r post : StronglySorted R (pre ++ r :: post) → Forall (R r) post.
Proof. induction pre as [|p pre IH]; simpl; intros Hs; inversion Hs; auto. Qed.

(** What is strictly before a row of the queue stands before it. *)
Lemma ordered_before db rows pre r post x :
  ordered db rows = pre ++ r :: post → x ∈ rows → queue_compare db rows x r = Lt → x ∈ pre.
Proof.
  intros E Hx Hlt. pose proof (ordered_sorted db rows) as Hs. rewrite E in Hs.
  assert (x ∈ pre ++ r :: post) as Hin by (rewrite <-E; unfold ordered; by rewrite elem_of_py_sorted).
  apply elem_of_app in Hin as [|[->|Hin]%elem_of_cons]; [done|exfalso..].
  - pose proof (comparing_sym (c := queue_compare db rows) r r) as Hr. by rewrite Hlt in Hr.
  - pose proof (sorted_after _ _ _ _ Hs) as Hy. rewrite Forall_forall in Hy. specialize (Hy x Hin).
    unfold queue_le in Hy. by rewrite (comparing_sym x r), Hlt in Hy.
Qed.
