(* ===== verification/LifeFacts.v ===== *)
(** * Factory controls: the writes behind every operation

    Each operation on receipts is a sequence of elementary writes ([wrote]): an
    audit, the control row, the task table, or receipts that keep their key and
    task and whose state moves only as [row_move] allows. *)

From Stdlib Require Import SpecFloat.
From stdpp Require Import prelude list strings relations.
From S2P Require Import Prelude PyValue GraphData GraphPlan WorkItems ModelPool PolicyData Policy PolicyFacts Controls Lanes LaneClaims Capacity CapacityClaims Starts StartFacts StartClaims Finish Operator Intake.
Local Open Scope Z_scope.

(** ** Elementary writes *)

Definition unresolved_in (db : FDB) (t : string) : Prop :=
  ∃ s, s ∈ f_starts db ∧ ft_task_id s = t ∧ unresolved s = true.

Inductive row_move (db : FDB) (row row' : FactoryReceipt) : Prop :=
| MoveSame : rc_state row' = rc_state row → row_move db row row'
| MoveHold : is_active row = true → rc_state row' = "uncertain"%string → row_move db row row'
| MoveEnd : is_active row = true → rc_state row' ∈ "landing"%string :: _SETTLED →
    (∀ t, rc_task_id row = Some t → ¬ unresolved_in db t) → row_move db row row'
| MoveLand : rc_state row = "landing"%string → rc_state row' ∈ ["succeeded"; "cancelled"]%string →
    row_move db row row'
| MoveRetire : rc_state row ∈ ["queued"; "escalated"]%string → rc_state row' = "cancelled"%string →
    row_move db row row'.

(** The slot a receipt occupies, unique in the table. *)
Definition slot (r : FactoryReceipt) : string * Z * Z * option string * string :=
  (rc_repo r, rc_issue_number r, rc_generation r, rc_task_class r, rc_recurrence_key r).
(** What a receipt was received as: its key, slot, text and origin. *)
Definition subject (r : FactoryReceipt) :
    Z * (string * Z * Z * option string * string) * (string * string * string) * (string * Z) :=
  (rc_id r, slot r, (rc_title r, rc_body r, rc_url r), (rc_actor r, rc_created_at r)).
(** What a receipt is about: its subject and the work item it names. *)
Definition identity (r : FactoryReceipt) := (subject r, rc_work_item_id r).

Lemma subject_id r r' : subject r' = subject r → rc_id r' = rc_id r.
Proof. by intros [=]. Qed.
Lemma subject_slot r r' : subject r' = subject r → slot r' = slot r.
Proof. unfold subject. congruence. Qed.
Lemma identity_subject r r' : identity r' = identity r → subject r' = subject r.
Proof. unfold identity. congruence. Qed.
Lemma identity_item r r' : identity r' = identity r → rc_work_item_id r' = rc_work_item_id r.
Proof. unfold identity. congruence. Qed.
Lemma identity_id r r' : identity r' = identity r → rc_id r' = rc_id r.
Proof. intros ?%identity_subject. by apply subject_id. Qed.

Record rewritten (db : FDB) (row row' : FactoryReceipt) : Prop := mkRewritten
  { rw_identity : identity row' = identity row; rw_task : rc_task_id row' = rc_task_id row;
    rw_move : row_move db row row' }.

(** A task no receipt and no start has. *)
Definition unused (db : FDB) (t : string) : Prop :=
  (∀ r, r ∈ f_receipts db → rc_task_id r ≠ Some t) ∧ (∀ s, s ∈ f_starts db → ft_task_id s ≠ t).

(** A receipt enters execution, alone on its work, while the factory is enabled:
    a queued one under a fresh task, a delivered one under its own. *)
Record opens (db : FDB) (row row' : FactoryReceipt) : Prop := mkOpens
  { op_identity : identity row' = identity row;
    op_state : rc_state row' = "admitted"%string;
    op_enabled : ct_state (f_control db) = "enabled"%string;
    op_alone : ∀ r, r ∈ f_receipts db → is_active r = true → rc_id r ≠ rc_id row → same_work r row = false;
    op_from : (rc_state row = "queued"%string ∧ ∃ t, rc_task_id row' = Some t ∧ unused db t) ∨
              (rc_state row ∈ ["succeeded"; "landing"]%string ∧ rc_task_id row' = rc_task_id row) }.

(** A new receipt: queued, under a new key, linked to a known work item. *)
Record received (db : FDB) (row : FactoryReceipt) : Prop := mkReceived
  { re_id : rc_id row ∉ rc_id <$> f_receipts db; re_state : rc_state row = "queued"%string;
    re_task : rc_task_id row = None;
    re_slot : ∀ r, r ∈ f_receipts db → slot r ≠ slot row;
    re_item : ∀ i, rc_work_item_id row = Some i → i ∈ wi_id <$> f_items db }.

(** Receipts of one issue that named no work item are linked to a new one. *)
Definition adopt (repo : string) (number i : Z) (r : FactoryReceipt) : FactoryReceipt :=
  if adopts repo number (work_receipt r) then with_work_item (Some i) r else r.

(** Only tables other than the control row, receipts, starts and audits change,
    and no work item goes away. *)
Record aside (db db' : FDB) : Prop := mkAside
  { as_control : f_control db' = f_control db; as_receipts : f_receipts db' = f_receipts db;
    as_starts : f_starts db' = f_starts db; as_audits : f_audits db' = f_audits db;
    as_items : wi_id <$> f_items db ⊆ wi_id <$> f_items db' }.

(** The control row moves forward, and a stopped factory stays stopped. *)
Record control_le (c c' : FactoryControl) : Prop := mkControlLe
  { cl_version : ct_version c ≤ ct_version c';
    cl_stopped : ct_state c = "stopped"%string → ct_state c' = "stopped"%string }.

Definition RECOVERY_REQUEST : string := "landing_recovery_requested".
Definition CONTROL_REQUEST : string := "control_request".
(** Neither a recovery request nor the acknowledgement of an operator request. *)
Definition ordinary (action : string) : Prop := negb (str_in action [RECOVERY_REQUEST; CONTROL_REQUEST]) = true.
Inductive acknowledged (db : FDB) : FDB → Prop :=
| Acknowledged actor task detail : acknowledged db (_audit actor CONTROL_REQUEST task detail db).

Inductive wrote (db : FDB) : FDB → Prop :=
| WAudit actor action task detail :
    ordinary action → wrote db (_audit actor action task detail db)
| WRequest task actor detail :
    (length (recovery_requests db task) < MAX_LANDING_RECOVERIES)%nat →
    wrote db (_audit actor RECOVERY_REQUEST (Some task) detail db)
| WAside db' : aside db db' → wrote db db'
| WControl c : control_le (f_control db) c → wrote db (put_control c db)
| WRow row row' : row ∈ f_receipts db → rewritten db row row' → wrote db (put_receipt row' db)
| WRows f : (∀ row, row ∈ f_receipts db → rewritten db row (f row)) → wrote db (set_receipts (fmap f) db)
| WOpen row row' : row ∈ f_receipts db → opens db row row' → wrote db (put_receipt row' db)
| WReceive row : received db row → wrote db (set_receipts (λ l, l ++ [row]) db)
| WAdopt repo number i :
    i ∈ wi_id <$> f_items db → (∀ r, r ∈ f_receipts db → rc_work_item_id r ≠ Some i) →
    wrote db (set_receipts (fmap (adopt repo number i)) db).

#[export] Hint Constructors wrote : life.
Lemma wrote_refl db : rtc wrote db db.
Proof. done. Qed.
Lemma wrote_then a b c : rtc wrote a b → wrote b c → rtc wrote a c.
Proof. intros. by eapply rtc_r. Qed.
#[export] Hint Resolve wrote_refl wrote_then rtc_once : life.

(** The receipt keeps its identity, task and state. *)
Definition edited (row row' : FactoryReceipt) : Prop :=
  identity row' = identity row ∧ rc_task_id row' = rc_task_id row ∧ rc_state row' = rc_state row.
Lemma edited_id row row' : edited row row' → rc_id row' = rc_id row.
Proof. by intros [?%identity_id _]. Qed.
Lemma edited_trans a b c : edited a b → edited b c → edited a c.
Proof. intros (? & ? & ?) (? & ? & ?). split_and!; congruence. Qed.
Lemma edited_rewritten db row row' : edited row row' → rewritten db row row'.
Proof. intros (? & ? & ?). split; [done..|]. by constructor. Qed.

(** ** Reading back *)

Lemma audit_receipts actor action task detail db : f_receipts (_audit actor action task detail db) = f_receipts db.
Proof. unfold _audit. by repeat case_match. Qed.
Lemma audit_starts actor action task detail db : f_starts (_audit actor action task detail db) = f_starts db.
Proof. unfold _audit. by repeat case_match. Qed.
Lemma audit_control actor action task detail db : f_control (_audit actor action task detail db) = f_control db.
Proof. unfold _audit. by repeat case_match. Qed.
#[export] Hint Rewrite audit_receipts audit_starts audit_control : audit.

Lemma put_receipt_elem row row' db :
  row ∈ f_receipts db → rc_id row' = rc_id row → row' ∈ f_receipts (put_receipt row' db).
Proof. intros Hr E. simpl. apply list_elem_of_fmap. exists row. by rewrite E, Z.eqb_refl. Qed.

Lemma receipt_elem db t row : _receipt db t = Some row → row ∈ f_receipts db ∧ rc_task_id row = Some t.
Proof. by intros [? ?%bool_decide_eq_true]%find_first_Some. Qed.

Lemma find_id_in row (l : list FactoryReceipt) :
  row ∈ l → ∃ r, find_first (λ r, rc_id r =? rc_id row) l = Some r ∧ r ∈ l ∧ rc_id r = rc_id row.
Proof.
  intros Hr. destruct (find_first _ l) as [r|] eqn:E.
  - exists r. apply find_first_Some in E as [? ?%Z.eqb_eq]. done.
  - rewrite find_first_None in E. specialize (E row Hr). by rewrite Z.eqb_refl in E.
Qed.

(** The object of a receipt's key is the receipt. *)
Lemma refreshed_self row db :
  NoDup (rc_id <$> f_receipts db) → row ∈ f_receipts db → refreshed row db = row.
Proof.
  intros Hnd Hr. unfold refreshed. destruct (find_id_in row _ Hr) as (r & -> & Hin & E). simpl.
  by apply (key_unique rc_id row (f_receipts db)).
Qed.
Lemma refreshed_put row row' row0 db :
  rc_id row' = rc_id row → rc_id row0 = rc_id row → NoDup (rc_id <$> f_receipts db) → row ∈ f_receipts db →
  refreshed row0 (put_receipt row' db) = row'.
Proof.
  intros E' E0 Hnd Hr. assert (refreshed row0 (put_receipt row' db) = refreshed row' (put_receipt row' db)) as ->.
  { unfold refreshed. destruct (find_id_in row' (f_receipts (put_receipt row' db))) as (r & Hf & _).
    - by apply (put_receipt_elem row).
    - rewrite E', <-E0 in Hf. rewrite Hf. by rewrite E', <-E0, Hf. }
  apply refreshed_self; [|by apply (put_receipt_elem row)].
  simpl. rewrite E'. by rewrite fmap_replaced_ids.
Qed.

(** ** Releases *)

Lemma revoke_shape row actor reason db :
  revoke_capacity_release row actor reason db = db ∨
  ∃ row' au ac t d, edited row row' ∧ ordinary ac ∧ revoke_capacity_release row actor reason db = _audit au ac t d (put_receipt row' db).
Proof.
  unfold revoke_capacity_release. destruct (assoc_get _ _) as [[]|]; try (by left);
    right; do 5 eexists; (split; [|split; [|reflexivity]]); done.
Qed.

Lemma apply_shape `{Environ} row settling db applied db' :
  _apply_capacity_release row settling db = Ok (applied, db') →
  db' = db ∨ ∃ row' au ac t d, edited row row' ∧ ordinary ac ∧ db' = _audit au ac t d (put_receipt row' db).
Proof.
  unfold _apply_capacity_release. intros Ha. case_match eqn:Ht; [simplify_eq; by left|].
  destruct (dict_get PENDING_RELEASE (direction_of row)) as [| | | | | |intent|]; try done.
  apply res_bind_ok in Ha as (stale & _ & Ha). destruct stale as [reason|].
  { apply res_bind_ok in Ha as ([] & _ & Ha); simplify_eq. apply revoke_shape. }
  case_match; [simplify_eq; by left|].
  apply res_bind_ok in Ha as (available & Hav & Ha).
  destruct available; cbn [negb] in Ha; [|simplify_eq; by left].
  apply res_bind_ok in Ha as ([] & _ & Ha); simplify_eq. right. do 5 eexists. split; [|split; [|reflexivity]]; [done|]. by destruct settling.
Qed.

(** What a chain of edits of one receipt leaves: its object, still in the table. *)
Record chained (row : FactoryReceipt) (db db' : FDB) : Prop := mkChained
  { ch_wrote : rtc wrote db db';
    ch_row : ∃ row', refreshed row db' = row' ∧ row' ∈ f_receipts db' ∧ edited row row';
    ch_starts : f_starts db' = f_starts db;
    ch_ids : rc_id <$> f_receipts db' = rc_id <$> f_receipts db }.

Lemma chained_refl row db : NoDup (rc_id <$> f_receipts db) → row ∈ f_receipts db → chained row db db.
Proof. intros. split; [done| |done..]. exists row. by rewrite refreshed_self. Qed.

Lemma edit_chained row row' au ac t d db :
  NoDup (rc_id <$> f_receipts db) → row ∈ f_receipts db → edited row row' → ordinary ac →
  chained row db (_audit au ac t d (put_receipt row' db)).
Proof.
  intros Hnd Hr Hed Hac. split.
  - eapply rtc_l; [apply (WRow _ row row'); [done|by apply edited_rewritten]|]. apply rtc_once. by constructor.
  - exists row'. unfold refreshed. rewrite audit_receipts. pose proof (edited_id _ _ Hed) as E. split_and!; [|by apply (put_receipt_elem row)|done].
    by apply (refreshed_put row row' row).
  - by rewrite audit_starts.
  - rewrite audit_receipts. simpl. pose proof (edited_id _ _ Hed) as E. rewrite E. by rewrite fmap_replaced_ids.
Qed.

Lemma apply_chained `{Environ} row settling db applied db' :
  NoDup (rc_id <$> f_receipts db) → row ∈ f_receipts db →
  _apply_capacity_release row settling db = Ok (applied, db') → chained row db db'.
Proof.
  intros Hnd Hr [->|(row' & au & ac & t & d & Hed & Hac & ->)]%apply_shape; [by apply chained_refl|].
  by apply edit_chained.
Qed.

Lemma revoke_chained row actor reason db :
  NoDup (rc_id <$> f_receipts db) → row ∈ f_receipts db →
  chained row db (revoke_capacity_release row actor reason db).
Proof.
  intros Hnd Hr. destruct (revoke_shape row actor reason db) as [->|(row' & au & ac & t & d & Hed & Hac & ->)];
    [by apply chained_refl|]. by apply edit_chained.
Qed.

Lemma refreshed_id row row' db : rc_id row' = rc_id row → row' ∈ f_receipts db → refreshed row db = refreshed row' db.
Proof.
  intros E Hr. unfold refreshed. destruct (find_id_in row' _ Hr) as (r & Hf & _). by rewrite Hf, <-E, Hf.
Qed.

Lemma chained_trans row row' a b c :
  chained row a b → refreshed row b = row' → chained row' b c → chained row a c.
Proof.
  intros [Hw (r & Er & Hin & He) Hs Hi] <- [Hw' (r' & Er' & Hin' & He') Hs' Hi'].
  rewrite Er in *. split; [by etrans| |congruence..].
  pose proof (edited_id _ _ He) as E1. pose proof (edited_id _ _ He') as E1'. exists r'. split_and!; [|done|].
  - rewrite <-Er'. assert (rc_id r' = rc_id row) as E by congruence.
    rewrite (refreshed_id row r' c), (refreshed_id r r' c); [done|congruence|done|done|done].
  - by apply (edited_trans _ r).
Qed.

Lemma put_chained row row' db :
  NoDup (rc_id <$> f_receipts db) → row ∈ f_receipts db → edited row row' → chained row db (put_receipt row' db).
Proof.
  intros Hnd Hr Hed. split.
  - apply rtc_once, (WRow _ row row'); [done|by apply edited_rewritten].
  - exists row'. pose proof (edited_id _ _ Hed) as E. split_and!; [|by apply (put_receipt_elem row)|done].
    by apply (refreshed_put row row' row).
  - done.
  - simpl. pose proof (edited_id _ _ Hed) as E. rewrite E. by rewrite fmap_replaced_ids.
Qed.

Lemma request_chained `{Environ, IsoFormat} row actor resume hold r db db' :
  NoDup (rc_id <$> f_receipts db) → row ∈ f_receipts db →
  request_capacity_release row actor resume hold db = Ok (r, db') → chained row db db'.
Proof.
  intros Hnd Hr. unfold request_capacity_release. destruct (_capacity_release_refusal db row) as [reason|].
  { intros [= _ <-]. by apply chained_refl. }
  intros Hq. apply res_bind_ok in Hq as (intent & _ & Hq).
  match type of Hq with context [put_receipt ?row1 db] => set (row' := row1) in Hq end.
  apply res_bind_ok in Hq as ([applied db1] & Ha & Hq). cbn beta iota in Hq. simplify_eq.
  assert (edited row row') as Hed by done.
  pose proof (put_chained row row' db Hnd Hr Hed) as Hch.
  apply (chained_trans row row' _ (put_receipt row' db)); [done| |].
  - by apply (refreshed_put row row' row).
  - eapply apply_chained; [|by apply (put_receipt_elem row)|done]. by rewrite (ch_ids _ _ _ Hch).
Qed.

Lemma same_switch_le c c' : ct_state c' = ct_state c → ct_version c ≤ ct_version c' → control_le c c'.
Proof. intros E ?. split; [done|]. by rewrite E. Qed.

Lemma open_le c c' : ct_state c ≠ "stopped"%string → ct_version c ≤ ct_version c' → control_le c c'.
Proof. intros E ?. by split. Qed.

Lemma retry_wrote `{Environ} ids n m db db' :
  NoDup (rc_id <$> f_receipts db) → retry_loop ids n db = Ok (m, db') → rtc wrote db db'.
Proof.
  revert n db. induction ids as [|id ids IH]; intros n db Hnd Hl; simpl in Hl; [by simplify_eq|].
  destruct (find_first _ _) as [row|] eqn:Hf; [|by eapply IH]. apply find_first_Some in Hf as [Hr _].
  apply res_bind_ok in Hl as ([applied db1] & Ha & Hl). cbn beta iota in Hl.
  apply apply_chained in Ha as [Hw _ _ Hids]; [|done..]. etrans; [exact Hw|].
  destruct applied.
  - match type of Hl with context [put_control ?c db1] =>
      eapply rtc_l; [apply (WControl _ c), same_switch_le; simpl; [done|lia]|] end. eapply IH; [|exact Hl]. simpl. by rewrite Hids.
  - eapply IH; [|exact Hl]. by rewrite Hids.
Qed.

(** ** Settling *)

Lemma first_answer_None {A} (checks : list (res (option A))) :
  first_answer checks = Ok None → Forall (λ c, c = Ok None) checks.
Proof.
  induction checks as [|c checks IH]; [by constructor|]. simpl. intros Hq.
  apply res_bind_ok in Hq as ([x|] & Hc & Hq); [done|]. constructor; [done|]. by apply IH.
Qed.

Lemma first_answer_Some {A} (checks : list (res (option A))) x :
  first_answer checks = Ok (Some x) → Ok (Some x) ∈ checks.
Proof.
  induction checks as [|c checks IH]; [done|]. simpl. intros Hq.
  apply res_bind_ok in Hq as ([y|] & Hc & Hq); simplify_eq; [by left|]. right. by apply IH.
Qed.

Lemma refuse_None b why : refuse_if b why = Ok None → b = false.
Proof. unfold refuse_if. by destruct b. Qed.

Lemma has_unresolved_spec db t : has_unresolved db t = true ↔ unresolved_in db t.
Proof.
  unfold has_unresolved, unresolved_in. rewrite negb_true_iff, Z.eqb_neq.
  unfold _accounting. rewrite unresolved_count. cbn [ac_unresolved_starts]. rewrite Z.add_0_l.
  assert (count_of unresolved (_starts db t) ≠ 0 ↔ 0 < count_of unresolved (_starts db t)) as ->.
  { unfold count_of. lia. }
  rewrite count_of_pos. unfold _starts. setoid_rewrite list_elem_of_filter. naive_solver.
Qed.

Lemma has_unresolved_false db t : has_unresolved db t = false → ¬ unresolved_in db t.
Proof. intros E Hu%has_unresolved_spec. congruence. Qed.

Section finish.
Context `{Environ, IsoFormat, Rendering}.

(** Everything that held when an outcome was accepted. *)
Record accepted (db : FDB) (row : FactoryReceipt) (t outcome : string) (ev : option dict) (trigger : option string)
    : Prop := mkAccepted
  { ac_paused : paused_check db row t trigger = Ok None;
    ac_review_only : succeeding outcome && review_recovery_held db t = false;
    ac_task_paused : succeeding outcome && rc_task_paused row && negb (ev_state ev "merged_reviewed") = false;
    ac_merged : merged_check db row t ev = Ok None;
    ac_verified : rc_task_paused row && succeeding outcome && negb (merge_verified db row t ev) = false;
    ac_open : rc_state row ∉ _SETTLED;
    ac_cancellation : cancellation_check db row outcome ev = Ok None;
    ac_quiescent : outcome = "cancelled"%string → _quiescence_refusal db t = None;
    ac_landing : landing_check db row t outcome ev = Ok None;
    ac_recovery : recovery_check db t outcome ev = Ok None;
    ac_resolved : outcome ≠ "uncertain"%string → ¬ unresolved_in db t }.

Lemma checks_accepted db row t outcome ev trigger :
  first_answer (finish_checks db row t outcome ev trigger) = Ok None → accepted db row t outcome ev trigger.
Proof using.
  intros Hc%first_answer_None. unfold finish_checks in Hc. rewrite !Forall_cons in Hc.
  destruct Hc as (C1 & C2%refuse_None & C3%refuse_None & C4 & C5%refuse_None & C6 & C7 & C8 & C9 & C10 & C11%refuse_None & _).
  split; try done.
  - unfold settled_check in C6. destruct (str_in _ _) eqn:E; [done|]. by apply bool_decide_eq_false in E.
  - intros ->. unfold cancelling in C8. rewrite bool_decide_eq_true_2 in C8 by done.
    unfold refuse_for in C8. by destruct (_quiescence_refusal db t).
  - intros Hn. apply andb_false_iff in C11 as [C11|C11]; [|by apply has_unresolved_false].
    apply negb_false_iff, bool_decide_eq_true in C11. done.
Qed.

(** [finish_task] refuses, replays or reports without a write, or accepts. *)
Inductive finished (db : FDB) (t outcome : string) (a : string) (ev : option dict) (trigger : option string)
    : FinishResult → FDB → Prop :=
| FinAnswer r : (∀ s, r = FinishState s → s = "landing"%string) → finished db t outcome a ev trigger r db
| FinDelivered row db' :
    _receipt db t = Some row → accepted db row t outcome ev trigger → delivers db row outcome ev = true →
    finish_write row t "landing" "delivery_ready" a ev db = Ok (FinishState "landing", db') →
    finished db t outcome a ev trigger (FinishState "landing") db'
| FinSettled row db' :
    _receipt db t = Some row → accepted db row t outcome ev trigger → delivers db row outcome ev = false →
    finish_write row t outcome "finish_task" a ev db = Ok (FinishState outcome, db') →
    finished db t outcome a ev trigger (FinishState outcome) db'.

Lemma finish_write_state row t outcome action a ev db r db' :
  finish_write row t outcome action a ev db = Ok (r, db') → r = FinishState outcome.
Proof using.
  unfold finish_write. intros Hq. repeat (apply res_bind_ok in Hq as (? & _ & Hq)). by simplify_eq.
Qed.

(** Only a landing delivery that waits for its rollout is reported unchanged. *)
Lemma checks_answer db row t outcome ev trigger s :
  first_answer (finish_checks db row t outcome ev trigger) = Ok (Some (FinishState s)) → s = "landing"%string.
Proof using.
  intros Hq%first_answer_Some. unfold finish_checks in Hq.
  assert (∀ b why, refuse_if b why ≠ Ok (Some (FinishState s))) as Hno by (intros [] why; done).
  assert (∀ o, refuse_for o ≠ Ok (Some (FinishState s))) as Hno' by (by intros []).
  repeat (apply elem_of_cons in Hq as [Hq|Hq]); try (by edestruct Hno); [..|by apply elem_of_nil in Hq]; symmetry in Hq.
  - unfold paused_check in Hq. destruct trigger; [|done]. apply res_bind_ok in Hq as (p' & _ & Hq).
    repeat case_match; done.
  - unfold merged_check in Hq. repeat case_match; try done. by edestruct Hno'.
  - unfold settled_check in Hq. repeat case_match; done.
  - unfold cancellation_check in Hq. apply res_bind_ok in Hq as (c & _ & Hq). repeat case_match; done.
  - case_match; [by edestruct Hno'|done].
  - unfold landing_check in Hq. repeat case_match; simplify_eq; done.
  - unfold recovery_check in Hq. case_match; [done|]. apply res_bind_ok in Hq as ([barrier|] & _ & Hq); [|done].
    apply res_bind_ok in Hq as ([deadline|] & _ & Hq); [|done]. apply res_bind_ok in Hq as (reviewed & _ & Hq).
    by edestruct Hno.
Qed.

Lemma finish_inv t outcome actor evidence trigger db r db' :
  finish_task t outcome actor evidence trigger db = Ok (r, db') → ∃ a ev,
    actor = PStr a ∧ outcome ∈ _SETTLED ++ ["uncertain"%string] ∧ check_evidence evidence = Ok ev ∧
    finished db t outcome a ev trigger r db'.
Proof using.
  unfold finish_task. intros Hq.
  apply res_bind_ok in Hq as (a & [-> _]%text_ok_iff & Hq).
  apply res_bind_ok in Hq as ([] & Ho%require_ok%bool_decide_eq_true & Hq).
  apply res_bind_ok in Hq as ([] & _ & Hq). apply res_bind_ok in Hq as (ev & Hev & Hq).
  exists a, ev. do 3 (split; [done|]).
  destruct (_receipt db t) as [row|] eqn:Hrow; [|simplify_eq; by constructor].
  apply res_bind_ok in Hq as ([x|] & Hc & Hq).
  { simplify_eq. constructor. intros s ->. by eapply checks_answer. }
  apply checks_accepted in Hc. destruct (delivers db row outcome ev) eqn:Hd.
  - pose proof (finish_write_state _ _ _ _ _ _ _ _ _ Hq) as ->. by eapply FinDelivered.
  - pose proof (finish_write_state _ _ _ _ _ _ _ _ _ Hq) as ->. by eapply FinSettled.
Qed.
End finish.

Lemma edit_task_wrote t f db db' : edit_task t f db = Ok db' → wrote db db'.
Proof. unfold edit_task. destruct (find_task db t); [|done]. intros [= <-]. by apply WAside. Qed.

(** The tables a task edit leaves alone. *)
Lemma edit_task_frame t f db db' :
  edit_task t f db = Ok db' → f_receipts db' = f_receipts db ∧ f_starts db' = f_starts db ∧ f_audits db' = f_audits db.
Proof. unfold edit_task. destruct (find_task db t); [|done]. by intros [= <-]. Qed.

(** A row write that may change the state, between edits that do not. *)
Lemma finish_write_wrote `{Environ} row t outcome action a ev db r db' :
  NoDup (rc_id <$> f_receipts db) → row ∈ f_receipts db →
  (∀ db1 row1 now, f_starts db1 = f_starts db → edited row row1 → row_move db1 row1 (with_state outcome now row1)) →
  ordinary action → finish_write row t outcome action a ev db = Ok (r, db') → rtc wrote db db'.
Proof.
  intros Hnd Hr Hmove Hord. unfold finish_write. intros Hq.
  apply res_bind_ok in Hq as (db1 & Hrel & Hq).
  assert (chained row db db1) as [Hw (row1 & Er & Hin & Hed) Hs Hids].
  { clear Hq. case_match; [|simplify_eq; by apply chained_refl].
    apply res_bind_ok in Hrel as ([applied db0] & Ha & Hrel). cbn beta iota in Hrel. simplify_eq.
    by eapply apply_chained. }
  rewrite Er in Hq. set (row2 := with_state outcome (f_now db1) row1) in Hq.
  assert (wrote db1 (put_receipt row2 db1)) as Hput.
  { apply (WRow _ row1); [done|]. split; [done..|]. by apply Hmove. }
  assert (row2 ∈ f_receipts (put_receipt row2 db1)) as Hin2 by (by apply (put_receipt_elem row1)).
  assert (NoDup (rc_id <$> f_receipts (put_receipt row2 db1))) as Hnd2.
  { simpl. change (rc_id row2) with (rc_id row1). rewrite fmap_replaced_ids by done. by rewrite Hids. }
  apply res_bind_ok in Hq as (db3 & H3 & Hq). apply res_bind_ok in Hq as (db4 & H4 & Hq). simplify_eq.
  etrans; [exact Hw|]. eapply rtc_l; [exact Hput|]. eapply wrote_then; [|by constructor].
  match type of H3 with (if _ then edit_task _ _ ?db2 else _) = _ => assert (rtc wrote (put_receipt row2 db1) db2) as H2 end.
  { clear H3 H4. destruct (negb (str_in outcome _ACTIVE)); [|done]. by apply revoke_chained. }
  etrans; [exact H2|]. transitivity db3.
  - clear H4. destruct (bool_decide (outcome = "landing"%string)); [by eapply rtc_once, edit_task_wrote|by simplify_eq].
  - clear H3. destruct (str_in outcome _SETTLED); [by eapply rtc_once, edit_task_wrote|by simplify_eq].
Qed.

(** The states the table admits. *)
Definition RECEIPT_STATES : list string :=
  ["queued"; "admitted"; "uncertain"; "landing"; "escalated"; "succeeded"; "failed"; "cancelled"].

Lemma finish_wrote `{Environ, IsoFormat, Rendering} t outcome actor evidence trigger db r db' :
  NoDup (rc_id <$> f_receipts db) → (∀ row, row ∈ f_receipts db → rc_state row ∈ RECEIPT_STATES) →
  (∀ row, row ∈ f_receipts db → rc_state row = "queued"%string → rc_task_id row = None) →
  finish_task t outcome actor evidence trigger db = Ok (r, db') → rtc wrote db db'.
Proof.
  intros Hnd Hstates Hqueued (a & ev & -> & Ho & _ & Hfin)%finish_inv.
  assert (∀ row, _receipt db t = Some row → rc_state row ∉ _SETTLED →
            is_active row = true ∨ rc_state row = "landing"%string) as Hlive.
  { intros row [Hin Ht]%receipt_elem Hn. specialize (Hstates row Hin). pose proof (Hqueued row Hin) as Hq.
    unfold RECEIPT_STATES, _SETTLED, is_active, str_in in *. rewrite bool_decide_eq_true. unfold _ACTIVE.
    set_solver. }
  destruct Hfin as [r|row db' Hrow [] Hd Hw|row db' Hrow [] Hd Hw]; [done|..].
  - pose proof (receipt_elem _ _ _ Hrow) as [Hin Htask].
    unfold delivers, succeeding in Hd. repeat (apply andb_prop in Hd as [Hd ?]).
    destruct (Hlive row Hrow ac_open0) as [Hact|E].
    2: { rewrite E in *. done. }
    eapply finish_write_wrote; [done|done| | |exact Hw]; [|done]. intros db1 row1 now Es (_ & Et & Est).
    apply MoveEnd; [by unfold is_active; rewrite Est|simpl; set_solver|].
    intros t' Ht'. assert (t' = t) as -> by congruence. unfold unresolved_in. rewrite Es. apply ac_resolved0.
    apply bool_decide_eq_true in Hd. by rewrite Hd.
  - pose proof (receipt_elem _ _ _ Hrow) as [Hin Htask].
    eapply finish_write_wrote; [done|done| | |exact Hw]; [|done]. intros db1 row1 now Es (_ & Et & Est).
    destruct (Hlive row Hrow ac_open0) as [Hact|E].
    + destruct (decide (outcome = "uncertain"%string)) as [->|Hu].
      { apply MoveHold; [by unfold is_active; rewrite Est|done]. }
      apply MoveEnd; [by unfold is_active; rewrite Est|simpl; set_solver|].
      intros t' Ht'. assert (t' = t) as -> by congruence. unfold unresolved_in. rewrite Es. by apply ac_resolved0.
    + apply MoveLand; [congruence|]. simpl. unfold landing_check in ac_landing0.
      rewrite (bool_decide_eq_true_2 _ E) in ac_landing0. cbn [andb] in ac_landing0. rewrite negb_involutive in ac_landing0.
      unfold handed_off, cancelling in ac_landing0.
      destruct (decide (outcome = "cancelled"%string)) as [->|Hc]; [set_solver|].
      rewrite (bool_decide_eq_false_2 _ Hc) in ac_landing0. cbn [andb] in ac_landing0.
      case_match; [|done]. destruct (succeeding outcome) eqn:Hsu; [|done].
      apply bool_decide_eq_true in Hsu. set_solver.
Qed.

(** ** Operators *)

Lemma handoff_wrote t actor observed db r db' :
  human_handoff t actor observed db = Ok (r, db') → rtc wrote db db'.
Proof.
  unfold human_handoff. destruct (_receipt db t) as [row|] eqn:Hrow; [|by intros [= _ <-]].
  repeat (case_match; [by intros [= _ <-]|]). intros [= _ <-]. apply receipt_elem in Hrow as [Hin _].
  eapply rtc_l; [|apply rtc_once; by constructor]. apply (WRow _ row); [done|]. by apply edited_rewritten.
Qed.

Section retire.
Context `{IsoFormat, Rendering}.

Lemma retire_wrote row generation actor db :
  row ∈ f_receipts db → rtc wrote db (_retire_generation_candidate row generation actor db).
Proof using.
  intros Hr. eapply rtc_l; [|apply rtc_once; by constructor]. apply (WRow _ row); [done|]. split; [done..|].
  simpl. destruct (retirable row) eqn:E; [|by apply MoveSame]. apply MoveRetire; [|done].
  by apply bool_decide_eq_true in E.
Qed.

Lemma retire_keeps row generation actor r db :
  r ∈ f_receipts db → rc_id r ≠ rc_id row → r ∈ f_receipts (_retire_generation_candidate row generation actor db).
Proof using.
  intros Hr Hne. unfold _retire_generation_candidate. rewrite audit_receipts. simpl. apply list_elem_of_fmap.
  exists r. by rewrite (proj2 (Z.eqb_neq _ _)).
Qed.

Lemma retire_all_wrote rows generation actor db :
  NoDup (rc_id <$> rows) → (∀ r, r ∈ rows → r ∈ f_receipts db) →
  rtc wrote db (retire_all rows generation actor db).
Proof using.
  revert db. induction rows as [|row rows IH]; intros db Hnd Hin; [done|]. csimpl in Hnd.
  apply NoDup_cons in Hnd as [Hx Hnd]. unfold retire_all. simpl. etrans; [apply (retire_wrote row); set_solver|].
  apply IH; [done|]. intros r Hr. apply retire_keeps; [set_solver|]. intros E. apply Hx. rewrite <-E.
  by apply list_elem_of_fmap_2.
Qed.

Lemma reconcile_wrote rows generation actor limit n counts counts' db db' :
  NoDup (rc_id <$> rows) → (∀ r, r ∈ rows → r ∈ f_receipts db) →
  reconcile_loop rows generation actor limit n counts db = Ok (counts', db') → rtc wrote db db'.
Proof using.
  revert n counts db. induction rows as [|row rows IH]; intros n counts db Hnd Hin Hq; simpl in Hq; [by simplify_eq|].
  csimpl in Hnd. apply NoDup_cons in Hnd as [Hx Hnd].
  case_match; [by simplify_eq|]. apply res_bind_ok in Hq as ([] & _ & Hq); [apply IH in Hq; set_solver|].
  etrans; [apply (retire_wrote row generation actor); set_solver|]. eapply IH; [done| |exact Hq].
  intros r Hr. apply retire_keeps; [set_solver|]. intros E. apply Hx. rewrite <-E. by apply list_elem_of_fmap_2.
Qed.

Lemma candidates_in db generation :
  NoDup (rc_id <$> f_receipts db) →
  NoDup (rc_id <$> _generation_retirement_candidates db generation) ∧
  ∀ r, r ∈ _generation_retirement_candidates db generation → r ∈ f_receipts db.
Proof using.
  intros Hnd. split; [|by intros r [_ ?]%list_elem_of_filter].
  unfold _generation_retirement_candidates. eapply sublist_NoDup; [exact Hnd|]. apply fmap_sublist, sublist_filter.
Qed.

Lemma configure_wrote configured actor db e db' :
  NoDup (rc_id <$> f_receipts db) → configure configured actor db = Ok (e, db') → rtc wrote db db'.
Proof using.
  intros Hnd. unfold configure. intros Hq.
  apply res_bind_ok in Hq as (gen & _ & Hq). apply res_bind_ok in Hq as (g & _ & Hq).
  apply res_bind_ok in Hq as ([] & _ & Hq); [by simplify_eq|].
  apply res_bind_ok in Hq as (before & _ & Hq). apply res_bind_ok in Hq as ([|] & _ & Hq); [|by simplify_eq].
  apply res_bind_ok in Hq as (db1 & Hre & Hq). simplify_eq.
  set (rows := if _ : bool then _ else _) in Hre. transitivity (retire_all rows g actor db).
  { unfold rows. case_match; [|done]. destruct (candidates_in db g Hnd). by apply retire_all_wrote. }
  eapply rtc_l; [by apply (WControl _ (with_policy configured (f_control (retire_all rows g actor db)))), same_switch_le|].
  unfold reset_refill in Hre. case_match; [by simplify_eq|].
  apply res_bind_ok in Hre as (? & _ & Hre). apply res_bind_ok in Hre as (? & _ & Hre). simplify_eq.
  apply rtc_once. by constructor.
Qed.
End retire.

Lemma stale_wrote `{IsoFormat, Rendering} actor limit db r db' :
  NoDup (rc_id <$> f_receipts db) →
  reconcile_generation_stale_receipts actor limit db = Ok (r, db') → rtc wrote db db'.
Proof.
  intros Hnd. unfold reconcile_generation_stale_receipts. intros Hq. apply res_bind_ok in Hq as (? & _ & Hq).
  destruct (dict_get _ _); try by simplify_eq. destruct (candidates_in db z Hnd). by eapply reconcile_wrote.
Qed.

Lemma switch_wrote action repo db e db' : switch_repo action repo db = Ok (e, db') → rtc wrote db db'.
Proof.
  unfold switch_repo. intros Hq. apply res_bind_ok in Hq as (slug & _ & Hq).
  destruct (ct_policy_json _); [by simplify_eq|]. apply res_bind_ok in Hq as (v & _ & Hq).
  apply res_bind_ok in Hq as (repos & _ & Hq). destruct (assoc_get slug repos); [|by simplify_eq].
  apply res_bind_ok in Hq as (entry & _ & Hq). destruct (default _ _). apply res_bind_ok in Hq as (p' & _ & Hq).
  simplify_eq. by apply rtc_once, WControl, same_switch_le.
Qed.

Lemma cancel_wrote t reason db e db' : cancel_task t reason db = Ok (e, db') → rtc wrote db db'.
Proof.
  unfold cancel_task. destruct (_receipt db t) as [row|] eqn:Hrow; [|by intros [= _ <-]].
  repeat (case_match; [by intros [= _ <-]|]). intros [= _ <-]. apply receipt_elem in Hrow as [Hin _].
  apply rtc_once, (WRow _ row); [done|]. by apply edited_rewritten.
Qed.

Lemma pause_wrote `{Environ, IsoFormat} t actor pausing db e db' :
  NoDup (rc_id <$> f_receipts db) → pause_or_resume t actor pausing db = Ok (e, db') → rtc wrote db db'.
Proof.
  intros Hnd. unfold pause_or_resume. destruct (_receipt db t) as [row|] eqn:Hrow; [|by intros [= _ <-]].
  repeat (case_match; [by intros [= _ <-]|]). apply receipt_elem in Hrow as [Hin _]. destruct pausing.
  - intros [= _ <-]. set (row1 := with_paused true (f_now db) row).
    assert (chained row db (put_receipt row1 db)) as Hc by (by apply put_chained).
    etrans; [exact (ch_wrote _ _ _ Hc)|]. apply revoke_chained; [by rewrite (ch_ids _ _ _ Hc)|].
    by apply (put_receipt_elem row).
  - intros Hq. apply res_bind_ok in Hq as ([release db1] & Hrel & Hq). cbn beta iota in Hq. simplify_eq.
    apply request_chained in Hrel as [Hw (row1 & -> & Hin1 & _) _ _]; [|done..]. eapply wrote_then; [exact Hw|].
    apply (WRow _ row1); [done|]. by apply edited_rewritten.
Qed.

Lemma stop_wrote db : rtc wrote db (stop db).
Proof.
  unfold stop. eapply rtc_l; [by apply (WControl _ (with_stop (f_now db) (f_control db)))|]. apply rtc_once.
  apply (WRows (put_control _ db) (stop_receipt (f_now db))).
  intros row _. unfold stop_receipt. destruct (is_active row) eqn:E; [by apply edited_rewritten|].
  case_bool_decide as Es; [|by apply edited_rewritten]. split; [done..|]. apply MoveRetire; [|done].
  rewrite Es. set_solver.
Qed.

Lemma apply_action_wrote `{Environ, IsoFormat, Rendering} action actor configured t reason repo numbers db e db' :
  NoDup (rc_id <$> f_receipts db) →
  apply_action action actor configured t reason repo numbers db = Ok (e, db') → rtc wrote db db'.
Proof.
  intros Hnd Hq.
  destruct (decide (ct_state (f_control db) = "stopped"%string)) as [Es|Es].
  { unfold apply_action in Hq. rewrite (bool_decide_eq_true_2 _ Es) in Hq.
    destruct (decide (action = "stop"%string)) as [->|Ha].
    - assert (Ok (effect None, stop db) = Ok (e, db')) as [= _ <-] by exact Hq. apply stop_wrote.
    - unfold is_act in Hq at 1. rewrite (bool_decide_eq_false_2 _ Ha) in Hq. cbn [andb negb] in Hq. by simplify_eq. }
  unfold apply_action in Hq. rewrite (bool_decide_eq_false_2 _ Es) in Hq. cbn [andb] in Hq.
  repeat (match type of Hq with (if ?b then _ else _) = _ => destruct b end;
          [first [by simplify_eq
                 |(destruct configured; [|done]); by eapply configure_wrote
                 |by eapply switch_wrote | by eapply cancel_wrote | by eapply pause_wrote
                 |apply res_bind_ok in Hq as (p' & _ & Hq); simplify_eq; by apply rtc_once, WControl, open_le
                 |destruct (ct_policy_json _); simplify_eq; [done|by apply rtc_once, WControl, open_le]
                 |simplify_eq; by apply rtc_once, WControl, open_le
                 |simplify_eq; apply stop_wrote]|]).
  by simplify_eq.
Qed.

Lemma rearm_wrote t actor reason db db' : rearm_progress t actor reason db = Ok db' → rtc wrote db db'.
Proof.
  unfold rearm_progress. destruct (latest _ _ _); [|by intros [= <-]]. case_match; [by intros [= <-]|].
  destruct (_receipt db t); [|done]. intros Hq. repeat (apply res_bind_ok in Hq as (? & _ & Hq)). simplify_eq.
  apply rtc_once. by constructor.
Qed.

Lemma control_ordinary action : str_in action CONTROL_ACTIONS = true → ordinary action.
Proof.
  intros Hin%bool_decide_eq_true. unfold ordinary. apply negb_true_iff, bool_decide_eq_false.
  intros [->|[->|[]%elem_of_nil]%elem_of_cons]%elem_of_cons; revert Hin; by apply (bool_decide_unpack _).
Qed.

Lemma control_wrote `{Environ, IsoFormat, Rendering} action actor policy t reason repo numbers own db r db' :
  NoDup (rc_id <$> f_receipts db) →
  control_or_delegate action actor policy t reason repo numbers own db = Ok (r, db') → rtc wrote db db'.
Proof.
  intros Hnd. unfold control_or_delegate. intros Hq.
  apply res_bind_ok in Hq as (a & _ & Hq). apply res_bind_ok in Hq as ([] & Hact%require_ok & Hq).
  do 6 (apply res_bind_ok in Hq as (? & _ & Hq)). case_match; [by simplify_eq|].
  apply res_bind_ok in Hq as (? & _ & Hq). apply res_bind_ok in Hq as ([e db1] & Ha & Hq). cbn beta iota in Hq.
  apply apply_action_wrote in Ha; [|done]. apply res_bind_ok in Hq as (db2 & Hre & Hq). simplify_eq.
  etrans; [exact Ha|].
  match type of Hre with (if _ then _ else Ok (_audit ?a ?b ?c ?d ?db3)) = _ =>
    transitivity (_audit a b c d db3); [transitivity db3; [|apply rtc_once; constructor; by apply control_ordinary]|] end.
  - clear Hre. destruct (negb (is_some (ef_reason e))); [|done]. apply rtc_once, WControl, same_switch_le; simpl; [done|lia].
  - match type of Hre with (if ?b then _ else _) = _ => destruct b end; [by eapply rearm_wrote|by simplify_eq].
Qed.

Lemma auto_merge_wrote desired actor db r db' : set_auto_merge desired actor db = Ok (r, db') → rtc wrote db db'.
Proof.
  unfold set_auto_merge. intros Hq. apply res_bind_ok in Hq as (reason & _ & Hq). simplify_eq.
  eapply wrote_then; [|by constructor]. case_match; [|done]. apply rtc_once, WControl, same_switch_le; simpl; [done|lia].
Qed.

Lemma cancel_receipt_wrote id actor db r db' :
  _cancel_queued_receipt id actor db = (r, db') → rtc wrote db db'.
Proof.
  unfold _cancel_queued_receipt. destruct (find_first _ _) as [row|] eqn:Hf; [|by intros [= _ <-]].
  apply find_first_Some in Hf as [Hin _]. case_match eqn:E; [by intros [= _ <-]|]. intros [= _ <-].
  eapply rtc_l; [|apply rtc_once; by constructor]. apply (WRow _ row); [done|]. split; [done..|].
  apply MoveRetire; [|done]. apply negb_false_iff, bool_decide_eq_true in E. rewrite E. set_solver.
Qed.

Lemma perform_wrote `{Environ, IsoFormat, Rendering} action actor t id reason db r db' :
  NoDup (rc_id <$> f_receipts db) → perform_request action actor t id reason db = Ok (r, db') → rtc wrote db db'.
Proof.
  intros Hnd. unfold perform_request. intros Hq. case_match; [by eapply auto_merge_wrote|].
  case_match; [simplify_eq; by eapply cancel_receipt_wrote|].
  apply res_bind_ok in Hq as ([[|answer] db1] & Hc & Hq); [done|]. cbn beta iota in Hq. simplify_eq.
  by eapply control_wrote.
Qed.

Lemma request_wrote `{Environ, IsoFormat, Rendering} action actor key version t id reason db r db' :
  NoDup (rc_id <$> f_receipts db) →
  request_control action actor key version t id reason db = Ok (r, db') →
  ∃ db1, rtc wrote db db1 ∧ (db' = db1 ∨ acknowledged db1 db').
Proof.
  intros Hnd. unfold request_control. intros Hq. do 4 (apply res_bind_ok in Hq as (? & _ & Hq)).
  apply res_bind_ok in Hq as ([[recorded result]|] & _ & Hq); [simplify_eq; eexists; split; [done|by left]|].
  apply res_bind_ok in Hq as ([result db1] & Hp & Hq). cbn beta iota in Hq. simplify_eq.
  exists db1. split; [|right; constructor]. case_match; [by simplify_eq|]. by eapply perform_wrote.
Qed.

(** ** Landing recovery *)

Lemma reopen_alone db row t reason :
  (∀ r r' t, r ∈ f_receipts db → r' ∈ f_receipts db → rc_task_id r = Some t → rc_task_id r' = Some t → rc_id r = rc_id r') →
  row ∈ f_receipts db → rc_task_id row = Some t → delivered row = true → reopen_check db row t reason = Ok None →
  ct_state (f_control db) = "enabled"%string ∧
  ∀ r, r ∈ f_receipts db → is_active r = true → rc_id r ≠ rc_id row → same_work r row = false.
Proof.
  intros Htasks Hrow Ht Hd. unfold reopen_check. rewrite Hd. cbn [negb]. intros Hq.
  apply res_bind_ok in Hq as (repair & _ & Hq).
  match type of Hq with (if ?b then _ else _) = _ => destruct b eqn:E end; [done|].
  apply orb_false_iff in E as [E%negb_false_iff%bool_decide_eq_true _]. split; [done|].
  match type of Hq with Ok (if ?b then _ else _) = _ => destruct b eqn:Eb end; [done|].
  intros r Hr Hact Hne. destruct (same_work r row) eqn:Hs; [|done]. exfalso.
  apply not_true_iff_false in Eb. apply Eb, existsb_exists. exists r. split.
  - apply list_elem_of_In, list_elem_of_filter. by split.
  - rewrite Hs. simpl. apply negb_true_iff, bool_decide_eq_false. intros Er. by apply Hne, (Htasks r row t).
Qed.

Lemma recovery_wrote `{Environ, IsoFormat} t pr head source actor reason db r db' :
  (∀ r r' t, r ∈ f_receipts db → r' ∈ f_receipts db → rc_task_id r = Some t → rc_task_id r' = Some t → rc_id r = rc_id r') →
  request_landing_recovery t pr head source actor reason db = Ok (r, db') → rtc wrote db db'.
Proof.
  intros Htasks. unfold request_landing_recovery. intros Hq. do 5 (apply res_bind_ok in Hq as (? & _ & Hq)).
  do 2 (case_match; [by simplify_eq|]). destruct (_receipt db t) as [row|] eqn:Hrow; [|by simplify_eq].
  apply receipt_elem in Hrow as [Hin Ht]. case_match; [by simplify_eq|].
  apply res_bind_ok in Hq as (replaying & _ & Hq). apply res_bind_ok in Hq as ([x'|] & Hck & Hq); [by simplify_eq|].
  assert (replaying = false → (length (recovery_requests db t) < MAX_LANDING_RECOVERIES)%nat) as Hlim.
  { intros ->. clear -Hck. apply first_answer_None in Hck. unfold recovery_checks in Hck. cbv zeta in Hck. rewrite !Forall_cons in Hck. destruct Hck as (_ & Hlim & _).
    simpl in Hlim. case_match eqn:E; [done|]. by apply Nat.leb_gt. }
  apply res_bind_ok in Hq as (available & _ & Hq).
  match type of Hq with context [negb (delivered row)] => destruct (delivered row) eqn:Hd end; cbn [negb] in Hq.
  2: { simplify_eq. destruct replaying; [done|by apply rtc_once, WRequest, Hlim]. }
  set (db1 := if replaying then db else _) in Hq.
  assert (rtc wrote db db1 ∧ f_receipts db1 = f_receipts db ∧ f_control db1 = f_control db) as (Hw & Er & Ec).
  { unfold db1. destruct replaying; [done|]. unfold record_recovery. rewrite audit_receipts, audit_control.
    split; [|done]. by apply rtc_once, WRequest, Hlim. }
  destruct available; cbn [negb] in Hq; [|by simplify_eq]. apply res_bind_ok in Hq as (db2 & Hre & Hq). simplify_eq.
  etrans; [exact Hw|]. unfold reopen in Hre. apply res_bind_ok in Hre as (deadline & _ & Hre).
  match type of Hre with edit_task _ _ (put_receipt ?row2 ?db3) = _ =>
    transitivity db3; [|eapply rtc_l; [apply (WOpen db3 row row2)|eapply rtc_once, edit_task_wrote; exact Hre]] end.
  - destruct replaying, deadline, (last (recovery_requests db1 t)); try done. apply rtc_once. by constructor.
  - destruct replaying, deadline, (last (recovery_requests db1 t)); rewrite ?audit_receipts; by rewrite Er.
  - assert (reopen_check db row t reason = Ok None) as Hck'.
    { apply first_answer_None in Hck. unfold recovery_checks in Hck. cbv zeta in Hck. rewrite !Forall_cons in Hck.
      by destruct Hck as (_ & _ & _ & _ & _ & _ & ? & _). }
    destruct (reopen_alone db row t reason Htasks Hin Ht Hd Hck') as [Hen Halone].
    match goal with |- opens ?d _ _ => assert (f_control d = f_control db ∧ f_receipts d = f_receipts db) as [Ec' Er'] end.
    { destruct replaying, deadline, (last (recovery_requests db1 t)); rewrite ?audit_control, ?audit_receipts; done. }
    split; [done|done|by rewrite Ec'|by rewrite Er'|]. right. split; [by apply bool_decide_eq_true in Hd|done].
Qed.
