(* ===== verification/IntakeFacts.v ===== *)
(** * Factory intake: what receiving and admitting write

    [receive_issue] and [admit_next] as sequences of the elementary writes of
    [LifeFacts]: work items are minted and adopted, a receipt is appended; one
    queued receipt, alone on its work, enters execution under a fresh task. *)

From Stdlib Require Import SpecFloat.
From stdpp Require Import prelude list strings relations.
From S2P Require Import Prelude PyValue GraphData GraphPlan WorkItems ModelPool PolicyData Policy PolicyFacts Controls Lanes LaneClaims Capacity CapacityClaims Starts StartFacts StartClaims Finish Operator Feedback FundingGrants Intake QueueOrder LifeFacts.
Local Open Scope Z_scope.

(** ** Minting *)

(** The item keys and the receipts stay. *)
Definition wframe (w w' : WDB) : Prop :=
  wi_id <$> w_items w' = wi_id <$> w_items w ∧ w_receipts w' = w_receipts w.
#[export] Instance wframe_preorder : PreOrder wframe.
Proof. split; [done|]. intros a b c [] []. split; congruence. Qed.

Lemma put_item_frame i w : wframe w (put_item i w).
Proof. split; [|done]. apply update_where_fmap. by intros x _ ?%Z.eqb_eq. Qed.
Lemma event_frame id op change by_ w : wframe w (_event id op change by_ w).
Proof. done. Qed.

Lemma transition_frame id s by_ cr w i w' : transition id s by_ cr w = Ok (i, w') → wframe w w'.
Proof.
  unfold transition. intros Hq. case_match; [done|]. apply res_bind_ok in Hq as (x & _ & Hq).
  apply res_bind_ok in Hq as (a & _ & Hq). do 3 (case_match; [done|]). simplify_eq. apply put_item_frame.
Qed.
Lemma transition_all_frame id path by_ w u w' : transition_all id path by_ w = Ok (u, w') → wframe w w'.
Proof.
  revert w. induction path as [|s path IH]; intros w; simpl; [by intros [= _ <-]|]. intros Hq.
  apply res_bind_ok in Hq as ([i w1] & H1%transition_frame & Hq%IH). by etrans.
Qed.
Lemma follow_frame item changed v w r w' : follow_labels item changed v w = Ok (r, w') → wframe w w'.
Proof.
  unfold follow_labels. intros Hq. do 2 (case_match; [by simplify_eq|]).
  apply res_bind_ok in Hq as ([path|] & _ & Hq); [|by simplify_eq].
  apply res_bind_ok in Hq as ([[] w1] & H1%transition_all_frame & Hq). by simplify_eq.
Qed.

Lemma locked_id w id i : _lock_item w id = Ok i → wi_id i = id ∧ id ∈ wi_id <$> w_items w.
Proof.
  unfold _lock_item, get_item. destruct (find_first _ _) as [j|] eqn:E; [|done]. intros [= ->].
  apply find_first_Some in E as [Hin <-%Z.eqb_eq]. split; [done|by apply list_elem_of_fmap_2].
Qed.

(** A synchronisation keeps keys and receipts; a mint appends an item under a
    new key and links the issue's unlinked receipts to it. *)
Inductive minted_or_synced (w : WDB) : option WorkItem → WDB → Prop :=
| MintNone w' : wframe w w' → minted_or_synced w None w'
| MintKept i w' : wframe w w' → wi_id i ∈ wi_id <$> w_items w → minted_or_synced w (Some i) w'
| MintNew repo number i w' :
    wi_id i = max_key wi_id (w_items w) + 1 → w_items w' = w_items w ++ [i] →
    w_receipts w' = update_where (adopts repo number)
      (λ r, WorkItems.mkReceipt (fr_id r) (fr_repo r) (fr_issue_number r) (Some (wi_id i))) (w_receipts w) →
    minted_or_synced w (Some i) w'.

Lemma locked_minted `{IsoFormat} repo issue item actor trusted w i out w' :
  (∀ x, item = Some x → wi_id x ∈ wi_id <$> w_items w) →
  _mint_or_sync_from_github_locked repo issue item actor trusted w = Ok ((i, out), w') →
  minted_or_synced w (Some i) w'.
Proof.
  intros Hitem. unfold _mint_or_sync_from_github_locked. intros Hq. apply res_bind_ok in Hq as (n & _ & Hq).
  destruct item as [x|].
  - specialize (Hitem x eq_refl). case_match; [simplify_eq; by apply MintKept|].
    apply res_bind_ok in Hq as (v & _ & Hq). apply res_bind_ok in Hq as ([[tr more] w1] & Hf%follow_frame & Hq).
    cbn beta iota zeta in Hq. apply res_bind_ok in Hq as (current & [Hc _]%locked_id & Hq).
    assert (wframe w w1) as Hw by (etrans; [apply put_item_frame|exact Hf]).
    destruct (field_changes x v ++ more); simplify_eq; apply MintKept; try (simpl; by rewrite Hc); [done|].
    etrans; [exact Hw|]. apply put_item_frame.
  - apply res_bind_ok in Hq as (v & _ & Hq). unfold mint in Hq. simplify_eq. by eapply MintNew.
Qed.

Lemma mint_minted `{IsoFormat, Rivals} repo issue actor w i out w' :
  mint_or_sync_from_github repo issue (mkSync actor [] false None false) w = Ok ((i, out), w') →
  minted_or_synced w i w'.
Proof.
  unfold mint_or_sync_from_github. intros Hq. case_match; [simplify_eq; by constructor|].
  apply res_bind_ok in Hq as (r & _ & Hq). apply res_bind_ok in Hq as (n & _ & Hq). simpl in Hq.
  assert (∀ x, find_github_item w r n = Some x → wi_id x ∈ wi_id <$> w_items w) as Hin.
  { intros x [? _]%find_first_Some. by apply list_elem_of_fmap_2. }
  match type of Hq with (if ?b then _ else _) = _ => destruct b eqn:Hl end.
  - injection Hq as <- _ <-. destruct (find_github_item w r n) as [x|]; [|done]. apply MintKept; [done|auto].
  - apply res_bind_ok in Hq as ([[i' out'] w1] & Hm & Hq). injection Hq as <- _ <-. by eapply locked_minted.
Qed.

Lemma adopted_subject w r : subject (adopted w r) = subject r.
Proof. unfold adopted. by case_match. Qed.

Lemma find_keyed {A} (key : A → Z) (g : FactoryReceipt → A) r l :
  (∀ x, key (g x) = rc_id x) → NoDup (rc_id <$> l) → r ∈ l → find_first (λ x, key x =? rc_id r) (g <$> l) = Some (g r).
Proof.
  intros Hg. induction l as [|x l IH]; [by intros _ ?%elem_of_nil|]. csimpl. intros [Hx Hnd]%NoDup_cons Hr.
  rewrite Hg. destruct (Z.eqb_spec (rc_id x) (rc_id r)) as [E|E].
  - apply elem_of_cons in Hr as [->|Hr]; [done|]. destruct Hx. rewrite E. by apply list_elem_of_fmap_2.
  - apply elem_of_cons in Hr as [->|Hr]; [done|]. by apply IH.
Qed.

Lemma with_work_item_same r : with_work_item (rc_work_item_id r) r = r.
Proof. by destruct r. Qed.

(** What the adoption of a mint means for the factory's rows. *)
Lemma adopted_new db repo number i w :
  w_receipts w = update_where (adopts repo number)
    (λ r, WorkItems.mkReceipt (fr_id r) (fr_repo r) (fr_issue_number r) (Some i)) (work_receipt <$> f_receipts db) →
  NoDup (rc_id <$> f_receipts db) → adopted w <$> f_receipts db = adopt repo number i <$> f_receipts db.
Proof.
  intros Ew Hnd. apply list_fmap_ext. intros k r Hr%list_elem_of_lookup_2. unfold adopted, adopt. rewrite Ew.
  unfold update_where. rewrite <-list_fmap_compose. rewrite find_keyed; [|intros x; simpl; by case_match|done..]. simpl.
  case_match; [done|]. apply with_work_item_same.
Qed.

Lemma adopted_same db w :
  w_receipts w = work_receipt <$> f_receipts db → NoDup (rc_id <$> f_receipts db) →
  adopted w <$> f_receipts db = f_receipts db.
Proof.
  intros Ew Hnd. rewrite <-(list_fmap_id (f_receipts db)) at 2. apply list_fmap_ext.
  intros k r Hr%list_elem_of_lookup_2. unfold adopted. rewrite Ew, find_keyed; [|done..]. apply with_work_item_same.
Qed.

(** A table without a key below the next one. *)
Lemma next_fresh {A} (key : A → Z) l : next_id key l ∉ key <$> l.
Proof. unfold next_id. intros (x & E & Hx)%list_elem_of_fmap. pose proof (max_key_ge key l x Hx). lia. Qed.

(** Minting, and the item the new receipt names. *)
Lemma mint_wrote `{IsoFormat, Rivals} repo issue actor db i db' :
  NoDup (rc_id <$> f_receipts db) →
  (∀ r i, r ∈ f_receipts db → rc_work_item_id r = Some i → i ∈ wi_id <$> f_items db) →
  mint_item repo issue actor db = (i, db') →
  rtc wrote db db' ∧ subject <$> f_receipts db' = subject <$> f_receipts db ∧
  (∀ x, i = Some x → x ∈ wi_id <$> f_items db').
Proof.
  intros Hnd Hfk. unfold mint_item. destruct (mint_or_sync_from_github _ _ _ _) as [[[j out] w]|] eqn:Hm; [|by intros [= <- <-]].
  intros [= <- <-]. apply mint_minted in Hm.
  assert (subject <$> f_receipts (set_work w db) = subject <$> f_receipts db) as Eids.
  { simpl. rewrite <-list_fmap_compose. apply list_fmap_ext. intros; apply adopted_subject. }
  assert (wframe (work_view db) w → wrote db (set_work w db)) as Hkeep.
  { intros [Ei Er]. apply WAside. split; try done; [by apply adopted_same|]. simpl in *. by rewrite Ei. }
  destruct Hm as [w Hf|j w Hf Hj|r n j w Ej Ei Er].
  - split_and!; [by apply rtc_once, Hkeep|done|done].
  - split_and!; [by apply rtc_once, Hkeep|done|]. intros x [= <-]. simpl. by rewrite (proj1 Hf).
  - split_and!; [|done|]; [|intros x [= <-]; simpl; rewrite Ei, fmap_app; set_solver].
    set (db1 := mkFDB (f_control db) (f_receipts db) (f_starts db) (f_audits db) (f_tasks db) (w_items w) (w_edges w)
      (f_versions db) (f_runs db) (w_events w) (w_issues w) (f_verdicts db) (f_tiers db) (f_now db)).
    apply (rtc_l _ _ db1); [apply WAside; split; try done; simpl; rewrite Ei, fmap_app; set_solver|].
    assert (set_work w db = set_receipts (fmap (adopt r n (wi_id j))) db1) as ->.
    { unfold set_work, set_receipts. simpl. by rewrite (adopted_new _ _ _ _ _ Er). }
    apply rtc_once, WAdopt; [simpl; rewrite Ei, fmap_app; set_solver|]. intros x Hx E. apply (Hfk x) in E; [|done].
    rewrite Ej in E. by apply (next_fresh wi_id (f_items db)).
Qed.

(** ** Receiving *)

Lemma wrote_ids db db' : wrote db db' → NoDup (rc_id <$> f_receipts db) → NoDup (rc_id <$> f_receipts db').
Proof.
  intros Hw Hnd.
  destruct Hw as [actor action task detail _|task actor detail _|db' Ha|c|row row' _ Hrw|f Hf|row row' _ Ho|row Hr|repo n i _ _];
    rewrite ?audit_receipts; try done.
  - by rewrite (as_receipts _ _ Ha).
  - simpl. rewrite (identity_id _ _ (rw_identity _ _ _ Hrw)), fmap_replaced_ids; [done|].
    by apply identity_id, (rw_identity _ _ _ Hrw).
  - simpl. rewrite <-list_fmap_compose.
    rewrite (list_fmap_ext (rc_id ∘ f) rc_id (f_receipts db)); [done|].
    intros k r Hr%list_elem_of_lookup_2. by apply identity_id, (rw_identity _ _ _ (Hf r Hr)).
  - simpl. rewrite (identity_id _ _ (op_identity _ _ _ Ho)), fmap_replaced_ids; [done|].
    by apply identity_id, (op_identity _ _ _ Ho).
  - simpl. rewrite fmap_app. apply NoDup_app. split_and!; [done| |apply NoDup_singleton].
    intros x Hx ->%list_elem_of_singleton. by apply (re_id _ _ Hr).
  - simpl. rewrite <-list_fmap_compose. rewrite (list_fmap_ext _ rc_id (f_receipts db)); [done|].
    intros k r _. unfold adopt, compose. by case_match.
Qed.
Lemma wrotes_ids db db' : rtc wrote db db' → NoDup (rc_id <$> f_receipts db) → NoDup (rc_id <$> f_receipts db').
Proof. induction 1 as [|a b c Hw _ IH]; [done|]. intros Hnd. by apply IH, (wrote_ids a). Qed.

Section receive.
Context `{Environ, IsoFormat, Rivals}.

(** A receipt of the same issue, generation and class is returned as it is;
    otherwise a work item is linked and a queued receipt appended. *)
Inductive receipt_taken (db : FDB) (repo task_class : string) (issue_number generation : Z) : ReceiveResult → FDB → Prop :=
| TakenBefore existing :
    find_first (received_before repo issue_number generation task_class) (f_receipts db) = Some existing →
    receipt_taken db repo task_class issue_number generation (Received false existing) db
| TakenNew i db1 row actor detail :
    find_first (received_before repo issue_number generation task_class) (f_receipts db) = None →
    rtc wrote db db1 → subject <$> f_receipts db1 = subject <$> f_receipts db →
    received db1 row → rc_work_item_id row = i → received_before repo issue_number generation task_class row = true →
    receipt_taken db repo task_class issue_number generation (Received true row)
      (_audit actor "receive_issue" None detail (set_receipts (λ l, l ++ [row]) db1)).

Lemma receive_inv repo issue_number title body url actor generation task_class issue work_item_id target db r db' :
  NoDup (rc_id <$> f_receipts db) →
  (∀ r i, r ∈ f_receipts db → rc_work_item_id r = Some i → i ∈ wi_id <$> f_items db) →
  receive_issue repo issue_number title body url actor generation task_class issue work_item_id target db = Ok (r, db') →
  ∃ slug n g class, normalize_repo repo = Ok slug ∧ issue_number = PInt n ∧ generation = PInt g ∧
    task_class = PStr class ∧ receipt_taken db slug class n g r db'.
Proof using.
  intros Hnd Hfk. unfold receive_issue. intros Hq.
  apply res_bind_ok in Hq as (slug & Hslug & Hq). apply res_bind_ok in Hq as (n & Hn & Hq).
  apply res_bind_ok in Hq as (g & Hg & Hq). apply res_bind_ok in Hq as (a & _ & Hq).
  apply res_bind_ok in Hq as (class & Hclass & Hq). do 4 (apply res_bind_ok in Hq as (? & _ & Hq)).
  exists slug, n, g, class. split; [done|].
  apply integer_ok in Hn as [-> _]. apply integer_ok in Hg as [-> _].
  assert (task_class = PStr class) as ->.
  { unfold validate_task_class in Hclass. destruct task_class as [| | | |c| | |]; try done.
    destruct (str_in c TASK_CLASSES); by simplify_eq. }
  do 3 (split; [done|]).
  destruct (find_first (received_before slug n g class) (f_receipts db)) as [existing|] eqn:Hf.
  { simplify_eq. by constructor. }
  destruct (automatic_history_exclusion _ _ _ _ _ _); [done|]. apply res_bind_ok in Hq as ([owner|] & _ & Hq); [done|].
  apply res_bind_ok in Hq as ([i db1] & Hl & Hq). cbn beta iota zeta in Hq. injection Hq as <- <-.
  assert (rtc wrote db db1 ∧ subject <$> f_receipts db1 = subject <$> f_receipts db ∧
          (∀ x, i = Some x → x ∈ wi_id <$> f_items db1)) as (Hw & Eids & Hi).
  { unfold link_item in Hl. apply res_bind_ok in Hl as (found & Hfound & Hl).
    destruct found as [it|]; [|destruct issue as [issue|]; injection Hl as Hl].
    - injection Hl as <- <-. split_and!; [done..|]. intros y [= <-].
      assert (it ∈ f_items db) as Hx; [|by apply list_elem_of_fmap_2]. destruct work_item_id as [id|].
      + injection Hfound as Hfound. by apply find_first_Some in Hfound as [? _].
      + assert (it ∈ issue_items db slug n) as Hx; [|by apply list_elem_of_filter in Hx as [_ ?]].
        destruct (issue_items db slug n) as [|y [|z l]]; simplify_eq; left.
    - by apply mint_wrote in Hl.
    - by simplify_eq. }
  eapply (TakenNew _ _ _ _ _ i db1); [done..| |done|].
  - split; [simpl; apply (next_fresh rc_id)|done|done| |done]. intros r Hr E.
    apply (list_elem_of_fmap_2 subject) in Hr. rewrite Eids in Hr. apply list_elem_of_fmap in Hr as (r0 & Es & Hr).
    rewrite find_first_None in Hf. specialize (Hf r0 Hr). apply subject_slot in Es. rewrite E in Es.
    unfold received_before in Hf. injection Es as E1 E2 E3 E4 E5.
    rewrite <-E1, <-E2, <-E3, <-E4, <-E5, !bool_decide_eq_true_2, !Z.eqb_refl in Hf by done. done.
  - unfold received_before, new_receipt. simpl. by rewrite !bool_decide_eq_true_2, !Z.eqb_refl by done.
Qed.

Lemma receive_wrote repo issue_number title body url actor generation task_class issue work_item_id target db r db' :
  NoDup (rc_id <$> f_receipts db) →
  (∀ r i, r ∈ f_receipts db → rc_work_item_id r = Some i → i ∈ wi_id <$> f_items db) →
  receive_issue repo issue_number title body url actor generation task_class issue work_item_id target db = Ok (r, db') →
  rtc wrote db db'.
Proof using.
  intros Hnd Hfk (slug & n & g & class & _ & _ & _ & _ & Ht)%receive_inv; [|done..].
  destruct Ht as [|i db1 row a detail _ Hw _ Hr _ _]; [done|].
  etrans; [exact Hw|]. eapply rtc_l; [by apply WReceive|]. apply rtc_once. by constructor.
Qed.
End receive.

(** ** Fences *)

(** The queue's scan changes receipts only by cancelling queued ones, and no
    other table it reads. *)
Definition scan_row (r r' : FactoryReceipt) : Prop :=
  r' = r ∨ rc_state r' = "cancelled"%string ∧ rc_id r' = rc_id r ∧ rc_routing_tier r' = rc_routing_tier r.
#[export] Instance scan_row_preorder : PreOrder scan_row.
Proof.
  split; [by left|]. intros a b c [->|(? & ? & ?)] [->|(? & ? & ?)]; [by left|by right..|].
  right. split_and!; [done|congruence..].
Qed.

Record scanned (db db' : FDB) : Prop := mkScanned
  { sn_wrote : rtc wrote db db';
    sn_scan : Forall2 scan_row (f_receipts db) (f_receipts db');
    sn_control : f_control db' = f_control db; sn_starts : f_starts db' = f_starts db;
    sn_items : f_items db' = f_items db; sn_edges : f_edges db' = f_edges db }.
#[export] Instance scanned_preorder : PreOrder scanned.
Proof.
  split; [by split; [|reflexivity|..]|]. intros a b c [] []. split; [by etrans|by transitivity (f_receipts b)|congruence..].
Qed.
Lemma sn_rows db db' r : scanned db db' → r ∈ f_receipts db' → r ∈ f_receipts db ∨ rc_state r = "cancelled"%string.
Proof.
  intros [_ Hs _ _ _ _] [k Hk]%list_elem_of_lookup_1. destruct (Forall2_lookup_r _ _ _ _ _ Hs Hk) as (x & Hx & [->|[? _]]); [|by right].
  left. by eapply list_elem_of_lookup_2.
Qed.
Lemma sn_ids db db' : scanned db db' → rc_id <$> f_receipts db' = rc_id <$> f_receipts db.
Proof. intros [_ Hs _ _ _ _]. induction Hs as [|x y l l' [->|(_ & E & _)] _ IH]; csimpl; [done|by rewrite IH|by rewrite E, IH]. Qed.

Lemma audit_items actor action task detail db :
  f_items (_audit actor action task detail db) = f_items db ∧ f_edges (_audit actor action task detail db) = f_edges db.
Proof. unfold _audit. by repeat case_match. Qed.

Lemma audit_scanned actor action task detail db : ordinary action → scanned db (_audit actor action task detail db).
Proof.
  intros Ho. destruct (audit_items actor action task detail db). split; rewrite ?audit_receipts, ?audit_control, ?audit_starts; [|reflexivity|done..].
  apply rtc_once. by constructor.
Qed.

Lemma cancel_scanned row actor db :
  NoDup (rc_id <$> f_receipts db) → row ∈ f_receipts db → rc_state row = "queued"%string →
  scanned db (_cancel_queued_receipt (rc_id row) actor db).2 ∧
  (∃ x, x ∈ f_receipts (_cancel_queued_receipt (rc_id row) actor db).2 ∧ rc_id x = rc_id row ∧
     rc_state x = "cancelled"%string) ∧
  ∀ r, r ∈ f_receipts db → rc_id r ≠ rc_id row → r ∈ f_receipts (_cancel_queued_receipt (rc_id row) actor db).2.
Proof.
  intros Hnd Hrow Hst. unfold _cancel_queued_receipt. destruct (find_id_in row _ Hrow) as (x & -> & Hx & E).
  assert (x = row) as -> by (by apply (key_unique rc_id row (f_receipts db))). rewrite (bool_decide_eq_true_2 _ Hst). cbn [negb snd].
  set (row' := with_state "cancelled" (f_now db) row).
  pose proof (λ r, elem_replaced rc_id row row' eq_refl (f_receipts db) r Hrow) as Hrep. split.
  - transitivity (put_receipt row' db); [|by apply audit_scanned]. split; try done.
    + apply rtc_once, (WRow _ row row'); [done|]. split; [done..|]. apply MoveRetire; [rewrite Hst; left|done].
    + simpl. apply Forall2_fmap_r, Forall_Forall2_diag, Forall_forall. intros r Hr. unfold compose.
      destruct (Z.eqb_spec (rc_id r) (rc_id row)) as [Er|]; [|by left].
      rewrite (key_unique rc_id row (f_receipts db) r Hnd Hrow Hr Er). by right.
  - split; [exists row'; rewrite audit_receipts; split; [apply Hrep; auto|done]|].
    intros r Hr Hne. rewrite audit_receipts. apply Hrep. auto.
Qed.

Lemma fence_scanned row actor action why db :
  NoDup (rc_id <$> f_receipts db) → row ∈ f_receipts db → rc_state row = "queued"%string → ordinary action →
  scanned db (fence row actor action why db) ∧
  (∃ x, x ∈ f_receipts (fence row actor action why db) ∧ rc_id x = rc_id row ∧ rc_state x = "cancelled"%string) ∧
  ∀ r, r ∈ f_receipts db → rc_id r ≠ rc_id row → r ∈ f_receipts (fence row actor action why db).
Proof.
  intros Hnd Hrow Hst Ho. destruct (cancel_scanned row actor db Hnd Hrow Hst) as (Hs & Hx & Hk). unfold fence. split_and!.
  - etrans; [exact Hs|]. by apply audit_scanned.
  - by rewrite audit_receipts.
  - intros r Hr Hne. rewrite audit_receipts. by apply Hk.
Qed.

Lemma fenced_ordinary `{Environ} db c action why : fenced db c = Some (action, why) → ordinary action.
Proof.
  unfold fenced. intros Hf. destruct (if automatic_actor _ && _ then _ else _) as [why'|]; [by simplify_eq|].
  case_match; by simplify_eq.
Qed.

(** Why a candidate was passed over: fenced off, or no room for it. *)
Definition passed `{Environ} (policy : dict) (tier_of : string → string) (available : list string)
    (occupying : list FactoryReceipt) (db : FDB) (c : FactoryReceipt) : Prop :=
  (∃ x, x ∈ f_receipts db ∧ rc_id x = rc_id c ∧ rc_state x = "cancelled"%string) ∨
  tier_of (receipt_task_class c) ∉ available ∨
  ∃ limits, repo_lane_limits policy (rc_repo c) = Ok limits ∧
    lane_get (tier_of (receipt_task_class c)) limits ≤
    count_of (λ o, bool_decide (rc_repo o = rc_repo c) && in_lane (tier_of (receipt_task_class c)) o) occupying.

Lemma passed_scanned `{Environ} policy tier_of available occupying db db' c :
  scanned db db' → passed policy tier_of available occupying db c → passed policy tier_of available occupying db' c.
Proof.
  intros [_ Hs _ _ _ _] [(x & [k Hk]%list_elem_of_lookup_1 & Hid & Hst)|Hp]; [|by right]. left.
  destruct (Forall2_lookup_l _ _ _ _ _ Hs Hk) as (y & Hy%list_elem_of_lookup_2 & [->|(? & ? & _)]);
    [by exists x|exists y; split_and!; [done|congruence|done]].
Qed.

(** What held when a candidate was picked. *)
Record picked `{Environ} (policy : dict) (tier_of : string → string) (available : list string)
    (occupying : list FactoryReceipt) (candidates : list FactoryReceipt) (db : FDB) (c : FactoryReceipt) : Prop := mkPicked
  { pk_order : ∃ pre post, candidates = pre ++ c :: post ∧ Forall (passed policy tier_of available occupying db) pre;
    pk_row : c ∈ f_receipts db; pk_fenced : fenced db c = None;
    pk_lane : tier_of (receipt_task_class c) ∈ available;
    pk_repo : ∃ limits, repo_lane_limits policy (rc_repo c) = Ok limits ∧
      count_of (λ o, bool_decide (rc_repo o = rc_repo c) && in_lane (tier_of (receipt_task_class c)) o) occupying
      < lane_get (tier_of (receipt_task_class c)) limits }.

Lemma pick_inv `{Environ} candidates actor policy tier_of available occupying db o db' :
  NoDup (rc_id <$> f_receipts db) → NoDup (rc_id <$> candidates) →
  (∀ c, c ∈ candidates → c ∈ f_receipts db ∧ rc_state c = "queued"%string) →
  pick_candidate candidates actor policy tier_of available occupying db = Ok (o, db') →
  scanned db db' ∧ ∀ c, o = Some c → picked policy tier_of available occupying candidates db' c.
Proof.
  intros Hnd Hndc. revert db Hnd. induction candidates as [|c candidates IH]; intros db Hnd Hcs Hq; simpl in Hq.
  { by simplify_eq. }
  csimpl in Hndc. apply NoDup_cons in Hndc as [Hc Hndc]. specialize (IH Hndc).
  destruct (Hcs c (list_elem_of_here _ _)) as [Hrow Hst].
  assert (∀ d, scanned d db' ∧ (∀ x, o = Some x → picked policy tier_of available occupying candidates db' x) → scanned db d → passed policy tier_of available occupying d c →
    scanned db db' ∧ ∀ x, o = Some x → picked policy tier_of available occupying (c :: candidates) db' x) as Hnext.
  { intros d [Hs Hp] Hd Hpass. split; [by etrans|]. intros x Hx. destruct (Hp x Hx) as [(pre & post & -> & Hpre) ? ? ? ?].
    split; try done. exists (c :: pre), post. split; [done|]. constructor; [|done]. by eapply passed_scanned. }
  destruct (fenced db c) as [[action why]|] eqn:Hf.
  - destruct (fence_scanned c actor action why db Hnd Hrow Hst (fenced_ordinary _ _ _ _ Hf)) as (Hs & Hcan & Hk).
    apply (Hnext (fence c actor action why db)); [|done|by left]. apply IH; [by rewrite (sn_ids _ _ Hs)| |done].
    intros x Hx. destruct (Hcs x (list_elem_of_further _ _ _ Hx)) as [Hxr ?]. split; [|done]. apply Hk; [done|].
    intros E. apply Hc. rewrite <-E. by apply list_elem_of_fmap_2.
  - assert (∀ x, x ∈ candidates → x ∈ f_receipts db ∧ rc_state x = "queued"%string) as Hcs'
      by (intros x Hx; apply Hcs; by right).
    destruct (str_in _ available) eqn:Ha; cbn [negb] in Hq.
    2: { apply bool_decide_eq_false in Ha. apply (Hnext db); [by apply IH|done|right; by left]. }
    apply res_bind_ok in Hq as (limits & Hlim & Hq).
    match type of Hq with (if ?b then _ else _) = _ => destruct b eqn:Hroom end.
    { apply Z.leb_le in Hroom. apply (Hnext db); [by apply IH|done|right; right; by exists limits]. }
    injection Hq as <- <-. split; [done|]. intros x [= <-]. split; [by exists [], candidates|done|done| |].
    + by apply bool_decide_eq_true in Ha.
    + exists limits. split; [done|]. by apply Z.leb_gt.
Qed.

Lemma throttled_scanned actor action id item blockers db :
  ordinary action → scanned db (_audit_throttled actor action id item blockers db).
Proof. intros Ho. unfold _audit_throttled. case_match; [by apply audit_scanned|done]. Qed.
Lemma report_scanned actor all unblocked blocked_rows db : scanned db (report_blocked actor all unblocked blocked_rows db).
Proof.
  unfold report_blocked. destruct (head (ordered db blocked_rows)), (head (ordered db all)); try done. cbv zeta.
  match goal with |- scanned _ (if ?b then _ else _) => destruct b end; [by apply throttled_scanned|done].
Qed.

Lemma report_receipts actor all unblocked blocked_rows db :
  f_receipts (report_blocked actor all unblocked blocked_rows db) = f_receipts db.
Proof.
  unfold report_blocked. destruct (head (ordered db blocked_rows)), (head (ordered db all)); try done. cbv zeta.
  match goal with |- f_receipts (if ?b then _ else _) = _ => destruct b end; [|done].
  unfold _audit_throttled. case_match; [apply audit_receipts|done].
Qed.

(** ** The queue *)

Lemma res_filter_elem {A} (p : A → res bool) l l' :
  res_filter p l = Ok l' → sublist l' l ∧ ∀ x, x ∈ l' ↔ x ∈ l ∧ p x = Ok true.
Proof.
  revert l'. induction l as [|x l IH]; intros l' Hq; simpl in Hq.
  { simplify_eq. split; [done|]. intros x. split; [by intros ?%elem_of_nil|by intros [? _]]. }
  apply res_bind_ok in Hq as (b & Hb & Hq). apply res_bind_ok in Hq as (rest & [Hs Hin]%IH & Hq). simplify_eq.
  destruct b.
  - split; [by apply sublist_skip|]. intros y. rewrite !elem_of_cons, Hin. naive_solver.
  - split; [by apply sublist_cons|]. intros y. rewrite elem_of_cons, Hin. naive_solver congruence.
Qed.

(** What the admission query asks of a receipt. *)
Record queued_for (db : FDB) (policy : dict) (enabled : list string) (r : FactoryReceipt) : Prop := mkQueuedFor
  { qf_state : rc_state r = "queued"%string; qf_repo : rc_repo r ∈ enabled;
    qf_eligible : _eligible_clause policy r = Ok true;
    qf_class : str_in (receipt_task_class r) TASK_CLASSES = true;
    qf_generation : ∃ v, item "generation" policy = Ok v ∧ py_eq (PInt (rc_generation r)) v = true;
    qf_unowned : ∀ b, b ∈ f_receipts db → rc_state b ∈ OWNING_STATES → same_work b r = false }.

Lemma base_query_inv db policy enabled tier_of available r :
  base_query db policy enabled tier_of available r = Ok true → queued_for db policy enabled r.
Proof.
  unfold base_query. intros Hq. destruct (bool_decide _) eqn:Hst; [|done]. destruct (str_in (rc_repo r) enabled) eqn:Hen; [|done].
  cbn [andb negb] in Hq. apply res_bind_ok in Hq as ([] & Hel & Hq); [|done]. cbn [negb] in Hq.
  apply res_bind_ok in Hq as (g & Hg & Hq). injection Hq as Hq.
  apply andb_prop in Hq as [Hq Hitem]. apply andb_prop in Hq as [Hq Hissue]. apply andb_prop in Hq as [Hlane Hgen].
  split; [by apply bool_decide_eq_true in Hst|by apply bool_decide_eq_true in Hen|done| |eauto|].
  - unfold receipt_task_class, str_or. destruct (rc_task_class r) as [c|]; [|done].
    apply andb_prop in Hlane as [Hin _]. by destruct (bool_decide (c = ""%string)).
  - intros b Hb Hown. assert (b ∈ busy_receipts db) as Hbusy by (apply list_elem_of_filter; done).
    unfold same_work. apply orb_false_iff. split.
    + destruct (rc_work_item_id b) as [i|] eqn:Ei, (rc_work_item_id r) as [j|]; try done. apply Z.eqb_neq. intros ->.
      apply negb_true_iff, bool_decide_eq_false in Hitem. apply Hitem. rewrite <-Ei. by apply list_elem_of_fmap_2.
    + apply negb_true_iff in Hissue. apply not_true_iff_false. intros E. apply not_true_iff_false in Hissue.
      apply Hissue, existsb_exists. exists b. split; [by apply list_elem_of_In|done].
Qed.


(** ** Admission *)

(** Random task ids are new. *)
Class FreshIds `{IntakeHooks} : Prop := mint_unused : ∀ db, unused db (mint_task_id db).

Lemma replace_twice row row1 row2 (l : list FactoryReceipt) :
  rc_id row1 = rc_id row → rc_id row2 = rc_id row →
  (λ r, if rc_id r =? rc_id row2 then row2 else r) <$> ((λ r, if rc_id r =? rc_id row1 then row1 else r) <$> l) =
  (λ r, if rc_id r =? rc_id row then row2 else r) <$> l.
Proof.
  intros E1 E2. rewrite <-list_fmap_compose. apply list_fmap_ext. intros k r _. unfold compose.
  destruct (Z.eqb_spec (rc_id r) (rc_id row1)) as [E|E], (Z.eqb_spec (rc_id r) (rc_id row)) as [E'|E']; try congruence.
  - by rewrite (proj2 (Z.eqb_eq (rc_id row1) (rc_id row2))) by congruence.
  - by rewrite (proj2 (Z.eqb_neq (rc_id r) (rc_id row2))) by congruence.
Qed.

(** What an admission leaves: the receipt under its task, every other receipt
    and the starts as they were. *)
Record admission (db : FDB) (row : FactoryReceipt) (tier t : string) (db' : FDB) (row' : FactoryReceipt) : Prop := mkAdmission
  { am_unused : unused db t;
    am_identity : identity row' = identity row; am_state : rc_state row' = "admitted"%string;
    am_task : rc_task_id row' = Some t; am_tier : rc_routing_tier row' = Some tier;
    am_receipts : f_receipts db' = (λ r, if rc_id r =? rc_id row then row' else r) <$> f_receipts db;
    am_starts : f_starts db' = f_starts db;
    am_control : ct_policy_json (f_control db') = ct_policy_json (f_control db);
    am_known : is_Some (find_task db' t) }.

Lemma audit_tasks actor action task detail db : f_tasks (_audit actor action task detail db) = f_tasks db.
Proof. unfold _audit. by repeat case_match. Qed.

Lemma store_aside class route db db' : store_class_route class route db = Ok db' → aside db db' ∧ f_tasks db' = f_tasks db.
Proof.
  unfold store_class_route. intros Hq. case_match; [by simplify_eq|]. case_match; [done|]. injection Hq as <-. done.
Qed.

Lemma inherit_shape `{IsoFormat} row task carried policy db db' :
  inherit_dispatch_grant row task carried policy db = Ok db' →
  ∃ detail, db' = _audit FUNDING_ACTOR "funding_granted" (Some (tk_id task)) detail db.
Proof.
  unfold inherit_dispatch_grant. intros Hq. repeat (apply res_bind_ok in Hq as (? & _ & Hq)). injection Hq as <-. eauto.
Qed.

(** Audits after a state change only the trail. *)
Record trailed (db db' : FDB) : Prop := mkTrailed
  { tr_wrote : rtc wrote db db'; tr_receipts : f_receipts db' = f_receipts db; tr_starts : f_starts db' = f_starts db;
    tr_control : f_control db' = f_control db; tr_tasks : f_tasks db' = f_tasks db }.
#[export] Instance trailed_preorder : PreOrder trailed.
Proof. split; [done|]. intros a b c [] []. split; [by etrans|congruence..]. Qed.
Lemma audit_trailed actor action task detail db : ordinary action → trailed db (_audit actor action task detail db).
Proof.
  intros Ho. split; rewrite ?audit_receipts, ?audit_starts, ?audit_control, ?audit_tasks; [|done..].
  apply rtc_once. by constructor.
Qed.

Lemma admit_write_inv `{IsoFormat, IntakeHooks, !FreshIds} row actor route grant direction policy pinned effective db r db' :
  row ∈ f_receipts db → rc_state row = "queued"%string → ct_state (f_control db) = "enabled"%string →
  (∀ x, x ∈ f_receipts db → is_active x = true → rc_id x ≠ rc_id row → same_work x row = false) →
  admit_write row actor route grant direction policy pinned effective db = Ok (r, db') →
  rtc wrote db db' ∧ ∃ t row', r = TaskAdmitted t (rc_id row) (lane_of row') effective ∧
    admission db row (fb_tier route) t db' row'.
Proof.
  intros Hrow Hst Hen Halone. unfold admit_write. intros Hq.
  do 3 (apply res_bind_ok in Hq as (? & _ & Hq)). apply res_bind_ok in Hq as (db2 & Hstore & Hq).
  apply res_bind_ok in Hq as (db3 & Hgrant & Hq).
  set (t := mint_task_id db) in *. set (row' := with_admission t (fb_tier route) pinned (f_now db) row) in *.
  match type of Hstore with store_class_route _ _ (put_receipt _ (set_tasks ?f db)) = _ => set (add := f) in * end.
  apply store_aside in Hstore as [Ha Et].
  assert (rtc wrote db db2) as Hw2.
  { apply (rtc_l _ _ (set_tasks add db)); [by apply WAside|].
    apply (rtc_l _ _ (put_receipt row' (set_tasks add db))); [|by apply rtc_once, WAside].
    apply (WOpen _ row); [done|]. split; [done|done|done|done|]. left. split; [done|]. exists t. split; [done|].
    exact (mint_unused db). }
  set (db2' := edit_control (counted (f_now db)) db2) in *.
  assert (wrote db2 db2') as Hw2' by (by apply WControl, same_switch_le).
  assert (trailed db2' db3) as Htr.
  { destruct grant; [|by simplify_eq]. apply inherit_shape in Hgrant as [detail ->]. by apply audit_trailed. }
  match type of Hq with Ok (_, ?d) = _ => assert (trailed db3 d) as Htr' end.
  { match goal with |- trailed _ (if ?b then ?x else _) => transitivity x end.
    - etrans; [|by apply audit_trailed]. clear Hq. destruct (brief_only_refinement row'); [by apply audit_trailed|done].
    - clear Hq. case_bool_decide; [done|]. apply audit_trailed. by destruct (bool_decide (fb_tier route = ADVISORY_TIER)). }
  match type of Hq with Ok (_, ?d) = _ => set (dx := d) in * end. clearbody dx. injection Hq as <- <-.
  pose proof (transitivity Htr Htr') as [Hw Er Es Ec Etk]. split; [etrans; [exact Hw2|by eapply rtc_l]|].
  exists t, row'. split; [done|]. destruct Ha as [Hac Har Has _ _]. split; try done.
  - rewrite Er. simpl. by rewrite Har.
  - rewrite Es. simpl. by rewrite Has.
  - rewrite Ec. simpl. by rewrite Hac.
  - unfold find_task. rewrite Etk. simpl. rewrite Et. simpl. unfold add. destruct (find_first _ _) eqn:Hf; [done|]. exfalso.
    rewrite find_first_None in Hf. match type of Hf with context [_ ++ [?x]] => specialize (Hf x) end.
    rewrite bool_decide_eq_true_2 in Hf by done. assert (true = false) by (apply Hf, elem_of_app; right; left). done.
Qed.

Lemma admission_edited row row1 tier t db db' row' :
  NoDup (rc_id <$> f_receipts db) → row ∈ f_receipts db → edited row row1 →
  admission (put_receipt row1 db) row1 tier t db' row' → admission db row tier t db' row'.
Proof.
  intros Hnd Hrow Hed []. pose proof (edited_id _ _ Hed) as Ei. destruct Hed as (Eid & Et & Est).
  split; try done.
  - destruct am_unused0 as [Hr Hs]. split; [|done]. intros r Hin. destruct (decide (rc_id r = rc_id row)) as [E|E].
    + rewrite (key_unique rc_id row (f_receipts db) r) by done. rewrite <-Et. by apply Hr, (put_receipt_elem row).
    + apply Hr. simpl. apply (elem_replaced rc_id row row1 Ei); auto.
  - congruence.
  - rewrite am_receipts0. simpl. pose proof (identity_id _ _ am_identity0) as E'.
    rewrite <-(replace_twice row row1 row' (f_receipts db)) by congruence. by rewrite E'.
Qed.

(** The route of a class is its lane, whatever was sampled or stored. *)
Lemma route_tier db c : fb_tier (route_for_class db c) = lane_for c.
Proof.
  unfold route_for_class, feedback_for_class, lane_for. destruct (is_advisory c) eqn:E.
  - unfold empty_feedback. by rewrite E.
  - destruct (route_decision _ _) as [tier decision] eqn:Hd. simpl. unfold route_decision in Hd.
    repeat (match type of Hd with (if ?b then _ else _) = _ => destruct b end; [by injection Hd|]). by injection Hd.
Qed.

Lemma base_query_ext db policy enabled available x :
  base_query db policy enabled (λ c, fb_tier (route_for_class db c)) available x =
  base_query db policy enabled lane_for available x.
Proof. unfold base_query. by destruct (rc_task_class x); rewrite !route_tier. Qed.
Lemma passed_ext `{Environ} policy available occupying db db0 x :
  passed policy lane_for available occupying db x ↔
  passed policy (λ c, fb_tier (route_for_class db0 c)) available occupying db x.
Proof. unfold passed. by rewrite !route_tier. Qed.

(** A retry of held releases keeps the switch and the policy. *)
Definition same_switch (db db' : FDB) : Prop :=
  ct_state (f_control db') = ct_state (f_control db) ∧ ct_policy_json (f_control db') = ct_policy_json (f_control db).
Lemma retry_switch `{Environ} ids n m db db' : retry_loop ids n db = Ok (m, db') → same_switch db db'.
Proof.
  revert n db. induction ids as [|id ids IH]; intros n db Hq; simpl in Hq; [by simplify_eq|].
  destruct (find_first _ _) as [row|]; [|by eapply IH]. apply res_bind_ok in Hq as ([applied db1] & Ha & Hq).
  assert (f_control db1 = f_control db) as E.
  { apply apply_shape in Ha as [->|(row' & au & ac & t & d & _ & _ & ->)]; [done|]. by rewrite audit_control. }
  destruct applied; apply IH in Hq as [H1 H2]; simpl in *; split; congruence.
Qed.

Section admitting.
Context `{Environ, IsoFormat, IntakeHooks, !FreshIds}.

(** A refusal leaves the receipts but for the direction of the candidate. *)
Inductive row_admitted (db : FDB) (row : FactoryReceipt) (tier : string) : AdmitResult → FDB → Prop :=
| RowRefused reason row' :
    edited row row' → rc_routing_tier row' = rc_routing_tier row → row_admitted db row tier (AdmitRefused reason) (put_receipt row' db)
| RowKept reason : row_admitted db row tier (AdmitRefused reason) db
| RowAdmitted t row' effective db' :
    admission db row tier t db' row' → row_admitted db row tier (TaskAdmitted t (rc_id row) (lane_of row') effective) db'.

Lemma admit_row_inv row actor policy route db r db' :
  NoDup (rc_id <$> f_receipts db) → row ∈ f_receipts db → rc_state row = "queued"%string →
  ct_state (f_control db) = "enabled"%string →
  (∀ x, x ∈ f_receipts db → is_active x = true → rc_id x ≠ rc_id row → same_work x row = false) →
  admit_row row actor policy route db = Ok (r, db') →
  rtc wrote db db' ∧ row_admitted db row (fb_tier route) r db'.
Proof using All.
  intros Hnd Hrow Hst Hen Halone. unfold admit_row. intros Hq. apply res_bind_ok in Hq as ([why|] & _ & Hq).
  { simplify_eq. split; [done|constructor]. }
  destruct (if bool_decide (fb_tier route = "delivery"%string) then _ else _) as [direction changed].
  set (row1 := if changed then with_direction direction row else row) in Hq.
  set (db1 := if changed then put_receipt row1 db else db) in Hq.
  assert (edited row row1) as Hed by (unfold row1; by destruct changed).
  assert (rtc wrote db db1) as Hw1.
  { unfold db1. destruct changed; [|done]. apply rtc_once, (WRow _ row); [done|]. by apply edited_rewritten. }
  assert (∀ why, row_admitted db row (fb_tier route) (AdmitRefused why) db1) as Href.
  { intros why. unfold db1. destruct changed; [apply RowRefused; [done|unfold row1; done]|constructor]. }
  destruct (granted_delivery_surface (PDict direction)) as [[branch n]|[]]; [|by simplify_eq|done..].
  apply res_bind_ok in Hq as ([owner|] & _ & Hq); [by simplify_eq|].
  destruct (dispatch_continuation_grant db1 row1 policy) as [grant|[]]; [|by simplify_eq|done..].
  apply res_bind_ok in Hq as (pinned & _ & Hq). apply res_bind_ok in Hq as ([why|effective] & _ & Hq); [by simplify_eq|].
  assert (row1 ∈ f_receipts db1 ∧ rc_state row1 = "queued"%string ∧ ct_state (f_control db1) = "enabled"%string ∧
    ∀ x, x ∈ f_receipts db1 → is_active x = true → rc_id x ≠ rc_id row1 → same_work x row1 = false)
    as (Hrow1 & Hst1 & Hen1 & Halone1).
  { clear Hq Href Hw1. unfold db1, row1 in *. destruct changed; [|done]. split_and!; [by apply (put_receipt_elem row)|done|done|].
    intros x [->|[Hx _]]%(elem_replaced rc_id row (with_direction direction row) eq_refl); [done| |done]. by apply Halone. }
  destruct (admit_write_inv row1 actor route grant direction policy pinned effective db1 r db') as (Hw & t & row' & -> & Ha);
    [done..|].
  split; [by etrans|]. rewrite (edited_id _ _ Hed). apply RowAdmitted.
  unfold db1, row1 in *. destruct changed; [by eapply admission_edited|done].
Qed.

(** What a successful [admit_next] saw: at [db0], after the held releases were
    retried, the receipt [row] at the head of what may run; at [db1], after the
    fences on the way, its admission. *)
Record seen (lanes : list string) (db db0 db1 : FDB) (row : FactoryReceipt) : Prop := mkSeen
  { se_enabled : ct_state (f_control db) = "enabled"%string;
    se_retried : ∃ n, retry_capacity_releases db = Ok (n, db0);
    se_policy : ∃ policy enabled room limits, validate_policy (PDict (ct_policy_json (f_control db0))) = Ok policy ∧
      enabled_repos policy = Ok enabled ∧
      open_lanes policy (occupying db0) (filter (λ l, l ∈ lanes) LANES) (Some (unresolved_start_task_ids db0)) = Ok room ∧
      0 < lane_get (lane_for (receipt_task_class row)) room ∧
      repo_lane_limits policy (rc_repo row) = Ok limits ∧
      count_of (λ o, bool_decide (rc_repo o = rc_repo row) && in_lane (lane_for (receipt_task_class row)) o) (occupying db0)
      < lane_get (lane_for (receipt_task_class row)) limits ∧
      queued_for db0 policy enabled row;
    se_lane : lane_for (receipt_task_class row) ∈ lanes;
    se_blocked : blocked db0 row = false;
    se_scanned : scanned db0 db1;
    se_row : row ∈ f_receipts db0 ∧ row ∈ f_receipts db1;
    se_fenced : fenced db1 row = None;
    se_order : ∃ policy enabled room queue, validate_policy (PDict (ct_policy_json (f_control db0))) = Ok policy ∧
      enabled_repos policy = Ok enabled ∧
      open_lanes policy (occupying db0) (filter (λ l, l ∈ lanes) LANES) (Some (unresolved_start_task_ids db0)) = Ok room ∧
      let available := filter (λ l, 0 < lane_get l room) (filter (λ l, l ∈ lanes) LANES) in
      (∀ x, x ∈ queue ↔ x ∈ f_receipts db0 ∧ base_query db0 policy enabled lane_for available x = Ok true ∧
         blocked db0 x = false) ∧ row ∈ queue ∧
      ∀ x, x ∈ queue → queue_compare db0 queue x row = Lt → passed policy lane_for available (occupying db0) db1 x }.

(** What a refusal leaves: held releases retried, candidates fenced, and perhaps
    the direction a queued candidate inherited. *)
Inductive waits (db : FDB) : FDB → Prop :=
| WaitIdle : waits db db
| WaitScanned n db0 db1 : retry_capacity_releases db = Ok (n, db0) → scanned db0 db1 → waits db db1
| WaitDirected n db0 db1 row row' :
    retry_capacity_releases db = Ok (n, db0) → scanned db0 db1 → row ∈ f_receipts db1 → rc_state row = "queued"%string →
    edited row row' → rc_routing_tier row' = rc_routing_tier row → waits db (put_receipt row' db1).

Inductive next_admitted (lanes : list string) (db : FDB) : AdmitResult → FDB → Prop :=
| NextRefused reason db' : waits db db' → next_admitted lanes db (AdmitRefused reason) db'
| NextAdmitted db0 db1 row t row' effective db' :
    seen lanes db db0 db1 row → admission db1 row (lane_for (receipt_task_class row)) t db' row' →
    next_admitted lanes db (TaskAdmitted t (rc_id row) (lane_of row') effective) db'.

Lemma admit_next_inv actor lanes db r db' :
  NoDup (rc_id <$> f_receipts db) → admit_next actor lanes db = Ok (r, db') →
  rtc wrote db db' ∧ next_admitted lanes db r db'.
Proof using All.
  intros Hnd. unfold admit_next. intros Hq. apply res_bind_ok in Hq as (a & _ & Hq).
  destruct (bool_decide _) eqn:Hen; cbn [negb] in Hq; [|simplify_eq; split; [done|repeat constructor]].
  apply bool_decide_eq_true in Hen. apply res_bind_ok in Hq as ([n db0] & Hretry & Hq). cbn beta iota in Hq.
  assert (rtc wrote db db0 ∧ same_switch db db0) as [Hw0 [Es0 _]].
  { unfold retry_capacity_releases in Hretry. destruct (str_in _ _); cbn [negb] in Hretry; [|by simplify_eq].
    split; [by eapply retry_wrote|by eapply retry_switch]. }
  pose proof (wrotes_ids _ _ Hw0 Hnd) as Hnd0.
  apply res_bind_ok in Hq as (policy & Hpol & Hq). apply res_bind_ok in Hq as (ll & _ & Hq).
  apply res_bind_ok in Hq as (occ & Hocc & Hq).
  rewrite slot_holders_filter, occupying_active in Hocc. injection Hocc as <-. fold (occupying db0) in Hq.
  apply res_bind_ok in Hq as (room & Hroom & Hq).
  set (available := filter (λ l, 0 < lane_get l room) (filter (λ l, l ∈ lanes) LANES)) in Hq.
  assert (∀ reason d, scanned db0 d → rtc wrote db d ∧ next_admitted lanes db (AdmitRefused reason) d) as Href.
  { intros reason d Hd. split; [etrans; [exact Hw0|apply Hd]|]. constructor. by eapply WaitScanned. }
  destruct available as [|l0 av] eqn:Eav; [simplify_eq; by apply Href|]. rewrite <-Eav in *. clear l0 av Eav.
  apply res_bind_ok in Hq as (enabled & Hrepos & Hq). destruct enabled as [|e0 en] eqn:Een; [simplify_eq; by apply Href|].
  rewrite <-Een in *. clear e0 en Een.
  apply res_bind_ok in Hq as (rows & Hrows & Hq). apply res_filter_elem in Hrows as [Hsub Hrows].
  set (unblocked := filter (λ r, blocked db0 r = false) rows) in Hq.
  set (candidates := take ADMISSION_CANDIDATE_SCAN_LIMIT (ordered db0 unblocked)) in Hq.
  match type of Hq with context [report_blocked ?w ?x ?y ?z db0] =>
    pose proof (report_scanned w x y z db0) as Hs0; set (db0' := report_blocked w x y z db0) in * end.
  apply res_bind_ok in Hq as ([o db1] & Hpick & Hq). cbn beta iota in Hq.
  assert (∀ c, c ∈ candidates → c ∈ unblocked) as Hcu.
  { intros c Hc. apply (elem_of_sublist _ (ordered db0 unblocked)) in Hc; [|apply sublist_take].
    unfold ordered in Hc. by rewrite elem_of_py_sorted in Hc. }
  assert (∀ c, c ∈ candidates → base_query db0 policy enabled (λ c, fb_tier (route_for_class db0 c)) available c = Ok true ∧
            blocked db0 c = false ∧ c ∈ f_receipts db0) as Hcs.
  { intros c [Hb Hin]%Hcu%list_elem_of_filter. split; [by apply (Hrows c)|]. split; [done|].
    by apply (elem_of_sublist rows). }
  assert (NoDup (rc_id <$> candidates)) as Hndc.
  { eapply sublist_NoDup; [|apply fmap_sublist, sublist_take]. unfold ordered. rewrite py_sorted_perm.
    eapply sublist_NoDup; [exact Hnd0|]. apply fmap_sublist. etrans; [apply sublist_filter|done]. }
  destruct (pick_inv candidates a policy (λ c, fb_tier (route_for_class db0 c)) available (occupying db0) db0' o db1)
    as [Hs1 Hpk]; [by rewrite (sn_ids _ _ Hs0)|done| |done|].
  { intros c Hc. destruct (Hcs c Hc) as (Hb & _ & Hin). destruct (base_query_inv _ _ _ _ _ _ Hb). split; [|done].
    unfold db0'. by rewrite report_receipts. }
  pose proof (transitivity Hs0 Hs1) as Hs. destruct o as [row|]; [|simplify_eq; apply Href, Hs].
  destruct (Hpk row eq_refl) as [(pre & post & Ecand & Hpass) Hin Hfen Hlane (limits & Hlim & Hcount)]. rewrite route_tier in *.
  assert (row ∈ candidates) as Hc by (rewrite Ecand; apply elem_of_app; right; left).
  destruct (Hcs row Hc) as (Hbase%base_query_inv & Hblk & Hin0).
  destruct (admit_row_inv row a policy (route_for_class db0 (receipt_task_class row)) db1 r db') as [Hw Hadm];
    [by rewrite (sn_ids _ _ Hs)|done|apply Hbase| | |done|].
  { rewrite (sn_control _ _ Hs). congruence. }
  { intros x Hx Hact Hne. destruct (sn_rows _ _ x Hs Hx) as [Hx0|Hcan].
    - apply (qf_unowned _ _ _ _ Hbase x Hx0). apply bool_decide_eq_true in Hact. unfold OWNING_STATES. set_solver.
    - unfold is_active in Hact. by rewrite Hcan in Hact. }
  split; [etrans; [exact Hw0|]; etrans; [apply Hs|exact Hw]|]. rewrite route_tier in Hadm.
  destruct Hadm as [reason row' Hed Htier|reason|t row' effective db' Hadm];
    [constructor; eapply WaitDirected; try done; apply Hbase|constructor; by eapply WaitScanned|]. apply (NextAdmitted _ _ db0 db1); [|done].
  apply list_elem_of_filter in Hlane as [Hpos [Hl _]%list_elem_of_filter].
  split; try done; [by exists n|by exists policy, enabled, room, limits|].
  exists policy, enabled, room, unblocked. do 3 (split; [done|]). cbv zeta. fold available. split_and!.
  - intros x. unfold unblocked. rewrite list_elem_of_filter, Hrows, (base_query_ext db0 policy enabled available). naive_solver.
  - by apply Hcu.
  - intros x Hx Hlt. rewrite Forall_forall in Hpass. specialize (Hpass x).
    rewrite (passed_ext policy available (occupying db0) db1 db0). apply Hpass.
    eapply (ordered_before db0 unblocked pre row _ x); [|done|exact Hlt].
    rewrite <-(take_drop ADMISSION_CANDIDATE_SCAN_LIMIT (ordered db0 unblocked)). fold candidates. rewrite Ecand.
    by rewrite <-app_assoc.
Qed.
End admitting.
