(* ===== verification/LifeClaims.v ===== *)
(** * Factory controls: the life of a receipt

    The operations on receipts and starts as one step relation ([life_step]), and
    with the operator's answers and the recoveries the whole system
    ([system_step]); the abstract state machine of a receipt, and the invariant that
    links a receipt's state with the start ledger: what every sequence of steps
    keeps. *)

From Stdlib Require Import SpecFloat.
From stdpp Require Import prelude list strings relations.
From S2P Require Import Prelude PyValue GraphData GraphPlan WorkItems ModelPool PolicyData Policy PolicyFacts Controls Lanes LaneClaims Capacity CapacityClaims Starts StartFacts StartClaims Finish Operator Feedback FundingGrants Intake Readmission Decisions LifeFacts IntakeFacts.
Local Open Scope Z_scope.

(** ** The abstract machine *)

(** The edges of [strict] are those of the factory's own operations; a decision
    or a recovery may besides send a receipt back to the queue, answer a queued
    one, and reopen an escalated or failed one. *)
Inductive life (strict : bool) : string → string → Prop :=
| LifeAdmit : life strict "queued" "admitted"
| LifeHold : life strict "admitted" "uncertain"
| LifeClear : life strict "uncertain" "admitted"
| LifeEnd s s' : s ∈ _ACTIVE → s' ∈ "landing"%string :: _SETTLED → life strict s s'
| LifeLand s' : s' ∈ ["succeeded"; "cancelled"]%string → life strict "landing" s'
| LifeRetire s : s ∈ ["queued"; "escalated"]%string → life strict s "cancelled"
| LifeReopen s : s ∈ ["succeeded"; "landing"]%string → life strict s "admitted"
| LifeRequeue s : strict = false → s ∈ ["escalated"; "succeeded"; "failed"]%string → life strict s "queued"
| LifeAnswer : strict = false → life strict "queued" "succeeded"
| LifeRecover s : strict = false → s ∈ ["escalated"; "failed"]%string → life strict s "admitted".

Lemma life_final s s' : s ∈ ["failed"; "cancelled"]%string → rtc (life true) s s' → s' = s.
Proof.
  intros Hs Hl. destruct Hl as [|s y z Hstep _]; [done|]. exfalso. destruct Hstep; set_solver.
Qed.
Lemma cancelled_final strict s' : rtc (life strict) "cancelled" s' → s' = "cancelled"%string.
Proof. intros Hl. inversion Hl as [|? y ? Hstep _]; [done|]. exfalso. inversion Hstep; subst; set_solver. Qed.

(** By the factory's own operations nothing returns to the queue. *)
Lemma life_queued s : rtc (life true) s "queued" → s = "queued"%string.
Proof.
  intros Hl. apply rtc_inv_r in Hl as [->|(y & _ & Hstep)]; [done|]. exfalso. inversion Hstep; subst;
    repeat match goal with H : _ ∈ _ |- _ => unfold _SETTLED, _TERMINAL, ESCALATED in H; simpl in H end; set_solver.
Qed.

(** ** Steps *)

Inductive life_step `{Environ, IsoFormat, Hashing, Rendering, Rivals, IntakeHooks} (db : FDB) : FDB → Prop :=
| StepReceive repo issue_number title body url actor generation task_class issue work_item_id target r db' :
    receive_issue repo issue_number title body url actor generation task_class issue work_item_id target db = Ok (r, db') →
    life_step db db'
| StepAdmit actor lanes r db' : admit_next actor lanes db = Ok (r, db') → life_step db db'
| StepAuthorize t key actor model cost r db' :
    authorize_start t key actor model cost db = Ok (r, db') → life_step db db'
| StepOutcome t k status actor cost basis session reconciled r db' :
    record_start_outcome t k status actor cost basis session reconciled db = Ok (r, db') → life_step db db'
| StepFinish t outcome actor evidence trigger r db' :
    finish_task t outcome actor evidence trigger db = Ok (r, db') → life_step db db'
| StepHandoff t actor observed r db' : human_handoff t actor observed db = Ok (r, db') → life_step db db'
| StepRecover t pr head source actor reason r db' :
    request_landing_recovery t pr head source actor reason db = Ok (r, db') → life_step db db'
| StepControl action actor policy t reason repo numbers own r db' :
    control_or_delegate action actor policy t reason repo numbers own db = Ok (ControlAnswer r, db') → life_step db db'
| StepRequest action actor key version t id reason r db' :
    request_control action actor key version t id reason db = Ok (r, db') → life_step db db'
| StepReconcile actor limit r db' :
    reconcile_generation_stale_receipts actor limit db = Ok (r, db') → life_step db db'
| StepRelease row actor resume hold r db' :
    row ∈ f_receipts db → request_capacity_release row actor resume hold db = Ok (r, db') → life_step db db'
| StepRetry n db' : retry_capacity_releases db = Ok (n, db') → life_step db db'
| StepClock now : life_step db (set_now now db).

(** ** The invariant *)

(** That no two tasks are in execution for the same work holds where no recovery
    reopens a receipt without looking for one ([strict]). *)
Record life_wf_at (strict : bool) (db : FDB) : Prop := mkLifeWf
  { lf_tickets : tickets_wf (f_starts db);
    lf_ids : NoDup (rc_id <$> f_receipts db);
    lf_tasks : ∀ r r' t, r ∈ f_receipts db → r' ∈ f_receipts db → rc_task_id r = Some t → rc_task_id r' = Some t →
      rc_id r = rc_id r';
    lf_states : ∀ r, r ∈ f_receipts db → rc_state r ∈ RECEIPT_STATES;
    lf_queued : ∀ r, r ∈ f_receipts db → rc_state r = "queued"%string → rc_task_id r = None;
    lf_slots : ∀ r r', r ∈ f_receipts db → r' ∈ f_receipts db → slot r = slot r' → rc_id r = rc_id r';
    lf_items : ∀ r i, r ∈ f_receipts db → rc_work_item_id r = Some i → i ∈ wi_id <$> f_items db;
    lf_alone : strict = true → ∀ r r', r ∈ f_receipts db → r' ∈ f_receipts db → is_active r = true → is_active r' = true →
      same_work r r' = true → rc_id r = rc_id r';
    lf_uncertain : ∀ r t, r ∈ f_receipts db → rc_task_id r = Some t → is_uncertain db t →
      rc_state r = "uncertain"%string;
    lf_quiet : ∀ r t, r ∈ f_receipts db → rc_task_id r = Some t → unresolved_in db t → is_active r = true }.
Notation life_wf := (life_wf_at true).
#[global] Arguments lf_tickets {_} _ _.
#[global] Arguments lf_ids {_} _ _.
#[global] Arguments lf_slots {_} _ _.
#[global] Arguments lf_uncertain {_} _ _.
#[global] Arguments lf_quiet {_} _ _.

(** A receipt lives on under its key and subject, its state moved by the abstract
    machine, and under its task, once it has one, until it goes back to the queue. *)
Record lives_at (strict : bool) (r r' : FactoryReceipt) : Prop := mkLivesOn
  { lo_subject : subject r' = subject r;
    lo_item : rc_work_item_id r' = rc_work_item_id r ∨ rc_work_item_id r = None;
    lo_task : rc_task_id r' = rc_task_id r ∨ rc_state r = "queued"%string ∧ rc_task_id r = None ∨
              strict = false ∧ rtc (life strict) (rc_state r) "queued" ∧ rtc (life strict) "queued" (rc_state r');
    lo_life : rtc (life strict) (rc_state r) (rc_state r') }.
Notation lives_on := (lives_at true).
#[global] Arguments lo_subject {_ _ _} _.
#[global] Arguments lo_task {_ _ _} _.
#[global] Arguments lo_life {_ _ _} _.
Definition lives (strict : bool) (db db' : FDB) : Prop := ∀ r, r ∈ f_receipts db → ∃ r', r' ∈ f_receipts db' ∧ lives_at strict r r'.

Lemma lives_on_refl strict r : lives_at strict r r.
Proof. by split; auto. Qed.
#[export] Hint Resolve lives_on_refl : life.
#[export] Instance lives_preorder strict : PreOrder (lives strict).
Proof.
  split; [intros db r Hr; exists r; auto with life|]. intros a b c Hab Hbc r Hr.
  destruct (Hab r Hr) as (r1 & H1 & [S1 I1 T1 L1]), (Hbc r1 H1) as (r2 & H2 & [S2 I2 T2 L2]).
  exists r2. split; [done|]. split; [congruence| | |by etrans].
  - destruct I1 as [I1|I1]; [|by right]. destruct I2 as [I2|I2]; [left|right]; congruence.
  - destruct T1 as [T1|[T1|(Hs & Q1 & Q2)]]; [|by right; left|right; right; split_and!; [done|done|by etrans]].
    destruct T2 as [T2|[[T2 T2']|(Hs & Q1 & Q2)]]; [left; congruence| |right; right; split_and!; [done|by etrans|done]].
    right. rewrite T2 in L1, L2. destruct strict; [left|by right].
    split; [by apply life_queued|congruence].
Qed.

Definition lawful (db db' : FDB) : Prop := ∀ strict, life_wf_at strict db → life_wf_at strict db' ∧ lives strict db db'.

Lemma lawful_trans a b c : lawful a b → lawful b c → lawful a c.
Proof. intros Hab Hbc strict Ha. destruct (Hab _ Ha) as [Hb ?], (Hbc _ Hb) as [? ?]. split; [done|]. by etrans. Qed.

(** The receipts and starts stay, and every work item. *)
Record kept (db db' : FDB) : Prop := mkKept
  { ke_starts : f_starts db' = f_starts db; ke_receipts : f_receipts db' = f_receipts db;
    ke_items : wi_id <$> f_items db ⊆ wi_id <$> f_items db' }.
#[export] Instance kept_preorder : PreOrder kept.
Proof. split; [done|]. intros a b c [] []. split; [congruence..|set_solver]. Qed.

Lemma audit_kept actor action task detail db : kept db (_audit actor action task detail db).
Proof. split; rewrite ?audit_starts, ?audit_receipts; [done..|]. by rewrite (proj1 (audit_items _ _ _ _ _)). Qed.
Lemma audited_kept db db' : rtc audited db db' → kept db db'.
Proof. induction 1 as [|x y z [] _ IH]; [done|]. etrans; [apply audit_kept|exact IH]. Qed.

Lemma kept_lawful db db' : kept db db' → lawful db db'.
Proof.
  intros [Es Er Ei] strict [].
  split; [split; unfold is_uncertain, unresolved_in in *; rewrite ?Er, ?Es; [done..| |done|done|done]|].
  - intros r i Hr Hi. by eapply Ei, lf_items0.
  - intros r Hr. exists r. rewrite Er. auto with life.
Qed.

(** ** Moves of a receipt *)

Lemma active_states r : is_active r = true ↔ rc_state r ∈ _ACTIVE.
Proof. unfold is_active, str_in. by rewrite bool_decide_eq_true. Qed.

Lemma move_life strict db row row' : row_move db row row' → rc_state row ∈ RECEIPT_STATES →
  rtc (life strict) (rc_state row) (rc_state row') ∧ rc_state row' ∈ RECEIPT_STATES ∧
  (rc_state row' = "queued"%string → rc_state row = "queued"%string).
Proof.
  intros Hm Hs. assert (∀ x, x ∈ "landing"%string :: _SETTLED → x ∈ RECEIPT_STATES ∧ x ≠ "queued"%string) as Hset.
  { intros x Hx. unfold _SETTLED, _TERMINAL, ESCALATED in Hx. simpl in Hx.
    repeat (apply elem_of_cons in Hx as [->|Hx]; [by split; [by apply (bool_decide_unpack _)|]|]).
    by apply elem_of_nil in Hx. }
  destruct Hm as [->|Ha%active_states ->|Ha%active_states He Hu|E He|E ->].
  - done.
  - split; [|split; [by apply (bool_decide_unpack _)|done]].
    apply elem_of_cons in Ha as [->|[->|[]%elem_of_nil]%elem_of_cons]; [apply rtc_once; constructor|done].
  - destruct (Hset _ He). split; [apply rtc_once; by constructor|]. split; [done|]. intros; done.
  - rewrite E. split; [apply rtc_once; by constructor|].
    apply elem_of_cons in He as [->|[->|[]%elem_of_nil]%elem_of_cons];
      (split; [by apply (bool_decide_unpack _)|done]).
  - split; [apply rtc_once; by constructor|]. split; [by apply (bool_decide_unpack _)|done].
Qed.

(** A move never enters execution. *)
Lemma move_active db row row' : row_move db row row' → is_active row' = true → is_active row = true.
Proof.
  rewrite !active_states. intros Hm Ha. destruct Hm as [<-|Hact _|Hact _ _|_ He|_ He]; [done|by apply active_states..| |];
    exfalso; revert Ha; [|rewrite He; by apply (bool_decide_unpack _)].
  repeat (apply elem_of_cons in He as [->|He]; [by apply (bool_decide_unpack _)|]). by apply elem_of_nil in He.
Qed.

Lemma inert_states s : s ∈ ["landing"; "queued"; "escalated"; "succeeded"]%string → s ∉ _ACTIVE.
Proof.
  intros Hs. repeat (apply elem_of_cons in Hs as [->|Hs]; [by apply (bool_decide_unpack _)|]).
  by apply elem_of_nil in Hs.
Qed.

(** A move keeps the link with the ledger. *)
Lemma move_link db row row' t :
  row_move db row row' → rc_task_id row = Some t →
  (is_uncertain db t → rc_state row = "uncertain"%string) → (unresolved_in db t → is_active row = true) →
  (is_uncertain db t → rc_state row' = "uncertain"%string) ∧ (unresolved_in db t → is_active row' = true).
Proof.
  intros Hm Ht Hu Hq.
  assert (is_uncertain db t → unresolved_in db t) as Hur.
  { intros (s & Hs & Hst & E). exists s. split_and!; [done..|]. unfold unresolved. by rewrite E. }
  destruct Hm as [E|Ha E|Ha He Hn|E He|E He].
  - unfold is_active. rewrite E. done.
  - unfold is_active. rewrite E. done.
  - split; [intros ?%Hur|intros ?]; by destruct (Hn t Ht).
  - split; [intros Hx%Hur|intros Hx]; apply Hq, active_states in Hx; destruct (inert_states (rc_state row)); set_solver.
  - split; [intros Hx%Hur|intros Hx]; apply Hq, active_states in Hx; destruct (inert_states (rc_state row)); set_solver.
Qed.

Lemma same_work_identity a a' b b' : identity a' = identity a → identity b' = identity b → same_work a' b' = same_work a b.
Proof.
  intros Ha Hb. pose proof (identity_item _ _ Ha) as Ia. pose proof (identity_item _ _ Hb) as Ib.
  apply identity_subject, subject_slot in Ha, Hb. injection Ha as Ra Na _ _ _. injection Hb as Rb Nb _ _ _.
  unfold same_work. by rewrite Ia, Ib, Ra, Rb, Na, Nb.
Qed.

Lemma rows_lawful f db :
  (∀ row, row ∈ f_receipts db → rewritten db row (f row)) → lawful db (set_receipts (fmap f) db).
Proof.
  intros Hf strict [Htk Hids Htasks Hst Hqu Hsl Hit Hal Hun Hqt].
  assert (∀ r, r ∈ f_receipts db → rc_id (f r) = rc_id r) as Hid by (intros r Hr; apply identity_id, (Hf r Hr)).
  assert (∀ r, r ∈ f_receipts db → slot (f r) = slot r) as Hslot
    by (intros r Hr; apply subject_slot, identity_subject, (Hf r Hr)).
  assert (rc_id <$> (f <$> f_receipts db) = rc_id <$> f_receipts db) as Eids.
  { rewrite <-list_fmap_compose. apply list_fmap_ext. intros i r Hr%list_elem_of_lookup_2. by apply Hid. }
  split.
  - split; simpl; [done|by rewrite Eids|..].
    + intros r1 r2 t (x1 & -> & H1)%list_elem_of_fmap (x2 & -> & H2)%list_elem_of_fmap.
      rewrite !Hid by done. destruct (Hf _ H1) as [_ T1 _], (Hf _ H2) as [_ T2 _]. rewrite T1, T2. by apply Htasks.
    + intros r (x & -> & Hx)%list_elem_of_fmap. destruct (Hf _ Hx) as [_ _ Hm].
      by destruct (move_life strict _ _ _ Hm (Hst _ Hx)) as (_ & ? & _).
    + intros r (x & -> & Hx)%list_elem_of_fmap Hq. destruct (Hf _ Hx) as [_ -> Hm].
      destruct (move_life strict _ _ _ Hm (Hst _ Hx)) as (_ & _ & Hb). by apply Hqu, Hb.
    + intros r1 r2 (x1 & -> & H1)%list_elem_of_fmap (x2 & -> & H2)%list_elem_of_fmap. rewrite !Hid by done.
      rewrite (Hslot _ H1), (Hslot _ H2). by apply Hsl.
    + intros r i (x & -> & Hx)%list_elem_of_fmap. rewrite (identity_item _ _ (rw_identity _ _ _ (Hf _ Hx))). by apply Hit.
    + intros Hs r1 r2 (x1 & -> & H1)%list_elem_of_fmap (x2 & -> & H2)%list_elem_of_fmap. rewrite !Hid by done.
      destruct (Hf _ H1) as [I1 _ M1], (Hf _ H2) as [I2 _ M2]. rewrite (same_work_identity _ _ _ _ I1 I2).
      intros A1%(move_active _ _ _ M1) A2%(move_active _ _ _ M2). by apply (Hal Hs).
    + intros r t (x & -> & Hx)%list_elem_of_fmap. destruct (Hf _ Hx) as [_ -> Hm]. intros Ht.
      destruct (move_link db x (f x) t Hm Ht); [by apply Hun|by apply Hqt|done].
    + intros r t (x & -> & Hx)%list_elem_of_fmap. destruct (Hf _ Hx) as [_ -> Hm]. intros Ht.
      destruct (move_link db x (f x) t Hm Ht); [by apply Hun|by apply Hqt|done].
  - intros r Hr. exists (f r). destruct (Hf _ Hr) as [E T Hm]. split; [by apply list_elem_of_fmap_2|].
    split; [by apply identity_subject|left; by apply identity_item|by left|]. by destruct (move_life strict _ _ _ Hm (Hst _ Hr)).
Qed.

(** ** Entering execution *)

Lemma same_work_sym a b : same_work a b = same_work b a.
Proof.
  unfold same_work. f_equal.
  - destruct (rc_work_item_id a), (rc_work_item_id b); try done. apply Z.eqb_sym.
  - rewrite (Z.eqb_sym (rc_issue_number a)). f_equal. apply bool_decide_ext. split; congruence.
Qed.

Lemma open_lawful db row row' : row ∈ f_receipts db → opens db row row' → lawful db (put_receipt row' db).
Proof.
  intros Hrow [Hident Hst' _ Halone Hfrom] strict Hwf. pose proof (identity_id _ _ Hident) as Hid.
  destruct Hwf as [Htk Hids Htasks Hst Hqu Hsl Hit Hal Hun Hqt].
  pose proof (λ r, elem_replaced rc_id row row' Hid (f_receipts db) r Hrow) as Hrep.
  assert (∀ t, rc_task_id row' = Some t → (∀ x, x ∈ f_receipts db → rc_id x ≠ rc_id row → rc_task_id x ≠ Some t) ∧
            ¬ is_uncertain db t) as Htask.
  { intros t Ht. destruct Hfrom as [(_ & t' & Ht' & Hr & Hs)|[Hd Et]].
    - assert (t' = t) as -> by congruence. split; [by intros x Hx _; apply Hr|]. intros (s & Hsin & Est & _). by apply (Hs s).
    - rewrite Et in Ht. split; [intros x Hx Hne Hxt; by apply Hne, (Htasks x row t)|]. intros Hu.
      apply (Hun row t) in Hu; [|done..]. rewrite Hu in Hd. revert Hd. by apply (bool_decide_unpack _). }
  split.
  - split; simpl; try done.
    + by rewrite (replace_fmap rc_id row row').
    + intros r1 r2 t [->|[H1 N1]]%Hrep [->|[H2 N2]]%Hrep E1 E2; [done|..|by apply (Htasks r1 r2 t)].
      * by destruct (proj1 (Htask t E1) r2 H2 N2).
      * by destruct (proj1 (Htask t E2) r1 H1 N1).
    + intros r [->|[Hr _]]%Hrep; [rewrite Hst'; by apply (bool_decide_unpack _)|by apply Hst].
    + intros r [->|[Hr _]]%Hrep; [by rewrite Hst'|by apply Hqu].
    + assert (slot row' = slot row) as Es by (by apply subject_slot, identity_subject).
      intros r1 r2 [->|[H1 N1]]%Hrep [->|[H2 N2]]%Hrep; rewrite ?Es, ?Hid; [done|by apply Hsl..].
    + intros r i [->|[Hr _]]%Hrep; [rewrite (identity_item _ _ Hident); by apply Hit|by apply Hit].
    + intros Hstrict r1 r2 [->|[H1 N1]]%Hrep [->|[H2 N2]]%Hrep A1 A2; [done|..|by apply (Hal Hstrict)].
      * rewrite (same_work_identity _ _ r2 r2 Hident eq_refl), same_work_sym. intros Hs. by rewrite (Halone r2 H2 A2 N2) in Hs.
      * rewrite (same_work_identity r1 r1 _ _ eq_refl Hident). intros Hs. by rewrite (Halone r1 H1 A1 N1) in Hs.
    + intros r t [->|[Hr _]]%Hrep Ht Hu; [|by apply (Hun r t)]. by destruct (proj2 (Htask t Ht)).
    + intros r t [->|[Hr _]]%Hrep Ht Hu; [|by apply (Hqt r t)]. unfold is_active. by rewrite Hst'.
  - intros r Hr. destruct (decide (rc_id r = rc_id row)) as [E|E]; [|exists r; split; [apply Hrep; auto|auto with life]].
    rewrite (key_unique rc_id row _ r Hids Hrow Hr E). exists row'. split; [apply Hrep; auto|].
    split; [by apply identity_subject|left; by apply identity_item| |].
    + destruct Hfrom as [[E' _]|[_ Et]]; [right; left; split; [done|by apply Hqu]|by left].
    + apply rtc_once. rewrite Hst'. destruct Hfrom as [[-> _]|[Hd _]]; [constructor|by constructor].
Qed.

(** ** New receipts and links *)

Lemma receive_lawful db row : received db row → lawful db (set_receipts (λ l, l ++ [row]) db).
Proof.
  intros [Hid Hst' Htask Hslot Hitem] strict [Htk Hids Htasks Hst Hqu Hsl Hit Hal Hun Hqt].
  assert (∀ r, r ∈ f_receipts db ++ [row] → r ∈ f_receipts db ∨ r = row) as Hin.
  { intros r [?|?%list_elem_of_singleton]%elem_of_app; auto. }
  assert (is_active row = false) as Hna by (unfold is_active; by rewrite Hst').
  split; [|intros r Hr; exists r; split; [simpl; apply elem_of_app; auto|auto with life]].
  split; simpl; try done.
  - rewrite fmap_app. apply NoDup_app. split_and!; [done| |apply NoDup_singleton]. by intros x Hx ->%list_elem_of_singleton.
  - intros r1 r2 t [H1| ->]%Hin [H2| ->]%Hin E1 E2; [by apply (Htasks r1 r2 t)|congruence..].
  - intros r [Hr| ->]%Hin; [by apply Hst|]. rewrite Hst'. by apply (bool_decide_unpack _).
  - intros r [Hr| ->]%Hin; [by apply Hqu|done].
  - intros r1 r2 [H1| ->]%Hin [H2| ->]%Hin E; [by apply Hsl| | |done]; exfalso; [|symmetry in E]; revert E; by apply Hslot.
  - intros r i [Hr| ->]%Hin; [by apply Hit|by apply Hitem].
  - intros Hs r1 r2 [H1| ->]%Hin [H2| ->]%Hin A1 A2; [by apply (Hal Hs)|congruence..].
  - intros r t [Hr| ->]%Hin Ht; [by apply Hun|congruence].
  - intros r t [Hr| ->]%Hin Ht; [by apply Hqt|congruence].
Qed.

Lemma adopt_keeps repo n i r : adopt repo n i r = r ∨
  rc_work_item_id r = None ∧ rc_repo r = repo ∧ rc_issue_number r = n ∧ adopt repo n i r = with_work_item (Some i) r.
Proof.
  unfold adopt, adopts. simpl. destruct (rc_work_item_id r); [left; by rewrite andb_false_r|].
  destruct (bool_decide (rc_repo r = repo)) eqn:E; [|by left]. destruct (Z.eqb_spec (rc_issue_number r) n); [|by left].
  right. by apply bool_decide_eq_true in E.
Qed.

Lemma adopt_lawful repo n i db :
  i ∈ wi_id <$> f_items db → (∀ r, r ∈ f_receipts db → rc_work_item_id r ≠ Some i) →
  lawful db (set_receipts (fmap (adopt repo n i)) db).
Proof.
  intros Hi Hfresh strict [Htk Hids Htasks Hst Hqu Hsl Hit Hal Hun Hqt].
  assert (∀ r, subject (adopt repo n i r) = subject r ∧ rc_task_id (adopt repo n i r) = rc_task_id r ∧
            rc_state (adopt repo n i r) = rc_state r) as Had.
  { intros r. unfold adopt. by case_match. }
  assert (∀ r, rc_id (adopt repo n i r) = rc_id r) as Hid by (intros r; apply subject_id, Had).
  assert (∀ r, is_active (adopt repo n i r) = is_active r) as Hact.
  { intros r. unfold is_active. by destruct (Had r) as (_ & _ & ->). }
  split.
  - split; simpl; try done.
    + rewrite <-list_fmap_compose. rewrite (list_fmap_ext _ rc_id (f_receipts db)); [done|]. intros k r _. apply Hid.
    + intros r1 r2 t (x1 & -> & H1)%list_elem_of_fmap (x2 & -> & H2)%list_elem_of_fmap. rewrite !Hid.
      destruct (Had x1) as (_ & -> & _), (Had x2) as (_ & -> & _). by apply Htasks.
    + intros r (x & -> & Hx)%list_elem_of_fmap. destruct (Had x) as (_ & _ & ->). by apply Hst.
    + intros r (x & -> & Hx)%list_elem_of_fmap. destruct (Had x) as (_ & -> & ->). by apply Hqu.
    + intros r1 r2 (x1 & -> & H1)%list_elem_of_fmap (x2 & -> & H2)%list_elem_of_fmap. rewrite !Hid.
      rewrite (subject_slot _ _ (proj1 (Had x1))), (subject_slot _ _ (proj1 (Had x2))). by apply Hsl.
    + intros r j (x & -> & Hx)%list_elem_of_fmap. destruct (adopt_keeps repo n i x) as [->|(_ & _ & _ & ->)]; [by apply Hit|].
      by intros [= <-].
    + intros Hstrict r1 r2 (x1 & -> & H1)%list_elem_of_fmap (x2 & -> & H2)%list_elem_of_fmap. rewrite !Hid, !Hact.
      intros A1 A2 Hs. apply (Hal Hstrict); try done. revert Hs.
      destruct (adopt_keeps repo n i x1) as [->|(N1 & R1 & I1 & ->)], (adopt_keeps repo n i x2) as [->|(N2 & R2 & I2 & ->)];
        unfold same_work; simpl; [done| | |].
      * destruct (rc_work_item_id x1) as [j|] eqn:E; [|by rewrite ?N2]. destruct (Z.eqb_spec j i) as [->|]; [|by rewrite ?N2].
        by destruct (Hfresh x1 H1).
      * destruct (rc_work_item_id x2) as [j|] eqn:E; [|by rewrite ?N1]. destruct (Z.eqb_spec i j) as [<-|]; [|by rewrite ?N1].
        by destruct (Hfresh x2 H2).
      * intros _. rewrite N1, R1, R2, I1, I2, Z.eqb_refl. by rewrite bool_decide_eq_true_2.
    + intros r t (x & -> & Hx)%list_elem_of_fmap. destruct (Had x) as (_ & -> & ->). by apply Hun.
    + intros r t (x & -> & Hx)%list_elem_of_fmap. rewrite Hact. destruct (Had x) as (_ & -> & _). by apply Hqt.
  - intros r Hr. exists (adopt repo n i r). destruct (Had r) as (Hs & Ht & E). split; [by apply list_elem_of_fmap_2|].
    split; [done| |by left|by rewrite E]. destruct (adopt_keeps repo n i r) as [->|(? & _)]; auto.
Qed.

Lemma wrote_lawful db db' : rtc wrote db db' → lawful db db'.
Proof.
  induction 1 as [db|db db1 db2 Hw _ IH]; [by apply kept_lawful|]. eapply lawful_trans; [|exact IH].
  destruct Hw as [actor action task detail|task actor detail|db1 Ha|c|row row' Hin Hrw|f Hf|row row' Hin Ho|row Hr|repo n i Hi Hfr].
  - apply kept_lawful, audit_kept.
  - apply kept_lawful, audit_kept.
  - apply kept_lawful. by destruct Ha.
  - by apply kept_lawful.
  - intros strict Hwf. revert strict Hwf. change (lawful db (set_receipts (fmap (λ r, if rc_id r =? rc_id row' then row' else r)) db)).
    intros strict Hwf. apply rows_lawful; [|done]. intros x Hx. destruct Hrw as [E T Hm]. pose proof (identity_id _ _ E).
    destruct (Z.eqb_spec (rc_id x) (rc_id row')) as [Ex|]; [|by apply edited_rewritten].
    rewrite (key_unique rc_id row (f_receipts db) x (lf_ids _ Hwf) Hin Hx) by congruence. by split.
  - by apply rows_lawful.
  - by apply (open_lawful db row).
  - by apply receive_lawful.
  - by apply adopt_lawful.
Qed.

(** ** The start ledger *)

Lemma unresolved_status s : unresolved s = true ↔ ft_status s ∈ _UNRESOLVED_STARTS.
Proof. unfold unresolved, str_in. by rewrite bool_decide_eq_true. Qed.

(** A ticket that is not settled is unresolved. *)
Lemma open_ticket db s : tickets_wf (f_starts db) → s ∈ f_starts db → ft_status s ∉ _TERMINAL → unresolved s = true.
Proof.
  intros Htk Hin Hs. pose proof (lw_status _ Htk) as Hall. rewrite Forall_forall in Hall. specialize (Hall s Hin).
  apply unresolved_status. revert Hall Hs. clear. unfold START_STATUSES, _TERMINAL, _UNRESOLVED_STARTS. set_solver.
Qed.

Lemma authorize_lawful `{Environ, IsoFormat, Hashing} t key actor model cost db r db' :
  authorize_start t key actor model cost db = Ok (r, db') → lawful db db'.
Proof.
  intros (k & a & m & c & -> & -> & -> & Hc & Hauth)%authorize_inv.
  destruct Hauth as [why db' [->|Hau]| |row policy oversight evidence recovery detail Hg s].
  - by apply kept_lawful.
  - by apply kept_lawful, audited_kept, rtc_once.
  - by apply kept_lawful.
  - eapply lawful_trans; [|apply kept_lawful, audited_kept, rtc_once; by apply audited_intro].
    destruct (money_ok _ _ _ Hc) as [_ Hpos]. destruct Hg as [Hfence Hrow _ Hn%find_start_None _ _ _ _].
    destruct (can_start_ok _ _ _ _ Hfence Hrow) as [[_ Hadm _ _ _ _] _].
    apply receipt_elem in Hrow as [Hin Htask].
    intros strict [Htk Hids Htasks Hst Hqu Hsl Hit Hal Hun Hqt]. split; [|intros r Hr; exists r; auto with life].
    split; simpl; try done.
    + by apply tickets_append; [|apply fresh_id|..].
    + intros r' t' Hr' Ht'. rewrite is_uncertain_snoc by done. by apply Hun.
    + intros r' t' Hr' Ht' (s' & Hs' & Est & Hur). simpl in Hs'. rewrite elem_of_app, list_elem_of_singleton in Hs'.
      destruct Hs' as [Hs'| ->].
      * apply (Hqt r' t'); [done..|]. by exists s'.
      * simpl in Est. subst t'. rewrite (key_unique rc_id row (f_receipts db) r' Hids Hin Hr').
        -- apply active_states. rewrite Hadm. by apply (bool_decide_unpack _).
        -- by apply (Htasks r' row t).
Qed.

(** A settlement leaves every other ticket, and none of its task's tickets
    unresolved that were not. *)
Lemma unresolved_put s s' db t :
  s ∈ f_starts db → ft_id s' = ft_id s → ft_task_id s' = ft_task_id s → unresolved s = true →
  unresolved_in (put_start s' db) t → unresolved_in db t.
Proof.
  intros Hs Hid Ht Hur (x & Hx & Hxt & Hxu). simpl in Hx.
  apply (elem_replaced ft_id s s' Hid) in Hx as [->|[Hx _]]; [| |done]; [exists s; by rewrite <-Ht|by exists x].
Qed.

Lemma settled_links strict db s s' row now :
  life_wf_at strict db → s ∈ f_starts db → ft_id s' = ft_id s → ft_task_id s' = ft_task_id s → unresolved s = true →
  row ∈ f_receipts db → rc_task_id row = Some (ft_task_id s) →
  let db1 := put_start s' db in
  let row' := with_state (settled_state (ft_status s') s' row db1) now row in
  is_active row' = true ∧ rtc (life strict) (rc_state row) (rc_state row') ∧
  (is_uncertain db1 (ft_task_id s) → rc_state row' = "uncertain"%string).
Proof.
  intros [_ _ _ _ _ _ _ _ Hun Hqt] Hs Hid Ht Hur Hrow Hrt db1 row'.
  assert (is_active row = true) as Hact%active_states by (apply (Hqt row (ft_task_id s)); [done..|by exists s]).
  assert (rc_state row = "admitted"%string ∨ rc_state row = "uncertain"%string) as Hst.
  { unfold _ACTIVE in Hact. set_solver. }
  unfold row', is_active. cbn [rc_state with_state]. unfold settled_state.
  case_bool_decide as Hu.
  { split_and!; [done| |done]. destruct Hst as [->| ->]; [apply rtc_once; constructor|done]. }
  destruct Hst as [E|E]; rewrite E.
  - rewrite bool_decide_eq_false_2 by done. split_and!; [done..|]. unfold db1.
    rewrite (is_uncertain_put s s' db _ Hs Hid Ht). intros [[_ ?]|(x & ? & ? & ? & ?)]; [done|].
    rewrite <-E. apply (Hun row (ft_task_id s)); [done..|]. by exists x.
  - rewrite bool_decide_eq_true_2 by done. cbn [andb]. destruct (existsb _ _) eqn:Hex; cbn [negb]; [done|].
    split_and!; [done|apply rtc_once; constructor|]. unfold db1.
    rewrite (is_uncertain_put s s' db _ Hs Hid Ht). intros [[_ ?]|(x & Hx & Hne & Hxt & Hxu)]; [done|].
    exfalso. apply not_true_iff_false in Hex. apply Hex, existsb_exists. exists x. split.
    + apply list_elem_of_In, list_elem_of_filter. split; [by rewrite Ht|]. simpl.
      apply (elem_replaced ft_id s s' Hid); auto.
    + rewrite Hxu. rewrite bool_decide_eq_true_2 by done. simpl. apply negb_true_iff, Z.eqb_neq. congruence.
Qed.

Lemma put_start_lawful db s s' :
  s ∈ f_starts db → start_le s s' → ft_status s' = ft_status s →
  match ft_accounting_basis s' with Some b => b ∈ FREE_START_BASES | None => True end →
  lawful db (put_start s' db).
Proof.
  intros Hs Hle Est Hb strict Hwf. pose proof Hle as [[= Hid Ht _ _ _ _ _] _ _].
  destruct Hwf as [Htk Hids Htasks Hst Hqu Hsl Hit Hal Hun Hqt].
  assert (∀ x, x ∈ f_starts (put_start s' db) → ∃ y, y ∈ f_starts db ∧ ft_task_id y = ft_task_id x ∧
            ft_status y = ft_status x) as Hback.
  { simpl. intros x [->|[Hx _]]%(elem_replaced ft_id s s' Hid); [by exists s|by exists x|done]. }
  split; [|intros r Hr; exists r; auto with life]. split; try done.
  - apply (tickets_replace s); try done. rewrite Est.
    pose proof (lw_status _ Htk) as Hall. rewrite Forall_forall in Hall. by apply Hall.
  - intros r t Hr Htask (x & Hx & Hxt & Hxu). destruct (Hback x Hx) as (y & Hy & Eyt & Eys).
    apply (Hun r t); [done..|]. exists y. split_and!; [done|congruence..].
  - intros r t Hr Htask (x & Hx & Hxt & Hxu%unresolved_status). destruct (Hback x Hx) as (y & Hy & Eyt & Eys).
    apply (Hqt r t); [done..|]. exists y. split_and!; [done|congruence|]. apply unresolved_status. by rewrite Eys.
Qed.

Lemma settle_lawful db s s' row now :
  s ∈ f_starts db → start_le s s' → unresolved s = true → ft_status s' ∈ START_STATUSES →
  match ft_accounting_basis s' with Some b => b ∈ FREE_START_BASES | None => True end →
  row ∈ f_receipts db → rc_task_id row = Some (ft_task_id s) →
  let db1 := put_start s' db in
  lawful db (put_receipt (with_state (settled_state (ft_status s') s' row db1) now row) db1).
Proof.
  intros Hs Hle Hur Hst' Hb Hrow Hrt db1 strict Hwf. pose proof Hle as [[= Hid Ht _ _ _ _ _] _ _].
  destruct (settled_links strict db s s' row now Hwf Hs Hid Ht Hur Hrow Hrt) as (Hact & Hlife & Hunc).
  set (row' := with_state _ now row) in *. fold db1 in Hunc.
  pose proof Hwf as [Htk Hids Htasks Hstates Hqu Hsl Hit Hal Hun Hqt].
  assert (is_active row = true) as Hactive by (apply (Hqt row (ft_task_id s)); [done..|by exists s]).
  pose proof (λ r, elem_replaced rc_id row row' eq_refl (f_receipts db) r Hrow) as Hrep.
  assert (∀ x t, x ∈ f_receipts db → rc_id x ≠ rc_id row → rc_task_id x = Some t → t ≠ ft_task_id s) as Hother.
  { intros x t Hx Hne Hxt ->. apply Hne. by apply (Htasks x row (ft_task_id s)). }
  split.
  2: { intros r Hr. destruct (decide (rc_id r = rc_id row)) as [E|E].
       - rewrite (key_unique rc_id row _ r Hids Hrow Hr E). exists row'. split; [apply Hrep; auto|].
         split; [done|by left|by left|done].
       - exists r. split; [apply Hrep; auto|auto with life]. }
  split.
  - by apply (tickets_replace s s' db).
  - simpl. by rewrite (replace_fmap rc_id row row').
  - intros r1 r2 t [->|[H1 N1]]%Hrep [->|[H2 N2]]%Hrep E1 E2; try done.
    + by apply (Htasks row r2 t).
    + by apply (Htasks r1 row t).
    + by apply (Htasks r1 r2 t).
  - intros r [->|[Hr _]]%Hrep; [|by apply Hstates]. apply active_states in Hact. revert Hact. clear.
    unfold _ACTIVE, RECEIPT_STATES. set_solver.
  - intros r [->|[Hr _]]%Hrep; [|by apply Hqu]. intros E. apply active_states in Hact. rewrite E in Hact.
    by destruct (inert_states "queued"%string); [set_solver|].
  - intros r1 r2 [->|[H1 N1]]%Hrep [->|[H2 N2]]%Hrep E; [done|..|by apply Hsl].
    + by apply (Hsl row r2).
    + by apply (Hsl r1 row).
  - intros r i [->|[Hr _]]%Hrep; [by apply (Hit row)|by apply Hit].
  - intros Hs' r1 r2 [->|[H1 N1]]%Hrep [->|[H2 N2]]%Hrep A1 A2; [done|..|by apply (Hal Hs')].
    + by apply (Hal Hs' row r2).
    + by apply (Hal Hs' r1 row).
  - intros r t [->|[Hr Hne]]%Hrep Htask Hu.
    + assert (t = ft_task_id s) as -> by (simpl in Htask; congruence). by apply Hunc.
    + apply (Hun r t); [done..|]. pose proof (Hother r t Hr Hne Htask) as Hts.
      apply (is_uncertain_put s s' db t Hs Hid Ht) in Hu as [[? _]|(x & ? & ? & ? & ?)]; [done|by exists x].
  - intros r t [->|[Hr Hne]]%Hrep Htask Hu; [done|]. apply (Hqt r t); [done..|].
    by apply (unresolved_put s s').
Qed.

Lemma record_lawful t k status actor cost basis session reconciled db r db' :
  record_start_outcome t k status actor cost basis session reconciled db = Ok (r, db') → lawful db db'.
Proof.
  intros (c & n & rec & Hst%effective_status & Hb & _ & _ & _ & Hset)%record_inv.
  destruct Hset as [why|s s' db' Hf Es Ec En Hcase|s row db' Hf Hs _ _ s' db1 Hrow row' Haud].
  - by apply kept_lawful.
  - destruct (find_start_elem _ _ _ _ Hf) as (Hin & _ & _).
    destruct Hcase as [(-> & -> & _)|(b & -> & Hbn & -> & ->)]; [by apply kept_lawful|].
    apply (put_start_lawful db s); [done| |done|done]. split; [done| |done]. intros _. by rewrite Hbn.
  - destruct (find_start_elem _ _ _ _ Hf) as (Hin & <- & _).
    eapply lawful_trans; [|by apply kept_lawful, audited_kept].
    apply find_first_Some in Hrow as [Hrow Hrt%bool_decide_eq_true].
    intros strict Hwf. apply (settle_lawful db s s'); try done.
    + by apply settled_le.
    + by apply (open_ticket db); [apply Hwf|..].
    + simpl. revert Hst. clear. unfold START_STATUSES, _TERMINAL. set_solver.
Qed.

(** A step is one of the start ledger, or a sequence of elementary writes and
    perhaps the acknowledgement of an operator's request. *)
Lemma step_cases `{Environ, IsoFormat, Hashing, Rendering, Rivals, IntakeHooks, !FreshIds} db db' :
  (∃ strict, life_wf_at strict db) → life_step db db' →
  ledger_step db db' ∨ ∃ db1, rtc wrote db db1 ∧ (db' = db1 ∨ acknowledged db1 db').
Proof.
  intros [strict [_ Hnd Htasks Hst Hqu Hsl Hit _ _ _]]. destruct 1 as [| | | | | | | | | |row actor resume hold r db' Hin Hq|n db' Hq|now].
  - right. eexists. split; [by eapply receive_wrote|by left].
  - right. eexists. split; [by eapply admit_next_inv|by left].
  - left. by eapply LedgerAuthorize.
  - left. by eapply LedgerOutcome.
  - right. eexists. split; [by eapply finish_wrote|by left].
  - right. eexists. split; [by eapply handoff_wrote|by left].
  - right. eexists. split; [by eapply recovery_wrote|by left].
  - right. eexists. split; [by eapply control_wrote|by left].
  - right. by eapply request_wrote.
  - right. eexists. split; [by eapply stale_wrote|by left].
  - right. eexists. split; [by eapply request_chained|by left].
  - right. eexists. split; [|by left]. unfold retry_capacity_releases in Hq. case_match; [by simplify_eq|].
    by eapply retry_wrote.
  - left. constructor.
Qed.

Lemma acknowledged_lawful db db' : acknowledged db db' → lawful db db'.
Proof. intros []. apply kept_lawful, audit_kept. Qed.

Lemma step_lawful `{Environ, IsoFormat, Hashing, Rendering, Rivals, IntakeHooks, !FreshIds} db db' : life_step db db' → lawful db db'.
Proof.
  intros Hstep strict Hwf. destruct (step_cases db db' (ex_intro _ strict Hwf) Hstep) as [[]|(db1 & Hw & [->|Hack])].
  - by eapply authorize_lawful.
  - by eapply record_lawful.
  - by apply kept_lawful.
  - by apply wrote_lawful.
  - eapply lawful_trans; [by apply wrote_lawful|by apply acknowledged_lawful|done].
Qed.

(** A preorder every step respects is respected by every run. *)
Lemma run_preserves `{Environ, IsoFormat, Hashing, Rendering, Rivals, IntakeHooks, !FreshIds} (R : FDB → FDB → Prop) `{!PreOrder R} db db' :
  (∀ a b, life_wf a → wrote a b → R a b) → (∀ a b, life_wf a → ledger_step a b → R a b) →
  (∀ a b, acknowledged a b → R a b) → life_wf db → rtc life_step db db' → R db db' ∧ life_wf db'.
Proof.
  intros Hw Hl Hak Hwf Hsteps. induction Hsteps as [db|db db1 db2 Hstep _ IH]; [done|].
  destruct (step_lawful _ _ Hstep _ Hwf) as [Hwf1 _]. destruct (IH Hwf1) as [HR Hwf2]. split; [|done].
  etrans; [|exact HR]. destruct (step_cases _ _ (ex_intro _ true Hwf) Hstep) as [|(db0 & Hws & Hend)]; [by apply Hl|].
  transitivity db0; [|by destruct Hend as [->|]; [|apply Hak]].
  clear -Hw Hwf Hws PreOrder0. induction Hws as [|a b c Hab _ IH]; [done|]. etrans; [by apply Hw|]. apply IH.
  by destruct (wrote_lawful a b (rtc_once _ _ Hab) _ Hwf).
Qed.

Lemma ledger_life `{Environ, IsoFormat, Hashing, Rendering, Rivals, IntakeHooks} db db' :
  ledger_step db db' → life_step db db'.
Proof. destruct 1; [by eapply StepAuthorize|by eapply StepOutcome|apply StepClock]. Qed.

Lemma run_lives `{Environ, IsoFormat, Hashing, Rendering, Rivals, IntakeHooks, !FreshIds} db db' :
  life_wf db → rtc life_step db db' → lives true db db' ∧ life_wf db'.
Proof.
  apply (run_preserves (lives true)).
  - intros a b Ha Hab. by destruct (wrote_lawful a b (rtc_once _ _ Hab) _ Ha).
  - intros a b Ha Hab. by apply step_lawful; [apply ledger_life|].
  - intros a b [] r' Hr'. exists r'. rewrite audit_receipts. auto with life.
Qed.

(** ** Decisions and recoveries *)

(** What a decision or a recovery does to a receipt, under the guards of its
    source.
    - [BackQueue]: the work goes back to the queue under no task
      (factory_decisions.py:996-1013 after [_requeue_blocker]).
    - [BackSettle]: a waiting receipt is answered for good (factory_decisions.py:777, 783 and 1016-1025).
    - [BackAdmit]: a task goes on under its own receipt (factory_task_recovery.py:262,
      evidence_recovery.py:212, factory_continuations.py:174, factory_funding.py:857). *)
Inductive put_back (row row' : FactoryReceipt) : Prop :=
| BackQueue :
    (if bool_decide (rc_task_class row = Some REFINE_CLASS) then rc_state row ∈ DECISION_SETTLED_STATES
     else rc_state row = "escalated"%string) →
    rc_state row' = "queued"%string → rc_task_id row' = None → put_back row row'
| BackSettle :
    rc_state row ∈ ["queued"; "escalated"]%string →
    rc_state row' = "cancelled"%string ∨ rc_state row = "queued"%string ∧ rc_state row' = "succeeded"%string →
    rc_task_id row' = rc_task_id row → put_back row row'
| BackAdmit :
    rc_state row ∈ ["escalated"; "failed"]%string → rc_state row' = "admitted"%string → rc_task_id row' = rc_task_id row →
    put_back row row'.

(** The factory's operations, and the other parts that write receipts and
    starts: elementary writes ([wrote]: audits, the control row moved forward, other
    tables, a receipt's own documents, and the receipts dependency_prs.py:513,
    backlog_refill.py:292 and owner_prs.py:649 add to the queue), decisions and
    recoveries, and a start proved never to have had a session
    (reconciliation.py:3085-3091). *)
Inductive part_step `{Environ, IsoFormat, Hashing, Rendering, Rivals, IntakeHooks} (db : FDB) : FDB → Prop :=
| PartOperation db' : life_step db db' → part_step db db'
| PartWrite db' : wrote db db' → part_step db db'
| PartBack row row' :
    row ∈ f_receipts db → identity row' = identity row → put_back row row' → part_step db (put_receipt row' db)
| PartSettle s s' :
    s ∈ f_starts db → unresolved s = true → start_le s s' → ft_status s' = "failed"%string →
    ft_accounting_basis s' = Some "no_model_post"%string → part_step db (put_start s' db).

Lemma put_back_from row :
  (if bool_decide (rc_task_class row = Some REFINE_CLASS) then rc_state row ∈ DECISION_SETTLED_STATES
   else rc_state row = "escalated"%string) →
  rc_state row = "escalated"%string ∨ rc_state row = "succeeded"%string ∨ rc_state row = "failed"%string.
Proof.
  case_bool_decide; [|by left]. unfold DECISION_SETTLED_STATES. rewrite !elem_of_cons, elem_of_nil. tauto.
Qed.
Lemma put_back_life row row' : put_back row row' → rtc (life false) (rc_state row) (rc_state row') ∧ rc_state row' ∈ RECEIPT_STATES.
Proof.
  destruct 1 as [Hq -> _|Hs Hs' _|Hs -> _].
  - split; [|by apply (bool_decide_unpack _)]. apply rtc_once, LifeRequeue; [done|].
    destruct (put_back_from row Hq) as [->|[->| ->]]; by apply (bool_decide_unpack _).
  - destruct Hs' as [->|[-> ->]]; (split; [|by apply (bool_decide_unpack _)]); apply rtc_once; by constructor.
  - split; [|by apply (bool_decide_unpack _)]. apply rtc_once. by apply LifeRecover.
Qed.
(** The receipt was in no execution, and its task has no unresolved start. *)
Lemma put_back_inert row row' : put_back row row' → rc_state row ∉ _ACTIVE.
Proof.
  destruct 1 as [[->|[->| ->]]%put_back_from _ _|Hs _ _|Hs _ _]; try by apply (bool_decide_unpack _).
  all: rewrite !elem_of_cons, elem_of_nil in Hs; destruct Hs as [->|[->|[]]]; by apply (bool_decide_unpack _).
Qed.
Lemma put_back_lawful db row row' :
  row ∈ f_receipts db → identity row' = identity row → put_back row row' → life_wf_at false db →
  life_wf_at false (put_receipt row' db) ∧ lives false db (put_receipt row' db).
Proof.
  intros Hrow Hident Hback [Htk Hids Htasks Hst Hqu Hsl Hit _ Hun Hqt]. pose proof (identity_id _ _ Hident) as Hid.
  pose proof (λ r, elem_replaced rc_id row row' Hid (f_receipts db) r Hrow) as Hrep.
  destruct (put_back_life _ _ Hback) as [Hlife Hst']. pose proof (put_back_inert _ _ Hback) as Hin.
  assert (rc_task_id row' = None ∨ rc_task_id row' = rc_task_id row) as Htask by (destruct Hback; auto).
  assert (∀ t, rc_task_id row = Some t → ¬ unresolved_in db t) as Hquiet.
  { intros t Ht Hu. apply Hin. apply active_states. by apply (Hqt row t). }
  assert (∀ t, rc_task_id row' = Some t → rc_task_id row = Some t) as Hold by (intros t Ht; destruct Htask; congruence).
  split.
  - split; simpl; try done.
    + by rewrite (replace_fmap rc_id row row').
    + intros r1 r2 t [->|[H1 N1]]%Hrep [->|[H2 N2]]%Hrep E1 E2; [done|..|by apply (Htasks r1 r2 t)]; rewrite Hid.
      * by apply (Htasks row r2 t); [..|apply Hold|].
      * by apply (Htasks r1 row t); [..|apply Hold].
    + intros r [->|[Hr _]]%Hrep; [done|by apply Hst].
    + intros r [->|[Hr _]]%Hrep E; [|by apply Hqu]. destruct Hback as [_ _ ?|Hs [E'|[Eq E']] Ht|_ E' _]; [done|congruence..].
    + assert (slot row' = slot row) as Es by (by apply subject_slot, identity_subject).
      intros r1 r2 [->|[H1 N1]]%Hrep [->|[H2 N2]]%Hrep; rewrite ?Es, ?Hid; [done|by apply Hsl..].
    + intros r i [->|[Hr _]]%Hrep; [rewrite (identity_item _ _ Hident); by apply Hit|by apply Hit].
    + intros r t [->|[Hr _]]%Hrep Ht Hu; [|by apply (Hun r t)]. destruct (Hquiet t (Hold t Ht)).
      destruct Hu as (s & Hs & Hst2 & E). exists s. split_and!; [done..|]. unfold unresolved. by rewrite E.
    + intros r t [->|[Hr _]]%Hrep Ht Hu; [|by apply (Hqt r t)]. by destruct (Hquiet t (Hold t Ht)).
  - intros r Hr. destruct (decide (rc_id r = rc_id row)) as [E|E]; [|exists r; split; [apply Hrep; auto|auto with life]].
    rewrite (key_unique rc_id row _ r Hids Hrow Hr E). exists row'. split; [apply Hrep; auto|].
    split; [by apply identity_subject|left; by apply identity_item| |done].
    destruct Htask as [Et|Et]; [|by left]. destruct Hback as [Hq E' _|_ _ Et'|_ _ Et']; [|by left..].
    right. right. rewrite E' in *. done.
Qed.

(** A start settled as failed leaves fewer unresolved ones. *)
Lemma settle_start_lawful db s s' :
  s ∈ f_starts db → unresolved s = true → start_le s s' → ft_status s' = "failed"%string →
  ft_accounting_basis s' = Some "no_model_post"%string → lawful db (put_start s' db).
Proof.
  intros Hs Hur Hle Est Hb strict Hwf. pose proof Hle as [[= Hid Ht _ _ _ _ _] _ _].
  destruct Hwf as [Htk Hids Htasks Hst Hqu Hsl Hit Hal Hun Hqt].
  split; [|intros r Hr; exists r; auto with life]. split; try done.
  - apply (tickets_replace s); try done; [rewrite Est|rewrite Hb]; by apply (bool_decide_unpack _).
  - intros r t Hr Htask Hu. apply (Hun r t); [done..|].
    apply (is_uncertain_put s s' db t Hs Hid Ht) in Hu as [[? E]|(x & ? & ? & ? & ?)]; [congruence|by exists x].
  - intros r t Hr Htask Hu. apply (Hqt r t); [done..|]. by apply (unresolved_put s s').
Qed.

Lemma part_lawful `{Environ, IsoFormat, Hashing, Rendering, Rivals, IntakeHooks, !FreshIds} db db' :
  part_step db db' → life_wf_at false db → life_wf_at false db' ∧ lives false db db'.
Proof.
  destruct 1 as [db' Hs|db' Hw|row row' Hin Hi Hb|s s' Hs Hu Hle Est Hb].
  - by apply step_lawful.
  - by apply wrote_lawful, rtc_once.
  - by apply (put_back_lawful _ row).
  - by apply (settle_start_lawful db s).
Qed.
Lemma part_lives `{Environ, IsoFormat, Hashing, Rendering, Rivals, IntakeHooks, !FreshIds} db db' :
  rtc part_step db db' → life_wf_at false db → life_wf_at false db' ∧ lives false db db'.
Proof.
  induction 1 as [|a b c Hab _ IH]; intros Hwf; [done|]. destruct (part_lawful _ _ Hab Hwf) as [Hb Hl].
  destruct (IH Hb) as [Hc Hl']. split; [done|]. by etrans.
Qed.

(** ** Answers *)

(** What [_apply] writes: audits, and the work items of a split with their edges
    (factory_decisions.py:402-460). *)
Class QuietEffects `{DecisionEffects} : Prop :=
  effects_wrote : ∀ fields option_ note db r db', _apply fields option_ note db = Ok (r, db') → rtc wrote db db'.

Section answered.
Context `{Environ, IsoFormat, Hashing, Rendering, Rivals, IntakeHooks, !FreshIds, DecisionEffects, !QuietEffects}.

Lemma part_wrote a b : rtc wrote a b → rtc part_step a b.
Proof using. induction 1; [done|]. eapply rtc_l; [by apply PartWrite|done]. Qed.
Lemma part_audit actor action task detail db : ordinary action → part_step db (_audit actor action task detail db).
Proof using. intros. by apply PartWrite, WAudit. Qed.
Lemma part_edit row row' db : row ∈ f_receipts db → edited row row' → part_step db (put_receipt row' db).
Proof using. intros Hr He. apply PartWrite, (WRow _ row); [done|]. by apply edited_rewritten. Qed.

(** The receipt is still there after any steps. *)
Lemma part_refreshed row db db' :
  life_wf_at false db → row ∈ f_receipts db → rtc part_step db db' → refreshed row db' ∈ f_receipts db'.
Proof using All.
  intros Hwf Hr Hs. destruct (part_lives _ _ Hs Hwf) as [Hwf' Hl]. destruct (Hl row Hr) as (r' & Hr' & Hon).
  rewrite (refreshed_id row r'); [|by apply subject_id, (lo_subject Hon)|done].
  by rewrite refreshed_self; [|apply Hwf'|].
Qed.

Lemma requeue_open db row ignore :
  _requeue_blocker db row ignore = Ok None →
  if bool_decide (rc_task_class row = Some REFINE_CLASS) then rc_state row ∈ DECISION_SETTLED_STATES
  else rc_state row = "escalated"%string.
Proof using.
  unfold _requeue_blocker. intros Hq. case_match; [done|]. apply res_bind_ok in Hq as (p & _ & Hq).
  destruct p; [done|]. case_match; [done|]. case_match; [done|].
  destruct (bool_decide (rc_task_class row = _)); cbn [andb negb] in Hq.
  - destruct (str_in (rc_state row) DECISION_SETTLED_STATES) eqn:E; [|done]. by apply bool_decide_eq_true in E.
  - destruct (bool_decide (rc_state row = ESCALATED)) eqn:E; [|done]. by apply bool_decide_eq_true in E.
Qed.
Lemma part_requeue row row' actor db ignore :
  row ∈ f_receipts db → edited row row' → _requeue_blocker db row ignore = Ok None →
  rtc part_step db (_audit actor "operator_readmission_queued" None [("receipt_id"%string, PInt (rc_id row'))]
    (put_receipt (_requeue row') db)).
Proof using.
  intros Hr (Hi & _ & _) Hb%requeue_open. eapply rtc_l; [|apply rtc_once; by apply part_audit].
  apply (PartBack _ row); [done|by rewrite <-Hi|]. by apply BackQueue.
Qed.

Lemma grant_wrote row escalation option_ db o db' :
  grant_dispatch_refusal row escalation option_ db = Ok (o, db') →
  rtc part_step db db' ∧ f_receipts db' = f_receipts db.
Proof using.
  unfold grant_dispatch_refusal. intros ([v|] & _ & Hq)%res_bind_ok; [|by simplify_eq].
  apply res_bind_ok in Hq as (d & _ & Hq). case_match; [|done]. apply res_bind_ok in Hq as (id & _ & Hq). simplify_eq.
  split; [apply rtc_once; by apply part_audit|apply audit_receipts].
Qed.

Lemma readmit_steps row escalation option_ actor note ignore db r db' :
  row ∈ f_receipts db → rc_state row ∈ ["escalated"; "queued"]%string →
  _readmit row escalation option_ actor note ignore db = Ok (r, db') → rtc part_step db db'.
Proof using.
  intros Hr Hst. unfold _readmit. intros (direction & _ & Hq)%res_bind_ok.
  apply res_bind_ok in Hq as (surface & _ & Hq). apply res_bind_ok in Hq as ([why|d] & Hb & Hq).
  { simplify_eq. apply rtc_once, (PartBack _ row); [done..|]. apply BackSettle; [|by left|done].
    rewrite !elem_of_cons in *. tauto. }
  apply res_bind_ok in Hq as ([overlay db1] & [Hg Er]%grant_wrote & Hq). cbn beta iota in Hq. simplify_eq.
  etrans; [exact Hg|]. case_bool_decide as Eq.
  { apply rtc_once, (part_edit row); [by rewrite Er|done]. }
  destruct surface as [?|d']; [done|]. apply res_bind_ok in Hb as ([?|] & Hb & Hq); [done|]. simplify_eq.
  apply requeue_open in Hb. eapply rtc_l; [|apply rtc_once; by apply part_audit].
  apply (PartBack _ row); [by rewrite Er|done|]. by apply BackQueue.
Qed.
Lemma refine_steps row note actor db b db' :
  row ∈ f_receipts db → _requeue_refine row note actor db = Ok (b, db') → rtc part_step db db'.
Proof using.
  intros Hr. unfold _requeue_refine. intros (chat & _ & Hq)%res_bind_ok.
  apply res_bind_ok in Hq as (blocker & Hb & Hq). apply res_bind_ok in Hq as (escalation & _ & Hq).
  destruct blocker as [why|]; [simplify_eq; by apply rtc_once, (part_edit row)|].
  apply res_bind_ok in Hq as (row2 & Hrow2 & Hq). simplify_eq. eapply part_requeue; [done| |done].
  cbn [rc_task_class with_card with_retirement] in Hrow2. case_bool_decide; [by simplify_eq|].
  apply res_bind_ok in Hrow2 as (d & _ & Hrow2). by simplify_eq.
Qed.

Lemma settle_steps row escalation option_ effect actor note db r db' :
  row ∈ f_receipts db → settle_answer row escalation option_ effect actor note db = Ok (r, db') → rtc part_step db db'.
Proof using.
  intros Hr. unfold settle_answer. case_match eqn:E.
  - apply andb_true_iff in E as [_ Hst%bool_decide_eq_true]. case_match.
    + intros ([x db1] & Hq & Hq2)%res_bind_ok. simplify_eq. by apply readmit_steps in Hq.
    + intros Hq. simplify_eq. case_match; [|done]. apply rtc_once, (PartBack _ row); [done..|].
      apply BackSettle; [|by left|done]. unfold ESCALATED in Hst. rewrite !elem_of_cons in *. tauto.
  - intros Hq. simplify_eq. case_bool_decide as Eq; [|done]. apply rtc_once, (PartBack _ row); [done..|].
    apply BackSettle; [rewrite Eq; by apply (bool_decide_unpack _)|by right|done].
Qed.

Lemma resolve_open_steps row escalation option_ key label effect actor note effects requeue id db r db' :
  life_wf_at false db → row ∈ f_receipts db →
  resolve_open row escalation option_ key label effect actor note effects requeue id db = Ok (r, db') → rtc part_step db db'.
Proof using All.
  intros Hwf Hr. unfold resolve_open. intros ([answer db1] & Hs%settle_steps & Hq)%res_bind_ok; [|done].
  apply res_bind_ok in Hq as ([[[effects2 row2] escalation2] db2] & Hreq & Hq). cbn beta iota in Hreq, Hq.
  apply res_bind_ok in Hq as (escalation3 & _ & Hq). simplify_eq.
  pose proof (part_refreshed row db db1 Hwf Hr Hs) as Hr1. etrans; [exact Hs|].
  assert (rtc part_step db1 db2 ∧ row2 ∈ f_receipts db2) as [Hs2 Hr2].
  { destruct requeue; try done; [by simplify_eq|]. apply res_bind_ok in Hreq as ([b db3] & Hb%refine_steps & Hq); [|done].
    simplify_eq. split; [done|]. apply (part_refreshed _ db1); [|done..]. by destruct (part_lives db db1 Hs Hwf). }
  eapply rtc_r; [exact Hs2|]. by apply (part_edit row2).
Qed.

Lemma resolve_steps id option_ actor note effects expected db r db' :
  life_wf_at false db → _resolve id option_ actor note effects expected db = Ok (r, db') → rtc part_step db db'.
Proof using All.
  intros Hwf. unfold _resolve. intros Hq. do 3 apply res_bind_ok in Hq as (? & _ & Hq).
  destruct (receipt_by_id db id) as [row|] eqn:Hrow; [|by simplify_eq]. apply find_first_Some in Hrow as [Hr _].
  case_match; [by simplify_eq|]. case_match; [by simplify_eq|]. case_match eqn:Ecard.
  apply res_bind_ok in Hq as (terminal & _ & Hq). apply res_bind_ok in Hq as ([resolution db2] & Hres & Hq). cbn beta iota in Hq.
  do 3 apply res_bind_ok in Hq as (? & _ & Hq). simplify_eq.
  eapply rtc_r; [|by apply part_audit].
  match type of Ecard with _ = (?row1, _) => assert (edited row row1) as Hed by (destruct (is_card _); by simplify_eq) end.
  eapply rtc_l; [by apply (part_edit row)|]. destruct terminal.
  { apply res_bind_ok in Hres as (? & _ & Hres). by simplify_eq. }
  eapply resolve_open_steps; [| |exact Hres].
  - eapply part_lawful; [by apply (part_edit row)|done].
  - apply (put_receipt_elem row); [done|by apply edited_id].
Qed.
Lemma claim_steps id key actor expected db r db' : _claim id key actor expected db = Ok (r, db') → rtc part_step db db'.
Proof using.
  unfold _claim. intros Hq. repeat (case_match || apply res_bind_ok in Hq as (? & _ & Hq));
    simplify_eq; first [done|by apply rtc_once, part_audit].
Qed.

Lemma apply_steps id key actor note expected db r db' :
  life_wf_at false db → apply_decision id key actor note expected db = Ok (r, db') → rtc part_step db db'.
Proof using All.
  intros Hwf. unfold apply_decision. intros ([claimed db1] & Hc%claim_steps & Hq)%res_bind_ok. cbn beta iota in Hq.
  assert (life_wf_at false db1) as Hwf1 by (by destruct (part_lives _ _ Hc Hwf)).
  destruct claimed as [e|[fields escalation [resolved|]]]; [by simplify_eq..|]. destruct (is_card escalation).
  { apply res_bind_ok in Hq as ([x db2] & Hr & Hq). apply resolve_steps in Hr; [|done].
    destruct x; simplify_eq; [done|by etrans]. }
  apply res_bind_ok in Hq as ([e|option_] & _ & Hq); [by simplify_eq|].
  apply res_bind_ok in Hq as ([answer db2] & Ha%effects_wrote%part_wrote & Hq). cbn beta iota in Hq.
  assert (life_wf_at false db2) as Hwf2 by (by destruct (part_lives _ _ Ha Hwf1)).
  etrans; [exact Hc|]. destruct answer as [e|effects].
  { simplify_eq. eapply rtc_r; [exact Ha|]. by apply part_audit. }
  etrans; [exact Ha|]. apply res_bind_ok in Hq as ([x db3] & Hr & Hq). apply resolve_steps in Hr; [|done].
  by destruct x; simplify_eq.
Qed.

Lemma resume_steps t actor db r db' :
  life_wf_at false db → resume_escalated t actor db = Ok (r, db') → rtc part_step db db'.
Proof using All.
  intros Hwf. unfold resume_escalated. intros (options & _ & Hq)%res_bind_ok.
  destruct (_receipt db t) as [row|]; [|by simplify_eq]. destruct options as [|first options]; [by simplify_eq|].
  do 3 apply res_bind_ok in Hq as (? & _ & Hq). apply res_bind_ok in Hq as ([answer db1] & Ha & Hq). apply apply_steps in Ha; [|done].
  destruct answer.
  - by simplify_eq.
  - apply res_bind_ok in Hq as (? & _ & Hq). by simplify_eq.
Qed.

Lemma control_steps action actor policy t reason repo numbers own db r db' :
  life_wf_at false db → set_control action actor policy t reason repo numbers own db = Ok (r, db') → rtc part_step db db'.
Proof using All.
  intros Hwf. unfold set_control. intros ([x db1] & Hc%control_wrote%part_wrote & Hq)%res_bind_ok; [|apply Hwf].
  cbn beta iota in Hq. destruct x as [|answer]; [|by simplify_eq]. apply res_bind_ok in Hq as (a & _ & Hq).
  etrans; [exact Hc|]. eapply resume_steps; [|exact Hq]. by destruct (part_lives _ _ Hc Hwf).
Qed.
End answered.

(** The whole system: its parts, the operator's answers and the operator's
    controls, a resume that is an answer included. *)
Inductive system_step `{Environ, IsoFormat, Hashing, Rendering, Rivals, IntakeHooks, DecisionEffects} (db : FDB) : FDB → Prop :=
| SysPart db' : part_step db db' → system_step db db'
| SysAnswer id key actor note expected r db' :
    apply_decision id key actor note expected db = Ok (r, db') → system_step db db'
| SysControl action actor policy t reason repo numbers own r db' :
    set_control action actor policy t reason repo numbers own db = Ok (r, db') → system_step db db'.

Lemma system_lives `{Environ, IsoFormat, Hashing, Rendering, Rivals, IntakeHooks, !FreshIds, DecisionEffects, !QuietEffects} db db' :
  rtc system_step db db' → life_wf_at false db → life_wf_at false db' ∧ lives false db db'.
Proof.
  induction 1 as [|a b c Hab _ IH]; intros Hwf; [done|].
  assert (rtc part_step a b) as Hsteps by (destruct Hab; [by apply rtc_once|by eapply apply_steps|by eapply control_steps]).
  destruct (part_lives _ _ Hsteps Hwf) as [Hb Hl]. destruct (IH Hb) as [Hc Hl']. split; [done|]. by etrans.
Qed.

(** C1: Whatever sequence runs of issues received, tasks admitted, starts
    authorized and settled, tasks finished, handed off, paused, resumed, cancelled
    or recovered, policies posted, the factory stopped, escalations answered
    ([apply_decision], and [set_control] where a resume is an answer), receipts put
    back by the recoveries and grants ([put_back]), and time passing
    ([system_step]): every receipt keeps its key and subject, and its task until it
    goes back to the queue, its state moves only along the abstract machine
    ([life false]), and a cancelled receipt is final; and afterwards a queued
    receipt has no task, no two receipts share one, a receipt is uncertain while
    one of its task's starts is, and a task that left execution has no unresolved
    start. If besides no decision and no recovery put a receipt back ([life_step]),
    a receipt keeps its task for good, a failed receipt is final too, and no two
    tasks are in execution for the same issue or work item. Starts that
    review_recovery.py reserves on a settled task are outside; what an answer does
    on GitHub is a collaborator that writes audits and work items only
    ([QuietEffects]). *)
Theorem receipts_live_lawfully `{Environ, IsoFormat, Hashing, Rendering, Rivals, IntakeHooks, !FreshIds, DecisionEffects, !QuietEffects} db db' r :
  r ∈ f_receipts db →
  (life_wf_at false db → rtc system_step db db' →
     life_wf_at false db' ∧
     ∃ r', r' ∈ f_receipts db' ∧ lives_at false r r' ∧ (rc_state r = "cancelled"%string → rc_state r' = "cancelled"%string)) ∧
  (life_wf db → rtc life_step db db' →
     life_wf db' ∧
     ∃ r', r' ∈ f_receipts db' ∧ lives_on r r' ∧ (rc_state r ∈ ["failed"; "cancelled"]%string → rc_state r' = rc_state r)).
Proof.
  intros Hr. split; intros Hwf Hsteps.
  - destruct (system_lives db db' Hsteps Hwf) as [Hwf' Hl]. split; [done|]. destruct (Hl r Hr) as (r' & ? & Hon). exists r'.
    split_and!; [done..|]. intros E. pose proof (lo_life Hon) as Hlife. rewrite E in Hlife. by eapply cancelled_final.
  - destruct (run_lives db db' Hwf Hsteps) as [Hl Hwf']. split; [done|]. destruct (Hl r Hr) as (r' & ? & Hon). exists r'.
    split_and!; [done..|]. intros Hf. by apply life_final, (lo_life Hon).
Qed.
