(* ===== verification/IntakeClaims.v ===== *)
(** * Factory intake: what receiving and admitting guarantee

    Receiving an issue is idempotent; a receipt is admitted only when it is
    queued, eligible, unblocked and alone on its work; admissions and resumed
    tasks together stay within the ceiling and the lanes. *)

From Stdlib Require Import SpecFloat.
From stdpp Require Import prelude list strings relations.
From S2P Require Import Prelude PyValue GraphData GraphPlan WorkItems ModelPool PolicyData Policy PolicyFacts Controls Lanes LaneClaims Capacity CapacityClaims Starts StartFacts StartClaims Finish Operator Feedback FundingGrants Intake QueueOrder LifeFacts IntakeFacts LifeClaims.
Local Open Scope Z_scope.

(** ** Receiving *)

Lemma received_slot repo n g class r :
  received_before repo n g class r = true ↔ slot r = (repo, n, g, Some class, ""%string).
Proof.
  unfold received_before, slot. rewrite !andb_true_iff, !bool_decide_eq_true, !Z.eqb_eq. split.
  - intros [[[[-> ->] ->] ->] ->]. done.
  - by intros [= -> -> -> -> ->].
Qed.

Lemma lives_on_slot r r' : lives_on r r' → slot r' = slot r.
Proof. intros []. by apply subject_slot. Qed.

(** Receiving the same issue again, in the same generation and class, at any
    later time and with any other text, changes nothing and returns the receipt
    first stored, with its text and origin. *)
Theorem receive_is_idempotent `{Environ, IsoFormat, Hashing, Rendering, Rivals, IntakeHooks, !FreshIds}
    repo n title body url actor g class issue item target created r db db1 db2
    title' body' url' actor' issue' item' target' x db3 :
  life_wf db → receive_issue repo n title body url actor g class issue item target db = Ok (Received created r, db1) →
  rtc life_step db1 db2 →
  receive_issue repo n title' body' url' actor' g class issue' item' target' db2 = Ok (x, db3) →
  db3 = db2 ∧ ∃ r', x = Received false r' ∧ lives_on r r'.
Proof.
  intros Hwf Hq Hsteps Hq'.
  assert (life_wf db1) as Hwf1 by (apply (step_lawful db); [eapply StepReceive; exact Hq|exact Hwf]).
  destruct (run_lives db1 db2 Hwf1 Hsteps) as [Hl Hwf2].
  apply receive_inv in Hq as (slug & n1 & g1 & c1 & Hslug & -> & -> & -> & Ht); [|apply Hwf..].
  assert (r ∈ f_receipts db1 ∧ slot r = (slug, n1, g1, Some c1, ""%string)) as [Hr Hslot].
  { inversion Ht as [existing Hf|i db0 row a detail _ _ _ _ _ Hb]; subst.
    - apply find_first_Some in Hf as [? ?%received_slot]. done.
    - split; [|by apply received_slot]. rewrite audit_receipts. simpl. apply elem_of_app. right. left. }
  destruct (Hl r Hr) as (r' & Hr' & Hon). rewrite <-(lives_on_slot _ _ Hon) in Hslot.
  apply receive_inv in Hq' as (slug' & n2 & g2 & c2 & Hslug' & [= <-] & [= <-] & [= <-] & Ht'); [|apply Hwf2..].
  assert (slug' = slug) as -> by congruence.
  destruct Ht' as [existing [Hin Hs%received_slot]%find_first_Some|i db0 row a detail Hn _ _ _ _ _].
  - split; [done|]. exists existing. split; [done|].
    assert (existing = r') as ->; [|done].
    apply (key_unique rc_id r' (f_receipts db2)); [apply Hwf2|done..|]. apply (lf_slots _ Hwf2); [done..|congruence].
  - exfalso. rewrite find_first_None in Hn. specialize (Hn r' Hr'). apply received_slot in Hslot. congruence.
Qed.

(** ** Admitting *)

#[export] Instance edited_preorder : PreOrder edited.
Proof. split; [done|]. intros a b c. apply edited_trans. Qed.

(** Retrying held releases edits receipts in place and nothing else here. *)
Record retried (db db' : FDB) : Prop := mkRetried
  { rt_rows : Forall2 edited (f_receipts db) (f_receipts db'); rt_starts : f_starts db' = f_starts db;
    rt_items : f_items db' = f_items db; rt_edges : f_edges db' = f_edges db; rt_switch : same_switch db db' }.
#[export] Instance retried_preorder : PreOrder retried.
Proof.
  split; [by split; [reflexivity|..]|]. intros a b c [R1 ? ? ? []] [R2 ? ? ? []].
  split; [by transitivity (f_receipts b)|congruence..|split; congruence].
Qed.

Lemma put_edited row row' db :
  NoDup (rc_id <$> f_receipts db) → row ∈ f_receipts db → edited row row' → retried db (put_receipt row' db).
Proof.
  intros Hnd Hrow Hed. split; [|done..]. simpl. apply Forall2_fmap_r, Forall_Forall2_diag, Forall_forall. intros r Hr. unfold compose.
  destruct (Z.eqb_spec (rc_id r) (rc_id row')) as [E|]; [|reflexivity].
  rewrite (edited_id _ _ Hed) in E. by rewrite (key_unique rc_id row (f_receipts db) r Hnd Hrow Hr E).
Qed.
Lemma audit_retried actor action task detail db : retried db (_audit actor action task detail db).
Proof.
  destruct (audit_items actor action task detail db).
  split; rewrite ?audit_receipts, ?audit_starts; [reflexivity|done..|]. unfold same_switch. by rewrite audit_control.
Qed.

Lemma retry_retried `{Environ} ids n m db db' :
  NoDup (rc_id <$> f_receipts db) → retry_loop ids n db = Ok (m, db') → retried db db'.
Proof.
  revert n db. induction ids as [|id ids IH]; intros n db Hnd Hl; simpl in Hl; [by simplify_eq|].
  destruct (find_first _ _) as [row|] eqn:Hf; [|by eapply IH]. apply find_first_Some in Hf as [Hr _].
  apply res_bind_ok in Hl as ([applied db1] & Ha & Hl). cbn beta iota in Hl.
  pose proof (ch_ids _ _ _ (apply_chained _ _ _ _ _ Hnd Hr Ha)) as Hids.
  assert (retried db db1) as H1.
  { apply apply_shape in Ha as [->|(row' & au & ac & t & d & Hed & _ & ->)]; [reflexivity|].
    etrans; [by apply (put_edited row row')|apply audit_retried]. }
  etrans; [exact H1|]. destruct applied; [|eapply IH; [by rewrite Hids|exact Hl]].
  match type of Hl with retry_loop _ _ ?d = _ => transitivity d end; [done|].
  eapply IH; [simpl; by rewrite Hids|exact Hl].
Qed.

Lemma same_work_edited a b a' b' : edited a a' → edited b b' → same_work a' b' = same_work a b.
Proof. intros [? _] [? _]. by apply same_work_identity. Qed.

Lemma eligible_subject policy r r' : subject r' = subject r → _eligible_clause policy r' = _eligible_clause policy r.
Proof. intros [= _ E1 E2 E3 E4 E5 _ _ _ E6 _]. unfold _eligible_clause. by rewrite E1, E2, E4, E5, E6. Qed.

Lemma fenced_human `{Environ} db r : fenced db r = None → human_owned db r = false.
Proof. unfold fenced. intros Hf. destruct (if automatic_actor _ && _ then _ else _); [done|]. by destruct (human_owned db r). Qed.

Lemma retry_all_retried `{Environ} n db db' :
  NoDup (rc_id <$> f_receipts db) → retry_capacity_releases db = Ok (n, db') → retried db db'.
Proof.
  intros Hnd. unfold retry_capacity_releases. destruct (negb _); [by intros [= _ <-]|]. by apply retry_retried.
Qed.
Lemma retry_all_wrote `{Environ} n db db' :
  NoDup (rc_id <$> f_receipts db) → retry_capacity_releases db = Ok (n, db') → rtc wrote db db'.
Proof. intros Hnd. unfold retry_capacity_releases. destruct (negb _); [by intros [= _ <-]|]. by apply retry_wrote. Qed.

(** A task id unused after some writes was unused before them. *)
Lemma unused_before db db' t :
  life_wf db → rtc wrote db db' → f_starts db' = f_starts db → unused db' t → unused db t.
Proof.
  intros Hwf Hw Es [Hu1 Hu2]. split; [|intros s Hs; apply Hu2; by rewrite Es].
  intros x Hx E. destruct (wrote_lawful _ _ Hw _ Hwf) as [_ Hl].
  destruct (Hl x Hx) as (x' & Hx' & [_ _ [T|[[_ T]|[? _]]] _]); [apply (Hu1 x' Hx')|..]; congruence.
Qed.

(** No edit, fence or admission brings another receipt into execution. *)
Lemma active_before db db0 db1 row row' :
  Forall2 edited (f_receipts db) (f_receipts db0) → scanned db0 db1 → rc_id row' = rc_id row →
  ∀ x, x ∈ ((λ r, if rc_id r =? rc_id row then row' else r) <$> f_receipts db1) → is_active x = true →
    rc_id x = rc_id row ∨ ∃ y, y ∈ f_receipts db ∧ rc_id y = rc_id x ∧ is_active y = true.
Proof.
  intros Hrows Hs E x (y & -> & Hy)%list_elem_of_fmap Hact.
  destruct (Z.eqb_spec (rc_id y) (rc_id row)); [by left|]. right.
  destruct (sn_rows _ _ y Hs Hy) as [Hy0|Hcan]; [|unfold is_active in Hact; by rewrite Hcan in Hact].
  apply list_elem_of_lookup_1 in Hy0 as [j Hj]. destruct (Forall2_lookup_r _ _ _ _ _ Hrows Hj) as (z & Hz & Hzed).
  apply list_elem_of_lookup_2 in Hz. exists z. split; [done|]. split; [by rewrite (edited_id _ _ Hzed)|].
  destruct Hzed as (_ & _ & Est). unfold is_active in *. by rewrite <-Est.
Qed.

(** C3: A receipt is admitted only when the factory is enabled and the receipt is
    queued, eligible under the current policy and of its generation, in a lane
    the caller opened, not blocked by an open work item, not owned by a person,
    and no task in execution or landing works on the same issue or work item.
    It then runs under a task id nothing used before, its text and links
    unchanged, and no other receipt enters execution. *)
Theorem admission_is_sound `{Environ, IsoFormat, Hashing, Rendering, Rivals, IntakeHooks, !FreshIds}
    actor lanes db t id lane effective db' :
  life_wf db → admit_next actor lanes db = Ok (TaskAdmitted t id lane effective, db') →
  ct_state (f_control db) = "enabled"%string ∧ unused db t ∧ is_Some (find_task db' t) ∧
  ∃ r r', r ∈ f_receipts db ∧ r' ∈ f_receipts db' ∧ rc_id r = id ∧ identity r' = identity r ∧
    rc_state r = "queued"%string ∧ rc_state r' = "admitted"%string ∧ rc_task_id r' = Some t ∧
    blocked db r = false ∧ human_owned db r = false ∧
    (∀ b, b ∈ f_receipts db → rc_state b ∈ OWNING_STATES → same_work b r = false) ∧
    (∃ p v, validate_policy (PDict (ct_policy_json (f_control db))) = Ok p ∧ _eligible_clause p r = Ok true ∧
       item "generation" p = Ok v ∧ py_eq (PInt (rc_generation r)) v = true) ∧
    lane = lane_for (receipt_task_class r) ∧ lane ∈ lanes ∧
    (∀ x, x ∈ f_receipts db' → is_active x = true →
       rc_id x = id ∨ ∃ y, y ∈ f_receipts db ∧ rc_id y = rc_id x ∧ is_active y = true).
Proof.
  intros Hwf Hq. pose proof (lf_ids _ Hwf) as Hnd.
  destruct (admit_next_inv actor lanes db _ db' Hnd Hq) as [_ Hn]. inversion Hn as [|db0 db1 row t' row' e d Hseen Hadm]; subst.
  destruct Hseen as [Hen [n Hretry] (policy & enabled & room & limits & Hpol & _ & _ & _ & _ & _ & Hqf) Hlane Hblk Hs [Hrow0 Hrow1] Hfen].
  destruct (retry_all_retried _ _ _ Hnd Hretry) as [Hrows Est Eit Eed [_ Epol]].
  pose proof (retry_all_wrote _ _ _ Hnd Hretry) as Hw0.
  apply list_elem_of_lookup_1 in Hrow0 as [k Hk].
  destruct (Forall2_lookup_r _ _ _ _ _ Hrows Hk) as (r & Hr & Hed). apply list_elem_of_lookup_2 in Hr.
  pose proof Hed as (Hid & Htk & Hst). pose proof (identity_subject _ _ Hid) as Hsub.
  destruct Hadm as [Hun Hident Hst' Ht' Htier Erec Es Ec Hknown]. destruct Hqf as [Hq1 Hq2 Hq3 Hq4 (v & Hq5 & Hq6) Hq7].
  assert (receipt_task_class row = receipt_task_class r) as Ecl by (unfold receipt_task_class; by injection Hsub as _ _ _ _ -> _).
  assert (lane_of row' = lane_for (receipt_task_class row)) as Elane.
  { unfold lane_of. rewrite Htier. unfold lane_for. by destruct (is_advisory _). }
  split; [done|]. split; [apply (unused_before db db1 t Hwf); [by etrans; [|apply Hs]|by rewrite (sn_starts _ _ Hs)|done]|].
  split; [done|]. exists r, row'.
  split; [done|]. split; [rewrite Erec; apply list_elem_of_fmap; exists row; by rewrite Z.eqb_refl|].
  split; [by rewrite (edited_id _ _ Hed)|]. split; [congruence|]. split; [congruence|]. split; [done|]. split; [done|].
  split; [|split; [|split; [|split; [|split; [|split]]]]].
  - rewrite <-Hblk. unfold blocked, open_blockers. by rewrite (identity_item _ _ Hid), Eit, Eed.
  - rewrite <-(fenced_human db1 row Hfen). unfold human_owned.
    by rewrite (identity_item _ _ Hid), (sn_items _ _ Hs), Eit.
  - intros b Hb Hown. apply list_elem_of_lookup_1 in Hb as [j Hj].
    destruct (Forall2_lookup_l _ _ _ _ _ Hrows Hj) as (b' & Hb' & Hbed). apply list_elem_of_lookup_2 in Hb'.
    rewrite <-(same_work_edited b r b' row Hbed Hed). apply Hq7; [done|]. destruct Hbed as (_ & _ & ->). done.
  - exists policy, v. rewrite <-Epol. split; [done|]. split; [by rewrite <-(eligible_subject _ _ _ Hsub)|]. split; [done|].
    by injection Hsub as _ _ _ <- _.
  - by rewrite Elane, Ecl.
  - by rewrite Elane.
  - rewrite Erec. apply (active_before db db0 db1); [done..|by apply identity_id].
Qed.

(** A receipt the query keeps is in a lane with room. *)
Lemma base_query_lane db policy enabled available r :
  base_query db policy enabled lane_for available r = Ok true → lane_for (receipt_task_class r) ∈ available.
Proof.
  unfold base_query. intros Hq. case_match; [done|]. apply res_bind_ok in Hq as ([] & _ & Hq); [|done]. cbn [negb] in Hq.
  apply res_bind_ok in Hq as (g & _ & Hq). injection Hq as Hq.
  apply andb_prop in Hq as [Hq _]. apply andb_prop in Hq as [Hq _]. apply andb_prop in Hq as [Hlane _].
  unfold receipt_task_class, str_or. destruct (rc_task_class r) as [c|]; [|by apply bool_decide_eq_true in Hlane].
  apply andb_prop in Hlane as [Hin Hl]. destruct (decide (c = ""%string)) as [->|E].
  2: { rewrite (bool_decide_eq_false_2 _ E). by apply bool_decide_eq_true in Hl. }
  revert Hin. by apply (bool_decide_unpack _).
Qed.

(** C30: Admission follows the queue: of the unblocked receipts the policy lets in,
    whatever stands strictly before the admitted one (by queue position, age of
    the issue, repository and number) was fenced off and cancelled, or its
    repository's lane is full. *)
Theorem admission_in_order `{Environ, IsoFormat, Hashing, Rendering, Rivals, IntakeHooks, !FreshIds}
    actor lanes db t id lane effective db' :
  life_wf db → admit_next actor lanes db = Ok (TaskAdmitted t id lane effective, db') →
  ∃ n db0 policy enabled room queue row,
    retry_capacity_releases db = Ok (n, db0) ∧
    validate_policy (PDict (ct_policy_json (f_control db0))) = Ok policy ∧ enabled_repos policy = Ok enabled ∧
    open_lanes policy (occupying db0) (filter (λ l, l ∈ lanes) LANES) (Some (unresolved_start_task_ids db0)) = Ok room ∧
    (∀ x, x ∈ queue ↔ x ∈ f_receipts db0 ∧
       base_query db0 policy enabled lane_for (filter (λ l, 0 < lane_get l room) (filter (λ l, l ∈ lanes) LANES)) x = Ok true ∧
       blocked db0 x = false) ∧
    row ∈ queue ∧ rc_id row = id ∧
    ∀ x, x ∈ queue → queue_compare db0 queue x row = Lt →
      (∃ x', x' ∈ f_receipts db' ∧ rc_id x' = rc_id x ∧ rc_state x' = "cancelled"%string) ∨
      ∃ limits, repo_lane_limits policy (rc_repo x) = Ok limits ∧
        lane_get (lane_for (receipt_task_class x)) limits ≤
        count_of (λ o, bool_decide (rc_repo o = rc_repo x) && in_lane (lane_for (receipt_task_class x)) o) (occupying db0).
Proof.
  intros Hwf Hq. pose proof (lf_ids _ Hwf) as Hnd.
  destruct (admit_next_inv actor lanes db _ db' Hnd Hq) as [Hw Hn]. inversion Hn as [|db0 db1 row t' row' e d Hseen Hadm]; subst.
  destruct Hseen as [_ [n Hr] _ _ _ Hs [_ Hrow1] _ (policy & enabled & room & queue & Hpol & Hen & Hroom & Hqueue & Hrow & Hord)].
  exists n, db0, policy, enabled, room, queue, row. do 4 (split; [done|]). split; [done|]. split; [done|]. split; [done|].
  intros x Hx Hlt. pose proof (proj1 (Hqueue x) Hx) as (_ & Hbase & _). apply base_query_lane in Hbase.
  destruct (Hord x Hx Hlt) as [(x' & Hx' & Hid & Hst)|[Hno|Hfull]]; [|done|by right]. left. exists x'. split; [|done].
  pose proof (proj1 (Hqueue row) Hrow) as (Hrow0 & Hq0 & _). apply base_query_inv in Hq0 as [Hst0 _ _ _ _ _].
  rewrite (am_receipts _ _ _ _ _ _ Hadm). apply list_elem_of_fmap. exists x'. split; [|done].
  destruct (Z.eqb_spec (rc_id x') (rc_id row)) as [E|]; [|done]. exfalso.
  assert (NoDup (rc_id <$> f_receipts db1)) as Hnd1.
  { rewrite (sn_ids _ _ Hs). eapply wrotes_ids; [by eapply retry_all_wrote|exact Hnd]. }
  rewrite (key_unique rc_id row (f_receipts db1) x' Hnd1 Hrow1 Hx' E) in Hst. congruence.
Qed.

(** ** Capacity *)

Lemma scan_count (p : FactoryReceipt → bool) l l' :
  (∀ r, rc_state r = "cancelled"%string → p r = false) → Forall2 scan_row l l' → count_of p l' ≤ count_of p l.
Proof.
  intros Hp. induction 1 as [|x y l l' Hs _ IH]; [done|]. rewrite !count_of_cons.
  destruct Hs as [->|[Hc _]]; [lia|]. rewrite (Hp y Hc). unfold of_bool. case_match; lia.
Qed.

Section capacity.
Context `{Environ} (wanted : LaneCounts) (ceiling : Z).

(** The posted policy is normalised and gives the lane maxima. *)
Record posted_policy (db : FDB) : Prop := mkPostedPolicy
  { pp_wf : receipts_wf db;
    pp_normal : validate_policy (PDict (ct_policy_json (f_control db))) = Ok (ct_policy_json (f_control db));
    pp_lanes : lane_max_tasks (ct_policy_json (f_control db)) = Ok wanted }.
Definition within_step (db db' : FDB) : Prop := posted_policy db → posted_policy db' ∧ bounded wanted ceiling db db'.
#[export] Instance within_preorder : PreOrder within_step.
Proof using.
  split; [by intros db Hp|]. intros a b c Hab Hbc Ha. destruct (Hab Ha) as [Hb ?], (Hbc Hb) as [??].
  split; [done|]. by etrans.
Qed.

Lemma safe_within db db' : safe_step wanted ceiling db db' → same_switch db db' → within_step db db'.
Proof using.
  intros Hs [_ Ep] [Hwf Hn Hl]. destruct (Hs (conj Hwf Hl)) as [[Hwf' Hl'] Hb]. split; [|done]. split; [done|by rewrite Ep|done].
Qed.

Lemma occupying_count db lane :
  count_of (in_lane lane) (occupying db) = count_of (λ r, occupies (unresolved_start_task_ids db) r && in_lane lane r) (f_receipts db).
Proof using. unfold occupying. by rewrite count_of_filter. Qed.

Lemma counts_bounded db db' :
  (∀ lane, lane ∈ LANES → count_of (in_lane lane) (occupying db') ≤ count_of (in_lane lane) (occupying db)) →
  bounded wanted ceiling db db'.
Proof using.
  intros Hle. split; [|intros lane Hl; rewrite !held_get by done; specialize (Hle lane Hl); lia].
  unfold lane_sum. simpl. pose proof (Hle "delivery"%string (list_elem_of_here _ _)) as H1'.
  pose proof (Hle "advisory"%string (list_elem_of_further _ _ _ (list_elem_of_here _ _))) as H2'. lia.
Qed.

Lemma scanned_within db db' : scanned db db' → within_step db db'.
Proof using.
  intros Hs [[Hnd Ht] Hn Hl]. pose proof (sn_ids _ _ Hs) as Eids. destruct Hs as [_ Hs Ec Es _ _].
  split; [split; [split|..]; [by rewrite Eids| |by rewrite Ec|by rewrite Ec]|].
  - apply Forall_forall. intros r [k Hk]%list_elem_of_lookup_1. rewrite Forall_forall in Ht.
    destruct (Forall2_lookup_r _ _ _ _ _ Hs Hk) as (x & Hx%list_elem_of_lookup_2 & [->|(_ & _ & ->)]); by apply Ht.
  - apply counts_bounded. intros lane _. rewrite !occupying_count.
    assert (unresolved_start_task_ids db' = unresolved_start_task_ids db) as -> by (unfold unresolved_start_task_ids; by rewrite Es).
    apply scan_count; [|done]. intros r Hr. unfold occupies, is_active. by rewrite Hr.
Qed.

(** One more receipt in a lane with room. *)
Lemma admission_within db row t db' row' :
  row ∈ f_receipts db → lane_for (receipt_task_class row) ∈ LANES →
  lane_get (lane_for (receipt_task_class row)) (held_by (occupying db)) < lane_get (lane_for (receipt_task_class row)) wanted →
  lane_sum (held_by (occupying db)) < ceiling →
  admission db row (lane_for (receipt_task_class row)) t db' row' → within_step db db'.
Proof using.
  intros Hrow Hlane Hroom Hsum [_ Hid _ _ Htier Er Es Ec _] [[Hnd Ht] Hn Hl]. pose proof (identity_id _ _ Hid) as Ei.
  set (lane := lane_for (receipt_task_class row)) in *.
  assert (lane_of row' = lane) as Elane.
  { unfold lane_of. rewrite Htier. unfold lane, lane_for. by destruct (is_advisory _). }
  assert (∀ l, count_of (in_lane l) (occupying db') ≤ count_of (in_lane l) (occupying db) + of_bool (bool_decide (lane = l))) as Hcount.
  { intros l. rewrite !occupying_count, Er.
    assert (unresolved_start_task_ids db' = unresolved_start_task_ids db) as -> by (unfold unresolved_start_task_ids; by rewrite Es).
    rewrite (count_replaced _ row row') by done. unfold in_lane at 2 3. rewrite Elane.
    unfold of_bool. destruct (occupies _ row'), (bool_decide (lane = l)), (occupies _ row && _); simpl; lia. }
  split.
  - split; [split|by rewrite Ec|by rewrite Ec]; rewrite Er; [by rewrite fmap_replaced_ids|].
    apply Forall_fmap. rewrite Forall_forall in Ht |- *. intros r Hr. simpl. case_match; [|by apply Ht].
    rewrite Htier. unfold lane, lane_for. destruct (is_advisory _); set_solver.
  - split.
    + unfold lane_sum in *. simpl in *. pose proof (Hcount "delivery"%string). pose proof (Hcount "advisory"%string).
      assert (of_bool (bool_decide (lane = "delivery"%string)) + of_bool (bool_decide (lane = "advisory"%string)) ≤ 1); [|lia].
      do 2 case_bool_decide; simpl; [congruence|lia..].
    + intros l Hl'. rewrite !held_get in * by done. specialize (Hcount l). case_bool_decide as E; [|simpl in Hcount; lia].
      rewrite <-E in *. simpl in Hcount. lia.
Qed.
End capacity.

Lemma request_switch `{Environ, IsoFormat} row actor resume hold r db db' :
  request_capacity_release row actor resume hold db = Ok (r, db') → same_switch db db'.
Proof.
  unfold request_capacity_release. destruct (_capacity_release_refusal db row); [by intros [= _ <-]|]. intros Hq.
  apply res_bind_ok in Hq as (intent & _ & Hq). apply res_bind_ok in Hq as ([applied db1] & Ha & Hq). cbn beta iota in Hq.
  simplify_eq. apply apply_shape in Ha as [->|(row' & au & ac & t & d & _ & _ & ->)]; [done|].
  unfold same_switch. by rewrite audit_control.
Qed.

Lemma retry_within `{Environ, IsoFormat} wanted ceiling n db db' :
  factory_max_concurrent_tasks = Ok ceiling → retry_capacity_releases db = Ok (n, db') → within_step wanted ceiling db db'.
Proof.
  intros Hc. unfold retry_capacity_releases. case_match; [by intros [= _ <-]|]. intros Hq.
  apply safe_within; [by eapply retry_safe|by eapply retry_switch].
Qed.

Lemma lane_for_known c : lane_for c ∈ LANES.
Proof. unfold lane_for, LANES. destruct (is_advisory c); set_solver. Qed.

(** Editing a queued receipt occupies nothing. *)
Lemma queued_within `{Environ} wanted ceiling db row row' :
  row ∈ f_receipts db → rc_state row = "queued"%string → edited row row' → rc_routing_tier row' = rc_routing_tier row →
  within_step wanted ceiling db (put_receipt row' db).
Proof.
  intros Hrow Hst Hed Htier [[Hnd Ht] Hn Hl]. pose proof (edited_id _ _ Hed) as Ei. destruct Hed as (Hid & _ & Est).
  split; [split; [split|done..]|].
  - simpl. rewrite Ei. by rewrite fmap_replaced_ids.
  - simpl. apply Forall_fmap. rewrite Forall_forall in Ht |- *. intros r Hr. simpl. case_match; [|by apply Ht].
    rewrite Htier. by apply Ht.
  - apply counts_bounded. intros lane _. rewrite !occupying_count. simpl. rewrite Ei.
    change (unresolved_start_task_ids (put_receipt row' db)) with (unresolved_start_task_ids db).
    rewrite (count_replaced _ row row') by done. unfold occupies, is_active. rewrite Est, Hst. simpl. lia.
Qed.

Lemma admit_within `{Environ, IsoFormat, IntakeHooks, !FreshIds} wanted ceiling actor lanes db r db' :
  factory_max_concurrent_tasks = Ok ceiling → admit_next actor lanes db = Ok (r, db') → within_step wanted ceiling db db'.
Proof.
  intros Hc Hq Hp. destruct (admit_next_inv actor lanes db r db' (rw_ids _ (pp_wf _ _ Hp)) Hq) as [_ Hn].
  revert Hp. change (within_step wanted ceiling db db').
  destruct Hn as [reason db' Hw|db0 db1 row t row' effective db' Hseen Hadm].
  - destruct Hw as [|n db0 db1 Hr Hs|n db0 db1 row row' Hr Hs Hrow Hst Hed Htier]; [done|..].
    + etrans; [by eapply retry_within|by apply scanned_within].
    + etrans; [by eapply retry_within|]. etrans; [by apply scanned_within|by apply (queued_within _ _ _ row)].
  - destruct Hseen as [_ [n Hr] (policy & enabled & room & limits & Hpol & _ & Hroom & Hpos & _ & _ & _) _ _ Hs [_ Hrow] _].
    etrans; [by eapply retry_within|]. intros Hp0. destruct (scanned_within wanted ceiling db0 db1 Hs Hp0) as [Hp1 Hb1].
    rewrite (pp_normal _ _ Hp0) in Hpol. injection Hpol as <-.
    destruct (open_lanes_room _ _ _ _ _ (lane_for_known _) Hroom Hpos) as (w & c & Hw & Hc' & Hlt & Hsum).
    rewrite (pp_lanes _ _ Hp0) in Hw. rewrite Hc in Hc'. simplify_eq.
    assert (∀ l, count_of (in_lane l) (occupying db1) ≤ count_of (in_lane l) (occupying db0)) as Hle.
    { intros l. rewrite !occupying_count.
      assert (unresolved_start_task_ids db1 = unresolved_start_task_ids db0) as ->
        by (unfold unresolved_start_task_ids; by rewrite (sn_starts _ _ Hs)).
      apply scan_count; [|apply Hs]. intros x Hx. unfold occupies, is_active. by rewrite Hx. }
    destruct (admission_within w c db1 row t db' row') as [Hp2 Hb2]; [done|apply lane_for_known| | |done|done|].
    + rewrite held_get in * by apply lane_for_known. specialize (Hle (lane_for (receipt_task_class row))). lia.
    + unfold lane_sum in *. simpl in *. pose proof (Hle "delivery"%string). pose proof (Hle "advisory"%string). lia.
    + split; [done|]. by etrans.
Qed.

(** An operator's request to resume, the reconciler's retry, or an admission. *)
Inductive slot_step `{Environ, IsoFormat, IntakeHooks} (db : FDB) : FDB → Prop :=
| SlotRelease db' : release_step db db' → slot_step db db'
| SlotAdmit actor lanes r db' : admit_next actor lanes db = Ok (r, db') → slot_step db db'.

(** C11: Whatever sequence of admissions, resume and hold-release requests and
    reconciler retries runs under a posted policy, the receipts holding execution
    slots end no more than the chart ceiling, and each lane no more than its
    posted maximum, unless they were over it to begin with, and then they do not
    grow. *)
Theorem slots_within_capacity `{Environ, IsoFormat, IntakeHooks, !FreshIds} db db' wanted ceiling :
  receipts_wf db → validate_policy (PDict (ct_policy_json (f_control db))) = Ok (ct_policy_json (f_control db)) →
  lane_max_tasks (ct_policy_json (f_control db)) = Ok wanted → factory_max_concurrent_tasks = Ok ceiling →
  rtc slot_step db db' → receipts_wf db' ∧ bounded wanted ceiling db db'.
Proof.
  intros Hwf Hn Hl Hc Hsteps. assert (within_step wanted ceiling db db') as Hw.
  { clear Hwf Hn Hl. induction Hsteps as [|db db1 db2 Hstep _ IH]; [done|]. etrans; [|exact IH].
    destruct Hstep as [d [row actor resume hold r d' Hrow Hq|n d' Hq]|actor lanes r d Hq].
    - apply safe_within; [by eapply request_safe|by eapply request_switch].
    - by eapply retry_within.
    - by eapply admit_within. }
  destruct (Hw (mkPostedPolicy wanted db Hwf Hn Hl)) as [[? _ _] ?]. done.
Qed.
