(* ===== verification/FundingClaims.v ===== *)
(** * Factory funding: the authority of a raised budget

    An operator's answer to a refused dispatch, put back in the queue, is honoured
    by the continuation of the same objective, and by nothing that does not trace
    back to the recorded refusal. *)

From Stdlib Require Import SpecFloat.
From stdpp Require Import prelude list strings pretty.
From S2P Require Import Prelude PyValue GraphData GraphPlan GraphClaims WorkItems ModelPool PolicyData Policy Controls Lanes LaneClaims Capacity Starts Finish Operator Feedback FundingGrants Intake Readmission LifeFacts.
Local Open Scope Z_scope.

(** ** The refusal *)

Lemma checked_finite v ok message f :
  checked_float v ok message = Ok f → f_is_finite f = true ∧ ok f = true.
Proof.
  unfold checked_float. destruct (negb _); [done|]. intros (g & _ & Hq)%res_bind_ok.
  destruct (f_is_finite g && ok g) eqn:E; [|done]. injection Hq as <-. by apply andb_prop in E.
Qed.

(** A dollar authority: finite amounts, a positive request, the target their sum
    and above the refused ceiling. *)
Record sound_authority (a : Authority) : Prop := mkSound
  { sa_used : f_is_finite (da_used a) = true; sa_requested : f_is_finite (da_requested a) = true;
    sa_allowed : f_is_finite (da_allowed a) = true; sa_allowance : f_is_finite (da_allowance a) = true;
    sa_target : f_is_finite (da_target a) = true;
    sa_positive : fle (da_requested a) fzero = false ∧ fle (da_allowed a) fzero = false;
    sa_sum : feq (da_target a) (fadd (da_used a) (da_requested a)) = true;
    sa_raises : fle (da_target a) (da_allowed a) = false }.

Lemma authority_sound escalation option_ a :
  _dispatch_authority escalation option_ = Ok (Some a) →
  sound_authority a ∧ ∃ refusal, dict_get "dispatch_refusal" escalation = PDict refusal.
Proof.
  unfold _dispatch_authority. intros (target & Ht & Hq)%res_bind_ok. destruct target as [target|]; [|done].
  assert (f_is_finite target = true) as Hfin.
  { unfold _dispatch_target in Ht. destruct (negb _); [done|]. apply res_bind_ok in Ht as (d & _ & Ht).
    destruct d; try done. destruct (negb _); [done|]. apply res_bind_ok in Ht as (v & Hv & [= ->]).
    by apply checked_finite in Hv as [? _]. }
  destruct (dict_get "dispatch_refusal" escalation) as [| | | | | |refusal|]; try done.
  destruct (negb _) eqn:E1 in Hq; [done|]. destruct (negb _) eqn:E2 in Hq; [done|].
  apply res_bind_ok in Hq as (used & [? _]%checked_finite & Hq). apply res_bind_ok in Hq as (requested & [? _]%checked_finite & Hq).
  apply res_bind_ok in Hq as (allowed & [? _]%checked_finite & Hq). apply res_bind_ok in Hq as (allowance & [? _]%checked_finite & Hq).
  destruct (fle requested fzero || fle allowed fzero) eqn:Epos; [done|]. apply orb_false_iff in Epos.
  destruct (negb _) eqn:Esum in Hq; [done|]. apply negb_false_iff in Esum.
  destruct (fle target allowed) eqn:Eup; [done|]. injection Hq as <-. split; [by split|eauto].
Qed.

Lemma authority_self a : sound_authority a → py_eq (PDict (authority_json a)) (PDict (authority_json a)) = true.
Proof.
  intros [? ? ? ? ?]. apply py_eq_refl; [|done]. cbn. by repeat (apply andb_true_intro; split).
Qed.
Lemma overlay_self f : f_is_finite f = true → py_eq (PDict (overlay_of f)) (PDict (overlay_of f)) = true.
Proof. intros Hf. apply py_eq_refl; [cbn; by rewrite Hf|done]. Qed.

(** The authority depends on the option's key, effect and detail alone. *)
Lemma authority_option escalation o o' :
  dict_get "key" o' = dict_get "key" o → dict_get "effect" o' = dict_get "effect" o →
  or_empty (dict_get "detail" o') = or_empty (dict_get "detail" o) →
  _dispatch_authority escalation o' = _dispatch_authority escalation o.
Proof. intros Ek Ee Ed. unfold _dispatch_authority, _dispatch_target. by rewrite Ek, Ee, Ed. Qed.

Lemma or_empty_idem v : or_empty (or_empty v) = or_empty v.
Proof. unfold or_empty. destruct (truthy v) eqn:E; [by rewrite E|done]. Qed.

(** ** What a continuation needs *)

(** The audit a carried grant rests on. *)
Record recorded_grant (db : FDB) (row : FactoryReceipt) (a : Authority) (source : FactoryAudit) : Prop := mkRecordedGrant
  { rg_in : source ∈ f_audits db; rg_action : au_action source = "funding_granted"%string;
    rg_kind : py_eq (dict_get "grant_kind" (au_detail_json source)) (PStr DISPATCH_GRANT_KIND) = true;
    rg_receipt : py_eq (dict_get "source_receipt_id" (au_detail_json source)) (PInt (rc_id row)) = true;
    rg_refusal : py_eq (dict_get "dispatch_refusal" (au_detail_json source)) (PDict (authority_json a)) = true;
    rg_task : ∃ t, au_task_id source = Some t ∧
                   py_contains t (get_or "previous_task_ids" (PList []) (direction_of row)) = Ok true }.

Definition escalation_of (row : FactoryReceipt) : dict := default [] (rc_escalation_json row).

(** C18: A continuation gets a raised task budget only on recorded authority: its
    receipt carries a refused dispatch whose used and requested dollars sum to the
    new budget, above the ceiling that refused it and above the policy's budget,
    and an operator's grant audited on one of the objective's earlier tasks says
    the same of the same receipt. *)
Theorem continuation_grant_authorized db row policy g :
  dispatch_continuation_grant db row policy = Ok (Some g) →
  ∃ a source overlay budget,
    _dispatch_authority (escalation_of row) (continued_option (direction_of row)) = Ok (Some a) ∧ sound_authority a ∧
    recorded_grant db row a source ∧
    item "policy_overlay" g = Ok overlay ∧ py_eq overlay (PDict (overlay_of (da_target a))) = true ∧
    py_eq (dict_get "policy_overlay" (au_detail_json source)) overlay = true ∧
    item "task_budget_usd" policy = Ok budget ∧ within (da_target a) budget = Ok false.
Proof.
  unfold dispatch_continuation_grant. fold (escalation_of row). intros (ao & Ha & Hq)%res_bind_ok.
  destruct ao as [a|]; [|by case_match]. destruct (authority_sound _ _ _ Ha) as [Hs _].
  destruct (dict_get "funding_overlay" _) as [| | | | | |grant|]; try done.
  destruct (negb _) eqn:Ekeys in Hq; [done|]. destruct (negb _) eqn:Eov in Hq; [done|]. apply negb_false_iff in Eov, Ekeys.
  destruct (dict_get "source_task_id" grant) as [| | | |t| | |]; try done.
  destruct (dict_get "source_audit_id" grant) as [| |i| | | | |]; try done.
  apply res_bind_ok in Hq as ([] & Hprev & Hq); cbn [negb] in Hq; [|done].
  destruct (find_first _ _) as [source|] eqn:Hf; [|done]. apply find_first_Some in Hf as [Hin _].
  destruct (negb _) eqn:Es in Hq; [done|]. apply negb_false_iff in Es.
  apply res_bind_ok in Hq as (budget & Hb & Hq). apply res_bind_ok in Hq as ([] & Hw & Hq); [done|].
  apply res_bind_ok in Hq as (total & _ & [= <-]).
  unfold source_matches in Es. rewrite !andb_true_iff, !bool_decide_eq_true in Es.
  destruct Es as (((((? & ?) & ?) & ?) & ?) & ?).
  assert (has_key "policy_overlay" grant = true) as Hk.
  { apply andb_prop in Ekeys as [_ Hk]. rewrite forallb_forall in Hk. apply Hk. simpl. tauto. }
  exists a, source, (dict_get "policy_overlay" grant), budget. repeat (split; [by eauto|]). split; [by split; eauto|].
  split; [|done]. unfold item, policy_index, dict_get, has_key in *. rewrite assoc_get_set_ne by done. by destruct (assoc_get _ grant).
Qed.

(** ** The answer in the direction *)

Lemma assoc_get_outside {A} k (d : list (string * A)) : k ∉ d.*1 → assoc_get k d = None.
Proof.
  induction d as [|[k' v] d IH]; csimpl; [done|]. intros [? ?]%not_elem_of_cons. rewrite bool_decide_eq_false_2 by congruence. auto.
Qed.

(** Two directions that carry the same answer. *)
Definition ANSWER_KEYS : list string := ["option_key"; "effect"; "detail"; "funding_overlay"; "previous_task_ids"].
Definition same_answer (d d' : dict) : Prop := ∀ k, k ∈ ANSWER_KEYS → assoc_get k d' = assoc_get k d.

Lemma last_n_app_in {A} n (l : list A) x : x ∈ last_n (S n) (l ++ [x]).
Proof.
  unfold last_n. rewrite drop_app_le by (rewrite length_app; simpl; lia). apply elem_of_app. right. constructor.
Qed.

(** The stored direction keeps at most eight earlier tasks. *)
Definition few_previous (row : FactoryReceipt) : Prop :=
  ∀ l, dict_get "previous_task_ids" (direction_of row) = PList l → (length l ≤ 8)%nat.

(** The answer as [_direction] writes it. *)
Record answers (option_ : dict) (row : FactoryReceipt) (d : dict) : Prop := mkAnswers
  { an_key : dict_get "option_key" d = dict_get "key" option_;
    an_effect : dict_get "effect" d = dict_get "effect" option_;
    an_detail : dict_get "detail" d = or_empty (dict_get "detail" option_);
    an_grant : dict_get "funding_overlay" d = PNone;
    an_task : few_previous row → ∀ t, named_task row = Some t →
                py_contains t (get_or "previous_task_ids" (PList []) d) = Ok true;
    an_few : ∀ l, dict_get "previous_task_ids" d = PList l → (length l ≤ 8)%nat }.

Lemma existsb_elem {A} (p : A → bool) l x : x ∈ l → p x = true → existsb p l = true.
Proof. intros Hx Hp. apply existsb_exists. exists x. by rewrite <-list_elem_of_In. Qed.

Lemma named_text row t : named_task row = Some t → rc_task_id row = Some t ∧ truthy (PStr t) = true.
Proof.
  unfold named_task. destruct (rc_task_id row) as [t0|]; [|done]. case_bool_decide as E; [done|]. intros [= ->].
  split; [done|]. simpl. by rewrite bool_decide_eq_false_2.
Qed.

Lemma tail_outside k row escalation :
  k ∉ KEPT_DIRECTION → k ∉ _PRIOR_KEYS →
  assoc_get k (omap (λ k, (λ v, (k, v)) <$> assoc_get k (direction_of row)) KEPT_DIRECTION ++
               prior_attempt row escalation (direction_of row)) = None.
Proof.
  intros Hk Hp. apply assoc_get_outside. rewrite fmap_app. intros [Hin|Hin]%elem_of_app.
  - apply list_elem_of_fmap in Hin as ([k' v] & -> & (x & Hx & E)%list_elem_of_omap). apply fmap_Some in E as (w & _ & [= -> ->]). done.
  - unfold prior_attempt in Hin. case_match; exact (Hp Hin).
Qed.

(** An earlier list always holds the task just stopped. *)
Lemma kept_previous t l :
  (length l ≤ 8)%nat →
  existsb (py_eq (PStr t)) (last_n 8 (if truthy (PStr t) && negb (existsb (py_eq (PStr t)) l) then l ++ [PStr t] else l)) = true ∨
  t = ""%string.
Proof.
  intros Hl. destruct (decide (t = ""%string)) as [|Ht]; [by right|]. left. cbn [truthy]. rewrite (bool_decide_eq_false_2 _ Ht).
  destruct (existsb (py_eq (PStr t)) l) eqn:E; cbn [negb andb].
  - unfold last_n. by rewrite (proj2 (Nat.sub_0_le (length l) 8)).
  - eapply existsb_elem; [apply last_n_app_in|]. simpl. by apply bool_decide_eq_true.
Qed.

Lemma direction_answers `{IsoFormat} now row escalation option_ actor note d :
  _direction now row escalation option_ actor note = Ok d → answers option_ row d.
Proof.
  unfold _direction. intros (previous & Hp & Hq)%res_bind_ok.
  apply res_bind_ok in Hq as (key & Hk & Hq). apply res_bind_ok in Hq as (label & _ & Hq). apply res_bind_ok in Hq as (effect & He & Hq).
  match type of Hq with Ok (?l ++ ?m ++ ?n) = _ => set (tail := m ++ n) in Hq end.
  assert (∀ k, k ∉ KEPT_DIRECTION → k ∉ _PRIOR_KEYS → assoc_get k tail = None) as Ht by (intros; by apply tail_outside).
  clearbody tail. injection Hq as <-.
  assert (∀ k v, item k option_ = Ok v → v = dict_get k option_) as Hitem.
  { unfold item, policy_index, dict_get. intros k v. destruct (assoc_get k option_); [by intros [= ->]|done]. }
  split; [by apply Hitem|by apply Hitem|done| | |].
  - unfold dict_get. cbn. rewrite Ht; [done|by apply (bool_decide_unpack _)..].
  - intros Hfew t Hn. destruct (named_text _ _ Hn) as [_ Htt]. unfold prior_attempt. rewrite Hn.
    assert (length previous ≤ 8)%nat as Hl.
    { destruct (dict_get "previous_task_ids" (direction_of row)) as [| | | | |l| |] eqn:E;
        try (revert Hp; match goal with |- context [if ?b then _ else _] => destruct b end; [done|intros [= <-]; simpl; lia]).
      injection Hp as <-. by apply Hfew. }
    destruct (kept_previous t previous Hl) as [Hx| ->]; [|done]. exact (f_equal Ok Hx).
  - intros l E. injection E as <-. unfold last_n. rewrite length_drop. lia.
Qed.

Lemma surface_answers db row d d' option_ :
  _grant_delivery_surface db row d = Ok (inr d') → answers option_ row d → answers option_ row d'.
Proof.
  unfold _grant_delivery_surface. intros Hq [Hk He Hd Hg Ht Hf].
  assert (∀ k n v w, k ∉ ["delivery_branch"; "delivery_pr_number"]%string →
            assoc_get k (dict_set "delivery_pr_number" (PInt n) (dict_set "delivery_branch" (PStr v) w)) = assoc_get k w) as Hset.
  { intros k n v w [? [? _]%not_elem_of_cons]%not_elem_of_cons. by rewrite !assoc_get_set_ne. }
  destruct (granted_delivery_surface _) as [[[branch|] [number|]]|e]; try (by injection Hq as <-); [|by destruct e].
  apply res_bind_ok in Hq as ([t|] & _ & Hq); [done|]. injection Hq as <-.
  split; [..|intros Hfew t Hn; specialize (Ht Hfew t Hn)|intros l E; apply Hf; revert E]; unfold dict_get, get_or in *;
    (rewrite Hset; [done|by apply (bool_decide_unpack _)]).
Qed.

(** Naming the grant leaves the answer as it is. *)
Lemma granted_answer k g (d : dict) : k ≠ "funding_overlay"%string → assoc_get k (dict_set "funding_overlay" g d) = assoc_get k d.
Proof. intros Hk. by apply assoc_get_set_ne. Qed.

(** ** The grant's audit *)

(** No name that a grant writes down is the text that marks a compatibility
    projection: the repository, the task ids and the rendered times. *)
Record unmarked_names `{IsoFormat} (db : FDB) (row : FactoryReceipt) : Prop := mkUnmarkedNames
  { um_repo : marks (rc_repo row) = false;
    um_tasks : ∀ r t, r ∈ f_receipts db → rc_task_id r = Some t → marks t = false;
    um_audits : ∀ a t, a ∈ f_audits db → au_task_id a = Some t → marks t = false;
    um_times : ∀ now, marks (isoformat (mkDatetime now (Some 0))) = false }.

Lemma marked_dict d : marked (PDict d) = existsb (λ p : string * pyval, marks p.1 || marked p.2) d.
Proof. induction d as [|[k v] d IH]; [done|]. cbn in *. by rewrite IH. Qed.
Lemma marked_strs l : marked (PList (PStr <$> l)) = existsb marks l.
Proof. induction l as [|x l IH]; [done|]. cbn in *. by rewrite IH. Qed.

Lemma admitted_named receipt_ids audits ids :
  admitted_ids receipt_ids audits = Ok ids → ∀ t, t ∈ ids → ∃ a, a ∈ audits ∧ au_task_id a = Some t.
Proof.
  revert ids. induction audits as [|a audits IH]; intros ids; cbn [admitted_ids]; [by intros [= <-] t []%elem_of_nil|].
  intros (named & _ & Hq)%res_bind_ok t Ht. destruct named.
  - destruct (au_task_id a) as [t'|] eqn:Ea; [|done]. case_bool_decide; [done|].
    apply res_bind_ok in Hq as (ids' & Hids & [= <-]). apply elem_of_cons in Ht as [->|Ht]; [exists a; split; [left|done]|].
    destruct (IH _ Hids t Ht) as (a' & ? & ?). exists a'. split; [by right|done].
  - destruct (IH _ Hq t Ht) as (a' & ? & ?). exists a'. split; [by right|done].
Qed.

Lemma objective_unmarked `{IsoFormat} db row total :
  unmarked_names db row → objective_for_receipt db row = Ok total → marked (PDict total) = false.
Proof.
  intros [Hrepo Ht Ha _]. unfold objective_for_receipt. intros (ids & Hids & [= <-])%res_bind_ok.
  rewrite marked_dict. cbn [existsb fst snd]. rewrite marked_strs. change (marked (PStr ?s)) with (marks s). rewrite Hrepo.
  assert (existsb marks ids = false) as ->; [|by vm_compute].
  unfold objective_task_ids in Hids. apply res_bind_ok in Hids as (adm & Hadm & [= <-]).
  apply not_true_is_false. intros (t & Hin%list_elem_of_In & Hm)%existsb_exists.
  rewrite elem_of_py_sorted, elem_of_remove_dups, elem_of_app in Hin. destruct Hin as [Hin|Hin].
  - apply list_elem_of_omap in Hin as (r & [_ Hr]%list_elem_of_filter & [Et _]%named_text). by rewrite (Ht r t) in Hm.
  - destruct (admitted_named _ _ _ Hadm t Hin) as (a & [_ Hain]%list_elem_of_filter & Et). by rewrite (Ha a t) in Hm.
Qed.

Lemma fresh_audit a l rest :
  au_id a = next_id au_id l → find_first (λ x, au_id x =? au_id a) ((l ++ [a]) ++ rest) = Some a.
Proof.
  intros Hid. assert (∀ x, x ∈ l → (au_id x =? au_id a) = false) as Hl.
  { intros x Hx. apply Z.eqb_neq. pose proof (max_key_ge au_id l x Hx). unfold next_id in Hid. lia. }
  rewrite <-app_assoc. clear Hid. induction l as [|x l IH]; simpl; [by rewrite Z.eqb_refl|].
  rewrite Hl by constructor. apply IH. intros y Hy. apply Hl. by constructor.
Qed.

Lemma newest_app db l a t p :
  f_audits db = l ++ [a] → au_task_id a = t → p a = true → newest db t p = Some a.
Proof.
  intros E Et Hp. unfold newest, find_last. rewrite E, reverse_snoc. simpl. by rewrite bool_decide_eq_true_2, Hp.
Qed.

Lemma audit_task actor action t detail db :
  is_Some (find_task db t) → ∃ source,
    f_audits (_audit actor action (Some t) detail db) = f_audits db ++ [source] ∧
    au_id source = next_id au_id (f_audits db) ∧ au_action source = action ∧ au_task_id source = Some t ∧
    au_detail_json source = detail.
Proof. unfold _audit. intros [task ->]. cbn. eexists. split; [done|]. done. Qed.

(** What the grant leaves: one more audit, and the overlay that names it. *)
Definition grant_of (t : string) (i : Z) (a : Authority) : dict :=
  [("source_task_id", PStr t); ("source_audit_id", PInt i); ("policy_overlay", PDict (overlay_of (da_target a)))]%string.
Definition granted (row : FactoryReceipt) (a : Authority) (db : FDB) (g : dict) (db' : FDB) : Prop :=
  ∃ source t, f_audits db' = f_audits db ++ [source] ∧ f_receipts db' = f_receipts db ∧ named_task row = Some t ∧
    au_id source = next_id au_id (f_audits db) ∧ source_matches source t row a (PDict (overlay_of (da_target a))) = true ∧
    g = grant_of t (au_id source) a.

Lemma grant_inv `{IsoFormat} row escalation option_ db o db' :
  grant_dispatch_refusal row escalation option_ db = Ok (o, db') → unmarked_names db row →
  (_dispatch_authority escalation option_ = Ok None ∧ o = None ∧ db' = db) ∨
  ∃ a g, _dispatch_authority escalation option_ = Ok (Some a) ∧ sound_authority a ∧ o = Some g ∧ granted row a db g db'.
Proof.
  unfold grant_dispatch_refusal, validate_dispatch_refusal. intros (v & Hv & Hq)%res_bind_ok Hm.
  apply res_bind_ok in Hv as ([a|] & Ha & Hv); [right|left; injection Hv as <-; by injection Hq as <- <-].
  destruct (named_task row) as [t|] eqn:Hn; [|done]. destruct (negb _); [done|].
  destruct (find_task db t) as [task|] eqn:Ht; [|done].
  apply res_bind_ok in Hv as (policy & _ & Hv). apply res_bind_ok in Hv as (budget & _ & Hv). apply res_bind_ok in Hv as (current & _ & Hv).
  destruct (negb _); [done|]. apply res_bind_ok in Hv as ([] & _ & Hv); [done|]. apply res_bind_ok in Hv as (total & Htot & [= <-]).
  apply res_bind_ok in Hq as (deadline & _ & Hq). cbn [va_authority va_policy va_task va_total] in Hq.
  destruct (named_text _ _ Hn) as [Et _]. rewrite Et in Hq.
  match type of Hq with context [_audit ?who ?what (Some t) ?said db] =>
    destruct (audit_task who what t said db (mk_is_Some _ _ Ht)) as (source & Eau & Eid & Eact & Etask & Edet);
    pose proof (audit_receipts who what (Some t) said db) as Erec; set (db1 := _audit who what (Some t) said db) in * end.
  destruct (authority_sound _ _ _ Ha) as [Hs _]. exists a.
  destruct (amendment _ _) as [grant|] eqn:Hg in Hq; [|done]. apply res_bind_ok in Hq as (id & Hid & Hq).
  assert (db1 = db') as E1 by congruence. clearbody db1. injection Hq as <- _. subst db1.
  eexists. do 3 (split; [done|]). exists source, t. do 4 (split; [done|]). split.
  - unfold source_matches. rewrite Etask, Eact, Edet, !bool_decide_eq_true_2 by done.
    pose proof (authority_self a Hs) as Ha'. pose proof (overlay_self _ (sa_target _ Hs)) as Ho'.
    assert (py_eq (PInt (rc_id row)) (PInt (rc_id row)) = true) as Hi by by apply py_eq_refl.
    rewrite !andb_true_iff. repeat match goal with |- _ ∧ _ => split end; done.
  - unfold amendment, latest in Hg. rewrite (newest_app _ (f_audits db) source) in Hg; [|done..|].
    + injection Hg as <-. unfold item, policy_index in Hid. rewrite assoc_get_set_eq in Hid. by injection Hid as <-.
    + unfold funding_audit_filter. rewrite Eact, Edet, marked_dict. cbn [existsb fst snd].
      rewrite (objective_unmarked _ _ _ Hm Htot). change (marked (deadline_text ?z)) with (marks (isoformat (mkDatetime z (Some 0)))).
      rewrite (um_times _ _ Hm). by vm_compute.
Qed.

(** ** The round trip *)

Lemma continued_authority option_ row d escalation :
  answers option_ row d → _dispatch_authority escalation (continued_option d) = _dispatch_authority escalation option_.
Proof.
  intros [Hk He Hd _ _ _]. apply authority_option; [done..|]. change (dict_get "detail" (continued_option d)) with (or_empty (dict_get "detail" d)).
  by rewrite Hd, !or_empty_idem.
Qed.

(** Without dollars nothing is carried. *)
Lemma plain_continuation option_ row row' d later policy :
  answers option_ row d → direction_of row' = d → rc_escalation_json row' = rc_escalation_json row →
  _dispatch_authority (escalation_of row) option_ = Ok None → dispatch_continuation_grant later row' policy = Ok None.
Proof.
  intros Han Ed Ee Ha. unfold dispatch_continuation_grant. rewrite Ee, Ed, (continued_authority _ _ _ _ Han).
  unfold escalation_of in Ha. rewrite Ha. simpl. by rewrite (an_grant _ _ _ Han).
Qed.

(** What is left to decide once the grant is found: the budget of the policy it
    is asked under, and the objective's ledger. *)
Definition funded (a : Authority) (g : dict) (later : FDB) (row : FactoryReceipt) (policy : dict) : res (option dict) :=
  budget ← item "task_budget_usd" policy;
  low ← within (da_target a) budget;
  if (low : bool) then Raise (ValueError "dispatch continuation target does not raise the task budget")
  else total ← objective_for_receipt later row; Ok (Some (dict_set "objective" (PDict total) g)).

(** A carried grant is found and matches. *)
Lemma funded_continuation option_ row row' a g d db db1 later policy :
  answers option_ row d → few_previous row → granted row a db g db1 → sound_authority a → f_audits db1 `prefix_of` f_audits later →
  direction_of row' = dict_set "funding_overlay" (PDict g) d → rc_escalation_json row' = rc_escalation_json row → rc_id row' = rc_id row →
  _dispatch_authority (escalation_of row) option_ = Ok (Some a) →
  dispatch_continuation_grant later row' policy = funded a g later row' policy.
Proof.
  intros Han Hfew (source & t & Eau & _ & Hn & Eid & Hm & ->) Hs [rest Hrest] Ed Ee Ei Ha.
  set (g := grant_of t (au_id source) a) in *. pose proof Han as [Hk He Hd _ Hp _].
  unfold dispatch_continuation_grant. rewrite Ee, Ed. fold (escalation_of row).
  assert (_dispatch_authority (escalation_of row) (continued_option (dict_set "funding_overlay" (PDict g) d)) = Ok (Some a)) as ->.
  { rewrite <-Ha, <-(continued_authority _ _ _ _ Han). unfold continued_option, dict_get. by rewrite !granted_answer. }
  cbn [mbind res_bind]. unfold dict_get at 1. rewrite assoc_get_set_eq. cbn [default id].
  change (keys_within g GRANT_KEYS && forallb (λ k, has_key k g) GRANT_KEYS) with true. cbn [negb].
  change (dict_get "policy_overlay" g) with (PDict (overlay_of (da_target a))).
  rewrite (overlay_self _ (sa_target _ Hs)). cbn [negb].
  change (dict_get "source_task_id" g) with (PStr t). change (dict_get "source_audit_id" g) with (PInt (au_id source)). cbn iota.
  unfold get_or. rewrite granted_answer by done. specialize (Hp Hfew t Hn). unfold get_or in Hp. rewrite Hp. cbn [mbind res_bind negb].
  rewrite Hrest, Eau, (fresh_audit _ _ _ Eid). unfold source_matches in *. by rewrite Ei, Hm.
Qed.

(** Where the requeued receipt stands after [_readmit]. *)
Lemma readmit_inv `{Environ, IsoFormat, Rendering} row escalation option_ actor note ignore db db' :
  row ∈ f_receipts db → unmarked_names db row →
  _readmit row escalation option_ actor note ignore db = Ok (Readmitted, db') →
  ∃ row' d db1, row' ∈ f_receipts db' ∧ rc_id row' = rc_id row ∧ rc_state row' = "queued"%string ∧
    rc_escalation_json row' = rc_escalation_json row ∧ identity row' = identity row ∧
    answers option_ row d ∧ f_audits db1 `prefix_of` f_audits db' ∧
    ((_dispatch_authority escalation option_ = Ok None ∧ direction_of row' = d) ∨
     ∃ a g, _dispatch_authority escalation option_ = Ok (Some a) ∧ sound_authority a ∧ granted row a db g db1 ∧
            direction_of row' = dict_set "funding_overlay" (PDict g) d).
Proof.
  intros Hrow Hm. unfold _readmit. intros (direction & Hd & Hq)%res_bind_ok.
  apply res_bind_ok in Hq as (surface & Hs & Hq). apply res_bind_ok in Hq as (blocker & Hb & Hq).
  destruct blocker as [why|d]; [done|]. apply res_bind_ok in Hq as ([o db1] & Hg & Hq). cbn beta iota in Hq.
  assert (surface = inr d) as ->.
  { destruct surface as [w|d0]; [done|]. case_bool_decide; [by injection Hb as ->|].
    apply res_bind_ok in Hb as ([why|] & _ & Hb); [done|]. by injection Hb as ->. }
  pose proof (surface_answers _ _ _ _ option_ Hs (direction_answers _ _ _ _ _ _ _ Hd)) as Han. clear Hs Hb Hd direction.
  set (d' := match o with Some g => dict_set "funding_overlay" (PDict g) d | None => d end) in *.
  set (row1 := if bool_decide (rc_state row = "queued"%string) then with_direction d' row else _requeue (with_direction d' row)).
  assert (f_receipts db' = (λ r, if rc_id r =? rc_id row then row1 else r) <$> f_receipts db1 ∧ f_audits db1 `prefix_of` f_audits db') as [Erec Hpre].
  { unfold row1. case_bool_decide; injection Hq as <-; [by split|]. split; [by rewrite audit_receipts|].
    unfold _audit. simpl. by apply prefix_app_r. }
  exists row1, d, db1.
  assert (rc_state row1 = "queued"%string) as Est by (unfold row1; by case_bool_decide).
  assert (direction_of row1 = d' ∧ rc_escalation_json row1 = rc_escalation_json row ∧ identity row1 = identity row ∧ rc_id row1 = rc_id row)
    as (Edir & ? & ? & ?) by (unfold row1; by case_bool_decide).
  rewrite Erec, Edir. clearbody row1. clear Hq.
  assert (∀ l : list FactoryReceipt, row ∈ l → row1 ∈ (λ r, if rc_id r =? rc_id row then row1 else r) <$> l) as Hput.
  { intros l Hl. apply list_elem_of_fmap. exists row. by rewrite Z.eqb_refl. }
  apply grant_inv in Hg as [(Ha & -> & ->)|(a & g & Ha & Hsound & -> & Hgr)]; [| |done].
  - split; [by apply Hput|]. repeat (split; [done|]). left. done.
  - destruct Hgr as (source & t & Eau & Er & Hrest). rewrite Er.
    split; [by apply Hput|]. repeat (split; [done|]). right.
    exists a, g. repeat (split; [done|]). split; [|done]. by exists source, t.
Qed.

(** C16: An answer put back in the queue is honoured by the continuation.  When
    the readmission succeeds, then in any later state whose audits extend the
    ones it left, and under any policy, the requeued receipt's continuation
    either needs no dollars and is granted none, or is granted exactly the task
    budget the recorded refusal authorizes: its grant is found and matches, so
    nothing but three readings is left to refuse it, the policy's task budget
    (absent or not a number), that budget already at or above the target, and
    the objective's ledger (an admission audit that cannot be read).  The
    receipt's earlier direction names at most eight tasks, which every direction
    this operation writes keeps; and no repository, task id or rendered time is
    the text that marks a compatibility projection. *)
Theorem readmission_funds_continuation `{Environ, IsoFormat, Rendering} row option_ actor note ignore db db' :
  row ∈ f_receipts db → few_previous row → unmarked_names db row →
  _readmit row (escalation_of row) option_ actor note ignore db = Ok (Readmitted, db') →
  ∃ row', row' ∈ f_receipts db' ∧ identity row' = identity row ∧ rc_state row' = "queued"%string ∧ few_previous row' ∧
    match _dispatch_authority (escalation_of row) option_ with
    | Ok None => ∀ later policy, f_audits db' `prefix_of` f_audits later → dispatch_continuation_grant later row' policy = Ok None
    | Ok (Some a) => ∃ g, item "policy_overlay" g = Ok (PDict (overlay_of (da_target a))) ∧
        ∀ later policy, f_audits db' `prefix_of` f_audits later →
          dispatch_continuation_grant later row' policy = funded a g later row' policy
    | Raise _ => False
    end.
Proof.
  intros Hrow Hfew Hm Hq.
  destruct (readmit_inv _ _ _ _ _ _ _ _ Hrow Hm Hq) as (row' & d & db1 & ? & ? & ? & Ee & ? & Han & Hpre & Hcase).
  exists row'. do 3 (split; [done|]). split.
  { intros l Hl. apply (an_few _ _ _ Han). rewrite <-Hl. destruct Hcase as [[_ ->]|(a & g & _ & _ & _ & ->)]; [done|].
    unfold dict_get. by rewrite granted_answer. }
  destruct Hcase as [[Ha Ed]|(a & g & Ha & Hs & Hgr & Ed)]; rewrite Ha; [intros later policy _; by eapply plain_continuation|].
  exists g. split; [by pose proof Hgr as (source & t & _ & _ & _ & _ & _ & ->)|].
  intros later policy Hlater. eapply (funded_continuation option_ row row' a g d db db1); try done; by etrans.
Qed.
