(* ===== verification/FeedbackClaims.v ===== *)
(** * Factory feedback: what the samples and routes guarantee

    A task's first-pass sample is its earliest completed review, recorded once;
    a class's decision is an exact threshold on its newest twenty samples; and
    storing a route retires an advisory tier for good. *)

From Stdlib Require Import SpecFloat.
From stdpp Require Import prelude list strings sorting pretty.
From S2P Require Import Prelude PyValue GraphData GraphPlan WorkItems PolicyData Policy Controls Starts Finish Feedback.
Local Open Scope Z_scope.

(** ** The first review *)

Lemma least_by_spec {A} (key : A → Z) l best :
  (least_by key l best = best ∨ least_by key l best ∈ l) ∧
  key (least_by key l best) ≤ key best ∧ ∀ x, x ∈ l → key (least_by key l best) ≤ key x.
Proof.
  revert best. induction l as [|y l IH]; intros best; simpl.
  - split; [by left|]. split; [done|]. by intros x ?%elem_of_nil.
  - destruct (Z.ltb_spec (key y) (key best)) as [Hlt|Hge].
    + destruct (IH y) as ([->|Hin] & Hle & Hall); (split; [right; by constructor|]); (split; [lia|]);
        intros x [->|Hx]%elem_of_cons; auto.
    + destruct (IH best) as ([->|Hin] & Hle & Hall).
      * split; [by left|]. split; [lia|]. intros x [->|Hx]%elem_of_cons; [lia|auto].
      * split; [right; by constructor|]. split; [lia|]. intros x [->|Hx]%elem_of_cons; [lia|auto].
Qed.

Definition reviews (runs : list RunDict) : list RunDict :=
  filter (λ r, completed_review r && is_some (int_of (rd_id r)) = true) runs.

Lemma first_review_spec runs r :
  _first_review runs = Some r → r ∈ reviews runs ∧ ∀ x, x ∈ reviews runs → run_id r ≤ run_id x.
Proof.
  unfold _first_review. fold (reviews runs). destruct (reviews runs) as [|y l]; [done|]. intros [= <-].
  destruct (least_by_spec run_id l y) as ([E|Hin] & Hle & Hall).
  - split; [rewrite E; constructor|]. intros x [->|Hx]%elem_of_cons; auto.
  - split; [by constructor|]. intros x [->|Hx]%elem_of_cons; auto.
Qed.

Lemma classified_approve `{Rendering} run v s h :
  _classified_verdict run = (v, s, h) →
  (v = "approve"%string ↔ py_eq (rd_status run) (PStr "succeeded") = true ∧
                          dict_get "verdict" (run_artifact run) = PStr "approve").
Proof.
  unfold _classified_verdict. intros [= <- _ _].
  destruct (py_eq _ _) eqn:E; [|by split; [|intros [? _]]].
  destruct (dict_get "verdict" _) as [| | | |w| | |]; try (split; [done|by intros [_ ?]]).
  unfold str_in. case_bool_decide as Hw; [split; [by intros ->|by intros [_ [= ->]]]|].
  split; [done|]. intros [_ [= ->]]. destruct Hw. constructor.
Qed.

(** ** One sample per task *)

Lemma audit_verdicts actor action task detail db : f_verdicts (_audit actor action task detail db) = f_verdicts db.
Proof. unfold _audit. destruct task as [t|]; [destruct (find_task db t)|]; done. Qed.

Definition of_task (t : string) (v : FactoryReviewVerdict) : bool := bool_decide (vd_task_id v = t).
Lemma find_first_app {A} (p : A → bool) l l' :
  find_first p (l ++ l') = match find_first p l with Some x => Some x | None => find_first p l' end.
Proof. induction l as [|x l IH]; simpl; [done|]. by destruct (p x). Qed.

Lemma sample_inv `{Rendering} t runs db o db' :
  record_first_pass t runs db = Ok (o, db') →
  (db' = db ∧ (o = None ∨ o = verdict_of db t)) ∨
  ∃ receipt review v, verdict_of db t = None ∧ _receipt db t = Some receipt ∧
    is_advisory (receipt_task_class receipt) = false ∧ _first_review runs = Some review ∧
    (∀ w, w ∈ f_verdicts db → vd_review_run_id w ≠ run_id review) ∧ o = Some v ∧ f_verdicts db' = f_verdicts db ++ [v] ∧
    vd_task_id v = t ∧ vd_review_run_id v = run_id review ∧ vd_recipe_run_id v = run_id <$> _recipe_run runs review ∧
    vd_task_class v = receipt_task_class receipt ∧ vd_sample_kind v = DELIVERY_TIER ∧
    _classified_verdict review = (vd_verdict v, vd_summary v, vd_head_sha v).
Proof.
  unfold record_first_pass. destruct (negb _); [intros [= <- <-]; auto|].
  destruct (verdict_of db t) as [v|] eqn:Hv; [intros [= <- <-]; auto|].
  destruct (_receipt db t) as [receipt|] eqn:Hr; [|intros [= <- <-]; auto].
  destruct (is_advisory _) eqn:Ha; [intros [= <- <-]; auto|].
  destruct (_first_review runs) as [review|] eqn:Hf; [|intros [= <- <-]; auto].
  destruct (existsb _ _) eqn:Hx; [done|]. rewrite existsb_false in Hx.
  destruct (_classified_verdict review) as [[verdict summary] head] eqn:Hc. intros [= <- <-]. right.
  eexists receipt, review, _. do 4 (split; [done|]). split; [intros w Hw; specialize (Hx w Hw); by apply Z.eqb_neq in Hx|].
  split; [done|]. rewrite audit_verdicts. done.
Qed.

Lemma greatest_by_in {A} (key : A → Z) l best : greatest_by key l best = best ∨ greatest_by key l best ∈ l.
Proof.
  revert best. induction l as [|y l IH]; intros best; simpl; [by left|].
  destruct (IH (if key best <? key y then y else best)) as [->|?]; [|right; by constructor].
  destruct (_ <? _); [right; constructor|by left].
Qed.

Lemma recipe_earlier runs review r : _recipe_run runs review = Some r → r ∈ runs ∧ run_id r < run_id review ∧
  key_starts "conductor_" (rd_node_key r) = true.
Proof.
  unfold _recipe_run. destruct (filter _ _) as [|x l] eqn:E; [done|]. intros [= <-].
  assert (greatest_by run_id l x ∈ x :: l) as Hin.
  { destruct (greatest_by_in run_id l x) as [->|?]; by constructor. }
  rewrite <-E in Hin. apply list_elem_of_filter in Hin as [[[[? _]%andb_prop _]%andb_prop ?%Z.ltb_lt]%andb_prop Hin]. done.
Qed.

(** The sample recorded for a task comes from its earliest completed review
    with an id: a review node with a session that ran to an outcome and was not
    denied capacity.  It approves exactly when that run succeeded with an
    approving artifact, it names only a conductor run before the review, and an
    advisory task gets none. *)
Theorem first_pass_sample `{Rendering} t runs db v db' :
  record_first_pass t runs db = Ok (Some v, db') → verdict_of db t = None →
  ∃ review receipt, review ∈ runs ∧ completed_review review = true ∧ int_of (rd_id review) = Some (vd_review_run_id v) ∧
    (∀ x i, x ∈ runs → completed_review x = true → int_of (rd_id x) = Some i → vd_review_run_id v ≤ i) ∧
    (vd_verdict v = "approve"%string ↔
       py_eq (rd_status review) (PStr "succeeded") = true ∧ dict_get "verdict" (run_artifact review) = PStr "approve") ∧
    (∀ i, vd_recipe_run_id v = Some i → i < vd_review_run_id v) ∧
    _receipt db t = Some receipt ∧ vd_task_class v = receipt_task_class receipt ∧ is_advisory (vd_task_class v) = false ∧
    f_verdicts db' = f_verdicts db ++ [v].
Proof.
  intros Hq Hnone. destruct (sample_inv _ _ _ _ _ Hq) as [[_ [?|E]]|(receipt & review & w & _ & Hr & Ha & Hf & _ & [= <-] & Hv & Ht & Hid & Hrec & Hc & _ & Hcl)];
    [done|congruence|]. destruct (first_review_spec _ _ Hf) as [[[Hdone Hint]%andb_prop Hin]%list_elem_of_filter Hleast].
  exists review, receipt. split; [done|]. split; [done|]. rewrite Hid.
  split; [unfold run_id; by destruct (int_of (rd_id review))|]. split.
  { intros x i Hx Hd Hi. assert (run_id x = i) as <- by (unfold run_id; by rewrite Hi). apply Hleast, list_elem_of_filter.
    by rewrite Hd, Hi. }
  split; [by eapply classified_approve|]. split; [|by rewrite Hc].
  intros i. rewrite Hrec. intros (r & Hr' & ->)%fmap_Some. by apply recipe_earlier in Hr' as (_ & ? & _).
Qed.

(** No task and no run has two samples. *)
Record samples_wf (db : FDB) : Prop := mkSamplesWf
  { sw_tasks : NoDup (vd_task_id <$> f_verdicts db); sw_runs : NoDup (vd_review_run_id <$> f_verdicts db) }.

Lemma NoDup_fmap_snoc {A B} (f : A → B) l x : NoDup (f <$> l) → (∀ y, y ∈ l → f y ≠ f x) → NoDup (f <$> l ++ [x]).
Proof.
  intros Hnd Hx. rewrite fmap_app. apply NoDup_app. split; [done|]. split; [|apply NoDup_singleton].
  intros z (y & -> & Hy)%list_elem_of_fmap E%list_elem_of_singleton. by apply (Hx y).
Qed.

(** C34: A task's first-pass sample is final: whatever reviews finish later, asking
    again returns the same sample or none and stores nothing, and no two samples
    share a task or a run. *)
Theorem first_pass_final `{Rendering} t runs db v db' :
  samples_wf db → record_first_pass t runs db = Ok (Some v, db') →
  samples_wf db' ∧ verdict_of db' t = Some v ∧
  ∀ later runs' o db2, f_verdicts db' `prefix_of` f_verdicts later → record_first_pass t runs' later = Ok (o, db2) →
    db2 = later ∧ (o = None ∨ o = Some v).
Proof.
  intros Hwf Hq. assert (samples_wf db' ∧ verdict_of db' t = Some v) as [Hwf' Hv].
  { destruct (sample_inv _ _ _ _ _ Hq) as [[-> [?|E]]|(receipt & review & w & Hn & _ & _ & _ & Hruns & [= <-] & Hv & Ht & Hid & _)]; [done|done|].
    unfold verdict_of in *. rewrite Hv, find_first_app, Hn. simpl. rewrite bool_decide_eq_true_2 by done. split; [|done].
    rewrite find_first_None in Hn. destruct Hwf. split; rewrite Hv; apply NoDup_fmap_snoc; try done.
    - intros y Hy%Hn. apply bool_decide_eq_false in Hy. congruence.
    - intros y Hy. rewrite Hid. auto. }
  split; [done|]. split; [done|]. intros later runs' o db2 [rest E] Hq'.
  assert (verdict_of later t = Some v) as Hv' by (unfold verdict_of in *; by rewrite E, find_first_app, Hv).
  destruct (sample_inv _ _ _ _ _ Hq') as [[-> [-> | ->]]|(? & ? & ? & Hn & _)]; [auto..|congruence].
Qed.

(** ** The window *)

Lemma newer_total a b : newer a b = true ∨ newer b a = true.
Proof.
  unfold newer. rewrite (Z.compare_antisym (vd_reviewed_at b) (vd_reviewed_at a)).
  destruct (vd_reviewed_at b ?= vd_reviewed_at a); simpl; [|by left|by right].
  destruct (Z.leb_spec (vd_id b) (vd_id a)); [by left|right]. apply Z.leb_le. lia.
Qed.
Lemma newer_trans a b c : newer a b = true → newer b c = true → newer a c = true.
Proof.
  unfold newer. destruct (Z.compare_spec (vd_reviewed_at b) (vd_reviewed_at a)), (Z.compare_spec (vd_reviewed_at c) (vd_reviewed_at b)),
    (Z.compare_spec (vd_reviewed_at c) (vd_reviewed_at a)); rewrite ?Z.leb_le; try done; lia.
Qed.

(** The head of a sorted list comes before its tail. *)
Lemma sorted_split {A} (R : A → A → Prop) l n x y :
  StronglySorted R l → x ∈ take n l → y ∈ drop n l → R x y.
Proof.
  intros Hs. revert n. induction Hs as [|z l Hs IH Hz]; intros n; [by rewrite take_nil; intros ?%elem_of_nil|].
  destruct n as [|n]; [by intros ?%elem_of_nil|]. simpl. intros [->|Hx]%elem_of_cons Hy; [|by eapply IH].
  rewrite Forall_forall in Hz. apply Hz. rewrite <-(take_drop n l). apply elem_of_app. by right.
Qed.

Definition in_class (task_class kind : string) (since : option Z) (v : FactoryReviewVerdict) : Prop :=
  vd_task_class v = task_class ∧ vd_sample_kind v = kind ∧ ∀ s, since = Some s → s ≤ vd_reviewed_at v.

Lemma window_newest db task_class kind since :
  (length (_window db task_class kind since) ≤ WINDOW_SIZE)%nat ∧
  (∀ v, v ∈ _window db task_class kind since → v ∈ f_verdicts db ∧ in_class task_class kind since v) ∧
  ∀ v, v ∈ f_verdicts db → in_class task_class kind since v → v ∉ _window db task_class kind since →
    length (_window db task_class kind since) = WINDOW_SIZE ∧ ∀ w, w ∈ _window db task_class kind since → newer w v = true.
Proof.
  unfold _window. set (l := filter _ _).
  assert (∀ v, v ∈ l ↔ v ∈ f_verdicts db ∧ in_class task_class kind since v) as Hl.
  { intros v. unfold l, in_class. rewrite list_elem_of_filter. destruct since as [s|]; [|naive_solver].
    rewrite Z.leb_le. split; [|naive_solver]. intros ((? & ? & ?) & ?). split; [done|]. split; [done|]. split; [done|].
    by intros ? [= <-]. }
  split; [rewrite length_take; lia|]. split.
  - intros v Hv. apply Hl. rewrite <-(elem_of_py_sorted newer). rewrite <-(take_drop WINDOW_SIZE). apply elem_of_app. by left.
  - intros v Hv Hc Hout. assert (v ∈ drop WINDOW_SIZE (py_sorted newer l)) as Hdrop.
    { assert (v ∈ py_sorted newer l) as Hin by (rewrite elem_of_py_sorted; by apply Hl).
      rewrite <-(take_drop WINDOW_SIZE) in Hin. by apply elem_of_app in Hin as [?|?]. }
    split.
    + rewrite length_take. assert (0 < length (drop WINDOW_SIZE (py_sorted newer l)))%nat as Hlen; [|rewrite length_drop in Hlen; lia].
      destruct (drop _ _); [by apply elem_of_nil in Hdrop|simpl; lia].
    + intros w Hw. apply Is_true_true. eapply (sorted_split (λ a b, Is_true (newer a b))); [|exact Hw|exact Hdrop].
      apply Sorted_StronglySorted; [|apply py_sorted_Sorted, newer_total].
      intros a b c Hab%Is_true_true Hbc%Is_true_true. apply Is_true_true. by eapply newer_trans.
Qed.

(** ** The decision *)

(** Twelve approvals in twenty are exactly the floor. *)
Lemma floor_exact k : (k ≤ WINDOW_SIZE)%nat →
  ∃ r, rate (Z.of_nat k) (Z.of_nat WINDOW_SIZE) = Some r ∧
       flt r APPROVAL_FLOOR = bool_decide (k < 12)%nat ∧ feq r APPROVAL_FLOOR = bool_decide (k = 12)%nat.
Proof.
  intros Hk. assert (k ∈ seq 0 21) as Hin by (apply elem_of_seq; unfold WINDOW_SIZE in Hk; lia). clear Hk. revert k Hin.
  apply Forall_forall. cbn [seq]. repeat apply Forall_cons_2; try apply Forall_nil_2.
  all: eexists; split; [reflexivity|]; split; vm_compute; reflexivity.
Qed.

Lemma approvals_bound rows :
  ∃ k, count_verdict "approve" (vd_verdict <$> rows) = Z.of_nat k ∧ (k ≤ length rows)%nat.
Proof.
  eexists. split; [done|]. etrans; [apply length_filter|]. by rewrite length_fmap.
Qed.

Definition delivery_decision (count approvals : Z) : string :=
  if count <? Z.of_nat WINDOW_SIZE then "insufficient_samples"%string
  else match (approvals ?= 12)%Z with
       | Lt => "below_floor"%string
       | Eq => "at_floor_hold"%string
       | Gt => "quality_holds"%string
       end.

Lemma route_exact previous rows :
  (length rows ≤ WINDOW_SIZE)%nat → previous ≠ ADVISORY_TIER →
  route_decision previous (_rate_view rows) =
    (DELIVERY_TIER, delivery_decision (ra_sample_count (_rate_view rows)) (ra_approval_count (_rate_view rows))).
Proof.
  intros Hlen Hp. destruct (approvals_bound rows) as (k & Ek & Hk). unfold route_decision, delivery_decision, _rate_view.
  rewrite Ek. cbn [ra_sample_count ra_approval_count ra_approval_rate]. rewrite bool_decide_eq_false_2 by done.
  destruct (Z.ltb_spec (Z.of_nat (length rows)) (Z.of_nat WINDOW_SIZE)) as [|Hge]; [done|].
  assert (length rows = WINDOW_SIZE) as E by lia. rewrite E. destruct (floor_exact k) as (r & -> & -> & ->); [lia|].
  destruct (Z.compare_spec (Z.of_nat k) 12); [rewrite bool_decide_eq_false_2, bool_decide_eq_true_2 by lia; done|
    rewrite bool_decide_eq_true_2 by lia; done|rewrite !bool_decide_eq_false_2 by lia; done].
Qed.

(** The decision of a delivery class is an exact threshold: with fewer than
    twenty samples it waits, else fewer than twelve approvals are below the floor,
    twelve hold at it and more are above; a class stored as advisory is retired;
    and the route is always delivery.  The samples counted are the newest of the
    class since its last change of tier, all of them while there are fewer than
    twenty. *)
Theorem class_decision_exact db c :
  is_advisory c = false →
  let fb := feedback_for_class db c in
  let previous := match _tier db c with Some t => ti_routing_tier t | None => DELIVERY_TIER end in
  let since := ti_transitioned_at <$> _tier db c in
  fb_tier fb = DELIVERY_TIER ∧
  fb_decision fb = (if bool_decide (previous = ADVISORY_TIER) then "advisory_retired"%string
                    else delivery_decision (ra_sample_count (fb_window fb)) (ra_approval_count (fb_window fb))) ∧
  ∃ rows, fb_window fb = _rate_view rows ∧ (length rows ≤ WINDOW_SIZE)%nat ∧
    (∀ v, v ∈ rows → v ∈ f_verdicts db ∧ in_class c previous since v) ∧
    ∀ v, v ∈ f_verdicts db → in_class c previous since v → v ∉ rows →
      length rows = WINDOW_SIZE ∧ ∀ w, w ∈ rows → newer w v = true.
Proof.
  intros Hc. unfold feedback_for_class. rewrite Hc. cbv zeta.
  set (previous := match _tier db c with Some t => ti_routing_tier t | None => DELIVERY_TIER end).
  set (since := ti_transitioned_at <$> _tier db c). destruct (window_newest db c previous since) as (Hlen & Hin & Hnew).
  set (rows := _window db c previous since) in *. destruct (decide (previous = ADVISORY_TIER)) as [Ep|Ep].
  - unfold route_decision. rewrite !(bool_decide_eq_true_2 _ Ep). split; [done|]. split; [done|]. by exists rows.
  - rewrite (route_exact _ _ Hlen Ep), !(bool_decide_eq_false_2 _ Ep). split; [done|]. split; [done|]. by exists rows.
Qed.

(** ** The stored route *)

Lemma delivery_routed db c :
  is_advisory c = false →
  fb_tier (feedback_for_class db c) = DELIVERY_TIER ∧
  (match _tier db c with Some t => ti_routing_tier t | None => DELIVERY_TIER end ≠ ADVISORY_TIER →
   fb_decision (feedback_for_class db c) ≠ "advisory_retired"%string).
Proof.
  intros Hc. unfold feedback_for_class, route_decision. rewrite Hc. destruct (bool_decide _) eqn:E.
  - split; [done|]. intros Hne. by apply bool_decide_eq_true in E.
  - destruct (_ <? _); [done|]. by repeat match goal with |- context [if ?b then _ else _] => destruct b end.
Qed.

Lemma find_first_fmap_keep {A} (p : A → bool) (f : A → A) l :
  (∀ x, x ∈ l → p (f x) = p x) → (∀ x, x ∈ l → p x = true → f x = x) → find_first p (f <$> l) = find_first p l.
Proof.
  intros Hp Hf. induction l as [|x l IH]; [done|]. csimpl. rewrite Hp by constructor.
  destruct (p x) eqn:E; [by rewrite Hf by (constructor || done)|].
  apply IH; intros y Hy; [apply Hp|apply Hf]; by constructor.
Qed.

Lemma put_tier_at row db : _tier (put_tier row db) (ti_task_class row) = Some row.
Proof.
  unfold _tier at 1, put_tier. simpl. destruct (_tier db (ti_task_class row)) as [old|] eqn:E; unfold _tier in E; simpl.
  - induction (f_tiers db) as [|t l IH]; [done|]. csimpl in *. csimpl. case_bool_decide as Et.
    + by rewrite bool_decide_eq_true_2.
    + rewrite bool_decide_eq_false_2 by done. by apply IH.
  - induction (f_tiers db) as [|t l IH]; csimpl in *; [by rewrite bool_decide_eq_true_2|].
    case_bool_decide; [done|]. by apply IH.
Qed.
Lemma put_tier_other row db c : c ≠ ti_task_class row → _tier (put_tier row db) c = _tier db c.
Proof.
  intros Hc. unfold _tier at 1, put_tier. simpl. destruct (is_some _).
  - apply find_first_fmap_keep; intros t _; destruct (decide (ti_task_class t = ti_task_class row)) as [Et|Et];
      [rewrite (bool_decide_eq_true_2 _ Et)|rewrite (bool_decide_eq_false_2 _ Et)| |]; rewrite ?(bool_decide_eq_false_2 _ Et); try done;
      rewrite ?(bool_decide_eq_true_2 _ Et).
    + by rewrite Et.
    + intros ?%bool_decide_eq_true. congruence.
  - unfold _tier. induction (f_tiers db) as [|t l IH]; simpl; [by rewrite bool_decide_eq_false_2 by congruence|].
    by case_bool_decide.
Qed.

(** Admission's stored route heals: storing a delivery class's route never
    fails, leaves the class in delivery, starts a fresh window only when the tier
    changed and touches no other class; afterwards the class is never found
    advisory. *)
Theorem class_route_heals db c :
  is_advisory c = false →
  ∃ db' row, store_class_route c (route_for_class db c) db = Ok db' ∧
    _tier db' c = Some row ∧ ti_routing_tier row = DELIVERY_TIER ∧
    ti_transitioned_at row = match _tier db c with
                             | Some old => if bool_decide (ti_routing_tier old = DELIVERY_TIER)
                                           then ti_transitioned_at old else f_now db
                             | None => EPOCH
                             end ∧
    (∀ c', c' ≠ c → _tier db' c' = _tier db c') ∧ f_verdicts db' = f_verdicts db ∧
    fb_decision (route_for_class db' c) ≠ "advisory_retired"%string.
Proof.
  intros Hc. destruct (delivery_routed db c Hc) as [Htier _]. unfold store_class_route, route_for_class. rewrite Hc, Htier.
  cbn [str_in]. change (negb (str_in DELIVERY_TIER ROUTING_TIERS)) with false. cbn iota.
  match goal with |- context [put_tier ?r db] => set (row := r) end.
  assert (ti_task_class row = c) as Eid.
  { unfold row. destruct (_tier db c) as [old|] eqn:E; [|done]. apply find_first_Some in E as [_ E%bool_decide_eq_true].
    by case_bool_decide. }
  assert (ti_routing_tier row = DELIVERY_TIER) as Et by (unfold row; destruct (_tier db c); [by case_bool_decide|done]).
  assert (_tier (put_tier row db) c = Some row) as Hrow by (rewrite <-Eid; apply put_tier_at).
  exists (put_tier row db), row. do 3 (split; [done|]). split; [|split; [|split; [done|]]].
  - unfold row. destruct (_tier db c); [by case_bool_decide|done].
  - intros c' Hc'. apply put_tier_other. congruence.
  - destruct (delivery_routed (put_tier row db) c Hc) as [_ Hd]. apply Hd. rewrite Hrow. simpl. by rewrite Et.
Qed.
