(* ===== verification/OperatorClaims.v ===== *)
(** * Factory controls: operator authority over every run

    Stopping is permanent, the control version only grows, the audit trail is
    append-only, a delivery asks for recovery at most
    [MAX_LANDING_RECOVERIES] times, and an operator request is applied once. *)

From Stdlib Require Import SpecFloat.
From stdpp Require Import prelude list strings relations.
From S2P Require Import Prelude PyValue GraphData GraphPlan GraphClaims WorkItems ModelPool PolicyData Policy PolicyFacts Controls Lanes LaneClaims Capacity CapacityClaims Starts StartFacts StartClaims Finish Operator Feedback FundingGrants Intake LifeFacts IntakeFacts LifeClaims.
Local Open Scope Z_scope.

(** ** Stopping *)

Definition ticket_keys (db : FDB) : list (Z * string * string) :=
  (λ s, (ft_id s, ft_task_id s, ft_start_key s)) <$> f_starts db.

(** Every receipt in execution was in execution before. *)
Definition settles (db db' : FDB) : Prop :=
  ∀ r', r' ∈ f_receipts db' → is_active r' = true → ∃ r, r ∈ f_receipts db ∧ rc_id r = rc_id r' ∧ is_active r = true.

(** The control row moves forward, and a stopped factory reserves nothing and
    opens no task. *)
Definition stops (db db' : FDB) : Prop :=
  control_le (f_control db) (f_control db') ∧
  (ct_state (f_control db) = "stopped"%string → ticket_keys db' = ticket_keys db ∧ settles db db').

#[export] Instance settles_preorder : PreOrder settles.
Proof.
  split; [intros db r; eauto|]. intros a b c Hab Hbc r Hr Ha. destruct (Hbc r Hr Ha) as (r1 & H1 & E1 & A1).
  destruct (Hab r1 H1 A1) as (r2 & H2 & E2 & A2). exists r2. split_and!; [done|congruence|done].
Qed.
Lemma settles_same db db' : f_receipts db' = f_receipts db → settles db db'.
Proof. intros E r. rewrite E. eauto. Qed.

#[export] Instance control_le_preorder : PreOrder control_le.
Proof. split; [by split|]. intros a b c [] []. split; [lia|auto]. Qed.
#[export] Instance stops_preorder : PreOrder stops.
Proof.
  split; [by split|]. intros a b c [Hc Hk] [Hc' Hk']. split; [by etrans|]. intros E.
  destruct (Hk E) as [K1 S1], (Hk' (cl_stopped _ _ Hc E)) as [K2 S2]. split; [congruence|by etrans].
Qed.

(** Rows that only move keep the factory's work or end it. *)
Lemma moves_settle f db : (∀ row, row ∈ f_receipts db → rewritten db row (f row)) → settles db (set_receipts (fmap f) db).
Proof.
  intros Hf r' (r & -> & Hr)%list_elem_of_fmap Ha. exists r. destruct (Hf r Hr) as [Hi _ Hm]. split_and!; [done| |].
  - by rewrite (identity_id _ _ Hi).
  - by eapply move_active.
Qed.

Lemma wrote_stops db db' : NoDup (rc_id <$> f_receipts db) → wrote db db' → stops db db'.
Proof.
  intros Hnd. unfold stops.
  destruct 1 as [actor action task detail _|task actor detail _|db' Ha|c Hc|row row' Hin Hrw|f Hf|row row' Hin Ho|row Hr|repo n i _ _].
  - unfold ticket_keys. rewrite audit_control, audit_starts. split; [done|]. split; [done|]. apply settles_same, audit_receipts.
  - unfold ticket_keys. rewrite audit_control, audit_starts. split; [done|]. split; [done|]. apply settles_same, audit_receipts.
  - destruct Ha as [-> Er Es _ _]. split; [done|]. unfold ticket_keys. rewrite Es. split; [done|]. by apply settles_same.
  - split; [done|]. split; [done|]. by apply settles_same.
  - split; [done|]. split; [done|]. apply (moves_settle (λ r, if rc_id r =? rc_id row' then row' else r)).
    intros x Hx. destruct (Z.eqb_spec (rc_id x) (rc_id row')) as [E|]; [|by apply edited_rewritten].
    rewrite (identity_id _ _ (rw_identity _ _ _ Hrw)) in E. by rewrite (key_unique rc_id row (f_receipts db) x Hnd Hin Hx E).
  - split; [done|]. split; [done|]. by apply moves_settle.
  - split; [done|]. intros E. rewrite (op_enabled _ _ _ Ho) in E. done.
  - split; [done|]. split; [done|]. intros r' Hr' Ha. simpl in Hr'. rewrite elem_of_app, list_elem_of_singleton in Hr'.
    destruct Hr' as [Hr'| ->]; [eauto|]. unfold is_active in Ha. by rewrite (re_state _ _ Hr) in Ha.
  - split; [done|]. split; [done|]. intros r' (r & -> & Hr)%list_elem_of_fmap Ha. exists r. split; [done|].
    revert Ha. unfold is_active, adopt. by destruct (adopts repo n (work_receipt r)).
Qed.

Lemma audited_control db db' : rtc audited db db' → f_control db' = f_control db.
Proof.
  induction 1 as [|x y z [a b c d _] _ IH]; [done|]. by rewrite IH, audit_control.
Qed.

(** What a step of the ledger leaves of the control row, the ticket keys and the
    receipts in execution. *)
Lemma ledger_stops `{Environ, IsoFormat, Hashing} db db' : life_wf db → ledger_step db db' → stops db db'.
Proof.
  intros Hwf. destruct 1 as [t key actor model cost r db' Hq|t k status actor cost basis session rec r db' Hq|now];
    [| |split; [done|]; split; [done|by apply settles_same]].
  - apply authorize_inv in Hq as (k & a & m & c & -> & -> & -> & _ & Hauth).
    destruct Hauth as [why db' [->|[]]| |row policy oversight evidence recovery detail Hg s]; [done|..|].
    + unfold stops, ticket_keys. rewrite audit_control, audit_starts. split; [done|]. split; [done|].
      apply settles_same, audit_receipts.
    + done.
    + unfold stops. rewrite audit_control. split; [done|]. intros E. exfalso.
      destruct Hg as [Hf Hrow _ _ _ _ _ _]. destruct (can_start_ok _ _ _ _ Hf Hrow) as [[Hc _ _ _ _ _] _].
      rewrite E in Hc. revert Hc. by apply (bool_decide_unpack _).
  - apply record_inv in Hq as (c & n & rc & _ & _ & _ & _ & _ & Hset).
    assert (∀ s s', s ∈ f_starts db → ft_id s' = ft_id s → ft_task_id s' = ft_task_id s →
              ft_start_key s' = ft_start_key s → ticket_keys (put_start s' db) = ticket_keys db) as Hput.
    { intros s s' Hs E1 E2 E3. unfold ticket_keys. simpl. apply (replace_fmap ft_id s s'); [done|apply Hwf|done|].
      by rewrite E1, E2, E3. }
    destruct Hset as [why|s s' db' Hf Es Ec En Hcase|s row db' Hf Hs _ _ s' db1 Hrow row' Haud].
    + done.
    + destruct (find_start_elem _ _ _ _ Hf) as (Hin & _ & _).
      destruct Hcase as [(-> & -> & _)|(b & -> & Hbn & -> & ->)]; [done|]. split; [done|]. intros _.
      split; [by apply (Hput s)|by apply settles_same].
    + destruct (find_start_elem _ _ _ _ Hf) as (Hin & Hst & _).
      destruct (audited_same _ _ Haud) as [Est Erc]. pose proof (audited_control _ _ Haud) as Ect. split; [by rewrite Ect|].
      intros _. unfold ticket_keys. rewrite Est. split; [by apply (Hput s s')|].
      apply find_first_Some in Hrow as [Hrow Hrt%bool_decide_eq_true].
      intros r' Hr' Ha. rewrite Erc in Hr'.
      apply (elem_replaced rc_id row row' eq_refl) in Hr' as [->|[Hr' _]]; [|eauto|done].
      exists row. split_and!; [done|done|]. apply (lf_quiet _ Hwf row t); [done..|]. exists s. split_and!; [done..|].
      by apply (open_ticket db); [apply Hwf|..].
Qed.

(** C15: Stopping the factory is permanent: whatever runs afterwards, the factory
    stays stopped, no start is ever reserved again and no task is admitted or
    reopened, while the control version never moves backwards. *)
Theorem stop_is_permanent `{Environ, IsoFormat, Hashing, Rendering, Rivals, IntakeHooks, !FreshIds} db db' :
  life_wf db → rtc life_step db db' →
  ct_version (f_control db) ≤ ct_version (f_control db') ∧
  (ct_state (f_control db) = "stopped"%string →
   ct_state (f_control db') = "stopped"%string ∧ ticket_keys db' = ticket_keys db ∧ settles db db').
Proof.
  intros Hwf Hsteps. destruct (run_preserves stops db db') as [[[Hv Hs] Hk] _]; [| | |done|done|].
  - intros a b Ha. apply wrote_stops, Ha.
  - intros a b Ha. by apply ledger_stops.
  - intros a b []. unfold stops, ticket_keys. rewrite audit_control, audit_starts. split; [done|]. split; [done|].
    apply settles_same, audit_receipts.
  - split; [done|]. intros E. split; [auto|]. by apply Hk.
Qed.

(** ** The audit trail *)

Definition appends (db db' : FDB) : Prop := ∃ l, f_audits db' = f_audits db ++ l.
#[export] Instance appends_preorder : PreOrder appends.
Proof.
  split; [intros db; exists []; by rewrite app_nil_r|].
  intros a b c [l Hl] [l' Hl']. exists (l ++ l'). by rewrite Hl', Hl, app_assoc.
Qed.

Lemma audit_appends actor action task detail db : ∃ a,
  f_audits (_audit actor action task detail db) = f_audits db ++ [a] ∧ au_actor a = actor ∧ au_action a = action ∧
  (au_task_id a = None ∨ au_task_id a = task) ∧
  ∀ k, k ≠ "requested_task_id"%string → assoc_get k (au_detail_json a) = assoc_get k detail.
Proof.
  unfold _audit. destruct task as [t|]; [destruct (is_some (find_task db t))|]; eexists;
    (split; [reflexivity|]); simpl; (split_and!; [done|done|by auto|]); intros k Hk; [done| |done].
  by apply assoc_get_set_ne.
Qed.

Lemma wrote_appends db db' : wrote db db' → appends db db'.
Proof.
  destruct 1 as [actor action task detail _|task actor detail _|db' [_ _ _ Ea _]|c|row row' _ _|f _|row row' _ _|row _|repo n i _ _];
    [| |exists []; by rewrite app_nil_r..].
  - destruct (audit_appends actor action task detail db) as (a & E & _). by exists [a].
  - destruct (audit_appends actor RECOVERY_REQUEST (Some task) detail db) as (a & E & _). by exists [a].
Qed.

Lemma audited_appends db db' :
  rtc audited db db' → ∃ l, f_audits db' = f_audits db ++ l ∧ Forall (λ a, au_action a ∈ LEDGER_AUDITS) l.
Proof.
  induction 1 as [x|x y z [a b c d Hb] _ (l & IH & Hl)]; [exists []; by rewrite app_nil_r|].
  destruct (audit_appends a b c d x) as (au & E & _ & Eb & _). exists (au :: l). split; [by rewrite IH, E, <-app_assoc|].
  constructor; [by rewrite Eb|done].
Qed.

Lemma ledger_appends `{Environ, IsoFormat, Hashing} db db' :
  ledger_step db db' → ∃ l, f_audits db' = f_audits db ++ l ∧ Forall (λ a, au_action a ∈ LEDGER_AUDITS) l.
Proof.
  assert (∃ l, f_audits db = f_audits db ++ l ∧ Forall (λ a, au_action a ∈ LEDGER_AUDITS) l) as Hnil
    by (exists []; by rewrite app_nil_r).
  destruct 1 as [t key actor model cost r db' Hq|t k status actor cost basis session rec r db' Hq|now]; [| |done].
  - apply authorize_inv in Hq as (k & a & m & c & -> & -> & -> & _ & Hauth).
    destruct Hauth as [why db' [->|Ha]| |row policy oversight evidence recovery detail Hg s]; [done| |done|].
    + by apply audited_appends, rtc_once.
    + apply (audited_appends (set_starts (λ l, l ++ [s]) db)), rtc_once. by apply audited_intro.
  - apply record_inv in Hq as (c & n & rc & _ & _ & _ & _ & _ & Hset).
    destruct Hset as [why|s s' db' Hf Es Ec En Hcase|s row db' Hf Hs _ _ s' db1 Hrow row' Haud]; [done| |].
    + by destruct Hcase as [(-> & -> & _)|(b & -> & Hbn & -> & ->)].
    + by apply audited_appends in Haud.
Qed.

Lemma run_appends `{Environ, IsoFormat, Hashing, Rendering, Rivals, IntakeHooks, !FreshIds} db db' :
  life_wf db → rtc life_step db db' → appends db db'.
Proof.
  intros Hwf Hsteps. destruct (run_preserves appends db db') as [Ha _]; [| | |done|done|done].
  - intros a b _. apply wrote_appends.
  - intros a b _ (l & E & _)%ledger_appends. by exists l.
  - intros a b []. destruct (audit_appends actor CONTROL_REQUEST task detail a) as (x & E & _). by exists [x].
Qed.

(** ** Landing recoveries *)

Definition recovers (db db' : FDB) : Prop :=
  ∀ t, (length (recovery_requests db' t) ≤ Nat.max MAX_LANDING_RECOVERIES (length (recovery_requests db t)))%nat.
#[export] Instance recovers_preorder : PreOrder recovers.
Proof. split; [intros db t; lia|]. intros a b c Hab Hbc t. specialize (Hab t). specialize (Hbc t). lia. Qed.

Lemma requests_app db db' l t :
  f_audits db' = f_audits db ++ l → Forall (λ a, au_action a ≠ RECOVERY_REQUEST) l →
  recovery_requests db' t = recovery_requests db t.
Proof.
  intros E Hl. unfold recovery_requests, audits_of. rewrite E, filter_app.
  assert (filter (λ a, au_task_id a = Some t ∧ au_action a ∈ ["landing_recovery_requested"%string]) l = []) as ->.
  { clear E. induction Hl as [|a l Ha _ IH]; [done|]. rewrite filter_cons_False; [exact IH|].
    by intros [_ Hin%list_elem_of_singleton]. }
  by rewrite app_nil_r.
Qed.

Lemma ordinary_ne action : ordinary action → action ≠ RECOVERY_REQUEST ∧ action ≠ CONTROL_REQUEST.
Proof.
  unfold ordinary, str_in. rewrite negb_true_iff. intros Hn%bool_decide_eq_false. set_solver.
Qed.

Lemma wrote_recovers db db' : wrote db db' → recovers db db'.
Proof.
  destruct 1 as [actor action task detail Ho|task actor detail Hlim|db' [_ _ _ Ea _]|c|row row' _ _|f _|row row' _ _|row _|repo n i _ _];
    intros t; [| |unfold recovery_requests, audits_of; rewrite ?Ea; simpl; lia..].
  - destruct (audit_appends actor action task detail db) as (a & E & _ & Ea & _).
    rewrite (requests_app db _ [a] t E); [lia|]. constructor; [|done]. rewrite Ea. by apply ordinary_ne.
  - destruct (audit_appends actor RECOVERY_REQUEST (Some task) detail db) as (a & E & _ & _ & Ht & _).
    unfold recovery_requests, audits_of in *. rewrite E, filter_app, length_app.
    rewrite filter_cons. case_decide as Hd; simpl; [|lia]. destruct Hd as [Hd _].
    assert (t = task) as -> by (destruct Ht; congruence). lia.
Qed.

(** However a task is delivered, ejected and corrected, it asks for landing
    recovery at most [MAX_LANDING_RECOVERIES] times: no run of operations
    records more requests. *)
Theorem landing_recoveries_bounded `{Environ, IsoFormat, Hashing, Rendering, Rivals, IntakeHooks, !FreshIds} db db' t :
  life_wf db → rtc life_step db db' → (length (recovery_requests db t) ≤ MAX_LANDING_RECOVERIES)%nat →
  (length (recovery_requests db' t) ≤ MAX_LANDING_RECOVERIES)%nat.
Proof.
  intros Hwf Hsteps Hb. destruct (run_preserves recovers db db') as [Hr _]; [| | |done|done|specialize (Hr t); lia].
  - intros a b _. apply wrote_recovers.
  - intros a b _ (l & E & Hl)%ledger_appends x. rewrite (requests_app a b l x E); [lia|].
    apply (Forall_impl _ _ _ Hl). intros y Hy Ey. rewrite Ey in Hy. revert Hy. by apply (bool_decide_unpack _).
  - intros a b [] x. destruct (audit_appends actor CONTROL_REQUEST task detail a) as (y & E & _ & Ey & _).
    rewrite (requests_app a _ [y] x E); [lia|]. constructor; [|done]. by rewrite Ey.
Qed.

(** ** Operator requests *)

Lemma recorded_app key l l' r : recorded_request key l = Ok (Some r) → recorded_request key (l ++ l') = Ok (Some r).
Proof.
  induction l as [|a l IH]; [done|]. simpl. intros Hq.
  apply res_bind_ok in Hq as (v & Hv & Hq). rewrite Hv. cbn [mbind res_bind].
  apply res_bind_ok in Hq as (d & Hd & Hq). rewrite Hd. cbn [mbind res_bind].
  apply res_bind_ok in Hq as (k & Hk & Hq). rewrite Hk. cbn [mbind res_bind].
  destruct (py_eq k (PStr key)); [exact Hq|by apply IH].
Qed.

Lemma recorded_snoc key l a :
  recorded_request key l = Ok None → recorded_request key (l ++ [a]) = recorded_request key [a].
Proof.
  induction l as [|b l IH]; [done|]. simpl. intros Hq.
  apply res_bind_ok in Hq as (v & Hv & Hq). rewrite Hv. cbn [mbind res_bind].
  apply res_bind_ok in Hq as (d & Hd & Hq). rewrite Hd. cbn [mbind res_bind].
  apply res_bind_ok in Hq as (k & Hk & Hq). rewrite Hk. cbn [mbind res_bind].
  destruct (py_eq k (PStr key)); [|by apply IH]. by apply res_bind_ok in Hq as (? & _ & [=]).
Qed.

Lemma requests_extend db db' l actor :
  f_audits db' = f_audits db ++ l → control_requests db' actor = control_requests db actor ++
    filter (λ a, au_action a = "control_request"%string ∧ au_actor a = actor) l.
Proof. intros E. unfold control_requests. by rewrite E, filter_app. Qed.

Definition quietly (db db' : FDB) : Prop :=
  ∃ l, f_audits db' = f_audits db ++ l ∧ Forall (λ a, au_action a ≠ CONTROL_REQUEST) l.

Lemma wrote_quietly db db' : rtc wrote db db' → quietly db db'.
Proof.
  induction 1 as [db|db db1 db2 Hw _ (l2 & E2 & H2)]; [exists []; by rewrite app_nil_r|].
  assert (quietly db db1) as (l1 & E1 & H1).
  { destruct Hw as [actor action task detail Ho|task actor detail Hlim|db1 [_ _ _ Ea _]|c|row row' _ _|f _|row row' _ _|row _|repo n i _ _];
      [| |exists []; by rewrite app_nil_r..].
    - destruct (audit_appends actor action task detail db) as (a & E & _ & Ea & _). exists [a]. split; [done|].
      constructor; [|done]. rewrite Ea. by apply ordinary_ne.
    - destruct (audit_appends actor RECOVERY_REQUEST (Some task) detail db) as (a & E & _ & Ea & _).
      exists [a]. split; [done|]. constructor; [by rewrite Ea|done]. }
  exists (l1 ++ l2). split; [by rewrite E2, E1, app_assoc|]. by apply Forall_app.
Qed.

Lemma quiet_requests db db' actor : quietly db db' → control_requests db' actor = control_requests db actor.
Proof.
  intros (l & E & Hl). rewrite (requests_extend db db' l actor E).
  assert (filter (λ a, au_action a = "control_request"%string ∧ au_actor a = actor) l = []) as ->.
  { clear E. induction Hl as [|a l Ha _ IH]; [done|]. rewrite filter_cons_False; [exact IH|]. by intros [? _]. }
  by rewrite app_nil_r.
Qed.

(** A validated request equals itself, so its replay is recognised. *)
Lemma check_request_refl action actor key version t id reason request :
  check_request action actor key version t id reason = Ok request →
  py_eq (PDict request) (PDict request) = true ∧ dict_get "request_key" request = key.
Proof.
  unfold check_request. intros Hq.
  apply res_bind_ok in Hq as ([] & _ & Hq). apply res_bind_ok in Hq as (a & _ & Hq).
  apply res_bind_ok in Hq as (k & [-> _]%text_ok_iff & Hq). apply res_bind_ok in Hq as (v & _ & Hq).
  apply res_bind_ok in Hq as ([] & Ht & Hq). apply res_bind_ok in Hq as (rc & Hrc & Hq).
  apply res_bind_ok in Hq as ([] & _ & Hq). apply res_bind_ok in Hq as (re & Hre & Hq).
  apply res_bind_ok in Hq as ([] & _ & Hq). simplify_eq. split; [|done].
  assert (json_ok t = true ∧ py_wf t = true) as [Hj Hw].
  { destruct t; try done; apply res_bind_ok in Ht as (? & [? _]%text_ok_iff & _); simplify_eq; done. }
  assert (rc = [] ∨ ∃ n, rc = [("receipt_id"%string, PInt n)]) as Hrc'.
  { destruct id; try (apply res_bind_ok in Hrc as (n & _ & Hrc)); simplify_eq; eauto. }
  assert (re = [] ∨ ∃ x, re = [("cancellation_reason"%string, PStr x)]) as Hre'.
  { destruct (is_act action "cancel_task"); apply res_bind_ok in Hre as (x & _ & Hre); simplify_eq; eauto. }
  apply py_eq_refl; destruct Hrc' as [->|[n ->]], Hre' as [->|[x ->]]; simpl;
    rewrite ?Hj, ?Hw; simpl; try done; by apply bool_decide_eq_true_2, (bool_decide_unpack _).
Qed.

Lemma item_assoc k d v : assoc_get k d = Some v → item k d = Ok v.
Proof. intros E. unfold item, policy_index. by rewrite E. Qed.

(** An operator request is applied once: sending the same request again, after
    any other operations, returns the first acknowledgement and changes nothing. *)
Theorem request_control_replays `{Environ, IsoFormat, Hashing, Rendering, Rivals, IntakeHooks, !FreshIds} action actor key version t id reason
    db result db1 db2 :
  life_wf db → request_control action actor key version t id reason db = Ok (result, db1) →
  rtc life_step db1 db2 →
  request_control action actor key version t id reason db2 = Ok (result, db2).
Proof.
  intros Hwf0 Hq Hsteps. pose proof (lf_ids _ Hwf0) as Hnd.
  assert (life_wf db1) as Hwf by (eapply (step_lawful db); [by eapply StepRequest|done]).
  destruct (run_appends db1 db2 Hwf Hsteps) as [l El].
  unfold request_control in *. apply res_bind_ok in Hq as (request & Hreq & Hq). rewrite Hreq. cbn [mbind res_bind].
  destruct (check_request_refl _ _ _ _ _ _ _ _ Hreq) as [Hrefl Hkey].
  apply res_bind_ok in Hq as (a & Ha & Hq). rewrite Ha. cbn [mbind res_bind].
  apply res_bind_ok in Hq as (k & Hk & Hq). rewrite Hk. cbn [mbind res_bind].
  apply res_bind_ok in Hq as (v & Hv & Hq). rewrite Hv. cbn [mbind res_bind].
  destruct key as [| | | |key'| | |]; try discriminate Hk. injection Hk as ->. apply res_bind_ok in Hq as ([[recorded old]|] & Hprev & Hq).
  - simplify_eq. by rewrite (requests_extend _ _ _ a El), (recorded_app _ _ _ _ Hprev).
  - apply res_bind_ok in Hq as ([answer db0] & Hp & Hq). cbn beta iota zeta in Hq. injection Hq as <- <-.
    match type of Hwf with context [("result"%string, ?r)] => set (result := r) in * end.
    match type of El with f_audits (_ ) = f_audits (_audit _ _ ?task ?detail _) ++ _ =>
      destruct (audit_appends a CONTROL_REQUEST task detail db0) as (x & Ex & Eact & Eaction & _ & Edet) end.
    assert (quietly db db0) as Hquiet.
    { apply wrote_quietly. destruct (negb _); [by simplify_eq|]. by eapply perform_wrote. }
    rewrite (requests_extend _ _ _ a El). fold CONTROL_REQUEST. rewrite (requests_extend db0 _ [x] a Ex), (quiet_requests db db0 a Hquiet).
    rewrite filter_cons_True by done. change (filter _ []) with (@nil FactoryAudit).
    erewrite recorded_app; [|rewrite (recorded_snoc _ _ _ Hprev)].
    2: { simpl. rewrite (item_assoc "request" _ (PDict request)) by (by rewrite Edet). cbn [mbind res_bind as_object].
         rewrite (item_assoc "request_key" _ (PStr k)).
         2: { unfold dict_get in Hkey. destruct (assoc_get "request_key" request) as [w|]; simpl in Hkey; congruence. }
         cbn [mbind res_bind]. assert (py_eq (PStr k) (PStr k) = true) as -> by (by apply bool_decide_eq_true_2).
         rewrite (item_assoc "result" _ result) by (by rewrite Edet). reflexivity. }
    cbn [mbind res_bind]. by rewrite Hrefl.
Qed.
