(* ===== verification/FinishClaims.v ===== *)
(** * Factory controls: what settling a task needs, and that it is final *)

From Stdlib Require Import SpecFloat.
From stdpp Require Import prelude list strings relations.
From S2P Require Import Prelude PyValue GraphData GraphPlan GraphClaims WorkItems ModelPool PolicyData Policy PolicyFacts Controls Lanes LaneClaims Capacity CapacityClaims Starts StartFacts StartClaims Finish Operator LifeFacts LifeClaims OperatorClaims.
Local Open Scope Z_scope.

(** ** What a settlement leaves of a receipt *)

Section kept.
Context `{Environ}.

(** Everything a second call reads of the row. *)
Record kept (row row' : FactoryReceipt) : Prop := mkKept
  { kp_edited : rc_id row' = rc_id row ∧ rc_task_id row' = rc_task_id row;
    kp_repo : rc_repo row' = rc_repo row;
    kp_paused : rc_task_paused row' = rc_task_paused row;
    kp_cancel : rc_cancellation_requested row' = rc_cancellation_requested row;
    kp_hold : landing_held row = false → landing_held row' = false }.

Lemma kept_trans a b c : kept a b → kept b c → kept a c.
Proof using. intros [[] ? ? ? ?] [[] ? ? ? ?]. split; [split; congruence|congruence..|auto]. Qed.

Lemma kept_direction d row : same_hold d (direction_of row) → kept row (with_direction d row).
Proof using. intros Hs. split; try done. by rewrite landing_held_same. Qed.

Lemma kept_state s now row : kept row (with_state s now row).
Proof using. done. Qed.

Lemma unheld_direction d row : has_key "landing_hold" d = false → landing_held (with_direction d row) = false.
Proof using. intros E. unfold landing_held. change (direction_of (with_direction d row)) with d. by rewrite E. Qed.

Lemma has_key_del k (d : dict) : has_key k (dict_del k d) = false.
Proof using.
  unfold has_key, dict_del. induction d as [|[k' v] d IH]; [done|]. rewrite filter_cons. simpl.
  case_decide; simpl; [|done]. by rewrite bool_decide_eq_false_2 by congruence.
Qed.

Lemma released_kept intent row now paused :
  paused = rc_task_paused row →
  kept row (with_direction (released_direction true intent (direction_of row)) (with_paused paused now row)).
Proof using.
  intros ->. split; try done. intros Hh. unfold released_direction.
  destruct (has_key "landing_hold" intent).
  - apply unheld_direction. case_match; unfold has_key in *.
    + rewrite assoc_get_set_ne by done. rewrite assoc_get_del_ne by done. apply has_key_del.
    + rewrite !assoc_get_del_ne by done. apply has_key_del.
  - assert (landing_held (with_paused (rc_task_paused row) now row) = false) as Hh' by done.
    case_match; rewrite landing_held_same; try done; [apply same_hold_set|apply same_hold_del].
Qed.

(** One receipt rewritten and release audits appended. *)
Definition RELEASE_AUDITS : list string :=
  ["execution_capacity_release_revoked"; "settled_landing_hold_released"; "execution_capacity_reacquired"].
Record at_row (row row' : FactoryReceipt) (db db' : FDB) : Prop := mkAtRow
  { ar_kept : kept row row';
    ar_receipts : f_receipts db' = (λ x, if rc_id x =? rc_id row then row' else x) <$> f_receipts db;
    ar_rest : (f_control db', f_starts db', f_runs db', f_tasks db', f_now db') =
              (f_control db, f_starts db, f_runs db, f_tasks db, f_now db);
    ar_audits : ∃ l, f_audits db' = f_audits db ++ l ∧ Forall (λ a, au_action a ∈ RELEASE_AUDITS) l }.

Lemma replace_same row (l : list FactoryReceipt) :
  NoDup (rc_id <$> l) → row ∈ l → (λ x, if rc_id x =? rc_id row then row else x) <$> l = l.
Proof using.
  intros Hnd Hr. rewrite <-(list_fmap_id l) at 2. apply list_fmap_ext. intros i x Hx%list_elem_of_lookup_2.
  destruct (Z.eqb_spec (rc_id x) (rc_id row)) as [E|]; [|done]. simpl. by rewrite (key_unique rc_id row l x).
Qed.

Lemma at_row_refl row db : NoDup (rc_id <$> f_receipts db) → row ∈ f_receipts db → at_row row row db db.
Proof using.
  intros Hnd Hr. split; [done|by rewrite replace_same|done|]. exists []. by rewrite app_nil_r.
Qed.

Lemma at_row_trans row r1 r2 a b c : at_row row r1 a b → at_row r1 r2 b c → at_row row r2 a c.
Proof using.
  intros [K1 R1 E1 (l1 & A1 & F1)] [K2 R2 E2 (l2 & A2 & F2)]. split.
  - by eapply kept_trans.
  - rewrite R2, R1, <-list_fmap_compose. apply list_fmap_ext. intros i x _. simpl.
    destruct K1 as [[Eid _] _ _ _ _]. rewrite Eid.
    destruct (Z.eqb_spec (rc_id x) (rc_id row)) as [E|E]; [by rewrite Eid, Z.eqb_refl|].
    by rewrite (proj2 (Z.eqb_neq _ _)).
  - congruence.
  - exists (l1 ++ l2). split; [by rewrite A2, A1, app_assoc|]. by apply Forall_app.
Qed.

Lemma put_at_row row row' db : kept row row' → at_row row row' db (put_receipt row' db).
Proof using.
  intros K. pose proof K as [[E _] _ _ _ _]. split; [done|simpl; by rewrite E|done|]. exists []. by rewrite app_nil_r.
Qed.

Lemma audit_frame_rest actor action task detail db :
  let db' := _audit actor action task detail db in
  (f_control db', f_starts db', f_runs db', f_tasks db', f_now db') =
  (f_control db, f_starts db, f_runs db, f_tasks db, f_now db).
Proof using. unfold _audit. by repeat case_match. Qed.

Lemma audit_at_row row row' actor action task detail db :
  kept row row' → str_in action RELEASE_AUDITS = true →
  at_row row row' db (_audit actor action task detail (put_receipt row' db)).
Proof using.
  intros K Ha%bool_decide_eq_true. destruct (put_at_row row row' db K) as [_ R E _]. split; [done|..].
  - by rewrite audit_receipts.
  - rewrite <-E. apply audit_frame_rest.
  - destruct (audit_appends actor action task detail (put_receipt row' db)) as (a & Ea & _ & Eact & _).
    exists [a]. split; [done|]. constructor; [by rewrite Eact|done].
Qed.

Lemma revoke_at_row row actor reason db :
  NoDup (rc_id <$> f_receipts db) → row ∈ f_receipts db →
  ∃ row', at_row row row' db (revoke_capacity_release row actor reason db) ∧ rc_state row' = rc_state row.
Proof using.
  intros Hnd Hr. unfold revoke_capacity_release.
  destruct (assoc_get _ _) as [[]|]; try (exists row; split; [by apply at_row_refl|done]);
    eexists; (split; [apply audit_at_row; [|done]|]); try done; apply kept_direction, same_hold_del.
Qed.

Lemma apply_at_row row db applied db' :
  NoDup (rc_id <$> f_receipts db) → row ∈ f_receipts db →
  _apply_capacity_release row true db = Ok (applied, db') → ∃ row', at_row row row' db db'.
Proof using.
  intros Hnd Hr. assert (∃ row', at_row row row' db db) as Hrefl by (exists row; by apply at_row_refl).
  unfold _apply_capacity_release. intros Ha. case_match eqn:Ht; [by simplify_eq|].
  destruct (dict_get PENDING_RELEASE (direction_of row)) as [| | | | | |intent|]; try done.
  apply res_bind_ok in Ha as (stale & _ & Ha). destruct stale as [reason|].
  { apply res_bind_ok in Ha as ([] & _ & Ha); simplify_eq.
    match goal with |- context [revoke_capacity_release row ?a ?r db] =>
      destruct (revoke_at_row row a r db Hnd Hr) as (row' & ? & _) end. by exists row'. }
  case_match; [by simplify_eq|].
  apply res_bind_ok in Ha as (available & Hav & Ha). destruct available; cbn [negb] in Ha; [|by simplify_eq].
  apply res_bind_ok in Ha as ([] & _ & Ha); simplify_eq. eexists. apply audit_at_row; [|done].
  apply released_kept. by rewrite andb_false_r.
Qed.
End kept.

Lemma find_replaced (p : FactoryReceipt → bool) row row' (l : list FactoryReceipt) :
  NoDup (rc_id <$> l) → find_first p l = Some row → p row' = true →
  find_first p ((λ x, if rc_id x =? rc_id row then row' else x) <$> l) = Some row'.
Proof.
  intros Hnd Hf Hp. induction l as [|x l IH]; [done|]. csimpl in *. apply NoDup_cons in Hnd as [Hx Hnd].
  destruct (p x) eqn:Ep; simplify_eq.
  - rewrite Z.eqb_refl. by rewrite Hp.
  - pose proof Hf as [Hin _]%find_first_Some. rewrite (proj2 (Z.eqb_neq _ _)); [rewrite Ep; by apply IH|].
    intros E. apply Hx. rewrite E. by apply list_elem_of_fmap_2.
Qed.

(** The state after an accepted terminal outcome. *)
Record settled_as `{Environ} (t outcome : string) (ev : option dict) (row row' : FactoryReceipt) (db db' : FDB)
    : Prop := mkSettledAs
  { sa_kept : kept row row';
    sa_state : rc_state row' = outcome;
    sa_receipts : f_receipts db' = (λ x, if rc_id x =? rc_id row then row' else x) <$> f_receipts db;
    sa_rest : (f_control db', f_starts db', f_runs db') = (f_control db, f_starts db, f_runs db);
    sa_audits : ∃ l fin, f_audits db' = f_audits db ++ l ++ [fin] ∧
      Forall (λ a, au_action a ∈ RELEASE_AUDITS) l ∧ au_task_id fin = Some t ∧ au_action fin = "finish_task"%string ∧
      assoc_get "evidence" (au_detail_json fin) = Some (ev_value ev) }.

Lemma edit_task_rest t f db db' :
  edit_task t f db = Ok db' → (∀ k, tk_id (f k) = tk_id k) →
  is_some (find_task db' t) = true ∧ (f_control db', f_starts db', f_runs db') = (f_control db, f_starts db, f_runs db).
Proof.
  unfold edit_task. destruct (find_task db t) as [k|] eqn:Hk; [|done]. intros [= <-] Hf. split; [|done].
  unfold find_task in *. simpl. apply find_first_Some in Hk as [Hin Hid].
  destruct (find_first _ (update_where _ _ _)) eqn:E; [done|]. rewrite find_first_None in E.
  specialize (E (f k)). rewrite Hf in E. rewrite E in Hid; [done|].
  unfold update_where. apply list_elem_of_fmap. exists k. by rewrite Hid.
Qed.

Lemma finish_write_settled `{Environ} row t outcome a ev db r db' :
  NoDup (rc_id <$> f_receipts db) → row ∈ f_receipts db → outcome ∈ _SETTLED →
  finish_write row t outcome "finish_task" a ev db = Ok (r, db') →
  ∃ row', settled_as t outcome ev row row' db db'.
Proof.
  intros Hnd Hr Ho. unfold finish_write. intros Hq.
  assert (str_in outcome _SETTLED = true) as Hset by (by apply bool_decide_eq_true).
  assert (str_in outcome _ACTIVE = false ∧ bool_decide (outcome = "landing"%string) = false) as [Hact Hland].
  { unfold _SETTLED, _TERMINAL, ESCALATED in Ho. simpl in Ho.
    repeat (apply elem_of_cons in Ho as [->|Ho]; [done|]). by apply elem_of_nil in Ho. }
  rewrite Hset, Hact, Hland in Hq. cbn [negb andb] in Hq.
  apply res_bind_ok in Hq as (db1 & Hrel & Hq).
  assert (∃ row1, at_row row row1 db db1) as (row1 & Hat1).
  { clear Hq. case_match; [|simplify_eq; exists row; by apply at_row_refl].
    apply res_bind_ok in Hrel as ([applied db0] & Ha & Hrel). cbn beta iota in Hrel. simplify_eq.
    by eapply apply_at_row. }
  pose proof Hat1 as [[[E1 T1] _ _ _ _] R1 _ _].
  assert (NoDup (rc_id <$> f_receipts db1)) as Hnd1 by (rewrite R1; by rewrite fmap_replaced_ids).
  assert (row1 ∈ f_receipts db1) as Hr1.
  { rewrite R1. apply list_elem_of_fmap. exists row. by rewrite Z.eqb_refl. }
  assert (refreshed row db1 = row1) as Eref.
  { rewrite (refreshed_id row row1 db1) by done. by apply refreshed_self. }
  rewrite Eref in Hq. set (row2 := with_state outcome (f_now db1) row1) in Hq.
  assert (at_row row1 row2 db1 (put_receipt row2 db1)) as Hat2 by (apply put_at_row, kept_state).
  destruct (revoke_at_row row2 a "task_settled" (put_receipt row2 db1)) as (row3 & Hat3 & Est3).
  { simpl. change (rc_id row2) with (rc_id row1). by rewrite fmap_replaced_ids. }
  { by apply (put_receipt_elem row1). }
  apply res_bind_ok in Hq as (db3 & [= <-] & Hq). apply res_bind_ok in Hq as (db4 & Hed & Hq). injection Hq as _ <-.
  destruct (at_row_trans _ _ _ _ _ _ (at_row_trans _ _ _ _ _ _ Hat1 Hat2) Hat3) as [K R E (l & A & F)].
  exists row3. destruct (edit_task_rest _ _ _ _ Hed) as [Hfind Erest]; [done|].
  destruct (edit_task_frame _ _ _ _ Hed) as (Er & _ & Eau).
  match goal with |- settled_as _ _ _ _ _ _ (_audit ?x ?y ?z ?d _) =>
    pose proof (audit_frame_rest x y z d db4) as Eaud end. cbv zeta in Eaud.
  split; [done|by rewrite Est3| |congruence|].
  - by rewrite audit_receipts, Er.
  - eexists l, _. unfold _audit. rewrite Hfind. simpl. split; [by rewrite Eau, A, app_assoc|]. done.
Qed.

(** ** Finality *)

Lemma find_first_quiet {A} (p : A → bool) l l' : Forall (λ x, p x = false) l' → find_first p (l ++ l') = find_first p l.
Proof.
  intros Hl'. induction l as [|x l IH]; simpl.
  - apply find_first_None. by apply Forall_forall.
  - by rewrite IH.
Qed.
Lemma find_last_quiet {A} (p : A → bool) l l' : Forall (λ x, p x = false) l' → find_last p (l ++ l') = find_last p l.
Proof.
  induction l' as [|x l' IH] using rev_ind; intros Hl'; [by rewrite app_nil_r|].
  apply Forall_app in Hl' as [Hl' Hx]. rewrite Forall_singleton in Hx. rewrite app_assoc. unfold find_last. rewrite reverse_snoc.
  simpl in *. rewrite Hx. by apply IH.
Qed.
Lemma find_last_snoc {A} (p : A → bool) l x : p x = true → find_last p (l ++ [x]) = Some x.
Proof. intros Hp. unfold find_last. rewrite reverse_snoc. simpl. by rewrite Hp. Qed.

(** The audits a settlement adds. *)
Definition settlement_audit (a : FactoryAudit) : Prop := au_action a ∈ "finish_task"%string :: RELEASE_AUDITS.

Lemma quiet_action action a :
  settlement_audit a → str_in action ("finish_task"%string :: RELEASE_AUDITS) = false → is_action action a = false.
Proof.
  intros Ha Hn%bool_decide_eq_false. unfold is_action. apply bool_decide_eq_false. intros <-. done.
Qed.

Section replay.
Context `{Environ, IsoFormat, Rendering} (t outcome : string) (ev : option dict) (row row' : FactoryReceipt) (db db' : FDB).
Hypothesis Hsettled : settled_as t outcome ev row row' db db'.

Lemma settled_appends : ∃ l, f_audits db' = f_audits db ++ l ∧ Forall settlement_audit l.
Proof using Hsettled.
  destruct Hsettled as [_ _ _ _ (l & fin & E & Hl & _ & Hfin & _)]. exists (l ++ [fin]). split; [done|].
  apply Forall_app. split; [|by rewrite Forall_singleton; unfold settlement_audit; rewrite Hfin; constructor].
  apply (Forall_impl _ _ _ Hl). intros a Ha. by constructor.
Qed.

Lemma settled_newest task action :
  str_in action ("finish_task"%string :: RELEASE_AUDITS) = false →
  newest db' task (is_action action) = newest db task (is_action action).
Proof using Hsettled.
  intros Hn. destruct settled_appends as (l & E & Hl). unfold newest. rewrite E. apply find_last_quiet.
  apply (Forall_impl _ _ _ Hl). intros a Ha. by rewrite (quiet_action action a Ha Hn), andb_false_r.
Qed.

Lemma settled_review_held : review_recovery_held db' t = review_recovery_held db t.
Proof using Hsettled. unfold review_recovery_held. by rewrite settled_newest. Qed.

Lemma settled_merge_verified : merge_verified db' row' t ev = merge_verified db row t ev.
Proof using Hsettled.
  destruct settled_appends as (l & E & Hl). unfold merge_verified. rewrite E, find_first_quiet.
  - by destruct Hsettled as [[_ -> _ _ _] _ _ _ _].
  - apply (Forall_impl _ _ _ Hl). intros a Ha. by rewrite (quiet_action "owned_pr_merged" a Ha), andb_false_r.
Qed.

Lemma settled_quiescence : _quiescence_refusal db' t = _quiescence_refusal db t.
Proof using Hsettled.
  destruct Hsettled as [_ _ _ E _]. injection E as Ec Es Er.
  unfold _quiescence_refusal, has_unresolved, _starts. by rewrite Es, Er.
Qed.

Lemma settled_merged_check : merged_check db row t ev = Ok None → merged_check db' row' t ev = Ok None.
Proof using Hsettled.
  unfold merged_check. destruct (ev_merged ev); [|done]. cbn [negb].
  pose proof Hsettled as [[_ _ _ Hcan Hhold] _ _ Er _]. injection Er as Ec _ _.
  unfold control_in. rewrite Ec, Hcan, settled_review_held, settled_quiescence.
  destruct (landing_held row) eqn:Hh; [done|]. by rewrite Hhold.
Qed.

Lemma settled_answers trigger :
  accepted db row t outcome ev trigger → py_eq (ev_value ev) (ev_value ev) = true → outcome ∈ _SETTLED →
  first_answer (finish_checks db' row' t outcome ev None) = Ok (Some FinishReplayed).
Proof using Hsettled.
  intros [_ Hro Htp Hmc Hmv _ _ _ _ _ _] Hrefl Hset. unfold finish_checks. simpl paused_check. cbn [first_answer mbind res_bind].
  pose proof Hsettled as [[_ _ Hpa _ _] Hst _ _ (l & fin & E & Hl & Hft & Hfa & Hev)].
  rewrite settled_review_held, Hro, Hpa, Htp. cbn [refuse_if mbind res_bind].
  rewrite settled_merged_check by done. cbn [mbind res_bind].
  rewrite settled_merge_verified, Hmv. cbn [refuse_if mbind res_bind].
  unfold settled_check. rewrite Hst. assert (str_in outcome _SETTLED = true) as -> by (by apply bool_decide_eq_true).
  cbn [negb]. rewrite (bool_decide_eq_true_2 (outcome = outcome)) by done. unfold newest. rewrite E, app_assoc, find_last_snoc.
  - unfold dict_get. rewrite Hev. simpl. by rewrite Hrefl.
  - unfold is_action. by rewrite Hft, Hfa, !bool_decide_eq_true_2.
Qed.
End replay.

(** Validated evidence with distinct keys equals itself. *)
Lemma evidence_refl evidence ev :
  check_evidence evidence = Ok ev → py_wf evidence = true → py_eq (ev_value ev) (ev_value ev) = true.
Proof.
  destruct evidence as [| | | | | |d|]; simpl; try done; [by intros [= <-]|]. intros Hq Hwf.
  apply res_bind_ok in Hq as ([] & _ & Hq). apply res_bind_ok in Hq as (us & Hit & Hq).
  apply res_bind_ok in Hq as ([] & _ & Hq). simplify_eq. apply py_eq_refl; [|done].
  assert (Forall (λ p : string * pyval, json_ok p.2 = true) d) as Hall.
  { clear -Hit. revert us Hit. induction d as [|p d IH]; intros us Hit; [done|]. simpl in Hit.
    apply res_bind_ok in Hit as (u & Hp & Hit). apply res_bind_ok in Hit as (us' & Hd & _). constructor; [|by eapply IH].
    unfold check_evidence_item in Hp. case_bool_decide; apply res_bind_ok in Hp as (? & Hp & _).
    - by apply integer_ok in Hp as [-> _].
    - by apply text_ok_iff in Hp as [-> _]. }
  simpl. rewrite forallb_forall. intros p Hp%list_elem_of_In. rewrite Forall_forall in Hall. by apply Hall.
Qed.

(** What a settlement reads of its task is as it was; everything else may have
    changed. *)
Record undisturbed (t : string) (db db' : FDB) : Prop := mkUndisturbed
  { un_receipt : _receipt db' t = _receipt db t;
    un_starts : _starts db' t = _starts db t;
    un_runs : filter (λ r, nr_task_id r = t) (f_runs db') = filter (λ r, nr_task_id r = t) (f_runs db);
    un_audits : filter (λ a, au_task_id a = Some t) (f_audits db') = filter (λ a, au_task_id a = Some t) (f_audits db);
    un_control : ct_state (f_control db') = ct_state (f_control db) }.

Lemma find_first_filter {A} (P : A → Prop) `{∀ x, Decision (P x)} (p : A → bool) l :
  find_first (λ x, bool_decide (P x) && p x) l = find_first p (filter P l).
Proof.
  induction l as [|x l IH]; [done|]. rewrite filter_cons. simpl.
  destruct (decide (P x)); [rewrite bool_decide_eq_true_2 by done|rewrite bool_decide_eq_false_2 by done]; simpl; by rewrite IH.
Qed.
Lemma filter_reverse {A} (P : A → Prop) `{∀ x, Decision (P x)} (l : list A) : filter P (reverse l) = reverse (filter P l).
Proof.
  induction l as [|x l IH]; [done|]. rewrite reverse_cons, filter_app, IH, !filter_cons, filter_nil.
  case_decide; [by rewrite reverse_cons|by rewrite app_nil_r].
Qed.
Lemma existsb_filter {A} (P : A → Prop) `{∀ x, Decision (P x)} (p : A → bool) l :
  existsb (λ x, bool_decide (P x) && p x) l = existsb p (filter P l).
Proof.
  induction l as [|x l IH]; [done|]. rewrite filter_cons. simpl.
  destruct (decide (P x)); [rewrite bool_decide_eq_true_2 by done|rewrite bool_decide_eq_false_2 by done]; simpl; by rewrite IH.
Qed.

Section undisturbed.
Context `{Environ, IsoFormat, Rendering} (t : string) (db db' : FDB) (Hu : undisturbed t db db').

Lemma newest_undisturbed p : newest db' (Some t) p = newest db (Some t) p.
Proof using Hu.
  unfold newest, find_last. rewrite !(find_first_filter (λ a, au_task_id a = Some t)), !filter_reverse.
  by rewrite (un_audits _ _ _ Hu).
Qed.

Lemma quiescence_undisturbed : _quiescence_refusal db' t = _quiescence_refusal db t.
Proof using Hu.
  unfold _quiescence_refusal, has_unresolved. rewrite (un_starts _ _ _ Hu). unfold live_run.
  by rewrite !(existsb_filter (λ r, nr_task_id r = t)), (un_runs _ _ _ Hu).
Qed.

Lemma answers_undisturbed row outcome ev r :
  rc_state row ∈ _SETTLED →
  first_answer (finish_checks db row t outcome ev None) = Ok (Some r) →
  first_answer (finish_checks db' row t outcome ev None) = Ok (Some r).
Proof using Hu.
  intros Hs. unfold finish_checks. cbn [first_answer].
  assert (settled_check db' row t outcome ev = settled_check db row t outcome ev) as E
    by (unfold settled_check; by rewrite newest_undisturbed).
  assert (review_recovery_held db' t = review_recovery_held db t) as Er
    by (unfold review_recovery_held; by rewrite newest_undisturbed).
  assert (merge_verified db' row t ev = merge_verified db row t ev) as Em.
  { unfold merge_verified. by rewrite !(find_first_filter (λ a, au_task_id a = Some t)), (un_audits _ _ _ Hu). }
  assert (merged_check db' row t ev = merged_check db row t ev) as Ec.
  { unfold merged_check, control_in. by rewrite (un_control _ _ _ Hu), Er, quiescence_undisturbed. }
  assert (∃ r', settled_check db row t outcome ev = Ok (Some r')) as [r' Er'].
  { unfold settled_check. assert (str_in (rc_state row) _SETTLED = true) as -> by (by apply bool_decide_eq_true). eauto. }
  rewrite E, Er', Er, Em, Ec. done.
Qed.
End undisturbed.

Lemma settled_inactive row : rc_state row ∈ _SETTLED → is_active row = false.
Proof.
  unfold is_active, _SETTLED, _TERMINAL, ESCALATED. simpl. intros Hs.
  repeat (apply elem_of_cons in Hs as [->|Hs]; [done|]). by apply elem_of_nil in Hs.
Qed.

(** No call changes anything while the receipt is settled. *)
Lemma finish_settled_frozen `{Environ, IsoFormat, Rendering} t outcome actor evidence trigger db row r db' :
  _receipt db t = Some row → rc_state row ∈ _SETTLED →
  finish_task t outcome actor evidence trigger db = Ok (r, db') → db' = db.
Proof.
  intros Hrow Hs (a & ev & _ & _ & _ & Hfin)%finish_inv.
  destruct Hfin as [|row2 db3 Hrow2 Hacc2 _ _|row2 db3 Hrow2 Hacc2 _ _]; [done|..]; exfalso;
    apply ac_open in Hacc2; rewrite Hrow in Hrow2; by injection Hrow2 as <-.
Qed.

Lemma finish_triggered `{Environ, IsoFormat, Rendering} t outcome a evidence ev trigger db row :
  _receipt db t = Some row → rc_state row ∈ _SETTLED → str_in trigger PAUSED_TRIGGERS = true →
  _text (PStr a) "actor" 256 = Ok a → str_in outcome (_SETTLED ++ ["uncertain"]) = true → check_evidence evidence = Ok ev →
  finish_task t outcome (PStr a) evidence (Some trigger) db =
    Ok (FinishRefused (if rc_task_paused row then "settlement_held" else "not_paused"), db).
Proof.
  intros Hrow Hs Htr Ha Ho Hev. unfold finish_task. rewrite Ha. cbn [mbind res_bind]. rewrite Ho, Htr. cbn [require mbind res_bind].
  rewrite Hev. cbn [mbind res_bind]. rewrite Hrow. unfold finish_checks. cbn [first_answer].
  unfold paused_check, paused_settlement_snapshot. rewrite Hrow, (settled_inactive row Hs).
  by destruct (rc_task_paused row).
Qed.


(** ** What success needs *)

(** A merge of this pull request at this head was observed for the task, and a
    review session is named. *)
Definition merge_observed `{Rendering} (db : FDB) (row : FactoryReceipt) (t : string) (ev : option dict) : Prop :=
  truthy (ev_get "review_session_id" ev) = true ∧
  ∃ a, a ∈ f_audits db ∧ au_task_id a = Some t ∧ au_action a = "owned_pr_merged"%string ∧
    truthy (dict_get "head_sha" (au_detail_json a)) = true ∧
    py_eq (dict_get "head_sha" (au_detail_json a)) (ev_get "head_sha" ev) = true ∧
    py_eq (ev_get "pr_url" ev) (pull_url (rc_repo row) (dict_get "pr_number" (au_detail_json a))) = true.

(** The rollout of the delivered head of this pull request was verified after
    the delivery was ready. *)
Definition rollout_observed `{Rendering} (db : FDB) (row : FactoryReceipt) (t : string) (ev : option dict) : Prop :=
  ∃ ready proof, ready ∈ f_audits db ∧ proof ∈ f_audits db ∧ au_task_id ready = Some t ∧ au_task_id proof = Some t ∧
    au_action ready = "delivery_ready"%string ∧ au_action proof = "rollout_verified"%string ∧
    au_actor proof = "factory:landing"%string ∧ au_id ready < au_id proof ∧
    py_eq (ev_value ev) (dict_get "evidence" (au_detail_json ready)) = true ∧
    dict_get "verified" (au_detail_json proof) = PBool true ∧
    py_eq (dict_get "approved_head_sha" (au_detail_json proof)) (ev_get "head_sha" ev) = true ∧
    py_eq (get_or "pr_url" (PStr "") (default [] ev))
      (pull_url (rc_repo row) (dict_get "pr_number" (au_detail_json proof))) = true.

(** The run's artifact has this value under the key. *)
Definition artifact_has (r : SwarmNodeRun) (key : string) (v : pyval) : Prop :=
  ∃ body w, outcome_body r = Some body ∧ obj_get key (artifact_of body) = Ok w ∧ py_eq w v = true.

(** A run of an implementer node that produced the head on the recovery's own
    pull request, after the recovery and before the review. *)
Record implemented (db : FDB) (t : string) (barrier : Barrier) (head : pyval) (review impl : SwarmNodeRun) (m : Z)
    : Prop := mkImplemented
  { im_run : impl ∈ f_runs db ∧ nr_task_id impl = t ∧ nr_status impl = "succeeded"%string;
    im_node : existsb (λ p, startswith p (nr_node_key impl)) IMPLEMENTER_PREFIXES = true;
    im_between : br_run_id_floor barrier < nr_id impl ∧ nr_id impl < nr_id review;
    im_session : nr_session_id impl = Some m;
    im_pull : artifact_has impl "pr_number" (br_pr_number barrier);
    im_head : artifact_has impl "head_sha" head ∧ py_eq (of_option (nr_head_sha impl)) head = true }.

(** The review session of the evidence approved the exact head on that pull
    request after the recovery, in a review node; some run implemented it before,
    and no such run shares the reviewer's session. *)
Definition reviewed_after (db : FDB) (t : string) (barrier : Barrier) (ev : option dict) : Prop :=
  ∃ review n, review ∈ f_runs db ∧ nr_task_id review = t ∧ nr_status review = "succeeded"%string ∧
    like_review (nr_node_key review) = true ∧ br_run_id_floor barrier < nr_id review ∧
    nr_session_id review = Some n ∧ py_eq (PInt n) (ev_get "review_session_id" ev) = true ∧
    artifact_has review "verdict" (PStr "approve") ∧
    artifact_has review "pr_number" (br_pr_number barrier) ∧
    artifact_has review "head_sha" (ev_get "head_sha" ev) ∧
    py_eq (of_option (nr_head_sha review)) (ev_get "head_sha" ev) = true ∧
    (∃ impl m, implemented db t barrier (ev_get "head_sha" ev) review impl m) ∧
    ∀ impl m, implemented db t barrier (ev_get "head_sha" ev) review impl m → m ≠ n.

Lemma merge_verified_observed `{Rendering} db row t ev : merge_verified db row t ev = true → merge_observed db row t ev.
Proof.
  unfold merge_verified. destruct (find_first _ _) as [a|] eqn:Hf; simpl.
  - apply find_first_Some in Hf as [Hin [Ht%bool_decide_eq_true Ha%bool_decide_eq_true]%andb_prop].
    intros Hq. repeat (apply andb_prop in Hq as [Hq ?]). split; [done|]. by exists a.
  - by rewrite andb_false_r.
Qed.

Lemma landing_observed `{Rendering} db row t outcome ev :
  landing_check db row t outcome ev = Ok None → rc_state row = "landing"%string → outcome = "succeeded"%string →
  rollout_observed db row t ev.
Proof.
  intros Hl Es ->. unfold landing_check in Hl. rewrite (bool_decide_eq_true_2 _ Es) in Hl.
  change (handed_off db row t "succeeded" ev) with false in Hl. cbn [andb negb] in Hl.
  destruct (newest _ _ _) as [ready|] eqn:Hn; [|done].
  apply find_last_Some in Hn as [Hin [Ht%bool_decide_eq_true Ha%bool_decide_eq_true]%andb_prop].
  change (succeeding "succeeded") with true in Hl. cbn [negb orb] in Hl.
  destruct (py_eq (ev_value ev) _) eqn:Heq; [|done]. cbn [negb] in Hl.
  destruct (existsb _ _) eqn:Hex; [|done]. apply existsb_exists in Hex as (proof & Hp%list_elem_of_In & Hproof).
  unfold rollout_proof in Hproof. rewrite !andb_true_iff, !bool_decide_eq_true, Z.ltb_lt in Hproof.
  destruct Hproof as ((((((? & Hact) & ?) & ?) & Hv) & ?) & ?).
  unfold is_action in Hact. apply bool_decide_eq_true in Hact. exists ready, proof. split_and!; try done.
  by destruct (dict_get "verified" _) as [|[]| | | | | |].
Qed.

Lemma implementer_found db t barrier head review impl m :
  impl ∈ f_runs db → nr_task_id impl = t → nr_status impl = "succeeded"%string →
  implementer_session barrier head review impl = Ok (Some m) → implemented db t barrier head review impl m.
Proof.
  intros ???. unfold implementer_session. destruct (negb _) eqn:Hn; [done|]. apply negb_false_iff in Hn.
  destruct (outcome_body impl) as [body|] eqn:Hb; [|done]. intros Hq.
  apply res_bind_ok in Hq as (pr & Hpr & Hq). apply res_bind_ok in Hq as (h & Hh & Hq).
  case_match eqn:E; [|done]. rewrite !andb_true_iff, !Z.ltb_lt in E. destruct E as ((((? & ?) & ?) & ?) & ?).
  injection Hq as ?. split; try done; [by exists body, pr|]. split; [by exists body, h|done].
Qed.

(** Every such run is counted, or the check raises. *)
Lemma implemented_counted db t barrier head review impl m found :
  implemented db t barrier head review impl m →
  implementer_sessions db t barrier head review = Ok found → m ∈ found.
Proof.
  intros [(Hin & Ht & Hs) Hn [Hf Hb] Hm (body & pr & Ebody & Hpr & Epr) [(body' & h & Ebody' & Hh & Eh) Ehead]] Hq.
  unfold implementer_sessions in Hq. apply res_bind_ok in Hq as (os & Hos & Hq). injection Hq as <-.
  apply list_elem_of_omap. exists (Some m). split; [|done]. apply res_map_Forall2 in Hos.
  assert (impl ∈ filter (λ r, nr_task_id r = t ∧ nr_status r = "succeeded"%string) (f_runs db)) as Hfil
    by (by apply list_elem_of_filter).
  apply list_elem_of_lookup in Hfil as [i Hi]. destruct (Forall2_lookup_l _ _ _ _ _ Hos Hi) as (o & Ho & E).
  assert (body' = body) as -> by congruence. unfold implementer_session in E. rewrite Hn, Ebody in E. cbn [negb] in E.
  rewrite Hpr in E. cbn [mbind res_bind] in E. rewrite Hh in E. cbn [mbind res_bind] in E.
  rewrite Epr, Eh, Ehead, (proj2 (Z.ltb_lt _ _) Hf), (proj2 (Z.ltb_lt _ _) Hb), Hm in E. simpl in E.
  injection E as <-. by eapply list_elem_of_lookup_2.
Qed.

Lemma reviewed_independently db t barrier ev :
  independently_reviewed db t barrier ev = Ok true → reviewed_after db t barrier ev.
Proof.
  unfold independently_reviewed. destruct (recovery_review _ _ _ _) as [review|] eqn:Hrev; [|done]. intros Hq.
  unfold recovery_review in Hrev. destruct (truthy _); [|done]. apply find_first_Some in Hrev as [Hin Hp].
  rewrite !andb_true_iff, !bool_decide_eq_true, Z.ltb_lt in Hp. destruct Hp as ((((Ht & Hfl) & Hlike) & Hst) & Hse).
  apply res_bind_ok in Hq as ([] & Hap & Hq); [|done]. cbn [negb] in Hq.
  apply res_bind_ok in Hq as (sessions & Hss & Hq). injection Hq as Hq.
  destruct (nr_session_id review) as [n|] eqn:Hn; [|done].
  assert (∃ m, m ∈ sessions) as [m Hm] by (destruct sessions as [|m ?]; [done|exists m; constructor]).
  assert (n ∉ sessions) as Hnot
    by (destruct sessions; [done|]; apply negb_true_iff, bool_decide_eq_false in Hq; done).
  unfold approval_matches in Hap. apply res_bind_ok in Hap as (verdict & Hverdict & Hap).
  apply res_bind_ok in Hap as (pr & Hpr & Hap). apply res_bind_ok in Hap as (h & Hh & Hap). injection Hap as Hap.
  rewrite !andb_true_iff in Hap. destruct Hap as (((Hv & ?) & ?) & ?).
  assert (∃ body, outcome_body review = Some body) as [body Hbody].
  { destruct (outcome_body review) eqn:E; [by eexists|]. simpl in Hverdict. injection Hverdict as <-. done. }
  rewrite Hbody in *. cbn [default] in *. exists review, n. split_and!; try done; try by (do 2 eexists).
  - pose proof Hss as Hss'. unfold implementer_sessions in Hss. apply res_bind_ok in Hss as (found & Hfound & Hss). injection Hss as Hss.
    rewrite <-Hss in Hm. apply list_elem_of_omap in Hm as (o & Ho & ->).
    destruct (res_map_ok_inv _ _ _ _ Hfound Ho) as (impl & Hi & Himpl).
    apply list_elem_of_filter in Hi as [[Hti Hsi] Hi]. exists impl, m. by apply implementer_found.
  - intros impl m' Himp ->. by apply Hnot, (implemented_counted _ _ _ _ _ _ _ _ Himp).
Qed.

(** C12: A task moves to landing or succeeded only with proof: every start of it is
    settled and no review-only recovery holds it; a paused task only when the
    merge of its own pull request at that head was observed and a review session
    is named, with no run live and nothing held or cancelled; a landing delivery
    only when, after it was ready with this same evidence, the landing loop
    recorded the rollout of that head of that pull request as verified; and after
    a landing recovery that reopened execution only when its round is recorded,
    the named review session approved the exact head on the recovery's pull
    request in a review node, an implementer node produced that head since, and
    no run that did has the reviewer's session. *)
Theorem success_needs_proof `{Environ, IsoFormat, Rendering} t outcome actor evidence trigger db s db' :
  finish_task t outcome actor evidence trigger db = Ok (FinishState s, db') →
  s ∈ ["succeeded"; "landing"]%string → db' ≠ db →
  ∃ row ev, _receipt db t = Some row ∧ check_evidence evidence = Ok ev ∧ outcome = "succeeded"%string ∧
    ¬ unresolved_in db t ∧ review_recovery_held db t = false ∧
    (rc_task_paused row = true →
       merge_observed db row t ev ∧ existsb (live_run t) (f_runs db) = false ∧
       landing_held row = false ∧ rc_cancellation_requested row = false) ∧
    (rc_state row = "landing"%string → s = "succeeded"%string ∧ rollout_observed db row t ev) ∧
    (∀ barrier deadline, landing_recovery_barrier db t = Ok (Some barrier) →
       _landing_recovery_deadline db t = Ok (Some deadline) →
       br_round_recorded barrier = true ∧ reviewed_after db t barrier ev).
Proof.
  intros (a & ev & -> & Ho & Hev & Hfin)%finish_inv Hs Hne.
  assert (∃ row, _receipt db t = Some row ∧ accepted db row t outcome ev trigger ∧ outcome = "succeeded"%string ∧
            (rc_state row = "landing"%string → s = "succeeded"%string)) as (row & Hrow & Hacc & -> & Hland).
  { inversion Hfin as [|row db1 Hrow Hacc Hd|row db1 Hrow Hacc Hd]; subst; [done|..]; exists row; split_and!; try done.
    - unfold delivers, succeeding in Hd. repeat (apply andb_prop in Hd as [Hd ?]). by apply bool_decide_eq_true in Hd.
    - unfold delivers in Hd. intros E. rewrite E in Hd. by rewrite !andb_false_r in Hd.
    - apply elem_of_cons in Hs as [->|[->|[]%elem_of_nil]%elem_of_cons]; [done|].
      revert Ho. clear. intros Hl. exfalso. revert Hl. by apply (bool_decide_unpack _).
    - apply elem_of_cons in Hs as [->|[->|[]%elem_of_nil]%elem_of_cons]; [done|].
      exfalso. revert Ho. by apply (bool_decide_unpack _). }
  destruct Hacc as [_ Hro Htp Hmc Hmv _ _ _ Hlc Hrc Hres].
  exists row, ev. change (succeeding "succeeded") with true in *. cbn [andb] in *.
  split_and!; try done; [by apply Hres|..].
  - intros Hp. rewrite Hp in *. cbn [andb] in *. apply negb_false_iff in Htp, Hmv.
    split; [by apply merge_verified_observed|].
    assert (ev_merged ev = true) as Hm by (unfold ev_merged, MERGED_STATES; simpl; by rewrite Htp).
    unfold merged_check in Hmc. rewrite Hm in Hmc. cbn [negb] in Hmc.
    destruct (landing_held row); [done|]. destruct (rc_cancellation_requested row); [done|]. cbn [orb] in Hmc.
    case_match; [done|]. unfold refuse_for, _quiescence_refusal in Hmc. split_and!; [|done..].
    repeat case_match; done.
  - intros E. split; [by apply Hland|]. by eapply landing_observed.
  - intros barrier deadline Hb Hd. unfold recovery_check in Hrc. change (succeeding "succeeded") with true in Hrc.
    cbn [negb] in Hrc. rewrite Hb in Hrc. cbn [mbind res_bind] in Hrc. rewrite Hd in Hrc. cbn [mbind res_bind] in Hrc.
    apply res_bind_ok in Hrc as (reviewed & Hrev & Hrc). apply refuse_None, orb_false_elim in Hrc as [Hround Hrv].
    apply negb_false_iff in Hround, Hrv. subst reviewed. split; [done|]. by apply reviewed_independently.
Qed.
