(* ===== verification/IntakeWitness.v ===== *)
(** * Factory controls: a concrete run

    The demonstration factory delivers one task, recovers it, answers an
    operator and stops.  A second run receives, admits and funds an issue. *)

From Stdlib Require Import SpecFloat.
From stdpp Require Import prelude list strings relations pretty.
From S2P Require Import Prelude PyValue GraphData GraphPlan GraphAccounting GraphClaims WorkItems ModelPool PolicyData Policy PolicyFacts PolicyClaims Controls Lanes LaneClaims Capacity CapacityClaims Starts StartFacts StartClaims StartWitness Finish Operator Feedback FundingGrants Intake Readmission Decisions LifeFacts IntakeFacts LifeClaims OperatorClaims FinishClaims IntakeClaims FundingClaims FeedbackClaims.
Local Open Scope Z_scope.

Module LifeDemo.
Import StartDemo.

#[local] Instance env : Environ := StartDemo.env.
#[local] Instance iso : IsoFormat := StartDemo.iso.
#[local] Instance hashing : Hashing := StartDemo.hashing.
#[local] Instance rendering : Rendering :=
  { sha256_compact := λ _, "sha256"%string; str_nonscalar := λ _, "value"%string }.

#[local] Instance rivals : Rivals := λ _ _ _, None.

(** An id longer than every id in use. *)
Definition task_ids (db : FDB) : list string := omap rc_task_id (f_receipts db) ++ (ft_task_id <$> f_starts db).
#[local] Instance hooks : IntakeHooks :=
  { model_dump := λ r, [("id"%string, PInt (rc_id r))];
    mint_task_id := λ db, foldr String.append "t"%string (task_ids db) }.

Lemma append_longer s (l : list string) : s ∈ l → (String.length s < String.length (foldr String.append "t"%string l))%nat.
Proof.
  assert (∀ a b, String.length (String.append a b) = (String.length a + String.length b)%nat) as Hlen.
  { intros a b. induction a as [|c a IH]; [done|]. simpl. by rewrite IH. }
  induction l as [|x l IH]; [by intros ?%elem_of_nil|]. cbn [foldr]. rewrite Hlen. intros [->|Hs]%elem_of_cons.
  - assert (0 < String.length (foldr String.append "t"%string l))%nat; [|lia]. clear. induction l as [|y l IH]; [simpl; lia|].
    cbn [foldr]. destruct y; simpl; [exact IH|lia].
  - specialize (IH Hs). lia.
Qed.
#[local] Instance fresh : FreshIds.
Proof.
  intros db. split.
  - intros r Hr E. assert (mint_task_id db ∈ task_ids db) as Hin.
    { apply elem_of_app. left. apply list_elem_of_omap. eauto. }
    pose proof (append_longer _ _ Hin) as Hlt. simpl in Hlt. lia.
  - intros s Hs E. assert (mint_task_id db ∈ task_ids db) as Hin.
    { apply elem_of_app. right. rewrite <-E. by apply list_elem_of_fmap_2. }
    pose proof (append_longer _ _ Hin) as Hlt. simpl in Hlt. lia.
Qed.

Definition head : string := "0123456789abcdef0123456789abcdef01234567".
Definition delivery : pyval :=
  PDict [("state", PStr "ready_for_review"); ("pr_url", PStr "https://github.com/jomcgi-org/homelab/pull/7");
         ("head_sha", PStr head); ("review_session_id", PInt 42); ("reviewer_model", PStr "opus")]%string.

Definition delivered_db : FDB :=
  Eval vm_compute in after (finish_task "t1" "succeeded" (PStr "factory:conductor") delivery None demo).
Definition recovered_db : FDB :=
  Eval vm_compute in after (request_landing_recovery "t1" (PInt 7) (PStr head) "delivered_pr" (PStr "factory:landing")
    "merge_conflict" delivered_db).
Definition asked : FDB → res (pyval * FDB) :=
  request_control "pause_task" (PStr "operator") (PStr "request-1") (PInt 1) (PStr "t1") PNone PNone.
Definition paused_db : FDB := Eval vm_compute in after (asked recovered_db).
Definition stopped_db : FDB :=
  Eval vm_compute in after (control_or_delegate "stop" (PStr "operator") PNone None PNone PNone PNone true paused_db).
Definition failed_db : FDB :=
  Eval vm_compute in after (finish_task "t1" "failed" (PStr "factory:conductor") PNone None recovered_db).

Lemma demo_life : life_wf demo.
Proof.
  split.
  - split; by constructor.
  - by apply (bool_decide_unpack _).
  - intros r r' t [->|[->|[]%elem_of_nil]%elem_of_cons]%elem_of_cons [->|[->|[]%elem_of_nil]%elem_of_cons]%elem_of_cons;
      simpl; congruence.
  - intros r [->|[->|[]%elem_of_nil]%elem_of_cons]%elem_of_cons; by apply (bool_decide_unpack _).
  - by intros r [->|[->|[]%elem_of_nil]%elem_of_cons]%elem_of_cons.
  - intros r r' [->|[->|[]%elem_of_nil]%elem_of_cons]%elem_of_cons [->|[->|[]%elem_of_nil]%elem_of_cons]%elem_of_cons;
      unfold slot; simpl; congruence.
  - by intros r i [->|[->|[]%elem_of_nil]%elem_of_cons]%elem_of_cons.
  - by intros _ r r' [->|[->|[]%elem_of_nil]%elem_of_cons]%elem_of_cons [->|[->|[]%elem_of_nil]%elem_of_cons]%elem_of_cons.
  - by intros r t _ _ (s & []%elem_of_nil & _).
  - by intros r t _ _ (s & []%elem_of_nil & _).
Qed.

(** Delivered, then reopened for a merge conflict. *)
Lemma demo_recovers : rtc life_step demo recovered_db.
Proof.
  eapply rtc_l; [apply (StepFinish demo "t1" "succeeded" (PStr "factory:conductor") delivery None (FinishState "landing")
                          delivered_db); vm_compute; reflexivity|].
  apply rtc_once.
  apply (StepRecover delivered_db "t1" (PInt 7) (PStr head) "delivered_pr" (PStr "factory:landing") "merge_conflict"
           (RecoveryAccepted false "admitted") recovered_db). vm_compute. reflexivity.
Qed.

Lemma recoveries_witness : (length (recovery_requests recovered_db "t1") ≤ MAX_LANDING_RECOVERIES)%nat.
Proof.
  apply (landing_recoveries_bounded demo recovered_db "t1"); [exact demo_life|exact demo_recovers|vm_compute; lia].
Defined.

Lemma recovered_life : life_wf recovered_db.
Proof.
  eapply (step_lawful delivered_db);
    [eapply (StepRecover _ "t1" (PInt 7) (PStr head) "delivered_pr" (PStr "factory:landing") "merge_conflict");
     vm_compute; reflexivity|].
  eapply (step_lawful demo); [|exact demo_life].
  eapply (StepFinish _ "t1" "succeeded" (PStr "factory:conductor") delivery None). vm_compute. reflexivity.
Qed.

Definition acknowledgement : pyval :=
  Eval vm_compute in match asked recovered_db with Ok (r, _) => r | Raise _ => PNone end.

(** The pause is acknowledged again after the factory was stopped. *)
Lemma request_witness : asked stopped_db = Ok (acknowledgement, stopped_db).
Proof.
  apply (request_control_replays "pause_task" (PStr "operator") (PStr "request-1") (PInt 1) (PStr "t1") PNone PNone
           recovered_db acknowledgement paused_db stopped_db).
  - exact recovered_life.
  - vm_compute. reflexivity.
  - apply rtc_once. eapply (StepControl paused_db "stop" (PStr "operator") PNone None PNone PNone PNone true).
    vm_compute. reflexivity.
Defined.

(** A start asked for after the stop is refused. *)
Definition refused_db : FDB :=
  Eval vm_compute in after (authorize_start "t1" (PStr "factory-node:t1:implement_a:1") (PStr "conductor") (PStr "opus")
    (PInt 1) stopped_db).
Lemma stopped_life : life_wf stopped_db.
Proof.
  eapply (step_lawful paused_db); [eapply (StepControl _ "stop" (PStr "operator") PNone None PNone PNone PNone true);
                                   vm_compute; reflexivity|].
  eapply (step_lawful recovered_db); [|exact recovered_life].
  eapply (StepRequest _ "pause_task" (PStr "operator") (PStr "request-1") (PInt 1) (PStr "t1") PNone PNone).
  vm_compute. reflexivity.
Qed.
Lemma stop_witness :
  ct_version (f_control stopped_db) ≤ ct_version (f_control refused_db) ∧
  (ct_state (f_control stopped_db) = "stopped"%string →
   ct_state (f_control refused_db) = "stopped"%string ∧ ticket_keys refused_db = ticket_keys stopped_db ∧
   settles stopped_db refused_db).
Proof.
  apply (stop_is_permanent stopped_db refused_db); [exact stopped_life|]. apply rtc_once.
  eapply (StepAuthorize _ "t1" (PStr "factory-node:t1:implement_a:1") (PStr "conductor") (PStr "opus") (PInt 1)).
  vm_compute. reflexivity.
Defined.

(** Long after, with another task's ticket added. *)
Definition later_db : FDB :=
  Eval vm_compute in set_now 5000 (set_starts (λ l, l ++ [Controls.mkStart 9 "t2" "factory-node:t2:implement_a:1" "factory:conductor" "opus"
    fzero "reserved" None None None 4000 4000]) failed_db).
Lemma later_undisturbed : undisturbed "t1" failed_db later_db.
Proof. by split; vm_compute. Qed.


Lemma success_witness :
  ∃ row ev, _receipt demo "t1" = Some row ∧ check_evidence delivery = Ok ev ∧ "succeeded"%string = "succeeded"%string ∧
    ¬ unresolved_in demo "t1" ∧ review_recovery_held demo "t1" = false ∧
    (rc_task_paused row = true →
       merge_observed demo row "t1" ev ∧ existsb (live_run "t1") (f_runs demo) = false ∧
       landing_held row = false ∧ rc_cancellation_requested row = false) ∧
    (rc_state row = "landing"%string → "landing"%string = "succeeded"%string ∧ rollout_observed demo row "t1" ev) ∧
    (∀ barrier deadline, landing_recovery_barrier demo "t1" = Ok (Some barrier) →
       _landing_recovery_deadline demo "t1" = Ok (Some deadline) →
       br_round_recorded barrier = true ∧ reviewed_after demo "t1" barrier ev).
Proof.
  apply (success_needs_proof "t1" "succeeded" (PStr "factory:conductor") delivery None demo "landing" delivered_db).
  - vm_compute. reflexivity.
  - by apply (bool_decide_unpack _).
  - intros E. apply (f_equal (λ db, length (f_audits db))) in E. vm_compute in E. discriminate E.
Defined.
End LifeDemo.

(** * Factory intake: a concrete run

    The demonstration factory receives an issue twice, admits it, records its
    first review, and puts a refused task back in the queue with a raised budget. *)

Module IntakeDemo.
Import StartDemo LifeDemo.
#[local] Existing Instances LifeDemo.env LifeDemo.iso LifeDemo.hashing LifeDemo.rendering LifeDemo.rivals LifeDemo.hooks LifeDemo.fresh.

(** ** Receiving and admitting *)

#[local] Notation receive title body :=
  (receive_issue (PStr "jomcgi-org/homelab") (PInt 12) (PStr title) (PStr body)
     (PStr "https://github.com/jomcgi-org/homelab/issues/12") (PStr "operator") (PInt 3) (PStr "bug-fix") None None PNone).
Definition received_db : FDB := Eval vm_compute in after (receive "Title" "Body" demo).
Definition queued_row : FactoryReceipt :=
  Eval vm_compute in match receive "Title" "Body" demo with Ok (Received _ r, _) => r | _ => receipt 0 "" "" false end.

Lemma received_once : receive "Title" "Body" demo = Ok (Received true queued_row, received_db).
Proof. vm_compute. reflexivity. Qed.
Lemma received_life : life_wf received_db.
Proof. eapply (step_lawful demo); [eapply StepReceive; exact received_once|exact demo_life]. Qed.

Definition admitted_db : FDB := Eval vm_compute in after (admit_next (PStr "factory:reconciler") LANES received_db).
Lemma received_admitted :
  admit_next (PStr "factory:reconciler") LANES received_db = Ok (TaskAdmitted "t1t2t" 3 "delivery" policy, admitted_db).
Proof. vm_compute. reflexivity. Qed.

Definition admitted_row : FactoryReceipt :=
  Eval vm_compute in match receive "Other" "Later" admitted_db with Ok (Received _ r, _) => r | _ => queued_row end.

(** Received again after the admission, with another text. *)
Lemma receive_witness :
  admitted_db = admitted_db ∧ ∃ r', Received false admitted_row = Received false r' ∧ lives_on queued_row r'.
Proof.
  apply (receive_is_idempotent (PStr "jomcgi-org/homelab") (PInt 12) (PStr "Title") (PStr "Body")
           (PStr "https://github.com/jomcgi-org/homelab/issues/12") (PStr "operator") (PInt 3) (PStr "bug-fix") None None PNone
           true queued_row demo received_db admitted_db (PStr "Other") (PStr "Later")
           (PStr "https://github.com/jomcgi-org/homelab/issues/12") (PStr "tester") None None PNone).
  - exact demo_life.
  - exact received_once.
  - apply rtc_once. eapply StepAdmit. exact received_admitted.
  - vm_compute. reflexivity.
Defined.

Lemma admission_witness :
  ∃ r', r' ∈ f_receipts admitted_db ∧ rc_state r' = "admitted"%string ∧ rc_task_id r' = Some "t1t2t"%string ∧
        unused received_db "t1t2t".
Proof.
  destruct (admission_is_sound (PStr "factory:reconciler") LANES received_db "t1t2t" 3 "delivery" policy admitted_db
              received_life received_admitted) as (_ & Hu & _ & _ & r' & _ & Hr' & _ & _ & _ & Hst & Ht & _).
  by exists r'.
Defined.

(** The queue it was drawn from. *)
Lemma order_witness :
  ∃ (queue : list FactoryReceipt) row, row ∈ queue ∧ rc_id row = 3 ∧ ∀ x, x ∈ queue → x ∈ f_receipts received_db ∧ blocked received_db x = false.
Proof.
  destruct (admission_in_order (PStr "factory:reconciler") LANES received_db "t1t2t" 3 "delivery" policy admitted_db
              received_life received_admitted) as (n & db0 & p & enabled & room & queue & row & Hr & _ & _ & _ & Hqueue & Hrow & Hid & _).
  vm_compute in Hr. injection Hr as _ <-. exists queue, row. split; [done|]. split; [done|].
  by intros x (? & _ & ?)%Hqueue.
Defined.

Lemma slots_witness : receipts_wf admitted_db ∧ bounded (mkLanes 2 0) 4 received_db admitted_db.
Proof.
  apply (slots_within_capacity received_db admitted_db (mkLanes 2 0) 4).
  - split; [by apply (bool_decide_unpack _)|]. repeat constructor.
  - vm_compute. reflexivity.
  - vm_compute. reflexivity.
  - vm_compute. reflexivity.
  - apply rtc_once. eapply SlotAdmit. exact received_admitted.
Defined.

(** ** Feedback *)

Definition review (id : Z) (status verdict : string) : RunDict :=
  mkRunDict (PStr "review_a") (PStr status) (PInt id) (PInt 40) PNone
    (Some (JText "outcome" (Some (PDict [("artifact", PDict [("verdict", PStr verdict)])]%string)))) (Some 900) None.
Definition first_runs : list RunDict := [review 9 "failed" "approve"; review 5 "succeeded" "approve"].
Definition sample : FactoryReviewVerdict :=
  mkVerdict 1 "t1" 5 None "bug-fix" "delivery" "approve" "" None 900.
Definition sampled_db : FDB := Eval vm_compute in after (record_first_pass "t1" first_runs demo).
Lemma sampled : record_first_pass "t1" first_runs demo = Ok (Some sample, sampled_db).
Proof. vm_compute. reflexivity. Qed.

Lemma sample_witness : ∃ review receipt, review ∈ first_runs ∧ _receipt demo "t1" = Some receipt ∧
  vd_task_class sample = receipt_task_class receipt.
Proof.
  destruct (first_pass_sample "t1" first_runs demo sample sampled_db sampled eq_refl)
    as (r & receipt & Hr & _ & _ & _ & _ & _ & Hrec & Hc & _).
  by exists r, receipt.
Defined.

(** A later rejection leaves the first approval. *)
Lemma sample_final_witness :
  record_first_pass "t1" [review 2 "succeeded" "changes_requested"] sampled_db = Ok (Some sample, sampled_db) ∧
  ∀ o db2, record_first_pass "t1" [review 2 "succeeded" "changes_requested"] sampled_db = Ok (o, db2) → db2 = sampled_db.
Proof.
  split; [vm_compute; reflexivity|]. intros o db2 Hq.
  destruct (first_pass_final "t1" first_runs demo sample sampled_db) as (_ & _ & Hf); [by split; constructor|exact sampled|].
  by destruct (Hf sampled_db _ o db2 (reflexivity _) Hq) as [? _].
Defined.

Lemma decision_witness : fb_tier (feedback_for_class sampled_db "bug-fix") = DELIVERY_TIER.
Proof. by destruct (class_decision_exact sampled_db "bug-fix" eq_refl) as [? _]. Defined.

Lemma heals_witness : ∃ db' row, store_class_route "bug-fix" (route_for_class sampled_db "bug-fix") sampled_db = Ok db' ∧
  _tier db' "bug-fix" = Some row ∧ ti_routing_tier row = DELIVERY_TIER.
Proof.
  destruct (class_route_heals sampled_db "bug-fix" eq_refl) as (db' & row & ? & ? & ? & _). by exists db', row.
Defined.

(** ** A refused dispatch, answered *)

Definition refusal (used requested : Z) : dict :=
  [("limit", PStr "task_budget"); ("used", PInt used); ("requested", PInt requested); ("allowed", PInt 25);
   ("allowance", PInt 0)]%string.
Definition card : dict :=
  [("kind", PStr "delivery"); ("task_id", PStr "t1"); ("question", PStr "Raise the budget?");
   ("dispatch_refusal", PDict (refusal 20 12))]%string.
Definition raise_to (v : Z) : dict :=
  [("key", PStr "raise_envelope"); ("label", PStr "Raise it"); ("effect", PStr "agent-ready");
   ("detail", PDict [("target", PDict [("limit", PStr "task_budget"); ("value", PInt v)])])]%string.
Definition escalated_row : FactoryReceipt :=
  mkReceipt 1 "jomcgi-org/homelab" 12 3 "title" "body" "url" "operator" (Some "bug-fix"%string) "" None "escalated"
    (Some "t1"%string) (Some policy) None None None false false 0 (Some card) 0.
Definition escalated_db : FDB := put_receipt escalated_row demo.
Definition answered : res (ReadmitResult * FDB) :=
  _readmit escalated_row card (raise_to 32) "operator" (Some "go on"%string) None escalated_db.
Definition answered_db : FDB := Eval vm_compute in after answered.
Definition requeued_row : FactoryReceipt :=
  Eval vm_compute in match f_receipts answered_db with r :: _ => r | [] => escalated_row end.
Definition carried : dict :=
  Eval vm_compute in match dispatch_continuation_grant answered_db requeued_row policy with Ok (Some g) => g | _ => [] end.

(** ** An escalation resumed *)

(** Resuming the escalated task chooses its recommendation: the receipt goes back
    to the queue under no task, with the answer as its direction. *)
#[local] Instance effects : DecisionEffects := { _apply := λ _ _ _ db, Ok (inr [("labelled"%string, PBool true)], db) }.
#[local] Instance quiet : QuietEffects.
Proof. intros ? ? ? ? ? ? Hq. simpl in Hq. by simplify_eq. Qed.
Definition offered_row : FactoryReceipt :=
  with_retirement "escalated" (Some (dict_set "options" (PList [PDict (raise_to 32)]) card)) 0 escalated_row.
Definition offered_db : FDB := put_receipt offered_row demo.
Definition resumed_row : res (dict * FDB) :=
  set_control "resume_task" (PStr "operator") PNone (Some "t1"%string) PNone PNone PNone true offered_db.
Definition resumed_db : FDB := Eval vm_compute in after resumed_row.
Example resumed_requeued :
  (λ r, (rc_state r, rc_task_id r, dict_get "note" (direction_of r))) <$> find_first (λ r, rc_id r =? 1) (f_receipts resumed_db)
  = Some ("queued"%string, None, PNone).
Proof. vm_compute. reflexivity. Qed.

Lemma offered_life : life_wf_at false offered_db.
Proof.
  split.
  - split; by constructor.
  - by apply (bool_decide_unpack _).
  - intros r r' t [->|[->|[]%elem_of_nil]%elem_of_cons]%elem_of_cons [->|[->|[]%elem_of_nil]%elem_of_cons]%elem_of_cons;
      simpl; congruence.
  - intros r [->|[->|[]%elem_of_nil]%elem_of_cons]%elem_of_cons; by apply (bool_decide_unpack _).
  - by intros r [->|[->|[]%elem_of_nil]%elem_of_cons]%elem_of_cons.
  - intros r r' [->|[->|[]%elem_of_nil]%elem_of_cons]%elem_of_cons [->|[->|[]%elem_of_nil]%elem_of_cons]%elem_of_cons;
      unfold slot; simpl; congruence.
  - by intros r i [->|[->|[]%elem_of_nil]%elem_of_cons]%elem_of_cons.
  - done.
  - by intros r t _ _ (s & []%elem_of_nil & _).
  - by intros r t _ _ (s & []%elem_of_nil & _).
Qed.

(** A task resumed from its escalation, and another recovered after its delivery. *)
Lemma live_witness :
  (∃ r', r' ∈ f_receipts resumed_db ∧ lives_at false offered_row r') ∧
  (∃ r', r' ∈ f_receipts recovered_db ∧ lives_on (receipt 1 "bug-fix" "t1" false) r').
Proof.
  split.
  - destruct (receipts_live_lawfully offered_db resumed_db offered_row) as [Hs _]; [left|].
    destruct (Hs offered_life) as (_ & r' & ? & ? & _); [|by exists r'].
    apply rtc_once. eapply (SysControl _ "resume_task" (PStr "operator") PNone (Some "t1"%string) PNone PNone PNone true).
    vm_compute. reflexivity.
  - destruct (receipts_live_lawfully demo recovered_db (receipt 1 "bug-fix" "t1" false)) as [_ Hl]; [left|].
    destruct (Hl demo_life demo_recovers) as (_ & r' & ? & ? & _). by exists r'.
Defined.

Lemma authorized_witness :
  ∃ a source overlay budget,
    _dispatch_authority (escalation_of requeued_row) (continued_option (direction_of requeued_row)) = Ok (Some a) ∧
    sound_authority a ∧ recorded_grant answered_db requeued_row a source ∧
    item "policy_overlay" carried = Ok overlay ∧ py_eq overlay (PDict (overlay_of (da_target a))) = true ∧
    py_eq (dict_get "policy_overlay" (au_detail_json source)) overlay = true ∧
    item "task_budget_usd" policy = Ok budget ∧ within (da_target a) budget = Ok false.
Proof. apply (continuation_grant_authorized answered_db requeued_row policy carried). vm_compute. reflexivity. Defined.

Definition authority : Authority :=
  Eval vm_compute in match _dispatch_authority card (raise_to 32) with Ok (Some a) => a | _ => mkAuthority fzero fzero fzero fzero fzero end.
Lemma authorized : _dispatch_authority (escalation_of escalated_row) (raise_to 32) = Ok (Some authority).
Proof. vm_compute. reflexivity. Qed.
Definition total : dict :=
  Eval vm_compute in match objective_for_receipt answered_db requeued_row with Ok d => d | Raise _ => [] end.

Lemma continuation_witness :
  ∃ row', row' ∈ f_receipts answered_db ∧ rc_state row' = "queued"%string ∧
    ∃ g, dispatch_continuation_grant answered_db row' policy = Ok (Some g).
Proof.
  destruct (readmission_funds_continuation escalated_row (raise_to 32) "operator" (Some "go on"%string) None escalated_db answered_db)
    as (row' & Hr & Hid & Hst & Hfew & Hgrant).
  - left.
  - intros l [=].
  - split; [done|..|done].
    + intros r t [->|[->|[]%elem_of_nil]%elem_of_cons]%elem_of_cons; by intros [= <-].
    + by intros a t []%elem_of_nil.
  - vm_compute. reflexivity.
  - exists row'. split; [done|]. split; [done|].
    assert (row' = requeued_row) as ->.
    { apply elem_of_cons in Hr as [->|[->|[]%elem_of_nil]%elem_of_cons]; done. }
    rewrite authorized in Hgrant. destruct Hgrant as (g & _ & Hgrant).
    exists (dict_set "objective" (PDict total) g). rewrite (Hgrant answered_db policy (reflexivity _)).
    vm_compute. reflexivity.
Defined.

(** A repository whose own budget is below the policy's: the operator raised 25
    to 32, and the policy's 50 refuses it. *)
Example lower_envelope_refused :
  dispatch_continuation_grant answered_db requeued_row (dict_set "task_budget_usd" (PInt 50) policy) =
    Raise (ValueError "dispatch continuation target does not raise the task budget").
Proof. vm_compute. reflexivity. Qed.
End IntakeDemo.
