(* ===== verification/Allowance.v ===== *)
(** * Factory controls: sizing a task from its plan

    The allowance of [factory_controls.py]: the work turns and dollars a task may
    spend, derived from the graph it accepted, its refusal when it overspends the
    envelope, and the stored allowance that starts are checked against.  With the
    price of a reserved review and of a short turn. *)

From Stdlib Require Import SpecFloat.
From stdpp Require Import prelude list strings gmap.
From S2P Require Import Prelude PyValue GraphData GraphAccounting GraphPlan GraphRuns WorkItems ModelPool PolicyData Policy Pricing Controls Lanes Capacity Starts Finish.
Local Open Scope Z_scope.

Definition REVIEW_ROUND_ATTEMPTS : Z := 1.
Definition CLAUDE_PLANNER_RESERVATION_FACTOR : spec_float := dec 15 10.
Definition CLAUDE_REVIEW_RESERVATION_FLOOR_USD : spec_float := f_of_Z 10.

(** ** Reservations *)

Definition _is_claude_model (model : string) : bool :=
  str_in model ["opus"; "sonnet"; "fable"]%string || startswith "claude-" model.

(** [math.ceil(f) / 100]: the quotient of two ints is correctly rounded. *)
Definition whole_cents (f : spec_float) : res spec_float := n ← py_ceil f; Ok (ratio (n <? 0) n 100).

Definition SHORT_TURN_MODELS : list string :=
  ["astra"; "spark"; "pi-spark"; "qwen"; "gpt-6-astra"; "muse-spark-1.3-contributor"].
Definition turn_reservation_usd (model turn_class : string) (fallback : pyval) : res spec_float :=
  if str_in turn_class ["planner"; "refine"]%string && str_in model SHORT_TURN_MODELS then Ok (dec 50 100) else
  f ← to_float fallback;
  if bool_decide (turn_class = "planner"%string) && _is_claude_model model
  then whole_cents (fmul (fmul f CLAUDE_PLANNER_RESERVATION_FACTOR) (f_of_Z 100))
  else Ok f.

Definition review_reservation_usd `{PriceBook} (model : string) (changed_lines fallback : pyval) : res spec_float :=
  let lines := match changed_lines with PInt n => Z.min (Z.max n 0) 1000000 | _ => 0 end in
  priced ← price_usage (Some model)
    (Some [("input_tokens", PInt (50000 + 20 * lines)); ("output_tokens", PInt (10000 + 2 * lines))]%string);
  estimate ← (match priced with
              | None => to_float fallback
              | Some p => whole_cents (fmul (fmul (pu_cost_usd p) (f_of_Z 4)) (f_of_Z 100))
              end);
  Ok (fmax (if bool_decide (model = "opus"%string) || startswith "claude-opus-" model
            then CLAUDE_REVIEW_RESERVATION_FLOOR_USD else fzero) estimate).

(** ** What history spent *)

Record Tally := mkTally
  { tl_attempts : gmap string Z; tl_charged : gmap string spec_float; tl_succeeded : gset string;
    tl_work_turns_used : Z; tl_charged_total : spec_float; tl_denied : gmap string nat }.
Definition no_tally : Tally := mkTally ∅ ∅ ∅ 0 fzero ∅.

Definition run_key (r : RunView) : string := nr_node_key (rv_row r).
Definition is_conductor (key : string) : bool := startswith "conductor_" key.
Definition spent_on (t : Tally) (key : string) : Z := default 0 (tl_attempts t !! key).

(** A run that counts as an attempt. *)
Definition tally_attempt (r : RunView) (t : Tally) : Tally :=
  let key := run_key r in
  mkTally (<[key := spent_on t key + 1]> (tl_attempts t)) (tl_charged t)
    (if bool_decide (nr_status (rv_row r) = "succeeded"%string) then {[key]} ∪ tl_succeeded t else tl_succeeded t)
    (if is_conductor key then tl_work_turns_used t else tl_work_turns_used t + 1) (tl_charged_total t) (tl_denied t).

Definition tally_run (t : Tally) (r : RunView) : Tally :=
  let key := run_key r in
  let cost := rv_accounted_cost_usd r in
  let t := mkTally (tl_attempts t) (<[key := fadd (default fzero (tl_charged t !! key)) cost]> (tl_charged t))
             (tl_succeeded t) (tl_work_turns_used t) (fadd (tl_charged_total t) cost) (tl_denied t) in
  if rv_capacity_denied r then
    let seen := default 0%nat (tl_denied t !! key) in
    let t := mkTally (tl_attempts t) (tl_charged t) (tl_succeeded t) (tl_work_turns_used t) (tl_charged_total t)
               (<[key := S seen]> (tl_denied t)) in
    if (seen <? MAX_CAPACITY_DENIED_ATTEMPTS)%nat then t else tally_attempt r t
  else tally_attempt r t.
Definition tally (runs : list RunView) : Tally := foldl tally_run no_tally runs.

(** ** What the plan may still spend *)

(** [cost * n] of a stored number and an int. *)
Definition scaled (cost : pyval) (n : Z) : res pyval :=
  match cost with
  | PInt z => Ok (PInt (z * n))
  | PBool b => Ok (PInt ((if b then 1 else 0) * n))
  | PFloat f => g ← float_of_int n; Ok (PFloat (fmul f g))
  | _ => Raise TypeError
  end.
(** [f + v] of a float and a number. *)
Definition add_number (f : spec_float) (v : pyval) : res spec_float := g ← to_float v; Ok (fadd f g).

Definition slots (t : Tally) (node : NodeView) : res Z :=
  limit ← GraphRuns.as_int (attempt_limit node); Ok (Z.max 0 (limit - spent_on t (nv_node_key node))).

(** A node that can still cost something. *)
Definition unfinished (t : Tally) (node : NodeView) : bool := bool_decide (nv_node_key node ∉ tl_succeeded t).
Definition granted_node (node : NodeView) : bool :=
  match nv_evidence_continuation node with Some g => bool_decide (nv_node_key node = g_node_key g) | None => false end.

Definition node_usd (t : Tally) (node : NodeView) (usd : spec_float) : res spec_float :=
  let cost := nf_max_cost_usd (nv_fields node) in
  if granted_node node then n ← slots t node; v ← scaled cost n; add_number usd v
  else c ← to_float cost;
       Ok (fadd usd (fmax fzero (fsub c (default fzero (tl_charged t !! nv_node_key node))))).
Definition node_turns (t : Tally) (node : NodeView) : res Z :=
  if is_conductor (nv_node_key node) then Ok 0 else slots t node.

Fixpoint remaining (t : Tally) (nodes : list NodeView) (turns : Z) (usd : spec_float) : res (Z * spec_float) :=
  match nodes with
  | [] => Ok (turns, usd)
  | node :: nodes =>
      if unfinished t node then
        usd ← node_usd t node usd; n ← node_turns t node; remaining t nodes (turns + n) usd
      else remaining t nodes turns usd
  end.

(** ** The allowance *)

Record Allowance := mkAllowance
  { al_turns : Z; al_usd : spec_float; al_graph_revision : Z; al_review_rounds_reserved : Z; al_fan_ins_reserved : Z }.
Definition allowance_json (a : Allowance) : dict :=
  [("turns", PInt (al_turns a)); ("usd", PFloat (al_usd a)); ("graph_revision", PInt (al_graph_revision a));
   ("review_rounds_reserved", PInt (al_review_rounds_reserved a)); ("fan_ins_reserved", PInt (al_fan_ins_reserved a));
   ("derived", PBool true)]%string.

Definition is_review (node : NodeView) : bool := startswith "review_" (nv_node_key node).
Definition rounds_reserved (nodes : list NodeView) (review_rounds_remaining : Z) (reviewable : option bool) : Z :=
  if default (existsb is_review nodes) reviewable then Z.min 1 (Z.max 0 review_rounds_remaining) else 0.

(** The first reviewer of the policy. *)
Definition first_reviewer `{PoolRuntime} (policy : dict) : res string :=
  pool ← pool_for "reviewer" policy;
  match pool with
  | [] => Raise IndexError
  | PStr m :: _ => Ok m
  | _ => Raise AttributeError
  end.
Definition reserved_usd `{PoolRuntime, PriceBook} (policy : dict) (rounds fan_ins : Z) : res spec_float :=
  model ← first_reviewer policy;
  budget ← policy_index "turn_budget_usd" policy;
  review ← review_reservation_usd model (PInt 0) budget;
  b ← to_float budget; fans ← scaled budget fan_ins;
  add_number (fmul (f_of_Z rounds) (fadd b review)) fans.
Definition reserved_turns (policy : dict) (rounds fan_ins : Z) : res Z :=
  attempts ← policy_index "max_attempts" policy; attempts ← GraphRuns.as_int attempts;
  Ok (2 * rounds * REVIEW_ROUND_ATTEMPTS + fan_ins * attempts).

Definition allowance_from_graph `{PoolRuntime, PriceBook} (nodes : list NodeView) (runs : list RunView) (policy : dict)
    (review_rounds_remaining fan_ins_remaining graph_revision : Z) (reviewable : option bool) : res Allowance :=
  let t := tally runs in
  '(turns, usd) ← remaining t nodes 0 fzero;
  let rounds := rounds_reserved nodes review_rounds_remaining reviewable in
  let fan_ins := Z.max 0 fan_ins_remaining in
  reserved ← reserved_usd policy rounds fan_ins;
  extra ← reserved_turns policy rounds fan_ins;
  Ok (mkAllowance (tl_work_turns_used t + turns + extra)
        (round6 (fadd (fadd (tl_charged_total t) usd) reserved)) graph_revision rounds fan_ins).

Definition derive_allowance `{FundingLedger, PoolRuntime, PriceBook} (graph : DB) (task_id : string) (policy : dict)
    (review_rounds_remaining fan_ins_remaining : Z) : res Allowance :=
  nodes ← load_graph graph task_id None; runs ← node_runs graph task_id None;
  allowance_from_graph nodes runs policy review_rounds_remaining fan_ins_remaining (_current_version graph task_id) None.

(** ** The envelope *)

Record Excess := mkExcess { ex_needed : Z; ex_allowed : Z; ex_spare_turns : option Z }.
Definition envelope_excess (allowance : Allowance) (policy : dict) (accounted : option Allowance) : res (option Excess) :=
  allowed ← task_turn_ceiling policy; allowed ← GraphRuns.as_int allowed;
  Ok (if al_turns allowance <=? allowed then None
      else Some (mkExcess (al_turns allowance) allowed ((λ a, Z.max 0 (allowed - al_turns a)) <$> accounted))).

(** ** Storing it *)

Inductive AllowanceResult := AllowanceRefused (reason : string) | AllowanceDerived (allowance : Allowance).

Definition with_allowance (allowance : dict) (now : Z) (row : FactoryReceipt) : FactoryReceipt :=
  mkReceipt (rc_id row) (rc_repo row) (rc_issue_number row) (rc_generation row) (rc_title row)
    (rc_body row) (rc_url row) (rc_actor row) (rc_task_class row) (rc_recurrence_key row)
    (rc_routing_tier row) (rc_state row) (rc_task_id row) (rc_policy_json row) (Some allowance)
    (rc_direction_json row) (rc_work_item_id row) (rc_task_paused row) (rc_cancellation_requested row) now
    (rc_escalation_json row) (rc_created_at row).

(** The turn ceiling of a task: a permanent continuation grant in place of the
    envelope, and never more than an evidence continuation allows. *)
Definition turn_ceiling (db : FDB) (task_id : string) (policy : dict) : res Z :=
  base ← (match continuation_grant db task_id with
          | Some ((_ :: _) as grant) => item "work_turn_ceiling" grant
          | _ => task_turn_ceiling policy
          end);
  base ← GraphRuns.as_int base;
  evidence ← recovery_grant db task_id;
  match evidence with
  | Some ((_ :: _) as e) => limit ← item "work_turn_ceiling" e; limit ← GraphRuns.as_int limit; Ok (Z.min base limit)
  | _ => Ok base
  end.

(** [dumps(allowance)], read back: JSON has no infinite or undefined number. *)
Definition dumped (a : Allowance) : res dict :=
  if f_is_finite (al_usd a) then Ok (allowance_json a)
  else Raise (ValueError "Out of range float values are not JSON compliant").

Definition clamped (ceiling : Z) (a : Allowance) : Allowance :=
  mkAllowance (Z.min (al_turns a) ceiling) (al_usd a) (al_graph_revision a) (al_review_rounds_reserved a)
    (al_fan_ins_reserved a).

Definition record_allowance `{FundingLedger, PoolRuntime, PriceBook} (graph : DB) (task_id : string) (policy : dict)
    (actor : pyval) (review_rounds_remaining fan_ins_remaining : Z) (cause : option string) : tx FDB AllowanceResult := λ db,
  actor ← _text actor "actor" 256;
  match _receipt db task_id with
  | None => Ok (AllowanceRefused "unknown_task", db)
  | Some row =>
      derived ← derive_allowance graph task_id policy review_rounds_remaining fan_ins_remaining;
      ceiling ← turn_ceiling db task_id policy;
      let allowance := clamped ceiling derived in
      stored ← dumped allowance;
      Ok (AllowanceDerived allowance,
          _audit actor "allowance_derived" (Some task_id)
            [("cause", of_option cause); ("allowance", PDict stored)]%string
            (put_receipt (with_allowance stored (f_now db) row) db))
  end.

(** [task_allowance]: the stored allowance, or the envelope standing in. *)
Definition task_allowance `{Hashing} (db : FDB) (task_id : string) : res dict :=
  match _receipt db task_id with
  | Some row =>
      match rc_policy_json row with
      | Some _ => policy ← effective_policy db row; _stored_allowance row policy
      | None => Ok [("turns", PInt 0); ("usd", PFloat fzero); ("graph_revision", PNone); ("derived", PBool false)]%string
      end
  | None => Ok [("turns", PInt 0); ("usd", PFloat fzero); ("graph_revision", PNone); ("derived", PBool false)]%string
  end.
