(* ===== verification/AllowanceFacts.v ===== *)
(** * Factory controls: lemmas on the derived allowance *)

From Stdlib Require Import SpecFloat.
From stdpp Require Import prelude list strings gmap.
From S2P Require Import Prelude PyValue GraphData GraphAccounting GraphPlan GraphRuns GraphInvariant PolicyFacts WorkItems ModelPool PolicyData Policy Pricing Controls Lanes Capacity Starts StartFacts Finish LifeFacts Allowance.
Local Open Scope Z_scope.

(** ** Sums *)

Lemma zsum_app {A} (f : A → Z) l1 l2 : zsum f (l1 ++ l2) = zsum f l1 + zsum f l2.
Proof. induction l1; simpl; lia. Qed.
Lemma zsum_zero {A} (f : A → Z) l : (∀ x, x ∈ l → f x = 0) → zsum f l = 0.
Proof. induction l as [|x l IH]; intros H; [done|]. simpl. rewrite H, IH; set_solver. Qed.
Lemma zsum_filter {A} (f : A → Z) (p : A → bool) l :
  zsum f (filter (λ x, p x = true) l) = zsum (λ x, if p x then f x else 0) l.
Proof. induction l as [|x l IH]; [done|]. rewrite filter_cons. destruct (p x) eqn:E; simpl; rewrite ?E; lia. Qed.
Lemma zsum_nonneg {A} (f : A → Z) l : (∀ x, x ∈ l → 0 ≤ f x) → 0 ≤ zsum f l.
Proof.
  induction l as [|x l IH]; intros H; simpl; [done|].
  assert (0 ≤ f x) by (apply H; by left). assert (0 ≤ zsum f l) by (apply IH; intros; apply H; by right). lia.
Qed.

(** A sum over items with distinct keys is the sum over any set of keys that
    holds theirs, of the item found under each. *)
Lemma zsum_by_key {A} (key : A → string) (f : A → Z) (l : list A) (ks : list string) :
  NoDup (key <$> l) → NoDup ks → (∀ x, x ∈ l → key x ∈ ks) →
  zsum f l = zsum (λ k, match find_first (λ x, bool_decide (key x = k)) l with Some x => f x | None => 0 end) ks.
Proof.
  intros Hl Hks. induction l as [|x l IH]; intros Hin; simpl.
  { symmetry. by apply zsum_zero. }
  apply NoDup_cons in Hl as [Hx Hl].
  rewrite (zsum_at _ (λ k, match find_first (λ x, bool_decide (key x = k)) l with Some x => f x | None => 0 end) ks (key x)).
  - rewrite <-IH by set_solver. rewrite bool_decide_eq_true_2 by done.
    rewrite (proj2 (find_first_None _ l)); [lia|]. intros y Hy. apply bool_decide_eq_false_2. intros E.
    apply Hx. rewrite <-E. by apply list_elem_of_fmap_2.
  - done.
  - apply Hin. by left.
  - intros k Hk. by rewrite bool_decide_eq_false_2 by congruence.
Qed.

(** ** The tally *)

Definition runs_of (runs : list RunView) (k : string) : list RunView :=
  filter (λ r, nr_node_key (rv_row r) = k) runs.
Definition denials_of (runs : list RunView) (k : string) : nat := count_true rv_capacity_denied (runs_of runs k).

Lemma tally_snoc runs r : tally (runs ++ [r]) = tally_run (tally runs) r.
Proof. apply foldl_snoc. Qed.

Lemma denials_of_snoc runs r k :
  denials_of (runs ++ [r]) k =
    (denials_of runs k + if bool_decide (run_key r = k) && rv_capacity_denied r then 1 else 0)%nat.
Proof.
  unfold denials_of, runs_of, count_true, run_key. rewrite filter_app, filter_app, length_app. f_equal.
  rewrite (filter_cons _ r []), filter_nil. destruct (decide _) as [E|E].
  - rewrite bool_decide_eq_true_2, filter_cons by done. simpl. by destruct (rv_capacity_denied r).
  - by rewrite bool_decide_eq_false_2.
Qed.

(** Whether one more run of its node counts as an attempt. *)
Definition counts (runs : list RunView) (r : RunView) : bool :=
  negb (rv_capacity_denied r && (denials_of runs (run_key r) <? MAX_CAPACITY_DENIED_ATTEMPTS)%nat).

Lemma attempts_snoc runs r k :
  attempts_spent (runs ++ [r]) k =
    attempts_spent runs k + (if bool_decide (run_key r = k) && counts runs r then 1 else 0).
Proof.
  unfold attempts_spent. fold (runs_of (runs ++ [r]) k) (runs_of runs k) (denials_of (runs ++ [r]) k) (denials_of runs k).
  rewrite denials_of_snoc.
  assert (length (runs_of (runs ++ [r]) k) = length (runs_of runs k) + if bool_decide (run_key r = k) then 1 else 0)%nat as ->.
  { unfold runs_of. rewrite filter_app, length_app, (filter_cons _ r []), filter_nil. fold (run_key r).
    by destruct (decide (run_key r = k)); [rewrite bool_decide_eq_true_2|rewrite bool_decide_eq_false_2]. }
  unfold counts, MAX_CAPACITY_DENIED_ATTEMPTS. destruct (decide (run_key r = k)) as [->|E].
  - rewrite bool_decide_eq_true_2 by done. simpl.
    destruct (rv_capacity_denied r), (Nat.ltb_spec (denials_of runs k) 3); simpl; lia.
  - rewrite bool_decide_eq_false_2 by done. simpl. lia.
Qed.

Lemma denials_le runs k : (denials_of runs k ≤ length (runs_of runs k))%nat.
Proof. unfold denials_of, count_true. apply length_filter. Qed.
Lemma attempts_nonneg runs k : 0 ≤ attempts_spent runs k.
Proof. unfold attempts_spent. pose proof (denials_le runs k). unfold denials_of, runs_of in *. lia. Qed.

(** What the tally of [runs] holds. *)
Record tally_ok (runs : list RunView) (t : Tally) : Prop := mkTallyOk
  { to_spent : ∀ k, spent_on t k = attempts_spent runs k;
    to_denied : ∀ k, default 0%nat (tl_denied t !! k) = denials_of runs k;
    to_turns : ∀ ks, NoDup ks → (∀ r, r ∈ runs → run_key r ∈ ks) →
      tl_work_turns_used t = zsum (λ k, if is_conductor k then 0 else attempts_spent runs k) ks }.

Lemma tally_run_spec t r :
  let counted := negb (rv_capacity_denied r && (default 0%nat (tl_denied t !! run_key r) <? MAX_CAPACITY_DENIED_ATTEMPTS)%nat) in
  (∀ k, spent_on (tally_run t r) k = spent_on t k + if bool_decide (run_key r = k) && counted then 1 else 0) ∧
  (∀ k, default 0%nat (tl_denied (tally_run t r) !! k) =
    (default 0%nat (tl_denied t !! k) + if bool_decide (run_key r = k) && rv_capacity_denied r then 1 else 0)%nat) ∧
  tl_work_turns_used (tally_run t r) =
    tl_work_turns_used t + (if counted && negb (is_conductor (run_key r)) then 1 else 0) ∧
  tl_succeeded (tally_run t r) =
    (if counted && bool_decide (nr_status (rv_row r) = "succeeded"%string)
     then {[run_key r]} ∪ tl_succeeded t else tl_succeeded t).
Proof.
  assert (∀ (m : gmap string Z) k, default 0 (<[run_key r := default 0 (m !! run_key r) + 1]> m !! k) =
            default 0 (m !! k) + if bool_decide (run_key r = k) && true then 1 else 0) as Hz.
  { intros m k. destruct (decide (run_key r = k)) as [<-|E].
    - by rewrite lookup_insert_eq, bool_decide_eq_true_2.
    - rewrite lookup_insert_ne, bool_decide_eq_false_2 by done. simpl. lia. }
  assert (∀ (m : gmap string nat) k, default 0%nat (<[run_key r := S (default 0%nat (m !! run_key r))]> m !! k) =
            (default 0%nat (m !! k) + if bool_decide (run_key r = k) && true then 1 else 0)%nat) as Hn.
  { intros m k. destruct (decide (run_key r = k)) as [<-|E].
    - rewrite lookup_insert_eq, bool_decide_eq_true_2 by done. simpl. lia.
    - rewrite lookup_insert_ne, bool_decide_eq_false_2 by done. simpl. lia. }
  unfold tally_run, tally_attempt, spent_on. destruct (rv_capacity_denied r); simpl;
    [destruct (_ <? _)%nat; simpl|]; split_and!; intros; rewrite ?andb_false_r; simpl;
    try apply Hz; try apply Hn; try lia; try done; destruct (is_conductor _); simpl; lia.
Qed.

Lemma tally_correct runs : tally_ok runs (tally runs).
Proof.
  induction runs as [|r runs [IHs IHd IHt]] using rev_ind.
  - split; [done|done|]. intros ks _ _. symmetry. apply zsum_zero. intros k _. by destruct (is_conductor k).
  - rewrite tally_snoc. destruct (tally_run_spec (tally runs) r) as (Hs & Hd & Ht & _).
    rewrite IHd in Hs, Ht. fold (counts runs r) in Hs, Ht. split.
    + intros k. by rewrite Hs, IHs, attempts_snoc.
    + intros k. by rewrite Hd, IHd, denials_of_snoc.
    + intros ks Hnd Hks. rewrite Ht, (IHt ks) by set_solver.
      rewrite (zsum_at (λ k, if is_conductor k then 0 else attempts_spent (runs ++ [r]) k)
                 (λ k, if is_conductor k then 0 else attempts_spent runs k) ks (run_key r)); [|done|set_solver|].
      * rewrite attempts_snoc, bool_decide_eq_true_2 by done. simpl.
        destruct (counts runs r), (is_conductor (run_key r)); simpl; lia.
      * intros k Hk. rewrite attempts_snoc, bool_decide_eq_false_2 by congruence. simpl. by rewrite Z.add_0_r.
Qed.

(** ** What is left to spend *)

Definition node_limit (n : NodeView) : Z := match GraphRuns.as_int (attempt_limit n) with Ok z => z | Raise _ => 0 end.
Definition node_left (t : Tally) (n : NodeView) : Z := Z.max 0 (node_limit n - spent_on t (nv_node_key n)).
Definition work_left (t : Tally) (n : NodeView) : Z :=
  if unfinished t n && negb (is_conductor (nv_node_key n)) then node_left t n else 0.

Lemma slots_left t n z : slots t n = Ok z → z = node_left t n.
Proof.
  unfold slots, node_left, node_limit. intros (l & -> & [= <-])%res_bind_ok. done.
Qed.

Lemma remaining_turns t nodes turns usd turns' usd' :
  remaining t nodes turns usd = Ok (turns', usd') → turns' = turns + zsum (work_left t) nodes.
Proof.
  revert turns usd. induction nodes as [|n nodes IH]; intros turns usd; simpl; [intros [= <- <-]; lia|].
  unfold work_left at 1. destruct (unfinished t n); [|intros ->%IH; simpl; lia].
  intros (u & _ & (z & Hz & ->%IH)%res_bind_ok)%res_bind_ok. unfold node_turns in Hz.
  destruct (is_conductor (nv_node_key n)); simpl; [injection Hz as <-|apply slots_left in Hz as ->]; lia.
Qed.

Lemma work_left_nonneg t n : 0 ≤ work_left t n.
Proof. unfold work_left, node_left. destruct (_ && _); lia. Qed.

(** ** The sum *)

Definition policy_attempts (policy : dict) : Z :=
  match v ← policy_index "max_attempts" policy; GraphRuns.as_int v with Ok z => z | Raise _ => 0 end.
(** Turns kept for nodes the engine may insert. *)
Definition reserve (policy : dict) (a : Allowance) : Z :=
  2 * al_review_rounds_reserved a + al_fan_ins_reserved a * policy_attempts policy.

Lemma allowance_inv `{PoolRuntime, PriceBook} nodes runs policy rr fi rev reviewable a :
  allowance_from_graph nodes runs policy rr fi rev reviewable = Ok a →
  al_turns a = tl_work_turns_used (tally runs) + zsum (work_left (tally runs)) nodes + reserve policy a ∧
  al_review_rounds_reserved a = rounds_reserved nodes rr reviewable ∧
  al_fan_ins_reserved a = Z.max 0 fi ∧ al_graph_revision a = rev.
Proof.
  unfold allowance_from_graph. intros ([turns usd] & Hr%remaining_turns & Hq)%res_bind_ok.
  apply res_bind_ok in Hq as (u & _ & (x & Hx & [= <-])%res_bind_ok). simpl. split_and!; [|done..].
  unfold reserved_turns in Hx. apply res_bind_ok in Hx as (v & Ev & (z & Ez & [= <-])%res_bind_ok).
  unfold reserve, policy_attempts, REVIEW_ROUND_ATTEMPTS. simpl. rewrite Ev. cbn [mbind res_bind]. rewrite Ez. lia.
Qed.

(** The turns a key is sized at: what it spent, or its bound while its node is live. *)
Definition key_turns (nodes : list NodeView) (runs : list RunView) (k : string) : Z :=
  if is_conductor k then 0 else
  match find_first (λ n, bool_decide (nv_node_key n = k)) nodes with
  | Some n => if unfinished (tally runs) n then Z.max (attempts_spent runs k) (node_limit n) else attempts_spent runs k
  | None => attempts_spent runs k
  end.
Definition keys_of (nodes : list NodeView) (runs : list RunView) : list string :=
  remove_dups ((nv_node_key <$> nodes) ++ (run_key <$> runs)).

Lemma turns_by_key nodes runs ks :
  NoDup (nv_node_key <$> nodes) → NoDup ks → (∀ k, k ∈ (nv_node_key <$> nodes) ++ (run_key <$> runs) → k ∈ ks) →
  tl_work_turns_used (tally runs) + zsum (work_left (tally runs)) nodes = zsum (key_turns nodes runs) ks.
Proof.
  intros Hnd Hks Hin. destruct (tally_correct runs) as [Hs _ Ht].
  rewrite (Ht ks Hks) by (intros r Hr; apply Hin; apply elem_of_app; right; by apply list_elem_of_fmap_2).
  rewrite (zsum_by_key nv_node_key _ nodes ks Hnd Hks)
    by (intros n Hn; apply Hin; apply elem_of_app; left; by apply list_elem_of_fmap_2).
  clear Hin Hks. induction ks as [|k ks IH]; [done|].
  cut (key_turns nodes runs k = (if is_conductor k then 0 else attempts_spent runs k) +
    match find_first (λ n, bool_decide (nv_node_key n = k)) nodes with
    | Some n => work_left (tally runs) n | None => 0 end); [unfold zsum in *; simpl; lia|].
  unfold key_turns. destruct (find_first _ nodes) as [n|] eqn:E; [|destruct (is_conductor k); lia].
  apply find_first_Some in E as [_ <-%bool_decide_eq_true]. unfold work_left, node_left.
  rewrite Hs. destruct (is_conductor _), (unfinished _ n); simpl; lia.
Qed.

Lemma keys_of_ok nodes runs :
  NoDup (keys_of nodes runs) ∧ ∀ k, k ∈ (nv_node_key <$> nodes) ++ (run_key <$> runs) → k ∈ keys_of nodes runs.
Proof. split; [apply NoDup_remove_dups|]. intros k Hk. by apply elem_of_remove_dups. Qed.

(** ** The live graph *)

Lemma load_graph_keys db t nodes : plan_ok db t → load_graph db t None = Ok nodes → NoDup (nv_node_key <$> nodes).
Proof.
  intros [Hk _ _ _ _]. unfold load_graph, project. simpl. intros (vs & Hv & Hp)%res_bind_ok.
  apply (visible_keys_NoDup _ _ (_current_version db t)) in Hk.
  enough (nv_node_key <$> nodes = pn_node_key <$> _visible_nodes db t (_current_version db t)) as -> by done.
  apply res_map_Forall2 in Hv, Hp. transitivity (nv_node_key <$> vs).
  - symmetry. clear Hv Hk. induction Hp as [|n n' ns ns' Hn _ IH]; [done|]. csimpl. rewrite IH. f_equal.
    apply res_bind_ok in Hn as (g & _ & [= <-]). done.
  - symmetry. clear Hp Hk. induction Hv as [|n n' ns ns' Hn _ IH]; [done|]. csimpl. rewrite IH. f_equal.
    apply res_bind_ok in Hn as (g & _ & [= <-]). done.
Qed.

Lemma unfinished_snoc runs r n :
  unfinished (tally (runs ++ [r])) n =
    unfinished (tally runs) n &&
    negb (counts runs r && bool_decide (nr_status (rv_row r) = "succeeded"%string) && bool_decide (run_key r = nv_node_key n)).
Proof.
  rewrite tally_snoc. destruct (tally_run_spec (tally runs) r) as (_ & _ & _ & Hs).
  rewrite (to_denied _ _ (tally_correct runs)) in Hs. fold (counts runs r) in Hs.
  unfold unfinished. rewrite Hs. destruct (counts runs r && _); simpl; [|by rewrite andb_true_r].
  destruct (decide (run_key r = nv_node_key n)) as [->|E].
  - rewrite (bool_decide_eq_true_2 (nv_node_key n = _)), andb_false_r by done. apply bool_decide_eq_false_2. set_solver.
  - rewrite (bool_decide_eq_false_2 (run_key r = _)), andb_true_r by done. apply bool_decide_ext. set_solver.
Qed.

(** With distinct keys, the open node of a key is the node of the key, if open. *)
Lemma find_live k (p : NodeView → bool) nodes :
  NoDup (nv_node_key <$> nodes) →
  find_first (λ n, bool_decide (nv_node_key n = k) && p n) nodes =
    match find_first (λ n, bool_decide (nv_node_key n = k)) nodes with
    | Some n => if p n then Some n else None
    | None => None
    end.
Proof.
  induction nodes as [|n nodes IH]; [done|]. intros [Hn Hnd]%NoDup_cons. simpl.
  destruct (decide (nv_node_key n = k)) as [<-|E].
  - rewrite !bool_decide_eq_true_2 by done. simpl. destruct (p n); [done|]. apply find_first_None.
    intros m Hm. apply andb_false_iff. left. apply bool_decide_eq_false_2. intros Em. apply Hn.
    rewrite <-Em. by apply list_elem_of_fmap_2.
  - rewrite !bool_decide_eq_false_2 by done. by apply IH.
Qed.

(** New nodes that no run names add their limits. *)
Lemma work_left_fresh runs (new : list NodeView) :
  (∀ n, n ∈ new → (∀ r, r ∈ runs → run_key r ≠ nv_node_key n) ∧ is_conductor (nv_node_key n) = false ∧ 0 ≤ node_limit n) →
  zsum (work_left (tally runs)) new = zsum node_limit new.
Proof.
  intros Hnew. apply zsum_ext. intros n Hn. destruct (Hnew n Hn) as (Hr & Hc & Hl).
  assert (attempts_spent runs (nv_node_key n) = 0 ∧ nv_node_key n ∉ tl_succeeded (tally runs)) as [Hz Hu].
  { clear Hnew Hc Hl. induction runs as [|r runs IH] using rev_ind; [done|].
    destruct IH as [Hz Hu]; [intros; apply Hr; set_solver|].
    assert (run_key r ≠ nv_node_key n) as Hne by (apply Hr; set_solver). split.
    - by rewrite attempts_snoc, Hz, bool_decide_eq_false_2.
    - rewrite tally_snoc. destruct (tally_run_spec (tally runs) r) as (_ & _ & _ & ->). destruct (_ && _); set_solver. }
  unfold work_left, node_left, unfinished. rewrite (to_spent _ _ (tally_correct runs)), Hz, Hc.
  rewrite bool_decide_eq_true_2 by done. simpl. lia.
Qed.

Lemma has_review_app nodes new : existsb is_review (nodes ++ new) = existsb is_review nodes || existsb is_review new.
Proof. apply existsb_app. Qed.

(** ** Storing it *)

Lemma receipt_put row row' t db :
  _receipt db t = Some row → rc_id row' = rc_id row → rc_task_id row' = Some t →
  _receipt (put_receipt row' db) t = Some row'.
Proof.
  unfold _receipt. simpl. intros Hf Hid Ht. induction (f_receipts db) as [|x l IH]; [done|]. csimpl in *.
  destruct (Z.eqb_spec (rc_id x) (rc_id row')) as [E|E].
  - by rewrite bool_decide_eq_true_2.
  - destruct (bool_decide (rc_task_id x = Some t)); [congruence|by apply IH].
Qed.

Lemma audit_receipt actor action task detail db t : _receipt (_audit actor action task detail db) t = _receipt db t.
Proof. unfold _receipt. by rewrite audit_receipts. Qed.
Lemma audit_task_starts actor action task detail db t : _starts (_audit actor action task detail db) t = _starts db t.
Proof. unfold _starts. by rewrite audit_starts. Qed.

(** A recorded allowance is the derived one under the turn ceiling, on the task's own receipt. *)
Lemma record_allowance_inv `{FundingLedger, PoolRuntime, PriceBook} graph t policy actor rr fi cause db a db' :
  record_allowance graph t policy actor rr fi cause db = Ok (AllowanceDerived a, db') → ∃ row derived ceiling who,
    _receipt db t = Some row ∧ derive_allowance graph t policy rr fi = Ok derived ∧
    turn_ceiling db t policy = Ok ceiling ∧ a = clamped ceiling derived ∧ f_is_finite (al_usd a) = true ∧
    db' = _audit who "allowance_derived" (Some t)
            [("cause", of_option cause); ("allowance", PDict (allowance_json a))]%string
            (put_receipt (with_allowance (allowance_json a) (f_now db) row) db).
Proof.
  unfold record_allowance. intros (who & _ & Hq)%res_bind_ok. destruct (_receipt db t) as [row|]; [|done].
  apply res_bind_ok in Hq as (derived & Hd & (ceiling & Hc & Hq)%res_bind_ok).
  apply res_bind_ok in Hq as (stored & Hs & [= <- <-]). unfold dumped in Hs. destruct (f_is_finite _) eqn:Hf; [|done].
  injection Hs as <-. by exists row, derived, ceiling, who.
Qed.

Lemma evidence_caps db t policy ceiling e z :
  turn_ceiling db t policy = Ok ceiling → recovery_grant db t = Ok (Some e) →
  item "work_turn_ceiling" e = Ok (PInt z) → ceiling ≤ z.
Proof.
  unfold turn_ceiling. intros (v & _ & (base & _ & (e' & He & Hq)%res_bind_ok)%res_bind_ok)%res_bind_ok Ee Ez.
  rewrite Ee in He. injection He as <-. destruct e as [|p e]; [done|].
  rewrite Ez in Hq. cbn [mbind res_bind GraphRuns.as_int] in Hq. injection Hq as <-. lia.
Qed.
