(* ===== verification/AllowanceClaims.v ===== *)
(** * Factory controls: theorems on the derived allowance

    Concrete instances for allowances and prices end the file ([AllowanceDemo]). *)

From Stdlib Require Import SpecFloat.
From stdpp Require Import prelude list strings gmap relations.
From S2P Require Import Prelude PyValue GraphData GraphAccounting GraphPlan GraphRuns GraphInvariant WorkItems ModelPool PolicyData Policy Pricing Controls Lanes Capacity Starts StartFacts StartClaims Finish LifeFacts Allowance AllowanceFacts GraphSafety GraphWitness ModelPoolWitness StartWitness.
Local Open Scope Z_scope.

(** C28: The turns a task is sized at are a sum over keys, each attempt counted
    once: a key costs what its runs spent, by the graph's own count (three
    capacity denials excused), or its attempt limit when its node is live, not
    succeeded and has spent less; conductor keys cost nothing. On top come two
    turns for the next review round, when the plan has a review node and a round
    is left, and one [max_attempts] node per remaining fan-in.  The
    work turns already spent, and the whole reserve, are always inside it. *)
Theorem derived_turns_closed_form `{FundingLedger, PoolRuntime, PriceBook} graph t policy rr fi a :
  plan_ok graph t → derive_allowance graph t policy rr fi = Ok a → ∃ nodes runs,
    load_graph graph t None = Ok nodes ∧ node_runs graph t None = Ok runs ∧
    al_turns a = zsum (key_turns nodes runs) (keys_of nodes runs) + reserve policy a ∧
    zsum (λ k, if is_conductor k then 0 else attempts_spent runs k) (keys_of nodes runs) + reserve policy a ≤ al_turns a ∧
    al_review_rounds_reserved a = rounds_reserved nodes rr None ∧ al_fan_ins_reserved a = Z.max 0 fi ∧
    al_review_rounds_reserved a ≤ 1 ∧ al_graph_revision a = _current_version graph t.
Proof.
  intros Hok (nodes & En & (runs & Er & Ha)%res_bind_ok)%res_bind_ok. exists nodes, runs.
  pose proof (load_graph_keys _ _ _ Hok En) as Hnd. destruct (keys_of_ok nodes runs) as [Hks Hin].
  destruct (allowance_inv _ _ _ _ _ _ _ _ Ha) as (-> & -> & Hfi & ->).
  pose proof (turns_by_key nodes runs _ Hnd Hks Hin) as Ht.
  split_and!; [done|done|by rewrite <-Ht| |done|done|unfold rounds_reserved; destruct (default _ _); lia|done].
  destruct (tally_correct runs) as [_ _ Hw]. rewrite <-(Hw (keys_of nodes runs) Hks).
  - pose proof (zsum_nonneg (work_left (tally runs)) nodes (λ n _, work_left_nonneg _ n)). lia.
  - intros r Hr. apply Hin. apply elem_of_app. right. by apply list_elem_of_fmap_2.
Qed.

(** One more run of a key changes what the task is sized at by exactly this
    much: nothing for a conductor or an excused capacity denial; nothing for a
    failed attempt within its node's limit, whose slot was already counted; one
    turn past the limit, or on a key with no open node; and a success gives back
    the slots its node left unspent. *)
Theorem run_turn_accounting `{PoolRuntime, PriceBook} nodes runs r policy rr fi rev reviewable a a' :
  NoDup (nv_node_key <$> nodes) →
  allowance_from_graph nodes runs policy rr fi rev reviewable = Ok a →
  allowance_from_graph nodes (runs ++ [r]) policy rr fi rev reviewable = Ok a' →
  al_turns a' - al_turns a =
    if is_conductor (run_key r) || negb (counts runs r) then 0 else
    match find_first (λ n, bool_decide (nv_node_key n = run_key r) && unfinished (tally runs) n) nodes with
    | None => 1
    | Some n =>
        let left := Z.max 0 (node_limit n - attempts_spent runs (run_key r)) in
        if bool_decide (nr_status (rv_row r) = "succeeded"%string) then 1 - left
        else if 0 <? left then 0 else 1
    end.
Proof.
  intros Hnd Ha Ha'. set (k := run_key r).
  destruct (allowance_inv _ _ _ _ _ _ _ _ Ha) as (Et & Er & Ef & _).
  destruct (allowance_inv _ _ _ _ _ _ _ _ Ha') as (Et' & Er' & Ef' & _).
  assert (reserve policy a' = reserve policy a) as Ers by (unfold reserve; congruence).
  destruct (keys_of_ok nodes (runs ++ [r])) as [Hks Hin]. set (ks := keys_of _ _) in *.
  rewrite (turns_by_key nodes (runs ++ [r]) ks) in Et' by done.
  rewrite (turns_by_key nodes runs ks) in Et by (try done; intros; apply Hin; set_solver).
  rewrite (zsum_at _ (key_turns nodes runs) ks k) in Et'; [|done| |].
  2: { apply Hin. rewrite fmap_app. apply elem_of_app. right. apply elem_of_app. right. by apply list_elem_of_singleton. }
  2: { intros k' Hk'. unfold key_turns. rewrite attempts_snoc, bool_decide_eq_false_2 by (fold k; congruence).
       rewrite andb_false_l, Z.add_0_r. destruct (find_first _ nodes) as [n|] eqn:E; [|done].
       apply find_first_Some in E as [_ E%bool_decide_eq_true].
       by rewrite unfinished_snoc, (bool_decide_eq_false_2 (run_key r = _)), andb_false_r, andb_true_r by (fold k; congruence). }
  replace (al_turns a' - al_turns a) with (key_turns nodes (runs ++ [r]) k - key_turns nodes runs k) by lia.
  clear Et Et' Ers Er Er' Ef Ef' Ha Ha'. unfold key_turns. destruct (is_conductor k); [done|].
  rewrite attempts_snoc, bool_decide_eq_true_2 by done.
  rewrite (find_live k (unfinished (tally runs)) nodes Hnd).
  destruct (find_first _ nodes) as [n|] eqn:E; [|destruct (counts runs r); simpl; lia].
  apply find_first_Some in E as [_ En%bool_decide_eq_true].
  rewrite unfinished_snoc, (bool_decide_eq_true_2 (run_key r = _)), andb_true_r by (fold k; congruence).
  destruct (counts runs r), (unfinished (tally runs) n), (bool_decide (nr_status _ = _)); simpl; try lia.
  destruct (Z.ltb_spec 0 (Z.max 0 (node_limit n - attempts_spent runs k))); lia.
Qed.

(** The engine's own insertions are paid out of the reserve. Inserting a
    reserved fan-in, a fresh node at the policy's [max_attempts], leaves the size of
    the task unchanged; inserting a reserved review round, two fresh nodes of
    [REVIEW_ROUND_ATTEMPTS], leaves it unchanged when it was the last one and
    otherwise grows it by the next round alone, two turns. *)
Theorem insertions_paid_from_reserve `{PoolRuntime, PriceBook} nodes new runs policy rr fi rr' fi' rev rev' a a' :
  allowance_from_graph nodes runs policy rr fi rev None = Ok a →
  allowance_from_graph (nodes ++ new) runs policy rr' fi' rev' None = Ok a' →
  (∀ n, n ∈ new → (∀ r, r ∈ runs → run_key r ≠ nv_node_key n) ∧ is_conductor (nv_node_key n) = false) →
  (length new = 1%nat ∧ (∀ n, n ∈ new → node_limit n = policy_attempts policy ∧ is_review n = false) ∧
     0 ≤ policy_attempts policy ∧ 0 < fi ∧ fi' = fi - 1 ∧ rr' = rr → al_turns a' = al_turns a) ∧
  (length new = 2%nat ∧ (∀ n, n ∈ new → node_limit n = REVIEW_ROUND_ATTEMPTS) ∧
     existsb is_review nodes = true ∧ 0 < rr ∧ rr' = rr - 1 ∧ fi' = fi →
   al_turns a' = al_turns a + 2 * al_review_rounds_reserved a' ∧
   al_review_rounds_reserved a' = if bool_decide (rr = 1) then 0 else 1).
Proof.
  intros Ha Ha' Hnew. destruct (allowance_inv _ _ _ _ _ _ _ _ Ha) as (-> & Er & Ef & _).
  destruct (allowance_inv _ _ _ _ _ _ _ _ Ha') as (-> & Er' & Ef' & _).
  rewrite zsum_app. unfold reserve, rounds_reserved in *. simpl in *. rewrite has_review_app in Er'.
  split; [intros (Hlen & Hlim & Hp & Hf & -> & ->) | intros (Hlen & Hlim & Hrev & Hr & -> & ->)].
  - destruct new as [|n [|]]; try done. destruct (Hlim n ltac:(by left)) as [El En]. destruct (Hnew n ltac:(by left)).
    rewrite (work_left_fresh _ [n]) by (intros m ->%list_elem_of_singleton; split_and!; [done..|lia]).
    simpl in *. rewrite En, !orb_false_r in Er'. rewrite Er', Er, Ef, Ef', El, (Z.max_r 0 fi), (Z.max_r 0 (fi - 1)) by lia. lia.
  - destruct new as [|n [|m [|]]]; try done. rewrite (work_left_fresh _ [n; m]).
    2: { intros x Hx. destruct (Hnew x Hx). rewrite Hlim by done. unfold REVIEW_ROUND_ATTEMPTS. split_and!; [done..|lia]. }
    simpl. rewrite !Hlim by set_solver. rewrite Hrev in Er, Er'. simpl in Er'. rewrite Er', Er, Ef, Ef'.
    unfold REVIEW_ROUND_ATTEMPTS. case_bool_decide; lia.
Qed.

(** C27: Recording an allowance stores the derived one, its turns cut to the
    ceiling, where every reader finds it, and does nothing else: of the receipts
    only the task's own row changes, and of that row only its allowance and its
    time stamp; one audit is appended; the starts, the control row, the runs and
    the tasks are untouched.  In any later state whose receipt for the task still
    carries that allowance, whatever else has changed, a fresh work start is
    granted only if it keeps the task's work turns within the plan's own size, the
    ceiling, and the ceiling of the evidence continuation recorded by then if
    there is one, whichever policy the receipt names. *)
Theorem recorded_allowance_binds `{FundingLedger, PoolRuntime, PriceBook, Environ, IsoFormat, Hashing}
    graph t policy actor rr fi cause db a db' :
  record_allowance graph t policy actor rr fi cause db = Ok (AllowanceDerived a, db') → ∃ row derived ceiling audit,
    derive_allowance graph t policy rr fi = Ok derived ∧ turn_ceiling db t policy = Ok ceiling ∧
    a = clamped ceiling derived ∧ _receipt db t = Some row ∧
    f_receipts db' = (λ r, if rc_id r =? rc_id row then with_allowance (allowance_json a) (f_now db) row else r) <$> f_receipts db ∧
    f_audits db' = f_audits db ++ [audit] ∧ au_action audit = "allowance_derived"%string ∧
    (f_starts db', f_control db', f_runs db', f_tasks db') = (f_starts db, f_control db, f_runs db, f_tasks db) ∧
    (∃ row', _receipt db' t = Some row' ∧ ∀ current, _stored_allowance row' current = Ok (allowance_json a)) ∧
    ∀ later row', _receipt later t = Some row' → rc_allowance_json row' = Some (allowance_json a) →
      ∀ key actor' model cost s later', authorize_start t key actor' model cost later = Ok (StartGranted false s, later') →
      _planner_start s = false →
      ac_turns_used (_accounting (_starts later' t)) ≤ Z.min (al_turns derived) ceiling ∧
      ∀ e z, recovery_grant db t = Ok (Some e) → item "work_turn_ceiling" e = Ok (PInt z) →
        ac_turns_used (_accounting (_starts later' t)) ≤ z.
Proof.
  intros (row & derived & ceiling & who & Hrow & Hd & Hc & -> & _ & ->)%record_allowance_inv.
  set (a := clamped ceiling derived). set (row' := with_allowance (allowance_json a) (f_now db) row).
  match goal with |- context [_audit ?x ?y ?z ?w ?d0] => destruct (audit_frame x y z w d0) as (au & E & Eact) end.
  destruct (receipt_elem _ _ _ Hrow) as [Hin Ht]. assert (edited row row') as Hed by done.
  exists row, derived, ceiling, au. rewrite E. do 4 (split; [done|]). split; [done|]. split; [done|]. split; [done|].
  split; [done|]. split.
  - exists row'. split; [|done]. change (_receipt (put_receipt row' db) t = Some row'). by apply (receipt_put row).
  - clear E Eact au. intros later row0 Hr0 Hal key actor' model cost s later' (k & a' & m & c & -> & -> & -> & _ & Hauth)%authorize_inv Hp.
    inversion Hauth as [| |row1 policy0 oversight evidence recovery detail Hg s0 E1 E2]; subst.
    rewrite audit_task_starts. pose proof (gr_receipt _ _ _ _ _ _ _ _ _ _ _ Hg) as Hr1. rewrite Hr0 in Hr1. injection Hr1 as <-.
    apply guards_bounds in Hg as [_ _ _ Hturns].
    assert (_stored_allowance row0 policy0 = Ok (allowance_json a)) as Hst by (unfold _stored_allowance; by rewrite Hal).
    specialize (Hturns (al_turns a) (allowance_json a) Hp Hst eq_refl). simpl in Hturns. split; [done|].
    intros e z He Hz. pose proof (evidence_caps _ _ _ _ _ _ Hc He Hz). etransitivity; [exact Hturns|lia].
Qed.

(** * Allowances and prices: concrete instances of the theorems

    The worked plan of two nodes, one succeeded and one in flight, sized under an
    accepted operator policy, and a turn priced from a Claude and a Codex report. *)

Module AllowanceDemo.
Import StartDemo.

#[local] Existing Instance demo_funding.
#[local] Existing Instance demo_hooks.
#[local] Existing Instance env.
#[local] Existing Instance iso.
#[local] Existing Instance hashing.
#[local] Instance runtime : PoolRuntime := PoolDemo.runtime.
(** A book that knows one model. *)
#[local] Instance book : PriceBook := λ c m p,
  if bool_decide (m = "gpt-5.6-terra"%string) then Priced (dec 1 2) m else UnknownModel.

Definition nodes : list NodeView :=
  Eval vm_compute in match load_graph demo6 "t" None with Ok l => l | Raise _ => [] end.
Definition runs : list RunView :=
  Eval vm_compute in match node_runs demo6 "t" None with Ok l => l | Raise _ => [] end.
Notation sized ns rs rr fi := (match allowance_from_graph ns rs policy rr fi 2 None with
  Ok a => a | Raise _ => mkAllowance 0 fzero 0 0 0 end).

Definition derived : Allowance := Eval vm_compute in
  match derive_allowance demo6 "t" policy 1 1 with Ok a => a | Raise _ => mkAllowance 0 fzero 0 0 0 end.

(** One spent attempt of a succeeded node, three of a live one, three of a fan-in. *)
Lemma closed_form_witness : al_turns derived = 7 ∧ ∃ ns rs,
  load_graph demo6 "t" None = Ok ns ∧ node_runs demo6 "t" None = Ok rs ∧
  al_turns derived = zsum (key_turns ns rs) (keys_of ns rs) + reserve policy derived ∧
  zsum (λ k, if is_conductor k then 0 else attempts_spent rs k) (keys_of ns rs) + reserve policy derived ≤ al_turns derived ∧
  al_review_rounds_reserved derived = rounds_reserved ns 1 None ∧ al_fan_ins_reserved derived = Z.max 0 1 ∧
  al_review_rounds_reserved derived ≤ 1 ∧ al_graph_revision derived = _current_version demo6 "t".
Proof.
  split; [vm_compute; reflexivity|]. apply (derived_turns_closed_form demo6 "t" policy 1 1).
  - apply go_plan, reachable_ok, demo6_reachable.
  - vm_compute. reflexivity.
Defined.

(** The review attempt in flight, over again. *)
Notation again := (default (mkRunView (demo_run demo6 1) fzero "" false) (last runs)).
Lemma run_witness : al_turns (sized nodes (runs ++ [again]) 1 1) - al_turns (sized nodes runs 1 1) = 0.
Proof.
  etransitivity.
  - apply (run_turn_accounting nodes runs again policy 1 1 2 None).
    + apply (load_graph_keys demo6 "t"); [apply go_plan, reachable_ok, demo6_reachable|vm_compute; reflexivity].
    + vm_compute. reflexivity.
    + vm_compute. reflexivity.
  - vm_compute. reflexivity.
Defined.

(** A fan-in node, and a review round. *)
Notation node key attempts := (mkView (mkFields key "work" "do it" (PStr "sonnet") PNone [] (PInt 2) false (PInt attempts) (PInt 600))
  3 None None NotArmed None None false).
Notation reviewed := (nodes ++ [node "review_1" 1]).
Notation with_fan_in := (sized (nodes ++ [node "fan_in" 3]) runs 1 0).
Notation with_round := (sized (reviewed ++ [node "fix_2" 1; node "review_2" 1]) runs 1 1).
Lemma insertion_witness :
  al_turns with_fan_in = al_turns (sized nodes runs 1 1) ∧
  al_turns with_round = al_turns (sized reviewed runs 2 1) + 2 * al_review_rounds_reserved with_round.
Proof.
  destruct (insertions_paid_from_reserve nodes [node "fan_in" 3] runs policy 1 1 1 0 2 2
    (sized nodes runs 1 1) with_fan_in) as [Hfan _]; [vm_compute; reflexivity..| |].
  { intros n ->%list_elem_of_singleton. split; [|reflexivity]. apply Forall_forall. unfold runs.
    repeat apply Forall_cons_2; [vm_compute; discriminate..|constructor]. }
  destruct (insertions_paid_from_reserve reviewed [node "fix_2" 1; node "review_2" 1] runs policy 2 1 1 1 2 2
    (sized reviewed runs 2 1) with_round) as [_ Hround]; [vm_compute; reflexivity..| |].
  { apply Forall_forall. repeat apply Forall_cons_2; [..|constructor]; (split; [|reflexivity]); apply Forall_forall; unfold runs;
      (repeat apply Forall_cons_2; [vm_compute; discriminate..|constructor]). }
  split; [apply Hfan|apply Hround].
  - split_and!; [reflexivity| |vm_compute; discriminate|reflexivity..].
    intros n ->%list_elem_of_singleton. split; vm_compute; reflexivity.
  - split_and!; [reflexivity| |vm_compute; reflexivity|reflexivity..].
    apply Forall_forall. repeat apply Forall_cons_2; [vm_compute; reflexivity..|constructor].
Defined.

(** ** Recording *)

Definition fdb : FDB := mkFDB control [receipt 1 "bug-fix" "t" false] [] [] [task "t"] [] [] [] [] [] [] [] [] 1000.
Definition record (db : FDB) : res (AllowanceResult * FDB) :=
  record_allowance demo6 "t" policy (PStr "factory:conductor") 1 1 (Some "plan_accepted"%string) db.
Definition recorded : FDB := Eval vm_compute in after (record fdb).
Definition start_key : string := "factory-node:t:review:1".
Definition start (db : FDB) : res (StartResult * FDB) :=
  authorize_start "t" (PStr start_key) (PStr "factory:conductor") (PStr "luna") (PInt 2) db.
Definition started : FDB := Eval vm_compute in after (start recorded).

Lemma recorded_witness : ac_turns_used (_accounting (_starts started "t")) ≤ 7.
Proof.
  destruct (recorded_allowance_binds demo6 "t" policy (PStr "factory:conductor") 1 1 (Some "plan_accepted"%string)
    fdb derived recorded) as (row & d & c & au & Hd & _ & _ & _ & _ & _ & _ & _ & _ & Hlater); [vm_compute; reflexivity|].
  pose proof (Hlater recorded _ eq_refl eq_refl) as Hstart.
  destruct (Hstart (PStr start_key) (PStr "factory:conductor") (PStr "luna") (PInt 2)
    (new_start recorded "t" start_key "factory:conductor" "luna" (f_of_Z 2)) started) as [Hle _];
    [vm_compute; reflexivity|reflexivity|].
  assert (derive_allowance demo6 "t" policy 1 1 = Ok derived) as Hr by (vm_compute; reflexivity).
  rewrite Hr in Hd. injection Hd as <-. etransitivity; [exact Hle|]. etransitivity; [apply Z.le_min_l|].
  vm_compute. discriminate.
Defined.

(** ** Prices *)

Lemma total_witness : ∃ r, list_price_usd (Some "opus"%string) (Some [("input_tokens", PInt (-1))]%string) None = Ok r.
Proof.
  apply (price_usage_total (Some "opus"%string) (Some [("input_tokens", PInt (-1))]%string) None).
  intros c m p e. unfold calc_price, book. case_match; discriminate.
Defined.

(** A thousand plain tokens, nine thousand cached, five hundred out: at Opus's
    list prices 1000*4 + 9000*0.2 + 500*20 dollars per million. *)
Lemma alike_witness :
  price_usage (Some "opus"%string) (Some [("input_tokens", PInt 1000); ("output_tokens", PInt 500);
    ("cache_read_input_tokens", PInt 9000); ("cache_creation_input_tokens", PInt 0)]%string) =
  price_usage (Some "opus"%string) (Some [("input_tokens", PInt 10000); ("output_tokens", PInt 500);
    ("cached_input_tokens", PInt 9000); ("cache_write_input_tokens", PInt 0)]%string).
Proof.
  apply (reports_priced_alike (Some "opus"%string) 1000 500 9000 0 false true); try (split; [lia|vm_compute; reflexivity]).
  - apply RepClaudeNative.
  - apply RepCodexNative.
Defined.

Example opus_turn :
  list_price_usd (Some "opus"%string) (Some [("shape", PStr "claude"); ("input_tokens", PInt 1000); ("output_tokens", PInt 500);
    ("cache_read_tokens", PInt 9000)]%string) None = Ok (Some (dec 15800 1000000)).
Proof. vm_compute. reflexivity. Qed.
Example short_turns :
  turn_reservation_usd "astra" "planner" (PInt 5) = Ok (dec 50 100) ∧
  turn_reservation_usd "fable" "planner" (PInt 5) = Ok (dec 750 100) ∧
  turn_reservation_usd "fable" "worker" (PInt 5) = Ok (f_of_Z 5) ∧
  review_reservation_usd "opus" (PInt 0) (PInt 5) = Ok (f_of_Z 10).
Proof. vm_compute. done. Qed.

End AllowanceDemo.
