(* ===== verification/TurnStore.v ===== *)
(** * Turn store: queued messages, dispatch claims and unknown outcomes

    [factory/execution/store.py]: the durable lane of an agent session.  A
    message is queued, claimed for one physical dispatch, and ends in a turn; an
    attempt whose outcome nobody observed freezes the session.  Every operation
    locks the pool and the session first, so one call is one step ([tx ADB]). *)

From Stdlib Require Import SpecFloat.
From stdpp Require Import prelude list strings.
From S2P Require Import Prelude PyValue WorkItems PolicyData Pricing Admission.
Local Open Scope Z_scope.

(** ** What the store calls *)

(** The JSON writer and reader, [str] of a value other than a string, and the
    hash behind [exact_dispatch_id]. A JSON text is never empty. *)
Class TurnText := {
  json_dumps : pyval → string;
  json_loads : string → option pyval;
  str_other : pyval → string;
  exact_dispatch_id : list pyval → string;
  json_dumps_text : ∀ v, json_dumps v ≠ ""%string;
}.

(** [json.dumps(v)], with what it reads back as. *)
Definition encoded `{TurnText} (v : pyval) : jtext := JText (json_dumps v) (Some v).
(** [json.loads(text or dflt)]. *)
Definition loads_or (dflt : pyval) (t : option jtext) : option pyval :=
  match t with
  | Some t => if bool_decide (jt_text t = ""%string) then Some dflt else jt_loads t
  | None => Some dflt
  end.
Definition text_of (t : option jtext) : pyval := match t with Some t => PStr (jt_text t) | None => PNone end.
Definition opt_str (o : option string) : pyval := match o with Some s => PStr s | None => PNone end.

(** [value.isoformat()] of a UTC time. *)
Definition iso `{IsoFormat} (t : Z) : string := isoformat (mkDatetime t (Some 0)).
Definition iso_opt `{IsoFormat} (t : option Z) : pyval := opt_str (iso <$> t).

(** ** Constants *)

Definition RECLAIM_LEASE : Z := 30 * 1000000.
Definition MAX_PENDING_DISPATCHES : Z := 3.
Definition CLEAN_TERMINAL_REASONS : list string := ["completed"; "end_turn"; "stop"; "user_interrupt"].
Definition INTERRUPTED_TERMINAL_REASONS : list string := ["interrupted"; "interrupted_for_drain"].
Definition RESPONSE_LOST : string := "response_lost".
Definition RESPONSE_LOST_BACKSTOP_SECONDS : Z := 12 * 60 * 60.
Definition BOUND_ZERO_TURN_CLEANUP_PREFIX : string := "b07d0000".
Definition UNKNOWN_INVOCATION_MESSAGE : string :=
  "This session has an unknown invocation outcome. Reconcile the guest and any remote side effects, then start a new session. Sending again cannot resume it.".
Definition RESPONSE_LOST_MESSAGE : string :=
  "The synchronous response to this turn was lost while the guest was still working. The turn is held until its committed result is recovered, or until the hold expires and the outcome becomes unknown.".

(** [PendingClaimLost] is a [RuntimeError], [SessionOutcomeUnknown] a [ValueError]. *)
Definition claim_lost {A} (why : string) : res A := Raise (RuntimeError why).
Definition integrity_error {A} : res A := Raise (RuntimeError "IntegrityError").

(** ** Payloads *)

(** [s.replace("\x00", "")]. *)
Fixpoint strip_nul (s : string) : string :=
  match s with
  | EmptyString => EmptyString
  | String c s => if bool_decide (c = Ascii.ascii_of_nat 0) then strip_nul s else String c (strip_nul s)
  end.
(** A dict built entry by entry: a later entry of the same key wins. *)
Definition dict_of (kv : dict) : dict := foldl (λ d p, dict_set p.1 p.2 d) [] kv.
Fixpoint sanitize_payload (v : pyval) : pyval :=
  match v with
  | PStr s => PStr (strip_nul s)
  | PList l => PList (sanitize_payload <$> l)
  | PDict kv => PDict (dict_of ((λ p, (strip_nul p.1, sanitize_payload p.2)) <$> kv))
  | v => v
  end.

(** ** Rows *)

Definition get_session (db : ADB) (session_id : Z) : option AgentSession :=
  find_first (λ s, as_id s =? session_id) (a_sessions db).
Definition put_session (row : AgentSession) : ADB → ADB :=
  set_sessions (update_where (λ s, as_id s =? as_id row) (λ _, row)).

Definition set_pending (f : list PendingMessage → list PendingMessage) (db : ADB) : ADB :=
  mkADB (a_permits db) (a_sessions db) (f (a_pending db)) (a_turns db) (a_receipts db) (a_now db).
Definition set_turns (f : list AgentTurn → list AgentTurn) (db : ADB) : ADB :=
  mkADB (a_permits db) (a_sessions db) (a_pending db) (f (a_turns db)) (a_receipts db) (a_now db).

Definition at_key (session_id seq : Z) (m : PendingMessage) : bool := (pm_session_id m =? session_id) && (pm_seq m =? seq).
Definition turn_at (session_id seq : Z) (t : AgentTurn) : bool := (tu_session_id t =? session_id) && (tu_seq t =? seq).

Definition get_pending_message (db : ADB) (session_id seq : Z) : option PendingMessage :=
  find_first (at_key session_id seq) (a_pending db).
Definition put_pending (m : PendingMessage) : ADB → ADB :=
  set_pending (update_where (at_key (pm_session_id m) (pm_seq m)) (λ _, m)).
Definition delete_pending (m : PendingMessage) : ADB → ADB :=
  set_pending (filter (λ x, at_key (pm_session_id m) (pm_seq m) x = false)).

Definition get_turn (db : ADB) (session_id seq : Z) : option AgentTurn :=
  find_first (turn_at session_id seq) (a_turns db).
Definition put_turn (t : AgentTurn) : ADB → ADB :=
  set_turns (update_where (turn_at (tu_session_id t) (tu_seq t)) (λ _, t)).
Definition delete_turn (t : option AgentTurn) (db : ADB) : ADB :=
  match t with
  | Some t => set_turns (filter (λ x, turn_at (tu_session_id t) (tu_seq t) x = false)) db
  | None => db
  end.
(** The unique constraint on session and sequence number. *)
Definition add_turn (t : AgentTurn) (db : ADB) : res ADB :=
  match get_turn db (tu_session_id t) (tu_seq t) with
  | Some _ => integrity_error
  | None => Ok (set_turns (λ l, l ++ [t]) db)
  end.

(** The first message of the lane, by sequence number. *)
Fixpoint first_by_seq (l : list PendingMessage) : option PendingMessage :=
  match l with
  | [] => None
  | m :: l =>
      match first_by_seq l with
      | Some n => Some (if pm_seq n <? pm_seq m then n else m)
      | None => Some m
      end
  end.
Definition lane (db : ADB) (session_id : Z) : list PendingMessage :=
  filter (λ m, pm_session_id m = session_id) (a_pending db).
Definition head_pending (db : ADB) (session_id : Z) : option PendingMessage := first_by_seq (lane db session_id).

Definition interrupted (t : AgentTurn) : bool :=
  match tu_terminal_reason t with Some r => str_in r INTERRUPTED_TERMINAL_REASONS | None => false end.
(** A turn that ended: not an interrupted attempt. *)
Definition finished (t : option AgentTurn) : bool := match t with Some t => negb (interrupted t) | None => false end.

(** ** Updates of a row *)

Definition with_status (status : string) (s : AgentSession) : AgentSession :=
  mkSession (as_id s) (as_local_session_id s) (as_workflow_id s) (as_node_key s) (as_admission_tier s) (as_model s)
    status (as_result_receipt_fence_id s) (as_guest_cleanup_id s) (as_guest_cleanup_guest_id s) (as_ember_session_id s)
    (as_binding s) (as_cleanup s) (as_detail s).
Definition with_fence (fence : option string) (s : AgentSession) : AgentSession :=
  mkSession (as_id s) (as_local_session_id s) (as_workflow_id s) (as_node_key s) (as_admission_tier s) (as_model s)
    (as_status s) fence (as_guest_cleanup_id s) (as_guest_cleanup_guest_id s) (as_ember_session_id s)
    (as_binding s) (as_cleanup s) (as_detail s).
Definition with_guest (guest : option string) (b : Binding) (s : AgentSession) : AgentSession :=
  mkSession (as_id s) (as_local_session_id s) (as_workflow_id s) (as_node_key s) (as_admission_tier s) (as_model s)
    (as_status s) (as_result_receipt_fence_id s) (as_guest_cleanup_id s) (as_guest_cleanup_guest_id s) guest
    b (as_cleanup s) (as_detail s).
Definition with_cleanup (id guest : option string) (c : CleanupClaim) (s : AgentSession) : AgentSession :=
  mkSession (as_id s) (as_local_session_id s) (as_workflow_id s) (as_node_key s) (as_admission_tier s) (as_model s)
    (as_status s) (as_result_receipt_fence_id s) id guest (as_ember_session_id s) (as_binding s) c (as_detail s).
Definition with_detail (f : SessionDetail → SessionDetail) (s : AgentSession) : AgentSession :=
  mkSession (as_id s) (as_local_session_id s) (as_workflow_id s) (as_node_key s) (as_admission_tier s) (as_model s)
    (as_status s) (as_result_receipt_fence_id s) (as_guest_cleanup_id s) (as_guest_cleanup_guest_id s)
    (as_ember_session_id s) (as_binding s) (as_cleanup s) (f (as_detail s)).

Definition d_last_turn (now : Z) (d : SessionDetail) : SessionDetail :=
  mkDetail (sd_repo d) (sd_node_attempt d) (sd_capture_evidence_ttl_seconds d) (sd_progress_token d) (sd_recall_pending d)
    (sd_voice_summary d) now (sd_recovery_workspace_loss d) (sd_recovery_completed_at d).
Definition d_summary (summary : string) (d : SessionDetail) : SessionDetail :=
  mkDetail (sd_repo d) (sd_node_attempt d) (sd_capture_evidence_ttl_seconds d) (sd_progress_token d) (sd_recall_pending d)
    (Some summary) (sd_last_turn_at d) (sd_recovery_workspace_loss d) (sd_recovery_completed_at d).
Definition d_token (token : option string) (d : SessionDetail) : SessionDetail :=
  mkDetail (sd_repo d) (sd_node_attempt d) (sd_capture_evidence_ttl_seconds d) token (sd_recall_pending d)
    (sd_voice_summary d) (sd_last_turn_at d) (sd_recovery_workspace_loss d) (sd_recovery_completed_at d).
Definition d_recalled (d : SessionDetail) : SessionDetail :=
  mkDetail (sd_repo d) (sd_node_attempt d) (sd_capture_evidence_ttl_seconds d) (sd_progress_token d) false
    (sd_voice_summary d) (sd_last_turn_at d) (sd_recovery_workspace_loss d) (sd_recovery_completed_at d).
Definition d_recovery (loss : option bool) (completed : option Z) (d : SessionDetail) : SessionDetail :=
  mkDetail (sd_repo d) (sd_node_attempt d) (sd_capture_evidence_ttl_seconds d) (sd_progress_token d) (sd_recall_pending d)
    (sd_voice_summary d) (sd_last_turn_at d) loss completed.

(** [row.status], [row.voice_summary] and [row.last_turn_at] together. *)
Definition reported (status summary : string) (now : Z) (s : AgentSession) : AgentSession :=
  with_status status (with_detail (d_last_turn now ∘ d_summary summary) s).

Definition with_claim (owner : option string) (claimed_at : option Z) (m : PendingMessage) : PendingMessage :=
  mkPending (pm_session_id m) (pm_seq m) (pm_model m) owner (pm_dispatch_count m) (pm_last_dispatch_at m) (pm_partial_text m)
    (pm_partial_activities m) (pm_message_text m) claimed_at (pm_created_at m) (pm_capacity_started_at m)
    (pm_capacity_state m) (pm_capacity_intent_json m).
Definition unclaimed : PendingMessage → PendingMessage := with_claim None None.
Definition with_progress (text activities : option string) (m : PendingMessage) : PendingMessage :=
  mkPending (pm_session_id m) (pm_seq m) (pm_model m) (pm_claimed_by_replica m) (pm_dispatch_count m) (pm_last_dispatch_at m)
    text activities (pm_message_text m) (pm_claimed_at m) (pm_created_at m) (pm_capacity_started_at m)
    (pm_capacity_state m) (pm_capacity_intent_json m).
Definition with_intent (intent : option jtext) (m : PendingMessage) : PendingMessage :=
  mkPending (pm_session_id m) (pm_seq m) (pm_model m) (pm_claimed_by_replica m) (pm_dispatch_count m) (pm_last_dispatch_at m)
    (pm_partial_text m) (pm_partial_activities m) (pm_message_text m) (pm_claimed_at m) (pm_created_at m)
    (pm_capacity_started_at m) (pm_capacity_state m) intent.
(** One more physical dispatch, by [replica_id]. *)
Definition dispatched (replica_id : string) (now : Z) (m : PendingMessage) : PendingMessage :=
  mkPending (pm_session_id m) (pm_seq m) (pm_model m) (Some replica_id) (pm_dispatch_count m + 1) (Some now)
    (pm_partial_text m) (pm_partial_activities m) (pm_message_text m) (Some now) (pm_created_at m)
    (pm_capacity_started_at m) (pm_capacity_state m) (pm_capacity_intent_json m).

Definition with_usage (usage : option jtext) (t : AgentTurn) : AgentTurn :=
  mkTurn (tu_session_id t) (tu_seq t) (tu_stop_reason t) (tu_terminal_reason t) (tu_result_text t) usage (tu_detail t).

(** ** Unknown outcomes *)

Definition unknown_turn (session_id : Z) (t : AgentTurn) : bool :=
  (tu_session_id t =? session_id) && bool_decide (tu_stop_reason t = Some UNKNOWN_INVOCATION).
Definition uncertain_permit (session_id : Z) (p : Permit) : bool :=
  bool_decide (cr_session_id p = Some session_id) && bool_decide (cr_state p = "uncertain"%string).
(** [_unknown_outcome_exists]. *)
Definition has_unknown_outcome (db : ADB) (session_id : Z) : bool :=
  existsb (unknown_turn session_id) (a_turns db) || existsb (uncertain_permit session_id) (a_permits db).
Definition has_unknown_outcome_for_turn (db : ADB) (session_id turn_seq : Z) : bool :=
  existsb (λ t, unknown_turn session_id t && (tu_seq t =? turn_seq)) (a_turns db) ||
  existsb (λ p, uncertain_permit session_id p && (cr_pending_seq p =? turn_seq)) (a_permits db).

Inductive Unsendable := OutcomeUnknown | StartCancelled.
Definition unsendable (db : ADB) (session_id : Z) : option Unsendable :=
  if has_unknown_outcome db session_id then Some OutcomeUnknown
  else if existsb (λ p, bool_decide (cr_session_id p = Some session_id) &&
                        bool_decide (cr_outcome p = Some "cancelled_before_enqueue"%string)) (a_permits db)
  then Some StartCancelled else None.
Definition _assert_sendable (db : ADB) (session_id : Z) : res unit :=
  match unsendable db session_id with
  | None => Ok tt
  | Some OutcomeUnknown => Raise (ValueError UNKNOWN_INVOCATION_MESSAGE)
  | Some StartCancelled => claim_lost "Session start was cancelled before enqueue"
  end.

Definition _bound_zero_turn_cleanup_pending (s : AgentSession) : bool :=
  match as_guest_cleanup_id s with Some c => startswith BOUND_ZERO_TURN_CLEANUP_PREFIX c | None => false end.

Definition _assert_guest_reusable (db : ADB) (row : AgentSession) (guest_id : option string) : res unit :=
  if cleanup_pending db row || guest_has_cleanup_claim db guest_id then claim_lost "Workflow cleanup owns the guest"
  else if is_set (as_result_receipt_fence_id row)
  then claim_lost "The previous native result still owns its transport observer" else Ok tt.

(** [_attempted]: truth of each field, so an empty text is no evidence. *)
Definition _attempted (m : PendingMessage) : bool :=
  negb (pm_dispatch_count m =? 0) || is_set (pm_last_dispatch_at m) || text_set (pm_claimed_by_replica m) ||
  text_set (pm_partial_text m) || text_set (pm_partial_activities m).

(** ** Evidence kept with a turn *)

Definition CLOCKS : pyval := PDict
  [("queued_at", PStr "monolith_wall"); ("dispatched_at", PStr "database_transaction_start");
   ("recorded_at", PStr "monolith_wall"); ("queue_wait_ms", PStr "monolith_wall+database_transaction_start");
   ("executor_elapsed_ms", PStr "executor_monotonic"); ("runtime_duration_ms", PStr "guest_reported")]%string.
Definition plausible_duration (v : pyval) : pyval :=
  match v with PInt n => if (0 <=? n) && (n <? 7 * 24 * 60 * 60 * 1000) then v else PNone | _ => PNone end.
Definition turn_observation `{IsoFormat} (now : Z) (pending : option PendingMessage)
    (executor_elapsed_ms runtime_duration_ms : pyval) : pyval :=
  let queued : option Z := pm_created_at <$> pending in
  let dispatched : option Z := m ← pending; pm_last_dispatch_at m in
  let wait := match queued, dispatched with
              | Some q, Some d => if q <=? d then PInt ((d - q) / 1000) else PNone
              | _, _ => PNone
              end in
  PDict
    [("schema", PStr "turn-observation/1"); ("requested_model", opt_str (m ← pending; pm_model m));
     ("queued_at", iso_opt queued); ("dispatched_at", iso_opt dispatched); ("recorded_at", PStr (iso now));
     ("queue_wait_ms", wait);
     ("dispatch_count", match pending with Some m => PInt (pm_dispatch_count m) | None => PNone end);
     ("executor_elapsed_ms", executor_elapsed_ms); ("runtime_duration_ms", plausible_duration runtime_duration_ms);
     ("provider_retries", PNone); ("clocks", CLOCKS)]%string.

Definition progress_activities `{TurnText} (m : PendingMessage) : pyval :=
  match pm_partial_activities m with
  | Some t => if bool_decide (t = ""%string) then PList [] else default (PList []) (json_loads t)
  | None => PList []
  end.
Definition _progress_recovery `{TurnText, IsoFormat} (m : PendingMessage) (cause : string) : dict :=
  [("cause", PStr cause); ("dispatch_count", PInt (pm_dispatch_count m));
   ("last_dispatch_at", iso_opt (pm_last_dispatch_at m)); ("claim_owner", opt_str (pm_claimed_by_replica m));
   ("partial_text", opt_str (pm_partial_text m)); ("partial_activities", opt_str (pm_partial_activities m))]%string.
(** [_progress_usage], with what the caller adds under ["recovery"]. *)
Definition _progress_usage `{TurnText, IsoFormat} (now : Z) (m : PendingMessage) (cause : string) (recovery : dict) : dict :=
  [("observation", turn_observation now (Some m) PNone PNone); ("activities", progress_activities m);
   ("recovery", PDict (_progress_recovery m cause ++ recovery))]%string.
(** The attempt a new marker replaces. *)
Definition prior_interruption (existing : option AgentTurn) : dict :=
  match existing with
  | Some t => [("prior_interruption", PDict [("result_text", PStr (tu_result_text t)); ("usage_json", text_of (tu_usage_json t))])]%string
  | None => []
  end.

(** ** Turns *)

Record TurnFields := mkTurnFields
  { tf_prompt : string; tf_voice_summary : option string; tf_result_text : string; tf_terminal_reason : option string;
    tf_stop_reason : option string; tf_permission_denials : pyval; tf_usage : dict; tf_cost_usd : option spec_float;
    tf_model : option string; tf_diff_blob : option string; tf_diff_truncated : pyval; tf_diff_base_sha : pyval;
    tf_artifact_path : pyval; tf_artifact_blob : option string; tf_artifact_outcome : pyval }.
(** A list price that cannot be computed is left out. *)
Definition priced `{PriceBook} (model : option string) (usage : dict) (cost : option spec_float) : option spec_float :=
  match list_price_usd model (Some usage) cost with Ok p => p | Raise _ => None end.
Definition create_turn `{TurnText, PriceBook} (session_id seq : Z) (f : TurnFields) (db : ADB) : res ADB :=
  add_turn (mkTurn session_id seq (tf_stop_reason f) (tf_terminal_reason f) (tf_result_text f)
    (Some (encoded (sanitize_payload (PDict (tf_usage f)))))
    (mkTurnDetail (tf_prompt f) (tf_model f) (tf_voice_summary f) (tf_permission_denials f) None (tf_cost_usd f)
       (priced (tf_model f) (tf_usage f) (tf_cost_usd f)) (tf_diff_blob f) (tf_diff_truncated f) (tf_diff_base_sha f)
       (tf_artifact_path f) (tf_artifact_blob f) (tf_artifact_outcome f))) db.
(** A turn the store writes itself: no cost, no diff, no artifact. *)
Definition marker_turn (m : PendingMessage) (summary fallback terminal : string) (stop : option string) (usage : dict) : TurnFields :=
  mkTurnFields (pm_message_text m) (Some summary)
    (match pm_partial_text m with Some t => if bool_decide (t = ""%string) then fallback else t | None => fallback end)
    (Some terminal) stop (PList []) usage None (pm_model m) None (PBool false) PNone PNone None PNone.

(** ** The end of an unobserved attempt *)

Definition _finish_unknown_locked `{TurnText, IsoFormat} (row : AgentSession) (pending : PendingMessage) (cause : string)
    (db : ADB) : res ADB :=
  let existing := get_turn db (as_id row) (pm_seq pending) in
  if finished existing then Ok (delete_pending pending db) else
  let settled := settle row (pm_seq pending) (Some cause) false db in
  let usage := _progress_usage (a_now db) pending cause [] ++ prior_interruption existing in
  let f := marker_turn pending UNKNOWN_INVOCATION_MESSAGE UNKNOWN_INVOCATION_MESSAGE "error" (Some UNKNOWN_INVOCATION) usage in
  db ← add_turn (mkTurn (as_id row) (pm_seq pending) (tf_stop_reason f) (tf_terminal_reason f) (tf_result_text f)
         (Some (encoded (sanitize_payload (PDict usage))))
         (mkTurnDetail (tf_prompt f) (tf_model f) (tf_voice_summary f) (tf_permission_denials f) None None None None
            (PBool false) PNone PNone None PNone)) (delete_turn existing settled);
  let row := with_detail (d_token None ∘ (λ d, d_recovery None (sd_recovery_completed_at d) d))
               (reported "failed" UNKNOWN_INVOCATION_MESSAGE (a_now db) row) in
  Ok (delete_pending pending (put_session row db)).

Definition expected_attempt (row : AgentSession) (pending : PendingMessage) (guest workflow owner : option string) (count : Z) : bool :=
  bool_decide (as_ember_session_id row = guest) && bool_decide (as_workflow_id row = workflow) &&
  bool_decide (pm_claimed_by_replica pending = owner) && (pm_dispatch_count pending =? count).
Definition finish_unknown_pending_in_session `{TurnText, IsoFormat} (session_id turn_seq : Z) (claim_owner : option string)
    (dispatch_count : Z) (cause : string) (expected_guest_id expected_workflow_id : option string) : tx ADB bool := λ db,
  match get_session db session_id, get_pending_message db session_id turn_seq with
  | Some row, Some pending =>
      if _bound_zero_turn_cleanup_pending row ||
         negb (expected_attempt row pending expected_guest_id expected_workflow_id claim_owner dispatch_count) ||
         finished (get_turn db session_id turn_seq)
      then Ok (false, db)
      else db ← _finish_unknown_locked row pending cause db; Ok (true, db)
  | _, _ => Ok (false, db)
  end.
