(* ===== verification/TurnDispatch.v ===== *)
(** * Turn store: claims, grants and response-loss holds

    The life of a queued message in [factory/execution/store.py]: enqueue, claim,
    heartbeat, release, preemption, error, lease expiry, and the hold over an
    attempt whose response was lost while its guest kept working. *)

From Stdlib Require Import SpecFloat.
From stdpp Require Import prelude list strings.
From S2P Require Import Prelude PyValue WorkItems PolicyData Pricing Admission TurnStore.
Local Open Scope Z_scope.

(** ** Retry grants *)

(** One more dispatch is granted for the exact attempt the turn names. *)
Definition _retry_permission (turn : option AgentTurn) (pending : PendingMessage) : bool :=
  match turn with
  | Some t =>
      if negb (interrupted t) then false else
      match loads_or (PDict []) (tu_usage_json t) with
      | Some (PDict usage) =>
          (0 <? pm_dispatch_count pending) &&
          py_eq (dict_get "retry_dispatch_count" usage) (PInt (pm_dispatch_count pending)) &&
          (bool_decide (tu_stop_reason t = Some "brick_preempted"%string) ||
           bool_decide (tu_terminal_reason t = Some "interrupted_for_drain"%string)) &&
          (pm_dispatch_count pending <? MAX_PENDING_DISPATCHES)
      | _ => false
      end
  | None => false
  end.

(** ** Response-loss holds *)

Definition _hold_timestamp `{TurnText, IsoFormat} (v : pyval) : option datetime :=
  assume_utc <$> parse_iso (match v with PStr s => s | _ => str_other v end).

(** [json.loads(turn.usage_json or "{}").get("recovery", {})] when it is a dict. *)
Definition recovery_of (t : AgentTurn) : res (option dict) :=
  match loads_or (PDict []) (tu_usage_json t) with
  | Some (PDict usage) => match get_or "recovery" (PDict []) usage with PDict r => Ok (Some r) | _ => Ok None end
  | Some _ => Raise AttributeError
  | None => Ok None
  end.
Definition is_str (v : pyval) : bool := match v with PStr _ => true | _ => false end.
(** The hold of this owner and dispatch count. *)
Definition hold_of (recovery : dict) (owner : pyval) (dispatch_count : Z) : option dict :=
  match dict_get "response_lost" recovery with
  | PDict hold =>
      if py_eq (dict_get "claim_owner" recovery) owner &&
         py_eq (dict_get "dispatch_count" recovery) (PInt dispatch_count) &&
         is_str (dict_get "receipt_id" hold) && is_str (dict_get "guest_id" hold)
      then Some hold else None
  | _ => None
  end.
Definition lost_marker (t : AgentTurn) : bool := interrupted t && bool_decide (tu_stop_reason t = Some RESPONSE_LOST).

Definition _covered_response_lost_hold (existing : option AgentTurn) (claim_owner : string) (dispatch_count : Z) : res bool :=
  match existing with
  | Some t =>
      if negb (lost_marker t) then Ok false else
      recovery ← recovery_of t;
      Ok (match recovery with Some r => is_set (hold_of r (PStr claim_owner) dispatch_count) | None => false end)
  | None => Ok false
  end.

Definition _response_lost_hold `{TurnText, IsoFormat} (now : Z) (turn : option AgentTurn) (pending : PendingMessage)
    : res (option dict) :=
  match turn, pm_claimed_by_replica pending with
  | Some t, Some owner =>
      if negb (tu_seq t =? pm_seq pending) || negb (lost_marker t) then Ok None else
      recovery ← recovery_of t;
      match recovery with
      | None => Ok None
      | Some r =>
          match hold_of r (PStr owner) (pm_dispatch_count pending) with
          | None => Ok None
          | Some hold =>
              match _hold_timestamp (dict_get "hold_until" hold) with
              | Some until =>
                  Ok (if instant until <=? now then None else
                      Some (dict_update hold
                        [("session_id", PInt (pm_session_id pending)); ("seq", PInt (pm_seq pending));
                         ("claim_owner", dict_get "claim_owner" r); ("dispatch_count", dict_get "dispatch_count" r);
                         ("prompt", PStr (pm_message_text pending)); ("model", opt_str (pm_model pending));
                         ("hold_until", PStr (isoformat until))]%string))
              | None => Ok None
              end
          end
      end
  | _, _ => Ok None
  end.

(** [int(f)]. *)
Definition truncated (f : spec_float) : Z :=
  match f with
  | S754_finite s m e =>
      let z := if s then Z.neg m else Z.pos m in
      if 0 <=? e then z * 2 ^ e else Z.quot z (2 ^ (- e))
  | _ => 0
  end.
Definition round_even (f : spec_float) : Z :=
  match f with
  | S754_finite s m e =>
      let z := if s then Z.neg m else Z.pos m in
      if 0 <=? e then z * 2 ^ e else nearest z (2 ^ (- e))
  | _ => 0
  end.
(** [timedelta(seconds=f)] in microseconds. *)
Definition microseconds (f : spec_float) : Z :=
  truncated f * 1000000 + round_even (fmul (fsub f (f_of_Z (truncated f))) (f_of_Z 1000000)).
(** [int(t.timestamp() * 1000)], through a float. *)
Definition milliseconds (t : Z) : Z := truncated (fmul (ratio (t <? 0) t 1000000) (f_of_Z 1000)).

(** What the writer of a hold knows of the invocation. *)
Record LostResponse := mkLost
  { lr_receipt_id : string; lr_guest_id : string; lr_reason : string; lr_source : string; lr_generation : pyval;
    lr_invoke_started_at : pyval; lr_request_sha256 : option string; lr_cli_session_id : option string;
    lr_artifact_path : option string }.
Definition hold_json `{IsoFormat} (now deadline : Z) (l : LostResponse) : dict :=
  [("reason", PStr (lr_reason l)); ("source", PStr (lr_source l)); ("receipt_id", PStr (lr_receipt_id l));
   ("guest_id", PStr (lr_guest_id l)); ("generation", lr_generation l); ("invoke_started_at", lr_invoke_started_at l);
   ("request_sha256", opt_str (lr_request_sha256 l)); ("cli_session_id", opt_str (lr_cli_session_id l));
   ("artifact_path", opt_str (lr_artifact_path l)); ("held_at", PStr (iso now)); ("hold_until", PStr (iso deadline))]%string.
Definition _write_response_lost_locked `{TurnText, IsoFormat, PriceBook} (sess : AgentSession) (pending : PendingMessage)
    (existing : option AgentTurn) (bound : spec_float) (l : LostResponse) (hold_until : option Z) (db : ADB) : res ADB :=
  let now := a_now db in
  let deadline := now + microseconds bound in
  let deadline := match hold_until with Some h => Z.min deadline h | None => deadline end in
  let usage := _progress_usage now pending (lr_reason l)
      [("invocation_phase", PStr RESPONSE_LOST); ("response_lost", PDict (hold_json now deadline l))]%string ++
    prior_interruption existing in
  db ← create_turn (as_id sess) (pm_seq pending)
         (marker_turn pending "Recovering a lost turn response" RESPONSE_LOST_MESSAGE "interrupted" (Some RESPONSE_LOST) usage)
         (delete_turn existing db);
  Ok (put_session (reported "recovering" "Recovering a lost turn response" now sess) db).

(** The permit of the attempt, still open under its owner. *)
Definition open_permit (db : ADB) (sess : AgentSession) (seq : Z) (owner : option string) : option Permit :=
  match reservation db (as_local_session_id sess) seq with
  | Some p =>
      if bool_decide (cr_session_id p = Some (as_id sess)) && bool_decide (cr_owner p = owner) &&
         str_in (cr_state p) ["reserved"; "running"] then Some p else None
  | None => None
  end.

Definition type_int (v : pyval) : bool := match v with PInt _ => true | _ => false end.
Definition at_least_int (low : Z) (v : pyval) : bool := match v with PInt n => low <=? n | _ => false end.
Definition half_identity (generation invoke_started_at : pyval) : bool :=
  negb (Bool.eqb (is_none generation) (is_none invoke_started_at)) ||
  negb (is_none generation) && negb (at_least_int 0 generation && at_least_int 1 invoke_started_at).

Definition mark_turn_response_lost_sync `{TurnText, IsoFormat, PriceBook} (session_id turn_seq : Z) (claim_owner : string)
    (dispatch_count : Z) (l : LostResponse) (hold_seconds : pyval) : tx ADB bool := λ db,
  if (dispatch_count <? 1) || bool_decide (claim_owner = ""%string) || bool_decide (lr_receipt_id l = ""%string) ||
     bool_decide (lr_guest_id l = ""%string) || half_identity (lr_generation l) (lr_invoke_started_at l)
  then Ok (false, db) else
  seconds ← to_float hold_seconds;
  let backstop := f_of_Z RESPONSE_LOST_BACKSTOP_SECONDS in
  let bound := if flt backstop seconds then backstop else seconds in
  if negb (flt fzero bound) then Ok (false, db) else
  match get_session db session_id, get_pending_message db session_id turn_seq with
  | Some sess, Some pending =>
      if negb (bool_decide (pm_claimed_by_replica pending = Some claim_owner)) ||
         negb (pm_dispatch_count pending =? dispatch_count) ||
         negb (bool_decide (as_ember_session_id sess = Some (lr_guest_id l))) ||
         is_set (as_result_receipt_fence_id sess) || has_unknown_outcome db session_id || cleanup_pending db sess
      then Ok (false, db) else
      match open_permit db sess turn_seq (Some claim_owner) with
      | None => Ok (false, db)
      | Some _ =>
          let existing := get_turn db session_id turn_seq in
          if finished existing then Ok (false, db) else
          covered ← _covered_response_lost_hold existing claim_owner dispatch_count;
          if (covered : bool) then Ok (true, db) else
          db ← _write_response_lost_locked sess pending existing bound l None db; Ok (true, db)
      end
  | _, _ => Ok (false, db)
  end.

(** The receipts a stale claim may wait for. *)
Definition exact_receipt (now : Z) (sess : AgentSession) (guest : string) (pending : PendingMessage) (r : AgentResultReceipt) : bool :=
  (rr_session_id r =? as_id sess) && (rr_seq r =? pm_seq pending) && (rr_dispatch_count r =? pm_dispatch_count pending) &&
  bool_decide (Some (rr_claim_owner r) = pm_claimed_by_replica pending) && bool_decide (rr_guest_id r = guest) &&
  bool_decide (rr_local_session_id r = as_local_session_id sess) && negb (is_set (rr_superseded_at r)) &&
  negb (is_set (rr_response_observed_at r)) && (now <? rr_retain_until r).
(** [None]: not held. *)
Definition _hold_lease_expired_response `{TurnText, IsoFormat, PriceBook} (sess : AgentSession) (pending : PendingMessage)
    (existing : option AgentTurn) (db : ADB) : res (option ADB) :=
  match as_ember_session_id sess with
  | None => Ok None
  | Some guest =>
      if is_set (as_result_receipt_fence_id sess) || finished existing ||
         match existing with Some t => bool_decide (tu_stop_reason t = Some RESPONSE_LOST) | None => false end ||
         has_unknown_outcome db (as_id sess) || cleanup_pending db sess
      then Ok None else
      match open_permit db sess (pm_seq pending) (pm_claimed_by_replica pending),
            filter (λ r, exact_receipt (a_now db) sess guest pending r = true) (a_receipts db) with
      | Some permit, [receipt] =>
          let unpublished := negb (is_set (rr_result_sha256 receipt)) in
          if unpublished && (negb (bool_decide (cr_state permit = "running"%string)) || (rr_accept_until receipt <=? a_now db))
          then Ok None else
          db ← _write_response_lost_locked sess pending existing (f_of_Z RESPONSE_LOST_BACKSTOP_SECONDS)
                 (mkLost (rr_id receipt) guest "lease_expired" "lease_backstop" PNone PNone None
                    (bd_cli_session_id (as_binding sess)) None)
                 (if unpublished then Some (rr_accept_until receipt) else None) db;
          Ok (Some db)
      | _, _ => Ok None
      end
  end.

(** ** The result fence of an ownerless session *)

Definition _ownerless_interactive_session (agent : AgentSession) : bool :=
  negb (is_set (as_workflow_id agent)) && bool_decide (as_admission_tier agent = "interactive"%string) &&
  negb (startswith "factory:" (as_local_session_id agent)).
Definition _newer_work_exists (db : ADB) (r : AgentResultReceipt) : bool :=
  existsb (λ m, (pm_session_id m =? rr_session_id r) && (rr_seq r <=? pm_seq m) &&
                ((rr_seq r <? pm_seq m) || negb (pm_dispatch_count m =? rr_dispatch_count r) ||
                 negb (bool_decide (pm_claimed_by_replica m = Some (rr_claim_owner r)) || negb (is_set (pm_claimed_by_replica m)))) &&
                ((0 <? pm_dispatch_count m) || is_set (pm_claimed_by_replica m))) (a_pending db) ||
  existsb (λ t, (tu_session_id t =? rr_session_id r) && (rr_seq r <? tu_seq t)) (a_turns db).
Definition release_ownerless_fence_locked (agent : AgentSession) (receipt_id : string) (db : ADB) : option (AgentSession * ADB) :=
  if negb (_ownerless_interactive_session agent) || bool_decide (receipt_id = ""%string) ||
     negb (bool_decide (as_result_receipt_fence_id agent = Some receipt_id)) then None else
  let released := let row := with_fence None agent in Some (row, put_session row db) in
  match find_first (λ r, bool_decide (rr_id r = receipt_id)) (a_receipts db) with
  | None => released
  | Some r =>
      if negb (rr_session_id r =? as_id agent) || negb (bool_decide (as_local_session_id agent = rr_local_session_id r)) ||
         negb (bool_decide (as_ember_session_id agent = Some (rr_guest_id r))) || negb (is_set (rr_received_at r)) ||
         is_set (rr_superseded_at r) || _newer_work_exists db r ||
         negb (is_set (rr_response_observed_at r)) && negb (is_set (rr_observer_released_at r)) &&
         (a_now db <? rr_accept_until r)
      then None else released
  end.

(** ** Enqueue *)

Definition max_seq (l : list Z) : Z := foldr Z.max 0 l.
Definition next_seq (db : ADB) (session_id : Z) : Z :=
  Z.max (max_seq (tu_seq <$> filter (λ t, tu_session_id t = session_id) (a_turns db)))
        (max_seq (pm_seq <$> lane db session_id)) + 1.
Definition live_checks (db : ADB) (row : AgentSession) : res unit :=
  if cleanup_pending db row then claim_lost "Workflow cleanup owns the correction guest" else
  if str_in (as_status row) ["failed"; "cancelled"] then claim_lost "Cannot send to a terminal agent session" else
  if str_in (as_status row) ["completed"; "warn"] && negb (text_set (as_ember_session_id row))
  then claim_lost "Correction guest is no longer bound" else Ok tt.
(** The lock serialises writers, so the number is free and one try is enough. *)
Definition create_pending_message (session_id : Z) (message_text : string) (model recall_message_text : option string)
    (require_live_session : bool) : tx ADB PendingMessage := λ db,
  match get_session db session_id with
  | None => Raise (ValueError "Unknown agent session")
  | Some row =>
      _ ← _assert_sendable db session_id;
      _ ← (if require_live_session then live_checks db row else Ok tt);
      let recall := if sd_recall_pending (as_detail row) then recall_message_text else None in
      let text := default message_text recall in
      let m := mkPending session_id (next_seq db session_id) model None 0 None None None (strip_nul text) None (a_now db)
                 None None None in
      let db := match recall with Some _ => put_session (with_detail d_recalled row) db | None => db end in
      Ok (m, set_pending (λ l, l ++ [m]) db)
  end.
Definition delete_pending_message_sync (session_id turn_seq : Z) (db : ADB) : ADB :=
  match get_pending_message db session_id turn_seq with Some m => delete_pending m db | None => db end.

(** ** Progress *)

Definition first_claimed (db : ADB) (session_id : Z) : option PendingMessage :=
  first_by_seq (filter (λ m, is_set (pm_claimed_by_replica m) = true) (lane db session_id)).
Definition write_progress_sync `{TurnText} (progress_token partial_text : string) (activities : option pyval) : tx ADB string := λ db,
  match find_first (λ s, bool_decide (sd_progress_token (as_detail s) = Some progress_token)) (a_sessions db) with
  | None => Ok ("unknown_token"%string, db)
  | Some row =>
      if _bound_zero_turn_cleanup_pending row then Ok ("unknown_token"%string, db) else
      match unsendable db (as_id row) with
      | Some OutcomeUnknown => Ok ("unknown_token"%string, db)
      | Some StartCancelled => claim_lost "Session start was cancelled before enqueue"
      | None =>
          match first_claimed db (as_id row) with
          | None => Ok ("no_row"%string, db)
          | Some m =>
              let kept := match activities with Some v => Some (json_dumps v) | None => pm_partial_activities m end in
              Ok ("ok"%string, put_pending (with_progress (Some partial_text) kept m) db)
          end
      end
  end.
Definition _persist_progress_token_sync (session_id : Z) (progress_token : string) : tx ADB unit := λ db,
  _ ← _assert_sendable db session_id;
  match get_session db session_id with
  | Some row =>
      if is_set (sd_progress_token (as_detail row)) then Ok (tt, db)
      else Ok (tt, put_session (with_detail (d_token (Some progress_token)) row) db)
  | None => Ok (tt, db)
  end.

(** ** Claim *)

(** [capacity_wait.handoff_context]. *)
Definition intent_set (m : PendingMessage) : bool :=
  match pm_capacity_intent_json m with Some t => negb (bool_decide (jt_text t = ""%string)) | None => false end.
Definition legacy_capacity (m : PendingMessage) : bool :=
  bool_decide (pm_capacity_state m = Some "legacy_unsupported"%string).
Definition handoff_context (m : PendingMessage) : res (option dict) :=
  if negb (intent_set m) || legacy_capacity m then Ok None else
  match loads_or PNone (pm_capacity_intent_json m) with
  | None => Raise (ValueError "json")
  | Some (PDict context) =>
      match assoc_get "state" context with
      | None => Raise (KeyError "state")
      | Some state => if py_eq state (PStr "ready") then Ok (Some context) else Raise (ValueError "Residency is not ready")
      end
  | Some _ => Raise TypeError
  end.
(** The dispatch a handed-over wait was claimed for. *)
Definition claimed_context `{TurnText, IsoFormat} (row : AgentSession) (m : PendingMessage) (replica_id : string)
    (retry_usage : pyval) (context : dict) : dict :=
  let n := PInt (pm_dispatch_count m + 1) in
  dict_update context
    [("claimed_dispatch_count", n);
     ("claimed_dispatch_id", PStr (exact_dispatch_id
        [PInt (as_id row); opt_str (as_ember_session_id row); PInt (pm_seq m); PStr replica_id; n]));
     ("claim_snapshot", PDict
        [("capacity_started_at", iso_opt (pm_capacity_started_at m)); ("dispatch_count", PInt (pm_dispatch_count m));
         ("last_dispatch_at", iso_opt (pm_last_dispatch_at m)); ("retry_usage", retry_usage)])]%string.

(** The grant is taken out of the turn that carried it. *)
Definition consume_grant `{TurnText} (previous : option AgentTurn) (db : ADB) : ADB :=
  match previous with
  | Some t =>
      match loads_or (PDict []) (tu_usage_json t) with
      | Some (PDict usage) =>
          put_turn (with_usage (Some (encoded (PDict (filter (λ p, p.1 ≠ "retry_dispatch_count"%string) usage)))) t) db
      | _ => db
      end
  | None => db
  end.

(** A message no waiting capacity holds back. *)
Definition claimable (m : PendingMessage) : bool :=
  negb (is_set (pm_claimed_by_replica m)) &&
  negb (intent_set m && negb (match pm_capacity_state m with Some s => str_in s ["ready"; "legacy_unsupported"] | None => false end)).
(** The session's own state allows a claim; an ownerless fence may be lifted for it. *)
Definition open_session (session_id : Z) (db : ADB) : option (AgentSession * ADB) :=
  match get_session db session_id with
  | None => None
  | Some row =>
      if str_in (as_status row) ["awaiting_login"; "failed"] || cleanup_pending db row then None else
      match as_result_receipt_fence_id row with
      | Some fence => release_ownerless_fence_locked row fence db
      | None => Some (row, db)
      end
  end.
Definition clear_completed (row : AgentSession) : AgentSession :=
  with_detail (λ d, d_recovery (sd_recovery_workspace_loss d) None d) row.
(** The claimed lane head, admitted under its permit. *)
Definition claim_head `{TurnText, IsoFormat, Environ, AdmissionHooks} (row : AgentSession) (pending : PendingMessage)
    (replica_id : string) (previous : option AgentTurn) (context : option dict) : tx ADB (option Z) := λ db,
  '(granted, db) ← claim_pending row pending replica_id db;
  if negb granted then Ok (None, db) else
  let kept := match context with
              | Some c => let usage := match previous with Some t => text_of (tu_usage_json t) | None => PNone end in
                          with_intent (Some (encoded (PDict (claimed_context row pending replica_id usage c)))) pending
              | None => pending
              end in
  let db := if _attempted pending then consume_grant previous db else db in
  Ok (Some (pm_seq pending), put_session (clear_completed row) (put_pending (dispatched replica_id (a_now db) kept) db)).
(** [None] without a commit leaves the rows as they were. *)
Definition claim_pending_message_for_session_sync `{TurnText, IsoFormat, Environ, AdmissionHooks} (session_id : Z)
    (replica_id : string) : tx ADB (option Z) := λ db0,
  match open_session session_id db0 with
  | None => Ok (None, db0)
  | Some (row, db) =>
      match unsendable db session_id with
      | Some OutcomeUnknown => Ok (None, db0)
      | Some StartCancelled => claim_lost "Session start was cancelled before enqueue"
      | None =>
          match head_pending db session_id with
          | None => Ok (None, db0)
          | Some pending =>
              if negb (claimable pending) then Ok (None, db0) else
              context ← handoff_context pending;
              let previous := get_turn db session_id (pm_seq pending) in
              if _attempted pending then
                if _retry_permission previous pending then claim_head row pending replica_id previous context db
                else db ← _finish_unknown_locked row pending "unclaimed_attempt" db; Ok (None, db)
              else if bool_decide (as_status row = "recovering"%string) then Ok (None, db0)
              else claim_head row pending replica_id previous context db
          end
      end
  end.

(** ** Release, heartbeat and lease expiry *)

Definition release_pending_message_claim_sync `{TurnText, IsoFormat} (session_id turn_seq : Z) (replica_id cause : string)
    (dispatch_count : option Z) : tx ADB bool := λ db,
  match get_session db session_id with
  | None => Ok (false, db)
  | Some row =>
      if _bound_zero_turn_cleanup_pending row then Ok (false, db) else
      match get_pending_message db session_id turn_seq with
      | None => Ok (has_unknown_outcome db session_id, db)
      | Some pending =>
          if negb (bool_decide (pm_claimed_by_replica pending = Some replica_id)) ||
             match dispatch_count with Some n => negb (pm_dispatch_count pending =? n) | None => false end
          then Ok (has_unknown_outcome db session_id, db) else
          let previous := get_turn db session_id turn_seq in
          hold ← _response_lost_hold (a_now db) previous pending;
          match hold with
          | Some _ => Ok (has_unknown_outcome db session_id, db)
          | None =>
              db ← (if _retry_permission previous pending then Ok (put_pending (unclaimed pending) db)
                    else _finish_unknown_locked row pending cause db);
              Ok (has_unknown_outcome db session_id, db)
          end
      end
  end.

(** The owner is matched inside the update, so a lease that was taken away is not revived. *)
Definition refresh_claim_sync (session_id turn_seq : Z) (replica_id : string) (db : ADB) : bool * ADB :=
  match get_session db session_id with
  | None => (false, db)
  | Some row =>
      if _bound_zero_turn_cleanup_pending row then (false, db) else
      match find_first (λ m, at_key session_id turn_seq m && bool_decide (pm_claimed_by_replica m = Some replica_id)) (a_pending db) with
      | Some m => (true, put_pending (with_claim (pm_claimed_by_replica m) (Some (a_now db)) m) db)
      | None => (false, db)
      end
  end.

Definition claimed_since (cutoff : Z) (m : PendingMessage) : bool :=
  is_set (pm_claimed_by_replica m) && match pm_claimed_at m with Some t => cutoff <? t | None => false end.
Definition _no_live_pending_claim (db : ADB) (session_id now : Z) : bool :=
  negb (existsb (claimed_since (now - RECLAIM_LEASE)) (lane db session_id)).
Definition stale (cutoff : Z) (m : PendingMessage) : bool :=
  is_set (pm_claimed_by_replica m) && match pm_claimed_at m with Some t => t <? cutoff | None => false end.

(** One candidate of the sweep, read again under its locks; whether it was reclaimed. *)
Definition reclaim_one `{TurnText, IsoFormat, PriceBook} (now : Z) (c : PendingMessage) : tx ADB bool := λ db,
  let cutoff := now - RECLAIM_LEASE in
  match get_session db (pm_session_id c),
        find_first (λ m, at_key (pm_session_id c) (pm_seq c) m &&
                         bool_decide (pm_claimed_by_replica m = pm_claimed_by_replica c) &&
                         (pm_dispatch_count m =? pm_dispatch_count c) && stale cutoff m) (a_pending db) with
  | Some row, Some pending =>
      if negb (_no_live_pending_claim db (pm_session_id c) now) || _bound_zero_turn_cleanup_pending row then Ok (false, db) else
      let previous := get_turn db (pm_session_id c) (pm_seq c) in
      hold ← _response_lost_hold now previous pending;
      match hold with
      | Some _ => Ok (false, db)
      | None =>
          if _retry_permission previous pending then Ok (true, put_pending (unclaimed pending) db) else
          held ← _hold_lease_expired_response row pending previous db;
          match held with
          | Some db => Ok (false, db)
          | None => db ← _finish_unknown_locked row pending "lease_expired" db; Ok (true, db)
          end
      end
  | _, _ => Ok (false, db)
  end.
Fixpoint reclaim_all `{TurnText, IsoFormat, PriceBook} (now : Z) (candidates : list PendingMessage) (reclaimed : Z) : tx ADB Z := λ db,
  match candidates with
  | [] => Ok (reclaimed, db)
  | c :: candidates =>
      '(done, db) ← reclaim_one now c db;
      reclaim_all now candidates (if (done : bool) then reclaimed + 1 else reclaimed) db
  end.
Definition reclaim_stale_claims_sync `{TurnText, IsoFormat, PriceBook} : tx ADB Z := λ db,
  reclaim_all (a_now db) (filter (λ m, stale (a_now db - RECLAIM_LEASE) m = true) (a_pending db)) 0 db.

(** ** Preemption and error *)

(** A new attempt marker in the place of the last one. *)
Definition replace_turn `{TurnText, PriceBook} (session_id turn_seq : Z) (existing : option AgentTurn) (f : TurnFields) (db : ADB) : res ADB :=
  create_turn session_id turn_seq f (delete_turn existing db).

Definition mark_turn_interrupted_sync `{TurnText, IsoFormat, PriceBook} (session_id turn_seq : Z) (claim_owner : option string)
    : tx ADB unit := λ db,
  match get_session db session_id, get_pending_message db session_id turn_seq with
  | Some sess, Some pending =>
      if _bound_zero_turn_cleanup_pending sess ||
         is_set claim_owner && negb (bool_decide (pm_claimed_by_replica pending = claim_owner)) then Ok (tt, db) else
      let existing := get_turn db session_id turn_seq in
      if finished existing then Ok (tt, db) else
      let usage := _progress_usage (a_now db) pending "brick_preempted" [] ++
        [("retry_dispatch_count"%string, PInt (pm_dispatch_count pending))] ++ prior_interruption existing in
      db ← replace_turn session_id turn_seq existing
             (marker_turn pending "Resuming after preemption" "The VM running this turn was preempted; the turn will be re-run."
                "interrupted" (Some "brick_preempted"%string) usage) db;
      Ok (tt, put_session (reported "recovering" "Resuming after preemption" (a_now db) sess) db)
  | _, _ => Ok (tt, db)
  end.

(** [preinvoke_failure.database_failure]. *)
Definition FAILURE_PHASES : list string :=
  ["receipt_admission"; "receipt_prepare"; "prepared_admission"; "receipt_promotion"; "promotion_admission"].
Definition FAILURE_SQLSTATES : list string := ["42703"; "42P01"; "40001"; "40P01"; "55P03"; "53300"; "57P01"; "08006"].
Definition database_failure (v : pyval) : option dict :=
  match v with
  | PDict d =>
      match dict_get "attempted" d, dict_get "phase" d, dict_get "sqlstate" d with
      | PBool false, PStr phase, PStr sqlstate =>
          if match assoc_get "version" d with None | Some (PInt 1) => true | _ => false end &&
             str_in phase FAILURE_PHASES && str_in sqlstate FAILURE_SQLSTATES
          then Some [("version", PInt 1); ("phase", PStr phase); ("sqlstate", PStr sqlstate); ("attempted", PBool false)]%string
          else None
      | _, _, _ => None
      end
  | _ => None
  end.

Record ErrorEvidence := mkErrorEvidence
  { ee_cessation_confirmed : bool; ee_invocation_not_attempted : bool; ee_dispatch_count : option Z;
    ee_preinvoke_database_failure : pyval }.
Definition not_invoked_recovery (e : ErrorEvidence) : dict :=
  if ee_invocation_not_attempted e then
    ("invocation_phase"%string, PStr "not_invoked") ::
    match ee_dispatch_count e, database_failure (ee_preinvoke_database_failure e) with
    | Some n, Some failure => if n =? 1 then [("database_failure"%string, PDict failure)] else []
    | _, _ => []
    end
  else [].
Definition mark_turn_error_sync `{TurnText, IsoFormat, PriceBook} (session_id turn_seq : Z) (error_msg : string)
    (claim_owner : option string) (e : ErrorEvidence) : tx ADB bool := λ db,
  if ee_invocation_not_attempted e && (negb (text_set claim_owner) || negb (is_set (ee_dispatch_count e)))
  then Raise (ValueError "Not-invoked evidence requires exact dispatch ownership") else
  match get_session db session_id, get_pending_message db session_id turn_seq with
  | Some sess, Some row =>
      if _bound_zero_turn_cleanup_pending sess ||
         is_set claim_owner && negb (bool_decide (pm_claimed_by_replica row = claim_owner)) ||
         match ee_dispatch_count e with Some n => negb (pm_dispatch_count row =? n) | None => false end
      then Ok (false, db) else
      let permit := reservation db (as_local_session_id sess) turn_seq in
      if ee_invocation_not_attempted e && negb (is_set (open_permit db sess turn_seq claim_owner)) then Ok (false, db) else
      let existing := get_turn db session_id turn_seq in
      if finished existing then Ok (false, delete_pending row db) else
      let summary := "Error: " +:+ String.substring 0 100 error_msg in
      let usage := _progress_usage (a_now db) row error_msg (not_invoked_recovery e) in
      db ← replace_turn session_id turn_seq existing
             (marker_turn row summary ("Error executing turn: " +:+ error_msg) "error" None usage) db;
      let sess := reported "warn" summary (a_now db) sess in
      let confirmed := ee_invocation_not_attempted e || ee_cessation_confirmed e ||
                       match permit with Some p => bool_decide (cr_state p = "reserved"%string) | None => false end in
      let db := settle sess turn_seq (Some (if ee_invocation_not_attempted e then "not_invoked" else "delivery_error")%string) confirmed db in
      Ok (true, delete_pending row (put_session sess db))
  | _, _ => Ok (false, db)
  end.

(** ** The end of a hold *)

Definition receipt_of (db : ADB) (id : pyval) : option AgentResultReceipt :=
  find_first (λ r, py_eq (PStr (rr_id r)) id) (a_receipts db).
(** The receipt is still there, and no result committed under it. *)
Definition awaits_result (db : ADB) (hold : dict) : bool :=
  match receipt_of db (dict_get "receipt_id" hold) with Some r => negb (is_set (rr_result_sha256 r)) | None => false end.
Definition bound_to (row : AgentSession) (hold : dict) : bool :=
  py_eq (opt_str (as_ember_session_id row)) (dict_get "guest_id" hold).
Definition read_response_lost_hold_sync `{TurnText, IsoFormat} (session_id : Z) (db : ADB) : res (option dict) :=
  match head_pending db session_id with
  | Some pending => _response_lost_hold (a_now db) (get_turn db session_id (pm_seq pending)) pending
  | None => Ok None
  end.

Definition settle_response_lost_hold `{TurnText, IsoFormat} (session_id : Z) (reason : string) (expected_hold : option dict)
    : tx ADB bool := λ db,
  match get_session db session_id, head_pending db session_id with
  | Some row, Some pending =>
      hold ← _response_lost_hold (a_now db) (get_turn db session_id (pm_seq pending)) pending;
      match hold with
      | None => Ok (false, db)
      | Some hold =>
          if match expected_hold with
             | Some expected => negb (py_eq (PDict hold) (PDict expected)) || negb (bound_to row hold) || negb (awaits_result db hold)
             | None => false
             end
          then Ok (false, db)
          else db ← _finish_unknown_locked row pending reason db; Ok (true, db)
      end
  | _, _ => Ok (false, db)
  end.

(** What a drained guest shows of the invoke it interrupted. *)
Record DrainEvidence := mkDrainEvidence
  { de_guest_id : string; de_dispatch_id : string; de_cli_session_id : string; de_transcript_path : string;
    de_generation : Z; de_invoke_started_at : Z; de_last_invoke_at : Z; de_state : string }.
Definition drain_json (e : DrainEvidence) : dict :=
  [("guest_id", PStr (de_guest_id e)); ("dispatch_id", PStr (de_dispatch_id e)); ("cli_session_id", PStr (de_cli_session_id e));
   ("transcript_path", PStr (de_transcript_path e)); ("generation", PInt (de_generation e));
   ("invoke_started_at", PInt (de_invoke_started_at e)); ("last_invoke_at", PInt (de_last_invoke_at e));
   ("state", PStr (de_state e))]%string.
Definition nonempty_str (v : pyval) : option string :=
  match v with PStr s => if bool_decide (s = ""%string) then None else Some s | _ => None end.
Definition recorded_matches (key : string) (observed : Z) (hold : dict) : bool :=
  let recorded := dict_get key hold in is_none recorded || py_eq recorded (PInt observed).
Definition response_lost_drain_evidence `{TurnText} (hold : dict) (view : pyval) : option DrainEvidence :=
  match view with
  | PDict v =>
      match dict_get "interrupted_turn" v, dict_get "generation" v, dict_get "invoke_started_at" v, dict_get "last_invoke_at" v,
            dict_get "guest_id" hold, dict_get "state" v with
      | PDict i, PInt generation, PInt started, PInt completed, PStr guest, PStr state =>
          match nonempty_str (dict_get "cli_session_id" i), nonempty_str (dict_get "transcript_path" i) with
          | Some cli, Some transcript =>
              let fields := [dict_get "session_id" hold; PStr guest; dict_get "seq" hold; dict_get "claim_owner" hold;
                             dict_get "dispatch_count" hold] in
              if forallb (λ k, has_key k hold) ["session_id"; "seq"; "claim_owner"; "dispatch_count"]%string &&
                 py_eq (dict_get "session_id" v) (PStr guest) && str_in state ["parked"; "banked"] &&
                 py_eq (dict_get "dispatch_id" i) (PStr (exact_dispatch_id fields)) &&
                 py_eq (get_or "seq" (dict_get "seq" hold) i) (dict_get "seq" hold) &&
                 (0 <=? generation) && (1 <=? started) && (started <=? completed) &&
                 recorded_matches "generation" generation hold && recorded_matches "invoke_started_at" started hold
              then Some (mkDrainEvidence guest (exact_dispatch_id fields) cli transcript generation started completed state)
              else None
          | _, _ => None
          end
      | _, _, _, _, _, _ => None
      end
  | _ => None
  end.

Definition relay_allowed (db : ADB) (row : AgentSession) (pending : PendingMessage) (hold expected : dict) (e : DrainEvidence) : bool :=
  py_eq (PDict hold) (PDict expected) && bound_to row hold && py_eq (PStr (de_guest_id e)) (dict_get "guest_id" hold) &&
  negb (is_set (as_result_receipt_fence_id row)) && negb (has_unknown_outcome db (as_id row)) && negb (cleanup_pending db row) &&
  (1 <=? pm_dispatch_count pending) && (pm_dispatch_count pending <? MAX_PENDING_DISPATCHES) &&
  match pm_last_dispatch_at pending with Some t => milliseconds t <? de_invoke_started_at e | None => false end &&
  awaits_result db hold &&
  match reservation db (as_local_session_id row) (pm_seq pending) with
  | Some p => bool_decide (cr_session_id p = Some (as_id row)) && str_in (cr_state p) ["reserved"; "running"]
  | None => false
  end.
Definition with_cli (cli : option string) (s : AgentSession) : AgentSession :=
  let b := as_binding s in
  with_guest (as_ember_session_id s) (mkBinding (bd_token b) (bd_expires_at b) (bd_lineage_id b) cli (bd_prior_lineage_id b)
    (bd_prior_cli_session_id b)) s.
Definition relay_response_lost_drain_sync `{TurnText, IsoFormat, PriceBook} (session_id : Z) (expected_hold : dict) (e : DrainEvidence)
    : tx ADB bool := λ db,
  match get_session db session_id, head_pending db session_id with
  | Some row, Some pending =>
      if _bound_zero_turn_cleanup_pending row then Ok (false, db) else
      let turn := get_turn db session_id (pm_seq pending) in
      hold ← _response_lost_hold (a_now db) turn pending;
      match hold with
      | None => Ok (false, db)
      | Some hold =>
          if negb (relay_allowed db row pending hold expected_hold e) then Ok (false, db) else
          let drain := dict_update [("receipt_id", dict_get "receipt_id" hold); ("hold_reason", dict_get "reason" hold)]%string (drain_json e) in
          let usage := _progress_usage (a_now db) pending "response_lost_drain_relay" [("response_lost_drain"%string, PDict drain)] ++
            [("retry_dispatch_count"%string, PInt (pm_dispatch_count pending))] ++ prior_interruption turn in
          db ← replace_turn session_id (pm_seq pending) turn
                 (marker_turn pending "Resuming after a drain"
                    "A brick drain interrupted this turn; it will resume on the same guest." "interrupted_for_drain"
                    (Some "interrupted_for_drain"%string) usage) db;
          let row := with_cli (Some (de_cli_session_id e)) (reported "recovering" "Resuming after a drain" (a_now db) row) in
          Ok (true, put_pending (with_progress None None (unclaimed pending)) (put_session row db))
      end
  | _, _ => Ok (false, db)
  end.
