(* ===== verification/TurnGuest.v ===== *)
(** * Turn store: sessions, guest bindings, cleanup and recovery

    The session row of [factory/execution/store.py]: creation, the guest bound to
    it, the claim under which a workflow destroys that guest, the recovery of a
    lane whose first turn never ran, and the start that is cancelled before
    anything was queued. *)

From Stdlib Require Import SpecFloat.
From stdpp Require Import prelude list strings pretty.
From S2P Require Import Prelude PyValue WorkItems PolicyData Pricing Admission TurnStore TurnDispatch.
Local Open Scope Z_scope.

(** ** Sessions *)

Record SessionRequest := mkSessionRequest
  { sq_local_session_id : string; sq_model : option string; sq_repo : option string; sq_workflow_id : option string;
    sq_node_key : option string; sq_node_attempt : option Z; sq_admission_tier : string; sq_recall_pending : bool;
    sq_capture_evidence_ttl_seconds : option Z }.
Definition no_binding : Binding := mkBinding None None None None None None.
Definition no_cleanup : CleanupClaim := mkCleanup None None None.
Definition new_session (id : Z) (progress_token : string) (now : Z) (q : SessionRequest) : AgentSession :=
  mkSession id (sq_local_session_id q) (sq_workflow_id q) (sq_node_key q) (sq_admission_tier q) (sq_model q) "running"
    None None None None no_binding no_cleanup
    (mkDetail (sq_repo q) (sq_node_attempt q) (sq_capture_evidence_ttl_seconds q) (Some progress_token) (sq_recall_pending q)
       None now None None).
(** The columns this model keeps; [token] is the random progress token. *)
Definition create_session (token : string) (q : SessionRequest) : tx ADB AgentSession := λ db,
  if negb (str_in (sq_admission_tier q) TIERS) then Raise (ValueError "Invalid server admission tier") else
  if existsb (λ s, bool_decide (as_local_session_id s = sq_local_session_id q)) (a_sessions db) then integrity_error else
  let row := new_session (max_key as_id (a_sessions db) + 1) token (a_now db) q in
  '(_, db) ← bind_session row (set_sessions (λ l, l ++ [row]) db);
  match get_session db (as_id row) with Some row => Ok (row, db) | None => Raise TypeError end.

Definition update_session_status (session_id : Z) (status : string) (voice_summary : option string) : tx ADB AgentSession := λ db,
  match get_session db session_id with
  | None => Raise (ValueError "Unknown agent session")
  | Some row =>
      let '(status, voice_summary) := if has_unknown_outcome db session_id
        then ("failed"%string, Some UNKNOWN_INVOCATION_MESSAGE) else (status, voice_summary) in
      let row := with_status status (with_detail (d_last_turn (a_now db)) row) in
      let row := match voice_summary with Some s => with_detail (d_summary s) row | None => row end in
      Ok (row, put_session row db)
  end.
Definition activate_session_after_enqueue (session_id : Z) (db : ADB) : bool * ADB :=
  match get_session db session_id with
  | Some row =>
      if bool_decide (as_status row = "recovering"%string) || has_unknown_outcome db session_id then (false, db)
      else (true, put_session (with_status "running" (with_detail (d_last_turn (a_now db)) row)) db)
  | None => (false, db)
  end.

(** ** The bound guest *)

Definition set_ember_session (session_id : Z) (ember_id ember_token : string) (ember_expires_at : option Z)
    (ember_lineage_id : option string) (cli_session_id : option (option string)) (is_restored : bool) : tx ADB AgentSession := λ db,
  _ ← _assert_sendable db session_id;
  match get_session db session_id with
  | None => Raise (ValueError "Unknown agent session")
  | Some row =>
      _ ← _assert_guest_reusable db row (Some ember_id);
      let b := as_binding row in
      let row := with_guest (Some ember_id)
        (mkBinding (Some ember_token) ember_expires_at ember_lineage_id (default (bd_cli_session_id b) cli_session_id)
           (if is_restored then None else bd_prior_lineage_id b) (if is_restored then None else bd_prior_cli_session_id b)) row in
      Ok (row, put_session row db)
  end.
(** [prior = active or prior]. *)
Definition kept_lineage (b : Binding) : option string := or_text (bd_lineage_id b) (bd_prior_lineage_id b).
Definition kept_cli (b : Binding) : option string := or_text (bd_cli_session_id b) (bd_prior_cli_session_id b).
Definition replace_ember_session_after_preemption (session_id : Z) (ember_id ember_token : string) (ember_expires_at : option Z)
    (ember_lineage_id : option string) : tx ADB AgentSession := λ db,
  _ ← _assert_sendable db session_id;
  match get_session db session_id with
  | None => Raise (ValueError "Unknown agent session")
  | Some row =>
      _ ← _assert_guest_reusable db row (Some ember_id);
      let b := as_binding row in
      let row := with_detail (λ d, d_recovery (Some true) (sd_recovery_completed_at d) d)
        (with_guest (Some ember_id)
           (mkBinding (Some ember_token) ember_expires_at ember_lineage_id None (kept_lineage b) (kept_cli b)) row) in
      Ok (row, put_session row db)
  end.
Definition unbound (row : AgentSession) : AgentSession :=
  with_guest None (mkBinding None None None None (kept_lineage (as_binding row)) (kept_cli (as_binding row))) row.
Definition clear_ember_session (session_id : Z) : tx ADB AgentSession := λ db,
  match get_session db session_id with
  | None => Raise (ValueError "Unknown agent session")
  | Some row => _ ← _assert_guest_reusable db row None; Ok (unbound row, put_session (unbound row) db)
  end.
(** One row bound to the destroyed guest. *)
Definition clear_one (acc : list Z * ADB) (id : Z) : list Z * ADB :=
  let '(ids, db) := acc in
  match get_session db id with
  | None => acc
  | Some row =>
      if cleanup_pending db row || has_unknown_outcome db id then acc else
      match match as_result_receipt_fence_id row with
            | Some fence => release_ownerless_fence_locked row fence db
            | None => Some (row, db)
            end with
      | Some (row, db) => (ids ++ [id], put_session (unbound row) db)
      | None => acc
      end
  end.
Definition clear_ember_bindings_by_ember_id (ember_id : string) (db : ADB) : list Z * ADB :=
  foldl clear_one ([], db) (as_id <$> filter (λ s, as_ember_session_id s = Some ember_id) (a_sessions db)).

(** ** Guest cleanup *)

Definition dispatch_json (m : PendingMessage) : pyval := PDict
  [("session_id", PInt (pm_session_id m)); ("seq", PInt (pm_seq m)); ("dispatch_count", PInt (pm_dispatch_count m));
   ("claim_owner", opt_str (pm_claimed_by_replica m))]%string.
Definition by_key (a b : PendingMessage) : bool :=
  (pm_session_id a <? pm_session_id b) || (pm_session_id a =? pm_session_id b) && (pm_seq a <=? pm_seq b).
Definition guest_sessions (db : ADB) (guest_id : string) : list AgentSession :=
  filter (λ s, as_ember_session_id s = Some guest_id) (a_sessions db).
Definition _guest_cleanup_dispatches (db : ADB) (guest_id : string) : list PendingMessage :=
  filter (λ m, _attempted m = true)
    (py_sorted by_key (filter (λ m, pm_session_id m ∈ as_id <$> guest_sessions db guest_id) (a_pending db))).
Definition _cleanup_dispatches_unchanged (row : AgentSession) (dispatches : list PendingMessage) : bool :=
  match loads_or PNone (cc_dispatches (as_cleanup row)) with
  | Some (PList issued) => forallb (λ m, existsb (py_eq (dispatch_json m)) issued) dispatches
  | _ => false
  end.

(** [guest_cleanup_hold]: what keeps the guest from being stopped. *)
Definition handed_off (db : ADB) (session_id : Z) (guest_id : string) : bool :=
  existsb (λ m, (pm_session_id m =? session_id) &&
    existsb (λ r, (rr_session_id r =? session_id) && (rr_seq r =? pm_seq m) && (rr_dispatch_count r =? pm_dispatch_count m) &&
                  bool_decide (Some (rr_claim_owner r) = pm_claimed_by_replica m) && bool_decide (rr_guest_id r = guest_id) &&
                  negb (is_set (rr_superseded_at r))) (a_receipts db)) (a_pending db).
Definition guest_cleanup_hold (db : ADB) (session_id : Z) (guest_id : string) : option string :=
  match get_session db session_id with
  | Some row =>
      if negb (bool_decide (as_ember_session_id row = Some guest_id)) then Some "binding_changed"%string else
      if has_unknown_outcome db session_id then Some "unknown"%string else
      if is_set (as_result_receipt_fence_id row) || handed_off db session_id guest_id then Some "observer_pending"%string else None
  | None => Some "binding_changed"%string
  end.

Definition settled_guest_cleanup_conditions (db : ADB) (row : AgentSession) : bool :=
  let permits := filter (λ p, cr_session_id p = Some (as_id row)) (a_permits db) in
  let closed (p : Permit) := bool_decide (cr_state p = "settled"%string) && is_set (cr_settled_at p) in
  str_in (as_status row) ["completed"; "failed"; "warn"; "cancelled"] && is_set (as_workflow_id row) &&
  is_set (as_ember_session_id row) && existsb closed permits && forallb closed permits &&
  bool_decide (lane db (as_id row) = []).

Inductive CleanupResult := CleanupHold (why : string) | CleanupGranted (claim_id guest_id : string).
(** The first alias of the guest that forbids the stop. *)
Definition alias_hold (db : ADB) (session_id : Z) (guest_id : string) (resuming : bool) (dispatches : list PendingMessage)
    (alias : AgentSession) : option string :=
  if is_set (as_result_receipt_fence_id alias) then Some "observer_pending"%string else
  match guest_cleanup_hold db (as_id alias) guest_id with
  | Some hold =>
      if resuming && (as_id alias =? session_id) && bool_decide (hold = "unknown"%string) then None else Some hold
  | None => if negb resuming && existsb (λ m, pm_session_id m =? as_id alias) dispatches then Some "invocation_pending"%string else None
  end.
Fixpoint first_hold (f : AgentSession → option string) (l : list AgentSession) : option string :=
  match l with
  | [] => None
  | a :: l => match f a with Some h => Some h | None => first_hold f l end
  end.
Definition begin_guest_cleanup `{TurnText} (token : string) (session_id : Z) (guest_id workflow_id : string) (settled_only : bool)
    : tx ADB CleanupResult := λ db,
  match get_session db session_id with
  | None => Ok (CleanupHold "binding_changed", db)
  | Some row =>
      if negb (bool_decide (as_workflow_id row = Some workflow_id)) || negb (bool_decide (as_ember_session_id row = Some guest_id)) ||
         bool_decide (guest_id = ""%string) || bool_decide (workflow_id = ""%string)
      then Ok (CleanupHold "binding_changed", db) else
      if settled_only && negb (settled_guest_cleanup_conditions db row) then Ok (CleanupHold "session_not_settled", db) else
      let resuming := is_set (as_guest_cleanup_id row) in
      if resuming && (negb (bool_decide (as_guest_cleanup_guest_id row = Some guest_id)) ||
                      negb (bool_decide (cc_workflow_id (as_cleanup row) = Some workflow_id)))
      then Ok (CleanupHold "cleanup_owner_changed", db) else
      if negb resuming && guest_has_cleanup_claim db (Some guest_id) then Ok (CleanupHold "cleanup_pending", db) else
      let dispatches := _guest_cleanup_dispatches db guest_id in
      if resuming && negb (_cleanup_dispatches_unchanged row dispatches) then Ok (CleanupHold "invocation_changed", db) else
      match first_hold (alias_hold db session_id guest_id resuming dispatches) (guest_sessions db guest_id) with
      | Some hold => Ok (CleanupHold hold, db)
      | None =>
          match as_guest_cleanup_id row with
          | Some claim => Ok (CleanupGranted claim guest_id, db)
          | None =>
              Ok (CleanupGranted token guest_id,
                  put_session (with_cleanup (Some token) (Some guest_id)
                    (mkCleanup (Some workflow_id) (Some (encoded (PList (dispatch_json <$> dispatches)))) (Some (a_now db))) row) db)
          end
      end
  end.

Definition finish_guest_cleanup (session_id : Z) (guest_id workflow_id claim_id : string) : tx ADB bool := λ db,
  match get_session db session_id with
  | None => Ok (false, db)
  | Some row =>
      if bool_decide (claim_id = ""%string) || negb (bool_decide (as_guest_cleanup_id row = Some claim_id)) ||
         negb (bool_decide (as_guest_cleanup_guest_id row = Some guest_id)) ||
         negb (bool_decide (cc_workflow_id (as_cleanup row) = Some workflow_id)) ||
         negb (bool_decide (as_workflow_id row = Some workflow_id)) ||
         negb (bool_decide (as_ember_session_id row = Some guest_id)) || is_set (as_result_receipt_fence_id row) ||
         negb (_cleanup_dispatches_unchanged row (_guest_cleanup_dispatches db guest_id))
      then Ok (false, db) else
      let unknown := has_unknown_outcome db session_id in
      let row := with_cleanup None None no_cleanup (if unknown then row else unbound row) in
      Ok (negb unknown, put_session row db)
  end.

(** ** Recovery of a lane that never ran *)

Definition no_turns (db : ADB) (session_id : Z) : bool := negb (existsb (λ t, tu_session_id t =? session_id) (a_turns db)).
Definition before (cutoff : Z) (t : option Z) : bool := match t with Some t => t <? cutoff | None => false end.
Definition capacity_free (m : PendingMessage) : bool := negb (is_set (pm_capacity_intent_json m)) || legacy_capacity m.
Definition _recovery_candidate_predicate (cutoff now : Z) (db : ADB) (row : AgentSession) : bool :=
  bool_decide (as_status row = "running"%string) && negb (is_set (sd_recovery_completed_at (as_detail row))) &&
  no_turns db (as_id row) &&
  match head_pending db (as_id row) with
  | Some head => (pm_created_at head <=? cutoff) && (capacity_free head || is_set (pm_claimed_by_replica head))
  | None => false
  end && _no_live_pending_claim db (as_id row) now.
Definition _hung_claim_candidate_predicate (cutoff now : Z) (expected : option string) (db : ADB) (row : AgentSession) : bool :=
  bool_decide (as_status row = "running"%string) && is_set (as_ember_session_id row) && no_turns db (as_id row) &&
  match head_pending db (as_id row) with
  | Some head =>
      claimed_since (now - RECLAIM_LEASE) head && is_set (pm_last_dispatch_at head) &&
      (capacity_free head && before cutoff (pm_last_dispatch_at head) || before cutoff (pm_capacity_started_at head))
  | None => false
  end &&
  match expected with Some e => bool_decide (as_ember_session_id row = Some e) | None => true end.
(** [limit] rows in id order. *)
Definition candidate_ids (p : AgentSession → bool) (limit : nat) (db : ADB) : list Z :=
  take limit (as_id <$> py_sorted (λ a b, as_id a <=? as_id b) (filter (λ s, p s = true) (a_sessions db))).
Definition find_zombie_session_ids (cutoff now : Z) (limit : nat) (db : ADB) : list Z :=
  candidate_ids (_recovery_candidate_predicate cutoff now db) limit db.
Definition find_hung_claim_session_ids (cutoff now : Z) (limit : nat) (db : ADB) : list Z :=
  candidate_ids (_hung_claim_candidate_predicate cutoff now None db) limit db.
Definition get_hung_claim_binding (session_id cutoff now : Z) (db : ADB) : option string :=
  row ← get_session db session_id;
  if _hung_claim_candidate_predicate cutoff now None db row then as_ember_session_id row else None.

Definition _recovery_workspace_loss (row : AgentSession) (pending : PendingMessage) : bool :=
  is_set (sd_repo (as_detail row)) && (text_set (as_ember_session_id row) || text_set (pm_claimed_by_replica pending)).
Record ZombieClaim := mkZombieClaim
  { zc_session_id : Z; zc_turn_seq : Z; zc_message_text : string; zc_model : option string; zc_ember_session_id : option string;
    zc_recovery_workspace_loss : bool; zc_outcome_unknown : bool }.
Definition d_loss (loss : option bool) (d : SessionDetail) : SessionDetail := d_recovery loss (sd_recovery_completed_at d) d.
Definition _claim_zombie_session_recovery `{TurnText, IsoFormat} (session_id now : Z) (predicate : ADB → AgentSession → bool)
    (steal_claim : bool) : tx ADB (option ZombieClaim) := λ db0,
  match get_session db0 session_id with
  | None => Ok (None, db0)
  | Some locked =>
      if _bound_zero_turn_cleanup_pending locked || negb (predicate db0 locked) then Ok (None, db0) else
      let row := with_status "recovering" (with_detail (d_last_turn now) locked) in
      let db := put_session row db0 in
      match head_pending db session_id with
      | None => Ok (None, put_session (with_status "running" (with_detail (d_loss None) row)) db)
      | Some pending =>
          let loss := _recovery_workspace_loss row pending in
          let claim := mkZombieClaim session_id (pm_seq pending) (pm_message_text pending) (pm_model pending)
                         (as_ember_session_id row) loss in
          if _attempted pending || is_set (as_ember_session_id row)
          then db ← _finish_unknown_locked row pending "zombie_observer_lost" db; Ok (Some (claim true), db)
          else
            let db := if steal_claim then put_pending (unclaimed pending) db else db in
            Ok (Some (claim false), put_session (with_detail (d_loss (Some loss)) row) db)
      end
  end.
Definition claim_zombie_session_recovery `{TurnText, IsoFormat} (session_id cutoff now : Z) : tx ADB (option ZombieClaim) :=
  _claim_zombie_session_recovery session_id now (_recovery_candidate_predicate cutoff now) false.
Definition claim_hung_zombie_session_recovery `{TurnText, IsoFormat} (session_id cutoff now : Z) (expected : string)
    : tx ADB (option ZombieClaim) :=
  _claim_zombie_session_recovery session_id now (_hung_claim_candidate_predicate cutoff now (Some expected)) true.
Definition finalize_zombie_session_recovery (claim : ZombieClaim) (now : Z) : tx ADB (option Z) := λ db,
  let session_id := zc_session_id claim in
  match get_session db session_id, get_pending_message db session_id (zc_turn_seq claim) with
  | Some row, Some pending =>
      if negb (bool_decide (as_status row = "recovering"%string)) || _attempted pending || is_set (as_ember_session_id row) ||
         is_set (get_turn db session_id (zc_turn_seq claim))
      then Ok (None, db)
      else Ok (Some (zc_turn_seq claim),
               put_session (with_status "running" (with_detail (d_recovery None (Some now) ∘ d_last_turn now) row))
                 (put_pending (unclaimed pending) db))
  | _, _ => Ok (None, db)
  end.

(** ** A start cancelled before it was queued *)

Definition drainer_node_key (tier : string) : option string :=
  if bool_decide (tier = "kg"%string) then Some KG_NODE_KEY
  else if bool_decide (tier = "project"%string) then Some DRAINER_NODE_KEY else None.
(** No guest, no result fence, no cleanup and no recovery was ever recorded. *)
Definition untouched (s : AgentSession) : bool :=
  let b := as_binding s in let c := as_cleanup s in let d := as_detail s in
  negb (is_set (as_ember_session_id s) || is_set (bd_token b) || is_set (bd_expires_at b) || is_set (bd_lineage_id b) ||
        is_set (bd_cli_session_id b) || is_set (bd_prior_lineage_id b) || is_set (bd_prior_cli_session_id b) ||
        is_set (as_result_receipt_fence_id s) || is_set (as_guest_cleanup_id s) || is_set (as_guest_cleanup_guest_id s) ||
        is_set (cc_workflow_id c) || is_set (cc_dispatches c) || is_set (cc_started_at c) ||
        is_set (sd_recovery_completed_at d) || is_set (sd_recovery_workspace_loss d)).
Definition unqueued_permit (agent : AgentSession) (node_key : string) (p : Permit) : bool :=
  bool_decide (cr_session_id p = Some (as_id agent)) && bool_decide (cr_local_session_id p = as_local_session_id agent) &&
  (cr_pending_seq p =? 1) && bool_decide (cr_tier p = as_admission_tier agent) && bool_decide (cr_state p = "reserved"%string) &&
  negb (is_set (cr_owner p)) && negb (is_set (cr_workload p)) &&
  match cr_routine_job_name p with
  | Some job => negb (bool_decide (job = ""%string)) &&
                bool_decide (as_local_session_id agent = default "" (as_workflow_id agent) +:+ ":" +:+ node_key +:+ ":" +:+ job)
  | None => false
  end.
Definition never_queued (db : ADB) (session_id : Z) : bool :=
  negb (existsb (λ m, pm_session_id m =? session_id) (a_pending db)) && no_turns db session_id &&
  negb (existsb (λ r, rr_session_id r =? session_id) (a_receipts db)).
Definition cancel_unqueued_drainer_start (session_id : Z) (local_session_id : string) (db : ADB) : bool * ADB :=
  match get_session db session_id with
  | None => (false, db)
  | Some agent =>
      match drainer_node_key (as_admission_tier agent),
            filter (λ p, cr_session_id p = Some session_id ∨ cr_local_session_id p = local_session_id) (a_permits db) with
      | Some node_key, [permit] =>
          if bool_decide (as_local_session_id agent = local_session_id) && bool_decide (as_node_key agent = Some node_key) &&
             startswith "_drainer-worker:" (default "" (as_workflow_id agent)) &&
             bool_decide (as_status agent = "running"%string) && untouched agent && unqueued_permit agent node_key permit &&
             never_queued db session_id
          then (true, put_permit (permit_close "settled" (Some "cancelled_before_enqueue"%string) (Some (a_now db)) permit)
                        (put_session (with_status "failed" (with_detail (d_last_turn (a_now db)) agent)) db))
          else (false, db)
      | _, _ => (false, db)
      end
  end.

(** ** Waiting for a turn *)

Definition turn_wait_terminal (db : ADB) (session_id after_seq : Z) : bool :=
  match get_session db session_id with
  | None => true
  | Some row =>
      let dead := str_in (as_status row) ["failed"; "cancelled"] in
      if existsb (λ m, (after_seq <? pm_seq m) && (negb dead || is_set (pm_claimed_by_replica m) || (0 <? pm_dispatch_count m)))
           (lane db session_id) then false else
      if existsb (λ t, (tu_session_id t =? session_id) && (after_seq <? tu_seq t) && interrupted t) (a_turns db) then false else
      if str_in (as_status row) ["completed"; "failed"; "warn"; "cancelled"] then true else
      let permits := filter (λ p, cr_session_id p = Some session_id) (a_permits db) in
      if existsb (λ p, negb (bool_decide (cr_state p = "settled"%string))) permits then false else
      negb (is_set (as_ember_session_id row)) || cleanup_pending db row || negb (bool_decide (permits = []))
  end.
