(* ===== verification/TurnResult.v ===== *)
(** * Turn store: the result of a dispatch

    [persist_turn_from_pending_sync] of [factory/execution/store.py]: the one
    writer that ends a claimed message with what the guest reported.  What is
    evidence and what is the guest's own word is decided here. *)

From Stdlib Require Import SpecFloat.
From stdpp Require Import prelude list strings.
From S2P Require Import Prelude PyValue WorkItems PolicyData Pricing Admission TurnStore TurnDispatch.
Local Open Scope Z_scope.

(** ** A guest's report *)

(** [transport.Turn]. *)
Record Turn := mkReport
  { tn_result : string; tn_terminal_reason : option string; tn_stop_reason : option string; tn_is_error : bool;
    tn_permission_denials : pyval; tn_num_turns : Z; tn_session_id : option string; tn_usage : dict;
    tn_total_cost_usd : option spec_float; tn_duration_ms : pyval; tn_activities : pyval; tn_workspace_recovery : pyval;
    tn_diff : option dict; tn_artifact : option dict; tn_model : option string; tn_provider_model : option string; tn_effort : option string; tn_native_receipt : option dict }.

Definition clean (terminal : option string) : bool :=
  match terminal with Some r => str_in r CLEAN_TERMINAL_REASONS | None => false end.
Definition drained (terminal : option string) : bool := bool_decide (terminal = Some "interrupted_for_drain"%string).
Definition interrupted_reason (terminal : option string) : bool :=
  match terminal with Some r => str_in r INTERRUPTED_TERMINAL_REASONS | None => false end.
Definition turn_status (t : Turn) : string :=
  if interrupted_reason (tn_terminal_reason t) then "recovering" else
  if truthy (tn_permission_denials t) then "needs_input" else
  if tn_is_error t || negb (clean (tn_terminal_reason t)) then "warn" else "completed".

(** What other parts do for the writer: [result_receipts.validate_active_result]
    with the reparse of the receipt's body (the provenance, and the fence it
    leaves), [push_format.record], and strict base64. *)
Class ResultHooks := {
  native_result : ADB → AgentSession → Z → string → Z → dict → Turn → res (dict * option string);
  record_push_format : ADB → AgentSession → pyval → res unit;
  b64decode : pyval → option string;
}.

(** ** What is kept of it *)

Definition dict_pop (key : string) (d : dict) : dict := filter (λ p, p.1 ≠ key) d.
Definition set_when (key : string) (v : option pyval) (d : dict) : dict :=
  match v with Some v => dict_set key v d | None => d end.

(** The observed identity of a capture session's first turn. *)
Definition capture_producer (row : AgentSession) (seq : Z) : res (option pyval) :=
  if (seq =? 1) && is_set (sd_capture_evidence_ttl_seconds (as_detail row)) &&
     startswith "implement_browser_capture_" (default "" (as_node_key row)) then
    if text_set (as_ember_session_id row) && text_set (bd_lineage_id (as_binding row)) then
      Ok (Some (PDict
        [("agent_session_id", PInt (as_id row)); ("session_id", opt_str (as_ember_session_id row));
         ("lineage_id", opt_str (bd_lineage_id (as_binding row))); ("node_id", opt_str (as_node_key row));
         ("attempt", match sd_node_attempt (as_detail row) with Some n => PInt n | None => PNone end); ("turn", PInt seq)]%string))
    else claim_lost "capture completion has no authenticated guest binding"
  else Ok None.
(** The guest's usage, with what the server observed in the place of what the
    guest may have claimed. *)
Definition observed_usage `{IsoFormat} (now : Z) (pending : option PendingMessage) (executor_elapsed_ms : pyval) (t : Turn)
    (capture : option pyval) (provenance : option dict) : dict :=
  let u := dict_set "activities" (tn_activities t) (tn_usage t) in
  let u := set_when "browser_capture_producer" capture (dict_pop "browser_capture_producer" u) in
  let u := dict_set "observation" (turn_observation now pending executor_elapsed_ms (tn_duration_ms t)) (dict_pop "observation" u) in
  let u := set_when "native_result_receipt" (PDict <$> provenance) (dict_pop "native_result_receipt" u) in
  let u := set_when "workspace_recovery" (if is_none (tn_workspace_recovery t) then None else Some (tn_workspace_recovery t)) u in
  let u := set_when "provider_model" (PStr <$> tn_provider_model t) (dict_pop "provider_model" u) in
  set_when "effort" (PStr <$> tn_effort t) (dict_pop "effort" u).

(** A diff or an artifact that is not well formed is dropped whole. *)
Definition diff_of `{ResultHooks} (t : Turn) : option string * pyval * pyval :=
  let none : option string * pyval * pyval := (None, PBool false, PNone) in
  match tn_diff t with
  | None => none
  | Some d =>
      match assoc_get "base_sha" d, assoc_get "truncated" d, dict_get "zlib_b64" d with
      | Some base, Some truncated, PNone => (None, truncated, base)
      | Some base, Some truncated, encoded =>
          match b64decode encoded with Some blob => (Some blob, truncated, base) | None => none end
      | _, _, _ => none
      end
  end.
Definition artifact_of `{ResultHooks} (t : Turn) : option string * pyval * pyval :=
  let none : option string * pyval * pyval := (None, PNone, PNone) in
  match tn_artifact t with
  | None => none
  | Some a =>
      match assoc_get "path" a, assoc_get "outcome" a, dict_get "content_b64" a with
      | Some path, Some outcome, PNone => (None, path, outcome)
      | Some path, Some outcome, encoded =>
          match b64decode encoded with Some blob => (Some blob, path, outcome) | None => none end
      | _, _, _ => none
      end
  end.

(** ** A drained attempt and its continuation *)

Definition opt_cost (c : option spec_float) : pyval := match c with Some f => PFloat f | None => PNone end.
(** The interrupted prefix is kept as evidence, and its cost added when both are known. *)
Definition continued (existing : option AgentTurn) (usage : dict) (cost : option spec_float) : res (dict * option spec_float) :=
  match existing with
  | Some e =>
      if negb (drained (tu_terminal_reason e)) then Ok (usage, cost) else
      match loads_or (PDict []) (tu_usage_json e) with
      | None => Raise (ValueError "json")
      | Some (PDict prior) =>
          match get_or "drain_continuations" (PList []) prior with
          | PList earlier =>
              let entry := PDict [("result", PStr (tu_result_text e)); ("usage", PDict (dict_pop "drain_continuations" prior));
                                  ("cost_usd", opt_cost (td_cost_usd (tu_detail e)))]%string in
              Ok (dict_set "drain_continuations" (PList (earlier ++ [entry])) usage,
                  match cost, td_cost_usd (tu_detail e) with Some c, Some p => Some (fadd c p) | _, _ => None end)
          | _ => Raise TypeError
          end
      | Some _ => Raise AttributeError
      end
  | None => Ok (usage, cost)
  end.
(** A drained turn carries the grant of the dispatch it interrupted. *)
Definition drain_grant (t : Turn) (pending : option PendingMessage) (claim_owner : option string) (dispatch_count : option Z)
    (usage : dict) : res dict :=
  if negb (drained (tn_terminal_reason t)) then Ok usage else
  match pending, claim_owner with
  | Some m, Some _ =>
      if bool_decide (dispatch_count = Some (pm_dispatch_count m))
      then Ok (dict_set "retry_dispatch_count" (PInt (pm_dispatch_count m)) usage)
      else claim_lost "Drain continuation requires its exact dispatch owner"
  | _, _ => claim_lost "Drain continuation requires its exact dispatch owner"
  end.
(** The list price of a continued turn: this attempt alone, plus the prefix. *)
Definition continued_price `{PriceBook} (model : option string) (usage : dict) (reported : option spec_float) (prior : option spec_float)
    : option spec_float :=
  match priced model usage reported, prior with Some c, Some p => Some (fadd c p) | _, _ => None end.
Definition with_list_cost (cost : option spec_float) (t : AgentTurn) : AgentTurn :=
  let d := tu_detail t in
  mkTurn (tu_session_id t) (tu_seq t) (tu_stop_reason t) (tu_terminal_reason t) (tu_result_text t) (tu_usage_json t)
    (mkTurnDetail (td_prompt d) (td_model d) (td_voice_summary d) (td_permission_denials d) (td_commit_sha d) (td_cost_usd d) cost
       (td_diff_blob d) (td_diff_truncated d) (td_diff_base_sha d) (td_artifact_path d) (td_artifact_blob d) (td_artifact_outcome d)).

(** ** The writer *)

Record Completion := mkCompletion
  { cp_prompt : string; cp_turn : Turn; cp_voice_summary : string; cp_status : string; cp_cli_session_id : option string;
    cp_model : option string; cp_claim_owner : option string; cp_dispatch_count : option Z; cp_executor_elapsed_ms : pyval }.

(** Only the owner of the dispatch may end it. *)
Definition owns_dispatch (pending : option PendingMessage) (c : Completion) : bool :=
  match cp_claim_owner c with
  | None => true
  | Some owner =>
      match pending with
      | Some m => bool_decide (pm_claimed_by_replica m = Some owner) &&
                  match cp_dispatch_count c with Some n => pm_dispatch_count m =? n | None => true end
      | None => false
      end
  end.
(** The receipt's provenance and the fence it leaves on the session. *)
Definition receipt_provenance `{ResultHooks} (db : ADB) (row : AgentSession) (seq : Z) (c : Completion)
    : res (option dict * AgentSession) :=
  match tn_native_receipt (cp_turn c) with
  | None => Ok (None, row)
  | Some identity =>
      match cp_claim_owner c, cp_dispatch_count c with
      | Some owner, Some n =>
          '(provenance, fence) ← native_result db row seq owner n identity (cp_turn c);
          Ok (Some provenance, match fence with Some f => with_fence (Some f) row | None => row end)
      | _, _ => claim_lost "Native receipt requires an exact dispatch owner"
      end
  end.
Definition completed_fields `{ResultHooks} (c : Completion) (usage : dict) (cost : option spec_float) : TurnFields :=
  let t := cp_turn c in
  let '(diff_blob, diff_truncated, diff_base_sha) := diff_of t in
  let '(artifact_blob, artifact_path, artifact_outcome) := artifact_of t in
  mkTurnFields (cp_prompt c) (Some (cp_voice_summary c)) (tn_result t) (tn_terminal_reason t) (tn_stop_reason t)
    (if truthy (tn_permission_denials t) then tn_permission_denials t else PList []) usage cost (cp_model c)
    diff_blob diff_truncated diff_base_sha artifact_path artifact_blob artifact_outcome.
(** The session row once the turn is written. *)
Definition completed_session (now : Z) (c : Completion) (row : AgentSession) : AgentSession :=
  let row := if clean (tn_terminal_reason (cp_turn c)) && is_set (sd_recovery_workspace_loss (as_detail row))
             then with_detail (d_recovery None (Some now)) row else row in
  let row := if text_set (cp_cli_session_id c) then with_cli (cp_cli_session_id c) row else row in
  reported (cp_status c) (cp_voice_summary c) now row.
Definition cessation_shown (t : Turn) : bool :=
  negb (bool_decide (tn_stop_reason t = Some UNKNOWN_INVOCATION)) &&
  (clean (tn_terminal_reason t) || interrupted_reason (tn_terminal_reason t) ||
   bool_decide (tn_terminal_reason t = Some "error"%string)).
Definition persist_turn_from_pending_sync `{TurnText, IsoFormat, PriceBook, ResultHooks} (session_id turn_seq : Z) (c : Completion)
    : tx ADB AgentTurn := λ db,
  match get_session db session_id with
  | None => Raise (ValueError "Session not found")
  | Some row =>
      _ ← _assert_sendable db session_id;
      if _bound_zero_turn_cleanup_pending row then claim_lost "Bound zero-turn settlement owns this dispatch" else
      let pending := get_pending_message db session_id turn_seq in
      if negb (owns_dispatch pending c) then claim_lost "Turn completion no longer owns its dispatch" else
      '(provenance, row) ← receipt_provenance db row turn_seq c;
      let t := cp_turn c in
      _ ← record_push_format db row (dict_get "push_format" (dict_set "activities" (tn_activities t) (tn_usage t)));
      capture ← capture_producer row turn_seq;
      let usage := observed_usage (a_now db) pending (cp_executor_elapsed_ms c) t capture provenance in
      let existing := get_turn db session_id turn_seq in
      '(usage, cost) ← continued existing usage (tn_total_cost_usd t);
      usage ← drain_grant t pending (cp_claim_owner c) (cp_dispatch_count c) usage;
      let db := match existing with Some e => if interrupted e then delete_turn existing db else db | None => db end in
      db ← create_turn session_id turn_seq (completed_fields c usage cost) db;
      let continuation := match existing with Some e => drained (tu_terminal_reason e) | None => false end in
      let db := match get_turn db session_id turn_seq, existing with
                | Some written, Some e =>
                    if continuation
                    then put_turn (with_list_cost (continued_price (cp_model c) usage (tn_total_cost_usd t)
                                                     (td_list_cost_usd (tu_detail e))) written) db
                    else db
                | _, _ => db
                end in
      let row := completed_session (a_now db) c row in
      let db := put_session row db in
      let db := if drained (tn_terminal_reason t)
                then match pending with Some m => put_pending (with_progress None None (unclaimed m)) db | None => db end
                else settle row turn_seq (tn_terminal_reason t) (cessation_shown t)
                       (match pending with Some m => delete_pending m db | None => db end) in
      match get_turn db session_id turn_seq with Some written => Ok (written, db) | None => Raise TypeError end
  end.
