(* ===== verification/TurnFacts.v ===== *)
(** * Turn store: the writes behind every operation

    Each operation of the store is a sequence of elementary writes
    ([lane_write]): a change of permits or sessions, or one of the ways a queued
    message and its turn may move.  The flags say whether the writes may grant a
    retry and whether they may free capacity.  Then each operation as such writes. *)

From Stdlib Require Import SpecFloat.
From stdpp Require Import prelude list strings relations.
From S2P Require Import Prelude PyValue WorkItems PolicyData Pricing Admission AdmissionInvariant AdmissionClaims TurnStore TurnDispatch TurnGuest TurnResult.
Local Open Scope Z_scope.

Lemma py_eq_ints a b : py_eq (PInt a) (PInt b) = (a =? b).
Proof. simpl. unfold xeq, xcompare. simpl. rewrite !Z.mul_1_r, Z.eqb_compare. by destruct (a ?= b). Qed.

(** ** Rows by key *)

Definition pkey (m : PendingMessage) : Z * Z := (pm_session_id m, pm_seq m).
Definition tkey (t : AgentTurn) : Z * Z := (tu_session_id t, tu_seq t).

Lemma at_key_spec s q m : at_key s q m = true ↔ pkey m = (s, q).
Proof. unfold at_key, pkey. rewrite andb_true_iff, !Z.eqb_eq. split; [intros [-> ->]; done|by intros [= -> ->]]. Qed.
Lemma turn_at_spec s q t : turn_at s q t = true ↔ tkey t = (s, q).
Proof. unfold turn_at, tkey. rewrite andb_true_iff, !Z.eqb_eq. split; [intros [-> ->]; done|by intros [= -> ->]]. Qed.
Lemma at_key_false s q m : at_key s q m = false ↔ pkey m ≠ (s, q).
Proof. rewrite <-at_key_spec. by destruct (at_key s q m). Qed.
Lemma turn_at_false s q t : turn_at s q t = false ↔ tkey t ≠ (s, q).
Proof. rewrite <-turn_at_spec. by destruct (turn_at s q t). Qed.

Lemma pending_found db s q m : get_pending_message db s q = Some m → m ∈ a_pending db ∧ pkey m = (s, q).
Proof. intros [? ?%at_key_spec]%find_first_Some. done. Qed.
Lemma turn_found db s q t : get_turn db s q = Some t → t ∈ a_turns db ∧ tkey t = (s, q).
Proof. intros [? ?%turn_at_spec]%find_first_Some. done. Qed.
Lemma session_found db s row : get_session db s = Some row → row ∈ a_sessions db ∧ as_id row = s.
Proof. intros [? ?%Z.eqb_eq]%find_first_Some. done. Qed.
Lemma turn_missing db s q : get_turn db s q = None ↔ ∀ t, t ∈ a_turns db → tkey t ≠ (s, q).
Proof. unfold get_turn. rewrite find_first_None. by setoid_rewrite turn_at_false. Qed.
Lemma pending_missing db s q : get_pending_message db s q = None ↔ ∀ m, m ∈ a_pending db → pkey m ≠ (s, q).
Proof. unfold get_pending_message. rewrite find_first_None. by setoid_rewrite at_key_false. Qed.

Lemma first_by_seq_Some l m : first_by_seq l = Some m → m ∈ l ∧ ∀ x, x ∈ l → pm_seq m ≤ pm_seq x.
Proof.
  revert m. induction l as [|y l IH]; intros m; simpl; [done|]. destruct (first_by_seq l) as [n|] eqn:E.
  - destruct (IH n eq_refl) as [Hn Hmin]. destruct (Z.ltb_spec (pm_seq n) (pm_seq y)) as [Hlt|Hge]; intros [= <-].
    + split; [by right|]. intros x [->|Hx]%elem_of_cons; [lia|auto].
    + split; [by left|]. intros x [->|Hx]%elem_of_cons; [lia|]. specialize (Hmin x Hx). lia.
  - intros [= <-]. split; [by left|]. intros x [->|Hx]%elem_of_cons; [lia|].
    destruct l as [|z l]; [by apply elem_of_nil in Hx|]. simpl in E. by destruct (first_by_seq l).
Qed.
Lemma head_found db s m : head_pending db s = Some m → m ∈ a_pending db ∧ pm_session_id m = s.
Proof. unfold head_pending, lane. intros [[? ?]%list_elem_of_filter _]%first_by_seq_Some. done. Qed.

(** ** Elementary writes *)

(** The turn of a key, replaced. *)
Definition replaced (t : AgentTurn) (l : list AgentTurn) : list AgentTurn :=
  filter (λ x, turn_at (tu_session_id t) (tu_seq t) x = false) l ++ [t].
Definition turn_for (db : ADB) (k : Z * Z) : option AgentTurn := get_turn db k.1 k.2.
Definition same_queue (db db' : ADB) : Prop := a_pending db' = a_pending db ∧ a_turns db' = a_turns db.

(** A new message: the last of its lane, with no evidence of a dispatch. *)
Record fresh (db : ADB) (m : PendingMessage) : Prop := mkFresh
  { fr_pending : ∀ x, x ∈ a_pending db → pm_session_id x = pm_session_id m → pm_seq x < pm_seq m;
    fr_turns : ∀ t, t ∈ a_turns db → tu_session_id t = pm_session_id m → tu_seq t < pm_seq m;
    fr_attempted : _attempted m = false; fr_count : pm_dispatch_count m = 0; fr_claim : pm_claimed_by_replica m = None }.
(** The same message of the same dispatch, its claim kept or given up. *)
Record touched (m m' : PendingMessage) : Prop := mkTouched
  { to_key : pkey m' = pkey m; to_count : pm_dispatch_count m' = pm_dispatch_count m;
    to_text : pm_message_text m' = pm_message_text m;
    to_claim : pm_claimed_by_replica m' = pm_claimed_by_replica m ∨ pm_claimed_by_replica m' = None }.
(** One more dispatch of an unclaimed message. *)
Record dispatches (m m' : PendingMessage) : Prop := mkDispatches
  { di_key : pkey m' = pkey m; di_count : pm_dispatch_count m' = pm_dispatch_count m + 1;
    di_text : pm_message_text m' = pm_message_text m;
    di_free : pm_claimed_by_replica m = None; di_claim : is_Some (pm_claimed_by_replica m') }.
(** Nothing of its session is queued before it. *)
Definition heads (db : ADB) (m : PendingMessage) : Prop :=
  ∀ x, x ∈ a_pending db → pm_session_id x = pm_session_id m → pm_seq m ≤ pm_seq x.
Definition granting (t : AgentTurn) : Prop := ∃ m, _retry_permission (Some t) m = true.
Definition started (m : PendingMessage) : Prop := 0 < pm_dispatch_count m ∨ is_Some (pm_claimed_by_replica m).

Inductive lane_write `{TurnText} (grants releases : bool) (db : ADB) : ADB → Prop :=
| LHeld db' : holding_op db db' → same_queue db db' → lane_write grants releases db db'
| LReleased db' : releases = true → pool_op db db' → same_queue db db' → lane_write grants releases db db'
| LEnqueue m : fresh db m → lane_write grants releases db (set_pending (λ l, l ++ [m]) db)
| LTouch m m' : m ∈ a_pending db → touched m m' → lane_write grants releases db (put_pending m' db)
| LDispatch m m' :
    m ∈ a_pending db → heads db m → _attempted m = false → dispatches m m' → lane_write grants releases db (put_pending m' db)
| LRetry m m' t :
    m ∈ a_pending db → heads db m → turn_for db (pkey m) = Some t → _retry_permission (Some t) m = true → dispatches m m' →
    lane_write grants releases db (put_pending m' (consume_grant (Some t) db))
| LMark m t :
    m ∈ a_pending db → finished (turn_for db (pkey m)) = false → tkey t = pkey m → interrupted t = true →
    (granting t → grants = true ∧ started m) → lane_write grants releases db (set_turns (replaced t) db)
| LEnd m t :
    m ∈ a_pending db → finished (turn_for db (pkey m)) = false → tkey t = pkey m →
    lane_write grants releases db (delete_pending m (set_turns (replaced t) db))
| LDrop m :
    m ∈ a_pending db → finished (turn_for db (pkey m)) = true → lane_write grants releases db (delete_pending m db)
| LResult t :
    (∀ m, m ∈ a_pending db → pkey m ≠ tkey t) → finished (turn_for db (tkey t)) = false →
    lane_write grants releases db (set_turns (replaced t) db).
Notation writes g r := (rtc (lane_write g r)).

(** The next guard of an operation. *)
Ltac next_guard := cbv zeta; match goal with |- (if ?c then _ else _) = _ → _ => destruct c eqn:? end.

Section facts.
Context `{TurnText}.
Implicit Types g r : bool.

Lemma write_then g r a b c : writes g r a b → lane_write g r b c → writes g r a c.
Proof. intros. by eapply rtc_r. Qed.
Lemma frame_write g r db db' :
  a_permits db' = a_permits db → same_queue db db' → lane_write g r db db'.
Proof. intros Hp Hq. apply LHeld; [|done]. by apply hold_world. Qed.
Lemma put_session_write g r row db : lane_write g r db (put_session row db).
Proof. by apply frame_write. Qed.

(** Writing the turn of a key that has none, once its marker is gone. *)
Lemma add_replaced t db db' existing :
  turn_for db (tkey t) = existing → a_turns db' = a_turns db →
  add_turn t (delete_turn existing db') = Ok (set_turns (replaced t) db').
Proof.
  intros He Hd. unfold turn_for, tkey in He. simpl in He. unfold add_turn, replaced.
  assert (get_turn (delete_turn existing db') (tu_session_id t) (tu_seq t) = None ∧
          a_turns (delete_turn existing db') = filter (λ x, turn_at (tu_session_id t) (tu_seq t) x = false) (a_turns db')) as [-> E].
  { destruct existing as [e|].
    - apply turn_found in He as [_ [= Es Eq]]. simpl. rewrite Es, Eq. split; [|done]. apply turn_missing. simpl.
      intros x [Hx _]%list_elem_of_filter. by apply turn_at_false.
    - simpl. rewrite turn_missing in He. split; [apply turn_missing; by rewrite Hd|].
      symmetry. rewrite Hd. clear Hd. induction (a_turns db) as [|x l IH]; [done|].
      rewrite filter_cons_True by (apply turn_at_false, He; by left). f_equal. apply IH. intros y Hy. apply He. by right. }
  f_equal. unfold set_turns at 1 2. rewrite E. by destruct existing.
Qed.

Lemma retry_interrupted t m : _retry_permission (Some t) m = true → interrupted t = true.
Proof. unfold _retry_permission. by destruct (interrupted t). Qed.

Lemma settle_queue agent seq outcome confirmed db : same_queue db (settle agent seq outcome confirmed db).
Proof.
  unfold settle. destruct (_adopt agent seq "uncertain" None None db) as [p db1] eqn:E.
  pose proof (adopt_world agent seq "uncertain" None None db) as (_ & Hp & Ht & _). rewrite E in Hp, Ht. simpl in Hp, Ht.
  by case_bool_decide.
Qed.
Lemma settle_write g agent seq outcome db : lane_write g false db (settle agent seq outcome false db).
Proof. apply LHeld; [apply hold_settle|apply settle_queue]. Qed.

Lemma weaken g r g' r' a b : (g = true → g' = true) → (r = true → r' = true) → lane_write g r a b → lane_write g' r' a b.
Proof.
  intros Hg Hr. destruct 1.
  - by apply LHeld.
  - apply LReleased; auto.
  - by apply LEnqueue.
  - by eapply LTouch.
  - by eapply LDispatch.
  - by eapply LRetry.
  - eapply LMark; eauto. naive_solver.
  - by eapply LEnd.
  - by eapply LDrop.
  - by eapply LResult.
Qed.
Lemma weaken_all g r g' r' a b : (g = true → g' = true) → (r = true → r' = true) → writes g r a b → writes g' r' a b.
Proof. intros Hg Hr. apply rtc_subrel. intros x y. by apply weaken. Qed.
End facts.

(** * Turn store: each operation as elementary writes *)

Section writes.
Context `{TurnText, IsoFormat, PriceBook, Environ, AdmissionHooks, ResultHooks}.
Implicit Types g r : bool.

(** ** Building blocks *)

Lemma pending_at db s q m : get_pending_message db s q = Some m → m ∈ a_pending db ∧ pkey m = (s, q) ∧ turn_for db (pkey m) = get_turn db s q.
Proof. intros [Hm Hk]%pending_found. split_and!; [done..|]. unfold turn_for. by rewrite Hk. Qed.

(** An unknown end: the permit held, the marker replaced, the message consumed. *)
Lemma finish_unknown_writes g r row m cause db db' :
  m ∈ a_pending db → pm_session_id m = as_id row → _finish_unknown_locked row m cause db = Ok db' → writes g r db db'.
Proof.
  intros Hm Hs. unfold _finish_unknown_locked. rewrite <-Hs.
  change (get_turn db (pm_session_id m) (pm_seq m)) with (turn_for db (pkey m)).
  destruct (finished (turn_for db (pkey m))) eqn:Hf.
  { intros [= <-]. apply rtc_once. by apply LDrop. }
  set (db1 := settle _ _ _ _ _). intros (db2 & Ha & [= <-])%res_bind_ok.
  destruct (settle_queue row (pm_seq m) (Some cause) false db) as [Hp Ht]. fold db1 in Hp, Ht.
  match type of Ha with add_turn ?t _ = _ => set (tu := t) in * end.
  rewrite (add_replaced tu db db1 (turn_for db (pkey m)) eq_refl Ht) in Ha. injection Ha as <-.
  apply (rtc_l _ _ db1); [apply (weaken g false g r); [done|done|apply settle_write]|].
  apply (rtc_l _ _ (delete_pending m (set_turns (replaced tu) db1))); [apply LEnd|].
  - by rewrite Hp.
  - unfold turn_for, get_turn in *. by rewrite Ht.
  - done.
  - apply rtc_once. by apply frame_write.
Qed.

(** A new marker in the place of an unfinished attempt. *)
Lemma mark_writes g r m t db :
  m ∈ a_pending db → finished (turn_for db (pkey m)) = false → tkey t = pkey m → interrupted t = true →
  (granting t → g = true ∧ started m) → writes g r db (set_turns (replaced t) db).
Proof. intros. apply rtc_once. by apply (LMark _ _ _ m). Qed.

Lemma replace_turn_ok s q f db db' :
  replace_turn s q (get_turn db s q) f db = Ok db' →
  ∃ t, tkey t = (s, q) ∧ tu_terminal_reason t = tf_terminal_reason f ∧ tu_stop_reason t = tf_stop_reason f ∧
    tu_usage_json t = Some (encoded (sanitize_payload (PDict (tf_usage f)))) ∧ db' = set_turns (replaced t) db.
Proof.
  unfold replace_turn, create_turn. match goal with |- add_turn ?t _ = _ → _ => set (tu := t) end. intros Ha.
  rewrite (add_replaced tu db db (get_turn db s q) eq_refl eq_refl) in Ha. injection Ha as <-. by exists tu.
Qed.

Lemma interrupted_by t reason : tu_terminal_reason t = Some reason → str_in reason INTERRUPTED_TERMINAL_REASONS = true → interrupted t = true.
Proof. unfold interrupted. by intros ->. Qed.

Lemma lost_not_granting t : tu_terminal_reason t = Some "interrupted"%string → tu_stop_reason t = Some RESPONSE_LOST → ¬ granting t.
Proof.
  intros Ht Hs [m Hm]. unfold _retry_permission in Hm. destruct (negb (interrupted t)); [done|].
  destruct (loads_or _ _) as [[| | | | | |usage|]|]; try done. rewrite Ht, Hs in Hm.
  apply andb_true_iff in Hm as [[_ Hm]%andb_true_iff _]. done.
Qed.

(** ** Holds *)

Lemma write_lost_writes g r sess m bound l until db db' :
  m ∈ a_pending db → pm_session_id m = as_id sess → finished (turn_for db (pkey m)) = false →
  _write_response_lost_locked sess m (turn_for db (pkey m)) bound l until db = Ok db' → writes g r db db'.
Proof.
  intros Hm Hs Hf. unfold _write_response_lost_locked, create_turn. intros (db1 & Ha & [= <-])%res_bind_ok.
  match type of Ha with add_turn ?t _ = _ => set (tu := t) in * end.
  assert (tkey tu = pkey m) as Hk by (unfold tu, tkey, pkey; simpl; by rewrite Hs).
  rewrite (add_replaced tu db db) in Ha by (by rewrite ?Hk). injection Ha as <-.
  eapply rtc_r; [apply (mark_writes g r m tu)|apply put_session_write]; try done.
  intros Hg. by destruct (lost_not_granting tu eq_refl eq_refl).
Qed.

Lemma lost_writes s q owner n l hold db b db' :
  mark_turn_response_lost_sync s q owner n l hold db = Ok (b, db') → writes false false db db'.
Proof.
  unfold mark_turn_response_lost_sync. case_match; [intros [= _ <-]; done|].
  intros (seconds & _ & Hq)%res_bind_ok. case_match; [by simplify_eq|].
  destruct (get_session db s) as [sess|] eqn:Es; [|by simplify_eq].
  destruct (get_pending_message db s q) as [m|] eqn:Em; [|by simplify_eq].
  case_match; [by simplify_eq|]. case_match; [|by simplify_eq].
  destruct (finished _) eqn:Hf; [by simplify_eq|].
  apply res_bind_ok in Hq as (covered & _ & Hq). destruct covered; [by simplify_eq|].
  apply res_bind_ok in Hq as (db1 & Hw & [= _ <-]).
  apply pending_at in Em as (Hm & Hk & Ht). apply session_found in Es as [_ Es].
  rewrite <-Ht in Hf, Hw. eapply write_lost_writes; eauto. unfold pkey in Hk. by injection Hk as -> _.
Qed.

Lemma hold_lease_writes sess m db db' :
  m ∈ a_pending db → pm_session_id m = as_id sess →
  _hold_lease_expired_response sess m (turn_for db (pkey m)) db = Ok (Some db') → writes false false db db'.
Proof.
  intros Hm Hs. unfold _hold_lease_expired_response. case_match; [|done].
  destruct (is_set (as_result_receipt_fence_id sess) || finished (turn_for db (pkey m)) || _ || _ || _) eqn:E; [done|].
  do 3 (apply orb_false_elim in E as [E _]). apply orb_false_elim in E as [_ Hf].
  case_match; [|done]. case_match; [done|]. case_match; [|done]. case_match; [done|].
  intros (db1 & Hw & [= <-])%res_bind_ok. eapply write_lost_writes; eauto.
Qed.

(** ** Enqueue, progress, heartbeat *)

Lemma max_seq_ge l x : x ∈ l → x ≤ max_seq l.
Proof. unfold max_seq. induction l as [|y l IH]; [by intros ?%elem_of_nil|]. intros [->|Hx]%elem_of_cons; simpl; [lia|]. specialize (IH Hx). lia. Qed.

Lemma enqueue_writes s text model recall live db m db' :
  create_pending_message s text model recall live db = Ok (m, db') →
  writes false false db db' ∧ pkey m = (s, next_seq db s) ∧ m ∈ a_pending db'.
Proof.
  unfold create_pending_message. destruct (get_session db s) as [row|]; [|done].
  intros ([] & _ & ([] & _ & [= <- <-])%res_bind_ok)%res_bind_ok.
  match goal with |- context [set_pending (λ l, l ++ [?x])] => set (m := x) end.
  match goal with |- context [set_pending _ ?d] => set (db1 := d) end.
  assert (a_pending db1 = a_pending db ∧ a_turns db1 = a_turns db ∧ writes false false db db1) as (Ep & Et & Hw).
  { unfold db1. case_match; split_and!; try done. apply rtc_once, put_session_write. }
  split_and!; [|done|simpl; apply elem_of_app; right; by apply list_elem_of_singleton].
  eapply write_then; [exact Hw|]. apply LEnqueue. split; [intros x Hx Hs..|done|done|done]; rewrite ?Ep, ?Et in Hx; simpl; unfold next_seq.
  - assert (pm_seq x ≤ max_seq (pm_seq <$> lane db s)); [|lia].
    apply max_seq_ge, list_elem_of_fmap_2, list_elem_of_filter. done.
  - assert (tu_seq x ≤ max_seq (tu_seq <$> filter (λ t, tu_session_id t = s) (a_turns db))); [|lia].
    apply max_seq_ge, list_elem_of_fmap_2, list_elem_of_filter. done.
Qed.

Lemma progress_writes token text activities db w db' :
  write_progress_sync token text activities db = Ok (w, db') → writes false false db db'.
Proof.
  unfold write_progress_sync. case_match; [|by intros [= _ <-]]. case_match; [by intros [= _ <-]|].
  case_match; [case_match; [by intros [= _ <-]|done]|]. destruct (first_claimed _ _) as [m|] eqn:Hf; intros [= _ <-]; [|done].
  unfold first_claimed in Hf. apply first_by_seq_Some in Hf as [[_ [_ Hf]%list_elem_of_filter]%list_elem_of_filter _].
  apply rtc_once, (LTouch _ _ _ m); [done|]. split; auto.
Qed.

Lemma unclaim_touched m : touched m (unclaimed m).
Proof. split; auto. Qed.

Lemma refresh_writes s q owner db : writes false false db (refresh_claim_sync s q owner db).2.
Proof.
  unfold refresh_claim_sync. case_match; [|done]. case_match; [done|].
  destruct (find_first _ (a_pending db)) as [m|] eqn:E; [|done]. apply find_first_Some in E as [Hm _].
  apply rtc_once, (LTouch _ _ _ m); [done|]. split; auto.
Qed.

(** ** Claim, release, lease expiry *)

Lemma same_world_queue db db' : same_world db db' → same_queue db db'.
Proof. by intros (_ & ? & ? & _). Qed.
Lemma claim_queue agent m owner db b db' : claim_pending agent m owner db = Ok (b, db') → same_queue db db'.
Proof.
  unfold claim_pending. case_match; [by intros [= _ <-]|]. intros ([granted db1] & Hr & Hq)%res_bind_ok.
  assert (same_queue db db1) as Hs.
  { unfold reserve_start in Hr. apply res_bind_ok in Hr as ([v db2] & Hv & [= _ <-]). rewrite reserve_unfold in Hv.
    pose proof (same_world_queue _ _ (adopt_existing_world db)) as Ha.
    revert Hv. destruct (negb (str_in _ _) || _); [done|]. destruct (start_blocked _ _); [by intros [= _ <-]|]. simpl.
    destruct (reservation (adopt_existing _) _ _); [by intros [= _ <-]|].
    intros (refusal & _ & Hv)%res_bind_ok. destruct refusal; by injection Hv as _ <-. }
  destruct (negb granted); [by injection Hq as _ <-|]. case_match; [|done]. by injection Hq as _ <-.
Qed.

Lemma open_session_writes s db row db' :
  open_session s db = Some (row, db') → writes false false db db' ∧ same_queue db db' ∧ as_id row = s.
Proof.
  unfold open_session. destruct (get_session db s) as [agent|] eqn:E; [|done]. apply session_found in E as [_ E].
  case_match; [done|]. case_match; [|by intros [= <- <-]]. unfold release_ownerless_fence_locked.
  case_match; [done|]. case_match; [case_match; [done|]|]; intros [= <- <-]; (split_and!; [apply rtc_once, put_session_write|done|done]).
Qed.

Lemma open_permits s db row db' : open_session s db = Some (row, db') → a_permits db' = a_permits db.
Proof.
  unfold open_session, release_ownerless_fence_locked. repeat case_match; try done; intros [= _ <-]; done.
Qed.

(** After the dispatch of [m], the turn behind it grants nothing more. *)
Definition spent (m : PendingMessage) (before after : option AgentTurn) : Prop :=
  (_attempted m = false ∧ after = before) ∨ ∀ x, _retry_permission after x = false.

Lemma granted_usage t m : _retry_permission (Some t) m = true → ∃ u, loads_or (PDict []) (tu_usage_json t) = Some (PDict u).
Proof. unfold _retry_permission. destruct (interrupted t); [simpl|done]. repeat case_match; eauto; done. Qed.
Lemma loads_encoded v : loads_or (PDict []) (Some (encoded v)) = Some v.
Proof. unfold loads_or, encoded. simpl. rewrite bool_decide_eq_false_2; [done|]. apply json_dumps_text. Qed.
Lemma assoc_get_removed k (d : dict) : assoc_get k (filter (λ p, p.1 ≠ k) d) = None.
Proof.
  induction d as [|[k' v] d IH]; [done|]. rewrite filter_cons. case_decide as E; [|done]. simpl in *.
  rewrite bool_decide_eq_false_2; [done|]. congruence.
Qed.
Lemma turn_put t db k : turn_for db k = Some t → ∀ t', tkey t' = tkey t → turn_for (put_turn t' db) k = Some t'.
Proof.
  intros Ht t' Hk'. unfold turn_for, get_turn in *. pose proof Ht as [_ Hk]%find_first_Some. apply turn_at_spec in Hk.
  apply (find_first_update_where _ _ _ t); [done| |]; rewrite turn_at_spec; unfold tkey in *; congruence.
Qed.
Lemma spent_grants_nothing t (u : dict) x :
  _retry_permission (Some (with_usage (Some (encoded (PDict (filter (λ p, p.1 ≠ "retry_dispatch_count"%string) u)))) t)) x = false.
Proof.
  unfold _retry_permission. case_match; [done|]. cbn [tu_usage_json with_usage]. rewrite loads_encoded.
  unfold dict_get. rewrite assoc_get_removed. simpl. by rewrite andb_false_r.
Qed.
Lemma consumed_spent t m db :
  turn_for db (pkey m) = Some t → _retry_permission (Some t) m = true →
  ∀ x, _retry_permission (turn_for (consume_grant (Some t) db) (pkey m)) x = false.
Proof.
  intros Ht Hg x. unfold consume_grant. destruct (granted_usage _ _ Hg) as [u ->].
  rewrite (turn_put t) by done. apply spent_grants_nothing.
Qed.

Lemma claim_head_writes row m owner previous context db out db' :
  m ∈ a_pending db → heads db m → claimable m = true → turn_for db (pkey m) = previous →
  (_attempted m = true → _retry_permission previous m = true) →
  claim_head row m owner previous context db = Ok (out, db') →
  writes false false db db' ∧
  (out = None ∨ out = Some (pm_seq m) ∧ ∃ m', dispatches m m' ∧ m' ∈ a_pending db' ∧ spent m previous (turn_for db' (pkey m))).
Proof.
  intros Hm Hhd Hc Hp Hperm. unfold claim_head. intros ([granted db1] & Hq & Hr)%res_bind_ok.
  pose proof (claim_queue _ _ _ _ _ _ Hq) as [Ep Et].
  assert (lane_write false false db db1) as Hw by (apply LHeld; [by eapply hold_claim|done]).
  destruct (negb granted); [injection Hr as <- <-; split; [by apply rtc_once|by left]|].
  injection Hr as <- <-.
  match goal with |- context [dispatched owner ?now ?k] => set (m' := dispatched owner now k) end.
  assert (dispatches m m') as Hd.
  { unfold m'. destruct context; split; try done; unfold claimable in Hc;
      apply andb_true_iff in Hc as [Hc _]; by destruct (pm_claimed_by_replica m). }
  assert (pkey m' = pkey m) as Hk by apply Hd.
  assert (∀ d, a_pending d = a_pending db1 → m' ∈ a_pending (put_pending m' d)) as Hin.
  { intros d Ed. simpl. rewrite Ed, Ep. apply elem_of_update_where. exists m. split; [done|].
    by rewrite (proj2 (at_key_spec _ _ m)) by (by rewrite <-Hk). }
  destruct (_attempted m) eqn:Ha.
  - specialize (Hperm eq_refl). destruct previous as [t|]; [|done]. split.
    + eapply write_then; [|apply put_session_write]. eapply write_then; [by apply rtc_once|].
      apply (LRetry _ _ _ m _ t); [by rewrite Ep|unfold heads; by rewrite Ep| |done|done]. unfold turn_for, get_turn in *. by rewrite Et.
    + right. split; [done|]. exists m'. split_and!; [done| |right; intros x].
      * change (m' ∈ a_pending (put_pending m' (consume_grant (Some t) db1))).
        apply Hin. unfold consume_grant. by repeat case_match.
      * rewrite <-(consumed_spent t m db1) with (x := x); [done| |done]. unfold turn_for, get_turn in *. by rewrite Et.
  - split.
    + eapply write_then; [|apply put_session_write]. eapply write_then; [by apply rtc_once|].
      apply (LDispatch _ _ _ m); [by rewrite Ep|unfold heads; by rewrite Ep|done|done].
    + right. split; [done|]. exists m'. split_and!; [done|by apply Hin|]. left. split; [done|].
      rewrite <-Hp. unfold turn_for, get_turn. simpl. by rewrite Et.
Qed.

(** A claim dispatches an unclaimed message at most once, and only a first
    attempt or one granted by the turn it replaces. *)
Lemma claim_writes s owner db out db' :
  claim_pending_message_for_session_sync s owner db = Ok (out, db') → writes false false db db' ∧
  ∀ q, out = Some q → ∃ m m', m ∈ a_pending db ∧ pkey m = (s, q) ∧ dispatches m m' ∧ m' ∈ a_pending db' ∧
    spent m (turn_for db (pkey m)) (turn_for db' (pkey m)) ∧
    (∀ x, x ∈ a_pending db → pm_session_id x = s → q ≤ pm_seq x) ∧ has_unknown_outcome db s = false ∧
    (_attempted m = true → _retry_permission (turn_for db (pkey m)) m = true).
Proof.
  unfold claim_pending_message_for_session_sync. destruct (open_session s db) as [[row db1]|] eqn:Eo; [|intros [= <- <-]; done].
  destruct (open_session_writes _ _ _ _ Eo) as (Hw & [Ep Et] & Hs).
  destruct (unsendable db1 s) as [[]|] eqn:Eu; [by intros [= <- <-]|done|].
  destruct (head_pending db1 s) as [m|] eqn:Eh; [|by intros [= <- <-]].
  pose proof Eh as Hmin. unfold head_pending in Hmin. apply first_by_seq_Some in Hmin as [_ Hmin].
  destruct (head_found _ _ _ Eh) as [Hm Hms].
  assert (heads db1 m) as Hhd by (intros x Hx Hxs; apply Hmin; unfold lane; apply list_elem_of_filter; split; congruence).
  destruct (negb (claimable m)) eqn:Ec; [by intros [= <- <-]|].
  apply negb_false_iff in Ec. intros (context & _ & Hq)%res_bind_ok. rewrite <-Hms in Hq.
  assert (get_turn db1 (pm_session_id m) (pm_seq m) = turn_for db1 (pkey m)) as Egt by done. rewrite Egt in Hq.
  assert (turn_for db1 (pkey m) = turn_for db (pkey m)) as Etf by (unfold turn_for, get_turn; by rewrite Et).
  assert (has_unknown_outcome db s = false) as Hu.
  { assert (has_unknown_outcome db1 s = false) as Hu by (unfold unsendable in Eu; by destruct (has_unknown_outcome db1 s)).
    unfold has_unknown_outcome in *. rewrite Et in Hu. by rewrite (open_permits _ _ _ _ Eo) in Hu. }
  assert (∀ out db', (_attempted m = true → _retry_permission (turn_for db1 (pkey m)) m = true) →
     claim_head row m owner (turn_for db1 (pkey m)) context db1 = Ok (out, db') →
     writes false false db db' ∧ ∀ q, out = Some q → ∃ m m', m ∈ a_pending db ∧ pkey m = (s, q) ∧ dispatches m m' ∧ m' ∈ a_pending db' ∧
       spent m (turn_for db (pkey m)) (turn_for db' (pkey m)) ∧ (∀ x, x ∈ a_pending db → pm_session_id x = s → q ≤ pm_seq x) ∧ has_unknown_outcome db s = false ∧
       (_attempted m = true → _retry_permission (turn_for db (pkey m)) m = true)) as Hhead.
  { intros r' d' Hperm Hch. destruct (claim_head_writes _ _ _ _ _ _ _ _ Hm Hhd Ec eq_refl Hperm Hch) as [Hwh Hres].
    split; [by etrans|]. intros q Hrq. destruct Hres as [->|[-> (m' & Hd & Hin & Hsp)]]; [done|]. injection Hrq as <-.
    exists m, m'. rewrite <-Ep, <-Etf. split_and!; try done; [by unfold pkey; rewrite Hms|].
    intros x Hx Hxs. apply Hmin. unfold lane. by apply list_elem_of_filter. }
  destruct (_attempted m) eqn:Ha.
  - destruct (_retry_permission (turn_for db1 (pkey m)) m) eqn:Er; [by apply Hhead|].
    apply res_bind_ok in Hq as (db2 & Hf & [= <- <-]). split; [|done].
    etrans; [exact Hw|]. eapply finish_unknown_writes; [exact Hm| |exact Hf]. congruence.
  - case_bool_decide; [by injection Hq as <- <-|]. by apply Hhead.
Qed.
End writes.
