(* ===== verification/TurnOps.v ===== *)
(** * Turn store: the operations of the lane

    The rest of the operations as elementary writes, and all of them as one
    relation ([turn_op]): the flags say which may grant a retry and which may
    free capacity. *)

From Stdlib Require Import SpecFloat.
From stdpp Require Import prelude list strings relations.
From S2P Require Import Prelude PyValue WorkItems PolicyData Pricing Admission AdmissionInvariant AdmissionClaims TurnStore TurnDispatch TurnGuest TurnResult TurnFacts.
Local Open Scope Z_scope.

Section operations.
Context `{TurnText, IsoFormat, PriceBook}.
Implicit Types g r : bool.

Lemma session_at db s row m q :
  get_session db s = Some row → pkey m = (s, q) → pm_session_id m = as_id row.
Proof. intros [_ Hs]%session_found [= Hm _]. congruence. Qed.

Lemma unclaim_writes g r m db : m ∈ a_pending db → writes g r db (put_pending (unclaimed m) db).
Proof. intros. apply rtc_once, (LTouch _ _ _ m); [done|apply unclaim_touched]. Qed.

(** ** Release and lease expiry *)

Lemma release_writes s q owner cause count db b db' :
  release_pending_message_claim_sync s q owner cause count db = Ok (b, db') → writes false false db db'.
Proof.
  unfold release_pending_message_claim_sync. destruct (get_session db s) as [row|] eqn:Es; [|by intros [= _ <-]].
  case_match; [by intros [= _ <-]|]. destruct (get_pending_message db s q) as [m|] eqn:Em; [|by intros [= _ <-]].
  case_match; [by intros [= _ <-]|]. intros (hold & _ & Hq)%res_bind_ok. destruct hold; [by injection Hq as _ <-|].
  apply res_bind_ok in Hq as (db1 & Hw & [= _ <-]). apply pending_at in Em as (Hm & Hk & _).
  case_match; [injection Hw as <-; by apply unclaim_writes|].
  eapply finish_unknown_writes; [exact Hm|by eapply session_at|exact Hw].
Qed.

Lemma reclaim_one_writes now c db b db' : reclaim_one now c db = Ok (b, db') → writes false false db db'.
Proof.
  unfold reclaim_one. destruct (get_session db (pm_session_id c)) as [row|] eqn:Es; [|by intros [= _ <-]].
  destruct (find_first _ (a_pending db)) as [m|] eqn:Em; [|by intros [= _ <-]].
  apply find_first_Some in Em as [Hm Hmk]. rewrite !andb_true_iff in Hmk. destruct Hmk as [[[Hk%at_key_spec _] _] _].
  assert (pm_session_id m = as_id row) as Hrow by (by eapply session_at).
  assert (get_turn db (pm_session_id c) (pm_seq c) = turn_for db (pkey m)) as -> by (unfold turn_for; by rewrite Hk).
  case_match; [by intros [= _ <-]|]. intros (hold & _ & Hq)%res_bind_ok. destruct hold; [by injection Hq as _ <-|].
  case_match; [injection Hq as _ <-; by apply unclaim_writes|].
  apply res_bind_ok in Hq as (held & Hh & Hq). destruct held as [db1|].
  - injection Hq as _ <-. by eapply hold_lease_writes.
  - apply res_bind_ok in Hq as (db1 & Hw & [= _ <-]). by eapply finish_unknown_writes.
Qed.
Lemma reclaim_all_writes now l n db n' db' : reclaim_all now l n db = Ok (n', db') → writes false false db db'.
Proof.
  revert n db. induction l as [|c l IH]; intros n db; simpl; [by intros [= _ <-]|].
  intros ([b db1] & Hc & Hl)%res_bind_ok. etrans; [by eapply reclaim_one_writes|by eapply IH].
Qed.

Lemma finish_pending_writes s q owner count cause guest wf db b db' :
  finish_unknown_pending_in_session s q owner count cause guest wf db = Ok (b, db') → writes false false db db'.
Proof.
  unfold finish_unknown_pending_in_session. destruct (get_session db s) as [row|] eqn:Es; [|by intros [= _ <-]].
  destruct (get_pending_message db s q) as [m|] eqn:Em; [|by intros [= _ <-]]. case_match; [by intros [= _ <-]|].
  intros (db1 & Hw & [= _ <-])%res_bind_ok. apply pending_at in Em as (Hm & Hk & _).
  eapply finish_unknown_writes; [exact Hm|by eapply session_at|exact Hw].
Qed.

Lemma settle_hold_writes s reason expected db b db' :
  settle_response_lost_hold s reason expected db = Ok (b, db') → writes false false db db'.
Proof.
  unfold settle_response_lost_hold. destruct (get_session db s) as [row|] eqn:Es; [|by intros [= _ <-]].
  destruct (head_pending db s) as [m|] eqn:Em; [|by intros [= _ <-]].
  intros (hold & _ & Hq)%res_bind_ok. destruct hold; [|by injection Hq as _ <-].
  match type of Hq with (if ?c then _ else _) = _ => destruct c end; [by injection Hq as _ <-|].
  apply res_bind_ok in Hq as (db1 & Hw & [= _ <-]). apply head_found in Em as [Hm Hms].
  eapply finish_unknown_writes; [exact Hm| |exact Hw]. apply session_found in Es as [_ Es]. congruence.
Qed.

(** ** Grants: preemption and the drain of a held guest *)

(** The dispatch count a marker grants its retry for. *)
Lemma marker_retry now m cause rec n existing u :
  sanitize_payload (PDict (_progress_usage now m cause rec ++ [("retry_dispatch_count"%string, PInt n)] ++
    prior_interruption existing)) = PDict u → dict_get "retry_dispatch_count" u = PInt n.
Proof. destruct existing; intros [= <-]; vm_compute; reflexivity. Qed.
Lemma marker_grants m t now cause rec n existing :
  tu_usage_json t = Some (encoded (sanitize_payload (PDict (_progress_usage now m cause rec ++
    [("retry_dispatch_count"%string, PInt n)] ++ prior_interruption existing)))) → granting t → 0 < n.
Proof.
  intros Hu [x Hx]. unfold _retry_permission in Hx. destruct (interrupted t); [simpl in Hx|done].
  rewrite Hu, loads_encoded in Hx. simpl in Hx.
  match type of Hx with context [dict_get _ ?u] => set (usage := u) in * end.
  assert (dict_get "retry_dispatch_count" usage = PInt n) as E by (by apply (marker_retry now m cause rec n existing)).
  rewrite E in Hx. rewrite !andb_true_iff in Hx. destruct Hx as [[[Hc%Z.ltb_lt Heq] _] _].
  rewrite py_eq_ints in Heq. apply Z.eqb_eq in Heq. lia.
Qed.

(** A marker over an unfinished attempt. *)
Lemma replace_writes g r s q m f db db' :
  m ∈ a_pending db → pkey m = (s, q) → finished (get_turn db s q) = false →
  tf_terminal_reason f = Some "interrupted"%string ∨ tf_terminal_reason f = Some "interrupted_for_drain"%string →
  (∀ t, tu_usage_json t = Some (encoded (sanitize_payload (PDict (tf_usage f)))) → granting t → g = true ∧ started m) →
  replace_turn s q (get_turn db s q) f db = Ok db' → writes g r db db' ∧ a_pending db' = a_pending db.
Proof.
  intros Hm Hmk Hf Ht Hg (t & Hk & Hterm & _ & Hu & ->)%replace_turn_ok.
  split; [|done]. apply (mark_writes _ _ m); [done|unfold turn_for; by rewrite Hmk|congruence| |by apply Hg].
  destruct Ht as [Ht|Ht]; rewrite Ht in Hterm; by apply (interrupted_by _ _ Hterm).
Qed.

(** A held attempt is an unfinished one. *)
Lemma held_unfinished now t m hold : _response_lost_hold now t m = Ok (Some hold) → finished t = false.
Proof.
  unfold _response_lost_hold. destruct t as [t|]; [|done]. case_match; [|done].
  destruct (negb _ || negb (lost_marker t)) eqn:E; [done|]. intros _. apply orb_false_elim in E as [_ E].
  apply negb_false_iff, andb_true_iff in E as [E _]. simpl. by rewrite E.
Qed.

Lemma interrupt_writes s q owner db u db' :
  mark_turn_interrupted_sync s q owner db = Ok (u, db') → writes true false db db'.
Proof.
  unfold mark_turn_interrupted_sync. destruct (get_session db s) as [row|]; [|by intros [= _ <-]].
  destruct (get_pending_message db s q) as [m|] eqn:Em; [|by intros [= _ <-]]. case_match; [by intros [= _ <-]|].
  destruct (finished _) eqn:Hf; [by intros [= _ <-]|]. intros (db1 & Hw & [= _ <-])%res_bind_ok.
  apply pending_at in Em as (Hm & Hk & _).
  apply (replace_writes true false _ _ m) in Hw as [Hw _]; [|done|done|done|by left|].
  - eapply write_then; [exact Hw|apply put_session_write].
  - intros t Ht Hg. split; [done|]. left. exact (marker_grants _ _ _ _ _ _ _ Ht Hg).
Qed.

Lemma relay_writes s expected e db b db' :
  relay_response_lost_drain_sync s expected e db = Ok (b, db') → writes true false db db'.
Proof.
  unfold relay_response_lost_drain_sync. destruct (get_session db s) as [row|] eqn:Es; [|by intros [= _ <-]].
  destruct (head_pending db s) as [m|] eqn:Em; [|by intros [= _ <-]]. case_match; [by intros [= _ <-]|].
  intros (hold & Hh & Hq)%res_bind_ok. destruct hold as [hold|]; [|by injection Hq as _ <-].
  destruct (relay_allowed _ _ _ _ _ _) eqn:Ha; cbn [negb] in Hq; [|by injection Hq as _ <-].
  apply res_bind_ok in Hq as (db1 & Hw & [= _ <-]). apply head_found in Em as [Hm Hs].
  assert (pkey m = (s, pm_seq m)) as Hk by (unfold pkey; by rewrite Hs).
  apply (replace_writes true false _ _ m) in Hw as [Hw Hp]; [|done|done|by eapply held_unfinished|by right|].
  - eapply write_then; [eapply write_then; [exact Hw|apply put_session_write]|].
    apply (LTouch _ _ _ m); [simpl; by rewrite Hp|]. split; auto.
  - intros t Ht Hg. split; [done|]. left. exact (marker_grants _ _ _ _ _ _ _ Ht Hg).
Qed.

(** ** Ends: an error, a result *)

Lemma settle_delete agent seq outcome confirmed m db :
  settle agent seq outcome confirmed (delete_pending m db) = delete_pending m (settle agent seq outcome confirmed db).
Proof.
  unfold settle, _adopt. change (reservation (delete_pending m db)) with (reservation db).
  destruct (reservation db _ _); by case_bool_decide.
Qed.
Lemma settle_writes g agent seq outcome confirmed db : writes g true db (settle agent seq outcome confirmed db).
Proof.
  apply rtc_once. destruct confirmed.
  - apply LReleased; [done|apply op_settle|apply settle_queue].
  - apply (weaken g false); [done..|apply settle_write].
Qed.

Lemma error_writes s q msg owner e db b db' :
  mark_turn_error_sync s q msg owner e db = Ok (b, db') → writes false true db db'.
Proof.
  unfold mark_turn_error_sync. next_guard; [done|]. destruct (get_session db s) as [row|]; [|by intros [= _ <-]].
  destruct (get_pending_message db s q) as [m|] eqn:Em; [|by intros [= _ <-]]. apply pending_at in Em as (Hm & Hk & Ht).
  next_guard; [by intros [= _ <-]|]. next_guard; [by intros [= _ <-]|].
  destruct (finished _) eqn:Hf; [intros [= _ <-]; apply rtc_once, LDrop; by rewrite ?Ht|].
  intros (db1 & (t & Htk & _ & _ & _ & ->)%replace_turn_ok & [= _ <-])%res_bind_ok.
  match goal with |- context [settle ?a ?n ?o ?c ?d] => set (agent := a); set (out := o); set (confirmed := c); set (db1 := d) end.
  change (writes false true db (put_session agent (delete_pending m (settle agent q out confirmed db1)))).
  rewrite <-settle_delete. eapply write_then; [|apply put_session_write].
  etrans; [apply rtc_once, (LEnd _ _ _ m t); by rewrite ?Ht, ?Hk|apply settle_writes].
Qed.

Lemma replaced_put t t' db : tkey t' = tkey t → put_turn t' (set_turns (replaced t) db) = set_turns (replaced t') db.
Proof.
  unfold tkey. intros [= Es Eq]. unfold put_turn, set_turns. simpl. f_equal. unfold replaced. rewrite <-Es, <-Eq.
  assert (∀ l, update_where (turn_at (tu_session_id t') (tu_seq t')) (λ _, t')
    (filter (λ x, turn_at (tu_session_id t') (tu_seq t') x = false) l ++ [t]) =
    filter (λ x, turn_at (tu_session_id t') (tu_seq t') x = false) l ++ [t']) as Hu; [|apply Hu].
  assert (turn_at (tu_session_id t') (tu_seq t') t = true) as Ht by (apply turn_at_spec; unfold tkey; by rewrite Es, Eq).
  intros l. induction l as [|x l IH]; [by simpl; rewrite Ht|]. rewrite filter_cons. case_decide as Ex; [|done].
  simpl. by rewrite Ex, IH.
Qed.

Section results.
Context `{ResultHooks}.

(** The turn a completion writes: the one of its key, and a grant only for the
    dispatch its owner held. *)
Lemma drained_interrupted t reason : tu_terminal_reason t = reason → drained reason = true → interrupted t = true.
Proof. unfold drained. intros Ht Hd%bool_decide_eq_true. apply (interrupted_by _ "interrupted_for_drain"); [congruence|done]. Qed.

(** What follows the turn of a completion. *)
Definition completion_end (row : AgentSession) (q : Z) (t : Turn) (pending : option PendingMessage) (db : ADB) : ADB :=
  if drained (tn_terminal_reason t)
  then match pending with Some m => put_pending (with_progress None None (unclaimed m)) db | None => db end
  else settle row q (tn_terminal_reason t) (cessation_shown t)
         (match pending with Some m => delete_pending m db | None => db end).
Lemma completion_writes s q t tu row pending db :
  get_pending_message db s q = pending → finished (get_turn db s q) = false → tkey tu = (s, q) →
  tu_terminal_reason tu = tn_terminal_reason t →
  (drained (tn_terminal_reason t) = true → ∃ m, pending = Some m ∧ is_Some (pm_claimed_by_replica m)) →
  writes true true db (completion_end row q t pending (put_session row (set_turns (replaced tu) db))).
Proof.
  intros Hp Hf Hk Ht Hd. unfold completion_end. destruct (drained _) eqn:Ed.
  - destruct (Hd eq_refl) as (m & -> & Hc). apply pending_at in Hp as (Hm & Hmk & Htm).
    apply (write_then _ _ _ (put_session row (set_turns (replaced tu) db))); [eapply write_then; [|apply put_session_write]|].
    + apply (mark_writes _ _ m); [done|by rewrite Htm|congruence|by eapply drained_interrupted|].
      intros _. split; [done|by right].
    + apply (LTouch _ _ _ m); [done|]. split; auto.
  - etrans; [|apply settle_writes]. destruct pending as [m|].
    + apply pending_at in Hp as (Hm & Hmk & Htm).
      change (delete_pending m (put_session row (set_turns (replaced tu) db))) with
        (put_session row (delete_pending m (set_turns (replaced tu) db))).
      eapply write_then; [|apply put_session_write]. apply rtc_once, (LEnd _ _ _ m tu); [done|by rewrite Htm|congruence].
    + eapply write_then; [|apply put_session_write]. apply rtc_once, LResult.
      * intros m Hm. rewrite Hk. rewrite pending_missing in Hp. by apply Hp.
      * unfold turn_for. by rewrite Hk.
Qed.

(** Ending a drained attempt takes the message its owner still holds. *)
Lemma drain_owned t pending c usage usage' :
  drain_grant t pending (cp_claim_owner c) (cp_dispatch_count c) usage = Ok usage' → owns_dispatch pending c = true →
  drained (tn_terminal_reason t) = true → ∃ m, pending = Some m ∧ is_Some (pm_claimed_by_replica m).
Proof.
  unfold drain_grant, owns_dispatch. intros Hg Ho Hd. rewrite Hd in Hg. simpl in Hg.
  destruct pending as [m|]; [|done]. destruct (cp_claim_owner c) as [o|]; [|done]. exists m. split; [done|].
  apply andb_true_iff in Ho as [Ho%bool_decide_eq_true _]. rewrite Ho. eauto.
Qed.

(** The turn is written over an unfinished attempt, or not at all. *)
Lemma completed_turn s q f db db' :
  create_turn s q f (match get_turn db s q with
                     | Some e => if interrupted e then delete_turn (get_turn db s q) db else db
                     | None => db
                     end) = Ok db' →
  finished (get_turn db s q) = false ∧ ∃ t, tkey t = (s, q) ∧ tu_terminal_reason t = tf_terminal_reason f ∧
    tu_usage_json t = Some (encoded (sanitize_payload (PDict (tf_usage f)))) ∧ db' = set_turns (replaced t) db.
Proof.
  intros Hc. assert (finished (get_turn db s q) = false) as Hf.
  { destruct (get_turn db s q) as [e|] eqn:E; [|done]. simpl in *. destruct (interrupted e); [done|].
    unfold create_turn, add_turn in Hc. simpl in Hc. by rewrite E in Hc. }
  split; [done|]. assert (replace_turn s q (get_turn db s q) f db = Ok db') as (t & Hk & Ht & _ & Hu & Hd)%replace_turn_ok; [|eauto].
  unfold replace_turn. rewrite <-Hc. f_equal. destruct (get_turn db s q) as [e|]; [|done]. simpl in Hf.
  by apply negb_false_iff in Hf as ->.
Qed.
Lemma replaced_get s q t db : tkey t = (s, q) → get_turn (set_turns (replaced t) db) s q = Some t.
Proof.
  unfold tkey. intros [= <- <-]. unfold get_turn. simpl. unfold replaced.
  assert (turn_at (tu_session_id t) (tu_seq t) t = true) as Ht by by apply turn_at_spec.
  induction (a_turns db) as [|x l IH]; [simpl; by rewrite Ht|]. rewrite filter_cons. case_decide as Ex; [|done]. simpl. by rewrite Ex.
Qed.
Lemma completion_turns row q t pending db : a_turns (completion_end row q t pending db) = a_turns db.
Proof.
  unfold completion_end. destruct (drained _); [by destruct pending|].
  rewrite (proj2 (settle_queue row q (tn_terminal_reason t) (cessation_shown t) _)). by destruct pending.
Qed.

(** What a completion did, step by step. *)
Lemma persist_inv s q c db t db' :
  persist_turn_from_pending_sync s q c db = Ok (t, db') →
  let pending := get_pending_message db s q in
  ∃ before row provenance capture usage cost recorded,
    get_session db s = Some before ∧ owns_dispatch pending c = true ∧
    receipt_provenance db before q c = Ok (provenance, row) ∧ capture_producer row q = Ok capture ∧
    continued (get_turn db s q)
      (observed_usage (a_now db) pending (cp_executor_elapsed_ms c) (cp_turn c) capture provenance) (tn_total_cost_usd (cp_turn c)) = Ok (usage, cost) ∧
    drain_grant (cp_turn c) pending (cp_claim_owner c) (cp_dispatch_count c) usage = Ok recorded ∧
    finished (get_turn db s q) = false ∧ tkey t = (s, q) ∧ tu_terminal_reason t = tn_terminal_reason (cp_turn c) ∧
    tu_usage_json t = Some (encoded (sanitize_payload (PDict recorded))) ∧
    db' = completion_end (completed_session (a_now db) c row) q (cp_turn c) pending
            (put_session (completed_session (a_now db) c row) (set_turns (replaced t) db)).
Proof.
  unfold persist_turn_from_pending_sync. destruct (get_session db s) as [row0|]; [|done].
  intros ([] & _ & Hq)%res_bind_ok. revert Hq. next_guard; [done|].
  destruct (owns_dispatch (get_pending_message db s q) c) eqn:Ho; cbn [negb]; [|done].
  intros ([provenance row] & Hprov & Hq)%res_bind_ok. apply res_bind_ok in Hq as ([] & _ & Hq).
  apply res_bind_ok in Hq as (capture & Hcap & Hq). apply res_bind_ok in Hq as ([usage cost] & Hcont & Hq).
  apply res_bind_ok in Hq as (usage' & Hdrain & Hq). apply res_bind_ok in Hq as (db1 & Hc & Hq).
  apply completed_turn in Hc as (Hf & tu & Hk & Ht & Hu & ->).
  match type of Hq with context [put_session ?x ?d] => set (db2 := d) in Hq; set (row' := completed_session (a_now db2) c row) in Hq end.
  change (match get_turn (completion_end row' q (cp_turn c) (get_pending_message db s q) (put_session row' db2)) s q with
          | Some written => Ok (written, completion_end row' q (cp_turn c) (get_pending_message db s q) (put_session row' db2))
          | None => Raise TypeError end = Ok (t, db')) in Hq.
  assert (∃ tu', tkey tu' = (s, q) ∧ tu_terminal_reason tu' = tn_terminal_reason (cp_turn c) ∧
                 tu_usage_json tu' = Some (encoded (sanitize_payload (PDict usage'))) ∧
                 db2 = set_turns (replaced tu') db) as (tu' & Hk' & Ht' & Hu' & Hdb).
  { unfold db2. assert (tu_terminal_reason tu = tn_terminal_reason (cp_turn c) ∧
                        tu_usage_json tu = Some (encoded (sanitize_payload (PDict usage')))) as [Htu Huu].
    { rewrite Ht, Hu. unfold completed_fields. by destruct (diff_of _) as [[? ?] ?], (artifact_of _) as [[? ?] ?]. }
    rewrite (replaced_get s q tu db Hk). destruct (get_turn db s q) as [e|]; [|eauto].
    destruct (drained (tu_terminal_reason e)); [|eauto].
    eexists (with_list_cost _ tu). split_and!; [exact Hk|exact Htu|exact Huu|]. by apply replaced_put. }
  assert (get_turn (completion_end row' q (cp_turn c) (get_pending_message db s q) (put_session row' db2)) s q = Some tu') as Hg.
  { unfold get_turn. rewrite completion_turns. simpl. rewrite Hdb. by apply replaced_get. }
  rewrite Hg in Hq. injection Hq as <- <-. exists row0, row, provenance, capture, usage, cost, usage'. split_and!; try done.
  unfold row'. by rewrite Hdb.
Qed.
Lemma persist_writes s q c db t db' :
  persist_turn_from_pending_sync s q c db = Ok (t, db') → writes true true db db'.
Proof.
  intros (before & row & provenance & capture & usage & cost & recorded & _ & Ho & _ & _ & _ & Hd & Hf & Hk & Ht & _ & ->)%persist_inv.
  apply (completion_writes s); try done. by eapply drain_owned.
Qed.
End results.
End operations.
