(* ===== verification/TurnLane.v ===== *)
(** * Turn store: the lane as a transition system

    The operations of the store that write a session, a message, a turn or a
    permit ([turn_op]), and what their elementary writes keep: the well-formed
    lane ([lane_ok]) and the history of finished turns.
    Then the well-formed lane. *)

From Stdlib Require Import SpecFloat.
From stdpp Require Import prelude list strings relations.
From S2P Require Import Prelude PyValue WorkItems PolicyData Pricing Admission AdmissionInvariant AdmissionClaims TurnStore TurnDispatch TurnGuest TurnResult TurnFacts TurnOps.
Local Open Scope Z_scope.

(** ** Sessions and guests *)

Section guests.
Context `{TurnText}.

Lemma bind_writes agent u db db' : bind_session agent db = Ok (u, db') → writes false false db db'.
Proof.
  intros Hb. apply rtc_once, LHeld; [by eapply hold_bind|]. unfold bind_session in Hb.
  destruct (reservation _ _ _); [|by injection Hb as _ <-]. revert Hb. next_guard; [done|]. by intros [= _ <-].
Qed.
Lemma create_session_writes token q db row db' : create_session token q db = Ok (row, db') → writes false false db db'.
Proof.
  unfold create_session. next_guard; [done|]. next_guard; [done|]. intros ([u db1] & Hb & Hq)%res_bind_ok.
  destruct (get_session db1 _); [|done]. injection Hq as _ <-. etrans; [apply rtc_once|by eapply bind_writes].
  by apply frame_write.
Qed.

(** Operations on one session row. *)
Definition session_write (db db' : ADB) : Prop := db' = db ∨ ∃ row, db' = put_session row db.
Lemma session_writes db db' : session_write db db' → writes false false db db'.
Proof. intros [->|[row ->]]; [done|]. apply rtc_once, put_session_write. Qed.
Ltac row_op := repeat case_match; try done; intros [= _ <-]; (by left) || (right; by eexists).

Lemma status_session s status summary db row db' :
  update_session_status s status summary db = Ok (row, db') → session_write db db'.
Proof. unfold update_session_status. row_op. Qed.
Lemma activate_session s db : session_write db (activate_session_after_enqueue s db).2.
Proof. unfold activate_session_after_enqueue. repeat case_match; [by left|right; by eexists|by left]. Qed.
Lemma ember_session s id token until lineage cli restored db row db' :
  set_ember_session s id token until lineage cli restored db = Ok (row, db') → session_write db db'.
Proof. unfold set_ember_session. intros ([] & _ & Hq)%res_bind_ok. revert Hq. destruct (get_session db s); [|done].
  intros ([] & _ & [= _ <-])%res_bind_ok. right; by eexists. Qed.
Lemma preempted_session s id token until lineage db row db' :
  replace_ember_session_after_preemption s id token until lineage db = Ok (row, db') → session_write db db'.
Proof. unfold replace_ember_session_after_preemption. intros ([] & _ & Hq)%res_bind_ok. revert Hq.
  destruct (get_session db s); [|done]. intros ([] & _ & [= _ <-])%res_bind_ok. right; by eexists. Qed.
Lemma clear_session s db row db' : clear_ember_session s db = Ok (row, db') → session_write db db'.
Proof. unfold clear_ember_session. destruct (get_session db s); [|done].
  intros ([] & _ & [= _ <-])%res_bind_ok. right; by eexists. Qed.
Lemma token_session s token db u db' : _persist_progress_token_sync s token db = Ok (u, db') → session_write db db'.
Proof. unfold _persist_progress_token_sync. intros ([] & _ & Hq)%res_bind_ok. revert Hq. row_op. Qed.
Lemma begin_session token s guest wf settled db res db' :
  begin_guest_cleanup token s guest wf settled db = Ok (res, db') → session_write db db'.
Proof. unfold begin_guest_cleanup. row_op. Qed.
Lemma finish_session s guest wf claim db b db' : finish_guest_cleanup s guest wf claim db = Ok (b, db') → session_write db db'.
Proof. unfold finish_guest_cleanup. row_op. Qed.

Lemma clear_bindings_writes id db : writes false false db (clear_ember_bindings_by_ember_id id db).2.
Proof.
  unfold clear_ember_bindings_by_ember_id. generalize (as_id <$> filter (λ s, as_ember_session_id s = Some id) (a_sessions db)).
  generalize (@nil Z). intros acc l. revert acc db. induction l as [|i l IH]; intros acc db; cbn [foldl]; [done|].
  destruct (clear_one (acc, db) i) as [acc' db1] eqn:E. etrans; [|apply IH]. unfold clear_one in E.
  destruct (get_session db i) as [row|]; [|by injection E as _ <-].
  destruct (_ || _); [by injection E as _ <-|]. destruct (as_result_receipt_fence_id row) as [fence|].
  - destruct (release_ownerless_fence_locked row fence db) as [[row' db2]|] eqn:Er; [|by injection E as _ <-].
    injection E as _ <-. apply (rtc_l _ _ db2); [|apply rtc_once, put_session_write]. unfold release_ownerless_fence_locked in Er.
    repeat case_match; simplify_eq; apply put_session_write.
  - injection E as _ <-. apply rtc_once, put_session_write.
Qed.

Lemma zombie_writes `{IsoFormat} s now p steal db out db' :
  _claim_zombie_session_recovery s now p steal db = Ok (out, db') → writes false false db db'.
Proof.
  unfold _claim_zombie_session_recovery. destruct (get_session db s) as [locked|] eqn:Es; [|by intros [= _ <-]].
  next_guard; [by intros [= _ <-]|]. set (row := with_status "recovering" _). set (db1 := put_session row db).
  assert (writes false false db db1) as Hw by apply rtc_once, put_session_write.
  destruct (head_pending db1 s) as [m|] eqn:Em.
  - apply head_found in Em as [Hm Hs]. apply session_found in Es as [_ Es]. next_guard.
    + intros (db2 & Hf & [= _ <-])%res_bind_ok. etrans; [exact Hw|].
      eapply finish_unknown_writes; [exact Hm| |exact Hf]. by rewrite Hs.
    + intros [= _ <-]. eapply write_then; [|apply put_session_write]. destruct steal; [|done].
      etrans; [exact Hw|]. by apply unclaim_writes.
  - intros [= _ <-]. eapply write_then; [exact Hw|apply put_session_write].
Qed.
Lemma finalize_writes claim now db out db' :
  finalize_zombie_session_recovery claim now db = Ok (out, db') → writes false false db db'.
Proof.
  unfold finalize_zombie_session_recovery. destruct (get_session db _) as [row|]; [|by intros [= _ <-]].
  destruct (get_pending_message db _ _) as [m|] eqn:Em; [|by intros [= _ <-]]. apply pending_at in Em as (Hm & _ & _).
  next_guard; intros [= _ <-]; [done|]. eapply write_then; [by apply unclaim_writes|apply put_session_write].
Qed.

(** The cancelled start gives its permit back as an ordinary settlement does. *)
Lemma cancel_writes s key db : writes false true db (cancel_unqueued_drainer_start s key db).2.
Proof.
  unfold cancel_unqueued_drainer_start. destruct (get_session db s) as [agent|] eqn:Es; [|done].
  destruct (drainer_node_key _) as [node|]; [|done]. destruct (filter _ (a_permits db)) as [|p [|]] eqn:Ef; [done| |done].
  match goal with |- context [if ?c then _ else _] => destruct c eqn:Hc end; [|done]. simpl.
  rewrite !andb_true_iff in Hc. destruct Hc as [[[[[[Hkey%bool_decide_eq_true _] _] _] _] Hp] _].
  unfold unqueued_permit in Hp. rewrite !andb_true_iff in Hp.
  destruct Hp as [[[[[[[_ Hloc%bool_decide_eq_true] Hseq%Z.eqb_eq] _] Hst%bool_decide_eq_true] _] _] _].
  match goal with |- context [put_session ?x db] => set (row := x) end. set (db1 := put_session row db).
  apply (rtc_l _ _ db1); [apply put_session_write|].
  assert (reservation db1 (as_local_session_id agent) 1 = Some p) as Hr.
  { change (find_first (is_permit (as_local_session_id agent) 1) (a_permits db) = Some p).
    assert (∀ x, x ∈ a_permits db → is_permit (as_local_session_id agent) 1 x = true → x = p) as Hone.
    { intros x Hx [= Hx1 _]%is_permit_spec. apply list_elem_of_singleton. rewrite <-Ef. apply list_elem_of_filter.
      split; [right; congruence|done]. }
    destruct (find_first _ (a_permits db)) as [x|] eqn:E.
    - apply find_first_Some in E as [Hx Hi]. f_equal. by apply Hone.
    - assert (p ∈ a_permits db) as Hin by (eapply proj2, list_elem_of_filter; rewrite Ef; by apply list_elem_of_singleton).
      apply find_first_None with (x := p) in E; [|done]. rewrite (proj2 (is_permit_spec _ _ p)) in E; [done|].
      unfold permit_key. by rewrite Hloc, Hseq. }
  assert (settle agent 1 (Some "cancelled_before_enqueue"%string) true db1 =
          put_permit (permit_close "settled" (Some "cancelled_before_enqueue"%string) (Some (a_now db)) p) db1) as <-;
    [|apply settle_writes].
  unfold settle, _adopt. rewrite Hr. by rewrite Hst.
Qed.
End guests.

(** ** All operations *)

Section relation.
Context `{TurnText, IsoFormat, PriceBook}.

(** The limits, the collaborators and the readers of a receipt may differ from
    one call to the next.  [turn_hold] and [turn_pool] are the operations of
    admission and whatever writes neither the queue nor a turn; the parts that
    write those rows themselves, and [delete_pending_message_sync], are the steps
    of [DirectWriters.direct_op]. *)
Inductive turn_op : bool → bool → relation ADB :=
| turn_hold db db' : holding_op db db' → same_queue db db' → turn_op false false db db'
| turn_pool db db' : pool_op db db' → same_queue db db' → turn_op false true db db'
| turn_create token q db row db' : create_session token q db = Ok (row, db') → turn_op false false db db'
| turn_status s status summary db row db' :
    update_session_status s status summary db = Ok (row, db') → turn_op false false db db'
| turn_activate s db : turn_op false false db (activate_session_after_enqueue s db).2
| turn_ember s id token until lineage cli restored db row db' :
    set_ember_session s id token until lineage cli restored db = Ok (row, db') → turn_op false false db db'
| turn_preempted s id token until lineage db row db' :
    replace_ember_session_after_preemption s id token until lineage db = Ok (row, db') → turn_op false false db db'
| turn_clear s db row db' : clear_ember_session s db = Ok (row, db') → turn_op false false db db'
| turn_clear_all id db : turn_op false false db (clear_ember_bindings_by_ember_id id db).2
| turn_token s token db u db' : _persist_progress_token_sync s token db = Ok (u, db') → turn_op false false db db'
| turn_begin token s guest wf settled db out db' :
    begin_guest_cleanup token s guest wf settled db = Ok (out, db') → turn_op false false db db'
| turn_finish s guest wf claim db b db' : finish_guest_cleanup s guest wf claim db = Ok (b, db') → turn_op false false db db'
| turn_enqueue s text model recall live db m db' :
    create_pending_message s text model recall live db = Ok (m, db') → turn_op false false db db'
| turn_progress token text activities db w db' :
    write_progress_sync token text activities db = Ok (w, db') → turn_op false false db db'
| turn_refresh s q owner db : turn_op false false db (refresh_claim_sync s q owner db).2
| turn_claim (En : Environ) (Hk : AdmissionHooks) s owner db out db' :
    claim_pending_message_for_session_sync s owner db = Ok (out, db') → turn_op false false db db'
| turn_release s q owner cause count db b db' :
    release_pending_message_claim_sync s q owner cause count db = Ok (b, db') → turn_op false false db db'
| turn_reclaim db n db' : reclaim_stale_claims_sync db = Ok (n, db') → turn_op false false db db'
| turn_lost s q owner n l hold db b db' :
    mark_turn_response_lost_sync s q owner n l hold db = Ok (b, db') → turn_op false false db db'
| turn_settle_hold s reason expected db b db' :
    settle_response_lost_hold s reason expected db = Ok (b, db') → turn_op false false db db'
| turn_finish_unknown s q owner count cause guest wf db b db' :
    finish_unknown_pending_in_session s q owner count cause guest wf db = Ok (b, db') → turn_op false false db db'
| turn_zombie s cutoff now db out db' : claim_zombie_session_recovery s cutoff now db = Ok (out, db') → turn_op false false db db'
| turn_hung s cutoff now expected db out db' :
    claim_hung_zombie_session_recovery s cutoff now expected db = Ok (out, db') → turn_op false false db db'
| turn_finalize claim now db out db' : finalize_zombie_session_recovery claim now db = Ok (out, db') → turn_op false false db db'
| turn_cancel s key db : turn_op false true db (cancel_unqueued_drainer_start s key db).2
| turn_error s q msg owner e db b db' : mark_turn_error_sync s q msg owner e db = Ok (b, db') → turn_op false true db db'
| turn_relay s expected e db b db' : relay_response_lost_drain_sync s expected e db = Ok (b, db') → turn_op true false db db'
| turn_interrupt s q owner db u db' : mark_turn_interrupted_sync s q owner db = Ok (u, db') → turn_op true false db db'
| turn_persist (Rh : ResultHooks) s q c db t db' :
    persist_turn_from_pending_sync s q c db = Ok (t, db') → turn_op true true db db'.

Lemma turn_op_writes g r db db' : turn_op g r db db' → writes g r db db'.
Proof.
  destruct 1.
  - by apply rtc_once, LHeld.
  - by apply rtc_once, LReleased.
  - by eapply create_session_writes.
  - by eapply session_writes, status_session.
  - by apply session_writes, activate_session.
  - by eapply session_writes, ember_session.
  - by eapply session_writes, preempted_session.
  - by eapply session_writes, clear_session.
  - by apply clear_bindings_writes.
  - by eapply session_writes, token_session.
  - by eapply session_writes, begin_session.
  - by eapply session_writes, finish_session.
  - by eapply enqueue_writes.
  - by eapply progress_writes.
  - by apply refresh_writes.
  - by eapply claim_writes.
  - by eapply release_writes.
  - by eapply reclaim_all_writes.
  - by eapply lost_writes.
  - by eapply settle_hold_writes.
  - by eapply finish_pending_writes.
  - by eapply zombie_writes.
  - by eapply zombie_writes.
  - by eapply finalize_writes.
  - apply cancel_writes.
  - by eapply error_writes.
  - by eapply relay_writes.
  - by eapply interrupt_writes.
  - by eapply persist_writes.
Qed.

(** Some step of the store; one that grants nothing; one that frees nothing. *)
Definition lane_step (db db' : ADB) : Prop := ∃ g r, turn_op g r db db'.
Definition ungranted_step (db db' : ADB) : Prop := ∃ r, turn_op false r db db'.
Definition held_lane_step (db db' : ADB) : Prop := ∃ g, turn_op g false db db'.

Lemma lane_step_writes db db' : rtc lane_step db db' → writes true true db db'.
Proof.
  induction 1 as [|a b c (g & r & Hs) _ IH]; [done|]. etrans; [|exact IH].
  by apply (weaken_all g r), turn_op_writes.
Qed.
Lemma ungranted_writes db db' : rtc ungranted_step db db' → writes false true db db'.
Proof.
  induction 1 as [|a b c (r & Hs) _ IH]; [done|]. etrans; [|exact IH]. by apply (weaken_all false r), turn_op_writes.
Qed.
Lemma held_writes db db' : rtc held_lane_step db db' → writes true false db db'.
Proof.
  induction 1 as [|a b c (g & Hs) _ IH]; [done|]. etrans; [|exact IH]. by apply (weaken_all g false), turn_op_writes.
Qed.
End relation.

(** * Turn store: the well-formed lane

    What every elementary write keeps: one message and one turn per number,
    only interrupted attempts behind a queued message, dispatch counts within
    their bound, and no grant for a message that was never dispatched. *)

Section invariant.
Context `{TurnText}.

Record lane_ok (db : ADB) : Prop := mkLaneOk
  { lo_pending : NoDup (pkey <$> a_pending db);
    lo_turns : NoDup (tkey <$> a_turns db);
    lo_open : ∀ m t, m ∈ a_pending db → t ∈ a_turns db → tkey t = pkey m → interrupted t = true;
    lo_count : ∀ m, m ∈ a_pending db → 0 ≤ pm_dispatch_count m ≤ MAX_PENDING_DISPATCHES;
    lo_claim : ∀ m, m ∈ a_pending db → is_Some (pm_claimed_by_replica m) → 1 ≤ pm_dispatch_count m;
    lo_single : ∀ m, m ∈ a_pending db → is_Some (pm_claimed_by_replica m) → heads db m;
    lo_first : ∀ m t, m ∈ a_pending db → t ∈ a_turns db → tkey t = pkey m → pm_dispatch_count m = 0 → ¬ granting t }.

Lemma one_message db m x : lane_ok db → m ∈ a_pending db → x ∈ a_pending db → pkey x = pkey m → x = m.
Proof. intros Hok Hm Hx Hk. by apply (NoDup_fmap_elem pkey (a_pending db)); [apply Hok|..]. Qed.
Lemma turn_key db k t : NoDup (tkey <$> a_turns db) → turn_for db k = Some t ↔ t ∈ a_turns db ∧ tkey t = k.
Proof.
  intros Hok. unfold turn_for. split.
  - intros [Ht Hk]%turn_found. by destruct k.
  - intros [Ht Hk]. destruct (get_turn db k.1 k.2) as [x|] eqn:E.
    + apply turn_found in E as [Hx Hxk]. f_equal. apply (NoDup_fmap_elem tkey (a_turns db)); [done..|].
      rewrite Hxk, Hk. by destruct k.
    + rewrite turn_missing in E. destruct (E t Ht). rewrite Hk. by destruct k.
Qed.

(** Rows that change in place, the identity and the claims of the message kept. *)
Lemma put_pending_elem m db x :
  x ∈ a_pending (put_pending m db) → (x = m ∧ ∃ y, y ∈ a_pending db ∧ pkey y = pkey m) ∨ (x ∈ a_pending db ∧ pkey x ≠ pkey m).
Proof.
  simpl. intros (y & Hy & ->)%elem_of_update_where. destruct (at_key _ _ y) eqn:E.
  - apply at_key_spec in E. left. eauto.
  - apply at_key_false in E. by right.
Qed.
Lemma requeued_ok m m' db :
  lane_ok db → m ∈ a_pending db → pkey m' = pkey m →
  0 ≤ pm_dispatch_count m' ≤ MAX_PENDING_DISPATCHES →
  (is_Some (pm_claimed_by_replica m') → 1 ≤ pm_dispatch_count m') →
  (pm_dispatch_count m' = 0 → ∀ t, t ∈ a_turns db → tkey t = pkey m → ¬ granting t) →
  (is_Some (pm_claimed_by_replica m') → heads db m) → lane_ok (put_pending m' db).
Proof.
  intros Hok Hm Hk Hc Hcl H0 Hh. destruct Hok as [Hp Ht Ho Hn Hl Hs Hf].
  assert (∀ x, heads db x → heads (put_pending m' db) x) as Hheads.
  { intros x Hx y [[-> _]|[Hy _]]%put_pending_elem Hyx; [|by apply Hx]. injection Hk as Es Eq. rewrite Eq. apply (Hx m); congruence. }
  split; [|done|..].
  - simpl. rewrite update_where_fmap; [done|]. intros x _ E%at_key_spec. by rewrite E.
  - intros x t [[-> _] | [Hx _]]%put_pending_elem Htt Htk; [apply (Ho m); [done|done|congruence]|by apply (Ho x)].
  - intros x [[-> _] | [Hx _]]%put_pending_elem; auto.
  - intros x [[-> _] | [Hx _]]%put_pending_elem; auto.
  - intros x [[-> _] | [Hx _]]%put_pending_elem Hc'; [|by apply Hheads, Hs].
    specialize (Hheads m (Hh Hc')). unfold heads in *. injection Hk as -> ->. done.
  - intros x t [[-> _] | [Hx _]]%put_pending_elem Htt Htk Hz; [apply H0; [done|done|congruence]|by apply (Hf x)].
Qed.
Lemma queued_put_ok m m' db :
  lane_ok db → m ∈ a_pending db → pkey m' = pkey m →
  0 ≤ pm_dispatch_count m' ≤ MAX_PENDING_DISPATCHES →
  (is_Some (pm_claimed_by_replica m') → 1 ≤ pm_dispatch_count m') →
  (pm_dispatch_count m' = 0 → pm_dispatch_count m = 0) →
  (is_Some (pm_claimed_by_replica m') → heads db m) → lane_ok (put_pending m' db).
Proof.
  intros Hok Hm Hk Hc Hcl H0 Hh. apply (requeued_ok m); try done. intros Hz t Ht Htk.
  apply (lo_first _ Hok m); auto.
Qed.
Lemma turns_ok f db :
  lane_ok db → NoDup (tkey <$> f (a_turns db)) →
  (∀ m t, m ∈ a_pending db → t ∈ f (a_turns db) → tkey t = pkey m →
     interrupted t = true ∧ (pm_dispatch_count m = 0 → ¬ granting t)) → lane_ok (set_turns f db).
Proof. intros [] Hnd Hm. split; simpl; try done; intros; by eapply Hm. Qed.
Lemma dropped_ok m db : lane_ok db → lane_ok (delete_pending m db).
Proof.
  intros []. split; simpl; [by apply NoDup_fmap_filter|done|intros x t|intros x|intros x|intros x|intros x t];
    intros [_ Hx]%list_elem_of_filter; eauto.
  intros Hc y [_ Hy]%list_elem_of_filter. by apply lo_single0.
Qed.

Lemma elem_of_replaced t l x : x ∈ replaced t l ↔ (x ∈ l ∧ tkey x ≠ tkey t) ∨ x = t.
Proof.
  unfold replaced. rewrite elem_of_app, list_elem_of_filter, list_elem_of_singleton, turn_at_false. unfold tkey at 2. tauto.
Qed.
Lemma replaced_NoDup t l : NoDup (tkey <$> l) → NoDup (tkey <$> replaced t l).
Proof.
  intros Hl. unfold replaced. rewrite fmap_app. apply NoDup_app. split_and!; [by apply NoDup_fmap_filter| |apply NoDup_singleton].
  intros k (x & -> & [Hx _]%list_elem_of_filter)%list_elem_of_fmap E%list_elem_of_singleton. by apply turn_at_false in Hx.
Qed.

Lemma retry_bounds t m : _retry_permission (Some t) m = true → 0 < pm_dispatch_count m ∧ pm_dispatch_count m < MAX_PENDING_DISPATCHES.
Proof.
  unfold _retry_permission. destruct (negb (interrupted t)); [done|]. repeat case_match; try done.
  rewrite !andb_true_iff, !Z.ltb_lt. tauto.
Qed.
Lemma unattempted_count m : _attempted m = false → pm_dispatch_count m = 0.
Proof. unfold _attempted. rewrite !orb_false_iff. intros [[[[Hc%negb_false_iff _] _] _] _]. by apply Z.eqb_eq. Qed.

Lemma enqueue_ok m db : fresh db m → lane_ok db → lane_ok (set_pending (λ l, l ++ [m]) db).
Proof.
  intros [Hp Ht Ha Hc Hcl] [Np Nt Ho Hn Hl Hs Hf]. assert (∀ t, t ∈ a_turns db → tkey t ≠ pkey m) as Hnew.
  { intros t Hin [= Es Eq]. specialize (Ht t Hin Es). lia. }
  split; simpl; [|done|..].
  - rewrite fmap_app. apply NoDup_app. split_and!; [done| |apply NoDup_singleton].
    intros k (x & -> & Hx)%list_elem_of_fmap E%list_elem_of_singleton. injection E as Es Eq. specialize (Hp x Hx Es). lia.
  - intros x t [Hx | ->%list_elem_of_singleton]%elem_of_app Hin Hk; [by eapply Ho|by destruct (Hnew t Hin)].
  - intros x [Hx | ->%list_elem_of_singleton]%elem_of_app; [auto|]. rewrite Hc. unfold MAX_PENDING_DISPATCHES. lia.
  - intros x [Hx | ->%list_elem_of_singleton]%elem_of_app; [auto|]. rewrite Hcl. by intros [].
  - intros x [Hx | ->%list_elem_of_singleton]%elem_of_app; [|rewrite Hcl; by intros []].
    intros Hxc y [Hy | ->%list_elem_of_singleton]%elem_of_app Hyx; [by apply Hs|]. symmetry in Hyx. specialize (Hp x Hx Hyx). lia.
  - intros x t [Hx | ->%list_elem_of_singleton]%elem_of_app Hin Hk; [by eapply Hf|by destruct (Hnew t Hin)].
Qed.
(** The turn whose grant is spent keeps its identity and its outcome. *)
Lemma consume_ok t k db : turn_for db k = Some t → lane_ok db → lane_ok (consume_grant (Some t) db).
Proof.
  intros Ht Hok. apply turn_key in Ht as [Ht Hk]; [|apply Hok]. unfold consume_grant.
  destruct (loads_or _ _) as [[| | | | | |u|]|] eqn:Eu; try done.
  unfold put_turn. apply turns_ok; [done| |].
  - rewrite update_where_fmap; [apply Hok|]. intros x _ E%turn_at_spec. by rewrite E.
  - intros m x Hm (y & Hy & ->)%elem_of_update_where Hxk. destruct (turn_at _ _ y) eqn:E.
    + split; [by apply (lo_open _ Hok m t)|]. intros _ [z Hz]. by rewrite spent_grants_nothing in Hz.
    + split; [by apply (lo_open _ Hok m)|by apply (lo_first _ Hok m)].
Qed.

Lemma write_ok g r db db' : lane_write g r db db' → lane_ok db → lane_ok db'.
Proof.
  destruct 1 as [db' _ [Ep Et]|db' _ _ [Ep Et]|m [Hp Ht Ha Hc Hcl]|m m' Hm [Hk Hc _ Hcl]|m m' Hm Hhd Ha [Hk Hc _ Hfree Hcl]|
    m m' t Hm Hhd Ht Hr [Hk Hc _ Hfree Hcl]|m t Hm Hf Hk Hi Hg|m t Hm Hf Hk|m Hm Hf|t Hno Hf]; intros Hok.
  1-2: destruct Hok; split; unfold heads in *; rewrite ?Ep, ?Et; done.
  - by apply enqueue_ok.
  - pose proof (lo_count _ Hok m Hm). assert (is_Some (pm_claimed_by_replica m') → is_Some (pm_claimed_by_replica m)) as Hs
      by (destruct Hcl as [-> | ->]; [done|by intros []]).
    apply (queued_put_ok m); [done..|lia| |lia|]; intros Hs'%Hs; [rewrite Hc; by apply (lo_claim _ Hok)|by apply (lo_single _ Hok)].
  - pose proof (unattempted_count _ Ha). apply (queued_put_ok m); [done..|unfold MAX_PENDING_DISPATCHES; lia|lia|lia|done].
  - destruct (retry_bounds _ _ Hr). assert (a_pending (consume_grant (Some t) db) = a_pending db) as Ep
      by (unfold consume_grant; by repeat case_match).
    apply (queued_put_ok m); [by eapply consume_ok|by rewrite Ep|done|lia..|unfold heads; by rewrite Ep].
  - apply turns_ok; [done|by apply replaced_NoDup, Hok|]. intros x y Hx [[Hy _] | ->]%elem_of_replaced Hxy.
    + split; [by apply (lo_open _ Hok x)|by apply (lo_first _ Hok x)].
    + split; [done|]. intros Hz Hgr. assert (x = m) as -> by (apply (one_message db); congruence).
      destruct (Hg Hgr) as [_ [?|Hcl]]; [lia|]. pose proof (lo_claim _ Hok m Hm Hcl). lia.
  - change (lane_ok (set_turns (replaced t) (delete_pending m db))). apply turns_ok; [by apply dropped_ok|by apply replaced_NoDup, Hok|].
    simpl. intros x y [Hxk%at_key_false Hx]%list_elem_of_filter [[Hy _] | ->]%elem_of_replaced Hxy.
    + split; [by apply (lo_open _ Hok x)|by apply (lo_first _ Hok x)].
    + destruct Hxk. rewrite <-Hxy. done.
  - by apply dropped_ok.
  - apply turns_ok; [done|by apply replaced_NoDup, Hok|]. intros x y Hx [[Hy _] | ->]%elem_of_replaced Hxy.
    + split; [by apply (lo_open _ Hok x)|by apply (lo_first _ Hok x)].
    + by destruct (Hno x Hx).
Qed.
Lemma writes_ok g r db db' : writes g r db db' → lane_ok db → lane_ok db'.
Proof. induction 1; eauto using write_ok. Qed.
End invariant.
