(* ===== verification/ResultReceipts.v ===== *)
(** * Native result receipts: definitions

    [factory/execution/result_receipts.py].  A receipt is minted for one physical
    dispatch before its POST; the guest publishes its result under it, and only
    the exact active executor may consume it.  While the original POST may still
    return, the receipt fences the session.  Every operation locks what it
    writes, so one call is one step ([tx ADB]). *)

From Stdlib Require Import SpecFloat Ascii.
From stdpp Require Import prelude list strings.
From S2P Require Import Prelude PyValue WorkItems PolicyData Controls Pricing Admission TurnStore TurnDispatch TurnResult.
Local Open Scope Z_scope.

(** ** What the receipts call *)

(** SHA-256 of a text, the runtime meter ([factory_runtime_meter.bind], which
    may refuse the invocation, and [runtime_meter_evidence.validate_completion]),
    and the parser of a native result ([transport.parse_native_turn]). *)
Class ReceiptHooks := {
  sha256 : string → string;
  meter_bind : ADB → AgentResultReceipt → AgentSession → string → res pyval;
  validate_completion : ADB → string → pyval → res unit;
  parse_native_turn : pyval → option string → pyval → pyval → res Turn;
}.

(** ** Constants and refusals *)

Definition MAX_RESULT_BYTES : Z := 32 * 1024 * 1024.
Definition ACCEPT_HOURS : Z := 13.
Definition RETAIN_DAYS : Z := 7.
Definition PRUNE_BATCH : nat := 100.
Definition MAX_USAGE_AGE_SECONDS : Z := 900.
Definition hours (n : Z) : Z := n * 3600 * 1000000.
Definition CLAIM_SECONDS : Z := 30.

(** [ReceiptRejected] is a [ValueError]; its reason is its message. *)
Definition rejected {A} (reason : string) : res A := Raise (ValueError reason).
(** The HTTP status that goes with a reason. *)
Definition rejected_status (reason : string) : Z :=
  if bool_decide (reason = "invalid_receipt_token"%string) then 401 else
  if str_in reason ["receipt_expired"; "receipt_acceptance_expired"] then 410 else
  if bool_decide (reason = "result_too_large"%string) then 413 else
  if str_in reason ["invalid_result_json"; "result_must_be_object"] then 422 else 409.

(** ** The metered canary *)

Definition task_name (s : string) : bool :=
  all_chars (λ c, is_alnum c || is_char 95 c || is_char 45 c) s && (1 <=? String.length s)%nat && (String.length s <=? 128)%nat.
Definition meter_enrolled `{Environ} (local_session_id : string) (model : option string) : bool :=
  let tasks := py_strip <$> split_on (ascii_of_nat 44) (default ""%string (environ "FACTORY_RUNTIME_METER_TASK_IDS")) in
  flag "FACTORY_RUNTIME_METER_ENABLED" && bool_decide (model = Some "astra"%string) && forallb task_name tasks &&
  match split_on (ascii_of_nat 58) local_session_id with
  | [p0; p1; _; _] => bool_decide (p0 = "factory"%string) && str_in p1 tasks
  | _ => false
  end.
(** [_prepare_transaction]: whether the session is metered. *)
Definition metered `{Environ} (db : ADB) (session_id : Z) : bool :=
  flag "FACTORY_RUNTIME_METER_ENABLED" &&
  match get_session db session_id with Some s => meter_enrolled (as_local_session_id s) (as_model s) | None => false end.

(** ** Rows *)

Definition set_receipts (f : list AgentResultReceipt → list AgentResultReceipt) (db : ADB) : ADB :=
  mkADB (a_permits db) (a_sessions db) (a_pending db) (a_turns db) (f (a_receipts db)) (a_now db).
Definition has_id (id : string) (r : AgentResultReceipt) : bool := bool_decide (rr_id r = id).
(** [_locked_receipt], [_receipt_metadata]: the row, if it is still retained. *)
Definition get_receipt (db : ADB) (id : string) : option AgentResultReceipt := find_first (has_id id) (a_receipts db).
Definition update_receipt (id : string) (f : AgentResultReceipt → AgentResultReceipt) : ADB → ADB :=
  set_receipts (update_where (has_id id) f).

Definition with_superseded (at_ : option Z) (r : AgentResultReceipt) : AgentResultReceipt :=
  mkResultReceipt (rr_id r) (rr_token_sha256 r) (rr_session_id r) (rr_local_session_id r) (rr_seq r) (rr_dispatch_count r)
    (rr_claim_owner r) (rr_guest_id r) (rr_request_sha256 r) (rr_created_at r) (rr_accept_until r) (rr_retain_until r)
    at_ (rr_attempt_phase r) (rr_received_at r) (rr_response_observed_at r) (rr_observer_released_at r)
    (rr_result_sha256 r) (rr_result_body r).
Definition with_phase (phase : option string) (r : AgentResultReceipt) : AgentResultReceipt :=
  mkResultReceipt (rr_id r) (rr_token_sha256 r) (rr_session_id r) (rr_local_session_id r) (rr_seq r) (rr_dispatch_count r)
    (rr_claim_owner r) (rr_guest_id r) (rr_request_sha256 r) (rr_created_at r) (rr_accept_until r) (rr_retain_until r)
    (rr_superseded_at r) phase (rr_received_at r) (rr_response_observed_at r) (rr_observer_released_at r)
    (rr_result_sha256 r) (rr_result_body r).
Definition with_result (received : Z) (digest body : string) (r : AgentResultReceipt) : AgentResultReceipt :=
  mkResultReceipt (rr_id r) (rr_token_sha256 r) (rr_session_id r) (rr_local_session_id r) (rr_seq r) (rr_dispatch_count r)
    (rr_claim_owner r) (rr_guest_id r) (rr_request_sha256 r) (rr_created_at r) (rr_accept_until r) (rr_retain_until r)
    (rr_superseded_at r) (rr_attempt_phase r) (Some received) (rr_response_observed_at r) (rr_observer_released_at r)
    (Some digest) (Some body).
Definition with_response (observed released : option Z) (r : AgentResultReceipt) : AgentResultReceipt :=
  mkResultReceipt (rr_id r) (rr_token_sha256 r) (rr_session_id r) (rr_local_session_id r) (rr_seq r) (rr_dispatch_count r)
    (rr_claim_owner r) (rr_guest_id r) (rr_request_sha256 r) (rr_created_at r) (rr_accept_until r) (rr_retain_until r)
    (rr_superseded_at r) (rr_attempt_phase r) (rr_received_at r) observed released (rr_result_sha256 r) (rr_result_body r).

(** ** Whose invocation it is *)

(** The identity a caller passes, and its type checks. *)
Record Invocation := mkInvocation { iv_session_id : pyval; iv_claim_owner : pyval; iv_dispatch_count : pyval; iv_guest_id : pyval }.
Definition typed_invocation (i : Invocation) : option (Z * string * Z * string) :=
  match iv_session_id i, nonempty_str (iv_claim_owner i), iv_dispatch_count i, nonempty_str (iv_guest_id i) with
  | PInt s, Some owner, PInt n, Some guest => if (1 <=? s) && (1 <=? n) then Some (s, owner, n, guest) else None
  | _, _, _, _ => None
  end.
Definition invocation (session_id : Z) (claim_owner : string) (dispatch_count : Z) (guest_id : string) : Invocation :=
  mkInvocation (PInt session_id) (PStr claim_owner) (PInt dispatch_count) (PStr guest_id).
Definition _check_identity (r : AgentResultReceipt) (i : Invocation) : res unit :=
  match typed_invocation i with
  | Some (s, owner, n, guest) =>
      if (rr_session_id r =? s) && bool_decide (rr_claim_owner r = owner) && (rr_dispatch_count r =? n) &&
         bool_decide (rr_guest_id r = guest)
      then Ok tt else rejected "receipt_identity_changed"
  | None => rejected "receipt_identity_changed"
  end.

(** A claim refreshed within the last thirty seconds, and not in the future. *)
Definition live_claim (now : Z) (m : PendingMessage) : bool :=
  match pm_claimed_at m with
  | Some t => (0 <=? now - t) && (now - t <? CLAIM_SECONDS * 1000000)
  | None => false
  end.
(** [.one_or_none()] of the permits of a turn. *)
Definition one_permit (db : ADB) (session_id seq : Z) : res (option Permit) :=
  match filter (λ p, cr_session_id p = Some session_id ∧ cr_pending_seq p = seq) (a_permits db) with
  | [] => Ok None
  | [p] => Ok (Some p)
  | _ => Raise (RuntimeError "MultipleResultsFound")
  end.
Definition running_for (local_session_id owner : string) (p : option Permit) : bool :=
  match p with
  | Some p => bool_decide (cr_state p = "running"%string) && bool_decide (cr_owner p = Some owner) &&
              bool_decide (cr_local_session_id p = local_session_id)
  | None => false
  end.
Definition dead_status (s : AgentSession) : bool := str_in (as_status s) ["failed"; "awaiting_login"].

Definition _preparation_owner (db : ADB) (session_id : Z) (claim_owner : string) (dispatch_count : Z) (guest_id : string)
    : res (AgentSession * PendingMessage) :=
  match get_session db session_id, head_pending db session_id with
  | Some agent, Some pending =>
      if dead_status agent || negb (bool_decide (as_ember_session_id agent = Some guest_id)) ||
         is_set (as_result_receipt_fence_id agent) || cleanup_pending db agent ||
         negb (bool_decide (pm_claimed_by_replica pending = Some claim_owner)) ||
         negb (pm_dispatch_count pending =? dispatch_count) || negb (live_claim (a_now db) pending)
      then rejected "executor_ownership_changed" else
      permit ← one_permit db session_id (pm_seq pending);
      let previous := get_turn db session_id (pm_seq pending) in
      if negb (running_for (as_local_session_id agent) claim_owner permit) || has_unknown_outcome db session_id
      then rejected "invocation_not_admitted" else
      covered ← _covered_response_lost_hold previous claim_owner dispatch_count;
      if (covered : bool) || finished previous then rejected "invocation_not_admitted" else Ok (agent, pending)
  | _, _ => rejected "executor_ownership_changed"
  end.

(** ** Preparing an invocation *)

(** The turn's receipts that an older dispatch left current. *)
Definition current_for (session_id seq : Z) (r : AgentResultReceipt) : bool :=
  (rr_session_id r =? session_id) && (rr_seq r =? seq) && negb (is_set (rr_superseded_at r)).
Definition supersede (session_id seq : Z) (db : ADB) : ADB :=
  set_receipts (update_where (current_for session_id seq) (with_superseded (Some (a_now db)))) db.

(** [uuid4().hex] and [secrets.token_urlsafe(32)]. *)
Record Mint := mkMint { mt_id : string; mt_token : string }.
Definition meter_fields `{ReceiptHooks} (on : bool) (db : ADB) (r : AgentResultReceipt) (agent : AgentSession) (body : string) : res dict :=
  if on then
    meter ← meter_bind db r agent body;
    Ok [("runtime_meter", meter); ("runtime_meter_max_age_seconds", PInt MAX_USAGE_AGE_SECONDS)]%string
  else Ok [].
Definition minted_receipt `{ReceiptHooks} (mint : Mint) (now : Z) (agent : AgentSession) (seq : Z) (claim_owner : string)
    (dispatch_count : Z) (guest_id request_body : string) (staged : bool) : AgentResultReceipt :=
  mkResultReceipt (mt_id mint) (sha256 (mt_token mint)) (as_id agent) (as_local_session_id agent) seq dispatch_count claim_owner
    guest_id (sha256 request_body) now (now + hours ACCEPT_HOURS) (now + hours (24 * RETAIN_DAYS))
    (if staged then Some now else None) (if staged then Some "prepared"%string else None) None None None None None.
(** The primary key, and the unique constraint on the token's digest. *)
Definition add_receipt (r : AgentResultReceipt) (db : ADB) : res ADB :=
  if existsb (λ x, bool_decide (rr_id x = rr_id r) || bool_decide (rr_token_sha256 x = rr_token_sha256 r)) (a_receipts db)
  then integrity_error else Ok (set_receipts (λ l, l ++ [r]) db).
Definition prepare_receipt `{Environ, ReceiptHooks} (mint : Mint) (i : Invocation) (request_body : string) (staged : bool)
    : tx ADB dict := λ db,
  match typed_invocation i with
  | None => rejected "invalid_invocation_identity"
  | Some (session_id, claim_owner, dispatch_count, guest_id) =>
      '(agent, pending) ← _preparation_owner db session_id claim_owner dispatch_count guest_id;
      let on := metered db session_id in
      let seq := pm_seq pending in
      let r := minted_receipt mint (a_now db) agent seq claim_owner dispatch_count guest_id request_body staged in
      db ← add_receipt r (if staged then db else supersede session_id seq db);
      meter ← meter_fields (on && negb staged) db r agent request_body;
      Ok ([("id", PStr (mt_id mint)); ("token", PStr (mt_token mint))]%string ++ meter, db)
  end.

(** ** The attempt *)

(** A preparation nothing has touched since. *)
Definition untouched_preparation `{ReceiptHooks} (now : Z) (agent : AgentSession) (seq : Z) (request_body : string)
    (r : AgentResultReceipt) : bool :=
  bool_decide (rr_attempt_phase r = Some "prepared"%string) && bool_decide (rr_superseded_at r = Some (rr_created_at r)) &&
  bool_decide (rr_local_session_id r = as_local_session_id agent) && (rr_seq r =? seq) &&
  bool_decide (rr_request_sha256 r = sha256 request_body) && negb (is_set (rr_result_sha256 r)) &&
  negb (is_set (rr_received_at r)) && negb (is_set (rr_response_observed_at r)) && negb (is_set (rr_observer_released_at r)) &&
  negb (is_set (rr_result_body r)) && (now <? rr_accept_until r).
Definition newer_receipt (session_id seq : Z) (r x : AgentResultReceipt) : bool :=
  (rr_session_id x =? session_id) && (rr_seq x =? seq) && negb (bool_decide (rr_id x = rr_id r)) &&
  (rr_created_at r <=? rr_created_at x).
(** [on_attempt] is the transport's: it may raise, and then nothing is written. *)
Definition attempt_prepared_receipt `{Environ, ReceiptHooks} (receipt_id : string) (session_id : Z) (claim_owner : string)
    (dispatch_count : Z) (guest_id request_body : string) (on_attempt : res unit) : tx ADB dict := λ db,
  '(agent, pending) ← _preparation_owner db session_id claim_owner dispatch_count guest_id;
  match get_receipt db receipt_id with
  | None => rejected "receipt_unavailable"
  | Some receipt =>
      _ ← _check_identity receipt (invocation session_id claim_owner dispatch_count guest_id);
      let seq := pm_seq pending in
      if negb (untouched_preparation (a_now db) agent seq request_body receipt) ||
         existsb (newer_receipt session_id seq receipt) (a_receipts db)
      then rejected "receipt_not_prepared" else
      let attempted := with_phase (Some "attempted"%string) ∘ with_superseded None in
      let db := update_receipt receipt_id attempted (supersede session_id seq db) in
      meter ← meter_fields (metered db session_id) db (attempted receipt) agent request_body;
      _ ← on_attempt;
      Ok (meter, db)
  end.

(** ** Consuming a result *)

(** A live response-loss hold that names this receipt. *)
Definition _held_dispatch `{TurnText, IsoFormat} (db : ADB) (r : AgentResultReceipt) : res bool :=
  match head_pending db (rr_session_id r) with
  | None => Ok false
  | Some pending =>
      hold ← _response_lost_hold (a_now db) (get_turn db (rr_session_id r) (rr_seq r)) pending;
      match hold with
      | Some hold => Ok (py_eq (dict_get "receipt_id" hold) (PStr (rr_id r)))
      | None => Ok false
      end
  end.
Definition attempted_phase (r : AgentResultReceipt) : bool :=
  match rr_attempt_phase r with None => true | Some p => bool_decide (p = "attempted"%string) end.
(** The receipt is current and the session, its guest and its lane's head are
    still those it was minted for. *)
Definition receipt_current (db : ADB) (r : AgentResultReceipt) (agent : AgentSession) (pending : PendingMessage) : bool :=
  negb (is_set (rr_superseded_at r)) && attempted_phase r && (a_now db <? rr_retain_until r) &&
  bool_decide (as_local_session_id agent = rr_local_session_id r) &&
  bool_decide (as_ember_session_id agent = Some (rr_guest_id r)) && negb (dead_status agent) &&
  match as_result_receipt_fence_id agent with Some f => bool_decide (f = rr_id r) | None => true end &&
  (pm_seq pending =? rr_seq r) && bool_decide (pm_claimed_by_replica pending = Some (rr_claim_owner r)) &&
  (pm_dispatch_count pending =? rr_dispatch_count r) && is_set (pm_claimed_at pending).
Definition _active_owner `{TurnText, IsoFormat} (db : ADB) (r : AgentResultReceipt) : res AgentSession :=
  match get_session db (rr_session_id r), head_pending db (rr_session_id r) with
  | Some agent, Some pending =>
      if negb (receipt_current db r agent pending) then rejected "executor_ownership_changed" else
      held ← (if live_claim (a_now db) pending then Ok true else _held_dispatch db r);
      if negb held || has_unknown_outcome db (rr_session_id r) || _newer_work_exists db r
      then rejected "executor_ownership_changed" else
      permit ← one_permit db (rr_session_id r) (rr_seq r);
      if negb (running_for (rr_local_session_id r) (rr_claim_owner r) permit) || finished (get_turn db (rr_session_id r) (rr_seq r))
      then rejected "invocation_not_admitted" else Ok agent
  | _, _ => rejected "executor_ownership_changed"
  end.

(** What a recorded turn says of the receipt it came from. *)
Definition provenance_of `{IsoFormat} (r : AgentResultReceipt) (received : Z) (recovered : bool) : dict :=
  [("session_id", PInt (rr_session_id r)); ("local_session_id", PStr (rr_local_session_id r)); ("seq", PInt (rr_seq r));
   ("claim_owner", PStr (rr_claim_owner r)); ("dispatch_count", PInt (rr_dispatch_count r)); ("guest_id", PStr (rr_guest_id r));
   ("request_sha256", PStr (rr_request_sha256 r)); ("result_sha256", opt_str (rr_result_sha256 r));
   ("receipt_id", PStr (rr_id r)); ("received_at", PStr (iso received))]%string ++
  (if recovered then [("response_lost_recovery", PBool true)]%string else []).
Record Captured := mkCaptured { ca_result_body : string; ca_result_sha256 : option string; ca_provenance : dict }.
(** [json.loads]. *)
Definition loads `{TurnText} (body : string) : res pyval :=
  match json_loads body with Some v => Ok v | None => Raise (ValueError "json") end.
Definition too_large (body : string) : bool := MAX_RESULT_BYTES <? Z.of_nat (String.length body).
Definition _result `{TurnText, IsoFormat, ReceiptHooks} (db : ADB) (r : AgentResultReceipt) : res Captured :=
  match rr_result_body r, rr_received_at r with
  | Some body, Some received =>
      if too_large body || negb (bool_decide (rr_result_sha256 r = Some (sha256 body))) then rejected "receipt_result_changed" else
      _ ← (if startswith "factory:" (rr_local_session_id r)
           then payload ← loads body; validate_completion db (rr_id r) payload else Ok tt);
      recovered ← _held_dispatch db r;
      Ok (mkCaptured body (rr_result_sha256 r) (provenance_of r received recovered))
  | _, _ => rejected "receipt_result_changed"
  end.
(** The committed result, [None] while there is none. *)
Definition committed_result `{TurnText, IsoFormat, ReceiptHooks} (db : ADB) (r : AgentResultReceipt) : res (option Captured) :=
  _ ← _active_owner db r;
  if is_set (rr_result_sha256 r) then Some <$> _result db r else Ok None.
Definition read_active_result `{TurnText, IsoFormat, ReceiptHooks} (receipt_id : string) (session_id : Z) (claim_owner : string)
    (dispatch_count : Z) (guest_id request_sha256 : string) (db : ADB) : res (option Captured) :=
  match get_receipt db receipt_id with
  | None => Ok None
  | Some r =>
      _ ← _check_identity r (invocation session_id claim_owner dispatch_count guest_id);
      if negb (bool_decide (rr_request_sha256 r = request_sha256)) then rejected "receipt_request_changed"
      else committed_result db r
  end.
Definition read_held_result `{TurnText, IsoFormat, ReceiptHooks} (hold : dict) (db : ADB) : res (option Captured) :=
  let field key := py_index key (PDict hold) in
  receipt_id ← field "receipt_id"%string;
  match receipt_of db receipt_id with
  | None => Ok None
  | Some r =>
      session_id ← field "session_id"%string; claim_owner ← field "claim_owner"%string;
      dispatch_count ← field "dispatch_count"%string; guest_id ← field "guest_id"%string;
      _ ← _check_identity r (mkInvocation session_id claim_owner dispatch_count guest_id);
      seq ← field "seq"%string;
      if negb (type_int seq && py_eq (PInt (rr_seq r)) seq) then rejected "receipt_identity_changed" else
      let request := dict_get "request_sha256" hold in
      if negb (is_none request) && negb (py_eq (PStr (rr_request_sha256 r)) request) then rejected "receipt_request_changed"
      else committed_result db r
  end.

(** The result, and the session with the fence the original POST still needs. *)
Definition validate_active_result `{TurnText, IsoFormat, ReceiptHooks} (receipt_id : string) (result_sha256 : pyval)
    (i : Invocation) (seq : Z) (db : ADB) : res (Captured * option string) :=
  match get_receipt db receipt_id with
  | None => rejected "receipt_unavailable"
  | Some r =>
      _ ← _check_identity r i;
      if negb (rr_seq r =? seq) then rejected "receipt_identity_changed" else
      if is_none result_sha256 || negb (py_eq result_sha256 (opt_str (rr_result_sha256 r))) then rejected "receipt_result_changed" else
      agent ← _active_owner db r;
      result ← _result db r;
      if is_set (rr_response_observed_at r) ||
         (_ownerless_interactive_session agent && is_set (rr_observer_released_at r)) then Ok (result, None) else
      held ← _held_dispatch db r;
      Ok (result, if (held : bool) then None else Some receipt_id)
  end.

(** What the turn store asks for: the committed body, parsed again, must be the
    turn that is being recorded. *)
Definition turn_values (t : Turn) : pyval :=
  let float (f : option SpecFloat.spec_float) := match f with Some f => PFloat f | None => PNone end in
  let dict_or (d : option dict) := match d with Some d => PDict d | None => PNone end in
  PList [PStr (tn_result t); opt_str (tn_terminal_reason t); opt_str (tn_stop_reason t); PBool (tn_is_error t);
         tn_permission_denials t; PInt (tn_num_turns t); opt_str (tn_session_id t); PDict (tn_usage t);
         float (tn_total_cost_usd t); tn_duration_ms t; tn_activities t; tn_workspace_recovery t; dict_or (tn_diff t);
         dict_or (tn_artifact t); opt_str (tn_model t); opt_str (tn_provider_model t); opt_str (tn_effort t);
         dict_or (tn_native_receipt t)].
(** [turn._replace(native_receipt=None, workspace_recovery=None)]. *)
Definition as_parsed (t : Turn) : Turn :=
  mkReport (tn_result t) (tn_terminal_reason t) (tn_stop_reason t) (tn_is_error t) (tn_permission_denials t) (tn_num_turns t)
    (tn_session_id t) (tn_usage t) (tn_total_cost_usd t) (tn_duration_ms t) (tn_activities t) PNone (tn_diff t) (tn_artifact t)
    (tn_model t) (tn_provider_model t) (tn_effort t) None.
Definition native_evidence `{TurnText, IsoFormat, ReceiptHooks} (db : ADB) (row : AgentSession) (seq : Z) (claim_owner : string)
    (dispatch_count : Z) (identity : dict) (t : Turn) : res (dict * option string) :=
  receipt_id ← py_index "receipt_id" (PDict identity);
  result_sha256 ← py_index "result_sha256" (PDict identity);
  match receipt_id with
  | PStr receipt_id =>
      let guest := as_ember_session_id row in
      '(captured, fence) ← validate_active_result receipt_id result_sha256
        (mkInvocation (PInt (as_id row)) (PStr claim_owner) (PInt dispatch_count) (opt_str guest)) seq db;
      payload ← loads (ca_result_body captured);
      expected ← parse_native_turn payload guest (dict_get "cli_session_id" identity) (dict_get "artifact_path" identity);
      if negb (py_eq (dict_get "cli_session_id" identity) (opt_str (bd_cli_session_id (as_binding row)))) ||
         negb (py_eq (turn_values expected) (turn_values (as_parsed t))) ||
         existsb (λ p, negb (py_eq (dict_get p.1 identity) p.2)) (ca_provenance captured)
      then claim_lost "Native receipt does not match the completed turn"
      else Ok (ca_provenance captured, fence)
  | _ => Raise (RuntimeError "ProgrammingError")
  end.

(** ** The end of the original POST *)

Definition observer_receipt (receipt_id : string) (session_id : Z) (claim_owner : string) (dispatch_count : Z) (guest_id : string)
    (db : ADB) : res (option AgentResultReceipt) :=
  match get_receipt db receipt_id with
  | None => Ok None
  | Some r => _ ← _check_identity r (invocation session_id claim_owner dispatch_count guest_id); Ok (Some r)
  end.
(** The session still is bound as the receipt says, and fenced by it. *)
Definition fenced_by (r : AgentResultReceipt) (s : AgentSession) : bool :=
  bool_decide (as_local_session_id s = rr_local_session_id r) && bool_decide (as_ember_session_id s = Some (rr_guest_id r)) &&
  bool_decide (as_result_receipt_fence_id s = Some (rr_id r)).
Definition settled_receipt (db : ADB) (r : AgentResultReceipt) : bool :=
  negb (is_set (rr_superseded_at r)) && negb (_newer_work_exists db r).
Definition unfence (session_id : Z) (allowed : AgentSession → bool) (db : ADB) : ADB :=
  match get_session db session_id with
  | Some agent => if allowed agent then put_session (with_fence None agent) db else db
  | None => db
  end.
Definition first_stamp (old : option Z) (now : Z) : option Z := match old with Some t => Some t | None => Some now end.

Definition mark_response_observed (receipt_id : string) (session_id : Z) (claim_owner : string) (dispatch_count : Z) (guest_id : string)
    : tx ADB bool := λ db,
  r ← observer_receipt receipt_id session_id claim_owner dispatch_count guest_id db;
  match r with
  | None => Ok (false, db)
  | Some r =>
      let stamped := update_receipt receipt_id
        (λ r, with_response (first_stamp (rr_response_observed_at r) (a_now db)) (rr_observer_released_at r) r) db in
      Ok (true, unfence session_id (λ agent, fenced_by r agent && settled_receipt db r) stamped)
  end.
Definition mark_response_observer_released (receipt_id : string) (session_id : Z) (claim_owner : string) (dispatch_count : Z)
    (guest_id : string) : tx ADB bool := λ db,
  r ← observer_receipt receipt_id session_id claim_owner dispatch_count guest_id db;
  match r with
  | None => Ok (false, db)
  | Some r =>
      let stamped := update_receipt receipt_id
        (λ r, with_response (rr_response_observed_at r) (first_stamp (rr_observer_released_at r) (a_now db)) r) db in
      Ok (true, unfence session_id (λ agent,
        is_set (rr_received_at r) && negb (is_set (rr_response_observed_at r)) && _ownerless_interactive_session agent &&
        fenced_by r agent && settled_receipt db r) stamped)
  end.
Definition release_unobserved_fence (receipt_id : string) (session_id : Z) (claim_owner : string) (dispatch_count : Z)
    (guest_id : string) : tx ADB bool := λ db,
  r ← observer_receipt receipt_id session_id claim_owner dispatch_count guest_id db;
  match r, get_session db session_id with
  | Some r, Some agent =>
      if is_set (rr_received_at r) && negb (is_set (rr_response_observed_at r)) && fenced_by r agent && settled_receipt db r
      then Ok (true, put_session (with_fence None agent) db) else Ok (false, db)
  | _, _ => Ok (false, db)
  end.

(** A fence nobody is left to wait for. *)
Definition abandoned (db : ADB) (agent : AgentSession) (r : option AgentResultReceipt) : bool :=
  match r with
  | None => true
  | Some r =>
      (rr_session_id r =? as_id agent) && bool_decide (as_local_session_id agent = rr_local_session_id r) &&
      bool_decide (as_ember_session_id agent = Some (rr_guest_id r)) &&
      (is_set (rr_received_at r) || (rr_accept_until r <=? a_now db))
  end.
Definition release_abandoned_fence_locked (agent : option AgentSession) (receipt_id : string) (db : ADB) : bool * ADB :=
  match agent with
  | Some agent =>
      if negb (bool_decide (receipt_id = ""%string)) && bool_decide (as_result_receipt_fence_id agent = Some receipt_id) &&
         abandoned db agent (get_receipt db receipt_id)
      then (true, put_session (with_fence None agent) db) else (false, db)
  | None => (false, db)
  end.
Definition release_abandoned_fence (session_id : Z) (receipt_id : string) (db : ADB) : bool * ADB :=
  release_abandoned_fence_locked (get_session db session_id) receipt_id db.
Definition restore_abandoned_fence (session_id : Z) (receipt_id guest_id : string) (db : ADB) : bool * ADB :=
  match get_session db session_id with
  | Some agent =>
      if bool_decide (receipt_id = ""%string) || is_set (as_result_receipt_fence_id agent) || bool_decide (guest_id = ""%string) ||
         negb (bool_decide (as_ember_session_id agent = Some guest_id))
      then (false, db) else (true, put_session (with_fence (Some receipt_id) agent) db)
  | None => (false, db)
  end.

(** ** Capture *)

Definition _check_credential_format (receipt_id token : string) : bool :=
  (String.length receipt_id =? 32)%nat && all_chars (λ c, in_range 48 57 c || in_range 97 102 c) receipt_id &&
  (43 <=? String.length token)%nat && (String.length token <=? 128)%nat &&
  all_chars (λ c, is_alnum c || is_char 95 c || is_char 45 c) token.
Definition credential_matches `{ReceiptHooks} (token : string) (r : AgentResultReceipt) : bool :=
  bool_decide (rr_token_sha256 r = sha256 token).
Definition authenticate_receipt `{ReceiptHooks} (receipt_id token : string) (db : ADB) : res unit :=
  if negb (_check_credential_format receipt_id token) then rejected "invalid_receipt_token" else
  match get_receipt db receipt_id with
  | Some r => if credential_matches token r then Ok tt else rejected "invalid_receipt_token"
  | None => rejected "invalid_receipt_token"
  end.
(** Why a body is refused before its receipt is looked at. *)
Definition body_refusal `{TurnText} (body : string) : option string :=
  if too_large body then Some "result_too_large"%string else
  match json_loads body with
  | Some (PDict _) => None
  | Some _ => Some "result_must_be_object"%string
  | None => Some "invalid_result_json"%string
  end.
Record Ack := mkAck { ak_receipt_id : string; ak_result_sha256 : string }.
Definition capture_result `{TurnText, ReceiptHooks} (receipt_id token body : string) : tx ADB Ack := λ db,
  if negb (_check_credential_format receipt_id token) then rejected "invalid_receipt_token" else
  match body_refusal body with
  | Some reason => rejected reason
  | None =>
      let digest := sha256 body in
      match get_receipt db receipt_id with
      | Some r =>
          if negb (credential_matches token r) then rejected "invalid_receipt_token" else
          if negb (attempted_phase r) then rejected "receipt_not_attempted" else
          if rr_retain_until r <=? a_now db then rejected "receipt_expired" else
          match rr_result_sha256 r with
          | Some stored =>
              if negb (bool_decide (stored = digest)) || negb (bool_decide (rr_result_body r = Some body))
              then rejected "receipt_result_conflict" else Ok (mkAck receipt_id digest, db)
          | None =>
              if rr_accept_until r <=? a_now db then rejected "receipt_acceptance_expired"
              else Ok (mkAck receipt_id digest, update_receipt receipt_id (with_result (a_now db) digest body) db)
          end
      | None => rejected "invalid_receipt_token"
      end
  end.

(** ** Retention *)

Definition expires_first (a b : AgentResultReceipt) : bool :=
  (rr_retain_until a <? rr_retain_until b) || (rr_retain_until a =? rr_retain_until b) && String.leb (rr_id a) (rr_id b).
Definition expired_ids (db : ADB) : list string :=
  rr_id <$> take PRUNE_BATCH (py_sorted expires_first (filter (λ r, rr_retain_until r ≤ a_now db) (a_receipts db))).
Definition prune_expired_receipts (db : ADB) : nat * ADB :=
  let ids := expired_ids db in
  (length ids, set_receipts (filter (λ r, rr_id r ∉ ids)) db).

(** ** The receipts as the turn store sees them *)

Definition adopting `{TurnText, IsoFormat, ReceiptHooks} (push : ADB → AgentSession → pyval → res unit) (b64 : pyval → option string)
    : ResultHooks :=
  {| native_result := native_evidence; record_push_format := push; b64decode := b64 |}.
