(* ===== verification/DirectWriters.v ===== *)
(** * Turn store: the parts that write the queue themselves

    Most of the system reaches the queue, the turns and the permits through the
    operations of [store.py] and [admission.py] ([TurnLane.turn_op]).  Some parts
    write the rows themselves: [capacity_wait.py] gives a claim back that was
    proved never dispatched (translated: [resolve_not_dispatched]) and keeps the
    wait of a queued message, [reconciliation.py], [drainer.py],
    [permit_supervision.py], [execution_api.py], [node_workflows.py] and
    [jobs_main.py] settle, delete, create, replace and price rows.  [direct_op]
    has a step for every such write, each allowed whenever the source could make
    it and wider than the source's own guards. *)

From Stdlib Require Import SpecFloat.
From stdpp Require Import prelude list strings relations.
From S2P Require Import Prelude PyValue WorkItems PolicyData Pricing Admission AdmissionInvariant AdmissionClaims TurnStore TurnDispatch TurnGuest TurnResult TurnFacts TurnOps TurnLane ResultReceipts.
Local Open Scope Z_scope.

(** ** A claim given back *)

Section return_claim.
Context `{TurnText, IsoFormat}.

(** [datetime.fromisoformat(v) if v else None]. *)
Definition stamp_of (v : pyval) : res (option Z) :=
  if negb (truthy v) then Ok None else
  match v with
  | PStr s => match fromisoformat s with Some d => Ok (Some (instant d)) | None => Raise (ValueError "Invalid isoformat string") end
  | _ => Raise TypeError
  end.
(** The receipt of exactly this dispatch, with nothing received. *)
Definition unreceived (s q : Z) (owner : string) (count : Z) (r : AgentResultReceipt) : bool :=
  (rr_session_id r =? s) && (rr_seq r =? q) && bool_decide (rr_claim_owner r = owner) && (rr_dispatch_count r =? count) &&
  negb (is_set (rr_received_at r)).
Definition withdraw (now : Z) (r : AgentResultReceipt) : AgentResultReceipt :=
  with_response (rr_response_observed_at r) (Some now) (with_superseded (Some now) r).
Definition permit_return (p : Permit) : Permit :=
  mkPermit (cr_id p) (cr_local_session_id p) (cr_pending_seq p) (cr_session_id p) (cr_tier p) (cr_model p) (cr_workload p) None
    "reserved" (cr_daily_key p) (cr_routine_job_name p) (cr_created_at p) (cr_settled_at p) (cr_outcome p).
Definition message_return (n : Z) (last started : option Z) (context : dict) (m : PendingMessage) : PendingMessage :=
  mkPending (pm_session_id m) (pm_seq m) (pm_model m) None n last (pm_partial_text m) (pm_partial_activities m) (pm_message_text m)
    None (pm_created_at m) started (Some "waiting_capacity"%string) (Some (encoded (PDict context))).

(** The proof names the operation, the dispatch and the guest of the claim. *)
Definition proves_undispatched (proof context : dict) (dispatch : string) (guest : option string) : res bool :=
  if negb (py_eq (dict_get "outcome" proof) (PStr "not_dispatched")) then Ok false else
  operation ← py_index "operation_id" (PDict context);
  Ok (py_eq (dict_get "operation_id" proof) operation && py_eq (dict_get "dispatch_id" proof) (PStr dispatch) &&
      py_eq (dict_get "session_id" proof) (opt_str guest)).
(** [if receipt_id: ...]: the receipt withdrawn, or [None] when the answer is [False]. *)
Definition withdraw_receipt (s q : Z) (owner : string) (count : Z) (receipt_id : option string) (db : ADB) : option ADB :=
  match receipt_id with
  | None => Some db
  | Some id =>
      if bool_decide (id = ""%string) then Some db else
      match get_receipt db id with
      | Some r => if unreceived s q owner count r then Some (update_receipt id (withdraw (a_now db)) db) else None
      | None => None
      end
  end.
(** [previous.usage_json = prior["retry_usage"]]. *)
Definition restore_usage (previous : option AgentTurn) (prior : pyval) (db : ADB) : res ADB :=
  match previous with
  | None => Ok db
  | Some t =>
      usage ← py_index "retry_usage" prior;
      match usage with
      | PNone => Ok db
      | PStr text => Ok (put_turn (with_usage (Some (JText text (json_loads text))) t) db)
      | _ => Raise TypeError
      end
  end.
Definition return_permit (local_session_id : string) (q : Z) (owner : string) (db : ADB) : option ADB :=
  match reservation db local_session_id q with
  | None => Some db
  | Some p =>
      if bool_decide (cr_owner p = Some owner) && str_in (cr_state p) ["reserved"; "running"]%string
      then Some (put_permit (permit_return p) db) else None
  end.
(** The message of the queue as it was before its claim. *)
Definition restored_message (prior : pyval) (context proof : dict) (m : PendingMessage) : res PendingMessage :=
  count ← py_index "dispatch_count" prior;
  last ← py_index "last_dispatch_at" prior;
  last ← stamp_of last;
  started ← match prior with PDict p => stamp_of (dict_get "capacity_started_at" p) | _ => Raise TypeError end;
  reason ← py_index "reason" (PDict proof);
  match count with
  | PInt n => Ok (message_return n last started
                    (dict_pop "claim_snapshot" (dict_update context [("state", PStr "waiting_capacity"); ("reason", reason)]%string)) m)
  | _ => Raise TypeError
  end.
(** [False] without a commit leaves the rows as they were. *)
Definition resolve_not_dispatched (s q : Z) (owner : string) (count : Z) (proof : dict) (receipt_id : option string) : tx ADB bool := λ db,
  match get_session db s, get_pending_message db s q with
  | Some agent, Some m =>
      if negb (bool_decide (pm_claimed_by_replica m = Some owner) && (pm_dispatch_count m =? count)) then Ok (false, db) else
      context ← handoff_context m;
      match context with
      | None => Ok (false, db)
      | Some context =>
          let dispatch := exact_dispatch_id [PInt s; opt_str (as_ember_session_id agent); PInt q; PStr owner; PInt count] in
          proved ← proves_undispatched proof context dispatch (as_ember_session_id agent);
          if negb proved then Ok (false, db) else
          match withdraw_receipt s q owner count receipt_id db with
          | None => Ok (false, db)
          | Some db1 =>
              prior ← py_index "claim_snapshot" (PDict context);
              db2 ← restore_usage (get_turn db1 s q) prior db1;
              match return_permit (as_local_session_id agent) q owner db2 with
              | None => Ok (false, db)
              | Some db3 => m' ← restored_message prior context proof m; Ok (true, put_pending m' db3)
              end
          end
      end
  | _, _ => Ok (false, db)
  end.

(** What a claim given back leaves. *)
Lemma resolve_inv s q owner count proof receipt_id db db' :
  resolve_not_dispatched s q owner count proof receipt_id db = Ok (true, db') →
  ∃ agent m m' context prior db1 db2 db3 n,
    get_session db s = Some agent ∧ get_pending_message db s q = Some m ∧ pm_claimed_by_replica m = Some owner ∧
    handoff_context m = Ok (Some context) ∧ py_index "claim_snapshot" (PDict context) = Ok prior ∧
    py_index "dispatch_count" prior = Ok (PInt n) ∧
    withdraw_receipt s q owner count receipt_id db = Some db1 ∧ restore_usage (get_turn db s q) prior db1 = Ok db2 ∧
    return_permit (as_local_session_id agent) q owner db2 = Some db3 ∧
    pkey m' = pkey m ∧ pm_dispatch_count m' = n ∧ pm_message_text m' = pm_message_text m ∧ pm_claimed_by_replica m' = None ∧
    db' = put_pending m' db3.
Proof.
  unfold resolve_not_dispatched. destruct (get_session db s) as [agent|] eqn:Es; [|done].
  destruct (get_pending_message db s q) as [m|] eqn:Em; [|done].
  destruct (negb (bool_decide (pm_claimed_by_replica m = Some owner) && (pm_dispatch_count m =? count))) eqn:Hg; [done|].
  apply negb_false_iff, andb_true_iff in Hg as [Ho%bool_decide_eq_true _].
  intros ([context|] & Hc & Hq)%res_bind_ok; [|done]. apply res_bind_ok in Hq as (proved & _ & Hq).
  destruct (negb proved); [done|]. destruct (withdraw_receipt _ _ _ _ _ _) as [db1|] eqn:Ew; [|done].
  apply res_bind_ok in Hq as (prior & Hp & Hq). apply res_bind_ok in Hq as (db2 & Hu & Hq).
  destruct (return_permit _ _ _ _) as [db3|] eqn:Er; [|done]. apply res_bind_ok in Hq as (m' & Hm & [= <-]).
  assert (get_turn db1 s q = get_turn db s q) as Et.
  { unfold withdraw_receipt in Ew. repeat case_match; simplify_eq; done. }
  rewrite Et in Hu. unfold restored_message in Hm.
  apply res_bind_ok in Hm as (n & Hn & Hm). do 4 apply res_bind_ok in Hm as (? & _ & Hm).
  destruct n as [| |n| | | | |]; try done. injection Hm as <-. by exists agent, m, (message_return n x0 x1 (dict_pop "claim_snapshot" (dict_update context [("state", PStr "waiting_capacity"); ("reason", x2)]%string)) m), context, prior, db1, db2, db3, n.
Qed.
End return_claim.

(** ** The direct writers *)

(** What a step does beyond the rules of the store: nothing, free capacity,
    delete a message no turn records, replace the turn of a number, or give a
    claim back. *)
Inductive lane_kind := Plain | Releases | Drops (k : Z * Z) | Adopts (k : Z * Z) | Returns (k : Z * Z).
#[export] Instance lane_kind_eq_dec : EqDecision lane_kind.
Proof. solve_decision. Defined.

(** The same turn, its list price filled in or not. *)
Record repriced (t t' : AgentTurn) : Prop := mkRepriced
  { rp_key : tkey t' = tkey t; rp_stop : tu_stop_reason t' = tu_stop_reason t;
    rp_terminal : tu_terminal_reason t' = tu_terminal_reason t; rp_result : tu_result_text t' = tu_result_text t;
    rp_usage : tu_usage_json t' = tu_usage_json t;
    rp_detail : ∃ price, tu_detail t' = mkTurnDetail (td_prompt (tu_detail t)) (td_model (tu_detail t)) (td_voice_summary (tu_detail t))
      (td_permission_denials (tu_detail t)) (td_commit_sha (tu_detail t)) (td_cost_usd (tu_detail t)) price (td_diff_blob (tu_detail t))
      (td_diff_truncated (tu_detail t)) (td_diff_base_sha (tu_detail t)) (td_artifact_path (tu_detail t)) (td_artifact_blob (tu_detail t))
      (td_artifact_outcome (tu_detail t)) }.
#[export] Instance repriced_preorder : PreOrder repriced.
Proof.
  split.
  - intros t. split; try done. exists (td_list_cost_usd (tu_detail t)). by destruct (tu_detail t).
  - intros t u v [E1 E2 E3 E4 E5 [p1 P1]] [F1 F2 F3 F4 F5 [p2 P2]]. split; try congruence. exists p2. by rewrite P2, P1.
Qed.

(** The claim's own record of the count before it (store.py:2582-2614). *)
Definition claim_recorded (m : PendingMessage) : Prop :=
  ∃ context prior, handoff_context m = Ok (Some context) ∧ py_index "claim_snapshot" (PDict context) = Ok prior ∧
                   py_index "dispatch_count" prior = Ok (PInt (pm_dispatch_count m - 1)).

(** One step per write, with the lines that make it; a function that makes
    several is several steps.
    - [dw_wait]: capacity_wait._save and observe_handoff (96-139, 512-590), the wait recorded beside a message.
    - [dw_price]: jobs_main.py:127-136, a turn's list price filled in.
    - [dw_first]: node_workflows.py:734-815 and execution_api.py:124-127, the first message of a session that has none and no turn.
    - [dw_probe]: execution_api.py:129-136, a probe's first message claimed by its creator.
    - [dw_delete]: delete_pending_message_sync (store.py:2931), drainer.py:1142-1146 and
      reconciliation.py:405, 1605, 1836, 2172 and 2453, a message deleted.
    - [dw_cancel]: reconciliation.py:2564-2669, a message never dispatched replaced by a turn that says so.
    - [dw_adopt]: reconciliation.py:1069-1278, a failed turn replaced by the result its receipts captured, nothing of the session queued.
    - [dw_relabel]: reconciliation.py:401 and 3156, the outcome written on a permit.
    - [dw_settle]: permit_supervision.py:1258-1260 and reconciliation.py:3160-3162, a permit settled.
    - [dw_return]: capacity_wait.py:379-463, a claim given back; the snapshot is the claim's, and the
      turn restored behind a first dispatch grants nothing, as before the claim. *)
Inductive direct_op `{TurnText, IsoFormat} : lane_kind → relation ADB :=
| dw_wait m m' db : m ∈ a_pending db → touched m m' → direct_op Plain db (put_pending m' db)
| dw_price t t' db : t ∈ a_turns db → repriced t t' → direct_op Plain db (put_turn t' db)
| dw_first m db :
    (∀ x, x ∈ a_pending db → pm_session_id x ≠ pm_session_id m) → (∀ t, t ∈ a_turns db → tu_session_id t ≠ pm_session_id m) →
    _attempted m = false → pm_claimed_by_replica m = None → direct_op Plain db (set_pending (λ l, l ++ [m]) db)
| dw_probe m owner db :
    m ∈ a_pending db → heads db m → _attempted m = false → pm_claimed_by_replica m = None →
    direct_op Plain db (put_pending (dispatched owner (a_now db) m) db)
| dw_delete m db :
    m ∈ a_pending db → direct_op (if turn_for db (pkey m) then Plain else Drops (pkey m)) db (delete_pending m db)
| dw_cancel m t db :
    m ∈ a_pending db → turn_for db (pkey m) = None → _attempted m = false → tkey t = pkey m →
    direct_op Plain db (delete_pending m (set_turns (replaced t) db))
| dw_adopt t e db :
    turn_for db (tkey t) = Some e → tu_terminal_reason e = Some "error"%string →
    (∀ m, m ∈ a_pending db → pm_session_id m ≠ tu_session_id t) → direct_op (Adopts (tkey t)) db (set_turns (replaced t) db)
| dw_relabel p outcome db :
    p ∈ a_permits db → direct_op Plain db (put_permit (permit_close (cr_state p) outcome (cr_settled_at p) p) db)
| dw_settle p outcome db :
    p ∈ a_permits db → cr_state p ≠ "settled"%string →
    direct_op Releases db (put_permit (permit_close "settled" outcome (Some (a_now db)) p) db)
| dw_return s q owner count proof receipt_id m db db' :
    get_pending_message db s q = Some m → claim_recorded m →
    resolve_not_dispatched s q owner count proof receipt_id db = Ok (true, db') →
    (pm_dispatch_count m = 1 → ∀ t, turn_for db' (s, q) = Some t → ¬ granting t) → direct_op (Returns (s, q)) db db'.

(** The deletion the store offers is such a step. *)
Lemma delete_direct `{TurnText, IsoFormat} s q db :
  delete_pending_message_sync s q db = db ∨
  ∃ k, direct_op k db (delete_pending_message_sync s q db) ∧ (k = Plain ∨ k = Drops (s, q)).
Proof.
  unfold delete_pending_message_sync. destruct (get_pending_message db s q) as [m|] eqn:E; [right|by left].
  apply pending_found in E as [Hm Hk]. eexists. split; [by apply dw_delete|]. rewrite Hk. case_match; auto.
Qed.

(** ** What they keep *)

Section facts.
Context `{TurnText, IsoFormat}.
Implicit Types k : Z * Z.

(** The rows a claim given back touches. *)
Lemma return_rows s q owner count proof receipt_id db db' m :
  resolve_not_dispatched s q owner count proof receipt_id db = Ok (true, db') → get_pending_message db s q = Some m → claim_recorded m →
  is_Some (pm_claimed_by_replica m) ∧
  (∃ m', pkey m' = pkey m ∧ pm_dispatch_count m' = pm_dispatch_count m - 1 ∧ pm_message_text m' = pm_message_text m ∧
         pm_claimed_by_replica m' = None ∧ a_pending db' = a_pending (put_pending m' db)) ∧
  (a_turns db' = a_turns db ∨ ∃ t usage, turn_for db (s, q) = Some t ∧ a_turns db' = a_turns (put_turn (with_usage usage t) db)) ∧
  (a_permits db' = a_permits db ∨
   ∃ p, p ∈ a_permits db ∧ cr_state p ∈ ["reserved"; "running"]%string ∧ reservation db (cr_local_session_id p) (cr_pending_seq p) = Some p ∧
        a_permits db' = a_permits (put_permit (permit_return p) db)).
Proof.
  intros (agent & m0 & m' & context & prior & db1 & db2 & db3 & n & _ & Hm & Ho & Hc & Hp & Hn & Hw & Hu & Hr & Hk & Hcount & Ht & Hcl & ->)%resolve_inv Hm1 (context' & prior' & Hc' & Hp' & Hn').
  rewrite Hm1 in Hm. injection Hm as <-. rewrite Hc in Hc'. injection Hc' as <-. rewrite Hp in Hp'. injection Hp' as <-.
  rewrite Hn in Hn'. injection Hn' as ->.
  assert (a_pending db1 = a_pending db ∧ a_turns db1 = a_turns db ∧ a_permits db1 = a_permits db) as (P1 & T1 & C1)
    by (unfold withdraw_receipt in Hw; repeat case_match; simplify_eq; done).
  assert (a_pending db2 = a_pending db1 ∧ a_permits db2 = a_permits db1 ∧
          (a_turns db2 = a_turns db1 ∨ ∃ t usage, get_turn db s q = Some t ∧ a_turns db2 = a_turns (put_turn (with_usage usage t) db1))) as (P2 & C2 & T2).
  { unfold restore_usage in Hu. destruct (get_turn db s q) as [t|]; [|injection Hu as <-; auto].
    apply res_bind_ok in Hu as (usage & _ & Hu). repeat case_match; simplify_eq; eauto 8. }
  assert (a_pending db3 = a_pending db2 ∧ a_turns db3 = a_turns db2 ∧
          (a_permits db3 = a_permits db2 ∨ ∃ p, p ∈ a_permits db2 ∧ cr_state p ∈ ["reserved"; "running"]%string ∧
             reservation db2 (cr_local_session_id p) (cr_pending_seq p) = Some p ∧ a_permits db3 = a_permits (put_permit (permit_return p) db2))) as (P3 & T3 & C3).
  { unfold return_permit in Hr. destruct (reservation db2 _ q) as [p|] eqn:Er; [|injection Hr as <-; auto].
    destruct (_ && _) eqn:Hg; [|done]. injection Hr as <-. apply andb_true_iff in Hg as [_ Hst].
    pose proof (reservation_Some _ _ _ _ Er) as [Hin Hkey]. do 2 (split; [done|]). right. exists p. split_and!; [done| | |done].
    - by apply bool_decide_eq_true in Hst.
    - injection Hkey as -> ->. done. }
  split; [eauto|]. split_and!.
  - exists m'. split_and!; try done. simpl. by rewrite P3, P2, P1.
  - simpl. rewrite T3. destruct T2 as [->|(t & usage & Htu & ->)]; [by left|]. right. exists t, usage. split; [done|]. simpl. by rewrite T1.
  - simpl. unfold reservation in *. rewrite C2, C1 in C3. destruct C3 as [->|(p & Hin & Hst & Hres & ->)]; [left; congruence|].
    right. exists p. split_and!; try done. simpl. by rewrite C2, C1.
Qed.

Lemma lane_ok_ext db db' : a_pending db' = a_pending db → a_turns db' = a_turns db → lane_ok db → lane_ok db'.
Proof. intros Ep Et []. split; unfold heads in *; rewrite ?Ep, ?Et; done. Qed.
(** A turn rewritten in place, its outcome kept. *)
Lemma rewritten_ok t t' db :
  lane_ok db → t ∈ a_turns db → tkey t' = tkey t → tu_terminal_reason t' = tu_terminal_reason t →
  (∀ m, m ∈ a_pending db → tkey t = pkey m → pm_dispatch_count m = 0 → ¬ granting t') → lane_ok (put_turn t' db).
Proof.
  intros Hok Ht Hk Hte Hg. apply turns_ok; [done| |].
  - rewrite update_where_fmap; [apply Hok|]. intros x _ E%turn_at_spec. by rewrite E.
  - intros m x Hm (y & Hy & ->)%elem_of_update_where Hxk. destruct (turn_at _ _ y) eqn:E.
    + assert (interrupted t' = interrupted t) as -> by (unfold interrupted; by rewrite Hte).
      split; [apply (lo_open _ Hok m); congruence|]. intros Hz. apply (Hg m); congruence.
    + split; [by apply (lo_open _ Hok m)|by apply (lo_first _ Hok m)].
Qed.
Lemma repriced_permission t t' m : repriced t t' → _retry_permission (Some t') m = _retry_permission (Some t) m.
Proof. intros [_ Hs Ht _ Hu _]. unfold _retry_permission, interrupted. by rewrite Hs, Ht, Hu. Qed.
Lemma repriced_granting t t' : repriced t t' → granting t' → granting t.
Proof. intros Hr [m Hm]. exists m. by rewrite <-(repriced_permission t t'). Qed.

Lemma direct_ok kind db db' : direct_op kind db db' → lane_ok db → lane_ok db'.
Proof.
  destruct 1 as [m m' db Hm Ht|t t' db Ht Hr|m db Hp Ht Ha Hc|m owner db Hm Hh Ha Hc|m db Hm|m t db Hm Ht Ha Hk|t e db He Hte Hno|
    p outcome db Hp|p outcome db Hp Hs|s q owner count proof receipt_id m db db' Hm Hrec Hres Hg]; intros Hok.
  - apply (write_ok false false db); [by apply (LTouch _ _ _ m)|done].
  - apply (rewritten_ok t); try apply Hr; try done. intros m Hm Hk Hz Hgr%(repriced_granting t); [|done]. by apply (lo_first _ Hok m t).
  - apply enqueue_ok; [|done]. split; [intros x Hx E; by destruct (Hp x Hx)|intros x Hx E; by destruct (Ht x Hx)|done| |done].
    by apply unattempted_count.
  - apply (write_ok false false db); [by apply (LDispatch _ _ _ m)|done].
  - by apply dropped_ok.
  - apply (write_ok false false db); [|done]. apply (LEnd _ _ _ m); try done. by rewrite Ht.
  - apply turns_ok; [done|by apply replaced_NoDup, Hok|]. intros m x Hm [[Hx _] | ->]%elem_of_replaced Hxm.
    + split; [by apply (lo_open _ Hok m)|by apply (lo_first _ Hok m)].
    + destruct (Hno m Hm). injection Hxm as -> _. done.
  - by apply (lane_ok_ext db).
  - by apply (lane_ok_ext db).
  - destruct (return_rows _ _ _ _ _ _ _ _ _ Hres Hm Hrec) as (Hcl & (m' & Hk' & Hc' & _ & Hcl' & Ep) & Et & _).
    apply pending_found in Hm as [Hm Hk]. pose proof (lo_count _ Hok m Hm). pose proof (lo_claim _ Hok m Hm Hcl).
    assert (∀ d, a_pending d = a_pending db → a_turns d = a_turns db' → lane_ok d → lane_ok db') as Hput.
    { intros d Ed Etd Hokd. apply (lane_ok_ext (put_pending m' d)); [simpl; by rewrite Ed|done|].
      apply (requeued_ok m); [done|by rewrite Ed|done|lia|rewrite Hcl'; by intros []| |rewrite Hcl'; by intros []].
      intros Hz t Hin Htk. apply Hg; [lia|]. rewrite Etd in Hin. apply turn_key; [rewrite <-Etd; apply Hokd|]. by rewrite <-Hk. }
    destruct Et as [Et|(t & usage & Htu & Et)]; [by apply (Hput db)|]. apply (Hput (put_turn (with_usage usage t) db)); [done..|].
    apply turn_key in Htu as [Htu Htk]; [|apply Hok]. apply (rewritten_ok t); try done.
    intros x Hx Hxk Hz. assert (x = m) as -> by (apply (one_message db); congruence). lia.
Qed.
End facts.
