(* ===== verification/TurnClaims.v ===== *)
(** * Turn store: theorems

    One lane, whoever calls: messages run in order and one at a time, a message
    is dispatched again only on a grant, an accepted message is never lost, an
    unknown outcome is final, and the lane frees no capacity without evidence.
    Then the hold over a lost response. *)

From Stdlib Require Import SpecFloat.
From stdpp Require Import prelude list strings relations.
From S2P Require Import Prelude PyValue WorkItems PolicyData Pricing Admission AdmissionInvariant AdmissionClaims TurnStore TurnDispatch TurnGuest TurnResult TurnFacts TurnOps TurnLane ResultReceipts DirectWriters.
Local Open Scope Z_scope.

Section writes.
Context `{TurnText}.
Implicit Types k : Z * Z.

(** ** The turn of a key, after a write *)

Lemma turn_for_ext db db' k :
  NoDup (tkey <$> a_turns db) → NoDup (tkey <$> a_turns db') →
  (∀ t, tkey t = k → (t ∈ a_turns db' ↔ t ∈ a_turns db)) → turn_for db' k = turn_for db k.
Proof. intros Hd Hd' Hx. apply option_eq. intros t. rewrite !turn_key by done. naive_solver. Qed.
Lemma turn_for_same db db' k : a_turns db' = a_turns db → turn_for db' k = turn_for db k.
Proof. intros E. unfold turn_for, get_turn. by rewrite E. Qed.
Lemma turn_for_replaced t db k :
  NoDup (tkey <$> a_turns db) → turn_for (set_turns (replaced t) db) k = if decide (tkey t = k) then Some t else turn_for db k.
Proof.
  intros Hd. pose proof (replaced_NoDup t _ Hd) as Hd'. case_decide as Hk.
  - apply turn_key; [done|]. split; [|done]. apply elem_of_replaced. by right.
  - apply turn_for_ext; [done..|]. intros x Hx. simpl. rewrite elem_of_replaced. naive_solver.
Qed.
Lemma turn_for_consumed t db k :
  lane_ok db → turn_for db (tkey t) = Some t → tkey t ≠ k → turn_for (consume_grant (Some t) db) k = turn_for db k.
Proof.
  intros Hok Ht Hk. pose proof (consume_ok _ _ _ Ht Hok) as Hok'. apply turn_for_ext; [apply Hok|apply Hok'|].
  intros x Hx. unfold consume_grant. repeat case_match; try done. simpl. rewrite elem_of_update_where. split.
  - intros (y & Hy & ->). destruct (turn_at _ _ y); [by destruct Hk|done].
  - intros Hin. exists x. split; [done|]. assert (turn_at (tu_session_id t) (tu_seq t) x = false) as ->; [|done].
    apply turn_at_false. intros E. destruct Hk. by rewrite <-Hx.
Qed.

(** What a write does to the turn of a number: it keeps it, or replaces an
    unfinished attempt. *)
Lemma write_turn g r db db' k :
  lane_ok db → lane_write g r db db' →
  turn_for db' k = turn_for db k ∨ finished (turn_for db k) = false ∧ is_Some (turn_for db' k).
Proof.
  intros Hok Hw. pose proof (lo_turns _ Hok) as Hd.
  assert (∀ t, finished (turn_for db (tkey t)) = false →
    turn_for (set_turns (replaced t) db) k = turn_for db k ∨
    finished (turn_for db k) = false ∧ is_Some (turn_for (set_turns (replaced t) db) k)) as Hrep.
  { intros t Hf. rewrite turn_for_replaced by done. case_decide as E; [subst k; right; eauto|by left]. }
  destruct Hw as [db' _ [Ep Et]|db' _ _ [Ep Et]| | | |m m' t Hm Hhd Ht Hr Hd'|m t Hm Hf Hk Hi Hg|m t Hm Hf Hk|m Hm Hf|t Hno Hf];
    try (by left).
  1-2: left; by apply turn_for_same.
  - pose proof Ht as [_ Htk]%turn_key; [|done]. destruct (decide (tkey t = k)) as [Hk|Hk].
    + right. rewrite <-Hk, Htk, Ht. simpl. rewrite (retry_interrupted _ _ Hr). split; [done|].
      change (is_Some (turn_for (consume_grant (Some t) db) (pkey m))).
      unfold consume_grant. repeat case_match; rewrite ?Ht; eauto. rewrite (turn_put t); eauto.
    + left. change (turn_for (consume_grant (Some t) db) k = turn_for db k). apply turn_for_consumed; [done|by rewrite Htk|done].
  - apply Hrep. by rewrite Hk.
  - apply (Hrep t). by rewrite Hk.
  - by apply Hrep.
Qed.

Lemma finished_write g r db db' t :
  lane_ok db → lane_write g r db db' → t ∈ a_turns db → interrupted t = false → t ∈ a_turns db'.
Proof.
  intros Hok Hw Ht Hi. pose proof (write_ok _ _ _ _ Hw Hok) as Hok'.
  assert (turn_for db (tkey t) = Some t) as Hf by (by apply turn_key; [apply Hok|]).
  apply (turn_key db' (tkey t)); [apply Hok'|]. destruct (write_turn _ _ _ _ (tkey t) Hok Hw) as [->|[Hn _]]; [done|].
  rewrite Hf in Hn. simpl in Hn. by rewrite Hi in Hn.
Qed.
(** What each write of a run keeps, the run keeps. *)
Lemma run_keeps (P : ADB → Prop) g r db db' :
  (∀ a b, lane_ok a → lane_write g r a b → P a → P b) → lane_ok db → writes g r db db' → P db → P db'.
Proof. intros HP Hok Hw. induction Hw; [done|]. eauto using write_ok. Qed.

(** Queued with its text, or recorded under its number. *)
Definition kept (k : Z * Z) (text : string) (db : ADB) : Prop :=
  (∃ m, m ∈ a_pending db ∧ pkey m = k ∧ pm_message_text m = text) ∨ is_Some (turn_for db k).
Lemma kept_write g r k text db db' : lane_ok db → lane_write g r db db' → kept k text db → kept k text db'.
Proof.
  intros Hok Hw [(m & Hm & Hk & Hx)|[t Ht]].
  2: { right. destruct (write_turn _ _ _ _ k Hok Hw) as [->|[_ ?]]; eauto. }
  assert (∀ m1 m2 d, a_pending d = a_pending db → m1 ∈ a_pending db → pkey m2 = pkey m1 → pm_message_text m2 = pm_message_text m1 →
            kept k text (put_pending m2 d)) as Hput.
  { intros m1 m2 d Ed Hm1 Hk2 Ht2. left. destruct (decide (pkey m = pkey m1)) as [E|E].
    - assert (m = m1) as -> by (by apply (one_message db)). exists m2. split_and!; [|congruence..].
      simpl. rewrite Ed. apply elem_of_update_where. exists m1. split; [done|]. by rewrite (proj2 (at_key_spec _ _ m1)).
    - exists m. split_and!; [|done..]. simpl. rewrite Ed. apply elem_of_update_where. exists m. split; [done|].
      rewrite (proj2 (at_key_false _ _ m)); [done|]. intros E'. by rewrite E' in E. }
  assert (∀ x d, x ∈ a_pending db → a_pending d = a_pending db → is_Some (turn_for d (pkey x)) → kept k text (delete_pending x d)) as Hdel.
  { intros x d Hx' Ed Hs. destruct (decide (pkey m = pkey x)) as [E|E].
    - right. change (is_Some (turn_for d k)). congruence.
    - left. exists m. split_and!; [|done..]. simpl. rewrite Ed. apply list_elem_of_filter. split; [|done]. by apply at_key_false. }
  destruct Hw as [db' _ [Ep Et]|db' _ _ [Ep Et]|m1 _|m1 m2 Hm1 [? _ ? _]|m1 m2 Hm1 _ _ [? _ ? _ _]|m1 m2 t Hm1 _ _ _ [? _ ? _ _]|
    m1 t _ _ _ _ _|m1 t Hm1 _ Hk1|m1 Hm1 Hf|t _ _].
  - left. exists m. by rewrite Ep.
  - left. exists m. by rewrite Ep.
  - left. exists m. split; [apply elem_of_app; by left|done].
  - by apply (Hput m1).
  - by apply (Hput m1).
  - apply (Hput m1); try done. unfold consume_grant. by repeat case_match.
  - left. by exists m.
  - apply Hdel; [done|done|]. rewrite turn_for_replaced by apply Hok. rewrite decide_True by done. eauto.
  - apply Hdel; [done|done|]. unfold finished in Hf. destruct (turn_for db (pkey m1)); [eauto|done].
  - left. by exists m.
Qed.

(** ** Capacity *)

Lemma consume_permits t db : a_permits (consume_grant t db) = a_permits db.
Proof. unfold consume_grant. by repeat case_match. Qed.
Lemma write_holds g db db' : lane_write g false db db' → holding_op db db'.
Proof. destruct 1; try done; apply hold_world; try done. apply consume_permits. Qed.
Lemma write_pool g r db db' : lane_write g r db db' → pool_step_ok permit_step db db'.
Proof.
  intros Hw. apply pool_op_ok. destruct Hw; [by apply op_hold|done|..]; apply op_hold, hold_world; try done. apply consume_permits.
Qed.

(** ** No second dispatch without a grant *)

(** The dispatch of [k] is spent: nothing behind it grants another. *)
Definition dispatched_once (k : Z * Z) (db : ADB) : Prop :=
  (∀ m, m ∈ a_pending db → pkey m = k → 1 ≤ pm_dispatch_count m ∧ _retry_permission (turn_for db k) m = false) ∧
  ((∀ m, m ∈ a_pending db → pkey m ≠ k) → is_Some (turn_for db k)).

Lemma permission_count t m m' : pm_dispatch_count m' = pm_dispatch_count m → _retry_permission t m' = _retry_permission t m.
Proof. unfold _retry_permission. by intros ->. Qed.
Lemma ungranted_write r k db db' : lane_ok db → lane_write false r db db' → dispatched_once k db → dispatched_once k db'.
Proof.
  intros Hok Hw [Hd Hs]. split.
  2: { intros Hno. destruct (is_Some_dec (turn_for db k)) as [Ht|Ht].
       - destruct (write_turn _ _ _ _ k Hok Hw) as [->|[_ ?]]; done.
       - destruct (decide (Exists (λ m, pkey m = k) (a_pending db))) as [(m & Hm & Hk)%Exists_exists|He].
         + destruct (kept_write _ _ k (pm_message_text m) _ _ Hok Hw) as [(m' & Hm' & Hk' & _)|?]; [left; eauto|by destruct (Hno m')|done].
         + destruct Ht. apply Hs. intros m Hm Hk. destruct He. apply Exists_exists. eauto. }
  intros m' Hm' Hk'. pose proof (lo_turns _ Hok) as Hnd. revert Hm'.
  destruct Hw as [db' _ [Ep Et]|db' _ _ [Ep Et]|m [Hp Htu _ _ _]|m m1 Hm [? Hc _ _]|m m1 Hm _ Ha [Hk1 _ _ _ _]|m m1 t Hm _ Ht Hr [Hk1 _ _ _ _]|
    m t Hm _ Hk Hi Hg|m t Hm _ Hk|m Hm _|t Hno _].
  1-2: rewrite Ep, (turn_for_same db) by done; auto.
  - intros [Hm'|Hm']%elem_of_app; [by apply Hd|]. apply list_elem_of_singleton in Hm' as ->. exfalso. destruct Hs as [t Ht].
    + intros x Hx Hxk. rewrite <-Hk' in Hxk. injection Hxk as Es Eq. specialize (Hp x Hx Es). lia.
    + apply turn_key in Ht as [Ht Htk]; [|done]. rewrite <-Hk' in Htk. injection Htk as Es Eq. specialize (Htu t Ht Es). lia.
  - intros [[-> _]|[Hm' _]]%put_pending_elem; [|by apply Hd]. rewrite Hc, (permission_count _ m) by done. apply Hd; congruence.
  - intros [[-> _]|[Hm' _]]%put_pending_elem; [|by apply Hd]. destruct (Hd m Hm) as [Hn _]; [congruence|].
    rewrite (unattempted_count _ Ha) in Hn. lia.
  - assert (a_pending (consume_grant (Some t) db) = a_pending db) as Ep by (unfold consume_grant; by repeat case_match).
    intros [[-> _]|[Hm' Hne]]%put_pending_elem.
    + destruct (Hd m Hm) as [_ Hn]; [congruence|]. rewrite <-Hk', Hk1, Ht in Hn. congruence.
    + rewrite Ep in Hm'. pose proof Ht as [_ Htk]%turn_key; [|done].
      change (turn_for (put_pending m1 (consume_grant (Some t) db)) k) with (turn_for (consume_grant (Some t) db) k).
      rewrite turn_for_consumed; [by apply Hd|done|by rewrite Htk|congruence].
  - intros Hm'. rewrite turn_for_replaced by done. destruct (Hd m' Hm' Hk') as [Hn Hp]. split; [done|].
    case_decide; [|done]. apply not_true_is_false. intros Hgr. by destruct Hg as [? _]; [exists m'|].
  - intros [Hne%at_key_false Hm']%list_elem_of_filter. change (pkey m' ≠ pkey m) in Hne. change (turn_for (delete_pending m (set_turns (replaced t) db)) k)
      with (turn_for (set_turns (replaced t) db) k). rewrite turn_for_replaced, decide_False by (done || congruence). by apply Hd.
  - intros [_ Hm']%list_elem_of_filter. by apply Hd.
  - intros Hm'. rewrite turn_for_replaced, decide_False by (done || (rewrite <-Hk'; by apply not_eq_sym, Hno)). by apply Hd.
Qed.
End writes.

(** ** The direct writers *)

Section direct.
Context `{TurnText, IsoFormat}.
Implicit Types k : Z * Z.

Lemma turn_for_put t t' db k :
  NoDup (tkey <$> a_turns db) → turn_for db (tkey t) = Some t → tkey t' = tkey t →
  turn_for (put_turn t' db) k = if decide (tkey t = k) then Some t' else turn_for db k.
Proof.
  intros Hd Ht Hk. case_decide as E; [subst k; by apply (turn_put t)|]. apply turn_for_ext; [done| |].
  - simpl. rewrite update_where_fmap; [done|]. intros x _ Ex%turn_at_spec. by rewrite Ex.
  - intros x Hx. simpl. rewrite elem_of_update_where. split.
    + intros (y & Hy & ->). destruct (turn_at _ _ y); [congruence|done].
    + intros Hin. exists x. split; [done|]. rewrite (proj2 (turn_at_false _ _ x)); [done|]. unfold tkey in *. congruence.
Qed.

(** A direct write is a write of the store, a change of permits alone, a price,
    a deletion, an adoption or a return. *)
Inductive direct_shape (db db' : ADB) : lane_kind → Prop :=
| DWrite : lane_write false false db db' → direct_shape db db' Plain
| DQueue kind : same_queue db db' → direct_shape db db' kind
| DPrice t t' : turn_for db (tkey t) = Some t → repriced t t' → db' = put_turn t' db → direct_shape db db' Plain
| DDelete m : m ∈ a_pending db → db' = delete_pending m db →
    direct_shape db db' (if turn_for db (pkey m) then Plain else Drops (pkey m))
| DAdopt t : is_Some (turn_for db (tkey t)) → (∀ m, m ∈ a_pending db → pkey m ≠ tkey t) → db' = set_turns (replaced t) db →
    direct_shape db db' (Adopts (tkey t))
| DReturn m m' : m ∈ a_pending db → pkey m' = pkey m → pm_message_text m' = pm_message_text m →
    a_pending db' = a_pending (put_pending m' db) →
    (∀ k, k ≠ pkey m → turn_for db' k = turn_for db k) →
    (∀ t, turn_for db (pkey m) = Some t → interrupted t = true ∧ is_Some (turn_for db' (pkey m))) →
    direct_shape db db' (Returns (pkey m)).
Lemma direct_cases kind db db' : lane_ok db → direct_op kind db db' → direct_shape db db' kind.
Proof.
  intros Hok. destruct 1 as [m m' db Hm Ht|t t' db Ht Hr|m db Hp Ht Ha Hc|m owner db Hm Hh Ha Hc|m db Hm|m t db Hm Ht Ha Hk|t e db He Hte Hno|
    p outcome db Hp|p outcome db Hp Hs|s q owner count proof receipt_id m db db' Hm Hrec Hres Hg].
  - by apply DWrite, (LTouch _ _ _ m).
  - apply (DPrice _ _ t t'); [|done..]. by apply turn_key; [apply Hok|].
  - apply DWrite, LEnqueue. split; [intros x Hx E; by destruct (Hp x Hx)|intros x Hx E; by destruct (Ht x Hx)|done| |done].
    by apply unattempted_count.
  - by apply DWrite, (LDispatch _ _ _ m).
  - by apply DDelete.
  - apply DWrite, (LEnd _ _ _ m); try done. by rewrite Ht.
  - apply DAdopt; [by rewrite He|intros m Hm E; destruct (Hno m Hm); by injection E|done].
  - by apply DQueue.
  - by apply DQueue.
  - destruct (return_rows _ _ _ _ _ _ _ _ _ Hres Hm Hrec) as (_ & (m' & Hk' & _ & Ht' & _ & Ep) & Et & _).
    apply pending_found in Hm as [Hm Hk]. rewrite <-Hk in Et |- *. apply (DReturn _ _ m m'); try done.
    + intros k Hne. destruct Et as [Et|(t & usage & Ht & Et)]; [by apply turn_for_same|].
      rewrite (turn_for_same (put_turn (with_usage usage t) db)) by done.
      pose proof Ht as [_ Htk]%turn_key; [|apply Hok]. rewrite (turn_for_put t); [|apply Hok|by rewrite Htk|done].
      rewrite decide_False; [done|congruence].
    + intros t Ht. pose proof Ht as [Hin Htk]%turn_key; [|apply Hok]. split; [by apply (lo_open _ Hok m)|].
      destruct Et as [Et|(x & usage & Hx & Et)]; [rewrite (turn_for_same db) by done; eauto|].
      rewrite (turn_for_same (put_turn (with_usage usage x) db)) by done.
      pose proof Hx as [_ Hxk]%turn_key; [|apply Hok]. rewrite (turn_for_put x); [|apply Hok|by rewrite Hxk|done].
      rewrite decide_True by done. eauto.
Qed.

(** A turn stays, and one that ended stays as it was but for its price, unless
    it is adopted. *)
Lemma direct_turn kind db db' k :
  lane_ok db → direct_op kind db db' →
  (is_Some (turn_for db k) → is_Some (turn_for db' k)) ∧
  (kind ≠ Adopts k → ∀ t, turn_for db k = Some t → interrupted t = false → ∃ t', turn_for db' k = Some t' ∧ repriced t t').
Proof.
  intros Hok Hd%direct_cases; [|done]. pose proof (lo_turns _ Hok) as Hnd.
  destruct Hd as [Hw|kind [Ep Et]|t t' Ht Hr ->|m Hm ->|t Ht Hno ->|m m' Hm Hk Htx Ep Hoth Hsame].
  - destruct (write_turn _ _ _ _ k Hok Hw) as [->|[Hf Hs]]; [split; [done|]; intros _ t Ht _; by exists t|].
    split; [done|]. intros _ t Ht Hi. rewrite Ht in Hf. simpl in Hf. by rewrite Hi in Hf.
  - rewrite (turn_for_same db db') by done. split; [done|]. intros _ t Ht _. by exists t.
  - rewrite (turn_for_put t); [|done|done|apply Hr]. case_decide as E; [subst k|split; [done|]; intros _ x Hx _; by exists x].
    split; [eauto|]. intros _ x Hx _. rewrite Ht in Hx. injection Hx as <-. by exists t'.
  - split; [done|]. intros _ t Ht _. by exists t.
  - rewrite turn_for_replaced by done. case_decide as E; [split; [eauto|by intros []; subst]|].
    split; [done|]. intros _ x Hx _. by exists x.
  - destruct (decide (k = pkey m)) as [->|Hne].
    + split; [intros [t Ht]; by apply (Hsame t)|]. intros _ t Ht Hi. destruct (Hsame t Ht) as [Hi' _]. congruence.
    + rewrite Hoth by done. split; [done|]. intros _ t Ht _. by exists t.
Qed.

Lemma kept_direct kind k text db db' :
  lane_ok db → kind ≠ Drops k → direct_op kind db db' → kept k text db → kept k text db'.
Proof.
  intros Hok Hk Hd Hkept. destruct (direct_turn _ _ _ k Hok Hd) as [Hs _].
  destruct Hkept as [(x & Hx & Hxk & Hxt)|Ht]; [|right; auto].
  apply direct_cases in Hd; [|done]. destruct Hd as [Hw|kind [Ep Et]|t t' Ht Hr ->|m Hm ->|t Ht Hno ->|m m' Hm Hmk Htx Ep Hoth Hsame].
  - apply (kept_write _ _ _ _ _ _ Hok Hw). left. eauto.
  - left. exists x. by rewrite Ep.
  - left. by exists x.
  - destruct (decide (pkey m = k)) as [E|E].
    + right. change (is_Some (turn_for db k)). destruct (turn_for db k) eqn:Et; [eauto|]. rewrite E, Et in Hk. by destruct Hk.
    + left. exists x. split; [|done]. apply list_elem_of_filter. split; [|done]. apply at_key_false. unfold pkey in *. congruence.
  - left. by exists x.
  - left. destruct (decide (pkey x = pkey m)) as [E|E].
    + assert (x = m) as -> by (by apply (one_message db)). exists m'. split_and!; [|congruence..]. rewrite Ep. simpl.
      apply elem_of_update_where. exists m. split; [done|]. by rewrite (proj2 (at_key_spec _ _ m)) by (by rewrite <-Hmk).
    + exists x. split; [|done]. rewrite Ep. simpl. apply elem_of_update_where. exists x. split; [done|].
      rewrite (proj2 (at_key_false _ _ x)); [done|]. intros E'. apply E. by rewrite <-Hmk.
Qed.
Lemma once_direct kind k db db' :
  lane_ok db → kind ≠ Drops k → kind ≠ Returns k → direct_op kind db db' → dispatched_once k db → dispatched_once k db'.
Proof.
  intros Hok Hkd Hkr Hd Honce. destruct (direct_turn _ _ _ k Hok Hd) as [Hs _]. pose proof Honce as [Hn Hno]. split.
  2: { intros Hgone. destruct (decide (Exists (λ m, pkey m = k) (a_pending db))) as [(m & Hm & Hk)%Exists_exists|He].
       - destruct (kept_direct _ k (pm_message_text m) _ _ Hok Hkd Hd) as [(m' & Hm' & Hk' & _)|?]; [left; eauto|by destruct (Hgone m')|done].
       - apply Hs, Hno. intros m Hm Hk. destruct He. apply Exists_exists. eauto. }
  apply direct_cases in Hd; [|done]. destruct Hd as [Hw|kind [Ep Et]|t t' Ht Hr ->|m Hm ->|t Ht Hnom ->|m m' Hm Hmk Htx Ep Hoth Hsame].
  - apply (ungranted_write false k db); [done|by apply (weaken false false)|done].
  - rewrite Ep, (turn_for_same db db') by done. done.
  - intros x Hx Hxk. rewrite (turn_for_put t); [|apply Hok|done|apply Hr]. destruct (Hn x Hx Hxk) as [H1 H2]. split; [done|].
    case_decide as E; [|done]. rewrite (repriced_permission t) by done. by rewrite <-E, Ht in H2.
  - intros x [_ Hx]%list_elem_of_filter. by apply Hn.
  - intros x Hx Hxk. rewrite turn_for_replaced by apply Hok. rewrite decide_False; [by apply Hn|]. intros E. by destruct (Hnom x Hx); congruence.
  - intros x Hx Hxk. assert (k ≠ pkey m) as Hne by congruence. rewrite Hoth by done. rewrite Ep in Hx.
    apply put_pending_elem in Hx as [[-> _]|[Hx _]]; [congruence|by apply Hn].
Qed.

(** ** Steps of the system *)

(** A step of the store, or of a direct writer of an allowed kind. *)
Definition step_of (S : relation ADB) (allowed : lane_kind → Prop) (db db' : ADB) : Prop :=
  S db db' ∨ ∃ kind, allowed kind ∧ direct_op kind db db'.
Lemma system_keeps (P : ADB → Prop) g r S allowed db db' :
  (∀ a b, S a b → writes g r a b) → (∀ a b, lane_ok a → lane_write g r a b → P a → P b) →
  (∀ kind a b, lane_ok a → allowed kind → direct_op kind a b → P a → P b) →
  lane_ok db → rtc (step_of S allowed) db db' → P db → lane_ok db' ∧ P db'.
Proof.
  intros HS HW HD Hok Hrun HP. induction Hrun as [|a b c [Hs|(kind & Ha & Hd)] _ IH]; [done| |].
  - apply HS in Hs. apply IH; [by eapply writes_ok|by apply (run_keeps P g r a)].
  - apply IH; [by eapply direct_ok|by eapply HD].
Qed.
End direct.

(** ** Permits, along every step *)

(** The permit still there: who it is for never changes, and once settled it
    stays settled. *)
Record permit_kept (p p' : Permit) : Prop := mkPermitKept
  { pk_id : cr_id p' = cr_id p; pk_key : permit_key p' = permit_key p; pk_tier : cr_tier p' = cr_tier p;
    pk_daily : cr_daily_key p' = cr_daily_key p; pk_routine : cr_routine_job_name p' = cr_routine_job_name p;
    pk_created : cr_created_at p' = cr_created_at p;
    pk_settled : cr_state p = "settled"%string → cr_state p' = "settled"%string ∧ cr_settled_at p' = cr_settled_at p }.
(** Its state besides: one that holds on, and one that moves forward. *)
Definition permit_holds (p p' : Permit) : Prop := permit_kept p p' ∧ (cr_state p ≠ "settled"%string → cr_state p' ≠ "settled"%string).
Definition permit_forward (p p' : Permit) : Prop := permit_kept p p' ∧ rank (cr_state p) ≤ rank (cr_state p').
#[export] Instance permit_kept_preorder : PreOrder permit_kept.
Proof.
  split; [by split|]. intros p x y [A1 A2 A3 A4 A5 A6 A7] [B1 B2 B3 B4 B5 B6 B7]. split; try congruence.
  intros [E1 E2]%A7. apply B7 in E1 as [E3 E4]. split; congruence.
Qed.
#[export] Instance permit_holds_preorder : PreOrder permit_holds.
Proof. split; [by split|]. intros p x y [A1 A2] [B1 B2]. split; [by transitivity x|auto]. Qed.
#[export] Instance permit_forward_preorder : PreOrder permit_forward.
Proof. split; [by split|]. intros p x y [A1 A2] [B1 B2]. split; [by transitivity x|lia]. Qed.
Lemma step_kept p p' : permit_step p p' → permit_kept p p'.
Proof. intros []. split; try done. intros E. by rewrite ps_settled. Qed.
Lemma pool_weaken (R R' : relation Permit) db db' : (∀ p p', R p p' → R' p p') → pool_step_ok R db db' → pool_step_ok R' db db'.
Proof. intros HR Hs Hok. destruct (Hs Hok) as [Hok' (g & x & Hg & Hr)]. split; [done|]. exists g, x. auto. Qed.

Section permits.
Context `{TurnText, IsoFormat}.

(** What each direct write does to the permits. *)
Lemma direct_permits (R : relation Permit) `{!PreOrder R} kind db db' :
  (∀ p p', permit_kept p p' → cr_state p' = cr_state p → R p p') →
  (kind = Releases → ∀ p p', permit_kept p p' → cr_state p ≠ "settled"%string → cr_state p' = "settled"%string → R p p') →
  ((∃ k, kind = Returns k) → ∀ p p', permit_kept p p' → cr_state p ≠ "settled"%string → cr_state p' = "reserved"%string → R p p') →
  direct_op kind db db' → pool_step_ok R db db'.
Proof.
  intros Hsame Hrel Hret. assert (∀ p, p ∈ a_permits db → pool_ok db → reservation db (cr_local_session_id p) (cr_pending_seq p) = Some p) as Hfind
    by (intros p Hp Hok; by apply reservation_elem; [apply Hok|]).
  destruct 1 as [m m' db Hm Ht|t t' db Ht Hr|m db Hp Ht Ha Hc|m owner db Hm Hh Ha Hc|m db Hm|m t db Hm Ht Ha Hk|t e db He Hte Hno|
    p outcome db Hp|p outcome db Hp Hs|s q owner count proof receipt_id m db db' Hm Hrec Hres Hg]; try (by apply (pool_frame_ok R)).
  - intros Hok. apply (put_permit_ok R p); [by apply (Hfind p)|by apply Hsame|by apply (po_states _ Hok p)|by apply (po_settled_at _ Hok p)|done].
  - intros Hok. apply (put_permit_ok R p); [by apply (Hfind p)| | |by split; eauto|done]; [|decide_in].
    apply Hrel; [done|by split|done|done].
  - destruct (return_rows _ _ _ _ _ _ _ _ _ Hres Hm Hrec) as (_ & _ & _ & [E|(p & Hp & Hst & Hf & E)]); [by apply (pool_frame_ok R)|].
    assert (cr_state p ≠ "settled"%string) as Hne by (rewrite !elem_of_cons, elem_of_nil in Hst; by destruct Hst as [->|[->|[]]]).
    apply (pool_step_trans R _ (put_permit (permit_return p) db)); [|by apply (pool_frame_ok R)]. intros Hok.
    apply (put_permit_ok R p); [done| | | |done].
    + apply Hret; [eauto|by split|done|done].
    + decide_in.
    + simpl. pose proof (po_settled_at _ Hok p Hp) as Hat. split; [done|]. intros Hs. by destruct Hne; apply Hat.
Qed.
Lemma kept_pool kind db db' : direct_op kind db db' → pool_step_ok permit_kept db db'.
Proof. apply direct_permits; [apply _|auto..]. Qed.
Lemma holds_pool kind db db' : kind ≠ Releases → direct_op kind db db' → pool_step_ok permit_holds db db'.
Proof.
  intros Hk. apply direct_permits; [apply _|..].
  - intros p p' Hp E. split; [done|by rewrite E].
  - done.
  - intros _ p p' Hp _ E. split; [done|by rewrite E].
Qed.
Lemma forward_pool kind db db' : (∀ k, kind ≠ Returns k) → direct_op kind db db' → pool_step_ok permit_forward db db'.
Proof.
  intros Hk. apply direct_permits; [apply _|..].
  - intros p p' Hp E. split; [done|by rewrite E].
  - intros _ p p' Hp _ E. split; [done|]. rewrite E. unfold rank. repeat case_bool_decide; done.
  - intros [k E]. by destruct (Hk k).
Qed.
(** Along a run. *)
Lemma system_pool (R : relation Permit) `{!PreOrder R} g r S allowed db db' :
  (∀ a b, S a b → writes g r a b) → (∀ a b, lane_write g r a b → pool_step_ok R a b) →
  (∀ kind a b, allowed kind → direct_op kind a b → pool_step_ok R a b) →
  rtc (step_of S allowed) db db' → pool_step_ok R db db'.
Proof.
  intros HS HW HD. apply (rtc_step_ok R). intros a b [Hs%HS|(kind & Ha & Hd)]; [by apply (rtc_step_ok R (lane_write g r))|by apply (HD kind)].
Qed.
Lemma rel_elem (R : relation Permit) db db' : permit_rel R db db' → ∀ p, p ∈ a_permits db → ∃ p', p' ∈ a_permits db' ∧ R p p'.
Proof. intros (g & x & Hg & Hr) p Hp. exists (g p). split; [|auto]. rewrite Hg. apply elem_of_app. left. by apply list_elem_of_fmap_2. Qed.
Lemma holds_count db db' : permit_rel permit_holds db db' → count (active db) ≤ count (active db').
Proof.
  intros (g & x & Hg & Hr). unfold count, active. rewrite Hg. apply inj_le. clear Hg. induction (a_permits db) as [|p l IH]; [simpl; lia|].
  rewrite fmap_cons, <-app_comm_cons. assert (permit_holds p (g p)) as [_ Hp] by (apply Hr; constructor).
  assert (∀ y, y ∈ l → permit_holds y (g y)) as Hl by (intros; apply Hr; by constructor).
  specialize (IH Hl). rewrite !filter_cons. repeat case_decide; rewrite ?length_cons; try tauto; lia.
Qed.
End permits.

Section claims.
Context `{TurnText, IsoFormat, PriceBook}.

Lemma lane_step_write a b : lane_step a b → writes true true a b.
Proof. intros (g & r & Hs). by apply (weaken_all g r), turn_op_writes. Qed.
Lemma ungranted_step_write a b : ungranted_step a b → writes false true a b.
Proof. intros (r & Hs). by apply (weaken_all false r), turn_op_writes. Qed.
Lemma held_step_write a b : held_lane_step a b → writes true false a b.
Proof. intros (g & Hs). by apply (weaken_all g false), turn_op_writes. Qed.
Lemma system_ok allowed db db' : rtc (step_of lane_step allowed) db db' → lane_ok db → lane_ok db'.
Proof. intros Hrun Hok. by apply (system_keeps (λ _, True) true true lane_step allowed db db' lane_step_write) in Hrun as [? _]. Qed.

(** C4: from an empty queue, whatever the sequence of store operations, of
    admission operations and of the direct writes of capacity waits,
    reconciliation, the drainer, probes and node recovery ([direct_op]): a
    session has at most one queued message and one turn of a number; behind a
    queued message stands nothing but an interrupted attempt; a message is
    dispatched at most [MAX_PENDING_DISPATCHES] times; a claimed message has been
    dispatched, and it is the first of its session, so no two messages of a
    session are in flight. *)
Theorem lane_in_order db0 db :
  a_pending db0 = [] → a_turns db0 = [] → rtc (step_of lane_step (λ _, True)) db0 db →
  NoDup (pkey <$> a_pending db) ∧ NoDup (tkey <$> a_turns db) ∧
  (∀ m t, m ∈ a_pending db → turn_for db (pkey m) = Some t → interrupted t = true) ∧
  (∀ m, m ∈ a_pending db → 0 ≤ pm_dispatch_count m ≤ MAX_PENDING_DISPATCHES) ∧
  (∀ m, m ∈ a_pending db → is_Some (pm_claimed_by_replica m) → 1 ≤ pm_dispatch_count m ∧
     ∀ x, x ∈ a_pending db → pm_session_id x = pm_session_id m →
       pm_seq m ≤ pm_seq x ∧ (is_Some (pm_claimed_by_replica x) → x = m)).
Proof.
  intros Hp Ht Hrun. assert (lane_ok db0) as Hok.
  { split; rewrite ?Hp, ?Ht; try apply NoDup_nil_2; by intros ? ?%elem_of_nil || intros ? ? ?%elem_of_nil. }
  apply system_ok in Hrun; [|done]. destruct Hrun as [Np Nt Ho Hn Hl Hs Hf]. split_and!; [done..| |done|].
  - intros m t Hm [Htt Htk]%turn_key; [|done]. by apply (Ho m).
  - intros m Hm Hc. split; [by apply Hl|]. intros x Hx Hxs. split; [by apply (Hs m)|]. intros Hxc.
    apply (NoDup_fmap_elem pkey (a_pending db)); [done..|]. unfold pkey. f_equal; [done|].
    pose proof (Hs m Hm Hc x Hx Hxs). pose proof (Hs x Hx Hxc m Hm (eq_sym Hxs)). lia.
Qed.

(** C5: once a message is claimed for a dispatch, no run of steps lets a claim
    take its number again unless one of them grants a retry (a preemption
    marker, a drain relay or a result), gives this very claim back on the proof
    that it was never dispatched ([resolve_not_dispatched]), or deletes this very
    message with no turn on record: a physical invocation is never repeated on
    the word of an expired lease, a release, an error, a lost response, a
    recovery, a new claim or anything the direct writers do to other messages. *)
Theorem claim_dispatches_once (E1 E2 : Environ) (K1 K2 : AdmissionHooks) s o1 o2 q q' db db1 db2 db3 :
  lane_ok db → @claim_pending_message_for_session_sync _ _ E1 K1 s o1 db = Ok (Some q, db1) →
  rtc (step_of ungranted_step (λ kind, kind ≠ Returns (s, q) ∧ kind ≠ Drops (s, q))) db1 db2 →
  @claim_pending_message_for_session_sync _ _ E2 K2 s o2 db2 = Ok (Some q', db3) →
  q' ≠ q.
Proof.
  intros Hok Hc1 Hrun Hc2 ->. apply claim_writes in Hc1 as [Hw1 Hc1]. apply claim_writes in Hc2 as [_ Hc2].
  destruct (Hc1 q eq_refl) as (m & m' & Hm & Hk & [Hk' Hc' _ _ _] & Hm' & Hsp & _).
  pose proof (writes_ok _ _ _ _ Hw1 Hok) as Hok1. pose proof (lo_count _ Hok m Hm) as Hc.
  assert (dispatched_once (s, q) db1) as Hd.
  { split; [|intros Hno; destruct (Hno m'); congruence]. intros x Hx Hxk.
    assert (x = m') as -> by (apply (one_message db1); congruence). split; [lia|]. rewrite Hk in Hsp.
    destruct Hsp as [[Ha ->]|Hsp]; [|apply Hsp]. apply not_true_is_false. intros Hr.
    destruct (turn_for db (s, q)) as [t|] eqn:Et; [|done]. apply turn_key in Et as [Ht Htk]; [|apply Hok].
    apply (lo_first _ Hok m t); [done|done|congruence|by apply unattempted_count|]. by exists m'. }
  apply (system_keeps (dispatched_once (s, q)) false true ungranted_step _ db1 db2 ungranted_step_write) in Hrun as [_ Hd2];
    [|intros a b; apply ungranted_write|intros kind a b Ha [Hr Hdr]; by apply once_direct|done|done].
  destruct (Hc2 q eq_refl) as (x & x' & Hx & Hxk & _ & _ & _ & _ & _ & Hperm). destruct Hd2 as [Hd2 _].
  destruct (Hd2 x Hx Hxk) as [Hn Hp]. destruct (_attempted x) eqn:Ha.
  - rewrite Hxk, Hp in Hperm. by specialize (Hperm eq_refl).
  - rewrite (unattempted_count _ Ha) in Hn. lia.
Qed.

(** C23: an accepted message is never lost silently: whatever the store, the
    admission pool and the direct writers do, at every later moment it is still
    queued under its number with its text, or a turn records what became of it,
    unless a step deleted this very message while no turn recorded it, as only
    [delete_pending_message_sync], the drainer's cleanup and reconciliation's
    settlements do ([dw_delete]). *)
Theorem accepted_message_kept s text model recall live db m db1 db2 :
  lane_ok db → create_pending_message s text model recall live db = Ok (m, db1) →
  rtc (step_of lane_step (λ kind, kind ≠ Drops (pkey m))) db1 db2 →
  (∃ m', m' ∈ a_pending db2 ∧ pkey m' = pkey m ∧ pm_message_text m' = pm_message_text m) ∨
  ∃ t, t ∈ a_turns db2 ∧ tkey t = pkey m.
Proof.
  intros Hok He Hrun. apply enqueue_writes in He as (Hw & _ & Hm). pose proof (writes_ok _ _ _ _ Hw Hok) as Hok1.
  apply (system_keeps (kept (pkey m) (pm_message_text m)) true true lane_step _ db1 db2 lane_step_write) in Hrun as [Hok2 [?|[t Ht]]].
  - by left.
  - right. exists t. apply turn_key; [apply Hok2|done].
  - intros a b. apply kept_write.
  - intros kind a b Ha Hk. by apply kept_direct.
  - done.
  - left. eauto.
Qed.

Lemma finished_run db db' t :
  lane_ok db → rtc (step_of lane_step (λ kind, kind ≠ Adopts (tkey t))) db db' → t ∈ a_turns db → interrupted t = false →
  ∃ t', t' ∈ a_turns db' ∧ repriced t t'.
Proof.
  intros Hok Hrun Ht Hi.
  apply (system_keeps (λ d, ∃ t', t' ∈ a_turns d ∧ repriced t t') true true lane_step _ db db' lane_step_write) in Hrun as [_ Hd]; [done|..].
  - intros a b Ha Hw (x & Hx & Hr). exists x. split; [|done]. eapply finished_write; [done|done|done|].
    unfold interrupted in *. by rewrite (rp_terminal _ _ Hr).
  - intros kind a b Ha Hk Hd (x & Hx & Hr). pose proof (direct_ok _ _ _ Hd Ha) as Hb.
    destruct (direct_turn kind a b (tkey t) Ha Hd) as [_ Hend].
    destruct (Hend Hk x) as (t' & Ht' & Hr').
    + apply turn_key; [apply Ha|]. split; [done|apply Hr].
    + unfold interrupted in *. by rewrite (rp_terminal _ _ Hr).
    + exists t'. apply turn_key in Ht' as [Ht' _]; [|apply Hb]. split; [done|by transitivity x].
  - done.
  - by exists t.
Qed.


(** C22: the lane and the admission pool agree on capacity. Every run of the
    store, of admission and of the direct writers keeps one permit per start, and
    each permit that exists is still there, for the same start, and settled for
    good once settled; while no claim is given back as never dispatched, its state
    moves forward only; and a run without a result, an error, a cancelled start,
    an admission release or a direct settlement frees nothing, a claim given back
    included: as many permits are held after it, the held ones all still held. *)
Theorem lane_holds_capacity db db' :
  pool_ok db →
  (rtc (step_of lane_step (λ _, True)) db db' → pool_ok db' ∧ ∀ p, p ∈ a_permits db → ∃ p', p' ∈ a_permits db' ∧ permit_kept p p') ∧
  (rtc (step_of lane_step (λ kind, ∀ k, kind ≠ Returns k)) db db' →
     ∀ p, p ∈ a_permits db → ∃ p', p' ∈ a_permits db' ∧ permit_kept p p' ∧ rank (cr_state p) ≤ rank (cr_state p')) ∧
  (rtc (step_of held_lane_step (λ kind, kind ≠ Releases)) db db' → count (active db) ≤ count (active db') ∧
     ∀ p, p ∈ active db → ∃ p', p' ∈ active db' ∧ permit_key p' = permit_key p).
Proof.
  intros Hok. split_and!.
  - intros Hrun. apply (system_pool permit_kept true true) in Hrun; [|apply lane_step_write| |intros kind a b _; apply kept_pool].
    + destruct (Hrun Hok) as [Hok' Hrel]. split; [done|by apply rel_elem].
    + intros a b Hw. eapply pool_weaken; [apply step_kept|by eapply write_pool].
  - intros Hrun. apply (system_pool permit_forward true true) in Hrun; [|apply lane_step_write| |intros kind a b Hk; by apply forward_pool].
    + destruct (Hrun Hok) as [_ Hrel]. by apply rel_elem.
    + intros a b Hw. eapply pool_weaken; [|by eapply write_pool]. intros p p' Hs. split; [by apply step_kept|apply Hs].
  - intros Hrun. apply (system_pool permit_holds true false) in Hrun; [|apply held_step_write| |intros kind a b Hk; by apply holds_pool].
    + destruct (Hrun Hok) as [_ Hrel]. split; [by apply holds_count|]. intros p [Hst Hp]%list_elem_of_filter.
      destruct (rel_elem _ _ _ Hrel p Hp) as (p' & Hp' & [Hkp Hh]). exists p'. split; [|apply Hkp]. apply list_elem_of_filter. auto.
    + intros a b Hw%write_holds%holding_op_ok. revert Hw. apply pool_weaken. intros p p' [Hs Hh]. split; [by apply step_kept|done].
Qed.
End claims.

(** * Turn store: the hold over a lost response, and what a guest may report

    The hold is written into the usage of an attempt's marker and read back from
    it: the round trip, what it protects while it lives, and the one way a
    guest's own report can pass for the server's evidence. *)

Section hold.
Context `{TurnText, IsoFormat, PriceBook}.

(** What a recovery record reads back as. *)
Lemma recovery_read now m reason now' deadline l existing t :
  tu_usage_json t = Some (encoded (sanitize_payload (PDict (_progress_usage now m reason
    [("invocation_phase", PStr RESPONSE_LOST); ("response_lost", PDict (hold_json now' deadline l))]%string ++
    prior_interruption existing)))) →
  ∃ r h, recovery_of t = Ok (Some r) ∧ dict_get "response_lost" r = PDict h ∧
    dict_get "claim_owner" r = sanitize_payload (opt_str (pm_claimed_by_replica m)) ∧
    dict_get "dispatch_count" r = PInt (pm_dispatch_count m) ∧
    dict_get "receipt_id" h = PStr (strip_nul (lr_receipt_id l)) ∧ dict_get "guest_id" h = PStr (strip_nul (lr_guest_id l)) ∧
    dict_get "hold_until" h = PStr (strip_nul (iso deadline)).
Proof.
  intros Hu. unfold recovery_of. rewrite Hu, loads_encoded. destruct existing as [e|].
  all: do 2 eexists; split_and!; vm_compute; reflexivity.
Qed.

(** The marker a lost response leaves: whose dispatch, and until when. *)
Definition lost_by (m : PendingMessage) (l : LostResponse) (deadline : Z) (t : AgentTurn) : Prop :=
  tkey t = pkey m ∧ lost_marker t = true ∧
  ∃ r h, recovery_of t = Ok (Some r) ∧ dict_get "response_lost" r = PDict h ∧
    dict_get "claim_owner" r = sanitize_payload (opt_str (pm_claimed_by_replica m)) ∧
    dict_get "dispatch_count" r = PInt (pm_dispatch_count m) ∧
    dict_get "receipt_id" h = PStr (strip_nul (lr_receipt_id l)) ∧ dict_get "guest_id" h = PStr (strip_nul (lr_guest_id l)) ∧
    dict_get "hold_until" h = PStr (strip_nul (iso deadline)).

Lemma written_lost sess m existing bound l db db' :
  pm_session_id m = as_id sess → turn_for db (pkey m) = existing → NoDup (tkey <$> a_turns db) →
  _write_response_lost_locked sess m existing bound l None db = Ok db' →
  ∃ t, turn_for db' (pkey m) = Some t ∧ lost_by m l (a_now db + microseconds bound) t ∧ a_pending db' = a_pending db.
Proof.
  intros Hs He Hnd. unfold _write_response_lost_locked, create_turn. intros (db1 & Ha & [= <-])%res_bind_ok.
  match type of Ha with add_turn ?t _ = _ => set (tu := t) in * end.
  assert (tkey tu = pkey m) as Hk by (unfold tu, tkey, pkey; simpl; by rewrite Hs).
  rewrite (add_replaced tu db db) in Ha by (by rewrite ?Hk). injection Ha as <-. exists tu. split_and!; [|split_and!|done].
  - change (turn_for (set_turns (replaced tu) db) (pkey m) = Some tu). by rewrite turn_for_replaced, decide_True.
  - done.
  - done.
  - by eapply recovery_read.
Qed.
Lemma lost_mark s q owner n l hold db db' :
  NoDup (tkey <$> a_turns db) → mark_turn_response_lost_sync s q owner n l hold db = Ok (true, db') →
  _covered_response_lost_hold (get_turn db s q) owner n = Ok false →
  ∃ m deadline t, get_pending_message db' s q = Some m ∧ pm_claimed_by_replica m = Some owner ∧ pm_dispatch_count m = n ∧
    get_turn db' s q = Some t ∧ lost_by m l deadline t.
Proof.
  intros Hnd. unfold mark_turn_response_lost_sync. next_guard; [done|]. intros (seconds & _ & Hq)%res_bind_ok Hcov.
  revert Hq. next_guard; [done|]. destruct (get_session db s) as [sess|] eqn:Es; [|done].
  destruct (get_pending_message db s q) as [m|] eqn:Em; [|done]. next_guard; [done|].
  destruct (open_permit _ _ _ _); [|done]. next_guard; [done|]. rewrite Hcov. simpl.
  intros (db1 & Hw & [= <-])%res_bind_ok. pose proof Em as Em'. apply pending_at in Em as (Hm & Hk & Ht).
  apply session_found in Es as [_ Es]. rewrite !orb_false_iff in Heqb1. destruct Heqb1 as [[[[[Ho Hc] _] _] _] _].
  apply negb_false_iff, bool_decide_eq_true in Ho. apply negb_false_iff, Z.eqb_eq in Hc.
  destruct (written_lost sess m _ _ _ _ _ ltac:(unfold pkey in Hk; congruence) Ht Hnd Hw) as (t & Htt & Hl & Ep).
  eexists m, _, t. split_and!; [|done|done| |exact Hl].
  - unfold get_pending_message in *. by rewrite Ep.
  - unfold turn_for in Htt. by rewrite Hk in Htt.
Qed.

(** Reading it back: the same hold, until its deadline. *)
Lemma lost_read m l deadline t owner now :
  (∀ d, parse_iso (iso d) = Some (mkDatetime d (Some 0))) → (∀ d, strip_nul (iso d) = iso d) →
  strip_nul owner = owner → pm_claimed_by_replica m = Some owner → lost_by m l deadline t →
  ∃ r, recovery_of t = Ok (Some r) ∧ is_set (hold_of r (PStr owner) (pm_dispatch_count m)) = true ∧
    if decide (deadline ≤ now) then _response_lost_hold now (Some t) m = Ok None
    else ∃ h, _response_lost_hold now (Some t) m = Ok (Some h) ∧
      dict_get "receipt_id" h = PStr (strip_nul (lr_receipt_id l)) ∧ dict_get "guest_id" h = PStr (strip_nul (lr_guest_id l)) ∧
      dict_get "hold_until" h = PStr (iso deadline).
Proof.
  intros Hiso Hnul Hown Hc ([= _ Hseq] & Hlost & r & h & Hr & Hh & Ho & Hn & Hid & Hg & Hu).
  rewrite Hc in Ho. simpl in Ho. rewrite Hown in Ho. rewrite Hnul in Hu.
  assert (hold_of r (PStr owner) (pm_dispatch_count m) = Some h) as Hhold.
  { unfold hold_of. rewrite Hh, Ho, Hn, Hid, Hg, py_eq_ints, Z.eqb_refl. simpl. by rewrite bool_decide_eq_true_2. }
  exists r. split; [done|]. split; [by rewrite Hhold|].
  assert (_response_lost_hold now (Some t) m = Ok (if deadline <=? now then None else
    Some (dict_update h [("session_id", PInt (pm_session_id m)); ("seq", PInt (pm_seq m));
      ("claim_owner", dict_get "claim_owner" r); ("dispatch_count", dict_get "dispatch_count" r);
      ("prompt", PStr (pm_message_text m)); ("model", opt_str (pm_model m)); ("hold_until", PStr (iso deadline))]%string))) as ->.
  { unfold _response_lost_hold. rewrite Hc, Hseq, Z.eqb_refl, Hlost. simpl. rewrite Hr. cbn [mbind res_bind].
    rewrite Hhold, Hu. unfold _hold_timestamp. rewrite Hiso. simpl. unfold instant. simpl. by rewrite Z.sub_0_r. }
  case_decide as Hd; [by rewrite (proj2 (Z.leb_le _ _) Hd)|]. rewrite (proj2 (Z.leb_gt _ _)) by lia.
  eexists. split_and!; [done|..].
  - rewrite dict_get_update_other; [done|decide_in].
  - rewrite dict_get_update_other; [done|decide_in].
  - unfold dict_get, dict_update. cbn [foldl fst snd]. by rewrite assoc_get_set_eq.
Qed.

(** C26: a lost response is held to its deadline. Once a claim's response is
    reported lost, the hold reads back what was written (receipt, guest,
    deadline); while it lives, no release, no lease sweep and no second report
    changes anything, whoever calls and at whatever later state of the rest of
    the store; from the deadline on it holds no more. *)
Theorem lost_response_held s q owner n l hold db db' :
  (∀ d, parse_iso (iso d) = Some (mkDatetime d (Some 0))) → (∀ d, strip_nul (iso d) = iso d) → strip_nul owner = owner →
  lane_ok db → _covered_response_lost_hold (get_turn db s q) owner n = Ok false →
  mark_turn_response_lost_sync s q owner n l hold db = Ok (true, db') →
  ∃ m deadline, get_pending_message db' s q = Some m ∧
  ∀ later, lane_ok later → get_pending_message later s q = Some m → get_turn later s q = get_turn db' s q →
    if decide (deadline ≤ a_now later) then _response_lost_hold (a_now later) (get_turn later s q) m = Ok None else
    (∃ h, _response_lost_hold (a_now later) (get_turn later s q) m = Ok (Some h) ∧
       dict_get "receipt_id" h = PStr (strip_nul (lr_receipt_id l)) ∧ dict_get "guest_id" h = PStr (strip_nul (lr_guest_id l)) ∧
       dict_get "hold_until" h = PStr (iso deadline)) ∧
    (∀ r cause count, ∃ b, release_pending_message_claim_sync s q r cause count later = Ok (b, later)) ∧
    (∀ c, pkey c = (s, q) → reclaim_one (a_now later) c later = Ok (false, later)) ∧
    (∀ owner' n' l' hold' b db2, mark_turn_response_lost_sync s q owner' n' l' hold' later = Ok (b, db2) → db2 = later).
Proof.
  intros Hiso Hnul Hown Hok Hcov Hmark.
  destruct (lost_mark _ _ _ _ _ _ _ _ (lo_turns _ Hok) Hmark Hcov) as (m & deadline & t & Hm & Hc & Hn & Ht & Hl).
  exists m, deadline. split; [done|]. intros later Hokl Hml Htl. rewrite Htl, Ht.
  destruct (lost_read m l deadline t owner (a_now later) Hiso Hnul Hown Hc Hl) as (r & Hr & Hh & Hread).
  case_decide; [done|]. destruct Hread as (h & Hread & Hfields). rewrite Ht in Htl.
  split_and!; [eauto|..].
  - intros o cause count. unfold release_pending_message_claim_sync. destruct (get_session later s); [|eauto].
    case_match; [eauto|]. rewrite Hml. case_match; [eauto|]. rewrite Htl, Hread. cbn [mbind res_bind]. eauto.
  - intros c Hk. unfold pkey in Hk. unfold reclaim_one. injection Hk as -> ->. destruct (get_session later s); [|done].
    destruct (find_first _ (a_pending later)) as [x|] eqn:Ex; [|done]. apply find_first_Some in Ex as [Hx Hxk].
    rewrite !andb_true_iff in Hxk. destruct Hxk as [[[Hxk%at_key_spec _] _] _].
    assert (x = m) as -> by (apply pending_at in Hml as (? & ? & _); apply (one_message later); congruence).
    rewrite Htl, Hread. by case_match.
  - intros o' n' l' hold' b db2. unfold mark_turn_response_lost_sync. next_guard; [by intros [= _ <-]|].
    intros (seconds & _ & Hq)%res_bind_ok. revert Hq. next_guard; [by intros [= _ <-]|].
    destruct (get_session later s) as [sess|]; [|by intros [= _ <-]]. rewrite Hml. next_guard; [by intros [= _ <-]|].
    destruct (open_permit _ _ _ _); [|by intros [= _ <-]]. rewrite Htl. next_guard; [by intros [= _ <-]|].
    rewrite !orb_false_iff in Heqb2. destruct Heqb2 as [[[[[Ho Hc'] _] _] _] _].
    apply negb_false_iff, bool_decide_eq_true in Ho. apply negb_false_iff, Z.eqb_eq in Hc'.
    assert (_covered_response_lost_hold (Some t) o' n' = Ok true) as ->; [|by intros [= _ <-]].
    unfold _covered_response_lost_hold. destruct Hl as (_ & -> & _). simpl. rewrite Hr. cbn [mbind res_bind].
    rewrite Ho in Hc. injection Hc as <-. by rewrite <-Hc', Hh.
Qed.
End hold.
