(* ===== verification/TurnEvidence.v ===== *)
(** * Turn store: whose word the recorded usage is

    A completion's usage mixes what the server observed with what the guest
    reported.  The server's keys are taken out of the report and written anew;
    the payload is then stripped of NUL characters, keys included. *)

From Stdlib Require Import SpecFloat.
From stdpp Require Import prelude list strings relations.
From S2P Require Import Prelude PyValue WorkItems PolicyData Pricing Admission TurnStore TurnDispatch TurnGuest TurnResult TurnFacts TurnOps.
Local Open Scope Z_scope.

(** A dict whose keys are distinct and free of NUL. *)
Definition plain (d : dict) : Prop := NoDup d.*1 ∧ ∀ k, k ∈ d.*1 → strip_nul k = k.

Lemma plain_set k v d : strip_nul k = k → plain d → plain (dict_set k v d).
Proof.
  intros Hk [Hn Hs]. split; [by apply dict_set_NoDup|]. intros k'. rewrite dict_set_keys. case_bool_decide; [auto|].
  intros [? | ->%list_elem_of_singleton]%elem_of_app; auto.
Qed.
Lemma plain_pop k d : plain d → plain (dict_pop k d).
Proof.
  intros [Hn Hs]. split; [by apply NoDup_fmap_filter|]. intros k' (p & -> & [_ Hp]%list_elem_of_filter)%list_elem_of_fmap.
  by apply Hs, list_elem_of_fmap_2.
Qed.
Lemma plain_when k v d : strip_nul k = k → plain d → plain (set_when k v d).
Proof. destruct v; [apply plain_set|done]. Qed.

Lemma dict_set_new {A} k (v : A) d : k ∉ d.*1 → dict_set k v d = d ++ [(k, v)].
Proof.
  induction d as [|[k' v'] d IH]; [done|]. simpl. rewrite not_elem_of_cons. intros [Hne Hk].
  rewrite bool_decide_eq_false_2 by congruence. by rewrite IH.
Qed.
Lemma dict_of_distinct d : NoDup d.*1 → dict_of d = d.
Proof.
  unfold dict_of. intros Hn. assert (∀ acc : dict, NoDup (acc ++ d).*1 → foldl (λ d p, dict_set p.1 p.2 d) acc d = acc ++ d) as Hf.
  { clear Hn. induction d as [|[k v] d IH]; intros acc Hn; [by rewrite app_nil_r|]. cbn [foldl fst snd].
    rewrite dict_set_new, IH; [by rewrite <-app_assoc|by rewrite <-app_assoc|].
    rewrite fmap_app in Hn. apply NoDup_app in Hn as (_ & Hd & _). intros Hk. apply (Hd k Hk). by left. }
  by apply (Hf []).
Qed.
(** Sanitizing a plain dict touches its values only. *)
Lemma sanitize_plain d :
  plain d → ∃ u, sanitize_payload (PDict d) = PDict u ∧ ∀ k, assoc_get k u = sanitize_payload <$> assoc_get k d.
Proof.
  intros [Hn Hs]. exists (dict_of ((λ p, (strip_nul p.1, sanitize_payload p.2)) <$> d)). split; [done|].
  assert ((λ p : string * pyval, (strip_nul p.1, sanitize_payload p.2)) <$> d = (λ p, (p.1, sanitize_payload p.2)) <$> d) as ->.
  { apply list_fmap_ext. intros i [k v] Hp%list_elem_of_lookup_2. simpl. f_equal. apply Hs. by apply (list_elem_of_fmap_2 fst _ (k, v)). }
  rewrite dict_of_distinct by by rewrite <-list_fmap_compose. intros k. clear. induction d as [|[k' v] d IH]; [done|]. simpl.
  by case_bool_decide.
Qed.

Lemma assoc_get_pop k k' (d : dict) : assoc_get k (dict_pop k' d) = if decide (k = k') then None else assoc_get k d.
Proof.
  unfold dict_pop. induction d as [|[k1 v] d IH]; [by case_decide|]. rewrite filter_cons. cbn [fst].
  destruct (decide (k1 = k')) as [->|E1].
  - rewrite decide_False by tauto. rewrite IH. simpl. repeat case_decide; repeat case_bool_decide; congruence.
  - rewrite decide_True by done. cbn [assoc_get]. rewrite IH. repeat case_decide; repeat case_bool_decide; congruence.
Qed.
Lemma assoc_get_when k k' v d :
  assoc_get k (set_when k' v d) = if decide (k' = k) then match v with Some _ => v | None => assoc_get k d end else assoc_get k d.
Proof. destruct v; simpl; [apply assoc_get_dict_set|by case_decide]. Qed.

Section evidence.
Context `{IsoFormat}.

Lemma observed_plain now pending ms t capture provenance :
  plain (tn_usage t) → plain (observed_usage now pending ms t capture provenance).
Proof.
  intros Hp. unfold observed_usage.
  repeat first [apply plain_when; [done|] | apply plain_set; [done|] | apply plain_pop]. done.
Qed.
Lemma recorded_plain existing t pending owner n cost usage usage' usage'' cost' :
  continued existing usage cost = Ok (usage', cost') → drain_grant t pending owner n usage' = Ok usage'' → plain usage →
  plain usage'' ∧ ∀ k, k ≠ "drain_continuations"%string → k ≠ "retry_dispatch_count"%string → assoc_get k usage'' = assoc_get k usage.
Proof.
  intros Hc Hd Hp. assert (plain usage' ∧ ∀ k, k ≠ "drain_continuations"%string → assoc_get k usage' = assoc_get k usage) as [Hp' Hk].
  { unfold continued in Hc. destruct existing as [e|]; [|by injection Hc as <- _].
    destruct (negb _); [by injection Hc as <- _|]. repeat case_match; try done;
      (injection Hc as <- _; split; [by apply plain_set|]; intros k Hne; by apply assoc_get_set_ne). }
  assert (usage'' = usage' ∨ ∃ v, usage'' = dict_set "retry_dispatch_count" v usage') as [-> |[v ->]].
  { unfold drain_grant in Hd. repeat case_match; try done; injection Hd as <-; eauto. }
  - auto.
  - split; [by apply plain_set|]. intros k H1 H2. rewrite assoc_get_set_ne by done. auto.
Qed.

(** Under its own keys the report shows what the server observed. *)
Lemma observed_keys now pending ms t capture provenance :
  let u := observed_usage now pending ms t capture provenance in
  assoc_get "native_result_receipt" u = PDict <$> provenance ∧ assoc_get "browser_capture_producer" u = capture ∧
  assoc_get "observation" u = Some (turn_observation now pending ms (tn_duration_ms t)) ∧
  assoc_get "provider_model" u = PStr <$> tn_provider_model t ∧ assoc_get "effort" u = PStr <$> tn_effort t.
Proof.
  unfold observed_usage. split_and!.
  all: repeat first [rewrite assoc_get_when | rewrite assoc_get_pop | rewrite assoc_get_dict_set]; simpl.
  - by destruct provenance.
  - by destruct capture.
  - done.
  - by destruct (tn_provider_model t).
  - by destruct (tn_effort t).
Qed.

(** The last word on a key: no later entry becomes the key when NULs are
    stripped. *)
Definition last_word (k : string) (v : pyval) (d : dict) : Prop :=
  strip_nul k = k ∧ ∃ pre post, d = pre ++ (k, v) :: post ∧ ∀ p, p ∈ post → strip_nul p.1 ≠ k.

Lemma last_word_set k v d : strip_nul k = k → last_word k v (dict_set k v (dict_pop k d)).
Proof using.
  intros Hk. split; [done|]. exists (dict_pop k d), []. split; [|by intros p []%elem_of_nil].
  apply dict_set_new. intros (p & E & [Hp _]%list_elem_of_filter)%list_elem_of_fmap. by apply Hp.
Qed.
Lemma last_word_other k v k' v' d : strip_nul k' ≠ k → k' ≠ k → last_word k v d → last_word k v (dict_set k' v' d).
Proof using.
  intros Hs Hne [Hk (pre & post & -> & Hpost)]. split; [done|]. induction pre as [|[k1 v1] pre IH].
  - exists [], (dict_set k' v' post). cbn [app dict_set]. rewrite bool_decide_eq_false_2 by congruence. split; [done|].
    clear Hk. induction post as [|[k2 v2] post IHp]; cbn [dict_set].
    + intros p ->%list_elem_of_singleton. done.
    + case_bool_decide as E.
      * intros p [->|Hp]%elem_of_cons; [by subst|]. apply Hpost. by right.
      * intros p [->|Hp]%elem_of_cons; [apply Hpost; by left|]. apply IHp; [|done]. intros x Hx. apply Hpost. by right.
  - cbn [app dict_set]. case_bool_decide as E.
    + exists ((k1, v') :: pre), post. by subst.
    + destruct IH as (pre' & post' & -> & Hpost'). by exists ((k1, v1) :: pre'), post'.
Qed.
Lemma last_word_pop k v k' d : k' ≠ k → last_word k v d → last_word k v (dict_pop k' d).
Proof using.
  intros Hne [Hk (pre & post & -> & Hpost)]. split; [done|]. exists (dict_pop k' pre), (dict_pop k' post).
  unfold dict_pop. rewrite filter_app, filter_cons, decide_True by (simpl; congruence). split; [done|].
  intros p [_ Hp]%list_elem_of_filter. by apply Hpost.
Qed.
Lemma last_word_when k v k' v' d : strip_nul k' ≠ k → k' ≠ k → last_word k v d → last_word k v (set_when k' v' d).
Proof using. destruct v'; [apply last_word_other|done]. Qed.

(** Sanitizing keeps the last word. *)
Lemma assoc_get_last k v (l1 l2 acc : dict) :
  (∀ p, p ∈ l2 → p.1 ≠ k) →
  assoc_get k (foldl (λ d p, dict_set p.1 p.2 d) acc (l1 ++ (k, v) :: l2)) = Some v.
Proof using.
  rewrite foldl_app. cbn [foldl fst snd]. generalize (foldl (λ d p, dict_set p.1 p.2 d) acc l1) as d. intros d Hl.
  assert (assoc_get k (dict_set k v d) = Some v) as Hd by (by rewrite assoc_get_dict_set, decide_True).
  revert Hd. generalize (dict_set k v d) as e. induction l2 as [|[k' v'] l2 IH]; intros e He; [done|]. cbn [foldl fst snd].
  apply IH; [intros p Hp; apply Hl; by right|]. rewrite assoc_get_dict_set, decide_False; [done|]. intros ->.
  by apply (Hl (k, v')); [left|].
Qed.
Lemma last_word_sanitized k v d u : last_word k v d → sanitize_payload (PDict d) = PDict u → assoc_get k u = Some (sanitize_payload v).
Proof using.
  intros [Hk (pre & post & -> & Hpost)] [= <-]. unfold dict_of. rewrite fmap_app, fmap_cons. cbn [fst snd]. rewrite Hk.
  apply assoc_get_last. intros p (x & -> & Hx)%list_elem_of_fmap. simpl. by apply Hpost.
Qed.

Ltac last_words :=
  repeat first [apply last_word_when; [done|done|] | apply last_word_other; [done|done|] | apply last_word_pop; [done|]].

Lemma observed_words now pending ms t capture provenance :
  let d := observed_usage now pending ms t capture provenance in
  last_word "observation" (turn_observation now pending ms (tn_duration_ms t)) d ∧
  (∀ p, provenance = Some p → last_word "native_result_receipt" (PDict p) d) ∧
  (∀ p, capture = Some p → last_word "browser_capture_producer" p d) ∧
  (∀ m, tn_provider_model t = Some m → last_word "provider_model" (PStr m) d) ∧
  (∀ e, tn_effort t = Some e → last_word "effort" (PStr e) d).
Proof using.
  unfold observed_usage. split_and!; [|intros x ->..]; last_words; by apply last_word_set.
Qed.

(** The two keys written after the observation are not the server's keys. *)
Lemma recorded_words existing t pending owner n cost usage usage' usage'' cost' k v :
  continued existing usage cost = Ok (usage', cost') → drain_grant t pending owner n usage' = Ok usage'' →
  k ≠ "drain_continuations"%string → k ≠ "retry_dispatch_count"%string → last_word k v usage → last_word k v usage''.
Proof using.
  intros Hc Hd H1 H2 Hw. assert (last_word k v usage') as Hw'.
  { unfold continued in Hc. destruct existing as [e|]; [|by injection Hc as <- _].
    destruct (negb _); [by injection Hc as <- _|]. repeat case_match; try done;
      (injection Hc as <- _; by apply last_word_other). }
  unfold drain_grant in Hd. repeat case_match; try done; injection Hd as <-; try done. by apply last_word_other.
Qed.
End evidence.

Section stored.
Context `{TurnText, IsoFormat, PriceBook, ResultHooks}.

(** C25: a guest's usage is data, never authority.  When a completion is
    recorded, the usage in the stored row shows under the server's keys what the
    server established, whatever the guest reported and under whatever keys: its
    own observation of the dispatch (which quotes the guest's run time when it is
    plausible), the provenance of the native receipt it validated when there is
    one, and the producer of a browser capture when there is one.  The model and
    effort are the guest-reported labels the transport parsed, not what stood in
    the usage under those keys.  When there is no receipt or no capture the key is
    absent, provided the report's keys are distinct and free of NUL; a key with
    a NUL can take its place, which is recorded as a finding. *)
Theorem recorded_evidence_authentic s q c db t db' :
  persist_turn_from_pending_sync s q c db = Ok (t, db') → ∃ before row provenance capture u,
    get_session db s = Some before ∧ receipt_provenance db before q c = Ok (provenance, row) ∧ capture_producer row q = Ok capture ∧
    tkey t = (s, q) ∧ tu_usage_json t = Some (encoded (PDict u)) ∧
    assoc_get "observation" u = Some (sanitize_payload (turn_observation (a_now db) (get_pending_message db s q)
                                        (cp_executor_elapsed_ms c) (tn_duration_ms (cp_turn c)))) ∧
    (∀ p, provenance = Some p → assoc_get "native_result_receipt" u = Some (sanitize_payload (PDict p))) ∧
    (∀ p, capture = Some p → assoc_get "browser_capture_producer" u = Some (sanitize_payload p)) ∧
    (∀ m, tn_provider_model (cp_turn c) = Some m → assoc_get "provider_model" u = Some (PStr (strip_nul m))) ∧
    (∀ e, tn_effort (cp_turn c) = Some e → assoc_get "effort" u = Some (PStr (strip_nul e))) ∧
    (plain (tn_usage (cp_turn c)) →
       (provenance = None → assoc_get "native_result_receipt" u = None) ∧
       (capture = None → assoc_get "browser_capture_producer" u = None)).
Proof.
  intros (before & row & provenance & capture & usage & cost & recorded & Hs & _ & Hprov & Hcap & Hc & Hd & _ & Hk & _ & Hu & _)%persist_inv.
  destruct (sanitize_payload (PDict recorded)) as [| | | | | |u|] eqn:Eu; try done.
  exists before, row, provenance, capture, u. do 5 (split; [done|]).
  destruct (observed_words (a_now db) (get_pending_message db s q) (cp_executor_elapsed_ms c) (cp_turn c) capture provenance)
    as (W1 & W2 & W3 & W4 & W5).
  assert (∀ k v, k ≠ "drain_continuations"%string → k ≠ "retry_dispatch_count"%string →
            last_word k v (observed_usage (a_now db) (get_pending_message db s q) (cp_executor_elapsed_ms c) (cp_turn c) capture provenance) →
            assoc_get k u = Some (sanitize_payload v)) as Hword.
  { intros k v Hk1 Hk2 Hw. eapply last_word_sanitized; [|exact Eu]. by eapply recorded_words. }
  split; [by apply Hword|]. split; [intros p Hp; apply Hword; auto|]. split; [intros p Hp; apply Hword; auto|].
  split; [intros m Hm; by apply (Hword _ (PStr m)), W4|]. split; [intros e He; by apply (Hword _ (PStr e)), W5|].
  intros Hp. apply (observed_plain (a_now db) (get_pending_message db s q) (cp_executor_elapsed_ms c) (cp_turn c) capture provenance) in Hp.
  destruct (recorded_plain _ _ _ _ _ _ _ _ _ _ Hc Hd Hp) as [Hp' Hkeys].
  destruct (sanitize_plain _ Hp') as (u' & Eu' & Hg). rewrite Eu in Eu'. injection Eu' as <-.
  destruct (observed_keys (a_now db) (get_pending_message db s q) (cp_executor_elapsed_ms c) (cp_turn c) capture provenance) as (K1 & K2 & _).
  split; intros ->; by rewrite Hg, Hkeys, ?K1, ?K2 by done.
Qed.
End stored.
