(* ===== verification/TurnWitness.v ===== *)
(** * Turn store: concrete instances of the theorems *)

From Stdlib Require Import SpecFloat Ascii.
From stdpp Require Import prelude list strings relations.
From S2P Require Import Prelude PyValue WorkItems PolicyData Pricing Admission AdmissionInvariant AdmissionClaims TurnStore TurnDispatch TurnGuest TurnResult TurnFacts TurnOps TurnLane ResultReceipts DirectWriters TurnClaims TurnEvidence.
Local Open Scope Z_scope.

Module TurnDemo.

#[local] Instance text : TurnText :=
  {| json_dumps := λ _, "json"%string; json_loads := λ _, None; str_other := λ _, "?"%string;
     exact_dispatch_id := λ _, "dispatch"%string; json_dumps_text := λ _, ltac:(discriminate) |}.
#[local] Instance book : PriceBook := λ _ _ _, UnknownModel.
#[local] Instance env : Environ := λ _, None.
#[local] Instance hooks : AdmissionHooks := {| can_start := λ _ _ _, Ok true; may_dispatch := λ _ _, true |}.

(** Times written digit by digit, least significant bit first. *)
Fixpoint bits (p : positive) : string :=
  match p with xH => "i" | xO p => String "o"%char (bits p) | xI p => String "l"%char (bits p) end.
Fixpoint of_bits (s : string) : option positive :=
  match s with
  | "i" => Some xH
  | String "o"%char s => xO <$> of_bits s
  | String "l"%char s => xI <$> of_bits s
  | _ => None
  end%string.
Definition stamp (t : Z) : string := match t with Z0 => "0" | Zpos p => String "+"%char (bits p) | Zneg p => String "-"%char (bits p) end.
Definition of_stamp (s : string) : option Z :=
  match s with
  | "0" => Some 0
  | String "+"%char s => Zpos <$> of_bits s
  | String "-"%char s => Zneg <$> of_bits s
  | _ => None
  end%string.
#[local] Instance iso : IsoFormat :=
  {| fromisoformat := λ s, (λ t, mkDatetime t (Some 0)) <$> of_stamp s; isoformat := λ d, stamp (instant d) |}.

Lemma bits_read p : of_bits (bits p) = Some p.
Proof. induction p as [p IH|p IH|]; simpl; [by rewrite IH..|done]. Qed.
Lemma stamp_read t : parse_iso (TurnStore.iso t) = Some (mkDatetime t (Some 0)).
Proof.
  unfold parse_iso, TurnStore.iso. simpl. unfold instant. simpl. rewrite Z.sub_0_r.
  assert (∀ p, replace_char (Ascii.ascii_of_nat 90) "+00:00" (bits p) = bits p) as Hr
    by (induction p as [p IH|p IH|]; simpl; [by rewrite IH..|done]).
  by destruct t as [|p|p]; simpl; rewrite ?Hr, ?bits_read.
Qed.
Lemma stamp_plain t : strip_nul (TurnStore.iso t) = TurnStore.iso t.
Proof.
  unfold TurnStore.iso. simpl. assert (∀ p, strip_nul (bits p) = bits p) as Hr
    by (induction p as [p IH|p IH|]; simpl; [by rewrite IH..|done]).
  by destruct (instant _) as [|p|p]; simpl; rewrite ?Hr.
Qed.

(** A chat with a guest, and two messages sent to it. *)
Definition chat : AgentSession :=
  mkSession 1 "chat-1" None None "interactive" None "running" None None None (Some "guest-1"%string)
    no_binding no_cleanup (mkDetail None None None None false None 0 None None).
Definition db0 : ADB := mkADB [] [chat] [] [] [] 1000000.
Definition after {A} (r : res (A * ADB)) : ADB := match r with Ok (_, db) => db | Raise _ => db0 end.
Definition sent1 : ADB := Eval vm_compute in after (create_pending_message 1 "first" None None false db0).
Definition sent : ADB := Eval vm_compute in after (create_pending_message 1 "second" None None false sent1).
Definition claimed : ADB := Eval vm_compute in after (claim_pending_message_for_session_sync 1 "pod-a" sent).
Definition failed : ADB := Eval vm_compute in
  after (mark_turn_error_sync 1 1 "boom" (Some "pod-a"%string) (mkErrorEvidence true false (Some 1) PNone) claimed).
Definition reclaimed : ADB := Eval vm_compute in after (claim_pending_message_for_session_sync 1 "pod-b" failed).
Definition lost : ADB := Eval vm_compute in
  after (release_pending_message_claim_sync 1 1 "pod-a" "observer_lost" (Some 1) claimed).

Lemma lane0_ok : lane_ok db0.
Proof. split; try apply NoDup_nil_2; by intros ? ?%elem_of_nil || intros ? ? ?%elem_of_nil. Qed.
Lemma sent1_step : lane_step db0 sent1.
Proof. eexists _, _. eapply (turn_enqueue 1 "first" None None false). vm_compute. reflexivity. Qed.
Lemma sent_step : lane_step sent1 sent.
Proof. eexists _, _. eapply (turn_enqueue 1 "second" None None false). vm_compute. reflexivity. Qed.
Lemma claimed_step : lane_step sent claimed.
Proof. eexists _, _. eapply (turn_claim env hooks 1 "pod-a"). vm_compute. reflexivity. Qed.
Lemma lost_step : lane_step claimed lost.
Proof. eexists _, _. eapply (turn_release 1 1 "pod-a" "observer_lost" (Some 1)). vm_compute. reflexivity. Qed.
Lemma step_ok db db' : lane_ok db → lane_step db db' → lane_ok db'.
Proof. intros Hok (g & r & Hs%turn_op_writes). by eapply writes_ok. Qed.
Lemma sent1_ok : lane_ok sent1.
Proof. exact (step_ok _ _ lane0_ok sent1_step). Qed.
Lemma sent_ok : lane_ok sent.
Proof. exact (step_ok _ _ sent1_ok sent_step). Qed.
Lemma claimed_ok : lane_ok claimed.
Proof. exact (step_ok _ _ sent_ok claimed_step). Qed.
Lemma lost_ok : lane_ok lost.
Proof. exact (step_ok _ _ claimed_ok lost_step). Qed.

Lemma in_order_witness :
  NoDup (pkey <$> a_pending claimed) ∧ ∀ m, m ∈ a_pending claimed → is_Some (pm_claimed_by_replica m) → 1 ≤ pm_dispatch_count m.
Proof.
  destruct (lane_in_order db0 claimed) as (Hp & _ & _ & _ & Hc); [reflexivity|reflexivity| |].
  - eapply rtc_l; [left; exact sent1_step|]. eapply rtc_l; [left; exact sent_step|]. apply rtc_once. left. exact claimed_step.
  - split; [exact Hp|]. intros m Hm Hs. exact (proj1 (Hc m Hm Hs)).
Defined.
Lemma once_witness : (2 : Z) ≠ 1.
Proof.
  apply (claim_dispatches_once env env hooks hooks 1 "pod-a" "pod-b" 1 2 sent claimed failed reclaimed).
  - exact sent_ok.
  - vm_compute. reflexivity.
  - apply rtc_once. left. exists true. eapply (turn_error 1 1 "boom" (Some "pod-a"%string) (mkErrorEvidence true false (Some 1) PNone)). vm_compute. reflexivity.
  - vm_compute. reflexivity.
Defined.
Definition first : PendingMessage := mkPending 1 1 None None 0 None None None "first" None 1000000 None None None.
Lemma kept_witness :
  (∃ m', m' ∈ a_pending lost ∧ pkey m' = pkey first ∧ pm_message_text m' = pm_message_text first) ∨
  ∃ t, t ∈ a_turns lost ∧ tkey t = pkey first.
Proof.
  apply (accepted_message_kept 1 "first" None None false db0 first sent1 lost).
  - exact lane0_ok.
  - vm_compute. reflexivity.
  - eapply rtc_l; [left; exact sent_step|]. eapply rtc_l; [left; exact claimed_step|]. apply rtc_once. left. exact lost_step.
Defined.

(** The observer of the first message is lost: the session is frozen for good,
    though its second message still waits. *)
#[local] Instance results : ResultHooks :=
  {| native_result := λ _ _ _ _ _ _ _, Raise TypeError; record_push_format := λ _ _ _, Ok tt; b64decode := λ _, None |}.
Definition ended : AgentTurn := Eval vm_compute in default (mkTurn 0 0 None None "" None (mkTurnDetail "" None None PNone None None None None PNone PNone PNone None PNone)) (get_turn lost 1 1).
Lemma capacity_witness : count (active claimed) ≤ count (active lost).
Proof.
  assert (pool_ok claimed) as Hok.
  { assert (pool_ok db0) as H0 by (split; [constructor|by intros p ?%elem_of_nil..]).
    apply (lane_holds_capacity db0 claimed H0).
    eapply rtc_l; [left; exact sent1_step|]. eapply rtc_l; [left; exact sent_step|]. apply rtc_once. left. exact claimed_step. }
  apply (lane_holds_capacity claimed lost Hok). apply rtc_once. left. exists false.
  eapply (turn_release 1 1 "pod-a" "observer_lost" (Some 1)). vm_compute. reflexivity.
Defined.

(** A claim of a message that waited for capacity, given back on the proof that
    it was never dispatched: queued as before, its permit reserved again. *)
Definition waiting : dict := [("state", PStr "ready"); ("operation_id", PStr "op-1")]%string.
Definition ready : ADB := Eval vm_compute in
  put_pending (mkPending 1 1 None None 0 None None None "first" None 1000000 None (Some "ready"%string) (Some (encoded (PDict waiting)))) sent.
Definition handed : ADB := Eval vm_compute in after (claim_pending_message_for_session_sync 1 "pod-a" ready).
Definition negative : dict :=
  [("outcome", PStr "not_dispatched"); ("operation_id", PStr "op-1"); ("dispatch_id", PStr "dispatch"); ("session_id", PStr "guest-1");
   ("reason", PStr "residency_changed")]%string.
Definition returned : ADB := Eval vm_compute in after (resolve_not_dispatched 1 1 "pod-a" 1 negative None handed).
Example claim_returned :
  resolve_not_dispatched 1 1 "pod-a" 1 negative None handed = Ok (true, returned) ∧
  (∃ m, get_pending_message returned 1 1 = Some m ∧ pm_claimed_by_replica m = None ∧ pm_dispatch_count m = 0 ∧
        pm_message_text m = "first"%string) ∧
  (cr_state <$> reservation returned "chat-1" 1) = Some "reserved"%string ∧
  resolve_not_dispatched 1 1 "pod-a" 1 negative None returned = Ok (false, returned).
Proof. split; [vm_compute; reflexivity|]. split; [eexists; by vm_compute|]. by vm_compute. Qed.
(** It is a step of the system. *)
Example claim_return_step : direct_op (Returns (1, 1)) handed returned.
Proof.
  eapply (dw_return 1 1 "pod-a" 1 negative None); [vm_compute; reflexivity| |vm_compute; reflexivity|].
  - do 2 eexists. split_and!; vm_compute; reflexivity.
  - intros _ t Ht. by vm_compute in Ht.
Qed.

(** The response to the first message is lost while its guest keeps working. *)
Definition report : LostResponse := mkLost "receipt-1" "guest-1" "timeout" "transport" PNone PNone None None None.
Definition held : ADB := Eval vm_compute in after (mark_turn_response_lost_sync 1 1 "pod-a" 1 report (PInt 60) claimed).
Lemma held_step : lane_step claimed held.
Proof. eexists _, _. eapply (turn_lost 1 1 "pod-a" 1 report (PInt 60)). vm_compute. reflexivity. Qed.
Lemma held_ok : lane_ok held.
Proof. exact (step_ok _ _ claimed_ok held_step). Qed.
Lemma hold_witness : ∃ m h, get_pending_message held 1 1 = Some m ∧
  _response_lost_hold (a_now held) (get_turn held 1 1) m = Ok (Some h) ∧ dict_get "receipt_id" h = PStr "receipt-1".
Proof.
  destruct (lost_response_held 1 1 "pod-a" 1 report (PInt 60) claimed held stamp_read stamp_plain) as (m & deadline & Hm & Hl).
  - reflexivity.
  - exact claimed_ok.
  - vm_compute. reflexivity.
  - vm_compute. reflexivity.
  - specialize (Hl held held_ok Hm eq_refl). exists m. case_decide.
    + exfalso. vm_compute in Hm. injection Hm as <-. vm_compute in Hl. discriminate Hl.
    + destruct Hl as ((h & Hh & Hr & _) & _). exists h. split; [exact Hm|]. split; [exact Hh|]. exact Hr.
Defined.

(** ** Evidence *)

Definition guest_turn (usage : dict) : Turn :=
  mkReport "done" (Some "completed"%string) None false PNone 1 None usage None (PInt 5) (PList []) PNone None None None (Some "gpt-5"%string) None None.
(** A guest that claims a receipt of its own is not believed. *)
Definition boast : Turn := guest_turn [("native_result_receipt", PStr "trust me"); ("input_tokens", PInt 3)]%string.
Example boast_dropped :
  ∃ u, sanitize_payload (PDict (observed_usage 0 None PNone boast None None)) = PDict u ∧
       assoc_get "native_result_receipt" u = None ∧ assoc_get "provider_model" u = Some (PStr "gpt-5").
Proof. eexists. split; [reflexivity|]. by vm_compute. Qed.

(** Unless its key carries a NUL: it survives the removal of the server's keys,
    and becomes one of them when the payload is stripped afterwards. *)
Definition nul_key : string := ("native_result_receipt" +:+ String (ascii_of_nat 0) "")%string.
Theorem nul_key_forges_receipt v :
  ∃ u, sanitize_payload (PDict (observed_usage 0 None PNone (guest_turn [(nul_key, v)]) None None)) = PDict u ∧
       assoc_get "native_result_receipt" u = Some (sanitize_payload v).
Proof. eexists. split; [reflexivity|]. vm_compute. reflexivity. Qed.
End TurnDemo.
