(* ===== verification/ReceiptFacts.v ===== *)
(** * Native result receipts: the table as a transition system

    Every operation of [ResultReceipts] ([receipt_op]), the two other parts that
    write the table ([receipt_step]), how each changes it ([table_write]), the well-formed table ([table_ok]) and what a
    receipt keeps while it evolves ([evolves]).
    Then what every write of the table keeps. *)

From Stdlib Require Import SpecFloat Ascii.
From stdpp Require Import prelude list strings relations.
From S2P Require Import Prelude PyValue WorkItems PolicyData Controls Pricing Admission TurnStore TurnDispatch TurnResult TurnFacts ResultReceipts DirectWriters.
Local Open Scope Z_scope.

Implicit Types (r x y : AgentResultReceipt) (l : list AgentResultReceipt) (ids : list string) (db : ADB).

Definition superseded (now s q : Z) : list AgentResultReceipt → list AgentResultReceipt :=
  update_where (current_for s q) (with_superseded (Some now)).
Definition promoted : AgentResultReceipt → AgentResultReceipt := with_phase (Some "attempted"%string) ∘ with_superseded None.
Definition current r : Prop := rr_superseded_at r = None.
(** The turn whose invocation a receipt records. *)
Definition turn_of r : Z * Z := (rr_session_id r, rr_seq r).
(** What never changes. *)
Definition pinned r :=
  (rr_id r, rr_token_sha256 r, (rr_session_id r, rr_local_session_id r, rr_seq r, rr_dispatch_count r, rr_claim_owner r),
   (rr_guest_id r, rr_request_sha256 r, rr_created_at r, rr_retain_until r)).
(** What the guest published. *)
Definition published r : option string * option string * option Z := (rr_result_sha256 r, rr_result_body r, rr_received_at r).

Lemma has_id_spec id r : has_id id r = true ↔ rr_id r = id.
Proof. apply bool_decide_eq_true. Qed.
Lemma has_id_false id r : has_id id r = false ↔ rr_id r ≠ id.
Proof. apply bool_decide_eq_false. Qed.
Lemma current_for_spec s q r : current_for s q r = true ↔ turn_of r = (s, q) ∧ current r.
Proof.
  unfold current_for, turn_of, current. rewrite !andb_true_iff, !Z.eqb_eq.
  destruct (rr_superseded_at r); simpl; split; [naive_solver..|]. intros [[= -> ->] _]. done.
Qed.
Lemma receipt_found db id r : get_receipt db id = Some r → r ∈ a_receipts db ∧ rr_id r = id.
Proof. intros [? ?%has_id_spec]%find_first_Some. done. Qed.
Lemma find_first_unique {A} (p : A → bool) (rows : list A) a :
  a ∈ rows → p a = true → (∀ b, b ∈ rows → p b = true → b = a) → find_first p rows = Some a.
Proof.
  intros Ha Hp Hu. destruct (find_first p rows) as [b|] eqn:E.
  - apply find_first_Some in E as [Hb Hpb]. f_equal. by apply Hu.
  - rewrite find_first_None in E. by rewrite E in Hp.
Qed.
Lemma receipt_at db r : NoDup (rr_id <$> a_receipts db) → r ∈ a_receipts db → get_receipt db (rr_id r) = Some r.
Proof.
  intros Hn Hr. apply find_first_unique; [done|by apply has_id_spec|]. intros y Hy E%has_id_spec.
  by apply (NoDup_fmap_elem rr_id (a_receipts db)).
Qed.

(** ** Operations *)

Section operations.
Context `{TurnText, IsoFormat, ReceiptHooks}.

(** Ids are never minted twice ([uuid4]); the identifiers minted so far are kept
    beside the database. *)
Inductive receipt_op : relation (list string * ADB) :=
| ro_prepare (En : Environ) mint i body staged ids db d db' :
    mt_id mint ∉ ids → prepare_receipt mint i body staged db = Ok (d, db') → receipt_op (ids, db) (mt_id mint :: ids, db')
| ro_attempt (En : Environ) id s owner n guest body handoff ids db d db' :
    attempt_prepared_receipt id s owner n guest body handoff db = Ok (d, db') → receipt_op (ids, db) (ids, db')
| ro_observed id s owner n guest ids db b db' :
    mark_response_observed id s owner n guest db = Ok (b, db') → receipt_op (ids, db) (ids, db')
| ro_released id s owner n guest ids db b db' :
    mark_response_observer_released id s owner n guest db = Ok (b, db') → receipt_op (ids, db) (ids, db')
| ro_unobserved id s owner n guest ids db b db' :
    release_unobserved_fence id s owner n guest db = Ok (b, db') → receipt_op (ids, db) (ids, db')
| ro_abandoned s id ids db : receipt_op (ids, db) (ids, (release_abandoned_fence s id db).2)
| ro_ownerless s agent id row ids db db' :
    get_session db s = Some agent → release_ownerless_fence_locked agent id db = Some (row, db') → receipt_op (ids, db) (ids, db')
| ro_restore s id guest ids db : receipt_op (ids, db) (ids, (restore_abandoned_fence s id guest db).2)
| ro_capture id token body ids db ack db' : capture_result id token body db = Ok (ack, db') → receipt_op (ids, db) (ids, db')
| ro_prune ids db : receipt_op (ids, db) (ids, (prune_expired_receipts db).2).
(** The acceptance window, moved. *)
Definition with_window (until : Z) (r : AgentResultReceipt) : AgentResultReceipt :=
  mkResultReceipt (rr_id r) (rr_token_sha256 r) (rr_session_id r) (rr_local_session_id r) (rr_seq r) (rr_dispatch_count r)
    (rr_claim_owner r) (rr_guest_id r) (rr_request_sha256 r) (rr_created_at r) until (rr_retain_until r)
    (rr_superseded_at r) (rr_attempt_phase r) (rr_received_at r) (rr_response_observed_at r) (rr_observer_released_at r)
    (rr_result_sha256 r) (rr_result_body r).
(** Two other parts write the table.  A claim proved never dispatched withdraws
    its receipt (capacity_wait.py:410-427).  Reconciliation closes the acceptance
    window of a receipt that has no result (reconciliation.py:1509-1511 and
    2443-2445) and opens it again (1541-1552).  The rest of the system writes other
    tables, and time passes. *)
Inductive receipt_step : relation (list string * ADB) :=
| rs_op st st' : receipt_op st st' → receipt_step st st'
| rs_withdraw s q owner count proof receipt_id ids db db' :
    resolve_not_dispatched s q owner count proof receipt_id db = Ok (true, db') → receipt_step (ids, db) (ids, db')
| rs_window id r until ids db :
    get_receipt db id = Some r → rr_result_sha256 r = None → rr_received_at r = None →
    until = a_now db ∨ until = Z.min (a_now db + hours ACCEPT_HOURS) (rr_retain_until r) →
    receipt_step (ids, db) (ids, update_receipt id (with_window until) db)
| rs_other ids db db' : a_receipts db' = a_receipts db → a_now db ≤ a_now db' → receipt_step (ids, db) (ids, db').

(** ** Writes of the table *)

(** A receipt as it is minted. *)
Record minted (now : Z) (staged : bool) r : Prop := mkMinted
  { mi_published : published r = (None, None, None);
    mi_phase : rr_attempt_phase r = if staged then Some "prepared"%string else None;
    mi_current : rr_superseded_at r = if staged then Some now else None }.
Inductive table_write (now : Z) : relation (list string * list AgentResultReceipt) :=
| TKeep ids l : table_write now (ids, l) (ids, l)
| TMint ids l r (staged : bool) :
    rr_id r ∉ ids → minted now staged r →
    table_write now (ids, l) (rr_id r :: ids, (if staged then l else superseded now (rr_session_id r) (rr_seq r) l) ++ [r])
| TPromote ids l r :
    r ∈ l → rr_attempt_phase r = Some "prepared"%string →
    table_write now (ids, l) (ids, update_where (has_id (rr_id r)) promoted (superseded now (rr_session_id r) (rr_seq r) l))
| TCapture ids l r body :
    r ∈ l → attempted_phase r = true → rr_result_sha256 r = None → now < rr_accept_until r → body_refusal body = None →
    table_write now (ids, l) (ids, update_where (has_id (rr_id r)) (with_result now (sha256 body) body) l)
| TStamp ids l id observed released :
    table_write now (ids, l) (ids, update_where (has_id id) (λ r, with_response (observed r) (released r) r) l)
| TWithdraw ids l id : table_write now (ids, l) (ids, update_where (has_id id) (withdraw now) l)
| TWindow ids l id until :
    (∀ r, r ∈ l → rr_id r = id → rr_result_sha256 r = None) → table_write now (ids, l) (ids, update_where (has_id id) (with_window until) l)
| TPrune ids l (dead : list string) :
    (∀ r, r ∈ l → rr_id r ∈ dead → rr_retain_until r ≤ now) → table_write now (ids, l) (ids, filter (λ r, rr_id r ∉ dead) l).

Lemma preparation_inv db s owner n guest agent m :
  _preparation_owner db s owner n guest = Ok (agent, m) → get_session db s = Some agent ∧ head_pending db s = Some m ∧ as_id agent = s.
Proof.
  unfold _preparation_owner. destruct (get_session db s) as [a|] eqn:Es; [|done]. destruct (head_pending db s) as [p|]; [|done].
  next_guard; [done|]. intros (permit & _ & Hq)%res_bind_ok. revert Hq. next_guard; [done|].
  intros (covered & _ & Hq)%res_bind_ok. revert Hq. next_guard; [done|]. intros Hq. injection Hq as -> ->.
  apply session_found in Es as Ha. naive_solver.
Qed.
Lemma add_receipt_inv r db db' : add_receipt r db = Ok db' → a_receipts db' = a_receipts db ++ [r] ∧ a_now db' = a_now db.
Proof. unfold add_receipt. destruct (existsb _ _); [done|]. by intros [= <-]. Qed.
Lemma prepare_inv (En : Environ) mint i body staged db d db' :
  prepare_receipt mint i body staged db = Ok (d, db') →
  a_now db' = a_now db ∧ ∃ r, rr_id r = mt_id mint ∧ rr_token_sha256 r = sha256 (mt_token mint) ∧ minted (a_now db) staged r ∧
    a_receipts db' = (if staged then a_receipts db else superseded (a_now db) (rr_session_id r) (rr_seq r) (a_receipts db)) ++ [r].
Proof.
  unfold prepare_receipt. destruct (typed_invocation i) as [[[[s owner] n] guest]|]; [|done].
  intros ([agent m] & Ho & Hq)%res_bind_ok. apply preparation_inv in Ho as (_ & _ & Ha).
  apply res_bind_ok in Hq as (db1 & Hadd & Hq). apply res_bind_ok in Hq as (meter & _ & [= <- <-]).
  apply add_receipt_inv in Hadd as [Hr Hn]. split; [rewrite Hn; by destruct staged|].
  exists (minted_receipt mint (a_now db) agent (pm_seq m) owner n guest body staged). do 2 (split; [done|]).
  split; [by split; simpl; destruct staged|]. rewrite Hr. simpl. rewrite Ha. by destruct staged.
Qed.
Lemma attempt_inv (En : Environ) id s owner n guest body handoff db d db' :
  attempt_prepared_receipt id s owner n guest body handoff db = Ok (d, db') →
  a_now db' = a_now db ∧ ∃ r, r ∈ a_receipts db ∧ rr_attempt_phase r = Some "prepared"%string ∧
    a_receipts db' = update_where (has_id (rr_id r)) promoted (superseded (a_now db) (rr_session_id r) (rr_seq r) (a_receipts db)).
Proof.
  unfold attempt_prepared_receipt. intros ([agent m] & Ho & Hq)%res_bind_ok.
  destruct (get_receipt db id) as [r|] eqn:Er; [|done]. apply receipt_found in Er as [Hr <-].
  apply res_bind_ok in Hq as ([] & Hid & Hq). revert Hq. next_guard; [done|].
  intros (meter & _ & Hq)%res_bind_ok. apply res_bind_ok in Hq as ([] & _ & [= <- <-]). split; [done|]. exists r.
  apply orb_false_iff in Heqb as [Hu%negb_false_iff _]. unfold untouched_preparation in Hu. rewrite !andb_true_iff in Hu.
  destruct Hu as [[[[[[[[[[Hp%bool_decide_eq_true _] _] Hq%Z.eqb_eq] _] _] _] _] _] _] _].
  assert (rr_session_id r = s) as Hs.
  { unfold _check_identity, invocation, typed_invocation in Hid. simpl in Hid. repeat case_match; try done. simplify_eq.
    match goal with E : _ && _ = true |- _ => rewrite !andb_true_iff, Z.eqb_eq in E; naive_solver end. }
  do 2 (split; [done|]). simpl. by rewrite Hq, Hs.
Qed.
Lemma unfence_receipts s p db : a_receipts (unfence s p db) = a_receipts db ∧ a_now (unfence s p db) = a_now db.
Proof. unfold unfence. by repeat case_match. Qed.
Lemma observer_inv id s owner n guest db r :
  observer_receipt id s owner n guest db = Ok (Some r) → get_receipt db id = Some r ∧ rr_id r = id ∧ rr_session_id r = s.
Proof.
  unfold observer_receipt. destruct (get_receipt db id) as [x|] eqn:E; [|done]. intros ([] & Hid & [= ->])%res_bind_ok.
  apply receipt_found in E as [_ Hi]. split; [done|]. split; [done|].
  unfold _check_identity, invocation, typed_invocation in Hid. simpl in Hid. repeat case_match; try done. simplify_eq.
  match goal with E : _ && _ = true |- _ => rewrite !andb_true_iff, Z.eqb_eq in E; naive_solver end.
Qed.
Lemma capture_inv id token body db ack db' :
  capture_result id token body db = Ok (ack, db') →
  ack = mkAck id (sha256 body) ∧ body_refusal body = None ∧ _check_credential_format id token = true ∧
  ∃ r, get_receipt db id = Some r ∧ credential_matches token r = true ∧ attempted_phase r = true ∧ a_now db < rr_retain_until r ∧
    (db' = db ∧ rr_result_sha256 r = Some (sha256 body) ∧ rr_result_body r = Some body ∨
     rr_result_sha256 r = None ∧ a_now db < rr_accept_until r ∧ db' = update_receipt id (with_result (a_now db) (sha256 body) body) db).
Proof.
  unfold capture_result. destruct (_check_credential_format id token); [|done]. simpl. destruct (body_refusal body); [done|].
  destruct (get_receipt db id) as [r|] eqn:Er; [|done].
  destruct (credential_matches token r) eqn:Ec; [|done]. destruct (attempted_phase r) eqn:Ea; [|done].
  destruct (Z.leb_spec (rr_retain_until r) (a_now db)); [done|]. simpl. destruct (rr_result_sha256 r) as [stored|] eqn:Es.
  - repeat case_bool_decide; try done. intros [= <- <-]. subst. do 3 (split; [done|]). exists r. do 4 (split; [done|]). by left.
  - destruct (Z.leb_spec (rr_accept_until r) (a_now db)); [done|]. intros [= <- <-]. do 3 (split; [done|]). exists r.
    do 4 (split; [done|]). by right.
Qed.
Lemma op_table st st' :
  NoDup (rr_id <$> a_receipts st.2) → receipt_op st st' →
  table_write (a_now st.2) (st.1, a_receipts st.2) (st'.1, a_receipts st'.2) ∧ a_now st'.2 = a_now st.2.
Proof.
  intros Hids. destruct 1 as [En mint i body staged ids db d db' Hid Hp|En id s owner n guest body handoff ids db d db' Ha|
    id s owner n guest ids db b db' Ho|id s owner n guest ids db b db' Ho|id s owner n guest ids db b db' Ho|s id ids db|
    s agent id row ids db db' _ Ho|s id guest ids db|id token body ids db ack db' Hc|ids db]; simpl.
  - apply prepare_inv in Hp as (Hn & r & Hr & _ & Hm & ->). rewrite <-Hr in *. split; [by apply TMint|done].
  - apply attempt_inv in Ha as (Hn & r & Hr & Hp & ->). split; [by apply TPromote|done].
  - revert Ho. unfold mark_response_observed. intros ([r|] & _ & [= _ <-])%res_bind_ok; [|split; [constructor|done]].
    destruct (unfence_receipts s (λ a, fenced_by r a && settled_receipt db r) (update_receipt id
      (λ r, with_response (first_stamp (rr_response_observed_at r) (a_now db)) (rr_observer_released_at r) r) db)) as [-> ->].
    split; [|done]. apply (TStamp _ ids (a_receipts db) id (λ r, first_stamp (rr_response_observed_at r) (a_now db)) rr_observer_released_at).
  - revert Ho. unfold mark_response_observer_released. intros ([r|] & _ & [= _ <-])%res_bind_ok; [|split; [constructor|done]].
    match goal with |- context [unfence s ?p ?d] => destruct (unfence_receipts s p d) as [-> ->] end.
    split; [|done]. apply (TStamp _ ids (a_receipts db) id rr_response_observed_at (λ r, first_stamp (rr_observer_released_at r) (a_now db))).
  - revert Ho. unfold release_unobserved_fence. intros (r & _ & Hq)%res_bind_ok. repeat case_match; simplify_eq; split; (constructor || done).
  - unfold release_abandoned_fence, release_abandoned_fence_locked. repeat case_match; split; (constructor || done).
  - revert Ho. unfold release_ownerless_fence_locked. repeat case_match; intros; simplify_eq; split; (constructor || done).
  - unfold restore_abandoned_fence. repeat case_match; split; (constructor || done).
  - apply capture_inv in Hc as (_ & Hb & _ & r & Hr & _ & Ha & _ & [(-> & _) | (Hn & Hacc & ->)]); [split; [constructor|done]|].
    apply receipt_found in Hr as [Hr <-]. split; [|done]. by apply TCapture.
  - split; [|done]. apply TPrune. intros r Hr (x & Hid & Hx)%list_elem_of_fmap.
    assert (x ∈ py_sorted expires_first (filter (λ r, rr_retain_until r ≤ a_now db) (a_receipts db))) as Hs
      by (rewrite <-(take_drop PRUNE_BATCH); apply elem_of_app; by left).
    apply elem_of_py_sorted, list_elem_of_filter in Hs as [Hret Hin]. by rewrite (NoDup_fmap_elem rr_id (a_receipts db) r x).
Qed.
Lemma resolve_receipts s q owner count proof receipt_id db db' :
  resolve_not_dispatched s q owner count proof receipt_id db = Ok (true, db') →
  a_now db' = a_now db ∧ (a_receipts db' = a_receipts db ∨ ∃ id, a_receipts db' = update_where (has_id id) (withdraw (a_now db)) (a_receipts db)).
Proof.
  intros (agent & m0 & m' & context & prior & db1 & db2 & db3 & n & _ & _ & _ & _ & _ & _ & Hw & Hu & Hr & _ & _ & _ & _ & ->)%resolve_inv.
  assert (a_now db1 = a_now db ∧ (a_receipts db1 = a_receipts db ∨
    ∃ id, a_receipts db1 = update_where (has_id id) (withdraw (a_now db)) (a_receipts db))) as [N1 R1]
    by (unfold withdraw_receipt in Hw; repeat case_match; simplify_eq; simpl; eauto).
  assert (a_now db2 = a_now db1 ∧ a_receipts db2 = a_receipts db1) as [N2 R2].
  { unfold restore_usage in Hu. destruct (get_turn db s q) as [t|]; [|by injection Hu as <-].
    apply res_bind_ok in Hu as (usage & _ & Hu). repeat case_match; simplify_eq; done. }
  assert (a_now db3 = a_now db2 ∧ a_receipts db3 = a_receipts db2) as [N3 R3]
    by (unfold return_permit in Hr; repeat case_match; simplify_eq; done).
  simpl. rewrite N3, N2, R3, R2. done.
Qed.
(** Every step is a write of the table. *)
Lemma step_table st st' :
  NoDup (rr_id <$> a_receipts st.2) → receipt_step st st' →
  table_write (a_now st.2) (st.1, a_receipts st.2) (st'.1, a_receipts st'.2) ∧ a_now st.2 ≤ a_now st'.2.
Proof.
  intros Hids. destruct 1 as [st st' Ho|s q owner count proof receipt_id ids db db' Hr|id r until ids db Hr Hn _ _|ids db db' Hr Hn]; simpl in *.
  - destruct (op_table _ _ Hids Ho) as [Hw ->]. done.
  - destruct (resolve_receipts _ _ _ _ _ _ _ _ Hr) as [-> [->|[id ->]]]; (split; [constructor|done]).
  - split; [|done]. apply TWindow. intros x Hx Hid. apply receipt_found in Hr as [Hin Hrid].
    by rewrite (NoDup_fmap_elem rr_id (a_receipts db) x r) by (done || congruence).
  - rewrite Hr. split; [constructor|done].
Qed.
End operations.

(** * Native result receipts: what every write of the table keeps *)

Section invariant.
Context `{TurnText, IsoFormat, ReceiptHooks}.

(** Nothing published, or a whole body with its digest, captured in time by a
    receipt that was attempted; a preparation is not current. *)
Definition captured r : Prop :=
  ∃ body t, published r = (Some (sha256 body), Some body, Some t) ∧ body_refusal body = None ∧ t < rr_accept_until r.
Record row_ok r : Prop := mkRowOk
  { ro_published : published r = (None, None, None) ∨ captured r ∧ attempted_phase r = true;
    ro_prepared : attempted_phase r = false → ¬ current r }.
Record table_ok ids l : Prop := mkTableOk
  { to_ids : NoDup (rr_id <$> l);
    to_minted : ∀ r, r ∈ l → rr_id r ∈ ids;
    to_current : ∀ r x, r ∈ l → x ∈ l → current r → current x → turn_of r = turn_of x → r = x;
    to_rows : ∀ r, r ∈ l → row_ok r }.

(** How a receipt may change while it is retained. *)
Record evolves r r' : Prop := mkEvolves
  { ev_pinned : pinned r' = pinned r;
    ev_phase : attempted_phase r = true → attempted_phase r' = true;
    ev_published : is_Some (rr_result_sha256 r) → published r' = published r;
    ev_superseded : attempted_phase r = true → ¬ current r → ¬ current r' }.

#[export] Instance evolves_preorder : PreOrder evolves.
Proof.
  split; [by split|]. intros r x y [P1 A1 B1 C1] [P2 A2 B2 C2]. split; [by rewrite P2|auto| |auto].
  intros Hs. assert (published x = published r) as E by auto. rewrite B2; [done|]. unfold published in E. congruence.
Qed.
Lemma pinned_id r r' : pinned r' = pinned r → rr_id r' = rr_id r.
Proof. unfold pinned. congruence. Qed.

(** ** Rows that change in place *)

Lemma superseded_current now s q l x :
  x ∈ superseded now s q l → current x → x ∈ l ∧ turn_of x ≠ (s, q).
Proof.
  intros (y & Hy & ->)%elem_of_update_where. destruct (current_for s q y) eqn:E; [done|]. intros Hc. split; [done|].
  intros Ht. assert (current_for s q y = true) by (by apply current_for_spec). congruence.
Qed.
Lemma superseded_row_ok r now : row_ok r → row_ok (with_superseded (Some now) r).
Proof. intros [Hp Hs]. split; [done|]. by intros _ ?. Qed.
Lemma updated_ok ids l p f :
  (∀ r, r ∈ l → p r = true → rr_id (f r) = rr_id r ∧ turn_of (f r) = turn_of r ∧ (current (f r) → current r) ∧ row_ok (f r)) →
  table_ok ids l → table_ok ids (update_where p f l).
Proof.
  intros Hf [Hi Hm Hc Hr]. split.
  - rewrite update_where_fmap; [done|]. intros x Hx E. by apply Hf.
  - intros x (y & Hy & ->)%elem_of_update_where. destruct (p y) eqn:E; [|auto]. rewrite (proj1 (Hf y Hy E)). auto.
  - intros x x' (y & Hy & ->)%elem_of_update_where (y' & Hy' & ->)%elem_of_update_where Hx Hx' Ht.
    assert (y = y') as ->; [|done]. destruct (p y) eqn:E, (p y') eqn:E';
      repeat match goal with Hin : ?z ∈ l, Ez : p ?z = true |- _ => destruct (Hf z Hin Ez) as (_ & ? & ? & _); clear Ez end;
      (apply Hc; [done|done|auto|auto|congruence]).
  - intros x (y & Hy & ->)%elem_of_update_where. destruct (p y) eqn:E; [by apply Hf|auto].
Qed.
Lemma superseded_ok now s q ids l : table_ok ids l → table_ok ids (superseded now s q l).
Proof. intros Hok. apply updated_ok; [|done]. intros r Hr _. do 3 (split; [done|]). by apply superseded_row_ok, Hok. Qed.
Lemma stamped_ok ids l id observed released :
  table_ok ids l → table_ok ids (update_where (has_id id) (λ r, with_response (observed r) (released r) r) l).
Proof. intros Hok. apply updated_ok; [|done]. intros r Hr _. do 3 (split; [done|]). by destruct (to_rows _ _ Hok r Hr). Qed.

(** ** Every write *)

Lemma minted_row_ok now staged r : minted now staged r → row_ok r.
Proof.
  intros [Hp Hf Hc]. split; [by left|]. unfold attempted_phase, current. rewrite Hf, Hc. by destruct staged.
Qed.
Lemma mint_table_ok now staged ids l r :
  table_ok ids l → rr_id r ∉ ids → minted now staged r → (staged = true ∨ ∀ x, x ∈ l → current x → turn_of x ≠ turn_of r) →
  table_ok (rr_id r :: ids) (l ++ [r]).
Proof.
  intros [Hi Hm Hc Hr] Hn Hmint Ht. split.
  - rewrite fmap_app. apply NoDup_app. split_and!; [done| |apply NoDup_singleton].
    intros i (x & -> & Hx)%list_elem_of_fmap E%list_elem_of_singleton. rewrite <-E in Hn. by apply Hn, Hm.
  - intros x [Hx | ->%list_elem_of_singleton]%elem_of_app; [right; auto|by left].
  - assert (∀ x, x ∈ l → current x → current r → turn_of x ≠ turn_of r) as Hno.
    { intros x Hx Hcx Hcr. destruct Ht as [-> | Ht]; [|auto]. destruct Hmint as [_ _ E]. unfold current in Hcr. by rewrite E in Hcr. }
    intros x y [Hx | ->%list_elem_of_singleton]%elem_of_app [Hy | ->%list_elem_of_singleton]%elem_of_app Hcx Hcy E; auto.
    + by destruct (Hno x Hx Hcx Hcy).
    + symmetry in E. by destruct (Hno y Hy Hcy Hcx).
  - intros x [Hx | ->%list_elem_of_singleton]%elem_of_app; [auto|by eapply minted_row_ok].
Qed.
Lemma promote_ok now ids l r :
  table_ok ids l → r ∈ l → rr_attempt_phase r = Some "prepared"%string →
  table_ok ids (update_where (has_id (rr_id r)) promoted (superseded now (rr_session_id r) (rr_seq r) l)).
Proof.
  intros Hok Hr Hp. pose proof (superseded_ok now (rr_session_id r) (rr_seq r) _ _ Hok) as [Hi Hm Hc Hw].
  assert (∀ y, y ∈ superseded now (rr_session_id r) (rr_seq r) l → rr_id y = rr_id r →
          turn_of y = turn_of r ∧ attempted_phase y = false) as Hone.
  { intros y (z & Hz & ->)%elem_of_update_where Hid. assert (z = r) as ->.
    { apply (NoDup_fmap_elem rr_id l); [apply Hok|done|done|]. by destruct (current_for _ _ z). }
    destruct (current_for _ _ r); (split; [done|]); unfold attempted_phase; simpl; by rewrite Hp. }
  split.
  - rewrite update_where_fmap; [done|]. done.
  - intros x (y & Hy & ->)%elem_of_update_where. destruct (has_id _ y); apply (Hm y Hy).
  - assert (∀ y y', y ∈ superseded now (rr_session_id r) (rr_seq r) l → y' ∈ superseded now (rr_session_id r) (rr_seq r) l →
            rr_id y = rr_id r → current y' → turn_of y ≠ turn_of y') as Hno.
    { intros y y' Hy Hy' Hid Hcy' E. apply (superseded_current _ _ _ _ _ Hy') in Hcy' as [_ Hne]. apply Hne.
      rewrite <-E. by apply Hone. }
    intros x x' (y & Hy & ->)%elem_of_update_where (y' & Hy' & ->)%elem_of_update_where.
    destruct (has_id _ y) eqn:E, (has_id _ y') eqn:E'; intros Hcx Hcx' Ht.
    + apply has_id_spec in E, E'. f_equal. apply (NoDup_fmap_elem rr_id _ y y' Hi); [done|done|congruence].
    + apply has_id_spec in E. by destruct (Hno y y' Hy Hy' E Hcx').
    + apply has_id_spec in E'. symmetry in Ht. by destruct (Hno y' y Hy' Hy E' Hcx).
    + auto.
  - intros x (y & Hy & ->)%elem_of_update_where. destruct (has_id _ y) eqn:E; [|auto].
    apply has_id_spec in E. destruct (Hw y Hy) as [[Hpub|[_ Ha]] _]; [split; [by left|done]|].
    apply (Hone y Hy) in E as [_ E]. congruence.
Qed.
Lemma capture_ok now ids l r body :
  table_ok ids l → r ∈ l → attempted_phase r = true → now < rr_accept_until r → body_refusal body = None →
  table_ok ids (update_where (has_id (rr_id r)) (with_result now (sha256 body) body) l).
Proof.
  intros Hok Hr Ha Ht Hb. apply updated_ok; [|done]. intros x Hx E%has_id_spec. do 3 (split; [done|]).
  assert (x = r) as -> by (by apply (NoDup_fmap_elem rr_id l); [apply Hok|..]).
  split; [right; split; [by exists body, now|done]|]. apply (to_rows _ _ Hok r Hr).
Qed.

Lemma write_table_ok now ids l ids' l' : table_write now (ids, l) (ids', l') → table_ok ids l → table_ok ids' l'.
Proof.
  inversion 1; subst; intros Hok.
  - done.
  - destruct staged.
    + apply (mint_table_ok now true); auto.
    + apply (mint_table_ok now false); [by apply superseded_ok|done|done|]. right. intros x Hx Hc.
      apply (superseded_current _ _ _ _ _ Hx Hc).
  - by apply promote_ok.
  - by apply capture_ok.
  - by apply stamped_ok.
  - apply updated_ok; [|done]. intros r Hr _. do 3 (split; [done|]). destruct (to_rows _ _ Hok r Hr) as [Hp _]. split; [exact Hp|done].
  - apply updated_ok; [|done]. intros r Hr E%has_id_spec. do 3 (split; [done|]). destruct (to_rows _ _ Hok r Hr) as [[Hp|[(b & t & Hp & _) _]] Hs].
    + split; [by left|done].
    + unfold published in Hp. injection Hp as Hp _ _.
      match goal with Hno : ∀ r, _ → _ → rr_result_sha256 r = None |- _ => by rewrite (Hno r Hr E) in Hp end.
  - destruct Hok as [Hi Hm Hc Hr]. split; [by apply NoDup_fmap_filter|..].
    + intros r [_ Hin]%list_elem_of_filter. auto.
    + intros r x [_ Hin]%list_elem_of_filter [_ Hix]%list_elem_of_filter. auto.
    + intros r [_ Hin]%list_elem_of_filter. auto.
Qed.

Lemma updated_evolves l p f r :
  (∀ x, x ∈ l → p x = true → evolves x (f x)) → r ∈ l → ∃ r', r' ∈ update_where p f l ∧ evolves r r'.
Proof.
  intros Hf Hr. exists (if p r then f r else r). split; [by apply elem_of_update_where; exists r|].
  destruct (p r) eqn:E; [by apply Hf|done].
Qed.
Lemma superseded_evolves now s q l r : r ∈ l → ∃ r', r' ∈ superseded now s q l ∧ evolves r r'.
Proof. intros Hr. apply updated_evolves; [|done]. by split. Qed.
(** A receipt goes away only when its retention ended. *)
Lemma write_evolves now ids l ids' l' r :
  table_write now (ids, l) (ids', l') → table_ok ids l → r ∈ l → (∃ r', r' ∈ l' ∧ evolves r r') ∨ rr_retain_until r ≤ now.
Proof.
  inversion 1; subst; intros Hok Hr.
  - left. by exists r.
  - left. destruct staged; [exists r; split; [apply elem_of_app; by left|done]|].
    destruct (superseded_evolves now (rr_session_id r0) (rr_seq r0) l r Hr) as (r' & Hr' & He).
    exists r'. split; [apply elem_of_app; by left|done].
  - left. destruct (superseded_evolves now (rr_session_id r0) (rr_seq r0) l r Hr) as (x & Hx & He).
    destruct (updated_evolves (superseded now (rr_session_id r0) (rr_seq r0) l) (has_id (rr_id r0)) promoted x) with (2 := Hx) as (r' & Hr' & He').
    + intros y (z & Hz & ->)%elem_of_update_where E%has_id_spec.
      assert (z = r0) as -> by (apply (NoDup_fmap_elem rr_id l); [apply Hok|done|done|]; by destruct (current_for _ _ z)).
      destruct (current_for _ _ r0); split; try done; unfold attempted_phase; simpl;
        match goal with Hp : rr_attempt_phase r0 = _ |- _ => by rewrite Hp end.
    + exists r'. split; [done|by transitivity x].
  - left. apply updated_evolves; [|done]. intros x Hx E%has_id_spec.
    assert (x = r0) as -> by (by apply (NoDup_fmap_elem rr_id l); [apply Hok|..]). split; try done.
    match goal with Hn : rr_result_sha256 r0 = None |- _ => rewrite Hn end. by intros [].
  - left. apply updated_evolves; [|done]. by split.
  - left. apply updated_evolves; [|done]. by split.
  - left. apply updated_evolves; [|done]. by split.
  - destruct (decide (rr_id r ∈ dead)); [right; auto|]. left. exists r. split; [by apply list_elem_of_filter|done].
Qed.

(** ** Along a run *)

Definition run_ok (st : list string * ADB) : Prop := table_ok st.1 (a_receipts st.2).
Lemma receipt_step_ok st st' : receipt_step st st' → run_ok st → run_ok st' ∧ a_now st.2 ≤ a_now st'.2.
Proof.
  intros Hs Hok. destruct (step_table _ _ (to_ids _ _ Hok) Hs) as [Hw Hn]. destruct st, st'. split; [by eapply write_table_ok|done].
Qed.
Lemma run_stays_ok st st' : rtc receipt_step st st' → run_ok st → run_ok st' ∧ a_now st.2 ≤ a_now st'.2.
Proof.
  induction 1 as [|a b c Hs _ IH]; intros Hok; [done|]. destruct (receipt_step_ok _ _ Hs Hok) as [Hb Hn].
  destruct (IH Hb). split; [done|lia].
Qed.
Lemma run_evolves st st' r :
  rtc receipt_step st st' → run_ok st → r ∈ a_receipts st.2 →
  (∃ r', r' ∈ a_receipts st'.2 ∧ evolves r r') ∨ rr_retain_until r ≤ a_now st'.2.
Proof.
  intros Hrun. revert r. induction Hrun as [|a b c Hs Hrun IH]; intros r Hok Hr; [left; by exists r|].
  destruct (receipt_step_ok _ _ Hs Hok) as [Hb Hn]. assert ((∃ x, x ∈ a_receipts b.2 ∧ evolves r x) ∨ rr_retain_until r ≤ a_now b.2) as [(x & Hx & Hex)|Hd].
  - destruct (step_table _ _ (to_ids _ _ Hok) Hs) as [Hw Hnow]. destruct a, b. simpl in *.
    destruct (write_evolves _ _ _ _ _ r Hw Hok Hr); [by left|right; lia].
  - destruct (IH x Hb Hx) as [(r' & Hr' & He)|Hd]; [left; exists r'; split; [done|by transitivity x]|right].
    apply ev_pinned in Hex. unfold pinned in Hex. replace (rr_retain_until r) with (rr_retain_until x) by congruence. done.
  - right. destruct (run_stays_ok _ _ Hrun Hb). lia.
Qed.
End invariant.
