(* ===== verification/ReceiptClaims.v ===== *)
(** * Native result receipts: theorems

    The receipt table and the fence, then receipts and turn store together, then
    concrete instances ([ReceiptDemo]). *)

From Stdlib Require Import SpecFloat Ascii.
From stdpp Require Import prelude list strings relations.
From S2P Require Import Prelude PyValue WorkItems PolicyData Controls Pricing Admission TurnStore TurnDispatch TurnResult TurnFacts ResultReceipts DirectWriters ReceiptFacts AdmissionInvariant TurnOps TurnEvidence TurnWitness.
Local Open Scope Z_scope.

Section claims.
Context `{TurnText, IsoFormat, ReceiptHooks}.

(** C10: from an empty table, whatever runs of preparations, attempts, captures,
    observations, releases and prunings, of withdrawals of claims never
    dispatched ([resolve_not_dispatched]) and of acceptance windows that
    reconciliation closes and reopens on receipts without a result, and whatever
    happens to the other tables, a turn has at most one current receipt, so at
    most one invocation whose result can still be consumed; a preparation that was not attempted is not current and
    has no result; and a receipt with a digest holds a whole result, a JSON
    object within the size limit, captured within its acceptance window, under
    the digest of its own bytes. *)
Theorem one_current_receipt ids db ids' db' :
  a_receipts db = [] → rtc receipt_step (ids, db) (ids', db') →
  (∀ r x, r ∈ a_receipts db' → x ∈ a_receipts db' → rr_superseded_at r = None → rr_superseded_at x = None →
     rr_session_id r = rr_session_id x → rr_seq r = rr_seq x → r = x) ∧
  (∀ r, r ∈ a_receipts db' → attempted_phase r = false → rr_superseded_at r ≠ None ∧ rr_result_sha256 r = None ∧ rr_result_body r = None) ∧
  (∀ r d, r ∈ a_receipts db' → rr_result_sha256 r = Some d →
     ∃ body t kv, rr_result_body r = Some body ∧ d = sha256 body ∧ too_large body = false ∧ json_loads body = Some (PDict kv) ∧
                  rr_received_at r = Some t ∧ t < rr_accept_until r).
Proof.
  intros He Hrun. destruct (run_stays_ok _ _ Hrun) as [[Hi _ Hc Hr] _].
  { unfold run_ok. simpl. rewrite He. split; [apply NoDup_nil_2|intros r Hr|intros r x Hr|intros r Hr]; by apply elem_of_nil in Hr. }
  simpl in *. split; [|split].
  - intros r x Hr1 Hx ? ? Es Eq. apply Hc; [done..|]. unfold turn_of. congruence.
  - intros r Hr1 Ha. destruct (Hr r Hr1) as [[[= -> -> _]|[_ Ha']] Hp]; [|congruence]. split; [by apply Hp|done].
  - intros r d Hr1 Hd. destruct (Hr r Hr1) as [[[= E1 _ _]|[(body & t & [= E1 E2 E3] & Hb & Ht) _]] _]; [congruence|].
    revert Hb. unfold body_refusal. destruct (too_large body) eqn:El; [done|].
    destruct (json_loads body) as [[| | | | | |kv|]|] eqn:Ej; try done. intros _. exists body, t, kv. split_and!; congruence || done.
Qed.

(** C9: a captured result is immutable. Once a guest's result was acknowledged,
    whatever runs afterwards and however often it is posted again before its
    retention ends: the same bytes are acknowledged in the same words and change
    nothing, and any other result under that receipt is refused as a conflict. *)
Theorem captured_result_immutable id token body ids db ack db1 ids' db2 :
  table_ok ids (a_receipts db) → capture_result id token body db = Ok (ack, db1) → rtc receipt_step (ids, db1) (ids', db2) →
  ∃ r, get_receipt db id = Some r ∧ (a_now db2 < rr_retain_until r →
    capture_result id token body db2 = Ok (ack, db2) ∧
    ∀ other, other ≠ body → body_refusal other = None → capture_result id token other db2 = rejected "receipt_result_conflict").
Proof.
  intros Hok Hcap Hrun. pose proof (capture_inv _ _ _ _ _ _ Hcap) as (-> & Hb & Hf & r & Hr & Hcred & Hatt & _ & Hcase).
  exists r. split; [done|]. intros Hlive. pose proof (receipt_found _ _ _ Hr) as [Hin Hid].
  assert (table_ok ids (a_receipts db1)) as Hok1 by (apply (receipt_step_ok (ids, db) (ids, db1)); [by apply rs_op, (ro_capture id token body ids db (mkAck id (sha256 body)))|done]).
  assert (∃ r1, r1 ∈ a_receipts db1 ∧ pinned r1 = pinned r ∧ attempted_phase r1 = true ∧
                rr_result_sha256 r1 = Some (sha256 body) ∧ rr_result_body r1 = Some body) as (r1 & Hin1 & Hp1 & Ha1 & Hs1 & Hb1).
  { destruct Hcase as [(-> & Hs & Hbody) | (Hn & _ & ->)]; [by exists r|].
    exists (with_result (a_now db) (sha256 body) body r). split; [|done]. apply elem_of_update_where. exists r.
    split; [done|]. by rewrite (proj2 (has_id_spec id r) Hid). }
  destruct (run_evolves _ _ r1 Hrun Hok1 Hin1) as [(r2 & Hin2 & [Hp2 Ha2 Hpub _])|Hdead].
  2:{ simpl in Hdead. unfold pinned in Hp1. replace (rr_retain_until r1) with (rr_retain_until r) in Hdead by congruence. lia. }
  destruct (run_stays_ok _ _ Hrun Hok1) as [Hok2 _]. simpl in *.
  assert (published r2 = published r1) as E2 by (apply Hpub; rewrite Hs1; eauto).
  unfold published in E2. unfold pinned in Hp1, Hp2.
  assert (get_receipt db2 id = Some r2) as Hg.
  { replace id with (rr_id r2) by congruence. apply receipt_at; [apply Hok2|done]. }
  assert (credential_matches token r2 = true) as Hcred2.
  { unfold credential_matches in *. replace (rr_token_sha256 r2) with (rr_token_sha256 r) by congruence. done. }
  assert (rr_retain_until r2 = rr_retain_until r) as Hret by congruence.
  assert (rr_result_sha256 r2 = Some (sha256 body) ∧ rr_result_body r2 = Some body) as [Hs2 Hb2] by (split; congruence).
  unfold capture_result. rewrite Hf, Hg, Hcred2, (Ha2 Ha1), Hs2, Hb2, Hret. simpl.
  rewrite (proj2 (Z.leb_gt _ _) Hlive). split.
  - rewrite Hb. by rewrite !bool_decide_eq_true_2 by done.
  - intros other Hne ->. rewrite (bool_decide_eq_false_2 (Some body = Some other)) by congruence. by rewrite orb_true_r.
Qed.

(** ** The fence *)

Lemma session_put row old db s :
  get_session db (as_id row) = Some old → get_session (put_session row db) s = if decide (s = as_id row) then Some row else get_session db s.
Proof.
  intros Ho. unfold get_session, put_session in *. simpl. case_decide as E.
  - subst s. apply (find_first_update_where _ _ _ old); [done| |by apply Z.eqb_eq]. by apply find_first_Some in Ho as [_ ?].
  - clear Ho. induction (a_sessions db) as [|y l IH]; [done|]. simpl. destruct (Z.eqb_spec (as_id y) (as_id row)) as [Ey|Ey].
    + rewrite Ey. rewrite !(proj2 (Z.eqb_neq _ _)) by congruence. done.
    + by rewrite IH.
Qed.
Lemma updated_receipt id f db :
  (∀ r, rr_id (f r) = rr_id r) → get_receipt (update_receipt id f db) id = f <$> get_receipt db id.
Proof.
  intros Hf. unfold get_receipt, update_receipt. simpl. induction (a_receipts db) as [|y l IH]; [done|]. simpl.
  destruct (has_id id y) eqn:E; simpl.
  - apply has_id_spec in E. by rewrite (proj2 (has_id_spec id (f y))) by congruence.
  - rewrite E. exact IH.
Qed.

(** Nobody is left to wait for the receipt. *)
Definition no_longer_awaited (db : ADB) (id : string) (row : AgentSession) : Prop :=
  match get_receipt db id with
  | Some r =>
      rr_session_id r = as_id row ∧ rr_local_session_id r = as_local_session_id row ∧
      as_ember_session_id row = Some (rr_guest_id r) ∧
      (is_Some (rr_response_observed_at r) ∨ is_Some (rr_received_at r) ∨ rr_accept_until r ≤ a_now db)
  | None => True
  end.
Lemma fenced_by_spec r s :
  fenced_by r s = true ↔ rr_local_session_id r = as_local_session_id s ∧ as_ember_session_id s = Some (rr_guest_id r) ∧
                         as_result_receipt_fence_id s = Some (rr_id r).
Proof. unfold fenced_by. rewrite !andb_true_iff, !bool_decide_eq_true. naive_solver. Qed.
Lemma unfence_session s p db t row :
  get_session db t = Some row →
  get_session (unfence s p db) t = Some row ∨ s = t ∧ p row = true ∧ get_session (unfence s p db) t = Some (with_fence None row).
Proof.
  intros Ht. unfold unfence. destruct (get_session db s) as [agent|] eqn:Es; [|by left].
  destruct (p agent) eqn:Ep; [|by left]. pose proof (session_found _ _ _ Es) as [_ Hid].
  rewrite (session_put (with_fence None agent) agent) by (simpl; by rewrite Hid). simpl. case_decide as E; [|by left].
  right. assert (s = t) as -> by congruence. rewrite Es in Ht. by injection Ht as <-.
Qed.
Lemma released_session agent db s row :
  get_session db (as_id agent) = Some agent → get_session db s = Some row →
  get_session (put_session (with_fence None agent) db) s = Some row ∨
  agent = row ∧ get_session (put_session (with_fence None agent) db) s = Some (with_fence None row).
Proof.
  intros Ha Hs. rewrite (session_put (with_fence None agent) agent) by done. simpl. case_decide as E; [|by left].
  right. assert (agent = row) as -> by congruence. done.
Qed.
Lemma is_set_true {A} (o : option A) : is_set o = true → is_Some o.
Proof. destruct o; [eauto|done]. Qed.

(** Operations that leave every session alone. *)
Lemma prepare_session (En : Environ) mint i body staged db d db' :
  prepare_receipt mint i body staged db = Ok (d, db') → a_sessions db' = a_sessions db.
Proof.
  unfold prepare_receipt. destruct (typed_invocation i) as [[[[s owner] n] guest]|]; [|done].
  intros ([agent m] & _ & Hq)%res_bind_ok. apply res_bind_ok in Hq as (db1 & Hadd & Hq).
  apply res_bind_ok in Hq as (meter & _ & [= _ <-]). unfold add_receipt in Hadd. destruct (existsb _ _); [done|].
  injection Hadd as <-. by destruct staged.
Qed.
Lemma attempt_session (En : Environ) id s owner n guest body handoff db d db' :
  attempt_prepared_receipt id s owner n guest body handoff db = Ok (d, db') → a_sessions db' = a_sessions db.
Proof.
  unfold attempt_prepared_receipt. intros ([agent m] & _ & Hq)%res_bind_ok. destruct (get_receipt db id); [|done].
  apply res_bind_ok in Hq as ([] & _ & Hq). revert Hq. next_guard; [done|].
  intros (meter & _ & Hq)%res_bind_ok. by apply res_bind_ok in Hq as ([] & _ & [= _ <-]).
Qed.

(** Lifting the fence of the locked session. *)
Definition lifted (db db' : ADB) (s : Z) (row : AgentSession) (id : string) : Prop :=
  get_session db' s = Some row ∨ get_session db' s = Some (with_fence None row) ∧ no_longer_awaited db' id row.
Lemma same_lifted db db' s row id : get_session db s = Some row → a_sessions db' = a_sessions db → lifted db db' s row id.
Proof. intros Hs E. left. unfold get_session. by rewrite E. Qed.
Lemma released_lifted agent db s row id :
  get_session db (as_id agent) = Some agent → get_session db s = Some row →
  (agent = row → no_longer_awaited db id row) → lifted db (put_session (with_fence None agent) db) s row id.
Proof.
  intros Ha Hs Hn. destruct (released_session agent db s row Ha Hs) as [E|[E1 E]]; [by left|]. right. split; [done|]. by apply Hn.
Qed.
Lemma unfenced_lifted s0 p db s row id :
  get_session db s = Some row → (s0 = s → p row = true → no_longer_awaited db id row) → lifted db (unfence s0 p db) s row id.
Proof.
  intros Hs Hn. destruct (unfence_session s0 p db s row Hs) as [E|(E0 & Ep & E)]; [by left|]. right. split; [done|].
  specialize (Hn E0 Ep). unfold no_longer_awaited, get_receipt in *. by destruct (unfence_receipts s0 p db) as [-> ->].
Qed.
Lemma awaited_no_longer db id row r :
  get_receipt db id = Some r → rr_session_id r = as_id row → fenced_by r row = true →
  (is_Some (rr_response_observed_at r) ∨ is_Some (rr_received_at r) ∨ rr_accept_until r ≤ a_now db) → no_longer_awaited db id row.
Proof. intros Hr Hs Hf He. unfold no_longer_awaited. rewrite Hr. by apply fenced_by_spec in Hf as (-> & -> & _). Qed.

Lemma observed_lifted id0 s0 owner n guest db b db' s row id :
  mark_response_observed id0 s0 owner n guest db = Ok (b, db') →
  get_session db s = Some row → as_result_receipt_fence_id row = Some id → lifted db db' s row id.
Proof.
  unfold mark_response_observed. intros ([r|] & Ho & [= _ <-])%res_bind_ok Hs Hf; [|by left].
  apply observer_inv in Ho as (Hr & <- & Hrs). apply unfenced_lifted; [done|]. intros -> [Hfb _]%andb_true_iff.
  pose proof (proj1 (fenced_by_spec _ _) Hfb) as (_ & _ & Hid). assert (id = rr_id r) as -> by congruence.
  apply session_found in Hs as [_ Hs]. eapply awaited_no_longer; [rewrite updated_receipt by done; by rewrite Hr|simpl; congruence|done|].
  left. simpl. destruct (rr_response_observed_at r); simpl; eauto.
Qed.
Lemma observer_released_lifted id0 s0 owner n guest db b db' s row id :
  mark_response_observer_released id0 s0 owner n guest db = Ok (b, db') →
  get_session db s = Some row → as_result_receipt_fence_id row = Some id → lifted db db' s row id.
Proof.
  unfold mark_response_observer_released. intros ([r|] & Ho & [= _ <-])%res_bind_ok Hs Hf; [|by left].
  apply observer_inv in Ho as (Hr & <- & Hrs). apply unfenced_lifted; [done|].
  intros -> [[[[Hrec _]%andb_true_iff _]%andb_true_iff Hfb]%andb_true_iff _]%andb_true_iff.
  pose proof (proj1 (fenced_by_spec _ _) Hfb) as (_ & _ & Hid). assert (id = rr_id r) as -> by congruence.
  apply session_found in Hs as [_ Hs]. eapply awaited_no_longer; [rewrite updated_receipt by done; by rewrite Hr|simpl; congruence|done|].
  right; left. by apply is_set_true.
Qed.
Lemma unobserved_lifted id0 s0 owner n guest db b db' s row id :
  release_unobserved_fence id0 s0 owner n guest db = Ok (b, db') →
  get_session db s = Some row → as_result_receipt_fence_id row = Some id → lifted db db' s row id.
Proof.
  unfold release_unobserved_fence. intros ([r|] & Ho & Hq)%res_bind_ok Hs Hf; [|by injection Hq as _ <-; left].
  apply observer_inv in Ho as (Hr & <- & Hrs). destruct (get_session db s0) as [agent|] eqn:Ea; [|by injection Hq as _ <-; left].
  revert Hq. next_guard; intros [= _ <-]; [|by left].
  match goal with Hc : _ && _ = true |- _ => rewrite !andb_true_iff in Hc; destruct Hc as [[[Hrec _] Hfb] _] end.
  pose proof (session_found _ _ _ Ea) as [_ Hid]. apply released_lifted; [by rewrite Hid|done|]. intros ->.
  pose proof (proj1 (fenced_by_spec _ _) Hfb) as (_ & _ & Hfi). assert (id = rr_id r) as -> by congruence.
  apply (awaited_no_longer _ _ _ r); [done|congruence|done|]. right; left. by apply is_set_true.
Qed.
Lemma abandoned_lifted s0 id0 db s row id :
  get_session db s = Some row → as_result_receipt_fence_id row = Some id → lifted db (release_abandoned_fence s0 id0 db).2 s row id.
Proof.
  intros Hs Hf. unfold release_abandoned_fence, release_abandoned_fence_locked.
  destruct (get_session db s0) as [agent|] eqn:Ea; [|by left].
  match goal with |- context [if ?c then _ else _] => destruct c eqn:Hc end; [|by left]. cbn [snd].
  rewrite !andb_true_iff in Hc. destruct Hc as [[_ Hid0%bool_decide_eq_true] Hab].
  pose proof (session_found _ _ _ Ea) as [_ Hid]. apply released_lifted; [by rewrite Hid|done|]. intros ->.
  assert (id = id0) as -> by congruence. unfold no_longer_awaited, abandoned in *. destruct (get_receipt db id0) as [r|]; [|done].
  rewrite !andb_true_iff, !bool_decide_eq_true, Z.eqb_eq, orb_true_iff, Z.leb_le in Hab.
  destruct Hab as [[[-> ->] ->] [Hrec|Hexp]]; split_and!; try done; [right; left; by apply is_set_true|by right; right].
Qed.
Lemma ownerless_lifted s0 agent id0 row' db db' s row id :
  get_session db s0 = Some agent → release_ownerless_fence_locked agent id0 db = Some (row', db') →
  get_session db s = Some row → as_result_receipt_fence_id row = Some id → lifted db db' s row id.
Proof.
  intros Ea Ho Hs Hf. revert Ho. unfold release_ownerless_fence_locked. next_guard; [done|].
  apply orb_false_iff in Heqb as [_ Hid0%negb_false_iff%bool_decide_eq_true]. pose proof (session_found _ _ _ Ea) as [_ Hid].
  assert (∀ out, Some (with_fence None agent, put_session (with_fence None agent) db) = Some out → out.2 = put_session (with_fence None agent) db)
    as Hput by (by intros ? [= <-]).
  fold (has_id id0). fold (get_receipt db id0). destruct (get_receipt db id0) as [r|] eqn:Er.
  - next_guard; [done|]. intros Hout%Hput. simpl in Hout. subst db'. apply released_lifted; [by rewrite Hid|done|]. intros ->.
    assert (id = id0) as -> by congruence. unfold no_longer_awaited. rewrite Er. rewrite !orb_false_iff, !negb_false_iff in Heqb.
    destruct Heqb as [[[[[[E1%Z.eqb_eq E2%bool_decide_eq_true] E3%bool_decide_eq_true] E4] _] _] _].
    split_and!; try done. right; left. by apply is_set_true.
  - intros Hout%Hput. simpl in Hout. subst db'. apply released_lifted; [by rewrite Hid|done|]. intros ->.
    assert (id = id0) as -> by congruence. unfold no_longer_awaited. by rewrite Er.
Qed.
Lemma restored_lifted s0 id0 guest db s row id :
  get_session db s = Some row → as_result_receipt_fence_id row = Some id → lifted db (restore_abandoned_fence s0 id0 guest db).2 s row id.
Proof.
  intros Hs Hf. left. unfold restore_abandoned_fence. destruct (get_session db s0) as [agent|] eqn:Ea; [|done].
  match goal with |- context [if ?c then _ else _] => destruct c eqn:Hc end; [done|]. cbn [snd].
  rewrite !orb_false_iff in Hc. destruct Hc as [[[_ Hno] _] _]. pose proof (session_found _ _ _ Ea) as [_ Hid].
  rewrite (session_put (with_fence (Some id0) agent) agent) by (simpl; by rewrite Hid). simpl. case_decide; [|done].
  assert (agent = row) as -> by congruence. by rewrite Hf in Hno.
Qed.

(** C24: the fence of a session is released on evidence only. While a receipt
    fences a session, no operation on receipts puts another in its place, and
    one that lifts the fence leaves the rest of the session as it was and finds
    the fence's own receipt gone from retention, or of this very session and
    guest with its response observed, its result committed, or its acceptance
    window over: never while the original invocation could still deliver the
    only result of the turn. *)
Theorem fence_released_on_evidence ids db ids' db' s row id :
  receipt_op (ids, db) (ids', db') → get_session db s = Some row → as_result_receipt_fence_id row = Some id →
  get_session db' s = Some row ∨ get_session db' s = Some (with_fence None row) ∧ no_longer_awaited db' id row.
Proof.
  intros Hop Hs Hf. change (lifted db db' s row id).
  inversion Hop; subst;
    [eapply same_lifted, prepare_session|eapply same_lifted, attempt_session|eapply observed_lifted|eapply observer_released_lifted|
     eapply unobserved_lifted|eapply abandoned_lifted|eapply ownerless_lifted|eapply restored_lifted| |by apply same_lifted];
    try eassumption.
  match goal with Hc : capture_result _ _ _ _ = _ |- _ => apply capture_inv in Hc as (_ & _ & _ & r & _ & _ & _ & _ & [(-> & _) | (_ & _ & ->)]) end;
    by apply same_lifted.
Qed.
End claims.

(** * Native result receipts and the turn store

    The turn store asks for the validation of a native receipt through
    [ResultHooks]; here the receipts answer ([adopting]), and the theorem is
    about the two together. *)

Section adoption.
Context `{TurnText, IsoFormat, PriceBook, ReceiptHooks}.
Context (push : ADB → AgentSession → pyval → res unit) (b64 : pyval → option string).
#[local] Instance receipts : ResultHooks := adopting push b64.
Implicit Types (r : AgentResultReceipt) (db : ADB).

(** The receipt's invocation is the one that runs now: its session and guest,
    the head of its lane under its owner and dispatch, a live claim or a hold
    for this receipt, no unknown outcome, and the running permit. *)
Record active_invocation db r (row : AgentSession) : Prop := mkActive
  { ai_current : rr_superseded_at r = None; ai_attempted : attempted_phase r = true; ai_retained : a_now db < rr_retain_until r;
    ai_local : as_local_session_id row = rr_local_session_id r; ai_guest : as_ember_session_id row = Some (rr_guest_id r);
    ai_head : ∃ m, head_pending db (rr_session_id r) = Some m ∧ pm_seq m = rr_seq r ∧
                   pm_claimed_by_replica m = Some (rr_claim_owner r) ∧ pm_dispatch_count m = rr_dispatch_count r ∧
                   (live_claim (a_now db) m = true ∨ _held_dispatch db r = Ok true);
    ai_certain : has_unknown_outcome db (rr_session_id r) = false;
    ai_permit : ∃ p, p ∈ a_permits db ∧ cr_session_id p = Some (rr_session_id r) ∧ cr_pending_seq p = rr_seq r ∧
                     cr_state p = "running"%string ∧ cr_owner p = Some (rr_claim_owner r) }.

Lemma one_permit_in db s q p : one_permit db s q = Ok (Some p) → p ∈ a_permits db ∧ cr_session_id p = Some s ∧ cr_pending_seq p = q.
Proof.
  unfold one_permit. destruct (filter _ _) as [|x [|]] eqn:E; try done. intros [= ->].
  assert (p ∈ filter (λ p, cr_session_id p = Some s ∧ cr_pending_seq p = q) (a_permits db)) as Hp
    by (rewrite E; by apply list_elem_of_singleton).
  apply list_elem_of_filter in Hp. tauto.
Qed.
Lemma active_owner_inv db r row :
  _active_owner db r = Ok row → get_session db (rr_session_id r) = Some row ∧ active_invocation db r row.
Proof.
  unfold _active_owner. destruct (get_session db _) as [agent|]; [|done]. destruct (head_pending db _) as [m|] eqn:Hm; [|done].
  next_guard; [done|]. apply negb_false_iff in Heqb. unfold receipt_current in Heqb.
  rewrite !andb_true_iff, !bool_decide_eq_true, !Z.eqb_eq, Z.ltb_lt in Heqb.
  destruct Heqb as [[[[[[[[[[Hs%negb_true_iff Ha] Hret] Hl] Hg] _] _] Hseq] Hown] Hcnt] _].
  intros (held & Hheld & Hq)%res_bind_ok. revert Hq. next_guard; [done|]. rewrite !orb_false_iff in Heqb.
  destruct Heqb as [[Hh%negb_false_iff Hu] _]. intros (permit & Hp & Hq)%res_bind_ok. revert Hq. next_guard; [done|].
  intros [= ->]. apply orb_false_iff in Heqb as [Hr%negb_false_iff _]. split; [done|].
  destruct permit as [p|]; [|done]. apply one_permit_in in Hp as (Hin & Hps & Hpq). unfold running_for in Hr.
  rewrite !andb_true_iff, !bool_decide_eq_true in Hr. destruct Hr as [[Hst Ho] _]. subst held.
  split; try done; [by destruct (rr_superseded_at r)| |by exists p].
  exists m. do 4 (split; [done|]). destruct (live_claim _ m); [by left|by right].
Qed.

Lemma result_inv db r ca :
  _result db r = Ok ca → rr_result_body r = Some (ca_result_body ca) ∧ rr_result_sha256 r = Some (sha256 (ca_result_body ca)) ∧
  ∃ received recovered, ca_provenance ca = provenance_of r received recovered.
Proof.
  unfold _result. destruct (rr_result_body r) as [body|]; [|done]. destruct (rr_received_at r) as [received|]; [|done].
  next_guard; [done|]. apply orb_false_iff in Heqb as [_ Hd%negb_false_iff%bool_decide_eq_true].
  intros ([] & _ & Hq)%res_bind_ok. apply res_bind_ok in Hq as (recovered & _ & [= <-]). simpl. eauto.
Qed.
Lemma identity_typed r (s : Z) owner (n : Z) guest :
  _check_identity r (mkInvocation (PInt s) (PStr owner) (PInt n) guest) = Ok tt →
  rr_session_id r = s ∧ rr_claim_owner r = owner ∧ rr_dispatch_count r = n ∧ guest = PStr (rr_guest_id r).
Proof.
  unfold _check_identity, typed_invocation. simpl. repeat case_match; try done. simplify_eq.
  match goal with E : _ && _ = true |- _ => rewrite !andb_true_iff, !Z.eqb_eq, !bool_decide_eq_true in E; destruct E as [[[? ?] ?] ?] end.
  destruct guest; try done. simpl in *. repeat case_match; naive_solver.
Qed.

(** What a successful validation found. *)
Record validated db (s q : Z) owner (n : Z) (row : AgentSession) (identity : dict) (t : Turn) (provenance : dict) (fence : option string) r :
    Prop := mkValidated
  { va_in : r ∈ a_receipts db; va_session : rr_session_id r = s; va_seq : rr_seq r = q; va_owner : rr_claim_owner r = owner;
    va_count : rr_dispatch_count r = n; va_active : active_invocation db r row;
    va_result : ∃ body payload expected, rr_result_body r = Some body ∧ rr_result_sha256 r = Some (sha256 body) ∧
      json_loads body = Some payload ∧
      parse_native_turn payload (as_ember_session_id row) (dict_get "cli_session_id" identity) (dict_get "artifact_path" identity) = Ok expected ∧
      py_eq (turn_values expected) (turn_values (as_parsed t)) = true;
    va_provenance : ∃ received recovered, provenance = provenance_of r received recovered;
    va_fence : fence = Some (rr_id r) ∨ is_Some (rr_response_observed_at r) ∨ is_Some (rr_observer_released_at r) ∨
               _held_dispatch db r = Ok true }.
Lemma evidence_inv db row s q owner n identity t provenance fence :
  get_session db s = Some row → native_evidence db row q owner n identity t = Ok (provenance, fence) →
  ∃ r, validated db s q owner n row identity t provenance fence r.
Proof.
  intros Hs. pose proof (session_found _ _ _ Hs) as [_ Hid]. unfold native_evidence.
  intros (rid & _ & Hq)%res_bind_ok. apply res_bind_ok in Hq as (digest & _ & Hq). destruct rid as [| | | |rid| | |]; try done.
  apply res_bind_ok in Hq as ([ca f] & Hv & Hq). apply res_bind_ok in Hq as (payload & Hpay & Hq).
  apply res_bind_ok in Hq as (expected & Hexp & Hq). revert Hq. next_guard; [done|]. intros [= <- <-].
  rewrite !orb_false_iff, !negb_false_iff in Heqb. destruct Heqb as [[_ Heq] _].
  unfold validate_active_result in Hv. destruct (get_receipt db rid) as [r|] eqn:Er; [|done].
  apply receipt_found in Er as [Hin <-]. apply res_bind_ok in Hv as ([] & Hcheck & Hv).
  apply identity_typed in Hcheck as (Hrs & Hro & Hrn & _). revert Hv. next_guard; [done|].
  apply negb_false_iff, Z.eqb_eq in Heqb. next_guard; [done|]. intros (agent & Hact & Hv)%res_bind_ok.
  apply res_bind_ok in Hv as (ca' & Hres & Hv). apply active_owner_inv in Hact as [Hag Hact].
  assert (agent = row) as -> by congruence. apply result_inv in Hres as (Hbody & Hsha & Hpv).
  assert (ca' = ca ∧ (f = Some (rr_id r) ∨ is_Some (rr_response_observed_at r) ∨ is_Some (rr_observer_released_at r) ∨
                      _held_dispatch db r = Ok true)) as [-> Hf].
  { destruct (is_set (rr_response_observed_at r) || _) eqn:Eo.
    - injection Hv as -> <-. split; [done|]. apply orb_true_iff in Eo as [Eo|[_ Eo]%andb_true_iff]; apply is_set_true in Eo; auto.
    - apply res_bind_ok in Hv as (held & Hh & [= -> <-]). split; [done|]. destruct held; auto. }
  exists r. split; try done; [congruence|]. unfold loads in Hpay. destruct (json_loads _) as [v|] eqn:Ej; [|done]. injection Hpay as ->.
  exists (ca_result_body ca), payload, expected. done.
Qed.

Lemma completion_sessions row q t pending db : a_sessions (completion_end row q t pending db) = a_sessions db.
Proof.
  unfold completion_end. destruct (drained _); [by destruct pending|]. unfold settle.
  match goal with |- context [_adopt ?a ?b ?st ?o ?m ?d] => pose proof (adopt_world a b st o m d) as [Hw _]; destruct (_adopt a b st o m d) end.
  simpl in Hw. case_bool_decide; simpl; rewrite Hw; by destruct pending.
Qed.

(** C7: a result adopted through a receipt is the one the guest committed for
    the invocation that runs now. When a completion that carries a native
    receipt is recorded, the receipt is a current one of this very session,
    message, owner and dispatch, on the session's own guest, whose capacity is
    still running; its committed body, under its own digest, parses to the turn
    that is recorded; the stored turn's usage shows that receipt as its evidence,
    whatever the guest reported and under whatever keys; and the session stays fenced by it unless
    its response was observed, its observer is gone or the attempt was held. *)
Theorem adopted_result_authentic s q c db t db' identity :
  persist_turn_from_pending_sync s q c db = Ok (t, db') → tn_native_receipt (cp_turn c) = Some identity →
  ∃ row owner n r fence received recovered u,
    cp_claim_owner c = Some owner ∧ cp_dispatch_count c = Some n ∧
    validated db s q owner n row identity (cp_turn c) (provenance_of r received recovered) fence r ∧
    tkey t = (s, q) ∧ tu_usage_json t = Some (encoded (PDict u)) ∧
    assoc_get "native_result_receipt" u = Some (sanitize_payload (PDict (provenance_of r received recovered))) ∧
    ∃ row', get_session db' s = Some row' ∧ (fence = None ∨ as_result_receipt_fence_id row' = fence).
Proof.
  intros (row & row1 & provenance & capture & usage & cost & recorded & Hs & _ & Hprov & _ & Hcont & Hdrain & _ & Hk & _ & Hu & ->)%persist_inv Hn.
  unfold receipt_provenance in Hprov. rewrite Hn in Hprov. destruct (cp_claim_owner c) as [owner|]; [|done].
  destruct (cp_dispatch_count c) as [n|]; [|done]. apply res_bind_ok in Hprov as ([pv fence] & Hev & [= <- <-]).
  destruct (evidence_inv _ _ _ _ _ _ _ _ _ _ Hs Hev) as [r Hv]. destruct (va_provenance _ _ _ _ _ _ _ _ _ _ _ Hv) as (received & recovered & ->).
  destruct (sanitize_payload (PDict recorded)) as [| | | | | |u|] eqn:Eu; try done.
  exists row, owner, n, r, fence, received, recovered, u. split_and!; try done.
  - eapply last_word_sanitized; [|exact Eu]. eapply recorded_words; [exact Hcont|exact Hdrain|done|done|].
    by apply observed_words.
  - pose proof (session_found _ _ _ Hs) as [_ Hid].
    match goal with |- context [completed_session (a_now db) c ?x] => set (row1 := x) end.
    assert (as_id (completed_session (a_now db) c row1) = s ∧
            as_result_receipt_fence_id (completed_session (a_now db) c row1) = as_result_receipt_fence_id row1) as [Hid' Hf'].
    { unfold completed_session. rewrite <-Hid. repeat case_match; by destruct fence. }
    exists (completed_session (a_now db) c row1). split.
    + unfold get_session. rewrite completion_sessions.
      change (get_session (put_session (completed_session (a_now db) c row1) (set_turns (replaced t) db)) s = Some (completed_session (a_now db) c row1)).
      rewrite (session_put _ row); [by rewrite Hid', decide_True|]. by rewrite Hid'.
    + destruct fence; [right|by left]. by rewrite Hf'.
Qed.
End adoption.

(** * Native result receipts: concrete instances of the theorems *)

Module ReceiptDemo.

(** A body that starts with a brace is an object with itself as its result. *)
#[local] Instance text : TurnText :=
  {| json_dumps := λ _, "json"%string;
     json_loads := λ s, if startswith "{" s then Some (PDict [("result"%string, PStr s)]) else None;
     str_other := λ _, "?"%string; exact_dispatch_id := λ _, "dispatch"%string; json_dumps_text := λ _, ltac:(discriminate) |}.
#[local] Instance book : PriceBook := λ _ _ _, UnknownModel.
#[local] Instance env : Environ := λ _, None.
#[local] Existing Instance TurnDemo.iso.
Definition parsed (result : string) (receipt : option dict) : Turn :=
  mkReport result (Some "completed"%string) None false PNone 1 None [] None (PInt 5) (PList []) PNone None None None None None receipt.
#[local] Instance hooks : ReceiptHooks :=
  {| sha256 := λ s, ("sha256:" +:+ s)%string; meter_bind := λ _ _ _ _, Ok PNone; validate_completion := λ _ _ _, Ok tt;
     parse_native_turn := λ payload _ _ _,
       match payload with PDict p => match dict_get "result" p with PStr s => Ok (parsed s None) | _ => Raise TypeError end | _ => Raise TypeError end |}.

Definition mint1 : Mint := mkMint "0123456789abcdef0123456789abcdef" "token-one-token-one-token-one-token-one-token-one".
Definition mint2 : Mint := mkMint "fedcba9876543210fedcba9876543210" "token-two-token-two-token-two-token-two-token-two".
Definition call : Invocation := invocation 1 "pod-a" 1 "guest-1".
Definition after {A} (r : res (A * ADB)) : ADB := match r with Ok (_, db) => db | Raise _ => TurnDemo.db0 end.
(** The claim of [TurnDemo], running. *)
Definition start : ADB := Eval vm_compute in
  set_permits (λ ps, (λ p, mkPermit (cr_id p) (cr_local_session_id p) (cr_pending_seq p) (cr_session_id p) (cr_tier p) (cr_model p)
    (cr_workload p) (cr_owner p) "running" (cr_daily_key p) (cr_routine_job_name p) (cr_created_at p) (cr_settled_at p) (cr_outcome p)) <$> ps) TurnDemo.claimed.
Definition posted1 : ADB := Eval vm_compute in after (prepare_receipt mint1 call "request" false start).
Definition posted2 : ADB := Eval vm_compute in after (prepare_receipt mint2 call "request" false posted1).
Definition captured : ADB := Eval vm_compute in after (capture_result (mt_id mint2) (mt_token mint2) "{done}" posted2).
Definition receipt : AgentResultReceipt := Eval vm_compute in
  default (minted_receipt mint2 0 TurnDemo.chat 1 "pod-a" 1 "guest-1" "request" false) (get_receipt captured (mt_id mint2)).
Definition identity : dict := Eval vm_compute in provenance_of receipt 1000000 false.
Definition completion : Completion :=
  mkCompletion "first" (parsed "{done}" (Some identity)) "done" "completed" None None (Some "pod-a"%string) (Some 1) PNone.
Definition push : ADB → AgentSession → pyval → res unit := λ _ _ _, Ok tt.
Definition b64 : pyval → option string := λ _, None.
Definition adopted : ADB := Eval vm_compute in after (@persist_turn_from_pending_sync _ _ _ (adopting push b64) 1 1 completion captured).

(** The turn is posted twice; the first receipt is superseded. *)
Lemma step1 : receipt_step ([], start) ([mt_id mint1], posted1).
Proof. apply rs_op. eapply (ro_prepare env mint1 call "request" false [] start); [decide_in|vm_compute; reflexivity]. Qed.
Lemma step2 : receipt_step ([mt_id mint1], posted1) ([mt_id mint2; mt_id mint1], posted2).
Proof. apply rs_op. eapply (ro_prepare env mint2 call "request" false [mt_id mint1] posted1); [decide_in|vm_compute; reflexivity]. Qed.
Lemma step3 : receipt_step ([mt_id mint2; mt_id mint1], posted2) ([mt_id mint2; mt_id mint1], captured).
Proof. apply rs_op. eapply (ro_capture (mt_id mint2) (mt_token mint2) "{done}"). vm_compute. reflexivity. Qed.
Lemma posted_run : rtc receipt_step ([], start) ([mt_id mint2; mt_id mint1], captured).
Proof. exact (rtc_l _ _ _ _ step1 (rtc_l _ _ _ _ step2 (rtc_once _ _ step3))). Qed.
Lemma current_witness : rr_superseded_at receipt = None ∧
  ∀ r, r ∈ a_receipts captured → rr_superseded_at r = None → rr_session_id r = 1 → rr_seq r = 1 → r = receipt.
Proof.
  split; [reflexivity|]. intros r Hr Hc Hs Hq.
  destruct (one_current_receipt [] start [mt_id mint2; mt_id mint1] captured) as [Hone _]; [reflexivity|exact posted_run|].
  apply Hone; [exact Hr|exact (list_elem_of_further _ _ _ (list_elem_of_here _ _))|exact Hc|reflexivity|exact Hs|exact Hq].
Defined.

Lemma posted2_ok : table_ok [mt_id mint2; mt_id mint1] (a_receipts posted2).
Proof.
  apply (run_stays_ok _ _ (rtc_l _ _ _ _ step1 (rtc_once _ _ step2))).
  split; [apply NoDup_nil_2|intros r Hr|intros r y Hr|intros r Hr]; by apply elem_of_nil in Hr.
Qed.
(** The guest posts its result again, and then another one, after the turn was recorded. *)
Lemma immutable_witness :
  capture_result (mt_id mint2) (mt_token mint2) "{done}" adopted = Ok (mkAck (mt_id mint2) "sha256:{done}", adopted) ∧
  capture_result (mt_id mint2) (mt_token mint2) "{other}" adopted = rejected "receipt_result_conflict".
Proof.
  destruct (captured_result_immutable (mt_id mint2) (mt_token mint2) "{done}" [mt_id mint2; mt_id mint1] posted2
    (mkAck (mt_id mint2) "sha256:{done}") captured [mt_id mint2; mt_id mint1] adopted) as (r & Hr & Hlive).
  - exact posted2_ok.
  - vm_compute. reflexivity.
  - apply rtc_once, rs_other; [vm_compute; reflexivity|vm_compute; discriminate].
  - vm_compute in Hr. injection Hr as <-. destruct Hlive as [Hsame Hother]; [vm_compute; reflexivity|].
    split; [exact Hsame|]. apply Hother; [discriminate|vm_compute; reflexivity].
Defined.

(** The recorded turn is the captured one, and its session waits for the
    original POST; once that returned, the fence goes. *)
Lemma adopted_witness : ∃ row owner n r fence received recovered u,
  cp_claim_owner completion = Some owner ∧ cp_dispatch_count completion = Some n ∧
  validated captured 1 1 owner n row identity (cp_turn completion) (provenance_of r received recovered) fence r ∧
  tkey (default TurnDemo.ended (get_turn adopted 1 1)) = (1, 1) ∧
  tu_usage_json (default TurnDemo.ended (get_turn adopted 1 1)) = Some (encoded (PDict u)) ∧
  assoc_get "native_result_receipt" u = Some (sanitize_payload (PDict (provenance_of r received recovered))) ∧
  ∃ row', get_session adopted 1 = Some row' ∧ (fence = None ∨ as_result_receipt_fence_id row' = fence).
Proof.
  apply (adopted_result_authentic push b64 1 1 completion captured (default TurnDemo.ended (get_turn adopted 1 1)) adopted identity).
  - vm_compute. reflexivity.
  - reflexivity.
Defined.
#[local] Instance readers : ResultHooks := adopting push b64.
Lemma authentic_witness : ∃ before row provenance capture u,
  get_session captured 1 = Some before ∧ receipt_provenance captured before 1 completion = Ok (provenance, row) ∧
  capture_producer row 1 = Ok capture ∧
  tu_usage_json (default TurnDemo.ended (get_turn adopted 1 1)) = Some (encoded (PDict u)) ∧
  is_Some (assoc_get "observation" u) ∧
  (∀ p, provenance = Some p → assoc_get "native_result_receipt" u = Some (sanitize_payload (PDict p))).
Proof.
  destruct (recorded_evidence_authentic 1 1 completion captured (default TurnDemo.ended (get_turn adopted 1 1)) adopted)
    as (before & row & provenance & capture & u & Hb & Hp & Hc & _ & Hu & Ho & Hr & _).
  - vm_compute. reflexivity.
  - exists before, row, provenance, capture, u. do 4 (split; [done|]). split; [by eexists|exact Hr].
Defined.
Definition fenced : AgentSession := Eval vm_compute in default TurnDemo.chat (get_session adopted 1).
Definition observed : ADB := Eval vm_compute in after (mark_response_observed (mt_id mint2) 1 "pod-a" 1 "guest-1" adopted).
Lemma fence_witness : no_longer_awaited observed (mt_id mint2) fenced.
Proof.
  destruct (fence_released_on_evidence [] adopted [] observed 1 fenced (mt_id mint2)) as [Hsame|[_ Hgone]].
  - eapply (ro_observed (mt_id mint2) 1 "pod-a" 1 "guest-1"). vm_compute. reflexivity.
  - reflexivity.
  - reflexivity.
  - exfalso. vm_compute in Hsame. discriminate Hsame.
  - exact Hgone.
Defined.
End ReceiptDemo.
