(* ===== verification/ReviewLeases.v ===== *)
(** * Review leases: definitions

    [factory/execution/review_leases.py] and the decisions of
    [factory/reservation_reviews.py].  A start may cause side effects for thirty
    minutes; after that only a judge's decision on the exact attempt renews its
    lease, whatever the executor reports of itself. *)

From Stdlib Require Import SpecFloat.
From stdpp Require Import prelude list strings.
From S2P Require Import Prelude PyValue WorkItems GraphData PolicyData Controls Pricing Admission TurnStore TurnDispatch.
Local Open Scope Z_scope.

(** ** What the leases call *)

(** SHA-256 over sorted JSON, [str] of an optional time stamp, and parking the
    routine job of a cancelled start ([agent.routine_jobs.stop_unattempted_job],
    which raises when there is no such job). *)
Class LeaseHooks := {
  digest : pyval → string;
  str_time : option Z → string;
  stop_unattempted_job : string → res unit;
}.

(** ** Rows *)

Definition INTERVAL_SECONDS : Z := 1800.
Definition LEAD_SECONDS : Z := 300.
Definition REVIEW_TIMEOUT_SECONDS : Z := 240.
Definition RETRY_SECONDS : Z := 300.
Definition REVIEW_PREFIX : string := "synthetic:factory-review:".
Definition seconds (n : Z) : Z := n * 1000000.

Record ReservationReview := mkReview
  { rv_permit_id : Z; rv_identity_sha256 : string; rv_lease_expires_at : Z; rv_requested_at : option Z;
    rv_completed_at : option Z; rv_review_session_key : option string; rv_evidence_sha256 : option string;
    rv_approved_evidence_sha256 : option string; rv_stop_intent_json : option dict; rv_guidance : option string;
    rv_verdict : option string; rv_rationale : option string; rv_state : string; rv_attempts : Z }.
(** The proof that a guest ceased ([ProbeObservation]). *)
Record ProbeObservation := mkObservation
  { po_permit_id : Z; po_identity_sha256 : option string; po_guest_id : option string; po_reason : string; po_settled_at : option Z }.
(** The audit row of a decision. *)
Record LeaseAudit := mkLeaseAudit
  { la_at : Z; la_task_id : option string; la_permit_id : Z; la_identity_sha256 : string; la_review_session_key : string;
    la_evidence_sha256 : string; la_action : string; la_refusal : option string; la_legacy_verdict : string }.

(** The execution tables with the reviews, the guest observations, the graph's
    runs and the audits. *)
Record LDB := mkLDB
  { l_db : ADB; l_reviews : list ReservationReview; l_observations : list ProbeObservation; l_runs : list SwarmNodeRun;
    l_audits : list LeaseAudit }.
Definition l_now (st : LDB) : Z := a_now (l_db st).
Definition with_db (db : ADB) (st : LDB) : LDB := mkLDB db (l_reviews st) (l_observations st) (l_runs st) (l_audits st).
Definition with_reviews (f : list ReservationReview → list ReservationReview) (st : LDB) : LDB :=
  mkLDB (l_db st) (f (l_reviews st)) (l_observations st) (l_runs st) (l_audits st).
Definition log (a : LeaseAudit) (st : LDB) : LDB :=
  mkLDB (l_db st) (l_reviews st) (l_observations st) (l_runs st) (l_audits st ++ [a]).

Definition is_review (permit_id : Z) (r : ReservationReview) : bool := rv_permit_id r =? permit_id.
Definition get_review (l : list ReservationReview) (permit_id : Z) : option ReservationReview := find_first (is_review permit_id) l.
(** [db.add(row)]: a new row, or the one of its key. *)
Definition put_review (r : ReservationReview) (l : list ReservationReview) : list ReservationReview :=
  match get_review l (rv_permit_id r) with
  | Some _ => update_where (is_review (rv_permit_id r)) (λ _, r) l
  | None => l ++ [r]
  end.
Definition permit_by_id (db : ADB) (id : Z) : option Permit := find_first (λ p, cr_id p =? id) (a_permits db).

(** ** The lease *)

Definition enabled `{Environ} : bool := flag "FACTORY_RESERVATION_REVIEW_ENABLED".
Definition identity `{LeaseHooks} (p : Permit) : string :=
  digest (PDict
    [("id", PInt (cr_id p)); ("local_session_id", PStr (cr_local_session_id p));
     ("session_id", match cr_session_id p with Some s => PInt s | None => PNone end); ("pending_seq", PInt (cr_pending_seq p));
     ("owner", opt_str (cr_owner p)); ("model", opt_str (cr_model p)); ("created_at", PStr (str_time (Some (cr_created_at p))))]%string).
Definition initial_deadline (p : Permit) : Z := cr_created_at p + seconds INTERVAL_SECONDS.
Definition deadline `{LeaseHooks} (reviews : list ReservationReview) (p : Permit) : Z :=
  match get_review reviews (cr_id p) with
  | Some row => if bool_decide (rv_identity_sha256 row = identity p) then rv_lease_expires_at row else initial_deadline p
  | None => initial_deadline p
  end.
Definition reviewer (local_session_id : string) : bool := startswith REVIEW_PREFIX local_session_id.
Definition may_dispatch `{Environ, LeaseHooks} (reviews : list ReservationReview) (db : ADB) (p : Permit) : bool :=
  negb enabled || reviewer (cr_local_session_id p) || (a_now db <? deadline reviews p).
(** The fence admission asks before a side effect. *)
Definition leased `{Environ, LeaseHooks} (start : ADB → string → string → res bool) (reviews : list ReservationReview)
    : AdmissionHooks :=
  {| Admission.can_start := start; Admission.may_dispatch := may_dispatch reviews |}.

(** ** The evidence a reviewer sees *)

Definition opt_int (o : option Z) : pyval := match o with Some n => PInt n | None => PNone end.
Definition last_chars (n : nat) (s : string) : string := String.substring (String.length s - n) n s.
Definition _snapshot `{IsoFormat, LeaseHooks} (db : ADB) (p : Permit) : dict :=
  let agent := s ← cr_session_id p; get_session db s in
  let pending := s ← cr_session_id p; get_pending_message db s (cr_pending_seq p) in
  let text (f : PendingMessage → string) := match pending with Some m => f m | None => ""%string end in
  [("permit_id", PInt (cr_id p)); ("seq", PInt (cr_pending_seq p)); ("owner", opt_str (cr_owner p));
   ("routine_job_name", opt_str (cr_routine_job_name p)); ("local_session_id", PStr (cr_local_session_id p));
   ("last_dispatch_at", match pending with Some m => PStr (str_time (pm_last_dispatch_at m)) | None => PNone end);
   ("identity", PStr (identity p)); ("tier", PStr (cr_tier p)); ("state", PStr (cr_state p)); ("model", opt_str (cr_model p));
   ("created_at", PStr (iso (cr_created_at p))); ("session_id", opt_int (cr_session_id p));
   ("session_status", opt_str (as_status <$> agent)); ("guest_id", opt_str (a ← agent; as_ember_session_id a));
   ("workflow_id", opt_str (a ← agent; as_workflow_id a)); ("node_key", opt_str (a ← agent; as_node_key a));
   ("node_attempt", opt_int (a ← agent; sd_node_attempt (as_detail a)));
   ("dispatch_count", opt_int (pm_dispatch_count <$> pending));
   ("objective", PStr (text (λ m, String.substring 0 6000 (pm_message_text m))));
   ("progress", PStr (text (λ m, last_chars 4000 (default ""%string (pm_partial_text m)))));
   ("activities", PStr (text (λ m, last_chars 2000 (default ""%string (pm_partial_activities m)))))]%string.
Definition SAME_ATTEMPT : list string :=
  ["identity"; "state"; "guest_id"; "workflow_id"; "node_key"; "node_attempt"; "dispatch_count"; "last_dispatch_at"; "session_id"].
Definition same_at (key : string) (before after : dict) : bool := py_eq (dict_get key before) (dict_get key after).
Definition _same_attempt (before after : dict) : bool := forallb (λ k, same_at k before after) SAME_ATTEMPT.

(** ** Taking a review *)

(** A permit whose guest is proved to have ceased, with nothing newer. *)
Definition ceased (st : LDB) (s : AgentSession) : bool :=
  let db := l_db st in
  existsb (λ p,
    bool_decide (cr_session_id p = Some (as_id s)) && bool_decide (cr_local_session_id p = as_local_session_id s) &&
    bool_decide (cr_state p = "settled"%string) && bool_decide (cr_outcome p = Some "guest_cessation_confirmed"%string) &&
    match cr_settled_at p with
    | None => false
    | Some settled =>
        existsb (λ o,
          (po_permit_id o =? cr_id p) && bool_decide (po_reason o = "guest_cessation_confirmed"%string) &&
          match po_guest_id o, as_ember_session_id s with Some g, Some g' => bool_decide (g = g') | _, _ => false end &&
          is_set (po_identity_sha256 o) &&
          match po_settled_at o with Some t => (settled <=? t) && (sd_last_turn_at (as_detail s) <=? t) | None => false end)
          (l_observations st) &&
        negb (existsb (λ t, (tu_session_id t =? as_id s) && (cr_pending_seq p <? tu_seq t)) (a_turns db))
    end) (a_permits db).
Definition _unresolved_reviewer_binding (st : LDB) (s : AgentSession) : bool :=
  let db := l_db st in
  negb (str_in (as_status s) ["failed"; "warn"; "completed"; "cancelled"]) || is_set (as_result_receipt_fence_id s) ||
  is_set (as_guest_cleanup_id s) || existsb (λ m, pm_session_id m =? as_id s) (a_pending db) ||
  existsb (λ x, match as_ember_session_id x, as_ember_session_id s with
                | Some g, Some g' => bool_decide (g = g') && negb (as_id x =? as_id s)
                | _, _ => false end) (a_sessions db) ||
  existsb (λ p, bool_decide (cr_session_id p = Some (as_id s)) && negb (bool_decide (cr_state p = "settled"%string))) (a_permits db) ||
  negb (ceased st s).
Definition unsettled (p : Permit) : bool := negb (bool_decide (cr_state p = "settled"%string)).
(** Another review may still be running. *)
Definition review_busy (st : LDB) : bool :=
  existsb (λ p, reviewer (cr_local_session_id p) && unsettled p) (a_permits (l_db st)) ||
  existsb (λ s, reviewer (as_local_session_id s) && is_set (as_ember_session_id s) && _unresolved_reviewer_binding st s)
    (a_sessions (l_db st)) ||
  existsb (λ r, str_in (rv_state r) ["reviewing"; "applying"] &&
                match rv_requested_at r with Some t => l_now st - seconds RETRY_SECONDS <? t | None => false end) (l_reviews st).

Record Candidate := mkCandidate
  { cd_snapshot : dict; cd_key : string; cd_evidence : string; cd_previous : dict;
    cd_live_guest : option dict; cd_stop_identity : option dict; cd_stop_precondition : option dict }.

Definition new_review `{LeaseHooks} (p : Permit) : ReservationReview :=
  mkReview (cr_id p) (identity p) (initial_deadline p) None None None None None None None None None "pending" 0.
(** The row follows the permit it is about. *)
Definition rebound `{LeaseHooks} (p : Permit) (r : ReservationReview) : ReservationReview :=
  if bool_decide (rv_identity_sha256 r = identity p) then r else
  mkReview (rv_permit_id r) (identity p) (initial_deadline p) None (rv_completed_at r) (rv_review_session_key r)
    (rv_evidence_sha256 r) (rv_approved_evidence_sha256 r) (rv_stop_intent_json r) (rv_guidance r) (rv_verdict r)
    (rv_rationale r) "pending" (rv_attempts r).
Definition with_state (state : string) (rationale : option string) (r : ReservationReview) : ReservationReview :=
  mkReview (rv_permit_id r) (rv_identity_sha256 r) (rv_lease_expires_at r) (rv_requested_at r) (rv_completed_at r)
    (rv_review_session_key r) (rv_evidence_sha256 r) (rv_approved_evidence_sha256 r) (rv_stop_intent_json r) (rv_guidance r)
    (rv_verdict r) rationale state (rv_attempts r).
Definition blocked (why : string) : ReservationReview → ReservationReview := with_state "blocked" (Some why).
Definition requested (now : Z) (key evidence : string) (r : ReservationReview) : ReservationReview :=
  mkReview (rv_permit_id r) (rv_identity_sha256 r) (rv_lease_expires_at r) (Some now) (rv_completed_at r) (Some key)
    (Some evidence) (rv_approved_evidence_sha256 r) (rv_stop_intent_json r) (rv_guidance r) (rv_verdict r) (rv_rationale r)
    "reviewing" (rv_attempts r + 1).
Definition previous_review `{LeaseHooks} (r : ReservationReview) : dict :=
  [("verdict", opt_str (rv_verdict r)); ("reason", opt_str (rv_rationale r)); ("completed_at", PStr (str_time (rv_completed_at r)));
   ("approved_evidence", opt_str (rv_approved_evidence_sha256 r))]%string.
(** Not due yet, or asked for a moment ago. *)
Definition not_due (now : Z) (r : ReservationReview) : bool :=
  (now <? rv_lease_expires_at r - seconds LEAD_SECONDS) ||
  match rv_requested_at r with Some t => now - t <? seconds RETRY_SECONDS | None => false end.
Fixpoint review_permits `{IsoFormat, LeaseHooks} (key : string) (db : ADB) (permits : list Permit) (reviews : list ReservationReview)
    : option Candidate * list ReservationReview :=
  match permits with
  | [] => (None, reviews)
  | p :: permits =>
      let row := rebound p (default (new_review p) (get_review reviews (cr_id p))) in
      if bool_decide (rv_state row = "stopping"%string) then review_permits key db permits (put_review row reviews) else
      if bool_decide (cr_state p = "uncertain"%string)
      then review_permits key db permits
             (put_review (blocked "Unknown outcome requires authoritative cessation evidence" row) reviews) else
      if not_due (a_now db) row then review_permits key db permits (put_review row reviews) else
      let evidence := digest (PDict (_snapshot db p)) in
      (Some (mkCandidate (_snapshot db p) key evidence (previous_review row) None None None),
       put_review (requested (a_now db) key evidence row) reviews)
  end.
Definition reviewable (db : ADB) : list Permit :=
  py_sorted (λ a b, cr_created_at a <=? cr_created_at b)
    (filter (λ p, unsettled p && negb (reviewer (cr_local_session_id p)) = true) (a_permits db)).
(** [uuid] is the random part of the reviewer's session key. *)
Definition claim_review `{IsoFormat, LeaseHooks} (uuid : string) (st : LDB) : option Candidate * LDB :=
  if review_busy st then (None, st) else
  let '(candidate, reviews) := review_permits (REVIEW_PREFIX +:+ uuid) (l_db st) (reviewable (l_db st)) (l_reviews st) in
  (candidate, with_reviews (λ _, reviews) st).

(** ** The judge's decision *)

Record Decision := mkDecision { dc_action : string; dc_reason : string; dc_guidance : string }.
Definition DECISION_FIELDS : list string := ["action"; "reason"; "guidance"].
Definition ACTIONS : list string := ["approve"; "steer"; "stop"; "replan"].
Definition text_between (low high : nat) (v : pyval) : option string :=
  match v with
  | PStr s => if (low <=? String.length s)%nat && (String.length s <=? high)%nat then Some s else None
  | _ => None
  end.
Definition _decision `{TurnText} (raw : string) : res Decision :=
  match json_loads raw with
  | Some (PDict value) =>
      if negb ((length value =? 3)%nat && forallb (λ k, has_key k value) DECISION_FIELDS)
      then Raise (ValueError "Invalid review decision fields") else
      match dict_get "action" value with
      | PList _ | PDict _ => Raise TypeError
      | PStr action =>
          if negb (str_in action ACTIONS) then Raise (ValueError "Invalid review action") else
          match text_between 1 1000 (dict_get "reason" value), text_between 0 2000 (dict_get "guidance" value) with
          | None, _ => Raise (ValueError "Invalid review reason")
          | _, None => Raise (ValueError "Invalid review guidance")
          | Some reason, Some guidance =>
              if bool_decide (action = "steer"%string) && bool_decide (py_strip guidance = ""%string)
              then Raise (ValueError "Steering requires guidance") else Ok (mkDecision action reason guidance)
          end
      | _ => Raise (ValueError "Invalid review action")
      end
  | Some _ => Raise (ValueError "Invalid review decision fields")
  | None => Raise (ValueError "json")
  end.

(** [factory_funding._reservation_decision]. *)
Definition approvable (state : string) (current guest : dict) : bool :=
  bool_decide (state = "reserved"%string) && negb (truthy (dict_get "guest_id" current)) ||
  bool_decide (state = "running"%string) && py_eq (dict_get "session_status" current) (PStr "running") &&
  py_eq (dict_get "session_id" guest) (dict_get "guest_id" current) && py_eq (dict_get "state" guest) (PStr "running").
Definition reservation_refusal (d : Decision) (state : string) (before current guest : dict) (approved : option string) (evidence : string)
    : option string :=
  if bool_decide (dc_action d = "approve"%string) then
    if negb (approvable state current guest)
    then Some "Approval requires a known running guest or owned pre-dispatch reservation"%string
    else if bool_decide (approved = Some evidence) then Some "No substantive progress since the prior approval"%string else None
  else if negb (same_at "progress" before current && same_at "activities" before current)
  then Some "Progress changed while the stop decision was reviewed"%string else None.
Definition resolved_action (action : string) : string :=
  if bool_decide (action = "approve"%string) then "continue" else if bool_decide (action = "replan"%string) then "steer" else action.
Definition _reservation_decision (d : Decision) (state : string) (before current guest : dict) (approved : option string) (evidence : string)
    : res (string * option string) :=
  if negb (str_in (dc_action d) ACTIONS) then Raise (ValueError "Invalid review action")
  else Ok (resolved_action (dc_action d), reservation_refusal d state before current guest approved evidence).

(** The task whose dispatch this is. *)
Definition _review_task_id (st : LDB) (current : dict) : res (option string) :=
  if negb (truthy (dict_get "workflow_id" current)) then Ok None else
  match filter (λ r, py_eq (opt_str (nr_dispatch_key r)) (dict_get "workflow_id" current) &&
                     py_eq (PStr (nr_node_key r)) (dict_get "node_key" current) &&
                     py_eq (PInt (nr_attempt r)) (dict_get "node_attempt" current) = true) (l_runs st) with
  | [] => Ok None
  | [r] => Ok (if is_set (nr_session_id r) && negb (py_eq (opt_int (nr_session_id r)) (dict_get "session_id" current))
               then None else Some (nr_task_id r))
  | _ => Raise (RuntimeError "MultipleResultsFound")
  end.

Definition decided (now : Z) (d : Decision) (r : ReservationReview) : ReservationReview :=
  mkReview (rv_permit_id r) (rv_identity_sha256 r) (rv_lease_expires_at r) (rv_requested_at r) (Some now)
    (rv_review_session_key r) (rv_evidence_sha256 r) (rv_approved_evidence_sha256 r) (rv_stop_intent_json r)
    (Some (dc_guidance d)) (Some (dc_action d)) (Some (dc_reason d)) (rv_state r) (rv_attempts r).
Definition approved (now : Z) (evidence : string) (r : ReservationReview) : ReservationReview :=
  mkReview (rv_permit_id r) (rv_identity_sha256 r) (now + seconds INTERVAL_SECONDS) (rv_requested_at r) (rv_completed_at r)
    (rv_review_session_key r) (rv_evidence_sha256 r) (Some evidence) (rv_stop_intent_json r) (rv_guidance r) (rv_verdict r)
    (rv_rationale r) "approved" (rv_attempts r).
Definition stopping (intent : option dict) (r : ReservationReview) : ReservationReview :=
  mkReview (rv_permit_id r) (rv_identity_sha256 r) (rv_lease_expires_at r) (rv_requested_at r) (rv_completed_at r)
    (rv_review_session_key r) (rv_evidence_sha256 r) (rv_approved_evidence_sha256 r)
    (match intent with Some i => Some i | None => rv_stop_intent_json r end) (rv_guidance r) (rv_verdict r) (rv_rationale r)
    "stopping" (rv_attempts r).

(** The review is answered in time, for the attempt it was asked about. *)
Definition answers (now : Z) (c : Candidate) (current : dict) (row : ReservationReview) : res bool :=
  if negb (_same_attempt (cd_snapshot c) current) || negb (bool_decide (rv_state row = "reviewing"%string)) ||
     negb (bool_decide (rv_evidence_sha256 row = Some (cd_evidence c))) then Ok false else
  match rv_requested_at row with
  | Some t => Ok (now - t <=? seconds REVIEW_TIMEOUT_SECONDS)
  | None => Raise AttributeError
  end.
Definition park_job `{LeaseHooks} (d : Decision) (p : Permit) : res unit :=
  match or_text (cr_routine_job_name p) None with
  | Some job => if bool_decide (dc_action d = "stop"%string) then stop_unattempted_job job else Ok tt
  | None => Ok tt
  end.

(** Stopping a start outside the factory's own attempts: cancel what was never
    dispatched, else freeze the attempt and leave the intent to stop its guest. *)
Definition cancelled_start `{LeaseHooks} (d : Decision) (p : Permit) (db : ADB) : res (option ADB) :=
  match cr_session_id p with
  | None =>
      '(gone, db) ← cancel_unbound (cr_local_session_id p) (cr_pending_seq p) "cancelled_before_session" db;
      if negb gone then Raise (ValueError "Unbound reservation changed") else
      _ ← park_job d p; Ok (Some db)
  | Some s =>
      match get_session db s, get_pending_message db s (cr_pending_seq p) with
      | Some agent, Some pending =>
          '(gone, db) ← cancel_unattempted agent pending db;
          if negb gone then Ok None else
          _ ← park_job d p; Ok (Some (put_session (with_status "failed" agent) db))
      | _, _ => Ok None
      end
  end.
Definition stopped_attempt `{TurnText, IsoFormat} (c : Candidate) (p : Permit) (db : ADB) : res (dict * ADB) :=
  match cd_stop_precondition c with
  | None | Some [] => Raise (ValueError "Missing reviewed stop precondition")
  | Some precondition =>
      let before := cd_snapshot c in
      '(stopped, db) ← match cr_session_id p, dict_get "dispatch_count" before with
                       | Some s, PInt n =>
                           let text key := match dict_get key before with PStr v => Some v | _ => None end in
                           finish_unknown_pending_in_session s (cr_pending_seq p) (cr_owner p) n "reservation_review_stop"
                             (text "guest_id"%string) (text "workflow_id"%string) db
                       | _, _ => Ok (false, db)
                       end;
      if negb stopped then Raise (ValueError "Reviewed execution changed")
      else Ok ([("snapshot", PDict before); ("precondition", PDict precondition)]%string, db)
  end.
Definition apply_stop `{TurnText, IsoFormat, LeaseHooks} (c : Candidate) (d : Decision) (p : Permit) (db : ADB)
    : res (option dict * ADB) :=
  cancelled ← (if bool_decide (cr_state p = "reserved"%string) then cancelled_start d p db else Ok None);
  match cancelled with
  | Some db => Ok (None, db)
  | None => '(intent, db) ← stopped_attempt c p db; Ok (Some intent, db)
  end.

(** Whether the stop service of the factory is still to be asked. *)
Definition apply_decision `{TurnText, IsoFormat, LeaseHooks} (c : Candidate) (d : Decision) : tx LDB bool := λ st,
  let db := l_db st in
  let write r st := with_reviews (put_review r) st in
  match dict_get "permit_id" (cd_snapshot c) with
  | PInt id =>
      match get_review (l_reviews st) id, permit_by_id db id with
      | Some row, Some p =>
          if negb (unsettled p) || negb (bool_decide (rv_review_session_key row = Some (cd_key c))) then Ok (false, st) else
          let before := cd_snapshot c in
          let current := _snapshot db p in
          valid ← answers (l_now st) c current row;
          if negb valid then Ok (false, write (blocked "Review evidence or dispatch changed" row) st) else
          let row := decided (l_now st) d row in
          '(action, refusal) ← _reservation_decision d (cr_state p) before current (default [] (cd_live_guest c))
                                 (rv_approved_evidence_sha256 row) (cd_evidence c);
          task_id ← _review_task_id st current;
          let st := log (mkLeaseAudit (l_now st) task_id (cr_id p) (identity p) (cd_key c) (cd_evidence c) action refusal (dc_action d)) st in
          match refusal with
          | Some why => Ok (false, write (blocked why row) st)
          | None =>
              if bool_decide (action = "continue"%string) then Ok (false, write (approved (l_now st) (cd_evidence c) row) st) else
              match cd_stop_identity c with
              | None =>
                  '(intent, db) ← apply_stop c d p db;
                  Ok (false, write (stopping intent row) (with_db db st))
              | Some _ => Ok (true, write (with_state "applying" (rv_rationale row) row) st)
              end
          end
      | _, _ => Ok (false, st)
      end
  | _ => Raise (KeyError "permit_id")
  end.

(** What the stop service checks under its own lock before it acts. *)
Definition authorize_stop `{IsoFormat, LeaseHooks} (c : Candidate) (st : LDB) : res unit :=
  let before := cd_snapshot c in
  let expired : res unit := Raise (ValueError "Review authority expired or changed") in
  match dict_get "permit_id" before with
  | PInt id =>
      match get_review (l_reviews st) id with
      | Some row =>
          if negb (bool_decide (rv_state row = "applying"%string)) || negb (bool_decide (rv_review_session_key row = Some (cd_key c)))
          then expired else
          match rv_requested_at row with
          | None => Raise AttributeError
          | Some t =>
              match permit_by_id (l_db st) id with
              | Some p =>
                  let after := _snapshot (l_db st) p in
                  if (seconds REVIEW_TIMEOUT_SECONDS <? l_now st - t) || negb (_same_attempt before after) then expired
                  else if same_at "progress" before after && same_at "activities" before after then Ok tt
                  else Raise (ValueError "Progress changed before stop authorization")
              | None => expired
              end
          end
      | None => expired
      end
  | _ => Raise (KeyError "permit_id")
  end.
(** The rest of the decision, once the stop service accepted it. *)
Definition finish_stop (c : Candidate) (st : LDB) : LDB :=
  match dict_get "permit_id" (cd_snapshot c) with
  | PInt id =>
      match get_review (l_reviews st) id with
      | Some row => if bool_decide (rv_review_session_key row = Some (cd_key c))
                    then with_reviews (put_review (stopping None row)) st else st
      | None => st
      end
  | _ => st
  end.
Definition _failed (c : Candidate) (reason : string) (st : LDB) : LDB :=
  match dict_get "permit_id" (cd_snapshot c) with
  | PInt id =>
      match get_review (l_reviews st) id with
      | Some row =>
          if bool_decide (rv_review_session_key row = Some (cd_key c)) && negb (str_in (rv_state row) ["approved"; "stopping"])
          then with_reviews (put_review (blocked reason row)) st else st
      | None => st
      end
  | _ => st
  end.

(** ** Committed stops *)

(** [json.loads(turn.usage_json or "{}").get("recovery", {})]. *)
Definition usage_recovery (t : AgentTurn) : res pyval :=
  match loads_or (PDict []) (tu_usage_json t) with
  | Some (PDict usage) => Ok (get_or "recovery" (PDict []) usage)
  | Some _ => Raise AttributeError
  | None => Raise (ValueError "json")
  end.
(** Whether a committed stop names the dispatch that is about to act. *)
Definition stop_named (agent : AgentSession) (turn : AgentTurn) (owner : string) (dispatch_count : Z) (intent : dict) : res bool :=
  if negb (bool_decide (tu_stop_reason turn = Some UNKNOWN_INVOCATION)) then Ok false else
  before ← py_index "snapshot" (PDict intent);
  recovery ← usage_recovery turn;
  match before with
  | PDict before =>
      if negb (py_eq (dict_get "owner" before) (PStr owner) && py_eq (dict_get "dispatch_count" before) (PInt dispatch_count))
      then Ok false else
      match recovery with
      | PDict r =>
          Ok (py_eq (dict_get "claim_owner" r) (PStr owner) && py_eq (dict_get "dispatch_count" r) (PInt dispatch_count) &&
              py_eq (opt_str (as_workflow_id agent)) (dict_get "workflow_id" before) &&
              (negb (is_set (as_ember_session_id agent)) || py_eq (opt_str (as_ember_session_id agent)) (dict_get "guest_id" before)))
      | _ => Raise AttributeError
      end
  | _ => Raise TypeError
  end.
(** [any(...)], stopping at the first that holds. *)
Fixpoint res_exists {A} (f : A → res bool) (l : list A) : res bool :=
  match l with
  | [] => Ok false
  | x :: l => b ← f x; if (b : bool) then Ok true else res_exists f l
  end.
Definition stop_for (db : ADB) (session_id seq : Z) (r : ReservationReview) : bool :=
  bool_decide (rv_state r = "stopping"%string) &&
  existsb (λ p, (cr_id p =? rv_permit_id r) && bool_decide (cr_session_id p = Some session_id) && (cr_pending_seq p =? seq)) (a_permits db).
Definition stop_requested `{Environ} (session_id seq : Z) (owner : string) (dispatch_count : Z) (st : LDB) : res bool :=
  if negb enabled then Ok false else
  let db := l_db st in
  res_exists (λ r, match rv_stop_intent_json r, get_session db session_id, get_turn db session_id seq with
                   | Some ((_ :: _) as intent), Some agent, Some turn => stop_named agent turn owner dispatch_count intent
                   | _, _, _ => Ok false
                   end) (filter (λ r, stop_for db session_id seq r = true) (l_reviews st)).
