(* ===== verification/ReviewClaims.v ===== *)
(** * Review leases: what a lease rests on

    Every operation on the reviews as a step ([lease_step]), the invariant that
    each lease is either the first half hour of its permit or backed by a
    recorded decision ([lease_ok]), and the theorem for the fence of admission.
    A concrete instance ends the file ([ReviewDemo]). *)

From Stdlib Require Import SpecFloat Ascii.
From stdpp Require Import prelude list strings relations.
From S2P Require Import Prelude PyValue WorkItems GraphData PolicyData Controls Pricing Admission AdmissionInvariant TurnStore TurnDispatch TurnFacts ReviewLeases TurnWitness ReceiptClaims.
Local Open Scope Z_scope.

Section leases.
Context `{TurnText, IsoFormat, LeaseHooks}.
Implicit Types (r : ReservationReview) (l : list ReservationReview) (c : Candidate) (p : Permit) (st : LDB).

(** A reviewer answers for a candidate that was claimed: the observation of its
    guest is added on the way, the snapshot, key and evidence are not changed. *)
Definition issued_as (issued : list Candidate) c : Prop :=
  ∃ c0, c0 ∈ issued ∧ cd_snapshot c = cd_snapshot c0 ∧ cd_key c = cd_key c0 ∧ cd_evidence c = cd_evidence c0.
(** The random part of a reviewer's key is never drawn twice ([uuid4]). *)
Inductive lease_step : relation (list Candidate * LDB) :=
| ls_claim uuid issued st c st' :
    (∀ c0, c0 ∈ issued → cd_key c0 ≠ (REVIEW_PREFIX +:+ uuid)%string) →
    claim_review uuid st = (Some c, st') → lease_step (issued, st) (c :: issued, st')
| ls_idle uuid issued st st' : claim_review uuid st = (None, st') → lease_step (issued, st) (issued, st')
| ls_apply c d issued st b st' : issued_as issued c → apply_decision c d st = Ok (b, st') → lease_step (issued, st) (issued, st')
| ls_finish c issued st : lease_step (issued, st) (issued, finish_stop c st)
| ls_failed c reason issued st : lease_step (issued, st) (issued, _failed c reason st)
| ls_other issued st st' :
    l_reviews st' = l_reviews st → l_audits st' = l_audits st → l_now st ≤ l_now st' → lease_step (issued, st) (issued, st').

(** A recorded decision to go on. *)
Definition approves (a : LeaseAudit) (permit_id : Z) (id : string) : Prop :=
  la_permit_id a = permit_id ∧ la_identity_sha256 a = id ∧ la_action a = "continue"%string ∧ la_refusal a = None ∧
  la_legacy_verdict a = "approve"%string.
Definition justified (audits : list LeaseAudit) (now : Z) r : Prop :=
  (∃ p, identity p = rv_identity_sha256 r ∧ rv_lease_expires_at r = initial_deadline p) ∨
  ∃ a, a ∈ audits ∧ approves a (rv_permit_id r) (rv_identity_sha256 r) ∧ la_at a ≤ now ∧
       rv_lease_expires_at r = la_at a + seconds INTERVAL_SECONDS.
(** A row under review was claimed with the identity its candidate shows. *)
Definition claimed_row (issued : list Candidate) r : Prop :=
  (∀ k, rv_review_session_key r = Some k → ∃ c, c ∈ issued ∧ cd_key c = k) ∧
  ∀ c, c ∈ issued → rv_state r = "reviewing"%string → rv_review_session_key r = Some (cd_key c) →
       dict_get "identity" (cd_snapshot c) = PStr (rv_identity_sha256 r).
Definition row_good (issued : list Candidate) (audits : list LeaseAudit) (now : Z) r : Prop :=
  justified audits now r ∧ claimed_row issued r.
Definition lease_ok (x : list Candidate * LDB) : Prop :=
  ∀ r, r ∈ l_reviews x.2 → row_good x.1 (l_audits x.2) (l_now x.2) r.

Lemma put_review_elem r l x : x ∈ put_review r l → x = r ∨ x ∈ l.
Proof.
  unfold put_review. destruct (get_review l (rv_permit_id r)).
  - intros (y & Hy & ->)%elem_of_update_where. destruct (is_review _ y); auto.
  - intros [Hx | ->%list_elem_of_singleton]%elem_of_app; auto.
Qed.
Lemma review_found l id r : get_review l id = Some r → r ∈ l ∧ rv_permit_id r = id.
Proof. intros [? ?%Z.eqb_eq]%find_first_Some. done. Qed.
Lemma permit_found db id p : permit_by_id db id = Some p → p ∈ a_permits db ∧ cr_id p = id.
Proof. intros [? ?%Z.eqb_eq]%find_first_Some. done. Qed.

(** The lease, identity and key stay, and the row is not under review. *)
Lemma idled_good issued audits now r r' :
  rv_permit_id r' = rv_permit_id r → rv_identity_sha256 r' = rv_identity_sha256 r → rv_lease_expires_at r' = rv_lease_expires_at r →
  rv_review_session_key r' = rv_review_session_key r → rv_state r' ≠ "reviewing"%string →
  row_good issued audits now r → row_good issued audits now r'.
Proof.
  unfold row_good, justified, claimed_row. intros -> -> -> -> Hs (Hj & Hk & _). split; [done|]. by split.
Qed.
Lemma rebound_good issued audits now p r : row_good issued audits now r → row_good issued audits now (rebound p r).
Proof.
  intros (Hj & Hk & Hc). unfold rebound. case_bool_decide; [by repeat split|]. split; [left; by exists p|]. by split.
Qed.
Lemma new_good issued audits now p : row_good issued audits now (new_review p).
Proof. split; [left; by exists p|]. split; [done|]. done. Qed.
Lemma rebound_identity p r : rv_identity_sha256 (rebound p r) = identity p.
Proof. unfold rebound. by case_bool_decide. Qed.
Lemma row_for_good issued audits now p l :
  (∀ r, r ∈ l → row_good issued audits now r) →
  row_good issued audits now (rebound p (default (new_review p) (get_review l (cr_id p)))).
Proof.
  intros Hl. apply rebound_good. destruct (get_review l (cr_id p)) as [r|] eqn:E; [|apply new_good].
  apply review_found in E as [Hr _]. by apply Hl.
Qed.

(** The loop of a claim: rows stay good, and the one claimed shows its candidate. *)
Lemma review_permits_good key issued audits db permits : ∀ l,
  (∀ r, r ∈ l → row_good issued audits (a_now db) r) →
  let '(out, l') := review_permits key db permits l in
  match out with
  | None => ∀ r, r ∈ l' → row_good issued audits (a_now db) r
  | Some c => cd_key c = key ∧ ∀ r, r ∈ l' → row_good issued audits (a_now db) r ∨
      justified audits (a_now db) r ∧ rv_review_session_key r = Some key ∧ dict_get "identity" (cd_snapshot c) = PStr (rv_identity_sha256 r)
  end.
Proof.
  induction permits as [|p permits IH]; intros l Hl; [done|]. cbn [review_permits]. cbv zeta.
  pose proof (row_for_good issued audits (a_now db) p l Hl) as Hrow. set (row := rebound p _) in *.
  assert (∀ r', row_good issued audits (a_now db) r' → ∀ r, r ∈ put_review r' l → row_good issued audits (a_now db) r) as Hput.
  { intros r' Hr' r [->|Hr]%put_review_elem; auto. }
  case_bool_decide; [apply IH; by apply Hput|].
  case_bool_decide; [apply IH, Hput, (idled_good _ _ _ row); done|].
  destruct (not_due (a_now db) row); [apply IH; by apply Hput|]. split; [done|].
  intros r [->|Hr]%put_review_elem; [right|left; auto]. split; [apply Hrow|]. split; [done|]. simpl.
  unfold row; by rewrite rebound_identity.
Qed.
Lemma claim_good uuid issued st out st' :
  lease_ok (issued, st) → claim_review uuid st = (out, st') →
  (∀ c, out = Some c → ∀ c0, c0 ∈ issued → cd_key c0 ≠ (REVIEW_PREFIX +:+ uuid)%string) →
  lease_ok (match out with Some c => c :: issued | None => issued end, st').
Proof.
  intros Hok. unfold claim_review. destruct (review_busy st); [by intros [= <- <-]|].
  pose proof (review_permits_good (REVIEW_PREFIX +:+ uuid) issued (l_audits st) (l_db st) (reviewable (l_db st)) (l_reviews st) Hok) as Hloop.
  destruct (review_permits _ _ _ _) as [o l']. intros [= <- <-] Hfresh r Hr. simpl in *.
  destruct o as [c|]; [|by apply Hloop]. destruct Hloop as [Hkey Hrows]. specialize (Hfresh c eq_refl).
  destruct (Hrows r Hr) as [(Hj & Hk & Hc)|(Hj & Hk & Hid)]; (split; [done|]).
  - split.
    + intros k (c0 & Hc0 & Ek)%Hk. exists c0. split; [by right|done].
    + intros c0 [->|Hc0]%elem_of_cons Hs Hkk; [|auto]. apply Hk in Hkk as (c1 & Hc1 & E). destruct (Hfresh c1 Hc1). congruence.
  - split.
    + intros k Ek. exists c. split; [by left|congruence].
    + intros c0 [->|Hc0]%elem_of_cons Hs Hkk; [done|]. destruct (Hfresh c0 Hc0). congruence.
Qed.

Lemma decided_good issued audits now d r : row_good issued audits now r → row_good issued audits now (decided now d r).
Proof. done. Qed.
Lemma logged_good issued audits now a r : row_good issued audits now r → row_good issued (audits ++ [a]) now r.
Proof.
  intros [[Hp|(x & Hx & Hrest)] Hk]; (split; [|done]); [by left|right]. exists x. split; [apply elem_of_app; by left|done].
Qed.
Lemma same_text key before after s : same_at key before after = true → dict_get key after = PStr s → dict_get key before = PStr s.
Proof.
  unfold same_at. intros He Hs. rewrite Hs in He. destruct (dict_get key before); try done. simpl in He.
  by apply bool_decide_eq_true in He as ->.
Qed.
(** Stopping writes the execution tables only, at the same time. *)
Lemma settle_now agent seq outcome confirmed db : a_now (settle agent seq outcome confirmed db) = a_now db.
Proof.
  unfold settle. pose proof (adopt_world agent seq "uncertain" None None db) as (_ & _ & _ & Hn).
  destruct (_adopt agent seq "uncertain" None None db). simpl in Hn. by case_bool_decide.
Qed.
Lemma finish_unknown_now row m cause db db' : _finish_unknown_locked row m cause db = Ok db' → a_now db' = a_now db.
Proof.
  unfold _finish_unknown_locked. destruct (finished _); [by intros [= <-]|]. intros (db1 & Ha & [= <-])%res_bind_ok. simpl.
  revert Ha. unfold add_turn. destruct (get_turn _ _ _); [done|]. intros [= <-]. simpl.
  transitivity (a_now (settle row (pm_seq m) (Some cause) false db)); [|apply settle_now]. by destruct (get_turn db _ _).
Qed.
Lemma apply_stop_now c d p db intent db' : apply_stop c d p db = Ok (intent, db') → a_now db' = a_now db.
Proof.
  unfold apply_stop. intros (cancelled & Hc & Hq)%res_bind_ok. destruct cancelled as [db1|].
  - injection Hq as _ <-. destruct (bool_decide _); [|done]. revert Hc. unfold cancelled_start.
    destruct (cr_session_id p) as [s|].
    + destruct (get_session db s) as [agent|]; [|done]. destruct (get_pending_message db s _) as [m|]; [|done].
      intros ([gone db2] & Hg & Hq)%res_bind_ok. destruct gone; [|done]. apply res_bind_ok in Hq as ([] & _ & [= <-]). simpl.
      revert Hg. unfold cancel_unattempted. next_guard; [done|]. destruct (reservation _ _ _); [|by intros [= <-]].
      next_guard; [done|]. intros [= <-]. apply settle_now.
    + intros ([gone db2] & Hg & Hq)%res_bind_ok. destruct gone; [|done]. apply res_bind_ok in Hq as ([] & _ & [= <-]).
      revert Hg. unfold cancel_unbound. destruct (reservation _ _ _); [|done]. next_guard; [done|]. by intros [= <-].
  - apply res_bind_ok in Hq as ([i db1] & Hs & [= _ <-]). revert Hs. unfold stopped_attempt.
    destruct (cd_stop_precondition c) as [[|]|]; [done| |done]. intros ([stopped db2] & Hf & Hq)%res_bind_ok.
    destruct stopped; [|done]. injection Hq as _ <-. destruct (cr_session_id p) as [s|]; [|done].
    destruct (dict_get "dispatch_count" _); try done. revert Hf. unfold finish_unknown_pending_in_session.
    destruct (get_session db s); [|done]. destruct (get_pending_message db s _); [|done]. next_guard; [done|].
    intros (db3 & Hf & [= <-])%res_bind_ok. by eapply finish_unknown_now.
Qed.
Lemma apply_good c d issued st b st' :
  issued_as issued c → lease_ok (issued, st) → apply_decision c d st = Ok (b, st') → lease_ok (issued, st').
Proof.
  intros (c0 & Hc0 & Esnap & Ekey & Eev) Hok. unfold apply_decision.
  destruct (dict_get "permit_id" (cd_snapshot c)) as [| |id| | | | |]; try done.
  destruct (get_review (l_reviews st) id) as [row|] eqn:Er; [|by intros [= _ <-]].
  destruct (permit_by_id (l_db st) id) as [p|] eqn:Ep; [|by intros [= _ <-]].
  apply review_found in Er as [Hrow Hid]. apply permit_found in Ep as [Hp Hpid].
  assert (row_good issued (l_audits st) (l_now st) row) as Hgood by by apply Hok.
  assert (∀ audits r', (∀ r, row_good issued (l_audits st) (l_now st) r → row_good issued audits (l_now st) r) →
            row_good issued audits (l_now st) r' → ∀ x, x ∈ put_review r' (l_reviews st) → row_good issued audits (l_now st) x) as Hput.
  { intros audits r' Hmono Hr' x [->|Hx]%put_review_elem; [done|]. by apply Hmono, Hok. }
  next_guard; [by intros [= _ <-]|]. apply orb_false_iff in Heqb0 as [_ Hkey%negb_false_iff%bool_decide_eq_true].
  intros (valid & Hv & Hq)%res_bind_ok. revert Hq. next_guard.
  { intros [= _ <-] x Hx. simpl in *. revert x Hx. apply Hput; [done|]. by apply (idled_good _ _ _ row). }
  assert (rv_state row = "reviewing"%string ∧ _same_attempt (cd_snapshot c) (_snapshot (l_db st) p) = true) as [Hrev Hsame].
  { apply negb_false_iff in Heqb0. subst valid. revert Hv. unfold answers. next_guard; [done|]. intros _.
    rewrite !orb_false_iff, !negb_false_iff, !bool_decide_eq_true in Heqb0. tauto. }
  assert (rv_identity_sha256 row = identity p) as Hident.
  { destruct Hgood as (_ & _ & Hcl). specialize (Hcl c0 Hc0 Hrev). rewrite Hkey, Ekey in Hcl. specialize (Hcl eq_refl).
    unfold _same_attempt in Hsame. rewrite forallb_forall in Hsame.
    assert (dict_get "identity" (cd_snapshot c) = PStr (identity p)) as E.
    { apply (same_text _ _ (_snapshot (l_db st) p)); [apply Hsame; by left|done]. }
    rewrite Esnap, Hcl in E. by injection E. }
  intros ([action refusal] & Hdec & Hq)%res_bind_ok. apply res_bind_ok in Hq as (task & _ & Hq).
  match type of Hq with context [log ?x st] => set (a := x) in Hq end.
  assert (∀ r, row_good issued (l_audits st) (l_now st) r → row_good issued (l_audits (log a st)) (l_now st) r) as Hmono
    by (intros r; apply logged_good).
  destruct refusal as [why|].
  { injection Hq as _ <-. intros x Hx. simpl in Hx. revert x Hx. apply Hput; [done|]. apply Hmono. by apply (idled_good _ _ _ row). }
  revert Hq. case_bool_decide as Hact.
  { intros [= _ <-] x Hx. simpl in Hx. revert x Hx. apply Hput; [done|]. split; [right|split; [apply Hgood|by intros]]. exists a.
    split; [apply elem_of_app; right; by apply list_elem_of_singleton|]. unfold approves. simpl. rewrite Hid, Hident.
    split_and!; try done. revert Hdec. unfold _reservation_decision. next_guard; [done|].
    intros [= Ha _]. rewrite Hact in Ha. unfold resolved_action in Ha. repeat case_bool_decide; try done.
    apply negb_false_iff in Heqb1. unfold str_in in Heqb1. apply bool_decide_eq_true in Heqb1. rewrite Ha in Heqb1. by absurd_in Heqb1. }
  destruct (cd_stop_identity c).
  { intros [= _ <-] x Hx. simpl in Hx. revert x Hx. apply Hput; [done|]. apply Hmono. by apply (idled_good _ _ _ row). }
  intros ([intent db'] & Hs & [= _ <-])%res_bind_ok x Hx. simpl in Hx. apply apply_stop_now in Hs.
  change (row_good issued (l_audits (log a st)) (a_now db') x). rewrite Hs. revert x Hx. apply Hput; [done|]. apply Hmono. by apply (idled_good _ _ _ row).
Qed.
Lemma step_good x y : lease_step x y → lease_ok x → lease_ok y.
Proof.
  destruct 1 as [uuid issued st c st' Hfresh Hc|uuid issued st st' Hc|c d issued st b st' Hi Ha|c issued st|c reason issued st|
    issued st st' Er Ea Hn]; intros Hok.
  - apply (claim_good uuid issued st (Some c) st' Hok Hc). by intros ? [= <-].
  - by apply (claim_good uuid issued st None st' Hok Hc).
  - by eapply apply_good.
  - unfold finish_stop. destruct (dict_get _ _) as [| |id| | | | |]; try done. destruct (get_review _ id) as [row|] eqn:E; [|done].
    case_bool_decide; [|done]. apply review_found in E as [Hrow _]. intros r [->|Hr]%put_review_elem; [|by apply Hok].
    apply (idled_good _ _ _ row); try done. by apply Hok.
  - unfold _failed. destruct (dict_get _ _) as [| |id| | | | |]; try done. destruct (get_review _ id) as [row|] eqn:E; [|done].
    destruct (_ && _); [|done]. apply review_found in E as [Hrow _]. intros r [->|Hr]%put_review_elem; [|by apply Hok].
    apply (idled_good _ _ _ row); try done. by apply Hok.
  - intros r Hr. simpl in *. rewrite Er in Hr. rewrite Ea. destruct (Hok r Hr) as [[Hp|(a & Ha & Hap & Hle & He)] Hk]; (split; [|done]);
      [by left|right]. exists a. split_and!; try done. simpl in *. lia.
Qed.

(** C8: no side effect outside a reviewed lease. From a table without reviews,
    whatever runs of claims, decisions, failures and writes by other parts: when
    the last fence before a side effect opens for a permit while reviews are on,
    then the permit is the reviewer's own, or it is within half an hour of the
    creation its identity names, or a decision of the judge to approve this very permit (its id and
    its whole identity) is on record, unrefused and less than half an hour old.
    Heartbeats, progress and retries of the executor renew nothing. *)
Theorem dispatch_within_lease (En : Environ) start st issued st' s q owner workload db' :
  l_reviews st = [] → rtc lease_step ([], st) (issued, st') → enabled = true →
  @recheck (leased start (l_reviews st')) s q owner workload (l_db st') = Ok (true, db') →
  ∃ p, p ∈ a_permits (l_db st') ∧ cr_session_id p = Some s ∧ cr_pending_seq p = q ∧ cr_owner p = Some owner ∧
    (reviewer (cr_local_session_id p) = true ∨
     (∃ p0, identity p0 = identity p ∧ l_now st' < initial_deadline p0) ∨
     ∃ a, a ∈ l_audits st' ∧ approves a (cr_id p) (identity p) ∧ la_at a ≤ l_now st' < la_at a + seconds INTERVAL_SECONDS).
Proof.
  intros Hempty Hrun Hon. assert (lease_ok (issued, st')) as Hok.
  { assert (∀ x y, rtc lease_step x y → lease_ok x → lease_ok y) as Hind by (induction 1; eauto using step_good).
    apply (Hind _ _ Hrun). intros r Hr. simpl in Hr. rewrite Hempty in Hr. by apply elem_of_nil in Hr. }
  unfold recheck. destruct (find_first _ (a_permits (l_db st'))) as [p|] eqn:Ep; [|done].
  apply find_first_Some in Ep as [Hp [Hps%bool_decide_eq_true Hpq%Z.eqb_eq]%andb_true_iff].
  next_guard; [|done]. intros _. unfold may_run in Heqb. rewrite !andb_true_iff in Heqb.
  destruct Heqb as [[[[[[_ Hown%bool_decide_eq_true] _] _] _] _] Hmay]. exists p. do 4 (split; [done|]).
  simpl in Hmay. unfold ReviewLeases.may_dispatch in Hmay. rewrite Hon in Hmay. simpl in Hmay.
  apply orb_true_iff in Hmay as [Hrev|Hlt%Z.ltb_lt]; [by left|right]. unfold deadline in Hlt.
  destruct (get_review (l_reviews st') (cr_id p)) as [row|] eqn:Er; [|left; by exists p].
  case_bool_decide as Eid; [|left; by exists p]. apply review_found in Er as [Hrow Hid].
  destruct (Hok row Hrow) as [[(p0 & E0 & Edl)|(a & Ha & Hap & Hle & Edl)] _]; simpl in *.
  - left. exists p0. split; [congruence|]. unfold l_now. by rewrite <-Edl.
  - right. exists a. split; [done|]. rewrite <-Hid, <-Eid. split; [done|]. unfold l_now in *. split; [done|]. by rewrite <-Edl.
Qed.

(** A review is claimed for a dispatch that is not the reviewer's own and not
    settled, and only when no other review may still be running. *)
Lemma claim_exclusive uuid st c st' :
  claim_review uuid st = (Some c, st') → review_busy st = false ∧ ∃ p, p ∈ a_permits (l_db st) ∧ unsettled p = true ∧
    reviewer (cr_local_session_id p) = false ∧ cd_snapshot c = _snapshot (l_db st) p ∧ cd_evidence c = digest (PDict (_snapshot (l_db st) p)).
Proof.
  unfold claim_review. destruct (review_busy st); [done|]. destruct (review_permits _ _ _ _) as [o l'] eqn:E. intros [= -> _].
  split; [done|]. assert (∀ p, p ∈ reviewable (l_db st) → p ∈ a_permits (l_db st) ∧ unsettled p = true ∧ reviewer (cr_local_session_id p) = false) as Hall.
  { intros p [[Hu Hr%negb_true_iff]%andb_true_iff Hp]%elem_of_py_sorted%list_elem_of_filter. done. }
  revert Hall E. generalize (reviewable (l_db st)) (l_reviews st). intros ps. induction ps as [|p ps IH]; intros l Hall; [done|].
  cbn [review_permits]. cbv zeta. assert (∀ p0, p0 ∈ ps → p0 ∈ a_permits (l_db st) ∧ unsettled p0 = true ∧ reviewer (cr_local_session_id p0) = false) as Hps
    by (intros p0 Hp0; apply Hall; by right).
  case_bool_decide; [by apply IH|]. case_bool_decide; [by apply IH|]. destruct (not_due _ _); [by apply IH|].
  intros [= <- _]. exists p. destruct (Hall p) as (? & ? & ?); [by left|done].
Qed.
End leases.

(** * Review leases: a concrete instance of the theorem *)

Module ReviewDemo.

#[local] Existing Instances ReceiptDemo.text TurnDemo.iso.
#[local] Instance env : Environ := λ name, if bool_decide (name = "FACTORY_RESERVATION_REVIEW_ENABLED"%string) then Some "true"%string else None.
Definition field (v : pyval) : string := match v with PStr s => s | PInt n => TurnDemo.stamp n | _ => "-" end.
#[local] Instance hooks : LeaseHooks :=
  {| digest := λ v, match v with PDict kv => foldr (λ p acc, (p.1 +:+ "=" +:+ field p.2 +:+ ";" +:+ acc)%string) "" kv | _ => field v end;
     str_time := λ t, match t with Some t => TurnDemo.stamp t | None => "None" end; stop_unattempted_job := λ _, Ok tt |}.

(** The first attempt of [ReceiptDemo], near the end of its first half hour. *)
Definition at_time (t : Z) (st : LDB) : LDB :=
  with_db (mkADB (a_permits (l_db st)) (a_sessions (l_db st)) (a_pending (l_db st)) (a_turns (l_db st)) (a_receipts (l_db st)) t) st.
Definition start : LDB := mkLDB ReceiptDemo.start [] [] [] [].
Definition due : LDB := Eval vm_compute in at_time (seconds 1600) start.
Definition candidate : Candidate := Eval vm_compute in
  default (mkCandidate [] "" "" [] None None None) (claim_review "uuid-1" due).1.
Definition claimed : LDB := Eval vm_compute in (claim_review "uuid-1" due).2.
(** The guest is seen running, and the judge approves. *)
Definition observed : Candidate :=
  mkCandidate (cd_snapshot candidate) (cd_key candidate) (cd_evidence candidate) (cd_previous candidate)
    (Some [("session_id", PStr "guest-1"); ("state", PStr "running")]%string) None None.
Definition approval : Decision := mkDecision "approve" "steady progress" "".
Definition renewed : LDB := Eval vm_compute in
  match apply_decision observed approval claimed with Ok (_, st) => st | Raise _ => start end.
(** Past the first half hour, within the second. *)
Definition later : LDB := Eval vm_compute in at_time (seconds 2000) renewed.

Lemma run : rtc lease_step ([], start) ([candidate], later).
Proof.
  apply (rtc_l _ _ ([], due)); [apply ls_other; [reflexivity|reflexivity|vm_compute; discriminate]|].
  apply (rtc_l _ _ ([candidate], claimed)); [apply (ls_claim "uuid-1"); [by intros c ?%elem_of_nil|vm_compute; reflexivity]|].
  apply (rtc_l _ _ ([candidate], renewed)).
  - apply (ls_apply observed approval _ _ false); [|vm_compute; reflexivity]. exists candidate.
    split; [by apply list_elem_of_singleton|]. split; [reflexivity|]. split; reflexivity.
  - apply rtc_once, ls_other; [reflexivity|reflexivity|vm_compute; discriminate].
Qed.
Definition run_fence (st : LDB) : res (bool * ADB) :=
  @recheck (leased (λ _ _ _, Ok true) (l_reviews st)) 1 1 "pod-a" None (l_db st).
Lemma lease_witness : ∃ p, p ∈ a_permits (l_db later) ∧ cr_session_id p = Some 1 ∧ cr_pending_seq p = 1 ∧ cr_owner p = Some "pod-a"%string ∧
  (reviewer (cr_local_session_id p) = true ∨
   (∃ p0, identity p0 = identity p ∧ l_now later < initial_deadline p0) ∨
   ∃ a, a ∈ l_audits later ∧ approves a (cr_id p) (identity p) ∧ la_at a ≤ l_now later < la_at a + seconds INTERVAL_SECONDS).
Proof.
  apply (dispatch_within_lease env (λ _ _ _, Ok true) start [candidate] later 1 1 "pod-a" None (default (l_db start) (match run_fence later with Ok (_, db) => Some db | Raise _ => None end))).
  - reflexivity.
  - exact run.
  - vm_compute. reflexivity.
  - vm_compute. reflexivity.
Defined.
(** Without the approval the fence is shut. *)
Example unreviewed : run_fence (at_time (seconds 2000) start) = Ok (false, l_db (at_time (seconds 2000) start)).
Proof. vm_compute. reflexivity. Qed.
End ReviewDemo.
